(* ===== verification/_CoqProject ===== *)
-Q . S2P
Prelude.v
Model.v
Reach.v
Graph.v
GraphOrder.v
GraphValid.v
State.v
Action.v
Contract.v
ContractProps.v
Logical.v
Evidence.v
Prerequisites.v
Effects.v
Report.v
PlanOrder.v
Compose.v
ComposeProps.v
ComposeKeeps.v
Simulate.v
SimulateProps.v
Wire.v
Observation.v
Correlate.v
Observe.v
Execution.v
ExecutionProps.v
Live.v
LiveProps.v
LiveGoal.v
Draft.v
Build.v
BuildProps.v
PreviewProps.v
Session.v
SessionProps.v
Documents.v
DocumentProps.v
History.v
Freeze.v
Json.v
WireJsonProps.v
Examples.v
Native.v
Recipes.v
Scope.v
ScopeProps.v
Bindings.v
BindingProps.v
ProbeNames.v
ProbeBlock.v
ProbeTopology.v
Lsblk.v
ProbeProps.v
NativeLayers.v
Targets.v
Assemble.v
AssembleProps.v
Checkpoint.v
StoreProps.v
Host.v
HostProps.v
Incident.v
IncidentProps.v
Coordinator.v
CoordinatorProps.v
Protocol.v
Registry.v
Adapters.v
Facade.v
FacadeProps.v
Requests.v
RequestProps.v
Transport.v
TransportProps.v
Policy.v
Cli.v
RuntimeExamples.v
AppExamples.v
ProbeExamples.v
