(* ===== verification/Prelude.v ===== *)
(** * Verification of disksgraph

    disksgraph plans changes to the storage of a Linux host and drives their
    execution.  The parts of the program and how they meet:

    - [storage-core] holds the canonical model: a graph of storage objects, the
      mounts, the observed [CurrentState] and the requested [DesiredState];
    - [storage-provider] holds the typed actions, derives the trusted contract
      of an action from a graph (prerequisites, locked resources, predicted
      effect, stale facts, postconditions) and checks action parameters;
    - [storage-engine] composes provider fragments into an [ExecutionPlan],
      replays plans against an observed baseline and a goal, stores them as
      [PlanDocument]s and keeps the state of one execution attempt;
    - [storage-probe] turns the answers of native libraries, or a recorded
      [lsblk] snapshot, into a [CurrentState];
    - [storage-runtime] probes the host, admits and dispatches actions of a run,
      reports back to it and keeps the marker of an unfinished attempt, whose
      incident a later session can inspect and acknowledge;
    - [disksgraph] owns the sessions, plans and attempts of one application and
      answers JSON requests about them; [disksgraph-ffi] runs such applications
      on worker threads behind numbered contexts; [dg-cli] is the command line.

    The development covers all of them between the answers of the native
    libraries, the requests of a client and the exit code of a command, with
    the operating system behind interfaces.

    ** Files

    - [Prelude]: results, machine integers, sets as lists, panics and fuel;
    - [Model], [State]: the types and sizes of [storage-core/src/model];
    - [Reach]: worklist reachability, acyclicity and orders of finite digraphs,
      shared by the five graph walks of the program;
    - [Graph], [GraphOrder], [GraphValid]: [graph.rs], its walks, the structural
      invariant and the import of graphs;
    - [Action]: [action.rs], [planning.rs], [plan.rs] and the data of [contract.rs];
    - [Contract], [ContractProps]: [contract.rs], contract by contract;
    - [Logical]: [logical.rs] and the validation part of [luks.rs];
    - [Evidence]: [simulation_evidence.rs]; [Prerequisites]: [prerequisites.rs];
      [Effects]: [effects.rs];
    - [Report]: goal comparison of [simulate.rs], protection of [validate.rs];
    - [PlanOrder], [Compose], [ComposeProps], [ComposeKeeps]: [compose.rs];
    - [Simulate], [SimulateProps]: [simulate.rs] and [validate.rs] on plans;
    - [Wire]: [wire.rs] without its JSON text; [Observation]: [LiveObservation]
      of [execution.rs] and its validation;
    - [Correlate]: [editing/correlate.rs], the recognition of one object in two
      observations by its durable identity; [Observe]: [observe.rs], the
      capacity evidence of a baseline;
    - [Execution], [ExecutionProps]: [execution.rs];
    - [Live]: [live.rs] and [live/]; [LiveProps]: its admission and result
      checks; [LiveGoal]: its final check and the
      verdict of a run;
    - [Draft]: the editable requests of [editing/draft.rs] and their checks;
      [Build], [BuildProps], [PreviewProps]: [editing/build.rs], the
      validation of a draft, its lowering to fragments and the preview;
    - [Session], [SessionProps]: [editing/session.rs], [History]: its commands
      as a transition system and as a bounded undo/redo editor;
    - [Documents], [DocumentProps]: preview and session documents, rebase on a
      new observation; [Freeze]: turning a session into a run;
    - [Json], [WireJsonProps]: the JSON values of [serde_json] and the plan
      documents of [storage-engine/src/wire.rs], their canonical text,
      comparison of observations and decoding;
    - [Examples]: concrete plans, sessions and documents on which the theorems
      are applied;
    - [Native]: the records [storage-provider/src/lib.rs] and [lvm_write.rs]
      exchange with native libraries; [ProbeNames]: the names,
      numbers and identities [storage-probe] derives from them;
      [ProbeBlock], [ProbeTopology]:
      [storage-probe/src/linux.rs], from block devices through the layers on
      top of them to one probe of the system; [Lsblk]: [parse/lsblk.rs],
      [parse/mounts.rs] and [parse/sysfs.rs]; [Assemble]: [assemble.rs];
    - [ProbeProps], [NativeLayers], [AssembleProps]: the graphs these produce, [ProbeExamples]: a machine;
    - [Recipes]: [lvm_write.rs], [filesystem_write.rs] and [mount_write.rs] of
      [storage-provider], the requests native adapters accept;
    - [Scope], [ScopeProps]: the part of [targets.rs] of [storage-runtime] that
      compares a live observation with the part of the baseline a plan relies
      on; [Targets]: its resolution of the endpoints of actions, with [probe.rs],
      the observation made of one probe pass;
    - [Bindings], [BindingProps]: [bindings.rs] and [filesystem.rs], the
      verified outputs of a run;
    - [Checkpoint], [StoreProps]: the active attempt of [checkpoint.rs], its file
      format, [checkpoint/store.rs] and [lease.rs] over an interface of the
      system calls;
    - [Host], [HostProps]: [host.rs], [dispatcher.rs], [capability.rs] and
      [authorization.rs], the live host of a coordinator;
    - [Incident], [IncidentProps]: [incident.rs], the review
      of an unfinished attempt;
    - [Coordinator], [CoordinatorProps]: [coordinator.rs]; [Protocol]: whole
      sequences of coordinator calls;
    - [Registry]: the backend manifests and the registry of
      [storage-provider/src/lib.rs], the loading of [dylib.rs], the envelopes of
      [transport.rs] and the configuration of [disksgraph/src/native.rs];
    - [Adapters]: [endpoint.rs], [native_lvm.rs], [native_ext4.rs],
      [native_mount.rs] and [native_storage.rs] of [storage-runtime], the
      sessions of [dylib/lvm.rs], [dylib/filesystem_write.rs] and
      [dylib/libmount.rs], the dispatcher of [native/owned.rs], and the discovery
      of [dylib/udev.rs], [fdisk.rs], [blkid.rs] and [mdraid.rs];
    - [Facade], [FacadeProps]: [lib.rs], [error.rs], [sessions.rs], [plans.rs],
      [runs.rs] and [lifecycle.rs] of [disksgraph], the application;
    - [Requests], [RequestProps]: [wire.rs] of [disksgraph], the requests, reviews
      and replies, the redaction of [diagnostics.rs] and the read-only host of
      [native.rs];
    - [Transport], [TransportProps]: [registry.rs] and [jobs.rs] of
      [disksgraph-ffi], contexts, their workers and their callers as one step
      relation, in which receiving a message, running it, answering and leaving
      the loop are steps of their own;
    - [Policy]: [native/policy.rs] and [native/owned.rs] of [disksgraph],
      [confirmation.rs] of [dg-cli] and the callbacks of [disksgraph-ffi];
    - [Cli]: the rest of [dg-cli/src], from the arguments to the exit code;
    - [RuntimeExamples]: an in-memory machine on which a run creates a volume;
      [AppExamples]: the same machine behind the application, a context and
      the command line.

    A Rust function [f] is a definition [f] in the file of its module, with its
    loops as named helpers next to it; a method with [&mut self] returns the
    new value (next to its result where an early return can leave a change).

    ** What the theorems show

    - Composition (C1-C3) returns on every input; the plan is a DAG on its
      actions in which conflicting actions are ordered and inputs are created
      before their users.
    - Previews and sessions (C4-C8, C38-C39): a preview belongs to its draft
      and keeps the user's order; every command of a session, a rebase
      included, is atomic, keeps the session invariant and refines an editor with
      a bounded history; a rebase is accepted exactly by the session, revision,
      baseline and draft it was prepared from; a session survives
      being stored; freezing yields a document whose run starts.
    - Replay (C9-C11): a composed plan replays to itself, a report without
      violations leaves the protected objects as observed, and a complete
      report means that conditions, goal and requests are met.
    - Import (C12): an accepted document has a well-formed plan with
      recalculated contracts that promise what the document said.
    - Runs (C13-C15): each call is atomic and follows a transition system; one
      action is active at a time, after its predecessors; a verified action has
      complete evidence.
    - Coordinated execution (C16-C17, C19, C21-C23): a backend is called only for the
      active action of the run, under the lock and with its marker on disk; a
      run the coordinator reports verified reached its goal; an endpoint is
      granted only for what the authority was asked about; resolution of outputs
      terminates and keeps the bindings consistent; the marker file is created
      once and cleared only by its owner, or by the acknowledgment of a
      reviewed, unchanged incident.
    - The application (C24-C25): its tables stay bounded and hold sessions and
      documents that satisfy their invariants; a failed attempt is retained with
      its error, or nothing happened.
    - Requests (C26-C27): reviews stay bounded and belong to their sessions; the
      default host never calls a backend and never leaves a marker.
    - Contexts (C28-C31): over every interleaving of threads, contexts and
      identities are bounded, a waiting caller is served, answered or told that
      the worker stopped, and can always come back, a closed context's worker has
      been joined, and a job's mailbox replays the events of the one run it was
      started for.
    - Consent and the command line (C18, C32-C34): the root policy authorizes
      only what was shown and repeated exactly; [plan apply] exits with success
      only for a verified attempt at the document of its file, and with the whole
      stream of events written; documents are replaced atomically and read back as
      they were saved; every
      invocation can be written and is read as what it says.
    - Probing (C35-C36): the graph of a native pass, discovery included, has
      no dangling edge but two kinds that are named there, and the assembled state
      holds of every object what its first reporter said.
    - Native backends (C20, C37): an admitted action causes at most one call of a
      native mutator, the recipe of its operation on its own registration, after
      fresh native checks, and a receipt stands for what was read back; an
      application opens only with valid, distinct and complete registrations and
      loads only sound paths.
    - Graphs (C40): the structural check accepts exactly the well-formed graphs.

    The other theorems of the files above are stated with them: one action's
    simulation and contract, correlation, canonical JSON, the scope check,
    incident inspection, the final live report, diagnostics of a probe, redacted
    replies, contexts for saved inputs, availability of native recipes, complete
    copies of native arrays.

    ** Conventions, bounds and fuel

    - [u64] and [u32] values are [N] with the checks of the source written out;
      a subtraction, an index or a conversion that would panic is a [Failure].
    - A [HashSet] or [HashMap] that the code iterates is a duplicate-free list
      in iteration order; theorems hold for every order, or say which
      hypothesis ([NoDup]) the Rust type guarantees.
    - Worklists are bounded by what they can still push: [length visited] plus
      the edges left, see [Reach.traverse_work].  [simulate_order] restarts
      once per added edge, and a duplicate-free set of edges over [n] actions
      has at most [n * n]; its fuel is [S (n * n)], and C1 shows that it is
      never exhausted.
    - [correlate_nodes] calls itself once, for the drive of a table; a drive is
      not a table, so its fuel is 2, and [Correlate.correlate_nodes_sound] shows
      that it is never exhausted.
    - The scope grows along edges only: [grow_scope] has fuel [2 + 2 * edges].
      The resolution of an output calls itself once, for the volume of a file
      system; its fuel is 2, and C21 shows that it is never exhausted.
    - Parameters: the JSON serializer of contract values ([Contract.Json],
      [Simulate.Serializers]), the text of errors and the fresh identities
      ([Uuid::now_v7]).  [json_faithful] is what the code relies on: values with
      equal JSON are equal; [Examples.sample_json] satisfies it.  The runtime is
      parameterized by the system calls ([Os], with the laws of [OsLaws]), the
      codec of markers ([CheckpointCodec], [CodecLaws]), message texts
      ([RuntimeText], [UuidText], [MountText]), the policies of the embedder
      ([HostPolicies]), the host interface ([RuntimeHost]) and the backend
      ([BackendDispatcher]); [RuntimeExamples] instantiates all of them.  The plan
      JSON is parameterized by serde's encoders and decoders ([WireEncoder] with
      [WireLaws], [WireDecoder], [JsonText]), the probe by the answers of its
      backends ([NativeBackends] with [BackendLaws], which the adapters keep) and
      its message texts ([ProbeText]),
      the incident review by the embedder's [IncidentAcknowledgmentPolicy];
      [Examples], [ProbeExamples] and [RuntimeExamples] instantiate them.
    - The application is parameterized by error texts ([FacadeText]) and the
      allocator ([Allocator]), the requests by serde ([ReplyEncoder],
      [RequestDecoder], [ConfigDecoder], [PolicyCodec], [ConfirmationCodec],
      [CliDecoder], [FrameDecoder]), the command line by its files and streams
      ([DocumentFiles] with [DocumentFileLaws], [Terminal]); [AppExamples]
      instantiates those its theorems use.  What a thread of [Transport] cannot
      decide (the machine at the start of a call, the answer of a factory, the
      next thread) is any value of its step.
    - The registry is parameterized by the loader and the manifest file ([Loader],
      [ManifestFile], [ManifestDecoder], [Startup], [LibraryProbes]), the adapters
      by the C libraries and the descriptors ([LvmPlugin], [FsPlugin],
      [MountLibrary], [Descriptors]) with a history of the mutating calls
      ([NativeLaws]); [AppExamples] has a machine with all of them.  Discovery is
      parameterized by libudev ([UdevLibrary] with [UdevLaws]), libfdisk, libblkid
      and the MD plugin ([FdiskLibrary], [BlkidLibrary], [MdraidLibrary]);
      [ProbeExamples] has a machine with them.

    ** Not modelled, and the plan

    Parsing of JSON text belongs to serde_json and appears as a decoder.  Reading
    sysfs, the remaining discovery loops of [storage-provider/src/dylib] (LUKS,
    device mapper, loop devices, swap, multipath, Btrfs, ZFS, NVMe and the table
    of mounts; their answers are operations of [LibraryProbes]), freeing
    native allocations and converting raw pointers ([c_abi.rs], [abi.rs]) are
    operating system I/O.  [main.rs], [native.rs] and the binaries of [dg-cli]
    connect the parts to the process.  [provider_compatibility.rs] is test data. *)

From stdpp Require Export base gmap sets list strings sorting.
From Stdlib Require Export Lia.

(** ** Results

    Rust's [Result]: fallible code is modelled as a value of this type, and
    [?] is the bind of the scope below. *)

Inductive result (A E : Type) : Type :=
| Ok (a : A)
| Err (e : E).
Arguments Ok {A E} a.
Arguments Err {A E} e.

Declare Scope rust_scope.
Delimit Scope rust_scope with rust.
Open Scope rust_scope.

(** [let? x := e in k] is [let x = e?; k]. *)
Notation "'let?' x := e 'in' k" :=
  (match e with Ok x => k | Err err => Err err end)
  (at level 10, x pattern, e at level 100, k at level 200) : rust_scope.

Definition map_err {A E F} (f : E → F) (r : result A E) : result A F :=
  match r with Ok a => Ok a | Err e => Err (f e) end.

Definition ok_or {A E} (o : option A) (e : E) : result A E :=
  match o with Some a => Ok a | None => Err e end.

Definition is_ok {A E} (r : result A E) : bool :=
  match r with Ok _ => true | Err _ => false end.

(** A loop over a slice that may return early with an error. *)
Fixpoint try_fold {A S E} (f : S → A → result S E) (s : S) (l : list A) : result S E :=
  match l with
  | [] => Ok s
  | x :: l => let? s' := f s x in try_fold f s' l
  end.

(** [for x in l { check(x)? }] *)
Definition try_all {A E} (f : A → result unit E) (l : list A) : result unit E :=
  try_fold (λ _ x, f x) tt l.

(** [iter().map(f).collect::<Result<Vec<_>, _>>()] *)
Fixpoint try_map {A B E} (f : A → result B E) (l : list A) : result (list B) E :=
  match l with
  | [] => Ok []
  | x :: l => let? y := f x in let? ys := try_map f l in Ok (y :: ys)
  end.

(** ** Fixed-width unsigned integers

    A [u64] or [u32] is an [N] below its width; the operations the code uses
    are the checked ones. *)

Definition u64_MAX : N := 18446744073709551615.
Definition u32_MAX : N := 4294967295.

Definition u64_checked_add (a b : N) : option N :=
  if (a + b <=? u64_MAX)%N then Some (a + b)%N else None.
Definition u64_checked_mul (a b : N) : option N :=
  if (a * b <=? u64_MAX)%N then Some (a * b)%N else None.
Definition u64_checked_sub (a b : N) : option N :=
  if (b <=? a)%N then Some (a - b)%N else None.
(** [u32::try_from(n)] for a [usize]. *)
Definition u32_try_from (n : nat) : option N :=
  if (N.of_nat n <=? u32_MAX)%N then Some (N.of_nat n) else None.

(** ** Slices *)

(** [slice.contains(&x)] *)
Definition contains {A} `{EqDecision A} (x : A) (l : list A) : bool :=
  bool_decide (x ∈ l).

(** [HashSet::insert] on a set kept as a duplicate-free list in iteration
    order: the flag says whether the element was new. *)
Definition set_insert {A} `{EqDecision A} (x : A) (l : list A) : bool * list A :=
  if contains x l then (false, l) else (true, l ++ [x]).

(** [HashSet::remove] *)
Definition set_remove {A} `{EqDecision A} (x : A) (l : list A) : bool * list A :=
  (contains x l, filter (λ y, y ≠ x) l).

(** [Vec::push] unless present, the idiom [if !v.contains(&x) { v.push(x) }]. *)
Definition push_new {A} `{EqDecision A} (x : A) (l : list A) : list A :=
  if contains x l then l else l ++ [x].

(** [Iterator::find] *)
Fixpoint find_first {A} (f : A → bool) (l : list A) : option A :=
  match l with
  | [] => None
  | x :: l => if f x then Some x else find_first f l
  end.

(** [Iterator::find_map] *)
Fixpoint find_map {A B} (f : A → option B) (l : list A) : option B :=
  match l with
  | [] => None
  | x :: l => match f x with Some y => Some y | None => find_map f l end
  end.

(** [Option::is_none_or] *)
Definition is_none_or {A} (f : A → bool) (o : option A) : bool :=
  match o with Some a => f a | None => true end.
(** [Option::is_some_and] *)
Definition is_some_and {A} (f : A → bool) (o : option A) : bool :=
  match o with Some a => f a | None => false end.

(** ** Tactics *)

(** Splits every [match] or [if] a hypothesis of the form [_ = Ok _],
    [_ = Some _] or [_ = true] is stuck on. *)
Ltac inv_match H :=
  lazymatch type of H with
  | context [match ?x with _ => _ end] =>
      lazymatch x with
      | context [match _ with _ => _ end] => fail
      | _ => let E := fresh "E" in destruct x eqn:E; try discriminate H
      end
  end.
Ltac inv_ok H :=
  repeat (first [discriminate H | progress simplify_eq H | inv_match H]); simplify_eq.
Tactic Notation "inv_oks" :=
  repeat match goal with
  | H : _ = Ok _ |- _ => progress inv_ok H
  end.

(** ** Loops with early return *)

Lemma Ok_inj {A E} (a b : A) : Ok (E:=E) a = Ok b → a = b.
Proof. congruence. Qed.

Section try_fold.
Context {A S E : Type} (f : S → A → result S E).

Lemma try_fold_app s l1 l2 :
  try_fold f s (l1 ++ l2) = let? s' := try_fold f s l1 in try_fold f s' l2.
Proof.
  revert s. induction l1 as [|x l1 IH]; intros s; [done|]. simpl.
  destruct (f s x); simpl; auto.
Qed.

(** The invariant rule: what holds of the processed prefix and the state. *)
Lemma try_fold_inv (P : list A → S → Prop) s0 l s :
  P [] s0 →
  (∀ pre x post s s', l = pre ++ x :: post → P pre s → f s x = Ok s' → P (pre ++ [x]) s') →
  try_fold f s0 l = Ok s → P l s.
Proof.
  intros H0 Hstep. revert s. induction l as [|x l IH] using rev_ind; intros s.
  { simpl. by intros [= <-]. }
  rewrite try_fold_app. destruct (try_fold f s0 l) as [s1|] eqn:E1; [|done]. simpl.
  destruct (f s1 x) as [s2|] eqn:E2; [|done]. intros [= <-].
  eapply (Hstep l x []); [done| |done].
  apply IH; [|done]. intros pre y post t t' -> HP Hf.
  eapply (Hstep pre y (post ++ [x])); [|done|done].
  by rewrite <-app_assoc.
Qed.

(** The total version: no step fails. *)
Lemma try_fold_total (P : list A → S → Prop) s0 l :
  P [] s0 →
  (∀ pre x post s, l = pre ++ x :: post → P pre s → ∃ s', f s x = Ok s' ∧ P (pre ++ [x]) s') →
  ∃ s, try_fold f s0 l = Ok s ∧ P l s.
Proof.
  intros H0 Hstep. induction l as [|x l IH] using rev_ind; [by exists s0|].
  destruct IH as (s1 & E1 & HP1).
  { intros pre y post t -> HP. eapply (Hstep pre y (post ++ [x])); [|done].
    by rewrite <-app_assoc. }
  destruct (Hstep l x [] s1) as (s2 & E2 & HP2); [done..|].
  exists s2. rewrite try_fold_app, E1. simpl. by rewrite E2.
Qed.

(** A failing loop fails at some element, after the ones before it passed. *)
Lemma try_fold_err s0 l e :
  try_fold f s0 l = Err e →
  ∃ pre x post s, l = pre ++ x :: post ∧ try_fold f s0 pre = Ok s ∧ f s x = Err e.
Proof.
  revert s0. induction l as [|x l IH]; intros s0; simpl; [done|].
  destruct (f s0 x) as [s1|e'] eqn:Hf; simpl.
  - intros (pre & y & post & s & -> & Hpre & Hy)%IH.
    exists (x :: pre), y, post, s. simpl. by rewrite Hf.
  - intros [= <-]. by exists [], x, l, s0.
Qed.
End try_fold.

Lemma try_all_ok {A E} (f : A → result unit E) l :
  try_all f l = Ok tt ↔ ∀ x, x ∈ l → f x = Ok tt.
Proof.
  unfold try_all. induction l as [|x l IH]; simpl; [set_solver|].
  destruct (f x) as [[]|] eqn:Hf; simpl.
  - rewrite IH. setoid_rewrite elem_of_cons. naive_solver.
  - split; [done|]. intros Hall. specialize (Hall x ltac:(left)). congruence.
Qed.

Lemma elem_of_mid {A} (x : A) l k : x ∈ l ++ x :: k.
Proof. rewrite elem_of_app, elem_of_cons. auto. Qed.

Lemma contains_true {A} `{EqDecision A} (x : A) l : contains x l = true ↔ x ∈ l.
Proof. apply bool_decide_eq_true. Qed.
Lemma contains_false {A} `{EqDecision A} (x : A) l : contains x l = false ↔ x ∉ l.
Proof. apply bool_decide_eq_false. Qed.

Lemma set_insert_fresh {A} `{EqDecision A} (x : A) l :
  x ∉ l → set_insert x l = (true, l ++ [x]).
Proof. intros ?. unfold set_insert. by rewrite (proj2 (contains_false x l)). Qed.
Lemma set_insert_seen {A} `{EqDecision A} (x : A) l :
  x ∈ l → set_insert x l = (false, l).
Proof. intros ?. unfold set_insert. by rewrite (proj2 (contains_true x l)). Qed.

Lemma NoDup_snoc {A} (l : list A) x : NoDup (l ++ [x]) ↔ NoDup l ∧ x ∉ l.
Proof.
  rewrite NoDup_app. split.
  - intros (? & Hd & _). split; [done|]. intros ?. by apply (Hd x); [|left].
  - intros [? Hx]. split_and!; [done| |apply NoDup_singleton].
    intros y ? ->%list_elem_of_singleton. done.
Qed.

Lemma omap_snoc {A B} (f : A → option B) l x :
  omap f (l ++ [x]) = omap f l ++ match f x with Some y => [y] | None => [] end.
Proof. rewrite omap_app. simpl. by destruct (f x). Qed.

Lemma NoDup_omap_snoc {A B} (f : A → option B) l x :
  NoDup (omap f (l ++ [x])) ↔ NoDup (omap f l) ∧ ∀ y, f x = Some y → y ∉ omap f l.
Proof.
  rewrite omap_snoc. destruct (f x) as [y|].
  - rewrite NoDup_snoc. naive_solver.
  - rewrite app_nil_r. naive_solver.
Qed.

Lemma set_insert_cases {A} `{EqDecision A} (x : A) l :
  (x ∉ l ∧ set_insert x l = (true, l ++ [x])) ∨ (x ∈ l ∧ set_insert x l = (false, l)).
Proof.
  destruct (decide (x ∈ l)); [right|left]; auto using set_insert_fresh, set_insert_seen.
Qed.

Lemma fmap_snoc {A B} (f : A → B) l x : f <$> l ++ [x] = (f <$> l) ++ [f x].
Proof. by rewrite fmap_app. Qed.

(** ** Updates in sequence

    [v ▷ f ▷ g] applies the mutations [f] and then [g] to the value [v]. *)
Notation "v ▷ f" := (f v) (at level 56, left associativity, only parsing) : rust_scope.

(** ** Stable sorting

    [slice::sort_by] is stable: equal elements keep their order. *)
Section sort_by.
Context {A : Type} (leb : A → A → bool).

Fixpoint insert_by (x : A) (l : list A) : list A :=
  match l with
  | [] => [x]
  | y :: l' => if leb x y then x :: l else y :: insert_by x l'
  end.

Fixpoint sort_by (l : list A) : list A :=
  match l with [] => [] | x :: l => insert_by x (sort_by l) end.

Lemma insert_by_perm x l : insert_by x l ≡ₚ x :: l.
Proof.
  induction l as [|y l IH]; simpl; [done|]. destruct (leb x y); [done|].
  rewrite IH. apply Permutation_swap.
Qed.

Lemma sort_by_perm l : sort_by l ≡ₚ l.
Proof. induction l as [|x l IH]; simpl; [done|]. by rewrite insert_by_perm, IH. Qed.

Lemma insert_by_sorted x l :
  (∀ a b, leb a b = true ∨ leb b a = true) →
  Sorted (λ a b, leb a b = true) l → Sorted (λ a b, leb a b = true) (insert_by x l).
Proof.
  intros Htot. induction l as [|y l IH]; intros Hs; simpl; [by repeat constructor|].
  destruct (leb x y) eqn:Hxy; [by constructor; [|constructor]|].
  apply Sorted_inv in Hs as [Hl Hhd]. constructor; [auto|].
  destruct (Htot x y) as [?|Hyx]; [congruence|].
  destruct l as [|z l]; simpl; [by constructor|].
  apply HdRel_inv in Hhd. by destruct (leb x z); constructor.
Qed.

Lemma sort_by_sorted l :
  (∀ a b, leb a b = true ∨ leb b a = true) → Sorted (λ a b, leb a b = true) (sort_by l).
Proof.
  intros Htot. induction l as [|x l IH]; simpl; [constructor|]. by apply insert_by_sorted.
Qed.

(** Sorting a sorted list changes nothing. *)
Lemma sort_by_of_sorted l : Sorted (λ a b, leb a b = true) l → sort_by l = l.
Proof.
  induction 1 as [|x l Hl IH Hhd]; simpl; [done|]. rewrite IH.
  destruct Hhd as [|y l Hxy]; simpl; [done|]. by rewrite Hxy.
Qed.
End sort_by.

(** Sorting commutes with a function that keeps the order. *)
Lemma insert_by_map {A B} (lebA : A → A → bool) (lebB : B → B → bool) (f : A → B) x l :
  (∀ a b, lebB (f a) (f b) = lebA a b) →
  insert_by lebB (f x) (map f l) = map f (insert_by lebA x l).
Proof.
  intros Hf. induction l as [|y l IH]; simpl; [done|]. rewrite Hf, IH. by destruct (lebA x y).
Qed.

Lemma sort_by_map {A B} (lebA : A → A → bool) (lebB : B → B → bool) (f : A → B) l :
  (∀ a b, lebB (f a) (f b) = lebA a b) → sort_by lebB (map f l) = map f (sort_by lebA l).
Proof.
  intros Hf. induction l as [|y l IH]; simpl; [done|]. by rewrite IH, (insert_by_map lebA).
Qed.

Lemma find_first_Some {A} (f : A → bool) l x :
  find_first f l = Some x → x ∈ l ∧ f x = true.
Proof.
  induction l as [|y l IH]; simpl; [done|]. destruct (f y) eqn:Hy.
  - intros [= <-]. by split; [left|].
  - intros [? ?]%IH. by split; [right|].
Qed.
Lemma find_first_None {A} (f : A → bool) l :
  find_first f l = None ↔ ∀ x, x ∈ l → f x = false.
Proof.
  induction l as [|y l IH]; simpl; [set_solver|]. destruct (f y) eqn:Hy.
  - split; [done|]. intros Hall. specialize (Hall y ltac:(left)). congruence.
  - rewrite IH. setoid_rewrite elem_of_cons. naive_solver.
Qed.

Lemma existsb_elem {A} (f : A → bool) l : existsb f l = true ↔ ∃ x, x ∈ l ∧ f x = true.
Proof. rewrite existsb_exists. setoid_rewrite <-list_elem_of_In. done. Qed.

Lemma existsb_false {A} (f : A → bool) l : existsb f l = false ↔ ∀ x, x ∈ l → f x = false.
Proof.
  induction l as [|y l IH]; simpl; [set_solver|]. rewrite orb_false_iff, IH.
  setoid_rewrite elem_of_cons. naive_solver.
Qed.

(** ** Outcomes of code that may panic

    [Reported] is an [Err] of the source, [Panicked] an index out of range or
    an [unreachable!], and [OutOfFuel] a loop the model gave up on; theorems
    exclude the last two. *)
Inductive Failure (E : Type) :=
| Reported (e : E)
| Panicked
| OutOfFuel.
Arguments Reported {E} e.
Arguments Panicked {E}.
Arguments OutOfFuel {E}.

Definition report {A E} (r : result A E) : result A (Failure E) := map_err Reported r.

(** [v[i]] *)
Definition index {A E} (v : list A) (i : nat) : result A (Failure E) := ok_or (v !! i) Panicked.

(** [iter().enumerate()] *)
Definition enumerate {A} (l : list A) : list (nat * A) := imap (λ i x, (i, x)) l.

(** [returns P r]: [r] neither panics nor runs out of fuel, and the value it
    returns satisfies [P]; an error of the source is allowed. *)
Definition returns {A E} (P : A → Prop) (r : result A (Failure E)) : Prop :=
  match r with Ok a => P a | Err (Reported _) => True | Err _ => False end.

Section returns.
Context {E : Type}.
Implicit Types (A B S : Type).

Lemma returns_ok {A} (P : A → Prop) a : P a → returns (E:=E) P (Ok a).
Proof. done. Qed.

Lemma returns_mono {A} (P Q : A → Prop) (r : result A (Failure E)) :
  returns P r → (∀ a, P a → Q a) → returns Q r.
Proof. destruct r as [a|[]]; simpl; auto. Qed.

Lemma returns_bind {A B} (P : A → Prop) (Q : B → Prop) (r : result A (Failure E)) k :
  returns P r → (∀ a, P a → returns Q (k a)) → returns Q (let? x := r in k x).
Proof. destruct r as [a|[]]; simpl; auto. Qed.

Lemma returns_report {A} (P : A → Prop) (r : result A E) :
  (∀ a, r = Ok a → P a) → returns P (report r).
Proof. destruct r; simpl; auto. Qed.

Lemma returns_inv {A} (P : A → Prop) (r : result A (Failure E)) a :
  returns P r → r = Ok a → P a.
Proof. by intros ? ->. Qed.

(** Knowing the result while the rest is analysed. *)
Lemma returns_eq {A} (P : A → Prop) (r : result A (Failure E)) :
  returns P r → returns (λ a, r = Ok a ∧ P a) r.
Proof. destruct r as [a|[]]; simpl; auto. Qed.

Lemma returns_try_fold {A S} (f : S → A → result S (Failure E)) (P : list A → S → Prop) s0 l :
  P [] s0 →
  (∀ pre x post s, l = pre ++ x :: post → P pre s → returns (P (pre ++ [x])) (f s x)) →
  returns (P l) (try_fold f s0 l).
Proof.
  intros H0 Hstep. induction l as [|x l IH] using rev_ind; [done|].
  rewrite try_fold_app. eapply returns_bind.
  { apply IH. intros pre y post t -> HP. eapply (Hstep pre y (post ++ [x])); [|done].
    by rewrite <-app_assoc. }
  intros s Hs. simpl. specialize (Hstep l x [] s eq_refl Hs).
  by destruct (f s x) as [?|[]].
Qed.

(** The common case: an invariant that does not mention the prefix. *)
Lemma returns_try_fold_inv {A S} (f : S → A → result S (Failure E)) (P : S → Prop) s0 l :
  P s0 → (∀ x s, x ∈ l → P s → returns P (f s x)) → returns P (try_fold f s0 l).
Proof.
  intros H0 Hstep. apply (returns_try_fold f (λ _, P)); [done|].
  intros pre x post s -> Hs. apply Hstep; [set_solver|done].
Qed.

Lemma returns_try_map {A B} (f : A → result B (Failure E)) (P : A → B → Prop) l :
  (∀ x, x ∈ l → returns (P x) (f x)) → returns (Forall2 P l) (try_map f l).
Proof.
  induction l as [|x l IH]; intros Hf; simpl; [constructor|].
  eapply returns_bind; [apply Hf; by left|]. intros y Hy.
  eapply returns_bind; [apply IH; intros; apply Hf; by right|]. intros ys Hys. by constructor.
Qed.
End returns.

(** A list built element by element that keeps a key. *)
Lemma Forall2_keys {A B K} (h : A → K) (g : B → K) (R : A → B → Prop) l k :
  Forall2 R l k → (∀ x y, R x y → g y = h x) → g <$> k = h <$> l.
Proof.
  intros Hall Hk. induction Hall as [|x y l k Hr _ IH]; [done|].
  rewrite !fmap_cons, IH. f_equal. by apply Hk.
Qed.

Lemma Forall2_keyed {A B K} (h : A → K) (g : B → K) (Q : B → Prop) l k :
  Forall2 (λ x y, g y = h x ∧ Q y) l k → g <$> k = h <$> l ∧ Forall Q k.
Proof.
  intros Hall. split; [by eapply Forall2_keys; [done|]; intros ? ? [? _]|].
  induction Hall as [|x y l k [_ ?] _ IH]; by constructor.
Qed.

(** [raises Q r]: an error that [r] reports satisfies [Q]. *)
Definition raises {A E} (Q : E → Prop) (r : result A (Failure E)) : Prop :=
  match r with Err (Reported e) => Q e | _ => True end.

Section raises.
Context {E : Type} (Q : E → Prop).
Implicit Types (A B S : Type).

Lemma raises_bind {A B} (r : result A (Failure E)) (k : A → result B (Failure E)) :
  raises Q r → (∀ a, r = Ok a → raises Q (k a)) → raises Q (let? x := r in k x).
Proof. destruct r as [a|[]]; simpl; auto. Qed.

Lemma raises_report {A} (r : result A E) : (∀ e, r = Err e → Q e) → raises Q (report r).
Proof. destruct r; simpl; auto. Qed.

Lemma raises_try_fold {A S} (f : S → A → result S (Failure E)) s0 l :
  (∀ pre x post s, l = pre ++ x :: post → try_fold f s0 pre = Ok s → raises Q (f s x)) →
  raises Q (try_fold f s0 l).
Proof.
  intros Hf. destruct (try_fold f s0 l) as [|e] eqn:He; [done|].
  apply try_fold_err in He as (pre & x & post & s & Heq & Hpre & Hx).
  specialize (Hf pre x post s Heq Hpre). by rewrite Hx in Hf.
Qed.

Lemma raises_try_fold_any {A S} (f : S → A → result S (Failure E)) s0 l :
  (∀ x s, x ∈ l → raises Q (f s x)) → raises Q (try_fold f s0 l).
Proof. intros Hf. apply raises_try_fold. intros pre x post s -> _. apply Hf, elem_of_mid. Qed.

Lemma raises_try_map {A B} (f : A → result B (Failure E)) l :
  (∀ x, x ∈ l → raises Q (f x)) → raises Q (try_map f l).
Proof.
  induction l as [|x l IH]; intros Hf; [done|]. simpl.
  pose proof (Hf x ltac:(left)) as Hx. destruct (f x) as [y|[]]; try done. simpl in *.
  assert (raises Q (try_map f l)) as Hl by (apply IH; intros; apply Hf; by right).
  by destruct (try_map f l) as [|[]].
Qed.
End raises.
