(* ===== verification/Model.v ===== *)
(** * The canonical storage model: [storage-core/src/model]

    Value types, node kinds, graph edges, mounts and states, one [Inductive] or
    [Record] per Rust enum or struct.  A Rust path [NodeKind::Disk] is
    [NodeKind.Disk] here, and a field [node.kind.kind] is
    [node.(Node.kind).(NodeSpec.kind)].

    Newtypes over an integer ([Bytes], [NodeId], [ProbeEpoch], ...) are the
    integer; [NonZeroU32] and [NonZeroU16] are [positive], so that zero is
    unrepresentable as it is in the source.  [HashSet<BtrfsProfile>] is a
    [gset], whose equality is the set equality of [PartialEq]. *)

From S2P Require Import Prelude.

Abbreviation Uuid := N (only parsing).
Abbreviation NodeId := N (only parsing).
Abbreviation Bytes := N (only parsing).
Abbreviation ProbeEpoch := N (only parsing).
Abbreviation CopyCount := positive (only parsing).
Abbreviation DataStripeCount := positive (only parsing).
Abbreviation BlockSize := positive (only parsing).
Abbreviation NvmeNamespaceId := positive (only parsing).

Definition Uuid_nil : Uuid := 0%N.
(** [Uuid::is_nil] *)
Definition is_nil (u : Uuid) : bool := (u =? Uuid_nil)%N.

(** ** Paths

    [Path] equality, [starts_with] and [components] all factor through the
    component sequence, which is what a path is here: repeated separators,
    inner [.] components and a trailing slash are already gone. *)
Module Component.
Inductive Component :=
| RootDir
| CurDir
| ParentDir
| Normal (s : string).
#[global] Instance Component_eq_dec : EqDecision Component.
Proof. solve_decision. Defined.
End Component.
Abbreviation Component := Component.Component.
Abbreviation PathBuf := (list Component) (only parsing).

(** [Path::is_absolute] on Unix. *)
Definition is_absolute (p : PathBuf) : bool :=
  match p with Component.RootDir :: _ => true | _ => false end.

(** [Path::starts_with]: component-wise prefix. *)
Fixpoint starts_with (p base : PathBuf) : bool :=
  match base, p with
  | [], _ => true
  | b :: base, c :: p => bool_decide (b = c) && starts_with p base
  | _ :: _, [] => false
  end.

Fixpoint string_contains_byte (n : N) (s : string) : bool :=
  match s with
  | EmptyString => false
  | String a s => (Ascii.N_of_ascii a =? n)%N || string_contains_byte n s
  end.

(** [path.as_os_str().as_encoded_bytes().contains(&0)] *)
Definition path_contains_nul (p : PathBuf) : bool :=
  existsb (λ c, match c with
                | Component.Normal s => string_contains_byte 0 s
                | _ => false
                end) p.

(** ** RAID layouts ([raid.rs]) *)

Module LvmRaid0Variant.
Inductive LvmRaid0Variant := Raid0 | Raid0Meta.
#[global] Instance LvmRaid0Variant_eq_dec : EqDecision LvmRaid0Variant.
Proof. solve_decision. Defined.
End LvmRaid0Variant.
Abbreviation LvmRaid0Variant := LvmRaid0Variant.LvmRaid0Variant.

Module ParityRotation.
Inductive ParityRotation :=
| LeftSymmetric | LeftAsymmetric | RightSymmetric | RightAsymmetric.
#[global] Instance ParityRotation_eq_dec : EqDecision ParityRotation.
Proof. solve_decision. Defined.
End ParityRotation.
Abbreviation ParityRotation := ParityRotation.ParityRotation.

Module LvmRaid5Layout.
Inductive LvmRaid5Layout := Rotating (r : ParityRotation) | ParityN.
#[global] Instance LvmRaid5Layout_eq_dec : EqDecision LvmRaid5Layout.
Proof. solve_decision. Defined.
End LvmRaid5Layout.
Abbreviation LvmRaid5Layout := LvmRaid5Layout.LvmRaid5Layout.

Module LvmRaid6Layout.
Inductive LvmRaid6Layout :=
| ZeroRestart | NRestart | NContinue | DedicatedParity
| Raid5Compatible (r : ParityRotation).
#[global] Instance LvmRaid6Layout_eq_dec : EqDecision LvmRaid6Layout.
Proof. solve_decision. Defined.
End LvmRaid6Layout.
Abbreviation LvmRaid6Layout := LvmRaid6Layout.LvmRaid6Layout.

(** [CopyCount::new]: a mirror has at least two copies. *)
Definition CopyCount_new (value : N) : option CopyCount :=
  if (2 <=? value)%N
  then match value with Npos p => Some p | N0 => None end
  else None.

(** [DataStripeCount::new] *)
Definition DataStripeCount_new (value : N) : option DataStripeCount :=
  match value with Npos p => Some p | N0 => None end.

Module LvmRaid.
Inductive LvmRaid :=
| Raid0 (variant : LvmRaid0Variant) (data_width : DataStripeCount) (stripe_size : Bytes)
| Raid1 (copies : CopyCount)
| Raid4 (data_width : DataStripeCount) (stripe_size : Bytes)
| Raid5 (layout : LvmRaid5Layout) (data_width : DataStripeCount) (stripe_size : Bytes)
| Raid6 (layout : LvmRaid6Layout) (data_width : DataStripeCount) (stripe_size : Bytes)
| Raid10 (copies : CopyCount) (data_width : DataStripeCount) (stripe_size : Bytes).
#[global] Instance LvmRaid_eq_dec : EqDecision LvmRaid.
Proof. solve_decision. Defined.
End LvmRaid.
Abbreviation LvmRaid := LvmRaid.LvmRaid.

Module MdRaid0Layout.
Inductive MdRaid0Layout := Original | Alternate | Unspecified.
#[global] Instance MdRaid0Layout_eq_dec : EqDecision MdRaid0Layout.
Proof. solve_decision. Defined.
End MdRaid0Layout.
Abbreviation MdRaid0Layout := MdRaid0Layout.MdRaid0Layout.

Module MdParityLayout.
Inductive MdParityLayout :=
| Rotating (r : ParityRotation) | ParityFirst | ParityLast
| DdfZeroRestart | DdfNRestart | DdfNContinue.
#[global] Instance MdParityLayout_eq_dec : EqDecision MdParityLayout.
Proof. solve_decision. Defined.
End MdParityLayout.
Abbreviation MdParityLayout := MdParityLayout.MdParityLayout.

Module MdRaid6DedicatedQ.
Inductive MdRaid6DedicatedQ :=
| LeftSymmetric6 | RightSymmetric6 | LeftAsymmetric6 | RightAsymmetric6 | ParityFirst6.
#[global] Instance MdRaid6DedicatedQ_eq_dec : EqDecision MdRaid6DedicatedQ.
Proof. solve_decision. Defined.
End MdRaid6DedicatedQ.
Abbreviation MdRaid6DedicatedQ := MdRaid6DedicatedQ.MdRaid6DedicatedQ.

Module MdRaid6Layout.
Inductive MdRaid6Layout :=
| Standard (l : MdParityLayout) | DedicatedQ (q : MdRaid6DedicatedQ).
#[global] Instance MdRaid6Layout_eq_dec : EqDecision MdRaid6Layout.
Proof. solve_decision. Defined.
End MdRaid6Layout.
Abbreviation MdRaid6Layout := MdRaid6Layout.MdRaid6Layout.

Module MdRaid10Mode.
Inductive MdRaid10Mode := Near | Offset | Far.
#[global] Instance MdRaid10Mode_eq_dec : EqDecision MdRaid10Mode.
Proof. solve_decision. Defined.
End MdRaid10Mode.
Abbreviation MdRaid10Mode := MdRaid10Mode.MdRaid10Mode.

Module MdRaid10Layout.
Record MdRaid10Layout := mk { mode : MdRaid10Mode; copies : CopyCount }.
#[global] Instance MdRaid10Layout_eq_dec : EqDecision MdRaid10Layout.
Proof. solve_decision. Defined.
End MdRaid10Layout.
Abbreviation MdRaid10Layout := MdRaid10Layout.MdRaid10Layout.

Module MdRaid.
Inductive MdRaid :=
| Raid0 (layout : MdRaid0Layout) (chunk_size : Bytes)
| Raid1
| Raid4 (chunk_size : Bytes)
| Raid5 (layout : MdParityLayout) (chunk_size : Bytes)
| Raid6 (layout : MdRaid6Layout) (chunk_size : Bytes)
| Raid10 (layout : MdRaid10Layout) (chunk_size : Bytes).
#[global] Instance MdRaid_eq_dec : EqDecision MdRaid.
Proof. solve_decision. Defined.
End MdRaid.
Abbreviation MdRaid := MdRaid.MdRaid.

Module MdPersonality.
Inductive MdPersonality :=
| Raid (r : MdRaid) | Linear (rounding : option Bytes) | Multipath | Faulty | Container.
#[global] Instance MdPersonality_eq_dec : EqDecision MdPersonality.
Proof. solve_decision. Defined.
End MdPersonality.
Abbreviation MdPersonality := MdPersonality.MdPersonality.

Module MdNativeMetadata.
Inductive MdNativeMetadata := V0_90 | V1_0 | V1_1 | V1_2.
#[global] Instance MdNativeMetadata_eq_dec : EqDecision MdNativeMetadata.
Proof. solve_decision. Defined.
End MdNativeMetadata.
Abbreviation MdNativeMetadata := MdNativeMetadata.MdNativeMetadata.

Module MdExternalMetadata.
Inductive MdExternalMetadata := Ddf | Imsm.
#[global] Instance MdExternalMetadata_eq_dec : EqDecision MdExternalMetadata.
Proof. solve_decision. Defined.
End MdExternalMetadata.
Abbreviation MdExternalMetadata := MdExternalMetadata.MdExternalMetadata.

Module MdMetadata.
Inductive MdMetadata :=
| None | Native (m : MdNativeMetadata) | External (m : MdExternalMetadata).
#[global] Instance MdMetadata_eq_dec : EqDecision MdMetadata.
Proof. solve_decision. Defined.
End MdMetadata.
Abbreviation MdMetadata := MdMetadata.MdMetadata.

Module MdArray.
Record MdArray := mk { personality : MdPersonality; metadata : MdMetadata }.
#[global] Instance MdArray_eq_dec : EqDecision MdArray.
Proof. solve_decision. Defined.
End MdArray.
Abbreviation MdArray := MdArray.MdArray.

Module BtrfsProfile.
Inductive BtrfsProfile :=
| Single | Dup | Raid0 | Raid1 | Raid1C3 | Raid1C4 | Raid10 | Raid5 | Raid6.
#[global] Instance BtrfsProfile_eq_dec : EqDecision BtrfsProfile.
Proof. solve_decision. Defined.
Definition to_nat (p : BtrfsProfile) : nat :=
  match p with
  | Single => 0 | Dup => 1 | Raid0 => 2 | Raid1 => 3 | Raid1C3 => 4
  | Raid1C4 => 5 | Raid10 => 6 | Raid5 => 7 | Raid6 => 8
  end.
Definition of_nat (n : nat) : BtrfsProfile :=
  match n with
  | 0 => Single | 1 => Dup | 2 => Raid0 | 3 => Raid1 | 4 => Raid1C3
  | 5 => Raid1C4 | 6 => Raid10 | 7 => Raid5 | _ => Raid6
  end.
#[global] Instance BtrfsProfile_countable : Countable BtrfsProfile.
Proof. refine (inj_countable' to_nat of_nat _). by intros []. Defined.
End BtrfsProfile.
Abbreviation BtrfsProfile := BtrfsProfile.BtrfsProfile.

(** ** Devices ([block.rs]) *)

Module DeviceNumber.
Record DeviceNumber := mk { major : N; minor : N }.
#[global] Instance DeviceNumber_eq_dec : EqDecision DeviceNumber.
Proof. solve_decision. Defined.
End DeviceNumber.
Abbreviation DeviceNumber := DeviceNumber.DeviceNumber.

Module BlockGeometry.
Record BlockGeometry := mk {
  logical_block_size : BlockSize;
  physical_block_size : option BlockSize;
  alignment_offset : option Bytes;
  minimum_io_size : option Bytes;
  optimal_io_size : option Bytes }.
#[global] Instance BlockGeometry_eq_dec : EqDecision BlockGeometry.
Proof. solve_decision. Defined.
End BlockGeometry.
Abbreviation BlockGeometry := BlockGeometry.BlockGeometry.

Module BlockFacts.
Record BlockFacts := mk {
  paths : list PathBuf;
  devno : DeviceNumber;
  geometry : option BlockGeometry;
  read_only : option bool }.
#[global] Instance BlockFacts_eq_dec : EqDecision BlockFacts.
Proof. solve_decision. Defined.
End BlockFacts.
Abbreviation BlockFacts := BlockFacts.BlockFacts.

Module NetworkBacking.
Inductive NetworkBacking := Rbd | Nbd.
#[global] Instance NetworkBacking_eq_dec : EqDecision NetworkBacking.
Proof. solve_decision. Defined.
End NetworkBacking.
Abbreviation NetworkBacking := NetworkBacking.NetworkBacking.

Module ZonedModel.
Inductive ZonedModel := HostAware | HostManaged | None.
#[global] Instance ZonedModel_eq_dec : EqDecision ZonedModel.
Proof. solve_decision. Defined.
End ZonedModel.
Abbreviation ZonedModel := ZonedModel.ZonedModel.

Module Transport.
Inductive Transport :=
| Nvme | NvmeOf | Sata | Sas | Scsi | Usb | Virtio | Mmc | FibreChannel | Iscsi.
#[global] Instance Transport_eq_dec : EqDecision Transport.
Proof. solve_decision. Defined.
Definition is_network (t : Transport) : bool :=
  match t with NvmeOf | FibreChannel | Iscsi => true | _ => false end.
End Transport.
Abbreviation Transport := Transport.Transport.

Module DeviceInfo.
Record DeviceInfo := mk {
  model : option string;
  vendor : option string;
  transport : option Transport;
  network_backing : option NetworkBacking;
  rotational : option bool;
  removable : option bool;
  zoned : option ZonedModel }.
#[global] Instance DeviceInfo_eq_dec : EqDecision DeviceInfo.
Proof. solve_decision. Defined.
Definition is_network (d : DeviceInfo) : option bool :=
  match d.(network_backing), d.(transport) with
  | Some _, _ => Some true
  | None, Some transport => Some (Transport.is_network transport)
  | None, None => None
  end.
End DeviceInfo.
Abbreviation DeviceInfo := DeviceInfo.DeviceInfo.

Module ExternalId.
Inductive ExternalId :=
| Wwn (s : string)
| Serial (vendor : option string) (value : string)
| GptPartitionUuid (u : Uuid)
| MbrPartitionId (disk_signature : N) (number : positive)
| LuksUuid (u : Uuid)
| MdUuid (s : string)
| LvmPvUuid (s : string)
| LvmVgUuid (s : string)
| LvmLvUuid (s : string)
| Filesystem (fs_type value : string)
| BtrfsFsid (u : Uuid)
| BtrfsSubvolumeUuid (u : Uuid)
| ZfsGuid (n : N)
| NvmeNguid (bytes : list N)
| NvmeEui64 (bytes : list N)
| NvmeUuid (u : Uuid)
| Iscsi (target_iqn : string) (lun : N)
| NvmeOf (subsystem_nqn : string) (namespace : positive).
#[global] Instance ExternalId_eq_dec : EqDecision ExternalId.
Proof. solve_decision. Defined.
End ExternalId.
Abbreviation ExternalId := ExternalId.ExternalId.

(** ** Node kinds ([mod.rs], [node.rs]) *)

Module DmCacheMode.
Inductive DmCacheMode := Writeback | Writethrough | Passthrough.
#[global] Instance DmCacheMode_eq_dec : EqDecision DmCacheMode.
Proof. solve_decision. Defined.
End DmCacheMode.
Abbreviation DmCacheMode := DmCacheMode.DmCacheMode.

Module BcacheMode.
Inductive BcacheMode := Writeback | Writethrough | Writearound | None.
#[global] Instance BcacheMode_eq_dec : EqDecision BcacheMode.
Proof. solve_decision. Defined.
End BcacheMode.
Abbreviation BcacheMode := BcacheMode.BcacheMode.

Module LuksVersion.
Inductive LuksVersion := Luks1 | Luks2.
#[global] Instance LuksVersion_eq_dec : EqDecision LuksVersion.
Proof. solve_decision. Defined.
End LuksVersion.
Abbreviation LuksVersion := LuksVersion.LuksVersion.

Module BtrfsAllocation.
Record BtrfsAllocation := mk {
  data : gset BtrfsProfile;
  metadata : gset BtrfsProfile;
  system : gset BtrfsProfile }.
#[global] Instance BtrfsAllocation_eq_dec : EqDecision BtrfsAllocation.
Proof. solve_decision. Defined.
End BtrfsAllocation.
Abbreviation BtrfsAllocation := BtrfsAllocation.BtrfsAllocation.

Module FilesystemKind.
Inductive FilesystemKind :=
| Ext2 | Ext3 | Ext4 | Xfs
| Btrfs (a : BtrfsAllocation)
| Jfs | Reiserfs | Vfat | Ntfs | Exfat | F2fs | Ocfs2 | Gfs2 | Apfs
| Other (s : string).
#[global] Instance FilesystemKind_eq_dec : EqDecision FilesystemKind.
Proof. solve_decision. Defined.
Definition as_str (k : FilesystemKind) : string :=
  match k with
  | Ext2 => "ext2" | Ext3 => "ext3" | Ext4 => "ext4" | Xfs => "xfs"
  | Btrfs _ => "btrfs" | Jfs => "jfs" | Reiserfs => "reiserfs"
  | Vfat => "vfat" | Ntfs => "ntfs" | Exfat => "exfat" | F2fs => "f2fs"
  | Ocfs2 => "ocfs2" | Gfs2 => "gfs2" | Apfs => "apfs"
  | Other other => other
  end.
End FilesystemKind.
Abbreviation FilesystemKind := FilesystemKind.FilesystemKind.

Module LvmLvKind.
Inductive LvmLvKind :=
| Linear
| Striped (stripes : DataStripeCount)
| Raid (r : LvmRaid)
| Mirror (copies : CopyCount)
| ThinPool | Thin | Snapshot | CachePool | Cache | WriteCache
| Other (s : string).
#[global] Instance LvmLvKind_eq_dec : EqDecision LvmLvKind.
Proof. solve_decision. Defined.
End LvmLvKind.
Abbreviation LvmLvKind := LvmLvKind.LvmLvKind.

Module LvmLv.
Record LvmLv := mk { name : string; kind : LvmLvKind }.
#[global] Instance LvmLv_eq_dec : EqDecision LvmLv.
Proof. solve_decision. Defined.
End LvmLv.
Abbreviation LvmLv := LvmLv.LvmLv.

Module NvmeLbaFormat.
Record NvmeLbaFormat := mk { data_size : BlockSize; metadata_size : N }.
#[global] Instance NvmeLbaFormat_eq_dec : EqDecision NvmeLbaFormat.
Proof. solve_decision. Defined.
End NvmeLbaFormat.
Abbreviation NvmeLbaFormat := NvmeLbaFormat.NvmeLbaFormat.

Module NvmeNamespace.
Record NvmeNamespace := mk { nsid : NvmeNamespaceId; format : NvmeLbaFormat }.
#[global] Instance NvmeNamespace_eq_dec : EqDecision NvmeNamespace.
Proof. solve_decision. Defined.
End NvmeNamespace.
Abbreviation NvmeNamespace := NvmeNamespace.NvmeNamespace.

Module PartitionAttributes.
Record PartitionAttributes := mk { gpt : option N; bootable : option bool }.
#[global] Instance PartitionAttributes_eq_dec : EqDecision PartitionAttributes.
Proof. solve_decision. Defined.
Definition default : PartitionAttributes := mk None None.
End PartitionAttributes.
Abbreviation PartitionAttributes := PartitionAttributes.PartitionAttributes.

Module UsageRole.
Inductive UsageRole := Boot | Root | Home | Data.
#[global] Instance UsageRole_eq_dec : EqDecision UsageRole.
Proof. solve_decision. Defined.
End UsageRole.
Abbreviation UsageRole := UsageRole.UsageRole.

Module PartitionTable.
Inductive PartitionTable := Gpt | Mbr.
#[global] Instance PartitionTable_eq_dec : EqDecision PartitionTable.
Proof. solve_decision. Defined.
End PartitionTable.
Abbreviation PartitionTable := PartitionTable.PartitionTable.

Module ZfsParity.
Inductive ZfsParity := One | Two | Three.
#[global] Instance ZfsParity_eq_dec : EqDecision ZfsParity.
Proof. solve_decision. Defined.
End ZfsParity.
Abbreviation ZfsParity := ZfsParity.ZfsParity.

Module ZfsVdevClass.
Inductive ZfsVdevClass := Data | Log | Special | Dedup | Cache | Spare.
#[global] Instance ZfsVdevClass_eq_dec : EqDecision ZfsVdevClass.
Proof. solve_decision. Defined.
End ZfsVdevClass.
Abbreviation ZfsVdevClass := ZfsVdevClass.ZfsVdevClass.

Module ZfsMember.
Inductive ZfsMember := Child | TopLevel (c : ZfsVdevClass).
#[global] Instance ZfsMember_eq_dec : EqDecision ZfsMember.
Proof. solve_decision. Defined.
End ZfsMember.
Abbreviation ZfsMember := ZfsMember.ZfsMember.

Module ZfsVdevKind.
Inductive ZfsVdevKind :=
| Leaf
| Mirror
| RaidZ (parity : ZfsParity)
| DRaid (parity : ZfsParity) (data_width : DataStripeCount) (distributed_spares : N)
| Other (s : string).
#[global] Instance ZfsVdevKind_eq_dec : EqDecision ZfsVdevKind.
Proof. solve_decision. Defined.
End ZfsVdevKind.
Abbreviation ZfsVdevKind := ZfsVdevKind.ZfsVdevKind.

Module NodeKind.
Inductive NodeKind :=
| Disk
| NvmeSubsystem (nqn : string)
| NvmeController
| NvmeNamespace (n : NvmeNamespace)
| Loop (backing_file : option PathBuf)
| Zram
| DmMultipath
| PartitionTable (t : PartitionTable)
| Partition (number : positive) (offset : Bytes) (role : option UsageRole)
    (attributes : PartitionAttributes)
| LuksContainer (version : LuksVersion)
| DmCryptMapping (name : string)
| DmIntegrity (name : string)
| DmVerity (name : string)
| MdArray (a : MdArray)
| LvmPv
| LvmVg (name : string) (extent_size : option Bytes)
| LvmLv (lv : LvmLv)
| Bcache (name : string) (mode : BcacheMode)
| DmCache (name : string) (mode : DmCacheMode)
| DmWritecache (name : string)
| Filesystem (kind : FilesystemKind) (label : option string)
| Swap
| BtrfsSubvolume (name : string) (read_only is_default : bool)
| ZfsPool (name : string)
| ZfsVdev (k : ZfsVdevKind)
| ZfsDataset (name : string)
| ZfsVolume (name : string)
| Drbd (name : string)
| Unknown (s : string).
#[global] Instance NodeKind_eq_dec : EqDecision NodeKind.
Proof. solve_decision. Defined.
End NodeKind.
Abbreviation NodeKind := NodeKind.NodeKind.

Module NodeSpec.
Record NodeSpec := mk { kind : NodeKind; size : option Bytes }.
#[global] Instance NodeSpec_eq_dec : EqDecision NodeSpec.
Proof. solve_decision. Defined.
End NodeSpec.
Abbreviation NodeSpec := NodeSpec.NodeSpec.

Module Presence.
Inductive Presence := Unknown | Present | Missing.
#[global] Instance Presence_eq_dec : EqDecision Presence.
Proof. solve_decision. Defined.
End Presence.
Abbreviation Presence := Presence.Presence.

Module NodeFacts.
Record NodeFacts := mk {
  lvm_active : option bool;
  observed_in : option ProbeEpoch;
  presence : Presence;
  identities : list ExternalId;
  block : option BlockFacts;
  device : option DeviceInfo }.
#[global] Instance NodeFacts_eq_dec : EqDecision NodeFacts.
Proof. solve_decision. Defined.
Definition default : NodeFacts := mk None None Presence.Unknown [] None None.
End NodeFacts.
Abbreviation NodeFacts := NodeFacts.NodeFacts.

Module Node.
Record Node := mk { kind : NodeSpec; size : NodeFacts }.
#[global] Instance Node_eq_dec : EqDecision Node.
Proof. solve_decision. Defined.
End Node.
Abbreviation Node := Node.Node.

(** [ProbeEpoch::next] *)
Definition ProbeEpoch_next (e : ProbeEpoch) : option ProbeEpoch := u64_checked_add e 1.

(** ** Graph edges ([graph.rs]) *)

Module BtrfsMember.
Record BtrfsMember := mk { devid : option positive }.
#[global] Instance BtrfsMember_eq_dec : EqDecision BtrfsMember.
Proof. solve_decision. Defined.
End BtrfsMember.
Abbreviation BtrfsMember := BtrfsMember.BtrfsMember.

Module MdMemberRole.
Inductive MdMemberRole := Data | Spare | Replacement | Journal.
#[global] Instance MdMemberRole_eq_dec : EqDecision MdMemberRole.
Proof. solve_decision. Defined.
End MdMemberRole.
Abbreviation MdMemberRole := MdMemberRole.MdMemberRole.

Module MdMember.
Record MdMember := mk {
  role : MdMemberRole;
  slot : option N;
  data_offset : option Bytes }.
#[global] Instance MdMember_eq_dec : EqDecision MdMember.
Proof. solve_decision. Defined.
End MdMember.
Abbreviation MdMember := MdMember.MdMember.

Module MemberRole.
Inductive MemberRole :=
| LvmPv | Md (m : MdMember) | Btrfs (m : BtrfsMember) | Zfs (m : ZfsMember).
#[global] Instance MemberRole_eq_dec : EqDecision MemberRole.
Proof. solve_decision. Defined.
End MemberRole.
Abbreviation MemberRole := MemberRole.MemberRole.

Module CacheRole.
Inductive CacheRole := Data | Metadata.
#[global] Instance CacheRole_eq_dec : EqDecision CacheRole.
Proof. solve_decision. Defined.
End CacheRole.
Abbreviation CacheRole := CacheRole.CacheRole.

Module DependencyKind.
Inductive DependencyKind :=
| Backs
| Contains (offset : Bytes)
| Provides
| MemberOf (r : MemberRole)
| Caches (r : CacheRole)
| Path.
#[global] Instance DependencyKind_eq_dec : EqDecision DependencyKind.
Proof. solve_decision. Defined.
End DependencyKind.
Abbreviation DependencyKind := DependencyKind.DependencyKind.

Module RelationKind.
Inductive RelationKind := SnapshotOf | NvmeAttachedTo | Replicates.
#[global] Instance RelationKind_eq_dec : EqDecision RelationKind.
Proof. solve_decision. Defined.
End RelationKind.
Abbreviation RelationKind := RelationKind.RelationKind.

(** The Rust fields [from] and [to]; [from] is not a name Rocq allows here. *)
Module Dependency.
Record Dependency := mk { from_ : NodeId; to : NodeId; kind : DependencyKind }.
#[global] Instance Dependency_eq_dec : EqDecision Dependency.
Proof. solve_decision. Defined.
End Dependency.
Abbreviation Dependency := Dependency.Dependency.

Module Relation.
Record Relation := mk { from_ : NodeId; to : NodeId; kind : RelationKind }.
#[global] Instance Relation_eq_dec : EqDecision Relation.
Proof. solve_decision. Defined.
End Relation.
Abbreviation Relation := Relation.Relation.

(** * Checked sizes: [storage-core/src/model/sizes.rs]

    [Bytes] and [Mib] are [u64] values; every operation is total and returns
    [Overflow] or [OutOfBounds] instead of wrapping. *)

Module GeometryError.
Inductive GeometryError :=
| Overflow
| OutOfBounds (start end_ device_size : N).
#[global] Instance GeometryError_eq_dec : EqDecision GeometryError.
Proof. solve_decision. Defined.
End GeometryError.
Abbreviation GeometryError := GeometryError.GeometryError.

Abbreviation Mib := N (only parsing).

Definition Bytes_checked_add (a b : Bytes) : result Bytes GeometryError :=
  ok_or (u64_checked_add a b) GeometryError.Overflow.

Definition Bytes_checked_mul (a : Bytes) (b : N) : result Bytes GeometryError :=
  ok_or (u64_checked_mul a b) GeometryError.Overflow.

Definition sum_checked (values : list Bytes) : result Bytes GeometryError :=
  try_fold Bytes_checked_add 0%N values.

Definition range_within (start size device_size : Bytes) : result Bytes GeometryError :=
  let? end_ := Bytes_checked_add start size in
  if (device_size <? end_)%N
  then Err (GeometryError.OutOfBounds start end_ device_size)
  else Ok end_.

Definition Mib_bytes (m : Mib) : result Bytes GeometryError :=
  ok_or (u64_checked_mul m (1024 * 1024)) GeometryError.Overflow.

Definition sectors_512 (m : Mib) : result N GeometryError :=
  let? bytes := Mib_bytes m in Ok (bytes / 512)%N.

(** [sectors.div_ceil(2048)] *)
Definition from_sectors_512 (sectors : N) : Mib :=
  let q := (sectors / 2048)%N in
  if (0 <? sectors mod 2048)%N then (q + 1)%N else q.

(** ** Exactness *)

Definition N_sum (l : list N) : N := foldr N.add 0%N l.

Lemma try_fold_checked_add l acc :
  (acc <= u64_MAX)%N →
  try_fold Bytes_checked_add acc l =
    if (acc + N_sum l <=? u64_MAX)%N then Ok (acc + N_sum l)%N else Err GeometryError.Overflow.
Proof.
  revert acc. induction l as [|x l IH]; intros acc Hacc; simpl.
  - rewrite N.add_0_r. by rewrite (proj2 (N.leb_le _ _) Hacc).
  - unfold Bytes_checked_add at 1, u64_checked_add.
    destruct (acc + x <=? u64_MAX)%N eqn:Hx; simpl.
    + apply N.leb_le in Hx. by rewrite IH, N.add_assoc.
    + apply N.leb_gt in Hx. symmetry. case_match eqn:Hs; [|done]. apply N.leb_le in Hs. lia.
Qed.

(** The checked sum is the exact sum when it fits in a [u64], and [Overflow]
    otherwise, whatever the order of the values. *)
Theorem sum_checked_exact values :
  sum_checked values = if (N_sum values <=? u64_MAX)%N then Ok (N_sum values)
                       else Err GeometryError.Overflow.
Proof. apply try_fold_checked_add. done. Qed.

(** A range is accepted exactly when it ends inside the device; the end is
    exact and the error reports the range that was asked for. *)
Theorem range_within_spec start size device_size :
  (device_size <= u64_MAX)%N →
  range_within start size device_size =
    if (start + size <=? device_size)%N then Ok (start + size)%N
    else if (start + size <=? u64_MAX)%N
         then Err (GeometryError.OutOfBounds start (start + size) device_size)
         else Err GeometryError.Overflow.
Proof.
  intros Hd. unfold range_within, Bytes_checked_add, u64_checked_add.
  destruct (start + size <=? u64_MAX)%N eqn:Hu; simpl.
  - by rewrite N.ltb_antisym; destruct (_ <=? device_size)%N.
  - apply N.leb_gt in Hu. case_match eqn:Hs; [|done]. apply N.leb_le in Hs. lia.
Qed.

(** Whole MiB survive the trip through 512-byte sectors. *)
Theorem mib_sectors_roundtrip m s :
  sectors_512 m = Ok s → from_sectors_512 s = m.
Proof.
  unfold sectors_512, Mib_bytes, u64_checked_mul.
  destruct (_ <=? _)%N; cbn [ok_or]; [|done]. intros <-%Ok_inj.
  assert (m * (1024 * 1024) / 512 = m * 2048)%N as ->.
  { replace (m * (1024 * 1024))%N with (m * 2048 * 512)%N by lia. by apply N.div_mul. }
  unfold from_sectors_512. rewrite N.Div0.mod_mul, N.div_mul by done. done.
Qed.

(** Converting sectors to MiB rounds up, by less than one MiB. *)
Theorem from_sectors_512_ceil sectors :
  let m := from_sectors_512 sectors in
  (sectors <= m * 2048)%N ∧ (m * 2048 < sectors + 2048)%N.
Proof.
  intros m. unfold from_sectors_512 in m. pose proof (N.div_mod sectors 2048 ltac:(done)) as H.
  pose proof (N.mod_lt sectors 2048 ltac:(done)) as H0.
  destruct (0 <? sectors mod 2048)%N eqn:Hm; [apply N.ltb_lt in Hm|apply N.ltb_ge in Hm]; subst m;
    revert H H0 Hm; generalize (sectors / 2048)%N, (sectors mod 2048)%N; intros; lia.
Qed.
