(* ===== verification/Reach.v ===== *)
(** * Finite digraphs: reachability by worklist, acyclicity, topological orders

    The program walks its dependency edges in several places: the ancestors
    of a node, the descendants whose evidence an action revokes, the path
    test between two planned actions, and two topological sorts.  This file
    holds the theory these loops share, over a graph given by its edge list. *)

From stdpp Require Import relations.
From S2P Require Import Prelude.

Section digraph.
Context {A : Type} `{EqDecision A}.
Implicit Types (E : list (A * A)) (x y z : A) (l visited pending : list A).

Definition edge E x y : Prop := (x, y) ∈ E.

(** No path leads from a vertex back to it. *)
Definition acyclic E : Prop := ∀ x, ¬ tc (edge E) x x.

(** The targets of the edges leaving [x], in edge order. *)
Definition succs E x : list A := (filter (λ e, e.1 = x) E).*2.

(** The edges into [x] whose source is not in [done]. *)
Definition indeg E (done : list A) x : nat :=
  length (filter (λ e, e.2 = x ∧ e.1 ∉ done) E).

(** Every edge into a vertex of [l] comes from an earlier vertex of [l]. *)
Definition ordered E l : Prop :=
  ∀ x y i, edge E x y → l !! i = Some y → ∃ j, j < i ∧ l !! j = Some x.

Lemma elem_of_succs E x y : y ∈ succs E x ↔ edge E x y.
Proof.
  unfold succs, edge. rewrite list_elem_of_fmap. split.
  - intros ([a b] & ? & [? Hin]%list_elem_of_filter). by simplify_eq/=.
  - intros Hin. exists (x, y). by rewrite list_elem_of_filter.
Qed.

Lemma indeg_zero E done x : indeg E done x = 0 ↔ ∀ y, edge E y x → y ∈ done.
Proof.
  unfold indeg, edge. rewrite length_zero_iff_nil. split.
  - intros Hnil y Hin. destruct (decide (y ∈ done)) as [|Hn]; [done|].
    assert ((y, x) ∈ filter (λ e, e.2 = x ∧ e.1 ∉ done) E) as Hf
      by (by rewrite list_elem_of_filter).
    rewrite Hnil in Hf. by apply elem_of_nil in Hf.
  - intros Hall. apply elem_of_nil_inv.
    intros [a b] ([? Hn] & Hin)%list_elem_of_filter. simplify_eq/=. auto.
Qed.

(** Finishing [x] removes its outgoing edges from every count. *)
Lemma indeg_snoc E done x y :
  x ∉ done →
  indeg E done y = length (filter (y =.) (succs E x)) + indeg E (done ++ [x]) y.
Proof.
  intros Hx. unfold indeg, succs. induction E as [|[a b] E IH]; [done|].
  rewrite !filter_cons. cbn [fst snd].
  repeat case_decide; cbn [fmap list_fmap length] in *;
    rewrite ?filter_cons; repeat case_decide; cbn [length]; rewrite ?IH;
    try lia; set_solver.
Qed.

(** ** Topological orders and cycles *)

Lemma ordered_nil E : ordered E [].
Proof. intros x y i _ Hi. by rewrite lookup_nil in Hi. Qed.

Lemma ordered_snoc E l y :
  ordered E l → (∀ x, edge E x y → x ∈ l) → ordered E (l ++ [y]).
Proof.
  intros Ho Hy x z i He Hi. apply lookup_snoc_Some in Hi as [[Hlt Hi]|[-> <-]].
  - destruct (Ho _ _ _ He Hi) as (j & Hj & Hl). exists j. split; [done|].
    by apply lookup_app_l_Some.
  - apply Hy, list_elem_of_lookup in He as [j Hl].
    exists j. split; [by eapply lookup_lt_Some|]. by apply lookup_app_l_Some.
Qed.

Lemma ordered_path E l x y :
  NoDup l → ordered E l → tc (edge E) x y →
  ∀ i, l !! i = Some y → ∃ j, j < i ∧ l !! j = Some x.
Proof.
  intros Hnd Ho. induction 1 as [x y He|x z y He Hzy IH]; intros i Hi.
  - eauto.
  - destruct (IH _ Hi) as (j & Hj & Hl).
    destruct (Ho _ _ _ He Hl) as (k & Hk & Hl'). exists k. split; [lia|done].
Qed.

(** A complete topological order exists only for acyclic edges. *)
Lemma ordered_acyclic E l :
  NoDup l → ordered E l → (∀ x y, edge E x y → y ∈ l) → acyclic E.
Proof.
  intros Hnd Ho Hin x Hx.
  assert (∃ i, l !! i = Some x) as [i Hi].
  { apply list_elem_of_lookup. revert Hx. generalize x at 1. intros x0.
    induction 1; eauto. }
  destruct (ordered_path _ _ _ _ Hnd Ho Hx _ Hi) as (j & Hj & Hl).
  assert (j = i) as -> by (by eapply NoDup_lookup). lia.
Qed.

Lemma tc_flip_edge (R : relation A) x y : tc (flip R) x y → tc R y x.
Proof. induction 1 as [x y HR|x y z HR _ IH]; [by apply tc_once|by eapply tc_r]. Qed.

(** Walking backwards along acyclic edges terminates. *)
Lemma acyclic_sn E x : acyclic E → sn (flip (edge E)) x.
Proof.
  intros Ha. apply tc_finite_sn.
  - intros y Hy%tc_flip_edge. by apply (Ha y).
  - exists (E.*1). intros y Hy. destruct (tc_flip_edge _ _ _ Hy) as [? ? He|? ? ? He _];
      apply list_elem_of_fmap; by eexists (_, _).
Qed.

(** A non-empty set of vertices each with a predecessor in the set lies on a
    cycle. *)
Lemma stuck_cycle E (P : A → Prop) x :
  P x → (∀ y, P y → ∃ z, P z ∧ edge E z y) → ¬ acyclic E.
Proof.
  intros Hx Hstep Ha. pose proof (acyclic_sn E x Ha) as Hsn.
  induction Hsn as [x _ IH]. destruct (Hstep x Hx) as (z & Hz & He). by eapply (IH z).
Qed.

(** ** Depth-first traversal

    [while let Some(x) = pending.pop() { if !visited.insert(x) { continue; }
    BODY(x); pending.extend(succ(x)); }]: the vertices [BODY] sees, in order.
    The head of [pending] is the end of the Rust vector. *)

Section traverse.
Context (succ : A → list A).

Fixpoint traverse (fuel : nat) visited pending : list A :=
  match fuel with
  | 0 => []
  | S fuel =>
      match pending with
      | [] => []
      | x :: pending =>
          if decide (x ∈ visited) then traverse fuel visited pending
          else x :: traverse fuel (x :: visited) (reverse (succ x) ++ pending)
      end
  end.

Context (E : list (A * A)) (succ_edges : ∀ x, succ x ≡ₚ succs E x).

(** Pushes still possible: the pending vertices and the edges out of
    unvisited ones. *)
Definition traverse_work visited pending : nat :=
  length pending + length (filter (λ e, e.1 ∉ visited) E).

Lemma succ_edge x y : y ∈ succ x ↔ edge E x y.
Proof. rewrite succ_edges. apply elem_of_succs. Qed.

Lemma traverse_work_visit visited x :
  x ∉ visited →
  length (filter (λ e, e.1 ∉ visited) E) =
  length (succ x) + length (filter (λ e, e.1 ∉ x :: visited) E).
Proof.
  intros Hx. rewrite succ_edges. unfold succs. rewrite length_fmap.
  clear succ_edges. induction E as [|[a b] E' IH]; [done|].
  rewrite !filter_cons. cbn [fst].
  repeat case_decide; cbn [length]; rewrite ?IH; try lia; set_solver.
Qed.

Lemma traverse_spec fuel visited pending :
  traverse_work visited pending < fuel →
  (∀ x y, x ∈ visited → edge E x y → y ∈ visited ∨ y ∈ pending) →
  NoDup (traverse fuel visited pending) ∧
  (∀ y, y ∈ traverse fuel visited pending →
        y ∉ visited ∧ ∃ x, x ∈ pending ∧ rtc (edge E) x y) ∧
  (∀ x y, x ∈ visited ∨ x ∈ pending → rtc (edge E) x y →
        y ∈ visited ∨ y ∈ traverse fuel visited pending).
Proof.
  revert visited pending. induction fuel as [|fuel IH]; intros visited pending Hf Hc; [lia|].
  destruct pending as [|x pending]; cbn [traverse].
  { split_and!; [constructor|set_solver|]. intros x y Hx Hxy. left.
    induction Hxy as [|x z y He _ IHr]; [set_solver|]. apply IHr. set_solver. }
  case_decide as Hx.
  - unfold traverse_work in *. cbn [length] in Hf.
    destruct (IH visited pending) as (Hnd & Hs & Hr); [lia|set_solver|].
    split_and!; [done|set_solver|]. intros z y Hz. apply Hr. set_solver.
  - pose proof (traverse_work_visit visited x Hx) as Hw. unfold traverse_work in *.
    cbn [length] in Hf.
    destruct (IH (x :: visited) (reverse (succ x) ++ pending)) as (Hnd & Hs & Hr).
    { rewrite length_app, length_reverse. lia. }
    { intros y z [->|Hy]%elem_of_cons He; [|set_solver].
      right. apply elem_of_app. left. by rewrite elem_of_reverse, succ_edge. }
    split_and!.
    + constructor; [|done]. set_solver.
    + intros y [->|Hy]%elem_of_cons; [set_solver by eauto using rtc_refl|].
      destruct (Hs y Hy) as (Hv & z & Hz & Hzy). split; [set_solver|].
      rewrite elem_of_app, elem_of_reverse, succ_edge in Hz.
      destruct Hz; [exists x|exists z]; set_solver by eauto using rtc_l.
    + intros z y Hz Hzy. destruct (Hr z y) as [[->|]%elem_of_cons|]; set_solver.
Qed.

(** With nothing visited yet, [traverse] lists exactly what is reachable. *)
Lemma traverse_reachable fuel pending y :
  length pending + length E < fuel →
  y ∈ traverse fuel [] pending ↔ ∃ x, x ∈ pending ∧ rtc (edge E) x y.
Proof.
  intros Hf. destruct (traverse_spec fuel [] pending) as (_ & Hs & Hr); [|set_solver|].
  { unfold traverse_work. pose proof (length_filter (λ e, e.1 ∉ []) E). lia. }
  split; [intros Hy; by destruct (Hs y Hy)|]. intros (x & Hx & Hxy).
  destruct (Hr x y (or_intror Hx) Hxy) as [[]%elem_of_nil|]; done.
Qed.

Lemma traverse_NoDup fuel pending :
  length pending + length E < fuel → NoDup (traverse fuel [] pending).
Proof.
  intros Hf. apply traverse_spec; [|set_solver].
  unfold traverse_work. pose proof (length_filter (λ e, e.1 ∉ []) E). lia.
Qed.
End traverse.
End digraph.
