(* ===== verification/Graph.v ===== *)
(** * The storage graph: [storage-core/src/model/graph.rs]

    [NodeGraph] with its mutations, the ancestor walk, the topological sort
    and [validate_structure], the check every published graph passes.

    [nodes] is a finite map.  The two [HashSet]s of edges are duplicate-free
    lists whose order is the iteration order of the set, which Rust leaves
    unspecified: the theorems hold for every list, and [graph_equiv] relates
    graphs that differ only in that order.  [topological_order_from] takes the
    iteration order of the node map as an argument for the same reason. *)

From stdpp Require Import relations.
From S2P Require Import Prelude Model Reach.

Module NodeGraph.
Record NodeGraph := mk {
  nodes : gmap NodeId Node;
  dependencies : list Dependency;
  relations : list Relation }.
#[global] Instance NodeGraph_eq_dec : EqDecision NodeGraph.
Proof. solve_decision. Defined.
End NodeGraph.
Abbreviation NodeGraph := NodeGraph.NodeGraph.

Module GraphError.
Inductive GraphError :=
| DuplicateNode (id : NodeId)
| MissingNode (id : NodeId)
| DuplicateEdge
| SelfDependency (id : NodeId)
| DependencyCycle
| ConflictingOwner (id : NodeId)
| ConflictingRole (id : NodeId)
| PartitionOffset (id : NodeId).
#[global] Instance GraphError_eq_dec : EqDecision GraphError.
Proof. solve_decision. Defined.
End GraphError.
Abbreviation GraphError := GraphError.GraphError.

Implicit Types (g : NodeGraph) (id : NodeId) (d : Dependency) (r : Relation).

(** ** Mutations *)

Definition graph_new : NodeGraph := NodeGraph.mk ∅ [] [].

Definition node g id : option Node := g.(NodeGraph.nodes) !! id.

Definition insert_new g id (n : Node) : result NodeGraph GraphError :=
  match g.(NodeGraph.nodes) !! id with
  | None => Ok (NodeGraph.mk (<[id:=n]> g.(NodeGraph.nodes))
                  g.(NodeGraph.dependencies) g.(NodeGraph.relations))
  | Some _ => Err (GraphError.DuplicateNode id)
  end.

Definition replace_existing g id (n : Node) : result (NodeGraph * Node) GraphError :=
  let? current := ok_or (g.(NodeGraph.nodes) !! id) (GraphError.MissingNode id) in
  Ok (NodeGraph.mk (<[id:=n]> g.(NodeGraph.nodes))
        g.(NodeGraph.dependencies) g.(NodeGraph.relations), current).

Definition insert_dependency g d : bool * NodeGraph :=
  let '(fresh, ds) := set_insert d g.(NodeGraph.dependencies) in
  (fresh, NodeGraph.mk g.(NodeGraph.nodes) ds g.(NodeGraph.relations)).

Definition insert_relation g r : bool * NodeGraph :=
  let '(fresh, rs) := set_insert r g.(NodeGraph.relations) in
  (fresh, NodeGraph.mk g.(NodeGraph.nodes) g.(NodeGraph.dependencies) rs).

Definition remove_node g id : option Node * NodeGraph :=
  (g.(NodeGraph.nodes) !! id,
   NodeGraph.mk (delete id g.(NodeGraph.nodes))
     g.(NodeGraph.dependencies) g.(NodeGraph.relations)).

Definition remove_dependency g d : bool * NodeGraph :=
  let '(found, ds) := set_remove d g.(NodeGraph.dependencies) in
  (found, NodeGraph.mk g.(NodeGraph.nodes) ds g.(NodeGraph.relations)).

Definition remove_relation g r : bool * NodeGraph :=
  let '(found, rs) := set_remove r g.(NodeGraph.relations) in
  (found, NodeGraph.mk g.(NodeGraph.nodes) g.(NodeGraph.dependencies) rs).

(** ** Ancestors

    [visited] is marked when a node is pushed; the head of [pending] is the
    end of the Rust vector. *)

Definition ancestors_push (acc : list NodeId * list NodeId) d : list NodeId * list NodeId :=
  let '(visited, pending) := acc in
  if contains d.(Dependency.from_) visited then (visited, pending)
  else (visited ++ [d.(Dependency.from_)], d.(Dependency.from_) :: pending).

Fixpoint ancestors_loop (fuel : nat) g (visited pending : list NodeId) : list NodeId :=
  match fuel with
  | 0 => visited
  | S fuel =>
      match pending with
      | [] => visited
      | n :: pending =>
          let '(visited, pending) :=
            foldl ancestors_push (visited, pending)
              (filter (λ d, d.(Dependency.to) = n) g.(NodeGraph.dependencies)) in
          ancestors_loop fuel g visited pending
      end
  end.

(** The result set in visiting order, the start removed.  Each iteration pops
    one node and each edge causes at most one push, so the fuel is enough. *)
Definition ancestors g id : list NodeId :=
  filter (λ x, x ≠ id)
    (ancestors_loop (S (S (length g.(NodeGraph.dependencies)))) g [id] [id]).

(** ** Topological order *)

Definition require_endpoints g (from_ to : NodeId) : result unit GraphError :=
  try_all (λ id, match g.(NodeGraph.nodes) !! id with
                 | None => Err (GraphError.MissingNode id)
                 | Some _ => Ok tt
                 end) [from_; to].

(** The first loop of the sort: one edge into the degree and adjacency maps. *)
Definition topo_count g (acc : gmap NodeId nat * gmap NodeId (list NodeId)) d
    : result (gmap NodeId nat * gmap NodeId (list NodeId)) GraphError :=
  let '(indegrees, outgoing) := acc in
  let? _ := require_endpoints g d.(Dependency.from_) d.(Dependency.to) in
  if decide (d.(Dependency.from_) = d.(Dependency.to))
  then Err (GraphError.SelfDependency d.(Dependency.from_))
  else Ok (<[d.(Dependency.to) := S (default 0 (indegrees !! d.(Dependency.to)))]> indegrees,
           <[d.(Dependency.from_) :=
               default [] (outgoing !! d.(Dependency.from_)) ++ [d.(Dependency.to)]]> outgoing).

(** One outgoing edge of a finished node: decrement, and queue the target
    when its degree reaches zero. *)
Definition topo_relax (acc : gmap NodeId nat * list NodeId) (to : NodeId)
    : gmap NodeId nat * list NodeId :=
  let '(indegrees, ready) := acc in
  match indegrees !! to with
  | Some degree =>
      (<[to := pred degree]> indegrees,
       if decide (pred degree = 0) then ready ++ [to] else ready)
  | None => (indegrees, ready)
  end.

Fixpoint topo_loop (fuel : nat) (outgoing : gmap NodeId (list NodeId))
    (indegrees : gmap NodeId nat) (ready order : list NodeId) : list NodeId :=
  match fuel with
  | 0 => order
  | S fuel =>
      match ready with
      | [] => order
      | id :: ready =>
          let '(indegrees, ready) :=
            foldl topo_relax (indegrees, ready) (default [] (outgoing !! id)) in
          topo_loop fuel outgoing indegrees ready (order ++ [id])
      end
  end.

(** [keys] is the iteration order of the degree map; a node enters the queue
    once, so one more than the number of nodes is enough fuel. *)
Definition topological_order_from (keys : list NodeId) g : result (list NodeId) GraphError :=
  let? (indegrees, outgoing) :=
    try_fold (topo_count g) ((λ _, 0) <$> g.(NodeGraph.nodes), ∅)
      g.(NodeGraph.dependencies) in
  let ready := filter (λ id, indegrees !! id = Some 0) keys in
  let order := topo_loop (S (size g.(NodeGraph.nodes))) outgoing indegrees ready [] in
  if decide (length order = size g.(NodeGraph.nodes))
  then Ok order else Err GraphError.DependencyCycle.

Definition topological_order g : result (list NodeId) GraphError :=
  topological_order_from (elements (dom g.(NodeGraph.nodes))) g.

(** ** Structural validation *)

(** [std::mem::discriminant(&edge.kind)] *)
Definition kind_discriminant (k : DependencyKind) : nat :=
  match k with
  | DependencyKind.Backs => 0
  | DependencyKind.Contains _ => 1
  | DependencyKind.Provides => 2
  | DependencyKind.MemberOf _ => 3
  | DependencyKind.Caches _ => 4
  | DependencyKind.Path => 5
  end.

(** What a logical edge is keyed by: a payload other than a cache role does
    not distinguish two edges. *)
Definition logical_key d : NodeId * NodeId * nat * option CacheRole :=
  (d.(Dependency.from_), d.(Dependency.to), kind_discriminant d.(Dependency.kind),
   match d.(Dependency.kind) with DependencyKind.Caches role => Some role | _ => None end).

(** The hash sets of the dependency loop. *)
Record seen := mk_seen {
  owners : list NodeId;
  logical_edges : list (NodeId * NodeId * nat * option CacheRole);
  md_slots : list (NodeId * N);
  btrfs_ids : list (NodeId * positive);
  cache_roles : list (NodeId * CacheRole) }.

(** The kind-specific part of the loop body: it inserts into one set of [s]. *)
Definition check_kind g (s : seen) d : result seen GraphError :=
  match d.(Dependency.kind) with
  | DependencyKind.Contains offset =>
      let '(fresh, owners') := set_insert d.(Dependency.to) s.(owners) in
      if negb fresh then Err (GraphError.ConflictingOwner d.(Dependency.to))
      else match node g d.(Dependency.to) with
           | Some (Node.mk (NodeSpec.mk (NodeKind.Partition _ partition_offset _ _) _) _) =>
               if decide (offset = partition_offset)
               then Ok (mk_seen owners' s.(logical_edges) s.(md_slots) s.(btrfs_ids) s.(cache_roles))
               else Err (GraphError.PartitionOffset d.(Dependency.to))
           | _ => Ok (mk_seen owners' s.(logical_edges) s.(md_slots) s.(btrfs_ids) s.(cache_roles))
           end
  | DependencyKind.MemberOf (MemberRole.Md member) =>
      match member.(MdMember.slot) with
      | Some slot =>
          if decide (member.(MdMember.role) = MdMemberRole.Data) then
            let '(fresh, slots) := set_insert (d.(Dependency.to), slot) s.(md_slots) in
            if fresh
            then Ok (mk_seen s.(owners) s.(logical_edges) slots s.(btrfs_ids) s.(cache_roles))
            else Err (GraphError.ConflictingRole d.(Dependency.to))
          else Ok s
      | None => Ok s
      end
  | DependencyKind.MemberOf (MemberRole.Btrfs member) =>
      match member.(BtrfsMember.devid) with
      | Some devid =>
          let '(fresh, ids) := set_insert (d.(Dependency.to), devid) s.(btrfs_ids) in
          if fresh
          then Ok (mk_seen s.(owners) s.(logical_edges) s.(md_slots) ids s.(cache_roles))
          else Err (GraphError.ConflictingRole d.(Dependency.to))
      | None => Ok s
      end
  | DependencyKind.Caches role =>
      let '(fresh, roles) := set_insert (d.(Dependency.to), role) s.(cache_roles) in
      if fresh
      then Ok (mk_seen s.(owners) s.(logical_edges) s.(md_slots) s.(btrfs_ids) roles)
      else Err (GraphError.ConflictingRole d.(Dependency.to))
  | _ => Ok s
  end.

(** One iteration of the dependency loop of [validate_structure]. *)
Definition check_dependency g (s : seen) d : result seen GraphError :=
  let? _ := require_endpoints g d.(Dependency.from_) d.(Dependency.to) in
  if decide (d.(Dependency.from_) = d.(Dependency.to))
  then Err (GraphError.SelfDependency d.(Dependency.from_))
  else
    let '(fresh, logical) := set_insert (logical_key d) s.(logical_edges) in
    if negb fresh then Err (GraphError.ConflictingRole d.(Dependency.to))
    else check_kind g (mk_seen s.(owners) logical s.(md_slots) s.(btrfs_ids) s.(cache_roles)) d.

Definition validate_structure g : result unit GraphError :=
  let? _ := try_all (λ r, require_endpoints g r.(Relation.from_) r.(Relation.to))
              g.(NodeGraph.relations) in
  let? _ := try_fold (check_dependency g) (mk_seen [] [] [] [] []) g.(NodeGraph.dependencies) in
  let? _ := topological_order g in
  Ok tt.

(** ** Import from the wire *)

(** [NodeGraphDto]: arrays as they were read, before duplicates are checked. *)
Record NodeGraphDto := mk_dto {
  dto_nodes : gmap NodeId Node;
  dto_dependencies : list Dependency;
  dto_relations : list Relation }.

(** [deserialize_nodes]: the entries of the JSON object in reading order. *)
Definition deserialize_nodes (entries : list (NodeId * Node))
    : result (gmap NodeId Node) GraphError :=
  try_fold (λ (m : gmap NodeId Node) '(id, n),
              match m !! id with
              | None => Ok (<[id:=n]> m)
              | Some _ => Err (GraphError.DuplicateNode id)
              end) ∅ entries.

(** [TryFrom<NodeGraphDto> for NodeGraph] *)
Definition graph_try_from (dto : NodeGraphDto) : result NodeGraph GraphError :=
  let? graph :=
    try_fold (λ graph edge, let '(fresh, graph) := insert_dependency graph edge in
                            if fresh : bool then Ok graph else Err GraphError.DuplicateEdge)
      (NodeGraph.mk dto.(dto_nodes) [] []) dto.(dto_dependencies) in
  let? graph :=
    try_fold (λ graph edge, let '(fresh, graph) := insert_relation graph edge in
                            if fresh : bool then Ok graph else Err GraphError.DuplicateEdge)
      graph dto.(dto_relations) in
  let? _ := validate_structure graph in
  Ok graph.

(** [Serialize for NodeGraph]: the fields as they are iterated. *)
Definition graph_to_dto g : NodeGraphDto :=
  mk_dto g.(NodeGraph.nodes) g.(NodeGraph.dependencies) g.(NodeGraph.relations).
