(* ===== verification/GraphOrder.v ===== *)
(** * [NodeGraph::topological_order] and [NodeGraph::ancestors]

    The sort returns an order exactly when every edge joins two present nodes
    and no path is cyclic, and then the order lists every node once, each after
    everything it depends on.  The ancestor walk returns the nodes a node
    depends on, transitively. *)

From stdpp Require Import relations.
From S2P Require Import Prelude Model Reach Graph.

Implicit Types (g : NodeGraph) (id x y : NodeId).

(** The dependency edges as pairs. *)
Definition edges g : list (NodeId * NodeId) :=
  (λ d, (d.(Dependency.from_), d.(Dependency.to))) <$> g.(NodeGraph.dependencies).

Definition has_node g id : Prop := is_Some (g.(NodeGraph.nodes) !! id).

(** Both endpoints of every dependency are nodes of the graph. *)
Definition closed g : Prop := ∀ x y, edge (edges g) x y → has_node g x ∧ has_node g y.

Lemma require_endpoints_ok g x y :
  require_endpoints g x y = Ok tt ↔ has_node g x ∧ has_node g y.
Proof.
  unfold require_endpoints, has_node. rewrite try_all_ok. split.
  - intros Hall. split; [specialize (Hall x)|specialize (Hall y)];
      destruct (_ !! _); try done; exfalso; set_solver.
  - intros [[? Hx] [? Hy]] z [->|[->|[]%elem_of_nil]%elem_of_cons]%elem_of_cons;
      by rewrite ?Hx, ?Hy.
Qed.

(** ** The degree and adjacency maps *)

(** The maps after the edges [E]: degrees of the nodes, targets of a source. *)
Record counted g (E : list (NodeId * NodeId))
    (acc : gmap NodeId nat * gmap NodeId (list NodeId)) : Prop := {
  counted_degree x : acc.1 !! x = (λ _, indeg E [] x) <$> g.(NodeGraph.nodes) !! x;
  counted_outgoing x : default [] (acc.2 !! x) = succs E x }.

Lemma counted_step g E acc d :
  counted g E acc →
  has_node g d.(Dependency.from_) → has_node g d.(Dependency.to) →
  d.(Dependency.from_) ≠ d.(Dependency.to) →
  ∃ acc', topo_count g acc d = Ok acc' ∧
          counted g (E ++ [(d.(Dependency.from_), d.(Dependency.to))]) acc'.
Proof.
  destruct acc as [ind out], d as [a b k]. intros [Hd Ho] Ha Hb Hne. simpl in *.
  unfold topo_count. rewrite (proj2 (require_endpoints_ok g a b)); [|done].
  cbn [Dependency.from_ Dependency.to]. rewrite decide_False by done.
  eexists; split; [done|]. split; intros x; simpl; unfold indeg, succs in *.
  - rewrite filter_app, length_app, filter_cons. cbn [fst snd].
    destruct (decide (b = x)) as [->|Hbx].
    + rewrite lookup_insert_eq, Hd. destruct Hb as [nb Hb]. rewrite Hb. simpl.
      rewrite decide_True by (split; [done|apply not_elem_of_nil]).
      simpl. f_equal. lia.
    + rewrite lookup_insert_ne, Hd, decide_False by naive_solver.
      simpl. by rewrite Nat.add_0_r.
  - rewrite filter_app, fmap_app, filter_cons. cbn [fst].
    destruct (decide (a = x)) as [->|Hax].
    + by rewrite lookup_insert_eq, Ho.
    + rewrite lookup_insert_ne, Ho by done. by rewrite app_nil_r.
Qed.

Lemma counted_init g : counted g [] ((λ _, 0) <$> g.(NodeGraph.nodes), ∅).
Proof.
  split; intros x; simpl; [by rewrite lookup_fmap|by rewrite lookup_empty].
Qed.

(** The counting loop succeeds on closed graphs without self edges, *)
Lemma topo_count_total g :
  closed g → (∀ x, ¬ edge (edges g) x x) →
  ∃ acc, try_fold (topo_count g) ((λ _, 0) <$> g.(NodeGraph.nodes), ∅)
           g.(NodeGraph.dependencies) = Ok acc ∧ counted g (edges g) acc.
Proof.
  intros Hc Hs. apply (try_fold_total (topo_count g)
    (λ pre acc, counted g ((λ d, (d.(Dependency.from_), d.(Dependency.to))) <$> pre) acc));
    [apply counted_init|].
  intros pre d post acc Hl Hcnt. rewrite fmap_app. simpl.
  assert (edge (edges g) d.(Dependency.from_) d.(Dependency.to)) as He.
  { unfold edge, edges. rewrite Hl, fmap_app. set_solver. }
  destruct (Hc _ _ He). apply counted_step; [done..|].
  intros Heq. rewrite <-Heq in He. by apply Hs in He.
Qed.

(** and only on those. *)
Lemma topo_count_closed g acc :
  try_fold (topo_count g) ((λ _, 0) <$> g.(NodeGraph.nodes), ∅)
    g.(NodeGraph.dependencies) = Ok acc →
  closed g ∧ ∀ x, ¬ edge (edges g) x x.
Proof.
  intros Hacc.
  set (ok d := has_node g d.(Dependency.from_) ∧ has_node g d.(Dependency.to) ∧
    d.(Dependency.from_) ≠ d.(Dependency.to)).
  assert (∀ d, d ∈ g.(NodeGraph.dependencies) → ok d) as Hall.
  { eapply (try_fold_inv _ (λ pre _, ∀ d, d ∈ pre → ok d) _ _ _); [set_solver| |done].
    intros pre d post [ind out] s' _ Hpre Hf e [?| ->%list_elem_of_singleton]%elem_of_app;
      [by apply Hpre|]. unfold topo_count in Hf.
    destruct (require_endpoints _ _ _) as [[]|] eqn:Er in Hf; [|done].
    apply require_endpoints_ok in Er as []. case_decide; [done|]. done. }
  unfold closed, edge, edges. split.
  - intros x y (d & [= -> ->] & Hd)%list_elem_of_fmap. naive_solver.
  - intros x (d & [= -> ?] & Hd)%list_elem_of_fmap. naive_solver.
Qed.

Lemma topo_count_counted g acc :
  try_fold (topo_count g) ((λ _, 0) <$> g.(NodeGraph.nodes), ∅)
    g.(NodeGraph.dependencies) = Ok acc → counted g (edges g) acc.
Proof.
  intros Hok. destruct (topo_count_closed _ _ Hok) as [Hc Hs].
  destruct (topo_count_total g Hc Hs) as (acc' & Hacc & Hcnt). congruence.
Qed.

(** ** The queue *)

(** Relaxing the targets [l] of a finished node brings every degree down to
    [final], and queues the targets whose degree reaches zero, once each. *)
Lemma topo_relax_spec (nodes : gmap NodeId Node) (final : NodeId → nat) l ind ready :
  (∀ x, ind !! x = (λ _, length (filter (x =.) l) + final x) <$> nodes !! x) →
  ∃ ind' queued,
    foldl topo_relax (ind, ready) l = (ind', ready ++ queued) ∧
    (∀ x, ind' !! x = (λ _, final x) <$> nodes !! x) ∧
    NoDup queued ∧
    (∀ x, x ∈ queued ↔ is_Some (nodes !! x) ∧ x ∈ l ∧ final x = 0).
Proof.
  revert ind ready. induction l as [|t l IH]; intros ind ready Hind.
  { exists ind, []. rewrite app_nil_r. split_and!; [done..|constructor|set_solver]. }
  assert (∀ x, x ≠ t → ind !! x = (λ _, length (filter (x =.) l) + final x) <$> nodes !! x) as Hne.
  { intros x Hx. rewrite Hind, filter_cons, decide_False; done. }
  cbn [foldl]. unfold topo_relax at 2. specialize (Hind t).
  destruct (nodes !! t) as [n|] eqn:Hn; simpl in Hind; rewrite Hind.
  - rewrite filter_cons, decide_True by done. cbn [length Nat.add pred].
    edestruct (IH (<[t:=length (filter (t =.) l) + final t]> ind)) as (ind' & q & Hf & Hd & Hnd & Hq).
    { intros x. destruct (decide (x = t)) as [->|Hx];
        [by rewrite lookup_insert_eq, Hn|by rewrite lookup_insert_ne, Hne]. }
    rewrite Hf. case_decide as Hz.
    + exists ind', (t :: q). rewrite <-app_assoc. split_and!; [done..| |].
      * constructor; [|done]. intros (_ & Ht & _)%Hq.
        assert (t ∈ filter (t =.) l) as Hin by (by rewrite list_elem_of_filter).
        destruct (filter (t =.) l); [by apply elem_of_nil in Hin|done].
      * intros x. rewrite !elem_of_cons, Hq. split; [|naive_solver].
        intros [->|?]; [|naive_solver]. rewrite Hn. split_and!; [done|by left|lia].
    + exists ind', q. split_and!; [done..|]. intros x. rewrite Hq, elem_of_cons.
      split; [naive_solver|]. intros (? & [->|?] & ?); [|done]. split_and!; try done.
      destruct (filter (t =.) l) as [|z k] eqn:Hk; [simpl in Hz; lia|].
      assert (z ∈ filter (t =.) l) as [-> ?]%list_elem_of_filter by (rewrite Hk; left). done.
  - edestruct (IH ind) as (ind' & q & Hf & Hd & Hnd & Hq).
    { intros x. destruct (decide (x = t)) as [->|Hx]; [by rewrite Hind, Hn|by apply Hne]. }
    exists ind', q. split_and!; [done..|]. intros x. rewrite Hq, elem_of_cons.
    split; [naive_solver|]. intros ([? ?] & [->|?] & ?); [congruence|naive_solver].
Qed.

(** The state of the queue loop: [order] is finished, [ready] is queued, the
    degrees count the edges from unfinished nodes, and a node is finished or
    queued exactly when its degree is zero. *)
Record topo_inv g (indegrees : gmap NodeId nat) (ready order : list NodeId) : Prop := {
  topo_nodup : NoDup (order ++ ready);
  topo_ordered : ordered (edges g) order;
  topo_degree x : indegrees !! x = (λ _, indeg (edges g) order x) <$> g.(NodeGraph.nodes) !! x;
  topo_ready x : x ∈ order ++ ready ↔ has_node g x ∧ indeg (edges g) order x = 0 }.

Lemma topo_inv_length g ind ready order :
  topo_inv g ind ready order → length (order ++ ready) ≤ size g.(NodeGraph.nodes).
Proof.
  intros [Hnd _ _ Hr]. rewrite <-size_dom, <-(size_list_to_set (C:=gset NodeId)) by done.
  apply subseteq_size. intros x. rewrite elem_of_list_to_set, elem_of_dom. by intros []%Hr.
Qed.

(** One iteration finishes the head of the queue. *)
Lemma topo_inv_step g ind x ready order :
  topo_inv g ind (x :: ready) order →
  ∃ ind' queued,
    foldl topo_relax (ind, ready) (succs (edges g) x) = (ind', ready ++ queued) ∧
    topo_inv g ind' (ready ++ queued) (order ++ [x]).
Proof.
  intros [Hnd Ho Hd Hr].
  assert (x ∉ order) as Hx.
  { apply NoDup_app in Hnd as (_ & Hdis & _). intros Hin. apply (Hdis x Hin). by left. }
  assert (indeg (edges g) order x = 0) as Hx0 by (apply Hr; set_solver).
  destruct (topo_relax_spec g.(NodeGraph.nodes) (indeg (edges g) (order ++ [x]))
    (succs (edges g) x) ind ready) as (ind' & q & Hf & Hd' & Hqn & Hq).
  { intros y. rewrite Hd. destruct (_ !! y); [|done]. simpl. by rewrite indeg_snoc with (x := x). }
  exists ind', q. split; [done|].
  assert (∀ y, indeg (edges g) order y = 0 → indeg (edges g) (order ++ [x]) y = 0) as Hmono.
  { intros y Hy. pose proof (indeg_snoc (edges g) order x y Hx). lia. }
  assert (∀ y, y ∈ order ++ x :: ready → y ∉ q) as Hdis.
  { intros y [_ Hy]%Hr (_ & Hs & _)%Hq. apply elem_of_succs in Hs.
    by apply Hx, (proj1 (indeg_zero (edges g) order y) Hy). }
  assert ((order ++ [x]) ++ ready ++ q = (order ++ x :: ready) ++ q) as Happ
    by (by rewrite <-!app_assoc).
  split.
  - rewrite Happ. apply NoDup_app.
    split_and!; [done| |done]. by apply Hdis.
  - apply ordered_snoc; [done|]. by apply indeg_zero.
  - done.
  - intros y. rewrite Happ, elem_of_app, Hr, Hq. split.
    + intros [[? ?]|(? & _ & ?)]; auto.
    + intros [Hy Hy0]. destruct (decide (y ∈ succs (edges g) x)) as [|Hs]; [by right|].
      left. split; [done|]. rewrite indeg_snoc with (x := x), Hy0, Nat.add_0_r by done.
      apply length_zero_iff_nil, elem_of_nil_inv. intros z [-> ?]%list_elem_of_filter. done.
Qed.

Lemma topo_loop_spec g outgoing ind ready order fuel :
  (∀ x, default [] (outgoing !! x) = succs (edges g) x) →
  topo_inv g ind ready order →
  size g.(NodeGraph.nodes) < fuel + length order →
  ∃ ind', topo_inv g ind' [] (topo_loop fuel outgoing ind ready order).
Proof.
  intros Hout. revert ind ready order. induction fuel as [|fuel IH]; intros ind ready order Hinv Hf.
  { apply topo_inv_length in Hinv. rewrite length_app in Hinv. simpl in *. lia. }
  destruct ready as [|x ready]; simpl; [by exists ind|].
  destruct (topo_inv_step _ _ _ _ _ Hinv) as (ind' & q & Hfold & Hinv').
  rewrite Hout, Hfold. apply (IH _ _ _ Hinv'). rewrite length_app. simpl. lia.
Qed.

(** The degree map before the loop, with [keys] its iteration order. *)
Lemma topo_inv_init g keys acc :
  NoDup keys → (∀ x, x ∈ keys ↔ has_node g x) → counted g (edges g) acc →
  topo_inv g acc.1 (filter (λ id, acc.1 !! id = Some 0) keys) [].
Proof.
  intros Hnd Hk [Hd Ho]. split; simpl.
  - by apply NoDup_filter.
  - apply ordered_nil.
  - apply Hd.
  - intros x. rewrite list_elem_of_filter, Hd, Hk. unfold has_node.
    destruct (_ !! x); simpl; naive_solver.
Qed.

(** When the queue is empty, every node was finished or the unfinished ones
    hold a cycle. *)
Lemma topo_inv_final g ind order :
  topo_inv g ind [] order → closed g → acyclic (edges g) →
  length order = size g.(NodeGraph.nodes).
Proof.
  intros Hinv Hc Ha. pose proof (topo_inv_length _ _ _ _ Hinv) as Hle.
  destruct Hinv as [Hnd _ _ Hr]. rewrite app_nil_r in *.
  rewrite <-size_dom, <-(size_list_to_set (C:=gset NodeId)) by done.
  f_equal. apply set_eq. intros x. rewrite elem_of_list_to_set, elem_of_dom. split.
  { by intros []%Hr. }
  intros Hx. destruct (decide (x ∈ order)) as [|Hn]; [done|]. exfalso.
  apply (stuck_cycle (edges g) (λ y, has_node g y ∧ y ∉ order) x); [done| |done].
  intros y [Hy Hyn]. destruct (decide (indeg (edges g) order y = 0)) as [H0|H0].
  { destruct Hyn. by apply Hr. }
  unfold indeg in H0.
  destruct (filter (λ e, e.2 = y ∧ e.1 ∉ order) (edges g)) as [|[a b] l] eqn:Hfl; [done|].
  assert ((a, b) ∈ filter (λ e, e.2 = y ∧ e.1 ∉ order) (edges g)) as Hin by (rewrite Hfl; left).
  apply list_elem_of_filter in Hin as [[? ?] Hin]. simplify_eq/=.
  exists a. by destruct (Hc _ _ Hin).
Qed.

Lemma acyclic_irreflexive E x : acyclic E → ¬ edge (A:=NodeId) E x x.
Proof. intros Ha He. by apply (Ha x), tc_once. Qed.

Lemma topological_order_from_sound g keys order :
  NoDup keys → (∀ x, x ∈ keys ↔ has_node g x) →
  topological_order_from keys g = Ok order →
  NoDup order ∧ (∀ x, x ∈ order ↔ has_node g x) ∧ ordered (edges g) order ∧
  closed g ∧ acyclic (edges g).
Proof.
  intros Hnd Hk. unfold topological_order_from.
  destruct (try_fold _ _ _) as [[ind out]|] eqn:Hcnt; [|done].
  case_decide as Hlen; [|done]. intros <-%Ok_inj.
  destruct (topo_count_closed _ _ Hcnt) as [Hc _]. apply topo_count_counted in Hcnt.
  destruct (topo_loop_spec g out ind (filter (λ id, ind !! id = Some 0) keys) []
    (S (size g.(NodeGraph.nodes)))) as [ind' [Hn Ho _ Hr]].
  { apply Hcnt. } { by apply (topo_inv_init _ _ (ind, out)). } { simpl; lia. }
  revert Hlen Hn Ho Hr. generalize (topo_loop (S (size g.(NodeGraph.nodes))) out ind
    (filter (λ id, ind !! id = Some 0) keys) []). intros order Hlen Hn Ho Hr.
  rewrite app_nil_r in *.
  assert (∀ x, x ∈ order ↔ has_node g x) as Hall.
  { rewrite <-size_dom, <-(size_list_to_set (C:=gset NodeId)) in Hlen by done.
    intros x. unfold has_node. rewrite <-elem_of_dom, <-(elem_of_list_to_set (C:=gset NodeId)).
    revert x. apply set_eq, set_subseteq_size_eq; [|lia].
    intros x. rewrite elem_of_list_to_set, elem_of_dom. by intros []%Hr. }
  split_and!; [done..|]. eapply ordered_acyclic; [done..|].
  intros x y He. apply Hall, (Hc x y He).
Qed.

Lemma topological_order_from_complete g keys :
  NoDup keys → (∀ x, x ∈ keys ↔ has_node g x) →
  closed g → acyclic (edges g) → ∃ order, topological_order_from keys g = Ok order.
Proof.
  intros Hnd Hk Hc Ha. unfold topological_order_from.
  destruct (topo_count_total g Hc) as ([ind out] & -> & Hcnt).
  { intros x. by apply acyclic_irreflexive. }
  destruct (topo_loop_spec g out ind (filter (λ id, ind !! id = Some 0) keys) []
    (S (size g.(NodeGraph.nodes)))) as [ind' Hinv].
  { apply Hcnt. } { by apply (topo_inv_init _ _ (ind, out)). } { simpl; lia. }
  rewrite decide_True by (by eapply topo_inv_final). by eexists.
Qed.

(** [topological_order] for every iteration order of the node map: an order
    is returned exactly for closed acyclic graphs, lists every node once, and
    puts every node after the nodes it depends on. *)
Theorem topological_order_correct g keys :
  NoDup keys → (∀ x, x ∈ keys ↔ has_node g x) →
  (∀ order, topological_order_from keys g = Ok order →
     NoDup order ∧ (∀ x, x ∈ order ↔ has_node g x) ∧ ordered (edges g) order) ∧
  ((∃ order, topological_order_from keys g = Ok order) ↔ closed g ∧ acyclic (edges g)).
Proof.
  intros Hnd Hk. split.
  - intros order (? & ? & ? & _)%topological_order_from_sound; done.
  - split.
    + intros [order (_ & _ & _ & ? & ?)%topological_order_from_sound]; done.
    + intros [? ?]. by apply topological_order_from_complete.
Qed.

Lemma topological_order_ok g :
  (∃ order, topological_order g = Ok order) ↔ closed g ∧ acyclic (edges g).
Proof.
  unfold topological_order.
  assert (∀ x, x ∈ elements (dom g.(NodeGraph.nodes)) ↔ has_node g x) as Hk.
  { intros x. by rewrite elem_of_elements, elem_of_dom. }
  split.
  - intros [o Ho]. eapply topological_order_from_sound in Ho; [|apply NoDup_elements|done].
    naive_solver.
  - intros [? ?]. by apply topological_order_from_complete; [apply NoDup_elements|..].
Qed.

(** Why a graph has no order: the error names a missing endpoint, a self edge
    or, for a closed graph without self edges, a cycle. *)
Lemma topological_order_error g keys e :
  NoDup keys → (∀ x, x ∈ keys ↔ has_node g x) →
  topological_order_from keys g = Err e →
  match e with
  | GraphError.MissingNode id => ¬ has_node g id ∧ ¬ closed g
  | GraphError.SelfDependency id => edge (edges g) id id
  | GraphError.DependencyCycle => closed g ∧ ¬ acyclic (edges g)
  | _ => False
  end.
Proof.
  intros Hnd Hk. unfold topological_order_from.
  destruct (try_fold (topo_count g) _ _) as [[ind out]|e'] eqn:Hcnt.
  - case_decide as Hlen; [done|]. intros [= <-]. split; [by eapply topo_count_closed|].
    intros Ha. apply Hlen. destruct (topo_count_closed _ _ Hcnt) as [Hc _].
    apply topo_count_counted in Hcnt.
    destruct (topo_loop_spec g out ind (filter (λ id, ind !! id = Some 0) keys) []
      (S (size g.(NodeGraph.nodes)))) as [ind' Hinv].
    { apply Hcnt. } { by apply (topo_inv_init _ _ (ind, out)). } { simpl; lia. }
    by eapply topo_inv_final.
  - intros [= <-]. apply try_fold_err in Hcnt as (pre & d & post & [ind out] & Hl & _ & Hd).
    assert (edge (edges g) d.(Dependency.from_) d.(Dependency.to)) as He.
    { unfold edge, edges. rewrite Hl, fmap_app. set_solver. }
    unfold topo_count, require_endpoints, try_all in Hd. cbn [try_fold] in Hd.
    destruct (g.(NodeGraph.nodes) !! d.(Dependency.from_)) eqn:Hf; cbn in Hd;
      [destruct (g.(NodeGraph.nodes) !! d.(Dependency.to)) eqn:Ht; cbn in Hd|];
      [case_decide as Heq; simplify_eq/=|simplify_eq/=|simplify_eq/=].
    + by rewrite <-Heq in He.
    + split; [by intros [? ?]; congruence|]. intros Hc. destruct (Hc _ _ He) as [_ [? ?]]. congruence.
    + split; [by intros [? ?]; congruence|]. intros Hc. destruct (Hc _ _ He) as [[? ?] _]. congruence.
Qed.

(** ** Ancestors *)

Definition unvisited g (visited : list NodeId) : nat :=
  length (filter (λ d, d.(Dependency.from_) ∉ visited) g.(NodeGraph.dependencies)).

Lemma unvisited_push g visited d :
  d ∈ g.(NodeGraph.dependencies) → d.(Dependency.from_) ∉ visited →
  unvisited g (visited ++ [d.(Dependency.from_)]) < unvisited g visited.
Proof.
  unfold unvisited. intros Hd Hn. induction (g.(NodeGraph.dependencies)) as [|e l IH].
  { by apply elem_of_nil in Hd. }
  assert (∀ l : list Dependency,
    length (filter (λ d', d'.(Dependency.from_) ∉ visited ++ [d.(Dependency.from_)]) l) ≤
    length (filter (λ d', d'.(Dependency.from_) ∉ visited) l)) as Hle.
  { clear. intros l. induction l as [|e l IH]; [done|]. rewrite !filter_cons.
    repeat case_decide; cbn [length]; try lia; set_solver. }
  specialize (Hle l). rewrite !filter_cons. apply elem_of_cons in Hd as [->|Hd].
  - rewrite decide_False, decide_True by set_solver. cbn [length]. lia.
  - specialize (IH Hd). repeat case_decide; cbn [length]; try lia; set_solver.
Qed.

(** The pushes of one popped node: new sources, and the walk gets shorter. *)
Lemma ancestors_push_spec g l visited pending :
  (∀ d, d ∈ l → d ∈ g.(NodeGraph.dependencies)) →
  let '(visited', pending') := foldl ancestors_push (visited, pending) l in
  length pending' + unvisited g visited' ≤ length pending + unvisited g visited ∧
  (∀ x, x ∈ visited' ↔ x ∈ visited ∨ x ∈ Dependency.from_ <$> l) ∧
  (∀ x, x ∈ visited' → x ∉ visited → x ∈ pending') ∧
  (∀ x, x ∈ pending → x ∈ pending') ∧ (∀ x, x ∈ pending' → x ∈ pending ∨ x ∈ visited').
Proof.
  revert visited pending. induction l as [|d l IH]; intros visited pending Hl; cbn [foldl].
  { set_solver. }
  unfold ancestors_push at 2. destruct (contains d.(Dependency.from_) visited) eqn:Hc.
  - apply contains_true in Hc. specialize (IH visited pending ltac:(set_solver)).
    destruct (foldl _ _ _). set_solver.
  - apply contains_false in Hc.
    pose proof (unvisited_push g visited d ltac:(set_solver) Hc).
    specialize (IH (visited ++ [d.(Dependency.from_)]) (d.(Dependency.from_) :: pending)
      ltac:(set_solver)).
    destruct (foldl _ _ _) as [v p]. cbn [length] in IH.
    destruct IH as (Hm & Hv & Hn & Hk & Hp). split_and!; [lia|..].
    + intros x. rewrite Hv, elem_of_app, list_elem_of_singleton, fmap_cons, elem_of_cons. tauto.
    + intros x Hx Hnx. destruct (decide (x = d.(Dependency.from_))) as [->|]; [apply Hk; left|].
      apply Hn; [done|]. rewrite elem_of_app, list_elem_of_singleton. tauto.
    + intros x Hx. apply Hk. by right.
    + intros x [[->|]%elem_of_cons|]%Hp; [|by left|by right].
      right. apply Hv. left. apply elem_of_app. right. left.
Qed.

Lemma ancestors_loop_spec g id fuel visited pending :
  length pending + unvisited g visited < fuel →
  (∀ x, x ∈ pending → x ∈ visited) →
  (∀ x, x ∈ visited → rtc (edge (edges g)) x id) →
  (∀ x y, y ∈ visited → y ∉ pending → edge (edges g) x y → x ∈ visited) →
  id ∈ visited →
  ∀ x, x ∈ ancestors_loop fuel g visited pending ↔ rtc (edge (edges g)) x id.
Proof.
  revert visited pending. induction fuel as [|fuel IH]; intros visited pending Hf Hp Hs Hc Hid; [lia|].
  destruct pending as [|n pending]; cbn [ancestors_loop].
  { intros x. split; [apply Hs|]. intros Hr. induction Hr as [|x y z He _ IHr]; [done|].
    eapply Hc; [by apply IHr|apply not_elem_of_nil|done]. }
  pose proof (ancestors_push_spec g
    (filter (λ d, d.(Dependency.to) = n) g.(NodeGraph.dependencies)) visited pending) as Hpush.
  assert (∀ x, x ∈ Dependency.from_ <$> filter (λ d, d.(Dependency.to) = n)
    g.(NodeGraph.dependencies) ↔ edge (edges g) x n) as Hpre.
  { intros x. unfold edge, edges. rewrite !list_elem_of_fmap.
    setoid_rewrite list_elem_of_filter. naive_solver. }
  destruct (foldl _ _ _) as [v p].
  destruct Hpush as (Hm & Hv & Hn & Hk & Hp').
  { intros d. by intros [_ ?]%list_elem_of_filter. }
  setoid_rewrite Hpre in Hv. cbn [length] in Hf.
  apply IH; [lia|set_solver| | |set_solver].
  - intros x [?|He]%Hv; [by apply Hs|]. eapply rtc_l; [done|]. apply Hs, Hp. by left.
  - intros x y [Hy|Hy]%Hv Hyp He; apply Hv.
    + destruct (decide (y = n)) as [->|]; [by right|]. left.
      eapply Hc; [done| |done]. set_solver.
    + destruct (decide (y ∈ visited)) as [Hyv|Hyv].
      * destruct (decide (y = n)) as [->|]; [by right|]. left.
        eapply Hc; [done| |done]. set_solver.
      * destruct Hyp. apply Hn; [|done]. apply Hv. by right.
Qed.

(** The ancestors of a node are the other nodes it transitively depends on. *)
Theorem ancestors_spec g id x :
  x ∈ ancestors g id ↔ x ≠ id ∧ rtc (edge (edges g)) x id.
Proof.
  unfold ancestors. rewrite list_elem_of_filter, ancestors_loop_spec; [done| | | | |].
  - unfold unvisited. cbn [length].
    pose proof (length_filter (λ d, d.(Dependency.from_) ∉ [id]) g.(NodeGraph.dependencies)). lia.
  - done.
  - by intros y ->%list_elem_of_singleton.
  - intros y z Hz Hnz. done.
  - by left.
Qed.
