(* ===== verification/GraphValid.v ===== *)
(** * [NodeGraph::validate_structure] and the import of graphs

    The loop over hash sets accepts exactly the graphs that satisfy the
    declarative invariant [structure_wf], whatever order the sets are iterated
    in; a graph read from the wire is the graph that was written. *)

From stdpp Require Import relations.
From S2P Require Import Prelude Model Reach Graph GraphOrder.

Implicit Types (g : NodeGraph) (id : NodeId) (d : Dependency).

(** ** The representation invariant *)

(** The keys a dependency claims: its target as a contained object, an MD data
    slot, a Btrfs device id, a cache role. *)
Definition owner_key d : option NodeId :=
  match d.(Dependency.kind) with
  | DependencyKind.Contains _ => Some d.(Dependency.to)
  | _ => None
  end.
Definition md_slot_key d : option (NodeId * N) :=
  match d.(Dependency.kind) with
  | DependencyKind.MemberOf (MemberRole.Md (MdMember.mk MdMemberRole.Data (Some slot) _)) =>
      Some (d.(Dependency.to), slot)
  | _ => None
  end.
Definition btrfs_id_key d : option (NodeId * positive) :=
  match d.(Dependency.kind) with
  | DependencyKind.MemberOf (MemberRole.Btrfs (BtrfsMember.mk (Some devid))) =>
      Some (d.(Dependency.to), devid)
  | _ => None
  end.
Definition cache_role_key d : option (NodeId * CacheRole) :=
  match d.(Dependency.kind) with
  | DependencyKind.Caches role => Some (d.(Dependency.to), role)
  | _ => None
  end.

(** A containing edge and the partition it leads to agree on the start. *)
Definition offset_agrees g d : Prop :=
  ∀ offset number partition_offset role attributes size facts,
    d.(Dependency.kind) = DependencyKind.Contains offset →
    node g d.(Dependency.to) = Some (Node.mk (NodeSpec.mk
      (NodeKind.Partition number partition_offset role attributes) size) facts) →
    offset = partition_offset.

(** What one dependency claims is not claimed by the others. *)
Record edges_wf g (ds : list Dependency) : Prop := {
  wf_ends d : d ∈ ds → has_node g d.(Dependency.from_) ∧ has_node g d.(Dependency.to);
  wf_no_self d : d ∈ ds → d.(Dependency.from_) ≠ d.(Dependency.to);
  wf_logical : NoDup (logical_key <$> ds);
  wf_owners : NoDup (omap owner_key ds);
  wf_md_slots : NoDup (omap md_slot_key ds);
  wf_btrfs_ids : NoDup (omap btrfs_id_key ds);
  wf_cache_roles : NoDup (omap cache_role_key ds);
  wf_offsets d : d ∈ ds → offset_agrees g d }.

Record structure_wf g : Prop := {
  wf_relations r : r ∈ g.(NodeGraph.relations) →
    has_node g r.(Relation.from_) ∧ has_node g r.(Relation.to);
  wf_edges : edges_wf g g.(NodeGraph.dependencies);
  wf_acyclic : acyclic (edges g) }.

(** ** The loop *)

(** The hash sets after the edges [ds]. *)
Definition seen_of (ds : list Dependency) : seen :=
  mk_seen (omap owner_key ds) (logical_key <$> ds) (omap md_slot_key ds)
    (omap btrfs_id_key ds) (omap cache_role_key ds).

(** What [check_dependency] asks of [d] after [pre]. *)
Record fresh_claims g (pre : list Dependency) d : Prop := {
  fc_ends : has_node g d.(Dependency.from_) ∧ has_node g d.(Dependency.to);
  fc_no_self : d.(Dependency.from_) ≠ d.(Dependency.to);
  fc_logical : logical_key d ∉ logical_key <$> pre;
  fc_owner y : owner_key d = Some y → y ∉ omap owner_key pre;
  fc_md y : md_slot_key d = Some y → y ∉ omap md_slot_key pre;
  fc_btrfs y : btrfs_id_key d = Some y → y ∉ omap btrfs_id_key pre;
  fc_cache y : cache_role_key d = Some y → y ∉ omap cache_role_key pre;
  fc_offset : offset_agrees g d }.

Lemma edges_wf_snoc g pre d : edges_wf g (pre ++ [d]) ↔ edges_wf g pre ∧ fresh_claims g pre d.
Proof.
  split.
  - intros [He Hs Hl Ho Hm Hb Hc Hf].
    rewrite fmap_snoc, NoDup_snoc in Hl. apply NoDup_omap_snoc in Ho, Hm, Hb, Hc.
    assert (d ∈ pre ++ [d]) by (apply elem_of_app; right; left).
    split; split; first [by apply He|by apply Hs|by apply Hf|tauto|idtac];
      intros e Hin; first [apply He|apply Hs|apply Hf]; apply elem_of_app; by left.
  - intros [[He Hs Hl Ho Hm Hb Hc Hf] [He' Hs' Hl' Ho' Hm' Hb' Hc' Hf']].
    split; rewrite ?fmap_snoc, ?NoDup_snoc, ?NoDup_omap_snoc; try tauto;
      intros e [?| ->%list_elem_of_singleton]%elem_of_app; auto.
Qed.

(** The kind-specific checks. *)
Record kind_claims g (pre : list Dependency) d : Prop := {
  kc_owner y : owner_key d = Some y → y ∉ omap owner_key pre;
  kc_md y : md_slot_key d = Some y → y ∉ omap md_slot_key pre;
  kc_btrfs y : btrfs_id_key d = Some y → y ∉ omap btrfs_id_key pre;
  kc_cache y : cache_role_key d = Some y → y ∉ omap cache_role_key pre;
  kc_offset : offset_agrees g d }.

(** A dependency that claims nothing passes. *)
Lemma kind_claims_nothing g pre d :
  owner_key d = None → md_slot_key d = None → btrfs_id_key d = None →
  cache_role_key d = None → kind_claims g pre d.
Proof.
  intros Ho Hm Hb Hc. split; [congruence..|].
  intros ??????? Hk. unfold owner_key in Ho. by rewrite Hk in Ho.
Qed.

Lemma check_kind_spec g pre d s' :
  check_kind g (mk_seen (omap owner_key pre) (logical_key <$> pre ++ [d]) (omap md_slot_key pre)
    (omap btrfs_id_key pre) (omap cache_role_key pre)) d = Ok s' ↔
  kind_claims g pre d ∧ s' = seen_of (pre ++ [d]).
Proof.
  unfold check_kind, seen_of. cbn [owners logical_edges md_slots btrfs_ids cache_roles].
  rewrite !omap_snoc.
  assert (∀ s, owner_key d = None → md_slot_key d = None → btrfs_id_key d = None →
    cache_role_key d = None → Ok (E:=GraphError) s = Ok s' ↔ kind_claims g pre d ∧ s' = s) as Hnone.
  { intros s. split; [intros [= <-]|by intros [_ ->]]. auto using kind_claims_nothing. }
  destruct d as [a b k].
  destruct k as [|offset| |[|[[] [slot|] ?]|[[devid|]]|]|role|];
    cbn [Dependency.kind Dependency.to MdMember.slot MdMember.role BtrfsMember.devid
         owner_key md_slot_key btrfs_id_key cache_role_key] in *;
    rewrite ?app_nil_r; try (by apply Hnone).
  - destruct (set_insert_cases b (omap owner_key pre)) as [[Hn ->]|[Hn ->]]; cbn [negb].
    2: { split; [done|]. intros [[Ho _ _ _ _] _]. by destruct (Ho b eq_refl). }
    assert (offset_agrees g (Dependency.mk a b (DependencyKind.Contains offset)) →
      kind_claims g pre (Dependency.mk a b (DependencyKind.Contains offset))) as Hok.
    { intros Ha. split; [cbn; congruence|done..]. }
    unfold offset_agrees in Hok. cbn [Dependency.kind Dependency.to] in Hok.
    destruct (node g b) as [[[[] ?] ?]|] eqn:Hnode;
      try (split; [intros [= <-]; split; [apply Hok; naive_solver|done]|by intros [_ ->]]).
    case_decide as Heq.
    + split; [intros [= <-]; split; [apply Hok; naive_solver|done]|by intros [_ ->]].
    + split; [done|]. intros [[_ _ _ _ Ha] _]. destruct Heq. by eapply Ha.
  - destruct (set_insert_cases (b, slot) (omap md_slot_key pre)) as [[Hn ->]|[Hn ->]].
    + split; [intros [= <-]|by intros [_ ->]]. split; [|done]. split; cbn; [congruence..|done].
    + split; [done|]. intros [[_ Hm _ _ _] _]. by destruct (Hm _ eq_refl).
  - destruct (set_insert_cases (b, devid) (omap btrfs_id_key pre)) as [[Hn ->]|[Hn ->]].
    + split; [intros [= <-]|by intros [_ ->]]. split; [|done]. split; cbn; [congruence..|done].
    + split; [done|]. intros [[_ _ Hb _ _] _]. by destruct (Hb _ eq_refl).
  - destruct (set_insert_cases (b, role) (omap cache_role_key pre)) as [[Hn ->]|[Hn ->]].
    + split; [intros [= <-]|by intros [_ ->]]. split; [|done]. split; cbn; [congruence..|done].
    + split; [done|]. intros [[_ _ _ Hc _] _]. by destruct (Hc _ eq_refl).
Qed.

Lemma check_dependency_spec g pre d s' :
  check_dependency g (seen_of pre) d = Ok s' ↔ fresh_claims g pre d ∧ s' = seen_of (pre ++ [d]).
Proof.
  unfold check_dependency.
  destruct (require_endpoints _ _ _) as [[]|e] eqn:Hends; cbn [seen_of logical_edges].
  2: { split; [done|]. intros [[H%require_endpoints_ok _ _ _ _ _ _ _] _]. congruence. }
  apply require_endpoints_ok in Hends. case_decide as Hself.
  { split; [done|]. by intros [[_ H _ _ _ _ _ _] _]. }
  destruct (set_insert_cases (logical_key d) (logical_key <$> pre)) as [[Hn ->]|[Hn ->]];
    cbn [negb].
  2: { split; [done|]. by intros [[_ _ H _ _ _ _ _] _]. }
  rewrite <-fmap_snoc. cbn [owners md_slots btrfs_ids cache_roles seen_of].
  rewrite check_kind_spec. split.
  - intros [[] ->]. split; [by split|done].
  - intros [[] ->]. split; [by split|done].
Qed.

Lemma check_dependencies_spec g ds :
  (∃ s, try_fold (check_dependency g) (mk_seen [] [] [] [] []) ds = Ok s) ↔ edges_wf g ds.
Proof.
  assert (edges_wf g ds ↔
    try_fold (check_dependency g) (seen_of []) ds = Ok (seen_of ds)) as Heq.
  { induction ds as [|d ds IH] using rev_ind.
    { split; [done|]. intros _. split; try (by intros ? ?%elem_of_nil); constructor. }
    rewrite edges_wf_snoc, IH, try_fold_app. split.
    - intros [-> Hf]. simpl. by rewrite (proj2 (check_dependency_spec g ds d (seen_of (ds ++ [d])))).
    - destruct (try_fold _ _ ds) as [s|] eqn:Hs; [|done]. simpl.
      assert (s = seen_of ds) as ->.
      { eapply (try_fold_inv _ (λ pre s, s = seen_of pre)); [done| |done].
        by intros pre e post ? ? _ -> [_ ->]%check_dependency_spec. }
      destruct (check_dependency _ _ _) as [s'|] eqn:Hd; [|done]. simpl.
      by apply check_dependency_spec in Hd as [? _]. }
  rewrite Heq. split; [|by eexists]. intros [s Hs]. change (mk_seen [] [] [] [] []) with (seen_of []) in Hs.
  rewrite Hs. f_equal.
  eapply (try_fold_inv _ (λ pre s, s = seen_of pre)); [done| |done].
  by intros pre e post ? ? _ -> [_ ->]%check_dependency_spec.
Qed.

Lemma edges_wf_closed g : edges_wf g g.(NodeGraph.dependencies) → closed g.
Proof.
  intros Hwf x y (d & [= -> ->] & Hd)%list_elem_of_fmap. by apply (wf_ends _ _ Hwf).
Qed.

Lemma validate_structure_iff g : validate_structure g = Ok tt ↔ structure_wf g.
Proof.
  unfold validate_structure.
  destruct (try_all _ _) as [[]|e] eqn:Hr.
  2: { split; [done|]. intros [Hrel _ _].
       rewrite (proj2 (try_all_ok _ _)) in Hr; [done|].
       intros r Hin. by apply require_endpoints_ok, Hrel. }
  rewrite try_all_ok in Hr.
  pose proof (check_dependencies_spec g g.(NodeGraph.dependencies)) as Hds.
  destruct (try_fold _ _ _) as [s|].
  2: { split; [done|]. intros [_ [s ?]%Hds _]. done. }
  pose proof (topological_order_ok g) as Ho.
  destruct (topological_order g) as [o|].
  - split; [|done]. intros _. split.
    + intros r Hin. by apply require_endpoints_ok, Hr.
    + apply Hds. by eexists.
    + apply Ho. by eexists.
  - split; [done|]. intros [_ Hwf Ha]. destruct Ho as [_ [o ?]]; [|done].
    split; [by apply edges_wf_closed|done].
Qed.

(** C40: [validate_structure] accepts exactly the graphs that satisfy the
    declarative invariant: closed edges and relations, the claims of each edge
    kind unshared, and no cycle. *)
Theorem validate_structure_spec g : validate_structure g = Ok tt ↔ structure_wf g.
Proof. apply validate_structure_iff. Qed.

(** ** Iteration order *)

(** Equality of the Rust value: the same nodes and the same sets of edges. *)
Record graph_equiv g1 g2 : Prop := {
  equiv_nodes : g1.(NodeGraph.nodes) = g2.(NodeGraph.nodes);
  equiv_dependencies : g1.(NodeGraph.dependencies) ≡ₚ g2.(NodeGraph.dependencies);
  equiv_relations : g1.(NodeGraph.relations) ≡ₚ g2.(NodeGraph.relations) }.

#[global] Instance graph_equivalence : Equivalence graph_equiv.
Proof.
  split.
  - by split.
  - intros ?? []. by split.
  - intros ??? [] []. split; by etrans.
Qed.

#[global] Instance has_node_proper : Proper (graph_equiv ==> eq ==> iff) has_node.
Proof. intros ?? [Hn _ _] ?? ->. unfold has_node. by rewrite Hn. Qed.

#[global] Instance edges_proper : Proper (graph_equiv ==> Permutation) edges.
Proof. intros ?? [_ Hd _]. unfold edges. by rewrite Hd. Qed.

#[global] Instance edge_proper {A} : Proper (Permutation ==> eq ==> eq ==> iff) (edge (A:=A)).
Proof. intros ?? HE ?? -> ?? ->. unfold edge. by rewrite HE. Qed.

#[global] Instance acyclic_proper {A} : Proper (Permutation ==> iff) (acyclic (A:=A)).
Proof.
  assert (∀ E1 E2 : list (A * A), E1 ≡ₚ E2 → acyclic E1 → acyclic E2) as Himp.
  { intros E1 E2 HE Ha x Hx. apply (Ha x). clear Ha. revert Hx. generalize x at 2 4. intros y Hxy.
    induction Hxy as [x y He|x y z He _ IH];
      [apply tc_once|eapply tc_l; [|exact IH]]; by rewrite HE. }
  intros E1 E2 HE. split; by apply Himp.
Qed.

#[global] Instance omap_perm {A B} (f : A → option B) :
  Proper (Permutation ==> Permutation) (omap f : list A → list B).
Proof. intros l1 l2. apply omap_Permutation. Qed.

Lemma edges_wf_equiv g1 g2 : graph_equiv g1 g2 →
  edges_wf g1 g1.(NodeGraph.dependencies) → edges_wf g2 g2.(NodeGraph.dependencies).
Proof.
  intros Heq [He Hs Hl Ho Hm Hb Hc Hf]. pose proof (equiv_dependencies _ _ Heq) as Hd.
  split; rewrite <-?Hd; try done; setoid_rewrite <-Hd; try done.
  - setoid_rewrite <-Heq. done.
  - intros d Hin ???????. unfold node. rewrite <-(equiv_nodes _ _ Heq). by apply Hf.
Qed.

#[global] Instance structure_wf_proper : Proper (graph_equiv ==> iff) structure_wf.
Proof.
  assert (∀ g1 g2, graph_equiv g1 g2 → structure_wf g1 → structure_wf g2) as Himp.
  { intros g1 g2 Heq [Hr He Ha]. split.
    - intros r. rewrite <-(equiv_relations _ _ Heq), <-Heq. apply Hr.
    - by eapply edges_wf_equiv.
    - by rewrite <-Heq. }
  intros g1 g2 Heq. split; by apply Himp.
Qed.

(** [PartialEq] of the Rust type ignores the iteration order, and so do the
    mutations: they act on equal graphs with equal flags. *)
#[global] Instance insert_dependency_proper :
  Proper (graph_equiv ==> eq ==> prod_relation eq graph_equiv) insert_dependency.
Proof.
  intros g1 g2 [Hn Hd Hr] d ? <-. unfold insert_dependency.
  destruct (set_insert_cases d g1.(NodeGraph.dependencies)) as [[Hi ->]|[Hi ->]];
    rewrite Hd in Hi; [rewrite set_insert_fresh by done|rewrite set_insert_seen by done];
    split; simpl; try done; split; simpl; try done. by rewrite Hd.
Qed.

(** Whether a graph is valid does not depend on how its sets are iterated. *)
Theorem validate_structure_order_independent g1 g2 :
  graph_equiv g1 g2 → validate_structure g1 = Ok tt ↔ validate_structure g2 = Ok tt.
Proof. intros Heq. by rewrite !validate_structure_iff, Heq. Qed.

(** ** Import *)

(** Inserting the elements of [l] one by one into a set held in a state. *)
Lemma insert_all_spec {A S E} `{EqDecision A} (f : S → A → result S E) (st : list A → S) e :
  (∀ acc x, f (st acc) x = if decide (x ∈ acc) then Err e else Ok (st (acc ++ [x]))) →
  ∀ l acc, NoDup acc →
  try_fold f (st acc) l = if decide (NoDup (acc ++ l)) then Ok (st (acc ++ l)) else Err e.
Proof.
  intros Hf l. induction l as [|x l IH]; intros acc Hacc; simpl.
  { rewrite app_nil_r. by rewrite decide_True. }
  rewrite Hf. case_decide as Hx.
  - rewrite decide_False; [done|]. intros (_ & Hd & _)%NoDup_app. by apply (Hd x); [|left].
  - rewrite IH by (by apply NoDup_snoc). by rewrite <-app_assoc.
Qed.

(** What a wire graph must satisfy. *)
Definition dto_wf (dto : NodeGraphDto) : Prop :=
  NoDup dto.(dto_dependencies) ∧ NoDup dto.(dto_relations) ∧
  structure_wf (NodeGraph.mk dto.(dto_nodes) dto.(dto_dependencies) dto.(dto_relations)).

Lemma graph_try_from_eq dto :
  graph_try_from dto =
  if decide (NoDup dto.(dto_dependencies) ∧ NoDup dto.(dto_relations)) then
    let graph := NodeGraph.mk dto.(dto_nodes) dto.(dto_dependencies) dto.(dto_relations) in
    let? _ := validate_structure graph in Ok graph
  else Err GraphError.DuplicateEdge.
Proof.
  destruct dto as [n ds rs]. unfold graph_try_from. cbn [dto_nodes dto_dependencies dto_relations].
  rewrite (insert_all_spec _ (λ acc, NodeGraph.mk n acc []) GraphError.DuplicateEdge); [|..|constructor].
  2: { intros acc x. unfold insert_dependency. cbn [NodeGraph.dependencies NodeGraph.nodes NodeGraph.relations].
       destruct (set_insert_cases x acc) as [[? ->]|[? ->]]; by case_decide. }
  cbn [app]. case_decide; [|by rewrite decide_False by naive_solver].
  rewrite (insert_all_spec _ (λ acc, NodeGraph.mk n ds acc) GraphError.DuplicateEdge); [|..|constructor].
  2: { intros acc x. unfold insert_relation. cbn [NodeGraph.dependencies NodeGraph.nodes NodeGraph.relations].
       destruct (set_insert_cases x acc) as [[? ->]|[? ->]]; by case_decide. }
  cbn [app]. case_decide; [|by rewrite decide_False by naive_solver]. by rewrite decide_True.
Qed.

(** An accepted wire graph is well formed and keeps every array entry; a
    repeated edge is refused. *)
Lemma graph_try_from_spec dto g :
  graph_try_from dto = Ok g ↔
  dto_wf dto ∧ g = NodeGraph.mk dto.(dto_nodes) dto.(dto_dependencies) dto.(dto_relations).
Proof.
  rewrite graph_try_from_eq. unfold dto_wf. case_decide as Hnd.
  - pose proof (validate_structure_iff
      (NodeGraph.mk dto.(dto_nodes) dto.(dto_dependencies) dto.(dto_relations))) as Hv.
    destruct (validate_structure _) as [[]|e]; cbn zeta.
    + destruct Hv as [Hv _]. split; [intros [= <-]|by intros [_ ->]]. naive_solver.
    + split; [done|]. intros ((_ & _ & ?%Hv) & _). done.
  - split; [done|]. naive_solver.
Qed.

(** Sets iterate without repetition, so a valid graph survives the wire. *)
Theorem graph_roundtrip g :
  NoDup g.(NodeGraph.dependencies) → NoDup g.(NodeGraph.relations) →
  validate_structure g = Ok tt → graph_try_from (graph_to_dto g) = Ok g.
Proof.
  intros Hd Hr Hv%validate_structure_iff. apply graph_try_from_spec. destruct g. done.
Qed.

(** [deserialize_nodes] accepts an object exactly when its keys are distinct,
    and then the map holds every entry. *)
Theorem deserialize_nodes_spec entries m :
  deserialize_nodes entries = Ok m ↔ NoDup entries.*1 ∧ m = list_to_map entries.
Proof.
  unfold deserialize_nodes. revert m.
  induction entries as [|[id n] entries IH] using rev_ind; intros m.
  { simpl. split; [intros [= <-]; split; [constructor|done]|by intros [_ ->]]. }
  rewrite try_fold_app, fmap_snoc, NoDup_snoc. cbn [fst].
  destruct (try_fold _ _ entries) as [m'|e].
  - destruct (proj1 (IH m') eq_refl) as [Hnd ->]. simpl.
    destruct (list_to_map entries !! id) as [n'|] eqn:Hid.
    + split; [done|]. intros [[_ Hn] _].
      apply (not_elem_of_list_to_map (M:=gmap NodeId)) in Hn. congruence.
    + apply not_elem_of_list_to_map in Hid. rewrite list_to_map_snoc by done.
      split; [by intros [= <-]|by intros [_ ->]].
  - split; [done|]. intros [[Hnd _] _]. by discriminate (proj2 (IH (list_to_map entries)) (conj Hnd eq_refl)).
Qed.
