(* ===== verification/State.v ===== *)
(** * Observed and requested states: [storage-core/src/model/state.rs]

    Mounts, environments, diagnostics and boot requests, and the two states
    planning compares: [CurrentState] and [DesiredState].  A [BTreeSet] of
    strings is a [gset]. *)

From S2P Require Import Prelude Model Graph.

Module NetworkMountSource.
Inductive NetworkMountSource :=
| Nfs (server export : string)
| Cifs (server share : string).
#[global] Instance NetworkMountSource_eq_dec : EqDecision NetworkMountSource.
Proof. solve_decision. Defined.
End NetworkMountSource.
Abbreviation NetworkMountSource := NetworkMountSource.NetworkMountSource.

Module MountSource.
Inductive MountSource :=
| Filesystem (id : NodeId)
| BtrfsSubvolume (id : NodeId)
| ZfsDataset (id : NodeId)
| Bind (p : PathBuf)
| Tmpfs
| Network (n : NetworkMountSource)
| Other (s : string).
#[global] Instance MountSource_eq_dec : EqDecision MountSource.
Proof. solve_decision. Defined.
End MountSource.
Abbreviation MountSource := MountSource.MountSource.

Module MountContext.
Inductive MountContext :=
| Host
| TargetRoot (p : PathBuf)
| Namespace (s : string).
#[global] Instance MountContext_eq_dec : EqDecision MountContext.
Proof. solve_decision. Defined.
End MountContext.
Abbreviation MountContext := MountContext.MountContext.

Module ObservedMount.
Record ObservedMount := mk {
  source : MountSource;
  target : PathBuf;
  options : list string;
  context : MountContext }.
#[global] Instance ObservedMount_eq_dec : EqDecision ObservedMount.
Proof. solve_decision. Defined.
End ObservedMount.
Abbreviation ObservedMount := ObservedMount.ObservedMount.

Module MountState.
Record MountState := mk { entries : list ObservedMount }.
#[global] Instance MountState_eq_dec : EqDecision MountState.
Proof. solve_decision. Defined.
End MountState.
Abbreviation MountState := MountState.MountState.

Module MountEntry.
Record MountEntry := mk {
  source : MountSource;
  target : PathBuf;
  options : list string;
  context : MountContext }.
#[global] Instance MountEntry_eq_dec : EqDecision MountEntry.
Proof. solve_decision. Defined.
End MountEntry.
Abbreviation MountEntry := MountEntry.MountEntry.

Module MountSpec.
Record MountSpec := mk { runtime : list MountEntry; persistent : list MountEntry }.
#[global] Instance MountSpec_eq_dec : EqDecision MountSpec.
Proof. solve_decision. Defined.
End MountSpec.
Abbreviation MountSpec := MountSpec.MountSpec.

Module SystemEnvironment.
Record SystemEnvironment := mk {
  os_release : option string;
  architecture : option string;
  kernel_release : option string;
  tools : gset string;
  kernel_modules : gset string }.
#[global] Instance SystemEnvironment_eq_dec : EqDecision SystemEnvironment.
Proof. solve_decision. Defined.
Definition default : SystemEnvironment := mk None None None ∅ ∅.
End SystemEnvironment.
Abbreviation SystemEnvironment := SystemEnvironment.SystemEnvironment.

Module TargetEnvironment.
Record TargetEnvironment := mk { root : PathBuf; system : SystemEnvironment }.
#[global] Instance TargetEnvironment_eq_dec : EqDecision TargetEnvironment.
Proof. solve_decision. Defined.
End TargetEnvironment.
Abbreviation TargetEnvironment := TargetEnvironment.TargetEnvironment.

Module Environment.
Record Environment := mk { host : SystemEnvironment; target : option TargetEnvironment }.
#[global] Instance Environment_eq_dec : EqDecision Environment.
Proof. solve_decision. Defined.
End Environment.
Abbreviation Environment := Environment.Environment.

Module DiagnosticSeverity.
Inductive DiagnosticSeverity :=
| Error | Warning | RequiresConfirmation | MissingInformation.
#[global] Instance DiagnosticSeverity_eq_dec : EqDecision DiagnosticSeverity.
Proof. solve_decision. Defined.
End DiagnosticSeverity.
Abbreviation DiagnosticSeverity := DiagnosticSeverity.DiagnosticSeverity.

Module DiagnosticSubject.
Inductive DiagnosticSubject :=
| Node (id : NodeId)
| Mount (p : PathBuf)
| Field (s : string)
| Environment.
#[global] Instance DiagnosticSubject_eq_dec : EqDecision DiagnosticSubject.
Proof. solve_decision. Defined.
End DiagnosticSubject.
Abbreviation DiagnosticSubject := DiagnosticSubject.DiagnosticSubject.

Module Diagnostic.
Record Diagnostic := mk {
  code : string;
  severity : DiagnosticSeverity;
  subjects : list DiagnosticSubject;
  message : string;
  evidence : option string;
  suggested_remedy : option string }.
#[global] Instance Diagnostic_eq_dec : EqDecision Diagnostic.
Proof. solve_decision. Defined.
End Diagnostic.
Abbreviation Diagnostic := Diagnostic.Diagnostic.

Module Bootloader.
Inductive Bootloader := Grub | Other (s : string).
#[global] Instance Bootloader_eq_dec : EqDecision Bootloader.
Proof. solve_decision. Defined.
End Bootloader.
Abbreviation Bootloader := Bootloader.Bootloader.

Module InitramfsSpec.
Record InitramfsSpec := mk { target_kernel : option string; features : gset string }.
#[global] Instance InitramfsSpec_eq_dec : EqDecision InitramfsSpec.
Proof. solve_decision. Defined.
End InitramfsSpec.
Abbreviation InitramfsSpec := InitramfsSpec.InitramfsSpec.

Module UefiBootSpec.
Record UefiBootSpec := mk {
  root : NodeId;
  esp : NodeId;
  bootloader : Bootloader;
  initramfs : InitramfsSpec;
  update_nvram : bool;
  removable_path : bool }.
#[global] Instance UefiBootSpec_eq_dec : EqDecision UefiBootSpec.
Proof. solve_decision. Defined.
End UefiBootSpec.
Abbreviation UefiBootSpec := UefiBootSpec.UefiBootSpec.

Module BiosBootSpec.
Record BiosBootSpec := mk {
  root : NodeId;
  install_targets : list NodeId;
  bios_boot_partition : option NodeId;
  bootloader : Bootloader;
  initramfs : InitramfsSpec }.
#[global] Instance BiosBootSpec_eq_dec : EqDecision BiosBootSpec.
Proof. solve_decision. Defined.
End BiosBootSpec.
Abbreviation BiosBootSpec := BiosBootSpec.BiosBootSpec.

Module BootSpec.
Inductive BootSpec :=
| Unmanaged
| Uefi (u : UefiBootSpec)
| Bios (b : BiosBootSpec).
#[global] Instance BootSpec_eq_dec : EqDecision BootSpec.
Proof. solve_decision. Defined.
End BootSpec.
Abbreviation BootSpec := BootSpec.BootSpec.

Module OperationIntent.
Inductive OperationIntent :=
| Reformat (target : NodeId) (filesystem : FilesystemKind)
| ReplaceMember (group old new : NodeId)
| ConvertBtrfsProfiles (filesystem : NodeId) (target : BtrfsAllocation)
| Check (target : NodeId) (force : bool)
| Repair (target : NodeId) (force : bool)
| SetActivation (target : NodeId) (active : bool).
#[global] Instance OperationIntent_eq_dec : EqDecision OperationIntent.
Proof. solve_decision. Defined.
End OperationIntent.
Abbreviation OperationIntent := OperationIntent.OperationIntent.

Module CurrentState.
Record CurrentState := mk {
  graph : NodeGraph;
  mounts : MountState;
  environment : Environment;
  diagnostics : list Diagnostic }.
#[global] Instance CurrentState_eq_dec : EqDecision CurrentState.
Proof. solve_decision. Defined.
End CurrentState.
Abbreviation CurrentState := CurrentState.CurrentState.

Module DesiredState.
Record DesiredState := mk {
  graph : NodeGraph;
  mounts : MountSpec;
  boot : BootSpec;
  intents : list OperationIntent }.
#[global] Instance DesiredState_eq_dec : EqDecision DesiredState.
Proof. solve_decision. Defined.
End DesiredState.
Abbreviation DesiredState := DesiredState.DesiredState.

(** [DesiredState::from_current] *)
Definition from_current (current : CurrentState) : DesiredState :=
  DesiredState.mk current.(CurrentState.graph)
    (MountSpec.mk
      ((λ entry, MountEntry.mk entry.(ObservedMount.source) entry.(ObservedMount.target)
                   entry.(ObservedMount.options) entry.(ObservedMount.context))
         <$> current.(CurrentState.mounts).(MountState.entries))
      [])
    BootSpec.Unmanaged [].
