(* ===== verification/Action.v ===== *)
(** * Typed actions and their contracts as data

    The closed action language of [storage-provider/src/action.rs] and
    [luks.rs], the fragments of [planning.rs], the contract vocabulary of
    [contract.rs] and the plan of [storage-engine/src/plan.rs].

    [ActionId], [FragmentId], [LocalActionId] and [AllocationQuantity] wrap an
    integer.  The plan-scoped identities index vectors and are [nat]; their
    [u32] bound is checked where they are built, in the composer. *)

From S2P Require Import Prelude Model Graph State.

Abbreviation CredentialRef := Uuid (only parsing).
Abbreviation ActionId := nat (only parsing).
Abbreviation FragmentId := nat (only parsing).
Abbreviation LocalActionId := N (only parsing).
Abbreviation AllocationQuantity := N (only parsing).

(** ** Actions *)

Module PartitionAction.
Inductive PartitionAction :=
| CreateTable (disk planned_node_id : NodeId) (table : PartitionTable)
| Create (table planned_node_id : NodeId) (number : positive) (offset size : Bytes)
    (role : option UsageRole) (attributes : PartitionAttributes)
| Resize (partition : NodeId) (new_size : Bytes)
| Delete (partition : NodeId)
| SetAttributes (partition : NodeId) (attributes : PartitionAttributes).
#[global] Instance PartitionAction_eq_dec : EqDecision PartitionAction.
Proof. solve_decision. Defined.
End PartitionAction.
Abbreviation PartitionAction := PartitionAction.PartitionAction.

Module LuksAction.
Inductive LuksAction :=
| Format (target planned_node_id : NodeId) (version : LuksVersion) (credential : CredentialRef)
| Open (container planned_node_id : NodeId) (mapping_name : string)
    (credential : CredentialRef) (read_only : bool)
| Close (mapping : NodeId)
| Resize (mapping : NodeId) (new_size : option Bytes).
#[global] Instance LuksAction_eq_dec : EqDecision LuksAction.
Proof. solve_decision. Defined.
End LuksAction.
Abbreviation LuksAction := LuksAction.LuksAction.

Module LvmAction.
Inductive LvmAction :=
| CreatePv (backing planned_node_id : NodeId)
| CreateVg (planned_node_id : NodeId) (name : string) (pvs : list NodeId)
| CreateLv (vg planned_node_id : NodeId) (name : string) (size : Bytes) (layout : LvmLvKind)
| ResizeLv (lv : NodeId) (new_size : Bytes)
| RemoveLv (lv : NodeId)
| SetActivation (target : NodeId) (active : bool).
#[global] Instance LvmAction_eq_dec : EqDecision LvmAction.
Proof. solve_decision. Defined.
End LvmAction.
Abbreviation LvmAction := LvmAction.LvmAction.

Module FilesystemAction.
Inductive FilesystemAction :=
| Create (backing planned_node_id : NodeId) (filesystem : FilesystemKind) (label : option string)
| Resize (filesystem : NodeId) (new_size : Bytes)
| Check (filesystem : NodeId) (force : bool)
| Repair (filesystem : NodeId) (force : bool)
| SetLabel (filesystem : NodeId) (label : option string).
#[global] Instance FilesystemAction_eq_dec : EqDecision FilesystemAction.
Proof. solve_decision. Defined.
End FilesystemAction.
Abbreviation FilesystemAction := FilesystemAction.FilesystemAction.

Module BtrfsAction.
Inductive BtrfsAction :=
| Create (members : list NodeId) (planned_node_id : NodeId) (label : option string)
    (allocation : BtrfsAllocation)
| AddDevice (filesystem device : NodeId)
| RemoveDevice (filesystem device : NodeId)
| ConvertProfiles (filesystem : NodeId) (target : BtrfsAllocation)
| CreateSubvolume (filesystem planned_node_id : NodeId) (name : string) (read_only : bool).
#[global] Instance BtrfsAction_eq_dec : EqDecision BtrfsAction.
Proof. solve_decision. Defined.
End BtrfsAction.
Abbreviation BtrfsAction := BtrfsAction.BtrfsAction.

Module MountAction.
Inductive MountAction :=
| Mount (source : MountSource) (target : PathBuf) (options : list string) (context : MountContext)
| Unmount (target : PathBuf) (context : MountContext)
| Persist (entry : MountEntry)
| RemovePersistent (target : PathBuf) (context : MountContext).
#[global] Instance MountAction_eq_dec : EqDecision MountAction.
Proof. solve_decision. Defined.
End MountAction.
Abbreviation MountAction := MountAction.MountAction.

Module ProviderAction.
Inductive ProviderAction :=
| Partition (a : PartitionAction)
| Luks (a : LuksAction)
| Lvm (a : LvmAction)
| Filesystem (a : FilesystemAction)
| Btrfs (a : BtrfsAction)
| Mount (a : MountAction).
#[global] Instance ProviderAction_eq_dec : EqDecision ProviderAction.
Proof. solve_decision. Defined.
End ProviderAction.
Abbreviation ProviderAction := ProviderAction.ProviderAction.

(** ** Contracts *)

Module NodeKindClass.
Inductive NodeKindClass :=
| Block | PartitionTable | Partition | LuksContainer | DmCryptMapping
| LvmPv | LvmVg | LvmLv | Filesystem | BtrfsFilesystem.
#[global] Instance NodeKindClass_eq_dec : EqDecision NodeKindClass.
Proof. solve_decision. Defined.
End NodeKindClass.
Abbreviation NodeKindClass := NodeKindClass.NodeKindClass.

Module AllocationDomain.
Inductive AllocationDomain := LvmVolumeGroup (id : NodeId).
#[global] Instance AllocationDomain_eq_dec : EqDecision AllocationDomain.
Proof. solve_decision. Defined.
#[global] Instance AllocationDomain_countable : Countable AllocationDomain.
Proof.
  refine (inj_countable' (λ '(LvmVolumeGroup id), id) LvmVolumeGroup _). by intros [].
Defined.
End AllocationDomain.
Abbreviation AllocationDomain := AllocationDomain.AllocationDomain.

Module ActionPrerequisite.
Inductive ActionPrerequisite :=
| NodeExists (id : NodeId)
| NodeKind (node : NodeId) (expected : NodeKindClass)
| NoUnexpectedConsumers (id : NodeId)
| NoUnexpectedRelations (id : NodeId)
| Writable (id : NodeId)
| MountSourceAvailable (s : MountSource)
| FilesystemUnmounted (id : NodeId)
| FilesystemCheckPassed (id : NodeId)
| FilesystemMinimumSize (filesystem : NodeId) (target : Bytes)
| DestructiveApproval (id : NodeId)
| CredentialAvailable (c : CredentialRef)
| ExtentAvailable (table : NodeId) (offset size : Bytes)
| DistinctNodes (ids : list NodeId)
| DependentsFitWithin (node : NodeId) (size : Bytes)
| BackingSizeAtLeast (node : NodeId) (size : Bytes)
| CapacityAvailable (domain : AllocationDomain) (amount : option AllocationQuantity)
| MountTargetAvailable (target : PathBuf) (context : MountContext)
| MountDescendantsAbsent (target : PathBuf) (context : MountContext).
#[global] Instance ActionPrerequisite_eq_dec : EqDecision ActionPrerequisite.
Proof. solve_decision. Defined.
End ActionPrerequisite.
Abbreviation ActionPrerequisite := ActionPrerequisite.ActionPrerequisite.

Module BlockInterfaceAccess.
Inductive BlockInterfaceAccess := ReadOnly | ReadWrite.
#[global] Instance BlockInterfaceAccess_eq_dec : EqDecision BlockInterfaceAccess.
Proof. solve_decision. Defined.
End BlockInterfaceAccess.
Abbreviation BlockInterfaceAccess := BlockInterfaceAccess.BlockInterfaceAccess.

Module ActionOutput.
Inductive ActionOutput :=
| Node (id : NodeId) (spec : NodeSpec)
| BlockInterface (node : NodeId) (access : BlockInterfaceAccess)
| Mount (source : MountSource) (target : PathBuf) (context : MountContext)
| PersistentMount (e : MountEntry)
| FilesystemCheckPassed (id : NodeId).
#[global] Instance ActionOutput_eq_dec : EqDecision ActionOutput.
Proof. solve_decision. Defined.
End ActionOutput.
Abbreviation ActionOutput := ActionOutput.ActionOutput.

Module ActionResource.
Inductive ActionResource :=
| RuntimeMountState
| Node (id : NodeId)
| PartitionTable (id : NodeId)
| LvmMetadata (id : NodeId)
| MountTarget (target : PathBuf) (context : MountContext)
| PersistentMountConfig (c : MountContext).
#[global] Instance ActionResource_eq_dec : EqDecision ActionResource.
Proof. solve_decision. Defined.
End ActionResource.
Abbreviation ActionResource := ActionResource.ActionResource.

Module ResourceAccessMode.
Inductive ResourceAccessMode := Read | Write.
#[global] Instance ResourceAccessMode_eq_dec : EqDecision ResourceAccessMode.
Proof. solve_decision. Defined.
End ResourceAccessMode.
Abbreviation ResourceAccessMode := ResourceAccessMode.ResourceAccessMode.

Module ResourceAccess.
Record ResourceAccess := mk { resource : ActionResource; mode : ResourceAccessMode }.
#[global] Instance ResourceAccess_eq_dec : EqDecision ResourceAccess.
Proof. solve_decision. Defined.
End ResourceAccess.
Abbreviation ResourceAccess := ResourceAccess.ResourceAccess.

Module AllocationEffect.
Inductive AllocationEffect :=
| Invalidate (domain : AllocationDomain)
| Reserve (domain : AllocationDomain) (amount : AllocationQuantity)
| Release (domain : AllocationDomain) (amount : AllocationQuantity).
#[global] Instance AllocationEffect_eq_dec : EqDecision AllocationEffect.
Proof. solve_decision. Defined.
End AllocationEffect.
Abbreviation AllocationEffect := AllocationEffect.AllocationEffect.

Module GraphEffect.
Inductive GraphEffect :=
| InvalidateNodeSize (id : NodeId)
| InsertNode (id : NodeId) (spec : NodeSpec)
| RemoveNode (id : NodeId)
| SetNodeSize (node : NodeId) (size : Bytes)
| SetPartitionAttributes (partition : NodeId) (attributes : PartitionAttributes)
| SetFilesystemLabel (filesystem : NodeId) (label : option string)
| SetBtrfsAllocation (filesystem : NodeId) (allocation : BtrfsAllocation)
| InsertDependency (d : Dependency)
| RemoveDependency (d : Dependency)
| InsertRelation (r : Relation)
| RemoveRelation (r : Relation)
| SetActivation (node : NodeId) (active : bool).
#[global] Instance GraphEffect_eq_dec : EqDecision GraphEffect.
Proof. solve_decision. Defined.
End GraphEffect.
Abbreviation GraphEffect := GraphEffect.GraphEffect.

Module MountEffect.
Inductive MountEffect :=
| AddRuntime (source : MountSource) (target : PathBuf) (options : list string)
    (context : MountContext)
| RemoveRuntime (target : PathBuf) (context : MountContext)
| SetPersistent (e : MountEntry)
| RemovePersistent (target : PathBuf) (context : MountContext).
#[global] Instance MountEffect_eq_dec : EqDecision MountEffect.
Proof. solve_decision. Defined.
End MountEffect.
Abbreviation MountEffect := MountEffect.MountEffect.

Module PredictedEffect.
Record PredictedEffect := mk {
  graph : list GraphEffect;
  mounts : list MountEffect;
  allocations : list AllocationEffect }.
#[global] Instance PredictedEffect_eq_dec : EqDecision PredictedEffect.
Proof. solve_decision. Defined.
Definition default : PredictedEffect := mk [] [] [].
End PredictedEffect.
Abbreviation PredictedEffect := PredictedEffect.PredictedEffect.

Module FactScope.
Inductive FactScope :=
| Node (id : NodeId)
| MountTarget (target : PathBuf) (context : MountContext)
| PersistentMountConfig (c : MountContext).
#[global] Instance FactScope_eq_dec : EqDecision FactScope.
Proof. solve_decision. Defined.
End FactScope.
Abbreviation FactScope := FactScope.FactScope.

Module FactKind.
Inductive FactKind := Presence | Geometry | Identity | Topology | Content | Activation | Mount.
#[global] Instance FactKind_eq_dec : EqDecision FactKind.
Proof. solve_decision. Defined.
End FactKind.
Abbreviation FactKind := FactKind.FactKind.

Module FactInvalidation.
Record FactInvalidation := mk { scope : FactScope; kind : FactKind }.
#[global] Instance FactInvalidation_eq_dec : EqDecision FactInvalidation.
Proof. solve_decision. Defined.
End FactInvalidation.
Abbreviation FactInvalidation := FactInvalidation.FactInvalidation.

Module Postcondition.
Inductive Postcondition :=
| FilesystemCheckPassed (id : NodeId)
| NodeMatches (id : NodeId) (spec : NodeSpec)
| NodeAbsent (id : NodeId)
| NodeSize (node : NodeId) (size : Bytes)
| PartitionAttributes (partition : NodeId) (attributes : PartitionAttributes)
| FilesystemLabel (filesystem : NodeId) (label : option string)
| BtrfsAllocation (filesystem : NodeId) (allocation : BtrfsAllocation)
| DependencyPresent (d : Dependency)
| DependencyAbsent (d : Dependency)
| Activation (node : NodeId) (active : bool)
| RuntimeMountPresent (source : MountSource) (target : PathBuf) (context : MountContext)
| RuntimeMountAbsent (target : PathBuf) (context : MountContext)
| PersistentMountMatches (e : MountEntry)
| PersistentMountAbsent (target : PathBuf) (context : MountContext)
| NodeReprobed (id : NodeId).
#[global] Instance Postcondition_eq_dec : EqDecision Postcondition.
Proof. solve_decision. Defined.
End Postcondition.
Abbreviation Postcondition := Postcondition.Postcondition.

Module RestartPolicy.
Inductive RestartPolicy := Idempotent | ReprobeThenRetry | VerifyThenRetry | ManualRecovery.
#[global] Instance RestartPolicy_eq_dec : EqDecision RestartPolicy.
Proof. solve_decision. Defined.
End RestartPolicy.
Abbreviation RestartPolicy := RestartPolicy.RestartPolicy.

Module ActionContract.
Record ActionContract := mk {
  prerequisites : list ActionPrerequisite;
  provided_outputs : list ActionOutput;
  affected_resources : list ResourceAccess;
  predicted_effect : PredictedEffect;
  invalidated_facts : list FactInvalidation;
  postconditions : list Postcondition;
  restart_policy : RestartPolicy }.
#[global] Instance ActionContract_eq_dec : EqDecision ActionContract.
Proof. solve_decision. Defined.
End ActionContract.
Abbreviation ActionContract := ActionContract.ActionContract.

(** ** Fragments *)

Module FragmentAction.
Record FragmentAction := mk { id : LocalActionId; operation : ProviderAction }.
#[global] Instance FragmentAction_eq_dec : EqDecision FragmentAction.
Proof. solve_decision. Defined.
End FragmentAction.
Abbreviation FragmentAction := FragmentAction.FragmentAction.

Module DependencyReason.
Inductive DependencyReason :=
| InputCreation | InterfacePreparation | ResizeSafety | MountOrder
| ResourceCoordination | RequestedOrder.
#[global] Instance DependencyReason_eq_dec : EqDecision DependencyReason.
Proof. solve_decision. Defined.
End DependencyReason.
Abbreviation DependencyReason := DependencyReason.DependencyReason.

Module FragmentDependency.
Record FragmentDependency := mk {
  before : LocalActionId; after : LocalActionId; reason : DependencyReason }.
#[global] Instance FragmentDependency_eq_dec : EqDecision FragmentDependency.
Proof. solve_decision. Defined.
End FragmentDependency.
Abbreviation FragmentDependency := FragmentDependency.FragmentDependency.

Module ExternalRequirement.
Record ExternalRequirement := mk {
  action : LocalActionId; prerequisite : ActionPrerequisite }.
#[global] Instance ExternalRequirement_eq_dec : EqDecision ExternalRequirement.
Proof. solve_decision. Defined.
End ExternalRequirement.
Abbreviation ExternalRequirement := ExternalRequirement.ExternalRequirement.

Module FragmentOrigin.
Inductive FragmentOrigin :=
| Change (subject : NodeId) (description : string)
| Mount (target : PathBuf) (context : MountContext)
| Intent (index : nat).
#[global] Instance FragmentOrigin_eq_dec : EqDecision FragmentOrigin.
Proof. solve_decision. Defined.
End FragmentOrigin.
Abbreviation FragmentOrigin := FragmentOrigin.FragmentOrigin.

Module PlanFragment.
Record PlanFragment := mk {
  actions : list FragmentAction;
  dependencies : list FragmentDependency;
  external_requirements : list ExternalRequirement;
  origin : FragmentOrigin;
  diagnostics : list Diagnostic }.
#[global] Instance PlanFragment_eq_dec : EqDecision PlanFragment.
Proof. solve_decision. Defined.
End PlanFragment.
Abbreviation PlanFragment := PlanFragment.PlanFragment.

(** ** Plans *)

Module FragmentActionRef.
Record FragmentActionRef := mk { fragment : FragmentId; action : LocalActionId }.
#[global] Instance FragmentActionRef_eq_dec : EqDecision FragmentActionRef.
Proof. solve_decision. Defined.
End FragmentActionRef.
Abbreviation FragmentActionRef := FragmentActionRef.FragmentActionRef.

Module FragmentOrdering.
Record FragmentOrdering := mk {
  before : FragmentActionRef; after : FragmentActionRef; reason : DependencyReason }.
#[global] Instance FragmentOrdering_eq_dec : EqDecision FragmentOrdering.
Proof. solve_decision. Defined.
End FragmentOrdering.
Abbreviation FragmentOrdering := FragmentOrdering.FragmentOrdering.

Module PlannedAction.
Record PlannedAction := mk {
  id : ActionId;
  operation : ProviderAction;
  fragment : FragmentId;
  local_id : LocalActionId;
  origin : FragmentOrigin;
  informational_contract : ActionContract }.
#[global] Instance PlannedAction_eq_dec : EqDecision PlannedAction.
Proof. solve_decision. Defined.
End PlannedAction.
Abbreviation PlannedAction := PlannedAction.PlannedAction.

Module ActionDependency.
Record ActionDependency := mk {
  before : ActionId; after : ActionId; reason : DependencyReason }.
#[global] Instance ActionDependency_eq_dec : EqDecision ActionDependency.
Proof. solve_decision. Defined.
End ActionDependency.
Abbreviation ActionDependency := ActionDependency.ActionDependency.

Module ExecutionPlan.
Record ExecutionPlan := mk {
  actions : list PlannedAction;
  dependencies : list ActionDependency }.
#[global] Instance ExecutionPlan_eq_dec : EqDecision ExecutionPlan.
Proof. solve_decision. Defined.
End ExecutionPlan.
Abbreviation ExecutionPlan := ExecutionPlan.ExecutionPlan.
