(* ===== verification/Contract.v ===== *)
(** * Trusted action contracts: [storage-provider/src/contract.rs]

    [describe_action] derives the contract of a typed action from the graph:
    its prerequisites, outputs, locked resources, predicted effect, stale
    facts, postconditions and restart policy.  A contract is built by a
    sequence of pushes, written [c ▷ push₁ ▷ push₂] in the order of the code.

    [verify_imported_contract] compares an untrusted contract with the
    recalculated one; the JSON serializer it sorts by is a parameter. *)

From S2P Require Import Prelude Model Graph State Action.

Implicit Types (graph : NodeGraph) (c : ActionContract) (node : NodeId).

(** ** Building blocks *)

Definition contract (restart_policy : RestartPolicy) : ActionContract :=
  ActionContract.mk [] [] [] PredictedEffect.default [] [] restart_policy.

Definition push_prerequisites (ps : list ActionPrerequisite) c : ActionContract :=
  let 'ActionContract.mk p o a e f q r := c in ActionContract.mk (p ++ ps) o a e f q r.
Definition push_outputs (os : list ActionOutput) c : ActionContract :=
  let 'ActionContract.mk p o a e f q r := c in ActionContract.mk p (o ++ os) a e f q r.
Definition push_resources (rs : list ResourceAccess) c : ActionContract :=
  let 'ActionContract.mk p o a e f q r := c in ActionContract.mk p o (a ++ rs) e f q r.
Definition push_graph (gs : list GraphEffect) c : ActionContract :=
  let 'ActionContract.mk p o a (PredictedEffect.mk g m al) f q r := c in
  ActionContract.mk p o a (PredictedEffect.mk (g ++ gs) m al) f q r.
Definition push_mounts (ms : list MountEffect) c : ActionContract :=
  let 'ActionContract.mk p o a (PredictedEffect.mk g m al) f q r := c in
  ActionContract.mk p o a (PredictedEffect.mk g (m ++ ms) al) f q r.
Definition push_allocations (als : list AllocationEffect) c : ActionContract :=
  let 'ActionContract.mk p o a (PredictedEffect.mk g m al) f q r := c in
  ActionContract.mk p o a (PredictedEffect.mk g m (al ++ als)) f q r.
Definition push_facts (fs : list FactInvalidation) c : ActionContract :=
  let 'ActionContract.mk p o a e f q r := c in ActionContract.mk p o a e (f ++ fs) q r.
Definition push_postconditions (qs : list Postcondition) c : ActionContract :=
  let 'ActionContract.mk p o a e f q r := c in ActionContract.mk p o a e f (q ++ qs) r.

Definition insert_node_with_dependency (id : NodeId) (spec : NodeSpec) (dependency : Dependency)
    c : ActionContract :=
  c ▷ push_graph [GraphEffect.InsertNode id spec; GraphEffect.InsertDependency dependency]
    ▷ push_postconditions [Postcondition.NodeMatches id spec;
                           Postcondition.DependencyPresent dependency].

Definition add_dependency (dependency : Dependency) c : ActionContract :=
  c ▷ push_graph [GraphEffect.InsertDependency dependency]
    ▷ push_postconditions [Postcondition.DependencyPresent dependency].

Definition require_kind node (expected : NodeKindClass) c : ActionContract :=
  c ▷ push_prerequisites [ActionPrerequisite.NodeExists node;
                          ActionPrerequisite.NodeKind node expected].

Definition read (resource : ActionResource) c : ActionContract :=
  c ▷ push_resources [ResourceAccess.mk resource ResourceAccessMode.Read].

Definition write (resource : ActionResource) c : ActionContract :=
  c ▷ push_resources [ResourceAccess.mk resource ResourceAccessMode.Write].

Definition invalidate node (kind : FactKind) c : ActionContract :=
  c ▷ push_facts [FactInvalidation.mk (FactScope.Node node) kind].

Definition invalidate_mount (target : PathBuf) (context : MountContext) c : ActionContract :=
  c ▷ push_facts [FactInvalidation.mk (FactScope.MountTarget target context) FactKind.Mount].

Definition invalidate_persistent_mount (context : MountContext) c : ActionContract :=
  c ▷ push_facts [FactInvalidation.mk (FactScope.PersistentMountConfig context) FactKind.Mount].

(** ** Facts read from the graph *)

Definition known_size graph node : option Bytes :=
  match Graph.node graph node with
  | Some n => n.(Node.kind).(NodeSpec.size)
  | None => None
  end.

(** The kind of a node, when it is present. *)
Definition kind_of graph node : option NodeKind :=
  (λ n, n.(Node.kind).(NodeSpec.kind)) <$> Graph.node graph node.

Definition is_ext_filesystem graph node : bool :=
  match kind_of graph node with
  | Some (NodeKind.Filesystem (FilesystemKind.Ext2 | FilesystemKind.Ext3 | FilesystemKind.Ext4) _) =>
      true
  | _ => false
  end.

Definition lvm_allocation graph (vg : NodeId) (size : Bytes) (layout : LvmLvKind)
    : option AllocationQuantity :=
  match layout with
  | LvmLvKind.Linear =>
      match kind_of graph vg with
      | Some (NodeKind.LvmVg _ (Some extent_size)) =>
          if (0 <? extent_size)%N then
            if ((size =? 0) || negb (size mod extent_size =? 0))%N then None
            else Some (size / extent_size)%N
          else None
      | _ => None
      end
  | _ => None
  end.

Definition lvm_lv_allocation graph (vg lv : NodeId) (size : Bytes) : option AllocationQuantity :=
  match kind_of graph lv with
  | Some (NodeKind.LvmLv value) => lvm_allocation graph vg size value.(LvmLv.kind)
  | _ => None
  end.

Definition lvm_volume_group graph (lv : NodeId) : option NodeId :=
  match filter (λ d, d.(Dependency.to) = lv ∧ d.(Dependency.kind) = DependencyKind.Provides)
          graph.(NodeGraph.dependencies) with
  | [owner] =>
      match kind_of graph owner.(Dependency.from_) with
      | Some (NodeKind.LvmVg _ _) => Some owner.(Dependency.from_)
      | _ => None
      end
  | _ => None
  end.

Definition is_contains (k : DependencyKind) : bool :=
  match k with DependencyKind.Contains _ => true | _ => false end.

(** [logical.rs]: the one containing table of a partition. *)
Definition partition_table graph (partition : NodeId) : option NodeId :=
  match filter (λ d, d.(Dependency.to) = partition ∧ is_contains d.(Dependency.kind) = true)
          graph.(NodeGraph.dependencies) with
  | [owner] =>
      match kind_of graph owner.(Dependency.from_) with
      | Some (NodeKind.PartitionTable _) => Some owner.(Dependency.from_)
      | _ => None
      end
  | _ => None
  end.

Definition mount_source_node (source : MountSource) : option NodeId :=
  match source with
  | MountSource.Filesystem node | MountSource.BtrfsSubvolume node | MountSource.ZfsDataset node =>
      Some node
  | _ => None
  end.

(** ** Shared recipes *)

Definition destructive_contract node (restart_policy : RestartPolicy) : ActionContract :=
  contract restart_policy
    ▷ push_prerequisites [ActionPrerequisite.NodeExists node;
                          ActionPrerequisite.NodeKind node NodeKindClass.Block;
                          ActionPrerequisite.Writable node;
                          ActionPrerequisite.NoUnexpectedConsumers node;
                          ActionPrerequisite.DestructiveApproval node]
    ▷ write (ActionResource.Node node).

Record ResizeSafety := mk_resize_safety { dependents : bool; backing : bool }.
Definition ResizeSafety_DEPENDENTS : ResizeSafety := mk_resize_safety true false.
Definition ResizeSafety_BACKING : ResizeSafety := mk_resize_safety false true.
Definition ResizeSafety_BOTH : ResizeSafety := mk_resize_safety true true.

Definition resize_contract graph node (size : Bytes) (expected : NodeKindClass)
    (safety : ResizeSafety) : ActionContract :=
  let result := contract RestartPolicy.ReprobeThenRetry ▷ require_kind node expected in
  let current_size := known_size graph node in
  let result :=
    if safety.(dependents) && is_none_or (λ current, size <? current)%N current_size
    then result ▷ push_prerequisites [ActionPrerequisite.DependentsFitWithin node size]
    else result in
  let result :=
    if safety.(backing) && is_none_or (λ current, current <? size)%N current_size
    then result ▷ push_prerequisites [ActionPrerequisite.BackingSizeAtLeast node size]
    else result in
  result ▷ write (ActionResource.Node node)
    ▷ push_graph [GraphEffect.SetNodeSize node size]
    ▷ invalidate node FactKind.Geometry
    ▷ push_postconditions [Postcondition.NodeSize node size].

Definition remove_node_contract graph node (expected : NodeKindClass)
    (require_no_consumers : bool) : ActionContract :=
  let result := contract RestartPolicy.ReprobeThenRetry ▷ require_kind node expected in
  let result :=
    if require_no_consumers
    then result ▷ push_prerequisites [ActionPrerequisite.NoUnexpectedConsumers node;
                                      ActionPrerequisite.NoUnexpectedRelations node]
    else result in
  let result := result ▷ write (ActionResource.Node node)
                       ▷ push_graph [GraphEffect.RemoveNode node] in
  let result :=
    foldl (λ result dependency,
             result ▷ push_graph [GraphEffect.RemoveDependency dependency]
                    ▷ push_postconditions [Postcondition.DependencyAbsent dependency])
      result
      (filter (λ d, d.(Dependency.from_) = node ∨ d.(Dependency.to) = node)
         graph.(NodeGraph.dependencies)) in
  result ▷ invalidate node FactKind.Presence
    ▷ push_postconditions [Postcondition.NodeAbsent node].

Definition access_filesystem_backing graph (filesystem : NodeId) (mode : ResourceAccessMode)
    c : ActionContract :=
  foldl (λ result dependency,
           let result :=
             result ▷ push_resources
               [ResourceAccess.mk (ActionResource.Node dependency.(Dependency.from_)) mode] in
           if decide (mode = ResourceAccessMode.Write)
           then result ▷ push_prerequisites
                  [ActionPrerequisite.Writable dependency.(Dependency.from_)]
           else result)
    c
    (filter (λ d, d.(Dependency.to) = filesystem ∧ d.(Dependency.kind) = DependencyKind.Backs)
       graph.(NodeGraph.dependencies)).

Definition inspection_contract graph node : ActionContract :=
  contract RestartPolicy.Idempotent
    ▷ require_kind node NodeKindClass.Filesystem
    ▷ push_prerequisites [ActionPrerequisite.FilesystemUnmounted node]
    ▷ read ActionResource.RuntimeMountState
    ▷ read (ActionResource.Node node)
    ▷ access_filesystem_backing graph node ResourceAccessMode.Read
    ▷ invalidate node FactKind.Content
    ▷ push_postconditions [Postcondition.NodeReprobed node].

Definition btrfs_membership_contract (filesystem device : NodeId) : ActionContract :=
  contract RestartPolicy.ReprobeThenRetry
    ▷ require_kind filesystem NodeKindClass.BtrfsFilesystem
    ▷ require_kind device NodeKindClass.Block
    ▷ write (ActionResource.Node filesystem)
    ▷ write (ActionResource.Node device)
    ▷ invalidate filesystem FactKind.Topology
    ▷ invalidate device FactKind.Topology.

(** ** One description per technology *)

Definition describe_partition (action : PartitionAction) graph : ActionContract :=
  let result :=
    match action with
    | PartitionAction.CreateTable disk planned_node_id table =>
        let spec := NodeSpec.mk (NodeKind.PartitionTable table) (known_size graph disk) in
        let dependency := Dependency.mk disk planned_node_id DependencyKind.Backs in
        destructive_contract disk RestartPolicy.ManualRecovery
          ▷ write (ActionResource.PartitionTable planned_node_id)
          ▷ push_graph [GraphEffect.InsertNode planned_node_id spec;
                        GraphEffect.InsertDependency dependency]
          ▷ push_postconditions [Postcondition.NodeMatches planned_node_id spec;
                                 Postcondition.DependencyPresent dependency]
          ▷ invalidate disk FactKind.Topology
    | PartitionAction.Create table planned_node_id number offset size role attributes =>
        let spec := NodeSpec.mk (NodeKind.Partition number offset role attributes) (Some size) in
        let dependency := Dependency.mk table planned_node_id (DependencyKind.Contains offset) in
        contract RestartPolicy.ReprobeThenRetry
          ▷ require_kind table NodeKindClass.PartitionTable
          ▷ push_prerequisites [ActionPrerequisite.Writable table]
          ▷ push_prerequisites [ActionPrerequisite.ExtentAvailable table offset size]
          ▷ write (ActionResource.PartitionTable table)
          ▷ insert_node_with_dependency planned_node_id spec dependency
          ▷ invalidate table FactKind.Topology
    | PartitionAction.Resize partition new_size =>
        resize_contract graph partition new_size NodeKindClass.Partition ResizeSafety_DEPENDENTS
    | PartitionAction.Delete partition =>
        let result :=
          remove_node_contract graph partition NodeKindClass.Partition true
            ▷ push_prerequisites [ActionPrerequisite.DestructiveApproval partition] in
        match partition_table graph partition with
        | Some table => result ▷ push_prerequisites [ActionPrerequisite.Writable table]
        | None => result
        end
    | PartitionAction.SetAttributes partition attributes =>
        contract RestartPolicy.ReprobeThenRetry
          ▷ require_kind partition NodeKindClass.Partition
          ▷ write (ActionResource.Node partition)
          ▷ push_graph [GraphEffect.SetPartitionAttributes partition attributes]
          ▷ invalidate partition FactKind.Identity
          ▷ push_postconditions [Postcondition.PartitionAttributes partition attributes]
    end in
  match action with
  | PartitionAction.Resize partition _ | PartitionAction.Delete partition
  | PartitionAction.SetAttributes partition _ =>
      match partition_table graph partition with
      | Some table => result ▷ write (ActionResource.PartitionTable table)
                             ▷ invalidate table FactKind.Topology
      | None => result
      end
  | PartitionAction.CreateTable _ _ _ | PartitionAction.Create _ _ _ _ _ _ _ => result
  end.

Definition describe_luks (action : LuksAction) graph : ActionContract :=
  match action with
  | LuksAction.Format target planned_node_id version credential =>
      let spec := NodeSpec.mk (NodeKind.LuksContainer version) None in
      let dependency := Dependency.mk target planned_node_id DependencyKind.Backs in
      destructive_contract target RestartPolicy.VerifyThenRetry
        ▷ push_prerequisites [ActionPrerequisite.CredentialAvailable credential]
        ▷ insert_node_with_dependency planned_node_id spec dependency
        ▷ invalidate target FactKind.Content
        ▷ invalidate target FactKind.Identity
  | LuksAction.Open container planned_node_id mapping_name credential read_only =>
      let result := contract RestartPolicy.ReprobeThenRetry
                      ▷ require_kind container NodeKindClass.LuksContainer in
      let result := if negb read_only
                    then result ▷ push_prerequisites [ActionPrerequisite.Writable container]
                    else result in
      let spec := NodeSpec.mk (NodeKind.DmCryptMapping mapping_name) (known_size graph container) in
      let dependency := Dependency.mk container planned_node_id DependencyKind.Backs in
      result
        ▷ read (ActionResource.Node container)
        ▷ push_prerequisites [ActionPrerequisite.CredentialAvailable credential]
        ▷ insert_node_with_dependency planned_node_id spec dependency
        ▷ push_outputs [ActionOutput.BlockInterface planned_node_id
                          (if read_only then BlockInterfaceAccess.ReadOnly
                           else BlockInterfaceAccess.ReadWrite)]
        ▷ invalidate container FactKind.Topology
  | LuksAction.Close mapping =>
      remove_node_contract graph mapping NodeKindClass.DmCryptMapping true
  | LuksAction.Resize mapping (Some size) =>
      resize_contract graph mapping size NodeKindClass.DmCryptMapping ResizeSafety_BOTH
  | LuksAction.Resize mapping None =>
      contract RestartPolicy.ReprobeThenRetry
        ▷ require_kind mapping NodeKindClass.DmCryptMapping
        ▷ write (ActionResource.Node mapping)
        ▷ push_graph [GraphEffect.InvalidateNodeSize mapping]
        ▷ invalidate mapping FactKind.Geometry
        ▷ push_postconditions [Postcondition.NodeReprobed mapping]
  end.

Definition describe_lvm (action : LvmAction) graph : ActionContract :=
  match action with
  | LvmAction.CreatePv backing planned_node_id =>
      destructive_contract backing RestartPolicy.VerifyThenRetry
        ▷ insert_node_with_dependency planned_node_id (NodeSpec.mk NodeKind.LvmPv None)
            (Dependency.mk backing planned_node_id DependencyKind.Backs)
        ▷ invalidate backing FactKind.Content
  | LvmAction.CreateVg planned_node_id name pvs =>
      let result := contract RestartPolicy.ReprobeThenRetry
                      ▷ push_prerequisites [ActionPrerequisite.DistinctNodes pvs] in
      let result := foldl (λ result pv, result ▷ require_kind pv NodeKindClass.LvmPv
                                               ▷ write (ActionResource.Node pv)) result pvs in
      let spec := NodeSpec.mk (NodeKind.LvmVg name None) None in
      let result := result ▷ write (ActionResource.LvmMetadata planned_node_id)
                           ▷ push_graph [GraphEffect.InsertNode planned_node_id spec]
                           ▷ push_postconditions [Postcondition.NodeMatches planned_node_id spec] in
      foldl (λ result pv,
               result ▷ add_dependency (Dependency.mk pv planned_node_id
                                          (DependencyKind.MemberOf MemberRole.LvmPv))
                      ▷ invalidate pv FactKind.Topology) result pvs
  | LvmAction.CreateLv vg planned_node_id name size layout =>
      let allocation_domain := AllocationDomain.LvmVolumeGroup vg in
      let allocation := lvm_allocation graph vg size layout in
      contract RestartPolicy.ReprobeThenRetry
        ▷ require_kind vg NodeKindClass.LvmVg
        ▷ push_prerequisites [ActionPrerequisite.CapacityAvailable allocation_domain allocation]
        ▷ write (ActionResource.LvmMetadata vg)
        ▷ insert_node_with_dependency planned_node_id
            (NodeSpec.mk (NodeKind.LvmLv (LvmLv.mk name layout)) (Some size))
            (Dependency.mk vg planned_node_id DependencyKind.Provides)
        ▷ push_allocations
            [match allocation with
             | Some amount => AllocationEffect.Reserve allocation_domain amount
             | None => AllocationEffect.Invalidate allocation_domain
             end]
        ▷ invalidate vg FactKind.Geometry
        ▷ invalidate vg FactKind.Topology
  | LvmAction.ResizeLv lv new_size =>
      let result :=
        resize_contract graph lv new_size NodeKindClass.LvmLv ResizeSafety_DEPENDENTS in
      match lvm_volume_group graph lv with
      | Some vg =>
          let result := result ▷ write (ActionResource.LvmMetadata vg) in
          let domain := AllocationDomain.LvmVolumeGroup vg in
          let old := match known_size graph lv with
                     | Some size => lvm_lv_allocation graph vg lv size
                     | None => None
                     end in
          let new := lvm_lv_allocation graph vg lv new_size in
          let result :=
            match old, new with
            | Some old, Some new =>
                if (old <? new)%N then
                  let amount := (new - old)%N in
                  result
                    ▷ push_prerequisites [ActionPrerequisite.CapacityAvailable domain (Some amount)]
                    ▷ push_allocations [AllocationEffect.Reserve domain amount]
                else if (new <? old)%N then
                  result ▷ push_allocations [AllocationEffect.Release domain (old - new)%N]
                else result
            | _, _ =>
                result
                  ▷ push_prerequisites [ActionPrerequisite.CapacityAvailable domain None]
                  ▷ push_allocations [AllocationEffect.Invalidate domain]
            end in
          result ▷ invalidate vg FactKind.Geometry
      | None => result
      end
  | LvmAction.RemoveLv lv =>
      let result := remove_node_contract graph lv NodeKindClass.LvmLv true
                      ▷ push_prerequisites [ActionPrerequisite.DestructiveApproval lv] in
      match lvm_volume_group graph lv with
      | Some vg =>
          let domain := AllocationDomain.LvmVolumeGroup vg in
          let allocation := match known_size graph lv with
                            | Some size => lvm_lv_allocation graph vg lv size
                            | None => None
                            end in
          result
            ▷ write (ActionResource.LvmMetadata vg)
            ▷ push_allocations [match allocation with
                                | Some amount => AllocationEffect.Release domain amount
                                | None => AllocationEffect.Invalidate domain
                                end]
            ▷ invalidate vg FactKind.Geometry
            ▷ invalidate vg FactKind.Topology
      | None => result
      end
  | LvmAction.SetActivation target active =>
      let result :=
        contract RestartPolicy.Idempotent
          ▷ push_prerequisites [ActionPrerequisite.NodeExists target]
          ▷ write (ActionResource.Node target)
          ▷ push_graph [GraphEffect.SetActivation target active]
          ▷ invalidate target FactKind.Activation
          ▷ push_postconditions [Postcondition.Activation target active] in
      if active && match kind_of graph target with Some (NodeKind.LvmLv _) => true | _ => false end
      then result ▷ push_outputs
             [ActionOutput.BlockInterface target BlockInterfaceAccess.ReadWrite]
      else result
  end.

Definition describe_filesystem (action : FilesystemAction) graph : ActionContract :=
  match action with
  | FilesystemAction.Create backing planned_node_id filesystem label =>
      destructive_contract backing RestartPolicy.VerifyThenRetry
        ▷ insert_node_with_dependency planned_node_id
            (NodeSpec.mk (NodeKind.Filesystem filesystem label) None)
            (Dependency.mk backing planned_node_id DependencyKind.Backs)
        ▷ invalidate backing FactKind.Content
        ▷ invalidate backing FactKind.Identity
  | FilesystemAction.Resize filesystem new_size =>
      let result :=
        resize_contract graph filesystem new_size NodeKindClass.Filesystem ResizeSafety_BACKING in
      let may_shrink := is_none_or (λ current, new_size <? current)%N
                          (known_size graph filesystem) in
      let is_ext2 := match kind_of graph filesystem with
                     | Some (NodeKind.Filesystem FilesystemKind.Ext2 _) => true
                     | _ => false
                     end in
      let result :=
        if may_shrink || is_ext2
        then result ▷ push_prerequisites [ActionPrerequisite.FilesystemUnmounted filesystem]
                    ▷ read ActionResource.RuntimeMountState
        else result in
      let result :=
        if may_shrink : bool
        then result ▷ push_prerequisites
               [ActionPrerequisite.FilesystemCheckPassed filesystem;
                ActionPrerequisite.FilesystemMinimumSize filesystem new_size]
        else result in
      result ▷ access_filesystem_backing graph filesystem ResourceAccessMode.Write
  | FilesystemAction.Check filesystem force =>
      let result := inspection_contract graph filesystem in
      if force && is_ext_filesystem graph filesystem
      then result ▷ push_outputs [ActionOutput.FilesystemCheckPassed filesystem]
                  ▷ push_postconditions [Postcondition.FilesystemCheckPassed filesystem]
      else result
  | FilesystemAction.Repair filesystem _ =>
      contract RestartPolicy.ManualRecovery
        ▷ require_kind filesystem NodeKindClass.Filesystem
        ▷ push_prerequisites [ActionPrerequisite.FilesystemUnmounted filesystem]
        ▷ read ActionResource.RuntimeMountState
        ▷ push_prerequisites [ActionPrerequisite.NoUnexpectedConsumers filesystem]
        ▷ write (ActionResource.Node filesystem)
        ▷ access_filesystem_backing graph filesystem ResourceAccessMode.Write
        ▷ invalidate filesystem FactKind.Content
        ▷ push_postconditions [Postcondition.NodeReprobed filesystem]
  | FilesystemAction.SetLabel filesystem label =>
      contract RestartPolicy.ReprobeThenRetry
        ▷ require_kind filesystem NodeKindClass.Filesystem
        ▷ write (ActionResource.Node filesystem)
        ▷ access_filesystem_backing graph filesystem ResourceAccessMode.Write
        ▷ push_graph [GraphEffect.SetFilesystemLabel filesystem label]
        ▷ invalidate filesystem FactKind.Identity
        ▷ push_postconditions [Postcondition.FilesystemLabel filesystem label]
  end.

Definition btrfs_member (devid : option positive) : DependencyKind :=
  DependencyKind.MemberOf (MemberRole.Btrfs (BtrfsMember.mk devid)).

Definition is_btrfs_member (k : DependencyKind) : bool :=
  match k with DependencyKind.MemberOf (MemberRole.Btrfs _) => true | _ => false end.

Definition describe_btrfs (action : BtrfsAction) graph : ActionContract :=
  match action with
  | BtrfsAction.Create members planned_node_id label allocation =>
      let result := contract RestartPolicy.VerifyThenRetry
                      ▷ push_prerequisites [ActionPrerequisite.DistinctNodes members] in
      let result :=
        foldl (λ result member,
                 result
                   ▷ push_prerequisites [ActionPrerequisite.NodeExists member;
                                         ActionPrerequisite.NodeKind member NodeKindClass.Block;
                                         ActionPrerequisite.Writable member;
                                         ActionPrerequisite.NoUnexpectedConsumers member;
                                         ActionPrerequisite.DestructiveApproval member]
                   ▷ write (ActionResource.Node member)
                   ▷ invalidate member FactKind.Content) result members in
      let spec := NodeSpec.mk (NodeKind.Filesystem (FilesystemKind.Btrfs allocation) label) None in
      let result := result ▷ push_graph [GraphEffect.InsertNode planned_node_id spec]
                           ▷ push_postconditions [Postcondition.NodeMatches planned_node_id spec] in
      foldl (λ result member,
               result ▷ add_dependency (Dependency.mk member planned_node_id (btrfs_member None)))
        result members
  | BtrfsAction.AddDevice filesystem device =>
      btrfs_membership_contract filesystem device
        ▷ add_dependency (Dependency.mk device filesystem (btrfs_member None))
  | BtrfsAction.RemoveDevice filesystem device =>
      let dependency :=
        default (Dependency.mk device filesystem (btrfs_member None))
          (find_first (λ d, bool_decide (d.(Dependency.from_) = device) &&
                            bool_decide (d.(Dependency.to) = filesystem) &&
                            is_btrfs_member d.(Dependency.kind))
             graph.(NodeGraph.dependencies)) in
      btrfs_membership_contract filesystem device
        ▷ push_graph [GraphEffect.RemoveDependency dependency]
        ▷ push_postconditions [Postcondition.DependencyAbsent dependency]
  | BtrfsAction.ConvertProfiles filesystem target =>
      contract RestartPolicy.ReprobeThenRetry
        ▷ require_kind filesystem NodeKindClass.BtrfsFilesystem
        ▷ write (ActionResource.Node filesystem)
        ▷ push_graph [GraphEffect.SetBtrfsAllocation filesystem target]
        ▷ invalidate filesystem FactKind.Geometry
        ▷ push_postconditions [Postcondition.BtrfsAllocation filesystem target]
  | BtrfsAction.CreateSubvolume filesystem planned_node_id name read_only =>
      contract RestartPolicy.ReprobeThenRetry
        ▷ require_kind filesystem NodeKindClass.BtrfsFilesystem
        ▷ write (ActionResource.Node filesystem)
        ▷ insert_node_with_dependency planned_node_id
            (NodeSpec.mk (NodeKind.BtrfsSubvolume name read_only false) None)
            (Dependency.mk filesystem planned_node_id DependencyKind.Provides)
        ▷ invalidate filesystem FactKind.Topology
  end.

(** The key of the sort in [describe_mount]: [None] before every node. *)
Definition access_key (a : ResourceAccess) : option NodeId :=
  match a.(ResourceAccess.resource) with ActionResource.Node id => Some id | _ => None end.

Definition access_leb (a b : ResourceAccess) : bool :=
  match access_key a, access_key b with
  | None, _ => true
  | Some _, None => false
  | Some x, Some y => (x <=? y)%N
  end.

Definition sort_resources c : ActionContract :=
  let 'ActionContract.mk p o a e f q r := c in
  ActionContract.mk p o (sort_by access_leb a) e f q r.

Definition describe_mount (action : MountAction) graph : ActionContract :=
  match action with
  | MountAction.Mount source target options context =>
      let result :=
        contract RestartPolicy.Idempotent
          ▷ write ActionResource.RuntimeMountState
          ▷ push_prerequisites [ActionPrerequisite.MountDescendantsAbsent target context] in
      let result :=
        match mount_source_node source with
        | Some node =>
            foldl (λ result ancestor, result ▷ read (ActionResource.Node ancestor))
              (result ▷ push_prerequisites [ActionPrerequisite.NodeExists node]
                      ▷ push_prerequisites [ActionPrerequisite.MountSourceAvailable source]
                      ▷ read (ActionResource.Node node))
              (ancestors graph node)
            ▷ sort_resources
        | None => result
        end in
      result
        ▷ push_prerequisites [ActionPrerequisite.MountTargetAvailable target context]
        ▷ write (ActionResource.MountTarget target context)
        ▷ push_mounts [MountEffect.AddRuntime source target options context]
        ▷ invalidate_mount target context
        ▷ push_postconditions [Postcondition.RuntimeMountPresent source target context]
  | MountAction.Unmount target context =>
      contract RestartPolicy.Idempotent
        ▷ write ActionResource.RuntimeMountState
        ▷ push_prerequisites [ActionPrerequisite.MountDescendantsAbsent target context]
        ▷ write (ActionResource.MountTarget target context)
        ▷ push_mounts [MountEffect.RemoveRuntime target context]
        ▷ invalidate_mount target context
        ▷ push_postconditions [Postcondition.RuntimeMountAbsent target context]
  | MountAction.Persist entry =>
      let result := contract RestartPolicy.ReprobeThenRetry in
      let result :=
        match mount_source_node entry.(MountEntry.source) with
        | Some node => result ▷ push_prerequisites [ActionPrerequisite.NodeExists node]
                              ▷ read (ActionResource.Node node)
        | None => result
        end in
      result
        ▷ write (ActionResource.PersistentMountConfig entry.(MountEntry.context))
        ▷ push_mounts [MountEffect.SetPersistent entry]
        ▷ invalidate_persistent_mount entry.(MountEntry.context)
        ▷ push_postconditions [Postcondition.PersistentMountMatches entry]
  | MountAction.RemovePersistent target context =>
      contract RestartPolicy.ReprobeThenRetry
        ▷ write (ActionResource.PersistentMountConfig context)
        ▷ push_mounts [MountEffect.RemovePersistent target context]
        ▷ invalidate_persistent_mount context
        ▷ push_postconditions [Postcondition.PersistentMountAbsent target context]
  end.

(** ** Outputs and the description of an action *)

Definition node_output (change : GraphEffect) : option ActionOutput :=
  match change with
  | GraphEffect.InsertNode id spec => Some (ActionOutput.Node id spec)
  | _ => None
  end.

Definition mount_output (change : MountEffect) : option ActionOutput :=
  match change with
  | MountEffect.AddRuntime source target _ context =>
      Some (ActionOutput.Mount source target context)
  | MountEffect.SetPersistent entry => Some (ActionOutput.PersistentMount entry)
  | MountEffect.RemoveRuntime _ _ | MountEffect.RemovePersistent _ _ => None
  end.

Definition outputs_from_effect (effect : PredictedEffect) : list ActionOutput :=
  omap node_output effect.(PredictedEffect.graph) ++
  omap mount_output effect.(PredictedEffect.mounts).

Definition output_node (output : ActionOutput) : option NodeId :=
  match output with
  | ActionOutput.Node id _ | ActionOutput.BlockInterface id _ => Some id
  | _ => None
  end.

Definition add_output_resources c : ActionContract :=
  foldl (λ c node,
           let access := ResourceAccess.mk (ActionResource.Node node) ResourceAccessMode.Write in
           if contains access c.(ActionContract.affected_resources) then c
           else c ▷ push_resources [access])
    c (omap output_node c.(ActionContract.provided_outputs)).

Definition set_outputs (os : list ActionOutput) c : ActionContract :=
  let 'ActionContract.mk p _ a e f q r := c in ActionContract.mk p os a e f q r.

Definition is_no_unexpected_consumers (p : ActionPrerequisite) : bool :=
  match p with ActionPrerequisite.NoUnexpectedConsumers _ => true | _ => false end.

(** The technology-specific part. *)
Definition describe_technology (action : ProviderAction) graph : ActionContract :=
  match action with
  | ProviderAction.Partition action => describe_partition action graph
  | ProviderAction.Luks action => describe_luks action graph
  | ProviderAction.Lvm action => describe_lvm action graph
  | ProviderAction.Filesystem action => describe_filesystem action graph
  | ProviderAction.Btrfs action => describe_btrfs action graph
  | ProviderAction.Mount action => describe_mount action graph
  end.

Definition describe_action (action : ProviderAction) graph : ActionContract :=
  let contract := describe_technology action graph in
  let contract :=
    if existsb is_no_unexpected_consumers contract.(ActionContract.prerequisites) &&
       negb (existsb (λ access,
               bool_decide (access.(ResourceAccess.resource) = ActionResource.RuntimeMountState))
               contract.(ActionContract.affected_resources))
    then contract ▷ read ActionResource.RuntimeMountState
    else contract in
  let outputs := outputs_from_effect contract.(ActionContract.predicted_effect) ++
                 contract.(ActionContract.provided_outputs) in
  contract ▷ set_outputs outputs ▷ add_output_resources.

(** ** Imported contracts

    [serde_json::to_string] for the six types the canonical form sorts.  A
    [Json] value is the serializer as it acts on one contract: two equal
    values with a hash set inside may be written differently, so the trusted
    and the imported contract have a [Json] each. *)

Record Json := mk_json {
  json_prerequisite : ActionPrerequisite → result string unit;
  json_output : ActionOutput → result string unit;
  json_resource : ResourceAccess → result string unit;
  json_fact : FactInvalidation → result string unit;
  json_postcondition : Postcondition → result string unit;
  json_effect : GraphEffect → result string unit }.

(** [Vec::dedup_by] on the keys: drops an element that follows an equal one. *)
Fixpoint dedup_keyed {T} (keyed : list (string * T)) : list (string * T) :=
  match keyed with
  | [] => []
  | x :: rest =>
      match rest with
      | y :: _ => if decide (x.1 = y.1)
                  then match dedup_keyed rest with
                       | [] => [x]
                       | _ :: tail => x :: tail
                       end
                  else x :: dedup_keyed rest
      | [] => [x]
      end
  end.

Definition sort_contract_values {T} (to_string : T → result string unit) (values : list T)
    (deduplicate : bool) : result (list T) unit :=
  let? keyed := try_map (λ value, let? key := to_string value in Ok (key, value)) values in
  let keyed := sort_by (λ left right, String.leb left.1 right.1) keyed in
  let keyed := if deduplicate then dedup_keyed keyed else keyed in
  Ok keyed.*2.

Definition is_edge_removal (effect : GraphEffect) : bool :=
  match effect with
  | GraphEffect.RemoveDependency _ | GraphEffect.RemoveRelation _ => true
  | _ => false
  end.

(** [graph[start..end]] and what follows, [end] being the first index that is
    not an edge removal. *)
Fixpoint removal_run (effects : list GraphEffect) : list GraphEffect * list GraphEffect :=
  match effects with
  | e :: rest => if is_edge_removal e
                 then let '(run, tail) := removal_run rest in (e :: run, tail)
                 else ([], effects)
  | [] => ([], [])
  end.

(** The [while start < len] loop; every iteration consumes an effect. *)
Fixpoint canonicalize_effects (to_string : GraphEffect → result string unit) (fuel : nat)
    (effects : list GraphEffect) : result (list GraphEffect) unit :=
  match fuel with
  | 0 => Ok effects
  | S fuel =>
      match effects with
      | [] => Ok []
      | e :: rest =>
          if is_edge_removal e then
            let '(run, tail) := removal_run effects in
            let? run := sort_contract_values to_string run false in
            let? tail := canonicalize_effects to_string fuel tail in
            Ok (run ++ tail)
          else
            let? rest := canonicalize_effects to_string fuel rest in
            Ok (e :: rest)
      end
  end.

Definition canonicalize_contract (json : Json) c : result ActionContract unit :=
  let 'ActionContract.mk p o a (PredictedEffect.mk g m al) f q r := c in
  let? p := sort_contract_values json.(json_prerequisite) p true in
  let? o := sort_contract_values json.(json_output) o true in
  let? a := sort_contract_values json.(json_resource) a true in
  let? f := sort_contract_values json.(json_fact) f true in
  let? q := sort_contract_values json.(json_postcondition) q true in
  let? g := canonicalize_effects json.(json_effect) (length g) g in
  Ok (ActionContract.mk p o a (PredictedEffect.mk g m al) f q r).

Record ActionContractMismatch := mk_mismatch {
  mismatch_trusted : ActionContract;
  mismatch_imported : ActionContract }.

Definition verify_imported_contract (json_trusted json_imported : Json) (action : ProviderAction)
    (imported : ActionContract) graph : result ActionContract ActionContractMismatch :=
  let trusted := describe_action action graph in
  if bool_decide (trusted = imported) ||
     match canonicalize_contract json_trusted trusted, canonicalize_contract json_imported imported with
     | Ok t, Ok i => bool_decide (t = i)
     | _, _ => false
     end
  then Ok trusted
  else Err (mk_mismatch trusted imported).
