(* ===== verification/ContractProps.v ===== *)
(** * What a trusted contract guarantees

    The composer orders and locks actions by [affected_resources], and the
    executor accepts an action on its [postconditions]; both are sound only if
    the contract names every change the action predicts.  This file proves it
    for every action and every graph: each predicted change is covered by a
    write lock and by a postcondition that observes it. *)

From S2P Require Import Prelude Model Graph GraphOrder State Action Contract.

Implicit Types (graph : NodeGraph) (c : ActionContract) (n : NodeId).

Create HintDb contract.

(** ** Coverage of a predicted change *)

(** The nodes an effect changes; for an edge, its endpoints. *)
Definition effect_nodes (e : GraphEffect) : list NodeId :=
  match e with
  | GraphEffect.InvalidateNodeSize n | GraphEffect.InsertNode n _ | GraphEffect.RemoveNode n
  | GraphEffect.SetNodeSize n _ | GraphEffect.SetPartitionAttributes n _
  | GraphEffect.SetFilesystemLabel n _ | GraphEffect.SetBtrfsAllocation n _
  | GraphEffect.SetActivation n _ => [n]
  | GraphEffect.InsertDependency d | GraphEffect.RemoveDependency d =>
      [d.(Dependency.from_); d.(Dependency.to)]
  | GraphEffect.InsertRelation r | GraphEffect.RemoveRelation r =>
      [r.(Relation.from_); r.(Relation.to)]
  end.

(** The postcondition that observes an effect, if the vocabulary has one. *)
Definition effect_postcondition (e : GraphEffect) : option Postcondition :=
  match e with
  | GraphEffect.InvalidateNodeSize n => Some (Postcondition.NodeReprobed n)
  | GraphEffect.InsertNode n spec => Some (Postcondition.NodeMatches n spec)
  | GraphEffect.RemoveNode n => Some (Postcondition.NodeAbsent n)
  | GraphEffect.SetNodeSize n size => Some (Postcondition.NodeSize n size)
  | GraphEffect.SetPartitionAttributes n a => Some (Postcondition.PartitionAttributes n a)
  | GraphEffect.SetFilesystemLabel n l => Some (Postcondition.FilesystemLabel n l)
  | GraphEffect.SetBtrfsAllocation n a => Some (Postcondition.BtrfsAllocation n a)
  | GraphEffect.InsertDependency d => Some (Postcondition.DependencyPresent d)
  | GraphEffect.RemoveDependency d => Some (Postcondition.DependencyAbsent d)
  | GraphEffect.SetActivation n a => Some (Postcondition.Activation n a)
  | GraphEffect.InsertRelation _ | GraphEffect.RemoveRelation _ => None
  end.

Definition mount_effect_lock (m : MountEffect) : ActionResource :=
  match m with
  | MountEffect.AddRuntime _ target _ context | MountEffect.RemoveRuntime target context =>
      ActionResource.MountTarget target context
  | MountEffect.SetPersistent e => ActionResource.PersistentMountConfig e.(MountEntry.context)
  | MountEffect.RemovePersistent _ context => ActionResource.PersistentMountConfig context
  end.

Definition mount_effect_postcondition (m : MountEffect) : Postcondition :=
  match m with
  | MountEffect.AddRuntime source target _ context =>
      Postcondition.RuntimeMountPresent source target context
  | MountEffect.RemoveRuntime target context => Postcondition.RuntimeMountAbsent target context
  | MountEffect.SetPersistent e => Postcondition.PersistentMountMatches e
  | MountEffect.RemovePersistent target context => Postcondition.PersistentMountAbsent target context
  end.

Definition allocation_lock (a : AllocationEffect) : ActionResource :=
  match a with
  | AllocationEffect.Invalidate (AllocationDomain.LvmVolumeGroup vg)
  | AllocationEffect.Reserve (AllocationDomain.LvmVolumeGroup vg) _
  | AllocationEffect.Release (AllocationDomain.LvmVolumeGroup vg) _ => ActionResource.LvmMetadata vg
  end.

(** The contract declares a write of the resource. *)
Definition writes c (r : ActionResource) : Prop :=
  ResourceAccess.mk r ResourceAccessMode.Write ∈ c.(ActionContract.affected_resources).

Definition ensures c (q : Postcondition) : Prop := q ∈ c.(ActionContract.postconditions).

(** A node that is write-locked now, or will be as a declared output. *)
Definition locks_node c n : Prop :=
  writes c (ActionResource.Node n) ∨
  ∃ spec, GraphEffect.InsertNode n spec ∈ c.(ActionContract.predicted_effect).(PredictedEffect.graph).

Record graph_covered c (e : GraphEffect) : Prop := {
  gc_lock : ∃ n, n ∈ effect_nodes e ∧ locks_node c n;
  gc_verified : ∃ q, effect_postcondition e = Some q ∧ ensures c q }.

Record mount_covered c (m : MountEffect) : Prop := {
  mc_lock : writes c (mount_effect_lock m);
  mc_verified : ensures c (mount_effect_postcondition m) }.

(** Every predicted change of the contract is covered. *)
Record covered c : Prop := {
  cov_graph e : e ∈ c.(ActionContract.predicted_effect).(PredictedEffect.graph) → graph_covered c e;
  cov_mounts m : m ∈ c.(ActionContract.predicted_effect).(PredictedEffect.mounts) → mount_covered c m;
  cov_allocations a : a ∈ c.(ActionContract.predicted_effect).(PredictedEffect.allocations) →
    writes c (allocation_lock a) }.

(** ** Coverage is preserved by pushing *)

(** [c'] predicts what [c] does and declares at least as much. *)
Record extends c c' : Prop := {
  ext_resources : c.(ActionContract.affected_resources) ⊆ c'.(ActionContract.affected_resources);
  ext_graph : c.(ActionContract.predicted_effect).(PredictedEffect.graph) ⊆
              c'.(ActionContract.predicted_effect).(PredictedEffect.graph);
  ext_postconditions : c.(ActionContract.postconditions) ⊆ c'.(ActionContract.postconditions) }.

#[global] Instance extends_preorder : PreOrder extends.
Proof. split; [by split|]. intros ??? [] []. split; by etrans. Qed.

Lemma writes_extends c c' r : extends c c' → writes c r → writes c' r.
Proof. intros [H _ _] ?. by apply H. Qed.
Lemma ensures_extends c c' q : extends c c' → ensures c q → ensures c' q.
Proof. intros [_ _ H] ?. by apply H. Qed.
Lemma locks_extends c c' n : extends c c' → locks_node c n → locks_node c' n.
Proof.
  intros Hx [Hw|[spec Hi]]; [left; by eapply writes_extends|].
  right. exists spec. by apply (ext_graph _ _ Hx).
Qed.
Lemma graph_covered_extends c c' e : extends c c' → graph_covered c e → graph_covered c' e.
Proof.
  intros Hx [(n & Hn & Hl) (q & Hq & He)].
  split; [exists n|exists q]; eauto using locks_extends, ensures_extends.
Qed.
Lemma mount_covered_extends c c' m : extends c c' → mount_covered c m → mount_covered c' m.
Proof. intros Hx []. split; eauto using writes_extends, ensures_extends. Qed.

(** A step that predicts [gs], [ms] and [als] more: only these need evidence. *)
Lemma covered_step gs ms als c c' :
  covered c → extends c c' →
  c'.(ActionContract.predicted_effect) = PredictedEffect.mk
    (c.(ActionContract.predicted_effect).(PredictedEffect.graph) ++ gs)
    (c.(ActionContract.predicted_effect).(PredictedEffect.mounts) ++ ms)
    (c.(ActionContract.predicted_effect).(PredictedEffect.allocations) ++ als) →
  Forall (graph_covered c') gs → Forall (mount_covered c') ms →
  Forall (λ a, writes c' (allocation_lock a)) als → covered c'.
Proof.
  intros [Hg Hm Ha] Hx Heff. rewrite !Forall_forall. intros Hgs Hms Hals.
  split; rewrite Heff; simpl; intros x; rewrite elem_of_app; intros [Hin|Hin];
    eauto using graph_covered_extends, mount_covered_extends, writes_extends.
Qed.

(** A step that predicts nothing. *)
Record quiet c c' : Prop := {
  quiet_extends : extends c c';
  quiet_effect : c'.(ActionContract.predicted_effect) = c.(ActionContract.predicted_effect) }.

#[global] Instance quiet_preorder : PreOrder quiet.
Proof. split; [by split|]. intros ??? [] []. split; [by etrans|congruence]. Qed.

Lemma covered_quiet c c' : covered c → quiet c c' → covered c'.
Proof.
  intros Hc [Hx He]. apply (covered_step [] [] [] c); [done..| | | |]; [|constructor..].
  rewrite He, !app_nil_r. by destruct (c.(ActionContract.predicted_effect)).
Qed.

Lemma covered_contract r : covered (contract r).
Proof. split; intros ? []%elem_of_nil. Qed.

(** Closes [extends], [quiet] and membership goals about explicit pushes. *)
Ltac solve_push :=
  repeat match goal with H : ?P |- _ => match type of P with Prop => clear H end end;
  repeat match goal with c : ActionContract |- _ => destruct c as [?p ?o ?a [?g ?m ?al] ?f ?q ?r] end;
  repeat match goal with |- _ ∧ _ => split | |- extends _ _ => split | |- quiet _ _ => split end;
  simpl; rewrite ?app_nil_r; try done; set_solver.

Lemma quiet_prerequisites ps c : quiet c (push_prerequisites ps c).
Proof. solve_push. Qed.
Lemma quiet_outputs os c : quiet c (push_outputs os c).
Proof. solve_push. Qed.
Lemma quiet_set_outputs os c : quiet c (set_outputs os c).
Proof. solve_push. Qed.
Lemma quiet_resources rs c : quiet c (push_resources rs c).
Proof. solve_push. Qed.
Lemma quiet_facts fs c : quiet c (push_facts fs c).
Proof. solve_push. Qed.
Lemma quiet_postconditions qs c : quiet c (push_postconditions qs c).
Proof. solve_push. Qed.
Lemma quiet_sort c : quiet c (sort_resources c).
Proof.
  destruct c as [p o a [g m al] f q r]. split; [split|]; simpl; try done.
  intros x. by rewrite sort_by_perm.
Qed.

#[export] Hint Resolve quiet_prerequisites quiet_outputs quiet_set_outputs quiet_resources
  quiet_facts quiet_postconditions quiet_sort : contract.

Lemma quiet_write r c : quiet c (write r c).
Proof. apply quiet_resources. Qed.
Lemma quiet_read r c : quiet c (read r c).
Proof. apply quiet_resources. Qed.
Lemma quiet_invalidate n k c : quiet c (invalidate n k c).
Proof. apply quiet_facts. Qed.
Lemma quiet_require n k c : quiet c (require_kind n k c).
Proof. apply quiet_prerequisites. Qed.

#[export] Hint Resolve quiet_write quiet_read quiet_invalidate quiet_require : contract.

(** Peels quiet steps off the end of a pipeline. *)
Ltac solve_quiet :=
  solve [reflexivity | etrans; [|solve [eauto with contract]]; solve_quiet].

#[export] Hint Opaque resize_contract remove_node_contract inspection_contract
  btrfs_membership_contract destructive_contract : contract.

Lemma foldl_inv {A B} (P : B → Prop) (f : B → A → B) l b :
  P b → (∀ b x, x ∈ l → P b → P (f b x)) → P (foldl f b l).
Proof.
  revert b. induction l as [|x l IH]; intros b Hb Hstep; simpl; [done|].
  apply IH; [apply Hstep; [left|done]|]. intros. apply Hstep; [by right|done].
Qed.

Lemma quiet_foldl {A} (f : ActionContract → A → ActionContract) l c :
  (∀ c x, quiet c (f c x)) → quiet c (foldl f c l).
Proof. intros Hf. apply (foldl_inv (quiet c)); [done|]. intros b x _ Hb. by etrans. Qed.

Lemma quiet_access graph fs mode c : quiet c (access_filesystem_backing graph fs mode c).
Proof.
  apply quiet_foldl. intros c' x. case_decide; [|apply quiet_resources].
  etrans; [apply quiet_resources|apply quiet_prerequisites].
Qed.

Lemma quiet_add_outputs c : quiet c (add_output_resources c).
Proof.
  apply quiet_foldl. intros c' x. cbn zeta.
  destruct (contains _ _); [done|apply quiet_resources].
Qed.

#[export] Hint Resolve quiet_access quiet_add_outputs : contract.

(** ** The shared recipes *)

(** Proves [covered] of an explicit pipeline on top of a covered contract. *)
Ltac solve_cover :=
  repeat match goal with |- Forall _ _ => constructor end;
  repeat match goal with
  | |- graph_covered _ (GraphEffect.InsertNode ?id ?spec) =>
      split; [exists id; split; [left|right; exists spec]|eexists; split; [reflexivity|]]
  | |- graph_covered _ (GraphEffect.InsertDependency ?d) =>
      split; [|eexists; split; [reflexivity|]]
  | |- graph_covered _ (GraphEffect.RemoveDependency ?d) =>
      split; [|eexists; split; [reflexivity|]]
  | |- graph_covered _ _ =>
      split; [eexists; split; [left|left]|eexists; split; [reflexivity|]]
  | |- mount_covered _ _ => split
  end;
  unfold ensures, writes; simpl; try set_solver;
  try match goal with
  | |- ∃ n, n ∈ [_; ?b] ∧ locks_node _ n =>
      exists b; split; [right; left|]; unfold locks_node, writes; simpl;
      solve [left; set_solver | right; eexists; left | right; eexists; right; left]
  end.

Lemma covered_resize graph n size k s : covered (resize_contract graph n size k s).
Proof.
  unfold resize_contract.
  apply (covered_step [GraphEffect.SetNodeSize n size] [] []
           (contract RestartPolicy.ReprobeThenRetry)); [apply covered_contract|..];
    repeat case_match; try solve_push; solve_cover.
Qed.

Lemma quiet_remove_tail q n k c :
  quiet (push_postconditions q c) (push_postconditions q (invalidate n k c)).
Proof. solve_push. Qed.

Lemma covered_remove graph n k b : covered (remove_node_contract graph n k b).
Proof.
  unfold remove_node_contract.
  match goal with |- covered (push_postconditions _ (invalidate _ _ (foldl ?f ?c ?l))) =>
    assert (covered (push_postconditions [Postcondition.NodeAbsent n] c) ∧
            writes c (ActionResource.Node n)) as [Hc Hw];
    [|assert (let r := foldl f c l in
              covered (push_postconditions [Postcondition.NodeAbsent n] r) ∧
              writes r (ActionResource.Node n)) as [Hr _]] end.
  - split; [|destruct b; unfold writes; simpl; set_solver].
    apply (covered_step [GraphEffect.RemoveNode n] [] []
             (contract RestartPolicy.ReprobeThenRetry)); [apply covered_contract|..];
      destruct b; try solve_push; solve_cover.
  - apply (foldl_inv (λ r, covered (push_postconditions [Postcondition.NodeAbsent n] r) ∧
      writes r (ActionResource.Node n))); [done|].
    clear Hc Hw. intros r d [Hd _]%list_elem_of_filter [Hc Hw]. split.
    + eapply (covered_step [GraphEffect.RemoveDependency d] [] []); [exact Hc|..];
        [solve_push|solve_push| |constructor..].
      apply Forall_singleton. split; [exists n|eexists]; (split; [try done; simpl; set_solver|]).
      * left. destruct r as [? ? ? [] ? ? ?]. done.
      * destruct r as [? ? ? [] ? ? ?]. unfold ensures. simpl. set_solver.
    + destruct r as [? ? ? [] ? ? ?]. done.
  - eapply covered_quiet; [exact Hr|]. apply quiet_remove_tail.
Qed.

(** ** Every technology *)

Lemma covered_forall c :
  Forall (graph_covered c) c.(ActionContract.predicted_effect).(PredictedEffect.graph) →
  Forall (mount_covered c) c.(ActionContract.predicted_effect).(PredictedEffect.mounts) →
  Forall (λ a, writes c (allocation_lock a))
    c.(ActionContract.predicted_effect).(PredictedEffect.allocations) → covered c.
Proof. rewrite !Forall_forall. by split. Qed.

Ltac solve_explicit := apply covered_forall; simpl; solve_cover.

Lemma covered_partition a graph : covered (describe_partition a graph).
Proof.
  destruct a as [disk id t|t id num off sz role at_|n sz|n|n at_]; unfold describe_partition.
  - solve_explicit.
  - solve_explicit.
  - destruct (partition_table graph n); (eapply covered_quiet; [apply covered_resize|solve_quiet]).
  - destruct (partition_table graph n); (eapply covered_quiet; [apply covered_remove|solve_quiet]).
  - destruct (partition_table graph n); solve_explicit.
Qed.

Lemma covered_luks a graph : covered (describe_luks a graph).
Proof.
  destruct a as [t id v cr|ct id nm cr ro|n|n [sz|]]; unfold describe_luks.
  - solve_explicit.
  - destruct ro; solve_explicit.
  - apply covered_remove.
  - apply covered_resize.
  - solve_explicit.
Qed.

(** Edges into a node the same contract inserts, one per member. *)
Lemma covered_members {A} (f : ActionContract → A → ActionContract) (d : A → Dependency) id l c :
  (∀ c x, ∃ fs, f c x = push_facts fs (add_dependency (d x) c)) →
  (∀ x, (d x).(Dependency.to) = id) → covered c → locks_node c id → covered (foldl f c l).
Proof.
  intros Hf Hd Hc Hl.
  apply (foldl_inv (λ c, covered c ∧ locks_node c id)); [done|]. clear c Hc Hl.
  intros c x _ [Hc Hl]. destruct (Hf c x) as [fs ->].
  assert (extends c (push_facts fs (add_dependency (d x) c))) as Hx.
  { clear. solve_push. }
  split; [|by eapply locks_extends].
  apply (covered_step [GraphEffect.InsertDependency (d x)] [] [] c); [done|done|clear; solve_push| |constructor..].
  apply Forall_singleton. split.
  - exists id. split; [|by eapply locks_extends]. rewrite <-(Hd x). right. left.
  - eexists. split; [done|]. destruct c as [? ? ? [] ? ? ?]. unfold ensures. simpl. set_solver.
Qed.

(** Inserting the group node itself. *)
Lemma covered_insert_node id spec c :
  covered c →
  let c' := c ▷ push_graph [GraphEffect.InsertNode id spec]
              ▷ push_postconditions [Postcondition.NodeMatches id spec] in
  covered c' ∧ locks_node c' id.
Proof.
  intros Hc c'.
  assert (locks_node c' id) as Hl.
  { right. exists spec. subst c'. destruct c as [? ? ? [] ? ? ?]. simpl. set_solver. }
  split; [|done]. apply (covered_step [GraphEffect.InsertNode id spec] [] [] c);
    [done|subst c'; solve_push|subst c'; solve_push| |constructor..].
  apply Forall_singleton. split; [exists id; by split; [left|]|].
  eexists. split; [done|]. subst c'. destruct c as [? ? ? [] ? ? ?].
  unfold ensures. simpl. set_solver.
Qed.

Lemma writes_write r c : writes (write r c) r.
Proof. destruct c as [? ? ? [] ? ? ?]. unfold writes. simpl. set_solver. Qed.

Lemma writes_quiet r c c' : quiet (write r c) c' → writes c' r.
Proof. intros Hq. eapply writes_extends, writes_write. apply Hq. Qed.

(** Changing the accounting of a locked volume group. *)
Lemma covered_allocation vg a c c' :
  covered c → quiet (write (ActionResource.LvmMetadata vg) c) c' →
  allocation_lock a = ActionResource.LvmMetadata vg → covered (push_allocations [a] c').
Proof.
  intros Hc Hq Ha.
  assert (covered c') as Hc' by (eapply covered_quiet; [exact Hc|etrans; [apply quiet_write|done]]).
  apply writes_quiet in Hq.
  apply (covered_step [] [] [a] c'); [done|clear; solve_push|clear; solve_push|constructor..|].
  apply Forall_singleton. rewrite Ha. by destruct c' as [? ? ? [] ? ? ?].
Qed.

Lemma covered_lvm a graph : covered (describe_lvm a graph).
Proof.
  destruct a as [b id|id nm pvs|vg id nm sz lay|lv sz|lv|t act]; unfold describe_lvm; cbn zeta.
  - solve_explicit.
  - edestruct covered_insert_node as [Hc Hl]; cycle 1.
    + eapply (covered_members _ (λ pv, Dependency.mk pv id (DependencyKind.MemberOf MemberRole.LvmPv)) id);
        [intros; by eexists|done|exact Hc|exact Hl].
    + eapply covered_quiet; [apply covered_contract|].
      etrans; [|apply quiet_write].
      etrans; [|apply quiet_foldl; intros; solve_quiet]. apply quiet_prerequisites.
  - solve_explicit. all: destruct (lvm_allocation _ _ _ _); simpl; set_solver.
  - destruct (lvm_volume_group graph lv) as [vg|]; [|apply covered_resize].
    eapply covered_quiet; [|apply quiet_invalidate].
    pose proof (covered_resize graph lv sz NodeKindClass.LvmLv ResizeSafety_DEPENDENTS) as Hr.
    repeat case_match; try (eapply covered_allocation; [exact Hr|solve_quiet|done]).
    all: eapply covered_quiet; [exact Hr|apply quiet_write].
  - pose proof (covered_remove graph lv NodeKindClass.LvmLv true) as Hr.
    destruct (lvm_volume_group graph lv) as [vg|].
    + do 2 (eapply covered_quiet; [|apply quiet_invalidate]).
      eapply (covered_allocation vg); [|reflexivity|by case_match].
      eapply covered_quiet; [exact Hr|apply quiet_prerequisites].
    + eapply covered_quiet; [exact Hr|apply quiet_prerequisites].
  - destruct (_ && _); solve_explicit.
Qed.

Lemma writes_foldl {A} (f : ActionContract → A → ActionContract) l r c :
  (∀ c x, quiet c (f c x)) → writes c r → writes (foldl f c l) r.
Proof. intros Hf. apply writes_extends, (quiet_foldl f l c Hf). Qed.

(** A single change of a locked node with its postcondition. *)
Lemma covered_change e n q c c' :
  covered c → quiet (write (ActionResource.Node n) c) c' →
  effect_nodes e = [n] → effect_postcondition e = Some q →
  ∀ k, covered (c' ▷ push_graph [e] ▷ invalidate n k ▷ push_postconditions [q]).
Proof.
  intros Hc Hq Hn Hp k.
  assert (covered c') as Hc' by (eapply covered_quiet; [exact Hc|etrans; [apply quiet_write|done]]).
  apply writes_quiet in Hq.
  apply (covered_step [e] [] [] c'); [done|clear; solve_push|clear; solve_push| |constructor..].
  apply Forall_singleton. split.
  - exists n. rewrite Hn. split; [left|]. left. by destruct c' as [? ? ? [] ? ? ?].
  - exists q. split; [done|]. destruct c' as [? ? ? [] ? ? ?]. unfold ensures. simpl. set_solver.
Qed.

Lemma covered_filesystem a graph : covered (describe_filesystem a graph).
Proof.
  destruct a as [b id fs l|n sz|n force|n force|n l]; unfold describe_filesystem; cbn zeta.
  - solve_explicit.
  - pose proof (covered_resize graph n sz NodeKindClass.Filesystem ResizeSafety_BACKING) as Hr.
    destruct (is_none_or _ _), (match kind_of graph n with Some _ => _ | None => _ end);
      simpl; (eapply covered_quiet; [exact Hr|solve_quiet]).
  - assert (covered (inspection_contract graph n)) as Hi.
    { eapply covered_quiet; [apply covered_contract|]. unfold inspection_contract. solve_quiet. }
    destruct (_ && _); [|done]. eapply covered_quiet; [exact Hi|solve_quiet].
  - eapply covered_quiet; [apply covered_contract|solve_quiet].
  - eapply (covered_change (GraphEffect.SetFilesystemLabel n l) n); [|apply quiet_access|done..].
    eapply covered_quiet; [apply covered_contract|solve_quiet].
Qed.

Lemma covered_btrfs a graph : covered (describe_btrfs a graph).
Proof.
  destruct a as [ms id l al|fs d|fs d|fs t|fs id nm ro]; unfold describe_btrfs; cbn zeta.
  - edestruct covered_insert_node as [Hc Hl]; cycle 1.
    + eapply (covered_members _ (λ m, Dependency.mk m id (btrfs_member None)) id);
        [|done|exact Hc|exact Hl].
      intros c x. exists []. destruct c as [? ? ? [] ? ? ?]. simpl. by rewrite app_nil_r.
    + eapply covered_quiet; [apply covered_contract|].
      etrans; [|apply quiet_foldl; intros; solve_quiet]. apply quiet_prerequisites.
  - solve_explicit.
  - apply covered_forall; simpl; [|constructor..].
    apply Forall_singleton. split; [|eexists; split; [done|by left]].
    exists fs. split; [|left; unfold writes; simpl; set_solver].
    simpl. destruct (find_first _ _) as [e|] eqn:He; simpl; [|right; left].
    apply find_first_Some in He as [_ [[_ ->%bool_decide_eq_true]%andb_true_iff _]%andb_true_iff].
    right. left.
  - solve_explicit.
  - solve_explicit.
Qed.

Lemma covered_mount a graph : covered (describe_mount a graph).
Proof.
  destruct a as [src t os ctx|t ctx|e|t ctx]; unfold describe_mount; cbn zeta;
    [|solve_explicit| |solve_explicit].
  - assert (∀ c, covered c → covered
      (c ▷ push_prerequisites [ActionPrerequisite.MountTargetAvailable t ctx]
         ▷ write (ActionResource.MountTarget t ctx)
         ▷ push_mounts [MountEffect.AddRuntime src t os ctx]
         ▷ invalidate_mount t ctx
         ▷ push_postconditions [Postcondition.RuntimeMountPresent src t ctx])) as Hpush.
    { intros c Hc. apply (covered_step [] [MountEffect.AddRuntime src t os ctx] [] c);
        [done|clear; solve_push|clear; solve_push|constructor| |constructor].
      apply Forall_singleton. destruct c as [? ? ? [] ? ? ?].
      split; unfold writes, ensures; simpl; set_solver. }
    apply Hpush. eapply covered_quiet; [apply covered_contract|].
    destruct (mount_source_node src); [|solve_quiet].
    etrans; [|apply quiet_sort]. etrans; [|apply quiet_foldl; intros; solve_quiet]. solve_quiet.
  - destruct (mount_source_node _); solve_explicit.
Qed.

Lemma covered_technology a graph : covered (describe_technology a graph).
Proof.
  destruct a; [apply covered_partition|apply covered_luks|apply covered_lvm
    |apply covered_filesystem|apply covered_btrfs|apply covered_mount].
Qed.

(** ** The description *)

Lemma quiet_describe a graph : quiet (describe_technology a graph) (describe_action a graph).
Proof.
  unfold describe_action. cbn zeta. etrans; [|apply quiet_add_outputs].
  etrans; [|apply quiet_set_outputs]. destruct (_ && _); [apply quiet_read|done].
Qed.

Lemma add_output_resources_writes c n :
  n ∈ omap output_node c.(ActionContract.provided_outputs) →
  writes (add_output_resources c) (ActionResource.Node n).
Proof.
  unfold add_output_resources. generalize (omap output_node (ActionContract.provided_outputs c)).
  intros l. revert c. induction l as [|x l IH]; intros c; [by intros []%elem_of_nil|].
  cbn [foldl]. intros [->|Hin]%elem_of_cons; [|by apply IH].
  apply writes_foldl.
  { intros c' y. destruct (contains _ _); [done|apply quiet_resources]. }
  destruct (contains _ _) eqn:Hc; [by apply contains_true in Hc|].
  destruct c as [? ? ? [] ? ? ?]. unfold writes. simpl. set_solver.
Qed.

(** Every node an action creates is a declared output and write-locked. *)
Lemma describe_action_locks_inserted a graph n spec :
  GraphEffect.InsertNode n spec ∈
    (describe_action a graph).(ActionContract.predicted_effect).(PredictedEffect.graph) →
  writes (describe_action a graph) (ActionResource.Node n).
Proof.
  rewrite (quiet_effect _ _ (quiet_describe a graph)). intros Hin.
  unfold describe_action. cbn zeta. apply add_output_resources_writes.
  apply list_elem_of_omap. exists (ActionOutput.Node n spec). split; [|done].
  set (c := if _ && _ then _ else _).
  assert (c.(ActionContract.predicted_effect) =
          (describe_technology a graph).(ActionContract.predicted_effect)) as He.
  { subst c. destruct (_ && _); [|done]. apply quiet_read. }
  assert (ActionContract.provided_outputs (set_outputs
    (outputs_from_effect c.(ActionContract.predicted_effect) ++ c.(ActionContract.provided_outputs)) c) =
    outputs_from_effect c.(ActionContract.predicted_effect) ++ c.(ActionContract.provided_outputs)) as ->
    by (by destruct c).
  apply elem_of_app. left. apply elem_of_app. left. rewrite He.
  apply list_elem_of_omap. eauto.
Qed.

Lemma action_contract_covers a graph :
  let c := describe_action a graph in
  (∀ e, e ∈ c.(ActionContract.predicted_effect).(PredictedEffect.graph) →
     (∃ n, n ∈ effect_nodes e ∧ writes c (ActionResource.Node n)) ∧
     (∃ q, effect_postcondition e = Some q ∧ q ∈ c.(ActionContract.postconditions))) ∧
  (∀ m, m ∈ c.(ActionContract.predicted_effect).(PredictedEffect.mounts) →
     writes c (mount_effect_lock m) ∧
     mount_effect_postcondition m ∈ c.(ActionContract.postconditions)) ∧
  (∀ al, al ∈ c.(ActionContract.predicted_effect).(PredictedEffect.allocations) →
     writes c (allocation_lock al)).
Proof.
  intros c. destruct (covered_quiet _ c (covered_technology a graph) (quiet_describe a graph))
    as [Hg Hm Ha].
  split_and!; [|intros m []%Hm; done|done].
  intros e [(n & Hn & Hl) Hq]%Hg. split; [|done]. exists n. split; [done|].
  destruct Hl as [|[spec Hi]]; [done|]. by eapply describe_action_locks_inserted.
Qed.

(** Every change an action predicts is write-locked (an edge at one of its
    endpoints, a capacity at its allocation domain), and every graph and mount
    change is observed by a postcondition, for every action and every graph. *)
Theorem describe_action_covers a graph :
  let c := describe_action a graph in
  (∀ e, e ∈ c.(ActionContract.predicted_effect).(PredictedEffect.graph) →
     (∃ n, n ∈ effect_nodes e ∧ writes c (ActionResource.Node n)) ∧
     (∃ q, effect_postcondition e = Some q ∧ q ∈ c.(ActionContract.postconditions))) ∧
  (∀ m, m ∈ c.(ActionContract.predicted_effect).(PredictedEffect.mounts) →
     writes c (mount_effect_lock m) ∧
     mount_effect_postcondition m ∈ c.(ActionContract.postconditions)) ∧
  (∀ al, al ∈ c.(ActionContract.predicted_effect).(PredictedEffect.allocations) →
     writes c (allocation_lock al)).
Proof. apply action_contract_covers. Qed.

(** ** Imported contracts *)

(** Serialization is faithful: equal texts come from equal values. *)
Definition serializes_faithfully {T} (to_string : T → result string unit) : Prop :=
  ∀ x y s, to_string x = Ok s → to_string y = Ok s → x = y.

Record json_faithful (j : Json) : Prop := {
  faithful_prerequisite : serializes_faithfully j.(json_prerequisite);
  faithful_output : serializes_faithfully j.(json_output);
  faithful_resource : serializes_faithfully j.(json_resource);
  faithful_fact : serializes_faithfully j.(json_fact);
  faithful_postcondition : serializes_faithfully j.(json_postcondition) }.

Lemma dedup_keyed_cons {T} a b (l : list (string * T)) :
  ∃ t, dedup_keyed (b :: l) = b :: t ∧
       dedup_keyed (a :: b :: l) = if decide (a.1 = b.1) then a :: t else a :: b :: t.
Proof.
  assert (∃ t, dedup_keyed (b :: l) = b :: t) as [t Ht].
  { cbn [dedup_keyed]. destruct l as [|c l]; [by eexists|].
    case_decide; [|by eexists]. destruct (dedup_keyed _); by eexists. }
  exists t. split; [done|]. transitivity (if decide (a.1 = b.1)
    then match dedup_keyed (b :: l) with [] => [a] | _ :: tail => a :: tail end
    else a :: dedup_keyed (b :: l)); [done|]. by rewrite Ht.
Qed.

Lemma dedup_keyed_elem {T} (l : list (string * T)) x :
  x ∈ dedup_keyed l → x ∈ l.
Proof.
  revert x. induction l as [|a [|b l] IH]; intros x; [done|done|].
  destruct (dedup_keyed_cons a b l) as (t & Ht & ->). rewrite Ht in IH.
  specialize (IH x). rewrite !elem_of_cons in *. case_decide; rewrite !elem_of_cons; naive_solver.
Qed.

(** Every key survives. *)
Lemma dedup_keyed_keys {T} (l : list (string * T)) k :
  k ∈ l.*1 → k ∈ (dedup_keyed l).*1.
Proof.
  induction l as [|a [|b l] IH]; [done|done|].
  destruct (dedup_keyed_cons a b l) as (t & Ht & ->). rewrite Ht in IH.
  revert IH. case_decide; csimpl; rewrite !elem_of_cons; naive_solver.
Qed.

Lemma try_map_elem {A B E} (f : A → result B E) l l' :
  try_map f l = Ok l' → ∀ y, y ∈ l' ↔ ∃ x, x ∈ l ∧ f x = Ok y.
Proof.
  revert l'. induction l as [|x l IH]; intros l'; simpl.
  { intros [= <-]. set_solver. }
  destruct (f x) as [b|] eqn:Hb; [|done]. destruct (try_map f l) as [bs|]; [|done].
  intros [= <-] y. rewrite elem_of_cons, (IH _ eq_refl). setoid_rewrite elem_of_cons. split.
  - intros [->|(z & ? & ?)]; eauto.
  - intros (z & [->|?] & ?); [left; congruence|eauto].
Qed.

Lemma try_map_keyed {T} (f : T → result string unit) l keyed :
  try_map (λ v, let? key := f v in Ok (key, v)) l = Ok keyed → keyed.*2 = l.
Proof.
  revert keyed. induction l as [|x l IH]; intros keyed; simpl; [by intros [= <-]|].
  destruct (f x); [|done]. destruct (try_map _ l) as [k|]; [|done]. intros [= <-].
  csimpl. f_equal. by apply IH.
Qed.

Lemma sort_values_perm {T} (f : T → result string unit) l l' :
  sort_contract_values f l false = Ok l' → l' ≡ₚ l.
Proof.
  unfold sort_contract_values. destruct (try_map _ l) as [keyed|] eqn:Hk; [|done].
  intros [= <-]. rewrite sort_by_perm. by rewrite (try_map_keyed _ _ _ Hk).
Qed.

(** Sorting and deduplicating keep the set of values. *)
Lemma sort_values_set {T} (f : T → result string unit) l l' x :
  serializes_faithfully f → sort_contract_values f l true = Ok l' → x ∈ l' ↔ x ∈ l.
Proof.
  intros Hinj. unfold sort_contract_values.
  destruct (try_map _ l) as [keyed|] eqn:Hk; [|done]. intros [= <-].
  pose proof (try_map_elem _ _ _ Hk) as Helem. pose proof (try_map_keyed _ _ _ Hk) as Hsnd.
  set (sorted := sort_by _ keyed).
  assert (∀ y, y ∈ sorted ↔ y ∈ keyed) as Hs by (intros y; unfold sorted; by rewrite sort_by_perm).
  split.
  - intros ([k v] & -> & Hin%dedup_keyed_elem%Hs)%list_elem_of_fmap. simpl.
    rewrite <-Hsnd. apply list_elem_of_fmap. by exists (k, v).
  - rewrite <-Hsnd. intros ([k v] & -> & Hin)%list_elem_of_fmap. simpl.
    assert (k ∈ (dedup_keyed sorted).*1) as Hkey.
    { apply dedup_keyed_keys, list_elem_of_fmap. exists (k, v). by rewrite Hs. }
    apply list_elem_of_fmap in Hkey as ([k' w] & ? & Hw). simplify_eq/=.
    apply list_elem_of_fmap. exists (k', w). split; [|done]. simpl.
    apply dedup_keyed_elem, Hs in Hw.
    apply Helem in Hin as (v0 & _ & Hv), Hw as (w0 & _ & Hw0).
    destruct (f v0) eqn:?, (f w0) eqn:?; simplify_eq. eauto.
Qed.

Lemma removal_run_app effects run tail :
  removal_run effects = (run, tail) → effects = run ++ tail.
Proof.
  revert run tail. induction effects as [|e l IH]; intros run tail; simpl; [by intros [= <- <-]|].
  destruct (is_edge_removal e); [|by intros [= <- <-]].
  destruct (removal_run l) as [r t]. intros [= <- <-]. simpl. f_equal. by apply IH.
Qed.

Lemma canonicalize_effects_perm f fuel effects effects' :
  canonicalize_effects f fuel effects = Ok effects' → effects' ≡ₚ effects.
Proof.
  revert effects effects'. induction fuel as [|fuel IH]; intros es es'; simpl; [by intros [= <-]|].
  destruct es as [|e rest]; [by intros [= <-]|]. destruct (is_edge_removal e) eqn:He.
  - destruct (removal_run (e :: rest)) as [run tail] eqn:Hr.
    destruct (sort_contract_values f run false) as [r|] eqn:Hs; [|done].
    destruct (canonicalize_effects f fuel tail) as [t|] eqn:Ht; [|done]. intros [= <-].
    rewrite (removal_run_app _ _ _ Hr), (IH _ _ Ht), (sort_values_perm _ _ _ Hs). done.
  - destruct (canonicalize_effects f fuel rest) as [t|] eqn:Ht; [|done]. intros [= <-].
    by rewrite (IH _ _ Ht).
Qed.

(** Two contracts that promise the same: equal sets of conditions, equal
    effects up to the order of the predicted graph changes. *)
Record same_promises c c' : Prop := {
  same_prerequisites p : p ∈ c.(ActionContract.prerequisites) ↔ p ∈ c'.(ActionContract.prerequisites);
  same_outputs o : o ∈ c.(ActionContract.provided_outputs) ↔ o ∈ c'.(ActionContract.provided_outputs);
  same_resources r :
    r ∈ c.(ActionContract.affected_resources) ↔ r ∈ c'.(ActionContract.affected_resources);
  same_facts f : f ∈ c.(ActionContract.invalidated_facts) ↔ f ∈ c'.(ActionContract.invalidated_facts);
  same_postconditions q : q ∈ c.(ActionContract.postconditions) ↔ q ∈ c'.(ActionContract.postconditions);
  same_graph : c.(ActionContract.predicted_effect).(PredictedEffect.graph) ≡ₚ
               c'.(ActionContract.predicted_effect).(PredictedEffect.graph);
  same_mounts : c.(ActionContract.predicted_effect).(PredictedEffect.mounts) =
                c'.(ActionContract.predicted_effect).(PredictedEffect.mounts);
  same_allocations : c.(ActionContract.predicted_effect).(PredictedEffect.allocations) =
                     c'.(ActionContract.predicted_effect).(PredictedEffect.allocations);
  same_restart : c.(ActionContract.restart_policy) = c'.(ActionContract.restart_policy) }.

#[global] Instance same_promises_equivalence : Equivalence same_promises.
Proof.
  split.
  - by split.
  - intros ?? []. by split.
  - intros ??? [] []. split; intros; (etrans; eauto).
Qed.

Lemma canonicalize_same j c c' :
  json_faithful j → canonicalize_contract j c = Ok c' → same_promises c' c.
Proof.
  intros [Hp Ho Ha Hf Hq]. destruct c as [p o a [g m al] f q r]. simpl.
  destruct (sort_contract_values _ p true) as [p'|] eqn:Ep; [|done].
  destruct (sort_contract_values _ o true) as [o'|] eqn:Eo; [|done].
  destruct (sort_contract_values _ a true) as [a'|] eqn:Ea; [|done].
  destruct (sort_contract_values _ f true) as [f'|] eqn:Ef; [|done].
  destruct (sort_contract_values _ q true) as [q'|] eqn:Eq; [|done].
  destruct (canonicalize_effects _ _ g) as [g'|] eqn:Eg; [|done]. intros [= <-].
  split; simpl; try done; eauto using sort_values_set, canonicalize_effects_perm.
Qed.

Lemma imported_contract_trusted jt ji action imported graph c :
  json_faithful jt → json_faithful ji →
  verify_imported_contract jt ji action imported graph = Ok c →
  c = describe_action action graph ∧ same_promises c imported.
Proof.
  intros Ht Hi. unfold verify_imported_contract. cbn zeta.
  destruct (_ || _) eqn:Hor; [|done]. intros [= <-]. split; [done|].
  apply orb_true_iff in Hor as [->%bool_decide_eq_true|Hcan]; [done|].
  destruct (canonicalize_contract jt _) as [t|] eqn:Et; [|done].
  destruct (canonicalize_contract ji _) as [i|] eqn:Ei; [|done].
  apply bool_decide_eq_true in Hcan as ->.
  etrans; [symmetry; exact (canonicalize_same _ _ _ Ht Et)|exact (canonicalize_same _ _ _ Hi Ei)].
Qed.

(** An accepted import yields the recalculated contract, and the imported one
    promised exactly the same: no prerequisite, lock or postcondition can be
    dropped, added or weakened by editing the plan.  The unedited contract is
    accepted whatever the serializer does. *)
Theorem verify_imported_contract_sound jt ji action imported graph :
  json_faithful jt → json_faithful ji →
  (∀ c, verify_imported_contract jt ji action imported graph = Ok c →
        c = describe_action action graph ∧ same_promises c imported) ∧
  verify_imported_contract jt ji action (describe_action action graph) graph =
    Ok (describe_action action graph).
Proof.
  intros Ht Hi. split; [intros c; by apply imported_contract_trusted|].
  unfold verify_imported_contract. cbn zeta. by rewrite bool_decide_eq_true_2.
Qed.
