(* ===== verification/Logical.v ===== *)
(** * Technology checks: [storage-provider/src/logical.rs] and [luks.rs]

    [validate_provider_action] runs the backend-independent checks of one
    action against the graph and returns its diagnostics; an empty list is
    acceptance. *)

From S2P Require Import Prelude Model Graph State Action Contract.

Implicit Types (graph : NodeGraph) (node : NodeId).

(** Every diagnostic of these checks is an error about the given subjects. *)
Definition error_diagnostic (code : string) (subjects : list DiagnosticSubject) (message : string)
    : Diagnostic :=
  Diagnostic.mk code DiagnosticSeverity.Error subjects message None None.

(** ** LUKS *)

Definition luks_action_diagnostic (code : string) node (message : string) : Diagnostic :=
  error_diagnostic code [DiagnosticSubject.Node node] message.

Definition validate_kind graph node (code message : string) (accepted : NodeKind → bool)
    : list Diagnostic :=
  match Graph.node graph node with
  | None => [luks_action_diagnostic "luks.action.missing_target" node
               "LUKS action target is absent from the graph"]
  | Some current =>
      if accepted current.(Node.kind).(NodeSpec.kind) then []
      else [luks_action_diagnostic code node message]
  end.

Definition validate_mapping graph (mapping : NodeId) (code : string) : list Diagnostic :=
  validate_kind graph mapping code "LUKS operation requires an open dm-crypt mapping"
    (λ kind, match kind with NodeKind.DmCryptMapping _ => true | _ => false end).

Definition is_format_target (kind : NodeKind) : bool :=
  match kind with
  | NodeKind.Disk | NodeKind.NvmeNamespace _ | NodeKind.Loop _ | NodeKind.DmMultipath
  | NodeKind.Partition _ _ _ _ | NodeKind.MdArray _ | NodeKind.LvmLv _ | NodeKind.ZfsVolume _ => true
  | _ => false
  end.

(** [str::trim().is_empty()]: every character of the UTF-8 text has the
    Unicode property White_Space. *)
Fixpoint is_blank_bytes (bytes : list N) : bool :=
  match bytes with
  | [] => true
  | (0x09 | 0x0A | 0x0B | 0x0C | 0x0D | 0x20)%N :: rest => is_blank_bytes rest
  | 0xC2%N :: (0x85 | 0xA0)%N :: rest => is_blank_bytes rest
  | 0xE1%N :: 0x9A%N :: 0x80%N :: rest => is_blank_bytes rest
  | 0xE2%N :: 0x80%N ::
      (0x80 | 0x81 | 0x82 | 0x83 | 0x84 | 0x85 | 0x86 | 0x87 | 0x88 | 0x89 | 0x8A
       | 0xA8 | 0xA9 | 0xAF)%N :: rest => is_blank_bytes rest
  | 0xE2%N :: 0x81%N :: 0x9F%N :: rest => is_blank_bytes rest
  | 0xE3%N :: 0x80%N :: 0x80%N :: rest => is_blank_bytes rest
  | _ => false
  end.

Definition is_blank (s : string) : bool :=
  is_blank_bytes (Ascii.N_of_ascii <$> String.list_ascii_of_string s).

Definition valid_mapping_name (mapping_name : string) : bool :=
  negb (is_blank mapping_name || bool_decide (mapping_name = "."%string)
        || bool_decide (mapping_name = ".."%string)
        || string_contains_byte 47 mapping_name || string_contains_byte 0 mapping_name).

Definition mapping_name_in_use graph (mapping_name : string) : bool :=
  existsb (λ '(_, n), match n.(Node.kind).(NodeSpec.kind) with
                      | NodeKind.DmCryptMapping name => bool_decide (name = mapping_name)
                      | _ => false
                      end) (map_to_list graph.(NodeGraph.nodes)).

(** [luks.rs]: [validate_action] *)
Definition validate_luks_action (action : LuksAction) graph : list Diagnostic :=
  let diagnostics :=
    match action with
    | LuksAction.Format target _ _ _ =>
        validate_kind graph target "luks.format.unsupported_target"
          "LUKS format requires a block-providing target" is_format_target
    | LuksAction.Open container _ mapping_name _ _ =>
        let diagnostics :=
          validate_kind graph container "luks.open.not_container"
            "LUKS open requires a LUKS container"
            (λ kind, match kind with NodeKind.LuksContainer _ => true | _ => false end) in
        let diagnostics :=
          if negb (valid_mapping_name mapping_name)
          then diagnostics ++ [luks_action_diagnostic "luks.open.invalid_mapping_name" container
                 "device-mapper name must not be blank, dot, dot-dot, or contain slash or NUL"]
          else diagnostics in
        if mapping_name_in_use graph mapping_name
        then diagnostics ++ [luks_action_diagnostic "luks.open.mapping_name_in_use" container
               "device-mapper name is already used by a known dm-crypt mapping"]
        else diagnostics
    | LuksAction.Close mapping => validate_mapping graph mapping "luks.close.not_mapping"
    | LuksAction.Resize mapping new_size =>
        let diagnostics := validate_mapping graph mapping "luks.resize.not_mapping" in
        if is_some_and (λ size, size =? 0)%N new_size
        then diagnostics ++ [luks_action_diagnostic "luks.resize.zero_size" mapping
               "LUKS mapping size must be greater than zero"]
        else diagnostics
    end in
  let credential :=
    match action with
    | LuksAction.Format target _ _ credential => Some (target, credential)
    | LuksAction.Open container _ _ credential _ => Some (container, credential)
    | LuksAction.Close _ | LuksAction.Resize _ _ => None
    end in
  match credential with
  | Some (node, credential) =>
      if is_nil credential
      then diagnostics ++ [luks_action_diagnostic "luks.action.invalid_credential" node
             "credential reference must identify an external credential store entry"]
      else diagnostics
  | None => diagnostics
  end.

(** ** Partitions *)

(** The known partitions of a table: number, offset and size. *)
Definition table_partition graph (table : NodeId) (d : Dependency)
    : option (positive * Bytes * option Bytes) :=
  if bool_decide (d.(Dependency.from_) = table) && is_contains d.(Dependency.kind) then
    match Graph.node graph d.(Dependency.to) with
    | Some n =>
        match n.(Node.kind).(NodeSpec.kind) with
        | NodeKind.Partition number offset _ _ => Some (number, offset, n.(Node.kind).(NodeSpec.size))
        | _ => None
        end
    | None => None
    end
  else None.

(** The loop over the table's edges: [None] is the early return on a repeated
    number, the flag records an overlap. *)
Fixpoint scan_partitions (number : positive) (offset end_ : Bytes)
    (occupied : list (positive * Bytes * option Bytes)) (overlaps : bool) : option bool :=
  match occupied with
  | [] => Some overlaps
  | (occupied_number, occupied_offset, occupied_size) :: rest =>
      if decide (number = occupied_number) then None
      else
        let overlaps :=
          match occupied_size with
          | Some occupied_size =>
              overlaps || is_none_or (λ occupied_end,
                            (offset <? occupied_end)%N && (occupied_offset <? end_)%N)
                            (u64_checked_add occupied_offset occupied_size)
          | None => overlaps
          end in
        scan_partitions number offset end_ rest overlaps
  end.

Definition validate_partition_create (action : PartitionAction) graph : list Diagnostic :=
  match action with
  | PartitionAction.Create table _ number offset size _ _ =>
      let reject code message := [error_diagnostic code [DiagnosticSubject.Node table] message] in
      match u64_checked_add offset size with
      | None => reject "partition.create.invalid_extent" "partition byte range overflows"
      | Some end_ =>
          if (size =? 0)%N ||
             is_some_and (λ capacity, capacity <? end_)%N (known_size graph table)
          then reject "partition.create.invalid_extent"
                 "partition must have nonzero size and fit within known table capacity"
          else
            match scan_partitions number offset end_
                    (omap (table_partition graph table) graph.(NodeGraph.dependencies)) false with
            | None => reject "partition.create.duplicate_number"
                        "partition number is already used in this table"
            | Some true => reject "partition.create.overlap"
                             "partition overlaps a known occupied or overflowing byte range"
            | Some false => []
            end
      end
  | _ => []
  end.

(** ** Mounts *)

Definition valid_mount_path (path : PathBuf) : bool :=
  is_absolute path
  && negb (existsb (λ component, bool_decide (component = Component.ParentDir)) path)
  && negb (path_contains_nul path).

(** The node kind a graph-backed source must name. *)
Definition source_compatible (source : MountSource) (kind : NodeKind) : bool :=
  match source, kind with
  | MountSource.Filesystem _, NodeKind.Filesystem _ _
  | MountSource.BtrfsSubvolume _, NodeKind.BtrfsSubvolume _ _ _
  | MountSource.ZfsDataset _, NodeKind.ZfsDataset _ => true
  | _, _ => false
  end.

(** The paths an action names, with the field each comes from. *)
Definition mount_paths (action : MountAction) : list (PathBuf * string) :=
  let '(target, context, source) :=
    match action with
    | MountAction.Mount source target _ context => (target, context, Some source)
    | MountAction.Persist entry =>
        (entry.(MountEntry.target), entry.(MountEntry.context), Some entry.(MountEntry.source))
    | MountAction.Unmount target context | MountAction.RemovePersistent target context =>
        (target, context, None)
    end in
  [(target, "mount.target"%string)] ++
  match context with
  | MountContext.TargetRoot root => [(root, "mount.context.target_root"%string)]
  | _ => []
  end ++
  match source with
  | Some (MountSource.Bind source) => [(source, "mount.source.bind"%string)]
  | _ => []
  end.

Definition validate_mount_action (action : MountAction) graph : list Diagnostic :=
  let diagnostics :=
    (λ '(path, field),
       error_diagnostic "mount.action.invalid_path"
         [DiagnosticSubject.Mount path; DiagnosticSubject.Field field]
         "mount paths must be absolute and contain neither '..' components nor NUL")
    <$> filter (λ p, valid_mount_path p.1 = false) (mount_paths action) in
  match action with
  | MountAction.Persist entry =>
      match mount_source_node entry.(MountEntry.source) with
      | Some node =>
          match Graph.node graph node with
          | Some value =>
              if source_compatible entry.(MountEntry.source) value.(Node.kind).(NodeSpec.kind)
              then diagnostics
              else diagnostics ++ [error_diagnostic "mount.action.incompatible_source"
                     [DiagnosticSubject.Node node]
                     "persistent mount source has an incompatible node kind"]
          | None => diagnostics
          end
      | None => diagnostics
      end
  | _ => diagnostics
  end.

(** ** LVM *)

Definition lvm_action_diagnostic node (code message : string) : Diagnostic :=
  error_diagnostic code [DiagnosticSubject.Node node] message.

Definition is_linear (layout : LvmLvKind) : bool :=
  match layout with LvmLvKind.Linear => true | _ => false end.

(** The checks shared by creation and resize: [subject] is blamed. *)
Definition validate_lvm_size graph (subject vg : NodeId) (size : Bytes) (linear : bool)
    : list Diagnostic :=
  if (size =? 0)%N
  then [lvm_action_diagnostic subject "lvm.action.zero_size" "LV capacity must be greater than zero"]
  else
    match kind_of graph vg with
    | Some (NodeKind.LvmVg _ (Some extent)) =>
        if (extent =? 0)%N
        then [lvm_action_diagnostic subject "lvm.action.invalid_extent_size"
                "VG extent size must be greater than zero"]
        else if linear && negb (size mod extent =? 0)%N
        then [lvm_action_diagnostic subject "lvm.action.unaligned_size"
                "requested linear LV capacity must be an exact multiple of the VG extent size"]
        else []
    | _ => []
    end.

Definition validate_lvm_action (action : LvmAction) graph : list Diagnostic :=
  let ownership lv :=
    [lvm_action_diagnostic lv "lvm.action.invalid_vg_ownership"
       "LV mutation requires exactly one owning volume group"] in
  match action with
  | LvmAction.CreateLv vg _ _ size layout => validate_lvm_size graph vg vg size (is_linear layout)
  | LvmAction.ResizeLv lv new_size =>
      match lvm_volume_group graph lv with
      | None => ownership lv
      | Some vg =>
          let linear := match kind_of graph lv with
                        | Some (NodeKind.LvmLv value) => is_linear value.(LvmLv.kind)
                        | _ => false
                        end in
          validate_lvm_size graph lv vg new_size linear
      end
  | LvmAction.RemoveLv lv =>
      match lvm_volume_group graph lv with Some _ => [] | None => ownership lv end
  | LvmAction.CreatePv _ _ | LvmAction.CreateVg _ _ _ | LvmAction.SetActivation _ _ => []
  end.

(** ** Dispatch *)

Definition validate_filesystem_resize (filesystem : NodeId) (new_size : Bytes) graph
    : list Diagnostic :=
  let reject code message :=
    [error_diagnostic code [DiagnosticSubject.Node filesystem] message] in
  if (new_size =? 0)%N
  then reject "filesystem.resize.zero_size" "filesystem capacity must be greater than zero"
  else if negb (is_ext_filesystem graph filesystem)
  then reject "filesystem.resize.unsupported"
         "filesystem resize currently supports only the ext2/ext3/ext4 recipe"
  else if (1 <? length (filter (λ d, d.(Dependency.to) = filesystem ∧
                                     d.(Dependency.kind) = DependencyKind.Backs)
                          graph.(NodeGraph.dependencies)))%nat
  then reject "filesystem.resize.ambiguous_backing"
         "ext resize requires at most one direct backing node"
  else [].

Definition validate_provider_action (action : ProviderAction) graph : list Diagnostic :=
  match action with
  | ProviderAction.Luks action => validate_luks_action action graph
  | ProviderAction.Lvm action => validate_lvm_action action graph
  | ProviderAction.Mount action => validate_mount_action action graph
  | ProviderAction.Filesystem (FilesystemAction.Resize filesystem new_size) =>
      validate_filesystem_resize filesystem new_size graph
  | ProviderAction.Partition (PartitionAction.Resize partition _)
  | ProviderAction.Partition (PartitionAction.Delete partition)
  | ProviderAction.Partition (PartitionAction.SetAttributes partition _) =>
      match partition_table graph partition with
      | Some _ => []
      | None => [error_diagnostic "partition.action.invalid_table_ownership"
                   [DiagnosticSubject.Node partition]
                   "partition mutation requires exactly one containing partition table"]
      end
  | ProviderAction.Partition action => validate_partition_create action graph
  | ProviderAction.Filesystem _ | ProviderAction.Btrfs _ => []
  end.

(** ** What acceptance means *)

(** Half-open byte ranges that share no byte. *)
Definition disjoint_ranges (s1 e1 s2 e2 : N) : Prop := (e1 <= s2)%N ∨ (e2 <= s1)%N.

(** The new extent of a table: inside it, with an unused number, and apart
    from every partition of known size. *)
Record extent_free graph (table : NodeId) (number : positive) (offset size : Bytes) : Prop := {
  ef_bounded : (offset + size <= u64_MAX)%N;
  ef_nonempty : size ≠ 0%N;
  ef_capacity capacity : known_size graph table = Some capacity → (offset + size <= capacity)%N;
  ef_number d k o s : d ∈ graph.(NodeGraph.dependencies) →
    table_partition graph table d = Some (k, o, s) → k ≠ number;
  ef_disjoint d k o s : d ∈ graph.(NodeGraph.dependencies) →
    table_partition graph table d = Some (k, o, Some s) →
    (o + s <= u64_MAX)%N ∧ disjoint_ranges offset (offset + size) o (o + s) }.

Lemma scan_partitions_spec number offset end_ occupied overlaps :
  scan_partitions number offset end_ occupied overlaps = Some false ↔
  overlaps = false ∧
  (∀ k o s, (k, o, s) ∈ occupied → k ≠ number) ∧
  (∀ k o s, (k, o, Some s) ∈ occupied →
     (o + s <= u64_MAX)%N ∧ disjoint_ranges offset end_ o (o + s)).
Proof.
  revert overlaps. induction occupied as [|[[k o] s] l IH]; intros ov; simpl.
  { split; [intros [= ->]|by intros (-> & _)]. split_and!; set_solver. }
  case_decide as Hk.
  { split; [done|]. intros (_ & Hn & _). destruct (Hn k o s); [left|done]. }
  rewrite IH. setoid_rewrite elem_of_cons. unfold disjoint_ranges.
  assert ((match s with
    | Some sz => ov || is_none_or (λ e, (offset <? e)%N && (o <? end_)%N) (u64_checked_add o sz)
    | None => ov end) = false ↔
    ov = false ∧ ∀ sz, s = Some sz → (o + sz <= u64_MAX)%N ∧ ((end_ <= o)%N ∨ (o + sz <= offset)%N)) as ->.
  { destruct s as [sz|]; [|naive_solver]. rewrite orb_false_iff. unfold u64_checked_add.
    destruct (o + sz <=? u64_MAX)%N eqn:Hs; simpl.
    - apply N.leb_le in Hs. rewrite andb_false_iff, !N.ltb_ge. naive_solver.
    - apply N.leb_gt in Hs. split; [by intros []|]. intros [_ Hz]. destruct (Hz sz eq_refl). lia. }
  split.
  - intros ((-> & Hs) & Hn & Hd). split_and!; [done| |].
    + intros k' o' s' [[= -> -> ->]|?]; [done|eauto].
    + intros k' o' s' [[= -> -> <-]|?]; [destruct (Hs s'); auto|eauto].
  - intros (-> & Hn & Hd). split_and!; [done| |eauto..].
    intros sz ->. destruct (Hd k o sz); auto.
Qed.

(** A partition creation is accepted exactly when its extent is free. *)
Theorem validate_partition_create_spec table id number offset size role attributes graph :
  validate_provider_action
    (ProviderAction.Partition (PartitionAction.Create table id number offset size role attributes))
    graph = [] ↔ extent_free graph table number offset size.
Proof.
  simpl. unfold u64_checked_add at 1. destruct (offset + size <=? u64_MAX)%N eqn:Hb.
  2: { apply N.leb_gt in Hb. split; [done|]. intros [Hle _ _ _ _]. lia. }
  apply N.leb_le in Hb. destruct (_ || _) eqn:Hor.
  { split; [done|]. intros [_ Hne Hcap _ _].
    apply orb_true_iff in Hor as [?%N.eqb_eq|Hc]; [done|].
    destruct (known_size graph table) as [cap|]; [|done]. simpl in Hc. apply N.ltb_lt in Hc.
    specialize (Hcap _ eq_refl). lia. }
  apply orb_false_iff in Hor as [Hne Hcap]. apply N.eqb_neq in Hne.
  pose proof (scan_partitions_spec number offset (offset + size)
    (omap (table_partition graph table) graph.(NodeGraph.dependencies)) false) as Hscan.
  setoid_rewrite list_elem_of_omap in Hscan.
  trans (scan_partitions number offset (offset + size)
    (omap (table_partition graph table) graph.(NodeGraph.dependencies)) false = Some false).
  { destruct (scan_partitions _ _ _ _ _) as [[]|]; split; done. }
  rewrite Hscan. split.
  - intros (_ & Hn & Hd). split; [done..| | |].
    + intros cap Hc. rewrite Hc in Hcap. simpl in Hcap. by apply N.ltb_ge in Hcap.
    + eauto.
    + eauto.
  - intros [_ _ _ Hn Hd]. split_and!; [done|naive_solver..].
Qed.

(** A logical volume whose size passed the checks has an exact allocation:
    the extents reserved for it hold the requested bytes and no more. *)
Theorem validated_linear_allocation vg id name size graph vg_name extent :
  kind_of graph vg = Some (NodeKind.LvmVg vg_name (Some extent)) →
  validate_provider_action
    (ProviderAction.Lvm (LvmAction.CreateLv vg id name size LvmLvKind.Linear)) graph = [] →
  ∃ units, lvm_allocation graph vg size LvmLvKind.Linear = Some units ∧
           (units * extent = size)%N ∧ (0 < units)%N.
Proof.
  intros Hk. simpl. unfold validate_lvm_size, lvm_allocation. rewrite Hk. simpl.
  destruct (size =? 0)%N eqn:Hs; [done|]. destruct (extent =? 0)%N eqn:He; [done|].
  destruct (size mod extent =? 0)%N eqn:Hm; [|done]. intros _.
  apply N.eqb_neq in Hs, He. apply N.eqb_eq in Hm.
  rewrite (proj2 (N.ltb_lt 0 extent)) by lia. simpl. eexists; split; [done|].
  pose proof (N.div_mod size extent He) as Hdm. rewrite Hm, N.add_0_r in Hdm.
  split; [by rewrite N.mul_comm|]. apply N.neq_0_lt_0. intros Hz. rewrite Hz in Hdm. lia.
Qed.

(** Accepted mount actions name absolute paths without parent components or
    NUL bytes, in the target, the target root and a bind source. *)
Theorem validated_mount_paths action graph :
  validate_provider_action (ProviderAction.Mount action) graph = [] →
  ∀ path field, (path, field) ∈ mount_paths action →
  is_absolute path = true ∧ Component.ParentDir ∉ path ∧ path_contains_nul path = false.
Proof.
  intros Hv path field Hin.
  assert (filter (λ p, valid_mount_path p.1 = false) (mount_paths action) = []) as Hf.
  { simpl in Hv. unfold validate_mount_action in Hv. cbn zeta in Hv.
    destruct (filter _ _) as [|[p f] l]; [done|]. exfalso. csimpl in Hv.
    repeat case_match; done. }
  assert (valid_mount_path path = true) as Hok.
  { destruct (valid_mount_path path) eqn:Hp; [done|]. exfalso.
    assert ((path, field) ∈ filter (λ p, valid_mount_path p.1 = false) (mount_paths action)) as Hi
      by (by rewrite list_elem_of_filter). rewrite Hf in Hi. by apply elem_of_nil in Hi. }
  unfold valid_mount_path in Hok. apply andb_true_iff in Hok as [[Ha Hp]%andb_true_iff Hn].
  split_and!; [done| |by apply negb_true_iff].
  intros Hd. apply negb_true_iff in Hp. apply not_true_iff_false in Hp. apply Hp, existsb_exists.
  exists Component.ParentDir. split; [by apply list_elem_of_In|by apply bool_decide_eq_true].
Qed.
