(* ===== verification/Evidence.v ===== *)
(** * Simulation evidence: [storage-engine/src/simulation_evidence.rs]

    The ledger kept beside a simulated configuration: runtime guarantees,
    allocation accounting, clean-check guarantees and the baseline facts that
    planned effects made stale.  The two graph walks that revoke guarantees
    are instances of [Reach.traverse]. *)

From stdpp Require Import relations.
From S2P Require Import Prelude Model Reach Graph GraphOrder State Action.

(** ** Data *)

Module SimulationEvidence.
Record SimulationEvidence := mk {
  projected_persistent_targets : list (PathBuf * MountContext);
  activations : gmap NodeId bool;
  block_interfaces : gmap NodeId BlockInterfaceAccess;
  available_capacity : gmap AllocationDomain AllocationQuantity;
  projected_allocations : gset AllocationDomain;
  projected_graph_nodes : list NodeId;
  checked_filesystems : gset NodeId;
  projected_runtime_mounts : bool;
  invalidated_facts : list FactInvalidation }.
#[global] Instance SimulationEvidence_eq_dec : EqDecision SimulationEvidence.
Proof. solve_decision. Defined.
Definition default : SimulationEvidence := mk [] ∅ ∅ ∅ ∅ [] ∅ false [].
End SimulationEvidence.
Abbreviation SimulationEvidence := SimulationEvidence.SimulationEvidence.

Module CheckEvidence.
Inductive CheckEvidence := ObservedSnapshot | PredictedEffect.
#[global] Instance CheckEvidence_eq_dec : EqDecision CheckEvidence.
Proof. solve_decision. Defined.
End CheckEvidence.
Abbreviation CheckEvidence := CheckEvidence.CheckEvidence.

Module CheckStatus.
Inductive CheckStatus :=
| Satisfied (e : CheckEvidence)
| Violated (reason : string)
| Unknown (required_evidence : string).
#[global] Instance CheckStatus_eq_dec : EqDecision CheckStatus.
Proof. solve_decision. Defined.
End CheckStatus.
Abbreviation CheckStatus := CheckStatus.CheckStatus.

Module PrerequisiteCheck.
Record PrerequisiteCheck := mk { prerequisite : ActionPrerequisite; status : CheckStatus }.
#[global] Instance PrerequisiteCheck_eq_dec : EqDecision PrerequisiteCheck.
Proof. solve_decision. Defined.
End PrerequisiteCheck.
Abbreviation PrerequisiteCheck := PrerequisiteCheck.PrerequisiteCheck.

Module CapacityEvidence.
Record CapacityEvidence := mk { domain : AllocationDomain; available : AllocationQuantity }.
#[global] Instance CapacityEvidence_eq_dec : EqDecision CapacityEvidence.
Proof. solve_decision. Defined.
End CapacityEvidence.
Abbreviation CapacityEvidence := CapacityEvidence.CapacityEvidence.

Module CapacityEvidenceError.
Inductive CapacityEvidenceError := DuplicateDomain (d : AllocationDomain).
#[global] Instance CapacityEvidenceError_eq_dec : EqDecision CapacityEvidenceError.
Proof. solve_decision. Defined.
End CapacityEvidenceError.
Abbreviation CapacityEvidenceError := CapacityEvidenceError.CapacityEvidenceError.

Module SimulatedAction.
Record SimulatedAction := mk {
  contract : ActionContract;
  checks : list PrerequisiteCheck;
  invalidated_facts : list FactInvalidation }.
#[global] Instance SimulatedAction_eq_dec : EqDecision SimulatedAction.
Proof. solve_decision. Defined.
End SimulatedAction.
Abbreviation SimulatedAction := SimulatedAction.SimulatedAction.

Module EffectApplicationError.
Inductive EffectApplicationError :=
| Structure (e : GraphError)
| DuplicateNode (id : NodeId)
| MissingNode (id : NodeId)
| WrongNodeKind (node : NodeId) (effect : string)
| MissingDependency
| MissingRelation
| OccupiedMountTarget (p : PathBuf)
| MountedDescendant (p : PathBuf)
| InsufficientCapacity (d : AllocationDomain)
| CapacityOverflow (d : AllocationDomain).
#[global] Instance EffectApplicationError_eq_dec : EqDecision EffectApplicationError.
Proof. solve_decision. Defined.
End EffectApplicationError.
Abbreviation EffectApplicationError := EffectApplicationError.EffectApplicationError.

Module ActionSimulationError.
Inductive ActionSimulationError :=
| Validation (diagnostics : list Diagnostic)
| PrerequisitesViolated (checks : list PrerequisiteCheck)
| Effect (e : EffectApplicationError).
#[global] Instance ActionSimulationError_eq_dec : EqDecision ActionSimulationError.
Proof. solve_decision. Defined.
End ActionSimulationError.
Abbreviation ActionSimulationError := ActionSimulationError.ActionSimulationError.

Module SimulationEvidenceSummary.
Record SimulationEvidenceSummary := mk {
  invalidated_facts : list FactInvalidation;
  determined_persistent_targets : list (PathBuf * MountContext) }.
#[global] Instance SimulationEvidenceSummary_eq_dec : EqDecision SimulationEvidenceSummary.
Proof. solve_decision. Defined.
End SimulationEvidenceSummary.
Abbreviation SimulationEvidenceSummary := SimulationEvidenceSummary.SimulationEvidenceSummary.

Implicit Types (ev : SimulationEvidence).

(** Field updates. *)
Definition set_persistent_targets x ev : SimulationEvidence :=
  let '(SimulationEvidence.mk _ a b c d e f g h) := ev in SimulationEvidence.mk x a b c d e f g h.
Definition set_activations x ev : SimulationEvidence :=
  let '(SimulationEvidence.mk p _ b c d e f g h) := ev in SimulationEvidence.mk p x b c d e f g h.
Definition set_block_interfaces x ev : SimulationEvidence :=
  let '(SimulationEvidence.mk p a _ c d e f g h) := ev in SimulationEvidence.mk p a x c d e f g h.
Definition set_capacity x ev : SimulationEvidence :=
  let '(SimulationEvidence.mk p a b _ d e f g h) := ev in SimulationEvidence.mk p a b x d e f g h.
Definition set_projected_allocations x ev : SimulationEvidence :=
  let '(SimulationEvidence.mk p a b c _ e f g h) := ev in SimulationEvidence.mk p a b c x e f g h.
Definition set_projected_nodes x ev : SimulationEvidence :=
  let '(SimulationEvidence.mk p a b c d _ f g h) := ev in SimulationEvidence.mk p a b c d x f g h.
Definition set_checked x ev : SimulationEvidence :=
  let '(SimulationEvidence.mk p a b c d e _ g h) := ev in SimulationEvidence.mk p a b c d e x g h.
Definition set_projected_runtime x ev : SimulationEvidence :=
  let '(SimulationEvidence.mk p a b c d e f _ h) := ev in SimulationEvidence.mk p a b c d e f x h.
Definition set_invalidated x ev : SimulationEvidence :=
  let '(SimulationEvidence.mk p a b c d e f g _) := ev in SimulationEvidence.mk p a b c d e f g x.

(** ** Operations *)

(** [SimulationEvidence::new] *)
Definition evidence_new (capacity : list CapacityEvidence)
    : result SimulationEvidence CapacityEvidenceError :=
  try_fold (λ ev item,
    match ev.(SimulationEvidence.available_capacity) !! item.(CapacityEvidence.domain) with
    | Some _ => Err (CapacityEvidenceError.DuplicateDomain item.(CapacityEvidence.domain))
    | None => Ok (set_capacity (<[item.(CapacityEvidence.domain) := item.(CapacityEvidence.available)]>
                     ev.(SimulationEvidence.available_capacity)) ev)
    end) SimulationEvidence.default capacity.

(** [From<&SimulationEvidence> for SimulationEvidenceSummary] *)
Definition evidence_summary ev : SimulationEvidenceSummary :=
  SimulationEvidenceSummary.mk ev.(SimulationEvidence.invalidated_facts)
    ev.(SimulationEvidence.projected_persistent_targets).

Definition is_observation_stale ev (scope : FactScope) (kind : FactKind) : bool :=
  existsb (λ i, bool_decide (i.(FactInvalidation.scope) = scope) &&
                bool_decide (i.(FactInvalidation.kind) = kind))
    ev.(SimulationEvidence.invalidated_facts).

Definition persistent_mount_was_projected ev (target : PathBuf) (context : MountContext) : bool :=
  existsb (λ candidate, bool_decide (candidate.1 = target) && bool_decide (candidate.2 = context))
    ev.(SimulationEvidence.projected_persistent_targets).

Definition mark_persistent_target (target : PathBuf) (context : MountContext) ev
    : SimulationEvidence :=
  if persistent_mount_was_projected ev target context then ev
  else set_persistent_targets
         (ev.(SimulationEvidence.projected_persistent_targets) ++ [(target, context)]) ev.

Definition apply_output ev (output : ActionOutput) : SimulationEvidence :=
  match output with
  | ActionOutput.BlockInterface node access =>
      set_block_interfaces (<[node := access]> ev.(SimulationEvidence.block_interfaces)) ev
  | ActionOutput.FilesystemCheckPassed filesystem =>
      set_checked ({[filesystem]} ∪ ev.(SimulationEvidence.checked_filesystems)) ev
  | _ => ev
  end.

Definition apply_outputs ev (outputs : list ActionOutput) : SimulationEvidence :=
  foldl apply_output ev outputs.

(** The children of a node in the order they are pushed. *)
Definition activation_children (graph : NodeGraph) (node : NodeId) : list NodeId :=
  sort_by N.leb
    (Dependency.to <$> filter (λ d, d.(Dependency.from_) = node) graph.(NodeGraph.dependencies)).

Definition activation_fact (node : NodeId) : FactInvalidation :=
  FactInvalidation.mk (FactScope.Node node) FactKind.Activation.

(** The nodes the walk from one activation change visits; each edge is pushed
    at most once, so two more than their number is enough fuel. *)
Definition activation_closure (graph : NodeGraph) (node : NodeId) : list NodeId :=
  traverse (activation_children graph) (S (S (length graph.(NodeGraph.dependencies)))) [] [node].

Definition expand_invalidation (graph : NodeGraph) (expanded : list FactInvalidation)
    (invalidation : FactInvalidation) : list FactInvalidation :=
  match invalidation with
  | FactInvalidation.mk (FactScope.Node node) FactKind.Activation =>
      foldl (λ expanded n, push_new (activation_fact n) expanded) expanded
        (activation_closure graph node)
  | _ => expanded
  end.

Definition revoke_fact ev (invalidation : FactInvalidation) : SimulationEvidence :=
  let ev := set_invalidated (push_new invalidation ev.(SimulationEvidence.invalidated_facts)) ev in
  match invalidation with
  | FactInvalidation.mk (FactScope.Node node) (FactKind.Activation | FactKind.Presence) =>
      set_activations (delete node ev.(SimulationEvidence.activations))
        (set_block_interfaces (delete node ev.(SimulationEvidence.block_interfaces)) ev)
  | _ => ev
  end.

Definition invalidate_observations (desired : DesiredState) ev
    (invalidations : list FactInvalidation) : SimulationEvidence * list FactInvalidation :=
  let expanded :=
    foldl (expand_invalidation desired.(DesiredState.graph)) invalidations invalidations in
  (foldl revoke_fact ev expanded, expanded).

(** The node whose clean check an invalidation revokes. *)
Definition check_root (invalidation : FactInvalidation) : option NodeId :=
  match invalidation with
  | FactInvalidation.mk (FactScope.Node node)
      (FactKind.Content | FactKind.Geometry | FactKind.Presence) => Some node
  | _ => None
  end.

Definition is_backing (k : DependencyKind) : bool :=
  match k with DependencyKind.Backs | DependencyKind.Contains _ => true | _ => false end.

Definition backing_children (graph : NodeGraph) (node : NodeId) : list NodeId :=
  Dependency.to <$> filter (λ d, d.(Dependency.from_) = node ∧ is_backing d.(Dependency.kind) = true)
                      graph.(NodeGraph.dependencies).

(** [affected] is popped from its end. *)
Definition check_closure (graph : NodeGraph) (affected : list NodeId) : list NodeId :=
  traverse (backing_children graph)
    (S (length affected + length graph.(NodeGraph.dependencies))) [] (reverse affected).

Definition invalidate_filesystem_checks (desired : DesiredState) ev
    (invalidations : list FactInvalidation) : SimulationEvidence :=
  set_checked
    (foldl (λ checked node, checked ∖ {[node]}) ev.(SimulationEvidence.checked_filesystems)
       (check_closure desired.(DesiredState.graph) (omap check_root invalidations))) ev.

Definition apply_allocation_effect ev (effect : AllocationEffect)
    : result SimulationEvidence EffectApplicationError :=
  match effect with
  | AllocationEffect.Invalidate domain =>
      Ok (set_projected_allocations ({[domain]} ∪ ev.(SimulationEvidence.projected_allocations))
            (set_capacity (delete domain ev.(SimulationEvidence.available_capacity)) ev))
  | AllocationEffect.Reserve domain amount =>
      match ev.(SimulationEvidence.available_capacity) !! domain with
      | None => Ok ev
      | Some available =>
          let? remaining := ok_or (u64_checked_sub available amount)
                              (EffectApplicationError.InsufficientCapacity domain) in
          Ok (set_projected_allocations ({[domain]} ∪ ev.(SimulationEvidence.projected_allocations))
                (set_capacity (<[domain := remaining]> ev.(SimulationEvidence.available_capacity)) ev))
      end
  | AllocationEffect.Release domain amount =>
      match ev.(SimulationEvidence.available_capacity) !! domain with
      | None => Ok ev
      | Some available =>
          let? total := ok_or (u64_checked_add available amount)
                          (EffectApplicationError.CapacityOverflow domain) in
          Ok (set_projected_allocations ({[domain]} ∪ ev.(SimulationEvidence.projected_allocations))
                (set_capacity (<[domain := total]> ev.(SimulationEvidence.available_capacity)) ev))
      end
  end.

Definition apply_allocation_effects ev (effects : list AllocationEffect)
    : result SimulationEvidence EffectApplicationError :=
  try_fold apply_allocation_effect ev effects.

(** ** Activation changes reach every dependent *)

Lemma succs_edges_eq (graph : NodeGraph) node :
  succs (edges graph) node =
  Dependency.to <$> filter (λ d, d.(Dependency.from_) = node) graph.(NodeGraph.dependencies).
Proof.
  unfold succs, edges. induction graph.(NodeGraph.dependencies) as [|d l IH]; [done|].
  csimpl. rewrite !filter_cons. cbn [fst]. case_decide; csimpl; by rewrite IH.
Qed.

Lemma activation_closure_spec graph node y :
  y ∈ activation_closure graph node ↔ rtc (edge (edges graph)) node y.
Proof.
  unfold activation_closure. rewrite traverse_reachable with (E := edges graph).
  - split; [by intros (x & ->%list_elem_of_singleton & ?)|]. intros ?. exists node. by split; [left|].
  - intros x. unfold activation_children. by rewrite sort_by_perm, succs_edges_eq.
  - unfold edges. rewrite length_fmap. simpl. lia.
Qed.

Lemma elem_of_push_new {A} `{EqDecision A} (x y : A) l : x ∈ push_new y l ↔ x = y ∨ x ∈ l.
Proof.
  unfold push_new. destruct (contains y l) eqn:Hc.
  - apply contains_true in Hc. split; [auto|]. intros [->|?]; done.
  - rewrite elem_of_app, list_elem_of_singleton. tauto.
Qed.

Lemma elem_of_foldl_push {A B} `{EqDecision B} (f : A → B) l acc x :
  x ∈ foldl (λ acc a, push_new (f a) acc) acc l ↔ x ∈ acc ∨ ∃ a, a ∈ l ∧ x = f a.
Proof.
  revert acc. induction l as [|a l IH]; intros acc; simpl; [set_solver|].
  rewrite IH, elem_of_push_new. setoid_rewrite elem_of_cons. naive_solver.
Qed.

Lemma expand_invalidation_spec graph expanded i f :
  f ∈ expand_invalidation graph expanded i ↔
  f ∈ expanded ∨
  ∃ n y, i = activation_fact n ∧ rtc (edge (edges graph)) n y ∧ f = activation_fact y.
Proof.
  destruct i as [[n| |] k]; [destruct k|..]; unfold expand_invalidation; try (by naive_solver).
  rewrite elem_of_foldl_push. setoid_rewrite activation_closure_spec. unfold activation_fact.
  naive_solver.
Qed.

(** What [invalidate_observations] declares stale: the given facts, and the
    activation of everything that depends on a node whose activation changes. *)
Lemma expanded_spec desired ev invalidations f :
  f ∈ (invalidate_observations desired ev invalidations).2 ↔
  f ∈ invalidations ∨
  ∃ n y, activation_fact n ∈ invalidations ∧
         rtc (edge (edges desired.(DesiredState.graph))) n y ∧ f = activation_fact y.
Proof.
  simpl. generalize invalidations at 1 3 as acc.
  induction invalidations as [|i l IH]; intros acc; simpl; [set_solver|].
  rewrite IH, expand_invalidation_spec. setoid_rewrite elem_of_cons. naive_solver.
Qed.

(** The node that loses its runtime guarantees. *)
Definition revoked_node (i : FactInvalidation) : option NodeId :=
  match i with
  | FactInvalidation.mk (FactScope.Node node) (FactKind.Activation | FactKind.Presence) => Some node
  | _ => None
  end.

Lemma revoked_node_spec i n :
  revoked_node i = Some n ↔
  i = activation_fact n ∨ i = FactInvalidation.mk (FactScope.Node n) FactKind.Presence.
Proof.
  split; [|by intros [->| ->]].
  destruct i as [[m| |] []]; intros [= ->]; auto.
Qed.

Lemma revoke_fact_lookup ev i n :
  (revoke_fact ev i).(SimulationEvidence.block_interfaces) !! n =
    (if decide (revoked_node i = Some n) then None
     else ev.(SimulationEvidence.block_interfaces) !! n) ∧
  (revoke_fact ev i).(SimulationEvidence.activations) !! n =
    (if decide (revoked_node i = Some n) then None
     else ev.(SimulationEvidence.activations) !! n).
Proof.
  destruct ev, i as [[m| |] []]; simpl; try done;
    (destruct (decide (m = n)) as [->|Hne];
     [rewrite !lookup_delete_eq, !decide_True by done
     |rewrite !lookup_delete_ne, !decide_False by congruence]); done.
Qed.

Lemma revoke_facts_lookup ev l n :
  let ev' := foldl revoke_fact ev l in
  ((∃ i, i ∈ l ∧ revoked_node i = Some n) →
     ev'.(SimulationEvidence.block_interfaces) !! n = None ∧
     ev'.(SimulationEvidence.activations) !! n = None) ∧
  ((∀ i, i ∈ l → revoked_node i ≠ Some n) →
     ev'.(SimulationEvidence.block_interfaces) !! n = ev.(SimulationEvidence.block_interfaces) !! n ∧
     ev'.(SimulationEvidence.activations) !! n = ev.(SimulationEvidence.activations) !! n).
Proof.
  induction l as [|i l [IHr IHk]] using rev_ind; simpl; [set_solver|].
  rewrite foldl_snoc. destruct (revoke_fact_lookup (foldl revoke_fact ev l) i n) as [-> ->].
  setoid_rewrite elem_of_app. setoid_rewrite list_elem_of_singleton. split.
  - intros (j & [Hj| ->] & Hr); [|by rewrite !decide_True].
    destruct IHr as [-> ->]; [eauto|]. by case_decide.
  - intros Hn. rewrite !decide_False by (apply Hn; by right). apply IHk. auto.
Qed.

(** After an activation or presence change no dependent node keeps a runtime
    guarantee, and no other node loses one. *)
Theorem invalidate_observations_revokes desired ev invalidations n :
  let ev' := (invalidate_observations desired ev invalidations).1 in
  let revoked :=
    (∃ m, activation_fact m ∈ invalidations ∧
          rtc (edge (edges desired.(DesiredState.graph))) m n) ∨
    FactInvalidation.mk (FactScope.Node n) FactKind.Presence ∈ invalidations in
  (revoked → ev'.(SimulationEvidence.block_interfaces) !! n = None ∧
             ev'.(SimulationEvidence.activations) !! n = None) ∧
  (¬ revoked →
     ev'.(SimulationEvidence.block_interfaces) !! n = ev.(SimulationEvidence.block_interfaces) !! n ∧
     ev'.(SimulationEvidence.activations) !! n = ev.(SimulationEvidence.activations) !! n).
Proof.
  cbn zeta. destruct (revoke_facts_lookup ev (invalidate_observations desired ev invalidations).2 n)
    as [Hr Hk]. split.
  - intros Hrev. apply Hr. destruct Hrev as [(m & Hm & Hp)|Hp].
    + exists (activation_fact n). split; [|done]. apply expanded_spec. right. eauto.
    + eexists. split; [apply expanded_spec; by left|done].
  - intros Hn. apply Hk. intros i Hi Hri. apply Hn. apply expanded_spec in Hi.
    apply revoked_node_spec in Hri.
    destruct Hi as [Hi|(a & y & Ha & Hp & ->)], Hri as [Heq|Heq]; simplify_eq.
    + left. exists n. by split; [|apply rtc_refl].
    + by right.
    + left. eauto.
Qed.

(** ** Clean checks *)

Definition backing_edges (graph : NodeGraph) : list (NodeId * NodeId) :=
  (λ d, (d.(Dependency.from_), d.(Dependency.to))) <$>
    filter (λ d, is_backing d.(Dependency.kind) = true) graph.(NodeGraph.dependencies).

Lemma backing_children_succs graph node :
  backing_children graph node = succs (backing_edges graph) node.
Proof.
  unfold backing_children, succs, backing_edges.
  induction graph.(NodeGraph.dependencies) as [|d l IH]; [done|]. rewrite !filter_cons.
  destruct (decide (is_backing d.(Dependency.kind) = true)); csimpl; rewrite ?filter_cons; csimpl;
    repeat case_decide; csimpl; rewrite ?IH; naive_solver.
Qed.

Lemma elem_of_foldl_difference (l : list NodeId) (s : gset NodeId) x :
  x ∈ foldl (λ s n, s ∖ {[n]}) s l ↔ x ∈ s ∧ x ∉ l.
Proof. revert s. induction l as [|n l IH]; intros s; simpl; [|rewrite IH]; set_solver. Qed.

(** A clean check survives exactly when nothing below the filesystem, along
    backing and containing edges, changed content, geometry or presence. *)
Theorem invalidate_filesystem_checks_spec desired ev invalidations x :
  x ∈ (invalidate_filesystem_checks desired ev invalidations).(SimulationEvidence.checked_filesystems) ↔
  x ∈ ev.(SimulationEvidence.checked_filesystems) ∧
  ¬ ∃ i n, i ∈ invalidations ∧ check_root i = Some n ∧
           rtc (edge (backing_edges desired.(DesiredState.graph))) n x.
Proof.
  unfold invalidate_filesystem_checks. destruct ev. cbn [set_checked SimulationEvidence.checked_filesystems].
  rewrite elem_of_foldl_difference. unfold check_closure.
  rewrite traverse_reachable with (E := backing_edges desired.(DesiredState.graph)).
  - setoid_rewrite elem_of_reverse. setoid_rewrite list_elem_of_omap. naive_solver.
  - intros y. by rewrite backing_children_succs.
  - rewrite length_reverse. unfold backing_edges. rewrite length_fmap.
    pose proof (length_filter (λ d, is_backing d.(Dependency.kind) = true)
      desired.(DesiredState.graph).(NodeGraph.dependencies)). lia.
Qed.

(** ** Allocation accounting *)

Definition reserved_in (d : AllocationDomain) (e : AllocationEffect) : N :=
  match e with
  | AllocationEffect.Reserve d' amount => if decide (d' = d) then amount else 0
  | _ => 0
  end.
Definition released_in (d : AllocationDomain) (e : AllocationEffect) : N :=
  match e with
  | AllocationEffect.Release d' amount => if decide (d' = d) then amount else 0
  | _ => 0
  end.
Definition total (f : AllocationEffect → N) (effects : list AllocationEffect) : N :=
  foldr (λ e n, (f e + n)%N) 0%N effects.

Lemma apply_allocation_effect_capacity ev e ev' d :
  apply_allocation_effect ev e = Ok ev' →
  match ev.(SimulationEvidence.available_capacity) !! d with
  | None => ev'.(SimulationEvidence.available_capacity) !! d = None
  | Some a => e = AllocationEffect.Invalidate d ∨
      ∃ a', ev'.(SimulationEvidence.available_capacity) !! d = Some a' ∧
            (a' + reserved_in d e = a + released_in d e)%N
  end.
Proof.
  destruct ev as [? ? ? cap ? ? ? ? ?], e as [d'|d' n|d' n]; simpl.
  - intros [= <-]. simpl. destruct (decide (d' = d)) as [->|Hne].
    + rewrite lookup_delete_eq. case_match; auto.
    + rewrite lookup_delete_ne by done. case_match; [|done]. right. eexists. split; [done|lia].
  - destruct (cap !! d') as [a|] eqn:Ha.
    + unfold u64_checked_sub. destruct (n <=? a)%N eqn:Hle; simpl; [|done]. apply N.leb_le in Hle.
      intros [= <-]. simpl. destruct (decide (d' = d)) as [->|Hne].
      * rewrite Ha, lookup_insert_eq. right. eexists. split; [done|lia].
      * rewrite lookup_insert_ne by done. case_match; [|done]. right. eexists. split; [done|lia].
    + intros [= <-]. simpl. destruct (cap !! d) eqn:Hd; [|done]. right. eexists. split; [done|].
      rewrite decide_False by congruence. lia.
  - destruct (cap !! d') as [a|] eqn:Ha.
    + unfold u64_checked_add. destruct (a + n <=? u64_MAX)%N eqn:Hle; simpl; [|done].
      intros [= <-]. simpl. destruct (decide (d' = d)) as [->|Hne].
      * rewrite Ha, lookup_insert_eq. right. eexists. split; [done|lia].
      * rewrite lookup_insert_ne by done. case_match; [|done]. right. eexists. split; [done|lia].
    + intros [= <-]. simpl. destruct (cap !! d) eqn:Hd; [|done]. right. eexists. split; [done|].
      rewrite decide_False by congruence. lia.
Qed.

(** Reserving and releasing conserve known capacity: what is left plus what was
    reserved is what was there plus what was released, nothing is ever
    overdrawn, and unknown capacity stays unknown. *)
Theorem apply_allocation_effects_conserves ev effects ev' d :
  apply_allocation_effects ev effects = Ok ev' →
  AllocationEffect.Invalidate d ∉ effects →
  match ev.(SimulationEvidence.available_capacity) !! d with
  | None => ev'.(SimulationEvidence.available_capacity) !! d = None
  | Some a => ∃ a', ev'.(SimulationEvidence.available_capacity) !! d = Some a' ∧
      (a' + total (reserved_in d) effects = a + total (released_in d) effects)%N
  end.
Proof.
  unfold apply_allocation_effects. revert ev.
  induction effects as [|e l IH]; intros ev; simpl.
  { intros [= <-] _. case_match; [|done]. eexists. split; [done|lia]. }
  destruct (apply_allocation_effect ev e) as [ev1|] eqn:He; [|done]. intros Hl Hn.
  specialize (IH ev1 Hl ltac:(set_solver)).
  apply (apply_allocation_effect_capacity _ _ _ d) in He.
  destruct (ev.(SimulationEvidence.available_capacity) !! d) as [a|].
  - destruct He as [->|(a1 & Ha1 & Hs)]; [set_solver|]. rewrite Ha1 in IH.
    destruct IH as (a' & Ha' & Ht). exists a'. split; [done|lia].
  - by rewrite He in IH.
Qed.
