(* ===== verification/Prerequisites.v ===== *)
(** * Three-valued prerequisite checks: [storage-engine/src/prerequisites.rs] *)

From S2P Require Import Prelude Model Graph GraphOrder State Action Contract Logical Evidence.

Implicit Types (desired : DesiredState) (ev : SimulationEvidence) (node : NodeId).

Definition satisfied_for_node ev node : CheckStatus :=
  CheckStatus.Satisfied
    (if contains node ev.(SimulationEvidence.projected_graph_nodes)
     then CheckEvidence.PredictedEffect else CheckEvidence.ObservedSnapshot).

Definition mount_at desired (target : PathBuf) (context : MountContext) : option MountEntry :=
  find_first (λ m, bool_decide (m.(MountEntry.target) = target) &&
                   bool_decide (m.(MountEntry.context) = context))
    desired.(DesiredState.mounts).(MountSpec.runtime).

Definition has_mounted_descendant desired (target : PathBuf) (context : MountContext) : bool :=
  existsb (λ m, bool_decide (m.(MountEntry.context) = context) &&
                negb (bool_decide (m.(MountEntry.target) = target)) &&
                starts_with m.(MountEntry.target) target)
    desired.(DesiredState.mounts).(MountSpec.runtime).

Definition mount_evidence ev : CheckEvidence :=
  if ev.(SimulationEvidence.projected_runtime_mounts)
  then CheckEvidence.PredictedEffect else CheckEvidence.ObservedSnapshot.

Definition matches_kind (kind : NodeKind) (expected : NodeKindClass) : bool :=
  match expected with
  | NodeKindClass.Block =>
      match kind with
      | NodeKind.Disk | NodeKind.NvmeNamespace _ | NodeKind.Loop _ | NodeKind.Zram
      | NodeKind.DmMultipath | NodeKind.Partition _ _ _ _ | NodeKind.LuksContainer _
      | NodeKind.DmCryptMapping _ | NodeKind.DmIntegrity _ | NodeKind.DmVerity _
      | NodeKind.MdArray _ | NodeKind.LvmPv | NodeKind.LvmLv _ | NodeKind.Bcache _ _
      | NodeKind.DmCache _ _ | NodeKind.DmWritecache _ | NodeKind.ZfsVolume _
      | NodeKind.Drbd _ => true
      | _ => false
      end
  | NodeKindClass.PartitionTable =>
      match kind with NodeKind.PartitionTable _ => true | _ => false end
  | NodeKindClass.Partition =>
      match kind with NodeKind.Partition _ _ _ _ => true | _ => false end
  | NodeKindClass.LuksContainer =>
      match kind with NodeKind.LuksContainer _ => true | _ => false end
  | NodeKindClass.DmCryptMapping =>
      match kind with NodeKind.DmCryptMapping _ => true | _ => false end
  | NodeKindClass.LvmPv => match kind with NodeKind.LvmPv => true | _ => false end
  | NodeKindClass.LvmVg => match kind with NodeKind.LvmVg _ _ => true | _ => false end
  | NodeKindClass.LvmLv => match kind with NodeKind.LvmLv _ => true | _ => false end
  | NodeKindClass.Filesystem => match kind with NodeKind.Filesystem _ _ => true | _ => false end
  | NodeKindClass.BtrfsFilesystem =>
      match kind with NodeKind.Filesystem (FilesystemKind.Btrfs _) _ => true | _ => false end
  end.

Definition evaluate_endpoint desired ev node (writable : bool) : CheckStatus :=
  match Graph.node desired.(DesiredState.graph) node with
  | None => CheckStatus.Violated "referenced node is absent"
  | Some node_value =>
      if bool_decide (ev.(SimulationEvidence.activations) !! node = Some false)
      then CheckStatus.Violated "projected block endpoint is inactive"
      else
        match ev.(SimulationEvidence.block_interfaces) !! node with
        | Some BlockInterfaceAccess.ReadWrite => CheckStatus.Satisfied CheckEvidence.PredictedEffect
        | Some BlockInterfaceAccess.ReadOnly =>
            if negb writable then CheckStatus.Satisfied CheckEvidence.PredictedEffect
            else CheckStatus.Violated "projected block interface is read-only"
        | None =>
            if is_observation_stale ev (FactScope.Node node) FactKind.Activation ||
               is_observation_stale ev (FactScope.Node node) FactKind.Presence
            then CheckStatus.Unknown "fresh block endpoint observation after runtime invalidation"
            else if negb writable then
              match node_value.(Node.size).(NodeFacts.block) with
              | Some _ => CheckStatus.Satisfied CheckEvidence.ObservedSnapshot
              | None => CheckStatus.Unknown "available block endpoint observation"
              end
            else
              match node_value.(Node.size).(NodeFacts.block) with
              | Some (BlockFacts.mk _ _ _ (Some false)) =>
                  CheckStatus.Satisfied CheckEvidence.ObservedSnapshot
              | Some (BlockFacts.mk _ _ _ (Some true)) =>
                  CheckStatus.Violated "observed block endpoint is read-only"
              | _ => CheckStatus.Unknown "writable block endpoint observation"
              end
        end
  end.

(** The sources of the backing edges into a node. *)
Definition direct_backings desired node : list NodeId :=
  Dependency.from_ <$> filter (λ d, d.(Dependency.to) = node ∧ d.(Dependency.kind) = DependencyKind.Backs)
                         desired.(DesiredState.graph).(NodeGraph.dependencies).

Definition is_simple_filesystem (kind : NodeKind) : bool :=
  match kind with
  | NodeKind.Filesystem (FilesystemKind.Btrfs _) _ => false
  | NodeKind.Filesystem _ _ => true
  | _ => false
  end.

Definition evaluate_mount_source desired ev (source : MountSource) : CheckStatus :=
  match mount_source_node source with
  | None => CheckStatus.Unknown "provider mount-source availability check"
  | Some node =>
      match Graph.node desired.(DesiredState.graph) node with
      | None => CheckStatus.Violated "mount source is absent"
      | Some value =>
          let kind := value.(Node.kind).(NodeSpec.kind) in
          if negb (source_compatible source kind)
          then CheckStatus.Violated "mount source has an incompatible node kind"
          else
            let unknown :=
              CheckStatus.Unknown "provider mount-source topology and availability check" in
            if is_simple_filesystem kind then
              match direct_backings desired node with
              | [backing] =>
                  if is_some_and (λ k, matches_kind k NodeKindClass.Block)
                       (kind_of desired.(DesiredState.graph) backing)
                  then evaluate_endpoint desired ev backing false
                  else unknown
              | _ => unknown
              end
            else unknown
      end
  end.

(** The loop over direct consumers: [Err] is an early return, the state holds
    [found], [unknown] and [predicted]. *)
Definition dependent_step desired ev (size : Bytes) (acc : bool * bool * bool) (d : Dependency)
    : result (bool * bool * bool) CheckStatus :=
  let '(_, unknown, predicted) := acc in
  let predicted := predicted ||
                   contains d.(Dependency.to) ev.(SimulationEvidence.projected_graph_nodes) in
  match Graph.node desired.(DesiredState.graph) d.(Dependency.to) with
  | None => Err (CheckStatus.Violated "dependent node is absent")
  | Some dependent =>
      match dependent.(Node.kind).(NodeSpec.size) with
      | None => Ok (true, true, predicted)
      | Some dependent_size =>
          if (size <? dependent_size)%N
          then Err (CheckStatus.Violated "an upper layer exceeds the proposed backing capacity")
          else Ok (true, unknown, predicted)
      end
  end.

Definition evaluate_dependent_sizes desired ev node (size : Bytes) : CheckStatus :=
  match Graph.node desired.(DesiredState.graph) node with
  | None => CheckStatus.Violated "referenced node is absent"
  | Some _ =>
      match try_fold (dependent_step desired ev size)
              (false, false, contains node ev.(SimulationEvidence.projected_graph_nodes))
              (filter (λ d, d.(Dependency.from_) = node ∧ d.(Dependency.kind) = DependencyKind.Backs)
                 desired.(DesiredState.graph).(NodeGraph.dependencies)) with
      | Err status => status
      | Ok (found, unknown, predicted) =>
          if unknown : bool then CheckStatus.Unknown "dependent capacity observation"
          else if found : bool then
            CheckStatus.Satisfied (if predicted : bool then CheckEvidence.PredictedEffect
                                   else CheckEvidence.ObservedSnapshot)
          else satisfied_for_node ev node
      end
  end.

Definition evaluate_backing_size desired ev node (size : Bytes) : CheckStatus :=
  match Graph.node desired.(DesiredState.graph) node with
  | None => CheckStatus.Violated "referenced node is absent"
  | Some _ =>
      match direct_backings desired node with
      | [] => CheckStatus.Unknown "direct backing relationship"
      | [from_] =>
          match Graph.node desired.(DesiredState.graph) from_ with
          | None => CheckStatus.Violated "backing node is absent"
          | Some backing =>
              match backing.(Node.kind).(NodeSpec.size) with
              | None => CheckStatus.Unknown "backing capacity observation"
              | Some backing_size =>
                  if (backing_size <? size)%N
                  then CheckStatus.Violated "backing capacity is smaller than the requested size"
                  else CheckStatus.Satisfied
                         (if contains node ev.(SimulationEvidence.projected_graph_nodes) ||
                             contains from_ ev.(SimulationEvidence.projected_graph_nodes)
                          then CheckEvidence.PredictedEffect else CheckEvidence.ObservedSnapshot)
              end
          end
      | _ => CheckStatus.Unknown "provider capacity calculation for multiple backing nodes"
      end
  end.

Definition evaluate_capacity ev (domain : AllocationDomain) (amount : option AllocationQuantity)
    : CheckStatus :=
  match amount with
  | None => CheckStatus.Unknown "provider allocation calculation for this layout"
  | Some amount =>
      match ev.(SimulationEvidence.available_capacity) !! domain with
      | None => CheckStatus.Unknown "provider allocation-capacity evidence"
      | Some available =>
          if (available <? amount)%N
          then CheckStatus.Violated "allocation domain has insufficient free capacity"
          else if decide (domain ∈ ev.(SimulationEvidence.projected_allocations))
          then CheckStatus.Satisfied CheckEvidence.PredictedEffect
          else CheckStatus.Satisfied CheckEvidence.ObservedSnapshot
      end
  end.

(** A mount whose data could come from any filesystem. *)
Definition unresolved_source (source : MountSource) : bool :=
  match source with MountSource.Bind _ | MountSource.Other _ => true | _ => false end.

Definition evaluate_prerequisite desired ev (prerequisite : ActionPrerequisite) : CheckStatus :=
  let graph := desired.(DesiredState.graph) in
  let runtime := desired.(DesiredState.mounts).(MountSpec.runtime) in
  match prerequisite with
  | ActionPrerequisite.NodeExists node =>
      match Graph.node graph node with
      | Some _ => satisfied_for_node ev node
      | None => CheckStatus.Violated "referenced node is absent"
      end
  | ActionPrerequisite.NodeKind node expected =>
      match Graph.node graph node with
      | None => CheckStatus.Violated "referenced node is absent"
      | Some node_value =>
          if matches_kind node_value.(Node.kind).(NodeSpec.kind) expected
          then satisfied_for_node ev node
          else CheckStatus.Violated "node kind does not satisfy the action contract"
      end
  | ActionPrerequisite.NoUnexpectedConsumers node =>
      match Graph.node graph node with
      | None => CheckStatus.Violated "referenced node is absent"
      | Some _ =>
          if existsb (λ d, bool_decide (d.(Dependency.from_) = node))
               graph.(NodeGraph.dependencies) ||
             existsb (λ m, bool_decide (mount_source_node m.(MountEntry.source) = Some node)) runtime
          then CheckStatus.Violated "node still has an upper-layer consumer"
          else if existsb (λ m, unresolved_source m.(MountEntry.source)) runtime
          then CheckStatus.Unknown
                 "resolve bind and unsupported mount sources before declaring the node unused"
          else satisfied_for_node ev node
      end
  | ActionPrerequisite.NoUnexpectedRelations node =>
      match Graph.node graph node with
      | None => CheckStatus.Violated "referenced node is absent"
      | Some _ =>
          if existsb (λ r, bool_decide (r.(Relation.from_) = node) ||
                           bool_decide (r.(Relation.to) = node)) graph.(NodeGraph.relations)
          then CheckStatus.Violated
                 "node still has a snapshot, replication, or other non-owning relation"
          else satisfied_for_node ev node
      end
  | ActionPrerequisite.Writable node => evaluate_endpoint desired ev node true
  | ActionPrerequisite.MountSourceAvailable source => evaluate_mount_source desired ev source
  | ActionPrerequisite.FilesystemUnmounted filesystem =>
      match Graph.node graph filesystem with
      | None => CheckStatus.Violated "referenced filesystem is absent"
      | Some _ =>
          if existsb (λ m, bool_decide (m.(MountEntry.source) = MountSource.Filesystem filesystem))
               runtime
          then CheckStatus.Violated "filesystem is still mounted in an observed namespace"
          else if existsb (λ m, unresolved_source m.(MountEntry.source)) runtime
          then CheckStatus.Unknown
                 "resolve bind and unsupported mount sources before offline filesystem work"
          else CheckStatus.Satisfied (mount_evidence ev)
      end
  | ActionPrerequisite.FilesystemCheckPassed filesystem =>
      if decide (filesystem ∈ ev.(SimulationEvidence.checked_filesystems))
      then CheckStatus.Satisfied CheckEvidence.PredictedEffect
      else CheckStatus.Violated
             "filesystem shrink requires a preceding fresh forced read-only check"
  | ActionPrerequisite.FilesystemMinimumSize _ _ =>
      CheckStatus.Unknown
        "provider evidence that filesystem content fits the requested shrink target"
  | ActionPrerequisite.DestructiveApproval _ =>
      CheckStatus.Unknown "explicit destructive-scope approval"
  | ActionPrerequisite.CredentialAvailable _ =>
      CheckStatus.Unknown "resolve credential reference through the runtime credential store"
  | ActionPrerequisite.ExtentAvailable _ _ _ =>
      CheckStatus.Unknown "provider allocation and alignment evidence"
  | ActionPrerequisite.DistinctNodes nodes =>
      if (size (list_to_set nodes : gset NodeId) =? length nodes)%nat
      then CheckStatus.Satisfied CheckEvidence.PredictedEffect
      else CheckStatus.Violated "node list contains duplicate identities"
  | ActionPrerequisite.DependentsFitWithin node size => evaluate_dependent_sizes desired ev node size
  | ActionPrerequisite.BackingSizeAtLeast node size => evaluate_backing_size desired ev node size
  | ActionPrerequisite.CapacityAvailable domain amount => evaluate_capacity ev domain amount
  | ActionPrerequisite.MountTargetAvailable target context =>
      match mount_at desired target context with
      | Some _ => CheckStatus.Violated "mount target is already occupied"
      | None => CheckStatus.Satisfied (mount_evidence ev)
      end
  | ActionPrerequisite.MountDescendantsAbsent target context =>
      if has_mounted_descendant desired target context
      then CheckStatus.Violated "mount target still contains an active descendant"
      else CheckStatus.Satisfied (mount_evidence ev)
  end.

Definition evaluate_prerequisites desired ev (prerequisites : list ActionPrerequisite)
    : list PrerequisiteCheck :=
  (λ p, PrerequisiteCheck.mk p (evaluate_prerequisite desired ev p)) <$> prerequisites.

Definition is_violated (status : CheckStatus) : bool :=
  match status with CheckStatus.Violated _ => true | _ => false end.
Definition is_satisfied (status : CheckStatus) : bool :=
  match status with CheckStatus.Satisfied _ => true | _ => false end.

(** ** Meaning of the answers

    What a prerequisite asserts of a configuration and its ledger, for the
    conditions pure simulation can decide. *)

(** The endpoint is usable: never deactivated, and either promised by an
    earlier action or observed with nothing invalidating the observation. *)
Definition endpoint_available desired ev node (writable : bool) : Prop :=
  has_node desired.(DesiredState.graph) node ∧
  ev.(SimulationEvidence.activations) !! node ≠ Some false ∧
  match ev.(SimulationEvidence.block_interfaces) !! node with
  | Some BlockInterfaceAccess.ReadWrite => True
  | Some BlockInterfaceAccess.ReadOnly => writable = false
  | None =>
      is_observation_stale ev (FactScope.Node node) FactKind.Activation = false ∧
      is_observation_stale ev (FactScope.Node node) FactKind.Presence = false ∧
      ∃ n b, Graph.node desired.(DesiredState.graph) node = Some n ∧
             n.(Node.size).(NodeFacts.block) = Some b ∧
             (writable = true → b.(BlockFacts.read_only) = Some false)
  end.

Definition prerequisite_holds desired ev (p : ActionPrerequisite) : Prop :=
  let graph := desired.(DesiredState.graph) in
  let runtime := desired.(DesiredState.mounts).(MountSpec.runtime) in
  match p with
  | ActionPrerequisite.NodeExists node => has_node graph node
  | ActionPrerequisite.NodeKind node expected =>
      ∃ k, kind_of graph node = Some k ∧ matches_kind k expected = true
  | ActionPrerequisite.NoUnexpectedConsumers node =>
      has_node graph node ∧
      (∀ d, d ∈ graph.(NodeGraph.dependencies) → d.(Dependency.from_) ≠ node) ∧
      (∀ m, m ∈ runtime → mount_source_node m.(MountEntry.source) ≠ Some node ∧
                          unresolved_source m.(MountEntry.source) = false)
  | ActionPrerequisite.NoUnexpectedRelations node =>
      has_node graph node ∧
      (∀ r, r ∈ graph.(NodeGraph.relations) → r.(Relation.from_) ≠ node ∧ r.(Relation.to) ≠ node)
  | ActionPrerequisite.FilesystemUnmounted fs =>
      has_node graph fs ∧
      (∀ m, m ∈ runtime → m.(MountEntry.source) ≠ MountSource.Filesystem fs ∧
                          unresolved_source m.(MountEntry.source) = false)
  | ActionPrerequisite.FilesystemCheckPassed fs => fs ∈ ev.(SimulationEvidence.checked_filesystems)
  | ActionPrerequisite.DistinctNodes nodes => NoDup nodes
  | ActionPrerequisite.DependentsFitWithin node size =>
      has_node graph node ∧
      ∀ d, d ∈ graph.(NodeGraph.dependencies) → d.(Dependency.from_) = node →
           d.(Dependency.kind) = DependencyKind.Backs →
           ∃ s, known_size graph d.(Dependency.to) = Some s ∧ (s <= size)%N
  | ActionPrerequisite.BackingSizeAtLeast node size =>
      has_node graph node ∧
      ∃ b s, direct_backings desired node = [b] ∧ known_size graph b = Some s ∧ (size <= s)%N
  | ActionPrerequisite.CapacityAvailable domain amount =>
      ∃ need available, amount = Some need ∧
        ev.(SimulationEvidence.available_capacity) !! domain = Some available ∧ (need <= available)%N
  | ActionPrerequisite.MountTargetAvailable target context =>
      ∀ m, m ∈ runtime → m.(MountEntry.target) = target → m.(MountEntry.context) ≠ context
  | ActionPrerequisite.MountDescendantsAbsent target context =>
      ∀ m, m ∈ runtime → m.(MountEntry.context) = context →
           starts_with m.(MountEntry.target) target = true → m.(MountEntry.target) = target
  | ActionPrerequisite.Writable node => endpoint_available desired ev node true
  | ActionPrerequisite.MountSourceAvailable source =>
      ∃ node k b, mount_source_node source = Some node ∧ kind_of graph node = Some k ∧
        source_compatible source k = true ∧ is_simple_filesystem k = true ∧
        direct_backings desired node = [b] ∧ endpoint_available desired ev b false
  | ActionPrerequisite.FilesystemMinimumSize _ _ | ActionPrerequisite.DestructiveApproval _
  | ActionPrerequisite.CredentialAvailable _ | ActionPrerequisite.ExtentAvailable _ _ _ => False
  end.

(** The pair of obligations of a three-valued check of [P]. *)
Definition sound_check (status : CheckStatus) (P : Prop) : Prop :=
  (is_satisfied status = true → P) ∧ (is_violated status = true → ¬ P).

Lemma has_node_eq graph node : has_node graph node = is_Some (Graph.node graph node).
Proof. done. Qed.

Lemma evaluate_endpoint_sound desired ev node w :
  sound_check (evaluate_endpoint desired ev node w) (endpoint_available desired ev node w).
Proof.
  unfold sound_check, evaluate_endpoint, endpoint_available, has_node, Graph.node.
  destruct (_ !! node) as [n|] eqn:Hn; [|split; [done|intros _ [[? ?] _]; congruence]].
  case_bool_decide as Ha; [split; [done|naive_solver]|].
  destruct (SimulationEvidence.block_interfaces ev !! node) as [[]|] eqn:Hb.
  - destruct w; (split; [naive_solver|]); naive_solver.
  - split; [naive_solver|done].
  - destruct (_ || _) eqn:Hst; [done|]. apply orb_false_iff in Hst as [H1 H2].
    destruct w, (NodeFacts.block _) as [[? ? ? [[]|]]|] eqn:Hblk; simpl; (split; [|try done]); try done.
    + intros _ (_ & _ & _ & _ & n' & b & [= <-] & Hb' & Hr). rewrite Hblk in Hb'. simplify_eq/=.
      naive_solver.
    + intros _. split_and!; [by eexists|done..|]. do 2 eexists. split_and!; [done..|done].
    + intros _. split_and!; [by eexists|done..|]. do 2 eexists. split_and!; [done..|done].
    + intros _. split_and!; [by eexists|done..|]. do 2 eexists. split_and!; [done..|done].
    + intros _. split_and!; [by eexists|done..|]. do 2 eexists. split_and!; [done..|done].
Qed.

Lemma dependent_step_sound desired ev size acc d :
  match dependent_step desired ev size acc d with
  | Ok acc' =>
      acc'.1.2 = false → acc.1.2 = false ∧
      ∃ s, known_size desired.(DesiredState.graph) d.(Dependency.to) = Some s ∧ (s <= size)%N
  | Err status =>
      is_satisfied status = false ∧
      ¬ ∃ s, known_size desired.(DesiredState.graph) d.(Dependency.to) = Some s ∧ (s <= size)%N
  end.
Proof.
  destruct acc as [[f u] p]. unfold dependent_step, known_size.
  destruct (Graph.node _ _) as [n|]; [|split; [done|naive_solver]].
  destruct (NodeSpec.size _) as [s|]; [|done].
  destruct (size <? s)%N eqn:Hlt; simpl.
  - apply N.ltb_lt in Hlt. split; [done|]. intros (s' & [= <-] & ?). lia.
  - apply N.ltb_ge in Hlt. eauto.
Qed.

Lemma dependent_sizes_sound desired ev size ds acc :
  match try_fold (dependent_step desired ev size) acc ds with
  | Ok acc' =>
      acc'.1.2 = false → ∀ d, d ∈ ds →
      ∃ s, known_size desired.(DesiredState.graph) d.(Dependency.to) = Some s ∧ (s <= size)%N
  | Err status =>
      is_satisfied status = false ∧
      ∃ d, d ∈ ds ∧
      ¬ ∃ s, known_size desired.(DesiredState.graph) d.(Dependency.to) = Some s ∧ (s <= size)%N
  end.
Proof.
  set (P (d : Dependency) := ∃ s, known_size desired.(DesiredState.graph) d.(Dependency.to) = Some s ∧
    (s <= size)%N).
  assert (∀ acc', try_fold (dependent_step desired ev size) acc ds = Ok acc' →
    acc'.1.2 = false → acc.1.2 = false ∧ ∀ d, d ∈ ds → P d) as Hok.
  { revert acc. induction ds as [|d ds IH]; intros acc acc'; simpl.
    { intros [= <-] ?. split; [done|set_solver]. }
    pose proof (dependent_step_sound desired ev size acc d) as Hd.
    destruct (dependent_step _ _ _ acc d) as [acc1|]; [|done]. intros Hf Hu.
    destruct (IH _ _ Hf Hu) as [Hu1 Hall]. destruct (Hd Hu1) as [? ?].
    split; [done|]. intros e [->|?]%elem_of_cons; auto. }
  destruct (try_fold _ _ ds) as [acc'|st] eqn:Hf.
  - intros Hu. by apply (Hok acc').
  - apply try_fold_err in Hf as (pre & d & post & s & -> & _ & Hd).
    pose proof (dependent_step_sound desired ev size s d) as Hsd. rewrite Hd in Hsd.
    destruct Hsd. split; [done|]. exists d. split; [set_solver|done].
Qed.

Lemma evaluate_dependent_sizes_sound desired ev node size :
  sound_check (evaluate_dependent_sizes desired ev node size)
    (prerequisite_holds desired ev (ActionPrerequisite.DependentsFitWithin node size)).
Proof.
  unfold sound_check, evaluate_dependent_sizes. simpl. rewrite has_node_eq.
  destruct (Graph.node _ node) as [n|]; [|split; [done|intros _ [[? ?] _]; done]].
  match goal with |- context [try_fold ?f ?a ?l] =>
    pose proof (dependent_sizes_sound desired ev size l a) as Hs; destruct (try_fold f a l) as [[[f' u] p]|st] end.
  - simpl in Hs. destruct u; [by split|].
    assert (∀ b, sound_check (if f' : bool then CheckStatus.Satisfied b else satisfied_for_node ev node)
      (is_Some (Some n) ∧ ∀ d, d ∈ desired.(DesiredState.graph).(NodeGraph.dependencies) →
        d.(Dependency.from_) = node → d.(Dependency.kind) = DependencyKind.Backs →
        ∃ s, known_size desired.(DesiredState.graph) d.(Dependency.to) = Some s ∧ (s <= size)%N)) as Hb.
    { intros b. split; [|by destruct f']. intros _. split; [by eexists|].
      intros d Hd Hf Hk. apply Hs; [done|]. by apply list_elem_of_filter. }
    apply Hb.
  - destruct Hs as (Hst & d & [[Hf Hk] Hd]%list_elem_of_filter & Hn). rewrite Hst.
    split; [done|]. intros _ [_ Hall]. by apply Hn, Hall.
Qed.

Lemma evaluate_backing_size_sound desired ev node size :
  sound_check (evaluate_backing_size desired ev node size)
    (prerequisite_holds desired ev (ActionPrerequisite.BackingSizeAtLeast node size)).
Proof.
  unfold sound_check, evaluate_backing_size. simpl. rewrite has_node_eq. unfold known_size.
  destruct (Graph.node _ node) as [n|]; [|split; [done|intros _ [[? ?] _]; done]].
  destruct (direct_backings desired node) as [|b [|b' l]]; [by split| |by split].
  destruct (Graph.node _ b) as [nb|] eqn:Hb; [|split; [done|intros _ (_ & ? & ? & [= <-] & Hs & _)]].
  2: { by rewrite Hb in Hs. }
  destruct (NodeSpec.size _) as [s|] eqn:Hs; [|by split].
  destruct (s <? size)%N eqn:Hlt; (split; [|try done]); try done.
  - apply N.ltb_lt in Hlt. intros _ (_ & ? & s' & [= <-] & Hs' & ?). rewrite Hb in Hs'.
    simplify_eq. lia.
  - apply N.ltb_ge in Hlt. intros _. split; [by eexists|]. exists b, s. by rewrite Hb.
Qed.

Lemma evaluate_mount_source_sound desired ev source :
  sound_check (evaluate_mount_source desired ev source)
    (prerequisite_holds desired ev (ActionPrerequisite.MountSourceAvailable source)).
Proof.
  unfold sound_check, evaluate_mount_source. simpl. unfold kind_of.
  destruct (mount_source_node source) as [node|]; [|by split].
  destruct (Graph.node _ node) as [n|] eqn:Hn.
  2: { split; [done|]. intros _ (? & ? & ? & [= <-] & Hk & _). by rewrite Hn in Hk. }
  destruct (source_compatible _ _) eqn:Hc; simpl.
  2: { split; [done|]. intros _ (? & ? & ? & [= <-] & Hk & Hc' & _).
       rewrite Hn in Hk. simplify_eq/=. congruence. }
  destruct (is_simple_filesystem _) eqn:Hsf; [|by split].
  destruct (direct_backings desired node) as [|b [|b' l]] eqn:Hb; [by split| |by split].
  destruct (is_some_and _ _); [|by split].
  destruct (evaluate_endpoint_sound desired ev b false) as [Hs Hv]. split.
  - intros Hok%Hs. exists node, n.(Node.kind).(NodeSpec.kind), b. by rewrite Hn.
  - intros Hbad%Hv (? & ? & b'' & [= <-] & _ & _ & _ & Hb' & He). rewrite Hb in Hb'. by simplify_eq.
Qed.

Lemma mount_at_None desired target context :
  mount_at desired target context = None ↔
  ∀ m, m ∈ desired.(DesiredState.mounts).(MountSpec.runtime) →
       m.(MountEntry.target) = target → m.(MountEntry.context) ≠ context.
Proof.
  unfold mount_at. rewrite find_first_None. apply forall_proper. intros m.
  rewrite andb_false_iff, !bool_decide_eq_false. destruct (decide (m.(MountEntry.target) = target)); naive_solver.
Qed.

Lemma has_mounted_descendant_false desired target context :
  has_mounted_descendant desired target context = false ↔
  ∀ m, m ∈ desired.(DesiredState.mounts).(MountSpec.runtime) → m.(MountEntry.context) = context →
       starts_with m.(MountEntry.target) target = true → m.(MountEntry.target) = target.
Proof.
  unfold has_mounted_descendant. rewrite existsb_false. apply forall_proper. intros m.
  rewrite !andb_false_iff, bool_decide_eq_false, negb_false_iff, bool_decide_eq_true.
  destruct (decide (m.(MountEntry.context) = context)), (decide (m.(MountEntry.target) = target)),
    (starts_with _ _); naive_solver.
Qed.

Lemma size_list_to_set_NoDup (l : list NodeId) :
  size (list_to_set l : gset NodeId) = length l ↔ NoDup l.
Proof.
  split; [|apply size_list_to_set].
  induction l as [|x l IH]; simpl; [constructor|].
  destruct (decide (x ∈ l)) as [Hx|Hx].
  - assert (size (list_to_set l : gset NodeId) ≤ length l) as Hle.
    { clear. induction l as [|x l IH]; simpl; [done|].
      pose proof (size_union_alt {[x]} (list_to_set l : gset NodeId)) as Hu.
      pose proof (subseteq_size (list_to_set l ∖ {[x]} : gset NodeId) (list_to_set l)
        ltac:(set_solver)). rewrite size_singleton in Hu. lia. }
    intros Hs. assert ({[x]} ∪ list_to_set l =@{gset NodeId} list_to_set l) as Heq by set_solver.
    rewrite Heq in Hs. lia.
  - rewrite size_union, size_singleton by set_solver. intros Hs. constructor; [done|apply IH; lia].
Qed.

Lemma evaluate_consumers_sound desired ev node :
  sound_check (evaluate_prerequisite desired ev (ActionPrerequisite.NoUnexpectedConsumers node))
    (prerequisite_holds desired ev (ActionPrerequisite.NoUnexpectedConsumers node)).
Proof.
  unfold sound_check. simpl. rewrite has_node_eq.
  destruct (Graph.node _ node) as [n|]; [|split; [done|naive_solver]].
  destruct (_ || _) eqn:Hor.
  - split; [done|]. intros _ (_ & Hd & Hm). apply not_false_iff_true in Hor. apply Hor.
    apply orb_false_iff. rewrite !existsb_false. split.
    + intros d Hin. apply bool_decide_eq_false. auto.
    + intros m Hin. apply bool_decide_eq_false. naive_solver.
  - apply orb_false_iff in Hor as [Hd Hm]. rewrite existsb_false in Hd. rewrite existsb_false in Hm.
    destruct (existsb _ _) eqn:Hu; [by split|]. rewrite existsb_false in Hu.
    split; [|done]. intros _. split_and!; [by eexists| |].
    + intros d Hin. by apply Hd, bool_decide_eq_false in Hin.
    + intros m Hin. split; [|auto]. by apply Hm, bool_decide_eq_false in Hin.
Qed.

Lemma evaluate_relations_sound desired ev node :
  sound_check (evaluate_prerequisite desired ev (ActionPrerequisite.NoUnexpectedRelations node))
    (prerequisite_holds desired ev (ActionPrerequisite.NoUnexpectedRelations node)).
Proof.
  unfold sound_check. simpl. rewrite has_node_eq.
  destruct (Graph.node _ node) as [n|]; [|split; [done|naive_solver]].
  destruct (existsb _ _) eqn:Hex.
  - split; [done|]. intros _ (_ & Hr). apply not_false_iff_true in Hex. apply Hex.
    apply existsb_false. intros r Hin. apply orb_false_iff. rewrite !bool_decide_eq_false. auto.
  - rewrite existsb_false in Hex. split; [|done]. intros _. split; [by eexists|].
    intros r Hin%Hex. by rewrite orb_false_iff, !bool_decide_eq_false in Hin.
Qed.

Lemma evaluate_unmounted_sound desired ev fs :
  sound_check (evaluate_prerequisite desired ev (ActionPrerequisite.FilesystemUnmounted fs))
    (prerequisite_holds desired ev (ActionPrerequisite.FilesystemUnmounted fs)).
Proof.
  unfold sound_check. simpl. rewrite has_node_eq.
  destruct (Graph.node _ fs) as [n|]; [|split; [done|naive_solver]].
  destruct (existsb _ _) eqn:Hm.
  - split; [done|]. intros _ (_ & Hr). apply not_false_iff_true in Hm. apply Hm.
    apply existsb_false. intros m Hin. apply bool_decide_eq_false. naive_solver.
  - rewrite existsb_false in Hm. destruct (existsb _ _) eqn:Hu; [by split|].
    rewrite existsb_false in Hu. split; [|done]. intros _. split; [by eexists|].
    intros m Hin. split; [|auto]. by apply Hm, bool_decide_eq_false in Hin.
Qed.

Lemma evaluate_capacity_sound desired ev domain amount :
  sound_check (evaluate_capacity ev domain amount)
    (prerequisite_holds desired ev (ActionPrerequisite.CapacityAvailable domain amount)).
Proof.
  unfold sound_check, evaluate_capacity. simpl. destruct amount as [need|]; [|by split].
  destruct (_ !! domain) as [av|]; [|by split].
  destruct (av <? need)%N eqn:Hlt.
  - apply N.ltb_lt in Hlt. split; [done|]. intros _ (? & ? & [= <-] & [= <-] & ?). lia.
  - apply N.ltb_ge in Hlt. split; [intros _; eauto|]. by case_decide.
Qed.

(** The checks are sound in both directions: a satisfied condition is true of
    the configuration and ledger it was evaluated in, and a violated one is
    false.  Conditions that need a person, a credential store or a provider
    are never answered by simulation. *)
Theorem evaluate_prerequisite_sound desired ev p :
  let status := evaluate_prerequisite desired ev p in
  (is_satisfied status = true → prerequisite_holds desired ev p) ∧
  (is_violated status = true → ¬ prerequisite_holds desired ev p).
Proof.
  change (sound_check (evaluate_prerequisite desired ev p) (prerequisite_holds desired ev p)).
  destruct p as [n|n k|n|n|n|src|fs|fs|fs t|n|c|t o s|ns|n s|n s|dom am|t ctx|t ctx];
    try first [by split | apply evaluate_consumers_sound | apply evaluate_relations_sound
      | apply evaluate_unmounted_sound | apply evaluate_endpoint_sound
      | apply evaluate_mount_source_sound | apply evaluate_dependent_sizes_sound
      | apply evaluate_backing_size_sound | apply (evaluate_capacity_sound desired)];
    unfold sound_check; simpl.
  - rewrite has_node_eq. destruct (Graph.node _ n) as [v|]; by split.
  - unfold kind_of. destruct (Graph.node _ n) as [v|]; [|split; [done|naive_solver]].
    destruct (matches_kind _ _) eqn:Hm; (split; [|try done]); [eauto|done|].
    intros _ (k' & [= <-] & ?). congruence.
  - case_decide; by split.
  - rewrite <-size_list_to_set_NoDup. destruct (_ =? _)%nat eqn:He.
    + apply Nat.eqb_eq in He. by split.
    + apply Nat.eqb_neq in He. by split.
  - rewrite <-mount_at_None. by destruct (mount_at _ _ _).
  - rewrite <-has_mounted_descendant_false. by destruct (has_mounted_descendant _ _ _).
Qed.
