(* ===== verification/Effects.v ===== *)
(** * Simulating actions: [storage-engine/src/effects.rs]

    [simulate_action] validates an action, evaluates its trusted contract and
    projects its predicted effect.  [DesiredState] and [SimulationEvidence]
    are passed by [&mut] in the source: the functions here return the new
    pair, and [simulate_action] returns the pair the caller is left with next
    to its [Result], on failure as on success. *)

From S2P Require Import Prelude Model Graph GraphOrder GraphValid State Action Contract.
From S2P Require Import ContractProps Logical Evidence Prerequisites.

Abbreviation simulation := (DesiredState * SimulationEvidence)%type (only parsing).
Implicit Types (desired : DesiredState) (ev : SimulationEvidence) (node : NodeId).

Definition set_graph (g : NodeGraph) desired : DesiredState :=
  let 'DesiredState.mk _ m b i := desired in DesiredState.mk g m b i.
Definition set_runtime (r : list MountEntry) desired : DesiredState :=
  let 'DesiredState.mk g (MountSpec.mk _ p) b i := desired in
  DesiredState.mk g (MountSpec.mk r p) b i.
Definition set_persistent (p : list MountEntry) desired : DesiredState :=
  let 'DesiredState.mk g (MountSpec.mk r _) b i := desired in
  DesiredState.mk g (MountSpec.mk r p) b i.

(** [update] returns the changed node, or [None] for a wrong kind. *)
Definition update_node (st : simulation) (id : NodeId) (effect : string) (update : Node → option Node)
    : result simulation EffectApplicationError :=
  let '(desired, ev) := st in
  match Graph.node desired.(DesiredState.graph) id with
  | None => Err (EffectApplicationError.MissingNode id)
  | Some n =>
      match update n with
      | None => Err (EffectApplicationError.WrongNodeKind id effect)
      | Some n =>
          let? (g, _) := map_err EffectApplicationError.Structure
                           (replace_existing desired.(DesiredState.graph) id n) in
          Ok (set_graph g desired,
              set_projected_nodes (push_new id ev.(SimulationEvidence.projected_graph_nodes)) ev)
      end
  end.

Definition set_size (size : option Bytes) (n : Node) : option Node :=
  let 'Node.mk (NodeSpec.mk k _) f := n in Some (Node.mk (NodeSpec.mk k size) f).

Definition set_partition_attributes (attributes : PartitionAttributes) (n : Node) : option Node :=
  match n with
  | Node.mk (NodeSpec.mk (NodeKind.Partition number offset role _) s) f =>
      Some (Node.mk (NodeSpec.mk (NodeKind.Partition number offset role attributes) s) f)
  | _ => None
  end.

Definition set_filesystem_label (label : option string) (n : Node) : option Node :=
  match n with
  | Node.mk (NodeSpec.mk (NodeKind.Filesystem k _) s) f =>
      Some (Node.mk (NodeSpec.mk (NodeKind.Filesystem k label) s) f)
  | _ => None
  end.

Definition set_btrfs_allocation (allocation : BtrfsAllocation) (n : Node) : option Node :=
  match n with
  | Node.mk (NodeSpec.mk (NodeKind.Filesystem (FilesystemKind.Btrfs _) l) s) f =>
      Some (Node.mk (NodeSpec.mk (NodeKind.Filesystem (FilesystemKind.Btrfs allocation) l) s) f)
  | _ => None
  end.

Definition apply_graph_effect (st : simulation) (effect : GraphEffect)
    : result simulation EffectApplicationError :=
  let '(desired, ev) := st in
  match effect with
  | GraphEffect.InsertNode id spec =>
      match Graph.node desired.(DesiredState.graph) id with
      | Some _ => Err (EffectApplicationError.DuplicateNode id)
      | None =>
          let? g := map_err EffectApplicationError.Structure
                      (insert_new desired.(DesiredState.graph) id (Node.mk spec NodeFacts.default)) in
          Ok (set_graph g desired,
              set_projected_nodes (ev.(SimulationEvidence.projected_graph_nodes) ++ [id]) ev)
      end
  | GraphEffect.RemoveNode node =>
      match remove_node desired.(DesiredState.graph) node with
      | (None, _) => Err (EffectApplicationError.MissingNode node)
      | (Some _, g) =>
          Ok (set_graph g desired,
              set_block_interfaces (delete node ev.(SimulationEvidence.block_interfaces))
                (set_activations (delete node ev.(SimulationEvidence.activations))
                   (set_projected_nodes
                      (filter (λ c, c ≠ node) ev.(SimulationEvidence.projected_graph_nodes)) ev)))
      end
  | GraphEffect.SetNodeSize node size => update_node st node "set node size" (set_size (Some size))
  | GraphEffect.InvalidateNodeSize node =>
      update_node st node "invalidate node size" (set_size None)
  | GraphEffect.SetPartitionAttributes partition attributes =>
      update_node st partition "set partition attributes" (set_partition_attributes attributes)
  | GraphEffect.SetFilesystemLabel filesystem label =>
      update_node st filesystem "set filesystem label" (set_filesystem_label label)
  | GraphEffect.SetBtrfsAllocation filesystem allocation =>
      update_node st filesystem "set Btrfs allocation" (set_btrfs_allocation allocation)
  | GraphEffect.InsertDependency dependency =>
      Ok (set_graph (insert_dependency desired.(DesiredState.graph) dependency).2 desired, ev)
  | GraphEffect.RemoveDependency dependency =>
      let '(found, g) := remove_dependency desired.(DesiredState.graph) dependency in
      if found : bool then Ok (set_graph g desired, ev)
      else Err EffectApplicationError.MissingDependency
  | GraphEffect.InsertRelation relation =>
      Ok (set_graph (insert_relation desired.(DesiredState.graph) relation).2 desired, ev)
  | GraphEffect.RemoveRelation relation =>
      let '(found, g) := remove_relation desired.(DesiredState.graph) relation in
      if found : bool then Ok (set_graph g desired, ev)
      else Err EffectApplicationError.MissingRelation
  | GraphEffect.SetActivation node active =>
      match Graph.node desired.(DesiredState.graph) node with
      | None => Err (EffectApplicationError.MissingNode node)
      | Some _ =>
          let ev := set_activations (<[node := active]> ev.(SimulationEvidence.activations)) ev in
          Ok (desired,
              if negb active
              then set_block_interfaces (delete node ev.(SimulationEvidence.block_interfaces)) ev
              else ev)
      end
  end.

Definition apply_graph_effects (st : simulation) (effects : list GraphEffect)
    : result simulation EffectApplicationError :=
  try_fold apply_graph_effect st effects.

Definition mounted_at (target : PathBuf) (context : MountContext) (m : MountEntry) : Prop :=
  m.(MountEntry.target) = target ∧ m.(MountEntry.context) = context.
#[global] Instance mounted_at_dec target context m : Decision (mounted_at target context m).
Proof. unfold mounted_at. apply _. Defined.

Definition apply_mount_effect (st : simulation) (effect : MountEffect)
    : result simulation EffectApplicationError :=
  let '(desired, ev) := st in
  match effect with
  | MountEffect.AddRuntime source target options context =>
      match mount_at desired target context with
      | Some _ => Err (EffectApplicationError.OccupiedMountTarget target)
      | None =>
          if has_mounted_descendant desired target context
          then Err (EffectApplicationError.MountedDescendant target)
          else
            let ev := match source with
                      | MountSource.Filesystem filesystem =>
                          set_checked (ev.(SimulationEvidence.checked_filesystems) ∖ {[filesystem]}) ev
                      | MountSource.Bind _ | MountSource.Other _ => set_checked ∅ ev
                      | _ => ev
                      end in
            Ok (set_runtime (desired.(DesiredState.mounts).(MountSpec.runtime) ++
                               [MountEntry.mk source target options context]) desired,
                set_projected_runtime true ev)
      end
  | MountEffect.RemoveRuntime target context =>
      if has_mounted_descendant desired target context
      then Err (EffectApplicationError.MountedDescendant target)
      else Ok (set_runtime (filter (λ m, ¬ mounted_at target context m)
                              desired.(DesiredState.mounts).(MountSpec.runtime)) desired,
               set_projected_runtime true ev)
  | MountEffect.SetPersistent entry =>
      Ok (set_persistent
            (filter (λ m, ¬ mounted_at entry.(MountEntry.target) entry.(MountEntry.context) m)
               desired.(DesiredState.mounts).(MountSpec.persistent) ++ [entry]) desired,
          mark_persistent_target entry.(MountEntry.target) entry.(MountEntry.context) ev)
  | MountEffect.RemovePersistent target context =>
      Ok (set_persistent (filter (λ m, ¬ mounted_at target context m)
                            desired.(DesiredState.mounts).(MountSpec.persistent)) desired,
          mark_persistent_target target context ev)
  end.

Definition apply_mount_effects (st : simulation) (effects : list MountEffect)
    : result simulation EffectApplicationError :=
  try_fold apply_mount_effect st effects.

(** The candidate state; the source assigns it to [*desired] and [*evidence]
    only when this is [Ok]. *)
Definition apply_effect_with_invalidations (st : simulation) (effect : PredictedEffect)
    (invalidations : list FactInvalidation)
    : result (simulation * list FactInvalidation) EffectApplicationError :=
  let '(desired, ev) := st in
  let '(ev, invalidated_facts) := invalidate_observations desired ev invalidations in
  let ev := invalidate_filesystem_checks desired ev invalidations in
  let? st := apply_graph_effects (desired, ev) effect.(PredictedEffect.graph) in
  let? (next, ledger) := apply_mount_effects st effect.(PredictedEffect.mounts) in
  let? ledger := apply_allocation_effects ledger effect.(PredictedEffect.allocations) in
  let? _ := map_err EffectApplicationError.Structure
              (validate_structure next.(DesiredState.graph)) in
  Ok (next, ledger, invalidated_facts).

Definition simulate_action (st : simulation) (action : ProviderAction)
    : simulation * result SimulatedAction ActionSimulationError :=
  let '(desired, ev) := st in
  let diagnostics := validate_provider_action action desired.(DesiredState.graph) in
  if existsb (λ d, bool_decide (d.(Diagnostic.severity) = DiagnosticSeverity.Error)) diagnostics
  then (st, Err (ActionSimulationError.Validation diagnostics))
  else
    let contract := describe_action action desired.(DesiredState.graph) in
    let checks := evaluate_prerequisites desired ev contract.(ActionContract.prerequisites) in
    if existsb (λ c, is_violated c.(PrerequisiteCheck.status)) checks
    then (st, Err (ActionSimulationError.PrerequisitesViolated checks))
    else
      match apply_effect_with_invalidations st contract.(ActionContract.predicted_effect)
              contract.(ActionContract.invalidated_facts) with
      | Err e => (st, Err (ActionSimulationError.Effect e))
      | Ok (desired', ev', invalidated_facts) =>
          ((desired', apply_outputs ev' contract.(ActionContract.provided_outputs)),
           Ok (SimulatedAction.mk contract checks invalidated_facts))
      end.

(** ** What an effect leaves alone *)

(** The node whose value an effect changes. *)
Definition node_target (e : GraphEffect) : option NodeId :=
  match e with
  | GraphEffect.InsertDependency _ | GraphEffect.RemoveDependency _
  | GraphEffect.InsertRelation _ | GraphEffect.RemoveRelation _
  | GraphEffect.SetActivation _ _ => None
  | GraphEffect.InvalidateNodeSize n | GraphEffect.InsertNode n _ | GraphEffect.RemoveNode n
  | GraphEffect.SetNodeSize n _ | GraphEffect.SetPartitionAttributes n _
  | GraphEffect.SetFilesystemLabel n _ | GraphEffect.SetBtrfsAllocation n _ => Some n
  end.

Lemma node_target_nodes e n : node_target e = Some n → effect_nodes e = [n].
Proof. destruct e; simpl; congruence. Qed.

(** Components of the state after a step. *)
Definition sim_graph (st : simulation) : NodeGraph := st.1.(DesiredState.graph).
Definition sim_runtime (st : simulation) : list MountEntry :=
  st.1.(DesiredState.mounts).(MountSpec.runtime).

Lemma update_node_ok st id label f st' :
  update_node st id label f = Ok st' →
  ∃ n n', Graph.node (sim_graph st) id = Some n ∧ f n = Some n' ∧
    sim_graph st' = NodeGraph.mk (<[id := n']> (sim_graph st).(NodeGraph.nodes))
      (sim_graph st).(NodeGraph.dependencies) (sim_graph st).(NodeGraph.relations) ∧
    st'.1.(DesiredState.mounts) = st.1.(DesiredState.mounts) ∧
    st'.2 = set_projected_nodes (push_new id st.2.(SimulationEvidence.projected_graph_nodes)) st.2.
Proof.
  destruct st as [[g m b i] ev]. unfold update_node, replace_existing, sim_graph. simpl.
  unfold Graph.node. destruct (_ !! id) as [n|] eqn:Hn; [|done].
  destruct (f n) as [n'|] eqn:Hf; simpl; [|done]. intros [= <-]. eauto 10.
Qed.

Lemma apply_graph_effect_nodes st e st' n :
  apply_graph_effect st e = Ok st' → node_target e ≠ Some n →
  Graph.node (sim_graph st') n = Graph.node (sim_graph st) n.
Proof.
  destruct st as [[g m b i] ev]. unfold sim_graph.
  assert (∀ id l f, update_node (DesiredState.mk g m b i, ev) id l f = Ok st' → Some id ≠ Some n →
    Graph.node st'.1.(DesiredState.graph) n = Graph.node g n) as Hup.
  { intros id l f (x & x' & _ & _ & Hg & _)%update_node_ok Hne. unfold sim_graph in Hg.
    rewrite Hg. unfold Graph.node. simpl. by rewrite lookup_insert_ne by congruence. }
  destruct e; cbn [apply_graph_effect node_target]; eauto; simpl.
  - unfold Graph.node, insert_new. destruct (_ !! id) eqn:Hid; [done|]. simpl. intros [= <-] Hne.
    simpl. by rewrite lookup_insert_ne by congruence.
  - unfold Graph.node. destruct (_ !! id) eqn:Hid; [|done]. intros [= <-] Hne. simpl.
    by rewrite lookup_delete_ne by congruence.
  - intros [= <-] _. unfold Graph.node, insert_dependency. by destruct (set_insert d g.(NodeGraph.dependencies)).
  - destruct (contains _ _); [|done]. by intros [= <-] _.
  - intros [= <-] _. unfold Graph.node, insert_relation. by destruct (set_insert r g.(NodeGraph.relations)).
  - destruct (contains _ _); [|done]. by intros [= <-] _.
  - destruct (Graph.node g node); [|done]. by intros [= <-] _.
Qed.

Lemma apply_graph_effect_dependencies st e st' d :
  apply_graph_effect st e = Ok st' →
  e ≠ GraphEffect.InsertDependency d → e ≠ GraphEffect.RemoveDependency d →
  d ∈ (sim_graph st').(NodeGraph.dependencies) ↔ d ∈ (sim_graph st).(NodeGraph.dependencies).
Proof.
  destruct st as [[g m b i] ev]. unfold sim_graph.
  assert (∀ id l f, update_node (DesiredState.mk g m b i, ev) id l f = Ok st' →
    d ∈ st'.1.(DesiredState.graph).(NodeGraph.dependencies) ↔ d ∈ g.(NodeGraph.dependencies)) as Hup.
  { intros id l f (x & x' & _ & _ & Hg & _)%update_node_ok. unfold sim_graph in Hg. by rewrite Hg. }
  destruct e; cbn [apply_graph_effect]; eauto; simpl; intros Ha Hi Hr; revert Ha.
  - unfold Graph.node, insert_new. destruct (_ !! id) eqn:Hid; [done|]. simpl. by intros [= <-].
  - destruct (_ !! id) eqn:Hid; [|done]. by intros [= <-].
  - intros [= <-]. unfold insert_dependency.
    destruct (set_insert_cases d0 g.(NodeGraph.dependencies)) as [[_ ->]|[_ ->]]; simpl; [|done].
    rewrite elem_of_app, list_elem_of_singleton. naive_solver.
  - destruct (contains _ _); [|done]. intros [= <-]. simpl.
    rewrite list_elem_of_filter. naive_solver.
  - intros [= <-]. unfold insert_relation. by destruct (set_insert r g.(NodeGraph.relations)).
  - destruct (contains _ _); [|done]. by intros [= <-].
  - destruct (Graph.node g node); [|done]. by intros [= <-].
Qed.

Lemma apply_graph_effects_frame effects st st' :
  apply_graph_effects st effects = Ok st' →
  (∀ n, (∀ e, e ∈ effects → node_target e ≠ Some n) →
        Graph.node (sim_graph st') n = Graph.node (sim_graph st) n) ∧
  (∀ d, GraphEffect.InsertDependency d ∉ effects → GraphEffect.RemoveDependency d ∉ effects →
        d ∈ (sim_graph st').(NodeGraph.dependencies) ↔ d ∈ (sim_graph st).(NodeGraph.dependencies)).
Proof.
  unfold apply_graph_effects. revert st. induction effects as [|e l IH]; intros st; simpl.
  { by intros [= <-]. }
  destruct (apply_graph_effect st e) as [st1|] eqn:He; [|done]. intros [Hn Hd]%IH. split.
  - intros n Hno. rewrite Hn by set_solver.
    eapply apply_graph_effect_nodes; [done|]. apply Hno. by left.
  - intros d Hi Hr. rewrite Hd by set_solver. eapply apply_graph_effect_dependencies; set_solver.
Qed.

Lemma apply_mount_effect_frame st e st' :
  apply_mount_effect st e = Ok st' →
  sim_graph st' = sim_graph st ∧
  ∀ m, mount_effect_lock e ≠ ActionResource.MountTarget m.(MountEntry.target) m.(MountEntry.context) →
       m ∈ sim_runtime st' ↔ m ∈ sim_runtime st.
Proof.
  destruct st as [[g [r p] b i] ev]. unfold sim_graph, sim_runtime.
  destruct e as [src t os ctx|t ctx|en|t ctx]; simpl.
  - destruct (mount_at _ t ctx); [done|]. destruct (has_mounted_descendant _ _ _); [done|].
    intros [= <-]. split; [done|]. intros m Hm. simpl.
    rewrite elem_of_app, list_elem_of_singleton. split; [|auto]. intros [?| ->]; [done|].
    by destruct Hm.
  - destruct (has_mounted_descendant _ _ _); [done|]. intros [= <-]. split; [done|].
    intros m Hm. simpl. rewrite list_elem_of_filter. unfold mounted_at. naive_solver.
  - intros [= <-]. done.
  - intros [= <-]. done.
Qed.

Lemma apply_mount_effects_frame effects st st' :
  apply_mount_effects st effects = Ok st' →
  sim_graph st' = sim_graph st ∧
  ∀ m, (∀ e, e ∈ effects → mount_effect_lock e ≠
          ActionResource.MountTarget m.(MountEntry.target) m.(MountEntry.context)) →
       m ∈ sim_runtime st' ↔ m ∈ sim_runtime st.
Proof.
  unfold apply_mount_effects. revert st. induction effects as [|e l IH]; intros st; simpl.
  { by intros [= <-]. }
  destruct (apply_mount_effect st e) as [st1|] eqn:He; [|done]. intros [Hg Hm]%IH.
  apply apply_mount_effect_frame in He as [Hg1 Hm1]. split; [congruence|].
  intros m Hno. rewrite Hm by set_solver. apply Hm1. apply Hno. by left.
Qed.

Lemma apply_graph_effect_runtime st e st' :
  apply_graph_effect st e = Ok st' → st'.1.(DesiredState.mounts) = st.1.(DesiredState.mounts).
Proof.
  destruct st as [[g m b i] ev].
  assert (∀ id l f, update_node (DesiredState.mk g m b i, ev) id l f = Ok st' →
    st'.1.(DesiredState.mounts) = m) as Hup.
  { by intros id l f (? & ? & _ & _ & _ & Hm & _)%update_node_ok. }
  destruct e; cbn [apply_graph_effect]; eauto; simpl.
  - destruct (Graph.node g id); [done|]. unfold insert_new. destruct (_ !! id); [done|].
    by intros [= <-].
  - destruct (_ !! id); [|done]. by intros [= <-].
  - by intros [= <-].
  - destruct (contains _ _); [|done]. by intros [= <-].
  - by intros [= <-].
  - destruct (contains _ _); [|done]. by intros [= <-].
  - destruct (Graph.node g node); [|done]. by intros [= <-].
Qed.

Lemma apply_graph_effects_runtime effects st st' :
  apply_graph_effects st effects = Ok st' → sim_runtime st' = sim_runtime st.
Proof.
  unfold apply_graph_effects, sim_runtime. revert st.
  induction effects as [|e l IH]; intros st; simpl; [by intros [= <-]|].
  destruct (apply_graph_effect st e) as [st1|] eqn:He; [|done]. intros ->%IH.
  by rewrite (apply_graph_effect_runtime _ _ _ He).
Qed.

Lemma apply_graph_effect_relations st e st' r :
  apply_graph_effect st e = Ok st' →
  e ≠ GraphEffect.InsertRelation r → e ≠ GraphEffect.RemoveRelation r →
  r ∈ (sim_graph st').(NodeGraph.relations) ↔ r ∈ (sim_graph st).(NodeGraph.relations).
Proof.
  destruct st as [[g m b i] ev]. unfold sim_graph.
  assert (∀ id l f, update_node (DesiredState.mk g m b i, ev) id l f = Ok st' →
    r ∈ st'.1.(DesiredState.graph).(NodeGraph.relations) ↔ r ∈ g.(NodeGraph.relations)) as Hup.
  { intros id l f (x & x' & _ & _ & Hg & _)%update_node_ok. unfold sim_graph in Hg. by rewrite Hg. }
  destruct e; cbn [apply_graph_effect]; eauto; simpl; intros Ha Hi Hr; revert Ha.
  - unfold Graph.node, insert_new. destruct (_ !! id) eqn:Hid; [done|]. simpl. by intros [= <-].
  - destruct (_ !! id) eqn:Hid; [|done]. by intros [= <-].
  - intros [= <-]. unfold insert_dependency. by destruct (set_insert d g.(NodeGraph.dependencies)).
  - destruct (contains _ _); [|done]. by intros [= <-].
  - intros [= <-]. unfold insert_relation.
    destruct (set_insert_cases r0 g.(NodeGraph.relations)) as [[_ ->]|[_ ->]]; simpl; [|done].
    rewrite elem_of_app, list_elem_of_singleton. naive_solver.
  - destruct (contains _ _); [|done]. intros [= <-]. simpl.
    rewrite list_elem_of_filter. naive_solver.
  - destruct (Graph.node g node); [|done]. by intros [= <-].
Qed.

Lemma apply_graph_effects_relations effects st st' r :
  apply_graph_effects st effects = Ok st' →
  GraphEffect.InsertRelation r ∉ effects → GraphEffect.RemoveRelation r ∉ effects →
  r ∈ (sim_graph st').(NodeGraph.relations) ↔ r ∈ (sim_graph st).(NodeGraph.relations).
Proof.
  unfold apply_graph_effects. revert st. induction effects as [|e l IH]; intros st; simpl.
  { by intros [= <-]. }
  destruct (apply_graph_effect st e) as [st1|] eqn:He; [|done]. intros Hl Hi Hr.
  rewrite (IH st1) by set_solver. eapply apply_graph_effect_relations; set_solver.
Qed.

Definition sim_persistent (st : simulation) : list MountEntry :=
  st.1.(DesiredState.mounts).(MountSpec.persistent).

Lemma apply_mount_effects_persistent effects st st' m :
  apply_mount_effects st effects = Ok st' →
  (∀ e, e ∈ effects → mount_effect_lock e ≠ ActionResource.PersistentMountConfig m.(MountEntry.context)) →
  m ∈ sim_persistent st' ↔ m ∈ sim_persistent st.
Proof.
  unfold apply_mount_effects. revert st. induction effects as [|e l IH]; intros st; simpl.
  { by intros [= <-]. }
  destruct (apply_mount_effect st e) as [st1|] eqn:He; [|done]. intros Hl Hno.
  rewrite (IH st1 Hl) by set_solver. specialize (Hno e ltac:(left)). clear IH Hl.
  destruct st as [[g [r p] b i] ev]. revert He. unfold sim_persistent.
  destruct e as [src t os ctx|t ctx|en|t ctx]; simpl in *.
  - destruct (mount_at _ t ctx); [done|]. destruct (has_mounted_descendant _ _ _); [done|].
    by intros [= <-].
  - destruct (has_mounted_descendant _ _ _); [done|]. by intros [= <-].
  - intros [= <-]. simpl. rewrite elem_of_app, list_elem_of_singleton, list_elem_of_filter.
    unfold mounted_at. split; [|intros ?; left; split; [|done]; intros [_ ?]; congruence].
    intros [[_ ?]| ->]; [done|congruence].
  - intros [= <-]. simpl. rewrite list_elem_of_filter. unfold mounted_at.
    split; [by intros [_ ?]|]. intros ?. split; [|done]. intros [_ ?]. congruence.
Qed.

Lemma apply_graph_effects_persistent effects st st' :
  apply_graph_effects st effects = Ok st' → sim_persistent st' = sim_persistent st.
Proof.
  unfold apply_graph_effects, sim_persistent. revert st.
  induction effects as [|e l IH]; intros st; simpl; [by intros [= <-]|].
  destruct (apply_graph_effect st e) as [st1|] eqn:He; [|done]. intros ->%IH.
  by rewrite (apply_graph_effect_runtime _ _ _ He).
Qed.

(** ** Simulation of one action *)

(** The steps of a successful simulation. *)
Record simulated (st : simulation) (action : ProviderAction) (st' : simulation)
    (sim : SimulatedAction) : Prop := {
  sim_contract : sim.(SimulatedAction.contract) = describe_action action (sim_graph st);
  sim_checks : sim.(SimulatedAction.checks) =
    evaluate_prerequisites st.1 st.2 sim.(SimulatedAction.contract).(ActionContract.prerequisites);
  sim_not_violated c : c ∈ sim.(SimulatedAction.checks) →
    is_violated c.(PrerequisiteCheck.status) = false;
  sim_valid : validate_structure (sim_graph st') = Ok tt;
  sim_steps :
    let c := sim.(SimulatedAction.contract) in
    let '(ev0, inv) := invalidate_observations st.1 st.2 c.(ActionContract.invalidated_facts) in
    let ev1 := invalidate_filesystem_checks st.1 ev0 c.(ActionContract.invalidated_facts) in
    ∃ st1 ev2 ev3,
      apply_graph_effects (st.1, ev1) c.(ActionContract.predicted_effect).(PredictedEffect.graph) = Ok st1 ∧
      apply_mount_effects st1 c.(ActionContract.predicted_effect).(PredictedEffect.mounts) =
        Ok (st'.1, ev2) ∧
      apply_allocation_effects ev2 c.(ActionContract.predicted_effect).(PredictedEffect.allocations) =
        Ok ev3 ∧
      st'.2 = apply_outputs ev3 c.(ActionContract.provided_outputs) ∧
      sim.(SimulatedAction.invalidated_facts) = inv }.

Lemma simulate_action_ok st action st' sim :
  simulate_action st action = (st', Ok sim) → simulated st action st' sim.
Proof.
  destruct st as [desired ev]. unfold simulate_action.
  destruct (existsb _ _); [done|]. cbn zeta.
  destruct (existsb _ (evaluate_prerequisites _ _ _)) eqn:Hv; [done|].
  rewrite existsb_false in Hv. unfold apply_effect_with_invalidations.
  destruct (invalidate_observations _ _ _) as [ev0 inv] eqn:Hinv.
  destruct (apply_graph_effects _ _) as [st1|] eqn:Hg; [|done].
  destruct (apply_mount_effects _ _) as [[d2 ev2]|] eqn:Hm; [|done].
  destruct (apply_allocation_effects _ _) as [ev3|] eqn:Ha; [|done].
  destruct (validate_structure _) as [[]|] eqn:Hs; cbn [map_err]; [|done].
  intros [= <- <-]. split; [done..|].
  cbn [SimulatedAction.contract fst snd]. cbn zeta. rewrite Hinv. by exists st1, ev2, ev3.
Qed.

Lemma simulate_action_err st action st' e : simulate_action st action = (st', Err e) → st' = st.
Proof.
  destruct st as [desired ev]. unfold simulate_action. cbn zeta.
  repeat (case_match; try done); by intros [= <- _].
Qed.

(** A rejected action leaves the configuration and the ledger as they were; an
    accepted one produces a structurally valid graph and had no prerequisite
    that is known to be false. *)
Theorem simulate_action_safe st action :
  match simulate_action st action with
  | (st', Err _) => st' = st
  | (st', Ok sim) =>
      structure_wf (sim_graph st') ∧
      sim.(SimulatedAction.contract) = describe_action action (sim_graph st) ∧
      (∀ p, p ∈ sim.(SimulatedAction.contract).(ActionContract.prerequisites) →
            is_violated (evaluate_prerequisite st.1 st.2 p) = false)
  end.
Proof.
  destruct (simulate_action st action) as [st' [sim|e]] eqn:Hsim.
  - apply simulate_action_ok in Hsim as [Hc Hk Hv Hs _].
    split_and!; [by apply validate_structure_iff|done|]. intros p Hp.
    apply (Hv (PrerequisiteCheck.mk p (evaluate_prerequisite st.1 st.2 p))).
    rewrite Hk. apply list_elem_of_fmap. eauto.
  - by eapply simulate_action_err.
Qed.

(** Simulation respects the locks of the contract: what is not write-locked is
    not changed.  Nodes keep their value, an edge changes only at a locked
    endpoint, runtime mounts change only at a locked target. *)
Theorem simulate_action_frame st action st' sim :
  simulate_action st action = (st', Ok sim) →
  let c := sim.(SimulatedAction.contract) in
  (∀ n, ¬ writes c (ActionResource.Node n) →
        Graph.node (sim_graph st') n = Graph.node (sim_graph st) n) ∧
  (∀ d, ¬ writes c (ActionResource.Node d.(Dependency.from_)) →
        ¬ writes c (ActionResource.Node d.(Dependency.to)) →
        d ∈ (sim_graph st').(NodeGraph.dependencies) ↔ d ∈ (sim_graph st).(NodeGraph.dependencies)) ∧
  (∀ m, ¬ writes c (ActionResource.MountTarget m.(MountEntry.target) m.(MountEntry.context)) →
        m ∈ sim_runtime st' ↔ m ∈ sim_runtime st).
Proof.
  intros [Hc _ _ _ Hsteps]%simulate_action_ok c.
  destruct (action_contract_covers action (sim_graph st)) as (Hg & Hm & _).
  rewrite <-Hc in Hg, Hm. fold c in Hg, Hm, Hsteps. clear Hc.
  cbn zeta in Hsteps.
  destruct (invalidate_observations st.1 st.2 _) as [ev0 inv].
  destruct Hsteps as (st1 & ev2 & ev3 & Hge & Hme & _ & _ & _).
  pose proof (apply_graph_effects_runtime _ _ _ Hge) as Hrt.
  apply apply_graph_effects_frame in Hge as [Hnodes Hdeps].
  apply apply_mount_effects_frame in Hme as [Hsame Hmounts].
  change (sim_graph (st'.1, ev2)) with (sim_graph st') in Hsame.
  change (sim_runtime (st'.1, ev2)) with (sim_runtime st') in Hmounts.
  rewrite Hsame. split_and!.
  - intros n Hn. apply (Hnodes n). intros e He Ht. destruct (Hg e He) as [(k & Hk & Hw) _].
    apply node_target_nodes in Ht. rewrite Ht in Hk. apply list_elem_of_singleton in Hk as ->. done.
  - intros d Hf Ht. apply (Hdeps d); intros He; destruct (Hg _ He) as [(k & Hk & Hw) _];
      cbn [effect_nodes] in Hk; apply elem_of_cons in Hk as [->|Hk]; try done;
      by apply list_elem_of_singleton in Hk as ->.
  - intros m Hn. rewrite Hmounts, Hrt; [done|]. intros e He Hl. destruct (Hm e He) as [Hw _].
    by rewrite Hl in Hw.
Qed.

(** ** Runtime mounts *)

Definition mount_key (m : MountEntry) : PathBuf * MountContext :=
  (m.(MountEntry.target), m.(MountEntry.context)).

(** One mount per target and namespace. *)
Definition mounts_unique (st : simulation) : Prop := NoDup (mount_key <$> sim_runtime st).

Lemma NoDup_fmap_filter {A B} (f : A → B) (P : A → Prop) `{∀ x, Decision (P x)} l :
  NoDup (f <$> l) → NoDup (f <$> filter P l).
Proof.
  induction l as [|x l IH]; [done|]. csimpl. rewrite filter_cons. intros [Hx Hl]%NoDup_cons.
  case_decide; [|auto]. csimpl. constructor; [|auto].
  intros (y & Hy & [_ Hin]%list_elem_of_filter)%list_elem_of_fmap. apply Hx.
  apply list_elem_of_fmap. eauto.
Qed.

Lemma apply_mount_effect_unique st e st' :
  apply_mount_effect st e = Ok st' → mounts_unique st → mounts_unique st'.
Proof.
  destruct st as [[g [r p] b i] ev]. unfold mounts_unique, sim_runtime.
  destruct e as [src t os ctx|t ctx|en|t ctx]; simpl.
  - destruct (mount_at _ t ctx) eqn:Hat; [done|]. destruct (has_mounted_descendant _ _ _); [done|].
    intros [= <-]. simpl. rewrite fmap_snoc, NoDup_snoc. intros Hnd. split; [done|].
    intros (m & Hkey & Hin)%list_elem_of_fmap. unfold mount_key in Hkey. simplify_eq/=.
    rewrite mount_at_None in Hat. by eapply Hat.
  - destruct (has_mounted_descendant _ _ _); [done|]. intros [= <-]. simpl. apply NoDup_fmap_filter.
  - by intros [= <-].
  - by intros [= <-].
Qed.

(** Simulation never stacks two mounts on one target of one namespace. *)
Theorem simulate_action_mounts_unique st action :
  mounts_unique st → mounts_unique (simulate_action st action).1.
Proof.
  intros Hu. destruct (simulate_action st action) as [st' [sim|e]] eqn:Hsim.
  - apply simulate_action_ok in Hsim as [_ _ _ _ Hsteps]. cbn zeta in Hsteps.
    destruct (invalidate_observations st.1 st.2 _) as [ev0 inv].
    destruct Hsteps as (st1 & ev2 & ev3 & Hge & Hme & _).
    apply apply_graph_effects_runtime in Hge.
    assert (mounts_unique st1) as Hu1 by (unfold mounts_unique in *; by rewrite Hge).
    change (mounts_unique (st'.1, ev2)). clear Hge Hu.
    revert st1 Hme Hu1. generalize (PredictedEffect.mounts
      (ActionContract.predicted_effect (SimulatedAction.contract sim))).
    unfold apply_mount_effects. induction l as [|m l IH]; intros st1; simpl; [by intros [= <-]|].
    destruct (apply_mount_effect st1 m) as [st2|] eqn:Hm; [|done]. intros Hl Hu1.
    apply (IH st2 Hl). by eapply apply_mount_effect_unique.
  - by rewrite (simulate_action_err _ _ _ _ Hsim).
Qed.
