(* ===== verification/Report.v ===== *)
(** * Goals, protection policies and reports

    The report vocabulary of [storage-engine/src/simulate.rs], the comparison
    of a predicted configuration with the requested goal, and the preservation
    policy of [storage-engine/src/validate.rs] for one contract. *)

From S2P Require Import Prelude Model Graph GraphOrder State Action Contract ContractProps.
From S2P Require Import Logical Evidence Prerequisites Effects.

(** ** Data *)

Module ProtectedMount.
Record ProtectedMount := mk { target : PathBuf; context : MountContext }.
#[global] Instance ProtectedMount_eq_dec : EqDecision ProtectedMount.
Proof. solve_decision. Defined.
End ProtectedMount.
Abbreviation ProtectedMount := ProtectedMount.ProtectedMount.

Module ProtectedScope.
Record ProtectedScope := mk {
  nodes : list NodeId;
  runtime_mounts : list ProtectedMount;
  persistent_mounts : list ProtectedMount }.
#[global] Instance ProtectedScope_eq_dec : EqDecision ProtectedScope.
Proof. solve_decision. Defined.
Definition default : ProtectedScope := mk [] [] [].
End ProtectedScope.
Abbreviation ProtectedScope := ProtectedScope.ProtectedScope.

Module ProtectedAspect.
Inductive ProtectedAspect :=
| Node (id : NodeId)
| RuntimeMount (m : ProtectedMount)
| PersistentMount (m : ProtectedMount).
#[global] Instance ProtectedAspect_eq_dec : EqDecision ProtectedAspect.
Proof. solve_decision. Defined.
End ProtectedAspect.
Abbreviation ProtectedAspect := ProtectedAspect.ProtectedAspect.

Module ProtectionViolation.
Record ProtectionViolation := mk { action : ActionId; aspect : ProtectedAspect }.
#[global] Instance ProtectionViolation_eq_dec : EqDecision ProtectionViolation.
Proof. solve_decision. Defined.
End ProtectionViolation.
Abbreviation ProtectionViolation := ProtectionViolation.ProtectionViolation.

Module GoalAspect.
Inductive GoalAspect :=
| Graph
| RuntimeMount (target : PathBuf) (context : MountContext)
| PersistentMount (target : PathBuf) (context : MountContext)
| Boot.
#[global] Instance GoalAspect_eq_dec : EqDecision GoalAspect.
Proof. solve_decision. Defined.
End GoalAspect.
Abbreviation GoalAspect := GoalAspect.GoalAspect.

Module GoalStatus.
Inductive GoalStatus :=
| Satisfied
| Violated (reason : string)
| Unknown (required_evidence : string).
#[global] Instance GoalStatus_eq_dec : EqDecision GoalStatus.
Proof. solve_decision. Defined.
End GoalStatus.
Abbreviation GoalStatus := GoalStatus.GoalStatus.

Module GoalCheck.
Record GoalCheck := mk { aspect : GoalAspect; status : GoalStatus }.
#[global] Instance GoalCheck_eq_dec : EqDecision GoalCheck.
Proof. solve_decision. Defined.
End GoalCheck.
Abbreviation GoalCheck := GoalCheck.GoalCheck.

Module SimulatedStep.
Record SimulatedStep := mk {
  action : ActionId;
  checks : list PrerequisiteCheck;
  invalidated_facts : list FactInvalidation }.
#[global] Instance SimulatedStep_eq_dec : EqDecision SimulatedStep.
Proof. solve_decision. Defined.
End SimulatedStep.
Abbreviation SimulatedStep := SimulatedStep.SimulatedStep.

Module SimulationResult.
Record SimulationResult := mk {
  desired : DesiredState;
  evidence : SimulationEvidenceSummary;
  steps : list SimulatedStep }.
#[global] Instance SimulationResult_eq_dec : EqDecision SimulationResult.
Proof. solve_decision. Defined.
End SimulationResult.
Abbreviation SimulationResult := SimulationResult.SimulationResult.

Module IntentCoverage.
Record IntentCoverage := mk { index : nat; actions : list ActionId; covered : bool }.
#[global] Instance IntentCoverage_eq_dec : EqDecision IntentCoverage.
Proof. solve_decision. Defined.
End IntentCoverage.
Abbreviation IntentCoverage := IntentCoverage.IntentCoverage.

Module SimulationObligation.
Inductive SimulationObligation :=
| Prerequisite (action : ActionId) (prerequisite : ActionPrerequisite) (required_evidence : string)
| Goal (aspect : GoalAspect) (required_evidence : string).
#[global] Instance SimulationObligation_eq_dec : EqDecision SimulationObligation.
Proof. solve_decision. Defined.
End SimulationObligation.
Abbreviation SimulationObligation := SimulationObligation.SimulationObligation.

Module SimulationReport.
Record SimulationReport := mk {
  simulation : SimulationResult;
  goal_checks : list GoalCheck;
  intent_coverage : list IntentCoverage;
  unresolved_obligations : list SimulationObligation;
  protection_violations : list ProtectionViolation }.
#[global] Instance SimulationReport_eq_dec : EqDecision SimulationReport.
Proof. solve_decision. Defined.
End SimulationReport.
Abbreviation SimulationReport := SimulationReport.SimulationReport.

Module PlanSimulationError.
Inductive PlanSimulationError :=
| Structure (e : GraphError)
| InvalidProtectedMount (m : ProtectedMount)
| UnknownIntentOrigin (action : ActionId) (index : nat)
| CapacityEvidence (e : CapacityEvidenceError)
| Action (action : ActionId) (source : ActionSimulationError)
| ContractMismatch (action : ActionId).
#[global] Instance PlanSimulationError_eq_dec : EqDecision PlanSimulationError.
Proof. solve_decision. Defined.
End PlanSimulationError.
Abbreviation PlanSimulationError := PlanSimulationError.PlanSimulationError.

(** [SimulationReport::is_complete] *)
Definition is_complete (r : SimulationReport) : bool :=
  bool_decide (r.(SimulationReport.protection_violations) = []) &&
  bool_decide (r.(SimulationReport.unresolved_obligations) = []) &&
  forallb (λ c, bool_decide (c.(GoalCheck.status) = GoalStatus.Satisfied))
    r.(SimulationReport.goal_checks) &&
  forallb IntentCoverage.covered r.(SimulationReport.intent_coverage).

(** ** Comparing a prediction with the goal *)

Definition summary_was_projected (s : SimulationEvidenceSummary) (target : PathBuf)
    (context : MountContext) : bool :=
  existsb (λ c, bool_decide (c.1 = target) && bool_decide (c.2 = context))
    s.(SimulationEvidenceSummary.determined_persistent_targets).

Definition summary_is_stale (s : SimulationEvidenceSummary) (scope : FactScope) (kind : FactKind)
    : bool :=
  existsb (λ i, bool_decide (i.(FactInvalidation.scope) = scope) &&
                bool_decide (i.(FactInvalidation.kind) = kind))
    s.(SimulationEvidenceSummary.invalidated_facts).

Definition topology_matches (projected requested : NodeGraph) : bool :=
  (size projected.(NodeGraph.nodes) =? size requested.(NodeGraph.nodes))%nat &&
  forallb (λ '(id, n), is_some_and (λ k, bool_decide (k = n.(Node.kind).(NodeSpec.kind)))
                         (kind_of requested id))
    (map_to_list projected.(NodeGraph.nodes)) &&
  (length projected.(NodeGraph.dependencies) =? length requested.(NodeGraph.dependencies))%nat &&
  forallb (λ d, contains d requested.(NodeGraph.dependencies)) projected.(NodeGraph.dependencies) &&
  (length projected.(NodeGraph.relations) =? length requested.(NodeGraph.relations))%nat &&
  forallb (λ r, contains r requested.(NodeGraph.relations)) projected.(NodeGraph.relations).

(** The capacity loop over the requested nodes. *)
Definition compare_size (projected : NodeGraph) (unknown : bool) (entry : NodeId * Node)
    : result bool GoalStatus :=
  match entry.2.(Node.kind).(NodeSpec.size) with
  | None => Ok unknown
  | Some required =>
      match known_size projected entry.1 with
      | Some actual =>
          if decide (actual = required) then Ok unknown
          else Err (GoalStatus.Violated "projected capacity does not match the requested size")
      | None => Ok true
      end
  end.

Definition compare_graph (projected requested : NodeGraph) : GoalStatus :=
  if negb (topology_matches projected requested)
  then GoalStatus.Violated
         "projected storage topology or node properties do not match the requested graph"
  else
    match try_fold (compare_size projected) false (map_to_list requested.(NodeGraph.nodes)) with
    | Err status => status
    | Ok true => GoalStatus.Unknown
                   "provider capacity evidence for nodes with explicitly requested sizes"
    | Ok false => GoalStatus.Satisfied
    end.

(** [options_match] is equality of the sequences, and so is the mount test. *)
Definition mount_present (mounts : list MountEntry) (entry : MountEntry) : bool :=
  existsb (λ m, bool_decide (m.(MountEntry.source) = entry.(MountEntry.source)) &&
                bool_decide (m.(MountEntry.target) = entry.(MountEntry.target)) &&
                bool_decide (m.(MountEntry.context) = entry.(MountEntry.context)) &&
                bool_decide (m.(MountEntry.options) = entry.(MountEntry.options))) mounts.

Definition runtime_mount_check (mounts : list MountEntry) (entry : MountEntry) : GoalCheck :=
  GoalCheck.mk (GoalAspect.RuntimeMount entry.(MountEntry.target) entry.(MountEntry.context))
    (if mount_present mounts entry then GoalStatus.Satisfied
     else GoalStatus.Violated "requested runtime mount is absent from the projection").

Definition persistent_mount_check (desired : DesiredState) (evidence : SimulationEvidenceSummary)
    (requested : MountEntry) : GoalCheck :=
  GoalCheck.mk
    (GoalAspect.PersistentMount requested.(MountEntry.target) requested.(MountEntry.context))
    (if mount_present desired.(DesiredState.mounts).(MountSpec.persistent) requested
     then GoalStatus.Satisfied
     else if summary_was_projected evidence requested.(MountEntry.target) requested.(MountEntry.context)
     then GoalStatus.Violated "planned persistent mount entry does not match the request"
     else GoalStatus.Unknown "persistent mount configuration baseline or planned effect").

Definition compare_goal (desired : DesiredState) (evidence : SimulationEvidenceSummary)
    (goal : DesiredState) : list GoalCheck :=
  [GoalCheck.mk GoalAspect.Graph
     (compare_graph desired.(DesiredState.graph) goal.(DesiredState.graph))] ++
  (runtime_mount_check desired.(DesiredState.mounts).(MountSpec.runtime)
     <$> goal.(DesiredState.mounts).(MountSpec.runtime)) ++
  (persistent_mount_check desired evidence <$> goal.(DesiredState.mounts).(MountSpec.persistent)) ++
  [GoalCheck.mk GoalAspect.Boot
     match goal.(DesiredState.boot) with
     | BootSpec.Unmanaged => GoalStatus.Satisfied
     | BootSpec.Uefi _ | BootSpec.Bios _ => GoalStatus.Unknown "boot planning and verification"
     end].

(** ** Protection policies *)

Definition valid_policy_path (path : PathBuf) : bool :=
  is_absolute path && negb (path_contains_nul path)
  && negb (existsb (λ component, bool_decide (component = Component.ParentDir)) path).

Definition validate_protected_scope (protected : ProtectedScope) : result unit PlanSimulationError :=
  try_all (λ mount,
    let root_valid := match mount.(ProtectedMount.context) with
                      | MountContext.TargetRoot root => valid_policy_path root
                      | MountContext.Host | MountContext.Namespace _ => true
                      end in
    if negb (valid_policy_path mount.(ProtectedMount.target)) || negb root_valid
    then Err (PlanSimulationError.InvalidProtectedMount mount) else Ok tt)
    (protected.(ProtectedScope.runtime_mounts) ++ protected.(ProtectedScope.persistent_mounts)).

Definition graph_effect_touches (effect : GraphEffect) (protected : NodeId) : bool :=
  match effect with
  | GraphEffect.InsertNode id _ | GraphEffect.RemoveNode id | GraphEffect.InvalidateNodeSize id =>
      bool_decide (id = protected)
  | GraphEffect.SetNodeSize node _ | GraphEffect.SetActivation node _ =>
      bool_decide (node = protected)
  | GraphEffect.SetPartitionAttributes partition _ => bool_decide (partition = protected)
  | GraphEffect.SetFilesystemLabel filesystem _ | GraphEffect.SetBtrfsAllocation filesystem _ =>
      bool_decide (filesystem = protected)
  | GraphEffect.InsertDependency edge | GraphEffect.RemoveDependency edge =>
      bool_decide (edge.(Dependency.from_) = protected) ||
      bool_decide (edge.(Dependency.to) = protected)
  | GraphEffect.InsertRelation edge | GraphEffect.RemoveRelation edge =>
      bool_decide (edge.(Relation.from_) = protected) ||
      bool_decide (edge.(Relation.to) = protected)
  end.

Definition push_violation (action : ActionId) (aspect : ProtectedAspect)
    (violations : list ProtectionViolation) : list ProtectionViolation :=
  push_new (ProtectionViolation.mk action aspect) violations.

Definition is_write (access : ResourceAccess) : bool :=
  bool_decide (access.(ResourceAccess.mode) = ResourceAccessMode.Write).

(** A write that names the node as an object or as a metadata domain. *)
Definition writes_node (node : NodeId) (access : ResourceAccess) : bool :=
  is_write access &&
  match access.(ResourceAccess.resource) with
  | ActionResource.Node id | ActionResource.PartitionTable id | ActionResource.LvmMetadata id =>
      bool_decide (id = node)
  | _ => false
  end.

Definition contract_mutating (c : ActionContract) : bool :=
  existsb is_write c.(ActionContract.affected_resources)
  || negb (bool_decide (c.(ActionContract.predicted_effect).(PredictedEffect.graph) = []))
  || negb (bool_decide (c.(ActionContract.predicted_effect).(PredictedEffect.mounts) = []))
  || negb (bool_decide (c.(ActionContract.predicted_effect).(PredictedEffect.allocations) = [])).

Definition touches_protected_node (c : ActionContract) (step : SimulatedStep) (node : NodeId) : bool :=
  existsb (writes_node node) c.(ActionContract.affected_resources)
  || (contract_mutating c &&
      existsb (λ fact, bool_decide (fact.(FactInvalidation.scope) = FactScope.Node node))
        step.(SimulatedStep.invalidated_facts))
  || existsb (λ effect, graph_effect_touches effect node)
       c.(ActionContract.predicted_effect).(PredictedEffect.graph).

Definition touches_protected_mount (c : ActionContract) (mount : ProtectedMount) : bool :=
  existsb (λ effect,
    match effect with
    | MountEffect.AddRuntime _ target _ context | MountEffect.RemoveRuntime target context =>
        bool_decide (context = mount.(ProtectedMount.context)) &&
        (starts_with target mount.(ProtectedMount.target) ||
         starts_with mount.(ProtectedMount.target) target)
    | MountEffect.SetPersistent _ | MountEffect.RemovePersistent _ _ => false
    end) c.(ActionContract.predicted_effect).(PredictedEffect.mounts).

Definition touches_protected_config (c : ActionContract) (mount : ProtectedMount) : bool :=
  existsb (λ access, is_write access &&
             bool_decide (access.(ResourceAccess.resource) =
                          ActionResource.PersistentMountConfig mount.(ProtectedMount.context)))
    c.(ActionContract.affected_resources).

(** The body of the action loop of [check_protected_scope]. *)
Definition check_protected_step (protected : ProtectedScope) (violations : list ProtectionViolation)
    (entry : PlannedAction * SimulatedStep) : list ProtectionViolation :=
  let '(action, step) := entry in
  let c := action.(PlannedAction.informational_contract) in
  let id := action.(PlannedAction.id) in
  let violations :=
    foldl (λ v node, if touches_protected_node c step node
                     then push_violation id (ProtectedAspect.Node node) v else v)
      violations protected.(ProtectedScope.nodes) in
  let violations :=
    foldl (λ v mount, if touches_protected_mount c mount
                      then push_violation id (ProtectedAspect.RuntimeMount mount) v else v)
      violations protected.(ProtectedScope.runtime_mounts) in
  foldl (λ v mount, if touches_protected_config c mount
                    then push_violation id (ProtectedAspect.PersistentMount mount) v else v)
    violations protected.(ProtectedScope.persistent_mounts).

(** ** What a satisfied comparison means *)

(** The prediction has the requested objects, topology and managed sizes. *)
Record graph_reaches (projected requested : NodeGraph) : Prop := {
  reaches_kinds id : kind_of projected id = kind_of requested id;
  reaches_dependencies : projected.(NodeGraph.dependencies) ≡ₚ requested.(NodeGraph.dependencies);
  reaches_relations : projected.(NodeGraph.relations) ≡ₚ requested.(NodeGraph.relations);
  reaches_sizes id s : known_size requested id = Some s → known_size projected id = Some s }.

Lemma forallb_elem {A} (f : A → bool) l : forallb f l = true ↔ ∀ x, x ∈ l → f x = true.
Proof. rewrite forallb_forall. by setoid_rewrite <-list_elem_of_In. Qed.

(** Two sets of the same size, one inside the other, are the same set. *)
Lemma same_set_perm {A} `{EqDecision A} (l k : list A) :
  NoDup l → NoDup k →
  ((length l =? length k)%nat && forallb (λ x, contains x k) l = true) ↔ l ≡ₚ k.
Proof.
  intros Hl Hk. rewrite andb_true_iff, Nat.eqb_eq, forallb_elem.
  setoid_rewrite contains_true. split.
  - intros [Hlen Hin]. apply submseteq_length_Permutation; [|lia]. by apply NoDup_submseteq.
  - intros Hp. split; [by rewrite Hp|]. intros x. by rewrite Hp.
Qed.

(** The same for the node maps and their kinds. *)
Lemma same_kinds (p r : NodeGraph) :
  ((size p.(NodeGraph.nodes) =? size r.(NodeGraph.nodes))%nat &&
   forallb (λ '(id, n), is_some_and (λ k, bool_decide (k = n.(Node.kind).(NodeSpec.kind)))
                          (kind_of r id)) (map_to_list p.(NodeGraph.nodes)) = true) ↔
  ∀ id, kind_of p id = kind_of r id.
Proof.
  rewrite andb_true_iff, Nat.eqb_eq, forallb_elem.
  assert ((∀ e, e ∈ map_to_list p.(NodeGraph.nodes) →
    (let '(id, n) := e in is_some_and (λ k, bool_decide (k = n.(Node.kind).(NodeSpec.kind)))
      (kind_of r id)) = true) ↔
    ∀ id k, kind_of p id = Some k → kind_of r id = Some k) as ->.
  { split.
    - intros Hall id k Hk. unfold kind_of at 1, Graph.node in Hk.
      destruct (_ !! id) as [n|] eqn:Hn; [|done]. simplify_eq/=.
      specialize (Hall (id, n) (proj2 (elem_of_map_to_list _ _ _) Hn)). simpl in Hall.
      destruct (kind_of r id); [|done]. simpl in Hall. by apply bool_decide_eq_true in Hall as ->.
    - intros Hall [id n] Hn%elem_of_map_to_list. rewrite (Hall id n.(Node.kind).(NodeSpec.kind)).
      + by apply bool_decide_eq_true.
      + unfold kind_of, Graph.node. by rewrite Hn. }
  assert (∀ g id, is_Some (kind_of g id) ↔ id ∈ dom g.(NodeGraph.nodes)) as Hdom.
  { intros g id. unfold kind_of, Graph.node. by rewrite fmap_is_Some, elem_of_dom. }
  rewrite <-!size_dom. split.
  - intros [Hsz Hsub] id. destruct (kind_of p id) as [k|] eqn:Hp; [symmetry; auto|].
    destruct (kind_of r id) as [k|] eqn:Hr; [|done]. exfalso.
    assert (dom p.(NodeGraph.nodes) ⊆ dom r.(NodeGraph.nodes)) as Hss.
    { intros x [k' Hk']%Hdom. apply Hdom. by eexists; apply Hsub. }
    apply set_subseteq_size_eq in Hss; [|lia].
    assert (id ∈ dom p.(NodeGraph.nodes)) as Hid by (rewrite Hss; apply Hdom; eauto).
    apply Hdom in Hid as [? ?]. congruence.
  - intros Heq. split; [|intros id k; by rewrite Heq]. f_equal. apply set_eq. intros id.
    by rewrite <-!Hdom, Heq.
Qed.

Lemma compare_sizes_spec p (l : list (NodeId * Node)) b :
  match try_fold (compare_size p) b l with
  | Ok u => (u = false ↔ b = false ∧ ∀ e s, e ∈ l → e.2.(Node.kind).(NodeSpec.size) = Some s →
               known_size p e.1 = Some s)
  | Err st => st ≠ GoalStatus.Satisfied ∧
      ∃ e s, e ∈ l ∧ e.2.(Node.kind).(NodeSpec.size) = Some s ∧ known_size p e.1 ≠ Some s
  end.
Proof.
  revert b. induction l as [|e l IH]; intros b; simpl; [set_solver|].
  unfold compare_size at 1. destruct (NodeSpec.size _) as [req|] eqn:Hreq.
  - destruct (known_size p e.1) as [act|] eqn:Hact; [case_decide as Heq|].
    + subst. specialize (IH b). destruct (try_fold _ b l) as [u|st].
      * rewrite IH. setoid_rewrite elem_of_cons. naive_solver.
      * destruct IH as [? (e' & s & ? & ? & ?)]. split; [done|]. exists e', s. set_solver.
    + split; [done|]. exists e, req. split_and!; [left|done|congruence].
    + specialize (IH true). destruct (try_fold _ true l) as [u|st].
      * split; [by intros [? _]%IH|]. intros [_ Hall].
        specialize (Hall e req ltac:(left) Hreq). congruence.
      * destruct IH as [? (e' & s & ? & ? & ?)]. split; [done|]. exists e', s. set_solver.
  - specialize (IH b). destruct (try_fold _ b l) as [u|st].
    + rewrite IH. setoid_rewrite elem_of_cons. naive_solver.
    + destruct IH as [? (e' & s & ? & ? & ?)]. split; [done|]. exists e', s. set_solver.
Qed.

Lemma known_size_entries (r : NodeGraph) (P : NodeId → Bytes → Prop) :
  (∀ e s, e ∈ map_to_list r.(NodeGraph.nodes) → e.2.(Node.kind).(NodeSpec.size) = Some s → P e.1 s) ↔
  (∀ id s, known_size r id = Some s → P id s).
Proof.
  unfold known_size, Graph.node. split.
  - intros Hall id s Hs. destruct (_ !! id) as [n|] eqn:Hn; [|done].
    apply (Hall (id, n) s); [by apply elem_of_map_to_list|done].
  - intros Hall [id n] s Hn%elem_of_map_to_list Hs. apply Hall. simpl. by rewrite Hn.
Qed.

Lemma compare_graph_iff projected requested :
  NoDup projected.(NodeGraph.dependencies) → NoDup requested.(NodeGraph.dependencies) →
  NoDup projected.(NodeGraph.relations) → NoDup requested.(NodeGraph.relations) →
  (compare_graph projected requested = GoalStatus.Satisfied ↔ graph_reaches projected requested) ∧
  (∀ reason, compare_graph projected requested = GoalStatus.Violated reason →
             ¬ graph_reaches projected requested).
Proof.
  intros Hd1 Hd2 Hr1 Hr2. unfold compare_graph.
  assert (topology_matches projected requested = true ↔
    (∀ id, kind_of projected id = kind_of requested id) ∧
    projected.(NodeGraph.dependencies) ≡ₚ requested.(NodeGraph.dependencies) ∧
    projected.(NodeGraph.relations) ≡ₚ requested.(NodeGraph.relations)) as Htop.
  { rewrite <-same_kinds, <-!same_set_perm by done. unfold topology_matches.
    rewrite !andb_true_iff. tauto. }
  destruct (topology_matches _ _); simpl.
  2: { assert (¬ graph_reaches projected requested) as Hno.
       { intros [Hk Hd Hr _]. discriminate (proj2 Htop (conj Hk (conj Hd Hr))). }
       split; [split; [done|tauto]|done]. }
  destruct Htop as [(Hk & Hd & Hr) _]; [done|].
  pose proof (compare_sizes_spec projected (map_to_list requested.(NodeGraph.nodes)) false) as Hs.
  pose proof (known_size_entries requested (λ id s, known_size projected id = Some s)) as Hent.
  destruct (try_fold _ _ _) as [[]|st].
  - split; [split; [done|]|done]. intros [_ _ _ Hz]. destruct Hs as [_ Hs].
    discriminate Hs. split; [done|]. by apply Hent.
  - split; [|done]. split; [|done]. intros _. destruct Hs as [[_ Hall] _]; [done|].
    split; [done..|]. by apply Hent.
  - destruct Hs as [Hst (e & s & He & Hes & Hne)].
    assert (¬ graph_reaches projected requested) as Hno.
    { intros [_ _ _ Hz]. by apply Hne, (proj2 Hent Hz). }
    split; [split; [done|tauto]|done].
Qed.

(** The graph goal is reported satisfied exactly when the prediction has the
    requested objects, edges and sizes, and a reported violation is a real
    difference. *)
Theorem compare_graph_spec projected requested :
  NoDup projected.(NodeGraph.dependencies) → NoDup requested.(NodeGraph.dependencies) →
  NoDup projected.(NodeGraph.relations) → NoDup requested.(NodeGraph.relations) →
  (compare_graph projected requested = GoalStatus.Satisfied ↔ graph_reaches projected requested) ∧
  (∀ reason, compare_graph projected requested = GoalStatus.Violated reason →
             ¬ graph_reaches projected requested).
Proof. apply compare_graph_iff. Qed.
