(* ===== verification/PlanOrder.v ===== *)
(** * The action DAG: ordering functions of [storage-engine/src/compose.rs]

    [add_dependency], the reachability test [dependency_path] and the stable
    [topological_order] of planned actions.  [indegree] and [emitted] are
    vectors indexed by action; an index out of range would panic, and
    [in_range] is the invariant that excludes it. *)

From stdpp Require Import relations.
From S2P Require Import Prelude Model Reach Graph State Action.

Implicit Types (ds : list ActionDependency) (i j : ActionId).

(** The failures of this part of the composer. *)
Inductive OrderError :=
| OrderTooLarge
| OrderSelfDependency (a : ActionId)
| OrderCycle.

(** [u32::try_from(index)] for an identity built from a position. *)
Definition u32_index {E} (too_large : E) (n : nat) : result nat E :=
  match u32_try_from n with Some _ => Ok n | None => Err too_large end.

Definition add_dependency ds (before after : ActionId) (reason : DependencyReason)
    : result (list ActionDependency) OrderError :=
  if decide (before = after) then Err (OrderSelfDependency before)
  else if existsb (λ d, bool_decide (d.(ActionDependency.before) = before) &&
                        bool_decide (d.(ActionDependency.after) = after)) ds
  then Ok ds
  else Ok (ds ++ [ActionDependency.mk before after reason]).

(** The actions that directly follow one, in edge order. *)
Definition followers ds i : list ActionId :=
  ActionDependency.after <$> filter (λ d, d.(ActionDependency.before) = i) ds.

(** The early return happens before the remaining targets are pushed, which
    nothing observes afterwards. *)
Fixpoint dependency_path_loop (fuel : nat) ds (after : ActionId) (visited pending : list ActionId)
    : bool :=
  match fuel with
  | 0 => false
  | S fuel =>
      match pending with
      | [] => false
      | current :: pending =>
          if decide (current ∈ visited) then dependency_path_loop fuel ds after visited pending
          else if contains after (followers ds current) then true
          else dependency_path_loop fuel ds after (current :: visited)
                 (reverse (followers ds current) ++ pending)
      end
  end.

Definition dependency_path (before after : ActionId) ds : bool :=
  dependency_path_loop (S (S (length ds))) ds after [] [before].

(** [find_map] over the enumerated degrees. *)
Fixpoint next_ready (index : nat) (indegree : list nat) (emitted : list bool) : option nat :=
  match indegree, emitted with
  | degree :: indegree, e :: emitted =>
      if negb e && (degree =? 0)%nat then Some index
      else next_ready (S index) indegree emitted
  | _, _ => None
  end.

Fixpoint order_loop (fuel : nat) ds (indegree : list nat) (emitted : list bool)
    (order : list ActionId) : result (list ActionId) OrderError :=
  match fuel with
  | 0 => Ok order
  | S fuel =>
      match next_ready 0 indegree emitted with
      | None => Err OrderCycle
      | Some next =>
          let? id := u32_index OrderTooLarge next in
          order_loop fuel ds (foldl (λ v j, alter pred j v) indegree (followers ds next))
            (<[next := true]> emitted) (order ++ [id])
      end
  end.

(** One action is emitted per iteration: [action_count] iterations. *)
Definition topological_order (action_count : nat) ds : result (list ActionId) OrderError :=
  let indegree := foldl (λ v d, alter S d.(ActionDependency.after) v)
                    (replicate action_count 0) ds in
  order_loop action_count ds indegree (replicate action_count false) [].

(** ** Edges *)

Definition action_edges ds : list (ActionId * ActionId) :=
  (λ d, (d.(ActionDependency.before), d.(ActionDependency.after))) <$> ds.

(** Every endpoint is the identity of one of [n] actions. *)
Definition in_range (n : nat) ds : Prop :=
  ∀ d, d ∈ ds → d.(ActionDependency.before) < n ∧ d.(ActionDependency.after) < n.

Lemma followers_succs ds i : followers ds i = succs (action_edges ds) i.
Proof.
  unfold followers, succs, action_edges. induction ds as [|d ds IH]; [done|].
  csimpl. rewrite !filter_cons. cbn [fst]. case_decide; csimpl; by rewrite IH.
Qed.

Lemma elem_of_action_edges ds i j :
  edge (action_edges ds) i j ↔
  ∃ d, d ∈ ds ∧ d.(ActionDependency.before) = i ∧ d.(ActionDependency.after) = j.
Proof.
  unfold edge, action_edges. rewrite list_elem_of_fmap. split.
  - intros (d & [= -> ->] & ?). eauto.
  - intros (d & ? & <- & <-). eauto.
Qed.

Lemma add_dependency_spec ds before after reason ds' :
  add_dependency ds before after reason = Ok ds' →
  before ≠ after ∧
  (∀ i j, edge (action_edges ds') i j ↔ edge (action_edges ds) i j ∨ (i = before ∧ j = after)) ∧
  (∀ n, in_range n ds → before < n → after < n → in_range n ds') ∧
  (NoDup (action_edges ds) → NoDup (action_edges ds')).
Proof.
  unfold add_dependency. case_decide as Hne; [done|].
  destruct (existsb _ ds) eqn:Hex; intros [= <-].
  - apply existsb_exists in Hex as (d & Hin & Hd).
    apply andb_true_iff in Hd as [<-%bool_decide_eq_true <-%bool_decide_eq_true].
    apply list_elem_of_In in Hin. split_and!; [done| |done..].
    intros i j. split; [auto|]. intros [?|[-> ->]]; [done|]. apply elem_of_action_edges. eauto.
  - split_and!; [done|..].
    + intros i j. unfold edge, action_edges. rewrite fmap_snoc, elem_of_app, list_elem_of_singleton.
      simpl. naive_solver.
    + intros n Hr Hb Ha d. rewrite elem_of_app, list_elem_of_singleton.
      intros [?| ->]; [by apply Hr|done].
    + unfold action_edges. rewrite fmap_snoc, NoDup_snoc. simpl. intros Hnd. split; [done|].
      intros (d & [= Hb Ha] & Hd)%list_elem_of_fmap.
      apply not_true_iff_false in Hex. apply Hex, existsb_exists. exists d.
      split; [by apply list_elem_of_In|]. apply andb_true_iff. rewrite !bool_decide_eq_true. done.
Qed.

(** ** Reachability *)

Lemma dependency_path_loop_traverse fuel ds after visited pending :
  dependency_path_loop fuel ds after visited pending =
  existsb (λ x, contains after (followers ds x)) (traverse (followers ds) fuel visited pending).
Proof.
  revert visited pending. induction fuel as [|fuel IH]; intros visited pending; [done|].
  destruct pending as [|x pending]; simpl; [done|]. case_decide; [apply IH|]. simpl.
  destruct (contains _ _); [done|]. apply IH.
Qed.

Lemma dependency_path_tc before after ds :
  dependency_path before after ds = true ↔ tc (edge (action_edges ds)) before after.
Proof.
  unfold dependency_path. rewrite dependency_path_loop_traverse, existsb_exists.
  assert (∀ x, x ∈ traverse (followers ds) (S (S (length ds))) [] [before] ↔
    rtc (edge (action_edges ds)) before x) as Hreach.
  { intros x. rewrite traverse_reachable with (E := action_edges ds).
    - split; [by intros (y & ->%list_elem_of_singleton & ?)|].
      intros ?. exists before. split; [left|done].
    - intros y. by rewrite followers_succs.
    - unfold action_edges. rewrite length_fmap. simpl. lia. }
  split.
  - intros (x & Hx%list_elem_of_In%Hreach & Hc%contains_true).
    rewrite followers_succs, elem_of_succs in Hc. by eapply tc_rtc_l; [|apply tc_once].
  - intros Ht. assert (∃ x, rtc (edge (action_edges ds)) before x ∧
      edge (action_edges ds) x after) as (x & Hr & He).
    { clear Hreach. induction Ht as [x y He|x z y He _ (w & Hr & Hw)].
      - exists x. by split; [apply rtc_refl|].
      - exists w. split; [by eapply rtc_l|done]. }
    exists x. split; [by apply list_elem_of_In, Hreach|].
    apply contains_true. by rewrite followers_succs, elem_of_succs.
Qed.

(** [dependency_path] decides whether a non-empty chain of dependencies leads
    from one action to the other, cyclic dependencies included. *)
Theorem dependency_path_spec before after ds :
  dependency_path before after ds = true ↔ tc (edge (action_edges ds)) before after.
Proof. apply dependency_path_tc. Qed.

(** ** The topological order *)

Lemma lookup_foldl_alter (f : nat → nat) (l : list nat) (v : list nat) i :
  foldl (λ v j, alter f j v) v l !! i = Nat.iter (length (filter (i =.) l)) f <$> v !! i.
Proof.
  revert v. induction l as [|j l IH]; intros v; simpl; [by destruct (v !! i)|].
  rewrite IH, filter_cons. case_decide as Hij.
  - subst. rewrite list_lookup_alter_eq. destruct (v !! j) as [x|]; simpl; [|done].
    f_equal. by rewrite Nat.iter_swap.
  - by rewrite list_lookup_alter_ne.
Qed.

Lemma length_foldl_alter (f : nat → nat) (l : list nat) (v : list nat) :
  length (foldl (λ v j, alter f j v) v l) = length v.
Proof. revert v. induction l as [|j l IH]; intros v; simpl; [done|]. by rewrite IH, length_alter. Qed.

Lemma iter_S k x : Nat.iter k S x = k + x.
Proof. induction k as [|k IH]; simpl; lia. Qed.
Lemma iter_pred k x : Nat.iter k pred x = x - k.
Proof. induction k as [|k IH]; simpl; lia. Qed.

(** The vectors after [order] was emitted. *)
Record order_inv (n : nat) ds (indegree : list nat) (emitted : list bool)
    (order : list ActionId) : Prop := {
  oi_nodup : NoDup order;
  oi_range i : i ∈ order → i < n;
  oi_ordered : ordered (action_edges ds) order;
  oi_degree i : i < n → indegree !! i = Some (indeg (action_edges ds) order i);
  oi_degree_length : length indegree = n;
  oi_emitted i : i < n → emitted !! i = Some (bool_decide (i ∈ order));
  oi_emitted_length : length emitted = n }.

Lemma order_inv_init n ds :
  order_inv n ds
    (foldl (λ v d, alter S d.(ActionDependency.after) v) (replicate n 0) ds)
    (replicate n false) [].
Proof.
  assert (foldl (λ v d, alter S d.(ActionDependency.after) v) (replicate n 0) ds =
    foldl (λ v j, alter S j v) (replicate n 0) (ActionDependency.after <$> ds)) as ->.
  { generalize (replicate n 0). induction ds as [|d ds IH]; intros v; simpl; [done|]. apply IH. }
  split.
  - constructor.
  - by intros i ?%elem_of_nil.
  - apply ordered_nil.
  - intros i Hi. rewrite lookup_foldl_alter, lookup_replicate_2 by done. simpl.
    rewrite iter_S, Nat.add_0_r. f_equal. unfold indeg, action_edges.
    induction ds as [|d ds IH]; [done|]. csimpl. rewrite !filter_cons. cbn [fst snd].
    destruct (decide (i = d.(ActionDependency.after))) as [Heq|Hne].
    + rewrite decide_True by (split; [done|apply not_elem_of_nil]). cbn [length]. f_equal. apply IH.
    + rewrite decide_False by (intros [? _]; congruence). apply IH.
  - by rewrite length_foldl_alter, length_replicate.
  - intros i Hi. rewrite lookup_replicate_2 by done. f_equal.
    
  - by rewrite length_replicate.
Qed.

(** The next action is the first one that is neither emitted nor waiting. *)
Lemma next_ready_spec k indegree emitted :
  length indegree = length emitted →
  match next_ready k indegree emitted with
  | Some m => ∃ i, m = k + i ∧ indegree !! i = Some 0 ∧ emitted !! i = Some false ∧
      ∀ j, j < i → ¬ (indegree !! j = Some 0 ∧ emitted !! j = Some false)
  | None => ∀ j, ¬ (indegree !! j = Some 0 ∧ emitted !! j = Some false)
  end.
Proof.
  revert k emitted. induction indegree as [|x l IH]; intros k [|e em] Hlen; simplify_eq/=.
  { intros j [Hj _]. by rewrite lookup_nil in Hj. }
  destruct (negb e && (x =? 0)) eqn:Hr.
  - apply andb_true_iff in Hr as [He%negb_true_iff Hx%Nat.eqb_eq]. subst.
    exists 0. split_and!; [lia|done|done|]. intros j ?. lia.
  - assert (¬ (x = 0 ∧ e = false)) as Hno.
    { intros [-> ->]. done. }
    specialize (IH (S k) em Hlen). destruct (next_ready (S k) l em) as [m|].
    + destruct IH as (i & -> & Hi & He & Hmin). exists (S i). split_and!; [lia|done|done|].
      intros [|j] Hj; simpl; [naive_solver|]. apply Hmin. lia.
    + intros [|j]; simpl; [naive_solver|apply IH].
Qed.

Lemma order_inv_step n ds indegree emitted order m :
  order_inv n ds indegree emitted order → next_ready 0 indegree emitted = Some m →
  m < n ∧ m ∉ order ∧
  order_inv n ds (foldl (λ v j, alter pred j v) indegree (followers ds m))
    (<[m := true]> emitted) (order ++ [m]).
Proof.
  intros [Hnd Hrg Ho Hd Hdl He Hel] Hnext.
  pose proof (next_ready_spec 0 indegree emitted ltac:(congruence)) as Hspec.
  rewrite Hnext in Hspec. destruct Hspec as (i & -> & Hi & Hem & _). simpl in *.
  assert (i < n) as Hin by (rewrite <-Hdl; by eapply lookup_lt_Some).
  assert (i ∉ order) as Hno.
  { rewrite He in Hem by done. injection Hem. by intros ?%bool_decide_eq_false. }
  assert (indeg (action_edges ds) order i = 0) as H0 by (rewrite Hd in Hi by done; congruence).
  split_and!; [done..|]. split.
  - by apply NoDup_snoc.
  - intros j. rewrite elem_of_app, list_elem_of_singleton. intros [?| ->]; auto.
  - apply ordered_snoc; [done|]. by apply indeg_zero.
  - intros j Hj. rewrite lookup_foldl_alter, Hd, followers_succs by done. simpl. f_equal.
    rewrite iter_pred. rewrite (indeg_snoc _ order i j Hno). lia.
  - by rewrite length_foldl_alter.
  - intros j Hj. destruct (decide (j = i)) as [->|Hne].
    + rewrite list_lookup_insert_eq by lia. f_equal. symmetry.
      apply bool_decide_eq_true, elem_of_app. right. left.
    + rewrite list_lookup_insert_ne, He by done. f_equal. apply bool_decide_ext.
      rewrite elem_of_app, list_elem_of_singleton. naive_solver.
  - by rewrite length_insert.
Qed.

Lemma order_inv_full n ds indegree emitted order :
  order_inv n ds indegree emitted order → length order = n → order ≡ₚ seq 0 n.
Proof.
  intros [Hnd Hrg _ _ _ _ _] Hlen. apply submseteq_length_Permutation.
  - apply NoDup_submseteq; [done|]. intros i Hi%Hrg. apply elem_of_seq. lia.
  - rewrite length_seq. lia.
Qed.

(** The loop emits the remaining actions, or stops on a cycle. *)
Lemma order_loop_spec n ds fuel indegree emitted order :
  (N.of_nat n <= u32_MAX + 1)%N → in_range n ds →
  order_inv n ds indegree emitted order → fuel + length order = n →
  match order_loop fuel ds indegree emitted order with
  | Ok result => result ≡ₚ seq 0 n ∧ ordered (action_edges ds) result
  | Err e => e = OrderCycle ∧ ¬ acyclic (action_edges ds)
  end.
Proof.
  intros Hn Hr. revert indegree emitted order.
  induction fuel as [|fuel IH]; intros indegree emitted order Hinv Hlen; simpl.
  { split; [by eapply order_inv_full|apply Hinv]. }
  destruct (next_ready 0 indegree emitted) as [m|] eqn:Hnext.
  - destruct (order_inv_step _ _ _ _ _ _ Hinv Hnext) as (Hm & Hno & Hinv').
    unfold u32_index, u32_try_from. rewrite (proj2 (N.leb_le _ _)) by lia. simpl.
    apply IH; [done|]. rewrite length_app. simpl. lia.
  - split; [done|]. destruct Hinv as [Hnd Hrg _ Hd Hdl He Hel].
    pose proof (next_ready_spec 0 indegree emitted ltac:(congruence)) as Hspec.
    rewrite Hnext in Hspec.
    assert (∃ i, i < n ∧ i ∉ order) as (i & Hi & Hio).
    { destruct (decide (Exists (λ i, i ∉ order) (seq 0 n))) as [Hex|Hall].
      - apply Exists_exists in Hex as (i & Hi%elem_of_seq & ?). exists i. split; [lia|done].
      - exfalso. assert (seq 0 n ⊆+ order) as Hsub.
        { apply NoDup_submseteq; [apply NoDup_seq|]. intros i Hi.
          destruct (decide (i ∈ order)); [done|]. destruct Hall. apply Exists_exists. eauto. }
        apply submseteq_length in Hsub. rewrite length_seq in Hsub. lia. }
    apply (stuck_cycle _ (λ j, j < n ∧ j ∉ order) i); [done|].
    intros j [Hj Hjo].
    destruct (decide (indeg (action_edges ds) order j = 0)) as [H0|H0].
    { exfalso. apply (Hspec j). rewrite Hd, He, H0 by done. split; [done|].
      f_equal. by apply bool_decide_eq_false. }
    unfold indeg in H0.
    destruct (filter _ (action_edges ds)) as [|[a b] l] eqn:Hfl; [done|].
    assert ((a, b) ∈ filter (λ e, e.2 = j ∧ e.1 ∉ order) (action_edges ds)) as Hin
      by (rewrite Hfl; left).
    apply list_elem_of_filter in Hin as [[? ?] Hin]. simplify_eq/=.
    exists a. split; [|done]. split; [|done].
    apply elem_of_action_edges in Hin as (d & Hin & <- & _). by apply Hr.
Qed.

Lemma topological_order_spec n ds :
  (N.of_nat n <= u32_MAX + 1)%N → in_range n ds →
  match topological_order n ds with
  | Ok order => order ≡ₚ seq 0 n ∧ ordered (action_edges ds) order ∧ acyclic (action_edges ds)
  | Err e => e = OrderCycle ∧ ¬ acyclic (action_edges ds)
  end.
Proof.
  intros Hn Hr. unfold topological_order.
  pose proof (order_loop_spec n ds n _ _ [] Hn Hr (order_inv_init n ds) ltac:(simpl; lia)) as Hs.
  destruct (order_loop _ _ _ _ _) as [order|e]; [|done].
  destruct Hs as [Hp Ho]. split_and!; [done..|]. eapply (ordered_acyclic _ order); [|done|].
  - rewrite Hp. apply NoDup_seq.
  - intros i j (d & Hd & _ & <-)%elem_of_action_edges. rewrite Hp. apply elem_of_seq.
    destruct (Hr d Hd). lia.
Qed.

(** The order of a plan: on dependencies in range it lists every action once,
    each after the actions it depends on, exactly when there is no cycle, and
    it reports the cycle otherwise. *)
Theorem action_order_correct n ds :
  (N.of_nat n <= u32_MAX + 1)%N → in_range n ds →
  match topological_order n ds with
  | Ok order => order ≡ₚ seq 0 n ∧ ordered (action_edges ds) order ∧ acyclic (action_edges ds)
  | Err e => e = OrderCycle ∧ ¬ acyclic (action_edges ds)
  end.
Proof. apply topological_order_spec. Qed.
