(* ===== verification/Compose.v ===== *)
(** * Composition of plan fragments: [storage-engine/src/compose.rs]

    [compose_plan_with_ordering] flattens provider fragments into actions with
    global identities, adds the ordering edges that inputs, mounts and outputs
    require, replays the actions from the baseline and freezes the trusted
    contracts into an [ExecutionPlan].  A failure is an error of the source,
    a panic or the fuel of the restart loop; theorems exclude the last two. *)

From stdpp Require Import relations.
From S2P Require Import Prelude Model Reach Graph GraphOrder GraphValid State Action Contract.
From S2P Require Import ContractProps Logical Evidence Prerequisites Effects Report PlanOrder.

Module CompositionError.
Inductive CompositionError :=
| UnknownOrderingAction (r : FragmentActionRef)
| Structure (e : GraphError)
| ProtectedScopeViolation (action : ActionId) (aspect : ProtectedAspect)
| ActionValidation (action : ActionId) (diagnostics : list Diagnostic)
| PlanTooLarge
| FragmentHasErrors (f : FragmentId)
| DuplicateLocalAction (fragment : FragmentId) (action : LocalActionId)
| UnknownLocalDependency (f : FragmentId)
| UnknownRequirementAction (fragment : FragmentId) (action : LocalActionId)
| PlannedNodeAlreadyExists (n : NodeId)
| DuplicatePlannedNode (node : NodeId) (first second : ActionId)
| UnresolvedInput (action : ActionId) (node : NodeId)
| SelfDependency (a : ActionId)
| DependencyCycle
| ActionRejected (action : ActionId) (checks : list PrerequisiteCheck)
| Effect (action : ActionId) (error : EffectApplicationError)
| UnresolvedRequirement (action : ActionId)
| AmbiguousRequirement (action : ActionId)
| RequirementNotInContract (action : ActionId)
| MissingRequirementCheck (a : ActionId)
| MissingAnalysedContract (a : ActionId)
| CapacityEvidence (e : CapacityEvidenceError)
| AmbiguousResourceOrder (first second : ActionId) (resource : ActionResource)
| UnknownIntentOrigin (fragment : FragmentId) (index : nat)
| UncoveredIntent (index : nat)
| FinalSimulation (e : PlanSimulationError)
| GoalNotReached (a : GoalAspect).
#[global] Instance CompositionError_eq_dec : EqDecision CompositionError.
Proof. solve_decision. Defined.
End CompositionError.
Abbreviation CompositionError := CompositionError.CompositionError.

Module DraftAction.
Record DraftAction := mk {
  id : ActionId;
  operation : ProviderAction;
  fragment : FragmentId;
  local_id : LocalActionId;
  origin : FragmentOrigin }.
#[global] Instance DraftAction_eq_dec : EqDecision DraftAction.
Proof. solve_decision. Defined.
End DraftAction.
Abbreviation DraftAction := DraftAction.DraftAction.

Module PendingRequirement.
Record PendingRequirement := mk { action : ActionId; prerequisite : ActionPrerequisite }.
#[global] Instance PendingRequirement_eq_dec : EqDecision PendingRequirement.
Proof. solve_decision. Defined.
End PendingRequirement.
Abbreviation PendingRequirement := PendingRequirement.PendingRequirement.

Module FlattenedFragments.
Record FlattenedFragments := mk {
  actions : list DraftAction;
  dependencies : list ActionDependency;
  requirements : list PendingRequirement }.
#[global] Instance FlattenedFragments_eq_dec : EqDecision FlattenedFragments.
Proof. solve_decision. Defined.
End FlattenedFragments.
Abbreviation FlattenedFragments := FlattenedFragments.FlattenedFragments.

Module AnalysedOrder.
Record AnalysedOrder := mk {
  contracts : gmap ActionId ActionContract;
  checks : gmap ActionId (list PrerequisiteCheck) }.
#[global] Instance AnalysedOrder_eq_dec : EqDecision AnalysedOrder.
Proof. solve_decision. Defined.
End AnalysedOrder.
Abbreviation AnalysedOrder := AnalysedOrder.AnalysedOrder.

Abbreviation composition A := (result A (Failure CompositionError)) (only parsing).

(** ** Ordering primitives with the composer's errors *)

Definition order_error (e : OrderError) : CompositionError :=
  match e with
  | OrderTooLarge => CompositionError.PlanTooLarge
  | OrderSelfDependency a => CompositionError.SelfDependency a
  | OrderCycle => CompositionError.DependencyCycle
  end.

Definition add_edge (ds : list ActionDependency) (before after : ActionId) (reason : DependencyReason)
    : composition (list ActionDependency) :=
  report (map_err order_error (add_dependency ds before after reason)).

(** [indegree[dependency.after]] is the access that can be out of range. *)
Definition plan_order (action_count : nat) (ds : list ActionDependency)
    : composition (list ActionId) :=
  if forallb (λ d, d.(ActionDependency.after) <? action_count)%nat ds
  then report (map_err order_error (topological_order action_count ds))
  else Err Panicked.

(** ** Flattening *)

Definition fragment_action_ids (fragments : list PlanFragment)
    : result (gmap (nat * LocalActionId) ActionId) CompositionError :=
  try_fold (λ (ids : gmap (nat * LocalActionId) ActionId) '(fragment_index, fragment),
    let? fragment_id := u32_index CompositionError.PlanTooLarge fragment_index in
    try_fold (λ (ids : gmap (nat * LocalActionId) ActionId) action,
      let? id := u32_index CompositionError.PlanTooLarge (size ids) in
      match ids !! (fragment_index, action.(FragmentAction.id)) with
      | Some _ => Err (CompositionError.DuplicateLocalAction fragment_id action.(FragmentAction.id))
      | None => Ok (<[(fragment_index, action.(FragmentAction.id)) := id]> ids)
      end) ids fragment.(PlanFragment.actions))
    ∅ (enumerate fragments).

Definition flatten_actions (local_to_global : gmap (nat * LocalActionId) ActionId)
    (draft : list DraftAction) (entry : nat * PlanFragment) : composition (list DraftAction) :=
  let '(fragment_index, fragment) := entry in
  let? fragment_id := report (u32_index CompositionError.PlanTooLarge fragment_index) in
  if existsb (λ d, bool_decide (d.(Diagnostic.severity) = DiagnosticSeverity.Error))
       fragment.(PlanFragment.diagnostics)
  then Err (Reported (CompositionError.FragmentHasErrors fragment_id))
  else
    try_fold (λ draft action,
      let? id := ok_or (local_to_global !! (fragment_index, action.(FragmentAction.id))) Panicked in
      Ok (draft ++ [DraftAction.mk id action.(FragmentAction.operation) fragment_id
                      action.(FragmentAction.id) fragment.(PlanFragment.origin)]))
      draft fragment.(PlanFragment.actions).

Definition flatten_edges (local_to_global : gmap (nat * LocalActionId) ActionId)
    (acc : list ActionDependency * list PendingRequirement) (entry : nat * PlanFragment)
    : composition (list ActionDependency * list PendingRequirement) :=
  let '(dependencies, requirements) := acc in
  let '(fragment_index, fragment) := entry in
  let? fragment_id := report (u32_index CompositionError.PlanTooLarge fragment_index) in
  let? dependencies :=
    try_fold (λ dependencies dependency,
      match local_to_global !! (fragment_index, dependency.(FragmentDependency.before)),
            local_to_global !! (fragment_index, dependency.(FragmentDependency.after)) with
      | Some before, Some after =>
          add_edge dependencies before after dependency.(FragmentDependency.reason)
      | _, _ => Err (Reported (CompositionError.UnknownLocalDependency fragment_id))
      end) dependencies fragment.(PlanFragment.dependencies) in
  let? requirements :=
    try_fold (λ requirements requirement,
      match local_to_global !! (fragment_index, requirement.(ExternalRequirement.action)) with
      | None => Err (Reported (CompositionError.UnknownRequirementAction fragment_id
                                 requirement.(ExternalRequirement.action)))
      | Some action =>
          Ok (requirements ++
              [PendingRequirement.mk action requirement.(ExternalRequirement.prerequisite)])
      end) requirements fragment.(PlanFragment.external_requirements) in
  Ok (dependencies, requirements).

Definition flatten_fragments (fragments : list PlanFragment) : composition FlattenedFragments :=
  let? local_to_global := report (fragment_action_ids fragments) in
  let? draft := try_fold (flatten_actions local_to_global) [] (enumerate fragments) in
  let? (dependencies, requirements) :=
    try_fold (flatten_edges local_to_global) ([], []) (enumerate fragments) in
  Ok (FlattenedFragments.mk draft dependencies requirements).

(** ** Intents *)

Definition actions_cover_intent (intent : OperationIntent) (actions : list ProviderAction) : bool :=
  let has action := existsb (λ a, bool_decide (a = action)) actions in
  match intent with
  | OperationIntent.Check target force =>
      has (ProviderAction.Filesystem (FilesystemAction.Check target force))
  | OperationIntent.Repair target force =>
      has (ProviderAction.Filesystem (FilesystemAction.Repair target force))
  | OperationIntent.ConvertBtrfsProfiles filesystem target =>
      has (ProviderAction.Btrfs (BtrfsAction.ConvertProfiles filesystem target))
  | OperationIntent.SetActivation target active =>
      has (ProviderAction.Lvm (LvmAction.SetActivation target active))
  | OperationIntent.ReplaceMember group old new =>
      has (ProviderAction.Btrfs (BtrfsAction.RemoveDevice group old)) &&
      has (ProviderAction.Btrfs (BtrfsAction.AddDevice group new))
  | OperationIntent.Reformat _ _ => false
  end.

Definition intent_is_covered (index : nat) (intent : OperationIntent) (fragments : list PlanFragment)
    : bool :=
  actions_cover_intent intent
    (concat ((λ f, FragmentAction.operation <$> f.(PlanFragment.actions))
       <$> filter (λ f, f.(PlanFragment.origin) = FragmentOrigin.Intent index) fragments)).

Definition validate_intent_coverage (intents : list OperationIntent) (fragments : list PlanFragment)
    : result unit CompositionError :=
  let? _ := try_all (λ '(fragment_index, fragment),
    match fragment.(PlanFragment.origin) with
    | FragmentOrigin.Intent index =>
        if (length intents <=? index)%nat then
          let? id := u32_index CompositionError.PlanTooLarge fragment_index in
          Err (CompositionError.UnknownIntentOrigin id index)
        else Ok tt
    | _ => Ok tt
    end) (enumerate fragments) in
  try_all (λ '(index, intent),
    if negb (intent_is_covered index intent fragments)
    then Err (CompositionError.UncoveredIntent index) else Ok tt) (enumerate intents).

(** ** Inputs *)

Definition planned_node (action : ProviderAction) : option NodeId :=
  match action with
  | ProviderAction.Partition (PartitionAction.CreateTable _ planned_node_id _)
  | ProviderAction.Partition (PartitionAction.Create _ planned_node_id _ _ _ _ _)
  | ProviderAction.Luks (LuksAction.Format _ planned_node_id _ _)
  | ProviderAction.Luks (LuksAction.Open _ planned_node_id _ _ _)
  | ProviderAction.Lvm (LvmAction.CreatePv _ planned_node_id)
  | ProviderAction.Lvm (LvmAction.CreateVg planned_node_id _ _)
  | ProviderAction.Lvm (LvmAction.CreateLv _ planned_node_id _ _ _)
  | ProviderAction.Filesystem (FilesystemAction.Create _ planned_node_id _ _)
  | ProviderAction.Btrfs (BtrfsAction.Create _ planned_node_id _ _)
  | ProviderAction.Btrfs (BtrfsAction.CreateSubvolume _ planned_node_id _ _) => Some planned_node_id
  | _ => None
  end.

(** The inputs before repeated ones are dropped. *)
Definition input_nodes (action : ProviderAction) : list NodeId :=
  match action with
  | ProviderAction.Partition (PartitionAction.CreateTable disk _ _) => [disk]
  | ProviderAction.Partition (PartitionAction.Create table _ _ _ _ _ _) => [table]
  | ProviderAction.Partition (PartitionAction.Resize partition _)
  | ProviderAction.Partition (PartitionAction.Delete partition)
  | ProviderAction.Partition (PartitionAction.SetAttributes partition _) => [partition]
  | ProviderAction.Luks (LuksAction.Format target _ _ _) => [target]
  | ProviderAction.Luks (LuksAction.Open container _ _ _ _) => [container]
  | ProviderAction.Luks (LuksAction.Close mapping)
  | ProviderAction.Luks (LuksAction.Resize mapping _) => [mapping]
  | ProviderAction.Lvm (LvmAction.CreatePv backing _) => [backing]
  | ProviderAction.Lvm (LvmAction.CreateVg _ _ pvs) => pvs
  | ProviderAction.Lvm (LvmAction.CreateLv vg _ _ _ _) => [vg]
  | ProviderAction.Lvm (LvmAction.ResizeLv lv _) | ProviderAction.Lvm (LvmAction.RemoveLv lv) => [lv]
  | ProviderAction.Lvm (LvmAction.SetActivation target _) => [target]
  | ProviderAction.Filesystem (FilesystemAction.Create backing _ _ _) => [backing]
  | ProviderAction.Filesystem (FilesystemAction.Resize filesystem _)
  | ProviderAction.Filesystem (FilesystemAction.Check filesystem _)
  | ProviderAction.Filesystem (FilesystemAction.Repair filesystem _)
  | ProviderAction.Filesystem (FilesystemAction.SetLabel filesystem _) => [filesystem]
  | ProviderAction.Btrfs (BtrfsAction.Create members _ _ _) => members
  | ProviderAction.Btrfs (BtrfsAction.AddDevice filesystem device)
  | ProviderAction.Btrfs (BtrfsAction.RemoveDevice filesystem device) => [filesystem; device]
  | ProviderAction.Btrfs (BtrfsAction.ConvertProfiles filesystem _)
  | ProviderAction.Btrfs (BtrfsAction.CreateSubvolume filesystem _ _ _) => [filesystem]
  | ProviderAction.Mount (MountAction.Mount source _ _ _) =>
      match mount_source_node source with Some n => [n] | None => [] end
  | ProviderAction.Mount (MountAction.Persist entry) =>
      match mount_source_node entry.(MountEntry.source) with Some n => [n] | None => [] end
  | ProviderAction.Mount (MountAction.Unmount _ _)
  | ProviderAction.Mount (MountAction.RemovePersistent _ _) => []
  end.

(** Only the first occurrence of each input node is retained. *)
Definition referenced_nodes (action : ProviderAction) : list NodeId :=
  foldl (λ seen n, push_new n seen) [] (input_nodes action).

(** First loop: who creates which planned node. *)
Definition bind_creator (current : CurrentState) (creators : gmap NodeId ActionId)
    (action : DraftAction) : composition (gmap NodeId ActionId) :=
  match planned_node action.(DraftAction.operation) with
  | None => Ok creators
  | Some n =>
      match Graph.node current.(CurrentState.graph) n with
      | Some _ => Err (Reported (CompositionError.PlannedNodeAlreadyExists n))
      | None =>
          match creators !! n with
          | Some first =>
              Err (Reported (CompositionError.DuplicatePlannedNode n first action.(DraftAction.id)))
          | None => Ok (<[n := action.(DraftAction.id)]> creators)
          end
      end
  end.

(** Second loop: an edge from the creator of every input that is not observed. *)
Definition bind_inputs (current : CurrentState) (creators : gmap NodeId ActionId)
    (dependencies : list ActionDependency) (action : DraftAction)
    : composition (list ActionDependency) :=
  try_fold (λ dependencies input,
    match Graph.node current.(CurrentState.graph) input with
    | Some _ => Ok dependencies
    | None =>
        match creators !! input with
        | None => Err (Reported (CompositionError.UnresolvedInput action.(DraftAction.id) input))
        | Some creator =>
            add_edge dependencies creator action.(DraftAction.id) DependencyReason.InputCreation
        end
    end) dependencies (referenced_nodes action.(DraftAction.operation)).

Definition bind_planned_nodes (current : CurrentState) (actions : list DraftAction)
    (dependencies : list ActionDependency) : composition (list ActionDependency) :=
  let? creators := try_fold (bind_creator current) ∅ actions in
  try_fold (bind_inputs current creators) dependencies actions.

(** ** Mount order *)

Definition runtime_mount_target (action : ProviderAction) : option (PathBuf * MountContext) :=
  match action with
  | ProviderAction.Mount (MountAction.Mount _ target _ context)
  | ProviderAction.Mount (MountAction.Unmount target context) => Some (target, context)
  | _ => None
  end.

Definition is_unmount (action : ProviderAction) : bool :=
  match action with ProviderAction.Mount (MountAction.Unmount _ _) => true | _ => false end.

Definition bind_mount_pair (parent : DraftAction) (dependencies : list ActionDependency)
    (child : DraftAction) : composition (list ActionDependency) :=
  match runtime_mount_target parent.(DraftAction.operation),
        runtime_mount_target child.(DraftAction.operation) with
  | Some (parent_target, parent_context), Some (child_target, child_context) =>
      if negb (bool_decide (parent_context = child_context))
         || bool_decide (parent_target = child_target)
         || negb (starts_with child_target parent_target)
      then Ok dependencies
      else if dependency_path parent.(DraftAction.id) child.(DraftAction.id) dependencies
              || dependency_path child.(DraftAction.id) parent.(DraftAction.id) dependencies
      then Ok dependencies
      else
        let '(before, after) :=
          if is_unmount child.(DraftAction.operation)
          then (child.(DraftAction.id), parent.(DraftAction.id))
          else (parent.(DraftAction.id), child.(DraftAction.id)) in
        add_edge dependencies before after DependencyReason.MountOrder
  | _, _ => Ok dependencies
  end.

Definition bind_mount_order (actions : list DraftAction) (dependencies : list ActionDependency)
    : composition (list ActionDependency) :=
  try_fold (λ dependencies parent, try_fold (bind_mount_pair parent) dependencies actions)
    dependencies actions.

(** ** Requirements *)

Definition output_satisfies (output : ActionOutput) (prerequisite : ActionPrerequisite) : bool :=
  match output, prerequisite with
  | ActionOutput.Node id _, ActionPrerequisite.NodeExists node => bool_decide (id = node)
  | ActionOutput.Node id spec, ActionPrerequisite.NodeKind node expected =>
      bool_decide (id = node) && matches_kind spec.(NodeSpec.kind) expected
  | ActionOutput.FilesystemCheckPassed filesystem,
    ActionPrerequisite.FilesystemCheckPassed required => bool_decide (filesystem = required)
  | ActionOutput.BlockInterface node BlockInterfaceAccess.ReadWrite,
    ActionPrerequisite.Writable required => bool_decide (node = required)
  | _, _ => false
  end.

(** [contracts.iter()] in the order of [map_to_list]; the choice below depends
    on it only when the dependencies are cyclic. *)
Definition requirement_provider (requirement : PendingRequirement)
    (contracts : gmap ActionId ActionContract) (dependencies : list ActionDependency)
    : composition (option ActionId) :=
  let owner := requirement.(PendingRequirement.action) in
  let providers :=
    (filter (λ '(action, contract),
       (negb (bool_decide (action = owner)) &&
        negb (dependency_path owner action dependencies) &&
        existsb (λ output, output_satisfies output requirement.(PendingRequirement.prerequisite))
          contract.(ActionContract.provided_outputs)) = true) (map_to_list contracts)).*1 in
  let predecessors := filter (λ p, dependency_path p owner dependencies = true) providers in
  match find_first (λ candidate,
          forallb (λ other, bool_decide (other = candidate) ||
                            dependency_path other candidate dependencies) predecessors)
          predecessors with
  | Some latest => Ok (Some latest)
  | None =>
      match providers with
      | [] => Ok None
      | [provider] => Ok (Some provider)
      | _ => Err (Reported (CompositionError.AmbiguousRequirement owner))
      end
  end.

(** [emitted] holds the contracts of the actions already replayed; the flag
    says whether an edge was added. *)
Definition bind_requirement (st : simulation) (action : DraftAction) (contract : ActionContract)
    (providers : gmap ActionId ActionContract) (acc : bool * list ActionDependency)
    (requirement : PendingRequirement) : composition (bool * list ActionDependency) :=
  let '(bound, dependencies) := acc in
  if bound : bool then Ok acc
  else if negb (contains requirement.(PendingRequirement.prerequisite)
                  contract.(ActionContract.prerequisites))
  then Err (Reported (CompositionError.RequirementNotInContract action.(DraftAction.id)))
  else if is_satisfied (evaluate_prerequisite st.1 st.2 requirement.(PendingRequirement.prerequisite))
  then Ok acc
  else
    let? provider := requirement_provider requirement providers dependencies in
    match provider with
    | Some provider =>
        let? dependencies := add_edge dependencies provider action.(DraftAction.id)
                               DependencyReason.InterfacePreparation in
        Ok (true, dependencies)
    | None => Ok acc
    end.

Definition bind_contextual_outputs (st : simulation) (action : DraftAction)
    (actions : list DraftAction) (emitted : gmap ActionId ActionContract)
    (requirements : list PendingRequirement) (dependencies : list ActionDependency)
    : composition (bool * list ActionDependency) :=
  let owned := filter (λ r, r.(PendingRequirement.action) = action.(DraftAction.id)) requirements in
  match owned with
  | [] => Ok (false, dependencies)
  | _ =>
      let contract := describe_action action.(DraftAction.operation) (sim_graph st) in
      let providers : gmap ActionId ActionContract :=
        list_to_map (reverse ((λ c, (c.(DraftAction.id),
                                     describe_action c.(DraftAction.operation) (sim_graph st)))
          <$> filter (λ c, emitted !! c.(DraftAction.id) = None) actions)) in
      try_fold (bind_requirement st action contract providers) (false, dependencies) owned
  end.

Definition validate_declared_requirements (requirements : list PendingRequirement)
    (contracts : gmap ActionId ActionContract) : result unit CompositionError :=
  try_all (λ requirement,
    match contracts !! requirement.(PendingRequirement.action) with
    | None => Err (CompositionError.MissingAnalysedContract requirement.(PendingRequirement.action))
    | Some contract =>
        if negb (contains requirement.(PendingRequirement.prerequisite)
                   contract.(ActionContract.prerequisites))
        then Err (CompositionError.RequirementNotInContract requirement.(PendingRequirement.action))
        else Ok tt
    end) requirements.

Definition resolve_requirement (trace : AnalysedOrder) (dependencies : list ActionDependency)
    (requirement : PendingRequirement) : composition (list ActionDependency) :=
  let owner := requirement.(PendingRequirement.action) in
  let check := match trace.(AnalysedOrder.checks) !! owner with
               | Some checks =>
                   find_first (λ c, bool_decide (c.(PrerequisiteCheck.prerequisite) =
                                                 requirement.(PendingRequirement.prerequisite))) checks
               | None => None
               end in
  let? check := ok_or check (Reported (CompositionError.MissingRequirementCheck owner)) in
  if bool_decide (check.(PrerequisiteCheck.status) =
                  CheckStatus.Satisfied CheckEvidence.ObservedSnapshot)
  then Ok dependencies
  else
    let? provider := requirement_provider requirement trace.(AnalysedOrder.contracts) dependencies in
    match provider with
    | Some provider => add_edge dependencies provider owner DependencyReason.InterfacePreparation
    | None => if is_violated check.(PrerequisiteCheck.status)
              then Err (Reported (CompositionError.UnresolvedRequirement owner))
              else Ok dependencies
    end.

Definition resolve_requirements (requirements : list PendingRequirement) (trace : AnalysedOrder)
    (dependencies : list ActionDependency) : composition (list ActionDependency) :=
  let? _ := report (validate_declared_requirements requirements trace.(AnalysedOrder.contracts)) in
  try_fold (resolve_requirement trace) dependencies requirements.

(** ** Resource order *)

Definition accesses_conflict (left right : ResourceAccess) : bool :=
  bool_decide (left.(ResourceAccess.resource) = right.(ResourceAccess.resource)) &&
  (is_write left || is_write right).

Definition conflicting_resource (first second : ActionContract) : option ActionResource :=
  find_map (λ left,
    find_map (λ right, if accesses_conflict left right
                       then Some left.(ResourceAccess.resource) else None)
      second.(ActionContract.affected_resources))
    first.(ActionContract.affected_resources).

Definition validate_resource_pair (contracts : gmap ActionId ActionContract)
    (dependencies : list ActionDependency) (first second : ActionId) : composition unit :=
  let? first_contract := ok_or (contracts !! first) Panicked in
  let? second_contract := ok_or (contracts !! second) Panicked in
  match conflicting_resource first_contract second_contract with
  | None => Ok tt
  | Some resource =>
      if negb (dependency_path first second dependencies) &&
         negb (dependency_path second first dependencies)
      then Err (Reported (CompositionError.AmbiguousResourceOrder first second resource))
      else Ok tt
  end.

(** Each action against the ones after it. *)
Fixpoint validate_resource_pairs (contracts : gmap ActionId ActionContract)
    (dependencies : list ActionDependency) (actions : list ActionId) : composition unit :=
  match actions with
  | [] => Ok tt
  | first :: rest =>
      let? _ := try_all (validate_resource_pair contracts dependencies first) rest in
      validate_resource_pairs contracts dependencies rest
  end.

Definition validate_resource_order (contracts : gmap ActionId ActionContract)
    (dependencies : list ActionDependency) : composition unit :=
  validate_resource_pairs contracts dependencies
    (sort_by Nat.leb (map_to_list contracts).*1).

(** ** Replaying a candidate order *)

Definition action_rejected (id : ActionId) (e : ActionSimulationError) : CompositionError :=
  match e with
  | ActionSimulationError.Validation diagnostics => CompositionError.ActionValidation id diagnostics
  | ActionSimulationError.PrerequisitesViolated checks => CompositionError.ActionRejected id checks
  | ActionSimulationError.Effect e => CompositionError.Effect id e
  end.

Definition record_trace (id : ActionId) (sim : SimulatedAction) (trace : AnalysedOrder)
    : AnalysedOrder :=
  AnalysedOrder.mk (<[id := sim.(SimulatedAction.contract)]> trace.(AnalysedOrder.contracts))
    (<[id := sim.(SimulatedAction.checks)]> trace.(AnalysedOrder.checks)).

(** The inner [for]: the trace of the whole order, or [None] after the [break]
    that follows a new edge. *)
Fixpoint replay_order (actions : list DraftAction) (requirements : list PendingRequirement)
    (order : list ActionId) (st : simulation) (trace : AnalysedOrder)
    (dependencies : list ActionDependency)
    : composition (option AnalysedOrder * list ActionDependency) :=
  match order with
  | [] => Ok (Some trace, dependencies)
  | id :: order =>
      let? action := index actions id in
      let? (rebound, dependencies) :=
        bind_contextual_outputs st action actions trace.(AnalysedOrder.contracts)
          requirements dependencies in
      if rebound : bool then Ok (None, dependencies)
      else
        match simulate_action st action.(DraftAction.operation) with
        | (_, Err e) => Err (Reported (action_rejected id e))
        | (st, Ok sim) =>
            replay_order actions requirements order st (record_trace id sim trace) dependencies
        end
  end.

(** The outer [loop]. *)
Fixpoint simulate_order_loop (fuel : nat) (current : CurrentState)
    (capacity_evidence : list CapacityEvidence) (actions : list DraftAction)
    (requirements : list PendingRequirement) (dependencies : list ActionDependency)
    : composition (AnalysedOrder * list ActionDependency) :=
  match fuel with
  | 0 => Err OutOfFuel
  | S fuel =>
      let? order := plan_order (length actions) dependencies in
      let? evidence := report (map_err CompositionError.CapacityEvidence
                                 (evidence_new capacity_evidence)) in
      let? (replayed, dependencies) :=
        replay_order actions requirements order (from_current current, evidence)
          (AnalysedOrder.mk ∅ ∅) dependencies in
      match replayed with
      | Some trace => Ok (trace, dependencies)
      | None => simulate_order_loop fuel current capacity_evidence actions requirements dependencies
      end
  end.

(** Every restart adds an edge between two of the actions, and there are at
    most [n * n] of them. *)
Definition simulate_order (current : CurrentState) (capacity_evidence : list CapacityEvidence)
    (actions : list DraftAction) (requirements : list PendingRequirement)
    (dependencies : list ActionDependency) : composition (AnalysedOrder * list ActionDependency) :=
  simulate_order_loop (S (length actions * length actions)) current capacity_evidence actions
    requirements dependencies.

(** ** The composer *)

(** [collect::<HashMap<_, _>>()]: a repeated key keeps the last value. *)
Definition draft_endpoint (draft : list DraftAction) (r : FragmentActionRef) : option ActionId :=
  DraftAction.id <$> last (filter (λ a, FragmentActionRef.mk a.(DraftAction.fragment)
                                          a.(DraftAction.local_id) = r) draft).

Definition add_ordering (draft : list DraftAction) (dependencies : list ActionDependency)
    (edge : FragmentOrdering) : composition (list ActionDependency) :=
  let resolve r := ok_or (draft_endpoint draft r) (Reported (CompositionError.UnknownOrderingAction r)) in
  let? before := resolve edge.(FragmentOrdering.before) in
  let? after := resolve edge.(FragmentOrdering.after) in
  add_edge dependencies before after edge.(FragmentOrdering.reason).

Definition freeze_action (contracts : gmap ActionId ActionContract) (action : DraftAction)
    : composition PlannedAction :=
  let? contract := ok_or (contracts !! action.(DraftAction.id))
                     (Reported (CompositionError.MissingAnalysedContract action.(DraftAction.id))) in
  Ok (PlannedAction.mk action.(DraftAction.id) action.(DraftAction.operation)
        action.(DraftAction.fragment) action.(DraftAction.local_id) action.(DraftAction.origin)
        contract).

Definition compose_plan_with_ordering (current : CurrentState) (fragments : list PlanFragment)
    (ordering : list FragmentOrdering) (capacity_evidence : list CapacityEvidence)
    : composition ExecutionPlan :=
  let? _ := report (map_err CompositionError.Structure
                      (validate_structure current.(CurrentState.graph))) in
  let? flat := flatten_fragments fragments in
  let draft := flat.(FlattenedFragments.actions) in
  let requirements := flat.(FlattenedFragments.requirements) in
  let? dependencies := try_fold (add_ordering draft) flat.(FlattenedFragments.dependencies) ordering in
  let? dependencies := bind_planned_nodes current draft dependencies in
  let? dependencies := bind_mount_order draft dependencies in
  let? (first_contracts, dependencies) :=
    simulate_order current capacity_evidence draft requirements dependencies in
  let? dependencies := resolve_requirements requirements first_contracts dependencies in
  let? (final_trace, dependencies) :=
    simulate_order current capacity_evidence draft [] dependencies in
  let final_contracts := final_trace.(AnalysedOrder.contracts) in
  let? _ := report (validate_declared_requirements requirements final_contracts) in
  let? _ := validate_resource_order final_contracts dependencies in
  let? actions := try_map (freeze_action final_contracts) draft in
  Ok (ExecutionPlan.mk actions dependencies).

Definition compose_plan_with_evidence (current : CurrentState) (fragments : list PlanFragment)
    (capacity_evidence : list CapacityEvidence) : composition ExecutionPlan :=
  compose_plan_with_ordering current fragments [] capacity_evidence.

Definition compose_plan (current : CurrentState) (fragments : list PlanFragment)
    : composition ExecutionPlan :=
  compose_plan_with_evidence current fragments [].
