(* ===== verification/ComposeProps.v ===== *)
(** * Correctness of the composer

    The invariants of a plan under construction, the termination of the
    restart loop of [simulate_order] and what a composed plan guarantees. *)

From stdpp Require Import relations.
From S2P Require Import Prelude Model Reach Graph GraphOrder GraphValid State Action Contract.
From S2P Require Import ContractProps Logical Evidence Prerequisites Effects Report PlanOrder.
From S2P Require Import Compose.

Implicit Types (ds : list ActionDependency) (i j : ActionId) (draft : list DraftAction)
  (n : nat).

(** ** Dependencies under construction *)

(** The endpoints are actions and no edge is repeated. *)
Definition deps_ok n ds : Prop := in_range n ds ∧ NoDup (action_edges ds).

(** Edges are only ever added. *)
Definition extends ds ds' : Prop := ∀ i j, edge (action_edges ds) i j → edge (action_edges ds') i j.

#[global] Instance extends_preorder : PreOrder extends.
Proof. split; [by intros ds i j|]. intros d1 d2 d3 H12 H23 i j H. by apply H23, H12. Qed.

Definition grows n ds ds' : Prop := deps_ok n ds' ∧ extends ds ds'.

Lemma grows_refl n ds : deps_ok n ds → grows n ds ds.
Proof. by split. Qed.
Lemma grows_trans n ds1 ds2 ds3 : grows n ds1 ds2 → grows n ds2 ds3 → grows n ds1 ds3.
Proof. intros [_ ?] [? ?]. split; [done|]. by etrans. Qed.

Lemma extends_tc ds ds' i j :
  extends ds ds' → tc (edge (action_edges ds)) i j → tc (edge (action_edges ds')) i j.
Proof. intros He. induction 1; [apply tc_once|eapply tc_l]; eauto. Qed.

Lemma add_edge_grows n ds before after reason :
  deps_ok n ds → before < n → after < n →
  returns (λ ds', grows n ds ds' ∧ before ≠ after ∧ edge (action_edges ds') before after ∧
                  (¬ edge (action_edges ds) before after → length ds < length ds'))
    (add_edge ds before after reason).
Proof.
  intros [Hr Hnd] Hb Ha. unfold add_edge. apply returns_report. intros ds' Hds'.
  unfold map_err in Hds'. destruct (add_dependency ds before after reason) eqn:Hadd; [|done].
  simplify_eq. pose proof Hadd as (Hne & Hedge & Hrange & Hdup)%add_dependency_spec.
  split_and!; [split; [split; auto|intros i j ?; apply Hedge; auto]|done|apply Hedge; auto|].
  intros Hno. unfold add_dependency in Hadd. rewrite decide_False in Hadd by done.
  destruct (existsb _ _) eqn:Hex; simplify_eq; [|rewrite length_app; simpl; lia].
  destruct Hno. apply Hedge. auto.
Qed.

(** A set of edges between [n] actions has at most [n * n] elements. *)
Lemma deps_ok_length n ds : deps_ok n ds → length ds ≤ n * n.
Proof.
  intros [Hr Hnd]. assert (action_edges ds ⊆+ list_prod (seq 0 n) (seq 0 n)) as Hsub.
  { apply NoDup_submseteq; [done|]. intros [i j] (d & [Hb Ha]%Hr & <- & <-)%elem_of_action_edges.
    apply list_elem_of_In, in_prod; apply list_elem_of_In, elem_of_seq; lia. }
  apply submseteq_length in Hsub. unfold action_edges in Hsub.
  rewrite length_fmap, length_prod, !length_seq in Hsub. done.
Qed.

(** ** Identities *)

(** The keys of the actions of [entries], in identity order. *)
Definition entry_keys (e : nat * PlanFragment) : list (nat * LocalActionId) :=
  (λ a, (e.1, a.(FragmentAction.id))) <$> e.2.(PlanFragment.actions).
Definition all_keys (entries : list (nat * PlanFragment)) : list (nat * LocalActionId) :=
  entries ≫= entry_keys.

(** [ids] numbers the keys by position, within [u32]. *)
Record numbering (keys : list (nat * LocalActionId)) (ids : gmap (nat * LocalActionId) ActionId)
    : Prop := {
  num_lookup k i : ids !! k = Some i ↔ keys !! i = Some k;
  num_size : size ids = length keys;
  num_bound : (N.of_nat (length keys) <= u32_MAX + 1)%N }.

Lemma u32_index_ok {E} (e : E) m r : u32_index e m = Ok r → r = m ∧ (N.of_nat m <= u32_MAX)%N.
Proof.
  unfold u32_index, u32_try_from. destruct (N.leb_spec (N.of_nat m) u32_MAX); [|done].
  by intros [= <-].
Qed.

Lemma lookup_snoc_Some {A} (l : list A) x i y :
  (l ++ [x]) !! i = Some y ↔ l !! i = Some y ∨ (i = length l ∧ y = x).
Proof.
  rewrite lookup_app_Some. split.
  - intros [?|[Hle Hi]]; [auto|]. apply list_lookup_singleton_Some in Hi as [? ->].
    right. split; [lia|done].
  - intros [?|[-> ->]]; [auto|]. right. split; [done|]. by rewrite Nat.sub_diag.
Qed.

Lemma numbering_snoc keys ids k :
  numbering keys ids → ids !! k = None → (N.of_nat (length keys) <= u32_MAX)%N →
  numbering (keys ++ [k]) (<[k := size ids]> ids).
Proof.
  intros [Hl Hs Hb] Hk Hle. split.
  - intros k' i. rewrite lookup_snoc_Some, <-Hl, Hs. destruct (decide (k = k')) as [<-|Hne].
    + rewrite lookup_insert_eq, Hk. naive_solver.
    + rewrite lookup_insert_ne by done. naive_solver.
  - rewrite map_size_insert_None, length_app by done. simpl. lia.
  - rewrite length_app. simpl. lia.
Qed.

Lemma all_keys_snoc pre e : all_keys (pre ++ [e]) = all_keys pre ++ entry_keys e.
Proof. unfold all_keys. rewrite bind_app. simpl. by rewrite app_nil_r. Qed.

Lemma fragment_action_ids_numbering fragments ids :
  fragment_action_ids fragments = Ok ids → numbering (all_keys (enumerate fragments)) ids.
Proof.
  apply (try_fold_inv _ (λ pre ids, numbering (all_keys pre) ids)).
  { split; [|done..]. intros k i. unfold all_keys. simpl. by rewrite lookup_empty, lookup_nil. }
  intros pre [fi f] post ids1 ids2 _ Hnum.
  destruct (u32_index _ fi) as [fid|] eqn:Hfi; [|done].
  rewrite all_keys_snoc. unfold entry_keys. simpl.
  apply (try_fold_inv _ (λ done ids, numbering (all_keys pre ++
    ((λ a, (fi, a.(FragmentAction.id))) <$> done)) ids)); [by rewrite app_nil_r|].
  intros ipre a ipost ids3 ids4 _ Hnum3.
  destruct (u32_index _ (size ids3)) as [id|] eqn:Hid; [|done].
  apply u32_index_ok in Hid as [-> Hle].
  destruct (ids3 !! _) eqn:Hk; [done|]. intros [= <-].
  rewrite fmap_snoc, app_assoc. apply numbering_snoc; [done..|].
  by rewrite <-(num_size _ _ Hnum3).
Qed.

(** The draft lists the actions by identity. *)
Definition positional draft : Prop := ∀ i a, draft !! i = Some a → a.(DraftAction.id) = i.

Lemma keys_lookup pre e post ipre a ipost :
  e.2.(PlanFragment.actions) = ipre ++ a :: ipost →
  all_keys (pre ++ e :: post) !!
    length (all_keys pre ++ ((λ a, (e.1, a.(FragmentAction.id))) <$> ipre)) =
  Some (e.1, a.(FragmentAction.id)).
Proof.
  intros Ha. unfold all_keys. rewrite bind_app, bind_cons, !length_app.
  rewrite lookup_app_r by lia. rewrite lookup_app_l.
  2: { unfold entry_keys. rewrite Ha, !length_fmap, length_app. simpl. lia. }
  unfold entry_keys. rewrite Ha, fmap_app. rewrite lookup_app_r by lia. csimpl.
  by replace (_ - _ - _) with 0 by lia.
Qed.

Lemma flatten_actions_positional fragments ids :
  numbering (all_keys (enumerate fragments)) ids →
  returns (λ draft, positional draft ∧ length draft = length (all_keys (enumerate fragments)))
    (try_fold (flatten_actions ids) [] (enumerate fragments)).
Proof.
  intros Hnum. apply (returns_try_fold _ (λ pre draft, positional draft ∧
    length draft = length (all_keys pre))).
  { split; [|done]. intros i a. by rewrite lookup_nil. }
  intros pre [fi f] post draft Heq [Hpos Hlen]. unfold flatten_actions.
  eapply returns_bind; [apply returns_report; intros ? H; exact H|]. intros fid _.
  destruct (existsb _ _); [done|].
  eapply returns_mono.
  - apply (returns_try_fold _ (λ ipre draft, positional draft ∧ length draft =
      length (all_keys pre ++ ((λ a, (fi, a.(FragmentAction.id))) <$> ipre)))).
    { by rewrite app_nil_r. }
    intros ipre a ipost draft1 Ha [Hpos1 Hlen1].
    pose proof (keys_lookup pre (fi, f) post ipre a ipost Ha) as Hk. rewrite <-Heq in Hk.
    cbn [fst] in Hk. apply (num_lookup _ _ Hnum) in Hk. rewrite Hk. simpl. split.
    + intros i x [Hx|[-> ->]]%lookup_snoc_Some; [by apply Hpos1|done].
    + rewrite !length_app, fmap_snoc, length_app. simpl. rewrite Hlen1, length_app. lia.
  - intros d [? ?]. by rewrite all_keys_snoc.
Qed.

(** Identities of requirements and edges are in range. *)
Definition reqs_ok n (rs : list PendingRequirement) : Prop :=
  ∀ r, r ∈ rs → r.(PendingRequirement.action) < n.

Lemma numbering_range keys ids k i : numbering keys ids → ids !! k = Some i → i < length keys.
Proof. intros Hnum Hk%(num_lookup _ _ Hnum). by eapply lookup_lt_Some. Qed.

Lemma flatten_edges_ok fragments keys ids :
  numbering keys ids →
  returns (λ '(ds, rs), deps_ok (length keys) ds ∧ reqs_ok (length keys) rs)
    (try_fold (flatten_edges ids) ([], []) (enumerate fragments)).
Proof.
  intros Hnum. apply returns_try_fold_inv.
  { split; [split; [by intros d ?%elem_of_nil|constructor]|by intros r ?%elem_of_nil]. }
  intros [fi f] [ds rs] _ [Hds Hrs]. unfold flatten_edges.
  eapply returns_bind; [apply returns_report; intros ? H; exact H|]. intros fid _.
  eapply returns_bind.
  { apply (returns_try_fold_inv _ (deps_ok (length keys))); [done|]. intros d ds1 _ Hds1.
    destruct (ids !! _) as [b|] eqn:Hb; [|done]. destruct (ids !! (fi, _.(FragmentDependency.after))) as [a|] eqn:Ha; [|done].
    eapply returns_mono; [eapply add_edge_grows; eauto using numbering_range|]. by intros ? [[? _] _]. }
  intros ds1 Hds1. eapply returns_bind.
  { apply (returns_try_fold_inv _ (reqs_ok (length keys))); [done|]. intros r rs1 _ Hrs1.
    destruct (ids !! _) as [i|] eqn:Hi; [|done]. intros r' [?| ->%list_elem_of_singleton]%elem_of_app.
    - by apply Hrs1.
    - by eapply numbering_range. }
  intros rs1 Hrs1. by split.
Qed.

(** What [flatten_fragments] hands to the rest of the composer. *)
Record flattened (f : FlattenedFragments) : Prop := {
  flat_positional : positional f.(FlattenedFragments.actions);
  flat_bound : (N.of_nat (length f.(FlattenedFragments.actions)) <= u32_MAX + 1)%N;
  flat_deps : deps_ok (length f.(FlattenedFragments.actions)) f.(FlattenedFragments.dependencies);
  flat_reqs : reqs_ok (length f.(FlattenedFragments.actions)) f.(FlattenedFragments.requirements) }.

Lemma flatten_fragments_ok fragments : returns flattened (flatten_fragments fragments).
Proof.
  unfold flatten_fragments.
  eapply returns_bind; [apply returns_report, fragment_action_ids_numbering|]. intros ids Hnum.
  eapply returns_bind; [by apply flatten_actions_positional|]. intros draft [Hpos Hlen].
  eapply returns_bind; [by eapply (flatten_edges_ok fragments)|]. intros [ds rs] [Hds Hrs].
  split; simpl; rewrite ?Hlen; [done|apply Hnum|done..].
Qed.

(** ** Planned nodes *)

Definition planned_nodes draft : list NodeId := omap (λ a, planned_node a.(DraftAction.operation)) draft.

(** Every planned node is new and has one creator. *)
Definition planned_fresh (current : CurrentState) draft : Prop :=
  NoDup (planned_nodes draft) ∧
  ∀ node, node ∈ planned_nodes draft → Graph.node current.(CurrentState.graph) node = None.

(** An input that is not observed is created by an action ordered before its user. *)
Definition inputs_bound (current : CurrentState) draft (users : list DraftAction) ds : Prop :=
  ∀ a node, a ∈ users → node ∈ input_nodes a.(DraftAction.operation) →
    Graph.node current.(CurrentState.graph) node = None →
    ∃ c, c ∈ draft ∧ planned_node c.(DraftAction.operation) = Some node ∧
         edge (action_edges ds) c.(DraftAction.id) a.(DraftAction.id).

Lemma inputs_bound_extends current draft users ds ds' :
  inputs_bound current draft users ds → extends ds ds' → inputs_bound current draft users ds'.
Proof. intros Hb He a node Ha Hn Hc. destruct (Hb a node Ha Hn Hc) as (c & ? & ? & ?). eauto. Qed.

Lemma elem_of_dedup {A} `{EqDecision A} (l seen : list A) x :
  x ∈ foldl (λ seen y, push_new y seen) seen l ↔ x ∈ seen ∨ x ∈ l.
Proof.
  revert seen. induction l as [|y l IH]; intros seen; simpl; [set_solver|].
  rewrite IH. unfold push_new. destruct (contains y seen) eqn:Hc.
  - apply contains_true in Hc. rewrite elem_of_cons. naive_solver.
  - rewrite elem_of_app, list_elem_of_singleton, elem_of_cons. naive_solver.
Qed.

Lemma elem_of_referenced_nodes action node :
  node ∈ referenced_nodes action ↔ node ∈ input_nodes action.
Proof. unfold referenced_nodes. rewrite elem_of_dedup. set_solver. Qed.

(** The creators found in a prefix of the draft. *)
Record creators_of (current : CurrentState) (pre : list DraftAction)
    (creators : gmap NodeId ActionId) : Prop := {
  cr_lookup node i : creators !! node = Some i →
    ∃ a, a ∈ pre ∧ planned_node a.(DraftAction.operation) = Some node ∧ a.(DraftAction.id) = i;
  cr_complete node : node ∈ planned_nodes pre → is_Some (creators !! node);
  cr_fresh : planned_fresh current pre }.

Lemma bind_creators_ok current draft :
  returns (creators_of current draft) (try_fold (bind_creator current) ∅ draft).
Proof.
  apply returns_try_fold.
  { split; [by intros ? ?; rewrite lookup_empty|by intros ? ?%elem_of_nil|].
    split; [constructor|by intros ? ?%elem_of_nil]. }
  intros pre a post creators _ [Hl Hc [Hnd Hfr]]. unfold bind_creator.
  assert (∀ node, node ∈ planned_nodes (pre ++ [a]) ↔
    node ∈ planned_nodes pre ∨ planned_node a.(DraftAction.operation) = Some node) as Hpl.
  { intros node. unfold planned_nodes. rewrite omap_snoc, elem_of_app.
    destruct (planned_node _); [rewrite list_elem_of_singleton|]; set_solver. }
  destruct (planned_node _) as [m|] eqn:Hm.
  - destruct (Graph.node _ m) eqn:Hg; [done|]. destruct (creators !! m) eqn:Hcm; [done|]. split.
    + intros node i [[<- <-]|[Hne Hi]]%lookup_insert_Some.
      * exists a. split_and!; [set_solver|done..].
      * destruct (Hl _ _ Hi) as (b & ? & ? & ?). exists b. split_and!; [set_solver|done..].
    + intros node [Hn|[= ->]]%Hpl; [|rewrite lookup_insert_eq; eauto].
      rewrite lookup_insert_is_Some'. auto.
    + split.
      * unfold planned_nodes. rewrite NoDup_omap_snoc. split; [done|]. rewrite Hm.
        intros y [= <-] Hin. apply Hc in Hin as [? ?]. congruence.
      * intros node [?|[= <-]]%Hpl; auto.
  - split.
    + intros node i Hi. destruct (Hl _ _ Hi) as (b & ? & ? & ?). exists b.
      split_and!; [set_solver|done..].
    + intros node [?|?]%Hpl; [auto|done].
    + split; [unfold planned_nodes; rewrite NoDup_omap_snoc, Hm; naive_solver|].
      intros node [?|?]%Hpl; [auto|done].
Qed.

Lemma positional_range draft a :
  positional draft → a ∈ draft → a.(DraftAction.id) < length draft.
Proof. intros Hp [i Hi]%list_elem_of_lookup. rewrite (Hp _ _ Hi). by eapply lookup_lt_Some. Qed.

Lemma bind_inputs_ok current draft creators ds a :
  positional draft → creators_of current draft creators → a ∈ draft →
  deps_ok (length draft) ds →
  returns (λ ds', grows (length draft) ds ds' ∧ inputs_bound current draft [a] ds')
    (bind_inputs current creators ds a).
Proof.
  intros Hpos Hcr Ha Hds. unfold bind_inputs. eapply returns_mono.
  - apply (returns_try_fold _ (λ pre ds', grows (length draft) ds ds' ∧
      ∀ node, node ∈ pre → Graph.node current.(CurrentState.graph) node = None →
      ∃ c, c ∈ draft ∧ planned_node c.(DraftAction.operation) = Some node ∧
           edge (action_edges ds') c.(DraftAction.id) a.(DraftAction.id))).
    { split; [by apply grows_refl|]. by intros ? ?%elem_of_nil. }
    intros pre node post ds1 _ [Hg Hb]. destruct (Graph.node _ node) eqn:Hn.
    { split; [done|]. intros m [?| ->%list_elem_of_singleton]%elem_of_app; [auto|congruence]. }
    destruct (creators !! node) as [c|] eqn:Hc; [|done].
    apply (cr_lookup _ _ _ Hcr) in Hc as (b & Hb1 & Hb2 & <-).
    eapply returns_mono; [apply (add_edge_grows (length draft)); [apply Hg|by apply positional_range..]|].
    intros ds2 (Hg2 & _ & He & _). split; [by eapply grows_trans|].
    intros m [Hm| ->%list_elem_of_singleton]%elem_of_app Hmn; [|by exists b].
    destruct (Hb m Hm Hmn) as (x & ? & ? & Hx). exists x. split_and!; [done..|]. by apply Hg2.
  - intros ds' [Hg Hb]. split; [done|]. intros b node ->%list_elem_of_singleton Hin. apply Hb.
    by apply elem_of_referenced_nodes.
Qed.

Lemma bind_planned_nodes_ok current draft ds :
  positional draft → deps_ok (length draft) ds →
  returns (λ ds', grows (length draft) ds ds' ∧ planned_fresh current draft ∧
                  inputs_bound current draft draft ds')
    (bind_planned_nodes current draft ds).
Proof.
  intros Hpos Hds. unfold bind_planned_nodes.
  eapply returns_bind; [apply bind_creators_ok|]. intros creators Hcr. eapply returns_mono.
  - apply (returns_try_fold _ (λ pre ds', grows (length draft) ds ds' ∧
      inputs_bound current draft pre ds')).
    { split; [by apply grows_refl|by intros a node ?%elem_of_nil]. }
    intros pre a post ds1 Heq [Hg Hb].
    eapply returns_mono; [apply (bind_inputs_ok current draft); [done..|set_solver|apply Hg]|].
    intros ds2 [Hg2 Hb2]. split; [by eapply grows_trans|].
    intros u node [Hu|Hu]%elem_of_app; [|by apply Hb2].
    by apply (inputs_bound_extends _ _ _ _ _ Hb (proj2 Hg2)).
  - intros ds' [? ?]. split_and!; [done|apply Hcr|done].
Qed.

Lemma add_ordering_ok draft ds ordering :
  positional draft → deps_ok (length draft) ds →
  returns (grows (length draft) ds) (try_fold (add_ordering draft) ds ordering).
Proof.
  intros Hpos Hds. apply returns_try_fold_inv; [by apply grows_refl|].
  intros e ds1 _ Hg. unfold add_ordering.
  assert (∀ r, returns (λ i, i < length draft) (ok_or (draft_endpoint draft r)
    (Reported (CompositionError.UnknownOrderingAction r)))) as Hres.
  { intros r. unfold draft_endpoint. destruct (last _) as [a|] eqn:Ha; [|done]. simpl.
    apply last_Some_elem_of, list_elem_of_filter in Ha as [_ Ha]. by apply positional_range. }
  eapply returns_bind; [apply Hres|]. intros b Hb.
  eapply returns_bind; [apply Hres|]. intros a Ha.
  eapply returns_mono; [by apply add_edge_grows; [apply Hg|..]|].
  intros ds2 [Hg2 _]. by eapply grows_trans.
Qed.

(** A mount change strictly below the target of another one, in its namespace. *)
Definition mounted_under (parent child : DraftAction) : Prop :=
  ∃ pt ct context,
    runtime_mount_target parent.(DraftAction.operation) = Some (pt, context) ∧
    runtime_mount_target child.(DraftAction.operation) = Some (ct, context) ∧
    pt ≠ ct ∧ starts_with ct pt = true.

Definition related ds i j : Prop :=
  tc (edge (action_edges ds)) i j ∨ tc (edge (action_edges ds)) j i.

Lemma related_extends ds ds' i j : extends ds ds' → related ds i j → related ds' i j.
Proof. intros He [?|?]; [left|right]; by eapply extends_tc. Qed.

Definition mounts_ordered (parents children : list DraftAction) ds : Prop :=
  ∀ p c, p ∈ parents → c ∈ children → mounted_under p c →
         related ds p.(DraftAction.id) c.(DraftAction.id).

Lemma mounts_ordered_extends ps cs ds ds' :
  mounts_ordered ps cs ds → extends ds ds' → mounts_ordered ps cs ds'.
Proof. intros Hm He p c Hp Hc Hu. eapply related_extends; [done|by apply Hm]. Qed.

Lemma bind_mount_pair_ok n parent child ds :
  deps_ok n ds → parent.(DraftAction.id) < n → child.(DraftAction.id) < n →
  returns (λ ds', grows n ds ds' ∧
      (mounted_under parent child → related ds' parent.(DraftAction.id) child.(DraftAction.id)))
    (bind_mount_pair parent ds child).
Proof.
  intros Hds Hp Hc. unfold bind_mount_pair.
  destruct (runtime_mount_target parent.(DraftAction.operation)) as [[pt pc]|] eqn:Ep;
    [destruct (runtime_mount_target child.(DraftAction.operation)) as [[ct cc]|] eqn:Ec|].
  2, 3: split; [by apply grows_refl|]; intros (?&?&?&?&?&_); congruence.
  destruct (_ || negb (starts_with ct pt)) eqn:Hcond.
  - split; [by apply grows_refl|]. intros (?&?&?&?&?&Hne&Hsw). exfalso. simplify_eq.
    rewrite !orb_true_iff, !negb_true_iff, bool_decide_eq_true, bool_decide_eq_false in Hcond.
    destruct Hcond as [[?|?]|?]; congruence.
  - destruct (dependency_path _ _ ds || _) eqn:Hpath.
    { split; [by apply grows_refl|]. intros _.
      by rewrite orb_true_iff, !dependency_path_tc in Hpath. }
    unfold related.
    destruct (is_unmount _); (eapply returns_mono; [by apply (add_edge_grows n)|]);
      intros ds' (? & _ & He & _); (split; [done|]); intros _; auto using tc_once.
Qed.

Lemma bind_mount_order_ok draft ds :
  positional draft → deps_ok (length draft) ds →
  returns (λ ds', grows (length draft) ds ds' ∧ mounts_ordered draft draft ds')
    (bind_mount_order draft ds).
Proof.
  intros Hpos Hds. apply (returns_try_fold _ (λ pre ds', grows (length draft) ds ds' ∧
    mounts_ordered pre draft ds')).
  { split; [by apply grows_refl|by intros p c ?%elem_of_nil]. }
  intros pre parent post ds1 Heq [Hg1 Hm1]. eapply returns_mono.
  - apply (returns_try_fold _ (λ cpre ds', grows (length draft) ds1 ds' ∧
      mounts_ordered [parent] cpre ds')).
    { split; [apply grows_refl, Hg1|by intros p c _ ?%elem_of_nil]. }
    intros cpre child cpost ds2 Hceq [Hg2 Hm2].
    eapply returns_mono; [apply (bind_mount_pair_ok (length draft)); [apply Hg2|..]|].
    { apply positional_range; [done|]. rewrite Heq. apply elem_of_mid. }
    { apply positional_range; [done|]. rewrite Hceq. apply elem_of_mid. }
    intros ds3 [Hg3 Hr]. split; [by eapply grows_trans|].
    intros p c Hp [Hc| ->%list_elem_of_singleton]%elem_of_app.
    + by apply (mounts_ordered_extends _ _ _ _ Hm2 (proj2 Hg3)).
    + by apply list_elem_of_singleton in Hp as ->.
  - intros ds' [Hg Hm]. split; [by eapply grows_trans|].
    intros p c [Hp|Hp]%elem_of_app Hc; [|by apply Hm].
    by apply (mounts_ordered_extends _ _ _ _ Hm1 (proj2 Hg)).
Qed.

(** ** Requirements *)

Lemma requirement_provider_ok r contracts ds :
  returns (λ o, ∀ p, o = Some p → is_Some (contracts !! p) ∧ p ≠ r.(PendingRequirement.action))
    (requirement_provider r contracts ds).
Proof.
  unfold requirement_provider. cbn zeta.
  set (providers := (filter _ _).*1).
  assert (∀ p, p ∈ providers → is_Some (contracts !! p) ∧ p ≠ r.(PendingRequirement.action)) as Hp.
  { intros p ([a c] & -> & [Hf Hin]%list_elem_of_filter)%list_elem_of_fmap.
    apply elem_of_map_to_list in Hin. rewrite !andb_true_iff, negb_true_iff, bool_decide_eq_false in Hf.
    simpl. destruct Hf as [[? _] _]. eauto. }
  destruct (find_first _ _) as [l|] eqn:Hl.
  - apply find_first_Some in Hl as [[_ Hl]%list_elem_of_filter _]. intros p [= <-]. auto.
  - destruct providers as [|p [|q ps]]; [done| |done]. intros ? [= <-]. apply Hp. left.
Qed.

Lemma resolve_requirements_ok n rs trace ds :
  deps_ok n ds → reqs_ok n rs →
  (∀ i, is_Some (trace.(AnalysedOrder.contracts) !! i) → i < n) →
  returns (grows n ds) (resolve_requirements rs trace ds).
Proof.
  intros Hds Hrs Htr. unfold resolve_requirements.
  eapply returns_bind; [by apply (returns_report (λ _, True))|]. intros _ _.
  apply returns_try_fold_inv; [by apply grows_refl|]. intros r ds1 Hr Hg.
  unfold resolve_requirement. cbn zeta.
  eapply (returns_bind (λ _, True)); [by destruct (match _ with Some _ => _ | None => _ end)|].
  intros check _. case_bool_decide; [done|].
  eapply returns_bind; [apply requirement_provider_ok|]. intros [p|] Hp.
  - destruct (Hp p eq_refl) as [Hpc _].
    eapply returns_mono; [apply (add_edge_grows n); [apply Hg|auto..]|].
    intros ds2 [Hg2 _]. by eapply grows_trans.
  - by destruct (is_violated _).
Qed.

(** A provider that is bound has not been replayed yet, so its edge is new in
    a topological order of the edges. *)
Lemma bind_contextual_outputs_ok draft st a emitted rs ds :
  positional draft → a ∈ draft → deps_ok (length draft) ds →
  returns (λ '(rebound, ds'), grows (length draft) ds ds' ∧
      if rebound : bool
      then ∃ p, emitted !! p = None ∧ (¬ edge (action_edges ds) p a.(DraftAction.id) →
                                       length ds < length ds')
      else ds' = ds)
    (bind_contextual_outputs st a draft emitted rs ds).
Proof.
  intros Hpos Ha Hds. unfold bind_contextual_outputs.
  destruct (filter _ rs) as [|r0 owned] eqn:Hown; [by split; [apply grows_refl|]|].
  cbn zeta. set (providers := list_to_map _).
  assert (∀ p, is_Some (providers !! p) → emitted !! p = None ∧ p < length draft) as Hprov.
  { intros p [c Hc]. apply elem_of_list_to_map_2 in Hc.
    rewrite elem_of_reverse in Hc.
    apply list_elem_of_fmap in Hc as (x & [= -> ->] & [? Hx]%list_elem_of_filter).
    auto using positional_range. }
  clearbody providers. apply returns_try_fold_inv; [by split; [apply grows_refl|]|].
  intros r [rebound ds1] _ [Hg Hb]. unfold bind_requirement.
  destruct rebound; [done|]. subst ds1.
  destruct (negb _); [done|]. destruct (is_satisfied _); [by split|].
  eapply returns_bind; [apply requirement_provider_ok|]. intros [p|] Hp; [|by split].
  destruct (Hp p eq_refl) as [[? Hlt]%Hprov _].
  eapply returns_bind; [apply (add_edge_grows (length draft)); [done..|by apply positional_range]|].
  intros ds2 (Hg2 & _ & _ & Hlen). split; [done|]. eauto.
Qed.

(** ** Replaying an order *)

(** The actions of [order] are accepted one after the other from [st]. *)
Inductive run_order draft : simulation → list ActionId → list (ActionId * SimulatedAction) →
    simulation → Prop :=
| run_nil st : run_order draft st [] [] st
| run_cons st i order a st1 sim steps st2 :
    draft !! i = Some a →
    simulate_action st a.(DraftAction.operation) = (st1, Ok sim) →
    run_order draft st1 order steps st2 →
    run_order draft st (i :: order) ((i, sim) :: steps) st2.

(** The maps of a trace that replayed [steps]. *)
Definition records (trace : AnalysedOrder) (steps : list (ActionId * SimulatedAction)) : AnalysedOrder :=
  foldl (λ trace s, record_trace s.1 s.2 trace) trace steps.

Lemma ordered_prefix_emitted E (pre post : list ActionId) i p :
  ordered E (pre ++ i :: post) → edge E p i → p ∈ pre.
Proof.
  intros Ho He. destruct (Ho p i (length pre) He) as (j & Hj & Hl).
  { rewrite lookup_app_r by done. by rewrite Nat.sub_diag. }
  rewrite lookup_app_l in Hl by done. by eapply list_elem_of_lookup_2.
Qed.

Lemma replay_order_ok draft rs order st trace ds pre :
  positional draft → deps_ok (length draft) ds →
  (∀ i, i ∈ order → i < length draft) → ordered (action_edges ds) (pre ++ order) →
  (∀ i, i ∈ pre → is_Some (trace.(AnalysedOrder.contracts) !! i)) →
  returns (λ '(o, ds'),
      match o with
      | None => grows (length draft) ds ds' ∧ length ds < length ds'
      | Some trace' => ds' = ds ∧ ∃ steps st', run_order draft st order steps st' ∧
                                              trace' = records trace steps
      end) (replay_order draft rs order st trace ds).
Proof.
  intros Hpos Hds. revert st trace pre.
  induction order as [|i order IH]; intros st trace pre Hrange Hord Hem; simpl.
  { split; [done|]. exists [], st. by split; [constructor|]. }
  destruct (lookup_lt_is_Some_2 draft i) as [a Ha]; [apply Hrange; by left|].
  unfold index. rewrite Ha. cbn [ok_or].
  eapply returns_bind; [apply bind_contextual_outputs_ok; [done|by eapply list_elem_of_lookup_2|done]|].
  intros [[] ds1] [Hg Hb].
  { destruct Hb as (p & Hp & Hlt). split; [done|]. apply Hlt. rewrite (Hpos _ _ Ha).
    intros Hin%(ordered_prefix_emitted _ _ _ _ _ Hord)%Hem. rewrite Hp in Hin. by destruct Hin. }
  subst ds1. destruct (simulate_action st _) as [st1 [sim|e]] eqn:Hsim; [|done].
  eapply returns_mono; [apply (IH st1 (record_trace i sim trace) (pre ++ [i]))|].
  - intros j Hj. apply Hrange. by right.
  - by rewrite <-app_assoc.
  - intros j [Hj| ->%list_elem_of_singleton]%elem_of_app; simpl.
    + rewrite lookup_insert_is_Some'. auto.
    + rewrite lookup_insert_eq. eauto.
  - intros [[trace'|] ds']; [|done]. intros [-> (steps & st' & Hrun & ->)]. split; [done|].
    exists ((i, sim) :: steps), st'. split; [by econstructor|done].
Qed.

Lemma plan_order_ok n ds :
  (N.of_nat n <= u32_MAX + 1)%N → in_range n ds →
  returns (λ order, order ≡ₚ seq 0 n ∧ ordered (action_edges ds) order ∧ acyclic (action_edges ds))
    (plan_order n ds).
Proof.
  intros Hn Hr. unfold plan_order.
  assert (forallb (λ d, d.(ActionDependency.after) <? n) ds = true) as ->.
  { apply forallb_elem. intros d Hd. apply Nat.ltb_lt. by apply Hr. }
  apply returns_report. intros order Ho. unfold map_err in Ho.
  pose proof (topological_order_spec n ds Hn Hr) as Hs.
  destruct (topological_order n ds); [|done]. by simplify_eq.
Qed.

(** What one completed simulation of the draft established. *)
Definition analysed (current : CurrentState) (capacity : list CapacityEvidence) draft
    (trace : AnalysedOrder) ds : Prop :=
  acyclic (action_edges ds) ∧
  ∃ order evidence steps st,
    plan_order (length draft) ds = Ok order ∧ order ≡ₚ seq 0 (length draft) ∧
    evidence_new capacity = Ok evidence ∧
    run_order draft (from_current current, evidence) order steps st ∧
    trace = records (AnalysedOrder.mk ∅ ∅) steps.

Lemma simulate_order_loop_ok fuel current capacity draft rs ds :
  positional draft → (N.of_nat (length draft) <= u32_MAX + 1)%N → deps_ok (length draft) ds →
  length draft * length draft < fuel + length ds →
  returns (λ '(trace, ds'), grows (length draft) ds ds' ∧ analysed current capacity draft trace ds')
    (simulate_order_loop fuel current capacity draft rs ds).
Proof.
  intros Hpos Hn. revert ds. induction fuel as [|fuel IH]; intros ds Hds Hfuel.
  { pose proof (deps_ok_length _ _ Hds). lia. }
  cbn [simulate_order_loop].
  eapply returns_bind; [apply returns_eq, plan_order_ok; [done|apply Hds]|].
  intros order (Horder & Hperm & Hord & Hacyc).
  eapply returns_bind.
  { apply (returns_report (λ ev, evidence_new capacity = Ok ev)). intros ev Hev.
    unfold map_err in Hev. destruct (evidence_new capacity); [by simplify_eq|done]. }
  intros ev Hev.
  eapply returns_bind; [apply (replay_order_ok _ _ _ _ _ _ []); [done..| |done|]|].
  - intros i. rewrite Hperm, elem_of_seq. lia.
  - by intros i ?%elem_of_nil.
  - intros [[trace|] ds1].
    + intros [-> (steps & st & Hrun & ->)]. split; [by apply grows_refl|]. split; [done|].
      by exists order, ev, steps, st.
    + intros [Hg Hlt]. eapply returns_mono; [apply IH; [apply Hg|lia]|].
      intros [trace ds2] [Hg2 Han]. split; [by eapply grows_trans|done].
Qed.

Lemma simulate_order_ok current capacity draft rs ds :
  positional draft → (N.of_nat (length draft) <= u32_MAX + 1)%N → deps_ok (length draft) ds →
  returns (λ '(trace, ds'), grows (length draft) ds ds' ∧ analysed current capacity draft trace ds')
    (simulate_order current capacity draft rs ds).
Proof. intros. apply simulate_order_loop_ok; [done..|]. lia. Qed.

(** The trace records exactly the replayed actions. *)
Lemma run_order_fst draft st order steps st' : run_order draft st order steps st' → steps.*1 = order.
Proof. induction 1; csimpl; congruence. Qed.

Lemma records_contracts steps trace i c :
  NoDup steps.*1 →
  (records trace steps).(AnalysedOrder.contracts) !! i = Some c ↔
  (∃ sim, (i, sim) ∈ steps ∧ sim.(SimulatedAction.contract) = c) ∨
  (i ∉ steps.*1 ∧ trace.(AnalysedOrder.contracts) !! i = Some c).
Proof.
  revert trace. induction steps as [|[j sim] steps IH]; intros trace Hnd; simpl.
  { set_solver. }
  apply NoDup_cons in Hnd as [Hj Hnd]. change (foldl _ _ steps) with (records (record_trace j sim trace) steps).
  rewrite IH by done. simpl. setoid_rewrite elem_of_cons. split.
  - intros [(s & ? & ?)|[Hi Hl]]; [left; eauto|].
    apply lookup_insert_Some in Hl as [[-> <-]|[Hne Hl]]; [left; eauto|].
    right. split; [|done]. naive_solver.
  - intros [(s & [[= -> ->]|Hin] & <-)|[Hi Hl]].
    + right. split; [done|]. by rewrite lookup_insert_eq.
    + left. eauto.
    + right. split; [naive_solver|]. rewrite lookup_insert_ne by naive_solver. done.
Qed.

Lemma analysed_contracts current capacity draft trace ds :
  analysed current capacity draft trace ds →
  ∀ i, is_Some (trace.(AnalysedOrder.contracts) !! i) ↔ i < length draft.
Proof.
  intros (_ & order & ev & steps & st & _ & Hperm & _ & Hrun & ->) i.
  pose proof (run_order_fst _ _ _ _ _ Hrun) as Hfst.
  assert (NoDup steps.*1) as Hnd by (rewrite Hfst, Hperm; apply NoDup_seq).
  assert (i < length draft ↔ i ∈ steps.*1) as ->.
  { rewrite Hfst, Hperm, elem_of_seq. lia. }
  split.
  - intros [c Hc]. apply records_contracts in Hc as [(sim & Hin & _)|[_ Hc]]; [|done|done].
    apply list_elem_of_fmap. by exists (i, sim).
  - intros ([j sim] & -> & Hin)%list_elem_of_fmap. exists sim.(SimulatedAction.contract).
    apply records_contracts; [done|]. left. eauto.
Qed.

(** ** Resource order *)

(** Two contracts access one resource and one of them writes it. *)
Definition conflict (c d : ActionContract) : Prop :=
  ∃ l r, l ∈ c.(ActionContract.affected_resources) ∧ r ∈ d.(ActionContract.affected_resources) ∧
    l.(ResourceAccess.resource) = r.(ResourceAccess.resource) ∧
    (l.(ResourceAccess.mode) = ResourceAccessMode.Write ∨
     r.(ResourceAccess.mode) = ResourceAccessMode.Write).

Lemma conflict_sym c d : conflict c d → conflict d c.
Proof. intros (l & r & ? & ? & ? & ?). exists r, l. split_and!; [done..|tauto]. Qed.

Lemma find_map_None {A B} (f : A → option B) l : find_map f l = None ↔ ∀ x, x ∈ l → f x = None.
Proof.
  induction l as [|x l IH]; simpl; [set_solver|]. destruct (f x) eqn:Hf.
  - split; [done|]. intros Hall. rewrite Hall in Hf by left. done.
  - rewrite IH. setoid_rewrite elem_of_cons. naive_solver.
Qed.

Lemma conflicting_resource_None c d : conflicting_resource c d = None → ¬ conflict c d.
Proof.
  intros Hn (l & r & Hl & Hr & Heq & Hw). unfold conflicting_resource in Hn.
  rewrite find_map_None in Hn. specialize (Hn l Hl). rewrite find_map_None in Hn.
  specialize (Hn r Hr). unfold accesses_conflict, is_write in Hn.
  rewrite (bool_decide_eq_true_2 _ Heq) in Hn. simpl in Hn.
  destruct Hw as [Hw|Hw]; rewrite (bool_decide_eq_true_2 _ Hw) in Hn; [done|].
  by rewrite orb_true_r in Hn.
Qed.

(** Conflicting actions are ordered by a chain of dependencies. *)
Definition resources_ordered (contracts : gmap ActionId ActionContract) (l : list ActionId) ds : Prop :=
  ∀ i j ci cj, i ∈ l → j ∈ l → i ≠ j → contracts !! i = Some ci → contracts !! j = Some cj →
    conflict ci cj → related ds i j.

Lemma validate_resource_pairs_ok contracts ds l :
  (∀ i, i ∈ l → is_Some (contracts !! i)) →
  returns (λ _, resources_ordered contracts l ds) (validate_resource_pairs contracts ds l).
Proof.
  induction l as [|i l IH]; intros Hl; simpl; [by intros ? ? ? ? ?%elem_of_nil|].
  destruct (Hl i ltac:(left)) as [ci Hci].
  eapply returns_bind.
  - apply (returns_try_fold _ (λ pre _, ∀ j cj, j ∈ pre → contracts !! j = Some cj →
      conflict ci cj → related ds i j)); [by intros ? ? ?%elem_of_nil|].
    intros pre j post _ Heq Hpre. unfold validate_resource_pair. rewrite Hci. cbn [ok_or].
    destruct (Hl j) as [cj Hcj]; [right; rewrite Heq; apply elem_of_mid|]. rewrite Hcj. cbn [ok_or].
    assert ((conflict ci cj → related ds i j) → ∀ k ck, k ∈ pre ++ [j] → contracts !! k = Some ck →
      conflict ci ck → related ds i k) as Hext.
    { intros Hj k ck [Hk| ->%list_elem_of_singleton]%elem_of_app Hck; [by eapply Hpre|].
      by rewrite Hcj in Hck; simplify_eq. }
    destruct (conflicting_resource ci cj) as [res|] eqn:Hc.
    + destruct (negb _ && negb _) eqn:Hp; [done|]. refine (Hext _). intros _.
      rewrite andb_false_iff, !negb_false_iff, !dependency_path_tc in Hp. done.
    + refine (Hext _). intros ?. by apply conflicting_resource_None in Hc.
  - intros [] Hfirst. eapply returns_mono; [apply IH; intros; apply Hl; by right|].
    intros [] Hrest x y cx cy [->|Hx]%elem_of_cons [->|Hy]%elem_of_cons Hne Hcx Hcy Hc; [done| | |].
    + rewrite Hci in Hcx. simplify_eq. eauto.
    + rewrite Hci in Hcy. simplify_eq. destruct (Hfirst x cx Hx Hcx (conflict_sym _ _ Hc)); [right|left]; done.
    + by eapply Hrest.
Qed.

Lemma validate_resource_order_ok contracts ds :
  returns (λ _, ∀ i j ci cj, i ≠ j → contracts !! i = Some ci → contracts !! j = Some cj →
             conflict ci cj → related ds i j)
    (validate_resource_order contracts ds).
Proof.
  assert (∀ i, i ∈ sort_by Nat.leb (map_to_list contracts).*1 ↔ is_Some (contracts !! i)) as Hin.
  { intros i. rewrite sort_by_perm, list_elem_of_fmap. split.
    - intros ([? c] & -> & ?%elem_of_map_to_list). eauto.
    - intros [c ?]. exists (i, c). by rewrite elem_of_map_to_list. }
  eapply returns_mono; [apply validate_resource_pairs_ok; intros; by apply Hin|].
  intros [] Ho i j ci cj Hne Hi Hj. apply Ho; [apply Hin; eauto..|done|done|done].
Qed.

(** ** The composed plan *)

(** The indices and edges of a plan are usable. *)
Record plan_structured (plan : ExecutionPlan) : Prop := {
  wf_positional i a : plan.(ExecutionPlan.actions) !! i = Some a → a.(PlannedAction.id) = i;
  wf_bound : (N.of_nat (length plan.(ExecutionPlan.actions)) <= u32_MAX + 1)%N;
  wf_deps : deps_ok (length plan.(ExecutionPlan.actions)) plan.(ExecutionPlan.dependencies);
  wf_dag : acyclic (action_edges plan.(ExecutionPlan.dependencies)) }.

(** What a plan must satisfy before anything is executed. *)
Record plan_wf (plan : ExecutionPlan) : Prop := {
  wf_structured : plan_structured plan;
  wf_resources a b : a ∈ plan.(ExecutionPlan.actions) → b ∈ plan.(ExecutionPlan.actions) →
    a.(PlannedAction.id) ≠ b.(PlannedAction.id) →
    conflict a.(PlannedAction.informational_contract) b.(PlannedAction.informational_contract) →
    related plan.(ExecutionPlan.dependencies) a.(PlannedAction.id) b.(PlannedAction.id) }.

Definition draft_of (a : PlannedAction) : DraftAction :=
  DraftAction.mk a.(PlannedAction.id) a.(PlannedAction.operation) a.(PlannedAction.fragment)
    a.(PlannedAction.local_id) a.(PlannedAction.origin).

(** The contracts are the ones of the replay from the baseline. *)
Definition contracts_frozen (current : CurrentState) (capacity : list CapacityEvidence)
    (plan : ExecutionPlan) : Prop :=
  ∃ order evidence steps st,
    plan_order (length plan.(ExecutionPlan.actions)) plan.(ExecutionPlan.dependencies) = Ok order ∧
    order ≡ₚ seq 0 (length plan.(ExecutionPlan.actions)) ∧
    evidence_new capacity = Ok evidence ∧
    run_order (draft_of <$> plan.(ExecutionPlan.actions)) (from_current current, evidence)
      order steps st ∧
    ∀ i a, plan.(ExecutionPlan.actions) !! i = Some a →
      ∃ sim, (i, sim) ∈ steps ∧
             sim.(SimulatedAction.contract) = a.(PlannedAction.informational_contract).

Record composed (current : CurrentState) (capacity : list CapacityEvidence) (plan : ExecutionPlan)
    : Prop := {
  comp_wf : plan_wf plan;
  comp_fresh : planned_fresh current (draft_of <$> plan.(ExecutionPlan.actions));
  comp_inputs : inputs_bound current (draft_of <$> plan.(ExecutionPlan.actions))
    (draft_of <$> plan.(ExecutionPlan.actions)) plan.(ExecutionPlan.dependencies);
  comp_mounts : mounts_ordered (draft_of <$> plan.(ExecutionPlan.actions))
    (draft_of <$> plan.(ExecutionPlan.actions)) plan.(ExecutionPlan.dependencies);
  comp_structure : structure_wf current.(CurrentState.graph);
  comp_contracts : contracts_frozen current capacity plan }.

Lemma freeze_actions_ok contracts draft :
  returns (λ actions, draft_of <$> actions = draft ∧
      ∀ i a, actions !! i = Some a →
        contracts !! a.(PlannedAction.id) = Some a.(PlannedAction.informational_contract))
    (try_map (freeze_action contracts) draft).
Proof.
  eapply returns_mono.
  - apply (returns_try_map _ (λ d a, draft_of a = d ∧
      contracts !! a.(PlannedAction.id) = Some a.(PlannedAction.informational_contract))).
    intros d _. unfold freeze_action. destruct (contracts !! _) eqn:Hc; [|done]. simpl.
    split; [by destruct d|done].
  - intros actions Hall. split.
    + induction Hall as [|d a ds actions [? _] _ IH]; csimpl; congruence.
    + intros i a Ha. destruct (Forall2_lookup_r _ _ _ _ _ Hall Ha) as (d & _ & _ & ?). done.
Qed.

Lemma compose_plan_ok current fragments ordering capacity :
  returns (composed current capacity) (compose_plan_with_ordering current fragments ordering capacity).
Proof.
  unfold compose_plan_with_ordering.
  eapply returns_bind.
  { apply (returns_report (λ _, structure_wf current.(CurrentState.graph))). intros [] Hs.
    apply validate_structure_iff. by destruct (validate_structure _) as [[]|]. }
  intros [] Hstruct.
  eapply returns_bind; [apply flatten_fragments_ok|]. intros [draft ds0 rs] [Hpos Hn Hds0 Hrs].
  cbn [FlattenedFragments.actions FlattenedFragments.dependencies FlattenedFragments.requirements] in *.
  eapply returns_bind; [by apply add_ordering_ok|]. intros ds1 Hg1.
  eapply returns_bind; [by apply bind_planned_nodes_ok; [|apply Hg1]|]. intros ds2 (Hg2 & Hfresh & Hin).
  eapply returns_bind; [by apply bind_mount_order_ok; [|apply Hg2]|]. intros ds3 [Hg3 Hmt].
  eapply returns_bind; [by apply simulate_order_ok; [..|apply Hg3]|]. intros [tr ds4] [Hg4 Han].
  eapply returns_bind.
  { apply (resolve_requirements_ok (length draft)); [apply Hg4|done|].
    intros i. by apply (analysed_contracts _ _ _ _ _ Han). }
  intros ds5 Hg5.
  eapply returns_bind; [by apply simulate_order_ok; [..|apply Hg5]|]. intros [ftr ds] [Hg Hfin].
  eapply returns_bind; [by apply (returns_report (λ _, True))|]. intros _ _.
  eapply returns_bind; [apply validate_resource_order_ok|]. intros [] Hres.
  eapply returns_bind; [apply freeze_actions_ok|]. intros actions [<- Hctr].
  assert (grows (length (draft_of <$> actions)) ds2 ds) as Hg25
    by (eapply grows_trans; [done|]; eapply grows_trans; [done|]; by eapply grows_trans).
  assert (extends ds3 ds) as He3
    by (etrans; [apply Hg4|]; etrans; [apply Hg5|apply Hg]).
  assert (∀ i a, actions !! i = Some a → a.(PlannedAction.id) = i) as Hpos'.
  { intros i a Ha. apply (Hpos i (draft_of a)). by rewrite list_lookup_fmap, Ha. }
  rewrite length_fmap in *. split; cbn [ExecutionPlan.actions ExecutionPlan.dependencies].
  - split; cbn [ExecutionPlan.actions ExecutionPlan.dependencies];
      [by split; [..|apply Hg|apply Hfin]|].
    intros a b [i Hi]%list_elem_of_lookup [j Hj]%list_elem_of_lookup Hne.
    by apply Hres; [|eapply Hctr..].
  - done.
  - eapply inputs_bound_extends; [done|apply Hg25].
  - by eapply mounts_ordered_extends.
  - done.
  - destruct Hfin as (_ & order & ev & steps & st & Hor & Hperm & Hev & Hrun & ->).
    rewrite length_fmap in *. exists order, ev, steps, st. split_and!; [done..|].
    intros i a Ha. pose proof (Hctr i a Ha) as Hc. rewrite (Hpos' i a Ha) in Hc.
    apply records_contracts in Hc as [?|[_ ?]]; [done..|].
    rewrite (run_order_fst _ _ _ _ _ Hrun), Hperm. apply NoDup_seq.
Qed.

(** ** Theorems *)

(** C1: Composition terminates without a panic on every input: each restart of the
    simulation adds an edge, no index is out of range, and the final errors are
    the reported ones. *)
Theorem compose_plan_total current fragments ordering capacity :
  match compose_plan_with_ordering current fragments ordering capacity with
  | Ok _ | Err (Reported _) => True
  | Err Panicked | Err OutOfFuel => False
  end.
Proof.
  pose proof (compose_plan_ok current fragments ordering capacity) as Hp. unfold returns in Hp.
  by destruct (compose_plan_with_ordering _ _ _ _) as [|[]].
Qed.

(** C2: A composed plan is well formed: identities are positions, dependencies
    join existing actions without repetition or cycle, and actions whose
    contracts conflict on a resource are ordered by a chain of dependencies. *)
Theorem compose_plan_wf current fragments ordering capacity plan :
  compose_plan_with_ordering current fragments ordering capacity = Ok plan → plan_wf plan.
Proof.
  intros Hp. eapply comp_wf, returns_inv; [|exact Hp]. apply compose_plan_ok.
Qed.

(** C3: In a composed plan every planned node is new and created once, every input
    that was not observed is created by an action ordered before its user, and
    nested mount changes of one namespace are ordered. *)
Theorem compose_plan_inputs current fragments ordering capacity plan :
  compose_plan_with_ordering current fragments ordering capacity = Ok plan →
  let drafts := draft_of <$> plan.(ExecutionPlan.actions) in
  planned_fresh current drafts ∧
  inputs_bound current drafts drafts plan.(ExecutionPlan.dependencies) ∧
  mounts_ordered drafts drafts plan.(ExecutionPlan.dependencies).
Proof.
  intros Hp. pose proof (compose_plan_ok current fragments ordering capacity) as Hc.
  rewrite Hp in Hc. by destruct Hc.
Qed.
