(* ===== verification/ComposeKeeps.v ===== *)
(** * What composition keeps of its fragments

    The actions of a composed plan are the actions of the fragments in order,
    every edge of a fragment and every requested ordering is an edge of the
    plan, and fragments whose references resolve never make the composer
    report an internal error. *)

From stdpp Require Import relations.
From S2P Require Import Prelude Model Reach Graph GraphOrder GraphValid State Action Contract.
From S2P Require Import ContractProps Logical Evidence Prerequisites Effects Report PlanOrder.
From S2P Require Import Compose ComposeProps.

Implicit Types (fragments : list PlanFragment) (ds : list ActionDependency).

(** ** Flattening *)

(** The actions with the index of their fragment, in identity order. *)
Abbreviation flat_entry := (nat * PlanFragment * FragmentAction)%type (only parsing).
Definition fragment_entries (e : nat * PlanFragment) : list flat_entry :=
  (λ a, (e.1, e.2, a)) <$> e.2.(PlanFragment.actions).
Definition flat_entries fragments : list flat_entry := enumerate fragments ≫= fragment_entries.

Definition entry_key (e : flat_entry) : nat * LocalActionId := (e.1.1, e.2.(FragmentAction.id)).
Definition entry_draft (i : ActionId) (e : flat_entry) : DraftAction :=
  DraftAction.mk i e.2.(FragmentAction.operation) e.1.1 e.2.(FragmentAction.id)
    e.1.2.(PlanFragment.origin).

Lemma all_keys_entries (l : list (nat * PlanFragment)) :
  all_keys l = entry_key <$> (l ≫= fragment_entries).
Proof.
  unfold all_keys. induction l as [|e l IH]; [done|]. cbn [mbind list_bind].
  rewrite fmap_app, IH. f_equal. unfold fragment_entries. by rewrite <-list_fmap_compose.
Qed.

Lemma imap_snoc {A B} (f : nat → A → B) l x : imap f (l ++ [x]) = imap f l ++ [f (length l) x].
Proof. rewrite imap_app. simpl. by rewrite Nat.add_0_r. Qed.

Lemma flatten_actions_entries fragments ids :
  numbering (all_keys (enumerate fragments)) ids →
  returns (λ drafts, drafts = imap entry_draft (flat_entries fragments))
    (try_fold (flatten_actions ids) [] (enumerate fragments)).
Proof.
  intros Hnum. apply (returns_try_fold _ (λ pre drafts,
    drafts = imap entry_draft (pre ≫= fragment_entries))); [done|].
  intros pre [fi f] post drafts Heq ->. unfold flatten_actions.
  eapply returns_bind; [apply returns_report; intros ? H; exact H|]. intros fid Hfid.
  apply u32_index_ok in Hfid as [-> _]. destruct (existsb _ _); [done|]. eapply returns_mono.
  - apply (returns_try_fold _ (λ ipre drafts, drafts =
      imap entry_draft ((pre ≫= fragment_entries) ++ ((λ a, (fi, f, a)) <$> ipre)))).
    { by rewrite app_nil_r. }
    intros ipre a ipost drafts1 Ha ->.
    pose proof (keys_lookup pre (fi, f) post ipre a ipost Ha) as Hk. rewrite <-Heq in Hk.
    cbn [fst] in Hk. apply (num_lookup _ _ Hnum) in Hk. rewrite Hk. simpl.
    rewrite fmap_snoc, app_assoc, imap_snoc. do 2 f_equal. unfold entry_draft. simpl. f_equal.
    by rewrite all_keys_entries, !length_app, !length_fmap.
  - intros d ->. by rewrite bind_app, bind_singleton.
Qed.

Lemma enumerate_lookup {A} (l : list A) i x : enumerate l !! i = Some x ↔ l !! x.1 = Some x.2 ∧ x.1 = i.
Proof.
  unfold enumerate. rewrite list_lookup_imap. destruct x as [j y]. simpl.
  destruct (l !! i) as [z|] eqn:Hi; simpl; split; try naive_solver.
Qed.
Lemma elem_of_enumerate {A} (l : list A) x : x ∈ enumerate l ↔ l !! x.1 = Some x.2.
Proof.
  rewrite list_elem_of_lookup. setoid_rewrite enumerate_lookup. naive_solver.
Qed.

(** A local edge is an edge between the global identities. *)
Definition local_edges (ids : gmap (nat * LocalActionId) ActionId) (entries : list (nat * PlanFragment))
    ds : Prop :=
  ∀ e d, e ∈ entries → d ∈ e.2.(PlanFragment.dependencies) →
    ∃ b a, ids !! (e.1, d.(FragmentDependency.before)) = Some b ∧
           ids !! (e.1, d.(FragmentDependency.after)) = Some a ∧ edge (action_edges ds) b a.

Lemma add_edge_edge ds b a reason ds' :
  add_edge ds b a reason = Ok ds' → extends ds ds' ∧ edge (action_edges ds') b a.
Proof.
  unfold add_edge. destruct (add_dependency ds b a reason) as [ds1|] eqn:Hadd; [|done]. intros [= <-].
  apply add_dependency_spec in Hadd as (_ & He & _). split; [intros i j ?|]; apply He; auto.
Qed.

Lemma flatten_edges_local ids entries acc ds rs :
  try_fold (flatten_edges ids) acc entries = Ok (ds, rs) →
  extends acc.1 ds ∧ local_edges ids entries ds.
Proof.
  intros Hf. refine (try_fold_inv _ (λ pre r, extends acc.1 r.1 ∧ local_edges ids pre r.1)
    _ _ _ _ _ Hf); [split; [done|by intros ? ? ?%elem_of_nil]|].
  intros pre [fi f] post [ds1 rs1] [ds2 rs2] _ [He Hl]. unfold flatten_edges. cbn [fst] in *.
  destruct (u32_index _ fi) as [fid|]; [|done]. cbn [report map_err].
  destruct (try_fold _ ds1 _) as [ds3|] eqn:Hd; [|done].
  destruct (try_fold _ rs1 _) as [rs3|]; [|done]. intros [= <- <-]. clear rs3.
  assert (extends ds1 ds3 ∧ local_edges ids [(fi, f)] ds3) as [He3 Hl3].
  { assert (extends ds1 ds3 ∧ ∀ d, d ∈ f.(PlanFragment.dependencies) → ∃ b a,
      ids !! (fi, d.(FragmentDependency.before)) = Some b ∧
      ids !! (fi, d.(FragmentDependency.after)) = Some a ∧ edge (action_edges ds3) b a) as [? Hall].
    { refine (try_fold_inv _ (λ pre r, extends ds1 r ∧ ∀ d, d ∈ pre → ∃ b a,
        ids !! (fi, d.(FragmentDependency.before)) = Some b ∧
        ids !! (fi, d.(FragmentDependency.after)) = Some a ∧ edge (action_edges r) b a)
        _ _ _ _ _ Hd); [split; [done|by intros ? ?%elem_of_nil]|].
      intros dpre d dpost r r' _ [Hr Hall]. destruct (ids !! _) as [b|] eqn:Hb; [|done].
      destruct (ids !! (fi, d.(FragmentDependency.after))) as [a|] eqn:Ha; [|done].
      intros [Hrr Hedge]%add_edge_edge. split; [by etrans|].
      intros d' [Hd'| ->%list_elem_of_singleton]%elem_of_app; [|by exists b, a].
      destruct (Hall d' Hd') as (b' & a' & ? & ? & ?). exists b', a'. eauto. }
    split; [done|]. intros e d ->%list_elem_of_singleton. apply Hall. }
  split; [by etrans|]. intros e d [Hin|Hin]%elem_of_app Hd'; [|by apply (Hl3 e)].
  destruct (Hl e d Hin Hd') as (b & a & ? & ? & ?). exists b, a. eauto.
Qed.

(** What flattening hands on, in terms of the fragments. *)
Lemma flatten_fragments_inv fragments flat :
  flatten_fragments fragments = Ok flat →
  ∃ ids, fragment_action_ids fragments = Ok ids ∧
    numbering (entry_key <$> flat_entries fragments) ids ∧
    flat.(FlattenedFragments.actions) = imap entry_draft (flat_entries fragments) ∧
    local_edges ids (enumerate fragments) flat.(FlattenedFragments.dependencies).
Proof.
  unfold flatten_fragments. destruct (fragment_action_ids fragments) as [ids|] eqn:Hids; [|done].
  cbn [report map_err]. pose proof (fragment_action_ids_numbering _ _ Hids) as Hnum.
  pose proof (flatten_actions_entries _ _ Hnum) as Hd.
  destruct (try_fold (flatten_actions ids) _ _) as [drafts|]; [|done]. simpl in Hd. subst drafts.
  destruct (try_fold (flatten_edges ids) _ _) as [[ds rs]|] eqn:He; [|done]. intros [= <-].
  apply flatten_edges_local in He as [_ Hl]. exists ids. rewrite all_keys_entries in Hnum. done.
Qed.

(** ** The requested order *)

Definition ordered_as (draft : list DraftAction) ds (o : FragmentOrdering) : Prop :=
  ∃ b a, draft_endpoint draft o.(FragmentOrdering.before) = Some b ∧
         draft_endpoint draft o.(FragmentOrdering.after) = Some a ∧ edge (action_edges ds) b a.

Lemma ordered_as_extends draft ds ds' o : extends ds ds' → ordered_as draft ds o → ordered_as draft ds' o.
Proof. intros He (b & a & ? & ? & ?). exists b, a. eauto. Qed.

Lemma add_orderings_edges draft ordering ds ds' :
  try_fold (add_ordering draft) ds ordering = Ok ds' →
  extends ds ds' ∧ ∀ o, o ∈ ordering → ordered_as draft ds' o.
Proof.
  intros Hf. refine (try_fold_inv _ (λ pre r, extends ds r ∧ ∀ o, o ∈ pre → ordered_as draft r o)
    _ _ _ _ _ Hf); [split; [done|by intros ? ?%elem_of_nil]|].
  intros pre o post ds1 ds2 _ [He Hall]. unfold add_ordering.
  destruct (draft_endpoint draft o.(FragmentOrdering.before)) as [b|] eqn:Hb; [|done].
  destruct (draft_endpoint draft o.(FragmentOrdering.after)) as [a|] eqn:Ha; [|done]. cbn [ok_or].
  intros [Hx Hedge]%add_edge_edge. split; [by etrans|].
  intros o' [Ho'| ->%list_elem_of_singleton]%elem_of_app; [|by exists b, a].
  by eapply ordered_as_extends; [|apply Hall].
Qed.

(** ** The plan *)

Record keeps (fragments : list PlanFragment) (ordering : list FragmentOrdering)
    (plan : ExecutionPlan) (flat : FlattenedFragments) : Prop := {
  keep_flat : flatten_fragments fragments = Ok flat;
  keep_actions : draft_of <$> plan.(ExecutionPlan.actions) = flat.(FlattenedFragments.actions);
  keep_edges : extends flat.(FlattenedFragments.dependencies) plan.(ExecutionPlan.dependencies);
  keep_order o : o ∈ ordering →
    ordered_as flat.(FlattenedFragments.actions) plan.(ExecutionPlan.dependencies) o }.

Lemma compose_plan_keeps current fragments ordering capacity :
  returns (λ plan, ∃ flat, keeps fragments ordering plan flat)
    (compose_plan_with_ordering current fragments ordering capacity).
Proof.
  unfold compose_plan_with_ordering.
  eapply returns_bind; [by apply (returns_report (λ _, True))|]. intros _ _.
  eapply returns_bind; [apply returns_eq, flatten_fragments_ok|].
  intros flat [Hflat [Hpos Hn Hds0 Hrs]]. cbn zeta.
  eapply returns_bind; [by apply returns_eq, add_ordering_ok|].
  intros ds1 [[He1 Hord]%add_orderings_edges [Hds1 _]].
  eapply returns_bind; [by apply bind_planned_nodes_ok|]. intros ds2 [[Hds2 He2] _].
  eapply returns_bind; [by apply bind_mount_order_ok|]. intros ds3 [[Hds3 He3] _].
  eapply returns_bind; [by apply simulate_order_ok|]. intros [tr ds4] [[Hds4 He4] Han].
  eapply returns_bind.
  { apply (resolve_requirements_ok (length flat.(FlattenedFragments.actions))); [done..|].
    intros i. by apply (analysed_contracts _ _ _ _ _ Han). }
  intros ds5 [Hds5 He5].
  eapply returns_bind; [by apply simulate_order_ok|]. intros [ftr ds] [[_ He] _].
  eapply returns_bind; [by apply (returns_report (λ _, True))|]. intros _ _.
  eapply returns_bind; [apply validate_resource_order_ok|]. intros [] _.
  eapply returns_bind; [apply freeze_actions_ok|]. intros actions [Ha _].
  assert (extends ds1 ds) as He15 by (do 4 (etrans; [done|]); done).
  exists flat. split; [done..| |]; cbn [ExecutionPlan.dependencies].
  - by etrans.
  - intros o Ho. by eapply ordered_as_extends; [|apply Hord].
Qed.

(** ** Internal errors

    The composition errors that [DraftBuildError::is_internal] blames on the
    program and not on the draft. *)
Definition internal_composition (e : CompositionError) : bool :=
  match e with
  | CompositionError.MissingRequirementCheck _ | CompositionError.MissingAnalysedContract _
  | CompositionError.RequirementNotInContract _ | CompositionError.UnknownLocalDependency _
  | CompositionError.UnknownRequirementAction _ _ | CompositionError.DuplicateLocalAction _ _
  | CompositionError.UnknownOrderingAction _ => true
  | _ => false
  end.
Definition external (e : CompositionError) : Prop := internal_composition e = false.

Definition local_ids (f : PlanFragment) : list LocalActionId :=
  FragmentAction.id <$> f.(PlanFragment.actions).

(** The references of the fragments resolve, and a declared requirement is one
    that the contract of its action has in every state. *)
Record fragments_resolve fragments (ordering : list FragmentOrdering) : Prop := {
  fr_unique f : f ∈ fragments → NoDup (local_ids f);
  fr_edges f d : f ∈ fragments → d ∈ f.(PlanFragment.dependencies) →
    d.(FragmentDependency.before) ∈ local_ids f ∧ d.(FragmentDependency.after) ∈ local_ids f;
  fr_requirements f r : f ∈ fragments → r ∈ f.(PlanFragment.external_requirements) →
    ∃ a, a ∈ f.(PlanFragment.actions) ∧ a.(FragmentAction.id) = r.(ExternalRequirement.action) ∧
      ∀ g, r.(ExternalRequirement.prerequisite) ∈
           (describe_action a.(FragmentAction.operation) g).(ActionContract.prerequisites);
  fr_ordering o r : o ∈ ordering → r ∈ [o.(FragmentOrdering.before); o.(FragmentOrdering.after)] →
    ∃ f, fragments !! r.(FragmentActionRef.fragment) = Some f ∧
         r.(FragmentActionRef.action) ∈ local_ids f }.

Lemma enumerate_fst {A} (l : list A) : (enumerate l).*1 = seq 0 (length l).
Proof.
  unfold enumerate. rewrite fmap_imap. apply list_eq. intros i. rewrite list_lookup_imap.
  destruct (l !! i) as [x|] eqn:Hi; simpl.
  - symmetry. apply lookup_seq. apply lookup_lt_Some in Hi. lia.
  - symmetry. apply lookup_ge_None_2. rewrite length_seq. by apply lookup_ge_None_1.
Qed.

Lemma u32_index_external m e : u32_index CompositionError.PlanTooLarge m = Err e → external e.
Proof. unfold u32_index. by destruct (u32_try_from _); intros [= <-]. Qed.

(** The keys that a prefix of the enumeration has inserted. *)
Lemma action_ids_keys (f : nat * PlanFragment) (ipre : list FragmentAction)
    (ids ids' : gmap (nat * LocalActionId) ActionId) fid (keys : list (nat * LocalActionId)) :
  (∀ k, is_Some (ids !! k) → k ∈ keys) →
  try_fold (λ (ids : gmap (nat * LocalActionId) ActionId) action,
      let? id := u32_index CompositionError.PlanTooLarge (size ids) in
      match ids !! (f.1, action.(FragmentAction.id)) with
      | Some _ => Err (CompositionError.DuplicateLocalAction fid action.(FragmentAction.id))
      | None => Ok (<[(f.1, action.(FragmentAction.id)) := id]> ids)
      end) ids ipre = Ok ids' →
  ∀ k, is_Some (ids' !! k) → k ∈ keys ++ ((λ a, (f.1, a.(FragmentAction.id))) <$> ipre).
Proof.
  intros H0. apply (try_fold_inv _ (λ pre ids', ∀ k, is_Some (ids' !! k) →
    k ∈ keys ++ ((λ a, (f.1, a.(FragmentAction.id))) <$> pre))).
  { intros k Hk. rewrite app_nil_r. auto. }
  intros pre a post ids1 ids2 _ IH. destruct (u32_index _ _) as [i|]; [|done].
  destruct (ids1 !! _); [done|]. intros [= <-] k. rewrite fmap_snoc, app_assoc, elem_of_app.
  rewrite lookup_insert_is_Some. intros [<-|[_ Hk]]; [right; by left|left; auto].
Qed.

Lemma fragment_action_ids_external fragments e :
  (∀ f, f ∈ fragments → NoDup (local_ids f)) → fragment_action_ids fragments = Err e → external e.
Proof.
  intros Hres He. apply try_fold_err in He as (pre & [fi f] & post & ids & Heq & Hpre & Hf).
  assert (∀ k, is_Some (ids !! k) → k ∈ all_keys pre) as Hkeys.
  { revert Hpre. apply (try_fold_inv _ (λ pre ids, ∀ k, is_Some (ids !! k) → k ∈ all_keys pre)).
    { intros k. rewrite lookup_empty. by intros []. }
    intros p [gi g] q ids1 ids2 _ IH. destruct (u32_index _ gi) as [gid|]; [|done].
    intros Hk. rewrite all_keys_snoc. by eapply (action_ids_keys (gi, g)). }
  destruct (u32_index _ fi) as [fid|] eqn:Hi; [|apply u32_index_external in Hi; by injection Hf as <-].
  simpl in Hf. apply try_fold_err in Hf as (ipre & a & ipost & ids1 & Ha & Hi1 & Hstep).
  destruct (u32_index _ (size ids1)) as [i1|] eqn:Hs;
    [|apply u32_index_external in Hs; by injection Hstep as <-].
  simpl in Hstep. destruct (ids1 !! (fi, a.(FragmentAction.id))) as [dup|] eqn:Hdup; [|done].
  exfalso. eapply (action_ids_keys (fi, f)) in Hi1; [|done|by rewrite Hdup].
  assert (NoDup (enumerate fragments).*1) as Hnd by (rewrite enumerate_fst; apply NoDup_seq).
  rewrite Heq, fmap_app, NoDup_app in Hnd. destruct Hnd as (_ & Hnd & _).
  apply elem_of_app in Hi1 as [Hin|Hin].
  - apply list_elem_of_bind in Hin as ([gi g] & Hin & Hg).
    apply list_elem_of_fmap in Hin as (b & [= <- _] & _).
    apply (Hnd fi); [apply list_elem_of_fmap; by exists (fi, g)|by left].
  - apply list_elem_of_fmap in Hin as (b & [= Hb] & Hin).
    assert (f ∈ fragments) as Hff.
    { apply (list_elem_of_lookup_2 _ fi), (elem_of_enumerate _ (fi, f)). rewrite Heq. apply elem_of_mid. }
    pose proof (Hres f Hff) as Hu. unfold local_ids in Hu.
    cbn [snd] in Ha. rewrite Ha, fmap_app, NoDup_app in Hu. destruct Hu as (_ & Hu & _).
    apply (Hu b.(FragmentAction.id)); [by apply list_elem_of_fmap_2|rewrite <-Hb; by left].
Qed.

(** Positions of fragments fit [u32]. *)
Lemma fragment_action_ids_bound fragments ids i f :
  fragment_action_ids fragments = Ok ids → fragments !! i = Some f → (N.of_nat i <= u32_MAX)%N.
Proof.
  intros Hids Hf. assert ((i, f) ∈ enumerate fragments) as Hin by by apply elem_of_enumerate.
  revert Hin. refine (try_fold_inv _ (λ pre _, (i, f) ∈ pre → (N.of_nat i <= u32_MAX)%N)
    _ _ _ _ _ Hids); [by intros ?%elem_of_nil|].
  intros pre [gi g] post ids1 ids2 _ IH. destruct (u32_index _ gi) as [gid|] eqn:Hg; [|done].
  intros _ [?|[= -> ->]%list_elem_of_singleton]%elem_of_app; [auto|]. by apply u32_index_ok in Hg as [_ ?].
Qed.

(** Every requirement is owned by an action whose contract always has it. *)
Definition reqs_contracted (draft : list DraftAction) (rs : list PendingRequirement) : Prop :=
  ∀ r, r ∈ rs → ∃ d, d ∈ draft ∧ d.(DraftAction.id) = r.(PendingRequirement.action) ∧
    ∀ g, r.(PendingRequirement.prerequisite) ∈
         (describe_action d.(DraftAction.operation) g).(ActionContract.prerequisites).

Section resolve.
Context (fragments : list PlanFragment) (ordering : list FragmentOrdering)
  (ids : gmap (nat * LocalActionId) ActionId).
Hypothesis Hres : fragments_resolve fragments ordering.
Hypothesis Hids : fragment_action_ids fragments = Ok ids.

Lemma ids_numbering : numbering (entry_key <$> flat_entries fragments) ids.
Proof using Hids. unfold flat_entries. rewrite <-all_keys_entries. by apply fragment_action_ids_numbering. Qed.

(** An action of a fragment has an identity, and the draft has it there. *)
Lemma ids_resolve fi f a :
  fragments !! fi = Some f → a ∈ f.(PlanFragment.actions) →
  ∃ i, ids !! (fi, a.(FragmentAction.id)) = Some i ∧
       entry_draft i (fi, f, a) ∈ imap entry_draft (flat_entries fragments).
Proof using Hids.
  intros Hf Ha.
  assert ((fi, f, a) ∈ flat_entries fragments) as [i Hi]%list_elem_of_lookup.
  { apply list_elem_of_bind. exists (fi, f). split; [|by apply (elem_of_enumerate _ (fi, f))].
    by apply list_elem_of_fmap_2 with (f := λ a, (fi, f, a)). }
  exists i. split.
  - apply (num_lookup _ _ ids_numbering). by rewrite list_lookup_fmap, Hi.
  - apply (list_elem_of_lookup_2 _ i). by rewrite list_lookup_imap, Hi.
Qed.

Lemma ids_resolve_local fi f l :
  fragments !! fi = Some f → l ∈ local_ids f → is_Some (ids !! (fi, l)).
Proof using Hids.
  intros Hf (a & -> & Ha)%list_elem_of_fmap. destruct (ids_resolve fi f a Hf Ha) as (i & -> & _). eauto.
Qed.

Lemma add_edge_external ds b a reason : raises external (add_edge ds b a reason).
Proof.
  unfold add_edge. apply raises_report. intros e. destruct (add_dependency ds b a reason) as [|[]];
    by intros [= <-].
Qed.

Lemma flatten_actions_external : raises external (try_fold (flatten_actions ids) [] (enumerate fragments)).
Proof.
  apply raises_try_fold_any. intros [fi f] drafts _. unfold flatten_actions. apply raises_bind.
  { apply raises_report, u32_index_external. }
  intros fid _. destruct (existsb _ _); [done|]. apply raises_try_fold_any. intros a ds _.
  by destruct (ids !! _).
Qed.

Lemma flatten_edges_external :
  raises external (try_fold (flatten_edges ids) ([], []) (enumerate fragments)).
Proof using Hres Hids.
  apply raises_try_fold_any. intros [fi f] [ds rs] Hf%elem_of_enumerate. cbn [fst snd] in Hf.
  pose proof (list_elem_of_lookup_2 _ _ _ Hf) as Hin. unfold flatten_edges.
  apply raises_bind; [apply raises_report, u32_index_external|]. intros fid _.
  apply raises_bind; [|intros ds' _; apply raises_bind; [|done]]; apply raises_try_fold_any.
  - intros d ds1 Hd. destruct (fr_edges _ _ Hres f d Hin Hd) as [Hb Ha].
    destruct (ids_resolve_local _ _ _ Hf Hb) as [b ->].
    destruct (ids_resolve_local _ _ _ Hf Ha) as [a ->]. apply add_edge_external.
  - intros r rs1 Hr. destruct (fr_requirements _ _ Hres f r Hin Hr) as (a & Ha & <- & _).
    by destruct (ids_resolve _ _ _ Hf Ha) as (i & -> & _).
Qed.

Lemma flatten_edges_contracted ds rs :
  try_fold (flatten_edges ids) ([], []) (enumerate fragments) = Ok (ds, rs) →
  reqs_contracted (imap entry_draft (flat_entries fragments)) rs.
Proof using Hres Hids.
  intros Hf. refine (try_fold_inv _ (λ _ r, reqs_contracted (imap entry_draft (flat_entries fragments)) r.2)
    _ _ _ _ _ Hf); [by intros ? ?%elem_of_nil|].
  intros pre [fi f] post [ds1 rs1] [ds2 rs2] Heq IH. unfold flatten_edges. cbn [snd] in *.
  destruct (u32_index _ fi) as [fid|]; [|done]. cbn [report map_err].
  destruct (try_fold _ ds1 _) as [ds3|]; [|done].
  destruct (try_fold _ rs1 _) as [rs3|] eqn:Hr; [|done]. intros [= _ <-].
  assert (fragments !! fi = Some f) as Hff.
  { apply (elem_of_enumerate _ (fi, f)). rewrite Heq. apply elem_of_mid. }
  refine (try_fold_inv _ (λ _ r, reqs_contracted (imap entry_draft (flat_entries fragments)) r)
    _ _ _ _ _ Hr); [done|].
  intros rpre r rpost rs4 rs5 Hreq IH4.
  destruct (fr_requirements _ _ Hres f r) as (a & Ha & <- & Hg);
    [by eapply list_elem_of_lookup_2|rewrite Hreq; apply elem_of_mid|].
  destruct (ids_resolve _ _ _ Hff Ha) as (i & -> & Hi). intros [= <-].
  intros r' [?| ->%list_elem_of_singleton]%elem_of_app; [auto|]. by exists (entry_draft i (fi, f, a)).
Qed.

Lemma add_ordering_external ds :
  raises external (try_fold (add_ordering (imap entry_draft (flat_entries fragments))) ds ordering).
Proof using Hres Hids.
  apply raises_try_fold_any. intros o ds1 Ho. unfold add_ordering.
  assert (∀ r, r ∈ [o.(FragmentOrdering.before); o.(FragmentOrdering.after)] →
    is_Some (draft_endpoint (imap entry_draft (flat_entries fragments)) r)) as Hend.
  { intros r Hr. destruct (fr_ordering _ _ Hres o r Ho Hr) as (f & Hf & Hl).
    apply list_elem_of_fmap in Hl as (a & Hl & Ha). destruct (ids_resolve _ _ _ Hf Ha) as (i & _ & Hi).
    unfold draft_endpoint. apply fmap_is_Some, last_is_Some. intros Hnil.
    eapply (elem_of_nil (entry_draft i (r.(FragmentActionRef.fragment), f, a))). rewrite <-Hnil.
    apply list_elem_of_filter. split; [|done]. destruct r. simpl in *. by rewrite Hl. }
  destruct (Hend o.(FragmentOrdering.before)) as [b ->]; [left|].
  destruct (Hend o.(FragmentOrdering.after)) as [a ->]; [right; left|].
  apply add_edge_external.
Qed.
End resolve.

Lemma bind_planned_nodes_external current draft ds :
  raises external (bind_planned_nodes current draft ds).
Proof.
  unfold bind_planned_nodes. apply raises_bind.
  - apply raises_try_fold_any. intros a cs _. unfold bind_creator. by repeat case_match.
  - intros creators _. apply raises_try_fold_any. intros a ds1 _. unfold bind_inputs.
    apply raises_try_fold_any. intros node ds2 _.
    repeat case_match; try done. apply add_edge_external.
Qed.

Lemma bind_mount_order_external draft ds : raises external (bind_mount_order draft ds).
Proof.
  apply raises_try_fold_any. intros p ds1 _. apply raises_try_fold_any. intros c ds2 _.
  unfold bind_mount_pair. repeat case_match; try done; apply add_edge_external.
Qed.

Lemma requirement_provider_external r contracts ds :
  raises external (requirement_provider r contracts ds).
Proof. unfold requirement_provider. cbn zeta. by repeat case_match. Qed.

Lemma positional_eq draft a b :
  positional draft → a ∈ draft → b ∈ draft → a.(DraftAction.id) = b.(DraftAction.id) → a = b.
Proof.
  intros Hpos [i Hi]%list_elem_of_lookup [j Hj]%list_elem_of_lookup.
  rewrite (Hpos _ _ Hi), (Hpos _ _ Hj). intros ->. congruence.
Qed.

Lemma bind_contextual_outputs_external draft st a emitted rs ds :
  positional draft → a ∈ draft → reqs_contracted draft rs →
  raises external (bind_contextual_outputs st a draft emitted rs ds).
Proof.
  intros Hpos Ha Hrs. unfold bind_contextual_outputs. cbn zeta.
  assert (∀ r, r ∈ filter (λ r, r.(PendingRequirement.action) = a.(DraftAction.id)) rs →
    contains r.(PendingRequirement.prerequisite)
      (describe_action a.(DraftAction.operation) (sim_graph st)).(ActionContract.prerequisites) = true)
    as Hown.
  { intros r [Hid Hr]%list_elem_of_filter. destruct (Hrs r Hr) as (d & Hd & Heq & Hg).
    apply contains_true. rewrite (positional_eq draft a d); [apply Hg|done..|congruence]. }
  destruct (filter _ rs) as [|r0 owned]; [done|]. apply raises_try_fold_any.
  intros r [bound ds1] Hr. unfold bind_requirement. destruct bound; [done|].
  rewrite (Hown r Hr). cbn [negb]. destruct (is_satisfied _); [done|].
  apply raises_bind; [apply requirement_provider_external|]. intros [p|] _; [|done].
  apply raises_bind; [apply add_edge_external|done].
Qed.

Lemma replay_order_external draft rs order st trace ds :
  positional draft → reqs_contracted draft rs →
  raises external (replay_order draft rs order st trace ds).
Proof.
  intros Hpos Hrs. revert st trace ds.
  induction order as [|i order IH]; intros st trace ds; simpl; [done|].
  unfold index. destruct (draft !! i) as [a|] eqn:Ha; [|done]. cbn [ok_or].
  apply raises_bind.
  { apply bind_contextual_outputs_external; [done|by eapply list_elem_of_lookup_2|done]. }
  intros [[] ds1] _; [done|]. destruct (simulate_action st _) as [st1 [sim|[]]]; done.
Qed.

Lemma simulate_order_external current capacity draft rs ds :
  positional draft → reqs_contracted draft rs →
  raises external (simulate_order current capacity draft rs ds).
Proof.
  intros Hpos Hrs. unfold simulate_order. generalize (S (length draft * length draft)) as fuel.
  intros fuel. revert ds. induction fuel as [|fuel IH]; intros ds; simpl; [done|].
  apply raises_bind.
  { unfold plan_order. destruct (forallb _ _); [|done]. apply raises_report. intros e.
    destruct (topological_order _ _) as [|[]]; by intros [= <-]. }
  intros order _. apply raises_bind.
  { apply raises_report. intros e. by destruct (evidence_new _); intros [= <-]. }
  intros ev _. apply raises_bind; [by apply replay_order_external|]. intros [[tr|] ds1] _; [done|].
  apply IH.
Qed.

(** What the trace of a replay has of every action. *)
Lemma records_checks_notin steps trace i :
  i ∉ steps.*1 →
  (records trace steps).(AnalysedOrder.checks) !! i = trace.(AnalysedOrder.checks) !! i.
Proof.
  revert trace. induction steps as [|[j sim] steps IH]; intros trace; [done|]. simpl.
  intros [Hne Hi]%not_elem_of_cons. rewrite IH by done. simpl. by rewrite lookup_insert_ne.
Qed.

Lemma records_checks steps trace i sim :
  NoDup steps.*1 → (i, sim) ∈ steps →
  (records trace steps).(AnalysedOrder.checks) !! i = Some sim.(SimulatedAction.checks).
Proof.
  intros Hnd (pre & post & ->)%list_elem_of_split.
  rewrite fmap_app, NoDup_app in Hnd. destruct Hnd as (_ & _ & [Hi _]%NoDup_cons).
  unfold records. rewrite foldl_app. cbn [foldl]. change (foldl _ ?t post) with (records t post).
  rewrite records_checks_notin by done. simpl. by rewrite lookup_insert_eq.
Qed.

Lemma run_order_steps draft st order steps st' i sim :
  run_order draft st order steps st' → (i, sim) ∈ steps →
  ∃ d st1 st2, draft !! i = Some d ∧ simulate_action st1 d.(DraftAction.operation) = (st2, Ok sim).
Proof.
  induction 1 as [|? j ? a ? sim' steps ? Ha Hs Hrun IH]; [by intros ?%elem_of_nil|].
  intros [[= -> ->]|Hin]%elem_of_cons; eauto.
Qed.

Lemma analysed_trace current capacity draft trace ds d :
  analysed current capacity draft trace ds → positional draft → d ∈ draft →
  ∃ st contract, contract = describe_action d.(DraftAction.operation) (sim_graph st) ∧
    trace.(AnalysedOrder.contracts) !! d.(DraftAction.id) = Some contract ∧
    trace.(AnalysedOrder.checks) !! d.(DraftAction.id) =
      Some (evaluate_prerequisites st.1 st.2 contract.(ActionContract.prerequisites)).
Proof.
  intros (_ & order & ev & steps & st & _ & Hperm & _ & Hrun & ->) Hpos Hd.
  pose proof (run_order_fst _ _ _ _ _ Hrun) as Hfst.
  assert (NoDup steps.*1) as Hnd by (rewrite Hfst, Hperm; apply NoDup_seq).
  assert (d.(DraftAction.id) ∈ steps.*1) as Hin.
  { rewrite Hfst, Hperm. apply elem_of_seq. split; [lia|]. by apply positional_range. }
  apply list_elem_of_fmap in Hin as ([i sim] & Hi & Hin). cbn [fst] in Hi. subst i.
  destruct (run_order_steps _ _ _ _ _ _ _ Hrun Hin) as (d' & st1 & st2 & Hd' & Hsim).
  assert (d' = d) as ->.
  { eapply positional_eq; [done|by eapply list_elem_of_lookup_2|done|]. by apply Hpos in Hd'. }
  apply simulate_action_ok in Hsim as [Hc Hk _ _ _]. exists st1, sim.(SimulatedAction.contract).
  split_and!; [done| |].
  - apply records_contracts; [done|]. left. eauto.
  - rewrite (records_checks _ _ _ sim) by done. by rewrite Hk.
Qed.

Section requirements.
Context (current : CurrentState) (capacity : list CapacityEvidence) (draft : list DraftAction)
  (trace : AnalysedOrder) (ds : list ActionDependency) (rs : list PendingRequirement).
Hypothesis Han : analysed current capacity draft trace ds.
Hypothesis Hpos : positional draft.
Hypothesis Hrs : reqs_contracted draft rs.

Lemma declared_external e :
  validate_declared_requirements rs trace.(AnalysedOrder.contracts) = Err e → external e.
Proof using Han Hpos Hrs.
  intros (pre & r & post & [] & Heq & _ & Hf)%try_fold_err.
  destruct (Hrs r) as (d & Hd & Hid & Hg); [rewrite Heq; apply elem_of_mid|].
  destruct (analysed_trace _ _ _ _ _ d Han Hpos Hd) as (st & c & -> & Hc & _).
  rewrite <-Hid, Hc in Hf. by rewrite (proj2 (contains_true _ _) (Hg _)) in Hf.
Qed.

Lemma resolve_requirements_external ds' : raises external (resolve_requirements rs trace ds').
Proof using Han Hpos Hrs.
  unfold resolve_requirements. apply raises_bind; [apply raises_report, declared_external|]. intros _ _.
  apply raises_try_fold_any. intros r ds1 Hr. destruct (Hrs r Hr) as (d & Hd & Hid & Hg).
  destruct (analysed_trace _ _ _ _ _ d Han Hpos Hd) as (st & c & -> & _ & Hk).
  unfold resolve_requirement. rewrite <-Hid, Hk.
  destruct (find_first _ _) as [check|] eqn:Hf; cbn [ok_or].
  - destruct (bool_decide _); [done|].
    apply raises_bind; [apply requirement_provider_external|]. intros [p|] _.
    + apply add_edge_external.
    + by destruct (is_violated _).
  - exfalso. rewrite find_first_None in Hf. specialize (Hf (PrerequisiteCheck.mk r.(PendingRequirement.prerequisite)
      (evaluate_prerequisite st.1 st.2 r.(PendingRequirement.prerequisite)))).
    rewrite bool_decide_eq_false in Hf. apply Hf; [|done]. apply list_elem_of_fmap.
    eexists. split; [reflexivity|apply Hg].
Qed.
End requirements.

Lemma validate_resource_order_external contracts ds :
  raises external (validate_resource_order contracts ds).
Proof.
  unfold validate_resource_order. generalize (sort_by Nat.leb (map_to_list contracts).*1) as l.
  induction l as [|i l IH]; simpl; [done|]. apply raises_bind; [|done].
  apply raises_try_fold_any. intros j [] _. unfold validate_resource_pair.
  destruct (contracts !! i); [|done]. destruct (contracts !! j); [|done]. cbn [ok_or].
  by repeat case_match.
Qed.

Lemma flatten_fragments_external fragments ordering :
  fragments_resolve fragments ordering → raises external (flatten_fragments fragments).
Proof.
  intros Hres. unfold flatten_fragments. apply raises_bind.
  { apply raises_report. intros e. apply fragment_action_ids_external. by destruct Hres. }
  intros ids Hids. destruct (fragment_action_ids fragments) as [ids'|] eqn:Hi; [|done].
  injection Hids as ->. apply raises_bind; [apply flatten_actions_external|]. intros drafts _.
  apply raises_bind; [by eapply flatten_edges_external|by intros []].
Qed.

Lemma flatten_resolved fragments ordering flat :
  fragments_resolve fragments ordering → flatten_fragments fragments = Ok flat →
  ∃ ids, fragment_action_ids fragments = Ok ids ∧
    flat.(FlattenedFragments.actions) = imap entry_draft (flat_entries fragments) ∧
    reqs_contracted flat.(FlattenedFragments.actions) flat.(FlattenedFragments.requirements).
Proof.
  intros Hres Hflat. destruct (flatten_fragments_inv _ _ Hflat) as (ids & Hids & _ & Ha & _).
  exists ids. split_and!; [done..|]. rewrite Ha. unfold flatten_fragments in Hflat.
  rewrite Hids in Hflat. cbn [report map_err] in Hflat.
  destruct (try_fold (flatten_actions ids) _ _); [|done].
  destruct (try_fold (flatten_edges ids) _ _) as [[ds rs]|] eqn:He; [|done].
  apply Ok_inj in Hflat as <-. by eapply flatten_edges_contracted.
Qed.

(** Composition never reports an internal error for fragments that resolve. *)
Lemma compose_plan_external current fragments ordering capacity :
  fragments_resolve fragments ordering →
  raises external (compose_plan_with_ordering current fragments ordering capacity).
Proof.
  intros Hres. unfold compose_plan_with_ordering.
  apply raises_bind.
  { apply raises_report. intros e. by destruct (validate_structure _); intros [= <-]. }
  intros _ _. apply raises_bind; [by eapply flatten_fragments_external|]. intros flat Hflat.
  pose proof (returns_inv _ _ _ (flatten_fragments_ok fragments) Hflat) as [Hpos Hn Hds0 Hrs0].
  destruct (flatten_resolved _ _ _ Hres Hflat) as (ids & Hids & Ha & Hrs). cbn zeta.
  apply raises_bind; [rewrite Ha; by eapply add_ordering_external|]. intros ds1 H1.
  eapply returns_inv in H1; [|by apply add_ordering_ok]. destruct H1 as [Hds1 _].
  apply raises_bind; [apply bind_planned_nodes_external|]. intros ds2 H2.
  eapply returns_inv in H2; [|by apply bind_planned_nodes_ok]. destruct H2 as [[Hds2 _] _].
  apply raises_bind; [apply bind_mount_order_external|]. intros ds3 H3.
  eapply returns_inv in H3; [|by apply bind_mount_order_ok]. destruct H3 as [[Hds3 _] _].
  apply raises_bind; [by apply simulate_order_external|]. intros [tr ds4] H4.
  eapply returns_inv in H4; [|by apply simulate_order_ok]. destruct H4 as [[Hds4 _] Han].
  apply raises_bind; [by eapply resolve_requirements_external|]. intros ds5 H5.
  eapply (returns_inv (grows (length flat.(FlattenedFragments.actions)) ds4)) in H5.
  2:{ apply resolve_requirements_ok; [done..|]. intros i. by apply (analysed_contracts _ _ _ _ _ Han). }
  destruct H5 as [Hds5 _].
  apply raises_bind; [apply simulate_order_external; [done|by intros ? ?%elem_of_nil]|].
  intros [ftr ds] H6. eapply returns_inv in H6; [|by apply simulate_order_ok]. destruct H6 as [_ Hfin].
  apply raises_bind; [apply raises_report; intros e; by eapply declared_external|]. intros _ _.
  apply raises_bind; [apply validate_resource_order_external|]. intros _ _.
  apply raises_bind; [|done]. apply raises_try_map. intros d Hd. unfold freeze_action.
  by destruct (analysed_trace _ _ _ _ _ d Hfin Hpos Hd) as (? & ? & _ & -> & _).
Qed.
