(* ===== verification/Simulate.v ===== *)
(** * Plan simulation: [storage-engine/src/simulate.rs] and [plan.rs]

    [replay_plan] replays a frozen plan from the observed baseline, checking
    every stored contract against the recalculated one; [analyse_plan] adds
    coverage, obligations and the protection policy, and
    [simulate_plan_for_goal_with_policy] the comparison with the goal.  The
    JSON serializer used by the contract comparison is a parameter. *)

From stdpp Require Import relations.
From S2P Require Import Prelude Model Reach Graph GraphOrder GraphValid State Action Contract.
From S2P Require Import ContractProps Logical Evidence Prerequisites Effects Report PlanOrder.
From S2P Require Import Compose ComposeProps.

Abbreviation simulating A := (result A (Failure PlanSimulationError)) (only parsing).

(** The serializers of the trusted and the imported contract of each action. *)
Abbreviation Serializers := (ActionId → Json * Json) (only parsing).

(** [ExecutionPlan::ordered_actions]: an error of the order is [unreachable!]. *)
Definition ordered_actions {E} (plan : ExecutionPlan) : result (list PlannedAction) (Failure E) :=
  match plan_order (length plan.(ExecutionPlan.actions)) plan.(ExecutionPlan.dependencies) with
  | Err _ => Err Panicked
  | Ok order => try_map (index plan.(ExecutionPlan.actions)) order
  end.

Definition with_contract (c : ActionContract) (a : PlannedAction) : PlannedAction :=
  PlannedAction.mk a.(PlannedAction.id) a.(PlannedAction.operation) a.(PlannedAction.fragment)
    a.(PlannedAction.local_id) a.(PlannedAction.origin) c.

(** The loop body: the state, the trusted actions and the steps so far. *)
Definition replay_action (json : Serializers)
    (acc : simulation * list PlannedAction * list SimulatedStep) (action : PlannedAction)
    : simulating (simulation * list PlannedAction * list SimulatedStep) :=
  let '(st, trusted_actions, steps) := acc in
  let id := action.(PlannedAction.id) in
  let? _ := report (map_err (λ _, PlanSimulationError.ContractMismatch id)
              (verify_imported_contract (json id).1 (json id).2 action.(PlannedAction.operation)
                 action.(PlannedAction.informational_contract) (sim_graph st))) in
  match simulate_action st action.(PlannedAction.operation) with
  | (_, Err source) => Err (Reported (PlanSimulationError.Action id source))
  | (st, Ok sim) =>
      Ok (st, trusted_actions ++ [with_contract sim.(SimulatedAction.contract) action],
          steps ++ [SimulatedStep.mk id sim.(SimulatedAction.checks)
                      sim.(SimulatedAction.invalidated_facts)])
  end.

Definition replay_plan (json : Serializers) (current : CurrentState) (plan : ExecutionPlan)
    (capacity_evidence : list CapacityEvidence) : simulating (ExecutionPlan * SimulationResult) :=
  let? _ := report (map_err PlanSimulationError.Structure
                      (validate_structure current.(CurrentState.graph))) in
  let? evidence := report (map_err PlanSimulationError.CapacityEvidence
                             (evidence_new capacity_evidence)) in
  let? ordered := ordered_actions plan in
  let? (st, trusted_actions, steps) :=
    try_fold (replay_action json) (from_current current, evidence, [], []) ordered in
  let trusted_actions :=
    sort_by (λ a b, a.(PlannedAction.id) <=? b.(PlannedAction.id))%nat trusted_actions in
  Ok (ExecutionPlan.mk trusted_actions plan.(ExecutionPlan.dependencies),
      SimulationResult.mk st.1 (evidence_summary st.2) steps).

Definition simulate_plan_with_evidence (json : Serializers) (current : CurrentState)
    (plan : ExecutionPlan) (capacity_evidence : list CapacityEvidence)
    : simulating SimulationResult :=
  let? (_, simulation) := replay_plan json current plan capacity_evidence in Ok simulation.

Definition simulate_plan (json : Serializers) (current : CurrentState) (plan : ExecutionPlan)
    : simulating SimulationResult :=
  simulate_plan_with_evidence json current plan [].

(** ** Analysis *)

Definition check_protected_scope {E} (plan : ExecutionPlan) (simulation : SimulationResult)
    (protected : ProtectedScope) : result (list ProtectionViolation) (Failure E) :=
  let? ordered := ordered_actions plan in
  Ok (foldl (check_protected_step protected) []
        (zip ordered simulation.(SimulationResult.steps))).

Definition intent_coverage_of (ordered : list PlannedAction) (entry : nat * OperationIntent)
    : IntentCoverage :=
  let '(index, intent) := entry in
  let actions := filter (λ a, a.(PlannedAction.origin) = FragmentOrigin.Intent index) ordered in
  IntentCoverage.mk index (PlannedAction.id <$> actions)
    (actions_cover_intent intent (PlannedAction.operation <$> actions)).

Definition step_obligations (step : SimulatedStep) : list SimulationObligation :=
  omap (λ check,
    match check.(PrerequisiteCheck.status) with
    | CheckStatus.Unknown required_evidence =>
        Some (SimulationObligation.Prerequisite step.(SimulatedStep.action)
                check.(PrerequisiteCheck.prerequisite) required_evidence)
    | _ => None
    end) step.(SimulatedStep.checks).

Definition set_intents (intents : list OperationIntent) (desired : DesiredState) : DesiredState :=
  let 'DesiredState.mk g m b _ := desired in DesiredState.mk g m b intents.

Definition analyse_plan (json : Serializers) (current : CurrentState) (plan : ExecutionPlan)
    (intents : list OperationIntent) (capacity_evidence : list CapacityEvidence)
    (protected : ProtectedScope) : simulating SimulationReport :=
  let? _ := report (validate_protected_scope protected) in
  let? _ := report (try_all (λ action,
    match action.(PlannedAction.origin) with
    | FragmentOrigin.Intent index =>
        if (length intents <=? index)%nat
        then Err (PlanSimulationError.UnknownIntentOrigin action.(PlannedAction.id) index)
        else Ok tt
    | _ => Ok tt
    end) plan.(ExecutionPlan.actions)) in
  let? sim := simulate_plan_with_evidence json current plan capacity_evidence in
  let 'SimulationResult.mk desired evidence steps := sim in
  let simulation := SimulationResult.mk (set_intents intents desired) evidence steps in
  let? protection_violations := check_protected_scope plan simulation protected in
  let? ordered := ordered_actions plan in
  let intent_coverage := intent_coverage_of ordered <$> enumerate intents in
  let unresolved_obligations := concat (step_obligations <$> steps) in
  Ok (SimulationReport.mk simulation [] intent_coverage unresolved_obligations
        protection_violations).

Definition goal_obligation (check : GoalCheck) : option SimulationObligation :=
  match check.(GoalCheck.status) with
  | GoalStatus.Unknown required_evidence =>
      Some (SimulationObligation.Goal check.(GoalCheck.aspect) required_evidence)
  | _ => None
  end.

Definition simulate_plan_for_goal_with_policy (json : Serializers) (current : CurrentState)
    (plan : ExecutionPlan) (goal : DesiredState) (capacity_evidence : list CapacityEvidence)
    (protected : ProtectedScope) : simulating SimulationReport :=
  let? _ := report (map_err PlanSimulationError.Structure
                      (validate_structure goal.(DesiredState.graph))) in
  let? analysis := analyse_plan json current plan goal.(DesiredState.intents) capacity_evidence
                     protected in
  let 'SimulationReport.mk simulation _ coverage obligations violations := analysis in
  let goal_checks := compare_goal simulation.(SimulationResult.desired)
                       simulation.(SimulationResult.evidence) goal in
  Ok (SimulationReport.mk simulation goal_checks coverage
        (obligations ++ omap goal_obligation goal_checks) violations).

Definition simulate_plan_for_goal_with_evidence (json : Serializers) (current : CurrentState)
    (plan : ExecutionPlan) (goal : DesiredState) (capacity_evidence : list CapacityEvidence)
    : simulating SimulationReport :=
  simulate_plan_for_goal_with_policy json current plan goal capacity_evidence ProtectedScope.default.

Definition simulate_plan_for_goal (json : Serializers) (current : CurrentState)
    (plan : ExecutionPlan) (goal : DesiredState) : simulating SimulationReport :=
  simulate_plan_for_goal_with_evidence json current plan goal [].

(** ** Composition for a goal *)

Definition map_failure {A E F} (f : E → F) (r : result A (Failure E)) : result A (Failure F) :=
  map_err (λ e, match e with
                | Reported e => Reported (f e) | Panicked => Panicked | OutOfFuel => OutOfFuel
                end) r.

Definition goal_violated (c : GoalCheck) : bool :=
  match c.(GoalCheck.status) with GoalStatus.Violated _ => true | _ => false end.

Definition compose_plan_for_goal_with_policy (json : Serializers) (current : CurrentState)
    (goal : DesiredState) (fragments : list PlanFragment)
    (capacity_evidence : list CapacityEvidence) (protected : ProtectedScope)
    : composition ExecutionPlan :=
  let? _ := report (validate_intent_coverage goal.(DesiredState.intents) fragments) in
  let? plan := compose_plan_with_evidence current fragments capacity_evidence in
  let? result := map_failure CompositionError.FinalSimulation
      (simulate_plan_for_goal_with_policy json current plan goal capacity_evidence protected) in
  match head result.(SimulationReport.protection_violations) with
  | Some violation =>
      Err (Reported (CompositionError.ProtectedScopeViolation
             violation.(ProtectionViolation.action) violation.(ProtectionViolation.aspect)))
  | None =>
      match find_first goal_violated result.(SimulationReport.goal_checks) with
      | Some check => Err (Reported (CompositionError.GoalNotReached check.(GoalCheck.aspect)))
      | None => Ok plan
      end
  end.

Definition compose_plan_for_goal_with_evidence (json : Serializers) (current : CurrentState)
    (goal : DesiredState) (fragments : list PlanFragment)
    (capacity_evidence : list CapacityEvidence) : composition ExecutionPlan :=
  compose_plan_for_goal_with_policy json current goal fragments capacity_evidence
    ProtectedScope.default.

Definition compose_plan_for_goal (json : Serializers) (current : CurrentState)
    (goal : DesiredState) (fragments : list PlanFragment) : composition ExecutionPlan :=
  compose_plan_for_goal_with_evidence json current goal fragments [].
