(* ===== verification/SimulateProps.v ===== *)
(** * Correctness of plan simulation

    A composed plan replays without a contract mismatch and to itself; a
    report without protection violations leaves the protected objects as they
    were observed; a complete report has no open condition. *)

From stdpp Require Import relations.
From S2P Require Import Prelude Model Reach Graph GraphOrder GraphValid State Action Contract.
From S2P Require Import ContractProps Logical Evidence Prerequisites Effects Report PlanOrder.
From S2P Require Import Compose ComposeProps Simulate.

(** ** The order of a frozen plan *)

Lemma try_map_Forall2 {A B E} (f : A → result B E) l k :
  try_map f l = Ok k ↔ Forall2 (λ x y, f x = Ok y) l k.
Proof.
  revert k. induction l as [|x l IH]; intros k; simpl.
  - split; [intros [= <-]; constructor|]. by intros ->%Forall2_nil_inv_l.
  - destruct (f x) as [y|] eqn:Hx.
    + destruct (try_map f l) as [ys|] eqn:Hl.
      * split; [intros [= <-]; constructor; [done|by apply IH]|].
        intros (y' & ys' & ? & Hys & ->)%Forall2_cons_inv_l. apply IH in Hys. congruence.
      * split; [done|]. intros (y' & ys' & ? & Hys & ->)%Forall2_cons_inv_l. apply IH in Hys. done.
    + split; [done|]. intros (y' & ys' & ? & _)%Forall2_cons_inv_l. congruence.
Qed.

(** The plan's actions in their deterministic order. *)
Definition in_plan_order (plan : ExecutionPlan) (order : list ActionId) (ordered : list PlannedAction)
    : Prop :=
  plan_order (length plan.(ExecutionPlan.actions)) plan.(ExecutionPlan.dependencies) = Ok order ∧
  order ≡ₚ seq 0 (length plan.(ExecutionPlan.actions)) ∧
  Reach.ordered (action_edges plan.(ExecutionPlan.dependencies)) order ∧
  Forall2 (λ i a, plan.(ExecutionPlan.actions) !! i = Some a) order ordered.

(** The [unreachable!] is unreachable. *)
Lemma ordered_actions_ok {E} plan :
  plan_structured plan → ∃ order ordered, ordered_actions (E:=E) plan = Ok ordered ∧ in_plan_order plan order ordered.
Proof.
  intros [_ Hn [Hr Hnd] Hac].
  pose proof (plan_order_ok _ _ Hn Hr) as Hs. unfold ordered_actions.
  destruct (plan_order _ _) as [order|] eqn:Ho.
  2: { exfalso. unfold plan_order in Ho. pose proof (topological_order_spec _ _ Hn Hr) as Ht.
       destruct (forallb _ _); simplify_eq/=; [|done].
       destruct (topological_order _ _); [done|]. by destruct Ht. }
  destruct Hs as (Hp & Hord & _).
  assert (∃ ordered, Forall2 (λ i a, plan.(ExecutionPlan.actions) !! i = Some a) order ordered)
    as [ordered Hall].
  { assert (∀ i, i ∈ order → i < length plan.(ExecutionPlan.actions)) as Hlt.
    { intros i. rewrite Hp, elem_of_seq. lia. }
    clear -Hlt. induction order as [|i order IH]; [by exists []|].
    destruct IH as [l Hl]; [intros; apply Hlt; by right|].
    destruct (lookup_lt_is_Some_2 _ _ (Hlt i ltac:(left))) as [a Ha]. exists (a :: l). by constructor. }
  exists order, ordered. split; [|done]. apply try_map_Forall2.
  eapply Forall2_impl; [exact Hall|]. intros i a Ha. unfold index. by rewrite Ha.
Qed.

(** ** Replaying *)

(** The actions are accepted one after the other with matching contracts. *)
Inductive replay_run (json : Serializers) : simulation → list PlannedAction → list PlannedAction →
    list SimulatedStep → simulation → Prop :=
| replay_nil st : replay_run json st [] [] [] st
| replay_cons st a l st1 c sim trusted steps st2 :
    verify_imported_contract (json a.(PlannedAction.id)).1 (json a.(PlannedAction.id)).2
      a.(PlannedAction.operation) a.(PlannedAction.informational_contract) (sim_graph st) = Ok c →
    simulate_action st a.(PlannedAction.operation) = (st1, Ok sim) →
    replay_run json st1 l trusted steps st2 →
    replay_run json st (a :: l) (with_contract sim.(SimulatedAction.contract) a :: trusted)
      (SimulatedStep.mk a.(PlannedAction.id) sim.(SimulatedAction.checks)
         sim.(SimulatedAction.invalidated_facts) :: steps) st2.

Lemma replay_fold_spec json l st trusted steps r :
  try_fold (replay_action json) (st, trusted, steps) l = Ok r ↔
  ∃ t s st', replay_run json st l t s st' ∧ r = (st', trusted ++ t, steps ++ s).
Proof.
  revert st trusted steps. induction l as [|a l IH]; intros st trusted steps; simpl.
  { split.
    - intros [= <-]. exists [], [], st. rewrite !app_nil_r. by split; [constructor|].
    - intros (t & s & st' & Hrun & ->). inversion Hrun; subst. by rewrite !app_nil_r. }
  unfold replay_action at 1. cbn zeta.
  destruct (verify_imported_contract _ _ _ _ _) as [c|] eqn:Hv; simpl.
  2: { split; [done|]. intros (t & s & st' & Hrun & _). inversion Hrun; subst. congruence. }
  destruct (simulate_action st _) as [st1 [sim|e]] eqn:Hsim.
  2: { split; [done|]. intros (t & s & st' & Hrun & _). inversion Hrun; subst. congruence. }
  rewrite IH. split.
  - intros (t & s & st' & Hrun & ->). eexists _, _, st'.
    split; [by econstructor|]. by rewrite <-!app_assoc.
  - intros (t & s & st' & Hrun & ->). inversion Hrun; subst.
    match goal with H : simulate_action _ _ = (_, Ok _), H' : simulate_action _ _ = (_, Ok _) |- _ =>
      rewrite H in H'; injection H' as <- <- end.
    eexists _, _, st'. split; [done|]. by rewrite <-!app_assoc.
Qed.

Lemma replay_fold_returns json l acc : returns (λ _, True) (try_fold (replay_action json) acc l).
Proof.
  apply returns_try_fold_inv; [done|]. intros a [[st tr] steps] _ _. unfold replay_action. cbn zeta.
  eapply returns_bind; [by apply (returns_report (λ _, True))|]. intros _ _.
  by destruct (simulate_action _ _) as [? []].
Qed.


(** What a successful replay went through. *)
Lemma replay_plan_inv json current plan capacity trusted result :
  replay_plan json current plan capacity = Ok (trusted, result) →
  ∃ ordered ev t s st,
    ordered_actions (E:=PlanSimulationError) plan = Ok ordered ∧ evidence_new capacity = Ok ev ∧
    structure_wf current.(CurrentState.graph) ∧
    replay_run json (from_current current, ev) ordered t s st ∧
    result = SimulationResult.mk st.1 (evidence_summary st.2) s ∧
    trusted = ExecutionPlan.mk
      (sort_by (λ a b, a.(PlannedAction.id) <=? b.(PlannedAction.id)) t)
      plan.(ExecutionPlan.dependencies).
Proof.
  unfold replay_plan.
  destruct (validate_structure _) as [[]|] eqn:Hs; [|done]. simpl.
  destruct (evidence_new capacity) as [ev|] eqn:Hev; [|done]. simpl.
  destruct (ordered_actions plan) as [ordered|] eqn:Ho; [|done].
  destruct (try_fold _ _ _) as [[[st t] s]|] eqn:Hf; [|done]. intros [= <- <-].
  apply replay_fold_spec in Hf as (t' & s' & st' & Hrun & [= -> -> ->]).
  exists ordered, ev, t', s', st'. split_and!; [done|done| |done|done|done].
  by apply validate_structure_iff.
Qed.

(** Replaying a well-formed plan reports an error or succeeds, it never panics. *)
Lemma replay_plan_returns json current plan capacity :
  plan_structured plan → returns (λ _, True) (replay_plan json current plan capacity).
Proof.
  intros Hwf. unfold replay_plan.
  eapply returns_bind; [by apply (returns_report (λ _, True))|]. intros [] _.
  eapply returns_bind; [by apply (returns_report (λ _, True))|]. intros ev _.
  destruct (ordered_actions_ok (E:=PlanSimulationError) plan Hwf) as (order & ordered & -> & _).
  pose proof (replay_fold_returns json ordered (from_current current, ev, [], [])) as Hr.
  by destruct (try_fold _ _ _) as [[[? ?] ?]|[]].
Qed.

(** A run of the drafts is a replay of the plan that froze them. *)
Lemma frozen_replay actions order ordered st steps st' :
  run_order (draft_of <$> actions) st order steps st' →
  Forall2 (λ i a, actions !! i = Some a) order ordered →
  (∀ i sim a, (i, sim) ∈ steps → actions !! i = Some a →
              sim.(SimulatedAction.contract) = a.(PlannedAction.informational_contract)) →
  ∃ s, ∀ json, replay_run json st ordered ordered s st'.
Proof.
  intros Hrun. revert ordered.
  induction Hrun as [|st i order d st1 sim steps st2 Hd Hsim _ IH]; intros ordered Hall Hc.
  { apply Forall2_nil_inv_l in Hall as ->. exists []. intros json. constructor. }
  apply Forall2_cons_inv_l in Hall as (a & l & Ha & Hl & ->).
  rewrite list_lookup_fmap, Ha in Hd. simplify_eq/=.
  destruct (IH l Hl) as [s Hs]; [intros; eapply Hc; [by right|done]|].
  pose proof (Hc i sim a ltac:(left) Ha) as Hcontract.
  eexists. intros json. replace a with (with_contract sim.(SimulatedAction.contract) a) at 2
    by (rewrite Hcontract; by destruct a).
  eapply replay_cons; [|done..].
  rewrite <-Hcontract, (sim_contract _ _ _ _ (simulate_action_ok _ _ _ _ Hsim)).
  unfold verify_imported_contract. cbn zeta. by rewrite bool_decide_eq_true_2.
Qed.

(** ** Sorting by identity *)

Lemma positional_sorted_from (l : list PlannedAction) k :
  (∀ i a, l !! i = Some a → a.(PlannedAction.id) = k + i) →
  Sorted (λ a b, (a.(PlannedAction.id) <=? b.(PlannedAction.id)) = true) l.
Proof.
  revert k. induction l as [|a l IH]; intros k Hp; [constructor|]. constructor.
  - apply (IH (S k)). intros i b Hb. rewrite (Hp (S i) b Hb). lia.
  - destruct l as [|b l]; constructor. apply Nat.leb_le.
    rewrite (Hp 0 a eq_refl), (Hp 1 b eq_refl). lia.
Qed.

(** Sorting a permutation of actions numbered by position restores them. *)
Lemma sort_positional (l k : list PlannedAction) :
  (∀ i a, k !! i = Some a → a.(PlannedAction.id) = i) → l ≡ₚ k →
  sort_by (λ a b, a.(PlannedAction.id) <=? b.(PlannedAction.id)) l = k.
Proof.
  intros Hp Hperm. set (R := λ a b, (a.(PlannedAction.id) <=? b.(PlannedAction.id)) = true).
  assert (Transitive R) by (intros a b c; unfold R; rewrite !Nat.leb_le; lia).
  apply (Sorted_unique_strong R); unfold R.
  - intros a b. rewrite sort_by_perm, Hperm, !Nat.leb_le.
    intros [i Hi]%list_elem_of_lookup [j Hj]%list_elem_of_lookup.
    rewrite (Hp _ _ Hi), (Hp _ _ Hj). intros ? ?. assert (i = j) as -> by lia. congruence.
  - apply sort_by_sorted. intros a b. rewrite !Nat.leb_le. lia.
  - by apply (positional_sorted_from _ 0).
  - by rewrite sort_by_perm.
Qed.

Lemma in_plan_order_perm plan order ordered :
  in_plan_order plan order ordered → ordered ≡ₚ plan.(ExecutionPlan.actions).
Proof.
  intros (_ & Hp & _ & Hall). set (actions := plan.(ExecutionPlan.actions)) in *.
  assert (Some <$> ordered = (λ i, actions !! i) <$> order) as Heq.
  { clear -Hall. induction Hall as [|i a os l Ha _ IH]; csimpl; congruence. }
  assert (Some <$> ordered ≡ₚ Some <$> actions) as Hperm.
  { rewrite Heq, Hp.
    replace ((λ i, actions !! i) <$> seq 0 (length actions)) with (Some <$> actions); [done|].
    apply list_eq. intros i. rewrite !list_lookup_fmap.
    destruct (decide (i < length actions)) as [Hlt|Hge].
    - rewrite lookup_seq_lt by done. simpl. by destruct (lookup_lt_is_Some_2 _ _ Hlt) as [a ->].
    - rewrite lookup_seq_ge, lookup_ge_None_2 by lia. done. }
  assert (∀ l : list PlannedAction, omap id (Some <$> l) = l) as Hid.
  { intros l. induction l; csimpl; congruence. }
  rewrite <-(Hid ordered), <-(Hid actions). by rewrite Hperm.
Qed.

Lemma NoDup_fst_inj {A B} (l : list (A * B)) a b c :
  NoDup l.*1 → (a, b) ∈ l → (a, c) ∈ l → b = c.
Proof.
  induction l as [|[x y] l IH]; csimpl; [by intros _ ?%elem_of_nil|].
  intros [Hx Hnd]%NoDup_cons [E1|Hb]%elem_of_cons [E2|Hc]%elem_of_cons; simplify_eq;
    [done|destruct Hx; apply list_elem_of_fmap; by eexists (_, _)..|by apply IH].
Qed.

(** Accepted actions keep the graph valid. *)
Lemma run_order_structure draft st order steps st' :
  run_order draft st order steps st' → structure_wf (sim_graph st) → structure_wf (sim_graph st').
Proof.
  induction 1 as [|st i order a st1 sim steps st2 _ Hs _ IH]; [done|]. intros _. apply IH.
  apply simulate_action_ok in Hs as [_ _ _ Hwf _]. by apply validate_structure_iff.
Qed.

(** The replay does not depend on how contracts are serialized. *)
Lemma composed_replays current capacity plan :
  composed current capacity plan →
  ∃ result, (∀ json, replay_plan json current plan capacity = Ok (plan, result)) ∧
    structure_wf result.(SimulationResult.desired).(DesiredState.graph).
Proof.
  intros [[Hwf _] _ _ _ Hstruct (order & ev & steps & st & Hor & Hperm & Hev & Hrun & Hc)].
  destruct (ordered_actions_ok (E:=PlanSimulationError) plan Hwf) as (order' & ordered & Ho & Hin).
  pose proof Hin as (Hor' & _ & _ & Hall). rewrite Hor in Hor'. apply Ok_inj in Hor' as <-.
  destruct (frozen_replay _ _ _ _ _ _ Hrun Hall) as [s Hs].
  { intros i sim a Hi Ha. destruct (Hc i a Ha) as (sim' & Hi' & <-). f_equal.
    assert (NoDup steps.*1) as Hnd
      by (rewrite (run_order_fst _ _ _ _ _ Hrun), Hperm; apply NoDup_seq).
    by eapply NoDup_fst_inj. }
  exists (SimulationResult.mk st.1 (evidence_summary st.2) s).
  split; [|by eapply (run_order_structure _ _ _ _ st)]. intros json.
  unfold replay_plan. apply validate_structure_iff in Hstruct. rewrite Hstruct, Hev, Ho. simpl.
  rewrite (proj2 (replay_fold_spec json ordered (from_current current, ev) [] [] (st, ordered, s))).
  - rewrite (sort_positional ordered plan.(ExecutionPlan.actions)).
    + by destruct plan.
    + apply Hwf.
    + by eapply in_plan_order_perm.
  - by exists ordered, s, st.
Qed.

(** ** Protection *)

Lemma fold_push_violations {A} (f : A → bool) (g : A → ProtectedAspect) id l v :
  foldl (λ v x, if f x then push_violation id (g x) v else v) v l = [] ↔
  v = [] ∧ ∀ x, x ∈ l → f x = false.
Proof.
  revert v. induction l as [|x l IH]; intros v; simpl; [set_solver|]. rewrite IH.
  setoid_rewrite elem_of_cons. destruct (f x) eqn:Hf; [|naive_solver].
  unfold push_violation, push_new.
  split; [|intros [_ Hall]; specialize (Hall x (or_introl eq_refl)); congruence].
  destruct (contains _ v) eqn:Hc; [|by intros [[_ ?]%app_nil _]].
  apply contains_true in Hc. intros [-> _]. by apply elem_of_nil in Hc.
Qed.

(** The step touches nothing that the policy protects. *)
Record step_respects (protected : ProtectedScope) (c : ActionContract) (step : SimulatedStep) : Prop := {
  resp_nodes node : node ∈ protected.(ProtectedScope.nodes) → touches_protected_node c step node = false;
  resp_runtime m : m ∈ protected.(ProtectedScope.runtime_mounts) → touches_protected_mount c m = false;
  resp_persistent m : m ∈ protected.(ProtectedScope.persistent_mounts) →
    touches_protected_config c m = false }.

Lemma check_protected_step_nil protected v a step :
  check_protected_step protected v (a, step) = [] ↔
  v = [] ∧ step_respects protected a.(PlannedAction.informational_contract) step.
Proof.
  unfold check_protected_step. rewrite !fold_push_violations. split.
  - intros [[[-> ?] ?] ?]. by split.
  - intros [-> [? ? ?]]. done.
Qed.

Lemma check_protected_fold_nil protected l v :
  foldl (check_protected_step protected) v l = [] ↔
  v = [] ∧ ∀ a step, (a, step) ∈ l →
    step_respects protected a.(PlannedAction.informational_contract) step.
Proof.
  revert v. induction l as [|[a s] l IH]; intros v; [set_solver|]. cbn [foldl].
  rewrite IH, check_protected_step_nil. setoid_rewrite elem_of_cons. naive_solver.
Qed.

(** Two states agree on everything the policy protects. *)
Record protected_unchanged (protected : ProtectedScope) (st st' : simulation) : Prop := {
  pu_node node : node ∈ protected.(ProtectedScope.nodes) →
    Graph.node (sim_graph st') node = Graph.node (sim_graph st) node;
  pu_dependency d :
    d.(Dependency.from_) ∈ protected.(ProtectedScope.nodes) ∨
    d.(Dependency.to) ∈ protected.(ProtectedScope.nodes) →
    d ∈ (sim_graph st').(NodeGraph.dependencies) ↔ d ∈ (sim_graph st).(NodeGraph.dependencies);
  pu_relation r :
    r.(Relation.from_) ∈ protected.(ProtectedScope.nodes) ∨
    r.(Relation.to) ∈ protected.(ProtectedScope.nodes) →
    r ∈ (sim_graph st').(NodeGraph.relations) ↔ r ∈ (sim_graph st).(NodeGraph.relations);
  pu_runtime p m : p ∈ protected.(ProtectedScope.runtime_mounts) →
    m.(MountEntry.context) = p.(ProtectedMount.context) →
    starts_with m.(MountEntry.target) p.(ProtectedMount.target) = true ∨
    starts_with p.(ProtectedMount.target) m.(MountEntry.target) = true →
    m ∈ sim_runtime st' ↔ m ∈ sim_runtime st;
  pu_persistent p m : p ∈ protected.(ProtectedScope.persistent_mounts) →
    m.(MountEntry.context) = p.(ProtectedMount.context) →
    m ∈ sim_persistent st' ↔ m ∈ sim_persistent st }.

#[global] Instance protected_unchanged_preorder protected : PreOrder (protected_unchanged protected).
Proof.
  split; [by split|]. intros s1 s2 s3 [A1 A2 A3 A4 A5] [B1 B2 B3 B4 B5]. split.
  - intros node Hn. by rewrite B1, A1.
  - intros d Hd. by rewrite B2, A2.
  - intros r Hr. by rewrite B3, A3.
  - intros p m Hp Hc Hs. by rewrite (B4 p), (A4 p).
  - intros p m Hp Hc. by rewrite (B5 p), (A5 p).
Qed.

Lemma touches_protected_node_false c step node e :
  touches_protected_node c step node = false →
  e ∈ c.(ActionContract.predicted_effect).(PredictedEffect.graph) →
  graph_effect_touches e node = false.
Proof.
  unfold touches_protected_node. rewrite !orb_false_iff. intros [_ Hex].
  rewrite existsb_false in Hex. auto.
Qed.

Lemma step_protected protected st action imported step st' sim :
  simulate_action st action = (st', Ok sim) →
  same_promises sim.(SimulatedAction.contract) imported →
  step_respects protected imported step → protected_unchanged protected st st'.
Proof.
  intros [Hc _ _ _ Hsteps]%simulate_action_ok Hsame [Hnode Hrun Hper].
  destruct (action_contract_covers action (sim_graph st)) as (_ & Hm & _).
  rewrite <-Hc in Hm. clear Hc. cbn zeta in Hsteps.
  destruct (invalidate_observations st.1 st.2 _) as [ev0 inv].
  destruct Hsteps as (st1 & ev2 & ev3 & Hge & Hme & _ & _ & _).
  assert (∀ node e, node ∈ protected.(ProtectedScope.nodes) →
    e ∈ sim.(SimulatedAction.contract).(ActionContract.predicted_effect).(PredictedEffect.graph) →
    graph_effect_touches e node = false) as Htouch.
  { intros node e Hn He. eapply touches_protected_node_false; [by apply Hnode|].
    by rewrite <-(same_graph _ _ Hsame). }
  pose proof (apply_graph_effects_frame _ _ _ Hge) as [Hgn Hgd].
  pose proof (apply_mount_effects_frame _ _ _ Hme) as [Hsg Hmr].
  change (sim_graph (st'.1, ev2)) with (sim_graph st') in Hsg.
  split.
  - intros node Hin. rewrite Hsg. apply (Hgn node). intros e He Ht.
    pose proof (Htouch node e Hin He) as Hf.
    destruct e; simplify_eq/=; by rewrite bool_decide_eq_true_2 in Hf.
  - intros d Hd. rewrite Hsg. apply (Hgd d); intros He; destruct Hd as [Hd|Hd];
      pose proof (Htouch _ _ Hd He) as Hf; simpl in Hf;
      apply orb_false_iff in Hf as [Hf1%bool_decide_eq_false Hf2%bool_decide_eq_false]; done.
  - intros r Hr. rewrite Hsg. apply (apply_graph_effects_relations _ _ _ r Hge); intros He;
      destruct Hr as [Hr|Hr]; pose proof (Htouch _ _ Hr He) as Hf; simpl in Hf;
      apply orb_false_iff in Hf as [Hf1%bool_decide_eq_false Hf2%bool_decide_eq_false]; done.
  - intros p m Hp Hctx Hnest.
    rewrite <-(apply_graph_effects_runtime _ _ _ Hge : _ = sim_runtime st).
    apply (Hmr m). intros e He Hl. rewrite (same_mounts _ _ Hsame) in He.
    specialize (Hrun p Hp). unfold touches_protected_mount in Hrun. rewrite existsb_false in Hrun.
    specialize (Hrun e He).
    destruct e; simplify_eq/=; rewrite Hctx, bool_decide_eq_true_2 in Hrun by done; simpl in Hrun;
      apply orb_false_iff in Hrun as [? ?]; destruct Hnest; congruence.
  - intros p m Hp Hctx.
    rewrite <-(apply_graph_effects_persistent _ _ _ Hge : _ = sim_persistent st).
    apply (apply_mount_effects_persistent _ _ _ m Hme). intros e He Hl.
    destruct (Hm e He) as [Ha _]. unfold writes in Ha.
    specialize (Hper p Hp). unfold touches_protected_config in Hper. rewrite existsb_false in Hper.
    apply (same_resources _ _ Hsame) in Ha. specialize (Hper _ Ha). unfold is_write in Hper.
    cbn [ResourceAccess.mode ResourceAccess.resource] in Hper.
    rewrite Hl, Hctx, !bool_decide_eq_true_2 in Hper by done. done.
Qed.

(** The serializers are injective wherever they are compared. *)
Definition serializers_faithful (json : Serializers) : Prop :=
  ∀ id, json_faithful (json id).1 ∧ json_faithful (json id).2.

Lemma replay_run_protected json protected st l t s st' :
  serializers_faithful json → replay_run json st l t s st' →
  (∀ a step, (a, step) ∈ zip l s →
     step_respects protected a.(PlannedAction.informational_contract) step) →
  protected_unchanged protected st st'.
Proof.
  intros Hj. induction 1 as [|st a l st1 c sim t s st2 Hv Hsim _ IH]; intros Hresp; [done|].
  simpl in Hresp. transitivity st1; [|apply IH; intros; apply Hresp; by right].
  eapply (step_protected _ _ _ a.(PlannedAction.informational_contract)); [done| |apply Hresp; by left].
  destruct (Hj a.(PlannedAction.id)) as [Hjt Hji].
  destruct (imported_contract_trusted _ _ _ _ _ _ Hjt Hji Hv) as [-> Hsame].
  by rewrite (sim_contract _ _ _ _ (simulate_action_ok _ _ _ _ Hsim)).
Qed.

Lemma replay_run_checks json st l t s st' step c :
  replay_run json st l t s st' → step ∈ s → c ∈ step.(SimulatedStep.checks) →
  is_violated c.(PrerequisiteCheck.status) = false.
Proof.
  induction 1 as [|st a l st1 c' sim t s st2 Hv Hsim _ IH]; [by intros ?%elem_of_nil|].
  intros [->|?]%elem_of_cons; [|auto]. apply simulate_action_ok in Hsim as [_ _ Hnv _ _]. apply Hnv.
Qed.

(** ** Edge sets *)

Definition edge_sets (g : NodeGraph) : Prop :=
  NoDup g.(NodeGraph.dependencies) ∧ NoDup g.(NodeGraph.relations).

Lemma NoDup_set_insert {A} `{EqDecision A} (x : A) l : NoDup l → NoDup (set_insert x l).2.
Proof.
  intros Hl. destruct (set_insert_cases x l) as [[? ->]|[? ->]]; [by apply NoDup_snoc|done].
Qed.

Lemma apply_graph_effect_edge_sets st e st' :
  apply_graph_effect st e = Ok st' → edge_sets (sim_graph st) → edge_sets (sim_graph st').
Proof.
  destruct st as [[g m b i] ev]. unfold sim_graph, edge_sets. simpl. intros Ha [Hd Hr]. revert Ha.
  assert (∀ id l f, update_node (DesiredState.mk g m b i, ev) id l f = Ok st' →
    NoDup st'.1.(DesiredState.graph).(NodeGraph.dependencies) ∧
    NoDup st'.1.(DesiredState.graph).(NodeGraph.relations)) as Hup.
  { intros id l f (x & x' & _ & _ & Hg & _)%update_node_ok. unfold sim_graph in Hg. by rewrite Hg. }
  destruct e; cbn [apply_graph_effect]; eauto; simpl.
  - unfold Graph.node, insert_new. destruct (_ !! id) eqn:Hid; [done|]. simpl. by intros [= <-].
  - destruct (_ !! id) eqn:Hid; [|done]. by intros [= <-].
  - intros [= <-]. unfold insert_dependency. pose proof (NoDup_set_insert d _ Hd).
    by destruct (set_insert d g.(NodeGraph.dependencies)).
  - destruct (contains _ _); [|done]. intros [= <-]. split; [by apply NoDup_filter|done].
  - intros [= <-]. unfold insert_relation. pose proof (NoDup_set_insert r _ Hr).
    by destruct (set_insert r g.(NodeGraph.relations)).
  - destruct (contains _ _); [|done]. intros [= <-]. split; [done|by apply NoDup_filter].
  - destruct (Graph.node g node); [|done]. by intros [= <-].
Qed.

Lemma simulate_action_edge_sets st action st' sim :
  simulate_action st action = (st', Ok sim) → edge_sets (sim_graph st) → edge_sets (sim_graph st').
Proof.
  intros [_ _ _ _ Hsteps]%simulate_action_ok Hs. cbn zeta in Hsteps.
  destruct (invalidate_observations st.1 st.2 _) as [ev0 inv].
  destruct Hsteps as (st1 & ev2 & ev3 & Hge & [Hsg _]%apply_mount_effects_frame & _).
  change (sim_graph (st'.1, ev2)) with (sim_graph st') in Hsg. rewrite Hsg.
  revert Hge. generalize (PredictedEffect.graph (ActionContract.predicted_effect
    (SimulatedAction.contract sim))).
  intros l Hl. unfold apply_graph_effects in Hl.
  refine (try_fold_inv _ (λ _ s, edge_sets (sim_graph s)) _ _ _ _ _ Hl); [done|].
  intros pre e post s s' _ Hss He. by eapply apply_graph_effect_edge_sets.
Qed.

Lemma replay_run_edge_sets json st l t s st' :
  replay_run json st l t s st' → edge_sets (sim_graph st) → edge_sets (sim_graph st').
Proof. induction 1; eauto using simulate_action_edge_sets. Qed.

(** ** Reports *)

(** What stands behind a report. *)
Record reported_by (json : Serializers) (current : CurrentState) (plan : ExecutionPlan)
    (goal : DesiredState) (capacity : list CapacityEvidence) (protected : ProtectedScope)
    (report : SimulationReport) : Prop := {
  rb_goal : structure_wf goal.(DesiredState.graph);
  rb_run : ∃ ordered ev t s st,
    ordered_actions (E:=PlanSimulationError) plan = Ok ordered ∧
    replay_run json (from_current current, ev) ordered t s st ∧
    report.(SimulationReport.simulation) =
      SimulationResult.mk (set_intents goal.(DesiredState.intents) st.1) (evidence_summary st.2) s ∧
    report.(SimulationReport.protection_violations) =
      foldl (check_protected_step protected) [] (zip ordered s) ∧
    report.(SimulationReport.intent_coverage) =
      intent_coverage_of ordered <$> enumerate goal.(DesiredState.intents) ∧
    report.(SimulationReport.goal_checks) =
      compare_goal (set_intents goal.(DesiredState.intents) st.1) (evidence_summary st.2) goal ∧
    report.(SimulationReport.unresolved_obligations) =
      concat (step_obligations <$> s) ++ omap goal_obligation report.(SimulationReport.goal_checks) }.

Lemma simulate_plan_for_goal_inv json current plan goal capacity protected report :
  simulate_plan_for_goal_with_policy json current plan goal capacity protected = Ok report →
  reported_by json current plan goal capacity protected report.
Proof.
  unfold simulate_plan_for_goal_with_policy, analyse_plan, simulate_plan_with_evidence.
  destruct (validate_structure _) as [[]|] eqn:Hs; [|done]. cbn [map_err Prelude.report].
  destruct (validate_protected_scope _) as [[]|]; [|done]. cbn [map_err Prelude.report].
  destruct (try_all _ _) as [[]|]; [|done]. cbn [map_err Prelude.report].
  destruct (replay_plan _ _ _ _) as [[trusted result]|] eqn:Hr; [|done].
  apply replay_plan_inv in Hr as (ordered & ev & t & s & st & Ho & _ & _ & Hrun & -> & _).
  unfold check_protected_scope. rewrite Ho. intros [= <-].
  split; [by apply validate_structure_iff|]. by exists ordered, ev, t, s, st.
Qed.

Lemma simulate_plan_for_goal_returns json current plan goal capacity protected :
  plan_structured plan →
  returns (λ _, True) (simulate_plan_for_goal_with_policy json current plan goal capacity protected).
Proof.
  intros Hwf. unfold simulate_plan_for_goal_with_policy, analyse_plan, simulate_plan_with_evidence,
    check_protected_scope.
  eapply returns_bind; [by apply (returns_report (λ _, True))|]. intros [] _.
  pose proof (replay_plan_returns json current plan capacity Hwf) as Hr.
  destruct (ordered_actions_ok (E:=PlanSimulationError) plan Hwf) as (order & ordered & -> & _).
  destruct (validate_protected_scope _) as [[]|]; [|done]. cbn [map_err Prelude.report].
  destruct (try_all _ _) as [[]|]; [|done]. cbn [map_err Prelude.report].
  by destruct (replay_plan _ _ _ _) as [[? [? ? ?]]|[]].
Qed.

(** Observed and predicted configuration agree on the protected objects. *)
Definition preserves (protected : ProtectedScope) (before after : DesiredState) : Prop :=
  protected_unchanged protected (before, SimulationEvidence.default)
    (after, SimulationEvidence.default).

Lemma preserves_run protected st st' intents :
  protected_unchanged protected st st' → preserves protected st.1 (set_intents intents st'.1).
Proof.
  destruct st as [d ev], st' as [[g m b i] ev']. intros [H1 H2 H3 H4 H5].
  split; [exact H1|exact H2|exact H3|exact H4|exact H5].
Qed.

Lemma reported_preserves json current plan goal capacity protected report :
  serializers_faithful json →
  reported_by json current plan goal capacity protected report →
  report.(SimulationReport.protection_violations) = [] →
  preserves protected (from_current current)
    report.(SimulationReport.simulation).(SimulationResult.desired).
Proof.
  intros Hj [_ (ordered & ev & t & s & st & _ & Hrun & -> & -> & _)] Hnil.
  apply check_protected_fold_nil in Hnil as [_ Hall].
  apply (preserves_run protected (from_current current, ev) st).
  by eapply replay_run_protected.
Qed.

Lemma mount_present_true mounts m : mount_present mounts m = true ↔ m ∈ mounts.
Proof.
  unfold mount_present. rewrite existsb_exists. setoid_rewrite <-list_elem_of_In. split.
  - intros (x & Hx & Hc). rewrite !andb_true_iff, !bool_decide_eq_true in Hc.
    destruct Hc as [[[? ?] ?] ?]. destruct x, m. by simplify_eq/=.
  - intros Hm. exists m. split; [done|]. by rewrite !bool_decide_eq_true_2.
Qed.

(** A prediction that has everything the goal asks for. *)
Record reaches (predicted goal : DesiredState) : Prop := {
  reach_graph : graph_reaches predicted.(DesiredState.graph) goal.(DesiredState.graph);
  reach_runtime m : m ∈ goal.(DesiredState.mounts).(MountSpec.runtime) →
    m ∈ predicted.(DesiredState.mounts).(MountSpec.runtime);
  reach_persistent m : m ∈ goal.(DesiredState.mounts).(MountSpec.persistent) →
    m ∈ predicted.(DesiredState.mounts).(MountSpec.persistent);
  reach_boot : goal.(DesiredState.boot) = BootSpec.Unmanaged }.

Lemma compare_goal_satisfied predicted evidence goal :
  edge_sets predicted.(DesiredState.graph) → edge_sets goal.(DesiredState.graph) →
  (∀ c, c ∈ compare_goal predicted evidence goal → c.(GoalCheck.status) = GoalStatus.Satisfied) →
  reaches predicted goal.
Proof.
  intros [Hd1 Hr1] [Hd2 Hr2] Hall. unfold compare_goal in Hall.
  assert (∀ c, c ∈ runtime_mount_check predicted.(DesiredState.mounts).(MountSpec.runtime)
    <$> goal.(DesiredState.mounts).(MountSpec.runtime) → c.(GoalCheck.status) = GoalStatus.Satisfied) as Hrt.
  { intros c Hc. apply Hall. rewrite !elem_of_app. auto. }
  assert (∀ c, c ∈ persistent_mount_check predicted evidence
    <$> goal.(DesiredState.mounts).(MountSpec.persistent) → c.(GoalCheck.status) = GoalStatus.Satisfied) as Hps.
  { intros c Hc. apply Hall. rewrite !elem_of_app. auto. }
  split.
  - apply (compare_graph_iff _ _ Hd1 Hd2 Hr1 Hr2). refine (Hall (GoalCheck.mk _ _) _). by left.
  - intros m Hm. specialize (Hrt _ (list_elem_of_fmap_2 _ _ _ Hm)). simpl in Hrt.
    destruct (mount_present _ m) eqn:Hp; [by apply mount_present_true|done].
  - intros m Hm. specialize (Hps _ (list_elem_of_fmap_2 _ _ _ Hm)). simpl in Hps.
    destruct (mount_present _ m) eqn:Hp; [by apply mount_present_true|].
    by destruct (summary_was_projected _ _ _).
  - assert (GoalCheck.status (GoalCheck.mk GoalAspect.Boot
     match goal.(DesiredState.boot) with
     | BootSpec.Unmanaged => GoalStatus.Satisfied
     | BootSpec.Uefi _ | BootSpec.Bios _ => GoalStatus.Unknown "boot planning and verification"
     end) = GoalStatus.Satisfied) as Hb.
    { apply Hall. rewrite !elem_of_app. right. right. right. by left. }
    simpl in Hb. by destruct (DesiredState.boot goal).
Qed.

Lemma step_obligations_nil step c :
  step_obligations step = [] → c ∈ step.(SimulatedStep.checks) →
  is_violated c.(PrerequisiteCheck.status) = false →
  is_satisfied c.(PrerequisiteCheck.status) = true.
Proof.
  intros Hnil Hc Hv. destruct (is_satisfied _) eqn:Hs; [done|]. exfalso.
  destruct (PrerequisiteCheck.status c) as [e|r|e] eqn:Hst; try done.
  assert (SimulationObligation.Prerequisite step.(SimulatedStep.action)
    c.(PrerequisiteCheck.prerequisite) e ∈ step_obligations step) as Hin.
  { apply list_elem_of_omap. exists c. by rewrite Hst. }
  rewrite Hnil in Hin. by apply elem_of_nil in Hin.
Qed.

(** ** Theorems *)

(** C9: A composed plan replays from its own baseline: the order exists, every
    stored contract matches its recalculation, every action is accepted, and
    the trusted plan of the replay is the composed one. *)
Theorem composed_plan_replays json current fragments ordering capacity plan :
  compose_plan_with_ordering current fragments ordering capacity = Ok plan →
  ∃ result, replay_plan json current plan capacity = Ok (plan, result).
Proof.
  intros Hp. eapply returns_inv in Hp; [|apply compose_plan_ok].
  destruct (composed_replays _ _ _ Hp) as (result & Hr & _). eauto.
Qed.

(** C10: A report without protection violations predicts that the protected nodes,
    their incident edges and the protected mounts stay as they were observed,
    whatever the plan. *)
Theorem simulation_protects json current plan goal capacity protected report :
  serializers_faithful json →
  simulate_plan_for_goal_with_policy json current plan goal capacity protected = Ok report →
  report.(SimulationReport.protection_violations) = [] →
  preserves protected (from_current current)
    report.(SimulationReport.simulation).(SimulationResult.desired).
Proof. intros Hj ?%simulate_plan_for_goal_inv ?. by eapply reported_preserves. Qed.

(** C11: A complete report means what it says: every condition of every step is
    satisfied, the prediction reaches the goal, every request is implemented by
    actions of the plan and the protected objects are untouched. *)
Theorem complete_report_sound json current plan goal capacity protected report :
  serializers_faithful json →
  edge_sets current.(CurrentState.graph) → edge_sets goal.(DesiredState.graph) →
  simulate_plan_for_goal_with_policy json current plan goal capacity protected = Ok report →
  is_complete report = true →
  let predicted := report.(SimulationReport.simulation).(SimulationResult.desired) in
  (∀ step c, step ∈ report.(SimulationReport.simulation).(SimulationResult.steps) →
     c ∈ step.(SimulatedStep.checks) → is_satisfied c.(PrerequisiteCheck.status) = true) ∧
  reaches predicted goal ∧
  (∀ i intent, goal.(DesiredState.intents) !! i = Some intent →
     ∃ ordered, ordered_actions (E:=PlanSimulationError) plan = Ok ordered ∧
       actions_cover_intent intent (PlannedAction.operation <$>
         filter (λ a, a.(PlannedAction.origin) = FragmentOrigin.Intent i) ordered) = true) ∧
  preserves protected (from_current current) predicted.
Proof.
  intros Hj Hcs Hgs Hsim Hcomplete predicted. subst predicted.
  pose proof (simulate_plan_for_goal_inv _ _ _ _ _ _ _ Hsim) as Hrep.
  unfold is_complete in Hcomplete.
  rewrite !andb_true_iff, !bool_decide_eq_true, !forallb_elem in Hcomplete.
  destruct Hcomplete as [[[Hv Hob] Hgoal] Hcov].
  pose proof (reported_preserves _ _ _ _ _ _ _ Hj Hrep Hv) as Hpres.
  destruct Hrep as [_ (ordered & ev & t & s & st & Ho & Hrun & Hres & _ & Hic & Hgc & Hun)].
  rewrite Hun in Hob. apply app_nil in Hob as [Hob _]. rewrite Hres in Hpres |- *.
  cbn [SimulationResult.desired SimulationResult.steps] in *. split_and!.
  - intros step c Hstep Hc. apply (step_obligations_nil step c); [|done|by eapply replay_run_checks].
    apply concat_nil_Forall in Hob. rewrite Forall_fmap, Forall_forall in Hob. by apply Hob.
  - apply (compare_goal_satisfied _ (evidence_summary st.2)); [|done|].
    + pose proof (replay_run_edge_sets _ _ _ _ _ _ Hrun Hcs) as He.
      by destruct st as [[g m b i] ev'].
    + intros c Hc. rewrite <-Hgc in Hc. by apply Hgoal, bool_decide_eq_true in Hc.
  - intros i intent Hi. exists ordered. split; [done|].
    refine (Hcov (intent_coverage_of ordered (i, intent)) _). rewrite Hic.
    apply list_elem_of_fmap. exists (i, intent). split; [done|].
    apply list_elem_of_lookup. exists i. unfold enumerate. by rewrite list_lookup_imap, Hi.
  - done.
Qed.

(** Composition for a goal returns only plans whose replay violates neither
    the goal nor the protection policy, and it never panics. *)
Theorem compose_for_goal_sound json current goal fragments capacity protected :
  serializers_faithful json →
  returns (λ plan,
      composed current capacity plan ∧
      (∀ i intent, goal.(DesiredState.intents) !! i = Some intent →
         intent_is_covered i intent fragments = true) ∧
      ∃ report,
        simulate_plan_for_goal_with_policy json current plan goal capacity protected = Ok report ∧
        (∀ c, c ∈ report.(SimulationReport.goal_checks) → goal_violated c = false) ∧
        preserves protected (from_current current)
          report.(SimulationReport.simulation).(SimulationResult.desired))
    (compose_plan_for_goal_with_policy json current goal fragments capacity protected).
Proof.
  intros Hj. unfold compose_plan_for_goal_with_policy.
  eapply returns_bind.
  { apply (returns_report (λ _, ∀ i intent, goal.(DesiredState.intents) !! i = Some intent →
      intent_is_covered i intent fragments = true)). intros [] Hcov i intent Hi.
    unfold validate_intent_coverage in Hcov. destruct (try_all _ (enumerate fragments)); [|done].
    rewrite try_all_ok in Hcov. specialize (Hcov (i, intent)). simpl in Hcov.
    destruct (intent_is_covered i intent fragments); [done|]. discriminate Hcov.
    apply list_elem_of_lookup. exists i. unfold enumerate. by rewrite list_lookup_imap, Hi. }
  intros [] Hcov.
  eapply returns_bind; [apply compose_plan_ok|]. intros plan Hplan.
  pose proof (simulate_plan_for_goal_returns json current plan goal capacity protected
    (wf_structured _ (comp_wf _ _ _ Hplan))) as Hr.
  destruct (simulate_plan_for_goal_with_policy _ _ _ _ _ _) as [report|[]] eqn:Hsim; try done.
  cbn [map_failure map_err].
  destruct (SimulationReport.protection_violations report) as [|v vs] eqn:Hv; [|done].
  cbn [head]. destruct (find_first _ _) eqn:Hf; [done|].
  split_and!; [done..|]. exists report. split_and!; [done| |].
  - by apply find_first_None.
  - eapply reported_preserves; [done|by apply simulate_plan_for_goal_inv|done].
Qed.
