(* ===== verification/Wire.v ===== *)
(** * Plan documents: [storage-engine/src/wire.rs]

    A [PlanDocument] is data from outside: [structural_plan] checks identities
    and references before anything is indexed, and [analyse_historical]
    recalculates every contract by replay.  JSON is the matter of [WireJson]; the
    serializer used by the contract comparison is a parameter, and so is the
    text of a graph error. *)

From stdpp Require Import relations.
From S2P Require Import Prelude Model Reach Graph GraphOrder GraphValid State Action Contract.
From S2P Require Import ContractProps Logical Evidence Prerequisites Effects Report PlanOrder.
From S2P Require Import Compose ComposeProps Simulate SimulateProps.

Definition PLAN_SCHEMA_VERSION : N := 3.
Definition ACTION_SEMANTICS_VERSION : N := 11.

Module HistoricalBaseline.
Record HistoricalBaseline := mk {
  id : Uuid;
  snapshot : CurrentState;
  capacity_evidence : list CapacityEvidence }.
#[global] Instance HistoricalBaseline_eq_dec : EqDecision HistoricalBaseline.
Proof. solve_decision. Defined.
End HistoricalBaseline.
Abbreviation HistoricalBaseline := HistoricalBaseline.HistoricalBaseline.

Module PlanDocument.
Record PlanDocument := mk {
  schema_version : N;
  action_semantics_version : N;
  plan_id : Uuid;
  baseline : HistoricalBaseline;
  requested_goal : DesiredState;
  protected_scope : ProtectedScope;
  actions : list PlannedAction;
  dependencies : list ActionDependency }.
#[global] Instance PlanDocument_eq_dec : EqDecision PlanDocument.
Proof. solve_decision. Defined.
End PlanDocument.
Abbreviation PlanDocument := PlanDocument.PlanDocument.

Module HistoricalAnalysis.
Record HistoricalAnalysis := mk {
  plan_id : Uuid;
  baseline_id : Uuid;
  plan : ExecutionPlan;
  report : SimulationReport }.
#[global] Instance HistoricalAnalysis_eq_dec : EqDecision HistoricalAnalysis.
Proof. solve_decision. Defined.
End HistoricalAnalysis.
Abbreviation HistoricalAnalysis := HistoricalAnalysis.HistoricalAnalysis.

(** The detail of a [serde_json] error is left out. *)
Module PlanDocumentError.
Inductive PlanDocumentError :=
| Json
| SchemaVersion (v : N)
| SemanticsVersion (v : N)
| InvalidIdentity
| BaselineMismatch
| Structure (message : string)
| Simulation (e : PlanSimulationError)
| Composition (e : CompositionError)
| GoalViolation (a : GoalAspect)
| UncoveredIntent (index : nat)
| ProtectionViolation (v : Report.ProtectionViolation).
#[global] Instance PlanDocumentError_eq_dec : EqDecision PlanDocumentError.
Proof. solve_decision. Defined.
End PlanDocumentError.
Abbreviation PlanDocumentError := PlanDocumentError.PlanDocumentError.

Abbreviation documenting A := (result A (Failure PlanDocumentError)) (only parsing).

(** ** Structure *)

(** [local_ids] and [origins] of the action loop. *)
Abbreviation provenance :=
  (gset (FragmentId * LocalActionId) * gmap FragmentId FragmentOrigin)%type (only parsing).

Definition check_document_action (acc : provenance) (entry : nat * PlannedAction)
    : result provenance PlanDocumentError :=
  let '(local_ids, origins) := acc in
  let '(index, action) := entry in
  let fragment := action.(PlannedAction.fragment) in
  if negb (action.(PlannedAction.id) =? index)%nat
  then Err (PlanDocumentError.Structure "action IDs must be unique and contiguous from zero")
  else if bool_decide ((fragment, action.(PlannedAction.local_id)) ∈ local_ids)
  then Err (PlanDocumentError.Structure "duplicate fragment-local action identity")
  else if is_some_and (λ origin, negb (bool_decide (origin = action.(PlannedAction.origin))))
            (origins !! fragment)
  then Err (PlanDocumentError.Structure "inconsistent origin within one fragment")
  else Ok ({[(fragment, action.(PlannedAction.local_id))]} ∪ local_ids,
           <[fragment := action.(PlannedAction.origin)]> origins).

Definition check_document_edge (count : nat) (edges : gset (ActionId * ActionId))
    (edge : ActionDependency) : result (gset (ActionId * ActionId)) PlanDocumentError :=
  let before := edge.(ActionDependency.before) in
  let after := edge.(ActionDependency.after) in
  if (count <=? before)%nat || (count <=? after)%nat || (before =? after)%nat
     || bool_decide ((before, after) ∈ edges)
  then Err (PlanDocumentError.Structure "invalid or duplicate dependency endpoints")
  else Ok ({[(before, after)]} ∪ edges).

Definition sort_by_id (actions : list PlannedAction) : list PlannedAction :=
  sort_by (λ a b, a.(PlannedAction.id) <=? b.(PlannedAction.id))%nat actions.

Section documents.
(** [GraphError]'s [Display]. *)
Variable graph_error_to_string : GraphError → string.

Definition structural_plan (doc : PlanDocument) : documenting ExecutionPlan :=
  let? _ := report (try_all (λ graph,
      map_err (λ e, PlanDocumentError.Structure (graph_error_to_string e)) (validate_structure graph))
    [doc.(PlanDocument.baseline).(HistoricalBaseline.snapshot).(CurrentState.graph);
     doc.(PlanDocument.requested_goal).(DesiredState.graph)]) in
  let actions := sort_by_id doc.(PlanDocument.actions) in
  let? _ := report (try_fold check_document_action (∅, ∅) (enumerate actions)) in
  let? _ := report (try_fold (check_document_edge (length actions)) ∅
                      doc.(PlanDocument.dependencies)) in
  let? _ := map_failure PlanDocumentError.Composition
              (plan_order (length actions) doc.(PlanDocument.dependencies)) in
  Ok (ExecutionPlan.mk actions doc.(PlanDocument.dependencies)).

(** The contracts of the trusted plan; a repeated identity keeps the last one. *)
Definition plan_contracts (plan : ExecutionPlan) : gmap ActionId ActionContract :=
  foldl (λ m a, <[a.(PlannedAction.id) := a.(PlannedAction.informational_contract)]> m) ∅
    plan.(ExecutionPlan.actions).

(** Both replays compare contracts; each has its own serializers. *)
Definition analyse_historical (json json' : Serializers) (doc : PlanDocument)
    : documenting HistoricalAnalysis :=
  let baseline := doc.(PlanDocument.baseline) in
  let snapshot := baseline.(HistoricalBaseline.snapshot) in
  let capacity_evidence := baseline.(HistoricalBaseline.capacity_evidence) in
  if negb (doc.(PlanDocument.schema_version) =? PLAN_SCHEMA_VERSION)%N
  then Err (Reported (PlanDocumentError.SchemaVersion doc.(PlanDocument.schema_version)))
  else if negb (doc.(PlanDocument.action_semantics_version) =? ACTION_SEMANTICS_VERSION)%N
  then Err (Reported (PlanDocumentError.SemanticsVersion doc.(PlanDocument.action_semantics_version)))
  else if is_nil doc.(PlanDocument.plan_id) || is_nil baseline.(HistoricalBaseline.id)
  then Err (Reported PlanDocumentError.InvalidIdentity)
  else
    let? draft := structural_plan doc in
    let? (plan, _) := map_failure PlanDocumentError.Simulation
                        (replay_plan json snapshot draft capacity_evidence) in
    let? _ := map_failure PlanDocumentError.Composition
                (validate_resource_order (plan_contracts plan) plan.(ExecutionPlan.dependencies)) in
    let? analysis := map_failure PlanDocumentError.Simulation
        (simulate_plan_for_goal_with_policy json' snapshot plan doc.(PlanDocument.requested_goal)
           capacity_evidence doc.(PlanDocument.protected_scope)) in
    match head analysis.(SimulationReport.protection_violations) with
    | Some violation => Err (Reported (PlanDocumentError.ProtectionViolation violation))
    | None =>
        match find_first goal_violated analysis.(SimulationReport.goal_checks) with
        | Some check => Err (Reported (PlanDocumentError.GoalViolation check.(GoalCheck.aspect)))
        | None =>
            match find_first (λ i, negb i.(IntentCoverage.covered))
                    analysis.(SimulationReport.intent_coverage) with
            | Some intent =>
                Err (Reported (PlanDocumentError.UncoveredIntent intent.(IntentCoverage.index)))
            | None => Ok (HistoricalAnalysis.mk doc.(PlanDocument.plan_id)
                            baseline.(HistoricalBaseline.id) plan analysis)
            end
        end
    end.

(** [fresh_id] is the result of [Uuid::now_v7]. *)
Definition capture_with_baseline (json json' : Serializers) (fresh_id : Uuid)
    (plan : ExecutionPlan) (baseline : HistoricalBaseline) (goal : DesiredState)
    (protected_scope : ProtectedScope) : documenting PlanDocument :=
  let document := PlanDocument.mk PLAN_SCHEMA_VERSION ACTION_SEMANTICS_VERSION fresh_id baseline
                    goal protected_scope plan.(ExecutionPlan.actions)
                    plan.(ExecutionPlan.dependencies) in
  let? _ := analyse_historical json json' document in
  Ok document.

(** ** Structural checks *)

Lemma check_document_actions_ok l k acc r :
  try_fold check_document_action acc (imap (λ i x, (k + i, x)) l) = Ok r →
  ∀ i a, l !! i = Some a → a.(PlannedAction.id) = k + i.
Proof.
  revert k acc. induction l as [|x l IH]; intros k acc; simpl; [by intros _ i a; rewrite lookup_nil|].
  destruct (check_document_action acc (k + 0, x)) as [acc'|] eqn:Hx; [|done]. intros Hl [|i] a.
  - intros [= <-]. destruct acc as [s m]. unfold check_document_action in Hx.
    destruct (PlannedAction.id x =? k + 0) eqn:Hid; [|done]. by apply Nat.eqb_eq in Hid.
  - intros Ha. rewrite <-plus_n_Sm. eapply (IH (S k)); [|done].
    erewrite imap_ext; [exact Hl|]. intros. simpl. f_equal. lia.
Qed.

Lemma check_document_edges_ok n ds :
  returns (λ _, deps_ok n ds) (report (try_fold (check_document_edge n) ∅ ds)).
Proof.
  apply returns_report. intros s Hs. assert (deps_ok n ds ∧
    ∀ i j, (i, j) ∈ s ↔ edge (action_edges ds) i j) as [? _]; [|done].
  revert Hs. apply (try_fold_inv _ (λ pre s, deps_ok n pre ∧
    ∀ i j, (i, j) ∈ s ↔ edge (action_edges pre) i j)).
  { split; [split; [by intros d ?%elem_of_nil|constructor]|]. intros i j. unfold edge. set_solver. }
  intros pre d post s1 s2 _ [[Hr Hnd] Hin]. unfold check_document_edge.
  destruct (_ || bool_decide _) eqn:Hc; [done|]. intros [= <-].
  rewrite !orb_false_iff, !Nat.leb_gt, bool_decide_eq_false in Hc. destruct Hc as [[[Hb Ha] _] Hno].
  unfold deps_ok, action_edges. rewrite fmap_snoc. split_and!.
  - intros x [?| ->%list_elem_of_singleton]%elem_of_app; [by apply Hr|done].
  - apply NoDup_snoc. split; [done|]. by rewrite Hin in Hno.
  - intros i j. rewrite elem_of_union, elem_of_singleton, Hin. unfold edge.
    rewrite elem_of_app, list_elem_of_singleton. unfold action_edges. tauto.
Qed.

(** The identities of a document are [u32]. *)
Definition ids_u32 (doc : PlanDocument) : Prop :=
  ∀ a, a ∈ doc.(PlanDocument.actions) → (N.of_nat a.(PlannedAction.id) <= u32_MAX)%N.

Lemma structural_plan_ok doc :
  ids_u32 doc →
  returns (λ plan, plan_structured plan ∧
      plan.(ExecutionPlan.actions) ≡ₚ doc.(PlanDocument.actions) ∧
      plan.(ExecutionPlan.dependencies) = doc.(PlanDocument.dependencies))
    (structural_plan doc).
Proof.
  intros Hids. unfold structural_plan. set (actions := sort_by_id _).
  assert (actions ≡ₚ doc.(PlanDocument.actions)) as Hperm by apply sort_by_perm.
  eapply returns_bind; [by apply (returns_report (λ _, True))|]. intros [] _.
  eapply returns_bind.
  { apply (returns_report (λ _, ∀ i a, actions !! i = Some a → a.(PlannedAction.id) = i)).
    intros r Hr. apply (check_document_actions_ok actions 0 (∅, ∅) r Hr). }
  intros seen Hpos. eapply returns_bind; [apply check_document_edges_ok|]. intros seen_edges Hds.
  assert (N.of_nat (length actions) <= u32_MAX + 1)%N as Hn.
  { destruct (last actions) as [a|] eqn:Hlast; [|apply last_None in Hlast; rewrite Hlast; simpl; lia].
    rewrite last_lookup in Hlast. pose proof (lookup_lt_Some _ _ _ Hlast).
    pose proof (Hpos _ _ Hlast). assert (N.of_nat a.(PlannedAction.id) <= u32_MAX)%N; [|lia].
    apply Hids. rewrite <-Hperm. by eapply list_elem_of_lookup_2. }
  pose proof (plan_order_ok (length actions) _ Hn (proj1 Hds)) as Hord.
  destruct (plan_order _ _) as [order|[]]; [|done..]. cbn [map_failure map_err].
  destruct Hord as (_ & _ & Hac). by split; [split|].
Qed.
End documents.

(** ** Trusted plans *)

Lemma replay_run_trusted json st l t s st' :
  serializers_faithful json → replay_run json st l t s st' →
  Forall2 (λ a b, draft_of b = draft_of a ∧
     same_promises b.(PlannedAction.informational_contract) a.(PlannedAction.informational_contract)) l t.
Proof.
  intros Hj. induction 1 as [|st a l st1 c sim t s st2 Hv Hsim _ IH]; [constructor|].
  constructor; [|done]. split; [done|]. simpl.
  destruct (Hj a.(PlannedAction.id)) as [Hjt Hji].
  destruct (imported_contract_trusted _ _ _ _ _ _ Hjt Hji Hv) as [-> Hsame].
  by rewrite (sim_contract _ _ _ _ (simulate_action_ok _ _ _ _ Hsim)).
Qed.

Lemma Sorted_ids (l : list PlannedAction) :
  Sorted (λ a b, (a.(PlannedAction.id) <=? b.(PlannedAction.id)) = true) l →
  Sorted le (PlannedAction.id <$> l).
Proof.
  induction 1 as [|a l _ IH Hd]; csimpl; [constructor|]. constructor; [done|].
  destruct Hd as [|b l Hb]; csimpl; constructor. by apply Nat.leb_le.
Qed.

(** Sorting actions whose identities are the positions numbers them. *)
Lemma sort_ids_positional (l : list PlannedAction) n :
  PlannedAction.id <$> l ≡ₚ seq 0 n →
  length (sort_by_id l) = n ∧ ∀ i a, sort_by_id l !! i = Some a → a.(PlannedAction.id) = i.
Proof.
  intros Hp. assert (PlannedAction.id <$> sort_by_id l = seq 0 n) as Heq.
  { apply (Sorted_unique le).
    - apply Sorted_ids, sort_by_sorted. intros a b. rewrite !Nat.leb_le. lia.
    - clear. generalize 0. induction n as [|n IH]; intros k; simpl; [constructor|].
      constructor; [apply IH|]. destruct n; constructor. lia.
    - unfold sort_by_id. by rewrite sort_by_perm. }
  split.
  - by rewrite <-(length_fmap PlannedAction.id), Heq, length_seq.
  - intros i a Ha. assert ((PlannedAction.id <$> sort_by_id l) !! i = Some a.(PlannedAction.id)) as Hi
      by (by rewrite list_lookup_fmap, Ha).
    rewrite Heq in Hi. by apply lookup_seq in Hi as [? _].
Qed.

Lemma plan_contracts_lookup plan a :
  (∀ i a, plan.(ExecutionPlan.actions) !! i = Some a → a.(PlannedAction.id) = i) →
  a ∈ plan.(ExecutionPlan.actions) →
  plan_contracts plan !! a.(PlannedAction.id) = Some a.(PlannedAction.informational_contract).
Proof.
  unfold plan_contracts. generalize (ExecutionPlan.actions plan).
  induction l as [|b l IH] using rev_ind; intros Hpos; [by intros ?%elem_of_nil|].
  rewrite foldl_app. cbn [foldl]. intros [Ha| ->%list_elem_of_singleton]%elem_of_app.
  - assert (b.(PlannedAction.id) = length l) as Hb.
    { apply Hpos. rewrite lookup_app_r by done. by rewrite Nat.sub_diag. }
    rewrite lookup_insert_ne.
    + apply IH; [|done]. intros i x Hx. apply Hpos. by apply lookup_app_l_Some.
    + apply list_elem_of_lookup in Ha as [i Hi]. pose proof (lookup_lt_Some _ _ _ Hi).
      rewrite Hb, (Hpos i a (lookup_app_l_Some _ _ _ _ Hi)). lia.
  - by rewrite lookup_insert_eq.
Qed.

(** The trusted plan has the document's actions and edges; only the contracts
    are recalculated, and they promise the same. *)
Definition trusted_copy (doc : PlanDocument) (plan : ExecutionPlan) : Prop :=
  plan.(ExecutionPlan.dependencies) = doc.(PlanDocument.dependencies) ∧
  ∃ actions, actions ≡ₚ doc.(PlanDocument.actions) ∧
    Forall2 (λ a b, draft_of b = draft_of a ∧
       same_promises b.(PlannedAction.informational_contract)
         a.(PlannedAction.informational_contract)) actions plan.(ExecutionPlan.actions).

Lemma Forall2_ids (P : PlannedAction → PlannedAction → Prop) l t :
  (∀ a b, P a b → draft_of b = draft_of a) → Forall2 P l t →
  PlannedAction.id <$> t = PlannedAction.id <$> l.
Proof.
  intros HP. induction 1 as [|a b l t Hab _ IH]; csimpl; [done|].
  apply HP in Hab. injection Hab as ->. by f_equal.
Qed.

Lemma replay_plan_structured json current plan capacity :
  serializers_faithful json → plan_structured plan →
  returns (λ '(trusted, _), plan_structured trusted ∧
      trusted.(ExecutionPlan.dependencies) = plan.(ExecutionPlan.dependencies) ∧
      ∃ actions, actions ≡ₚ plan.(ExecutionPlan.actions) ∧
        Forall2 (λ a b, draft_of b = draft_of a ∧
           same_promises b.(PlannedAction.informational_contract)
             a.(PlannedAction.informational_contract)) actions trusted.(ExecutionPlan.actions))
    (replay_plan json current plan capacity).
Proof.
  intros Hj Hwf. eapply returns_mono; [by apply returns_eq, replay_plan_returns|].
  intros [trusted result] [Hr _].
  apply replay_plan_inv in Hr as (ordered & ev & t & s & st & Ho & _ & _ & Hrun & _ & ->).
  destruct (ordered_actions_ok (E:=PlanSimulationError) plan Hwf) as (order & ordered' & Ho' & Hin).
  rewrite Ho in Ho'. apply Ok_inj in Ho' as <-.
  apply in_plan_order_perm in Hin as Hperm. apply replay_run_trusted in Hrun as Hall; [|done].
  assert (PlannedAction.id <$> t ≡ₚ seq 0 (length plan.(ExecutionPlan.actions))) as Hids.
  { rewrite (Forall2_ids _ _ _ (λ a b, proj1 (A := _) (B := _)) Hall), Hperm.
    replace (PlannedAction.id <$> plan.(ExecutionPlan.actions)) with
      (seq 0 (length plan.(ExecutionPlan.actions))); [done|].
    apply list_eq. intros i. rewrite list_lookup_fmap.
    destruct (plan.(ExecutionPlan.actions) !! i) as [a|] eqn:Ha.
    - simpl. rewrite (wf_positional _ Hwf _ _ Ha). apply lookup_seq.
      split; [lia|]. by eapply lookup_lt_Some.
    - simpl. apply lookup_seq_ge. by apply lookup_ge_None. }
  apply sort_ids_positional in Hids as [Hlen Hpos].
  destruct Hwf as [_ Hn Hds Hac]. unfold sort_by_id in Hlen, Hpos.
  split_and!; [split; cbn [ExecutionPlan.actions ExecutionPlan.dependencies]; rewrite ?Hlen; done|done|].
  cbn [ExecutionPlan.actions].
  apply Forall2_flip in Hall. unfold flip in Hall.
  destruct (Permutation_Forall2 (symmetry (sort_by_perm
    (λ a b, a.(PlannedAction.id) <=? b.(PlannedAction.id)) t)) Hall) as (l & Hl & Hf).
  exists l. split; [by rewrite <-Hl|]. by apply Forall2_flip in Hf.
Qed.

Lemma returns_map_failure {A E F} (f : E → F) (P : A → Prop) (r : result A (Failure E)) :
  returns P r → returns P (map_failure f r).
Proof. by destruct r as [|[]]. Qed.

(** What an accepted document guarantees. *)
Record analysis_sound (json' : Serializers) (doc : PlanDocument) (an : HistoricalAnalysis) : Prop := {
  an_wf : plan_wf an.(HistoricalAnalysis.plan);
  an_copy : trusted_copy doc an.(HistoricalAnalysis.plan);
  an_report : simulate_plan_for_goal_with_policy json'
      doc.(PlanDocument.baseline).(HistoricalBaseline.snapshot) an.(HistoricalAnalysis.plan)
      doc.(PlanDocument.requested_goal)
      doc.(PlanDocument.baseline).(HistoricalBaseline.capacity_evidence)
      doc.(PlanDocument.protected_scope) = Ok an.(HistoricalAnalysis.report);
  an_goal c : c ∈ an.(HistoricalAnalysis.report).(SimulationReport.goal_checks) →
    goal_violated c = false;
  an_intents i : i ∈ an.(HistoricalAnalysis.report).(SimulationReport.intent_coverage) →
    i.(IntentCoverage.covered) = true;
  an_protected : preserves doc.(PlanDocument.protected_scope)
    (from_current doc.(PlanDocument.baseline).(HistoricalBaseline.snapshot))
    an.(HistoricalAnalysis.report).(SimulationReport.simulation).(SimulationResult.desired);
  an_identity : an.(HistoricalAnalysis.plan_id) = doc.(PlanDocument.plan_id) ∧
    is_nil doc.(PlanDocument.plan_id) = false }.

Lemma analyse_historical_ok display json json' doc :
  serializers_faithful json → serializers_faithful json' → ids_u32 doc →
  returns (analysis_sound json' doc) (analyse_historical display json json' doc).
Proof.
  intros Hj Hj' Hids. unfold analyse_historical. cbn zeta.
  destruct (negb _); [done|]. destruct (negb _); [done|].
  destruct (_ || is_nil _) eqn:Hnil; [done|]. apply orb_false_iff in Hnil as [Hnil _].
  eapply returns_bind; [by apply structural_plan_ok|]. intros draft (Hd & Hperm & Hdeps).
  eapply returns_bind; [by apply returns_map_failure, replay_plan_structured|].
  intros [plan res] (Hst & Hdeps2 & actions & Hperm2 & Hall).
  eapply returns_bind; [apply returns_map_failure, validate_resource_order_ok|]. intros [] Hres.
  eapply returns_bind.
  { apply returns_map_failure, returns_eq, simulate_plan_for_goal_returns, Hst. }
  intros rep [Hrep _].
  destruct (SimulationReport.protection_violations rep) eqn:Hv; [|done]. cbn [head].
  destruct (find_first goal_violated _) eqn:Hg; [done|].
  destruct (find_first _ (SimulationReport.intent_coverage rep)) eqn:Hi; [done|].
  rewrite find_first_None in Hg. rewrite find_first_None in Hi. split; cbn -[preserves]; try done.
  - split; [done|]. intros a b Ha Hb Hne.
    apply Hres; [done|apply plan_contracts_lookup; [apply Hst|done]..].
  - split; [congruence|]. exists actions. split; [by rewrite Hperm2|done].
  - intros i Hin%Hi. by apply negb_false_iff in Hin.
  - eapply reported_preserves; [done|by apply simulate_plan_for_goal_inv|done].
Qed.

(** C12: An imported document is accepted only with a well-formed plan whose
    contracts are recalculated and promise what the document claimed, whose
    replay violates neither goal nor protection policy and implements every
    request; no document makes the analysis panic. *)
Theorem import_sound display json json' doc :
  serializers_faithful json → serializers_faithful json' → ids_u32 doc →
  returns (analysis_sound json' doc) (analyse_historical display json json' doc).
Proof. apply analyse_historical_ok. Qed.
