(* ===== verification/Observation.v ===== *)
(** * Live observations: [LiveObservation] of [storage-engine/src/execution.rs]
      and its validation in [storage-engine/src/live.rs]

    What the runtime host hands to a run, and the checks made before an
    observation can replace the last accepted one. *)

From S2P Require Import Prelude Model Graph GraphOrder GraphValid State Action Contract.

Module LiveCheckStatus.
Inductive LiveCheckStatus :=
| Satisfied
| Violated (reason : string)
| Unknown (required_evidence : string).
#[global] Instance LiveCheckStatus_eq_dec : EqDecision LiveCheckStatus.
Proof. solve_decision. Defined.
End LiveCheckStatus.
Abbreviation LiveCheckStatus := LiveCheckStatus.LiveCheckStatus.

(** A frozen requirement and its live result. *)
Module LiveCheck.
Record LiveCheck (T : Type) := mk { condition : T; status : LiveCheckStatus }.
Arguments mk {T} condition status.
Arguments condition {T} l.
Arguments status {T} l.
#[global] Instance LiveCheck_eq_dec {T} `{EqDecision T} : EqDecision (LiveCheck T).
Proof. solve_decision. Defined.
End LiveCheck.
Abbreviation LiveCheck := LiveCheck.LiveCheck.

Module ObservationReference.
Record ObservationReference := mk { probe_instance : Uuid; epoch : ProbeEpoch }.
#[global] Instance ObservationReference_eq_dec : EqDecision ObservationReference.
Proof. solve_decision. Defined.
End ObservationReference.
Abbreviation ObservationReference := ObservationReference.ObservationReference.

Module LiveObservation.
Record LiveObservation := mk { reference : ObservationReference; snapshot : CurrentState }.
#[global] Instance LiveObservation_eq_dec : EqDecision LiveObservation.
Proof. solve_decision. Defined.
End LiveObservation.
Abbreviation LiveObservation := LiveObservation.LiveObservation.

Module ObservationError.
Inductive ObservationError :=
| NilInstance
| Graph (e : GraphError)
| NilNode
| NodeEpoch (id : NodeId)
| MountSource (id : NodeId).
#[global] Instance ObservationError_eq_dec : EqDecision ObservationError.
Proof. solve_decision. Defined.
End ObservationError.
Abbreviation ObservationError := ObservationError.ObservationError.

(** The node loop visits the [HashMap] in the order of [map_to_list]; the
    order only selects which error is reported. *)
Definition validate_observed_node (observation : LiveObservation) (entry : NodeId * Node)
    : result unit ObservationError :=
  let '(id, node) := entry in
  if is_nil id then Err ObservationError.NilNode
  else if is_some_and (λ epoch, negb (epoch =? observation.(LiveObservation.reference)
                                             .(ObservationReference.epoch))%N)
            node.(Node.size).(NodeFacts.observed_in)
  then Err (ObservationError.NodeEpoch id)
  else Ok tt.

Definition validate_observed_mount (graph : NodeGraph) (mount : ObservedMount)
    : result unit ObservationError :=
  match mount_source_node mount.(ObservedMount.source) with
  | Some id => match Graph.node graph id with
               | None => Err (ObservationError.MountSource id)
               | Some _ => Ok tt
               end
  | None => Ok tt
  end.

(** [LiveObservation::validate] *)
Definition validate_observation (observation : LiveObservation) : result unit ObservationError :=
  let snapshot := observation.(LiveObservation.snapshot) in
  if is_nil observation.(LiveObservation.reference).(ObservationReference.probe_instance)
  then Err ObservationError.NilInstance
  else
    let? _ := map_err ObservationError.Graph (validate_structure snapshot.(CurrentState.graph)) in
    let? _ := try_all (validate_observed_node observation)
                (map_to_list snapshot.(CurrentState.graph).(NodeGraph.nodes)) in
    try_all (validate_observed_mount snapshot.(CurrentState.graph))
      snapshot.(CurrentState.mounts).(MountState.entries).

(** ** What a valid observation is *)

Record observation_wf (o : LiveObservation) : Prop := {
  ow_instance : o.(LiveObservation.reference).(ObservationReference.probe_instance) ≠ Uuid_nil;
  ow_graph : structure_wf o.(LiveObservation.snapshot).(CurrentState.graph);
  ow_nodes id n : Graph.node o.(LiveObservation.snapshot).(CurrentState.graph) id = Some n →
    id ≠ Uuid_nil ∧
    ∀ e, n.(Node.size).(NodeFacts.observed_in) = Some e →
         e = o.(LiveObservation.reference).(ObservationReference.epoch);
  ow_mounts m id : m ∈ o.(LiveObservation.snapshot).(CurrentState.mounts).(MountState.entries) →
    mount_source_node m.(ObservedMount.source) = Some id →
    is_Some (Graph.node o.(LiveObservation.snapshot).(CurrentState.graph) id) }.

Lemma is_nil_false u : is_nil u = false ↔ u ≠ Uuid_nil.
Proof. unfold is_nil. apply N.eqb_neq. Qed.

Lemma validate_observed_node_ok o id n :
  validate_observed_node o (id, n) = Ok tt ↔
  id ≠ Uuid_nil ∧
  ∀ e, n.(Node.size).(NodeFacts.observed_in) = Some e →
       e = o.(LiveObservation.reference).(ObservationReference.epoch).
Proof.
  unfold validate_observed_node. rewrite <-is_nil_false. destruct (is_nil id); [naive_solver|].
  destruct (NodeFacts.observed_in _) as [e|]; simpl; [|naive_solver].
  destruct (N.eqb_spec e o.(LiveObservation.reference).(ObservationReference.epoch)); naive_solver.
Qed.

Lemma validate_observation_iff o : validate_observation o = Ok tt ↔ observation_wf o.
Proof.
  unfold validate_observation. cbn zeta.
  destruct (is_nil _) eqn:Hnil.
  { split; [done|]. intros [Hi _ _ _]. apply is_nil_false in Hi. congruence. }
  apply is_nil_false in Hnil.
  destruct (validate_structure _) as [[]|] eqn:Hs; simpl.
  2: { split; [done|]. intros [_ Hg _ _]. apply validate_structure_iff in Hg. congruence. }
  apply validate_structure_iff in Hs.
  destruct (try_all (validate_observed_node o) _) as [[]|] eqn:Hn; simpl.
  2: { split; [done|]. intros [_ _ Hnodes _]. rewrite (proj2 (try_all_ok _ _)) in Hn; [done|].
       intros [id n] Hin%elem_of_map_to_list. by apply validate_observed_node_ok, Hnodes. }
  rewrite try_all_ok in Hn. rewrite try_all_ok. split.
  - intros Hm. split; [done|done| |].
    + intros id n Hin. by apply validate_observed_node_ok, Hn, elem_of_map_to_list.
    + intros m id Hin Hid. specialize (Hm m Hin). unfold validate_observed_mount in Hm.
      rewrite Hid in Hm. destruct (Graph.node _ id); [eauto|done].
  - intros [_ _ _ Hmounts] m Hin. unfold validate_observed_mount.
    destruct (mount_source_node _) as [id|] eqn:Hid; [|done].
    by destruct (Hmounts m id Hin Hid) as [? ->].
Qed.

(** An observation is accepted exactly when it is well formed, whatever the
    iteration order of its maps. *)
Theorem validate_observation_spec o : validate_observation o = Ok tt ↔ observation_wf o.
Proof. apply validate_observation_iff. Qed.
