(* ===== verification/Correlate.v ===== *)
(** * Correlation of identities: [storage-engine/src/editing/correlate.rs]

    Planned and observed graphs use transient node identities; an object is
    recognised only by one durable identity that is unique in both graphs.
    [correlate_nodes] and [correlate_partition_table] call each other: a table
    is recognised by its disk, and a disk is not a table, so two levels of
    recursion are enough.  The recursion is bounded by fuel and the theorems
    exclude its exhaustion. *)

From S2P Require Import Prelude Model Graph GraphOrder GraphValid State Action Contract Logical.
From S2P Require Import Observation.

Module NodeCorrelation.
Record NodeCorrelation := mk { source : NodeId; target : NodeId; identity : ExternalId }.
#[global] Instance NodeCorrelation_eq_dec : EqDecision NodeCorrelation.
Proof. solve_decision. Defined.
End NodeCorrelation.
Abbreviation NodeCorrelation := NodeCorrelation.NodeCorrelation.

Module CorrelationError.
Inductive CorrelationError :=
| Structure (e : GraphError)
| MissingSource (id : NodeId)
| NotPresent (id : NodeId)
| NoIdentity (id : NodeId)
| AmbiguousSource (id : NodeId)
| MissingTarget (id : NodeId)
| AmbiguousTarget (id : NodeId)
| KindChanged (source_node target : NodeId).
#[global] Instance CorrelationError_eq_dec : EqDecision CorrelationError.
Proof. solve_decision. Defined.
End CorrelationError.
Abbreviation CorrelationError := CorrelationError.CorrelationError.

Abbreviation correlating A := (result A (Failure CorrelationError)) (only parsing).
Implicit Types (graph : NodeGraph) (current next : CurrentState) (source target id : NodeId)
  (identity : ExternalId).

(** ** Trimmed text

    A [String] is its UTF-8 bytes.  [strip_white] removes one leading character
    of the Unicode White_Space set, [strip_white_end] one trailing character
    from the reversed bytes; UTF-8 is self-synchronizing, so a suffix that
    spells a character is that character. *)

Definition strip_white (bytes : list N) : option (list N) :=
  match bytes with
  | (0x09 | 0x0A | 0x0B | 0x0C | 0x0D | 0x20)%N :: rest => Some rest
  | 0xC2%N :: (0x85 | 0xA0)%N :: rest => Some rest
  | 0xE1%N :: 0x9A%N :: 0x80%N :: rest => Some rest
  | 0xE2%N :: 0x80%N ::
      (0x80 | 0x81 | 0x82 | 0x83 | 0x84 | 0x85 | 0x86 | 0x87 | 0x88 | 0x89 | 0x8A
       | 0xA8 | 0xA9 | 0xAF)%N :: rest => Some rest
  | 0xE2%N :: 0x81%N :: 0x9F%N :: rest => Some rest
  | 0xE3%N :: 0x80%N :: 0x80%N :: rest => Some rest
  | _ => None
  end.

Definition strip_white_end (reversed : list N) : option (list N) :=
  match reversed with
  | (0x09 | 0x0A | 0x0B | 0x0C | 0x0D | 0x20)%N :: rest => Some rest
  | (0x85 | 0xA0)%N :: 0xC2%N :: rest => Some rest
  | 0x80%N :: 0x9A%N :: 0xE1%N :: rest => Some rest
  | (0x80 | 0x81 | 0x82 | 0x83 | 0x84 | 0x85 | 0x86 | 0x87 | 0x88 | 0x89 | 0x8A
       | 0xA8 | 0xA9 | 0xAF)%N :: 0x80%N :: 0xE2%N :: rest => Some rest
  | 0x9F%N :: 0x81%N :: 0xE2%N :: rest => Some rest
  | 0x80%N :: 0x80%N :: 0xE3%N :: rest => Some rest
  | _ => None
  end.

Definition utf8 (s : string) : list N := Ascii.N_of_ascii <$> String.list_ascii_of_string s.

(** [!value.trim().is_empty() && value.trim() == value] *)
Definition is_trimmed (value : string) : bool :=
  negb (is_blank value) &&
  bool_decide (strip_white (utf8 value) = None) &&
  bool_decide (strip_white_end (reverse (utf8 value)) = None).

(** ** Durable identities *)

Definition present id (node : Node) : result unit CorrelationError :=
  if is_nil id || bool_decide (node.(Node.size).(NodeFacts.presence) ≠ Presence.Present)
  then Err (CorrelationError.NotPresent id) else Ok tt.

Definition supported_identity (node : Node) identity : bool :=
  match node.(Node.kind).(NodeSpec.kind), identity with
  | NodeKind.LvmVg _ _, ExternalId.LvmVgUuid value
  | NodeKind.LvmLv _, ExternalId.LvmLvUuid value
  | NodeKind.LvmPv, ExternalId.LvmPvUuid value
  | NodeKind.Disk, ExternalId.Wwn value => is_trimmed value
  | NodeKind.Partition _ _ _ _, ExternalId.GptPartitionUuid uuid
  | NodeKind.NvmeNamespace _, ExternalId.NvmeUuid uuid => negb (is_nil uuid)
  | NodeKind.NvmeNamespace _, ExternalId.NvmeNguid bytes => existsb (λ b, negb (b =? 0)%N) bytes
  | NodeKind.NvmeNamespace _, ExternalId.NvmeEui64 bytes => existsb (λ b, negb (b =? 0)%N) bytes
  | NodeKind.Filesystem kind _, ExternalId.Filesystem fs_type value =>
      bool_decide (fs_type = FilesystemKind.as_str kind) && is_trimmed value
  | _, _ => false
  end.

(** [std::mem::discriminant] *)
Definition identity_discriminant identity : nat :=
  match identity with
  | ExternalId.Wwn _ => 0 | ExternalId.Serial _ _ => 1 | ExternalId.GptPartitionUuid _ => 2
  | ExternalId.MbrPartitionId _ _ => 3 | ExternalId.LuksUuid _ => 4 | ExternalId.MdUuid _ => 5
  | ExternalId.LvmPvUuid _ => 6 | ExternalId.LvmVgUuid _ => 7 | ExternalId.LvmLvUuid _ => 8
  | ExternalId.Filesystem _ _ => 9 | ExternalId.BtrfsFsid _ => 10
  | ExternalId.BtrfsSubvolumeUuid _ => 11 | ExternalId.ZfsGuid _ => 12
  | ExternalId.NvmeNguid _ => 13 | ExternalId.NvmeEui64 _ => 14 | ExternalId.NvmeUuid _ => 15
  | ExternalId.Iscsi _ _ => 16 | ExternalId.NvmeOf _ _ => 17
  end.

Definition identities (node : Node) : list ExternalId := node.(Node.size).(NodeFacts.identities).

(** How many identities of a node have the form of the given one. *)
Definition same_form identity (node : Node) : nat :=
  length (filter (λ i, identity_discriminant i = identity_discriminant identity) (identities node)).

Definition holders graph identity : list (NodeId * Node) :=
  filter (λ e, identity ∈ identities e.2) (map_to_list graph.(NodeGraph.nodes)).

Definition compatible_kinds (l r : NodeKind) : bool :=
  match l, r with
  | NodeKind.LvmVg _ _, NodeKind.LvmVg _ _ | NodeKind.LvmPv, NodeKind.LvmPv
  | NodeKind.Disk, NodeKind.Disk
  | NodeKind.Partition _ _ _ _, NodeKind.Partition _ _ _ _ => true
  | NodeKind.NvmeNamespace l, NodeKind.NvmeNamespace r =>
      bool_decide (l.(NvmeNamespace.format) = r.(NvmeNamespace.format))
  | NodeKind.LvmLv l, NodeKind.LvmLv r => bool_decide (l.(LvmLv.kind) = r.(LvmLv.kind))
  | NodeKind.Filesystem l _, NodeKind.Filesystem r _ => bool_decide (l = r)
  | _, _ => false
  end.

(** ** Correlation *)

(** The loop body for a node that is recognised by its own identity; the
    targets used so far are returned with the new one. *)
Definition correlate_identity current next (targets : list NodeId) source (node : Node)
    : result (list NodeId * NodeCorrelation) CorrelationError :=
  let? durable := match filter (λ i, supported_identity node i = true) (identities node) with
                   | [] => Err (CorrelationError.NoIdentity source)
                   | [i] => Ok i
                   | _ => Err (CorrelationError.AmbiguousSource source)
                   end in
  if negb (same_form durable node =? 1)%nat then Err (CorrelationError.AmbiguousSource source)
  else if negb (length (holders current.(CurrentState.graph) durable) =? 1)%nat
  then Err (CorrelationError.AmbiguousSource source)
  else match holders next.(CurrentState.graph) durable with
       | [] => Err (CorrelationError.MissingTarget source)
       | (target, candidate) :: more =>
           let '(new, targets) := set_insert target targets in
           if negb (bool_decide (more = [])) || negb new
           then Err (CorrelationError.AmbiguousTarget source)
           else
             let? _ := present target candidate in
             if negb (compatible_kinds node.(Node.kind).(NodeSpec.kind)
                        candidate.(Node.kind).(NodeSpec.kind))
             then Err (CorrelationError.KindChanged source target)
             else if negb (same_form durable candidate =? 1)%nat
             then Err (CorrelationError.AmbiguousTarget source)
             else Ok (targets, NodeCorrelation.mk source target durable)
       end.

Definition is_table graph id : bool :=
  match kind_of graph id with Some (NodeKind.PartitionTable _) => true | _ => false end.

Definition is_drive graph id : bool :=
  match kind_of graph id with
  | Some (NodeKind.Disk | NodeKind.NvmeNamespace _) => true
  | _ => false
  end.

Definition incoming graph id : list Dependency :=
  filter (λ d, d.(Dependency.to) = id) graph.(NodeGraph.dependencies).

(** The tables a drive backs, as edges. *)
Definition backed_tables graph id : list Dependency :=
  filter (λ d, d.(Dependency.from_) = id ∧ d.(Dependency.kind) = DependencyKind.Backs ∧
               is_table graph d.(Dependency.to) = true) graph.(NodeGraph.dependencies).

(** The error of a drive without identity is reported about its table. *)
Definition table_error source (e : Failure CorrelationError) : Failure CorrelationError :=
  match e with
  | Reported (CorrelationError.NoIdentity _) => Reported (CorrelationError.NoIdentity source)
  | e => e
  end.

Definition correlate_partition_table (correlate : list NodeId → correlating (list NodeCorrelation))
    current next source : correlating NodeCorrelation :=
  match incoming current.(CurrentState.graph) source with
  | [] => Err (Reported (CorrelationError.NoIdentity source))
  | parent :: more =>
      let drive := parent.(Dependency.from_) in
      if negb (bool_decide (more = []))
         || bool_decide (parent.(Dependency.kind) ≠ DependencyKind.Backs)
         || negb (is_drive current.(CurrentState.graph) drive)
         || negb (length (backed_tables current.(CurrentState.graph) drive) =? 1)%nat
      then Err (Reported (CorrelationError.AmbiguousSource source))
      else
        let? found := map_err (table_error source) (correlate [drive]) in
        let? matched := ok_or (last found) (Reported (CorrelationError.NoIdentity source)) in
        match backed_tables next.(CurrentState.graph) matched.(NodeCorrelation.target) with
        | [] => Err (Reported (CorrelationError.MissingTarget source))
        | edge :: more =>
            let target := edge.(Dependency.to) in
            if negb (bool_decide (more = []))
               || negb (length (incoming next.(CurrentState.graph) target) =? 1)%nat
            then Err (Reported (CorrelationError.AmbiguousTarget source))
            else
              let? node := ok_or (Graph.node next.(CurrentState.graph) target) Panicked in
              let? _ := report (present target node) in
              if bool_decide (kind_of current.(CurrentState.graph) source
                              ≠ Some node.(Node.kind).(NodeSpec.kind))
              then Err (Reported (CorrelationError.KindChanged source target))
              else Ok (NodeCorrelation.mk source target matched.(NodeCorrelation.identity))
        end
  end.

(** The loop body of [correlate_nodes] over [(seen, targets, result)]. *)
Definition correlate_source (table : NodeId → correlating NodeCorrelation) current next
    (acc : list NodeId * list NodeId * list NodeCorrelation) (source : NodeId)
    : correlating (list NodeId * list NodeId * list NodeCorrelation) :=
  let '(seen, targets, found) := acc in
  let '(new, seen) := set_insert source seen in
  if negb new then Ok (seen, targets, found)
  else
    let? node := report (ok_or (Graph.node current.(CurrentState.graph) source)
                           (CorrelationError.MissingSource source)) in
    let? _ := report (present source node) in
    match node.(Node.kind).(NodeSpec.kind) with
    | NodeKind.PartitionTable _ =>
        let? binding := table source in
        let '(new, targets) := set_insert binding.(NodeCorrelation.target) targets in
        if negb new then Err (Reported (CorrelationError.AmbiguousTarget source))
        else Ok (seen, targets, found ++ [binding])
    | _ =>
        let? (targets, binding) := report (correlate_identity current next targets source node) in
        Ok (seen, targets, found ++ [binding])
    end.

Fixpoint correlate_nodes_loop (fuel : nat) current next (selected : list NodeId)
    : correlating (list NodeCorrelation) :=
  match fuel with
  | 0 => Err OutOfFuel
  | S fuel =>
      let? _ := report (map_err CorrelationError.Structure
                          (validate_structure current.(CurrentState.graph))) in
      let? _ := report (map_err CorrelationError.Structure
                          (validate_structure next.(CurrentState.graph))) in
      let? acc := try_fold
        (correlate_source (correlate_partition_table (correlate_nodes_loop fuel current next)
                             current next) current next)
        ([], [], []) selected in
      Ok acc.2
  end.

(** A drive of a table is not a table: two levels. *)
Definition correlate_nodes current next (selected : list NodeId)
    : correlating (list NodeCorrelation) :=
  correlate_nodes_loop 2 current next selected.

(** ** What a correlation establishes *)

Record sole_holder graph identity id (node : Node) : Prop := {
  holder_node : Graph.node graph id = Some node;
  holder_has : identity ∈ identities node;
  holder_unique id' n' : Graph.node graph id' = Some n' → identity ∈ identities n' → id' = id }.

(** The same durable object: one supported identity, of which each graph has
    exactly one holder, both present and of compatible kinds. *)
Record identity_match current next source target identity (node candidate : Node) : Prop := {
  match_source : sole_holder current.(CurrentState.graph) identity source node;
  match_target : sole_holder next.(CurrentState.graph) identity target candidate;
  match_present : present source node = Ok tt ∧ present target candidate = Ok tt;
  match_supported :
    filter (λ i, supported_identity node i = true) (identities node) = [identity];
  match_form : same_form identity node = 1 ∧ same_form identity candidate = 1;
  match_kinds : compatible_kinds node.(Node.kind).(NodeSpec.kind)
                  candidate.(Node.kind).(NodeSpec.kind) = true }.

(** A table is the only one of its drive, in both graphs. *)
Record table_match current next source target identity (edge edge' : Dependency) : Prop := {
  table_incoming : incoming current.(CurrentState.graph) source = [edge];
  table_backed : edge.(Dependency.kind) = DependencyKind.Backs;
  table_drive : is_drive current.(CurrentState.graph) edge.(Dependency.from_) = true;
  table_alone : length (backed_tables current.(CurrentState.graph) edge.(Dependency.from_)) = 1;
  table_drives : ∃ node candidate, identity_match current next edge.(Dependency.from_)
    edge'.(Dependency.from_) identity node candidate;
  table_target : backed_tables next.(CurrentState.graph) edge'.(Dependency.from_) = [edge'];
  table_to : edge'.(Dependency.to) = target;
  table_target_incoming : length (incoming next.(CurrentState.graph) target) = 1;
  table_present : ∃ node node', Graph.node current.(CurrentState.graph) source = Some node ∧
    Graph.node next.(CurrentState.graph) target = Some node' ∧
    present source node = Ok tt ∧ present target node' = Ok tt ∧
    node.(Node.kind).(NodeSpec.kind) = node'.(Node.kind).(NodeSpec.kind) }.

Inductive correlated current next : NodeCorrelation → Prop :=
| by_identity source target identity node candidate :
    identity_match current next source target identity node candidate →
    correlated current next (NodeCorrelation.mk source target identity)
| by_drive source target identity edge edge' :
    is_table current.(CurrentState.graph) source = true →
    table_match current next source target identity edge edge' →
    correlated current next (NodeCorrelation.mk source target identity).

Lemma holders_sole graph identity id node :
  holders graph identity = [(id, node)] ↔ sole_holder graph identity id node.
Proof.
  assert (∀ id n, (id, n) ∈ holders graph identity ↔
    Graph.node graph id = Some n ∧ identity ∈ identities n) as Hin.
  { intros i n. unfold holders. rewrite list_elem_of_filter, elem_of_map_to_list. naive_solver. }
  split.
  - intros Heq. rewrite Heq in Hin. destruct (proj1 (Hin id node)) as [? ?]; [by left|].
    split; [done..|]. intros id' n' Hn' Hi'.
    pose proof (proj2 (Hin id' n') (conj Hn' Hi')) as Hm.
    apply list_elem_of_singleton in Hm. congruence.
  - intros [Hn Hi Hu]. apply Permutation_singleton_r, Permutation_sym.
    apply NoDup_Permutation; [apply NoDup_singleton|apply NoDup_filter, NoDup_map_to_list|].
    intros [id' n']. rewrite list_elem_of_singleton, Hin. split; [by intros [= -> ->]|].
    intros [Hn' Hi']. pose proof (Hu _ _ Hn' Hi') as ->. congruence.
Qed.

Lemma holders_none graph identity :
  length (holders graph identity) = 0 →
  ∀ id n, Graph.node graph id = Some n → identity ∉ identities n.
Proof.
  intros Hl id n Hn Hi. apply nil_length_inv in Hl.
  assert ((id, n) ∈ holders graph identity) as Hin.
  { unfold holders. by rewrite list_elem_of_filter, elem_of_map_to_list. }
  rewrite Hl in Hin. by apply elem_of_nil in Hin.
Qed.

Lemma holders_one graph identity id node :
  length (holders graph identity) = 1 → Graph.node graph id = Some node →
  identity ∈ identities node → sole_holder graph identity id node.
Proof.
  intros Hl Hn Hi. apply holders_sole.
  assert ((id, node) ∈ holders graph identity) as Hin.
  { unfold holders. by rewrite list_elem_of_filter, elem_of_map_to_list. }
  destruct (holders graph identity) as [|x [|]]; [done| |done].
  by apply list_elem_of_singleton in Hin as <-.
Qed.

Lemma supported_compatible node candidate identity :
  compatible_kinds node.(Node.kind).(NodeSpec.kind) candidate.(Node.kind).(NodeSpec.kind) = true →
  supported_identity node identity = true → supported_identity candidate identity = true.
Proof.
  unfold supported_identity.
  destruct node.(Node.kind).(NodeSpec.kind), candidate.(Node.kind).(NodeSpec.kind);
    simpl; try done; intros Hk; destruct identity; try done.
  by apply bool_decide_eq_true in Hk as ->.
Qed.

Lemma compatible_kinds_trans k1 k2 k3 :
  compatible_kinds k1 k2 = true → compatible_kinds k2 k3 = true → compatible_kinds k1 k3 = true.
Proof.
  destruct k1, k2; simpl; try done; destruct k3; simpl; try done;
    rewrite !bool_decide_eq_true; congruence.
Qed.

Lemma correlate_identity_spec current next targets source node targets' c :
  Graph.node current.(CurrentState.graph) source = Some node → present source node = Ok tt →
  correlate_identity current next targets source node = Ok (targets', c) ↔
  ∃ target identity candidate,
    c = NodeCorrelation.mk source target identity ∧ target ∉ targets ∧
    targets' = targets ++ [target] ∧
    identity_match current next source target identity node candidate.
Proof.
  intros Hn Hp. unfold correlate_identity.
  destruct (filter _ (identities node)) as [|i [|]] eqn:Hf;
    [by split; [|intros (?&?&?&_&_&_&[])]; congruence| |
     by split; [|intros (?&?&?&_&_&_&[])]; congruence].
  assert (i ∈ identities node) as Hi.
  { eapply (list_elem_of_filter (λ i, supported_identity node i = true)). rewrite Hf. by left. }
  split.
  - destruct (same_form i node =? 1) eqn:Hform; [|done]. apply Nat.eqb_eq in Hform. cbn [negb].
    destruct (length _ =? 1) eqn:Hlen; [|done]. apply Nat.eqb_eq in Hlen. cbn [negb].
    destruct (holders next.(CurrentState.graph) i) as [|[t cand] more] eqn:Hh; [done|].
    destruct (set_insert_cases t targets) as [[Ht ->]|[Ht ->]]; [|by rewrite orb_true_r].
    case_bool_decide as Hm; [|done]. subst more. cbn [negb orb].
    destruct (present t cand) as [[]|] eqn:Hpt; [|done].
    destruct (compatible_kinds _ _) eqn:Hk; [|done]. cbn [negb].
    destruct (same_form i cand =? 1) eqn:Hform'; [|done]. apply Nat.eqb_eq in Hform'. cbn [negb].
    intros [= <- <-]. exists t, i, cand. split_and!; [done..|].
    apply holders_sole in Hh. split; try done. by apply holders_one.
  - intros (t & j & cand & -> & Ht & -> & [Hs Hh [_ Hpt] Hf' [Hform Hform'] Hk]).
    rewrite Hf in Hf'. injection Hf' as <-. apply holders_sole in Hs, Hh.
    by rewrite Hform, Hs, Hh, set_insert_fresh, Hpt, Hk, Hform' by done.
Qed.

Lemma identity_match_trans a b d s t u i j n m m' k :
  identity_match a b s t i n m → identity_match b d t u j m' k →
  i = j ∧ m = m' ∧ identity_match a d s u i n k.
Proof.
  intros [Hs Ht [Hp _] Hf [Hn1 _] Hk] [Hs' Hu [_ Hpu] Hf' [_ Hn2] Hk'].
  assert (m = m') as <-.
  { pose proof (holder_node _ _ _ _ Ht). pose proof (holder_node _ _ _ _ Hs'). congruence. }
  assert (i = j) as <-; [|by split_and!; [..|split; try done; eapply compatible_kinds_trans]].
  assert (supported_identity n i = true) as Hsup.
  { assert (i ∈ filter (λ i, supported_identity n i = true) (identities n)) as Hin
      by (rewrite Hf; by left). by apply list_elem_of_filter in Hin as [? _]. }
  assert (i ∈ filter (λ i, supported_identity m i = true) (identities m)) as Hin.
  { apply list_elem_of_filter. split; [by eapply supported_compatible|apply Ht]. }
  rewrite Hf' in Hin. by apply list_elem_of_singleton in Hin.
Qed.

(** The loop: one correlation per selected node, to distinct targets. *)
Definition correlation_inv current next (selected : list NodeId)
    (acc : list NodeId * list NodeId * list NodeCorrelation) : Prop :=
  let '(seen, targets, found) := acc in
  seen = NodeCorrelation.source <$> found ∧ targets = NodeCorrelation.target <$> found ∧
  NoDup seen ∧ NoDup targets ∧ Forall (correlated current next) found ∧
  ∀ x, x ∈ seen ↔ x ∈ selected.

Lemma correlation_inv_push current next pre found c :
  correlation_inv current next pre
    (NodeCorrelation.source <$> found, NodeCorrelation.target <$> found, found) →
  correlated current next c →
  c.(NodeCorrelation.source) ∉ NodeCorrelation.source <$> found →
  c.(NodeCorrelation.target) ∉ NodeCorrelation.target <$> found →
  correlation_inv current next (pre ++ [c.(NodeCorrelation.source)])
    ((NodeCorrelation.source <$> found) ++ [c.(NodeCorrelation.source)],
     (NodeCorrelation.target <$> found) ++ [c.(NodeCorrelation.target)], found ++ [c]).
Proof.
  intros (_ & _ & Hs & Ht & Hc & Hx) Hcc Hns Hnt. unfold correlation_inv.
  rewrite !fmap_snoc, !NoDup_snoc, Forall_app, Forall_singleton. split_and!; try done.
  intros x. by rewrite !elem_of_app, Hx.
Qed.

Lemma is_table_kind graph id node :
  Graph.node graph id = Some node →
  is_table graph id = match node.(Node.kind).(NodeSpec.kind) with
                      | NodeKind.PartitionTable _ => true | _ => false end.
Proof. intros Hn. unfold is_table, kind_of. by rewrite Hn. Qed.

Lemma correlate_source_ok table current next pre acc source :
  (∀ node, Graph.node current.(CurrentState.graph) source = Some node →
     present source node = Ok tt → is_table current.(CurrentState.graph) source = true →
     returns (λ c, correlated current next c ∧ c.(NodeCorrelation.source) = source) (table source)) →
  correlation_inv current next pre acc →
  returns (correlation_inv current next (pre ++ [source]))
    (correlate_source table current next acc source).
Proof.
  intros Htable. destruct acc as [[seen targets] found].
  intros (-> & -> & Hs & Ht & Hc & Hx). unfold correlate_source.
  destruct (set_insert_cases source (NodeCorrelation.source <$> found)) as [[Hnew ->]|[Hseen ->]].
  2: { split_and!; try done. intros x. rewrite elem_of_app, list_elem_of_singleton, <-Hx.
       split; [by left|]. by intros [?| ->]. }
  cbn [negb]. destruct (Graph.node _ source) as [node|] eqn:Hn; [|done]. simpl.
  destruct (present source node) as [[]|] eqn:Hp; [|done]. simpl. pose proof (is_table_kind _ _ _ Hn) as Hk.
  destruct (is_table _ _) eqn:Htab.
  - destruct node.(Node.kind).(NodeSpec.kind); try done.
    eapply returns_bind; [by apply (Htable node)|]. intros c [Hcc <-].
    destruct (set_insert_cases c.(NodeCorrelation.target) (NodeCorrelation.target <$> found))
      as [[Ht' ->]|[_ ->]]; [|done].
    by apply correlation_inv_push.
  - assert (returns (correlation_inv current next (pre ++ [source]))
      (let? (targets, binding) := report (correlate_identity current next
         (NodeCorrelation.target <$> found) source node) in
       Ok ((NodeCorrelation.source <$> found) ++ [source], targets, found ++ [binding]))) as Hr;
      [|by destruct node.(Node.kind).(NodeSpec.kind)].
    eapply returns_bind; [by apply returns_report; intros a Ha; exact Ha|].
    intros [targets' c] (t & i & cand & -> & Ht' & -> & Hm)%correlate_identity_spec; [|done..].
    apply (correlation_inv_push _ _ _ _ (NodeCorrelation.mk source t i)); try done.
    by eapply by_identity.
Qed.

Lemma identity_match_not_table current next s t i n m :
  identity_match current next s t i n m → is_table current.(CurrentState.graph) s = false.
Proof.
  intros [Hs _ _ _ _ Hk]. rewrite (is_table_kind _ _ _ (holder_node _ _ _ _ Hs)).
  by destruct n.(Node.kind).(NodeSpec.kind).
Qed.

Section correlate.
Context current next.
Hypothesis current_wf : structure_wf current.(CurrentState.graph).
Hypothesis next_wf : structure_wf next.(CurrentState.graph).

Lemma correlate_loop_wf fuel selected :
  correlate_nodes_loop (S fuel) current next selected =
  let? acc := try_fold
    (correlate_source (correlate_partition_table (correlate_nodes_loop fuel current next)
                         current next) current next) ([], [], []) selected in
  Ok acc.2.
Proof.
  cbn [correlate_nodes_loop]. apply validate_structure_iff in current_wf, next_wf.
  by rewrite current_wf, next_wf.
Qed.

(** One node that is not a table. *)
Lemma correlate_one_identity fuel s cs :
  is_table current.(CurrentState.graph) s = false →
  correlate_nodes_loop (S fuel) current next [s] = Ok cs ↔
  ∃ t i n m, cs = [NodeCorrelation.mk s t i] ∧ identity_match current next s t i n m.
Proof.
  intros Htab. rewrite correlate_loop_wf. cbn [try_fold]. unfold correlate_source at 1.
  rewrite set_insert_fresh by apply not_elem_of_nil. cbn [negb app].
  destruct (Graph.node current.(CurrentState.graph) s) as [node|] eqn:Hn; simpl.
  2: { split; [done|]. intros (t & i & n & m & _ & [[Hn' _ _] _ _ _ _ _]). congruence. }
  destruct (present s node) as [[]|e] eqn:Hp; simpl.
  2: { split; [done|]. intros (t & i & n & m & _ & [[Hn' _ _] _ [Hp' _] _ _ _]). congruence. }
  rewrite (is_table_kind _ _ _ Hn) in Htab.
  assert (∀ A (x y : A), match node.(Node.kind).(NodeSpec.kind) with
    | NodeKind.PartitionTable _ => x | _ => y end = y) as Hcase.
  { intros. by destruct node.(Node.kind).(NodeSpec.kind). }
  rewrite Hcase. clear Hcase.
  destruct (correlate_identity current next [] s node) as [[targets c]|e] eqn:Hc; simpl.
  - apply correlate_identity_spec in Hc as (t & i & m & -> & _ & _ & Hm); [|done..].
    split; [intros [= <-]; by exists t, i, node, m|].
    intros (t' & i' & n' & m' & -> & Hm').
    assert (n' = node) as ->.
    { pose proof (holder_node _ _ _ _ (match_source _ _ _ _ _ _ _ Hm')). congruence. }
    assert (i' = i) as ->.
    { pose proof (match_supported _ _ _ _ _ _ _ Hm). pose proof (match_supported _ _ _ _ _ _ _ Hm').
      congruence. }
    do 3 f_equal. eapply (holder_unique _ _ _ _ (match_target _ _ _ _ _ _ _ Hm'));
      apply (match_target _ _ _ _ _ _ _ Hm).
  - split; [done|]. intros (t & i & n & m & _ & Hm).
    assert (n = node) as ->.
    { pose proof (holder_node _ _ _ _ (match_source _ _ _ _ _ _ _ Hm)). congruence. }
    assert (correlate_identity current next [] s node = Ok ([t], NodeCorrelation.mk s t i)) as Hok;
      [|congruence].
    apply correlate_identity_spec; [done..|]. exists t, i, m. split_and!; try done.
    apply not_elem_of_nil.
Qed.

Lemma correlate_loop_no_tables fuel s :
  is_table current.(CurrentState.graph) s = false →
  returns (λ _, True) (correlate_nodes_loop (S fuel) current next [s]).
Proof.
  intros Htab. rewrite correlate_loop_wf. cbn [try_fold].
  set (table := correlate_partition_table _ _ _).
  pose proof (correlate_source_ok table current next [] ([], [], []) s) as Hr.
  specialize (Hr ltac:(congruence)).
  assert (correlation_inv current next [] ([], [], [])) as H0 by (split_and!; try done; constructor).
  specialize (Hr H0). by destruct (correlate_source _ _ _ _ s) as [|[]].
Qed.

Lemma drive_not_table graph id : is_drive graph id = true → is_table graph id = false.
Proof. unfold is_drive, is_table. by destruct (kind_of graph id) as [[]|]. Qed.

(** A table, through its drive. *)
Lemma correlate_table_spec fuel s node c :
  Graph.node current.(CurrentState.graph) s = Some node → present s node = Ok tt →
  correlate_partition_table (correlate_nodes_loop (S fuel) current next) current next s = Ok c ↔
  ∃ t i e e', c = NodeCorrelation.mk s t i ∧ table_match current next s t i e e'.
Proof.
  intros Hn Hp. unfold correlate_partition_table. cbv zeta. split.
  - destruct (incoming current.(CurrentState.graph) s) as [|e more] eqn:Hin; [done|].
    destruct (_ || _) eqn:Hg; [done|].
    apply orb_false_iff in Hg as [[[Hm Hb]%orb_false_iff Hd]%orb_false_iff Ha].
    apply negb_false_iff in Hm, Hd, Ha. apply bool_decide_eq_true in Hm as ->.
    apply bool_decide_eq_false, dec_stable in Hb. apply Nat.eqb_eq in Ha.
    destruct (correlate_nodes_loop _ _ _ _) as [found|] eqn:Hf; [|done]. cbn [map_err].
    apply correlate_one_identity in Hf as (t & i & n & m & -> & Hm); [|by apply drive_not_table].
    cbn [last ok_or NodeCorrelation.target].
    destruct (backed_tables next.(CurrentState.graph) t) as [|e' more] eqn:Hbt; [done|].
    destruct (negb (bool_decide (more = [])) || _) eqn:Hg; [done|].
    apply orb_false_iff in Hg as [Hmore Hlen]. apply negb_false_iff in Hmore, Hlen.
    apply bool_decide_eq_true in Hmore as ->. apply Nat.eqb_eq in Hlen.
    assert (e' ∈ backed_tables next.(CurrentState.graph) t) as He' by (rewrite Hbt; by left).
    apply list_elem_of_filter in He' as [(<- & _ & _) _].
    destruct (Graph.node next.(CurrentState.graph) e'.(Dependency.to)) as [node'|] eqn:Hn'; [|done].
    cbn [ok_or]. destruct (present _ node') as [[]|] eqn:Hp'; [|done]. cbn [report map_err].
    case_bool_decide as Hk; [done|]. intros [= <-].
    unfold kind_of in Hk. rewrite Hn in Hk. simpl in Hk. injection Hk as Hk.
    exists e'.(Dependency.to), i, e, e'. split; [done|]. split; try done; eauto 10.
  - intros (t & i & e & e' & -> & [Hin Hb Hd Ha (n & m & Hm) Hbt <- Hlen
      (node0 & node' & Hn0 & Hn' & _ & Hp' & Hk)]).
    rewrite Hin. rewrite (bool_decide_eq_true_2 ([] = [])) by done. cbn [negb orb].
    rewrite (bool_decide_eq_false_2 (_ ≠ _)), Hd, Ha by (by intros []). cbn [negb orb Nat.eqb].
    rewrite (proj2 (correlate_one_identity fuel _ [NodeCorrelation.mk (e.(Dependency.from_))
      (e'.(Dependency.from_)) i] (drive_not_table _ _ Hd))) by (by exists e'.(Dependency.from_), i, n, m).
    cbn [map_err last ok_or NodeCorrelation.target]. rewrite Hbt, Hlen. cbn [bool_decide].
    rewrite bool_decide_eq_true_2 by done. cbn [negb orb Nat.eqb]. rewrite Hn'. cbn [ok_or].
    rewrite Hp'. cbn [report map_err]. unfold kind_of. rewrite Hn.
    rewrite bool_decide_eq_false_2; [done|]. intros Hne. apply Hne. simpl. congruence.
Qed.

Lemma correlate_table_total fuel s :
  returns (λ _, True)
    (correlate_partition_table (correlate_nodes_loop (S fuel) current next) current next s).
Proof.
  unfold correlate_partition_table. cbv zeta.
  destruct (incoming _ s) as [|e more]; [done|]. destruct (_ || _) eqn:Hg; [done|].
  apply orb_false_iff in Hg as [[_ Hd]%orb_false_iff _]. apply negb_false_iff in Hd.
  pose proof (correlate_loop_no_tables fuel _ (drive_not_table _ _ Hd)) as Hr.
  destruct (correlate_nodes_loop _ _ _ _) as [found|[err| |]]; [|by destruct err|done..].
  cbn [map_err]. destruct (last found) as [m|]; [|done]. cbn [ok_or].
  destruct (backed_tables _ _) as [|e' more'] eqn:Hbt; [done|]. destruct (_ || _); [done|].
  assert (is_table next.(CurrentState.graph) e'.(Dependency.to) = true) as Ht.
  { assert (e' ∈ backed_tables next.(CurrentState.graph) m.(NodeCorrelation.target)) as He
      by (rewrite Hbt; by left). by apply list_elem_of_filter in He as [(_ & _ & ?) _]. }
  unfold is_table, kind_of in Ht. destruct (Graph.node _ _) as [n|]; [|done]. cbn [ok_or].
  destruct (present _ n); [|done]. cbn [report map_err]. by case_bool_decide.
Qed.
End correlate.

(** An answer needs valid graphs. *)
Lemma correlate_nodes_graphs current next selected cs :
  correlate_nodes current next selected = Ok cs →
  structure_wf current.(CurrentState.graph) ∧ structure_wf next.(CurrentState.graph).
Proof.
  unfold correlate_nodes. cbn [correlate_nodes_loop]. rewrite <-!validate_structure_iff.
  destruct (validate_structure current.(CurrentState.graph)) as [[]|]; [|done].
  by destruct (validate_structure next.(CurrentState.graph)) as [[]|].
Qed.

Lemma correlate_nodes_returns current next selected :
  returns (λ cs,
      Forall (correlated current next) cs ∧
      NoDup (NodeCorrelation.source <$> cs) ∧ NoDup (NodeCorrelation.target <$> cs) ∧
      ∀ x, x ∈ NodeCorrelation.source <$> cs ↔ x ∈ selected)
    (correlate_nodes current next selected).
Proof.
  unfold correlate_nodes.
  destruct (validate_structure current.(CurrentState.graph)) as [[]|] eqn:Hc;
    [|cbn [correlate_nodes_loop]; by rewrite Hc].
  destruct (validate_structure next.(CurrentState.graph)) as [[]|] eqn:Hn;
    [|cbn [correlate_nodes_loop]; by rewrite Hc, Hn].
  apply validate_structure_iff in Hc, Hn. rewrite correlate_loop_wf by done.
  eapply returns_bind; [apply (returns_try_fold _ (correlation_inv current next))|].
  - split_and!; try done; constructor.
  - intros pre x post acc _ Hinv. apply correlate_source_ok; [|done]. intros node Hx Hp Htab.
    eapply returns_mono; [by apply returns_eq, (correlate_table_total current next Hc Hn 0)|].
    intros c [Hok _]. apply (correlate_table_spec current next Hc Hn 0 x node) in Hok; [|done..].
    destruct Hok as (t & i & e & e' & -> & Hm). split; [|done]. by eapply by_drive.
  - intros [[seen targets] found] (-> & -> & ? & ? & ? & ?). done.
Qed.

Lemma correlate_single current next s cs :
  correlate_nodes current next [s] = Ok cs ↔
  structure_wf current.(CurrentState.graph) ∧ structure_wf next.(CurrentState.graph) ∧
  ∃ c, cs = [c] ∧ c.(NodeCorrelation.source) = s ∧ correlated current next c.
Proof.
  split.
  - intros Hok. destruct (correlate_nodes_graphs _ _ _ _ Hok) as [? ?].
    pose proof (correlate_nodes_returns current next [s]) as Hr. rewrite Hok in Hr.
    destruct Hr as (Hall & Hnd & _ & Hx). split_and!; [done..|].
    destruct cs as [|c [|c' cs]].
    + exfalso. specialize (Hx s). set_solver.
    + exists c. split_and!; [done| |by apply Forall_singleton].
      apply list_elem_of_singleton, Hx. by left.
    + exfalso. simpl in Hnd. apply NoDup_cons in Hnd as [Hni _].
      assert (c.(NodeCorrelation.source) = s) as E1 by (apply list_elem_of_singleton, Hx; set_solver).
      assert (c'.(NodeCorrelation.source) = s) as E2 by (apply list_elem_of_singleton, Hx; set_solver).
      rewrite E1, <-E2 in Hni. set_solver.
  - intros (Hc & Hn & c & -> & <- & Hcor). unfold correlate_nodes.
    destruct Hcor as [s t i node cand Hm|s t i e e' Htab Hm]; cbn [NodeCorrelation.source].
    + apply correlate_one_identity; [done..| |by eauto 10]. by eapply identity_match_not_table.
    + rewrite correlate_loop_wf by done. cbn [try_fold]. unfold correlate_source at 1.
      rewrite set_insert_fresh by apply not_elem_of_nil.
      destruct (table_present _ _ _ _ _ _ _ Hm) as (node & _ & Hnode & _ & Hp & _ & _).
      rewrite Hnode. cbn [negb app report ok_or map_err]. rewrite Hp. cbn [report map_err].
      rewrite (is_table_kind _ _ _ Hnode) in Htab.
      destruct node.(Node.kind).(NodeSpec.kind); try done.
      rewrite (proj2 (correlate_table_spec current next Hc Hn 0 s node
        (NodeCorrelation.mk s t i) Hnode Hp)) by (by exists t, i, e, e').
      cbn [NodeCorrelation.target]. by rewrite set_insert_fresh by apply not_elem_of_nil.
Qed.

(** A table is recognised across two steps through the same drives. *)
Lemma table_match_trans a b d s t u i j e1 e2 e3 e4 :
  table_match a b s t i e1 e2 → table_match b d t u j e3 e4 →
  i = j ∧ table_match a d s u i e1 e4.
Proof.
  intros [Hin Hb Hd Ha (n & m & Hm) Hbt <- Hlen (v & v' & Hv & Hv' & Hpv & _ & Hk)]
    [Hin' Hb' Hd' Ha' (n' & m' & Hm') Hbt' <- Hlen' (w & w' & Hw & Hw' & _ & Hpw & Hk')].
  assert (e3 = e2) as ->.
  { assert (e2 ∈ incoming b.(CurrentState.graph) e2.(Dependency.to)) as He.
    { assert (e2 ∈ backed_tables b.(CurrentState.graph) e2.(Dependency.from_)) as He
        by (rewrite Hbt; by left).
      apply list_elem_of_filter in He as [_ ?]. by apply list_elem_of_filter. }
    rewrite Hin' in He. by apply list_elem_of_singleton in He. }
  destruct (identity_match_trans _ _ _ _ _ _ _ _ _ _ _ _ Hm Hm') as (<- & <- & Hmm).
  split; [done|]. split; try done; [eauto|]. exists v, w'. split_and!; try done. congruence.
Qed.

Lemma correlated_trans a b d c1 c2 :
  correlated a b c1 → correlated b d c2 → c1.(NodeCorrelation.target) = c2.(NodeCorrelation.source) →
  c1.(NodeCorrelation.identity) = c2.(NodeCorrelation.identity) ∧
  correlated a d (NodeCorrelation.mk c1.(NodeCorrelation.source) c2.(NodeCorrelation.target)
                    c1.(NodeCorrelation.identity)).
Proof.
  assert (∀ s t i e e' t' i' n n', table_match a b s t i e e' → is_table a.(CurrentState.graph) s = true →
    identity_match b d t t' i' n n' → False) as Hmix1.
  { intros s t i e e' t' i' n n' [_ _ _ _ _ _ _ _ (v & v' & Hv & Hv' & _ & _ & Hk)] Ht
      Hnt%identity_match_not_table.
    rewrite (is_table_kind _ _ _ Hv) in Ht. rewrite (is_table_kind _ _ _ Hv'), <-Hk in Hnt. congruence. }
  assert (∀ s t i n n', identity_match a b s t i n n' → is_table b.(CurrentState.graph) t = true →
    False) as Hmix2.
  { intros s t i n n' [_ [Ht _ _] _ _ _ Hk]. rewrite (is_table_kind _ _ _ Ht).
    by destruct n.(Node.kind).(NodeSpec.kind), n'.(Node.kind).(NodeSpec.kind). }
  intros [s t i n m Hm|s t i e e' Ht Hm] [s' t' i' n' m' Hm'|s' t' i' e1 e1' Ht' Hm']; simpl; intros <-.
  - destruct (identity_match_trans _ _ _ _ _ _ _ _ _ _ _ _ Hm Hm') as (<- & _ & ?).
    split; [done|]. by eapply by_identity.
  - by destruct (Hmix2 _ _ _ _ _ Hm Ht').
  - by destruct (Hmix1 _ _ _ _ _ _ _ _ _ Hm Ht Hm').
  - destruct (table_match_trans _ _ _ _ _ _ _ _ _ _ _ _ Hm Hm') as (<- & ?).
    split; [done|]. by eapply by_drive.
Qed.

(** ** Theorems *)

(** Correlation returns on every input; it finds one partner per selected node,
    never the same one twice, and every pair is the same durable object: the
    only holder of one supported identity in each graph, or the only table of
    such a drive. *)
Theorem correlate_nodes_sound current next selected :
  returns (λ cs,
      Forall (correlated current next) cs ∧
      NoDup (NodeCorrelation.source <$> cs) ∧ NoDup (NodeCorrelation.target <$> cs) ∧
      ∀ x, x ∈ NodeCorrelation.source <$> cs ↔ x ∈ selected)
    (correlate_nodes current next selected).
Proof. apply correlate_nodes_returns. Qed.

(** Correlations compose: an object followed through an intermediate
    observation is the object found by correlating directly, under the same
    identity. *)
Theorem correlate_nodes_compose a b d s c1 c2 :
  correlate_nodes a b [s] = Ok [c1] →
  correlate_nodes b d [c1.(NodeCorrelation.target)] = Ok [c2] →
  correlate_nodes a d [s] =
    Ok [NodeCorrelation.mk s c2.(NodeCorrelation.target) c1.(NodeCorrelation.identity)].
Proof.
  intros (Ha & Hb & c & [= <-] & <- & H1)%correlate_single
    (_ & Hd & c' & [= <-] & Hs & H2)%correlate_single.
  destruct (correlated_trans _ _ _ _ _ H1 H2) as [_ ?]; [done|].
  apply correlate_single. eauto 10.
Qed.
