(* ===== verification/Observe.v ===== *)
(** * Capacity of a baseline: [storage-engine/src/observe.rs]

    The probe reports free space of volume groups next to the graph of the same
    pass.  [from_lvm_observations] turns a record into capacity evidence when
    it names one present group of the graph exactly, and into a diagnostic
    otherwise. *)

From stdpp Require Import pretty.
From S2P Require Import Prelude Model Graph GraphOrder GraphValid State Action Contract Logical.
From S2P Require Import Evidence Effects Report Simulate Wire Observation Correlate.

Module LvmVgEntry.
Record LvmVgEntry := mk {
  name : string;
  uuid : string;
  size : N;
  extent_size : N;
  free : N;
  pv_count : N;
  exported : bool }.
End LvmVgEntry.
Abbreviation LvmVgEntry := LvmVgEntry.LvmVgEntry.

Module LvmVgObservation.
Record LvmVgObservation := mk { node : NodeId; vg : LvmVgEntry }.
End LvmVgObservation.
Abbreviation LvmVgObservation := LvmVgObservation.LvmVgObservation.

Implicit Types (snapshot : CurrentState) (record : LvmVgObservation) (vg : LvmVgEntry)
  (records : list LvmVgObservation) (graph : NodeGraph).

Abbreviation record_node r := (r.(LvmVgObservation.node)) (only parsing).
Abbreviation record_uuid r := (r.(LvmVgObservation.vg).(LvmVgEntry.uuid)) (only parsing).

(** [*map.entry(key).or_default() += 1] *)
Definition count_entry {K} `{Countable K} (m : gmap K nat) (key : K) : gmap K nat :=
  partial_alter (λ n, Some (S (default 0 n))) key m.

(** [map.entry(key).or_default().push(value)] *)
Definition push_entry {K V} `{Countable K} (m : gmap K (list V)) (key : K) (value : V)
    : gmap K (list V) :=
  partial_alter (λ l, Some (default [] l ++ [value])) key m.

Definition graph_uuids graph : gmap string (list NodeId) :=
  foldl (λ m (entry : NodeId * Node),
    foldl (λ m i, match i with ExternalId.LvmVgUuid uuid => push_entry m uuid entry.1 | _ => m end)
      m (identities entry.2)) ∅ (map_to_list graph.(NodeGraph.nodes)).

Definition is_vg_uuid (i : ExternalId) : bool :=
  match i with ExternalId.LvmVgUuid _ => true | _ => false end.

(** The record describes its node. *)
Definition matched_node graph record : bool :=
  let vg := record.(LvmVgObservation.vg) in
  is_some_and (λ node : Node,
      match node.(Node.kind).(NodeSpec.kind) with
      | NodeKind.LvmVg name (Some extent) =>
          bool_decide (name = vg.(LvmVgEntry.name)) && (extent =? vg.(LvmVgEntry.extent_size))%N
      | _ => false
      end
      && is_some_and (λ size, size =? vg.(LvmVgEntry.size))%N node.(Node.kind).(NodeSpec.size)
      && bool_decide (node.(Node.size).(NodeFacts.presence) = Presence.Present)
      && (length (List.filter is_vg_uuid (identities node)) =? 1)%nat)
    (Graph.node graph record.(LvmVgObservation.node)).

(** [u64::is_multiple_of]: only zero is a multiple of zero. *)
Definition is_multiple_of (a b : N) : bool :=
  match b with 0%N => (a =? 0)%N | _ => (a mod b =? 0)%N end.

Definition exact_extents vg : bool :=
  negb (vg.(LvmVgEntry.extent_size) =? 0)%N && (vg.(LvmVgEntry.free) <=? vg.(LvmVgEntry.size))%N
  && is_multiple_of vg.(LvmVgEntry.free) vg.(LvmVgEntry.extent_size)
  && is_multiple_of vg.(LvmVgEntry.size) vg.(LvmVgEntry.extent_size).

Definition unique_record (nodes : gmap NodeId nat) (uuids : gmap string nat)
    (in_graph : gmap string (list NodeId)) record : bool :=
  bool_decide (nodes !! record_node record = Some 1)
  && bool_decide (uuids !! record_uuid record = Some 1)
  && bool_decide (in_graph !! record_uuid record = Some [record_node record]).

Section observe.
(** [format!("{:?}")] of a string. *)
Variable debug : string → string.

Definition display_bool (b : bool) : string := if b then "true" else "false".

Definition capacity_unknown record : Diagnostic :=
  let vg := record.(LvmVgObservation.vg) in
  Diagnostic.mk "baseline.lvm_capacity_unknown" DiagnosticSeverity.MissingInformation
    [DiagnosticSubject.Node (record_node record)]
    "LVM capacity cannot be bound uniquely and exactly to this observed VG"
    (Some ("uuid=" +:+ debug vg.(LvmVgEntry.uuid) +:+ ", size=" +:+ pretty vg.(LvmVgEntry.size)
           +:+ ", free=" +:+ pretty vg.(LvmVgEntry.free)
           +:+ ", extent_size=" +:+ pretty vg.(LvmVgEntry.extent_size)
           +:+ ", exported=" +:+ display_bool vg.(LvmVgEntry.exported)))
    (Some "repeat the complete probe; inspect VG identity and extent measurements").

(** The loop body over [(diagnostics, capacity_evidence)]. *)
Definition bind_capacity graph nodes uuids in_graph
    (acc : list Diagnostic * list CapacityEvidence) record
    : list Diagnostic * list CapacityEvidence :=
  let vg := record.(LvmVgObservation.vg) in
  if matched_node graph record && exact_extents vg && unique_record nodes uuids in_graph record
     && negb vg.(LvmVgEntry.exported) && is_trimmed vg.(LvmVgEntry.uuid)
  then (acc.1, acc.2 ++ [CapacityEvidence.mk (AllocationDomain.LvmVolumeGroup (record_node record))
                           (vg.(LvmVgEntry.free) / vg.(LvmVgEntry.extent_size))])
  else (acc.1 ++ [capacity_unknown record], acc.2).

(** [HistoricalBaseline::from_lvm_observations]; the fresh identity is a parameter. *)
Definition from_lvm_observations (now : Uuid) snapshot records
    : result HistoricalBaseline PlanSimulationError :=
  let graph := snapshot.(CurrentState.graph) in
  let? _ := map_err PlanSimulationError.Structure (validate_structure graph) in
  let nodes := foldl (λ m r, count_entry m (record_node r)) ∅ records in
  let uuids := foldl (λ m r, count_entry m (record_uuid r)) ∅ records in
  let '(diagnostics, evidence) :=
    foldl (bind_capacity graph nodes uuids (graph_uuids graph))
      (snapshot.(CurrentState.diagnostics), []) records in
  Ok (HistoricalBaseline.mk now
        (CurrentState.mk graph snapshot.(CurrentState.mounts) snapshot.(CurrentState.environment)
           diagnostics) evidence).
End observe.

(** ** Specification *)

(** The record is the only one of a present group of the graph that has the
    recorded geometry and alone carries the recorded identity, and its sizes
    are whole extents. *)
Record measured_group snapshot records record : Prop := {
  group_node : ∃ n, sole_holder snapshot.(CurrentState.graph)
      (ExternalId.LvmVgUuid (record_uuid record)) (record_node record) n ∧
    n.(Node.kind) = NodeSpec.mk
      (NodeKind.LvmVg record.(LvmVgObservation.vg).(LvmVgEntry.name)
         (Some record.(LvmVgObservation.vg).(LvmVgEntry.extent_size)))
      (Some record.(LvmVgObservation.vg).(LvmVgEntry.size)) ∧
    n.(Node.size).(NodeFacts.presence) = Presence.Present ∧
    List.filter is_vg_uuid (identities n) = [ExternalId.LvmVgUuid (record_uuid record)];
  group_record : filter (λ r, record_node r = record_node record) records = [record];
  group_uuid : filter (λ r, record_uuid r = record_uuid record) records = [record];
  group_trimmed : is_trimmed (record_uuid record) = true;
  group_exported : record.(LvmVgObservation.vg).(LvmVgEntry.exported) = false;
  group_extents : ∃ free size,
    record.(LvmVgObservation.vg).(LvmVgEntry.free) =
      (free * record.(LvmVgObservation.vg).(LvmVgEntry.extent_size))%N ∧
    record.(LvmVgObservation.vg).(LvmVgEntry.size) =
      (size * record.(LvmVgObservation.vg).(LvmVgEntry.extent_size))%N ∧
    (free <= size)%N ∧ record.(LvmVgObservation.vg).(LvmVgEntry.extent_size) ≠ 0%N }.

(** ** Counting and collecting *)

Lemma count_lookup {A K} `{Countable K} (f : A → K) l k :
  foldl (λ m x, count_entry m (f x)) ∅ l !! k =
  match length (filter (λ x, f x = k) l) with 0 => None | n => Some n end.
Proof.
  induction l as [|x l IH] using rev_ind; [apply lookup_empty|].
  rewrite foldl_app, filter_app, length_app. simpl. unfold count_entry at 1.
  destruct (decide (f x = k)) as [<-|Hk].
  - rewrite lookup_partial_alter_eq, IH, filter_cons_True by done. simpl.
    rewrite Nat.add_1_r. by destruct (length _).
  - rewrite lookup_partial_alter_ne, IH, filter_cons_False by done. simpl. by rewrite Nat.add_0_r.
Qed.

Lemma push_lookup {K V} `{Countable K} (l : list (K * V)) k :
  foldl (λ m e, push_entry m e.1 e.2) ∅ l !! k =
  match (filter (λ e, e.1 = k) l).*2 with [] => None | vs => Some vs end.
Proof.
  induction l as [|[k' v] l IH] using rev_ind; [apply lookup_empty|].
  rewrite foldl_app, filter_app, fmap_app. simpl. unfold push_entry at 1.
  destruct (decide (k' = k)) as [->|Hk].
  - rewrite lookup_partial_alter_eq, IH, filter_cons_True by done. simpl.
    by destruct (filter _ l).*2.
  - rewrite lookup_partial_alter_ne, IH, filter_cons_False by done. simpl. by rewrite app_nil_r.
Qed.

(** The identities of groups, with their holders. *)
Definition vg_uuid (i : ExternalId) : option string :=
  match i with ExternalId.LvmVgUuid uuid => Some uuid | _ => None end.
Definition vg_identities (entry : NodeId * Node) : list (string * NodeId) :=
  (λ uuid, (uuid, entry.1)) <$> omap vg_uuid (identities entry.2).

Lemma graph_uuids_pairs graph :
  graph_uuids graph =
  foldl (λ m e, push_entry m e.1 e.2) ∅ (map_to_list graph.(NodeGraph.nodes) ≫= vg_identities).
Proof.
  unfold graph_uuids. generalize (∅ : gmap string (list NodeId)).
  induction (map_to_list _) as [|e l IH]; intros m; [done|]. cbn [foldl mbind list_bind].
  rewrite foldl_app, IH. f_equal. unfold vg_identities. revert m.
  induction (identities e.2) as [|i ids IHi]; intros m; [done|].
  cbn [foldl]. rewrite IHi. by destruct i.
Qed.

Lemma elem_of_vg_identities u id (e : NodeId * Node) :
  (u, id) ∈ vg_identities e ↔ id = e.1 ∧ ExternalId.LvmVgUuid u ∈ identities e.2.
Proof.
  unfold vg_identities. rewrite list_elem_of_fmap. setoid_rewrite list_elem_of_omap. split.
  - intros (? & [= <- ->] & i & Hi & Hu). by destruct i; simplify_eq/=.
  - intros [-> Hi]. eauto 6.
Qed.

Definition occurrences (u : string) (n : Node) : nat :=
  length (filter (λ i, i = ExternalId.LvmVgUuid u) (identities n)).

Lemma occurrences_pos u n : occurrences u n ≠ 0 ↔ ExternalId.LvmVgUuid u ∈ identities n.
Proof.
  unfold occurrences. split.
  - destruct (filter _ _) as [|i l] eqn:Hf; [done|]. intros _.
    assert (i ∈ filter (λ i, i = ExternalId.LvmVgUuid u) (identities n)) as [-> ?]%list_elem_of_filter
      by (rewrite Hf; left). done.
  - intros Hu Hl%nil_length_inv.
    assert (ExternalId.LvmVgUuid u ∈ filter (λ i, i = ExternalId.LvmVgUuid u) (identities n)) as Hf
      by by apply list_elem_of_filter. rewrite Hl in Hf. by apply elem_of_nil in Hf.
Qed.

Lemma vg_identities_filter u e :
  (filter (λ p, p.1 = u) (vg_identities e)).*2 =
  replicate (occurrences u e.2) e.1.
Proof.
  unfold vg_identities, occurrences. induction (identities e.2) as [|i ids IH]; [done|].
  destruct (decide (i = ExternalId.LvmVgUuid u)) as [->|Hi].
  - rewrite filter_cons_True by done. simpl. rewrite filter_cons_True by done. cbn [fmap list_fmap snd]. by f_equal.
  - rewrite filter_cons_False by done. destruct i; try exact IH. simpl.
    rewrite filter_cons_False by (simpl; congruence). exact IH.
Qed.

Lemma filter_bind_snd {A} (P : string * NodeId → Prop) `{∀ x, Decision (P x)}
    (f : A → list (string * NodeId)) l :
  (filter P (l ≫= f)).*2 = l ≫= λ a, (filter P (f a)).*2.
Proof. induction l as [|a l IH]; [done|]. cbn [mbind list_bind]. by rewrite filter_app, fmap_app, IH. Qed.

Lemma map_to_list_split graph id n :
  Graph.node graph id = Some n →
  ∃ l1 l2, map_to_list graph.(NodeGraph.nodes) = l1 ++ (id, n) :: l2 ∧
    ∀ e, e ∈ l1 ++ l2 → Graph.node graph e.1 = Some e.2 ∧ e.1 ≠ id.
Proof.
  intros Hn. assert ((id, n) ∈ map_to_list graph.(NodeGraph.nodes)) as Hin
    by by apply elem_of_map_to_list.
  destruct (list_elem_of_split _ _ Hin) as (l1 & l2 & Hl). exists l1, l2. split; [done|].
  intros [id' n'] He. simpl.
  assert ((id', n') ∈ map_to_list graph.(NodeGraph.nodes)) as Hin'
    by (rewrite Hl; apply elem_of_app in He; set_solver).
  split; [by apply elem_of_map_to_list in Hin'|]. intros ->.
  pose proof (NoDup_fst_map_to_list graph.(NodeGraph.nodes)) as Hnd.
  rewrite Hl, fmap_app, fmap_cons, NoDup_app, NoDup_cons in Hnd. simpl in Hnd.
  destruct Hnd as (_ & Hd & Hn2 & _). apply elem_of_app in He as [He|He].
  - apply (Hd id); [|by left]. by apply (list_elem_of_fmap_2 fst) in He.
  - apply Hn2. by apply (list_elem_of_fmap_2 fst) in He.
Qed.

(** The holders of an identity, once per occurrence. *)
Definition uuid_holders graph (u : string) : list NodeId :=
  map_to_list graph.(NodeGraph.nodes) ≫= λ e,
    replicate (occurrences u e.2) e.1.

Lemma graph_uuids_holders graph u :
  graph_uuids graph !! u = match uuid_holders graph u with [] => None | l => Some l end.
Proof.
  rewrite graph_uuids_pairs, push_lookup, filter_bind_snd. unfold uuid_holders.
  by erewrite (list_bind_ext _ _ _ _ (λ e, vg_identities_filter u e)).
Qed.

Lemma elem_of_uuid_holders graph u id :
  id ∈ uuid_holders graph u ↔
  ∃ n, Graph.node graph id = Some n ∧ ExternalId.LvmVgUuid u ∈ identities n.
Proof.
  unfold uuid_holders. rewrite list_elem_of_bind. setoid_rewrite elem_of_replicate. split.
  - intros ([id' n] & [-> Hl%occurrences_pos] & Hm%elem_of_map_to_list). by exists n.
  - intros (n & Hn & Hu%occurrences_pos). exists (id, n). by rewrite elem_of_map_to_list.
Qed.

(** A single entry of the index: one holder, which has the identity once. *)
Lemma graph_uuids_sole graph u id :
  graph_uuids graph !! u = Some [id] ↔
  ∃ n, sole_holder graph (ExternalId.LvmVgUuid u) id n ∧ occurrences u n = 1.
Proof.
  rewrite graph_uuids_holders.
  transitivity (uuid_holders graph u = [id]); [destruct (uuid_holders graph u); naive_solver|].
  pose proof (elem_of_uuid_holders graph u) as Hin. split.
  - intros Hf. destruct (proj1 (Hin id)) as (n & Hn & Hu); [rewrite Hf; by left|].
    exists n. split; [split; [done..|]|].
    + intros id' n' Hn' Hu'. apply list_elem_of_singleton. rewrite <-Hf. apply Hin. eauto.
    + destruct (map_to_list_split _ _ _ Hn) as (l1 & l2 & Hl & _).
      apply (f_equal length) in Hf. unfold uuid_holders in Hf.
      rewrite Hl, bind_app, bind_cons, !length_app, length_replicate in Hf. simpl in Hf.
      apply occurrences_pos in Hu. lia.
  - intros (n & [Hn Hu Hsole] & Hone). destruct (map_to_list_split _ _ _ Hn) as (l1 & l2 & Hl & Ho).
    unfold uuid_holders. rewrite Hl, bind_app, bind_cons. cbn [fst snd]. rewrite Hone.
    assert (∀ l, (∀ e, e ∈ l → e ∈ l1 ++ l2) →
      (l ≫= λ e : NodeId * Node, replicate (occurrences u e.2) e.1) = []) as Hnil.
    { intros l Hsub. apply elem_of_nil_inv.
      intros x (e & [_ Hx%occurrences_pos]%elem_of_replicate & He)%list_elem_of_bind.
      destruct (Ho e (Hsub e He)) as [He1 []]. by apply (Hsole _ _ He1). }
    rewrite !Hnil; [done|set_solver..].
Qed.

(** ** The check is the specification *)

Definition accepts snapshot records record : bool :=
  let vg := record.(LvmVgObservation.vg) in
  matched_node snapshot.(CurrentState.graph) record && exact_extents vg &&
  unique_record (foldl (λ m r, count_entry m (record_node r)) ∅ records)
    (foldl (λ m r, count_entry m (record_uuid r)) ∅ records)
    (graph_uuids snapshot.(CurrentState.graph)) record &&
  negb vg.(LvmVgEntry.exported) && is_trimmed vg.(LvmVgEntry.uuid).

Lemma is_multiple_of_spec a b : b ≠ 0%N → is_multiple_of a b = true ↔ ∃ q, a = (q * b)%N.
Proof.
  intros Hb. unfold is_multiple_of. destruct b as [|b]; [done|].
  rewrite N.eqb_eq, N.Div0.mod_divides. split; intros [q ->]; exists q; lia.
Qed.

Lemma exact_extents_spec vg :
  exact_extents vg = true ↔
  ∃ free size, vg.(LvmVgEntry.free) = (free * vg.(LvmVgEntry.extent_size))%N ∧
    vg.(LvmVgEntry.size) = (size * vg.(LvmVgEntry.extent_size))%N ∧
    (free <= size)%N ∧ vg.(LvmVgEntry.extent_size) ≠ 0%N.
Proof.
  unfold exact_extents. rewrite !andb_true_iff, negb_true_iff, N.eqb_neq, N.leb_le. split.
  - intros [[[Hx Hl] Hf] Hs]. apply is_multiple_of_spec in Hf as [f Hf]; [|done].
    apply is_multiple_of_spec in Hs as [s Hs]; [|done]. exists f, s. split_and!; [done..| |done]. nia.
  - intros (f & s & Hf & Hs & Hl & Hx). rewrite !is_multiple_of_spec by done.
    split_and!; [done| |by exists f|by exists s]. nia.
Qed.

Lemma count_one {A K} `{Countable K} (f : A → K) l x :
  x ∈ l → foldl (λ m y, count_entry m (f y)) ∅ l !! f x = Some 1 ↔ filter (λ y, f y = f x) l = [x].
Proof.
  intros Hx. rewrite count_lookup.
  assert (x ∈ filter (λ y, f y = f x) l) as Hin by by apply list_elem_of_filter.
  destruct (filter _ l) as [|y [|]]; [by apply elem_of_nil in Hin| |naive_solver].
  apply list_elem_of_singleton in Hin as <-. done.
Qed.

(** One identity of the group form: the filter and the count agree. *)
Lemma one_vg_uuid n u :
  length (List.filter is_vg_uuid (identities n)) = 1 ∧ occurrences u n = 1 ↔
  List.filter is_vg_uuid (identities n) = [ExternalId.LvmVgUuid u].
Proof.
  assert (occurrences u n =
    length (filter (λ i, i = ExternalId.LvmVgUuid u) (List.filter is_vg_uuid (identities n)))) as ->.
  { unfold occurrences. induction (identities n) as [|i l IH]; [done|].
    destruct i; simpl; try exact IH. rewrite !filter_cons. by case_decide; simpl; rewrite IH. }
  split; [|intros ->; by rewrite filter_cons_True].
  destruct (List.filter _ _) as [|i [|]]; [by intros []| |by intros []].
  intros [_ Hi]. rewrite filter_cons in Hi. by case_decide; [subst|].
Qed.

Lemma matched_node_spec graph record :
  matched_node graph record = true ↔
  ∃ n, Graph.node graph (record_node record) = Some n ∧
    n.(Node.kind) = NodeSpec.mk
      (NodeKind.LvmVg record.(LvmVgObservation.vg).(LvmVgEntry.name)
         (Some record.(LvmVgObservation.vg).(LvmVgEntry.extent_size)))
      (Some record.(LvmVgObservation.vg).(LvmVgEntry.size)) ∧
    n.(Node.size).(NodeFacts.presence) = Presence.Present ∧
    length (List.filter is_vg_uuid (identities n)) = 1.
Proof.
  unfold matched_node. destruct (Graph.node _ _) as [n|]; simpl; [|naive_solver].
  rewrite !andb_true_iff, bool_decide_eq_true, Nat.eqb_eq. split.
  - intros [[[Hk Hs] Hp] Hl]. exists n. split_and!; try done.
    destruct n as [[kind size] facts]; simpl in *. destruct size as [size|]; [|done].
    apply N.eqb_eq in Hs as ->. f_equal. destruct kind; try done.
    destruct extent_size; [|done]. apply andb_true_iff in Hk as [->%bool_decide_eq_true ->%N.eqb_eq].
    done.
  - intros (? & [= <-] & Hk & Hp & Hl). rewrite Hk. simpl.
    by rewrite bool_decide_eq_true_2, !N.eqb_refl.
Qed.

Lemma accepts_spec snapshot records record :
  record ∈ records → accepts snapshot records record = true ↔ measured_group snapshot records record.
Proof.
  intros Hin. unfold accepts, unique_record.
  rewrite !andb_true_iff, !bool_decide_eq_true, negb_true_iff, matched_node_spec, exact_extents_spec.
  rewrite (count_one (λ r, record_node r)), (count_one (λ r, record_uuid r)), graph_uuids_sole by done.
  split.
  - intros [[[[(n & Hn & Hk & Hp & Hl) Hx] [[Hr Hu] (n' & Hs & Ho)]] He] Ht].
    assert (n' = n) as -> by (destruct Hs; congruence).
    split; try done. exists n. split_and!; try done. by apply one_vg_uuid.
  - intros [(n & Hs & Hk & Hp & [Hl Ho]%one_vg_uuid) Hr Hu Ht He Hx].
    split_and!; try done; exists n; [|done]. split_and!; try done. by destruct Hs.
Qed.

Lemma bind_capacity_fold debug snapshot records acc l :
  foldl (bind_capacity debug snapshot.(CurrentState.graph)
      (foldl (λ m r, count_entry m (record_node r)) ∅ records)
      (foldl (λ m r, count_entry m (record_uuid r)) ∅ records)
      (graph_uuids snapshot.(CurrentState.graph))) acc l =
  (acc.1 ++ (capacity_unknown debug <$> filter (λ r, accepts snapshot records r = false) l),
   acc.2 ++ ((λ r, CapacityEvidence.mk (AllocationDomain.LvmVolumeGroup (record_node r))
       (r.(LvmVgObservation.vg).(LvmVgEntry.free) / r.(LvmVgObservation.vg).(LvmVgEntry.extent_size)))
     <$> filter (λ r, accepts snapshot records r = true) l)).
Proof.
  revert acc. induction l as [|r l IH]; intros acc.
  { simpl. rewrite !app_nil_r. by destruct acc. }
  cbn [foldl]. rewrite IH. unfold bind_capacity.
  change (_ && _ && _ && _ && _) with (accepts snapshot records r).
  rewrite !filter_cons. destruct (accepts snapshot records r); simpl; by rewrite <-app_assoc.
Qed.

Lemma evidence_new_accepts capacity :
  NoDup (CapacityEvidence.domain <$> capacity) → is_ok (evidence_new capacity) = true.
Proof.
  unfold evidence_new. intros Hnd.
  assert (∀ ev, (∀ c, c ∈ capacity →
      ev.(SimulationEvidence.available_capacity) !! c.(CapacityEvidence.domain) = None) →
    is_ok (try_fold (λ ev item,
      match ev.(SimulationEvidence.available_capacity) !! item.(CapacityEvidence.domain) with
      | Some _ => Err (CapacityEvidenceError.DuplicateDomain item.(CapacityEvidence.domain))
      | None => Ok (set_capacity (<[item.(CapacityEvidence.domain) := item.(CapacityEvidence.available)]>
                       ev.(SimulationEvidence.available_capacity)) ev)
      end) ev capacity) = true) as Hf; [|by apply Hf].
  induction capacity as [|c l IH]; intros ev Hnone; [done|]. cbn [try_fold].
  rewrite (Hnone c) by left. apply NoDup_cons in Hnd as [Hc Hnd]. apply IH; [done|].
  intros c' Hc'. destruct ev. cbn [SimulationEvidence.available_capacity set_capacity].
  rewrite lookup_insert_ne; [apply Hnone; by right|].
  intros Heq. apply Hc. rewrite Heq. by apply (list_elem_of_fmap_2 CapacityEvidence.domain).
Qed.

Lemma NoDup_unique_keys {A K} `{EqDecision K} (f : A → K) (P : A → Prop) `{∀ x, Decision (P x)} l :
  (∀ x, x ∈ l → P x → length (filter (λ y, f y = f x) l) ≤ 1) → NoDup (f <$> filter P l).
Proof.
  induction l as [|a l IH]; intros Hl; [constructor|].
  assert (NoDup (f <$> filter P l)) as Hnd.
  { apply IH. intros x Hx HP. specialize (Hl x (list_elem_of_further _ _ _ Hx) HP).
    rewrite filter_cons in Hl. case_decide; simpl in Hl; lia. }
  rewrite filter_cons. case_decide as HP; [|done]. apply NoDup_cons. split; [|done].
  intros (x & Hx & [_ Hin]%list_elem_of_filter)%list_elem_of_fmap.
  specialize (Hl a (list_elem_of_here _ _) HP). rewrite filter_cons_True in Hl by done.
  assert (x ∈ filter (λ y, f y = f a) l) as Hf by by apply list_elem_of_filter.
  simpl in Hl. apply le_S_n, Nat.le_0_r, nil_length_inv in Hl. rewrite Hl in Hf. by apply elem_of_nil in Hf.
Qed.

(** ** Theorem *)

(** Capacity of a baseline: apart from diagnostics the observed state is kept;
    a record becomes evidence exactly when it is the only record of one present
    group that the graph identifies and measures alike, with its free space in
    whole extents; every other record leaves a diagnostic; and the evidence is
    accepted by the simulator. *)
Theorem from_lvm_observations_spec debug now snapshot records :
  match from_lvm_observations debug now snapshot records with
  | Err e => ∃ g, e = PlanSimulationError.Structure g ∧
                  validate_structure snapshot.(CurrentState.graph) = Err g
  | Ok b =>
      (∃ unknown, b.(HistoricalBaseline.snapshot) =
         CurrentState.mk snapshot.(CurrentState.graph) snapshot.(CurrentState.mounts)
           snapshot.(CurrentState.environment)
           (snapshot.(CurrentState.diagnostics) ++ (capacity_unknown debug <$> unknown)) ∧
         ∀ r, r ∈ unknown ↔ r ∈ records ∧ ¬ measured_group snapshot records r) ∧
      (∀ group amount,
         CapacityEvidence.mk (AllocationDomain.LvmVolumeGroup group) amount
           ∈ b.(HistoricalBaseline.capacity_evidence) ↔
         ∃ r, r ∈ records ∧ measured_group snapshot records r ∧ record_node r = group ∧
           (amount * r.(LvmVgObservation.vg).(LvmVgEntry.extent_size))%N =
             r.(LvmVgObservation.vg).(LvmVgEntry.free)) ∧
      is_ok (evidence_new b.(HistoricalBaseline.capacity_evidence)) = true
  end.
Proof.
  unfold from_lvm_observations. destruct (validate_structure _) as [[]|g]; simpl; [|eauto].
  rewrite bind_capacity_fold. simpl. split_and!.
  - eexists. split; [done|]. intros r. rewrite list_elem_of_filter. split.
    + intros [Hr Hin]. split; [done|]. rewrite <-(accepts_spec snapshot) by done. congruence.
    + intros [Hin Hm]. split; [|done]. rewrite <-(accepts_spec snapshot) in Hm by done.
      by apply not_true_iff_false.
  - intros group amount. rewrite list_elem_of_fmap. setoid_rewrite list_elem_of_filter. split.
    + intros (r & [= -> ->] & Hr & Hin). apply (accepts_spec snapshot) in Hr; [|done].
      exists r. split_and!; try done. destruct Hr as [_ _ _ _ _ (f & s & -> & _ & _ & Hx)].
      by rewrite N.div_mul.
    + intros (r & Hin & Hm & <- & Ha). exists r. apply (accepts_spec snapshot) in Hm as Hr; [|done].
      split; [|done]. rewrite <-Ha. destruct Hm as [_ _ _ _ _ (f & s & _ & _ & _ & Hx)].
      by rewrite N.div_mul.
  - apply evidence_new_accepts. rewrite <-list_fmap_compose. 
    rewrite (list_fmap_compose (λ r, record_node r) AllocationDomain.LvmVolumeGroup).
    apply NoDup_fmap_2; [by intros ?? [=]|].
    apply NoDup_unique_keys. intros r Hin Hr. apply (accepts_spec snapshot) in Hr; [|done].
    destruct Hr as [_ -> _ _ _ _]. done.
Qed.
