(* ===== verification/Execution.v ===== *)
(** * Execution runs: [storage-engine/src/execution.rs]

    One serial execution attempt over a frozen plan.  A method with [&mut self]
    is a computation in the state monad below: it returns the run it leaves
    behind next to its [Result], so that a mutation made before an early return
    is visible. *)

From S2P Require Import Prelude Model Graph GraphOrder GraphValid State Action Contract Evidence.
From S2P Require Import Prerequisites Effects Report PlanOrder Compose ComposeProps Simulate.
From S2P Require Import SimulateProps Wire Observation.

Definition MAX_RUN_EVENTS : nat := 1024.
Definition MAX_PROGRESS_BYTES : nat := 4096.

Module ActionRunState.
Inductive ActionRunState :=
| Waiting | Checking | Admitted_ | Running | Verifying | Verified | Failed | OutcomeUnknown.
#[global] Instance ActionRunState_eq_dec : EqDecision ActionRunState.
Proof. solve_decision. Defined.
End ActionRunState.
Abbreviation ActionRunState := ActionRunState.ActionRunState.

Module AdmissionReport.
Record AdmissionReport := mk {
  run_id : Uuid;
  action : ActionId;
  observation : LiveObservation;
  applicability : LiveCheckStatus;
  held_resources : list ResourceAccess;
  checks : list (LiveCheck ActionPrerequisite) }.
#[global] Instance AdmissionReport_eq_dec : EqDecision AdmissionReport.
Proof. solve_decision. Defined.
End AdmissionReport.
Abbreviation AdmissionReport := AdmissionReport.AdmissionReport.

Module BackendOutcome.
Inductive BackendOutcome :=
| Succeeded
| Failed (reason : string)
| OutcomeUnknown (reason : string).
#[global] Instance BackendOutcome_eq_dec : EqDecision BackendOutcome.
Proof. solve_decision. Defined.
End BackendOutcome.
Abbreviation BackendOutcome := BackendOutcome.BackendOutcome.

Module BackendCompletion.
Record BackendCompletion := mk {
  run_id : Uuid;
  action : ActionId;
  outcome : BackendOutcome;
  observation : LiveObservation }.
#[global] Instance BackendCompletion_eq_dec : EqDecision BackendCompletion.
Proof. solve_decision. Defined.
End BackendCompletion.
Abbreviation BackendCompletion := BackendCompletion.BackendCompletion.

Module VerificationReport.
Record VerificationReport := mk {
  run_id : Uuid;
  action : ActionId;
  observation : ObservationReference;
  checks : list (LiveCheck Postcondition) }.
#[global] Instance VerificationReport_eq_dec : EqDecision VerificationReport.
Proof. solve_decision. Defined.
End VerificationReport.
Abbreviation VerificationReport := VerificationReport.VerificationReport.

Module GoalVerificationReport.
Record GoalVerificationReport := mk {
  run_id : Uuid;
  observation : LiveObservation;
  checks : list (LiveCheck GoalAspect);
  preservation : LiveCheckStatus }.
#[global] Instance GoalVerificationReport_eq_dec : EqDecision GoalVerificationReport.
Proof. solve_decision. Defined.
End GoalVerificationReport.
Abbreviation GoalVerificationReport := GoalVerificationReport.GoalVerificationReport.

Module RunEventKind.
Inductive RunEventKind :=
| ActionState (action : ActionId) (state : ActionRunState)
| Progress (action : ActionId) (detail : string)
| Admission (action : ActionId) (admitted : bool)
| GoalVerification (verified : bool).
#[global] Instance RunEventKind_eq_dec : EqDecision RunEventKind.
Proof. solve_decision. Defined.
End RunEventKind.
Abbreviation RunEventKind := RunEventKind.RunEventKind.

Module RunEvent.
Record RunEvent := mk { run_id : Uuid; sequence : N; kind : RunEventKind }.
#[global] Instance RunEvent_eq_dec : EqDecision RunEvent.
Proof. solve_decision. Defined.
End RunEvent.
Abbreviation RunEvent := RunEvent.RunEvent.

Module EventsPage.
Record EventsPage := mk { events : list RunEvent; next_sequence : N; gap : bool }.
#[global] Instance EventsPage_eq_dec : EqDecision EventsPage.
Proof. solve_decision. Defined.
End EventsPage.
Abbreviation EventsPage := EventsPage.EventsPage.

Module ActionStatus.
Record ActionStatus := mk {
  action : ActionId;
  state : ActionRunState;
  applicability : option LiveCheckStatus;
  admission_observation : option ObservationReference;
  completion_observation : option ObservationReference;
  prerequisites : list (LiveCheck ActionPrerequisite);
  outcome : option BackendOutcome;
  postconditions : option (list (LiveCheck Postcondition));
  pre_dispatch_failure : option string;
  unknown_reason : option string }.
#[global] Instance ActionStatus_eq_dec : EqDecision ActionStatus.
Proof. solve_decision. Defined.
End ActionStatus.
Abbreviation ActionStatus := ActionStatus.ActionStatus.

Module RunSnapshot.
Record RunSnapshot := mk {
  run_id : Uuid;
  plan_id : Uuid;
  actions : list ActionStatus;
  finished : bool;
  verified : bool;
  event_sequence : N;
  observation : option LiveObservation;
  goal_verification : option GoalVerificationReport }.
#[global] Instance RunSnapshot_eq_dec : EqDecision RunSnapshot.
Proof. solve_decision. Defined.
End RunSnapshot.
Abbreviation RunSnapshot := RunSnapshot.RunSnapshot.

Module ActionRun.
Record ActionRun := mk {
  state : ActionRunState;
  admission : option AdmissionReport;
  completion : option BackendCompletion;
  verification : option VerificationReport;
  pre_dispatch_failure : option string;
  unknown_reason : option string }.
#[global] Instance ActionRun_eq_dec : EqDecision ActionRun.
Proof. solve_decision. Defined.
Definition waiting : ActionRun := mk ActionRunState.Waiting None None None None None.
End ActionRun.
Abbreviation ActionRun := ActionRun.ActionRun.

Module ExecutionRun.
Record ExecutionRun := mk {
  run_id : Uuid;
  document : PlanDocument;
  plan : ExecutionPlan;
  actions : list ActionRun;
  latest_observation : option LiveObservation;
  goal_aspects : list GoalAspect;
  goal_verification : option GoalVerificationReport;
  events : list RunEvent;
  next_event_sequence : N }.
#[global] Instance ExecutionRun_eq_dec : EqDecision ExecutionRun.
Proof. solve_decision. Defined.
End ExecutionRun.
Abbreviation ExecutionRun := ExecutionRun.ExecutionRun.

Module ExecutionRunError.
Inductive ExecutionRunError :=
| Document (e : PlanDocumentError)
| UnknownAction (a : ActionId)
| InvalidTransition (action : ActionId) (state : ActionRunState)
| PredecessorNotVerified (action predecessor : ActionId)
| ActiveAction
| RunStopped
| ReportMismatch
| IncompleteChecks
| MissingResources
| StaleObservation
| InvalidObservation (e : ObservationError)
| ActionsNotVerified
| EventSequenceExhausted
| InvalidEventCursor (requested latest : N)
| ProgressTooLarge.
#[global] Instance ExecutionRunError_eq_dec : EqDecision ExecutionRunError.
Proof. solve_decision. Defined.
End ExecutionRunError.
Abbreviation ExecutionRunError := ExecutionRunError.ExecutionRunError.

Abbreviation executing A := (result A (Failure ExecutionRunError)) (only parsing).

(** ** The state monad of [&mut self] methods *)

Definition Exec (A : Type) : Type := ExecutionRun → ExecutionRun * executing A.

Definition exec_return {A} (a : A) : Exec A := λ run, (run, Ok a).
Definition exec_bind {A B} (m : Exec A) (k : A → Exec B) : Exec B :=
  λ run, let '(run', r) := m run in
         match r with Ok a => k a run' | Err e => (run', Err e) end.
(** A method that only reads [self]. *)
Definition reading {A} (f : ExecutionRun → executing A) : Exec A := λ run, (run, f run).
Definition modifying (f : ExecutionRun → ExecutionRun) : Exec unit := λ run, (f run, Ok tt).

Notation "'let!' x := m 'in' k" := (exec_bind m (λ x, k))
  (at level 10, x pattern, m at level 100, k at level 200) : rust_scope.

(** ** Field updates *)

Definition set_actions x (run : ExecutionRun) : ExecutionRun :=
  let '(ExecutionRun.mk a b c _ e f g h i) := run in ExecutionRun.mk a b c x e f g h i.
Definition set_latest_observation x (run : ExecutionRun) : ExecutionRun :=
  let '(ExecutionRun.mk a b c d _ f g h i) := run in ExecutionRun.mk a b c d (Some x) f g h i.
Definition set_goal_verification x (run : ExecutionRun) : ExecutionRun :=
  let '(ExecutionRun.mk a b c d e f _ h i) := run in ExecutionRun.mk a b c d e f (Some x) h i.
Definition set_events x n (run : ExecutionRun) : ExecutionRun :=
  let '(ExecutionRun.mk a b c d e f g _ _) := run in ExecutionRun.mk a b c d e f g x n.

Definition with_state s (r : ActionRun) : ActionRun :=
  let 'ActionRun.mk _ a c v p u := r in ActionRun.mk s a c v p u.
Definition with_admission x (r : ActionRun) : ActionRun :=
  let 'ActionRun.mk s _ c v p u := r in ActionRun.mk s (Some x) c v p u.
Definition with_completion x (r : ActionRun) : ActionRun :=
  let 'ActionRun.mk s a _ v p u := r in ActionRun.mk s a (Some x) v p u.
Definition with_verification x (r : ActionRun) : ActionRun :=
  let 'ActionRun.mk s a c _ p u := r in ActionRun.mk s a c (Some x) p u.
Definition with_pre_dispatch_failure x (r : ActionRun) : ActionRun :=
  let 'ActionRun.mk s a c v _ u := r in ActionRun.mk s a c v (Some x) u.
Definition with_unknown_reason x (r : ActionRun) : ActionRun :=
  let 'ActionRun.mk s a c v p _ := r in ActionRun.mk s a c v p (Some x).

(** [self.actions[action] = ...]; out of range is a panic. *)
Definition update_action (i : ActionId) (f : ActionRun → ActionRun) : Exec unit :=
  λ run, match run.(ExecutionRun.actions) !! i with
         | Some r => (set_actions (<[i := f r]> run.(ExecutionRun.actions)) run, Ok tt)
         | None => (run, Err Panicked)
         end.

(** ** Helpers *)

Definition is_stopped (r : ActionRun) : bool :=
  match r.(ActionRun.state) with
  | ActionRunState.Failed | ActionRunState.OutcomeUnknown => true | _ => false end.
Definition is_active (r : ActionRun) : bool :=
  match r.(ActionRun.state) with
  | ActionRunState.Checking | ActionRunState.Admitted_ | ActionRunState.Running
  | ActionRunState.Verifying => true | _ => false end.

Definition action_run (run : ExecutionRun) (action : ActionId) : executing ActionRun :=
  ok_or (run.(ExecutionRun.actions) !! action) (Reported (ExecutionRunError.UnknownAction action)).

(** [self.plan.actions()[action].informational_contract] *)
Definition frozen_contract (run : ExecutionRun) (action : ActionId) : executing ActionContract :=
  let? planned := index run.(ExecutionRun.plan).(ExecutionPlan.actions) action in
  Ok planned.(PlannedAction.informational_contract).

Definition require_state (action : ActionId) (expected : ActionRunState) : Exec unit :=
  reading (λ run,
    let? r := action_run run action in
    if bool_decide (r.(ActionRun.state) = expected) then Ok tt
    else Err (Reported (ExecutionRunError.InvalidTransition action r.(ActionRun.state)))).

Definition check_report_identity (run_id : Uuid) : Exec unit :=
  reading (λ run, if negb (run_id =? run.(ExecutionRun.run_id))%N
                  then Err (Reported ExecutionRunError.ReportMismatch) else Ok tt).

Definition check_fresh_observation (observation : LiveObservation) : Exec unit :=
  reading (λ run,
    let reference := observation.(LiveObservation.reference) in
    if is_nil reference.(ObservationReference.probe_instance)
       || is_some_and (λ latest,
            negb (latest.(LiveObservation.reference).(ObservationReference.probe_instance) =?
                  reference.(ObservationReference.probe_instance))%N
            || (reference.(ObservationReference.epoch) <=?
                latest.(LiveObservation.reference).(ObservationReference.epoch))%N)
            run.(ExecutionRun.latest_observation)
    then Err (Reported ExecutionRunError.StaleObservation)
    else report (map_err ExecutionRunError.InvalidObservation (validate_observation observation))).

Definition ensure_event_capacity (count : N) : Exec unit :=
  reading (λ run,
    let? _ := ok_or (u64_checked_add run.(ExecutionRun.next_event_sequence) count)
                (Reported ExecutionRunError.EventSequenceExhausted) in Ok tt).

Definition push_event (kind : RunEventKind) : Exec unit :=
  let! _ := ensure_event_capacity 1 in
  modifying (λ run,
    let events := if (length run.(ExecutionRun.events) =? MAX_RUN_EVENTS)%nat
                  then tail run.(ExecutionRun.events) else run.(ExecutionRun.events) in
    set_events (events ++ [RunEvent.mk run.(ExecutionRun.run_id)
                             run.(ExecutionRun.next_event_sequence) kind])
      (run.(ExecutionRun.next_event_sequence) + 1)%N run).

Definition set_state (action : ActionId) (state : ActionRunState) : Exec unit :=
  let! _ := ensure_event_capacity 1 in
  let! _ := update_action action (with_state state) in
  push_event (RunEventKind.ActionState action state).

Definition checks_cover {T} `{EqDecision T} (required : list T) (checks : list (LiveCheck T)) : bool :=
  forallb (λ condition, existsb (λ check, bool_decide (check.(LiveCheck.condition) = condition)) checks)
    required &&
  forallb (λ '(index, check),
      contains check.(LiveCheck.condition) required &&
      negb (existsb (λ earlier, bool_decide (earlier.(LiveCheck.condition) = check.(LiveCheck.condition)))
              (take index checks)))
    (enumerate checks).

(** The early return on a violation. *)
Fixpoint evidence_state (statuses : list LiveCheckStatus) (result unknown : ActionRunState)
    : ActionRunState :=
  match statuses with
  | [] => result
  | LiveCheckStatus.Violated _ :: _ => ActionRunState.Failed
  | LiveCheckStatus.Unknown _ :: statuses => evidence_state statuses unknown unknown
  | LiveCheckStatus.Satisfied :: statuses => evidence_state statuses result unknown
  end.

(** ** Transitions *)

(** [fresh_id] is the result of [Uuid::now_v7]. *)
Definition execution_run_new (display : GraphError → string) (json json' : Serializers)
    (fresh_id : Uuid) (document : PlanDocument) : executing ExecutionRun :=
  let? analysis := map_failure ExecutionRunError.Document
                     (analyse_historical display json json' document) in
  let plan := analysis.(HistoricalAnalysis.plan) in
  Ok (ExecutionRun.mk fresh_id document plan
        ((λ _, ActionRun.waiting) <$> plan.(ExecutionPlan.actions)) None
        (GoalCheck.aspect <$> analysis.(HistoricalAnalysis.report).(SimulationReport.goal_checks))
        None [] 1).

(** The loop over the incoming edges. *)
Definition check_predecessor (run : ExecutionRun) (action : ActionId) (edge : ActionDependency)
    : executing unit :=
  let? r := action_run run edge.(ActionDependency.before) in
  if negb (bool_decide (r.(ActionRun.state) = ActionRunState.Verified))
  then Err (Reported (ExecutionRunError.PredecessorNotVerified action edge.(ActionDependency.before)))
  else Ok tt.

Definition begin_check (action : ActionId) : Exec unit :=
  let! _ := require_state action ActionRunState.Waiting in
  let! _ := reading (λ run,
    if existsb is_stopped run.(ExecutionRun.actions)
    then Err (Reported ExecutionRunError.RunStopped) else Ok tt) in
  let! _ := reading (λ run,
    try_all (check_predecessor run action)
      (filter (λ edge, edge.(ActionDependency.after) = action)
         run.(ExecutionRun.plan).(ExecutionPlan.dependencies))) in
  let! _ := reading (λ run,
    if existsb is_active run.(ExecutionRun.actions)
    then Err (Reported ExecutionRunError.ActiveAction) else Ok tt) in
  set_state action ActionRunState.Checking.

(** A held lease on the same resource in at least the required mode. *)
Definition holds (held : list ResourceAccess) (required : ResourceAccess) : bool :=
  existsb (λ h, bool_decide (h.(ResourceAccess.resource) = required.(ResourceAccess.resource)) &&
                (bool_decide (h.(ResourceAccess.mode) = ResourceAccessMode.Write) ||
                 bool_decide (h.(ResourceAccess.mode) = required.(ResourceAccess.mode)))) held.

Definition record_admission (report : AdmissionReport) : Exec bool :=
  let action := report.(AdmissionReport.action) in
  let! _ := require_state action ActionRunState.Checking in
  let! _ := check_report_identity report.(AdmissionReport.run_id) in
  let! _ := check_fresh_observation report.(AdmissionReport.observation) in
  let! contract := reading (λ run, frozen_contract run action) in
  let! _ := reading (λ _,
    if negb (checks_cover contract.(ActionContract.prerequisites) report.(AdmissionReport.checks))
    then Err (Reported ExecutionRunError.IncompleteChecks) else Ok tt) in
  let! _ := reading (λ _,
    if existsb (λ required, negb (holds report.(AdmissionReport.held_resources) required))
         contract.(ActionContract.affected_resources)
    then Err (Reported ExecutionRunError.MissingResources) else Ok tt) in
  let statuses := report.(AdmissionReport.applicability) ::
                  (LiveCheck.status <$> report.(AdmissionReport.checks)) in
  let state := evidence_state statuses ActionRunState.Admitted_ ActionRunState.Checking in
  let admitted := bool_decide (state = ActionRunState.Admitted_) in
  let! _ := ensure_event_capacity (if decide (state = ActionRunState.Checking) then 1 else 2) in
  let! _ := modifying (set_latest_observation report.(AdmissionReport.observation)) in
  let! _ := update_action action (with_admission report) in
  let! _ := push_event (RunEventKind.Admission action admitted) in
  let! _ := if decide (state = ActionRunState.Checking) then exec_return tt
            else set_state action state in
  exec_return admitted.

Definition mark_dispatch_started (action : ActionId) : Exec unit :=
  let! _ := require_state action ActionRunState.Admitted_ in
  set_state action ActionRunState.Running.

Definition mark_pre_dispatch_failed (action : ActionId) (reason : string) : Exec unit :=
  let! _ := require_state action ActionRunState.Admitted_ in
  let! _ := ensure_event_capacity 1 in
  let! _ := update_action action (with_pre_dispatch_failure reason) in
  set_state action ActionRunState.Failed.

Definition outcome_state (outcome : BackendOutcome) : ActionRunState :=
  match outcome with
  | BackendOutcome.Succeeded => ActionRunState.Verifying
  | BackendOutcome.Failed _ => ActionRunState.Failed
  | BackendOutcome.OutcomeUnknown _ => ActionRunState.OutcomeUnknown
  end.

Definition record_completion (completion : BackendCompletion) : Exec unit :=
  let action := completion.(BackendCompletion.action) in
  let! _ := require_state action ActionRunState.Running in
  let! _ := check_report_identity completion.(BackendCompletion.run_id) in
  let! _ := check_fresh_observation completion.(BackendCompletion.observation) in
  let! _ := ensure_event_capacity 1 in
  let! _ := modifying (set_latest_observation completion.(BackendCompletion.observation)) in
  let! _ := update_action action (with_completion completion) in
  set_state action (outcome_state completion.(BackendCompletion.outcome)).

Definition completion_reference (r : ActionRun) : option ObservationReference :=
  (λ c, c.(BackendCompletion.observation).(LiveObservation.reference)) <$> r.(ActionRun.completion).

Definition record_verification (report : VerificationReport) : Exec bool :=
  let action := report.(VerificationReport.action) in
  let! _ := require_state action ActionRunState.Verifying in
  let! _ := check_report_identity report.(VerificationReport.run_id) in
  let! _ := reading (λ run,
    let? r := action_run run action in
    if negb (bool_decide (completion_reference r = Some report.(VerificationReport.observation)))
    then Err (Reported ExecutionRunError.ReportMismatch) else Ok tt) in
  let! contract := reading (λ run, frozen_contract run action) in
  let! _ := reading (λ _,
    if negb (checks_cover contract.(ActionContract.postconditions) report.(VerificationReport.checks))
    then Err (Reported ExecutionRunError.IncompleteChecks) else Ok tt) in
  let state := evidence_state (LiveCheck.status <$> report.(VerificationReport.checks))
                 ActionRunState.Verified ActionRunState.OutcomeUnknown in
  let! _ := ensure_event_capacity 1 in
  let! _ := update_action action (with_verification report) in
  let! _ := set_state action state in
  exec_return (bool_decide (state = ActionRunState.Verified)).

Definition mark_outcome_unknown (action : ActionId) (reason : string) : Exec unit :=
  let! _ := reading (λ run,
    let? r := action_run run action in
    match r.(ActionRun.state) with
    | ActionRunState.Running | ActionRunState.Verifying => Ok tt
    | state => Err (Reported (ExecutionRunError.InvalidTransition action state))
    end) in
  let! _ := ensure_event_capacity 1 in
  let! _ := update_action action (with_unknown_reason reason) in
  set_state action ActionRunState.OutcomeUnknown.

Definition record_progress (action : ActionId) (detail : string) : Exec unit :=
  let! _ := require_state action ActionRunState.Running in
  let! _ := reading (λ _,
    if (MAX_PROGRESS_BYTES <? String.length detail)%nat
    then Err (Reported ExecutionRunError.ProgressTooLarge) else Ok tt) in
  push_event (RunEventKind.Progress action detail).

Definition goal_satisfied (report : GoalVerificationReport) : bool :=
  bool_decide (report.(GoalVerificationReport.preservation) = LiveCheckStatus.Satisfied) &&
  forallb (λ check, bool_decide (check.(LiveCheck.status) = LiveCheckStatus.Satisfied))
    report.(GoalVerificationReport.checks).

Definition record_goal_verification (report : GoalVerificationReport) : Exec bool :=
  let! _ := reading (λ run,
    if negb (forallb (λ r, bool_decide (r.(ActionRun.state) = ActionRunState.Verified))
               run.(ExecutionRun.actions))
    then Err (Reported ExecutionRunError.ActionsNotVerified) else Ok tt) in
  let! _ := check_report_identity report.(GoalVerificationReport.run_id) in
  let! _ := check_fresh_observation report.(GoalVerificationReport.observation) in
  let! _ := reading (λ run,
    if negb (checks_cover run.(ExecutionRun.goal_aspects) report.(GoalVerificationReport.checks))
    then Err (Reported ExecutionRunError.IncompleteChecks) else Ok tt) in
  let verified := goal_satisfied report in
  let! _ := ensure_event_capacity 1 in
  let! _ := modifying (set_latest_observation report.(GoalVerificationReport.observation)) in
  let! _ := modifying (set_goal_verification report) in
  let! _ := push_event (RunEventKind.GoalVerification verified) in
  exec_return verified.

(** ** Reading a run *)

Definition is_verified (run : ExecutionRun) : bool :=
  is_some_and goal_satisfied run.(ExecutionRun.goal_verification).

Definition events_since (run : ExecutionRun) (sequence : N) : list RunEvent :=
  filter (λ event, (sequence < event.(RunEvent.sequence))%N) run.(ExecutionRun.events).

(** Both subtractions would underflow at zero. *)
Definition events_page (run : ExecutionRun) (since : N) : executing EventsPage :=
  let? latest := ok_or (u64_checked_sub run.(ExecutionRun.next_event_sequence) 1) Panicked in
  if (latest <? since)%N
  then Err (Reported (ExecutionRunError.InvalidEventCursor since latest))
  else
    let? gap := match head run.(ExecutionRun.events) with
                | None => Ok false
                | Some first =>
                    let? before := ok_or (u64_checked_sub first.(RunEvent.sequence) 1) Panicked in
                    Ok (since <? before)%N
                end in
    Ok (EventsPage.mk (events_since run since) latest gap).

Definition action_status (entry : PlannedAction * ActionRun) : ActionStatus :=
  let '(planned, r) := entry in
  ActionStatus.mk planned.(PlannedAction.id) r.(ActionRun.state)
    (AdmissionReport.applicability <$> r.(ActionRun.admission))
    ((λ a, a.(AdmissionReport.observation).(LiveObservation.reference)) <$> r.(ActionRun.admission))
    (completion_reference r)
    (match r.(ActionRun.admission) with Some a => a.(AdmissionReport.checks) | None => [] end)
    (BackendCompletion.outcome <$> r.(ActionRun.completion))
    (VerificationReport.checks <$> r.(ActionRun.verification))
    r.(ActionRun.pre_dispatch_failure) r.(ActionRun.unknown_reason).

Definition is_finished (run : ExecutionRun) : bool :=
  bool_decide (is_Some run.(ExecutionRun.goal_verification))
  || (run.(ExecutionRun.next_event_sequence) =? u64_MAX)%N
  || existsb is_stopped run.(ExecutionRun.actions).

Definition snapshot (run : ExecutionRun) : executing RunSnapshot :=
  let? event_sequence := ok_or (u64_checked_sub run.(ExecutionRun.next_event_sequence) 1) Panicked in
  Ok (RunSnapshot.mk run.(ExecutionRun.run_id) run.(ExecutionRun.document).(PlanDocument.plan_id)
        (action_status <$> zip run.(ExecutionRun.plan).(ExecutionPlan.actions)
                             run.(ExecutionRun.actions))
        (is_finished run) (is_verified run) event_sequence run.(ExecutionRun.latest_observation)
        run.(ExecutionRun.goal_verification)).
