(* ===== verification/ExecutionProps.v ===== *)
(** * Safety of execution runs

    Every call on a run is atomic, and the reachable runs satisfy the
    invariants that make execution safe: one active action, verified
    predecessors, complete evidence, ordered events. *)

From stdpp Require Import relations.
From S2P Require Import Prelude Model Reach Graph GraphOrder GraphValid State Action Contract.
From S2P Require Import ContractProps Evidence Prerequisites Effects Report PlanOrder Compose.
From S2P Require Import ComposeProps Simulate SimulateProps Wire Observation Execution.

Implicit Types (run : ExecutionRun) (i j : ActionId) (r : ActionRun).

(** ** The calls *)

Module RunOp.
Inductive RunOp :=
| BeginCheck (action : ActionId)
| RecordAdmission (report : AdmissionReport)
| MarkDispatchStarted (action : ActionId)
| MarkPreDispatchFailed (action : ActionId) (reason : string)
| RecordCompletion (completion : BackendCompletion)
| RecordVerification (report : VerificationReport)
| MarkOutcomeUnknown (action : ActionId) (reason : string)
| RecordProgress (action : ActionId) (detail : string)
| RecordGoalVerification (report : GoalVerificationReport).
End RunOp.
Abbreviation RunOp := RunOp.RunOp.

Definition run_op (op : RunOp) : Exec unit :=
  match op with
  | RunOp.BeginCheck a => begin_check a
  | RunOp.RecordAdmission rep => let! _ := record_admission rep in exec_return tt
  | RunOp.MarkDispatchStarted a => mark_dispatch_started a
  | RunOp.MarkPreDispatchFailed a reason => mark_pre_dispatch_failed a reason
  | RunOp.RecordCompletion c => record_completion c
  | RunOp.RecordVerification rep => let! _ := record_verification rep in exec_return tt
  | RunOp.MarkOutcomeUnknown a reason => mark_outcome_unknown a reason
  | RunOp.RecordProgress a detail => record_progress a detail
  | RunOp.RecordGoalVerification rep => let! _ := record_goal_verification rep in exec_return tt
  end.

(** ** Atomic computations *)

(** From [run], [m] reports an error and leaves [run] alone, or succeeds with
    [Q]; it does not panic. *)
Definition atomic {A} run (m : Exec A) (Q : A → ExecutionRun → Prop) : Prop :=
  match m run with
  | (run', Ok a) => Q a run'
  | (run', Err (Reported _)) => run' = run
  | (_, Err _) => False
  end.

Lemma atomic_reading {A B} run (f : ExecutionRun → executing A) (k : A → Exec B) Q :
  returns (λ a, atomic run (k a) Q) (f run) → atomic run (let! x := reading f in k x) Q.
Proof. unfold atomic, exec_bind, reading. by destruct (f run) as [a|[]]. Qed.

Lemma atomic_ok {A} run (m : Exec A) Q a run' :
  m run = (run', Ok a) → Q a run' → atomic run m Q.
Proof. unfold atomic. by intros ->. Qed.

Lemma atomic_mono {A} run (m : Exec A) (Q Q' : A → ExecutionRun → Prop) :
  atomic run m Q → (∀ a run', Q a run' → Q' a run') → atomic run m Q'.
Proof. unfold atomic. destruct (m run) as [run' [a|[]]]; auto. Qed.

Lemma atomic_bind_return {A B} run (m : Exec A) (k : A → B) (Q : B → ExecutionRun → Prop) :
  atomic run m (λ a run', Q (k a) run') → atomic run (let! x := m in exec_return (k x)) Q.
Proof. unfold atomic, exec_bind, exec_return. by destruct (m run) as [run' [a|[]]]. Qed.

Lemma exec_bind_ok {A B} run run' (m : Exec A) (k : A → Exec B) a :
  m run = (run', Ok a) → exec_bind m k run = k a run'.
Proof. unfold exec_bind. by intros ->. Qed.

(** ** Mutations as pure functions *)

Definition pushed (kind : RunEventKind) run : ExecutionRun :=
  set_events
    ((if length run.(ExecutionRun.events) =? MAX_RUN_EVENTS
      then tail run.(ExecutionRun.events) else run.(ExecutionRun.events)) ++
     [RunEvent.mk run.(ExecutionRun.run_id) run.(ExecutionRun.next_event_sequence) kind])
    (run.(ExecutionRun.next_event_sequence) + 1)%N run.

Definition altered i (f : ActionRun → ActionRun) run : ExecutionRun :=
  set_actions (alter f i run.(ExecutionRun.actions)) run.

Definition moved i (s : ActionRunState) run : ExecutionRun :=
  pushed (RunEventKind.ActionState i s) (altered i (with_state s) run).

Definition has_capacity (n : N) run : Prop :=
  (run.(ExecutionRun.next_event_sequence) + n <= u64_MAX)%N.

Lemma ensure_event_capacity_ok n run :
  returns (λ _, has_capacity n run) (snd (ensure_event_capacity n run)).
Proof.
  unfold ensure_event_capacity, reading, u64_checked_add, has_capacity. simpl.
  destruct (N.leb_spec (ExecutionRun.next_event_sequence run + n) u64_MAX); done.
Qed.

Lemma atomic_capacity {B} n run (k : unit → Exec B) Q :
  (has_capacity n run → atomic run (k tt) Q) →
  atomic run (let! x := ensure_event_capacity n in k x) Q.
Proof.
  intros Hk. apply atomic_reading. pose proof (ensure_event_capacity_ok n run) as Hc.
  unfold ensure_event_capacity, reading in Hc. simpl in Hc.
  by destruct (let? _ := _ in _) as [[]|[]]; simpl in *; auto.
Qed.

Lemma push_event_eq kind run : has_capacity 1 run → push_event kind run = (pushed kind run, Ok tt).
Proof.
  unfold has_capacity, push_event, exec_bind, ensure_event_capacity, reading, u64_checked_add.
  intros Hc. by rewrite (proj2 (N.leb_le _ _) Hc).
Qed.

Lemma update_action_eq i f run r :
  run.(ExecutionRun.actions) !! i = Some r → update_action i f run = (altered i f run, Ok tt).
Proof.
  intros Hi. unfold update_action, altered. rewrite Hi. do 3 f_equal.
  symmetry. apply list_eq. intros j. destruct (decide (i = j)) as [->|Hne].
  - rewrite list_lookup_alter_eq, Hi, list_lookup_insert_eq by (by eapply lookup_lt_Some). done.
  - by rewrite list_lookup_alter_ne, list_lookup_insert_ne.
Qed.

Lemma set_state_eq i s run r :
  run.(ExecutionRun.actions) !! i = Some r → has_capacity 1 run →
  set_state i s run = (moved i s run, Ok tt).
Proof.
  intros Hi Hc. unfold set_state.
  rewrite (exec_bind_ok run run _ _ tt), (exec_bind_ok run (altered i (with_state s) run) _ _ tt).
  - apply push_event_eq. by destruct run.
  - by eapply update_action_eq.
  - unfold ensure_event_capacity, reading, u64_checked_add. by rewrite (proj2 (N.leb_le _ _) Hc).
Qed.

(** Projections through the mutations. *)
Lemma altered_actions i f run :
  (altered i f run).(ExecutionRun.actions) = alter f i run.(ExecutionRun.actions).
Proof. by destruct run. Qed.
Lemma pushed_actions k run : (pushed k run).(ExecutionRun.actions) = run.(ExecutionRun.actions).
Proof. by destruct run. Qed.
Lemma altered_lookup i f run r :
  run.(ExecutionRun.actions) !! i = Some r → (altered i f run).(ExecutionRun.actions) !! i = Some (f r).
Proof. intros Hi. by rewrite altered_actions, list_lookup_alter_eq, Hi. Qed.
Lemma altered_capacity i f run n : has_capacity n run → has_capacity n (altered i f run).
Proof. by destruct run. Qed.
Lemma observed_capacity o run n : has_capacity n run → has_capacity n (set_latest_observation o run).
Proof. by destruct run. Qed.
Lemma pushed_capacity k run : has_capacity 2 run → has_capacity 1 (pushed k run).
Proof. unfold has_capacity. destruct run; simpl. lia. Qed.
Lemma has_capacity_le n m run : (m <= n)%N → has_capacity n run → has_capacity m run.
Proof. unfold has_capacity. lia. Qed.

(** ** Guards *)

(** The observation is well formed and newer than the last one of its probe. *)
Definition fresh_observation run (o : LiveObservation) : Prop :=
  observation_wf o ∧
  ∀ latest, run.(ExecutionRun.latest_observation) = Some latest →
    latest.(LiveObservation.reference).(ObservationReference.probe_instance) =
      o.(LiveObservation.reference).(ObservationReference.probe_instance) ∧
    (latest.(LiveObservation.reference).(ObservationReference.epoch) <
     o.(LiveObservation.reference).(ObservationReference.epoch))%N.

(** Exactly the required conditions, each checked once. *)
Definition complete_checks {T} (required : list T) (checks : list (LiveCheck T)) : Prop :=
  NoDup (LiveCheck.condition <$> checks) ∧
  ∀ c, c ∈ LiveCheck.condition <$> checks ↔ c ∈ required.

Definition all_satisfied (statuses : list LiveCheckStatus) : Prop :=
  ∀ s, s ∈ statuses → s = LiveCheckStatus.Satisfied.

Lemma take_existsb {A} (f : A → bool) (l : list A) i x :
  l !! i = Some x → existsb f (take i l) = true ↔ ∃ j y, j < i ∧ l !! j = Some y ∧ f y = true.
Proof.
  intros Hi. rewrite existsb_exists. setoid_rewrite <-list_elem_of_In. split.
  - intros (y & Hy & Hf). apply list_elem_of_lookup in Hy as [j Hj].
    apply lookup_take_Some in Hj as [Hj Hlt]. eauto.
  - intros (j & y & Hlt & Hj & Hf). exists y. split; [|done].
    eapply list_elem_of_lookup_2, lookup_take_Some. eauto.
Qed.

Lemma checks_cover_spec {T} `{EqDecision T} (required : list T) checks :
  checks_cover required checks = true ↔ complete_checks required checks.
Proof.
  unfold checks_cover, complete_checks. rewrite andb_true_iff, !forallb_elem.
  assert (∀ c, existsb (λ check : LiveCheck T, bool_decide (check.(LiveCheck.condition) = c)) checks = true
    ↔ c ∈ LiveCheck.condition <$> checks) as Hex.
  { intros c. rewrite existsb_exists, list_elem_of_fmap. setoid_rewrite <-list_elem_of_In.
    setoid_rewrite bool_decide_eq_true. naive_solver. }
  split.
  - intros [Hreq Hidx].
    assert (∀ i c, checks !! i = Some c → c.(LiveCheck.condition) ∈ required ∧
      ∀ j d, j < i → checks !! j = Some d → d.(LiveCheck.condition) ≠ c.(LiveCheck.condition)) as Hall.
    { intros i c Hi. assert ((i, c) ∈ enumerate checks) as Hin.
      { apply list_elem_of_lookup. exists i. unfold enumerate. by rewrite list_lookup_imap, Hi. }
      specialize (Hidx _ Hin). simpl in Hidx.
      apply andb_true_iff in Hidx as [Hc%contains_true Hno%negb_true_iff]. split; [done|].
      intros j d Hlt Hj Heq. apply not_true_iff_false in Hno. apply Hno.
      rewrite (take_existsb _ _ _ c) by done. exists j, d. by rewrite bool_decide_eq_true. }
    split.
    + apply NoDup_alt. intros i j x Hi Hj. rewrite list_lookup_fmap in Hi, Hj.
      destruct (checks !! i) as [c|] eqn:Ei; [|done]. destruct (checks !! j) as [d|] eqn:Ej; [|done].
      simplify_eq/=. destruct (lt_eq_lt_dec i j) as [[Hlt|]|Hlt]; [|done|].
      * destruct (Hall j d Ej) as [_ Hn]. by destruct (Hn i c Hlt Ei).
      * destruct (Hall i c Ei) as [_ Hn]. by destruct (Hn j d Hlt Ej).
    + intros c. split; [|by intros ?%Hreq%Hex].
      intros (x & -> & [i Hi]%list_elem_of_lookup)%list_elem_of_fmap. by apply (Hall i).
  - intros [Hnd Hreq]. split; [intros c Hc; by apply Hex, Hreq|].
    intros [i c] Hin. apply list_elem_of_lookup in Hin as [k Hk]. unfold enumerate in Hk.
    rewrite list_lookup_imap in Hk. destruct (checks !! k) as [x|] eqn:Ek; [|done]. simplify_eq/=.
    apply andb_true_iff. split.
    + apply contains_true, Hreq, list_elem_of_fmap. exists c. split; [done|].
      by eapply list_elem_of_lookup_2.
    + apply negb_true_iff, not_true_iff_false. rewrite (take_existsb _ _ _ c) by done.
      intros (j & d & Hlt & Hj & Heq%bool_decide_eq_true).
      assert (j = i); [|lia]. eapply (proj1 (NoDup_alt _) Hnd); rewrite list_lookup_fmap.
      * by rewrite Hj.
      * by rewrite Ek, Heq.
Qed.

(** Success needs every status satisfied; otherwise the state is [unknown] or [Failed]. *)
Lemma evidence_state_spec statuses good unknown :
  (evidence_state statuses good unknown = good ∧ all_satisfied statuses) ∨
  evidence_state statuses good unknown = unknown ∨
  evidence_state statuses good unknown = ActionRunState.Failed.
Proof.
  assert (∀ l, evidence_state l unknown unknown = unknown ∨
    evidence_state l unknown unknown = ActionRunState.Failed) as Hu.
  { intros l. induction l as [|[] l IH]; simpl; auto. }
  induction statuses as [|[] l IH]; simpl; auto.
  - left. split; [done|]. by intros s ?%elem_of_nil.
  - destruct IH as [[-> Hl]|[->| ->]]; auto. left. split; [done|].
    intros s [->|?]%elem_of_cons; auto.
Qed.

Lemma check_fresh_spec run o :
  returns (λ _, fresh_observation run o) (snd (check_fresh_observation o run)).
Proof.
  unfold check_fresh_observation, reading. simpl.
  destruct (_ || is_some_and _ _) eqn:Hc; [done|]. apply returns_report. intros [] Hv.
  assert (validate_observation o = Ok tt) as Hok by (by destruct (validate_observation o) as [[]|]).
  split; [by apply validate_observation_iff|]. intros latest Hl.
  apply orb_false_iff in Hc as [_ Hc]. rewrite Hl in Hc. simpl in Hc.
  apply orb_false_iff in Hc as [Hi%negb_false_iff%N.eqb_eq He%N.leb_gt]. done.
Qed.

Lemma atomic_fresh {B} run o (k : unit → Exec B) Q :
  (fresh_observation run o → atomic run (k tt) Q) →
  atomic run (let! x := check_fresh_observation o in k x) Q.
Proof.
  intros Hk. apply atomic_reading. pose proof (check_fresh_spec run o) as Hs.
  unfold check_fresh_observation, reading in Hs. cbn [snd] in Hs.
  eapply returns_mono; [exact Hs|]. intros [] Hf. auto.
Qed.

Lemma atomic_require {B} run i s (k : unit → Exec B) Q :
  (∀ r, run.(ExecutionRun.actions) !! i = Some r → r.(ActionRun.state) = s → atomic run (k tt) Q) →
  atomic run (let! x := require_state i s in k x) Q.
Proof.
  intros Hk. apply atomic_reading. unfold action_run. destruct (_ !! i) as [r|] eqn:Hi; [|done]. simpl.
  destruct (bool_decide _) eqn:Hs; [|done]. apply bool_decide_eq_true in Hs. simpl. eauto.
Qed.

Lemma atomic_guard {B} run (b : ExecutionRun → bool) e (k : unit → Exec B) Q :
  (b run = false → atomic run (k tt) Q) →
  atomic run (let! x := reading (λ run, if b run then Err (Reported e) else Ok tt) in k x) Q.
Proof. intros Hk. apply atomic_reading. destruct (b run) eqn:Hb; simpl; auto. Qed.

Lemma atomic_identity {B} run id (k : unit → Exec B) Q :
  (id = run.(ExecutionRun.run_id) → atomic run (k tt) Q) →
  atomic run (let! x := check_report_identity id in k x) Q.
Proof.
  intros Hk. apply (atomic_guard run (λ run, negb (id =? run.(ExecutionRun.run_id))%N)).
  intros H%negb_false_iff%N.eqb_eq. auto.
Qed.

(** ** The transition system *)

Definition contract_of run i (c : ActionContract) : Prop :=
  ∃ a, run.(ExecutionRun.plan).(ExecutionPlan.actions) !! i = Some a ∧
       a.(PlannedAction.informational_contract) = c.

(** A report that answers the frozen contract with the required leases. *)
Definition admission_complete run i (rep : AdmissionReport) : Prop :=
  rep.(AdmissionReport.action) = i ∧
  ∃ c, contract_of run i c ∧
    complete_checks c.(ActionContract.prerequisites) rep.(AdmissionReport.checks) ∧
    ∀ a, a ∈ c.(ActionContract.affected_resources) →
         holds rep.(AdmissionReport.held_resources) a = true.

Definition admission_statuses (rep : AdmissionReport) : list LiveCheckStatus :=
  rep.(AdmissionReport.applicability) :: (LiveCheck.status <$> rep.(AdmissionReport.checks)).

Definition verification_complete run i (rep : VerificationReport) : Prop :=
  rep.(VerificationReport.action) = i ∧
  ∃ c, contract_of run i c ∧
    complete_checks c.(ActionContract.postconditions) rep.(VerificationReport.checks).

(** How one action may change, given the rest of the run. *)
Inductive action_move run i : ActionRun → ActionRun → Prop :=
| mv_begin r :
    r.(ActionRun.state) = ActionRunState.Waiting →
    (∀ j x, run.(ExecutionRun.actions) !! j = Some x → is_stopped x = false ∧ is_active x = false) →
    (∀ j, edge (action_edges run.(ExecutionRun.plan).(ExecutionPlan.dependencies)) j i →
       ∃ x, run.(ExecutionRun.actions) !! j = Some x ∧ x.(ActionRun.state) = ActionRunState.Verified) →
    action_move run i r (with_state ActionRunState.Checking r)
| mv_pending r rep :
    r.(ActionRun.state) = ActionRunState.Checking → admission_complete run i rep →
    action_move run i r (with_admission rep r)
| mv_admitted r rep :
    r.(ActionRun.state) = ActionRunState.Checking → admission_complete run i rep →
    all_satisfied (admission_statuses rep) →
    action_move run i r (with_state ActionRunState.Admitted_ (with_admission rep r))
| mv_rejected r rep :
    r.(ActionRun.state) = ActionRunState.Checking → admission_complete run i rep →
    action_move run i r (with_state ActionRunState.Failed (with_admission rep r))
| mv_dispatch r :
    r.(ActionRun.state) = ActionRunState.Admitted_ →
    action_move run i r (with_state ActionRunState.Running r)
| mv_pre_dispatch_failed r reason :
    r.(ActionRun.state) = ActionRunState.Admitted_ →
    action_move run i r (with_state ActionRunState.Failed (with_pre_dispatch_failure reason r))
| mv_completed r c :
    r.(ActionRun.state) = ActionRunState.Running → c.(BackendCompletion.action) = i →
    action_move run i r
      (with_state (outcome_state c.(BackendCompletion.outcome)) (with_completion c r))
| mv_verified r rep :
    r.(ActionRun.state) = ActionRunState.Verifying → verification_complete run i rep →
    completion_reference r = Some rep.(VerificationReport.observation) →
    all_satisfied (LiveCheck.status <$> rep.(VerificationReport.checks)) →
    action_move run i r (with_state ActionRunState.Verified (with_verification rep r))
| mv_unverified r rep s :
    r.(ActionRun.state) = ActionRunState.Verifying → verification_complete run i rep →
    s = ActionRunState.OutcomeUnknown ∨ s = ActionRunState.Failed →
    action_move run i r (with_state s (with_verification rep r))
| mv_unknown r reason :
    r.(ActionRun.state) = ActionRunState.Running ∨ r.(ActionRun.state) = ActionRunState.Verifying →
    action_move run i r (with_state ActionRunState.OutcomeUnknown (with_unknown_reason reason r)).

(** What a call changes besides the events. *)
Inductive transition run : ExecutionRun → Prop :=
| tr_action i r r' latest :
    run.(ExecutionRun.actions) !! i = Some r → action_move run i r r' →
    latest = run.(ExecutionRun.latest_observation) ∨
      (∃ o, latest = Some o ∧ fresh_observation run o) →
    transition run
      (ExecutionRun.mk run.(ExecutionRun.run_id) run.(ExecutionRun.document)
         run.(ExecutionRun.plan) (<[i := r']> run.(ExecutionRun.actions)) latest
         run.(ExecutionRun.goal_aspects) run.(ExecutionRun.goal_verification)
         run.(ExecutionRun.events) run.(ExecutionRun.next_event_sequence))
| tr_progress : transition run run
| tr_goal rep :
    (∀ j x, run.(ExecutionRun.actions) !! j = Some x → x.(ActionRun.state) = ActionRunState.Verified) →
    complete_checks run.(ExecutionRun.goal_aspects) rep.(GoalVerificationReport.checks) →
    fresh_observation run rep.(GoalVerificationReport.observation) →
    transition run
      (set_goal_verification rep
         (set_latest_observation rep.(GoalVerificationReport.observation) run)).

(** Events published after a transition, as long as the counter allows it. *)
Inductive publishes : ExecutionRun → ExecutionRun → Prop :=
| pub_one run kind : has_capacity 1 run → publishes run (pushed kind run)
| pub_more run kind run' : has_capacity 1 run → publishes (pushed kind run) run' → publishes run run'.

Definition run_transition run run' : Prop := ∃ mid, transition run mid ∧ publishes mid run'.

Lemma altered_pushed i f k run : altered i f (pushed k run) = pushed k (altered i f run).
Proof. by destruct run. Qed.

Lemma alter_insert {A} (f : A → A) i (l : list A) x : l !! i = Some x → alter f i l = <[i := f x]> l.
Proof.
  intros Hi. apply list_eq. intros j. destruct (decide (i = j)) as [->|Hne].
  - by rewrite list_lookup_alter_eq, Hi, list_lookup_insert_eq by (by eapply lookup_lt_Some).
  - by rewrite list_lookup_alter_ne, list_lookup_insert_ne.
Qed.

(** The action update of a call is a transition. *)
Lemma tr_altered run i r f :
  run.(ExecutionRun.actions) !! i = Some r → action_move run i r (f r) →
  transition run (altered i f run).
Proof.
  intros Hi Hm. pose proof (tr_action run i r (f r) _ Hi Hm (or_introl eq_refl)) as Ht.
  unfold altered. rewrite (alter_insert _ _ _ _ Hi). by destruct run.
Qed.

Lemma tr_altered_observed run i r f o :
  run.(ExecutionRun.actions) !! i = Some r → action_move run i r (f r) → fresh_observation run o →
  transition run (altered i f (set_latest_observation o run)).
Proof.
  intros Hi Hm Ho.
  assert (Some o = run.(ExecutionRun.latest_observation) ∨
    (∃ o', Some o = Some o' ∧ fresh_observation run o')) as Hl by eauto.
  pose proof (tr_action run i r (f r) _ Hi Hm Hl) as Ht.
  unfold altered. destruct run as [a b c d e f' g h k]. simpl in *.
  by rewrite (alter_insert _ _ _ _ Hi).
Qed.

Lemma altered_compose i f g run : altered i f (altered i g run) = altered i (f ∘ g) run.
Proof.
  unfold altered. destruct run as [a b c d e h k l m]. simpl. f_equal.
  apply list_eq. intros j. destruct (decide (i = j)) as [->|Hne].
  - rewrite !list_lookup_alter_eq. by destruct (d !! j).
  - by rewrite !list_lookup_alter_ne.
Qed.

(** The common ending: update the action, then publish its state. *)
Lemma atomic_set_state run i r s Q :
  run.(ExecutionRun.actions) !! i = Some r →
  (has_capacity 1 run → Q tt (moved i s run)) → atomic run (set_state i s) Q.
Proof.
  intros Hi HQ. unfold set_state. apply atomic_capacity. intros Hc.
  eapply atomic_ok; [|by apply HQ].
  rewrite (exec_bind_ok run (altered i (with_state s) run) _ _ tt).
  - apply push_event_eq. by apply altered_capacity.
  - by eapply update_action_eq.
Qed.

Lemma atomic_update_state run i r f s Q :
  run.(ExecutionRun.actions) !! i = Some r →
  (has_capacity 1 run → Q tt (pushed (RunEventKind.ActionState i s) (altered i (with_state s ∘ f) run))) →
  atomic run (let! _ := ensure_event_capacity 1 in
              let! _ := update_action i f in set_state i s) Q.
Proof.
  intros Hi HQ. apply atomic_capacity. intros Hc.
  eapply atomic_ok; [|by apply HQ].
  rewrite (exec_bind_ok run (altered i f run) _ _ tt) by (by eapply update_action_eq).
  rewrite (set_state_eq i s (altered i f run) (f r)).
  - unfold moved. by rewrite altered_compose.
  - by apply altered_lookup.
  - by apply altered_capacity.
Qed.

Lemma published_one run mid k :
  has_capacity 1 run → transition run mid →
  mid.(ExecutionRun.next_event_sequence) = run.(ExecutionRun.next_event_sequence) →
  run_transition run (pushed k mid).
Proof.
  intros Hc Ht Hn. exists mid. split; [done|]. constructor. unfold has_capacity in *. by rewrite Hn.
Qed.

Lemma begin_check_step run i : atomic run (begin_check i) (λ _, run_transition run).
Proof.
  unfold begin_check. apply atomic_require. intros r Hi Hs.
  apply (atomic_guard run (λ run, existsb is_stopped run.(ExecutionRun.actions))). intros Hstop.
  apply atomic_reading.
  assert (∀ l, returns (λ _ : unit, ∀ d, d ∈ l → ∃ x,
    run.(ExecutionRun.actions) !! d.(ActionDependency.before) = Some x ∧
    x.(ActionRun.state) = ActionRunState.Verified) (try_all (check_predecessor run i) l)) as Hpred.
  { intros l. apply (returns_try_fold _ (λ pre (_ : unit), ∀ d, d ∈ pre → ∃ x,
      run.(ExecutionRun.actions) !! d.(ActionDependency.before) = Some x ∧
      x.(ActionRun.state) = ActionRunState.Verified)); [by intros d ?%elem_of_nil|].
    intros pre d post [] _ Hpre. unfold check_predecessor, action_run.
    destruct (_ !! d.(ActionDependency.before)) as [x|] eqn:Hx; [|done]. cbn [ok_or].
    destruct (bool_decide (ActionRun.state x = _)) eqn:Hv; [|done]. apply bool_decide_eq_true in Hv. cbn [negb].
    intros d' [?| ->%list_elem_of_singleton]%elem_of_app; eauto. }
  eapply returns_mono; [apply Hpred|]. intros [] Hdeps.
  apply (atomic_guard run (λ run, existsb is_active run.(ExecutionRun.actions))). intros Hact.
  rewrite existsb_false in Hstop. rewrite existsb_false in Hact.
  eapply atomic_set_state; [done|]. intros Hc. apply published_one; [done| |by destruct run].
  eapply tr_altered; [done|]. apply mv_begin; [done| |].
  - intros j x Hj. apply list_elem_of_lookup_2 in Hj. auto.
  - intros j (d & Hd & <- & Ha)%elem_of_action_edges. apply Hdeps.
    by apply list_elem_of_filter.
Qed.

Lemma dispatch_step run i : atomic run (mark_dispatch_started i) (λ _, run_transition run).
Proof.
  apply atomic_require. intros r Hi Hs. eapply atomic_set_state; [done|]. intros Hc.
  apply published_one; [done| |by destruct run]. eapply tr_altered; [done|]. by constructor.
Qed.

Lemma pre_dispatch_step run i reason :
  atomic run (mark_pre_dispatch_failed i reason) (λ _, run_transition run).
Proof.
  apply atomic_require. intros r Hi Hs. eapply atomic_update_state; [done|]. intros Hc.
  apply published_one; [done| |by destruct run].
  eapply (tr_altered run i r (with_state _ ∘ _)); [done|]. by constructor.
Qed.

Lemma unknown_step run i reason : atomic run (mark_outcome_unknown i reason) (λ _, run_transition run).
Proof.
  unfold mark_outcome_unknown. apply atomic_reading. unfold action_run.
  destruct (_ !! i) as [r|] eqn:Hi; [|done]. cbn [ok_or].
  assert (r.(ActionRun.state) = ActionRunState.Running ∨ r.(ActionRun.state) = ActionRunState.Verifying →
    atomic run (let! _ := ensure_event_capacity 1 in
      let! _ := update_action i (with_unknown_reason reason) in
      set_state i ActionRunState.OutcomeUnknown) (λ _, run_transition run)) as Hgo.
  { intros Hs. eapply atomic_update_state; [done|]. intros Hc.
    apply published_one; [done| |by destruct run].
    eapply (tr_altered run i r (with_state _ ∘ _)); [done|]. by constructor. }
  destruct (ActionRun.state r); try done; apply Hgo; auto.
Qed.

Lemma progress_step run i detail : atomic run (record_progress i detail) (λ _, run_transition run).
Proof.
  apply atomic_require. intros r Hi Hs.
  apply (atomic_guard run (λ _, MAX_PROGRESS_BYTES <? String.length detail)). intros _.
  unfold push_event. apply atomic_capacity. intros Hc.
  eapply atomic_ok; [done|]. apply published_one; [done| |done]. constructor.
Qed.

(** A run tracks exactly the actions of its plan. *)
Definition tracks_plan run : Prop :=
  length run.(ExecutionRun.actions) = length run.(ExecutionRun.plan).(ExecutionPlan.actions).

Lemma atomic_contract {B} run i r (k : ActionContract → Exec B) Q :
  tracks_plan run → run.(ExecutionRun.actions) !! i = Some r →
  (∀ c, contract_of run i c → atomic run (k c) Q) →
  atomic run (let! c := reading (λ run, frozen_contract run i) in k c) Q.
Proof.
  intros Hl Hi Hk. apply atomic_reading. unfold frozen_contract, index.
  destruct (lookup_lt_is_Some_2 run.(ExecutionRun.plan).(ExecutionPlan.actions) i) as [a Ha].
  { rewrite <-Hl. by eapply lookup_lt_Some. }
  rewrite Ha. simpl. apply Hk. by exists a.
Qed.

Lemma completion_step run c :
  atomic run (record_completion c) (λ _, run_transition run).
Proof.
  apply atomic_require. intros r Hi Hs. apply atomic_identity. intros _.
  apply atomic_fresh. intros Hf. apply atomic_capacity. intros Hc.
  set (i := c.(BackendCompletion.action)) in *. set (s := outcome_state _).
  set (run1 := set_latest_observation c.(BackendCompletion.observation) run).
  assert (run1.(ExecutionRun.actions) !! i = Some r) as Hi1 by (by destruct run).
  eapply (atomic_ok _ _ _ tt (pushed (RunEventKind.ActionState i s)
    (altered i (with_state s ∘ with_completion c) run1))).
  - rewrite (exec_bind_ok run run1 _ _ tt) by done.
    rewrite (exec_bind_ok run1 (altered i (with_completion c) run1) _ _ tt) by (by eapply update_action_eq).
    rewrite (set_state_eq i s _ (with_completion c r)).
    + unfold moved. by rewrite altered_compose.
    + by apply altered_lookup.
    + by apply altered_capacity, observed_capacity.
  - apply published_one; [done| |by destruct run].
    eapply (tr_altered_observed run i r (with_state _ ∘ _)); [done| |done]. by constructor.
Qed.

Lemma verification_step run rep :
  tracks_plan run → atomic run (record_verification rep) (λ _, run_transition run).
Proof.
  intros Hl. apply atomic_require. intros r Hi Hs. apply atomic_identity. intros _.
  apply atomic_reading. unfold action_run. rewrite Hi. cbn [ok_or].
  destruct (bool_decide (completion_reference r = _)) eqn:Href; [|done].
  apply bool_decide_eq_true in Href. cbn [negb returns].
  eapply atomic_contract; [done..|]. intros c Hcon.
  apply (atomic_guard run (λ _, negb (checks_cover c.(ActionContract.postconditions)
    rep.(VerificationReport.checks)))).
  intros Hcov%negb_false_iff%checks_cover_spec. cbn zeta.
  set (s := evidence_state _ _ _). set (i := rep.(VerificationReport.action)) in *.
  assert (verification_complete run i rep) as Hvc by (split; [done|]; by exists c).
  assert (action_move run i r ((with_state s ∘ with_verification rep) r)) as Hm.
  { subst s. destruct (evidence_state_spec (LiveCheck.status <$> rep.(VerificationReport.checks))
      ActionRunState.Verified ActionRunState.OutcomeUnknown) as [[-> Hall]|[->| ->]].
    - by apply mv_verified.
    - by apply mv_unverified; [..|left].
    - by apply mv_unverified; [..|right]. }
  apply atomic_capacity. intros Hc.
  eapply (atomic_ok _ _ _ _ (pushed (RunEventKind.ActionState i s)
    (altered i (with_state s ∘ with_verification rep) run))).
  - rewrite (exec_bind_ok run (altered i (with_verification rep) run) _ _ tt) by (by eapply update_action_eq).
    rewrite (exec_bind_ok _ (moved i s (altered i (with_verification rep) run)) _ _ tt).
    + unfold moved, exec_return. by rewrite altered_compose.
    + eapply set_state_eq; [by apply altered_lookup|by apply altered_capacity].
  - apply published_one; [done| |by destruct run]. by eapply tr_altered.
Qed.

Lemma goal_step run rep : atomic run (record_goal_verification rep) (λ _, run_transition run).
Proof.
  unfold record_goal_verification.
  apply (atomic_guard run (λ run, negb (forallb (λ r, bool_decide
    (r.(ActionRun.state) = ActionRunState.Verified)) run.(ExecutionRun.actions)))).
  intros Hall%negb_false_iff. rewrite forallb_elem in Hall.
  apply atomic_identity. intros _. apply atomic_fresh. intros Hf.
  apply (atomic_guard run (λ run, negb (checks_cover run.(ExecutionRun.goal_aspects)
    rep.(GoalVerificationReport.checks)))).
  intros Hcov%negb_false_iff%checks_cover_spec. cbn zeta. apply atomic_capacity. intros Hc.
  set (run1 := set_goal_verification rep
    (set_latest_observation rep.(GoalVerificationReport.observation) run)).
  eapply (atomic_ok _ _ _ _ (pushed (RunEventKind.GoalVerification (goal_satisfied rep)) run1)).
  - rewrite (exec_bind_ok run (set_latest_observation rep.(GoalVerificationReport.observation) run)
      _ _ tt) by done.
    rewrite (exec_bind_ok _ run1 _ _ tt) by done.
    rewrite (exec_bind_ok run1 (pushed (RunEventKind.GoalVerification (goal_satisfied rep)) run1) _ _ tt);
      [done|]. apply push_event_eq. by destruct run.
  - apply published_one; [done| |by destruct run]. apply tr_goal; [|done|done].
    intros j x Hj. apply list_elem_of_lookup_2, Hall in Hj. by apply bool_decide_eq_true in Hj.
Qed.

Lemma admission_step run rep :
  tracks_plan run → atomic run (record_admission rep) (λ _, run_transition run).
Proof.
  intros Hl. apply atomic_require. intros r Hi Hs. apply atomic_identity. intros _.
  apply atomic_fresh. intros Hf. eapply atomic_contract; [done..|]. intros c Hcon.
  apply (atomic_guard run (λ _, negb (checks_cover c.(ActionContract.prerequisites)
    rep.(AdmissionReport.checks)))).
  intros Hcov%negb_false_iff%checks_cover_spec.
  apply (atomic_guard run (λ _, existsb (λ required,
    negb (holds rep.(AdmissionReport.held_resources) required)) c.(ActionContract.affected_resources))).
  intros Hheld. rewrite existsb_false in Hheld. cbn zeta.
  set (i := rep.(AdmissionReport.action)) in *. set (s := evidence_state _ _ _).
  assert (admission_complete run i rep) as Hac.
  { split; [done|]. exists c. split_and!; [done..|]. intros a Ha%Hheld. by apply negb_false_iff. }
  set (run1 := set_latest_observation rep.(AdmissionReport.observation) run).
  set (kind := RunEventKind.Admission i (bool_decide (s = ActionRunState.Admitted_))).
  assert (run1.(ExecutionRun.actions) !! i = Some r) as Hi1 by (by destruct run).
  set (run2 := altered i (with_admission rep) run1).
  assert (update_action i (with_admission rep) run1 = (run2, Ok tt)) as Hup
    by (by eapply update_action_eq).
  assert (∀ m, has_capacity m run → has_capacity m run2) as Hcap.
  { intros m Hm. by apply altered_capacity, observed_capacity. }
  assert (∀ m, transition run m → m.(ExecutionRun.next_event_sequence) =
    run.(ExecutionRun.next_event_sequence) → has_capacity 2 run →
    run_transition run (pushed (RunEventKind.ActionState i s) (pushed kind m))) as Htwo.
  { intros m Hm Hn Hc. exists m. split; [done|]. unfold has_capacity in Hc.
    apply (pub_more _ kind); [unfold has_capacity; lia|]. constructor. apply pushed_capacity.
    unfold has_capacity. lia. }
  destruct (decide (s = ActionRunState.Checking)) as [Hpend|Hnot].
  - apply atomic_capacity. intros Hc.
    eapply (atomic_ok _ _ _ _ (pushed kind run2)).
    + rewrite (exec_bind_ok run run1 _ _ tt) by done. rewrite (exec_bind_ok run1 run2 _ _ tt) by done.
      rewrite (exec_bind_ok run2 (pushed kind run2) _ _ tt); [done|]. by apply push_event_eq, Hcap.
    + apply published_one; [done| |by destruct run].
      eapply tr_altered_observed; [done| |done]. by constructor.
  - apply atomic_capacity. intros Hc.
    eapply (atomic_ok _ _ _ _ (moved i s (pushed kind run2))).
    + rewrite (exec_bind_ok run run1 _ _ tt) by done. rewrite (exec_bind_ok run1 run2 _ _ tt) by done.
      rewrite (exec_bind_ok run2 (pushed kind run2) _ _ tt).
      * rewrite (exec_bind_ok _ (moved i s (pushed kind run2)) _ _ tt); [done|].
        eapply set_state_eq; [rewrite pushed_actions; by apply altered_lookup|].
        by apply pushed_capacity, Hcap.
      * apply push_event_eq, Hcap. by apply (has_capacity_le 2).
    + unfold moved. rewrite altered_pushed. unfold run2. rewrite altered_compose.
      apply Htwo; [|by destruct run|done].
      eapply tr_altered_observed; [done| |done]. subst s.
      destruct (evidence_state_spec (admission_statuses rep) ActionRunState.Admitted_
        ActionRunState.Checking) as [[Hst Hall]|[Hst|Hst]]; unfold admission_statuses in *;
        rewrite Hst in *; [by apply mv_admitted|done|by apply mv_rejected].
Qed.

(** Every call is atomic and follows the transition system. *)
Lemma run_op_step run op :
  tracks_plan run → atomic run (run_op op) (λ _, run_transition run).
Proof.
  intros Hl. destruct op; cbn [run_op];
    try (apply (atomic_bind_return run _ (λ _, tt)));
    auto using begin_check_step, dispatch_step, pre_dispatch_step, completion_step, unknown_step,
      progress_step, admission_step, verification_step, goal_step.
Qed.

(** ** Invariants of reachable runs *)

(** The states that presuppose admission, and a successful backend result. *)
Definition past_admission (s : ActionRunState) : bool :=
  match s with
  | ActionRunState.Admitted_ | ActionRunState.Running | ActionRunState.Verifying
  | ActionRunState.Verified => true | _ => false end.
Definition past_completion (s : ActionRunState) : bool :=
  match s with ActionRunState.Verifying | ActionRunState.Verified => true | _ => false end.

(** The evidence an action in a given state has collected. *)
Record evidence_ok run i r : Prop := {
  ev_admission : past_admission r.(ActionRun.state) = true →
    ∃ rep, r.(ActionRun.admission) = Some rep ∧ admission_complete run i rep ∧
           all_satisfied (admission_statuses rep);
  ev_completion : past_completion r.(ActionRun.state) = true →
    ∃ c, r.(ActionRun.completion) = Some c ∧ c.(BackendCompletion.action) = i ∧
         c.(BackendCompletion.outcome) = BackendOutcome.Succeeded;
  ev_verification : r.(ActionRun.state) = ActionRunState.Verified →
    ∃ rep, r.(ActionRun.verification) = Some rep ∧ verification_complete run i rep ∧
           completion_reference r = Some rep.(VerificationReport.observation) ∧
           all_satisfied (LiveCheck.status <$> rep.(VerificationReport.checks)) }.

(** The retained events are the last ones published, numbered without gaps. *)
Record events_ok run : Prop := {
  eo_counter : (1 <= run.(ExecutionRun.next_event_sequence) <= u64_MAX)%N;
  eo_length : length run.(ExecutionRun.events) =
    N.to_nat (run.(ExecutionRun.next_event_sequence) - 1) `min` MAX_RUN_EVENTS;
  eo_sequence k e : run.(ExecutionRun.events) !! k = Some e →
    e.(RunEvent.run_id) = run.(ExecutionRun.run_id) ∧
    (e.(RunEvent.sequence) + N.of_nat (length run.(ExecutionRun.events) - k) =
     run.(ExecutionRun.next_event_sequence))%N }.

Definition verified_action run i : Prop :=
  ∃ r, run.(ExecutionRun.actions) !! i = Some r ∧ r.(ActionRun.state) = ActionRunState.Verified.

Record run_inv run : Prop := {
  inv_tracks : tracks_plan run;
  inv_serial i j x y : run.(ExecutionRun.actions) !! i = Some x → run.(ExecutionRun.actions) !! j = Some y →
    is_active x = true → is_active y = true → i = j;
  inv_stopped i j x y : run.(ExecutionRun.actions) !! i = Some x → run.(ExecutionRun.actions) !! j = Some y →
    is_stopped x = true → is_active y = false;
  inv_predecessors i j r : run.(ExecutionRun.actions) !! i = Some r →
    r.(ActionRun.state) ≠ ActionRunState.Waiting →
    edge (action_edges run.(ExecutionRun.plan).(ExecutionPlan.dependencies)) j i → verified_action run j;
  inv_evidence i r : run.(ExecutionRun.actions) !! i = Some r → evidence_ok run i r;
  inv_goal rep : run.(ExecutionRun.goal_verification) = Some rep →
    (∀ i r, run.(ExecutionRun.actions) !! i = Some r → r.(ActionRun.state) = ActionRunState.Verified) ∧
    complete_checks run.(ExecutionRun.goal_aspects) rep.(GoalVerificationReport.checks) ∧
    run.(ExecutionRun.latest_observation) = Some rep.(GoalVerificationReport.observation);
  inv_observation o : run.(ExecutionRun.latest_observation) = Some o → observation_wf o;
  inv_events : events_ok run }.

(** *** Events *)

Lemma events_ok_pushed kind run : has_capacity 1 run → events_ok run → events_ok (pushed kind run).
Proof.
  intros Hcap [Hc Hl Hs]. unfold has_capacity in Hcap.
  destruct run as [rid b c d e f g evs next]. simpl in *.
  set (kept := if length evs =? MAX_RUN_EVENTS then tail evs else evs).
  assert (length kept = length evs - (if length evs =? MAX_RUN_EVENTS then 1 else 0)) as Hkl.
  { subst kept. destruct (length evs =? MAX_RUN_EVENTS); [destruct evs; simpl; lia|lia]. }
  assert (∀ k x, kept !! k = Some x → x.(RunEvent.run_id) = rid ∧
    (x.(RunEvent.sequence) + N.of_nat (length kept - k) = next)%N) as Hks.
  { intros k x Hk. subst kept. destruct (length evs =? MAX_RUN_EVENTS); [|by apply Hs].
    destruct evs as [|y evs]; [by destruct k|].
    destruct (Hs (S k) x Hk) as [? Heq]. split; [done|]. simpl in Heq |- *. lia. }
  split; simpl.
  - lia.
  - fold kept. rewrite length_app, Hkl. simpl.
    destruct (Nat.eqb_spec (length evs) MAX_RUN_EVENTS); unfold MAX_RUN_EVENTS in *; lia.
  - fold kept. intros k x [Hk|[-> ->]]%lookup_snoc_Some.
    + pose proof (lookup_lt_Some _ _ _ Hk). destruct (Hks k x Hk) as [? <-]. split; [done|].
      rewrite length_app. simpl. lia.
    + simpl. split; [done|]. rewrite length_app. simpl. lia.
Qed.

(** *** One transition *)

Lemma move_source run i r r' :
  action_move run i r r' →
  r'.(ActionRun.state) ≠ ActionRunState.Waiting ∧
  (is_active r = true ∨
   is_active r' = true ∧ is_stopped r' = false ∧
   (∀ j x, run.(ExecutionRun.actions) !! j = Some x → is_stopped x = false ∧ is_active x = false) ∧
   (∀ j, edge (action_edges run.(ExecutionRun.plan).(ExecutionPlan.dependencies)) j i →
      verified_action run j)).
Proof.
  unfold is_active. destruct r as [s a c v p u]. intros Hm.
  inversion Hm; simpl in *; subst; (split; [by try destruct (BackendCompletion.outcome _);
    try (naive_solver)|]); auto 10.
  match goal with H : _ ∨ _ |- _ => destruct H; subst; auto end.
Qed.

Lemma move_not_verified run i r r' : action_move run i r r' → r.(ActionRun.state) ≠ ActionRunState.Verified.
Proof.
  destruct 1; try congruence. match goal with H : _ ∨ _ |- _ => destruct H; congruence end.
Qed.

Lemma move_evidence run i r r' : action_move run i r r' → evidence_ok run i r → evidence_ok run i r'.
Proof.
  destruct r as [s a c v p u]. intros Hm [Ha Hc Hv]. simpl in *.
  inversion Hm; simpl in *; subst; split; simpl; try done;
    try (destruct (BackendCompletion.outcome _) eqn:Ho; simpl in *); intros; eauto 6; try done.
  all: match goal with H : _ ∨ _ |- _ => destruct H; by subst end.
Qed.

Lemma insert_cases {A} (l : list A) i j x y :
  <[i := x]> l !! j = Some y → (j = i ∧ y = x) ∨ (j ≠ i ∧ l !! j = Some y).
Proof.
  intros H. destruct (decide (i = j)) as [<-|Hne].
  - left. apply list_lookup_insert_Some in H. naive_solver.
  - right. rewrite list_lookup_insert_ne in H by done. auto.
Qed.

(** Changing an action that is not verified keeps the verified ones. *)
Lemma verified_insert run i r r' (run' : ExecutionRun) j :
  run.(ExecutionRun.actions) !! i = Some r → r.(ActionRun.state) ≠ ActionRunState.Verified →
  run'.(ExecutionRun.actions) = <[i := r']> run.(ExecutionRun.actions) →
  verified_action run j → verified_action run' j.
Proof.
  intros Hi Hr Heq (x & Hj & Hx). exists x. rewrite Heq. split; [|done].
  rewrite list_lookup_insert_ne; [done|]. intros ->. congruence.
Qed.

Lemma evidence_plan run run' i r :
  run'.(ExecutionRun.plan) = run.(ExecutionRun.plan) → evidence_ok run i r → evidence_ok run' i r.
Proof.
  intros Hp [Ha Hc Hv].
  unfold admission_complete, verification_complete, contract_of in *.
  split; unfold admission_complete, verification_complete, contract_of; by rewrite ?Hp.
Qed.

Lemma transition_inv run run' : run_inv run → transition run run' → run_inv run'.
Proof.
  intros [Htr Hser Hst Hpre Hev Hgoal Hobs Hevs] Ht.
  destruct Ht as [i r r' latest Hi Hm Hlat| |rep Hall Hcov Hf]; [|done|].
  - pose proof (move_not_verified _ _ _ _ Hm) as Hnv. destruct (move_source _ _ _ _ Hm) as [Hnw Hsrc].
    set (run' := ExecutionRun.mk _ _ _ _ _ _ _ _ _).
    split; simpl.
    + unfold tracks_plan. simpl. by rewrite length_insert.
    + intros j k x y [[-> ->]|[Hj Hx]]%insert_cases [[-> ->]|[Hk Hy]]%insert_cases Hax Hay; try done.
      * destruct Hsrc as [Hr|(_ & _ & Hno & _)]; [by apply (Hser i k r y)|].
        destruct (Hno k y Hy). congruence.
      * destruct Hsrc as [Hr|(_ & _ & Hno & _)]; [by apply (Hser j i x r)|].
        destruct (Hno j x Hx). congruence.
      * by apply (Hser j k x y).
    + intros j k x y [[-> ->]|[Hj Hx]]%insert_cases [[-> ->]|[Hk Hy]]%insert_cases Hsx.
      * unfold is_stopped, is_active in *. by destruct (ActionRun.state r').
      * destruct Hsrc as [Hr|(_ & Hns & _)]; [|congruence]. apply not_true_iff_false.
        intros Hay. by destruct Hk; apply (Hser k i y r).
      * destruct Hsrc as [Hr|(_ & _ & Hno & _)]; [|destruct (Hno j x Hx); congruence].
        pose proof (Hst j i x r Hx Hi Hsx). congruence.
      * by apply (Hst j k x y).
    + intros j k x Hx Hw He. apply (verified_insert run i r r' run'); [done..|].
      apply insert_cases in Hx as [[-> ->]|[Hj Hx]]; [|by apply (Hpre j k x)].
      destruct Hsrc as [Hr|(_ & _ & _ & Hp)]; [|auto]. apply (Hpre i k r Hi); [|done].
      intros Hs. unfold is_active in Hr. by rewrite Hs in Hr.
    + intros j x [[-> ->]|[Hj Hx]]%insert_cases; apply (evidence_plan run); try done;
        [eapply move_evidence; [done|]|]; by apply Hev.
    + intros rep Hrep. destruct (Hgoal rep Hrep) as (Hall & _). by destruct Hnv; apply (Hall i r).
    + intros o Ho. destruct Hlat as [->|(o' & -> & Hf)]; [by apply Hobs|]. simplify_eq. apply Hf.
    + by destruct Hevs.
  - destruct run as [a b c d e f g h k]. simpl in *. split; simpl; try done.
    + intros j x Hx. apply (evidence_plan (ExecutionRun.mk a b c d e f g h k)); [done|by apply Hev].
    + intros rep' [= <-]. split_and!; [done..|]. done.
    + intros o [= <-]. apply Hf.
    + by destruct Hevs.
Qed.

Lemma pushed_inv kind run : has_capacity 1 run → run_inv run → run_inv (pushed kind run).
Proof.
  intros Hc [Htr Hser Hst Hpre Hev Hgoal Hobs Hevs].
  split; [..|by apply events_ok_pushed]; destruct run as [a b c d e f g h k]; simpl in *; try done.
  intros j x Hx. apply (evidence_plan (ExecutionRun.mk a b c d e f g h k)); [done|by apply Hev].
Qed.

Lemma publishes_inv run run' : publishes run run' → run_inv run → run_inv run'.
Proof. induction 1; eauto using pushed_inv. Qed.

Lemma run_transition_inv run run' : run_inv run → run_transition run run' → run_inv run'.
Proof. intros Hr (mid & Ht & Hp). eauto using publishes_inv, transition_inv. Qed.

(** ** Reachability *)

Definition run_step run run' : Prop := ∃ op, (run_op op run).1 = run'.

Lemma run_step_cases run run' :
  tracks_plan run → run_step run run' → run' = run ∨ run_transition run run'.
Proof.
  intros Ht [op <-]. pose proof (run_op_step run op Ht) as Ha. unfold atomic in Ha.
  destruct (run_op op run) as [run' [[]|[]]]; simpl; auto; done.
Qed.

Lemma run_step_inv run run' : run_inv run → run_step run run' → run_inv run'.
Proof.
  intros Hinv [->|?]%run_step_cases; [done|by eapply run_transition_inv|apply Hinv].
Qed.

Lemma new_run_inv display json json' id doc run :
  execution_run_new display json json' id doc = Ok run → run_inv run.
Proof.
  unfold execution_run_new. destruct (map_failure _ _) as [an|]; [|done]. intros [= <-].
  assert (∀ i x, ((λ _ : PlannedAction, ActionRun.waiting) <$>
    an.(HistoricalAnalysis.plan).(ExecutionPlan.actions)) !! i = Some x → x = ActionRun.waiting) as Hw.
  { intros i x Hx. rewrite list_lookup_fmap in Hx. by destruct (_ !! i); simplify_eq/=. }
  split; simpl; try done.
  - unfold tracks_plan. simpl. by rewrite length_fmap.
  - by intros i j x y ->%Hw ->%Hw.
  - by intros i j x y ->%Hw.
  - by intros i j r ->%Hw.
  - intros i r ->%Hw. by split.
Qed.

(** A run obtained from a document by a sequence of calls. *)
Definition reachable (doc : PlanDocument) run : Prop :=
  ∃ display json json' id init,
    execution_run_new display json json' id doc = Ok init ∧ rtc run_step init run.

Lemma reachable_inv doc run : reachable doc run → run_inv run.
Proof.
  intros (display & json & json' & id & init & Hnew & Hr). apply new_run_inv in Hnew.
  induction Hr as [|a b c Hab _ IH]; [done|]. by apply IH; eapply run_step_inv.
Qed.

(** The lifecycle of an action. *)
Inductive legal : ActionRunState → ActionRunState → Prop :=
| legal_begin : legal ActionRunState.Waiting ActionRunState.Checking
| legal_pending : legal ActionRunState.Checking ActionRunState.Checking
| legal_admit : legal ActionRunState.Checking ActionRunState.Admitted_
| legal_reject : legal ActionRunState.Checking ActionRunState.Failed
| legal_dispatch : legal ActionRunState.Admitted_ ActionRunState.Running
| legal_abandon : legal ActionRunState.Admitted_ ActionRunState.Failed
| legal_complete o : legal ActionRunState.Running (outcome_state o)
| legal_verify : legal ActionRunState.Verifying ActionRunState.Verified
| legal_contradict : legal ActionRunState.Verifying ActionRunState.Failed
| legal_unknown : legal ActionRunState.Verifying ActionRunState.OutcomeUnknown.

Lemma move_legal run i r r' :
  action_move run i r r' → legal r.(ActionRun.state) r'.(ActionRun.state).
Proof.
  destruct r as [s a c v p u]. intros Hm. inversion Hm; simpl in *; subst; try constructor;
    match goal with H : _ ∨ _ |- _ => destruct H; subst end; try constructor.
  apply (legal_complete (BackendOutcome.OutcomeUnknown reason)).
Qed.

Lemma publishes_actions run run' :
  publishes run run' → run'.(ExecutionRun.actions) = run.(ExecutionRun.actions) ∧
  run'.(ExecutionRun.latest_observation) = run.(ExecutionRun.latest_observation) ∧
  run'.(ExecutionRun.plan) = run.(ExecutionRun.plan).
Proof. induction 1 as [run ? _|run ? run' _ _ IH]; destruct run; done. Qed.

(** *** Sequences of retained events *)

Lemma events_sequences run s :
  events_ok run →
  (∃ e, e ∈ run.(ExecutionRun.events) ∧ e.(RunEvent.sequence) = s) ↔
  (run.(ExecutionRun.next_event_sequence) <= s + N.of_nat (length run.(ExecutionRun.events)) ∧
   s < run.(ExecutionRun.next_event_sequence))%N.
Proof.
  intros [Hc Hl Hs]. split.
  - intros (e & [k Hk]%list_elem_of_lookup & <-). pose proof (lookup_lt_Some _ _ _ Hk).
    destruct (Hs k e Hk) as [_ <-]. lia.
  - intros [Hlo Hhi]. set (n := length run.(ExecutionRun.events)) in *.
    set (k := N.to_nat (s + N.of_nat n - run.(ExecutionRun.next_event_sequence))).
    destruct (lookup_lt_is_Some_2 run.(ExecutionRun.events) k) as [e Hk]; [fold n; lia|].
    exists e. split; [by eapply list_elem_of_lookup_2|]. destruct (Hs k e Hk) as [_ Heq].
    fold n in Heq. lia.
Qed.

(** ** Theorems *)

(** C13: A call on a reachable run either reports an error and changes nothing, not
    even an event, or follows the transition system; it never panics. *)
Theorem run_op_atomic doc run op :
  reachable doc run →
  match run_op op run with
  | (run', Ok _) => run_transition run run'
  | (run', Err e) => run' = run ∧ ∃ reason, e = Reported reason
  end.
Proof.
  intros Hr%reachable_inv. pose proof (run_op_step run op (inv_tracks _ Hr)) as Ha.
  unfold atomic in Ha. destruct (run_op op run) as [run' [[]|[]]]; try done. eauto.
Qed.

(** C14: Execution is serial and respects the plan: at most one action is active,
    none after a failure or an unknown outcome, and an action that has started
    has all its predecessors verified. *)
Theorem run_serial doc run :
  reachable doc run →
  (∀ i j x y, run.(ExecutionRun.actions) !! i = Some x → run.(ExecutionRun.actions) !! j = Some y →
     is_active x = true → is_active y = true → i = j) ∧
  (∀ i j x y, run.(ExecutionRun.actions) !! i = Some x → run.(ExecutionRun.actions) !! j = Some y →
     is_stopped x = true → is_active y = false) ∧
  (∀ i j r, run.(ExecutionRun.actions) !! i = Some r →
     r.(ActionRun.state) ≠ ActionRunState.Waiting →
     edge (action_edges run.(ExecutionRun.plan).(ExecutionPlan.dependencies)) j i →
     verified_action run j).
Proof. intros [_ Hs Ht Hp _ _ _ _]%reachable_inv. done. Qed.

(** C15: A running action was admitted with all its prerequisites satisfied and all
    its resources held; a verified one also has a successful backend result and
    all its postconditions satisfied on the observation of that result. *)
Theorem run_evidence doc run i r :
  reachable doc run → run.(ExecutionRun.actions) !! i = Some r → evidence_ok run i r.
Proof. intros Hr%reachable_inv Hi. by apply (inv_evidence _ Hr). Qed.

(** An action only moves along its lifecycle, so a verified, failed or unknown
    action is never retried, and accepted observations get strictly newer. *)
Theorem run_step_monotone doc run run' :
  reachable doc run → run_step run run' →
  (∀ i r, run.(ExecutionRun.actions) !! i = Some r →
     ∃ r', run'.(ExecutionRun.actions) !! i = Some r' ∧
           (r' = r ∨ legal r.(ActionRun.state) r'.(ActionRun.state))) ∧
  (run'.(ExecutionRun.latest_observation) = run.(ExecutionRun.latest_observation) ∨
   ∃ o, run'.(ExecutionRun.latest_observation) = Some o ∧ fresh_observation run o).
Proof.
  intros Hr%reachable_inv Hstep.
  apply run_step_cases in Hstep as [->|(mid & Ht & Hp)]; [by split; eauto| |apply Hr].
  apply publishes_actions in Hp as (-> & -> & _). destruct Ht as [i r r' latest Hi Hm Hl| |rep _ _ Hf].
  - simpl. split; [|done]. intros j x Hj. destruct (decide (i = j)) as [->|Hne].
    + rewrite Hi in Hj. simplify_eq. exists r'. rewrite list_lookup_insert_eq by (by eapply lookup_lt_Some).
      split; [done|]. right. by eapply move_legal.
    + exists x. rewrite list_lookup_insert_ne by done. auto.
  - by split; eauto.
  - destruct run. simpl in *. split; eauto.
Qed.

(** A run reports success only when every action is verified and a complete
    final report found every goal aspect and the protected area satisfied on
    the latest observation. *)
Theorem run_verified_sound doc run :
  reachable doc run → is_verified run = true →
  (∀ i, i < length run.(ExecutionRun.plan).(ExecutionPlan.actions) → verified_action run i) ∧
  ∃ rep, run.(ExecutionRun.goal_verification) = Some rep ∧
    complete_checks run.(ExecutionRun.goal_aspects) rep.(GoalVerificationReport.checks) ∧
    all_satisfied (LiveCheck.status <$> rep.(GoalVerificationReport.checks)) ∧
    rep.(GoalVerificationReport.preservation) = LiveCheckStatus.Satisfied ∧
    run.(ExecutionRun.latest_observation) = Some rep.(GoalVerificationReport.observation).
Proof.
  intros Hr%reachable_inv Hv. unfold is_verified in Hv.
  destruct (ExecutionRun.goal_verification run) as [rep|] eqn:Hg; [|done].
  destruct (inv_goal _ Hr rep Hg) as (Hall & Hcov & Hobs). split.
  - intros i Hi. rewrite <-(inv_tracks _ Hr) in Hi.
    destruct (lookup_lt_is_Some_2 _ _ Hi) as [r Hi']. exists r. eauto.
  - exists rep. simpl in Hv. unfold goal_satisfied in Hv.
    apply andb_true_iff in Hv as [Hp%bool_decide_eq_true Hc]. rewrite forallb_elem in Hc.
    split_and!; try done. intros s (c & -> & Hin)%list_elem_of_fmap.
    by apply Hc, bool_decide_eq_true in Hin.
Qed.

(** Event replay: a page has exactly the retained events after the cursor, and
    [gap] is raised exactly when one of the published events after the cursor
    is missing from it. *)
Theorem events_page_spec doc run since :
  reachable doc run →
  let latest := (run.(ExecutionRun.next_event_sequence) - 1)%N in
  match events_page run since with
  | Ok page =>
      (since <= latest)%N ∧ page.(EventsPage.next_sequence) = latest ∧
      (∀ e, e ∈ page.(EventsPage.events) ↔
         e ∈ run.(ExecutionRun.events) ∧ (since < e.(RunEvent.sequence))%N) ∧
      (page.(EventsPage.gap) = false ↔
       ∀ s, (since < s <= latest)%N → ∃ e, e ∈ page.(EventsPage.events) ∧ e.(RunEvent.sequence) = s)
  | Err e => e = Reported (ExecutionRunError.InvalidEventCursor since latest) ∧ (latest < since)%N
  end.
Proof.
  intros Hr%reachable_inv latest. pose proof (inv_events _ Hr) as He.
  pose proof (events_sequences run) as Hseq. destruct (He) as [Hc Hl Hs].
  unfold events_page, u64_checked_sub. rewrite (proj2 (N.leb_le 1 _)) by lia. cbn [ok_or].
  fold latest. destruct (N.ltb_spec latest since); [done|].
  assert (∀ e, e ∈ events_since run since ↔
    e ∈ run.(ExecutionRun.events) ∧ (since < e.(RunEvent.sequence))%N) as Hsince.
  { intros e. unfold events_since. rewrite list_elem_of_filter. tauto. }
  assert (∀ s, (since < s)%N → (∃ e, e ∈ events_since run since ∧ e.(RunEvent.sequence) = s) ↔
    (∃ e, e ∈ run.(ExecutionRun.events) ∧ e.(RunEvent.sequence) = s)) as Hpage.
  { intros s Hs'. setoid_rewrite Hsince. naive_solver. }
  destruct (head run.(ExecutionRun.events)) as [first|] eqn:Hh.
  - rewrite head_lookup in Hh. destruct (Hs 0 first Hh) as [_ Hfirst].
    pose proof (lookup_lt_Some _ _ _ Hh).
    rewrite (proj2 (N.leb_le 1 _)) by lia. cbn [ok_or].
    split_and!; [done|done|done|]. cbn [EventsPage.gap EventsPage.events]. split.
    + intros Hg%N.ltb_ge s Hs'. apply Hpage; [lia|]. apply Hseq; [done|]. lia.
    + intros Hall. apply N.ltb_ge. destruct (N.le_gt_cases (first.(RunEvent.sequence) - 1) since); [done|].
      destruct (Hall (since + 1)%N) as (e & Hin & Heq); [lia|].
      assert (∃ e, e ∈ run.(ExecutionRun.events) ∧ e.(RunEvent.sequence) = (since + 1)%N) as Hx
        by (exists e; split; [by apply Hsince|done]).
      apply Hseq in Hx; [|done]. lia.
  - split_and!; [done|done|done|]. cbn [EventsPage.gap EventsPage.events]. split; [|done].
    intros _ s Hs'. apply head_None in Hh. rewrite Hh in Hl. simpl in Hl.
    unfold MAX_RUN_EVENTS in Hl. lia.
Qed.
