(* ===== verification/Live.v ===== *)
(** * Live checks: [storage-engine/src/live.rs] and [live/]

    Checks of frozen conditions against one actual observation.  Objects of the
    plan are found in the observation by durable identity, outputs of the run
    by the bindings the runtime verified; what cannot be established is
    [Unknown].  The source returns a status early through [Err(status) => return
    status]: a lookup is a [result] whose reported error is a status, and
    [settle] is that early return.  [display] is the text of a correlation
    error. *)

From S2P Require Import Prelude Model Graph GraphOrder GraphValid State Action Contract Logical.
From S2P Require Import Evidence Prerequisites Effects Report PlanOrder Compose ComposeProps.
From S2P Require Import Simulate SimulateProps Wire Observation Correlate.

Abbreviation looking_up A := (result A (Failure LiveCheckStatus)) (only parsing).
Abbreviation live A := (result A (Failure ObservationError)) (only parsing).

Module ObservedPrerequisites.
Record ObservedPrerequisites := mk {
  observation : ObservationReference;
  checks : list (LiveCheck ActionPrerequisite) }.
End ObservedPrerequisites.
Abbreviation ObservedPrerequisites := ObservedPrerequisites.ObservedPrerequisites.

Module ObservedPostconditions.
Record ObservedPostconditions := mk {
  observation : ObservationReference;
  checks : list (LiveCheck Postcondition) }.
End ObservedPostconditions.
Abbreviation ObservedPostconditions := ObservedPostconditions.ObservedPostconditions.

(** [ExecutionContext] of [execution.rs]. *)
Module ExecutionContext.
Record ExecutionContext := mk {
  run_id : Uuid;
  plan_id : Uuid;
  plan : ExecutionPlan;
  historical_baseline : HistoricalBaseline;
  requested_goal : DesiredState;
  protected_scope : ProtectedScope }.
End ExecutionContext.
Abbreviation ExecutionContext := ExecutionContext.ExecutionContext.

Abbreviation unknown reason := (LiveCheckStatus.Unknown reason) (only parsing).
Abbreviation violated reason := (LiveCheckStatus.Violated reason) (only parsing).

Implicit Types (baseline : HistoricalBaseline) (observation : LiveObservation)
  (bindings : list NodeCorrelation).

Abbreviation observed_graph o := (o.(LiveObservation.snapshot).(CurrentState.graph)) (only parsing).
Abbreviation baseline_graph b := (b.(HistoricalBaseline.snapshot).(CurrentState.graph)) (only parsing).
Abbreviation observed_mounts o :=
  (o.(LiveObservation.snapshot).(CurrentState.mounts).(MountState.entries)) (only parsing).

(** [Err(status) => return status] *)
Definition settle (r : looking_up LiveCheckStatus) : live LiveCheckStatus :=
  match r with
  | Ok status | Err (Reported status) => Ok status
  | Err Panicked => Err Panicked
  | Err OutOfFuel => Err OutOfFuel
  end.

Definition is_blocking (d : Diagnostic) : bool :=
  bool_decide (d.(Diagnostic.severity) ≠ DiagnosticSeverity.Warning).

Definition qualify_observed_status observation (status : LiveCheckStatus) : LiveCheckStatus :=
  if bool_decide (status = LiveCheckStatus.Satisfied) &&
     existsb is_blocking observation.(LiveObservation.snapshot).(CurrentState.diagnostics)
  then unknown "resolve blocking probe diagnostics before relying on observed facts"
  else status.

Section live.
Variable display : CorrelationError → string.

Definition correlated_node baseline observation (source : NodeId) : looking_up (NodeId * Node) :=
  let? mappings :=
    match correlate_nodes baseline.(HistoricalBaseline.snapshot)
            observation.(LiveObservation.snapshot) [source] with
    | Ok mappings => Ok mappings
    | Err (Reported e) => Err (Reported (unknown ("fresh identity correlation: " +:+ display e)))
    | Err Panicked => Err Panicked
    | Err OutOfFuel => Err OutOfFuel
    end in
  let? mapping := report (ok_or (head mappings) (unknown "missing identity correlation")) in
  let target := mapping.(NodeCorrelation.target) in
  let? node := report (ok_or (Graph.node (observed_graph observation) target)
                         (unknown "correlated node is absent")) in
  Ok (target, node).

(** Whether a binding names the object by an identity of the expected form. *)
Definition binding_identity_matches (kind : NodeKind) (identity : ExternalId) : bool :=
  match kind, identity with
  | NodeKind.LvmLv _, ExternalId.LvmLvUuid uuid => is_trimmed uuid
  | NodeKind.Filesystem kind _, ExternalId.Filesystem fs_type value =>
      bool_decide (fs_type = FilesystemKind.as_str kind) && is_trimmed value
  | _, _ => false
  end.

Definition bound_node baseline observation (source : NodeId) bindings
    : result (NodeId * Node) LiveCheckStatus :=
  match filter (λ b, b.(NodeCorrelation.source) = source) bindings with
  | [] => Err (unknown "created output requires runtime UUID evidence")
  | binding :: more =>
      let target := binding.(NodeCorrelation.target) in
      let durable := binding.(NodeCorrelation.identity) in
      if negb (bool_decide (more = [])) ||
         negb (length (filter (λ b, b.(NodeCorrelation.target) = target) bindings) =? 1)%nat
      then Err (unknown "created output binding is ambiguous")
      else if negb (length (holders (baseline_graph baseline) durable) =? 0)%nat
      then Err (unknown "created output UUID already exists in the historical baseline")
      else
        let? node := ok_or (Graph.node (observed_graph observation) target)
                       (unknown "bound output is absent") in
        if is_nil source
           || bool_decide (node.(Node.size).(NodeFacts.presence) ≠ Presence.Present)
           || negb (binding_identity_matches node.(Node.kind).(NodeSpec.kind) durable)
           || negb (contains durable (identities node))
           || negb (same_form durable node =? 1)%nat
           || negb (length (holders (observed_graph observation) durable) =? 1)%nat
        then Err (unknown "created output needs one unambiguous observed LV or filesystem UUID")
        else Ok (target, node)
  end.

Definition result_node baseline observation (source : NodeId) bindings : looking_up (NodeId * Node) :=
  match Graph.node (baseline_graph baseline) source with
  | Some _ => correlated_node baseline observation source
  | None => report (bound_node baseline observation source bindings)
  end.

(** ** Prerequisites *)

Definition condition_node (condition : ActionPrerequisite) : option NodeId :=
  match condition with
  | ActionPrerequisite.NodeExists node | ActionPrerequisite.NodeKind node _
  | ActionPrerequisite.Writable node | ActionPrerequisite.NoUnexpectedConsumers node
  | ActionPrerequisite.NoUnexpectedRelations node | ActionPrerequisite.FilesystemUnmounted node =>
      Some node
  | _ => None
  end.

(** The facts of the node that was found. *)
Definition observed_fact observation (condition : ActionPrerequisite) (target : NodeId) (node : Node)
    : LiveCheckStatus :=
  let graph := observed_graph observation in
  let kind := node.(Node.kind).(NodeSpec.kind) in
  match condition with
  | ActionPrerequisite.NodeExists _ => LiveCheckStatus.Satisfied
  | ActionPrerequisite.NodeKind _ expected =>
      if matches_kind kind expected then LiveCheckStatus.Satisfied
      else violated "observed node kind does not satisfy the frozen condition"
  | ActionPrerequisite.Writable _ =>
      if matches_kind kind NodeKindClass.Block then
        match node.(Node.size).(NodeFacts.block) ≫= BlockFacts.read_only with
        | Some false => LiveCheckStatus.Satisfied
        | Some true => violated "observed block endpoint is read-only"
        | None => unknown "fresh block read-only status is required"
        end
      else unknown "a supported observed block endpoint is required"
  | ActionPrerequisite.NoUnexpectedConsumers _ =>
      if existsb (λ d, bool_decide (d.(Dependency.from_) = target)) graph.(NodeGraph.dependencies) ||
         existsb (λ m, bool_decide (mount_source_node m.(ObservedMount.source) = Some target))
           (observed_mounts observation)
      then violated "an upper-layer consumer is present in the observation"
      else unknown "complete consumer and mount-namespace coverage is required"
  | ActionPrerequisite.NoUnexpectedRelations _ =>
      if existsb (λ r, bool_decide (r.(Relation.from_) = target) || bool_decide (r.(Relation.to) = target))
           graph.(NodeGraph.relations)
      then violated "an incident storage relation is present in the observation"
      else unknown "complete provider relation coverage is required"
  | ActionPrerequisite.FilesystemUnmounted _ =>
      if negb (matches_kind kind NodeKindClass.Filesystem)
      then violated "correlated node is not a filesystem"
      else if existsb (λ m, bool_decide (m.(ObservedMount.source) = MountSource.Filesystem target))
                (observed_mounts observation)
      then violated "filesystem is mounted in an observed namespace"
      else unknown "complete mount-namespace coverage and resolved mount sources are required"
  | _ => unknown "a supported observed block endpoint is required"
  end.

Definition check_node_fact baseline observation (condition : ActionPrerequisite) bindings
    : live LiveCheckStatus :=
  match condition_node condition with
  | None => Ok (unknown "runtime provider evidence is required for this condition")
  | Some source =>
      settle (let? (target, node) := result_node baseline observation source bindings in
              Ok (observed_fact observation condition target node))
  end.

(** The two representation checks every entry point starts with. *)
Definition valid_inputs baseline observation : live unit :=
  let? _ := report (validate_observation observation) in
  report (map_err ObservationError.Graph (validate_structure (baseline_graph baseline))).

Definition check_prerequisites_with_bindings baseline observation
    (prerequisites : list ActionPrerequisite) bindings : live ObservedPrerequisites :=
  let? _ := valid_inputs baseline observation in
  let? checks := try_map (λ condition,
      let? status := check_node_fact baseline observation condition bindings in
      Ok (LiveCheck.mk condition (qualify_observed_status observation status))) prerequisites in
  Ok (ObservedPrerequisites.mk observation.(LiveObservation.reference) checks).

Definition check_observed_prerequisites baseline observation
    (prerequisites : list ActionPrerequisite) : live ObservedPrerequisites :=
  check_prerequisites_with_bindings baseline observation prerequisites [].

(** ** Capacity ([live/capacity.rs]) *)

Definition same_extents (original : option NodeKind) (current : NodeKind) : bool :=
  match original, current with
  | Some (NodeKind.LvmVg _ (Some old)), NodeKind.LvmVg _ (Some new) => (old =? new)%N
  | _, _ => false
  end.

Definition check_capacity baseline observation (capacity : list CapacityEvidence)
    (domain : AllocationDomain) (amount : option AllocationQuantity) : live LiveCheckStatus :=
  match amount with
  | None => Ok (unknown "exact provider allocation requirement is needed")
  | Some amount =>
      let 'AllocationDomain.LvmVolumeGroup source := domain in
      settle (
        let? (target, current) := correlated_node baseline observation source in
        if negb (same_extents (kind_of (baseline_graph baseline) source)
                   current.(Node.kind).(NodeSpec.kind))
        then Ok (unknown "VG allocation units changed or are unknown; review the frozen plan again")
        else
          match find_first (λ c, bool_decide (c.(CapacityEvidence.domain) =
                                              AllocationDomain.LvmVolumeGroup target)) capacity with
          | None => Ok (unknown "validated same-pass VG free capacity is required")
          | Some measured =>
              Ok (if (amount <=? measured.(CapacityEvidence.available))%N
                  then LiveCheckStatus.Satisfied
                  else violated "fresh VG free capacity is smaller than the frozen allocation requirement")
          end)
  end.

(** The update of one check in place. *)
Definition with_capacity baseline observation (capacity : list CapacityEvidence)
    (check : LiveCheck ActionPrerequisite) : live (LiveCheck ActionPrerequisite) :=
  match check.(LiveCheck.condition) with
  | ActionPrerequisite.CapacityAvailable domain amount =>
      let? status := check_capacity baseline observation capacity domain amount in
      Ok (LiveCheck.mk check.(LiveCheck.condition) (qualify_observed_status observation status))
  | _ => Ok check
  end.

Definition check_observed_prerequisites_with_bindings baseline observation
    (capacity : list CapacityEvidence) (prerequisites : list ActionPrerequisite) bindings
    : live ObservedPrerequisites :=
  let? found := check_prerequisites_with_bindings baseline observation prerequisites bindings in
  let? checks := try_map (with_capacity baseline observation capacity)
                   found.(ObservedPrerequisites.checks) in
  Ok (ObservedPrerequisites.mk found.(ObservedPrerequisites.observation) checks).

Definition check_observed_prerequisites_with_capacity baseline observation
    (capacity : list CapacityEvidence) (prerequisites : list ActionPrerequisite)
    : live ObservedPrerequisites :=
  check_observed_prerequisites_with_bindings baseline observation capacity prerequisites [].

(** ** Mounts ([live/mount.rs]) *)

Fixpoint has_whitespace (bytes : list N) : bool :=
  bool_decide (is_Some (strip_white bytes)) ||
  match bytes with [] => false | _ :: rest => has_whitespace rest end.

(** The part before the first [=], or all of it. *)
Fixpoint option_key (option : string) : string :=
  match option with
  | EmptyString => EmptyString
  | String a rest => if (Ascii.N_of_ascii a =? 61)%N then EmptyString else String a (option_key rest)
  end.

Definition is_plain_option (option : string) : bool :=
  negb (bool_decide (option = ""%string) || bool_decide (option = "defaults"%string)
        || string_contains_byte 44 option || string_contains_byte 0 option
        || has_whitespace (utf8 option)).

Fixpoint collect_options (keys found options : list string) : option (list string) :=
  match options with
  | [] => Some found
  | option :: options =>
      if negb (is_plain_option option) then None
      else
        let key := option_key option in
        let '(new, keys) := set_insert key keys in
        if bool_decide (key = ""%string) || negb new then None
        else collect_options keys (found ++ [option]) options
  end.

Definition exclusive_groups : list (list string) :=
  [["exec"; "noexec"]; ["suid"; "nosuid"]; ["dev"; "nodev"];
   ["atime"; "noatime"; "relatime"; "strictatime"]; ["diratime"; "nodiratime"]]%string.

Definition explicit_options (options : list string) : option (list string) :=
  match collect_options [] [] options with
  | None => None
  | Some found =>
      if negb (xorb (contains "rw"%string found) (contains "ro"%string found)) then None
      else if existsb (λ group, 1 <? length (filter (λ o, o ∈ found) group))%nat exclusive_groups
      then None
      else Some (sort_by String.leb found)
  end.

Definition options_status (requested observed : list string) : LiveCheckStatus :=
  match explicit_options requested, explicit_options observed with
  | Some requested, Some observed =>
      if bool_decide (requested = observed) then LiveCheckStatus.Satisfied
      else violated "observed mount options differ from the requested goal"
  | _, _ => unknown "explicit normalized mount options with one access mode are required"
  end.

Definition observed_source baseline observation (source : MountSource) bindings
    : looking_up MountSource :=
  match source with
  | MountSource.Filesystem id =>
      let? (id, node) := result_node baseline observation id bindings in
      match node.(Node.kind).(NodeSpec.kind) with
      | NodeKind.Filesystem _ _ => Ok (MountSource.Filesystem id)
      | _ => Err (Reported (violated "correlated mount source is not a filesystem"))
      end
  | MountSource.Tmpfs => Ok MountSource.Tmpfs
  | _ => Err (Reported (unknown "independent evidence for this mount source is required"))
  end.

Definition observed_mount baseline observation (source : MountSource) (target : PathBuf)
    (context : MountContext) bindings : looking_up ObservedMount :=
  if bool_decide (context ≠ MountContext.Host)
  then Err (Reported (unknown "independent mount namespace evidence is required"))
  else if negb (is_absolute target) || contains Component.ParentDir target || path_contains_nul target
  then Err (Reported (unknown "mount target must be a normalized absolute path"))
  else
    let? source := observed_source baseline observation source bindings in
    match filter (λ m, m.(ObservedMount.target) = target ∧ m.(ObservedMount.context) = context)
            (observed_mounts observation) with
    | [] => Err (Reported (unknown "requested mount was not observed; complete coverage is required"))
    | mount :: more =>
        if negb (bool_decide (more = []))
        then Err (Reported (unknown "multiple mount records occupy the requested target"))
        else if match mount.(ObservedMount.source) with MountSource.Other _ => true | _ => false end
        then Err (Reported (unknown "observed mount source is unresolved"))
        else if bool_decide (mount.(ObservedMount.source) ≠ source)
        then Err (Reported (violated "mount target is occupied by a different source"))
        else Ok mount
    end.

(** ** Postconditions ([live/verify.rs]) *)

Definition check_edge baseline observation (edge : Dependency) (expected : bool) bindings
    : looking_up LiveCheckStatus :=
  let? (from, _) := result_node baseline observation edge.(Dependency.from_) bindings in
  let? (to, _) := result_node baseline observation edge.(Dependency.to) bindings in
  let present := existsb (λ actual, bool_decide (actual.(Dependency.from_) = from) &&
      bool_decide (actual.(Dependency.to) = to) &&
      bool_decide (actual.(Dependency.kind) = edge.(Dependency.kind)))
    (observed_graph observation).(NodeGraph.dependencies) in
  Ok match expected, present with
     | true, true => LiveCheckStatus.Satisfied
     | false, true => violated "dependency is still present in the observed graph"
     | _, _ => unknown "complete dependency coverage is required to establish absence"
     end.

Definition result_source (condition : Postcondition) : option NodeId :=
  match condition with
  | Postcondition.NodeMatches id _ => Some id
  | Postcondition.NodeSize node _ | Postcondition.NodeReprobed node
  | Postcondition.Activation node _ => Some node
  | Postcondition.FilesystemLabel filesystem _ => Some filesystem
  | Postcondition.NodeAbsent node => Some node
  | _ => None
  end.

(** The properties of the node that was found. *)
Definition observed_result (condition : Postcondition) (observed : Node) : LiveCheckStatus :=
  let kind := observed.(Node.kind).(NodeSpec.kind) in
  let size := observed.(Node.kind).(NodeSpec.size) in
  match condition with
  | Postcondition.Activation _ active =>
      match kind with
      | NodeKind.LvmLv _ =>
          match observed.(Node.size).(NodeFacts.lvm_active) with
          | Some actual =>
              if eqb actual active then LiveCheckStatus.Satisfied
              else violated "observed LV activation differs from the requested result"
          | None => unknown "fresh unambiguous native LV activation state is required"
          end
      | _ => unknown "unsupported observed node result"
      end
  | Postcondition.NodeAbsent _ => violated "correlated object is still present in the observation"
  | Postcondition.NodeReprobed _ => LiveCheckStatus.Satisfied
  | Postcondition.NodeSize _ expected =>
      match size with
      | Some actual =>
          if (actual =? expected)%N then LiveCheckStatus.Satisfied
          else violated "observed size differs from the requested result"
      | None => unknown "fresh observed node size is required"
      end
  | Postcondition.NodeMatches _ spec =>
      if bool_decide (kind ≠ spec.(NodeSpec.kind))
      then violated "observed node kind or properties differ from the requested result"
      else match spec.(NodeSpec.size), size with
           | None, _ => LiveCheckStatus.Satisfied
           | Some expected, Some actual =>
               if (expected =? actual)%N then LiveCheckStatus.Satisfied
               else violated "observed size differs from the requested result"
           | Some _, None => unknown "fresh observed node size is required"
           end
  | Postcondition.FilesystemLabel _ label =>
      match kind with
      | NodeKind.Filesystem _ actual =>
          if bool_decide (actual = label) then LiveCheckStatus.Satisfied
          else violated "observed filesystem label differs from the requested result"
      | _ => violated "correlated object is not a filesystem"
      end
  | _ => unknown "unsupported observed node result"
  end.

Definition check_result baseline observation (condition : Postcondition) bindings
    : live LiveCheckStatus :=
  match condition with
  | Postcondition.DependencyPresent edge => settle (check_edge baseline observation edge true bindings)
  | Postcondition.DependencyAbsent edge => settle (check_edge baseline observation edge false bindings)
  | Postcondition.RuntimeMountPresent source target context =>
      settle (let? _ := observed_mount baseline observation source target context bindings in
              Ok LiveCheckStatus.Satisfied)
  | Postcondition.RuntimeMountAbsent target context =>
      Ok (if existsb (λ m, bool_decide (m.(ObservedMount.target) = target) &&
                           bool_decide (m.(ObservedMount.context) = context))
               (observed_mounts observation)
          then violated "mount target is still occupied in an observed context"
          else unknown "complete mount namespace coverage is required to establish absence")
  | _ =>
      match result_source condition with
      | None => Ok (unknown
          "provider result or complete observation coverage is required for this postcondition")
      | Some source =>
          settle (let? (_, observed) := result_node baseline observation source bindings in
                  Ok (observed_result condition observed))
      end
  end.

Definition check_observed_postconditions_with_bindings baseline observation
    (postconditions : list Postcondition) bindings : live ObservedPostconditions :=
  let? _ := valid_inputs baseline observation in
  let? checks := try_map (λ condition,
      let? status := check_result baseline observation condition bindings in
      Ok (LiveCheck.mk condition (qualify_observed_status observation status))) postconditions in
  Ok (ObservedPostconditions.mk observation.(LiveObservation.reference) checks).

Definition check_observed_postconditions baseline observation
    (postconditions : list Postcondition) : live ObservedPostconditions :=
  check_observed_postconditions_with_bindings baseline observation postconditions [].

(** ** The final goal ([live/goal.rs]) *)

(** [Iterator::any] with a body that can panic. *)
Fixpoint try_any {A E} (f : A → result bool E) (l : list A) : result bool E :=
  match l with
  | [] => Ok false
  | x :: l => let? b := f x in if b then Ok true else try_any f l
  end.

(** One requested node: its observed partner is new, of the requested kind and
    of the requested size. *)
Definition match_goal_node (context : ExecutionContext) observation bindings
    (mapping : gmap NodeId NodeId) (entry : NodeId * Node) : looking_up (gmap NodeId NodeId) :=
  let '(id, requested) := entry in
  let? (target, node) :=
    result_node context.(ExecutionContext.historical_baseline) observation id bindings in
  if existsb (λ other, bool_decide (other = target)) (map_to_list mapping).*2
  then Err (Reported (unknown "final graph correlation is not one-to-one"))
  else if bool_decide (requested.(Node.kind).(NodeSpec.kind) ≠ node.(Node.kind).(NodeSpec.kind))
  then Err (Reported (violated "final node properties differ from the requested goal"))
  else match requested.(Node.kind).(NodeSpec.size), node.(Node.kind).(NodeSpec.size) with
       | None, _ => Ok (<[id := target]> mapping)
       | Some size, Some actual =>
           if (actual =? size)%N then Ok (<[id := target]> mapping)
           else Err (Reported (violated "final node capacity differs from the requested goal"))
       | Some _, None => Err (Reported (unknown "final managed node capacity is unknown"))
       end.

(** [mapping[&id]] panics for an unmapped node. *)
Definition mapped {E} (mapping : gmap NodeId NodeId) (id : NodeId) : result NodeId (Failure E) :=
  ok_or (mapping !! id) Panicked.

Definition edge_missing {E} (mapping : gmap NodeId NodeId) (actual : list Dependency)
    (edge : Dependency) : result bool (Failure E) :=
  let? found := try_any (λ other,
      let? from := mapped mapping edge.(Dependency.from_) in
      if bool_decide (other.(Dependency.from_) ≠ from) then Ok false
      else
        let? to := mapped mapping edge.(Dependency.to) in
        Ok (bool_decide (other.(Dependency.to) = to) &&
            bool_decide (other.(Dependency.kind) = edge.(Dependency.kind)))) actual in
  Ok (negb found).

Definition relation_missing {E} (mapping : gmap NodeId NodeId) (actual : list Relation)
    (edge : Relation) : result bool (Failure E) :=
  let? found := try_any (λ other,
      let? from := mapped mapping edge.(Relation.from_) in
      if bool_decide (other.(Relation.from_) ≠ from) then Ok false
      else
        let? to := mapped mapping edge.(Relation.to) in
        Ok (bool_decide (other.(Relation.to) = to) &&
            bool_decide (other.(Relation.kind) = edge.(Relation.kind)))) actual in
  Ok (negb found).

Definition topology_differs {E} (mapping : gmap NodeId NodeId) (goal actual : NodeGraph)
    : result bool (Failure E) :=
  if negb (size goal.(NodeGraph.nodes) =? size actual.(NodeGraph.nodes))%nat
     || negb (length goal.(NodeGraph.dependencies) =? length actual.(NodeGraph.dependencies))%nat
     || negb (length goal.(NodeGraph.relations) =? length actual.(NodeGraph.relations))%nat
  then Ok true
  else
    let? missing := try_any (edge_missing mapping actual.(NodeGraph.dependencies))
                      goal.(NodeGraph.dependencies) in
    if missing : bool then Ok true
    else try_any (relation_missing mapping actual.(NodeGraph.relations)) goal.(NodeGraph.relations).

Definition writable_interface (node : Node) : bool :=
  is_some_and (λ block, bool_decide (block.(BlockFacts.read_only) = Some false) &&
                        bool_decide (is_Some block.(BlockFacts.geometry)) &&
                        negb (bool_decide (block.(BlockFacts.paths) = [])))
    node.(Node.size).(NodeFacts.block).

Definition activation_status (context : ExecutionContext) observation bindings (target : NodeId)
    (active : bool) : looking_up LiveCheckStatus :=
  let? (_, node) :=
    result_node context.(ExecutionContext.historical_baseline) observation target bindings in
  match node.(Node.kind).(NodeSpec.kind) with
  | NodeKind.LvmLv _ =>
      match node.(Node.size).(NodeFacts.lvm_active) with
      | None => Ok (unknown "final LV activation state is unknown")
      | Some actual =>
          if negb (eqb actual active)
          then Ok (violated "final LV activation differs from the reviewed request")
          else if active && negb (writable_interface node)
          then Ok (unknown "final active LV requires a known writable block interface")
          else Ok LiveCheckStatus.Satisfied
      end
  | _ => Ok (unknown "final activation verification supports only logical volumes")
  end.

(** A status other than [Satisfied] is returned at once. *)
Definition require_satisfied (r : looking_up LiveCheckStatus) : looking_up unit :=
  let? status := r in
  if bool_decide (status = LiveCheckStatus.Satisfied) then Ok tt else Err (Reported status).

Definition check_activation (context : ExecutionContext) observation bindings
    (seen : list NodeId) (action : PlannedAction) : looking_up (list NodeId) :=
  match action.(PlannedAction.operation) with
  | ProviderAction.Lvm (LvmAction.SetActivation target active) =>
      let '(new, seen) := set_insert target seen in
      if new : bool then
        let? _ := require_satisfied (activation_status context observation bindings target active) in
        Ok seen
      else Ok seen
  | _ => Ok seen
  end.

Definition check_intent (context : ExecutionContext) observation bindings
    (intent : OperationIntent) : looking_up unit :=
  match intent with
  | OperationIntent.SetActivation target active =>
      require_satisfied (activation_status context observation bindings target active)
  | _ => Err (Reported (unknown
      "independent final evidence for the requested operation intent is required"))
  end.

Definition graph_status (context : ExecutionContext) observation bindings : live LiveCheckStatus :=
  let goal := context.(ExecutionContext.requested_goal).(DesiredState.graph) in
  settle (
    let? mapping := try_fold (match_goal_node context observation bindings) ∅
                      (map_to_list goal.(NodeGraph.nodes)) in
    let? differs := topology_differs mapping goal (observed_graph observation) in
    if differs : bool then Ok (violated "final topology differs from the requested goal")
    else
      let? ordered := ordered_actions context.(ExecutionContext.plan) in
      let? _ := try_fold (check_activation context observation bindings) [] (reverse ordered) in
      let? _ := try_all (check_intent context observation bindings)
                  context.(ExecutionContext.requested_goal).(DesiredState.intents) in
      Ok LiveCheckStatus.Satisfied).

Definition goal_mount_check (context : ExecutionContext) observation bindings (mount : MountEntry)
    : live (LiveCheck GoalAspect) :=
  let? status := settle (
      let? actual := observed_mount context.(ExecutionContext.historical_baseline) observation
        mount.(MountEntry.source) mount.(MountEntry.target) mount.(MountEntry.context) bindings in
      Ok (options_status mount.(MountEntry.options) actual.(ObservedMount.options))) in
  Ok (LiveCheck.mk (GoalAspect.RuntimeMount mount.(MountEntry.target) mount.(MountEntry.context))
        (qualify_observed_status observation status)).

Definition goal_persistent_check (mount : MountEntry) : LiveCheck GoalAspect :=
  LiveCheck.mk (GoalAspect.PersistentMount mount.(MountEntry.target) mount.(MountEntry.context))
    (unknown "independent persistent configuration verification is required").

Definition goal_boot_check (boot : BootSpec) : LiveCheck GoalAspect :=
  LiveCheck.mk GoalAspect.Boot
    match boot with
    | BootSpec.Unmanaged => LiveCheckStatus.Satisfied
    | _ => unknown "independent managed boot verification is required"
    end.

Definition check_observed_goal (context : ExecutionContext) observation bindings
    : live (list (LiveCheck GoalAspect)) :=
  let goal := context.(ExecutionContext.requested_goal) in
  let? _ := valid_inputs context.(ExecutionContext.historical_baseline) observation in
  let? _ := report (map_err ObservationError.Graph (validate_structure goal.(DesiredState.graph))) in
  let? graph := graph_status context observation bindings in
  let? mounts := try_map (goal_mount_check context observation bindings)
                   goal.(DesiredState.mounts).(MountSpec.runtime) in
  Ok ([LiveCheck.mk GoalAspect.Graph (qualify_observed_status observation graph)] ++ mounts ++
      (goal_persistent_check <$> goal.(DesiredState.mounts).(MountSpec.persistent)) ++
      [goal_boot_check goal.(DesiredState.boot)]).
End live.
