(* ===== verification/LiveProps.v ===== *)
(** * Soundness of the live checks

    A satisfied live check is true of the observation it inspected and a
    violated one is false of it; the conditions of a report are the frozen
    ones; and a fully satisfied goal report exhibits an isomorphism between the
    requested and the observed graph. *)

From S2P Require Import Prelude Model Graph GraphOrder GraphValid State Action Contract Logical.
From S2P Require Import Evidence Prerequisites Effects Report PlanOrder Compose ComposeProps.
From S2P Require Import Simulate SimulateProps Wire Observation Correlate Live.

Implicit Types (baseline : HistoricalBaseline) (observation : LiveObservation)
  (bindings : list NodeCorrelation) (source target : NodeId).

(** ** Objects of the plan in an observation *)

(** A node of the plan and the observed object it stands for: the same durable
    object, or an output of the run under an identity the baseline did not
    know. *)
Record recognised baseline observation bindings source target (node : Node) : Prop := {
  rec_node : Graph.node (observed_graph observation) target = Some node;
  rec_identity :
    (∃ identity, correlated baseline.(HistoricalBaseline.snapshot)
       observation.(LiveObservation.snapshot) (NodeCorrelation.mk source target identity)) ∨
    Graph.node (baseline_graph baseline) source = None ∧
    ∃ b, b ∈ bindings ∧ b.(NodeCorrelation.source) = source ∧ b.(NodeCorrelation.target) = target ∧
      sole_holder (observed_graph observation) b.(NodeCorrelation.identity) target node ∧
      ∀ id n, Graph.node (baseline_graph baseline) id = Some n →
              b.(NodeCorrelation.identity) ∉ identities n }.

(** A lookup finds what it looks for, reports an evidence gap or reports a
    contradiction; it is never itself a positive verdict. *)
Definition finds {A} (P : A → Prop) (refuted : Prop) (r : result A (Failure LiveCheckStatus)) : Prop :=
  match r with
  | Ok a => P a
  | Err (Reported (LiveCheckStatus.Unknown _)) => True
  | Err (Reported (LiveCheckStatus.Violated _)) => refuted
  | _ => False
  end.

Lemma finds_bind {A B} (P : A → Prop) (Q : B → Prop) (C D : Prop) (r : result A (Failure LiveCheckStatus)) k :
  finds P C r → (C → D) → (∀ a, P a → finds Q D (k a)) → finds Q D (let? a := r in k a).
Proof. destruct r as [a|[[]| |]]; simpl; auto. Qed.

Lemma finds_mono {A} (P Q : A → Prop) (C D : Prop) r :
  finds P C r → (∀ a, P a → Q a) → (C → D) → finds Q D r.
Proof. destruct r as [a|[[]| |]]; simpl; auto. Qed.

Section lookup.
Variable display : CorrelationError → string.

Lemma correlated_node_ok baseline observation bindings source :
  finds (λ e, recognised baseline observation bindings source e.1 e.2) False
    (correlated_node display baseline observation source).
Proof.
  unfold correlated_node.
  pose proof (correlate_nodes_returns baseline.(HistoricalBaseline.snapshot)
    observation.(LiveObservation.snapshot) [source]) as Hr.
  destruct (correlate_nodes _ _ _) as [cs|[e| |]] eqn:Hc; try done.
  apply correlate_single in Hc as (_ & _ & c & -> & <- & Hc). cbn [head ok_or report map_err].
  destruct (Graph.node _ c.(NodeCorrelation.target)) as [node|] eqn:Hn; [|done]. simpl.
  split; [done|]. left. exists c.(NodeCorrelation.identity). by destruct c.
Qed.

Lemma result_node_ok baseline observation source bindings :
  finds (λ e, recognised baseline observation bindings source e.1 e.2) False
    (result_node display baseline observation source bindings).
Proof.
  unfold result_node. destruct (Graph.node (baseline_graph baseline) source) eqn:Hsrc.
  { apply correlated_node_ok. }
  unfold bound_node.
  destruct (filter _ bindings) as [|b more] eqn:Hf; [done|].
  destruct (negb (bool_decide (more = [])) || _); [done|].
  destruct (length (holders (baseline_graph baseline) _) =? 0) eqn:Hold; [|done].
  apply Nat.eqb_eq in Hold. cbn [negb].
  destruct (Graph.node _ b.(NodeCorrelation.target)) as [node|] eqn:Hn; [|done]. cbn [ok_or].
  destruct (_ || _) eqn:Hg; [done|].
  apply orb_false_iff in Hg as [[[_ Hi]%orb_false_iff _]%orb_false_iff Hone].
  apply negb_false_iff in Hi, Hone. apply contains_true in Hi. apply Nat.eqb_eq in Hone.
  assert (b ∈ filter (λ b, b.(NodeCorrelation.source) = source) bindings) as Hb by (rewrite Hf; by left).
  apply list_elem_of_filter in Hb as [Hbs Hb]. simpl. split; [done|]. right. split; [done|].
  exists b. split_and!; [done..| |by apply holders_none]. by apply holders_one.
Qed.
End lookup.

(** ** Prerequisites *)

Definition trustworthy observation : Prop :=
  ∀ d, d ∈ observation.(LiveObservation.snapshot).(CurrentState.diagnostics) →
       d.(Diagnostic.severity) = DiagnosticSeverity.Warning.

Lemma qualify_satisfied observation status :
  qualify_observed_status observation status = LiveCheckStatus.Satisfied →
  status = LiveCheckStatus.Satisfied ∧ trustworthy observation.
Proof.
  unfold qualify_observed_status. destruct (bool_decide (status = _)) eqn:Hs; simpl.
  2: { apply bool_decide_eq_false in Hs. done. }
  apply bool_decide_eq_true in Hs as ->.
  destruct (existsb is_blocking _) eqn:He; [done|]. intros _. split; [done|]. intros d Hd.
  rewrite existsb_false in He. specialize (He d Hd). unfold is_blocking in He.
  by apply bool_decide_eq_false, dec_stable in He.
Qed.

Lemma qualify_violated observation status reason :
  qualify_observed_status observation status = LiveCheckStatus.Violated reason →
  status = LiveCheckStatus.Violated reason.
Proof.
  unfold qualify_observed_status. destruct (bool_decide _); simpl; [|done].
  by destruct (existsb is_blocking _).
Qed.

Section prerequisites.
Context baseline observation bindings (capacity : list CapacityEvidence).

Definition at_node source (P : NodeId → Node → Prop) : Prop :=
  ∃ target node, recognised baseline observation bindings source target node ∧ P target node.

(** The measured capacity of an observed group in unchanged extent units. *)
Definition measured source (P : N → Prop) : Prop :=
  at_node source (λ target node,
    same_extents (kind_of (baseline_graph baseline) source) node.(Node.kind).(NodeSpec.kind) = true ∧
    ∃ c, c ∈ capacity ∧ c.(CapacityEvidence.domain) = AllocationDomain.LvmVolumeGroup target ∧
         P c.(CapacityEvidence.available)).

(** The conditions an observation can establish. *)
Definition observed_holds (condition : ActionPrerequisite) : Prop :=
  match condition with
  | ActionPrerequisite.NodeExists node => at_node node (λ _ _, True)
  | ActionPrerequisite.NodeKind node expected =>
      at_node node (λ _ n, matches_kind n.(Node.kind).(NodeSpec.kind) expected = true)
  | ActionPrerequisite.Writable node =>
      at_node node (λ _ n, matches_kind n.(Node.kind).(NodeSpec.kind) NodeKindClass.Block = true ∧
        ∃ b, n.(Node.size).(NodeFacts.block) = Some b ∧ b.(BlockFacts.read_only) = Some false)
  | ActionPrerequisite.CapacityAvailable (AllocationDomain.LvmVolumeGroup vg) (Some amount) =>
      measured vg (λ available, amount <= available)%N
  | _ => False
  end.

(** The conditions an observation can refute. *)
Definition observed_refutes (condition : ActionPrerequisite) : Prop :=
  match condition with
  | ActionPrerequisite.NodeKind node expected =>
      at_node node (λ _ n, matches_kind n.(Node.kind).(NodeSpec.kind) expected = false)
  | ActionPrerequisite.Writable node =>
      at_node node (λ _ n,
        ∃ b, n.(Node.size).(NodeFacts.block) = Some b ∧ b.(BlockFacts.read_only) = Some true)
  | ActionPrerequisite.NoUnexpectedConsumers node =>
      at_node node (λ t _,
        (∃ d, d ∈ (observed_graph observation).(NodeGraph.dependencies) ∧ d.(Dependency.from_) = t) ∨
        (∃ m, m ∈ observed_mounts observation ∧ mount_source_node m.(ObservedMount.source) = Some t))
  | ActionPrerequisite.NoUnexpectedRelations node =>
      at_node node (λ t _, ∃ r, r ∈ (observed_graph observation).(NodeGraph.relations) ∧
        (r.(Relation.from_) = t ∨ r.(Relation.to) = t))
  | ActionPrerequisite.FilesystemUnmounted node =>
      at_node node (λ t n,
        matches_kind n.(Node.kind).(NodeSpec.kind) NodeKindClass.Filesystem = false ∨
        ∃ m, m ∈ observed_mounts observation ∧ m.(ObservedMount.source) = MountSource.Filesystem t)
  | ActionPrerequisite.CapacityAvailable (AllocationDomain.LvmVolumeGroup vg) (Some amount) =>
      measured vg (λ available, available < amount)%N
  | _ => False
  end.

Definition verdict_sound (holds refuted : Prop) (status : LiveCheckStatus) : Prop :=
  match status with
  | LiveCheckStatus.Satisfied => holds
  | LiveCheckStatus.Violated _ => refuted
  | LiveCheckStatus.Unknown _ => True
  end.

(** A verdict about what a lookup found. *)
Lemma settle_finds (holds refuted : Prop) (r : result LiveCheckStatus (Failure LiveCheckStatus)) :
  finds (verdict_sound holds refuted) refuted r → returns (verdict_sound holds refuted) (settle r).
Proof. by destruct r as [a|[[]| |]]. Qed.

Lemma observed_fact_sound condition source target node :
  condition_node condition = Some source →
  recognised baseline observation bindings source target node →
  verdict_sound (observed_holds condition) (observed_refutes condition)
    (observed_fact observation condition target node).
Proof.
  intros Hc Hr.
  assert (∀ P : NodeId → Node → Prop, P target node → at_node source P) as Hat by (intros; by eexists _, _).
  destruct condition; simpl in Hc; try done; injection Hc as ->;
    cbn [observed_holds observed_refutes observed_fact].
  - by apply Hat.
  - destruct (matches_kind node.(Node.kind).(NodeSpec.kind) _) eqn:Hk; by apply Hat.
  - destruct (_ || _) eqn:Hx; [|done]. simpl. apply Hat.
    apply orb_true_iff in Hx as [(d & ? & Hd)%existsb_elem|(m & ? & Hm)%existsb_elem].
    + left. exists d. by apply bool_decide_eq_true in Hd.
    + right. exists m. by apply bool_decide_eq_true in Hm.
  - destruct (existsb _ _) eqn:Hx; [|done]. simpl. apply Hat.
    apply existsb_elem in Hx as (r & ? & Hd). exists r. split; [done|].
    by rewrite orb_true_iff, !bool_decide_eq_true in Hd.
  - destruct (matches_kind node.(Node.kind).(NodeSpec.kind) _) eqn:Hk; [|done].
    destruct (NodeFacts.block (Node.size node)) as [b|] eqn:Hb; [|done]. simpl.
    destruct (BlockFacts.read_only b) as [[]|] eqn:Hro; simpl; [..|done]; apply Hat; eauto.
  - destruct (matches_kind node.(Node.kind).(NodeSpec.kind) _) eqn:Hk; simpl; [|apply Hat; by left].
    destruct (existsb _ _) eqn:Hx; [|done]. simpl. apply Hat. right.
    apply existsb_elem in Hx as (m & ? & Hm). exists m. by apply bool_decide_eq_true in Hm.
Qed.

Variable display : CorrelationError → string.

Lemma check_node_fact_sound condition :
  returns (verdict_sound (observed_holds condition) (observed_refutes condition))
    (check_node_fact display baseline observation condition bindings).
Proof.
  unfold check_node_fact. destruct (condition_node condition) as [source|] eqn:Hc; [|done].
  apply settle_finds. eapply finds_bind; [apply result_node_ok|done|].
  intros [target node] Hr. by eapply observed_fact_sound.
Qed.

Lemma check_capacity_sound domain amount :
  let condition := ActionPrerequisite.CapacityAvailable domain amount in
  returns (verdict_sound (observed_holds condition) (observed_refutes condition))
    (check_capacity display baseline observation capacity domain amount).
Proof.
  unfold check_capacity. destruct amount as [amount|]; [|done]. destruct domain as [vg].
  pose proof (correlated_node_ok display baseline observation bindings vg) as Hr.
  destruct (correlated_node _ _ _ _) as [[target node]|[[]| |]]; try done.
  destruct (same_extents _ _) eqn:He; [|done]. cbn [negb].
  destruct (find_first _ capacity) as [c|] eqn:Hf; [|done].
  apply find_first_Some in Hf as [Hin Hd]. apply bool_decide_eq_true in Hd.
  destruct (N.leb_spec amount c.(CapacityEvidence.available)); simpl;
    exists target, node; eauto 10.
Qed.
End prerequisites.

(** A check whose verdict is right, on an observation without blocking
    diagnostics if it is positive. *)
Definition right_check {T} observation (holds refutes : T → Prop) (c : LiveCheck T) : Prop :=
  (c.(LiveCheck.status) = LiveCheckStatus.Satisfied →
     trustworthy observation ∧ holds c.(LiveCheck.condition)) ∧
  (∀ reason, c.(LiveCheck.status) = LiveCheckStatus.Violated reason →
     refutes c.(LiveCheck.condition)).

Lemma right_check_qualified {T} observation (holds refutes : T → Prop) condition status :
  verdict_sound (holds condition) (refutes condition) status →
  right_check observation holds refutes
    (LiveCheck.mk condition (qualify_observed_status observation status)).
Proof.
  intros Hv. split; simpl.
  - intros [-> ?]%qualify_satisfied. done.
  - intros reason ->%qualify_violated. done.
Qed.

(** The common loop: one right check per condition, in order. *)
Lemma try_map_right_checks {T E} observation (holds refutes : T → Prop)
    (f : T → result LiveCheckStatus (Failure E)) l :
  (∀ x, returns (verdict_sound (holds x) (refutes x)) (f x)) →
  returns (λ checks, LiveCheck.condition <$> checks = l ∧
                     Forall (right_check observation holds refutes) checks)
    (try_map (λ condition,
       let? status := f condition in
       Ok (LiveCheck.mk condition (qualify_observed_status observation status))) l).
Proof.
  intros Hf. eapply returns_mono.
  - apply (returns_try_map _ (λ x c, c.(LiveCheck.condition) = x ∧
      right_check observation holds refutes c)).
    intros x _. eapply returns_bind; [apply Hf|]. intros status Hv.
    split; [done|]. by apply right_check_qualified.
  - intros checks Hall%(Forall2_keyed id). by rewrite list_fmap_id in Hall.
Qed.

Lemma valid_inputs_ok baseline observation :
  returns (λ _, observation_wf observation ∧ structure_wf (baseline_graph baseline))
    (valid_inputs baseline observation).
Proof.
  unfold valid_inputs. destruct (validate_observation observation) as [[]|] eqn:Ho; [|done].
  destruct (validate_structure _) as [[]|] eqn:Hg; [|done]. simpl.
  by rewrite <-validate_observation_iff, <-validate_structure_iff.
Qed.

(** What a report about [prerequisites] guarantees. *)
Definition prerequisites_reported baseline observation bindings capacity
    (prerequisites : list ActionPrerequisite) (r : ObservedPrerequisites) : Prop :=
  r.(ObservedPrerequisites.observation) = observation.(LiveObservation.reference) ∧
  LiveCheck.condition <$> r.(ObservedPrerequisites.checks) = prerequisites ∧
  Forall (right_check observation (observed_holds baseline observation bindings capacity)
            (observed_refutes baseline observation bindings capacity))
    r.(ObservedPrerequisites.checks).

Lemma check_prerequisites_ok display baseline observation capacity prerequisites bindings :
  returns (prerequisites_reported baseline observation bindings capacity prerequisites)
    (check_prerequisites_with_bindings display baseline observation prerequisites bindings).
Proof.
  unfold check_prerequisites_with_bindings.
  eapply returns_bind; [apply valid_inputs_ok|]. intros _ _.
  eapply returns_bind; [apply (try_map_right_checks observation
    (observed_holds baseline observation bindings capacity)
    (observed_refutes baseline observation bindings capacity)); intros x;
    apply check_node_fact_sound|].
  intros checks Hc. exact (conj eq_refl Hc).
Qed.

Lemma observed_prerequisites_ok display baseline observation capacity prerequisites bindings :
  returns (prerequisites_reported baseline observation bindings capacity prerequisites)
    (check_observed_prerequisites_with_bindings display baseline observation capacity
       prerequisites bindings).
Proof.
  unfold check_observed_prerequisites_with_bindings.
  eapply returns_bind; [apply check_prerequisites_ok|].
  intros [ref checks] (Href & Hcond & Hall). simpl in *. subst ref.
  eapply returns_bind.
  - apply (returns_try_map _ (λ c c', c'.(LiveCheck.condition) = c.(LiveCheck.condition) ∧
      right_check observation (observed_holds baseline observation bindings capacity)
        (observed_refutes baseline observation bindings capacity) c')).
    intros c Hin. unfold with_capacity. rewrite Forall_forall in Hall. specialize (Hall c Hin).
    destruct c as [condition status]. cbn [LiveCheck.condition].
    destruct condition; try (by split; [done|exact Hall]).
    eapply returns_bind; [apply check_capacity_sound|]. intros s Hs. split; [done|].
    by apply right_check_qualified.
  - intros checks' [Hk ?]%Forall2_keyed. split_and!; simpl; congruence.
Qed.

(** Live admission evidence: a report has exactly the frozen prerequisites, in
    order, on the publication it names; a satisfied one is established by the
    observation, a violated one is refuted by it, and no input makes the check
    panic. *)
Theorem live_prerequisites_sound display baseline observation capacity prerequisites bindings :
  returns (prerequisites_reported baseline observation bindings capacity prerequisites)
    (check_observed_prerequisites_with_bindings display baseline observation capacity
       prerequisites bindings).
Proof. apply observed_prerequisites_ok. Qed.

(** ** Mounts *)

Lemma collect_options_eq keys found options found' :
  collect_options keys found options = Some found' → found' = found ++ options.
Proof.
  revert keys found. induction options as [|o options IH]; intros keys found; simpl.
  { intros [= <-]. by rewrite app_nil_r. }
  destruct (is_plain_option o); [|done]. cbn [negb].
  destruct (set_insert (option_key o) keys) as [new keys'].
  destruct (_ || _); [done|]. intros ->%IH. by rewrite <-app_assoc.
Qed.

Lemma explicit_options_perm options sorted :
  explicit_options options = Some sorted → sorted ≡ₚ options.
Proof.
  unfold explicit_options. destruct (collect_options [] [] options) as [found|] eqn:Hc; [|done].
  apply collect_options_eq in Hc as ->. cbn [app]. destruct (negb _); [done|].
  destruct (existsb _ _); [done|]. intros [= <-]. apply sort_by_perm.
Qed.

(** Equal up to order. *)
Lemma options_status_satisfied requested observed :
  options_status requested observed = LiveCheckStatus.Satisfied → observed ≡ₚ requested.
Proof.
  unfold options_status. destruct (explicit_options requested) as [r|] eqn:Hr; [|done].
  destruct (explicit_options observed) as [o|] eqn:Ho; [|done].
  case_bool_decide as He; [|done]. intros _. subst o.
  apply explicit_options_perm in Hr, Ho. by rewrite <-Hr, <-Ho.
Qed.

Section mounts.
Context baseline observation bindings.

(** The source of a requested mount in terms of the observation. *)
Inductive observed_as : MountSource → MountSource → Prop :=
| as_filesystem id target node kind label :
    recognised baseline observation bindings id target node →
    node.(Node.kind).(NodeSpec.kind) = NodeKind.Filesystem kind label →
    observed_as (MountSource.Filesystem id) (MountSource.Filesystem target)
| as_tmpfs : observed_as MountSource.Tmpfs MountSource.Tmpfs.

(** Exactly one host mount occupies the target, and it has the source. *)
Record mounted (source : MountSource) (target : PathBuf) (context : MountContext)
    (m : ObservedMount) : Prop := {
  mounted_host : context = MountContext.Host;
  mounted_path : is_absolute target = true ∧ Component.ParentDir ∉ target ∧
                 path_contains_nul target = false;
  mounted_only : filter (λ m, m.(ObservedMount.target) = target ∧
                              m.(ObservedMount.context) = context) (observed_mounts observation) = [m];
  mounted_source : observed_as source m.(ObservedMount.source) }.

Variable display : CorrelationError → string.

(** The object is not a filesystem, or the target has another source. *)
Definition mount_refuted (source : MountSource) (target : PathBuf) (context : MountContext) : Prop :=
  (∃ id, source = MountSource.Filesystem id ∧
     at_node baseline observation bindings id (λ _ n,
       ∀ kind label, n.(Node.kind).(NodeSpec.kind) ≠ NodeKind.Filesystem kind label)) ∨
  (∃ m s, m ∈ observed_mounts observation ∧ m.(ObservedMount.target) = target ∧
     m.(ObservedMount.context) = context ∧ observed_as source s ∧ m.(ObservedMount.source) ≠ s).

Lemma observed_source_ok (source : MountSource) (target : PathBuf) context :
  finds (observed_as source) (mount_refuted source target context)
    (observed_source display baseline observation source bindings).
Proof.
  destruct source; try done; [|constructor]. simpl.
  eapply finds_bind; [apply result_node_ok|done|]. intros [t node] Hr.
  destruct node.(Node.kind).(NodeSpec.kind) eqn:Hk;
    try (left; eexists; split; [done|]; exists t, node; split; [done|]; intros kind label; congruence).
  by econstructor.
Qed.

Lemma observed_mount_ok (source : MountSource) (target : PathBuf) context :
  finds (mounted source target context) (mount_refuted source target context)
    (observed_mount display baseline observation source target context bindings).
Proof.
  unfold observed_mount. case_bool_decide as Hctx; [done|].
  destruct (_ || _) eqn:Hpath; [done|].
  apply orb_false_iff in Hpath as [[Ha%negb_false_iff Hp%contains_false]%orb_false_iff Hn].
  eapply finds_bind; [apply (observed_source_ok _ target context)|done|]. intros s Hs.
  destruct (filter _ _) as [|m more] eqn:Hf; [done|].
  case_bool_decide as Hm; [subst more|done]. cbn [negb].
  destruct (match m.(ObservedMount.source) with MountSource.Other _ => _ | _ => _ end); [done|].
  case_bool_decide as Hms.
  - simpl. right. exists m, s.
    assert (m ∈ [m]) as Hin by (by left). rewrite <-Hf in Hin.
    apply list_elem_of_filter in Hin as [[? ?] ?]. done.
  - simpl. split; [done..|]. by rewrite Hms.
Qed.
End mounts.

(** ** Postconditions *)

Section postconditions.
Context baseline observation bindings.

Abbreviation at_node := (at_node baseline observation bindings).

(** An edge of the plan in terms of the observation. *)
Definition observed_edge (edge : Dependency) : Prop :=
  at_node edge.(Dependency.from_) (λ f _, at_node edge.(Dependency.to) (λ t _,
    Dependency.mk f t edge.(Dependency.kind) ∈ (observed_graph observation).(NodeGraph.dependencies))).

Definition result_holds (condition : Postcondition) : Prop :=
  match condition with
  | Postcondition.NodeMatches id spec =>
      at_node id (λ _ n, n.(Node.kind).(NodeSpec.kind) = spec.(NodeSpec.kind) ∧
        ∀ s, spec.(NodeSpec.size) = Some s → n.(Node.kind).(NodeSpec.size) = Some s)
  | Postcondition.NodeSize id s => at_node id (λ _ n, n.(Node.kind).(NodeSpec.size) = Some s)
  | Postcondition.NodeReprobed id => at_node id (λ _ _, True)
  | Postcondition.Activation id active =>
      at_node id (λ _ n, (∃ lv, n.(Node.kind).(NodeSpec.kind) = NodeKind.LvmLv lv) ∧
        n.(Node.size).(NodeFacts.lvm_active) = Some active)
  | Postcondition.FilesystemLabel id label =>
      at_node id (λ _ n, ∃ kind, n.(Node.kind).(NodeSpec.kind) = NodeKind.Filesystem kind label)
  | Postcondition.DependencyPresent edge => observed_edge edge
  | Postcondition.RuntimeMountPresent source target context =>
      ∃ m, mounted baseline observation bindings source target context m
  | _ => False
  end.

Definition result_refuted (condition : Postcondition) : Prop :=
  match condition with
  | Postcondition.NodeMatches id spec =>
      at_node id (λ _ n, n.(Node.kind).(NodeSpec.kind) ≠ spec.(NodeSpec.kind) ∨
        ∃ s s', spec.(NodeSpec.size) = Some s ∧ n.(Node.kind).(NodeSpec.size) = Some s' ∧ s ≠ s')
  | Postcondition.NodeAbsent id => at_node id (λ _ _, True)
  | Postcondition.NodeSize id s =>
      at_node id (λ _ n, ∃ s', n.(Node.kind).(NodeSpec.size) = Some s' ∧ s' ≠ s)
  | Postcondition.Activation id active =>
      at_node id (λ _ n, n.(Node.size).(NodeFacts.lvm_active) = Some (negb active))
  | Postcondition.FilesystemLabel id label =>
      at_node id (λ _ n, ∀ kind, n.(Node.kind).(NodeSpec.kind) ≠ NodeKind.Filesystem kind label)
  | Postcondition.DependencyAbsent edge => observed_edge edge
  | Postcondition.RuntimeMountPresent source target context =>
      mount_refuted baseline observation bindings source target context
  | Postcondition.RuntimeMountAbsent target context =>
      ∃ m, m ∈ observed_mounts observation ∧ m.(ObservedMount.target) = target ∧
           m.(ObservedMount.context) = context
  | _ => False
  end.

Lemma observed_result_sound condition source target node :
  result_source condition = Some source →
  recognised baseline observation bindings source target node →
  verdict_sound (result_holds condition) (result_refuted condition) (observed_result condition node).
Proof.
  intros Hc Hr.
  assert (∀ P : NodeId → Node → Prop, P target node → at_node source P) as Hat by (intros; by eexists _, _).
  destruct condition; simpl in Hc; try done; injection Hc as ->;
    cbn [result_holds result_refuted observed_result].
  - case_bool_decide as Hk; [apply Hat; by left|].
    destruct spec.(NodeSpec.size) as [s|]; [|by apply Hat].
    destruct (NodeSpec.size (Node.kind node)) as [s'|] eqn:Hs; [|done].
    destruct (N.eqb_spec s s') as [->|Hne]; apply Hat; [split; [done|congruence]|].
    right. eauto.
  - by apply Hat.
  - destruct (NodeSpec.size (Node.kind node)) as [s'|] eqn:Hs; [|done].
    destruct (N.eqb_spec s' size) as [->|Hne]; apply Hat; eauto.
  - destruct (NodeSpec.kind (Node.kind node)) eqn:Hk;
      try (apply Hat; intros kind'; congruence).
    case_bool_decide as Hl; apply Hat; [subst; eauto|]. intros kind'. congruence.
  - destruct (NodeSpec.kind (Node.kind node)) eqn:Hk; try done.
    destruct (NodeFacts.lvm_active (Node.size node)) as [b|] eqn:Hb; [|done].
    destruct (eqb b active) eqn:He; apply Hat.
    + apply eqb_prop in He as ->. eauto.
    + rewrite Hb. f_equal. by destruct b, active.
  - by apply Hat.
Qed.

Variable display : CorrelationError → string.

Lemma check_edge_ok edge expected :
  finds (λ status, match status with
                   | LiveCheckStatus.Satisfied => expected = true ∧ observed_edge edge
                   | LiveCheckStatus.Violated _ => expected = false ∧ observed_edge edge
                   | _ => True
                   end) False
    (check_edge display baseline observation edge expected bindings).
Proof.
  unfold check_edge. eapply finds_bind; [apply result_node_ok|done|]. intros [f nf] Hf.
  eapply finds_bind; [apply result_node_ok|done|]. intros [t nt] Ht. cbn zeta.
  destruct (existsb _ _) eqn:Hx; [|by destruct expected].
  assert (observed_edge edge) as Hedge; [|by destruct expected].
  apply existsb_elem in Hx as (d & Hd & [[Hdf Hdt]%andb_true_iff Hdk]%andb_true_iff).
  apply bool_decide_eq_true in Hdf, Hdt, Hdk.
  exists f, nf. split; [done|]. exists t, nt. split; [done|]. destruct d. simpl in *. congruence.
Qed.

Lemma check_result_sound condition :
  returns (verdict_sound (result_holds condition) (result_refuted condition))
    (check_result display baseline observation condition bindings).
Proof.
  assert (∀ source, result_source condition = Some source →
    returns (verdict_sound (result_holds condition) (result_refuted condition))
      (settle (let? (_, observed) := result_node display baseline observation source bindings in
               Ok (observed_result condition observed)))) as Hnode.
  { intros source Hs. apply settle_finds. eapply finds_bind; [apply result_node_ok|done|].
    intros [t n] Hr. by eapply observed_result_sound. }
  destruct condition; try done; try (by apply Hnode); unfold check_result.
  - apply settle_finds. pose proof (check_edge_ok d true) as He.
    destruct (check_edge _ _ _ _ _ _) as [[]|[[]| |]]; simpl in *; naive_solver.
  - apply settle_finds. pose proof (check_edge_ok d false) as He.
    destruct (check_edge _ _ _ _ _ _) as [[]|[[]| |]]; simpl in *; naive_solver.
  - apply settle_finds. eapply finds_bind; [apply observed_mount_ok|done|]. intros m Hm. by exists m.
  - destruct (existsb _ _) eqn:Hx; [|done]. simpl.
    apply existsb_elem in Hx as (m & Hm & [Ht Hc]%andb_true_iff). exists m.
    by apply bool_decide_eq_true in Ht, Hc.
Qed.
End postconditions.

(** Live verification evidence: a report has exactly the frozen postconditions,
    in order, on the publication it names; a satisfied one is established by
    the observation and a violated one is refuted by it. *)
Theorem live_postconditions_sound display baseline observation postconditions bindings :
  returns (λ r,
      r.(ObservedPostconditions.observation) = observation.(LiveObservation.reference) ∧
      LiveCheck.condition <$> r.(ObservedPostconditions.checks) = postconditions ∧
      Forall (right_check observation (result_holds baseline observation bindings)
                (result_refuted baseline observation bindings))
        r.(ObservedPostconditions.checks))
    (check_observed_postconditions_with_bindings display baseline observation postconditions bindings).
Proof.
  unfold check_observed_postconditions_with_bindings.
  eapply returns_bind; [apply valid_inputs_ok|]. intros _ _.
  eapply returns_bind; [apply (try_map_right_checks observation
    (result_holds baseline observation bindings)
    (result_refuted baseline observation bindings)); intros x; apply check_result_sound|].
  intros checks Hc. exact (conj eq_refl Hc).
Qed.
