(* ===== verification/LiveGoal.v ===== *)
(** * Soundness of the final goal check: [live/goal.rs]

    A goal report whose checks are all satisfied exhibits an isomorphism
    between the requested and the observed graph that follows durable
    identities, and the requested mounts and activations. *)

From stdpp Require Import relations.
From S2P Require Import Prelude Model Graph GraphOrder GraphValid State Action.
From S2P Require Import Contract Logical ContractProps Evidence Prerequisites.
From S2P Require Import Effects Report PlanOrder Compose ComposeProps Simulate.
From S2P Require Import SimulateProps Wire Observation Correlate Execution.
From S2P Require Import ExecutionProps Live LiveProps.
From S2P Require Import Evidence Prerequisites Effects Report PlanOrder.
From S2P Require Import Compose ComposeProps.
From S2P Require Import Simulate SimulateProps Wire Observation Correlate Live.
From S2P Require Import LiveProps.

Implicit Types (context : ExecutionContext) (observation : LiveObservation)
  (bindings : list NodeCorrelation) (f : gmap NodeId NodeId).

Abbreviation context_baseline c := (c.(ExecutionContext.historical_baseline)) (only parsing).
Abbreviation context_goal c := (c.(ExecutionContext.requested_goal).(DesiredState.graph)) (only parsing).

(** ** Loops *)

Lemma finds_try_fold {A S} (g : S → A → result S (Failure LiveCheckStatus)) (P : list A → S → Prop) s0 l :
  P [] s0 →
  (∀ pre x post s, l = pre ++ x :: post → P pre s → finds (P (pre ++ [x])) True (g s x)) →
  finds (P l) True (try_fold g s0 l).
Proof.
  intros H0 Hstep. induction l as [|x l IH] using rev_ind; [done|].
  rewrite try_fold_app. eapply finds_bind; [|done|].
  { apply IH. intros pre y post t -> HP. eapply (Hstep pre y (post ++ [x])); [|done].
    by rewrite <-app_assoc. }
  intros s Hs. simpl. specialize (Hstep l x [] s eq_refl Hs). by destruct (g s x) as [?|[[]| |]].
Qed.

Lemma try_any_spec {A E} (g : A → result bool E) (P : A → Prop) l :
  (∀ x, x ∈ l → ∃ b, g x = Ok b ∧ (b = true ↔ P x)) →
  ∃ b, try_any g l = Ok b ∧ (b = true ↔ ∃ x, x ∈ l ∧ P x).
Proof.
  induction l as [|x l IH]; intros Hg; simpl; [exists false; split; [done|]; set_solver|].
  destruct (Hg x) as (b & -> & Hb); [by left|]. setoid_rewrite elem_of_cons. destruct b.
  - exists true. split; [done|]. naive_solver.
  - destruct IH as (b & -> & Hb'); [intros; apply Hg; by right|]. exists b. split; [done|]. naive_solver.
Qed.

Lemma try_any_false {A E} (g : A → result bool E) (Q : A → Prop) l :
  (∀ x, x ∈ l → ∃ b, g x = Ok b ∧ (b = false ↔ Q x)) →
  ∃ b, try_any g l = Ok b ∧ (b = false → ∀ x, x ∈ l → Q x).
Proof.
  intros Hg. destruct (try_any_spec g (λ x, g x = Ok true) l) as (b & -> & Hb).
  { intros x Hx. destruct (Hg x Hx) as (b & -> & _). exists b. split; [done|]. by destruct b. }
  exists b. split; [done|]. intros -> x Hx. destruct (Hg x Hx) as (b & Hgx & <-).
  destruct b; [|done]. destruct Hb as [_ Hb]. symmetry. apply Hb. eauto.
Qed.

(** ** Renamed edges *)

Section edges.
Context {T K : Type} (from to : T → NodeId) (kind : T → K).
Hypothesis edge_ext : ∀ d e, from d = from e → to d = to e → kind d = kind e → d = e.

Definition renamed f (e d : T) : Prop :=
  f !! from e = Some (from d) ∧ f !! to e = Some (to d) ∧ kind d = kind e.

(** As many edges, each requested one observed: every observed one requested. *)
Lemma renamed_onto f goal actual :
  (∀ a b t, f !! a = Some t → f !! b = Some t → a = b) →
  NoDup goal → length goal = length actual →
  (∀ e, e ∈ goal → ∃ d, d ∈ actual ∧ renamed f e d) →
  ∀ d, d ∈ actual → ∃ e, e ∈ goal ∧ renamed f e d.
Proof.
  intros Hinj Hnd Hlen Hall.
  assert (∃ ds, Forall2 (renamed f) goal ds ∧ ds ⊆ actual) as (ds & Hds & Hsub).
  { clear Hnd Hlen. induction goal as [|e goal IH]; [exists []; split; [constructor|]; set_solver|].
    destruct (Hall e) as (d & Hd & Hr); [by left|].
    destruct IH as (ds & Hds & Hsub); [intros; apply Hall; by right|].
    exists (d :: ds). split; [by constructor|]. set_solver. }
  assert (NoDup ds) as Hndds.
  { clear Hlen Hall Hsub. induction Hds as [|e d goal ds Hr Hds IH]; [constructor|].
    apply NoDup_cons in Hnd as [Hni Hnd]. constructor; [|by apply IH].
    intros [i Hi]%list_elem_of_lookup.
    destruct (Forall2_lookup_r _ _ _ _ _ Hds Hi) as (e' & He' & Hr').
    apply Hni. enough (e = e') as -> by (by eapply list_elem_of_lookup_2).
    destruct Hr as (? & ? & ?), Hr' as (? & ? & ?). apply edge_ext; [eauto..|congruence]. }
  assert (ds ≡ₚ actual) as Hp.
  { apply submseteq_length_Permutation; [by apply NoDup_submseteq|].
    rewrite <-Hlen, (Forall2_length _ _ _ Hds). done. }
  intros d Hd. rewrite <-Hp in Hd. apply list_elem_of_lookup in Hd as [i Hi].
  destruct (Forall2_lookup_r _ _ _ _ _ Hds Hi) as (e & He & Hr).
  exists e. split; [by eapply list_elem_of_lookup_2|done].
Qed.
End edges.

Abbreviation renamed_dependency :=
  (renamed Dependency.from_ Dependency.to Dependency.kind) (only parsing).
Abbreviation renamed_relation := (renamed Relation.from_ Relation.to Relation.kind) (only parsing).

Lemma edge_missing_spec {E} f actual (e : Dependency) :
  is_Some (f !! e.(Dependency.from_)) → is_Some (f !! e.(Dependency.to)) →
  ∃ b, edge_missing (E:=E) f actual e = Ok b ∧
       (b = false ↔ ∃ d, d ∈ actual ∧ renamed_dependency f e d).
Proof.
  intros [x Hx] [y Hy]. unfold edge_missing.
  destruct (try_any_spec (E:=Failure E) (λ other,
      let? from := mapped f e.(Dependency.from_) in
      if bool_decide (other.(Dependency.from_) ≠ from) then Ok false
      else
        let? to := mapped f e.(Dependency.to) in
        Ok (bool_decide (other.(Dependency.to) = to) &&
            bool_decide (other.(Dependency.kind) = e.(Dependency.kind))))
    (λ d, renamed_dependency f e d) actual) as (b & -> & Hb).
  - intros d _. unfold mapped, renamed. rewrite Hx, Hy. cbn [ok_or].
    case_bool_decide as Hf; [exists false; split; [done|naive_solver]|].
    eexists. split; [done|]. rewrite andb_true_iff, !bool_decide_eq_true. naive_solver.
  - exists (negb b). split; [done|]. rewrite <-Hb. by destruct b.
Qed.

Lemma relation_missing_spec {E} f actual (e : Relation) :
  is_Some (f !! e.(Relation.from_)) → is_Some (f !! e.(Relation.to)) →
  ∃ b, relation_missing (E:=E) f actual e = Ok b ∧
       (b = false ↔ ∃ d, d ∈ actual ∧ renamed_relation f e d).
Proof.
  intros [x Hx] [y Hy]. unfold relation_missing.
  destruct (try_any_spec (E:=Failure E) (λ other,
      let? from := mapped f e.(Relation.from_) in
      if bool_decide (other.(Relation.from_) ≠ from) then Ok false
      else
        let? to := mapped f e.(Relation.to) in
        Ok (bool_decide (other.(Relation.to) = to) &&
            bool_decide (other.(Relation.kind) = e.(Relation.kind))))
    (λ d, renamed_relation f e d) actual) as (b & -> & Hb).
  - intros d _. unfold mapped, renamed. rewrite Hx, Hy. cbn [ok_or].
    case_bool_decide as Hf; [exists false; split; [done|naive_solver]|].
    eexists. split; [done|]. rewrite andb_true_iff, !bool_decide_eq_true. naive_solver.
  - exists (negb b). split; [done|]. rewrite <-Hb. by destruct b.
Qed.

(** ** The requested nodes *)

Section goal.
Context context observation bindings.

(** The requested node, the observed object it stands for and their agreement. *)
Definition node_matches (requested : Node) (id target : NodeId) : Prop :=
  ∃ node, recognised (context_baseline context) observation bindings id target node ∧
    node.(Node.kind).(NodeSpec.kind) = requested.(Node.kind).(NodeSpec.kind) ∧
    ∀ s, requested.(Node.kind).(NodeSpec.size) = Some s → node.(Node.kind).(NodeSpec.size) = Some s.

Record nodes_matched (entries : list (NodeId * Node)) f : Prop := {
  nm_dom id : is_Some (f !! id) ↔ id ∈ entries.*1;
  nm_inj a b t : f !! a = Some t → f !! b = Some t → a = b;
  nm_match id requested : (id, requested) ∈ entries →
    ∃ t, f !! id = Some t ∧ node_matches requested id t }.

Lemma nodes_matched_snoc pre f id requested target :
  NoDup ((pre ++ [(id, requested)]).*1) → nodes_matched pre f →
  (∀ a, f !! a ≠ Some target) → node_matches requested id target →
  nodes_matched (pre ++ [(id, requested)]) (<[id := target]> f).
Proof.
  rewrite fmap_app, fmap_cons, fmap_nil. cbn [fst]. intros [Hnd Hni]%NoDup_snoc [Hd Hi Hm] Hnew Hmatch.
  split.
  - intros x. rewrite lookup_insert_is_Some, fmap_app, elem_of_app, Hd. simpl.
    rewrite list_elem_of_singleton. destruct (decide (id = x)); naive_solver.
  - intros a b t. rewrite !lookup_insert_Some. intros [[<- <-]|[? Ha]] [[<- Ht]|[? Hb]]; try done.
    + by destruct (Hnew b).
    + subst t. by destruct (Hnew a).
    + eauto.
  - intros x r [Hin|[= -> ->]%list_elem_of_singleton]%elem_of_app.
    + destruct (Hm x r Hin) as (t & Ht & ?). exists t. split; [|done].
      rewrite lookup_insert_ne; [done|]. intros <-. apply Hni, list_elem_of_fmap.
      exists (id, r). done.
    + exists target. by rewrite lookup_insert_eq.
Qed.

Variable display : CorrelationError → string.

Lemma match_goal_node_ok pre f id requested :
  NoDup ((pre ++ [(id, requested)]).*1) → nodes_matched pre f →
  finds (nodes_matched (pre ++ [(id, requested)])) True
    (match_goal_node display context observation bindings f (id, requested)).
Proof.
  intros Hnd Hpre. unfold match_goal_node. eapply finds_bind; [apply result_node_ok|done|].
  intros [target node] Hr. cbn [fst snd] in Hr.
  destruct (existsb _ _) eqn:Hx; [done|].
  assert (∀ a, f !! a ≠ Some target) as Hnew.
  { intros a Ha. rewrite existsb_false in Hx. specialize (Hx target). rewrite bool_decide_eq_true_2 in Hx
      by done. enough (true = false) by done. apply Hx, list_elem_of_fmap.
    exists (a, target). split; [done|]. by apply elem_of_map_to_list. }
  case_bool_decide as Hk; [done|].
  assert ((∀ s, requested.(Node.kind).(NodeSpec.size) = Some s →
             node.(Node.kind).(NodeSpec.size) = Some s) →
    nodes_matched (pre ++ [(id, requested)]) (<[id:=target]> f)) as Hdone.
  { intros Hs. apply nodes_matched_snoc; [done..|]. by exists node. }
  destruct requested.(Node.kind).(NodeSpec.size) as [s|]; [|by apply Hdone].
  destruct node.(Node.kind).(NodeSpec.size) as [a|]; [|done].
  destruct (N.eqb_spec a s) as [->|]; [|done]. simpl. by apply Hdone.
Qed.

(** ** Topology *)

(** The requested graph renamed by [f] is the observed graph. *)
Record isomorphic f : Prop := {
  iso_nodes : nodes_matched (map_to_list (context_goal context).(NodeGraph.nodes)) f;
  iso_onto t : has_node (observed_graph observation) t → ∃ id, f !! id = Some t;
  iso_dependencies e : e ∈ (context_goal context).(NodeGraph.dependencies) →
    ∃ d, d ∈ (observed_graph observation).(NodeGraph.dependencies) ∧ renamed_dependency f e d;
  iso_dependencies_onto d : d ∈ (observed_graph observation).(NodeGraph.dependencies) →
    ∃ e, e ∈ (context_goal context).(NodeGraph.dependencies) ∧ renamed_dependency f e d;
  iso_relations e : e ∈ (context_goal context).(NodeGraph.relations) →
    ∃ d, d ∈ (observed_graph observation).(NodeGraph.relations) ∧ renamed_relation f e d;
  iso_relations_onto d : d ∈ (observed_graph observation).(NodeGraph.relations) →
    ∃ e, e ∈ (context_goal context).(NodeGraph.relations) ∧ renamed_relation f e d }.

Lemma matched_onto f :
  nodes_matched (map_to_list (context_goal context).(NodeGraph.nodes)) f →
  size (context_goal context).(NodeGraph.nodes) = size (observed_graph observation).(NodeGraph.nodes) →
  ∀ t, has_node (observed_graph observation) t → ∃ id, f !! id = Some t.
Proof.
  intros [Hd Hi Hm] Hs.
  set (goal := (context_goal context).(NodeGraph.nodes)) in *.
  assert (∀ id t, f !! id = Some t → has_node (observed_graph observation) t) as Himg.
  { intros id t Hid. pose proof (proj1 (Hd id) (ex_intro _ t Hid)) as Hin.
    apply list_elem_of_fmap in Hin as ([id' r] & -> & Hin).
    destruct (Hm _ _ Hin) as (t' & Ht' & n & Hr & _). simplify_eq/=.
    exists n. apply (rec_node _ _ _ _ _ _ Hr). }
  set (image := (λ e : NodeId * NodeId, e.2) <$> map_to_list f).
  assert (NoDup image) as Hnd.
  { apply NoDup_fmap_2_strong; [|apply NoDup_map_to_list].
    intros [a t] [b t'] Ha%elem_of_map_to_list Hb%elem_of_map_to_list. simpl. intros ->.
    by rewrite (Hi a b t'). }
  assert (length image = size (observed_graph observation).(NodeGraph.nodes)) as Hlen.
  { unfold image. rewrite length_fmap, length_map_to_list, <-Hs. rewrite <-!size_dom.
    f_equal. apply set_eq. intros x. rewrite !elem_of_dom, Hd. subst goal.
    rewrite list_elem_of_fmap. split.
    - intros ([a r] & -> & Hin%elem_of_map_to_list). eauto.
    - intros [r Hr]. exists (x, r). by rewrite elem_of_map_to_list. }
  assert (image ≡ₚ (map_to_list (observed_graph observation).(NodeGraph.nodes)).*1) as Hp.
  { apply submseteq_length_Permutation.
    - apply NoDup_submseteq; [done|]. intros t ([a t'] & -> & Hin%elem_of_map_to_list)%list_elem_of_fmap.
      destruct (Himg _ _ Hin) as [n Hn]. apply list_elem_of_fmap. exists (t', n).
      by rewrite elem_of_map_to_list.
    - rewrite length_fmap, length_map_to_list. lia. }
  intros t [n Hn].
  assert (t ∈ image) as Ht;
    [|apply list_elem_of_fmap in Ht as ([a t'] & -> & Hin%elem_of_map_to_list); by exists a].
  rewrite Hp. apply list_elem_of_fmap. exists (t, n). by rewrite elem_of_map_to_list.
Qed.

Lemma matched_has_node f id :
  nodes_matched (map_to_list (context_goal context).(NodeGraph.nodes)) f →
  has_node (context_goal context) id → is_Some (f !! id).
Proof.
  intros Hm [n Hn]. apply (nm_dom _ _ Hm), list_elem_of_fmap. exists (id, n).
  by rewrite elem_of_map_to_list.
Qed.

Lemma topology_differs_spec {E} f :
  structure_wf (context_goal context) → NoDup (context_goal context).(NodeGraph.relations) →
  nodes_matched (map_to_list (context_goal context).(NodeGraph.nodes)) f →
  ∃ b, topology_differs (E:=E) f (context_goal context) (observed_graph observation) = Ok b ∧
       (b = false → isomorphic f).
Proof.
  intros Hwf Hnd Hm. unfold topology_differs. destruct (_ || _) eqn:Hlen; [by exists true|].
  apply orb_false_iff in Hlen as [[Hn Hd]%orb_false_iff Hr].
  apply negb_false_iff, Nat.eqb_eq in Hn, Hd, Hr.
  destruct (try_any_false (edge_missing (E:=E) f (observed_graph observation).(NodeGraph.dependencies))
    (λ e, ∃ d, d ∈ (observed_graph observation).(NodeGraph.dependencies) ∧ renamed_dependency f e d)
    (context_goal context).(NodeGraph.dependencies)) as (b & -> & Hb).
  { intros e He. destruct (wf_ends _ _ (wf_edges _ Hwf) e He).
    apply edge_missing_spec; by eapply matched_has_node. }
  destruct b; [by exists true|]. specialize (Hb eq_refl).
  destruct (try_any_false (relation_missing (E:=E) f (observed_graph observation).(NodeGraph.relations))
    (λ e, ∃ d, d ∈ (observed_graph observation).(NodeGraph.relations) ∧ renamed_relation f e d)
    (context_goal context).(NodeGraph.relations)) as (b & -> & Hb').
  { intros e He. destruct (wf_relations _ Hwf e He).
    apply relation_missing_spec; by eapply matched_has_node. }
  exists b. split; [done|]. intros ->. specialize (Hb' eq_refl).
  split; [done|by apply matched_onto|done| |done|].
  - apply renamed_onto; try done.
    + intros [] [] ???; by simplify_eq/=.
    + apply (nm_inj _ _ Hm).
    + eapply NoDup_fmap_1, (wf_logical _ _ (wf_edges _ Hwf)).
  - apply renamed_onto; try done.
    + intros [] [] ???; by simplify_eq/=.
    + apply (nm_inj _ _ Hm).
Qed.

(** ** Activation *)

(** A logical volume in the requested state, with a writable interface if it
    is to be active. *)
Definition activated (active : bool) (_ : NodeId) (n : Node) : Prop :=
  (∃ lv, n.(Node.kind).(NodeSpec.kind) = NodeKind.LvmLv lv) ∧
  n.(Node.size).(NodeFacts.lvm_active) = Some active ∧
  (active = true → writable_interface n = true).

Abbreviation at_node := (at_node (context_baseline context) observation bindings).

Lemma activation_required target active :
  finds (λ _, at_node target (activated active)) True
    (require_satisfied (activation_status display context observation bindings target active)).
Proof.
  unfold require_satisfied, activation_status.
  pose proof (result_node_ok display (context_baseline context) observation target bindings) as Hr.
  destruct (result_node _ _ _ _ _) as [[t n]|[[]| |]]; try done.
  destruct n.(Node.kind).(NodeSpec.kind) eqn:Hk; try done.
  destruct n.(Node.size).(NodeFacts.lvm_active) as [actual|] eqn:Ha; [|done].
  destruct (eqb actual active) eqn:He; [|done]. apply eqb_prop in He as ->. cbn [negb].
  destruct (active && negb (writable_interface n)) eqn:Hw; [done|]. simpl.
  exists t, n. split; [done|]. split; [eauto|]. split; [done|]. intros ->.
  by apply andb_false_iff in Hw as [|?%negb_false_iff].
Qed.

Definition activation_request (target : NodeId) (action : PlannedAction) : option bool :=
  match action.(PlannedAction.operation) with
  | ProviderAction.Lvm (LvmAction.SetActivation t active) =>
      if decide (t = target) then Some active else None
  | _ => None
  end.

(** The request that is in force at the end: the last one of the order. *)
Definition last_activation (ordered : list PlannedAction) (target : NodeId) : option bool :=
  find_map (activation_request target) (reverse ordered).

Lemma find_map_snoc {A B} (g : A → option B) l x :
  find_map g (l ++ [x]) = match find_map g l with Some y => Some y | None => g x end.
Proof. induction l as [|y l IH]; simpl; [by destruct (g x)|]. by destruct (g y). Qed.

Lemma activation_cases action :
  (∃ t active, action.(PlannedAction.operation) = ProviderAction.Lvm (LvmAction.SetActivation t active)) ∨
  (∀ t, activation_request t action = None) ∧
  ∀ seen, check_activation display context observation bindings seen action = Ok seen.
Proof.
  unfold activation_request, check_activation.
  destruct action.(PlannedAction.operation) as [| |l| | |]; try (by right).
  destruct l; [by right..|]. left. eauto.
Qed.

(** After the actions [pre], latest first: the targets met and their states. *)
Definition activations_checked (pre : list PlannedAction) (seen : list NodeId) : Prop :=
  (∀ t, t ∈ seen ↔ is_Some (find_map (activation_request t) pre)) ∧
  ∀ t active, find_map (activation_request t) pre = Some active → at_node t (activated active).

Lemma check_activation_ok pre seen action :
  activations_checked pre seen →
  finds (activations_checked (pre ++ [action])) True
    (check_activation display context observation bindings seen action).
Proof.
  intros [Hs Ha].
  assert (∀ t, activation_request t action = None →
    find_map (activation_request t) (pre ++ [action]) = find_map (activation_request t) pre) as Hskip.
  { intros t Hno. rewrite find_map_snoc, Hno. by destruct (find_map _ pre). }
  destruct (activation_cases action) as [(t & active & Hop)|[Hno ->]].
  2: { simpl. split; intros t; rewrite Hskip by done; auto. }
  assert (∀ u, u ≠ t → activation_request u action = None) as Hother.
  { intros u Hu. unfold activation_request. by rewrite Hop, decide_False. }
  assert (activation_request t action = Some active) as Hreq.
  { unfold activation_request. by rewrite Hop, decide_True. }
  unfold check_activation. rewrite Hop.
  destruct (set_insert_cases t seen) as [[Hnew ->]|[Hseen ->]].
  - eapply finds_bind; [apply activation_required|done|]. intros [] Hact. simpl.
    assert (find_map (activation_request t) pre = None) as Hnone.
    { apply eq_None_not_Some. by rewrite <-Hs. }
    split; intros u; destruct (decide (u = t)) as [->|Hu].
    + rewrite find_map_snoc, Hnone, Hreq, elem_of_app, list_elem_of_singleton. naive_solver.
    + rewrite Hskip, elem_of_app, list_elem_of_singleton, Hs by auto. naive_solver.
    + intros b. rewrite find_map_snoc, Hnone, Hreq. by intros [= <-].
    + rewrite Hskip by auto. auto.
  - simpl. destruct (proj1 (Hs t) Hseen) as [b Hb].
    split; intros u; (destruct (decide (u = t)) as [->|Hu]; [|rewrite Hskip by auto; auto]);
      rewrite find_map_snoc, Hb; [by rewrite Hs, Hb|]. rewrite <-Hb. auto.
Qed.

Lemma check_activations_ok ordered :
  finds (λ _, ∀ t active, last_activation ordered t = Some active → at_node t (activated active)) True
    (try_fold (check_activation display context observation bindings) [] (reverse ordered)).
Proof.
  eapply finds_mono; [apply (finds_try_fold _ activations_checked)| |done].
  - split; [|done]. intros t. split; [by intros ?%elem_of_nil|by intros []].
  - intros pre x post seen _. apply check_activation_ok.
  - intros seen [_ Ha]. exact Ha.
Qed.

(** ** Intents *)

Definition intent_met (intent : OperationIntent) : Prop :=
  ∃ t active, intent = OperationIntent.SetActivation t active ∧ at_node t (activated active).

Lemma check_intents_ok intents :
  finds (λ _, ∀ i, i ∈ intents → intent_met i) True
    (try_all (check_intent display context observation bindings) intents).
Proof.
  eapply finds_mono; [apply (finds_try_fold _ (λ pre _, ∀ i, i ∈ pre → intent_met i))| |done].
  - by intros i ?%elem_of_nil.
  - intros pre x post [] _ Hpre. destruct x; try done. simpl.
    eapply finds_mono; [apply activation_required| |done]. intros [] Hact i.
    rewrite elem_of_app, list_elem_of_singleton. intros [?| ->]; [by apply Hpre|].
    unfold intent_met. eauto.
  - done.
Qed.

(** ** The report *)

Record graph_established : Prop := {
  est_graph : ∃ f, isomorphic f;
  est_activations ordered t active :
    ordered_actions (E:=LiveCheckStatus) context.(ExecutionContext.plan) = Ok ordered →
    last_activation ordered t = Some active → at_node t (activated active);
  est_intents i :
    i ∈ context.(ExecutionContext.requested_goal).(DesiredState.intents) → intent_met i }.

Lemma graph_status_ok :
  plan_structured context.(ExecutionContext.plan) →
  structure_wf (context_goal context) → NoDup (context_goal context).(NodeGraph.relations) →
  returns (verdict_sound graph_established True) (graph_status display context observation bindings).
Proof.
  intros Hplan Hwf Hnd. apply settle_finds.
  eapply finds_bind; [|done|].
  { apply (finds_try_fold _ nodes_matched).
    - split; [|done|by intros ?? ?%elem_of_nil]. intros id.
      split; [by intros [? []%lookup_empty_Some]|by intros ?%elem_of_nil].
    - intros pre [id requested] post f Heq Hpre. apply match_goal_node_ok; [|done].
      pose proof (NoDup_fst_map_to_list (context_goal context).(NodeGraph.nodes)) as Hkeys.
      rewrite Heq in Hkeys. change (pre ++ (id, requested) :: post)
        with (pre ++ [(id, requested)] ++ post) in Hkeys.
      rewrite app_assoc, fmap_app in Hkeys. by apply NoDup_app in Hkeys as [? _]. }
  intros f Hf. destruct (topology_differs_spec (E:=LiveCheckStatus) f Hwf Hnd Hf) as (b & -> & Hb).
  destruct b; [done|]. specialize (Hb eq_refl).
  destruct (ordered_actions_ok (E:=LiveCheckStatus) _ Hplan) as (order & ordered & Ho & _).
  rewrite Ho. eapply finds_bind; [apply check_activations_ok|done|]. intros seen Hact.
  eapply finds_bind; [apply check_intents_ok|done|]. intros [] Hi.
  split; [eauto| |done]. intros ordered' t a. rewrite Ho. intros [= <-]. apply Hact.
Qed.

(** A requested mount is observed with the requested options. *)
Definition mount_established (mount : MountEntry) : Prop :=
  ∃ m, mounted (context_baseline context) observation bindings mount.(MountEntry.source)
         mount.(MountEntry.target) mount.(MountEntry.context) m ∧
       m.(ObservedMount.options) ≡ₚ mount.(MountEntry.options).

Lemma goal_mount_check_ok mount :
  returns (λ c,
      c.(LiveCheck.condition) =
        GoalAspect.RuntimeMount mount.(MountEntry.target) mount.(MountEntry.context) ∧
      (c.(LiveCheck.status) = LiveCheckStatus.Satisfied →
         trustworthy observation ∧ mount_established mount))
    (goal_mount_check display context observation bindings mount).
Proof.
  unfold goal_mount_check.
  eapply (returns_bind (verdict_sound (mount_established mount) True)).
  - apply settle_finds. eapply finds_bind; [apply observed_mount_ok|done|]. intros m Hm. simpl.
    destruct (options_status _ _) eqn:Ho; [|done..]. exists m.
    split; [done|]. by apply options_status_satisfied.
  - intros status Hs. split; [done|]. simpl. by intros [-> ?]%qualify_satisfied.
Qed.

Record goal_established : Prop := {
  goal_trust : trustworthy observation;
  goal_graph : graph_established;
  goal_mounts mount :
    mount ∈ context.(ExecutionContext.requested_goal).(DesiredState.mounts).(MountSpec.runtime) →
    mount_established mount;
  goal_persistent :
    context.(ExecutionContext.requested_goal).(DesiredState.mounts).(MountSpec.persistent) = [];
  goal_boot : context.(ExecutionContext.requested_goal).(DesiredState.boot) = BootSpec.Unmanaged }.
End goal.

(** The conditions of a goal report are the aspects of the goal. *)
Lemma goal_conditions (R : MountEntry → LiveCheck GoalAspect → Prop) desired evidence
    (goal : DesiredState) status mounts :
  Forall2 R goal.(DesiredState.mounts).(MountSpec.runtime) mounts →
  (∀ m c, R m c → c.(LiveCheck.condition) =
     GoalAspect.RuntimeMount m.(MountEntry.target) m.(MountEntry.context)) →
  LiveCheck.condition <$> ([LiveCheck.mk GoalAspect.Graph status] ++ mounts ++
      (goal_persistent_check <$> goal.(DesiredState.mounts).(MountSpec.persistent)) ++
      [goal_boot_check goal.(DesiredState.boot)]) =
  GoalCheck.aspect <$> compare_goal desired evidence goal.
Proof.
  intros Hm Hk. unfold compare_goal. rewrite !fmap_app. do 2 f_equal; [|by rewrite <-!list_fmap_compose].
  rewrite <-list_fmap_compose. by eapply Forall2_keys.
Qed.

Lemma live_goal_established display context observation bindings desired evidence :
  plan_structured context.(ExecutionContext.plan) →
  NoDup (context_goal context).(NodeGraph.relations) →
  returns (λ checks,
      LiveCheck.condition <$> checks =
        GoalCheck.aspect <$> compare_goal desired evidence context.(ExecutionContext.requested_goal) ∧
      (Forall (λ c, c.(LiveCheck.status) = LiveCheckStatus.Satisfied) checks →
       goal_established context observation bindings))
    (check_observed_goal display context observation bindings).
Proof.
  intros Hplan Hnd. unfold check_observed_goal.
  eapply returns_bind; [apply valid_inputs_ok|]. intros _ _.
  destruct (validate_structure (context_goal context)) as [[]|] eqn:Hwf; [|done].
  apply validate_structure_iff in Hwf. cbn [report map_err].
  eapply returns_bind; [by apply graph_status_ok|]. intros status Hs.
  eapply returns_bind; [apply returns_try_map; intros m _; apply goal_mount_check_ok|].
  intros mounts Hm. apply returns_ok. split.
  - eapply goal_conditions; [exact Hm|]. by intros ? ? [? _].
  - rewrite !Forall_app, !Forall_singleton. cbn [LiveCheck.status].
    intros ([-> Htr]%qualify_satisfied & Hmounts & Hpers & Hboot).
    split; [done|done| | |].
    + intros mount [i Hi]%list_elem_of_lookup.
      destruct (Forall2_lookup_l _ _ _ _ _ Hm Hi) as (c & Hc & _ & Hok).
      rewrite Forall_forall in Hmounts. apply Hok, Hmounts. by eapply list_elem_of_lookup_2.
    + by destruct (MountSpec.persistent _); [|inversion Hpers].
    + by destruct (DesiredState.boot _).
Qed.

(** Final verification: the report answers exactly the aspects the run froze
    from the prediction, and a report in which every check is satisfied
    establishes the goal: the observed graph is the requested one up to
    durable identity, the last activation requests are in force, every mount
    is present with its options, and nothing was requested that an
    observation cannot show. *)
Theorem live_goal_sound display context observation bindings desired evidence :
  plan_structured context.(ExecutionContext.plan) →
  NoDup (context_goal context).(NodeGraph.relations) →
  returns (λ checks,
      LiveCheck.condition <$> checks =
        GoalCheck.aspect <$> compare_goal desired evidence context.(ExecutionContext.requested_goal) ∧
      (Forall (λ c, c.(LiveCheck.status) = LiveCheckStatus.Satisfied) checks →
       goal_established context observation bindings))
    (check_observed_goal display context observation bindings).
Proof. apply live_goal_established. Qed.

(** * From live evidence to a verified run

    The runtime host hands the report of [check_observed_goal] to
    [record_goal_verification].  This file joins the two: what a verified run
    says about the storage, and which reports a run accepts. *)

Implicit Types (run : ExecutionRun) (doc : PlanDocument).

(** [ExecutionRun::context] *)
Definition run_context run : ExecutionContext :=
  ExecutionContext.mk run.(ExecutionRun.run_id)
    run.(ExecutionRun.document).(PlanDocument.plan_id) run.(ExecutionRun.plan)
    run.(ExecutionRun.document).(PlanDocument.baseline)
    run.(ExecutionRun.document).(PlanDocument.requested_goal)
    run.(ExecutionRun.document).(PlanDocument.protected_scope).

(** A run of a document, with serializers that keep values apart. *)
Definition attempt doc run : Prop :=
  ∃ display json json' id init, serializers_faithful json ∧ serializers_faithful json' ∧
    execution_run_new display json json' id doc = Ok init ∧ rtc run_step init run.

Lemma attempt_reachable doc run : attempt doc run → reachable doc run.
Proof. intros (display & json & json' & id & init & _ & _ & ?). by exists display, json, json', id, init. Qed.

(** What a call never changes. *)
Definition frozen run run' : Prop :=
  run'.(ExecutionRun.document) = run.(ExecutionRun.document) ∧
  run'.(ExecutionRun.plan) = run.(ExecutionRun.plan) ∧
  run'.(ExecutionRun.goal_aspects) = run.(ExecutionRun.goal_aspects).

Lemma run_step_frozen run run' : run_inv run → run_step run run' → frozen run run'.
Proof.
  intros Hinv [->|(mid & Ht & Hp)]%run_step_cases; [done| |apply Hinv].
  assert (frozen run mid) as Hm by (destruct Ht; [done..|]; by destruct run).
  clear Ht Hinv. revert Hm. induction Hp as [run0 ? _|run0 ? run' _ _ IH]; intros Hm;
    [by destruct run0|]. apply IH. by destruct run0.
Qed.

Lemma steps_frozen run run' : run_inv run → rtc run_step run run' → frozen run run'.
Proof.
  intros Hinv Hr. revert Hinv. induction Hr as [|a b c Hab _ IH]; intros Hinv; [done|].
  pose proof (run_step_frozen _ _ Hinv Hab) as (E1 & E2 & E3).
  destruct IH as (E4 & E5 & E6); [by eapply run_step_inv|]. unfold frozen. by rewrite E4, E5, E6.
Qed.

(** The frozen context of a run: the document, a well-formed plan and the
    aspects of the prediction. *)
Lemma attempt_context doc run :
  ids_u32 doc → attempt doc run →
  run.(ExecutionRun.document) = doc ∧ plan_wf run.(ExecutionRun.plan) ∧
  ∃ desired evidence, run.(ExecutionRun.goal_aspects) =
    GoalCheck.aspect <$> compare_goal desired evidence doc.(PlanDocument.requested_goal).
Proof.
  intros Hids (display & json & json' & id & init & Hj & Hj' & Hnew & Hr).
  pose proof (new_run_inv _ _ _ _ _ _ Hnew) as Hinv.
  destruct (steps_frozen _ _ Hinv Hr) as (-> & -> & ->). clear Hr Hinv run.
  unfold execution_run_new in Hnew.
  pose proof (analyse_historical_ok display json json' doc Hj Hj' Hids) as Ha.
  destruct (analyse_historical _ _ _ _) as [an|[]]; [|done..]. simpl in Hnew, Ha.
  injection Hnew as <-. destruct Ha as [Hwf _ Hrep _ _ _ _].
  apply simulate_plan_for_goal_inv in Hrep as [_ (ordered & ev & t & s & st & _ & _ & _ & _ & _ & Hg & _)].
  split_and!; [done..|]. simpl. rewrite Hg. eauto.
Qed.

(** The conditions of a goal report are the aspects of the goal. *)
Lemma check_observed_goal_conditions display context observation bindings desired evidence checks :
  check_observed_goal display context observation bindings = Ok checks →
  LiveCheck.condition <$> checks =
    GoalCheck.aspect <$> compare_goal desired evidence context.(ExecutionContext.requested_goal).
Proof.
  unfold check_observed_goal. destruct (valid_inputs _ _) as [[]|]; [|done].
  destruct (validate_structure _) as [[]|]; [|done]. cbn [report map_err].
  destruct (graph_status _ _ _ _) as [status|]; [|done].
  pose proof (returns_try_map (goal_mount_check display context observation bindings) _
    context.(ExecutionContext.requested_goal).(DesiredState.mounts).(MountSpec.runtime)
    (λ m _, goal_mount_check_ok context observation bindings display m)) as Hm.
  destruct (try_map _ _) as [mounts|]; [|done]. intros [= <-].
  eapply goal_conditions; [exact Hm|]. by intros ? ? [? _].
Qed.

Lemma goal_aspects_eq desired evidence (goal : DesiredState) :
  GoalCheck.aspect <$> compare_goal desired evidence goal =
  [GoalAspect.Graph] ++
  ((λ k, GoalAspect.RuntimeMount k.1 k.2) <$>
     (mount_key <$> goal.(DesiredState.mounts).(MountSpec.runtime))) ++
  ((λ k, GoalAspect.PersistentMount k.1 k.2) <$>
     (mount_key <$> goal.(DesiredState.mounts).(MountSpec.persistent))) ++
  [GoalAspect.Boot].
Proof. unfold compare_goal. by rewrite !fmap_app, <-!list_fmap_compose. Qed.

Lemma goal_aspects_NoDup desired evidence (goal : DesiredState) :
  NoDup (GoalCheck.aspect <$> compare_goal desired evidence goal) ↔
  NoDup (mount_key <$> goal.(DesiredState.mounts).(MountSpec.runtime)) ∧
  NoDup (mount_key <$> goal.(DesiredState.mounts).(MountSpec.persistent)).
Proof.
  rewrite goal_aspects_eq. cbn [app].
  assert (Inj (=) (=) (λ k : PathBuf * MountContext, GoalAspect.RuntimeMount k.1 k.2)) by
    (intros [] []; simpl; congruence).
  assert (Inj (=) (=) (λ k : PathBuf * MountContext, GoalAspect.PersistentMount k.1 k.2)) by
    (intros [] []; simpl; congruence).
  rewrite NoDup_cons, !NoDup_app.
  rewrite (NoDup_fmap (λ k : PathBuf * MountContext, GoalAspect.RuntimeMount k.1 k.2)).
  rewrite (NoDup_fmap (λ k : PathBuf * MountContext, GoalAspect.PersistentMount k.1 k.2)).
  split; [by intros (_ & Hr & _ & Hp & _)|]. intros [Hr Hp].
  split_and!; [|done| |done| |apply NoDup_singleton].
  - intros [(? & ? & _)%list_elem_of_fmap|[(? & ? & _)%list_elem_of_fmap|
      ?%list_elem_of_singleton]%elem_of_app]%elem_of_app; done.
  - intros x (? & -> & _)%list_elem_of_fmap [(? & ? & _)%list_elem_of_fmap|
      ?%list_elem_of_singleton]%elem_of_app; done.
  - intros x (? & -> & _)%list_elem_of_fmap ?%list_elem_of_singleton. done.
Qed.

(** A verified run, on the evidence of its goal report. *)
Lemma verified_run_goal display doc run rep bindings :
  ids_u32 doc → NoDup doc.(PlanDocument.requested_goal).(DesiredState.graph).(NodeGraph.relations) →
  attempt doc run → is_verified run = true →
  run.(ExecutionRun.goal_verification) = Some rep →
  check_observed_goal display (run_context run) rep.(GoalVerificationReport.observation) bindings =
    Ok rep.(GoalVerificationReport.checks) →
  goal_established (run_context run) rep.(GoalVerificationReport.observation) bindings ∧
  (run_context run).(ExecutionContext.requested_goal) = doc.(PlanDocument.requested_goal) ∧
  rep.(GoalVerificationReport.preservation) = LiveCheckStatus.Satisfied ∧
  run.(ExecutionRun.latest_observation) = Some rep.(GoalVerificationReport.observation).
Proof.
  intros Hids Hnd Hat Hv Hrep Hchk.
  destruct (attempt_context _ _ Hids Hat) as (Hdoc & Hwf & desired & evidence & Hasp).
  apply attempt_reachable, reachable_inv in Hat as Hinv.
  destruct (inv_goal _ Hinv rep Hrep) as (_ & _ & Hobs).
  unfold is_verified in Hv. rewrite Hrep in Hv. simpl in Hv. unfold goal_satisfied in Hv.
  apply andb_true_iff in Hv as [Hp%bool_decide_eq_true Hc]. rewrite forallb_elem in Hc.
  pose proof (live_goal_established display (run_context run) rep.(GoalVerificationReport.observation)
    bindings desired evidence) as Hl. simpl in Hl. rewrite Hdoc in Hl.
  specialize (Hl (wf_structured _ Hwf) Hnd). unfold run_context in *. rewrite Hdoc in *.
  rewrite Hchk in Hl. destruct Hl as [_ Hest]. split_and!; try done.
  apply Hest, Forall_forall. intros c Hin. by apply Hc, bool_decide_eq_true in Hin.
Qed.

(** ** Theorems *)

(** End to end: when a run reports success on a report of the live goal check,
    every action was verified and the requested goal holds of the last
    accepted observation, with the protected area preserved. *)
Theorem verified_run_reaches_goal display doc run rep bindings :
  ids_u32 doc → NoDup doc.(PlanDocument.requested_goal).(DesiredState.graph).(NodeGraph.relations) →
  attempt doc run → is_verified run = true →
  run.(ExecutionRun.goal_verification) = Some rep →
  check_observed_goal display (run_context run) rep.(GoalVerificationReport.observation) bindings =
    Ok rep.(GoalVerificationReport.checks) →
  goal_established (run_context run) rep.(GoalVerificationReport.observation) bindings ∧
  (run_context run).(ExecutionContext.requested_goal) = doc.(PlanDocument.requested_goal) ∧
  rep.(GoalVerificationReport.preservation) = LiveCheckStatus.Satisfied ∧
  run.(ExecutionRun.latest_observation) = Some rep.(GoalVerificationReport.observation).
Proof. apply verified_run_goal. Qed.

(** The live goal report of a run is complete for it exactly when no mount
    target is requested twice in one namespace: a goal that repeats an entry
    passes review, yet its own live report is always refused. *)
Theorem goal_report_complete display doc run observation bindings checks :
  ids_u32 doc → attempt doc run →
  check_observed_goal display (run_context run) observation bindings = Ok checks →
  checks_cover run.(ExecutionRun.goal_aspects) checks = true ↔
  NoDup (mount_key <$> doc.(PlanDocument.requested_goal).(DesiredState.mounts).(MountSpec.runtime)) ∧
  NoDup (mount_key <$> doc.(PlanDocument.requested_goal).(DesiredState.mounts).(MountSpec.persistent)).
Proof.
  intros Hids Hat Hchk.
  destruct (attempt_context _ _ Hids Hat) as (Hdoc & _ & desired & evidence & Hasp).
  apply (check_observed_goal_conditions _ _ _ _ desired evidence) in Hchk.
  simpl in Hchk. rewrite Hdoc in Hchk.
  rewrite <-(goal_aspects_NoDup desired evidence), checks_cover_spec. unfold complete_checks.
  rewrite Hchk, Hasp. split; [by intros [? _]|done].
Qed.
