(* ===== verification/Draft.v ===== *)
(** * Editable requests: [storage-engine/src/editing]

    The user's requests and drafts ([request.rs], [draft.rs]), their lowering
    to plan fragments ([lower.rs]) and the independent check that the actions
    of a plan are exactly the recipe of a request ([coverage.rs]). *)

From S2P Require Import Prelude Model Graph State Action Logical Report Compose.

Abbreviation OperationId := Uuid (only parsing).
Abbreviation DraftRevision := N (only parsing).

Module PlanRequest.
Inductive PlanRequest :=
| CreatePartition (table : NodeId) (number : positive) (offset size : Bytes)
    (role : option UsageRole) (attributes : PartitionAttributes)
| FormatLuks (backing : NodeId) (version : LuksVersion) (credential : CredentialRef)
| OpenLuks (container : NodeId) (mapping_name : string) (credential : CredentialRef)
    (read_only : bool)
| CreateLv (vg : NodeId) (name : string) (size : Bytes) (layout : LvmLvKind) (activate : bool)
| ResizeLv (lv : NodeId) (new_size : Bytes)
| ResizeFilesystem (filesystem : NodeId) (new_size : Bytes)
| DeletePartition (partition : NodeId)
| RemoveLv (lv : NodeId)
| CloseLuks (mapping : NodeId)
| CreateFilesystem (backing : NodeId) (filesystem : FilesystemKind) (label : option string)
| Mount (entry : MountEntry)
| PersistMount (entry : MountEntry)
| Unmount (target : PathBuf) (context : MountContext)
| RemovePersistentMount (target : PathBuf) (context : MountContext)
| SetFilesystemLabel (filesystem : NodeId) (label : option string)
| Maintenance (intent : OperationIntent).
#[global] Instance PlanRequest_eq_dec : EqDecision PlanRequest.
Proof. solve_decision. Defined.
End PlanRequest.
Abbreviation PlanRequest := PlanRequest.PlanRequest.

Module PlanOperation.
Record PlanOperation := mk {
  id : OperationId;
  request : PlanRequest;
  created_node : option NodeId }.
#[global] Instance PlanOperation_eq_dec : EqDecision PlanOperation.
Proof. solve_decision. Defined.
End PlanOperation.
Abbreviation PlanOperation := PlanOperation.PlanOperation.

Module PlanDraft.
Record PlanDraft := mk {
  operations : list PlanOperation;
  protected_scope : ProtectedScope }.
#[global] Instance PlanDraft_eq_dec : EqDecision PlanDraft.
Proof. solve_decision. Defined.
Definition default : PlanDraft := mk [] ProtectedScope.default.
End PlanDraft.
Abbreviation PlanDraft := PlanDraft.PlanDraft.

Implicit Types (request : PlanRequest) (operation : PlanOperation) (draft : PlanDraft).

(** [DraftRevision::next] *)
Definition DraftRevision_next (revision : DraftRevision) : option DraftRevision :=
  u64_checked_add revision 1.

(** ** Requests ([request.rs]) *)

Definition creates_node request : bool :=
  match request with
  | PlanRequest.CreatePartition _ _ _ _ _ _ | PlanRequest.FormatLuks _ _ _
  | PlanRequest.OpenLuks _ _ _ _ | PlanRequest.CreateLv _ _ _ _ _
  | PlanRequest.CreateFilesystem _ _ _ => true
  | _ => false
  end.

(** The nodes an intent names. *)
Definition intent_nodes (intent : OperationIntent) : list NodeId :=
  match intent with
  | OperationIntent.Reformat target _ | OperationIntent.Check target _
  | OperationIntent.Repair target _ | OperationIntent.SetActivation target _ => [target]
  | OperationIntent.ReplaceMember group old new => [group; old; new]
  | OperationIntent.ConvertBtrfsProfiles filesystem _ => [filesystem]
  end.

(** [PlanRequest::referenced_nodes] *)
Definition request_nodes request : list NodeId :=
  match request with
  | PlanRequest.CreatePartition table _ _ _ _ _ => [table]
  | PlanRequest.CreateLv vg _ _ _ _ => [vg]
  | PlanRequest.ResizeLv lv _ | PlanRequest.RemoveLv lv => [lv]
  | PlanRequest.DeletePartition partition => [partition]
  | PlanRequest.CloseLuks mapping => [mapping]
  | PlanRequest.CreateFilesystem backing _ _ | PlanRequest.FormatLuks backing _ _ => [backing]
  | PlanRequest.OpenLuks container _ _ _ => [container]
  | PlanRequest.SetFilesystemLabel filesystem _ | PlanRequest.ResizeFilesystem filesystem _ =>
      [filesystem]
  | PlanRequest.Mount entry | PlanRequest.PersistMount entry =>
      match entry.(MountEntry.source) with
      | MountSource.Filesystem node | MountSource.BtrfsSubvolume node | MountSource.ZfsDataset node =>
          [node]
      | MountSource.Bind _ | MountSource.Tmpfs | MountSource.Network _ | MountSource.Other _ => []
      end
  | PlanRequest.Unmount _ _ | PlanRequest.RemovePersistentMount _ _ => []
  | PlanRequest.Maintenance intent => intent_nodes intent
  end.

(** The [remap] closure. *)
Definition remap (mapping : gmap NodeId NodeId) (n : NodeId) : NodeId :=
  match mapping !! n with Some target => target | None => n end.

Definition remap_source (mapping : gmap NodeId NodeId) (s : MountSource) : MountSource :=
  match s with
  | MountSource.Filesystem node => MountSource.Filesystem (remap mapping node)
  | MountSource.BtrfsSubvolume node => MountSource.BtrfsSubvolume (remap mapping node)
  | MountSource.ZfsDataset node => MountSource.ZfsDataset (remap mapping node)
  | s => s
  end.

Definition remap_entry (mapping : gmap NodeId NodeId) (e : MountEntry) : MountEntry :=
  MountEntry.mk (remap_source mapping e.(MountEntry.source)) e.(MountEntry.target)
    e.(MountEntry.options) e.(MountEntry.context).

Definition remap_intent (mapping : gmap NodeId NodeId) (intent : OperationIntent) : OperationIntent :=
  match intent with
  | OperationIntent.Reformat target fs => OperationIntent.Reformat (remap mapping target) fs
  | OperationIntent.Check target force => OperationIntent.Check (remap mapping target) force
  | OperationIntent.Repair target force => OperationIntent.Repair (remap mapping target) force
  | OperationIntent.SetActivation target active =>
      OperationIntent.SetActivation (remap mapping target) active
  | OperationIntent.ReplaceMember group old new =>
      OperationIntent.ReplaceMember (remap mapping group) (remap mapping old) (remap mapping new)
  | OperationIntent.ConvertBtrfsProfiles filesystem target =>
      OperationIntent.ConvertBtrfsProfiles (remap mapping filesystem) target
  end.

Definition remap_nodes (mapping : gmap NodeId NodeId) request : PlanRequest :=
  match request with
  | PlanRequest.CreatePartition table number offset size role attributes =>
      PlanRequest.CreatePartition (remap mapping table) number offset size role attributes
  | PlanRequest.CreateLv vg name size layout activate =>
      PlanRequest.CreateLv (remap mapping vg) name size layout activate
  | PlanRequest.ResizeLv lv new_size => PlanRequest.ResizeLv (remap mapping lv) new_size
  | PlanRequest.RemoveLv lv => PlanRequest.RemoveLv (remap mapping lv)
  | PlanRequest.DeletePartition partition => PlanRequest.DeletePartition (remap mapping partition)
  | PlanRequest.CloseLuks m => PlanRequest.CloseLuks (remap mapping m)
  | PlanRequest.CreateFilesystem backing filesystem label =>
      PlanRequest.CreateFilesystem (remap mapping backing) filesystem label
  | PlanRequest.FormatLuks backing version credential =>
      PlanRequest.FormatLuks (remap mapping backing) version credential
  | PlanRequest.OpenLuks container mapping_name credential read_only =>
      PlanRequest.OpenLuks (remap mapping container) mapping_name credential read_only
  | PlanRequest.SetFilesystemLabel filesystem label =>
      PlanRequest.SetFilesystemLabel (remap mapping filesystem) label
  | PlanRequest.ResizeFilesystem filesystem new_size =>
      PlanRequest.ResizeFilesystem (remap mapping filesystem) new_size
  | PlanRequest.Mount entry => PlanRequest.Mount (remap_entry mapping entry)
  | PlanRequest.PersistMount entry => PlanRequest.PersistMount (remap_entry mapping entry)
  | PlanRequest.Unmount target context => PlanRequest.Unmount target context
  | PlanRequest.RemovePersistentMount target context =>
      PlanRequest.RemovePersistentMount target context
  | PlanRequest.Maintenance intent => PlanRequest.Maintenance (remap_intent mapping intent)
  end.

(** [PlanOperation::new]: the allocated identities are arguments. *)
Definition operation_new (id : OperationId) (node : NodeId) request : PlanOperation :=
  PlanOperation.mk id request (if creates_node request then Some node else None).

(** ** Lowering ([lower.rs]) *)

Definition diagnostic (code message : string) : Diagnostic :=
  Diagnostic.mk code DiagnosticSeverity.Error [] message None None.

(** The [fail] closure. *)
Abbreviation fail code message := (Err [diagnostic code message]) (only parsing).

(** [operation.created_node.ok_or_else(..)] *)
Definition output_node_of operation (message : string) : result NodeId (list Diagnostic) :=
  ok_or operation.(PlanOperation.created_node) [diagnostic "draft.created_node" message].

Definition writable_backing (backing : NodeId) : list ExternalRequirement :=
  [ExternalRequirement.mk 0 (ActionPrerequisite.Writable backing)].

(** The [match] of [lower_operation]: operations, requirements and origin. *)
Definition lower_recipe operation (intent_index : option nat)
    : result (list ProviderAction * list ExternalRequirement * FragmentOrigin) (list Diagnostic) :=
  match operation.(PlanOperation.request) with
  | PlanRequest.CreatePartition table number offset size role attributes =>
      let? node := output_node_of operation "missing partition output ID" in
      Ok ([ProviderAction.Partition
             (PartitionAction.Create table node number offset size role attributes)], [],
          FragmentOrigin.Change node "create partition at exact byte extent")
  | PlanRequest.FormatLuks backing version credential =>
      let? node := output_node_of operation "missing LUKS container output ID" in
      Ok ([ProviderAction.Luks (LuksAction.Format backing node version credential)],
          writable_backing backing, FragmentOrigin.Change node "format LUKS container")
  | PlanRequest.OpenLuks container mapping_name credential read_only =>
      let? node := output_node_of operation "missing dm-crypt mapping output ID" in
      Ok ([ProviderAction.Luks (LuksAction.Open container node mapping_name credential read_only)], [],
          FragmentOrigin.Change node "open LUKS mapping")
  | PlanRequest.CreateLv vg name size layout activate =>
      if bool_decide (layout ≠ LvmLvKind.Linear)
      then fail "draft.unsupported_layout" "only linear LV creation is supported"
      else
        let? node := output_node_of operation "missing LV output ID" in
        Ok (ProviderAction.Lvm (LvmAction.CreateLv vg node name size layout) ::
            (if activate : bool
             then [ProviderAction.Lvm (LvmAction.SetActivation node true)] else []), [],
            FragmentOrigin.Change node "create logical volume")
  | PlanRequest.ResizeLv lv new_size =>
      Ok ([ProviderAction.Lvm (LvmAction.ResizeLv lv new_size)], [],
          FragmentOrigin.Change lv "resize logical volume")
  | PlanRequest.ResizeFilesystem filesystem new_size =>
      Ok ([ProviderAction.Filesystem (FilesystemAction.Resize filesystem new_size)], [],
          FragmentOrigin.Change filesystem "resize ext filesystem")
  | PlanRequest.DeletePartition partition =>
      Ok ([ProviderAction.Partition (PartitionAction.Delete partition)], [],
          FragmentOrigin.Change partition "delete selected partition")
  | PlanRequest.RemoveLv lv =>
      Ok ([ProviderAction.Lvm (LvmAction.RemoveLv lv)], [],
          FragmentOrigin.Change lv "remove selected logical volume")
  | PlanRequest.CloseLuks mapping =>
      Ok ([ProviderAction.Luks (LuksAction.Close mapping)], [],
          FragmentOrigin.Change mapping "close selected LUKS mapping")
  | PlanRequest.CreateFilesystem backing filesystem label =>
      if bool_decide (filesystem ≠ FilesystemKind.Ext4)
      then fail "draft.unsupported_filesystem" "only ext4 creation is supported"
      else
        let? node := output_node_of operation "missing filesystem output ID" in
        Ok ([ProviderAction.Filesystem (FilesystemAction.Create backing node filesystem label)],
            writable_backing backing, FragmentOrigin.Change node "create filesystem")
  | PlanRequest.Mount entry =>
      Ok ([ProviderAction.Mount (MountAction.Mount entry.(MountEntry.source) entry.(MountEntry.target)
             entry.(MountEntry.options) entry.(MountEntry.context))], [],
          FragmentOrigin.Mount entry.(MountEntry.target) entry.(MountEntry.context))
  | PlanRequest.PersistMount entry =>
      Ok ([ProviderAction.Mount (MountAction.Persist entry)], [],
          FragmentOrigin.Mount entry.(MountEntry.target) entry.(MountEntry.context))
  | PlanRequest.Unmount target context =>
      Ok ([ProviderAction.Mount (MountAction.Unmount target context)], [],
          FragmentOrigin.Mount target context)
  | PlanRequest.RemovePersistentMount target context =>
      Ok ([ProviderAction.Mount (MountAction.RemovePersistent target context)], [],
          FragmentOrigin.Mount target context)
  | PlanRequest.SetFilesystemLabel filesystem label =>
      Ok ([ProviderAction.Filesystem (FilesystemAction.SetLabel filesystem label)], [],
          FragmentOrigin.Change filesystem "set filesystem label")
  | PlanRequest.Maintenance (OperationIntent.Check target force) =>
      let? index := ok_or intent_index
                      [diagnostic "draft.intent_index" "maintenance request needs an intent index"] in
      Ok ([ProviderAction.Filesystem (FilesystemAction.Check target force)], [],
          FragmentOrigin.Intent index)
  | PlanRequest.Maintenance _ =>
      fail "draft.unsupported_intent" "only read-only filesystem Check is supported"
  end.

Definition lower_operation operation (intent_index : option nat)
    : result PlanFragment (list Diagnostic) :=
  if negb (Bool.eqb (creates_node operation.(PlanOperation.request))
             (bool_decide (is_Some operation.(PlanOperation.created_node))))
  then fail "draft.created_node"
         "creating requests require an output ID; other requests must not have one"
  else
    let? (operations, requirements, origin) := lower_recipe operation intent_index in
    let dependencies :=
      if (length operations =? 2)%nat
      then [FragmentDependency.mk 0 1 DependencyReason.RequestedOrder] else [] in
    Ok (PlanFragment.mk
          (imap (λ i o, FragmentAction.mk (N.of_nat i) o) operations)
          dependencies requirements origin []).

(** ** Coverage ([coverage.rs]) *)

Module RequestCoverage.
Record RequestCoverage := mk {
  operation : OperationId;
  covered : bool;
  diagnostics : list Diagnostic }.
#[global] Instance RequestCoverage_eq_dec : EqDecision RequestCoverage.
Proof. solve_decision. Defined.
End RequestCoverage.
Abbreviation RequestCoverage := RequestCoverage.RequestCoverage.

(** The [match]: the actions are exactly the recipe of the request. *)
Definition recipe_covered operation (actions : list ProviderAction) : bool :=
  let creates node := bool_decide (operation.(PlanOperation.created_node) = Some node) in
  match operation.(PlanOperation.request), actions with
  | PlanRequest.CreatePartition table number offset size role attributes,
    [ProviderAction.Partition
       (PartitionAction.Create table' node number' offset' size' role' attributes')] =>
      bool_decide (table = table') && creates node && bool_decide (number = number') &&
      bool_decide (offset = offset') && bool_decide (size = size') && bool_decide (role = role') &&
      bool_decide (attributes = attributes')
  | PlanRequest.FormatLuks backing version credential,
    [ProviderAction.Luks (LuksAction.Format target node version' credential')] =>
      bool_decide (backing = target) && creates node && bool_decide (version = version') &&
      bool_decide (credential = credential')
  | PlanRequest.OpenLuks container mapping_name credential read_only,
    [ProviderAction.Luks (LuksAction.Open container' node name' credential' read_only')] =>
      bool_decide (container = container') && creates node && bool_decide (mapping_name = name') &&
      bool_decide (credential = credential') && bool_decide (read_only = read_only')
  | PlanRequest.CreateLv vg name size layout activate,
    ProviderAction.Lvm (LvmAction.CreateLv vg' node name' size' layout') :: tail =>
      bool_decide (layout = LvmLvKind.Linear) && bool_decide (vg = vg') && creates node &&
      bool_decide (name = name') && bool_decide (size = size') && bool_decide (layout = layout') &&
      (if activate : bool
       then match tail with
            | [ProviderAction.Lvm (LvmAction.SetActivation target true)] => bool_decide (target = node)
            | _ => false
            end
       else bool_decide (tail = []))
  | PlanRequest.ResizeLv lv new_size, [ProviderAction.Lvm (LvmAction.ResizeLv lv' size')] =>
      bool_decide (lv = lv') && bool_decide (new_size = size')
  | PlanRequest.ResizeFilesystem filesystem new_size,
    [ProviderAction.Filesystem (FilesystemAction.Resize filesystem' size')] =>
      bool_decide (filesystem = filesystem') && bool_decide (new_size = size')
  | PlanRequest.DeletePartition partition,
    [ProviderAction.Partition (PartitionAction.Delete partition')] =>
      bool_decide (partition = partition')
  | PlanRequest.RemoveLv lv, [ProviderAction.Lvm (LvmAction.RemoveLv lv')] => bool_decide (lv = lv')
  | PlanRequest.CloseLuks mapping, [ProviderAction.Luks (LuksAction.Close mapping')] =>
      bool_decide (mapping = mapping')
  | PlanRequest.CreateFilesystem backing filesystem label,
    [ProviderAction.Filesystem (FilesystemAction.Create backing' node filesystem' label')] =>
      bool_decide (filesystem = FilesystemKind.Ext4) && bool_decide (backing = backing') &&
      creates node && bool_decide (filesystem = filesystem') && bool_decide (label = label')
  | PlanRequest.Mount entry, [ProviderAction.Mount (MountAction.Mount source target options context)] =>
      bool_decide (entry.(MountEntry.source) = source) &&
      bool_decide (entry.(MountEntry.target) = target) &&
      bool_decide (entry.(MountEntry.options) = options) &&
      bool_decide (entry.(MountEntry.context) = context)
  | PlanRequest.PersistMount entry, [ProviderAction.Mount (MountAction.Persist entry')] =>
      bool_decide (entry = entry')
  | PlanRequest.Unmount target context, [ProviderAction.Mount (MountAction.Unmount target' context')]
  | PlanRequest.RemovePersistentMount target context,
    [ProviderAction.Mount (MountAction.RemovePersistent target' context')] =>
      bool_decide (target = target') && bool_decide (context = context')
  | PlanRequest.SetFilesystemLabel filesystem label,
    [ProviderAction.Filesystem (FilesystemAction.SetLabel filesystem' label')] =>
      bool_decide (filesystem = filesystem') && bool_decide (label = label')
  | PlanRequest.Maintenance (OperationIntent.Check target force),
    [ProviderAction.Filesystem (FilesystemAction.Check _ _)] =>
      actions_cover_intent (OperationIntent.Check target force) actions
  | _, _ => false
  end.

Definition request_coverage operation (actions : list ProviderAction) : RequestCoverage :=
  let covered := recipe_covered operation actions in
  RequestCoverage.mk operation.(PlanOperation.id) covered
    (if covered then []
     else [diagnostic "draft.request_uncovered"
             "generated actions do not exactly implement the supported request recipe"]).

(** ** Lowering and coverage agree *)

Lemma recipe_covered_spec operation actions :
  recipe_covered operation actions = true ↔
  ∃ index requirements origin, lower_recipe operation index = Ok (actions, requirements, origin).
Proof.
  unfold recipe_covered, lower_recipe, output_node_of.
  destruct operation as [id request created]. cbn [PlanOperation.request PlanOperation.created_node].
  split.
  - intros Hc.
    repeat (case_match; simplify_eq/=; try discriminate);
      rewrite ?andb_true_iff, ?bool_decide_eq_true, ?orb_false_r in Hc;
      destruct_and?; simplify_eq/=; try by (exists None; eauto).
    apply bool_decide_eq_true in Hc as [= -> ->]. exists (Some 0). eauto.
  - intros (index & rs & origin & Hl). destruct created; cbn [ok_or] in Hl;
    repeat (case_match; simplify_eq/=; try discriminate);
      rewrite ?andb_true_iff, ?bool_decide_eq_true, ?orb_false_r;
      repeat match goal with H : bool_decide (_ ≠ _) = false |- _ =>
        apply bool_decide_eq_false, dec_stable in H end;
      split_and?; try done; by apply bool_decide_eq_true.
Qed.
