(* ===== verification/Build.v ===== *)
(** * Previews of drafts: [editing/build.rs] and [editing/preview.rs]

    [build_preview] validates the identities of a draft, lowers every request
    to a fragment, chains the fragments in the user's order, composes and
    analyses the plan and checks each request against its own actions.  The
    result, or the error, is the only preview of the draft. *)

From S2P Require Import Prelude Model Graph GraphValid State Action Contract Logical Evidence.
From S2P Require Import Prerequisites Effects Report PlanOrder Compose Simulate Wire Draft.

Module OperationActions.
Record OperationActions := mk {
  operation : OperationId;
  fragments : list FragmentId;
  actions : list ActionId }.
#[global] Instance OperationActions_eq_dec : EqDecision OperationActions.
Proof. solve_decision. Defined.
End OperationActions.
Abbreviation OperationActions := OperationActions.OperationActions.

Module OperationDiagnostic.
Record OperationDiagnostic := mk {
  operation : option OperationId;
  diagnostic : Diagnostic;
  checks : list PrerequisiteCheck }.
#[global] Instance OperationDiagnostic_eq_dec : EqDecision OperationDiagnostic.
Proof. solve_decision. Defined.
End OperationDiagnostic.
Abbreviation OperationDiagnostic := OperationDiagnostic.OperationDiagnostic.

Module PlanPreview.
Record PlanPreview := mk {
  plan : ExecutionPlan;
  report : SimulationReport;
  source_map : list OperationActions;
  request_coverage : list RequestCoverage;
  diagnostics : list OperationDiagnostic }.
#[global] Instance PlanPreview_eq_dec : EqDecision PlanPreview.
Proof. solve_decision. Defined.
End PlanPreview.
Abbreviation PlanPreview := PlanPreview.PlanPreview.

Module DraftBuildError.
Inductive DraftBuildError :=
| Draft (diagnostics : list OperationDiagnostic)
| Composition (source : CompositionError) (source_map : list OperationActions)
| Simulation (source : PlanSimulationError) (source_map : list OperationActions).
#[global] Instance DraftBuildError_eq_dec : EqDecision DraftBuildError.
Proof. solve_decision. Defined.
End DraftBuildError.
Abbreviation DraftBuildError := DraftBuildError.DraftBuildError.

Abbreviation building A := (result A (Failure DraftBuildError)) (only parsing).
Implicit Types (baseline : HistoricalBaseline) (draft : PlanDraft).

Abbreviation baseline_node b n :=
  (Graph.node b.(HistoricalBaseline.snapshot).(CurrentState.graph) n) (only parsing).

Definition operation_issue (operation : option OperationId) (code message : string)
    : OperationDiagnostic :=
  OperationDiagnostic.mk operation (diagnostic code message) [].

(** ** Validation *)

(** First loop over [(diagnostics, operations, outputs)]. *)
Definition check_identity baseline
    (acc : list OperationDiagnostic * list OperationId * list NodeId) (operation : PlanOperation)
    : list OperationDiagnostic * list OperationId * list NodeId :=
  let '(diagnostics, operations, outputs) := acc in
  let id := operation.(PlanOperation.id) in
  let '(repeated, operations) :=
    if is_nil id then (true, operations)
    else let '(new, operations) := set_insert id operations in (negb new, operations) in
  let diagnostics :=
    if repeated : bool
    then diagnostics ++ [operation_issue (Some id) "draft.operation_identity"
                           "operation identities must be non-nil and unique"]
    else diagnostics in
  let diagnostics :=
    if negb (Bool.eqb (creates_node operation.(PlanOperation.request))
               (bool_decide (is_Some operation.(PlanOperation.created_node))))
    then diagnostics ++ [operation_issue (Some id) "draft.created_node"
                           "output identity does not match the request kind"]
    else diagnostics in
  match operation.(PlanOperation.created_node) with
  | None => (diagnostics, operations, outputs)
  | Some node =>
      let '(clash, outputs) :=
        if is_nil node || bool_decide (is_Some (baseline_node baseline node)) then (true, outputs)
        else let '(new, outputs) := set_insert node outputs in (negb new, outputs) in
      let diagnostics :=
        if clash : bool
        then diagnostics ++ [operation_issue (Some id) "draft.output_identity"
               "planned nodes must be non-nil, unique, and absent from the baseline"]
        else diagnostics in
      (diagnostics, operations, outputs)
  end.

(** Second loop: the inputs of one operation. *)
Definition check_inputs baseline (outputs : list NodeId) (operation : PlanOperation)
    : list OperationDiagnostic :=
  (λ _, operation_issue (Some operation.(PlanOperation.id)) "draft.unresolved_input"
          "request input is absent from the baseline and draft outputs") <$>
  filter (λ node, baseline_node baseline node = None ∧ node ∉ outputs)
    (request_nodes operation.(PlanOperation.request)).

Definition validate_draft baseline draft : result unit DraftBuildError :=
  let diagnostics :=
    if is_nil baseline.(HistoricalBaseline.id)
    then [operation_issue None "draft.baseline_identity" "baseline identity must not be nil"]
    else [] in
  let '(diagnostics, operations, outputs) :=
    foldl (check_identity baseline) (diagnostics, [], []) draft.(PlanDraft.operations) in
  let diagnostics :=
    diagnostics ++ (draft.(PlanDraft.operations) ≫= check_inputs baseline outputs) in
  match diagnostics with
  | [] => Ok tt
  | _ => Err (DraftBuildError.Draft diagnostics)
  end.

(** ** Lowering the draft *)

(** The loop of [build_preview] over [(intents, fragments)]. *)
Definition lower_step (acc : list OperationIntent * list PlanFragment) (operation : PlanOperation)
    : result (list OperationIntent * list PlanFragment) DraftBuildError :=
  let '(intents, fragments) := acc in
  let '(index, intents) :=
    match operation.(PlanOperation.request) with
    | PlanRequest.Maintenance intent => (Some (length intents), intents ++ [intent])
    | _ => (None, intents)
    end in
  let? fragment := map_err (λ errors, DraftBuildError.Draft
      ((λ d, OperationDiagnostic.mk (Some operation.(PlanOperation.id)) d []) <$> errors))
    (lower_operation operation index) in
  Ok (intents, fragments ++ [fragment]).

(** [index as u32] *)
Definition as_u32 (index : nat) : nat := N.to_nat (N.of_nat index mod (u32_MAX + 1)).

Definition lowering_diagnostics (operation : PlanOperation) (fragment : PlanFragment)
    : list OperationDiagnostic :=
  (λ d, OperationDiagnostic.mk (Some operation.(PlanOperation.id)) d []) <$>
  fragment.(PlanFragment.diagnostics).

(** [ids[&(index, action.id)]] panics when the key is absent. *)
Definition map_operation (ids : gmap (nat * LocalActionId) ActionId)
    (entry : nat * (PlanOperation * PlanFragment)) : building OperationActions :=
  let '(index, (operation, fragment)) := entry in
  let? actions := try_map (λ action, ok_or (ids !! (index, action.(FragmentAction.id))) Panicked)
                    fragment.(PlanFragment.actions) in
  Ok (OperationActions.mk operation.(PlanOperation.id) [as_u32 index] actions).

(** The actions of a fragment without a predecessor, or without a successor, in it. *)
Definition fragment_roots (index : nat) (fragment : PlanFragment) : list FragmentActionRef :=
  (λ a, FragmentActionRef.mk (as_u32 index) a.(FragmentAction.id)) <$>
  filter (λ a, existsb (λ d, bool_decide (d.(FragmentDependency.after) = a.(FragmentAction.id)))
                 fragment.(PlanFragment.dependencies) = false) fragment.(PlanFragment.actions).
Definition fragment_sinks (index : nat) (fragment : PlanFragment) : list FragmentActionRef :=
  (λ a, FragmentActionRef.mk (as_u32 index) a.(FragmentAction.id)) <$>
  filter (λ a, existsb (λ d, bool_decide (d.(FragmentDependency.before) = a.(FragmentAction.id)))
                 fragment.(PlanFragment.dependencies) = false) fragment.(PlanFragment.actions).

(** The ordering loop over [(ordering, previous_sinks)]. *)
Definition chain_fragment (acc : list FragmentOrdering * list FragmentActionRef)
    (entry : nat * PlanFragment) : list FragmentOrdering * list FragmentActionRef :=
  let '(ordering, previous_sinks) := acc in
  let '(index, fragment) := entry in
  match fragment.(PlanFragment.actions) with
  | [] => (ordering, previous_sinks)
  | _ =>
      (ordering ++ (previous_sinks ≫= λ before,
         (λ after, FragmentOrdering.mk before after DependencyReason.RequestedOrder)
           <$> fragment_roots index fragment),
       fragment_sinks index fragment)
  end.

Definition request_ordering (fragments : list PlanFragment) : list FragmentOrdering :=
  (foldl chain_fragment ([], []) (enumerate fragments)).1.

Definition operation_coverage (plan : ExecutionPlan) (entry : PlanOperation * OperationActions)
    : building RequestCoverage :=
  let '(operation, mapping) := entry in
  let? actions := try_map (index plan.(ExecutionPlan.actions)) mapping.(OperationActions.actions) in
  Ok (request_coverage operation (PlannedAction.operation <$> actions)).

Section build.
Variable json : Serializers.

Definition build_fragments baseline draft (fragments : list PlanFragment)
    (intents : list OperationIntent) : building PlanPreview :=
  let snapshot := baseline.(HistoricalBaseline.snapshot) in
  let capacity := baseline.(HistoricalBaseline.capacity_evidence) in
  let owned := zip draft.(PlanDraft.operations) fragments in
  let diagnostics := owned ≫= λ '(operation, fragment), lowering_diagnostics operation fragment in
  let? ids := report (map_err (λ source, DraftBuildError.Composition source [])
                        (fragment_action_ids fragments)) in
  let? source_map := try_map (map_operation ids) (enumerate owned) in
  let? plan := map_failure (λ source, DraftBuildError.Composition source source_map)
      (compose_plan_with_ordering snapshot fragments (request_ordering fragments) capacity) in
  let? analysis := map_failure (λ source, DraftBuildError.Simulation source source_map)
      (analyse_plan json snapshot plan intents capacity draft.(PlanDraft.protected_scope)) in
  let? coverage := try_map (operation_coverage plan) (zip draft.(PlanDraft.operations) source_map) in
  Ok (PlanPreview.mk plan analysis source_map coverage diagnostics).

Definition build_preview baseline draft : building PlanPreview :=
  let? _ := report (validate_draft baseline draft) in
  let? (intents, fragments) := report (try_fold lower_step ([], []) draft.(PlanDraft.operations)) in
  build_fragments baseline draft fragments intents.
End build.

(** ** Status and diagnostics ([preview.rs]) *)

Module PreviewStatus.
Inductive PreviewStatus := Invalid | Blocked | Conditional | Complete.
#[global] Instance PreviewStatus_eq_dec : EqDecision PreviewStatus.
Proof. solve_decision. Defined.
End PreviewStatus.
Abbreviation PreviewStatus := PreviewStatus.PreviewStatus.

Module PreviewState.
Inductive PreviewState :=
| Calculated (preview : PlanPreview)
| Invalid (error : DraftBuildError).
#[global] Instance PreviewState_eq_dec : EqDecision PreviewState.
Proof. solve_decision. Defined.
End PreviewState.
Abbreviation PreviewState := PreviewState.PreviewState.

(** [From<Result<PlanPreview, DraftBuildError>>] *)
Definition preview_from (r : result PlanPreview DraftBuildError) : PreviewState :=
  match r with Ok p => PreviewState.Calculated p | Err e => PreviewState.Invalid e end.

(** [PlanPreview::status] *)
Definition plan_status (preview : PlanPreview) : PreviewStatus :=
  let report := preview.(PlanPreview.report) in
  if negb (bool_decide (report.(SimulationReport.protection_violations) = []))
     || existsb (λ c, negb c.(RequestCoverage.covered)) preview.(PlanPreview.request_coverage)
     || existsb (λ c, negb c.(IntentCoverage.covered)) report.(SimulationReport.intent_coverage)
     || existsb goal_violated report.(SimulationReport.goal_checks)
     || existsb (λ d, bool_decide
          (d.(OperationDiagnostic.diagnostic).(Diagnostic.severity) = DiagnosticSeverity.Error))
          preview.(PlanPreview.diagnostics)
  then PreviewStatus.Blocked
  else if is_complete report then PreviewStatus.Complete
  else PreviewStatus.Conditional.

(** [PreviewState::status] *)
Definition status (state : PreviewState) : PreviewStatus :=
  match state with
  | PreviewState.Calculated preview => plan_status preview
  | PreviewState.Invalid _ => PreviewStatus.Invalid
  end.

Definition calculated (state : PreviewState) : option PlanPreview :=
  match state with PreviewState.Calculated preview => Some preview | PreviewState.Invalid _ => None end.

(** [DraftBuildError::is_internal] *)
Definition is_internal (error : DraftBuildError) : bool :=
  match error with
  | DraftBuildError.Composition source _ =>
      match source with
      | CompositionError.MissingRequirementCheck _ | CompositionError.MissingAnalysedContract _
      | CompositionError.RequirementNotInContract _ | CompositionError.UnknownLocalDependency _
      | CompositionError.UnknownRequirementAction _ _ | CompositionError.DuplicateLocalAction _ _
      | CompositionError.UnknownOrderingAction _ => true
      | _ => false
      end
  | DraftBuildError.Simulation source _ =>
      match source with
      | PlanSimulationError.ContractMismatch _ | PlanSimulationError.UnknownIntentOrigin _ _ => true
      | _ => false
      end
  | DraftBuildError.Draft _ => false
  end.

Definition owner (source_map : list OperationActions) (action : ActionId) : option OperationId :=
  OperationActions.operation <$>
  find_first (λ mapping, contains action mapping.(OperationActions.actions)) source_map.

Section diagnostics.
(** [Display] of the errors. *)
Variable composition_text : CompositionError → string.
Variable action_text : ActionSimulationError → string.
Variable simulation_text : PlanSimulationError → string.

Definition owned_diagnostics (source_map : list OperationActions) (action : ActionId)
    (diagnostics : list Diagnostic) : list OperationDiagnostic :=
  (λ d, OperationDiagnostic.mk (owner source_map action) d []) <$> diagnostics.

(** The actions a composition error names. *)
Definition composition_actions (source : CompositionError) : list ActionId :=
  match source with
  | CompositionError.ProtectedScopeViolation action _ | CompositionError.UnresolvedInput action _
  | CompositionError.Effect action _ | CompositionError.UnresolvedRequirement action
  | CompositionError.AmbiguousRequirement action | CompositionError.RequirementNotInContract action
  | CompositionError.MissingRequirementCheck action | CompositionError.MissingAnalysedContract action
  | CompositionError.SelfDependency action => [action]
  | CompositionError.DuplicatePlannedNode _ first second
  | CompositionError.AmbiguousResourceOrder first second _ => [first; second]
  | _ => []
  end.

(** [DraftBuildError::diagnostics] *)
Definition error_diagnostics (error : DraftBuildError) : list OperationDiagnostic :=
  match error with
  | DraftBuildError.Draft diagnostics => diagnostics
  | DraftBuildError.Composition source source_map =>
      match source with
      | CompositionError.ActionValidation action diagnostics =>
          owned_diagnostics source_map action diagnostics
      | CompositionError.ActionRejected action checks =>
          [OperationDiagnostic.mk (owner source_map action)
             (diagnostic "draft.prerequisites" (composition_text source)) checks]
      | _ =>
          match composition_actions source with
          | [] => [operation_issue None "draft.composition" (composition_text source)]
          | actions => (λ action, operation_issue (owner source_map action) "draft.composition"
                                    (composition_text source)) <$> actions
          end
      end
  | DraftBuildError.Simulation source source_map =>
      match source with
      | PlanSimulationError.Action action error =>
          match error with
          | ActionSimulationError.Validation diagnostics =>
              owned_diagnostics source_map action diagnostics
          | ActionSimulationError.PrerequisitesViolated checks =>
              [OperationDiagnostic.mk (owner source_map action)
                 (diagnostic "draft.prerequisites" (action_text error)) checks]
          | ActionSimulationError.Effect _ =>
              [operation_issue (owner source_map action) "draft.simulation" (action_text error)]
          end
      | _ => [operation_issue None "draft.simulation" (simulation_text source)]
      end
  end.

(** [PreviewState::diagnostics] *)
Definition preview_diagnostics (state : PreviewState) : list OperationDiagnostic :=
  match state with
  | PreviewState.Invalid error => error_diagnostics error
  | PreviewState.Calculated preview =>
      preview.(PlanPreview.diagnostics) ++
      (preview.(PlanPreview.request_coverage) ≫= λ coverage,
         (λ d, OperationDiagnostic.mk (Some coverage.(RequestCoverage.operation)) d []) <$>
         coverage.(RequestCoverage.diagnostics))
  end.
End diagnostics.
