(* ===== verification/BuildProps.v ===== *)
(** * Correctness of previews

    What [validate_draft] accepts, what composition keeps of the fragments, who
    owns the actions of a preview, and why a build never fails for an internal
    reason. *)

From stdpp Require Import relations.
From S2P Require Import Prelude Model Reach Graph GraphOrder GraphValid State.
From S2P Require Import Action Contract ContractProps Logical Evidence.
From S2P Require Import Prerequisites Effects Report PlanOrder Compose.
From S2P Require Import ComposeProps ComposeKeeps Simulate SimulateProps Wire.
From S2P Require Import Draft Build.
From S2P Require Import ContractProps Logical Evidence Prerequisites Effects.
From S2P Require Import Report PlanOrder.
From S2P Require Import Compose ComposeProps ComposeKeeps Simulate.
From S2P Require Import SimulateProps Wire Draft Build.

Implicit Types (baseline : HistoricalBaseline) (draft : PlanDraft) (op : PlanOperation).

(** ** Well-formed drafts *)

Definition outputs draft : list NodeId := omap PlanOperation.created_node draft.(PlanDraft.operations).

(** Identities are usable and unique, outputs are new, inputs are known. *)
Record draft_wf baseline draft : Prop := {
  dw_baseline : is_nil baseline.(HistoricalBaseline.id) = false;
  dw_ids : NoDup (PlanOperation.id <$> draft.(PlanDraft.operations));
  dw_not_nil op : op ∈ draft.(PlanDraft.operations) → is_nil op.(PlanOperation.id) = false;
  dw_created op : op ∈ draft.(PlanDraft.operations) →
    (creates_node op.(PlanOperation.request) = true ↔ is_Some op.(PlanOperation.created_node));
  dw_outputs : NoDup (outputs draft);
  dw_fresh node : node ∈ outputs draft → is_nil node = false ∧ baseline_node baseline node = None;
  dw_inputs op node : op ∈ draft.(PlanDraft.operations) →
    node ∈ request_nodes op.(PlanOperation.request) →
    is_Some (baseline_node baseline node) ∨ node ∈ outputs draft }.

(** What the first loop has accepted of a prefix. *)
Record identities_ok baseline (ops : list PlanOperation) : Prop := {
  io_ids : NoDup (PlanOperation.id <$> ops);
  io_not_nil op : op ∈ ops → is_nil op.(PlanOperation.id) = false;
  io_created op : op ∈ ops →
    (creates_node op.(PlanOperation.request) = true ↔ is_Some op.(PlanOperation.created_node));
  io_outputs : NoDup (omap PlanOperation.created_node ops);
  io_fresh node : node ∈ omap PlanOperation.created_node ops →
    is_nil node = false ∧ baseline_node baseline node = None }.

Lemma set_insert_if {A} `{EqDecision A} (bad : bool) (x : A) l :
  (if bad then (true, l) else let '(new, l') := set_insert x l in (negb new, l')) =
  if bad || contains x l then (true, l) else (false, l ++ [x]).
Proof. unfold set_insert. by destruct bad; [|destruct (contains x l)]. Qed.

Lemma eqb_is_Some {A} (b : bool) (o : option A) :
  Bool.eqb b (bool_decide (is_Some o)) = true ↔ (b = true ↔ is_Some o).
Proof.
  rewrite Bool.eqb_true_iff. case_bool_decide as Ho; destruct b; naive_solver.
Qed.

Lemma push_if_nil {A} (b : bool) (l : list A) x : (if b then l ++ [x] else l) = [] ↔ l = [] ∧ b = false.
Proof. destruct b; [split; [by intros [_ ?]%app_nil|by intros [_ ?]]|tauto]. Qed.

(** One step accepts its operation or leaves a diagnostic. *)
Lemma check_identity_step baseline diags ids outs op :
  let '(diags', ids', outs') := check_identity baseline (diags, ids, outs) op in
  (diags' = [] ↔ diags = [] ∧ is_nil op.(PlanOperation.id) = false ∧ op.(PlanOperation.id) ∉ ids ∧
     (creates_node op.(PlanOperation.request) = true ↔ is_Some op.(PlanOperation.created_node)) ∧
     ∀ node, op.(PlanOperation.created_node) = Some node →
       is_nil node = false ∧ baseline_node baseline node = None ∧ node ∉ outs) ∧
  (diags' = [] → ids' = ids ++ [op.(PlanOperation.id)] ∧
     outs' = outs ++ match op.(PlanOperation.created_node) with Some n => [n] | None => [] end).
Proof.
  unfold check_identity. rewrite set_insert_if.
  pose proof (eqb_is_Some (creates_node op.(PlanOperation.request)) op.(PlanOperation.created_node)) as Hk.
  destruct (is_nil _ || contains _ ids) eqn:Hbad.
  - apply orb_true_iff in Hbad. rewrite contains_true in Hbad.
    destruct (PlanOperation.created_node op) as [n|]; rewrite ?set_insert_if;
      [destruct (_ || contains n outs)|];
      (split; [split; [|intros (_ & H1 & H2 & _); destruct Hbad; congruence]|]);
      rewrite ?app_nil, ?push_if_nil, ?app_nil; intros ?; destruct_and?; done.
  - apply orb_false_iff in Hbad. rewrite contains_false in Hbad. destruct Hbad as [Hb1 Hb2].
    destruct (PlanOperation.created_node op) as [n|]; [rewrite set_insert_if|].
    + destruct (_ || contains n outs) eqn:Hclash.
      * split; rewrite ?app_nil; [|by intros [_ ?]].
        split; [by intros [_ ?]|]. intros (_ & _ & _ & _ & Hn).
        destruct (Hn n eq_refl) as (H1 & H2 & H3).
        rewrite H1, H2, bool_decide_eq_false_2 in Hclash by (by intros []).
        by apply contains_true in Hclash.
      * rewrite !orb_false_iff, contains_false, bool_decide_eq_false, <-eq_None_not_Some in Hclash.
        split; [|done]. rewrite push_if_nil, negb_false_iff, Hk. destruct Hclash as [[? ?] ?].
        split; [intros [-> ?]|by intros (-> & _ & _ & ? & _)]. split_and!; try done. by intros ? [= <-].
    + split; [|by rewrite app_nil_r]. rewrite push_if_nil, negb_false_iff, Hk.
      split; [intros [-> ?]|by intros (-> & _ & _ & ? & _)]. by split_and!.
Qed.

Lemma check_identities_ok baseline diags ops :
  let '(diags', ids, outs) := foldl (check_identity baseline) (diags, [], []) ops in
  (diags' = [] ↔ diags = [] ∧ identities_ok baseline ops) ∧
  (diags' = [] → ids = PlanOperation.id <$> ops ∧ outs = omap PlanOperation.created_node ops).
Proof.
  induction ops as [|op ops IH] using rev_ind.
  { simpl. split; [|done]. split; [|by intros [? _]]. intros ->. split; [done|].
    split; try by intros ? ?%elem_of_nil. all: constructor. }
  rewrite foldl_app. cbn [foldl].
  destruct (foldl _ _ ops) as [[diags1 ids1] outs1]. destruct IH as [Hiff Heq].
  pose proof (check_identity_step baseline diags1 ids1 outs1 op) as Hs.
  destruct (check_identity _ _ op) as [[diags2 ids2] outs2]. destruct Hs as [Hs1 Hs2]. split.
  - rewrite Hs1, Hiff. split.
    + intros ([-> Hok] & Hn & Hi & Hc & Ho). destruct (Heq (proj2 Hiff (conj eq_refl Hok))) as [-> ->].
      split; [done|]. destruct Hok as [A1 A2 A3 A4 A5]. split.
      * rewrite fmap_snoc. by apply NoDup_snoc.
      * intros x [?| ->%list_elem_of_singleton]%elem_of_app; auto.
      * intros x [?| ->%list_elem_of_singleton]%elem_of_app; auto.
      * rewrite NoDup_omap_snoc. split; [done|]. intros y Hy. by apply Ho.
      * intros y. rewrite omap_snoc. intros [?|Hy]%elem_of_app; [auto|].
        destruct (PlanOperation.created_node op) as [m|]; [|by apply elem_of_nil in Hy].
        apply list_elem_of_singleton in Hy as ->. destruct (Ho m eq_refl) as (? & ? & _). done.
    + intros [-> [A1 A2 A3 A4 A5]]. rewrite fmap_snoc, NoDup_snoc in A1. rewrite NoDup_omap_snoc in A4.
      assert (identities_ok baseline ops) as Hok.
      { split; [apply A1|intros; apply A2; set_solver|intros; apply A3; set_solver|apply A4|].
        intros y Hy. apply A5. rewrite omap_snoc, elem_of_app. auto. }
      destruct (Heq (proj2 Hiff (conj eq_refl Hok))) as [-> ->].
      split_and!; [done|done|apply A2; set_solver|apply A1|apply A3; set_solver|].
      intros y Hy. destruct (A5 y) as [? ?]; [|split_and!; [done..|by apply A4]].
      rewrite omap_snoc, Hy, elem_of_app. right. by left.
  - intros Hd. destruct (Hs2 Hd) as [-> ->]. apply Hs1 in Hd as [Hd _]. destruct (Heq Hd) as [-> ->].
    by rewrite fmap_snoc, omap_snoc.
Qed.

Lemma validate_draft_iff baseline draft : validate_draft baseline draft = Ok tt ↔ draft_wf baseline draft.
Proof.
  unfold validate_draft.
  pose proof (check_identities_ok baseline (if is_nil baseline.(HistoricalBaseline.id)
    then [operation_issue None "draft.baseline_identity" "baseline identity must not be nil"] else [])
    draft.(PlanDraft.operations)) as Hf.
  destruct (foldl _ _ _) as [[diags ids] outs]. destruct Hf as [Hiff Heq].
  transitivity (diags = [] ∧ (draft.(PlanDraft.operations) ≫= check_inputs baseline outs) = []).
  { rewrite <-app_nil. by destruct (diags ++ _). }
  rewrite Hiff. split.
  - intros [[Hb Hok] Hin]. destruct (is_nil (HistoricalBaseline.id baseline)) eqn:Hnil; [done|].
    destruct (Heq (proj2 Hiff (conj eq_refl Hok))) as [_ ->]. destruct Hok. split; try done.
    intros op node Hop Hnode. destruct (baseline_node baseline node) eqn:Hbn; [eauto|]. right.
    apply dec_stable. intros Hno.
    assert (operation_issue (Some op.(PlanOperation.id)) "draft.unresolved_input"
      "request input is absent from the baseline and draft outputs" ∈
      draft.(PlanDraft.operations) ≫= check_inputs baseline (outputs draft)) as Hx.
    { apply list_elem_of_bind. exists op. split; [|done]. unfold check_inputs.
      apply list_elem_of_fmap. exists node. by rewrite list_elem_of_filter. }
    unfold outputs in Hx. rewrite Hin in Hx. by apply elem_of_nil in Hx.
  - intros [Hb A1 A2 A3 A4 A5 A6]. rewrite Hb in *.
    assert (identities_ok baseline draft.(PlanDraft.operations)) as Hok by by split.
    split; [done|]. destruct (Heq (proj2 Hiff (conj eq_refl Hok))) as [_ ->].
    apply elem_of_nil_inv. intros d (op & Hd & Hop)%list_elem_of_bind.
    apply list_elem_of_fmap in Hd as (node & _ & [[Hn Ho] Hin]%list_elem_of_filter).
    destruct (A6 op node Hop Hin) as [[? ?]|?]; [congruence|done].
Qed.

(** ** Lowered fragments *)

(** One action, or two with an edge between them, which are the recipe of the
    request; a declared requirement is in the contract of the first. *)
Record lowered op (f : PlanFragment) : Prop := {
  lo_recipe : recipe_covered op (FragmentAction.operation <$> f.(PlanFragment.actions)) = true;
  lo_shape : (local_ids f = [0%N] ∧ f.(PlanFragment.dependencies) = []) ∨
    (local_ids f = [0%N; 1%N] ∧
     f.(PlanFragment.dependencies) = [FragmentDependency.mk 0 1 DependencyReason.RequestedOrder]);
  lo_requirements r : r ∈ f.(PlanFragment.external_requirements) →
    ∃ a, a ∈ f.(PlanFragment.actions) ∧ a.(FragmentAction.id) = r.(ExternalRequirement.action) ∧
      ∀ g, r.(ExternalRequirement.prerequisite) ∈
           (describe_action a.(FragmentAction.operation) g).(ActionContract.prerequisites);
  lo_quiet : f.(PlanFragment.diagnostics) = [] }.

Lemma describe_action_prerequisites action graph :
  (describe_action action graph).(ActionContract.prerequisites) =
  (describe_technology action graph).(ActionContract.prerequisites).
Proof.
  assert (∀ l c, (foldl (λ c node,
    let access := ResourceAccess.mk (ActionResource.Node node) ResourceAccessMode.Write in
    if contains access c.(ActionContract.affected_resources) then c else c ▷ push_resources [access])
    c l).(ActionContract.prerequisites) = c.(ActionContract.prerequisites)) as Hout.
  { intros l. induction l as [|n l IH]; intros c; [done|]. simpl. rewrite IH.
    by destruct (contains _ _), c. }
  unfold describe_action. cbn zeta. unfold add_output_resources. rewrite Hout.
  by destruct (_ && _), (describe_technology action graph).
Qed.

Lemma lower_recipe_shape op index ops rs origin :
  lower_recipe op index = Ok (ops, rs, origin) →
  (length ops = 1 ∨ length ops = 2) ∧
  (∀ r, r ∈ rs → r.(ExternalRequirement.action) = 0%N ∧ ∃ o rest, ops = o :: rest ∧
     ∀ g, r.(ExternalRequirement.prerequisite) ∈ (describe_action o g).(ActionContract.prerequisites)) ∧
  (∀ i, origin = FragmentOrigin.Intent i → index = Some i).
Proof.
  unfold lower_recipe, output_node_of. destruct op as [id request created].
  cbn [PlanOperation.request PlanOperation.created_node].
  destruct created as [node|], index as [i|], request; cbn [ok_or]; intros Hl; simplify_eq/=;
    repeat (case_match; simplify_eq/=; try discriminate);
    split_and!; try (by auto); try (by intros ? ?%elem_of_nil); try (by intros ? [= ->]);
    intros r ->%list_elem_of_singleton; (split; [done|]); do 2 eexists; (split; [done|]);
    intros g; rewrite describe_action_prerequisites; simpl; set_solver.
Qed.

Lemma lower_operation_ok op index f :
  lower_operation op index = Ok f →
  lowered op f ∧ ∀ i, f.(PlanFragment.origin) = FragmentOrigin.Intent i → index = Some i.
Proof.
  unfold lower_operation. destruct (negb _); [done|].
  destruct (lower_recipe op index) as [[[ops rs] origin]|] eqn:Hl; [|done]. intros <-%Ok_inj.
  pose proof (lower_recipe_shape _ _ _ _ _ Hl) as (Hlen & Hrs & Ho). split; [|done].
  assert (recipe_covered op ops = true) as Hcov by (apply recipe_covered_spec; eauto).
  split; cbn [PlanFragment.actions PlanFragment.dependencies PlanFragment.external_requirements
    PlanFragment.diagnostics]; [|..|done].
  - rewrite fmap_imap. unfold compose. cbn [FragmentAction.operation].
    replace (imap _ ops) with ops; [done|]. clear. 
    apply list_eq. intros i. rewrite list_lookup_imap. by destruct (ops !! i).
  - unfold local_ids. cbn [PlanFragment.actions]. clear -Hlen.
    destruct ops as [|o1 [|o2 [|]]]; simpl in *; auto; lia.
  - intros r (Hr & o & rest & -> & Hg)%Hrs. exists (FragmentAction.mk 0 o).
    split_and!; [left|by rewrite Hr|done].
Qed.

(** * Lowered drafts

    The loop of [build_preview] that lowers the requests, the ordering it asks
    the composer for, and why a composed plan follows the user's order. *)

Implicit Types (ops : list PlanOperation) (f : PlanFragment)
  (fragments : list PlanFragment).

(** ** The loop *)

Definition operation_intent op : option OperationIntent :=
  match op.(PlanOperation.request) with PlanRequest.Maintenance intent => Some intent | _ => None end.

(** Fragments of lowered operations: an intent has a fragment that covers it, a
    fragment with an intent as its origin names one of the draft. *)
Record lowered_all ops (intents : list OperationIntent) fragments : Prop := {
  la_lowered : Forall2 lowered ops fragments;
  la_intents : intents = omap operation_intent ops;
  la_origin f i : f ∈ fragments → f.(PlanFragment.origin) = FragmentOrigin.Intent i →
    i < length intents;
  la_covered i intent : intents !! i = Some intent →
    ∃ target force f, intent = OperationIntent.Check target force ∧ f ∈ fragments ∧
      f.(PlanFragment.origin) = FragmentOrigin.Intent i ∧
      FragmentAction.operation <$> f.(PlanFragment.actions) =
        [ProviderAction.Filesystem (FilesystemAction.Check target force)] }.

(** A lowered maintenance request is a check and originates from its intent. *)
Lemma lower_maintenance op intent index f :
  op.(PlanOperation.request) = PlanRequest.Maintenance intent →
  lower_operation op (Some index) = Ok f →
  ∃ target force, intent = OperationIntent.Check target force ∧
    f.(PlanFragment.origin) = FragmentOrigin.Intent index ∧
    FragmentAction.operation <$> f.(PlanFragment.actions) =
      [ProviderAction.Filesystem (FilesystemAction.Check target force)].
Proof.
  unfold lower_operation, lower_recipe. intros ->. destruct (negb _); [done|].
  destruct intent; try done. intros <-%Ok_inj. by eexists _, _.
Qed.

Lemma lower_steps_ok ops intents fragments :
  try_fold lower_step ([], []) ops = Ok (intents, fragments) → lowered_all ops intents fragments.
Proof.
  intros Hf. refine (try_fold_inv _ (λ pre r, lowered_all pre r.1 r.2) _ _ _ _ _ Hf).
  { split; [constructor|done|by intros ? ? ?%elem_of_nil|]. intros i intent. cbn [fst]. by rewrite lookup_nil. }
  intros pre op post [is1 fs1] [is2 fs2] _ [Hl Hi Ho Hc]. unfold lower_step. cbn [fst snd] in *.
  destruct (operation_intent op) as [intent|] eqn:Hint.
  - unfold operation_intent in Hint.
    destruct (PlanOperation.request op) eqn:Hreq; try done. injection Hint as ->. 
    destruct (lower_operation op (Some (length is1))) as [f|] eqn:Hop; [|done]. intros [= <- <-].
    destruct (lower_maintenance _ _ _ _ Hreq Hop) as (target & force & -> & Hor & Hact).
    apply lower_operation_ok in Hop as [Hlow _]. split.
    + apply Forall2_app; [done|]. by constructor; [|constructor].
    + rewrite omap_snoc, <-Hi. unfold operation_intent. by rewrite Hreq.
    + intros g i [Hg| ->%list_elem_of_singleton]%elem_of_app; rewrite length_app; simpl.
      * intros Hgi. specialize (Ho g i Hg Hgi). lia.
      * rewrite Hor. intros [= <-]. lia.
    + intros i intent [Hin|[-> ->]]%lookup_snoc_Some.
      * destruct (Hc i intent Hin) as (t & fo & g & -> & Hg & ? & ?). exists t, fo, g.
        split_and!; [done|apply elem_of_app; by left|done..].
      * exists target, force, f. split_and!; [done|apply elem_of_app; right; by left|done..].
  - replace (match op.(PlanOperation.request) with
             | PlanRequest.Maintenance intent => (Some (length is1), is1 ++ [intent])
             | _ => (None, is1) end) with (@None nat, is1)
      by (unfold operation_intent in Hint; by destruct (PlanOperation.request op)).
    destruct (lower_operation op None) as [f|] eqn:Hop; [|done]. intros [= <- <-].
    apply lower_operation_ok in Hop as [Hlow Hor]. split.
    + apply Forall2_app; [done|]. by constructor; [|constructor].
    + by rewrite omap_snoc, <-Hi, Hint, app_nil_r.
    + intros g i [Hg| ->%list_elem_of_singleton]%elem_of_app; [by apply Ho|]. by intros ?%Hor.
    + intros i intent Hin. destruct (Hc i intent Hin) as (t & fo & g & -> & Hg & ? & ?).
      exists t, fo, g. split_and!; [done|apply elem_of_app; by left|done..].
Qed.

(** ** The requested order *)

Lemma chain_fragment_spec (entries : list (nat * PlanFragment)) ordering sinks :
  (∀ e, e ∈ entries → e.2.(PlanFragment.actions) ≠ []) →
  foldl chain_fragment ([], []) entries = (ordering, sinks) →
  sinks = match last entries with Some (i, f) => fragment_sinks i f | None => [] end ∧
  ∀ o, o ∈ ordering ↔ ∃ k i f j g b a,
    entries !! k = Some (i, f) ∧ entries !! S k = Some (j, g) ∧
    b ∈ fragment_sinks i f ∧ a ∈ fragment_roots j g ∧
    o = FragmentOrdering.mk b a DependencyReason.RequestedOrder.
Proof.
  revert ordering sinks.
  induction entries as [|[j g] entries IH] using rev_ind; intros ordering sinks Hne.
  { intros [= <- <-]. split; [done|]. intros o. split; [by intros ?%elem_of_nil|].
    intros (k & ? & ? & ? & ? & ? & ? & Hk & _). by rewrite lookup_nil in Hk. }
  rewrite foldl_app. cbn [foldl]. destruct (foldl _ _ entries) as [ord snk] eqn:Hf.
  destruct (IH ord snk) as [Hs Ho]; [intros e He; apply Hne; apply elem_of_app; by left|done|].
  unfold chain_fragment. destruct (PlanFragment.actions g) as [|a0 as0] eqn:Hg.
  { exfalso. apply (Hne (j, g)); [apply elem_of_app; right; by left|done]. }
  intros [= <- <-]. split; [by rewrite last_snoc|]. intros o. rewrite elem_of_app, Ho. split.
  - intros [(k & i & f & j' & g' & b & a & Hk & HSk & ?)|Hin].
    + exists k, i, f, j', g', b, a. by rewrite !lookup_app_l by eauto using lookup_lt_Some.
    + apply list_elem_of_bind in Hin as (b & Hin & Hb).
      apply list_elem_of_fmap in Hin as (a & -> & Ha). subst snk.
      destruct (last entries) as [[i f]|] eqn:Hlast; [|by apply elem_of_nil in Hb].
      exists (pred (length entries)), i, f, j, g, b, a.
      rewrite last_lookup in Hlast. pose proof (lookup_lt_Some _ _ _ Hlast) as Hlt.
      rewrite lookup_app_l by done. split_and!; [done| |done..].
      rewrite lookup_app_r by lia. by replace (S (pred (length entries)) - length entries) with 0 by lia.
  - intros (k & i & f & j' & g' & b & a & Hk & HSk & Hb & Ha & ->).
    apply lookup_snoc_Some in HSk as [HSk|[HSk [= -> ->]]].
    + left. exists k, i, f, j', g', b, a. rewrite lookup_app_l in Hk; [done|].
      apply lookup_lt_Some in HSk. lia.
    + right. rewrite lookup_app_l in Hk by lia. apply list_elem_of_bind. exists b. split.
      * by apply list_elem_of_fmap_2 with (f := λ after,
          FragmentOrdering.mk b after DependencyReason.RequestedOrder).
      * subst snk. rewrite last_lookup, <-HSk. cbn [pred]. by rewrite Hk.
Qed.

(** ** Lowered fragments resolve *)

Lemma as_u32_small i : (N.of_nat i <= u32_MAX)%N → as_u32 i = i.
Proof. intros Hi. unfold as_u32. rewrite N.mod_small by lia. lia. Qed.

Lemma elem_of_fragment_roots i f r :
  r ∈ fragment_roots i f ↔ r.(FragmentActionRef.fragment) = as_u32 i ∧
    r.(FragmentActionRef.action) ∈ local_ids f ∧
    ∀ d, d ∈ f.(PlanFragment.dependencies) → d.(FragmentDependency.after) ≠ r.(FragmentActionRef.action).
Proof.
  unfold fragment_roots, local_ids. rewrite !list_elem_of_fmap. setoid_rewrite list_elem_of_filter.
  setoid_rewrite existsb_false. setoid_rewrite bool_decide_eq_false. split.
  - intros (a & -> & Hd & Ha). simpl. eauto.
  - intros (Hf & (a & Ha & Hin) & Hd). exists a. destruct r. simpl in *. by subst.
Qed.
Lemma elem_of_fragment_sinks i f r :
  r ∈ fragment_sinks i f ↔ r.(FragmentActionRef.fragment) = as_u32 i ∧
    r.(FragmentActionRef.action) ∈ local_ids f ∧
    ∀ d, d ∈ f.(PlanFragment.dependencies) → d.(FragmentDependency.before) ≠ r.(FragmentActionRef.action).
Proof.
  unfold fragment_sinks, local_ids. rewrite !list_elem_of_fmap. setoid_rewrite list_elem_of_filter.
  setoid_rewrite existsb_false. setoid_rewrite bool_decide_eq_false. split.
  - intros (a & -> & Hd & Ha). simpl. eauto.
  - intros (Hf & (a & Ha & Hin) & Hd). exists a. destruct r. simpl in *. by subst.
Qed.

(** What the order and the references need of a lowered fragment. *)
Lemma lowered_unique op f : lowered op f → NoDup (local_ids f).
Proof. intros [_ [[-> _]|[-> _]] _ _]; repeat constructor; set_solver. Qed.
Lemma lowered_not_empty op f : lowered op f → f.(PlanFragment.actions) ≠ [].
Proof. intros [_ Hs _ _] Hnil. unfold local_ids in Hs. rewrite Hnil in Hs. naive_solver. Qed.
Lemma lowered_edges op f d :
  lowered op f → d ∈ f.(PlanFragment.dependencies) →
  d.(FragmentDependency.before) ∈ local_ids f ∧ d.(FragmentDependency.after) ∈ local_ids f.
Proof.
  intros [_ [[-> ->]|[-> ->]] _ _]; [by intros ?%elem_of_nil|]. intros ->%list_elem_of_singleton.
  simpl. set_solver.
Qed.

Section order.
Context (ops : list PlanOperation) (intents : list OperationIntent) (fragments : list PlanFragment)
  (ids : gmap (nat * LocalActionId) ActionId).
Hypothesis Hall : lowered_all ops intents fragments.
Hypothesis Hids : fragment_action_ids fragments = Ok ids.

Lemma all_lowered f : f ∈ fragments → ∃ op, op ∈ ops ∧ lowered op f.
Proof using Hall.
  intros [i Hf]%list_elem_of_lookup. destruct Hall as [Hl _ _ _].
  destruct (Forall2_lookup_r _ _ _ _ _ Hl Hf) as (op & Hop & ?). eauto using list_elem_of_lookup_2.
Qed.

Lemma elem_of_request_ordering o :
  o ∈ request_ordering fragments ↔ ∃ i f g b a, fragments !! i = Some f ∧ fragments !! S i = Some g ∧
    b ∈ fragment_sinks i f ∧ a ∈ fragment_roots (S i) g ∧
    o = FragmentOrdering.mk b a DependencyReason.RequestedOrder.
Proof using Hall.
  unfold request_ordering. destruct (foldl _ _ _) as [ordering sinks] eqn:Hf.
  destruct (chain_fragment_spec (enumerate fragments) ordering sinks) as [_ Ho]; [|done|].
  { intros [i f] Hin%elem_of_enumerate. destruct (all_lowered f) as (op & _ & ?);
      [by eapply list_elem_of_lookup_2|]. by eapply lowered_not_empty. }
  simpl. rewrite Ho. setoid_rewrite enumerate_lookup. simpl. split.
  - intros (k & i & f & j & g & b & a & [? ->] & [? ->] & ?). by exists k, f, g, b, a.
  - intros (i & f & g & b & a & ? & ? & ?). by exists i, i, f, (S i), g, b, a.
Qed.

Lemma lowered_resolve : fragments_resolve fragments (request_ordering fragments).
Proof using Hall Hids.
  split.
  - intros f (op & _ & Hf)%all_lowered. by eapply lowered_unique.
  - intros f d (op & _ & Hf)%all_lowered. by eapply lowered_edges.
  - intros f r (op & _ & Hf)%all_lowered. apply (lo_requirements _ _ Hf).
  - intros o r (i & f & g & b & a & Hf & Hg & Hb & Ha & ->)%elem_of_request_ordering Hr.
    apply elem_of_fragment_sinks in Hb as (Hbi & Hbl & _).
    apply elem_of_fragment_roots in Ha as (Hai & Hal & _).
    rewrite as_u32_small in Hbi by by eapply fragment_action_ids_bound.
    rewrite as_u32_small in Hai by by eapply fragment_action_ids_bound.
    apply elem_of_cons in Hr as [->|Hr]; [exists f; simpl; by split; [rewrite Hbi|]|].
    apply list_elem_of_singleton in Hr as ->. exists g. simpl. by split; [rewrite Hai|].
Qed.

(** ** A composed plan follows the user's order *)

Context (plan : ExecutionPlan) (flat : FlattenedFragments).
Hypothesis Hkeep : keeps fragments (request_ordering fragments) plan flat.

Local Abbreviation E := (edge (action_edges plan.(ExecutionPlan.dependencies))).

Lemma endpoint_id i l b :
  draft_endpoint flat.(FlattenedFragments.actions) (FragmentActionRef.mk i l) = Some b →
  ids !! (i, l) = Some b.
Proof using Hids Hkeep.
  destruct (flatten_fragments_inv _ _ (keep_flat _ _ _ _ Hkeep)) as (ids' & Hids' & Hnum & -> & _).
  rewrite Hids in Hids'. apply Ok_inj in Hids' as <-. unfold draft_endpoint.
  intros (d & [Hd Hin]%last_Some_elem_of%list_elem_of_filter & ->)%fmap_Some_1.
  apply list_elem_of_lookup in Hin as [k Hk]. rewrite list_lookup_imap in Hk.
  destruct (flat_entries fragments !! k) as [e|] eqn:He; [|done]. injection Hk as <-.
  unfold entry_draft in *. cbn [DraftAction.id DraftAction.fragment DraftAction.local_id] in *.
  apply (num_lookup _ _ Hnum). rewrite list_lookup_fmap, He. simpl. unfold entry_key.
  by injection Hd as -> ->.
Qed.

(** Inside a fragment every action is before a sink and after a root. *)
Lemma fragment_inside i f l a :
  fragments !! i = Some f → l ∈ local_ids f → ids !! (i, l) = Some a →
  (∃ s b, FragmentActionRef.mk i s ∈ fragment_sinks i f ∧ ids !! (i, s) = Some b ∧ rtc E a b) ∧
  (∃ r b, FragmentActionRef.mk i r ∈ fragment_roots i f ∧ ids !! (i, r) = Some b ∧ rtc E b a).
Proof using Hall Hids Hkeep.
  intros Hf Hl Ha. assert (as_u32 i = i) as Hi by (by eapply as_u32_small, fragment_action_ids_bound).
  destruct (all_lowered f) as (op & _ & Hlow); [by eapply list_elem_of_lookup_2|].
  destruct (flatten_fragments_inv _ _ (keep_flat _ _ _ _ Hkeep)) as (ids' & Hids' & _ & _ & Hloc).
  rewrite Hids in Hids'. apply Ok_inj in Hids' as <-.
  setoid_rewrite elem_of_fragment_sinks. setoid_rewrite elem_of_fragment_roots. simpl. rewrite Hi.
  destruct (lo_shape _ _ Hlow) as [[Hids0 Hd]|[Hids0 Hd]]; rewrite Hids0, Hd in *.
  - apply list_elem_of_singleton in Hl as ->. setoid_rewrite elem_of_nil.
    split; exists 0%N, a; split_and!; try done; by left.
  - destruct (Hloc (i, f) (FragmentDependency.mk 0 1 DependencyReason.RequestedOrder))
      as (b0 & b1 & H0 & H1 & He); [by apply elem_of_enumerate|simpl; rewrite Hd; left|].
    simpl in H0, H1. apply (keep_edges _ _ _ _ Hkeep) in He.
    setoid_rewrite list_elem_of_singleton. split.
    + exists 1%N, b1. split_and!; [done|right; left|by intros ? ->|done|].
      apply elem_of_cons in Hl as [->|Hl]; [assert (a = b0) as -> by congruence; by apply rtc_once|].
      apply list_elem_of_singleton in Hl as ->. by assert (a = b1) as -> by congruence.
    + exists 0%N, b0. split_and!; [done|left|by intros ? ->|done|].
      apply elem_of_cons in Hl as [->|Hl]; [by assert (a = b0) as -> by congruence|].
      apply list_elem_of_singleton in Hl as ->. assert (a = b1) as -> by congruence. by apply rtc_once.
Qed.

Lemma consecutive_before i f g l m a b :
  fragments !! i = Some f → fragments !! S i = Some g → l ∈ local_ids f → m ∈ local_ids g →
  ids !! (i, l) = Some a → ids !! (S i, m) = Some b → tc E a b.
Proof using Hall Hids Hkeep.
  intros Hf Hg Hl Hm Ha Hb.
  destruct (fragment_inside i f l a Hf Hl Ha) as [(s & x & Hs & Hx & Hax) _].
  destruct (fragment_inside (S i) g m b Hg Hm Hb) as [_ (r & y & Hr & Hy & Hyb)].
  destruct (keep_order _ _ _ _ Hkeep (FragmentOrdering.mk (FragmentActionRef.mk i s)
    (FragmentActionRef.mk (S i) r) DependencyReason.RequestedOrder)) as (x' & y' & Hx' & Hy' & He).
  { apply elem_of_request_ordering. by exists i, f, g, (FragmentActionRef.mk i s), (FragmentActionRef.mk (S i) r). }
  apply endpoint_id in Hx', Hy'. assert (x' = x) as -> by congruence.
  assert (y' = y) as -> by congruence.
  eapply tc_rtc_l; [done|]. eapply tc_rtc_r; [|done]. by apply tc_once.
Qed.

Lemma fragments_in_order i j f g l m a b :
  i < j → fragments !! i = Some f → fragments !! j = Some g → l ∈ local_ids f → m ∈ local_ids g →
  ids !! (i, l) = Some a → ids !! (j, m) = Some b → tc E a b.
Proof using Hall Hids Hkeep.
  intros Hij Hf. revert g m b. induction j as [|j IH]; [lia|]. intros g m b Hg Hl Hm Ha Hb.
  destruct (decide (i = j)) as [->|Hne]; [by eapply (consecutive_before j f g)|].
  destruct (lookup_lt_is_Some_2 fragments j) as [h Hh]; [apply lookup_lt_Some in Hg; lia|].
  destruct (all_lowered h) as (op & _ & Hlow); [by eapply list_elem_of_lookup_2|].
  assert (0%N ∈ local_ids h) as H0 by (destruct (lo_shape _ _ Hlow) as [[-> _]|[-> _]]; left).
  destruct (ids_resolve_local fragments ids Hids j h 0%N Hh H0) as [c Hc].
  etrans; [by eapply (IH ltac:(lia) h 0%N c)|by eapply (consecutive_before j h g)].
Qed.
End order.
