(* ===== verification/PreviewProps.v ===== *)
(** * What a preview promises

    A calculated preview is a composed plan whose actions are shared out among
    the requests, each request being implemented exactly by its own actions, in
    the user's order; a build never panics and never fails for an internal
    reason; and the status of a preview depends on the policy and the
    obligations only. *)

From stdpp Require Import relations.
From S2P Require Import Prelude Model Reach Graph GraphOrder GraphValid State Action Contract.
From S2P Require Import ContractProps Logical Evidence Prerequisites Effects Report PlanOrder.
From S2P Require Import Compose ComposeProps ComposeKeeps Simulate SimulateProps Wire Draft Build.
From S2P Require Import BuildProps.

Implicit Types (baseline : HistoricalBaseline) (draft : PlanDraft) (op : PlanOperation)
  (ops : list PlanOperation) (f : PlanFragment) (fragments : list PlanFragment)
  (preview : PlanPreview).

(** ** Who owns which action *)

Lemma numbering_seq keys ids xs :
  numbering keys ids → Forall2 (λ k x, ids !! k = Some x) keys xs → xs = seq 0 (length keys).
Proof.
  intros Hnum Hxs. apply list_eq. intros i. pose proof (Forall2_length _ _ _ Hxs) as Hlen.
  destruct (keys !! i) as [k|] eqn:Hk.
  - destruct (Forall2_lookup_l _ _ _ _ _ Hxs Hk) as (x & Hx & Hkx).
    rewrite Hx. apply (num_lookup _ _ Hnum) in Hk. rewrite Hk in Hkx. injection Hkx as <-.
    symmetry. apply lookup_seq. apply lookup_lt_Some in Hx. lia.
  - apply lookup_ge_None_1 in Hk. rewrite !lookup_ge_None_2; [done|by rewrite length_seq|lia].
Qed.

Lemma Forall2_bind_list {A B C D} (R : C → D → Prop) (f : A → list C) (g : B → list D) l k :
  Forall2 (λ x y, Forall2 R (f x) (g y)) l k → Forall2 R (l ≫= f) (k ≫= g).
Proof. induction 1; [constructor|]. cbn [mbind list_bind]. by apply Forall2_app. Qed.

(** The actions of an operation are the identities of its fragment. *)
Definition owns (ids : gmap (nat * LocalActionId) ActionId) (e : nat * (PlanOperation * PlanFragment))
    (m : OperationActions) : Prop :=
  m.(OperationActions.operation) = e.2.1.(PlanOperation.id) ∧
  m.(OperationActions.fragments) = [as_u32 e.1] ∧
  Forall2 (λ a x, ids !! (e.1, a.(FragmentAction.id)) = Some x) e.2.2.(PlanFragment.actions)
    m.(OperationActions.actions).

Lemma map_operations_ok fragments ids ops :
  fragment_action_ids fragments = Ok ids →
  ∃ source_map, try_map (map_operation ids) (enumerate (zip ops fragments)) = Ok source_map ∧
    Forall2 (owns ids) (enumerate (zip ops fragments)) source_map.
Proof.
  intros Hids.
  assert (∀ l, (∀ e, e ∈ l → fragments !! e.1 = Some e.2.2) →
    ∃ ms, try_map (map_operation ids) l = Ok ms ∧ Forall2 (owns ids) l ms) as Hl.
  { intros l. induction l as [|[i [op f]] l IH]; intros Hf; simpl.
    { exists []. by split; [|constructor]. }
    destruct (IH ltac:(intros; apply Hf; by right)) as (ms & -> & Hms).
    assert (fragments !! i = Some f) as Hi by (apply (Hf (i, (op, f))); by left).
    assert (∃ xs, try_map (λ action, ok_or (ids !! (i, action.(FragmentAction.id))) (@Panicked DraftBuildError))
      f.(PlanFragment.actions) = Ok xs ∧
      Forall2 (λ a x, ids !! (i, a.(FragmentAction.id)) = Some x) f.(PlanFragment.actions) xs)
      as (xs & -> & Hxs).
    { assert (∀ a, a ∈ f.(PlanFragment.actions) → is_Some (ids !! (i, a.(FragmentAction.id)))) as Ha.
      { intros a Ha. destruct (ids_resolve _ _ Hids i f a Hi Ha) as (x & -> & _). eauto. }
      clear -Ha. induction (PlanFragment.actions f) as [|a l IH].
      { exists []. by split; [|constructor]. }
      destruct IH as (xs & Hxs & Hall); [intros; apply Ha; by right|].
      destruct (Ha a ltac:(left)) as [x Hx]. exists (x :: xs). simpl. rewrite Hx, Hxs. simpl.
      by split; [|constructor]. }
    eexists. split; [done|]. by constructor. }
  apply Hl. intros [i [op f]] Hin%elem_of_enumerate. simpl in *.
  rewrite lookup_zip_with_Some in Hin. by destruct Hin as (? & ? & [= <- <-] & _ & ?).
Qed.

Section owners.
Context (ops : list PlanOperation) (intents : list OperationIntent) (fragments : list PlanFragment)
  (ids : gmap (nat * LocalActionId) ActionId) (source_map : list OperationActions).
Hypothesis Hall : lowered_all ops intents fragments.
Hypothesis Hids : fragment_action_ids fragments = Ok ids.
Hypothesis Hown : Forall2 (owns ids) (enumerate (zip ops fragments)) source_map.

Lemma owner_lookup i m :
  source_map !! i = Some m ↔ ∃ op f, ops !! i = Some op ∧ fragments !! i = Some f ∧
    lowered op f ∧ source_map !! i = Some m ∧ owns ids (i, (op, f)) m.
Proof using Hall Hown.
  split; [|by intros (? & ? & ? & ? & ? & ? & ?)]. intros Hm.
  destruct (Forall2_lookup_r _ _ _ _ _ Hown Hm) as ([j [op f]] & He & Ho).
  apply enumerate_lookup in He as [He Hj]. cbn [fst snd] in *. subst j.
  apply lookup_zip_with_Some in He as (op' & f' & [= <- <-] & Hop & Hf). exists op, f.
  split_and!; try done. exact (Forall2_lookup_lr _ _ _ _ _ _ (la_lowered _ _ _ Hall) Hop Hf).
Qed.

Lemma owner_length : length source_map = length ops.
Proof using Hall Hown.
  rewrite <-(Forall2_length _ _ _ Hown). unfold enumerate. rewrite length_imap, length_zip_with.
  rewrite (Forall2_length _ _ _ (la_lowered _ _ _ Hall)). lia.
Qed.

Lemma owned_partition :
  source_map ≫= OperationActions.actions = seq 0 (length (flat_entries fragments)).
Proof using Hall Hids Hown.
  replace (length (flat_entries fragments)) with (length (entry_key <$> flat_entries fragments))
    by apply length_fmap.
  apply (numbering_seq _ ids); [by apply ids_numbering|].
  unfold flat_entries. rewrite <-all_keys_entries. apply Forall2_bind_list.
  apply Forall2_same_length_lookup. split.
  { unfold enumerate. rewrite length_imap, owner_length.
    symmetry. apply (Forall2_length _ _ _ (la_lowered _ _ _ Hall)). }
  intros i [j f] m [Hf Hj]%enumerate_lookup Hm. cbn [fst snd] in *. subst j.
  apply owner_lookup in Hm as (op & f' & _ & Hf' & _ & _ & (_ & _ & Ha)). cbn [fst snd] in Ha.
  assert (f' = f) as -> by congruence. unfold entry_keys. cbn [fst snd]. by apply Forall2_fmap_l.
Qed.
End owners.

(** ** Coverage *)

(** The actions of the plan that an operation owns. *)
Definition owned_actions (plan : ExecutionPlan) (m : OperationActions) (actions : list PlannedAction)
    : Prop :=
  Forall2 (λ x a, plan.(ExecutionPlan.actions) !! x = Some a) m.(OperationActions.actions) actions.

Lemma owned_operations ordering ids fragments plan flat i op f m :
  keeps fragments ordering plan flat → fragment_action_ids fragments = Ok ids →
  fragments !! i = Some f → owns ids (i, (op, f)) m →
  ∃ actions, owned_actions plan m actions ∧
    PlannedAction.operation <$> actions = FragmentAction.operation <$> f.(PlanFragment.actions) ∧
    ∀ a, a ∈ actions → a.(PlannedAction.origin) = f.(PlanFragment.origin).
Proof.
  intros Hkeep Hids Hf (_ & _ & Hm). cbn [fst snd] in Hm. unfold owned_actions.
  destruct (flatten_fragments_inv _ _ (keep_flat _ _ _ _ Hkeep)) as (ids' & Hids' & Hnum & Hflat & _).
  rewrite Hids in Hids'. apply Ok_inj in Hids' as <-.
  assert (∀ a x, a ∈ f.(PlanFragment.actions) → ids !! (i, a.(FragmentAction.id)) = Some x →
    ∃ p, plan.(ExecutionPlan.actions) !! x = Some p ∧
      p.(PlannedAction.operation) = a.(FragmentAction.operation) ∧
      p.(PlannedAction.origin) = f.(PlanFragment.origin)) as Hp.
  { intros a x Ha Hx. destruct (ids_resolve _ _ Hids i f a Hf Ha) as (y & Hy & Hin).
    assert (y = x) as -> by congruence. rewrite <-Hflat, <-(keep_actions _ _ _ _ Hkeep) in Hin.
    apply list_elem_of_fmap in Hin as (p & Hd & Hp).
    apply list_elem_of_lookup in Hp as [k Hk]. assert (k = x) as ->.
    { pose proof (flat_positional _ (returns_inv _ _ _ (flatten_fragments_ok fragments)
        (keep_flat _ _ _ _ Hkeep))) as Hpos.
      specialize (Hpos k (draft_of p)). rewrite <-(keep_actions _ _ _ _ Hkeep), list_lookup_fmap, Hk in Hpos.
      specialize (Hpos eq_refl). rewrite <-Hd in Hpos. by simpl in Hpos. }
    exists p. unfold entry_draft, draft_of in Hd. by injection Hd as _ <- _ _ <-. }
  clear -Hm Hp. induction Hm as [|a x l xs Hx Hxs IH].
  { exists []. split_and!; [constructor|done|by intros ? ?%elem_of_nil]. }
  destruct IH as (actions & Hall & Hops & Hor); [intros; eapply Hp; [by right|done]|].
  destruct (Hp a x ltac:(left) Hx) as (p & Hpx & Hop & Ho). exists (p :: actions).
  split_and!; [by constructor|by csimpl; rewrite Hop, Hops|].
  intros b [->|Hb]%elem_of_cons; auto.
Qed.

Lemma index_owned {E} plan m actions :
  owned_actions plan m actions →
  try_map (index (E:=E) plan.(ExecutionPlan.actions)) m.(OperationActions.actions) = Ok actions.
Proof.
  intros Ho. apply try_map_Forall2. eapply Forall2_impl; [exact Ho|]. intros x a Hx. unfold index.
  by rewrite Hx.
Qed.

Definition covered_by op : RequestCoverage := RequestCoverage.mk op.(PlanOperation.id) true [].

Lemma coverage_complete ops intents fragments ids source_map ordering plan flat :
  lowered_all ops intents fragments → fragment_action_ids fragments = Ok ids →
  Forall2 (owns ids) (enumerate (zip ops fragments)) source_map →
  keeps fragments ordering plan flat →
  try_map (operation_coverage plan) (zip ops source_map) = Ok (covered_by <$> ops).
Proof.
  intros Hall Hids Hown Hkeep. apply try_map_Forall2, Forall2_same_length_lookup. split.
  { rewrite length_fmap, length_zip_with, (owner_length _ _ _ _ _ Hall Hown). lia. }
  intros i [op m] c Hi Hc. apply lookup_zip_with_Some in Hi as (op' & m' & [= <- <-] & Hop & Hm).
  rewrite list_lookup_fmap, Hop in Hc. injection Hc as <-.
  apply (owner_lookup _ _ _ _ _ Hall Hown) in Hm as (op' & f & Hop' & Hf & Hlow & _ & Ho).
  assert (op' = op) as -> by congruence.
  destruct (owned_operations _ _ _ _ _ _ _ _ _ Hkeep Hids Hf Ho) as (actions & Ha & Hops & _).
  unfold operation_coverage. rewrite (index_owned _ _ _ Ha). simpl. rewrite Hops.
  unfold request_coverage. by rewrite (lo_recipe _ _ Hlow).
Qed.

Lemma lowered_quiet ops intents fragments :
  lowered_all ops intents fragments →
  (zip ops fragments ≫= λ '(op, f), lowering_diagnostics op f) = [].
Proof.
  intros [Hl _ _ _]. induction Hl as [|op f ops' fs Hlow _ IH]; [done|].
  cbn [zip zip_with mbind list_bind]. unfold lowering_diagnostics at 1. rewrite (lo_quiet _ _ Hlow).
  exact IH.
Qed.

(** ** The analysis of a composed plan *)

(** Only the policy can make it fail. *)
Lemma analyse_composed json current capacity protected intents plan :
  composed current capacity plan →
  (∀ a i, a ∈ plan.(ExecutionPlan.actions) → a.(PlannedAction.origin) = FragmentOrigin.Intent i →
     i < length intents) →
  validate_protected_scope protected = Ok tt →
  ∃ analysis order ordered, analyse_plan json current plan intents capacity protected = Ok analysis ∧
    in_plan_order plan order ordered ∧
    analysis.(SimulationReport.goal_checks) = [] ∧
    analysis.(SimulationReport.intent_coverage) = intent_coverage_of ordered <$> enumerate intents.
Proof.
  intros Hc Ho Hs. unfold analyse_plan. rewrite Hs. cbn [report map_err].
  rewrite (proj2 (try_all_ok _ _)).
  2:{ intros a Ha. destruct (PlannedAction.origin a) as [| |i] eqn:Hor; try done.
      specialize (Ho a i Ha Hor). by rewrite (proj2 (Nat.leb_gt _ _) Ho). }
  cbn [report map_err]. unfold simulate_plan_with_evidence.
  destruct (composed_replays _ _ _ Hc) as ([desired evidence steps] & Hr & _). rewrite Hr.
  destruct (ordered_actions_ok (E:=PlanSimulationError) plan (wf_structured _ (comp_wf _ _ _ Hc)))
    as (order & ordered & Hord & Hin). unfold check_protected_scope. rewrite Hord. cbn [mbind].
  do 3 eexists. split; [reflexivity|]. done.
Qed.

(** The analysis does not depend on how contracts are serialized. *)
Lemma analyse_composed_json json json' current capacity protected intents plan :
  composed current capacity plan →
  analyse_plan json current plan intents capacity protected =
  analyse_plan json' current plan intents capacity protected.
Proof.
  intros Hc. destruct (composed_replays _ _ _ Hc) as (result & Hr & _).
  unfold analyse_plan, simulate_plan_with_evidence. by rewrite !Hr.
Qed.

(** Every intent of a lowered draft is covered. *)
Lemma intents_covered ops intents fragments ids source_map ordering plan flat order ordered :
  lowered_all ops intents fragments → fragment_action_ids fragments = Ok ids →
  Forall2 (owns ids) (enumerate (zip ops fragments)) source_map →
  keeps fragments ordering plan flat → in_plan_order plan order ordered →
  forallb IntentCoverage.covered (intent_coverage_of ordered <$> enumerate intents) = true.
Proof.
  intros Hall Hids Hown Hkeep Hin. apply forallb_elem. intros c (e & -> & He)%list_elem_of_fmap.
  destruct e as [i intent]. apply elem_of_enumerate in He. cbn [fst snd] in He.
  destruct (la_covered _ _ _ Hall i intent He) as (target & force & f & -> & Hf & Hor & Hops).
  apply list_elem_of_lookup in Hf as [k Hk].
  destruct (lookup_lt_is_Some_2 source_map k) as [m Hm].
  { rewrite (owner_length _ _ _ _ _ Hall Hown), (Forall2_length _ _ _ (la_lowered _ _ _ Hall)).
    by eapply lookup_lt_Some. }
  apply (owner_lookup _ _ _ _ _ Hall Hown) in Hm as (op & f' & _ & Hf' & _ & _ & Ho).
  assert (f' = f) as -> by congruence.
  destruct (owned_operations _ _ _ _ _ _ _ _ _ Hkeep Hids Hk Ho) as (actions & Ha & Hpo & Hao).
  rewrite Hops in Hpo. destruct actions as [|a [|]]; try done. csimpl in Hpo. injection Hpo as Hpo.
  cbn [intent_coverage_of IntentCoverage.covered actions_cover_intent].
  apply existsb_elem. exists (ProviderAction.Filesystem (FilesystemAction.Check target force)).
  split; [|by apply bool_decide_eq_true]. apply list_elem_of_fmap. exists a. split; [done|].
  apply list_elem_of_filter. split; [by rewrite <-Hor; apply Hao; left|].
  rewrite (in_plan_order_perm _ _ _ Hin). apply Forall2_cons_inv_r in Ha as (x & xs & Hx & _ & _).
  by eapply list_elem_of_lookup_2.
Qed.

(** ** Provenance *)

(** Actions are told apart by fragment and local identity, and a fragment has
    one origin. *)
Definition provenance_ok (plan : ExecutionPlan) : Prop :=
  NoDup ((λ a, (a.(PlannedAction.fragment), a.(PlannedAction.local_id))) <$>
           plan.(ExecutionPlan.actions)) ∧
  ∀ a a', a ∈ plan.(ExecutionPlan.actions) → a' ∈ plan.(ExecutionPlan.actions) →
    a.(PlannedAction.fragment) = a'.(PlannedAction.fragment) →
    a.(PlannedAction.origin) = a'.(PlannedAction.origin).

Lemma keeps_entry fragments ordering plan flat i a :
  keeps fragments ordering plan flat → plan.(ExecutionPlan.actions) !! i = Some a →
  ∃ e, flat_entries fragments !! i = Some e ∧ draft_of a = entry_draft i e.
Proof.
  intros Hkeep Ha. destruct (flatten_fragments_inv _ _ (keep_flat _ _ _ _ Hkeep)) as (_ & _ & _ & Hflat & _).
  assert ((draft_of <$> plan.(ExecutionPlan.actions)) !! i = Some (draft_of a)) as Hd
    by (by rewrite list_lookup_fmap, Ha).
  rewrite (keep_actions _ _ _ _ Hkeep), Hflat, list_lookup_imap in Hd.
  destruct (flat_entries fragments !! i) as [e|]; [|done]. exists e. split; [done|]. cbn in Hd. congruence.
Qed.

Lemma flat_entry_fragment fragments fi f a :
  (fi, f, a) ∈ flat_entries fragments → fragments !! fi = Some f.
Proof.
  intros ([fi' f'] & He & Hf)%list_elem_of_bind. apply elem_of_enumerate in Hf.
  by apply list_elem_of_fmap in He as (? & [= <- <- <-] & _).
Qed.

Lemma keeps_provenance fragments ordering plan flat :
  keeps fragments ordering plan flat → provenance_ok plan.
Proof.
  intros Hkeep. split.
  - destruct (flatten_fragments_inv _ _ (keep_flat _ _ _ _ Hkeep)) as (ids & _ & Hnum & _ & _).
    apply NoDup_alt. intros i j k. rewrite !list_lookup_fmap.
    destruct (plan.(ExecutionPlan.actions) !! i) as [a|] eqn:Hi; [|done].
    destruct (plan.(ExecutionPlan.actions) !! j) as [a'|] eqn:Hj; [|done]. intros [= <-] [= Hf Hl].
    destruct (keeps_entry _ _ _ _ _ _ Hkeep Hi) as ([[fi f] e] & He & [= _ _ Hfi Hli _]).
    destruct (keeps_entry _ _ _ _ _ _ Hkeep Hj) as ([[fj g] e'] & He' & [= _ _ Hfj Hlj _]).
    cbn in *. assert (ids !! (fi, e.(FragmentAction.id)) = Some i) as H1.
    { apply (num_lookup _ _ Hnum). by rewrite list_lookup_fmap, He. }
    assert (ids !! (fi, e.(FragmentAction.id)) = Some j) as H2; [|congruence].
    apply (num_lookup _ _ Hnum). rewrite list_lookup_fmap, He'. unfold entry_key. simpl. congruence.
  - intros a a' [i Hi]%list_elem_of_lookup [j Hj]%list_elem_of_lookup Hf.
    destruct (keeps_entry _ _ _ _ _ _ Hkeep Hi) as ([[fi f] e] & He & [= _ _ Hfi _ Hoi]).
    destruct (keeps_entry _ _ _ _ _ _ Hkeep Hj) as ([[fj g] e'] & He' & [= _ _ Hfj _ Hoj]).
    apply list_elem_of_lookup_2, flat_entry_fragment in He, He'. cbn in *. congruence.
Qed.

(** ** Builds *)

Section build.
Context (json : Serializers) (baseline : HistoricalBaseline) (draft : PlanDraft).

Local Abbreviation snapshot := baseline.(HistoricalBaseline.snapshot).
Local Abbreviation capacity := baseline.(HistoricalBaseline.capacity_evidence).
Local Abbreviation intents_of := (omap operation_intent draft.(PlanDraft.operations)).

Record preview_sound preview : Prop := {
  ps_draft : draft_wf baseline draft;
  ps_composed : composed snapshot capacity preview.(PlanPreview.plan);
  ps_analysis : analyse_plan json snapshot preview.(PlanPreview.plan) intents_of capacity
    draft.(PlanDraft.protected_scope) = Ok preview.(PlanPreview.report);
  ps_owners : Forall2 (λ op m, m.(OperationActions.operation) = op.(PlanOperation.id) ∧
      ∃ actions, owned_actions preview.(PlanPreview.plan) m actions ∧
        recipe_covered op (PlannedAction.operation <$> actions) = true)
    draft.(PlanDraft.operations) preview.(PlanPreview.source_map);
  ps_partition : preview.(PlanPreview.source_map) ≫= OperationActions.actions =
    seq 0 (length preview.(PlanPreview.plan).(ExecutionPlan.actions));
  ps_order i j m m' a b : i < j →
    preview.(PlanPreview.source_map) !! i = Some m → preview.(PlanPreview.source_map) !! j = Some m' →
    a ∈ m.(OperationActions.actions) → b ∈ m'.(OperationActions.actions) →
    tc (edge (action_edges preview.(PlanPreview.plan).(ExecutionPlan.dependencies))) a b;
  ps_coverage : preview.(PlanPreview.request_coverage) = covered_by <$> draft.(PlanDraft.operations);
  ps_intents : forallb IntentCoverage.covered
    preview.(PlanPreview.report).(SimulationReport.intent_coverage) = true;
  ps_goal : preview.(PlanPreview.report).(SimulationReport.goal_checks) = [];
  ps_quiet : preview.(PlanPreview.diagnostics) = [];
  ps_provenance : provenance_ok preview.(PlanPreview.plan) }.

Lemma owned_keys ids i op f m x :
  owns ids (i, (op, f)) m → x ∈ m.(OperationActions.actions) →
  ∃ l, l ∈ local_ids f ∧ ids !! (i, l) = Some x.
Proof.
  intros (_ & _ & Hm) [k Hk]%list_elem_of_lookup. cbn [fst snd] in Hm.
  destruct (Forall2_lookup_r _ _ _ _ _ Hm Hk) as (a & Ha & Hx). exists a.(FragmentAction.id).
  split; [|done]. apply list_elem_of_fmap_2. by eapply list_elem_of_lookup_2.
Qed.

Lemma build_fragments_ok fragments intents ids source_map plan flat :
  draft_wf baseline draft → lowered_all draft.(PlanDraft.operations) intents fragments →
  fragment_action_ids fragments = Ok ids →
  Forall2 (owns ids) (enumerate (zip draft.(PlanDraft.operations) fragments)) source_map →
  keeps fragments (request_ordering fragments) plan flat → composed snapshot capacity plan →
  validate_protected_scope draft.(PlanDraft.protected_scope) = Ok tt →
  ∃ analysis, analyse_plan json snapshot plan intents capacity draft.(PlanDraft.protected_scope) =
      Ok analysis ∧
    preview_sound (PlanPreview.mk plan analysis source_map
      (covered_by <$> draft.(PlanDraft.operations)) []).
Proof.
  intros Hwf Hall Hids Hown Hkeep Hc Hs.
  assert (∀ a i, a ∈ plan.(ExecutionPlan.actions) → a.(PlannedAction.origin) = FragmentOrigin.Intent i →
     i < length intents) as Hor.
  { intros a i Ha Hai.
    apply list_elem_of_lookup in Ha as [k Hk].
    destruct (keeps_entry _ _ _ _ _ _ Hkeep Hk) as ([[fi f] e] & He & [= _ _ _ _ Hor]).
    apply list_elem_of_lookup_2, flat_entry_fragment in He. cbn in Hor.
    apply (la_origin _ _ _ Hall f); [by eapply list_elem_of_lookup_2|congruence]. }
  destruct (analyse_composed json _ _ _ intents plan Hc Hor Hs) as (an & order & ordered & Han & Hin & Hg & Hi).
  exists an. split; [done|]. rewrite (la_intents _ _ _ Hall) in Han.
  split; cbn [PlanPreview.plan PlanPreview.report PlanPreview.source_map PlanPreview.request_coverage
    PlanPreview.diagnostics]; try done.
  - apply Forall2_same_length_lookup. split; [by rewrite (owner_length _ _ _ _ _ Hall Hown)|].
    intros i op m Hop Hm.
    apply (owner_lookup _ _ _ _ _ Hall Hown) in Hm as (op' & f & Hop' & Hf & Hlow & _ & Ho).
    assert (op' = op) as -> by congruence. split; [apply Ho|].
    destruct (owned_operations _ _ _ _ _ _ _ _ _ Hkeep Hids Hf Ho) as (actions & Ha & Hops & _).
    exists actions. by rewrite Hops, (lo_recipe _ _ Hlow).
  - rewrite (owned_partition _ _ _ _ _ Hall Hids Hown). f_equal.
    destruct (flatten_fragments_inv _ _ (keep_flat _ _ _ _ Hkeep)) as (_ & _ & _ & Hflat & _).
    rewrite <-(length_fmap draft_of), (keep_actions _ _ _ _ Hkeep), Hflat. by rewrite length_imap.
  - intros i j m m' a b Hij Hm Hm' Ha Hb.
    apply (owner_lookup _ _ _ _ _ Hall Hown) in Hm as (op & f & _ & Hf & _ & _ & Ho).
    apply (owner_lookup _ _ _ _ _ Hall Hown) in Hm' as (op' & f' & _ & Hf' & _ & _ & Ho').
    destruct (owned_keys _ _ _ _ _ _ Ho Ha) as (l & Hl & Hla).
    destruct (owned_keys _ _ _ _ _ _ Ho' Hb) as (l' & Hl' & Hlb).
    by eapply (fragments_in_order _ _ _ _ Hall Hids _ _ Hkeep i j f f').
  - rewrite Hi. by eapply intents_covered.
  - by eapply keeps_provenance.
Qed.

(** A build returns a sound preview or a reported error that is not internal. *)
Definition external_build (e : DraftBuildError) : Prop := is_internal e = false.

Lemma build_preview_ok :
  returns preview_sound (build_preview json baseline draft) ∧
  raises external_build (build_preview json baseline draft).
Proof.
  unfold build_preview. destruct (validate_draft baseline draft) as [[]|e] eqn:Hv.
  2:{ split; [done|]. unfold validate_draft in Hv. destruct (foldl _ _ _) as [[? ?] ?].
      destruct (_ ++ _); [done|]. by injection Hv as <-. }
  apply validate_draft_iff in Hv. cbn [report map_err].
  destruct (try_fold lower_step _ _) as [[intents fragments]|e] eqn:Hl.
  2:{ split; [done|]. apply try_fold_err in Hl as (pre & op & post & [is1 fs1] & _ & _ & Hstep).
      unfold lower_step in Hstep. destruct (PlanOperation.request op), (lower_operation _ _);
        try done; by injection Hstep as <-. }
  apply lower_steps_ok in Hl as Hall. cbn [report map_err]. unfold build_fragments. cbn zeta.
  rewrite (lowered_quiet _ _ _ Hall).
  destruct (fragment_action_ids fragments) as [ids|e] eqn:Hids; cbn [report map_err].
  2:{ split; [done|]. apply fragment_action_ids_external in Hids; [done|].
      intros f Hf. destruct (all_lowered _ _ _ Hall f Hf) as (op & _ & ?). by eapply lowered_unique. }
  destruct (map_operations_ok fragments ids draft.(PlanDraft.operations) Hids) as (sm & -> & Hown).
  pose proof (compose_plan_ok snapshot fragments (request_ordering fragments) capacity) as Hok.
  pose proof (compose_plan_keeps snapshot fragments (request_ordering fragments) capacity) as Hk.
  pose proof (compose_plan_external snapshot fragments (request_ordering fragments) capacity
    (lowered_resolve _ _ _ _ Hall Hids)) as Hx.
  destruct (compose_plan_with_ordering _ _ _ _) as [plan|[e| |]]; [|done..].
  destruct Hk as [flat Hkeep]. cbn [map_failure map_err].
  destruct (validate_protected_scope draft.(PlanDraft.protected_scope)) as [[]|e] eqn:Hs.
  - destruct (build_fragments_ok fragments intents ids sm plan flat) as (an & Han & Hps); [done..|].
    rewrite Han. cbn [map_failure map_err].
    by rewrite (coverage_complete _ _ _ _ _ _ _ _ Hall Hids Hown Hkeep).
  - unfold analyse_plan. rewrite Hs. split; [done|].
    apply try_fold_err in Hs as (? & mount & ? & [] & _ & _ & Hm). cbn zeta in Hm.
    destruct (_ || _); [|done]. by injection Hm as <-.
Qed.
End build.

(** A preview does not depend on how contracts are serialized. *)
Lemma build_preview_json json json' baseline draft :
  build_preview json baseline draft = build_preview json' baseline draft.
Proof.
  unfold build_preview, build_fragments. cbn zeta.
  destruct (validate_draft _ _); [|done]. cbn [report map_err].
  destruct (try_fold _ _ _) as [[intents fragments]|]; [|done]. cbn [report map_err].
  destruct (fragment_action_ids _) as [ids|]; [|done]. cbn [report map_err].
  destruct (try_map _ _) as [sm|]; [|done].
  pose proof (compose_plan_ok baseline.(HistoricalBaseline.snapshot) fragments
    (request_ordering fragments) baseline.(HistoricalBaseline.capacity_evidence)) as Hok.
  destruct (compose_plan_with_ordering _ _ _ _) as [plan|]; [|done]. cbn [map_failure map_err].
  by rewrite (analyse_composed_json json json').
Qed.

(** The status of a sound preview. *)
Lemma sound_status json baseline draft preview :
  preview_sound json baseline draft preview →
  plan_status preview =
  if bool_decide (preview.(PlanPreview.report).(SimulationReport.protection_violations) = [])
  then if bool_decide (preview.(PlanPreview.report).(SimulationReport.unresolved_obligations) = [])
       then PreviewStatus.Complete else PreviewStatus.Conditional
  else PreviewStatus.Blocked.
Proof.
  intros [_ _ _ _ _ _ Hc Hi Hg Hq _]. unfold plan_status, is_complete. cbn zeta.
  rewrite Hc, Hg, Hq, Hi. cbn [existsb forallb]. rewrite !orb_false_r, !andb_true_r.
  replace (existsb _ (covered_by <$> _)) with false.
  2:{ symmetry. apply existsb_false. by intros c (op & -> & _)%list_elem_of_fmap. }
  replace (existsb _ (SimulationReport.intent_coverage _)) with false.
  2:{ symmetry. apply existsb_false. intros c Hin. rewrite forallb_elem in Hi. by rewrite Hi. }
  rewrite !orb_false_r. by do 2 case_bool_decide.
Qed.

(** ** Theorems *)

(** C4: Building a preview returns on every draft: it reports an error, which is never
    one of the kinds the program calls internal, or a preview whose plan is
    composed from the baseline, whose actions are shared out among the requests
    without overlap or gap, where each request is implemented exactly by its own
    actions, and whose report is the analysis of that plan. *)
Theorem build_preview_sound json baseline draft :
  match build_preview json baseline draft with
  | Ok preview => preview_sound json baseline draft preview
  | Err (Reported error) => is_internal error = false
  | Err Panicked | Err OutOfFuel => False
  end.
Proof.
  destruct (build_preview_ok json baseline draft) as [Hr He]. unfold returns in Hr.
  by destruct (build_preview json baseline draft) as [|[]].
Qed.

(** The plan of a preview follows the user: every action of an earlier request
    precedes, along the dependencies, every action of a later one. *)
Theorem preview_user_order json baseline draft preview i j m m' a b :
  build_preview json baseline draft = Ok preview → i < j →
  preview.(PlanPreview.source_map) !! i = Some m → preview.(PlanPreview.source_map) !! j = Some m' →
  a ∈ m.(OperationActions.actions) → b ∈ m'.(OperationActions.actions) →
  tc (edge (action_edges preview.(PlanPreview.plan).(ExecutionPlan.dependencies))) a b.
Proof.
  intros Hb. destruct (build_preview_ok json baseline draft) as [Hr _]. rewrite Hb in Hr. apply Hr.
Qed.

(** The status of a preview: blocked exactly when the plan touches the protected
    scope, otherwise complete exactly when no obligation is left open.  Uncovered
    requests and error diagnostics, which the code also checks, cannot occur. *)
Theorem preview_status_spec json baseline draft preview :
  build_preview json baseline draft = Ok preview →
  plan_status preview =
  if bool_decide (preview.(PlanPreview.report).(SimulationReport.protection_violations) = [])
  then if bool_decide (preview.(PlanPreview.report).(SimulationReport.unresolved_obligations) = [])
       then PreviewStatus.Complete else PreviewStatus.Conditional
  else PreviewStatus.Blocked.
Proof.
  intros Hb. destruct (build_preview_ok json baseline draft) as [Hr _]. rewrite Hb in Hr.
  by eapply sound_status.
Qed.
