(* ===== verification/Session.v ===== *)
(** * Editing sessions: [editing/session.rs]

    A [PlanSession] holds one draft against an immutable baseline, its preview,
    a publication revision and two bounded history stacks.  A method with
    [&mut self] takes the session and returns the one it leaves behind next to
    its [Result].  The identities that [Uuid::now_v7] allocates are arguments,
    and the serializers of [build_preview] a parameter. *)

From S2P Require Import Prelude Model Graph GraphValid State Action Contract Logical Evidence.
From S2P Require Import Prerequisites Effects Report PlanOrder Compose Simulate Wire Draft Build.

(** [DEFAULT_HISTORY_LIMIT] and [MAX_DRAFT_OPERATIONS] *)
Definition DEFAULT_HISTORY_LIMIT : nat := 64.
Definition MAX_DRAFT_OPERATIONS : nat := 256.

Module PlanEdit.
Inductive PlanEdit :=
| Add (request : PlanRequest)
| Replace (operation : OperationId) (request : PlanRequest)
| Remove (operations : list OperationId)
| MoveBefore (operation : OperationId) (before : option OperationId)
| SetProtection (protected : ProtectedScope)
| Clear.
#[global] Instance PlanEdit_eq_dec : EqDecision PlanEdit.
Proof. solve_decision. Defined.
End PlanEdit.
Abbreviation PlanEdit := PlanEdit.PlanEdit.

Module EditReceipt.
Record EditReceipt := mk {
  revision : DraftRevision;
  added_operation : option OperationId;
  created_node : option NodeId }.
#[global] Instance EditReceipt_eq_dec : EqDecision EditReceipt.
Proof. solve_decision. Defined.
End EditReceipt.
Abbreviation EditReceipt := EditReceipt.EditReceipt.

Module EditError.
Inductive EditError :=
| RevisionConflict (expected actual : DraftRevision)
| UnknownOperation (id : OperationId)
| RequestKindChange (id : OperationId)
| NotCreatedLv (id : OperationId)
| NotCreatedPartition (id : OperationId)
| NotResize (id : OperationId)
| DependentOperations (operations : list OperationId)
| NoUndo
| NoRedo
| RevisionExhausted
| OperationLimit
| InternalBuild (error : DraftBuildError).
#[global] Instance EditError_eq_dec : EqDecision EditError.
Proof. solve_decision. Defined.
End EditError.
Abbreviation EditError := EditError.EditError.

Module PlanSession.
Record PlanSession := mk {
  id : Uuid;
  revision : DraftRevision;
  baseline : HistoricalBaseline;
  draft : PlanDraft;
  preview : PreviewState;
  history_limit : nat;
  undo : list PlanDraft;
  redo : list PlanDraft }.
#[global] Instance PlanSession_eq_dec : EqDecision PlanSession.
Proof. solve_decision. Defined.
End PlanSession.
Abbreviation PlanSession := PlanSession.PlanSession.

Abbreviation editing A := (result A (Failure EditError)) (only parsing).
Implicit Types (session : PlanSession) (operation : OperationId) (expected : DraftRevision)
  (history : list PlanDraft).

(** ** Helpers *)

(** [Vec::remove] and [Vec::insert] panic out of range. *)
Definition vec_remove {A E} (i : nat) (l : list A) : result (A * list A) (Failure E) :=
  match l !! i with Some x => Ok (x, delete i l) | None => Err Panicked end.
Definition vec_insert {A E} (i : nat) (x : A) (l : list A) : result (list A) (Failure E) :=
  if (i <=? length l)%nat then Ok (take i l ++ x :: drop i l) else Err Panicked.

Definition push_history history (d : PlanDraft) (limit : nat) : list PlanDraft :=
  if (limit =? 0)%nat then history
  else (if (limit <=? length history)%nat then drop 1 history else history) ++ [d].

(** [iter().position(..)] *)
Definition operation_index (d : PlanDraft) operation : editing nat :=
  match list_find (λ o, o.(PlanOperation.id) = operation) d.(PlanDraft.operations) with
  | Some (i, _) => Ok i
  | None => Err (Reported (EditError.UnknownOperation operation))
  end.

(** [std::mem::discriminant] *)
Definition intent_discriminant (intent : OperationIntent) : nat :=
  match intent with
  | OperationIntent.Reformat _ _ => 0 | OperationIntent.Check _ _ => 1
  | OperationIntent.Repair _ _ => 2 | OperationIntent.SetActivation _ _ => 3
  | OperationIntent.ReplaceMember _ _ _ => 4 | OperationIntent.ConvertBtrfsProfiles _ _ => 5
  end.
Definition request_discriminant (r : PlanRequest) : nat :=
  match r with
  | PlanRequest.CreatePartition _ _ _ _ _ _ => 0 | PlanRequest.FormatLuks _ _ _ => 1
  | PlanRequest.OpenLuks _ _ _ _ => 2 | PlanRequest.CreateLv _ _ _ _ _ => 3
  | PlanRequest.ResizeLv _ _ => 4 | PlanRequest.ResizeFilesystem _ _ => 5
  | PlanRequest.DeletePartition _ => 6 | PlanRequest.RemoveLv _ => 7
  | PlanRequest.CloseLuks _ => 8 | PlanRequest.CreateFilesystem _ _ _ => 9
  | PlanRequest.Mount _ => 10 | PlanRequest.PersistMount _ => 11
  | PlanRequest.Unmount _ _ => 12 | PlanRequest.RemovePersistentMount _ _ => 13
  | PlanRequest.SetFilesystemLabel _ _ => 14 | PlanRequest.Maintenance _ => 15
  end.

Definition same_kind (previous next : PlanRequest) : bool :=
  (request_discriminant previous =? request_discriminant next)%nat &&
  match previous, next with
  | PlanRequest.Maintenance i, PlanRequest.Maintenance j =>
      (intent_discriminant i =? intent_discriminant j)%nat
  | _, _ => true
  end.

(** *** Removal *)

(** The [outputs] of one round: what the affected operations create. *)
Definition affected_outputs (d : PlanDraft) (affected : list OperationId) : list NodeId :=
  omap PlanOperation.created_node
    (filter (λ o, o.(PlanOperation.id) ∈ affected) d.(PlanDraft.operations)).

(** The inner [for], over [(changed, affected)]. *)
Definition affect_dependents (outputs : list NodeId) (acc : bool * list OperationId)
    (o : PlanOperation) : bool * list OperationId :=
  let '(changed, affected) := acc in
  if existsb (λ node, contains node outputs) (request_nodes o.(PlanOperation.request))
  then let '(new, affected) := set_insert o.(PlanOperation.id) affected in (changed || new, affected)
  else acc.

(** The [loop]: every round but the last adds an operation of the draft. *)
Fixpoint affected_loop (fuel : nat) (d : PlanDraft) (affected : list OperationId)
    : editing (list OperationId) :=
  match fuel with
  | 0 => Err OutOfFuel
  | S fuel =>
      let '(changed, affected) :=
        foldl (affect_dependents (affected_outputs d affected)) (false, affected)
          d.(PlanDraft.operations) in
      if changed : bool then affected_loop fuel d affected else Ok affected
  end.

(** The [HashSet] of the selected identities. *)
Definition selected_set (operations : list OperationId) : list OperationId :=
  foldl (λ s o, push_new o s) [] operations.

Definition removal_impact (d : PlanDraft) (operations : list OperationId)
    : editing (list OperationId) :=
  let? _ := try_all (λ o, let? _ := operation_index d o in Ok tt) operations in
  let? affected := affected_loop (S (length d.(PlanDraft.operations))) d (selected_set operations) in
  Ok (PlanOperation.id <$>
      filter (λ o, o.(PlanOperation.id) ∈ affected) d.(PlanDraft.operations)).

Definition remove_operations (d : PlanDraft) (operations : list OperationId) : editing PlanDraft :=
  let? affected := removal_impact d operations in
  let missing := filter (λ o, o ∉ selected_set operations) affected in
  match missing with
  | [] => Ok (PlanDraft.mk (filter (λ o, o.(PlanOperation.id) ∉ selected_set operations)
                              d.(PlanDraft.operations)) d.(PlanDraft.protected_scope))
  | _ => Err (Reported (EditError.DependentOperations missing))
  end.

(** ** Commands on the candidate *)

(** [candidate.operations[index].request = request] *)
Definition set_request (i : nat) (r : PlanRequest) (d : PlanDraft) : PlanDraft :=
  PlanDraft.mk (alter (λ o, PlanOperation.mk o.(PlanOperation.id) r o.(PlanOperation.created_node))
                  i d.(PlanDraft.operations)) d.(PlanDraft.protected_scope).
Definition set_operations (os : list PlanOperation) (d : PlanDraft) : PlanDraft :=
  PlanDraft.mk os d.(PlanDraft.protected_scope).

(** The [match] of [edit]: the changed candidate and what was added.  [new_id]
    and [new_node] are the identities [PlanOperation::new] allocates. *)
Definition apply_edit (new_id : OperationId) (new_node : NodeId) (d : PlanDraft) (edit : PlanEdit)
    : editing (PlanDraft * option PlanOperation) :=
  match edit with
  | PlanEdit.Add request =>
      if (MAX_DRAFT_OPERATIONS <=? length d.(PlanDraft.operations))%nat
      then Err (Reported EditError.OperationLimit)
      else
        let added := operation_new new_id new_node request in
        Ok (set_operations (d.(PlanDraft.operations) ++ [added]) d, Some added)
  | PlanEdit.Replace operation request =>
      let? i := operation_index d operation in
      let? previous := index d.(PlanDraft.operations) i in
      if negb (same_kind previous.(PlanOperation.request) request)
      then Err (Reported (EditError.RequestKindChange operation))
      else Ok (set_request i request d, None)
  | PlanEdit.Remove operations =>
      let? d := remove_operations d operations in Ok (d, None)
  | PlanEdit.MoveBefore operation before =>
      let? i := operation_index d operation in
      let? _ := match before with
                | Some b => let? _ := operation_index d b in Ok tt
                | None => Ok tt
                end in
      if bool_decide (before = Some operation) then Ok (d, None)
      else
        let? (moved, rest) := vec_remove i d.(PlanDraft.operations) in
        let? target := match before with
                       | Some b => operation_index (set_operations rest d) b
                       | None => Ok (length rest)
                       end in
        let? os := vec_insert target moved rest in
        Ok (set_operations os d, None)
  | PlanEdit.SetProtection protected =>
      Ok (PlanDraft.mk d.(PlanDraft.operations) protected, None)
  | PlanEdit.Clear => Ok (set_operations [] d, None)
  end.

(** ** The session *)

(** [return Err(..)] of a method that has not changed the session yet. *)
Notation "'let*' x := e 'keeping' s 'in' k" :=
  (match e with Ok x => k | Err err => (s, Err err) end)
  (at level 10, x pattern, e at level 100, s at level 100, k at level 200) : rust_scope.

Definition check_revision session expected : editing DraftRevision :=
  if bool_decide (expected ≠ session.(PlanSession.revision))
  then Err (Reported (EditError.RevisionConflict expected session.(PlanSession.revision)))
  else ok_or (DraftRevision_next session.(PlanSession.revision)) (Reported EditError.RevisionExhausted).

(** A reported error of the build is a value, a panic is not. *)
Definition settle_build {E} (r : building PlanPreview)
    : result (result PlanPreview DraftBuildError) (Failure E) :=
  match r with
  | Ok p => Ok (Ok p)
  | Err (Reported e) => Ok (Err e)
  | Err Panicked => Err Panicked
  | Err OutOfFuel => Err OutOfFuel
  end.

Section session.
Variable json : Serializers.

(** [build_preview] for a draft that may stay invalid: internal errors are refused. *)
Definition editable_preview {E} (internal : DraftBuildError → E) (b : HistoricalBaseline) (d : PlanDraft)
    : result PreviewState (Failure E) :=
  let? built := settle_build (build_preview json b d) in
  match built with
  | Err e => if is_internal e then Err (Reported (internal e)) else Ok (preview_from built)
  | Ok _ => Ok (preview_from built)
  end.

Definition build_candidate session (candidate : PlanDraft) : editing PreviewState :=
  editable_preview EditError.InternalBuild session.(PlanSession.baseline) candidate.

(** [PlanSession::new] *)
Definition session_new (new_id : Uuid) (b : HistoricalBaseline) : building PlanSession :=
  let d := PlanDraft.default in
  let? preview := build_preview json b d in
  Ok (PlanSession.mk new_id 0 b d (PreviewState.Calculated preview) DEFAULT_HISTORY_LIMIT [] []).

Definition set_history_limit session (limit : nat) : PlanSession :=
  let 'PlanSession.mk id revision baseline draft preview _ undo redo := session in
  PlanSession.mk id revision baseline draft preview limit
    (drop (length undo - limit) undo) (drop (length redo - limit) redo).

Definition edit session expected (new_id : OperationId) (new_node : NodeId) (command : PlanEdit)
    : PlanSession * editing EditReceipt :=
  let* next := check_revision session expected keeping session in
  let* (candidate, added) := apply_edit new_id new_node session.(PlanSession.draft) command
    keeping session in
  let* built := build_candidate session candidate keeping session in
  let 'PlanSession.mk id _ baseline draft _ limit undo _ := session in
  (PlanSession.mk id next baseline candidate built limit (push_history undo draft limit) [],
   Ok (EditReceipt.mk next (PlanOperation.id <$> added)
         (match added with Some o => o.(PlanOperation.created_node) | None => None end))).

(** [PlanSession::undo] and [PlanSession::redo] *)
Definition session_undo session expected : PlanSession * editing DraftRevision :=
  let* next := check_revision session expected keeping session in
  let* candidate := ok_or (last session.(PlanSession.undo)) (Reported EditError.NoUndo)
    keeping session in
  let* built := build_candidate session candidate keeping session in
  let 'PlanSession.mk id _ baseline draft _ limit undo redo := session in
  (PlanSession.mk id next baseline candidate built limit
     (take (pred (length undo)) undo) (push_history redo draft limit), Ok next).

Definition session_redo session expected : PlanSession * editing DraftRevision :=
  let* next := check_revision session expected keeping session in
  let* candidate := ok_or (last session.(PlanSession.redo)) (Reported EditError.NoRedo)
    keeping session in
  let* built := build_candidate session candidate keeping session in
  let 'PlanSession.mk id _ baseline draft _ limit undo redo := session in
  (PlanSession.mk id next baseline candidate built limit
     (push_history undo draft limit) (take (pred (length redo)) redo), Ok next).

(** ** Shorthands for common edits *)

Definition add_lv session expected new_id new_node (vg : NodeId) (name : string) (size : Bytes)
    : PlanSession * editing EditReceipt :=
  edit session expected new_id new_node
    (PlanEdit.Add (PlanRequest.CreateLv vg name size LvmLvKind.Linear true)).
Definition add_filesystem session expected new_id new_node (backing : NodeId)
    (filesystem : FilesystemKind) : PlanSession * editing EditReceipt :=
  edit session expected new_id new_node
    (PlanEdit.Add (PlanRequest.CreateFilesystem backing filesystem None)).
Definition mount session expected new_id new_node (entry : MountEntry)
    : PlanSession * editing EditReceipt :=
  edit session expected new_id new_node (PlanEdit.Add (PlanRequest.Mount entry)).
Definition persist_mount session expected new_id new_node (entry : MountEntry)
    : PlanSession * editing EditReceipt :=
  edit session expected new_id new_node (PlanEdit.Add (PlanRequest.PersistMount entry)).

(** The shorthands that change one parameter: [change] is the [let .. else]. *)
Definition edit_request session expected operation new_id new_node
    (change : PlanRequest → option PlanRequest) (otherwise : EditError)
    : PlanSession * editing EditReceipt :=
  let* _ := check_revision session expected keeping session in
  let* i := operation_index session.(PlanSession.draft) operation keeping session in
  let* o := index session.(PlanSession.draft).(PlanDraft.operations) i keeping session in
  let* request := ok_or (change o.(PlanOperation.request)) (Reported otherwise) keeping session in
  edit session expected new_id new_node (PlanEdit.Replace operation request).

Definition set_created_lv_size session expected operation new_id new_node (size : Bytes)
    : PlanSession * editing EditReceipt :=
  edit_request session expected operation new_id new_node
    (λ r, match r with
          | PlanRequest.CreateLv vg name _ layout activate =>
              Some (PlanRequest.CreateLv vg name size layout activate)
          | _ => None
          end) (EditError.NotCreatedLv operation).

Definition set_created_partition_extent session expected operation new_id new_node
    (offset size : Bytes) : PlanSession * editing EditReceipt :=
  edit_request session expected operation new_id new_node
    (λ r, match r with
          | PlanRequest.CreatePartition table number _ _ role attributes =>
              Some (PlanRequest.CreatePartition table number offset size role attributes)
          | _ => None
          end) (EditError.NotCreatedPartition operation).

Definition set_resize_size session expected operation new_id new_node (new_size : Bytes)
    : PlanSession * editing EditReceipt :=
  edit_request session expected operation new_id new_node
    (λ r, match r with
          | PlanRequest.ResizeLv lv _ => Some (PlanRequest.ResizeLv lv new_size)
          | PlanRequest.ResizeFilesystem filesystem _ =>
              Some (PlanRequest.ResizeFilesystem filesystem new_size)
          | _ => None
          end) (EditError.NotResize operation).

(** [PlanSession::removal_impact] *)
Definition session_removal_impact session operation : editing (list OperationId) :=
  removal_impact session.(PlanSession.draft) [operation].
End session.
