(* ===== verification/SessionProps.v ===== *)
(** * Correctness of editing sessions

    What a removal takes with it, which properties of a draft every command
    keeps, the invariant of reachable sessions, and the history of a session as
    a bounded view of an unbounded editor. *)

From stdpp Require Import relations.
From S2P Require Import Prelude Model Reach Graph GraphOrder GraphValid State Action Contract.
From S2P Require Import ContractProps Logical Evidence Prerequisites Effects Report PlanOrder.
From S2P Require Import Compose ComposeProps ComposeKeeps Simulate SimulateProps Wire Draft Build.
From S2P Require Import BuildProps PreviewProps Session.

Implicit Types (d : PlanDraft) (o : PlanOperation) (ops : list PlanOperation)
  (affected : list OperationId) (x y : OperationId) (outs : list NodeId).

(** ** Removal *)

(** The operation [y] uses a node that [x] creates. *)
Definition needs d x y : Prop :=
  ∃ p q node, p ∈ d.(PlanDraft.operations) ∧ q ∈ d.(PlanDraft.operations) ∧
    p.(PlanOperation.id) = x ∧ q.(PlanOperation.id) = y ∧
    p.(PlanOperation.created_node) = Some node ∧ node ∈ request_nodes q.(PlanOperation.request).

Definition dependent d (selected : list OperationId) y : Prop :=
  ∃ x, x ∈ selected ∧ rtc (needs d) x y.

Definition uses outs o : Prop := ∃ node, node ∈ request_nodes o.(PlanOperation.request) ∧ node ∈ outs.

Definition operation_ids d : list OperationId := PlanOperation.id <$> d.(PlanDraft.operations).

Lemma exists_elem_snoc {A} (P : A → Prop) (l : list A) (z : A) :
  (∃ a, a ∈ l ++ [z] ∧ P a) ↔ (∃ a, a ∈ l ∧ P a) ∨ P z.
Proof.
  setoid_rewrite elem_of_app. setoid_rewrite list_elem_of_singleton. split.
  - intros (y & [?| ->] & ?); eauto.
  - intros [(y & ? & ?)|?]; eauto.
Qed.

Lemma affect_fold_spec outs ops affected changed affected' :
  foldl (affect_dependents outs) (false, affected) ops = (changed, affected') →
  (∀ x, x ∈ affected' ↔ x ∈ affected ∨ ∃ o, o ∈ ops ∧ o.(PlanOperation.id) = x ∧ uses outs o) ∧
  (NoDup affected → NoDup affected') ∧
  if changed : bool then length affected < length affected' else affected' = affected.
Proof.
  revert changed affected'. induction ops as [|o ops IH] using rev_ind; intros changed affected'.
  { intros [= <- <-]. split_and!; [|done..]. set_solver. }
  rewrite foldl_app. cbn [foldl]. destruct (foldl _ _ ops) as [c1 a1].
  destruct (IH c1 a1 eq_refl) as (Hin & Hnd & Hc). unfold affect_dependents at 1.
  assert (existsb (λ node, contains node outs) (request_nodes o.(PlanOperation.request)) = true ↔ uses outs o)
    as Huse.
  { rewrite existsb_elem. unfold uses. by setoid_rewrite contains_true. }
  destruct (existsb _ _) eqn:He.
  - apply proj1 in Huse. specialize (Huse eq_refl).
    destruct (set_insert_cases o.(PlanOperation.id) a1) as [[Ho ->]|[Ho ->]].
    + intros [= <- <-]. rewrite orb_true_r. split_and!.
      * intros x. rewrite elem_of_app, list_elem_of_singleton, Hin, exists_elem_snoc.
        split; [intros [[?|?]| ->]|intros [?|[?|[<- _]]]]; auto.
      * intros ?. apply NoDup_snoc. auto.
      * rewrite length_app. simpl. destruct c1; [lia|]. subst. lia.
    + intros [= <- <-]. rewrite orb_false_r. split_and!; [|done|done].
      intros x. rewrite exists_elem_snoc. split; [intros [?|?]%Hin; auto|].
      intros [?|[?|[<- _]]]; [apply Hin; auto..|done].
  - intros [= <- <-]. split_and!; [|done|done]. intros x. rewrite exists_elem_snoc.
    split; [intros [?|?]%Hin; auto|]. intros [?|[?|[_ Hu]]]; [apply Hin; auto..|].
    by apply Huse in Hu.
Qed.

Lemma uses_affected d affected o :
  o ∈ d.(PlanDraft.operations) →
  uses (affected_outputs d affected) o ↔ ∃ x, x ∈ affected ∧ needs d x o.(PlanOperation.id) ∧
    ∃ p node, p ∈ d.(PlanDraft.operations) ∧ p.(PlanOperation.id) = x ∧
      p.(PlanOperation.created_node) = Some node ∧ node ∈ request_nodes o.(PlanOperation.request).
Proof.
  intros Ho. unfold uses, affected_outputs. setoid_rewrite list_elem_of_omap.
  setoid_rewrite list_elem_of_filter. split.
  - intros (node & Hn & p & [Hp Hin] & Hc). exists p.(PlanOperation.id). split; [done|]. split.
    + by exists p, o, node.
    + by exists p, node.
  - intros (x & Hx & _ & p & node & Hp & <- & Hc & Hn). exists node. split; [done|]. by exists p.
Qed.

Lemma affected_loop_spec fuel d (selected affected : list OperationId) :
  NoDup affected → (∀ x, x ∈ affected → x ∈ operation_ids d ∧ dependent d selected x) →
  (∀ x, x ∈ selected → x ∈ affected) → length (operation_ids d) < fuel + length affected →
  ∃ result, affected_loop fuel d affected = Ok result ∧
    ∀ x, x ∈ result ↔ dependent d selected x.
Proof.
  revert affected. induction fuel as [|fuel IH]; intros affected Hnd Hsub Hsel Hfuel.
  { exfalso. assert (affected ⊆+ operation_ids d) as Hle%submseteq_length; [|simpl in Hfuel; lia].
    apply NoDup_submseteq; [done|]. intros x Hx. by apply Hsub. }
  cbn [affected_loop]. destruct (foldl _ _ _) as [changed affected'] eqn:Hf.
  apply affect_fold_spec in Hf as (Hin & Hnd' & Hc).
  assert (∀ x, x ∈ affected' → x ∈ operation_ids d ∧ dependent d selected x) as Hsub'.
  { intros x [Hx|(o & Ho & <- & Hu)]%Hin; [auto|]. split; [by apply list_elem_of_fmap_2|].
    apply uses_affected in Hu as (y & Hy & Hneed & _); [|done].
    destruct (Hsub y Hy) as [_ (s & Hs & Hrt)]. exists s. split; [done|]. by eapply rtc_r. }
  destruct changed.
  - apply IH; [auto|done| |lia]. intros x Hx. apply Hin. auto.
  - subst affected'. exists affected. split; [done|]. intros x. split; [apply Hsub'|].
    intros (s & Hs & Hrt). revert x Hrt. apply rtc_ind_r; [by apply Hsel|].
    intros y z _ (p & q & node & Hp & Hq & Hpy & <- & Hcr & Hn) Hy.
    apply Hin. right. exists q. split_and!; [done..|]. apply uses_affected; [done|].
    exists y. split_and!; [done|by exists p, q, node|by exists p, node].
Qed.

Lemma operation_index_spec d x :
  match operation_index d x with
  | Ok i => ∃ o, d.(PlanDraft.operations) !! i = Some o ∧ o.(PlanOperation.id) = x
  | Err e => x ∉ operation_ids d ∧ e = Reported (EditError.UnknownOperation x)
  end.
Proof.
  unfold operation_index. destruct (list_find _ _) as [[i o]|] eqn:Hf.
  - apply list_find_Some in Hf as (Hi & Ho & _). eauto.
  - split; [|done]. apply list_find_None in Hf. rewrite Forall_forall in Hf.
    intros (o & -> & Ho)%list_elem_of_fmap. by apply (Hf o Ho).
Qed.

Lemma operation_index_known d x : is_ok (operation_index d x) = true ↔ x ∈ operation_ids d.
Proof.
  pose proof (operation_index_spec d x) as Hs. destruct (operation_index d x) as [i|e]; simpl.
  - destruct Hs as (o & Ho & <-). split; [intros _|done]. apply list_elem_of_fmap_2.
    by eapply list_elem_of_lookup_2.
  - destruct Hs as [Hs _]. done.
Qed.

Lemma selected_set_spec (operations : list OperationId) :
  NoDup (selected_set operations) ∧ ∀ x, x ∈ selected_set operations ↔ x ∈ operations.
Proof.
  split; [|intros x; unfold selected_set; rewrite elem_of_dedup; set_solver].
  unfold selected_set. induction operations as [|x l IH] using rev_ind; [constructor|].
  rewrite foldl_app. cbn [foldl]. unfold push_new. destruct (contains _ _) eqn:Hc; [done|].
  apply NoDup_snoc. by apply contains_false in Hc.
Qed.

(** The loop ends, with the selected operations and all that depend on them. *)
Lemma removal_impact_ok d (operations : list OperationId) :
  (∀ x, x ∈ operations → x ∈ operation_ids d) →
  ∃ affected, (∀ x, x ∈ affected ↔ dependent d operations x) ∧
    removal_impact d operations = Ok (PlanOperation.id <$>
      filter (λ o, o.(PlanOperation.id) ∈ affected) d.(PlanDraft.operations)).
Proof.
  intros Hknown. destruct (selected_set_spec operations) as [Hnd Hsel].
  destruct (affected_loop_spec (S (length d.(PlanDraft.operations))) d operations
    (selected_set operations)) as (affected & Hloop & Hin).
  - done.
  - intros x Hx%Hsel. split; [auto|]. by exists x.
  - intros x. apply Hsel.
  - unfold operation_ids. rewrite length_fmap. lia.
  - exists affected. split; [done|]. unfold removal_impact. rewrite (proj2 (try_all_ok _ _)).
    { by rewrite Hloop. }
    intros x Hx%Hknown. apply operation_index_known in Hx. by destruct (operation_index d x).
Qed.

Lemma removal_impact_unknown d (operations : list OperationId) x :
  x ∈ operations → x ∉ operation_ids d →
  ∃ y, y ∈ operations ∧ y ∉ operation_ids d ∧
    removal_impact d operations = Err (Reported (EditError.UnknownOperation y)).
Proof.
  intros Hx Hnot. unfold removal_impact. destruct (try_all _ operations) as [[]|e] eqn:Ht.
  - exfalso. rewrite try_all_ok in Ht. specialize (Ht x Hx).
    pose proof (operation_index_spec d x) as Hs. destruct (operation_index d x) as [i|]; [|done].
    destruct Hs as (o & Ho & <-). apply Hnot. apply list_elem_of_fmap_2. by eapply list_elem_of_lookup_2.
  - apply try_fold_err in Ht as (pre & y & post & [] & -> & _ & Hy). exists y.
    split; [apply elem_of_mid|]. pose proof (operation_index_spec d y) as Hs.
    destruct (operation_index d y) as [|e']; [done|]. destruct Hs as [? ->]. injection Hy as <-. done.
Qed.

(** Removing succeeds exactly when nothing outside the selection depends on it. *)
Lemma remove_operations_spec d (operations : list OperationId) :
  match remove_operations d operations with
  | Ok d' => (∀ x, x ∈ operations → x ∈ operation_ids d) ∧
      (∀ x, x ∈ operation_ids d → dependent d operations x → x ∈ operations) ∧
      d' = PlanDraft.mk (filter (λ o, o.(PlanOperation.id) ∉ operations) d.(PlanDraft.operations))
             d.(PlanDraft.protected_scope)
  | Err (Reported (EditError.UnknownOperation x)) => x ∈ operations ∧ x ∉ operation_ids d
  | Err (Reported (EditError.DependentOperations missing)) =>
      missing ≠ [] ∧ ∀ x, x ∈ missing ↔ x ∈ operation_ids d ∧ dependent d operations x ∧ x ∉ operations
  | Err _ => False
  end.
Proof.
  unfold remove_operations. destruct (selected_set_spec operations) as [_ Hsel].
  destruct (decide (Forall (λ x, x ∈ operation_ids d) operations)) as [Hall|Hno].
  - rewrite Forall_forall in Hall. destruct (removal_impact_ok d operations Hall) as (aff & Haff & ->).
    cbn [mbind]. destruct (filter _ (PlanOperation.id <$> _)) as [|m ms] eqn:Hm.
    + split_and!; [done| |].
      * intros x Hx Hdep. apply dec_stable. intros Hout. eapply (elem_of_nil x). rewrite <-Hm.
        apply list_elem_of_filter. rewrite Hsel. split; [done|].
        apply list_elem_of_fmap in Hx as (o & -> & Ho). apply list_elem_of_fmap_2.
        apply list_elem_of_filter. by rewrite Haff.
      * f_equal. apply list_filter_iff. intros o. by rewrite Hsel.
    + split; [done|]. intros x. rewrite <-Hm, list_elem_of_filter, Hsel, list_elem_of_fmap.
      setoid_rewrite list_elem_of_filter. setoid_rewrite Haff. unfold operation_ids.
      rewrite list_elem_of_fmap. split.
      * intros (? & o & -> & ? & ?). eauto.
      * intros ((o & -> & ?) & ? & ?). eauto 6.
  - apply not_Forall_Exists in Hno; [|solve_decision]. apply Exists_exists in Hno as (x & Hx & Hnot).
    by destruct (removal_impact_unknown d operations x) as (y & ? & ? & ->).
Qed.

(** ** What each command does to a draft *)

Inductive edited (new_id : OperationId) (new_node : NodeId) d :
    PlanEdit → PlanDraft → option PlanOperation → Prop :=
| edited_add r :
    length d.(PlanDraft.operations) < MAX_DRAFT_OPERATIONS →
    edited new_id new_node d (PlanEdit.Add r)
      (set_operations (d.(PlanDraft.operations) ++ [operation_new new_id new_node r]) d)
      (Some (operation_new new_id new_node r))
| edited_replace pre o post r :
    d.(PlanDraft.operations) = pre ++ o :: post →
    o.(PlanOperation.id) ∉ PlanOperation.id <$> pre →
    same_kind o.(PlanOperation.request) r = true →
    edited new_id new_node d (PlanEdit.Replace o.(PlanOperation.id) r)
      (set_operations (pre ++ PlanOperation.mk o.(PlanOperation.id) r o.(PlanOperation.created_node)
                           :: post) d) None
| edited_remove xs :
    (∀ x, x ∈ xs → x ∈ operation_ids d) →
    (∀ x, x ∈ operation_ids d → dependent d xs x → x ∈ xs) →
    edited new_id new_node d (PlanEdit.Remove xs)
      (set_operations (filter (λ o, o.(PlanOperation.id) ∉ xs) d.(PlanDraft.operations)) d) None
| edited_stay x :
    x ∈ operation_ids d → edited new_id new_node d (PlanEdit.MoveBefore x (Some x)) d None
| edited_move_last pre o post :
    d.(PlanDraft.operations) = pre ++ o :: post →
    o.(PlanOperation.id) ∉ PlanOperation.id <$> pre →
    edited new_id new_node d (PlanEdit.MoveBefore o.(PlanOperation.id) None)
      (set_operations ((pre ++ post) ++ [o]) d) None
| edited_move pre o post pre' q post' :
    d.(PlanDraft.operations) = pre ++ o :: post →
    o.(PlanOperation.id) ∉ PlanOperation.id <$> pre →
    pre ++ post = pre' ++ q :: post' →
    q.(PlanOperation.id) ∉ PlanOperation.id <$> pre' →
    o.(PlanOperation.id) ≠ q.(PlanOperation.id) →
    edited new_id new_node d
      (PlanEdit.MoveBefore o.(PlanOperation.id) (Some q.(PlanOperation.id)))
      (set_operations (pre' ++ o :: q :: post') d) None
| edited_protect scope :
    edited new_id new_node d (PlanEdit.SetProtection scope)
      (PlanDraft.mk d.(PlanDraft.operations) scope) None
| edited_clear : edited new_id new_node d PlanEdit.Clear (set_operations [] d) None.

Lemma operation_index_split d x i :
  operation_index d x = Ok i →
  ∃ pre o post, d.(PlanDraft.operations) = pre ++ o :: post ∧ i = length pre ∧
    x = o.(PlanOperation.id) ∧ x ∉ PlanOperation.id <$> pre.
Proof.
  unfold operation_index. destruct (list_find _ _) as [[j o]|] eqn:Hf; [|done]. intros [= <-].
  apply list_find_Some in Hf as (Hj & <- & Hpre).
  exists (take j d.(PlanDraft.operations)), o, (drop (S j) d.(PlanDraft.operations)).
  split_and!; [by rewrite take_drop_middle| |done|].
  - rewrite length_take. apply lookup_lt_Some in Hj. lia.
  - intros (p & Hp & Hin)%list_elem_of_fmap.
    apply list_elem_of_lookup in Hin as [k Hk]. apply lookup_take_Some in Hk as [Hk Hlt].
    by apply (Hpre k p Hk Hlt).
Qed.

Lemma operation_index_bad d x e :
  operation_index d x = Err e → ∃ f, e = Reported f.
Proof. unfold operation_index. destruct (list_find _ _) as [[]|]; [done|]. intros [= <-]. eauto. Qed.

(** A rejected command reports why; an accepted one has the effect above. *)
Lemma apply_edit_spec new_id new_node d command :
  returns (λ '(d', added), edited new_id new_node d command d' added)
    (apply_edit new_id new_node d command).
Proof.
  destruct command as [r|x r|xs|x before|scope|]; cbn [apply_edit].
  - destruct (Nat.leb_spec MAX_DRAFT_OPERATIONS (length d.(PlanDraft.operations))); [done|].
    by constructor.
  - destruct (operation_index d x) as [i|e] eqn:Hi.
    2:{ by apply operation_index_bad in Hi as [? ->]. }
    apply operation_index_split in Hi as (pre & o & post & Hd & -> & -> & Hpre).
    unfold index. rewrite Hd, list_lookup_middle by done. cbn [ok_or].
    destruct (same_kind _ r) eqn:Hk; [|done]. cbn [negb]. unfold set_request. rewrite Hd.
    rewrite alter_app_r_alt, Nat.sub_diag by done. by eapply edited_replace.
  - pose proof (remove_operations_spec d xs) as Hs.
    destruct (remove_operations d xs) as [d'|[e| |]]; [|by destruct e|done..].
    destruct Hs as (Hk & Hd & ->). by apply edited_remove.
  - destruct (operation_index d x) as [i|e] eqn:Hi.
    2:{ by apply operation_index_bad in Hi as [? ->]. }
    apply operation_index_split in Hi as (pre & o & post & Hd & -> & -> & Hpre).
    assert (vec_remove (E:=EditError) (length pre) d.(PlanDraft.operations) = Ok (o, pre ++ post)) as Hr.
    { unfold vec_remove. by rewrite Hd, list_lookup_middle, delete_middle. }
    destruct before as [y|].
    + destruct (operation_index d y) as [j|e] eqn:Hj.
      2:{ by apply operation_index_bad in Hj as [? ->]. }
      case_bool_decide as Heq.
      { injection Heq as ->. apply edited_stay. apply list_elem_of_fmap_2. rewrite Hd. apply elem_of_mid. }
      rewrite Hr. cbn [mbind].
      destruct (operation_index (set_operations (pre ++ post) d) y) as [k|e] eqn:Hk.
      2:{ by apply operation_index_bad in Hk as [? ->]. }
      apply operation_index_split in Hk as (pre' & q & post' & Hd' & -> & -> & Hpre').
      cbn [set_operations PlanDraft.operations] in Hd'. unfold vec_insert. rewrite Hd'.
      rewrite (proj2 (Nat.leb_le _ _)) by (rewrite length_app; lia).
      rewrite take_app_length, drop_app_length. eapply edited_move; try done.
      intros Heq'. by apply Heq; rewrite Heq'.
    + rewrite bool_decide_eq_false_2 by done. rewrite Hr. cbn [mbind]. unfold vec_insert.
      rewrite Nat.leb_refl, take_ge, drop_ge by done. by apply edited_move_last.
  - constructor.
  - constructor.
Qed.

Lemma operation_index_middle d pre o post :
  d.(PlanDraft.operations) = pre ++ o :: post → o.(PlanOperation.id) ∉ PlanOperation.id <$> pre →
  operation_index d o.(PlanOperation.id) = Ok (length pre).
Proof.
  intros Hd Hpre. unfold operation_index.
  replace (list_find _ _) with (Some (length pre, o)); [done|]. symmetry. apply list_find_Some.
  rewrite Hd, list_lookup_middle by done. split_and!; [done..|]. intros j p Hj Hlt Hp.
  rewrite lookup_app_l in Hj by done. apply Hpre. rewrite <-Hp. apply list_elem_of_fmap_2.
  by eapply list_elem_of_lookup_2.
Qed.

Lemma remove_operations_complete d xs :
  (∀ x, x ∈ xs → x ∈ operation_ids d) →
  (∀ x, x ∈ operation_ids d → dependent d xs x → x ∈ xs) →
  remove_operations d xs =
  Ok (set_operations (filter (λ o, o.(PlanOperation.id) ∉ xs) d.(PlanDraft.operations)) d).
Proof.
  intros Hk Hd. pose proof (remove_operations_spec d xs) as Hs.
  destruct (remove_operations d xs) as [d'|[e| |]]; [by destruct Hs as (_ & _ & ->)| |done..].
  exfalso. destruct e as [| | | | | |missing| | | | |]; try done.
  - destruct Hs as [Hx Hn]. by apply Hn, Hk.
  - destruct Hs as [Hne Hm]. destruct missing as [|m ms]; [done|].
    destruct (proj1 (Hm m)) as (H1 & H2 & H3); [left|]. by apply H3, Hd.
Qed.

Lemma apply_edit_complete new_id new_node d command d' added :
  edited new_id new_node d command d' added → apply_edit new_id new_node d command = Ok (d', added).
Proof.
  intros He. destruct He as [r Hlt|pre o post r Hd Hpre Hk|xs Hk Hdep|x Hx|pre o post Hd Hpre
    |pre o post pre' q post' Hd Hpre Hd' Hpre' Hne|scope|]; cbn [apply_edit]; try done.
  - by rewrite (proj2 (Nat.leb_gt _ _) Hlt).
  - rewrite (operation_index_middle d pre o post) by done. unfold index.
    rewrite Hd, list_lookup_middle by done. cbn [ok_or]. rewrite Hk. cbn [negb]. unfold set_request.
    by rewrite Hd, alter_app_r_alt, Nat.sub_diag by done.
  - by rewrite remove_operations_complete.
  - apply operation_index_known in Hx. destruct (operation_index d x); [|done]. simpl.
    by rewrite bool_decide_eq_true_2.
  - rewrite (operation_index_middle d pre o post) by done. simpl. unfold vec_remove, vec_insert.
    rewrite Hd, list_lookup_middle, delete_middle by done.
    by rewrite Nat.leb_refl, take_ge, drop_ge by done.
  - rewrite (operation_index_middle d pre o post) by done. 
    assert (is_ok (operation_index d q.(PlanOperation.id)) = true) as Hq.
    { apply operation_index_known. unfold operation_ids. rewrite Hd.
      assert (q ∈ pre ++ post) as Hin by (rewrite Hd'; apply elem_of_mid).
      apply elem_of_app in Hin as [?|?]; apply list_elem_of_fmap_2; apply elem_of_app; [by left|].
      right. by right. }
    destruct (operation_index d _); [|done]. rewrite bool_decide_eq_false_2 by congruence.
    unfold vec_remove. rewrite Hd, list_lookup_middle, delete_middle by done. cbn [mbind].
    rewrite (operation_index_middle (set_operations (pre ++ post) d) pre' q post') by done.
    unfold vec_insert. rewrite Hd', (proj2 (Nat.leb_le _ _)) by (rewrite length_app; lia).
    by rewrite take_app_length, drop_app_length.
Qed.

(** A command itself never claims an internal failure. *)
Lemma apply_edit_external new_id new_node d command :
  raises (λ e, ∀ b, e ≠ EditError.InternalBuild b) (apply_edit new_id new_node d command).
Proof.
  assert (∀ d x, raises (λ e, ∀ b, e ≠ EditError.InternalBuild b) (operation_index d x)) as Hi.
  { intros d' x. unfold operation_index. by destruct (list_find _ _) as [[]|]. }
  destruct command as [r|x r|xs|x before|scope|]; cbn [apply_edit]; try done.
  - by destruct (_ <=? _).
  - apply raises_bind; [apply Hi|]. intros i _. apply raises_bind.
    { unfold index. by destruct (_ !! i). }
    intros o _. by destruct (negb _).
  - pose proof (remove_operations_spec d xs) as Hs.
    by destruct (remove_operations d xs) as [d'|[[]| |]].
  - apply raises_bind; [apply Hi|]. intros i _. apply raises_bind.
    { destruct before; [|done]. apply raises_bind; [apply Hi|done]. }
    intros _ _. destruct (bool_decide _); [done|]. apply raises_bind.
    { unfold vec_remove. by destruct (_ !! _). }
    intros [o rest] _. apply raises_bind; [by destruct before; [apply Hi|]|]. intros t _.
    unfold vec_insert. by destruct (_ <=? _).
Qed.

(** ** Identities survive every command *)

Definition identity o : OperationId * option NodeId * bool :=
  (o.(PlanOperation.id), o.(PlanOperation.created_node), creates_node o.(PlanOperation.request)).

Lemma identities_ok_sub baseline ops ops' rest :
  identity <$> ops ≡ₚ (identity <$> ops') ++ rest →
  identities_ok baseline ops → identities_ok baseline ops'.
Proof.
  intros Hp [A1 A2 A3 A4 A5].
  assert (∀ o, o ∈ ops' → ∃ p, p ∈ ops ∧ identity p = identity o) as Hex.
  { intros o Ho. assert (identity o ∈ identity <$> ops) as (p & ? & ?)%list_elem_of_fmap; [|by exists p].
    rewrite Hp, elem_of_app. left. by apply list_elem_of_fmap_2. }
  assert (∀ l : list PlanOperation, PlanOperation.id <$> l = (λ i, i.1.1) <$> (identity <$> l)) as Hid.
  { intros l. by rewrite <-list_fmap_compose. }
  assert (∀ l : list PlanOperation, omap PlanOperation.created_node l = omap (λ i, i.1.2) (identity <$> l)) as Hout.
  { intros l. induction l as [|a l IH]; [done|]. cbn. by destruct (PlanOperation.created_node a); rewrite IH. }
  rewrite Hid, Hp, fmap_app, NoDup_app, <-Hid in A1.
  assert (∀ node, node ∈ omap PlanOperation.created_node ops' → node ∈ omap PlanOperation.created_node ops) as Hsub.
  { intros node (o & Ho & Hn)%list_elem_of_omap. destruct (Hex o Ho) as (p & Hin & [= _ Hc _]).
    apply list_elem_of_omap. exists p. by rewrite Hc. }
  rewrite Hout, Hp, omap_app, NoDup_app, <-Hout in A4. split.
  - apply A1.
  - intros o (p & Hin & [= <- _ _])%Hex. auto.
  - intros o (p & Hin & [= _ <- <-])%Hex. auto.
  - apply A4.
  - intros node Hn%Hsub. rewrite Hout, Hp, <-Hp, <-Hout in Hn. auto.
Qed.

Lemma same_kind_creates r r' : same_kind r r' = true → creates_node r = creates_node r'.
Proof. by destruct r, r'. Qed.

Record fresh_for (baseline : HistoricalBaseline) d (new_id : OperationId) (new_node : NodeId) : Prop := {
  ff_id : is_nil new_id = false;
  ff_new_id : new_id ∉ operation_ids d;
  ff_node : is_nil new_node = false;
  ff_unobserved : baseline_node baseline new_node = None;
  ff_new_node : new_node ∉ outputs d }.

Lemma filter_complement_perm {A} (P : A → Prop) `{!∀ a, Decision (P a)} (l : list A) :
  l ≡ₚ filter (λ a, P a) l ++ filter (λ a, ¬ P a) l.
Proof.
  induction l as [|a l IH]; [done|]. rewrite !filter_cons. destruct (decide (P a)) as [Ha|Ha].
  - rewrite decide_False by tauto. simpl. by rewrite <-IH.
  - rewrite decide_True by done. rewrite <-Permutation_middle. by rewrite <-IH.
Qed.

(** Except for an addition, a command leaves a part of the old identities. *)
Lemma edited_identities new_id new_node d command d' added :
  edited new_id new_node d command d' added →
  match added with
  | Some o => d'.(PlanDraft.operations) = d.(PlanDraft.operations) ++ [o] ∧
      ∃ r, o = operation_new new_id new_node r
  | None => ∃ rest, identity <$> d.(PlanDraft.operations) ≡ₚ
      (identity <$> d'.(PlanDraft.operations)) ++ rest
  end.
Proof.
  intros He. destruct He as [r Hlt|pre o post r Hd Hpre Hk|xs Hk Hdep|x Hx|pre o post Hd Hpre
    |pre o post pre' q post' Hd Hpre Hd' Hpre' Hne|scope|]; cbn [set_operations PlanDraft.operations].
  - eauto.
  - exists []. rewrite app_nil_r, Hd, !fmap_app, !fmap_cons. unfold identity at 2 5.
    cbn [PlanOperation.id PlanOperation.request PlanOperation.created_node].
    by rewrite (same_kind_creates _ _ Hk).
  - exists (identity <$> filter (λ o, o.(PlanOperation.id) ∈ xs) d.(PlanDraft.operations)).
    rewrite <-fmap_app. apply fmap_Permutation. rewrite Permutation_app_comm.
    apply filter_complement_perm.
  - exists []. by rewrite app_nil_r.
  - exists []. rewrite app_nil_r, Hd. apply fmap_Permutation. by rewrite <-Permutation_cons_append, Permutation_middle.
  - exists []. rewrite app_nil_r, Hd. apply fmap_Permutation.
    by rewrite <-!Permutation_middle, Hd', <-Permutation_middle.
  - exists []. by rewrite app_nil_r.
  - by exists (identity <$> d.(PlanDraft.operations)).
Qed.

Lemma edited_identities_ok baseline new_id new_node d command d' added :
  edited new_id new_node d command d' added → fresh_for baseline d new_id new_node →
  identities_ok baseline d.(PlanDraft.operations) → identities_ok baseline d'.(PlanDraft.operations).
Proof.
  intros He [F1 F2 F3 F4 F5] Hok. apply edited_identities in He. destruct added as [o|].
  2:{ destruct He as [rest Hp]. by eapply identities_ok_sub. }
  destruct He as (-> & r & ->). destruct Hok as [A1 A2 A3 A4 A5]. unfold operation_new.
  set (o := PlanOperation.mk _ _ _). assert (∀ n, o.(PlanOperation.created_node) = Some n → n = new_node) as Hn.
  { unfold o. simpl. destruct (creates_node r); by intros ? [= <-]. }
  split.
  - rewrite fmap_snoc. by apply NoDup_snoc.
  - intros p [?| ->%list_elem_of_singleton]%elem_of_app; auto.
  - intros p [?| ->%list_elem_of_singleton]%elem_of_app; [auto|]. unfold o. simpl.
    destruct (creates_node r); split; [by eexists|done|done|by intros []].
  - rewrite NoDup_omap_snoc. split; [done|]. by intros y ->%Hn.
  - intros n (p & [Hp| ->%list_elem_of_singleton]%elem_of_app & Hin)%list_elem_of_omap.
    + apply A5, list_elem_of_omap. eauto.
    + apply Hn in Hin as ->. done.
Qed.

(** No command grows a draft past the limit. *)
Lemma edited_bound new_id new_node d command d' added :
  edited new_id new_node d command d' added →
  length d.(PlanDraft.operations) ≤ MAX_DRAFT_OPERATIONS →
  length d'.(PlanDraft.operations) ≤ MAX_DRAFT_OPERATIONS.
Proof.
  intros He Hle. destruct He; cbn [set_operations PlanDraft.operations]; try done.
  - rewrite length_app. simpl. lia.
  - match goal with H : _ = _ ++ _ :: _ |- _ => rewrite H in Hle end.
    rewrite length_app in *. done.
  - etrans; [apply length_filter|done].
  - match goal with H : _ = _ ++ _ :: _ |- _ => rewrite H in Hle end.
    rewrite !length_app in *. simpl in *. lia.
  - match goal with H : PlanDraft.operations d = _, H' : _ ++ _ = _ |- _ =>
      rewrite H in Hle; apply (f_equal length) in H' end.
    rewrite !length_app in *. simpl in *. lia.
  - unfold MAX_DRAFT_OPERATIONS. simpl. lia.
Qed.

(** A removal that is accepted leaves no dangling input. *)
Lemma remove_operations_wf baseline d xs d' :
  draft_wf baseline d → remove_operations d xs = Ok d' → draft_wf baseline d'.
Proof.
  intros Hwf Hr. pose proof (remove_operations_spec d xs) as Hs. rewrite Hr in Hs.
  destruct Hs as (Hk & Hdep & ->).
  assert (identities_ok baseline d.(PlanDraft.operations)) as Hok by (destruct Hwf; by split).
  destruct (edited_identities 0 0 d _ _ _ (edited_remove _ _ d xs Hk Hdep)) as [rest Hrest].
  eapply identities_ok_sub in Hok as [B1 B2 B3 B4 B5]; [|exact Hrest].
  split; cbn [PlanDraft.operations]; try done; [by destruct Hwf|].
  intros o node [Ho Hin]%list_elem_of_filter Hn.
  destruct (dw_inputs _ _ Hwf o node Hin Hn) as [?|Hout]; [by left|right].
  apply list_elem_of_omap in Hout as (p & Hp & Hc). apply list_elem_of_omap. exists p. split; [|done].
  cbn [PlanDraft.operations]. apply list_elem_of_filter. split; [|done]. intros Hx. apply Ho.
  apply Hdep; [by apply list_elem_of_fmap_2|]. exists p.(PlanOperation.id). split; [done|].
  apply rtc_once. by exists p, o, node.
Qed.

(** ** Sessions *)

Section session.
Context (json : Serializers).
Implicit Types (s : PlanSession) (b : HistoricalBaseline) (p : PreviewState).

(** [p] is what a build of the draft shows. *)
Definition previews b d p : Prop :=
  match build_preview json b d with
  | Ok q => p = PreviewState.Calculated q
  | Err (Reported e) => p = PreviewState.Invalid e
  | Err _ => False
  end.

Lemma previews_unique b d p q : previews b d p → previews b d q → p = q.
Proof. unfold previews. destruct (build_preview _ _ _) as [|[]]; [by intros -> ->..|done|done]. Qed.

(** Every draft can be previewed: the internal error is never reached. *)
Lemma editable_preview_ok {E} (internal : DraftBuildError → E) b d :
  ∃ p, editable_preview json internal b d = Ok p ∧ previews b d p.
Proof.
  destruct (build_preview_ok json b d) as [Hr He]. unfold editable_preview, previews, settle_build.
  destruct (build_preview json b d) as [q|[e| |]]; [by eexists| |done..].
  simpl in He. unfold external_build in He. rewrite He. by eexists.
Qed.

(** Drafts a session holds. *)
Definition session_drafts s : list PlanDraft :=
  s.(PlanSession.draft) :: s.(PlanSession.undo) ++ s.(PlanSession.redo).

Record session_ok s : Prop := {
  so_preview : previews s.(PlanSession.baseline) s.(PlanSession.draft) s.(PlanSession.preview);
  so_undo : length s.(PlanSession.undo) ≤ s.(PlanSession.history_limit);
  so_redo : length s.(PlanSession.redo) ≤ s.(PlanSession.history_limit);
  so_bound d : d ∈ session_drafts s → length d.(PlanDraft.operations) ≤ MAX_DRAFT_OPERATIONS;
  so_identities d : d ∈ session_drafts s →
    identities_ok s.(PlanSession.baseline) d.(PlanDraft.operations);
  so_baseline : is_nil s.(PlanSession.baseline).(HistoricalBaseline.id) = false;
  so_usable : is_ok (build_preview json s.(PlanSession.baseline) PlanDraft.default) = true;
  so_id : is_nil s.(PlanSession.id) = false;
  so_revision : (s.(PlanSession.revision) <= u64_MAX)%N }.

Lemma check_revision_spec s expected :
  match check_revision s expected with
  | Ok next => expected = s.(PlanSession.revision) ∧ next = (s.(PlanSession.revision) + 1)%N ∧
      (next <= u64_MAX)%N
  | Err e => (expected ≠ s.(PlanSession.revision) ∧
        e = Reported (EditError.RevisionConflict expected s.(PlanSession.revision))) ∨
      (expected = s.(PlanSession.revision) ∧ (u64_MAX <= s.(PlanSession.revision))%N ∧
        e = Reported EditError.RevisionExhausted)
  end.
Proof.
  unfold check_revision, DraftRevision_next, u64_checked_add. case_bool_decide as He; [by left|].
  destruct (N.leb_spec (s.(PlanSession.revision) + 1) u64_MAX); cbn [ok_or]; [auto|].
  right. split_and!; [done|lia|done].
Qed.

Lemma push_history_length history d limit :
  length history ≤ limit → length (push_history history d limit) ≤ limit.
Proof.
  intros Hle. unfold push_history. destruct (Nat.eqb_spec limit 0); [done|].
  destruct (Nat.leb_spec limit (length history)); rewrite length_app, ?length_drop; simpl; lia.
Qed.

Lemma push_history_elem history d limit d' :
  d' ∈ push_history history d limit → d' ∈ history ∨ d' = d.
Proof.
  unfold push_history. destruct (limit =? 0); [auto|].
  intros [Hin| ->%list_elem_of_singleton]%elem_of_app; [left|auto].
  destruct (limit <=? length history); [|done]. rewrite <-(take_drop 1 history). set_solver.
Qed.

Lemma push_history_suffix history past d limit :
  length history ≤ limit → history `suffix_of` past →
  push_history history d limit `suffix_of` past ++ [d].
Proof.
  intros Hle Hsuf. unfold push_history. destruct (Nat.eqb_spec limit 0) as [->|].
  { destruct history; [|simpl in Hle; lia]. apply suffix_nil. }
  apply suffix_app. destruct (limit <=? length history); [|done]. etrans; [apply suffix_drop|done].
Qed.

Lemma take_pred_last {A} (l : list A) a : last l = Some a → l = take (pred (length l)) l ++ [a].
Proof.
  intros (k & ->)%last_Some. rewrite length_app. simpl.
  replace (pred (length k + 1)) with (length k) by lia. by rewrite take_app_length.
Qed.

Lemma suffix_take_pred {A} (l k : list A) a :
  last l = Some a → l `suffix_of` k → take (pred (length l)) l `suffix_of` take (pred (length k)) k.
Proof.
  intros Hl [r ->]. pose proof (take_pred_last _ _ Hl) as Heq. revert Heq.
  generalize (take (pred (length l)) l) as l'. intros l' ->. rewrite !length_app. simpl.
  replace (pred (length r + (length l' + 1))) with (length (r ++ l')) by (rewrite length_app; lia).
  rewrite app_assoc, take_app_length. by apply suffix_app_r.
Qed.

(** *** What an accepted command publishes *)

Record published s s' (next : DraftRevision) : Prop := {
  pub_id : s'.(PlanSession.id) = s.(PlanSession.id);
  pub_baseline : s'.(PlanSession.baseline) = s.(PlanSession.baseline);
  pub_limit : s'.(PlanSession.history_limit) = s.(PlanSession.history_limit);
  pub_revision : s'.(PlanSession.revision) = next;
  pub_next : next = (s.(PlanSession.revision) + 1)%N ∧ (next <= u64_MAX)%N;
  pub_preview : previews s'.(PlanSession.baseline) s'.(PlanSession.draft) s'.(PlanSession.preview) }.

(** An edit is refused for a reported reason and changes nothing, or does what
    its command says and pushes the old draft. *)
Lemma edit_spec s expected new_id new_node command :
  match edit json s expected new_id new_node command with
  | (s', Err e) => s' = s ∧ ∃ error, e = Reported error ∧ ∀ cause, error ≠ EditError.InternalBuild cause
  | (s', Ok receipt) =>
      expected = s.(PlanSession.revision) ∧ published s s' receipt.(EditReceipt.revision) ∧
      (∃ added, edited new_id new_node s.(PlanSession.draft) command s'.(PlanSession.draft) added ∧
         receipt.(EditReceipt.added_operation) = PlanOperation.id <$> added ∧
         receipt.(EditReceipt.created_node) = (added ≫= PlanOperation.created_node)) ∧
      s'.(PlanSession.undo) =
        push_history s.(PlanSession.undo) s.(PlanSession.draft) s.(PlanSession.history_limit) ∧
      s'.(PlanSession.redo) = []
  end.
Proof.
  unfold edit. pose proof (check_revision_spec s expected) as Hrev.
  destruct (check_revision s expected) as [next|e]; [|naive_solver].
  pose proof (apply_edit_spec new_id new_node s.(PlanSession.draft) command) as Happ.
  pose proof (apply_edit_external new_id new_node s.(PlanSession.draft) command) as Hext.
  destruct (apply_edit _ _ _ command) as [[candidate added]|[e| |]]; [|by eauto|done..].
  unfold build_candidate.
  destruct (editable_preview_ok EditError.InternalBuild s.(PlanSession.baseline) candidate)
    as (p & -> & Hp).
  destruct s as [id rev base draft prev limit undo redo]. simpl in *.
  destruct Hrev as (-> & -> & Hmax). split; [done|]. split; [by split|]. split; [|done].
  exists added. split; [done|]. by destruct added.
Qed.

(** The error of a refused [undo] or [redo]. *)
Definition refused s expected (from : list PlanDraft) (empty e : EditError) : Prop :=
  (expected ≠ s.(PlanSession.revision) ∧
     e = EditError.RevisionConflict expected s.(PlanSession.revision)) ∨
  (expected = s.(PlanSession.revision) ∧ (u64_MAX <= s.(PlanSession.revision))%N ∧
     e = EditError.RevisionExhausted) ∨
  (expected = s.(PlanSession.revision) ∧ from = [] ∧ e = empty).

Lemma session_undo_spec s expected :
  match session_undo json s expected with
  | (s', Err e) => s' = s ∧ ∃ error, e = Reported error ∧
      refused s expected s.(PlanSession.undo) EditError.NoUndo error
  | (s', Ok next) =>
      expected = s.(PlanSession.revision) ∧ published s s' next ∧
      s.(PlanSession.undo) = s'.(PlanSession.undo) ++ [s'.(PlanSession.draft)] ∧
      s'.(PlanSession.redo) =
        push_history s.(PlanSession.redo) s.(PlanSession.draft) s.(PlanSession.history_limit)
  end.
Proof.
  unfold session_undo, refused. pose proof (check_revision_spec s expected) as Hrev.
  destruct (check_revision s expected) as [next|e]; [|naive_solver].
  destruct (last s.(PlanSession.undo)) as [candidate|] eqn:Hl; cbn [ok_or].
  2:{ apply last_None in Hl. naive_solver. }
  unfold build_candidate.
  destruct (editable_preview_ok EditError.InternalBuild s.(PlanSession.baseline) candidate)
    as (p & -> & Hp).
  destruct s as [id rev base draft prev limit undo redo]. simpl in *.
  destruct Hrev as (-> & -> & Hmax). split; [done|]. split; [by split|]. split; [|done].
  by apply take_pred_last.
Qed.

Lemma session_redo_spec s expected :
  match session_redo json s expected with
  | (s', Err e) => s' = s ∧ ∃ error, e = Reported error ∧
      refused s expected s.(PlanSession.redo) EditError.NoRedo error
  | (s', Ok next) =>
      expected = s.(PlanSession.revision) ∧ published s s' next ∧
      s.(PlanSession.redo) = s'.(PlanSession.redo) ++ [s'.(PlanSession.draft)] ∧
      s'.(PlanSession.undo) =
        push_history s.(PlanSession.undo) s.(PlanSession.draft) s.(PlanSession.history_limit)
  end.
Proof.
  unfold session_redo, refused. pose proof (check_revision_spec s expected) as Hrev.
  destruct (check_revision s expected) as [next|e]; [|naive_solver].
  destruct (last s.(PlanSession.redo)) as [candidate|] eqn:Hl; cbn [ok_or].
  2:{ apply last_None in Hl. naive_solver. }
  unfold build_candidate.
  destruct (editable_preview_ok EditError.InternalBuild s.(PlanSession.baseline) candidate)
    as (p & -> & Hp).
  destruct s as [id rev base draft prev limit undo redo]. simpl in *.
  destruct Hrev as (-> & -> & Hmax). split; [done|]. split; [by split|]. split; [|done].
  by apply take_pred_last.
Qed.

(** *** The invariant *)

Lemma session_ok_published s s' next :
  session_ok s → published s s' next →
  length s'.(PlanSession.undo) ≤ s.(PlanSession.history_limit) →
  length s'.(PlanSession.redo) ≤ s.(PlanSession.history_limit) →
  (∀ d, d ∈ session_drafts s' → d ∈ session_drafts s ∨
     length d.(PlanDraft.operations) ≤ MAX_DRAFT_OPERATIONS ∧
     identities_ok s.(PlanSession.baseline) d.(PlanDraft.operations)) →
  session_ok s'.
Proof.
  intros [_ _ _ Hb Hi Hn He Hid _] [Hsid Hbase Hlim Hrev [Hnext Hmax] Hprev] Hu Hr Hd.
  split; rewrite ?Hsid, ?Hlim, ?Hbase, ?Hrev in *; try done.
  - intros d [?|[? _]]%Hd; auto.
  - intros d [?|[_ ?]]%Hd; auto.
Qed.

Lemma edit_ok s expected new_id new_node command :
  session_ok s → fresh_for s.(PlanSession.baseline) s.(PlanSession.draft) new_id new_node →
  session_ok (edit json s expected new_id new_node command).1.
Proof.
  intros Hok Hfresh. pose proof (edit_spec s expected new_id new_node command) as Hs.
  destruct (edit _ _ _ _ _ _) as [s' [receipt|e]]; [|by destruct Hs as [-> _]].
  destruct Hs as (_ & Hpub & (added & He & _) & Hu & Hr). simpl.
  pose proof Hok as [_ Hul _ Hb Hi _ _ _ _].
  assert (s.(PlanSession.draft) ∈ session_drafts s) as Hd by left.
  eapply session_ok_published; [done..| | |].
  - rewrite Hu. by apply push_history_length.
  - rewrite Hr. simpl. lia.
  - unfold session_drafts. rewrite Hu, Hr, app_nil_r.
    intros d [->|[Hd'| ->]%push_history_elem]%elem_of_cons.
    + right. split; [by eapply edited_bound; [|apply Hb]|].
      by eapply edited_identities_ok; [..|apply Hi].
    + left. right. apply elem_of_app. by left.
    + by left; left.
Qed.

Lemma session_undo_ok s expected : session_ok s → session_ok (session_undo json s expected).1.
Proof.
  intros Hok. pose proof (session_undo_spec s expected) as Hs.
  destruct (session_undo _ _ _) as [s' [next|e]]; [|by destruct Hs as [-> _]].
  destruct Hs as (_ & Hpub & Hu & Hr). simpl. pose proof Hok as [_ Hul Hrl _ _ _ _ _ _].
  eapply session_ok_published; [done..| | |].
  - rewrite Hu, length_app in Hul. lia.
  - rewrite Hr. by apply push_history_length.
  - intros d Hd. left. unfold session_drafts in *. rewrite Hr in Hd. rewrite Hu.
    apply elem_of_cons in Hd as [->|[Hd|[Hd| ->]%push_history_elem]%elem_of_app]; set_solver.
Qed.

Lemma session_redo_ok s expected : session_ok s → session_ok (session_redo json s expected).1.
Proof.
  intros Hok. pose proof (session_redo_spec s expected) as Hs.
  destruct (session_redo _ _ _) as [s' [next|e]]; [|by destruct Hs as [-> _]].
  destruct Hs as (_ & Hpub & Hr & Hu). simpl. pose proof Hok as [_ Hul Hrl _ _ _ _ _ _].
  eapply session_ok_published; [done..| | |].
  - rewrite Hu. by apply push_history_length.
  - rewrite Hr, length_app in Hrl. lia.
  - intros d Hd. left. unfold session_drafts in *. rewrite Hu in Hd. rewrite Hr.
    apply elem_of_cons in Hd as [->|[[Hd| ->]%push_history_elem|Hd]%elem_of_app]; set_solver.
Qed.

Lemma set_history_limit_ok s limit : session_ok s → session_ok (set_history_limit s limit).
Proof.
  destruct s as [id rev base draft prev old undo redo]. intros [Hp Hu Hr Hb Hi Hn He Hid Hv].
  assert (∀ d, d ∈ draft :: drop (length undo - limit) undo ++ drop (length redo - limit) redo →
    d ∈ draft :: undo ++ redo) as Hsub.
  { intros d. rewrite !elem_of_cons, !elem_of_app. intros [->|[Hd|Hd]]; [auto|right; left|right; right].
    - rewrite <-(take_drop (length undo - limit) undo), elem_of_app. auto.
    - rewrite <-(take_drop (length redo - limit) redo), elem_of_app. auto. }
  unfold session_drafts in *. simpl in *. split; simpl; try done; [rewrite length_drop; lia..|auto|auto].
Qed.

Lemma session_new_ok new_id b s :
  is_nil new_id = false → session_new json new_id b = Ok s → session_ok s.
Proof.
  intros Hid. unfold session_new. destruct (build_preview_ok json b PlanDraft.default) as [Hr _].
  destruct (build_preview json b PlanDraft.default) as [p|] eqn:Hb; [|done]. intros <-%Ok_inj.
  pose proof (ps_draft _ _ _ _ Hr) as Hwf. unfold session_drafts.
  split; simpl; try done; try lia.
  - unfold previews. by rewrite Hb.
  - intros d ->%list_elem_of_singleton. simpl. lia.
  - intros d ->%list_elem_of_singleton. destruct Hwf. by split.
  - by destruct Hwf.
  - by rewrite Hb.
Qed.
End session.
