(* ===== verification/Documents.v ===== *)
(** * Session documents: [editing/document.rs] and [editing/rebase.rs]

    The saved draft and its validation, resuming a session from it, the display
    document of a preview, the frozen plan of a reviewed revision, and the
    translation of a draft to a new baseline.  [serde_json] is a parameter. *)

From S2P Require Import Prelude Model Graph GraphValid State Action Contract Logical Evidence.
From S2P Require Import Prerequisites Effects Report PlanOrder Compose Simulate Wire Observation.
From S2P Require Import Correlate Draft Build Session.

Definition PREVIEW_SCHEMA_VERSION : N := 1.
Definition DRAFT_SCHEMA_VERSION : N := 5.
Definition MAX_DRAFT_JSON_BYTES : nat := 1024 * 1024.

Implicit Types (session : PlanSession) (expected : DraftRevision).

(** ** Display documents *)

Module PreviewDocument.
Record PreviewDocument := mk {
  schema_version : N;
  session_id : Uuid;
  revision : DraftRevision;
  status : PreviewStatus;
  desired : option DesiredState;
  evidence : option SimulationEvidenceSummary;
  operations : list PlanOperation;
  source_map : list OperationActions;
  steps : list SimulatedStep;
  obligations : list SimulationObligation;
  protection_violations : list ProtectionViolation;
  intent_coverage : list IntentCoverage;
  request_coverage : list RequestCoverage;
  diagnostics : list OperationDiagnostic }.
End PreviewDocument.
Abbreviation PreviewDocument := PreviewDocument.PreviewDocument.

(** The [match] on the preview. *)
Definition preview_source_map (state : PreviewState) : list OperationActions :=
  match state with
  | PreviewState.Calculated preview => preview.(PlanPreview.source_map)
  | PreviewState.Invalid (DraftBuildError.Composition _ source_map)
  | PreviewState.Invalid (DraftBuildError.Simulation _ source_map) => source_map
  | PreviewState.Invalid (DraftBuildError.Draft _) => []
  end.

(** [preview.map_or(&[], ..)] *)
Definition of_report {A} (o : option PlanPreview) (f : SimulationReport → list A) : list A :=
  match o with Some p => f p.(PlanPreview.report) | None => [] end.

(** [composition_text], [action_text] and [simulation_text] are [Display]. *)
Definition preview_document (composition_text : CompositionError → string)
    (action_text : ActionSimulationError → string) (simulation_text : PlanSimulationError → string)
    session : PreviewDocument :=
  let state := session.(PlanSession.preview) in
  let preview := calculated state in
  PreviewDocument.mk PREVIEW_SCHEMA_VERSION session.(PlanSession.id) session.(PlanSession.revision)
    (status state)
    ((λ p, p.(PlanPreview.report).(SimulationReport.simulation).(SimulationResult.desired)) <$> preview)
    ((λ p, p.(PlanPreview.report).(SimulationReport.simulation).(SimulationResult.evidence)) <$> preview)
    session.(PlanSession.draft).(PlanDraft.operations) (preview_source_map state)
    (of_report preview (λ r, r.(SimulationReport.simulation).(SimulationResult.steps)))
    (of_report preview SimulationReport.unresolved_obligations)
    (of_report preview SimulationReport.protection_violations)
    (of_report preview SimulationReport.intent_coverage)
    (match preview with Some p => p.(PlanPreview.request_coverage) | None => [] end)
    (preview_diagnostics composition_text action_text simulation_text state).

(** ** Saved drafts *)

Module DraftDocument.
Record DraftDocument := mk {
  schema_version : N;
  session_id : Uuid;
  revision : DraftRevision;
  baseline : HistoricalBaseline;
  draft : PlanDraft }.
#[global] Instance DraftDocument_eq_dec : EqDecision DraftDocument.
Proof. solve_decision. Defined.
End DraftDocument.
Abbreviation DraftDocument := DraftDocument.DraftDocument.

(** The message of a [serde_json::Error] is not modelled. *)
Module DraftDocumentError.
Inductive DraftDocumentError :=
| Json
| SchemaVersion (v : N)
| RequestVersion (version : N) (operation : OperationId)
| InvalidSessionIdentity
| TooLarge
| TooManyOperations
| Inputs (error : DraftBuildError).
#[global] Instance DraftDocumentError_eq_dec : EqDecision DraftDocumentError.
Proof. solve_decision. Defined.
End DraftDocumentError.
Abbreviation DraftDocumentError := DraftDocumentError.DraftDocumentError.

Abbreviation opening A := (result A (Failure DraftDocumentError)) (only parsing).

Definition required_version (r : PlanRequest) : N :=
  match r with
  | PlanRequest.DeletePartition _ | PlanRequest.RemoveLv _ | PlanRequest.CloseLuks _ => 5
  | PlanRequest.ResizeLv _ _ | PlanRequest.ResizeFilesystem _ _ => 4
  | PlanRequest.FormatLuks _ _ _ | PlanRequest.OpenLuks _ _ _ _ => 3
  | PlanRequest.CreatePartition _ _ _ _ _ _ => 2
  | _ => 1
  end%N.

Definition supported_version (v : N) : bool := (1 <=? v)%N && (v <=? DRAFT_SCHEMA_VERSION)%N.

(** [serde_json]: encoding, decoding, and the two fields that [from_json] looks
    at in the untyped [Value] first. *)
Record Codec := mk_codec {
  encode : DraftDocument → option string;
  decode : string → option DraftDocument;
  peek_version : string → option (option N);
  peek_operations : string → option nat }.

Section documents.
Variable codec : Codec.
Variable json : Serializers.

(** [DraftDocument::validate] *)
Definition document_validate (doc : DraftDocument) : opening unit :=
  let version := doc.(DraftDocument.schema_version) in
  let operations := doc.(DraftDocument.draft).(PlanDraft.operations) in
  if negb (supported_version version)
  then Err (Reported (DraftDocumentError.SchemaVersion version))
  else
    match find_first (λ o, version <? required_version o.(PlanOperation.request))%N operations with
    | Some o => Err (Reported (DraftDocumentError.RequestVersion version o.(PlanOperation.id)))
    | None =>
        if is_nil doc.(DraftDocument.session_id)
        then Err (Reported DraftDocumentError.InvalidSessionIdentity)
        else if (MAX_DRAFT_OPERATIONS <? length operations)%nat
        then Err (Reported DraftDocumentError.TooManyOperations)
        else
          let? text := ok_or (encode codec doc) (Reported DraftDocumentError.Json) in
          if (MAX_DRAFT_JSON_BYTES <? String.length text)%nat
          then Err (Reported DraftDocumentError.TooLarge)
          else
            let? _ := report (map_err DraftDocumentError.Inputs
                        (validate_draft doc.(DraftDocument.baseline) doc.(DraftDocument.draft))) in
            let? _ := map_failure DraftDocumentError.Inputs
                        (build_preview json doc.(DraftDocument.baseline) PlanDraft.default) in
            Ok tt
    end.

(** [DraftDocument::to_json] and [DraftDocument::from_json] *)
Definition to_json (doc : DraftDocument) : opening string :=
  let? _ := document_validate doc in
  ok_or (encode codec doc) (Reported DraftDocumentError.Json).

Definition from_json (text : string) : opening DraftDocument :=
  if (MAX_DRAFT_JSON_BYTES <? String.length text)%nat
  then Err (Reported DraftDocumentError.TooLarge)
  else
    let? version := ok_or (peek_version codec text) (Reported DraftDocumentError.Json) in
    let? _ := match version with
              | Some v => if supported_version v then Ok tt
                          else Err (Reported (DraftDocumentError.SchemaVersion v))
              | None => Ok tt
              end in
    let? _ := if is_some_and (λ n, MAX_DRAFT_OPERATIONS <? n)%nat (peek_operations codec text)
              then Err (Reported DraftDocumentError.TooManyOperations) else Ok tt in
    let? doc := ok_or (decode codec text) (Reported DraftDocumentError.Json) in
    let? _ := document_validate doc in
    Ok doc.

(** [PlanSession::draft_document] and [PlanSession::from_document] *)
Definition draft_document session : DraftDocument :=
  DraftDocument.mk DRAFT_SCHEMA_VERSION session.(PlanSession.id) session.(PlanSession.revision)
    session.(PlanSession.baseline) session.(PlanSession.draft).

Definition from_document (doc : DraftDocument) : opening PlanSession :=
  let? _ := document_validate doc in
  let? preview := editable_preview json DraftDocumentError.Inputs doc.(DraftDocument.baseline)
                    doc.(DraftDocument.draft) in
  Ok (PlanSession.mk doc.(DraftDocument.session_id) doc.(DraftDocument.revision)
        doc.(DraftDocument.baseline) doc.(DraftDocument.draft) preview DEFAULT_HISTORY_LIMIT [] []).
End documents.

(** ** Rebasing *)

Module RebaseError.
Inductive RebaseError :=
| RevisionConflict (expected actual : DraftRevision)
| SourceContextChanged
| RevisionExhausted
| SameBaselineIdentity
| Inputs (error : DraftBuildError)
| Correlation (error : CorrelationError)
| OutputCollision (node : NodeId)
| UnsupportedOperation (id : OperationId)
| UnsupportedMountContext (context : MountContext).
#[global] Instance RebaseError_eq_dec : EqDecision RebaseError.
Proof. solve_decision. Defined.
End RebaseError.
Abbreviation RebaseError := RebaseError.RebaseError.

Module RebasePreview.
Record RebasePreview := mk {
  source : DraftDocument;
  baseline : HistoricalBaseline;
  draft : PlanDraft;
  preview : PreviewState;
  correlations : list NodeCorrelation }.
#[global] Instance RebasePreview_eq_dec : EqDecision RebasePreview.
Proof. solve_decision. Defined.
End RebasePreview.
Abbreviation RebasePreview := RebasePreview.RebasePreview.

Abbreviation rebasing A := (result A (Failure RebaseError)) (only parsing).

(** The [match] of the operation loop on a mount request. *)
Definition check_rebased_mount (id : OperationId) (entry : MountEntry) : result unit RebaseError :=
  if bool_decide (entry.(MountEntry.context) ≠ MountContext.Host)
  then Err (RebaseError.UnsupportedMountContext entry.(MountEntry.context))
  else match entry.(MountEntry.source) with
       | MountSource.Filesystem _ | MountSource.Tmpfs => Ok tt
       | _ => Err (RebaseError.UnsupportedOperation id)
       end.

Definition check_rebased_operation (next : HistoricalBaseline) (o : PlanOperation)
    : result unit RebaseError :=
  let? _ := match o.(PlanOperation.created_node) with
            | Some output => if bool_decide (is_Some (baseline_node next output))
                             then Err (RebaseError.OutputCollision output) else Ok tt
            | None => Ok tt
            end in
  match o.(PlanOperation.request) with
  | PlanRequest.Unmount _ _ | PlanRequest.RemovePersistentMount _ _ =>
      Err (RebaseError.UnsupportedOperation o.(PlanOperation.id))
  | PlanRequest.Mount entry | PlanRequest.PersistMount entry =>
      check_rebased_mount o.(PlanOperation.id) entry
  | _ => Ok tt
  end.

Definition check_rebased_protection (m : ProtectedMount) : result unit RebaseError :=
  if bool_decide (m.(ProtectedMount.context) ≠ MountContext.Host)
  then Err (RebaseError.UnsupportedMountContext m.(ProtectedMount.context)) else Ok tt.

(** [collect::<HashMap<_, _>>()]: a repeated source keeps the last target. *)
Definition correlation_map (correlations : list NodeCorrelation) : gmap NodeId NodeId :=
  foldl (λ m c, <[c.(NodeCorrelation.source) := c.(NodeCorrelation.target)]> m) ∅ correlations.

Definition remap_operation (mapping : gmap NodeId NodeId) (o : PlanOperation) : PlanOperation :=
  PlanOperation.mk o.(PlanOperation.id) (remap_nodes mapping o.(PlanOperation.request))
    o.(PlanOperation.created_node).

Definition translate (mapping : gmap NodeId NodeId) (d : PlanDraft) : PlanDraft :=
  let 'ProtectedScope.mk nodes runtime persistent := d.(PlanDraft.protected_scope) in
  PlanDraft.mk (remap_operation mapping <$> d.(PlanDraft.operations))
    (ProtectedScope.mk (remap mapping <$> nodes) runtime persistent).

(** The nodes to correlate: inputs and protected nodes that are not outputs. *)
Definition selected_nodes (d : PlanDraft) : list NodeId :=
  filter (λ node, node ∉ omap PlanOperation.created_node d.(PlanDraft.operations))
    ((d.(PlanDraft.operations) ≫= λ o, request_nodes o.(PlanOperation.request)) ++
     d.(PlanDraft.protected_scope).(ProtectedScope.nodes)).

Section rebase.
Variable json : Serializers.

Definition remap_draft (current : HistoricalBaseline) (d : PlanDraft) (next : HistoricalBaseline)
    : rebasing (PlanDraft * list NodeCorrelation) :=
  if bool_decide (current.(HistoricalBaseline.id) = next.(HistoricalBaseline.id))
  then Err (Reported RebaseError.SameBaselineIdentity)
  else
    let? _ := report (map_err RebaseError.Inputs (validate_draft current d)) in
    let? _ := map_failure RebaseError.Inputs (build_preview json next PlanDraft.default) in
    let? _ := report (try_all (check_rebased_operation next) d.(PlanDraft.operations)) in
    let? _ := report (try_all check_rebased_protection
                (d.(PlanDraft.protected_scope).(ProtectedScope.runtime_mounts) ++
                 d.(PlanDraft.protected_scope).(ProtectedScope.persistent_mounts))) in
    let? correlations := map_failure RebaseError.Correlation
        (correlate_nodes current.(HistoricalBaseline.snapshot) next.(HistoricalBaseline.snapshot)
           (selected_nodes d)) in
    let translated := translate (correlation_map correlations) d in
    let? _ := report (map_err RebaseError.Inputs (validate_draft next translated)) in
    Ok (translated, correlations).

Definition prepare_rebase session expected (baseline : HistoricalBaseline) : rebasing RebasePreview :=
  if bool_decide (expected ≠ session.(PlanSession.revision))
  then Err (Reported (RebaseError.RevisionConflict expected session.(PlanSession.revision)))
  else
    let source := draft_document session in
    let? (d, correlations) :=
      remap_draft source.(DraftDocument.baseline) source.(DraftDocument.draft) baseline in
    let? preview := editable_preview json RebaseError.Inputs baseline d in
    Ok (RebasePreview.mk source baseline d preview correlations).

Definition accept_rebase session expected (review : RebasePreview)
    : PlanSession * rebasing DraftRevision :=
  let source := review.(RebasePreview.source) in
  let actual := session.(PlanSession.revision) in
  if bool_decide (expected ≠ actual)
  then (session, Err (Reported (RebaseError.RevisionConflict expected actual)))
  else if bool_decide (source.(DraftDocument.revision) ≠ actual)
  then (session, Err (Reported (RebaseError.RevisionConflict source.(DraftDocument.revision) actual)))
  else if bool_decide (source.(DraftDocument.session_id) ≠ session.(PlanSession.id)) ||
          bool_decide (source.(DraftDocument.baseline) ≠ session.(PlanSession.baseline)) ||
          bool_decide (source.(DraftDocument.draft) ≠ session.(PlanSession.draft))
  then (session, Err (Reported RebaseError.SourceContextChanged))
  else
    let* next := ok_or (DraftRevision_next actual) (Reported RebaseError.RevisionExhausted)
      keeping session in
    let 'PlanSession.mk id _ _ _ _ limit _ _ := session in
    (PlanSession.mk id next review.(RebasePreview.baseline) review.(RebasePreview.draft)
       review.(RebasePreview.preview) limit [] [], Ok next).
End rebase.

(** ** Freezing *)

Module FrozenPlan.
Record FrozenPlan := mk {
  session_id : Uuid;
  revision : DraftRevision;
  document : PlanDocument;
  source_map : list OperationActions }.
#[global] Instance FrozenPlan_eq_dec : EqDecision FrozenPlan.
Proof. solve_decision. Defined.
End FrozenPlan.
Abbreviation FrozenPlan := FrozenPlan.FrozenPlan.

Module FreezeError.
Inductive FreezeError :=
| RevisionConflict (expected actual : DraftRevision)
| Unavailable (s : PreviewStatus)
| Document (error : PlanDocumentError).
#[global] Instance FreezeError_eq_dec : EqDecision FreezeError.
Proof. solve_decision. Defined.
End FreezeError.
Abbreviation FreezeError := FreezeError.FreezeError.

(** [plan_id] is the identity that [capture_with_baseline] allocates. *)
Definition freeze (display : GraphError → string) (json json' : Serializers) (plan_id : Uuid)
    session expected : result FrozenPlan (Failure FreezeError) :=
  if bool_decide (expected ≠ session.(PlanSession.revision))
  then Err (Reported (FreezeError.RevisionConflict expected session.(PlanSession.revision)))
  else
    let state := session.(PlanSession.preview) in
    match status state with
    | PreviewStatus.Complete | PreviewStatus.Conditional =>
        let? preview := ok_or (calculated state) (Reported (FreezeError.Unavailable (status state))) in
        let? document := map_failure FreezeError.Document
            (capture_with_baseline display json json' plan_id preview.(PlanPreview.plan)
               session.(PlanSession.baseline)
               preview.(PlanPreview.report).(SimulationReport.simulation).(SimulationResult.desired)
               session.(PlanSession.draft).(PlanDraft.protected_scope)) in
        Ok (FrozenPlan.mk session.(PlanSession.id) session.(PlanSession.revision) document
              preview.(PlanPreview.source_map))
    | s => Err (Reported (FreezeError.Unavailable s))
    end.
