(* ===== verification/DocumentProps.v ===== *)
(** * Correctness of session documents

    A rebase moves every input to the same durable object and keeps every
    identity, a saved draft opens to the session it was saved from, and a plan
    that is ready to freeze always freezes. *)

From stdpp Require Import relations.
From S2P Require Import Prelude Model Reach Graph GraphOrder GraphValid State Action Contract.
From S2P Require Import ContractProps Logical Evidence Prerequisites Effects Report PlanOrder.
From S2P Require Import Compose ComposeProps ComposeKeeps Simulate SimulateProps Wire Observation.
From S2P Require Import Correlate Draft Build BuildProps PreviewProps Session.
From S2P Require Import SessionProps.
From S2P Require Import Documents.

Implicit Types (d : PlanDraft) (o : PlanOperation) (s : PlanSession) (b : HistoricalBaseline).

(** ** Renaming the nodes of a request *)

Lemma request_nodes_remap mapping r : request_nodes (remap_nodes mapping r) = remap mapping <$> request_nodes r.
Proof.
  destruct r as [| | | | | | | | | |e|e| | | |i]; try done.
  1,2: by destruct (MountEntry.source e) eqn:He; simpl; rewrite He.
  by destruct i.
Qed.

Lemma same_kind_remap mapping r : same_kind r (remap_nodes mapping r) = true.
Proof. destruct r as [| | | | | | | | | | | | | | |i]; try done. by destruct i. Qed.

Lemma identity_remap mapping o : identity (remap_operation mapping o) = identity o.
Proof.
  unfold identity. simpl. by rewrite <-(same_kind_creates _ _ (same_kind_remap mapping _)).
Qed.

Lemma correlation_map_lookup cs n t :
  NoDup (NodeCorrelation.source <$> cs) →
  correlation_map cs !! n = Some t ↔ ∃ i, NodeCorrelation.mk n t i ∈ cs.
Proof.
  unfold correlation_map. induction cs as [|[s t' i] cs IH] using rev_ind; intros Hnd.
  { split; [simpl; by rewrite lookup_empty|by intros (? & ?%elem_of_nil)]. }
  rewrite fmap_snoc, NoDup_snoc in Hnd. destruct Hnd as [Hnd Hs]. specialize (IH Hnd).
  rewrite foldl_app. cbn [foldl NodeCorrelation.source NodeCorrelation.target] in *.
  setoid_rewrite elem_of_app. setoid_rewrite list_elem_of_singleton.
  destruct (decide (s = n)) as [->|Hne].
  - rewrite lookup_insert_eq. split.
    + intros [= ->]. eauto.
    + intros (j & [Hin|[= -> _]]); [|done]. destruct Hs. apply list_elem_of_fmap. by exists (NodeCorrelation.mk n t j).
  - rewrite lookup_insert_ne, IH by done. split.
    + intros (j & ?). eauto.
    + intros (j & [?|[= ? ? ?]]); [eauto|]. by subst.
Qed.

(** Where a node of the old baseline, or a planned output, is found. *)
Definition moved current next d (n n' : NodeId) : Prop :=
  if decide (n ∈ outputs d) then n' = n
  else ∃ i, correlated current.(HistoricalBaseline.snapshot) next.(HistoricalBaseline.snapshot)
              (NodeCorrelation.mk n n' i).

Record rebased current d next d' : Prop := {
  rb_new_baseline : current.(HistoricalBaseline.id) ≠ next.(HistoricalBaseline.id);
  rb_source : draft_wf current d;
  rb_target : draft_wf next d';
  rb_operations : Forall2 (λ o o', identity o' = identity o ∧
      same_kind o.(PlanOperation.request) o'.(PlanOperation.request) = true ∧
      Forall2 (moved current next d) (request_nodes o.(PlanOperation.request))
        (request_nodes o'.(PlanOperation.request)))
    d.(PlanDraft.operations) d'.(PlanDraft.operations);
  rb_protected : Forall2 (moved current next d)
    d.(PlanDraft.protected_scope).(ProtectedScope.nodes)
    d'.(PlanDraft.protected_scope).(ProtectedScope.nodes);
  rb_mounts : d'.(PlanDraft.protected_scope).(ProtectedScope.runtime_mounts) =
      d.(PlanDraft.protected_scope).(ProtectedScope.runtime_mounts) ∧
    d'.(PlanDraft.protected_scope).(ProtectedScope.persistent_mounts) =
      d.(PlanDraft.protected_scope).(ProtectedScope.persistent_mounts) }.

Lemma map_failure_returns {A E F} (f : E → F) (P : A → Prop) (r : result A (Failure E)) :
  returns P r → returns P (map_failure f r).
Proof. by destruct r as [|[]]. Qed.

Section rebase.
Context (json : Serializers).

Lemma build_empty b : returns (λ _, True) (build_preview json b PlanDraft.default).
Proof. eapply returns_mono; [apply build_preview_ok|done]. Qed.

Lemma remap_draft_ok current d next :
  returns (λ '(d', cs), rebased current d next d' ∧
      is_ok (build_preview json next PlanDraft.default) = true)
    (remap_draft json current d next).
Proof.
  unfold remap_draft. case_bool_decide as Hid; [done|].
  eapply returns_bind; [apply (returns_report (λ _, draft_wf current d))|].
  { intros [] Hv. apply validate_draft_iff. by destruct (validate_draft current d) as [[]|]. }
  intros [] Hwf. eapply returns_bind; [apply map_failure_returns, returns_eq, build_empty|].
  intros p0 [Hempty _]. eapply returns_bind; [by apply (returns_report (λ _, True))|]. intros [] _.
  eapply returns_bind; [by apply (returns_report (λ _, True))|]. intros [] _.
  eapply returns_bind; [apply map_failure_returns, correlate_nodes_returns|].
  intros cs (Hc & Hns & _ & Hsel). cbn zeta. set (m := correlation_map cs).
  eapply returns_bind; [apply (returns_report (λ _, draft_wf next (translate m d)))|].
  { intros [] Hv. apply validate_draft_iff. by destruct (validate_draft next (translate m d)) as [[]|]. }
  intros [] Hwf'. simpl. split; [|by rewrite Hempty].
  assert (∀ n, (∃ o, o ∈ d.(PlanDraft.operations) ∧ n ∈ request_nodes o.(PlanOperation.request)) ∨
    n ∈ d.(PlanDraft.protected_scope).(ProtectedScope.nodes) → moved current next d n (remap m n)) as Hmoved.
  { intros n Hn. unfold moved, remap. destruct (decide (n ∈ outputs d)) as [Hout|Hout].
    - destruct (m !! n) as [t|] eqn:Ht; [|done]. exfalso.
      apply correlation_map_lookup in Ht as [i Hin]; [|done].
      assert (n ∈ selected_nodes d) as [? _]%list_elem_of_filter; [|done].
      apply Hsel, list_elem_of_fmap. by exists (NodeCorrelation.mk n t i).
    - assert (n ∈ NodeCorrelation.source <$> cs) as ([n' t i] & -> & Hin)%list_elem_of_fmap.
      { apply Hsel, list_elem_of_filter. split; [done|]. rewrite elem_of_app, list_elem_of_bind.
        destruct Hn as [(o & Ho & Hn)|Hn]; [left; eauto|by right]. }
      simpl in *. assert (m !! n' = Some t) as -> by (apply correlation_map_lookup; eauto). exists i.
      rewrite Forall_forall in Hc. by apply Hc. }
  unfold translate in *. destruct (PlanDraft.protected_scope d) as [nodes runtime persistent] eqn:Hscope.
  split; cbn [PlanDraft.operations PlanDraft.protected_scope ProtectedScope.nodes
    ProtectedScope.runtime_mounts ProtectedScope.persistent_mounts]; rewrite ?Hscope; try done.
  - apply Forall2_fmap_r, Forall_Forall2_diag, Forall_forall. intros o Ho.
    split_and!; [apply identity_remap|apply same_kind_remap|]. simpl. rewrite request_nodes_remap.
    apply Forall2_fmap_r, Forall_Forall2_diag, Forall_forall. intros n Hn. apply Hmoved. eauto.
  - apply Forall2_fmap_r, Forall_Forall2_diag, Forall_forall. intros n Hn. apply Hmoved. auto.
Qed.

(** A review holds a rebased draft with its preview. *)
Record review_ok (review : RebasePreview) : Prop := {
  rv_rebased : rebased review.(RebasePreview.source).(DraftDocument.baseline)
    review.(RebasePreview.source).(DraftDocument.draft) review.(RebasePreview.baseline)
    review.(RebasePreview.draft);
  rv_preview : previews json review.(RebasePreview.baseline) review.(RebasePreview.draft)
    review.(RebasePreview.preview);
  rv_usable : is_ok (build_preview json review.(RebasePreview.baseline) PlanDraft.default) = true }.

Lemma prepare_rebase_ok s expected baseline :
  returns (λ review, review_ok review ∧ review.(RebasePreview.source) = draft_document s ∧
      review.(RebasePreview.baseline) = baseline) (prepare_rebase json s expected baseline).
Proof.
  unfold prepare_rebase. case_bool_decide; [done|]. cbn zeta.
  eapply returns_bind; [apply remap_draft_ok|]. intros [d cs] [Hr Hu].
  destruct (editable_preview_ok json RebaseError.Inputs baseline d) as (p & -> & Hp). done.
Qed.

(** What an accepted review publishes, and why one is refused. *)
Lemma accept_rebase_spec s expected review :
  match accept_rebase s expected review with
  | (s', Err e) => s' = s ∧ ∃ error, e = Reported error ∧
      (error = RebaseError.RevisionConflict expected s.(PlanSession.revision) ∧
         expected ≠ s.(PlanSession.revision) ∨
       error = RebaseError.RevisionConflict review.(RebasePreview.source).(DraftDocument.revision)
         s.(PlanSession.revision) ∧
         review.(RebasePreview.source).(DraftDocument.revision) ≠ s.(PlanSession.revision) ∨
       error = RebaseError.SourceContextChanged ∧
         (review.(RebasePreview.source).(DraftDocument.session_id) ≠ s.(PlanSession.id) ∨
          review.(RebasePreview.source).(DraftDocument.baseline) ≠ s.(PlanSession.baseline) ∨
          review.(RebasePreview.source).(DraftDocument.draft) ≠ s.(PlanSession.draft)) ∨
       error = RebaseError.RevisionExhausted ∧ (u64_MAX <= s.(PlanSession.revision))%N)
  | (s', Ok next) =>
      expected = s.(PlanSession.revision) ∧
      next = (s.(PlanSession.revision) + 1)%N ∧ (next <= u64_MAX)%N ∧
      DraftDocument.mk (review.(RebasePreview.source).(DraftDocument.schema_version))
        s.(PlanSession.id) s.(PlanSession.revision) s.(PlanSession.baseline) s.(PlanSession.draft) =
        review.(RebasePreview.source) ∧
      s' = PlanSession.mk s.(PlanSession.id) next review.(RebasePreview.baseline)
             review.(RebasePreview.draft) review.(RebasePreview.preview)
             s.(PlanSession.history_limit) [] []
  end.
Proof.
  unfold accept_rebase, DraftRevision_next, u64_checked_add. cbn zeta.
  destruct review as [[version sid rev b d] b' d' p' cs], s as [id r base draft prev lim undo redo].
  cbn. case_bool_decide as H1; [eauto 10|]. case_bool_decide as H2; [eauto 10|].
  destruct (_ || _) eqn:H3.
  - rewrite !orb_true_iff, !bool_decide_eq_true in H3. split; [done|].
    eexists. split; [done|]. right. right. left. tauto.
  - rewrite !orb_false_iff, !bool_decide_eq_false in H3. destruct H3 as [[H3 H4] H5].
    apply dec_stable in H3, H4, H5. subst.
    destruct (N.leb_spec (r + 1) u64_MAX); cbn [ok_or]; [done|].
    split; [done|]. eexists. split; [done|]. do 3 right. split; [done|lia].
Qed.

Lemma accept_rebase_ok s expected review :
  session_ok json s → review_ok review → session_ok json (accept_rebase s expected review).1.
Proof.
  intros Hok [[Hne Hsrc Hwf Hops _ _] Hp Hu]. pose proof (accept_rebase_spec s expected review) as Hs.
  destruct (accept_rebase _ _ _) as [s' [next|e]]; [|by destruct Hs as [-> _]].
  destruct Hs as (_ & _ & Hmax & Heq & ->). rewrite <-Heq in Hops. cbn [DraftDocument.draft] in Hops.
  unfold session_drafts. simpl. split; simpl; try done; try lia.
  - intros d ->%list_elem_of_singleton. simpl. rewrite <-(Forall2_length _ _ _ Hops).
    apply (so_bound _ _ Hok). left.
  - intros d ->%list_elem_of_singleton. destruct Hwf. by split.
  - by destruct Hwf.
  - apply (so_id _ _ Hok).
Qed.
End rebase.

(** ** Saved drafts *)

Section documents.
Context (codec : Codec) (json : Serializers).

Record document_ok (doc : DraftDocument) (text : string) : Prop := {
  do_version : (1 <= doc.(DraftDocument.schema_version) <= DRAFT_SCHEMA_VERSION)%N;
  do_requests o : o ∈ doc.(DraftDocument.draft).(PlanDraft.operations) →
    (required_version o.(PlanOperation.request) <= doc.(DraftDocument.schema_version))%N;
  do_session : is_nil doc.(DraftDocument.session_id) = false;
  do_bound : length doc.(DraftDocument.draft).(PlanDraft.operations) ≤ MAX_DRAFT_OPERATIONS;
  do_text : encode codec doc = Some text;
  do_size : String.length text ≤ MAX_DRAFT_JSON_BYTES;
  do_draft : draft_wf doc.(DraftDocument.baseline) doc.(DraftDocument.draft);
  do_usable : is_ok (build_preview json doc.(DraftDocument.baseline) PlanDraft.default) = true }.

Lemma supported_version_iff v : supported_version v = true ↔ (1 <= v <= DRAFT_SCHEMA_VERSION)%N.
Proof. unfold supported_version. rewrite andb_true_iff, !N.leb_le. done. Qed.

Lemma document_validate_iff doc :
  document_validate codec json doc = Ok tt ↔ ∃ text, document_ok doc text.
Proof.
  unfold document_validate. cbn zeta.
  destruct (supported_version _) eqn:Hv; cbn [negb].
  2:{ split; [done|]. intros (t & [H _ _ _ _ _ _ _]). apply supported_version_iff in H. congruence. }
  destruct (find_first _ _) as [o|] eqn:Hf.
  { apply find_first_Some in Hf as [Ho Hlt]. apply N.ltb_lt in Hlt. split; [done|].
    intros (t & [_ H _ _ _ _ _ _]). specialize (H o Ho). lia. }
  rewrite find_first_None in Hf. setoid_rewrite N.ltb_ge in Hf.
  destruct (is_nil _) eqn:Hn.
  { split; [done|]. intros (t & [_ _ H _ _ _ _ _]). congruence. }
  destruct (Nat.ltb_spec MAX_DRAFT_OPERATIONS
    (length doc.(DraftDocument.draft).(PlanDraft.operations))) as [Hl|Hl].
  { split; [done|]. intros (t & [_ _ _ H _ _ _ _]). lia. }
  destruct (encode codec doc) as [text|] eqn:He; cbn [ok_or].
  2:{ split; [done|]. intros (t & [_ _ _ _ H _ _ _]). congruence. }
  destruct (Nat.ltb_spec MAX_DRAFT_JSON_BYTES (String.length text)) as [Ht|Ht].
  { split; [done|]. intros (t & [_ _ _ _ H H' _ _]). assert (t = text) as -> by congruence. lia. }
  destruct (validate_draft _ _) as [[]|] eqn:Hd; cbn [report map_err].
  2:{ split; [done|]. intros (t & [_ _ _ _ _ _ H _]). apply validate_draft_iff in H. congruence. }
  apply validate_draft_iff in Hd. pose proof (build_empty json doc.(DraftDocument.baseline)) as Hb.
  destruct (build_preview json _ _) as [p|[]] eqn:Hp; try done.
  - split; [intros _|done]. exists text. split; try done; [by apply supported_version_iff|]. by rewrite Hp.
  - split; [done|]. intros (t & [_ _ _ _ _ _ _ H]). by rewrite Hp in H.
Qed.

Lemma from_document_ok doc s :
  (doc.(DraftDocument.revision) <= u64_MAX)%N →
  from_document codec json doc = Ok s → session_ok json s.
Proof.
  intros Hrev. unfold from_document. destruct (document_validate codec json doc) as [[]|] eqn:Hv; [|done].
  apply document_validate_iff in Hv as (t & [_ _ Hid Hb _ _ Hd Hu]).
  destruct (editable_preview_ok json DraftDocumentError.Inputs doc.(DraftDocument.baseline)
    doc.(DraftDocument.draft)) as (p & -> & Hp). intros <-%Ok_inj.
  unfold session_drafts. split; simpl; try done; try lia.
  - by intros d ->%list_elem_of_singleton.
  - intros d ->%list_elem_of_singleton. destruct Hd. by split.
  - by destruct Hd.
Qed.

Lemma required_version_max r : (required_version r <= DRAFT_SCHEMA_VERSION)%N.
Proof. destruct r; unfold DRAFT_SCHEMA_VERSION; simpl; lia. Qed.

(** A session without its history. *)
Definition resumed s : PlanSession :=
  PlanSession.mk s.(PlanSession.id) s.(PlanSession.revision) s.(PlanSession.baseline)
    s.(PlanSession.draft) s.(PlanSession.preview) DEFAULT_HISTORY_LIMIT [] [].

Lemma draft_document_resumes s text :
  session_ok json s → draft_wf s.(PlanSession.baseline) s.(PlanSession.draft) →
  encode codec (draft_document s) = Some text → String.length text ≤ MAX_DRAFT_JSON_BYTES →
  from_document codec json (draft_document s) = Ok (resumed s).
Proof.
  intros Hok Hwf He Hs. unfold from_document.
  assert (document_validate codec json (draft_document s) = Ok tt) as ->.
  { apply document_validate_iff. exists text. split; simpl; try done.
    - intros o _. apply required_version_max.
    - apply (so_id _ _ Hok).
    - apply (so_bound _ _ Hok). left.
    - apply (so_usable _ _ Hok). }
  destruct (editable_preview_ok json DraftDocumentError.Inputs s.(PlanSession.baseline)
    s.(PlanSession.draft)) as (p & Hep & Hp). simpl. rewrite Hep. unfold resumed. do 2 f_equal.
  by eapply previews_unique; [|apply (so_preview _ _ Hok)].
Qed.

(** What [serde_json] does: decoding an encoding gives the value back, and the
    untyped view has the fields of the value. *)
Record codec_faithful : Prop := {
  cf_decode doc text : encode codec doc = Some text → decode codec text = Some doc;
  cf_version doc text : encode codec doc = Some text →
    peek_version codec text = Some (Some doc.(DraftDocument.schema_version));
  cf_operations doc text : encode codec doc = Some text →
    peek_operations codec text = Some (length doc.(DraftDocument.draft).(PlanDraft.operations)) }.

Lemma json_roundtrip doc text :
  codec_faithful → to_json codec json doc = Ok text → from_json codec json text = Ok doc.
Proof.
  intros [Hd Hv Ho]. unfold to_json. destruct (document_validate codec json doc) as [[]|] eqn:Hval; [|done].
  destruct (encode codec doc) as [t|] eqn:He; [|done]. intros [= ->].
  pose proof (proj1 (document_validate_iff doc) Hval) as (t' & [H1 _ _ H4 H5 H6 _ _]).
  rewrite He in H5. injection H5 as <-. unfold from_json.
  rewrite (proj2 (Nat.ltb_ge _ _) H6), (Hv _ _ He). cbn [ok_or].
  apply supported_version_iff in H1. rewrite H1. rewrite (Ho _ _ He). cbn [is_some_and].
  rewrite (proj2 (Nat.ltb_ge _ _) H4), (Hd _ _ He). cbn [ok_or]. by rewrite Hval.
Qed.
End documents.
