(* ===== verification/History.v ===== *)
(** * The history of a session

    The sessions a program can reach, and the editor a session implements: an
    unbounded undo history of which the two stacks keep the newest drafts. *)

From stdpp Require Import relations.
From S2P Require Import Prelude Model Reach Graph GraphOrder GraphValid State Action Contract.
From S2P Require Import ContractProps Logical Evidence Prerequisites Effects Report PlanOrder.
From S2P Require Import Compose ComposeProps ComposeKeeps Simulate SimulateProps Wire Observation.
From S2P Require Import Correlate Draft Build BuildProps PreviewProps Session.
From S2P Require Import SessionProps.
From S2P Require Import Documents DocumentProps.

Implicit Types (d : PlanDraft) (s : PlanSession).

(** ** Reachable sessions *)

Inductive session_reachable (codec : Codec) (json : Serializers) : PlanSession → Prop :=
| reach_new new_id b s :
    is_nil new_id = false → session_new json new_id b = Ok s → session_reachable codec json s
| reach_open doc s :
    (doc.(DraftDocument.revision) <= u64_MAX)%N → from_document codec json doc = Ok s →
    session_reachable codec json s
| reach_edit s expected new_id new_node command :
    session_reachable codec json s →
    fresh_for s.(PlanSession.baseline) s.(PlanSession.draft) new_id new_node →
    session_reachable codec json (edit json s expected new_id new_node command).1
| reach_undo s expected :
    session_reachable codec json s → session_reachable codec json (session_undo json s expected).1
| reach_redo s expected :
    session_reachable codec json s → session_reachable codec json (session_redo json s expected).1
| reach_limit s limit : session_reachable codec json s → session_reachable codec json (set_history_limit s limit)
| reach_rebase s expected s0 expected0 baseline review :
    session_reachable codec json s → prepare_rebase json s0 expected0 baseline = Ok review →
    session_reachable codec json (accept_rebase s expected review).1.

Lemma reachable_ok codec json s : session_reachable codec json s → session_ok json s.
Proof.
  induction 1; eauto using session_new_ok, from_document_ok, edit_ok, session_undo_ok,
    session_redo_ok, set_history_limit_ok.
  apply accept_rebase_ok; [done|].
  match goal with H : prepare_rebase _ _ _ _ = Ok _ |- _ =>
    by destruct (returns_inv _ _ _ (prepare_rebase_ok _ _ _ _) H) end.
Qed.

(** ** The abstract editor *)

Module Editor.
Record Editor := mk { past : list PlanDraft; present : PlanDraft; future : list PlanDraft }.

Definition publish (d : PlanDraft) (e : Editor) : Editor := mk (e.(past) ++ [e.(present)]) d [].
Definition back (e : Editor) : option Editor :=
  match last e.(past) with
  | Some d => Some (mk (take (pred (length e.(past))) e.(past)) d (e.(future) ++ [e.(present)]))
  | None => None
  end.
Definition forward (e : Editor) : option Editor :=
  match last e.(future) with
  | Some d => Some (mk (e.(past) ++ [e.(present)]) d (take (pred (length e.(future))) e.(future)))
  | None => None
  end.
End Editor.
Abbreviation Editor := Editor.Editor.

(** A session shows an editor: its stacks are the newest part of the history. *)
Record shows s (e : Editor) : Prop := {
  sh_draft : s.(PlanSession.draft) = e.(Editor.present);
  sh_undo : s.(PlanSession.undo) `suffix_of` e.(Editor.past);
  sh_redo : s.(PlanSession.redo) `suffix_of` e.(Editor.future) }.

Lemma suffix_last {A} (l k : list A) a : last l = Some a → l `suffix_of` k → last k = Some a.
Proof. intros Hl [r ->]. by apply last_app_Some; left. Qed.

Section editor.
Context (json : Serializers).

Lemma edit_shows s e expected new_id new_node command s' receipt :
  session_ok json s → shows s e →
  edit json s expected new_id new_node command = (s', Ok receipt) →
  shows s' (Editor.publish s'.(PlanSession.draft) e).
Proof.
  intros Hok [Hd Hu Hr] He. pose proof (edit_spec json s expected new_id new_node command) as Hs.
  rewrite He in Hs. destruct Hs as (_ & _ & _ & Hu' & Hr'). split; simpl; [done| |].
  - rewrite Hu', <-Hd. apply push_history_suffix; [apply (so_undo _ _ Hok)|done].
  - rewrite Hr'. done.
Qed.

Lemma undo_shows s e expected s' next :
  session_ok json s → shows s e → session_undo json s expected = (s', Ok next) →
  ∃ e', Editor.back e = Some e' ∧ shows s' e'.
Proof.
  intros Hok [Hd Hu Hr] He. pose proof (session_undo_spec json s expected) as Hs.
  rewrite He in Hs. destruct Hs as (_ & _ & Hu' & Hr').
  assert (last s.(PlanSession.undo) = Some s'.(PlanSession.draft)) as Hl by (by rewrite Hu', last_snoc).
  unfold Editor.back. rewrite (suffix_last _ _ _ Hl Hu). eexists. split; [done|]. split; simpl; [done| |].
  - replace (PlanSession.undo s') with (take (pred (length s.(PlanSession.undo))) s.(PlanSession.undo)).
    { by eapply suffix_take_pred. }
    rewrite Hu', length_app. simpl. rewrite Nat.add_1_r. cbn [pred]. apply take_app_length.
  - rewrite Hr', <-Hd. apply push_history_suffix; [apply (so_redo _ _ Hok)|done].
Qed.

Lemma redo_shows s e expected s' next :
  session_ok json s → shows s e → session_redo json s expected = (s', Ok next) →
  ∃ e', Editor.forward e = Some e' ∧ shows s' e'.
Proof.
  intros Hok [Hd Hu Hr] He. pose proof (session_redo_spec json s expected) as Hs.
  rewrite He in Hs. destruct Hs as (_ & _ & Hr' & Hu').
  assert (last s.(PlanSession.redo) = Some s'.(PlanSession.draft)) as Hl by (by rewrite Hr', last_snoc).
  unfold Editor.forward. rewrite (suffix_last _ _ _ Hl Hr). eexists. split; [done|]. split; simpl; [done| |].
  - rewrite Hu', <-Hd. apply push_history_suffix; [apply (so_undo _ _ Hok)|done].
  - replace (PlanSession.redo s') with (take (pred (length s.(PlanSession.redo))) s.(PlanSession.redo)).
    { by eapply suffix_take_pred. }
    rewrite Hr', length_app. simpl. rewrite Nat.add_1_r. cbn [pred]. apply take_app_length.
Qed.

Lemma limit_shows s e limit : shows s e → shows (set_history_limit s limit) e.
Proof.
  destruct s. intros [Hd Hu Hr]. split; simpl in *; [done|..].
  - etrans; [apply suffix_drop|done].
  - etrans; [apply suffix_drop|done].
Qed.

(** ** Undoing a run of edits *)

(** Accepted edits, with the drafts they replaced. *)
Inductive edits : PlanSession → list PlanDraft → PlanSession → Prop :=
| edits_nil s : edits s [] s
| edits_cons s expected new_id new_node command s1 receipt ds s2 :
    edit json s expected new_id new_node command = (s1, Ok receipt) → edits s1 ds s2 →
    edits s (s.(PlanSession.draft) :: ds) s2.

Lemma push_history_within history older recent d limit :
  history = older ++ recent → length recent < limit →
  ∃ older', push_history history d limit = older' ++ recent ++ [d].
Proof.
  intros -> Hlt. unfold push_history. rewrite (proj2 (Nat.eqb_neq limit 0)) by lia.
  destruct (Nat.leb_spec limit (length (older ++ recent))) as [Hle|Hle].
  - destruct older as [|x older]; [simpl in *; lia|]. exists older. cbn. by rewrite drop_0, app_assoc.
  - exists older. by rewrite app_assoc.
Qed.

Lemma edits_history s ds s' older recent :
  edits s ds s' → s.(PlanSession.undo) = older ++ recent →
  length (recent ++ ds) ≤ s.(PlanSession.history_limit) →
  s'.(PlanSession.baseline) = s.(PlanSession.baseline) ∧
  (s'.(PlanSession.revision) = s.(PlanSession.revision) + N.of_nat (length ds))%N ∧
  ∃ older', s'.(PlanSession.undo) = older' ++ recent ++ ds.
Proof.
  intros Hrun. revert older recent.
  induction Hrun as [s|s expected new_id new_node command s1 receipt ds s2 He _ IH];
    intros older recent Hu Hlen.
  { rewrite app_nil_r. split_and!; [done|simpl; lia|eauto]. }
  pose proof (edit_spec json s expected new_id new_node command) as Hs. rewrite He in Hs.
  destruct Hs as (_ & [_ Hb Hlim Hrev [Hnext _] _] & _ & Hu1 & _).
  rewrite length_app in Hlen. simpl in Hlen.
  destruct (push_history_within _ older recent s.(PlanSession.draft) s.(PlanSession.history_limit) Hu)
    as [older' Hpush]; [lia|].
  destruct (IH older' (recent ++ [s.(PlanSession.draft)])) as (Hb2 & Hr2 & older2 & Hu2).
  { by rewrite Hu1. }
  { rewrite Hlim, !length_app. simpl. lia. }
  split_and!; [congruence|rewrite Hr2, Hrev, Hnext; simpl; lia|].
  exists older2. by rewrite Hu2, <-!app_assoc.
Qed.

(** [n] undos, each with the revision the last one returned. *)
Fixpoint undo_times (n : nat) s : PlanSession * editing unit :=
  match n with
  | 0 => (s, Ok tt)
  | S n =>
      match session_undo json s s.(PlanSession.revision) with
      | (s, Ok _) => undo_times n s
      | (s, Err e) => (s, Err e)
      end
  end.

Lemma undo_enabled s d older :
  (s.(PlanSession.revision) < u64_MAX)%N → s.(PlanSession.undo) = older ++ [d] →
  ∃ s', session_undo json s s.(PlanSession.revision) = (s', Ok (s.(PlanSession.revision) + 1)%N) ∧
    s'.(PlanSession.draft) = d ∧ s'.(PlanSession.undo) = older ∧
    s'.(PlanSession.revision) = (s.(PlanSession.revision) + 1)%N ∧
    s'.(PlanSession.baseline) = s.(PlanSession.baseline) ∧
    previews json s.(PlanSession.baseline) d s'.(PlanSession.preview).
Proof.
  intros Hrev Hu. pose proof (session_undo_spec json s s.(PlanSession.revision)) as Hs.
  destruct (session_undo json s _) as [s' [next|e]].
  - destruct Hs as (_ & [_ Hb _ Hr [Hn _] Hp] & Hu' & _). rewrite Hu in Hu'.
    apply app_inj_tail in Hu' as [-> ->]. exists s'. split_and!; try done; [by rewrite Hn|by rewrite Hr|].
    by rewrite <-Hb.
  - exfalso. destruct Hs as (_ & error & _ & [[? _]|[(_ & ? & _)|(_ & He & _)]]); [done|lia|].
    rewrite Hu in He. by apply app_nil in He as [_ ?].
Qed.

Lemma undo_times_spec n s older d ds :
  length (d :: ds) = n → s.(PlanSession.undo) = older ++ d :: ds →
  (s.(PlanSession.revision) + N.of_nat n <= u64_MAX)%N →
  ∃ s', undo_times n s = (s', Ok tt) ∧ s'.(PlanSession.draft) = d ∧ s'.(PlanSession.undo) = older ∧
    s'.(PlanSession.baseline) = s.(PlanSession.baseline) ∧
    previews json s.(PlanSession.baseline) d s'.(PlanSession.preview).
Proof.
  revert s ds. induction n as [|n IH]; intros s ds Hlen Hu Hrev; [done|]. simpl.
  destruct ds as [|x ds _] using rev_ind.
  - destruct (undo_enabled s d older) as (s' & -> & Hd & Hu' & _ & Hb & Hp); [lia|done|].
    simpl in Hlen. injection Hlen as <-. exists s'. by split_and!.
  - destruct (undo_enabled s x (older ++ d :: ds)) as (s' & -> & _ & Hu' & Hr & Hb & _);
      [lia|by rewrite Hu, <-app_assoc|].
    destruct (IH s' ds) as (s2 & H2 & ? & ? & Hb2 & Hp); [|done|lia|].
    { simpl in *. rewrite length_app in Hlen. simpl in Hlen. lia. }
    exists s2. split_and!; try done; [congruence|by rewrite <-Hb].
Qed.
End editor.

(** ** Theorems *)

(** C6: In every session that a program can reach, whatever commands it has issued,
    the preview is the build of the current draft, both history stacks respect
    the limit, no draft has more than 256 operations, every draft of the session
    (current, undone or to be redone) has usable, unique identities, and the
    revision has not wrapped. *)
Theorem session_invariant codec json s : session_reachable codec json s → session_ok json s.
Proof. apply reachable_ok. Qed.

(** The outcome of a command: refused for one of [reasons] and no change, or
    published once over [baseline] under the next revision. *)
Definition session_atomic {A E} (json : Serializers) (baseline : HistoricalBaseline) (reasons : E → Prop)
    s expected (r : PlanSession * result A (Failure E)) : Prop :=
  match r with
  | (s', Ok _) => expected = s.(PlanSession.revision) ∧
      s'.(PlanSession.revision) = (s.(PlanSession.revision) + 1)%N ∧
      (s'.(PlanSession.revision) <= u64_MAX)%N ∧
      s'.(PlanSession.id) = s.(PlanSession.id) ∧
      s'.(PlanSession.baseline) = baseline ∧
      previews json s'.(PlanSession.baseline) s'.(PlanSession.draft) s'.(PlanSession.preview)
  | (s', Err (Reported error)) => s' = s ∧ reasons error
  | (_, Err Panicked) | (_, Err OutOfFuel) => False
  end.

(** What may be reported: an edit is never refused for an internal reason, and a
    rebase only for the revision or the context it was prepared in. *)
Definition editable (e : EditError) : Prop := ∀ cause, e ≠ EditError.InternalBuild cause.
Definition rebasable s (e : RebaseError) : Prop :=
  (∃ expected, e = RebaseError.RevisionConflict expected s.(PlanSession.revision) ∧
     expected ≠ s.(PlanSession.revision)) ∨
  e = RebaseError.SourceContextChanged ∨
  e = RebaseError.RevisionExhausted ∧ (u64_MAX <= s.(PlanSession.revision))%N.

Lemma edit_atomic json s expected new_id new_node command :
  session_atomic json s.(PlanSession.baseline) editable s expected (edit json s expected new_id new_node command).
Proof.
  pose proof (edit_spec json s expected new_id new_node command) as Hs. unfold session_atomic.
  destruct (edit _ _ _ _ _ _) as [s' [receipt|e]].
  - destruct Hs as (-> & [Hi Hb _ Hr [Hn Hm] Hp] & _). rewrite Hr. by split_and!.
  - destruct Hs as (-> & error & -> & ?). done.
Qed.

Lemma refused_external s expected from empty e :
  editable empty → refused s expected from empty e → editable e.
Proof. intros Hne [[_ ->]|[(_ & _ & ->)|(_ & _ & ->)]]; done. Qed.

Lemma edit_request_atomic json s expected operation new_id new_node change otherwise :
  editable otherwise →
  session_atomic json s.(PlanSession.baseline) editable s expected (edit_request json s expected operation new_id new_node change otherwise).
Proof.
  intros Hother. unfold edit_request. pose proof (check_revision_spec s expected) as Hrev.
  destruct (check_revision s expected) as [next|e].
  2:{ by destruct Hrev as [[_ ->]|(_ & _ & ->)]. }
  pose proof (operation_index_spec s.(PlanSession.draft) operation) as Hi.
  destruct (operation_index _ operation) as [i|e]; [|by destruct Hi as [_ ->]].
  destruct Hi as (o & Ho & _). unfold index. rewrite Ho. cbn [ok_or].
  destruct (change _) as [r|]; cbn [ok_or]; [apply edit_atomic|done].
Qed.

(** A review that was prepared by any session, now or earlier. *)
Lemma accept_rebase_atomic json s expected s0 expected0 baseline review :
  prepare_rebase json s0 expected0 baseline = Ok review →
  session_atomic json baseline (rebasable s) s expected (accept_rebase s expected review).
Proof.
  intros Hp. eapply returns_inv in Hp; [|apply prepare_rebase_ok].
  destruct Hp as ([_ Hv _] & _ & <-). pose proof (accept_rebase_spec json s expected review) as Hs.
  unfold session_atomic. destruct (accept_rebase _ _ _) as [s' [next|e]].
  - destruct Hs as (-> & -> & Hm & _ & ->). by split_and!.
  - destruct Hs as (-> & error & -> & Hr). split; [done|]. unfold rebasable. naive_solver.
Qed.

Lemma session_undo_atomic json s expected :
  session_atomic json s.(PlanSession.baseline) editable s expected (session_undo json s expected).
Proof.
  pose proof (session_undo_spec json s expected) as Hs. unfold session_atomic.
  destruct (session_undo _ _ _) as [s' [next|e]].
  - destruct Hs as (-> & [Hi Hb _ Hr [Hn Hm] Hp] & _). rewrite Hr. by split_and!.
  - destruct Hs as (-> & error & -> & Href). split; [done|]. eapply refused_external; [|exact Href]. by intros cause [=].
Qed.
Lemma session_redo_atomic json s expected :
  session_atomic json s.(PlanSession.baseline) editable s expected (session_redo json s expected).
Proof.
  pose proof (session_redo_spec json s expected) as Hs. unfold session_atomic.
  destruct (session_redo _ _ _) as [s' [next|e]].
  - destruct Hs as (-> & [Hi Hb _ Hr [Hn Hm] Hp] & _). rewrite Hr. by split_and!.
  - destruct Hs as (-> & error & -> & Href). split; [done|]. eapply refused_external; [|exact Href]. by intros cause [=].
Qed.

(** C7: Every command of a session that takes a revision is atomic: edits, undo,
    redo, the three setters, and the acceptance of a rebase, whatever session
    prepared it.  A refused one reports its reason and changes nothing; an
    accepted one was issued for the current revision, advances it by one without
    overflow, keeps the identity of the session and publishes the draft together
    with its own preview, over the same baseline or, for a rebase, over the
    reviewed one.  No command panics, no edit is refused for an internal reason,
    and a rebase is refused only for its revision or its context. *)
Theorem session_commands_atomic json s expected operation new_id new_node command offset size :
  let atomic {A} := session_atomic (A := A) json s.(PlanSession.baseline) editable s expected in
  atomic (edit json s expected new_id new_node command) ∧
  atomic (session_undo json s expected) ∧
  atomic (session_redo json s expected) ∧
  atomic (set_created_lv_size json s expected operation new_id new_node size) ∧
  atomic (set_created_partition_extent json s expected operation new_id new_node offset size) ∧
  atomic (set_resize_size json s expected operation new_id new_node size) ∧
  ∀ s0 expected0 baseline review, prepare_rebase json s0 expected0 baseline = Ok review →
    session_atomic json baseline (rebasable s) s expected (accept_rebase s expected review).
Proof.
  split_and!; [apply edit_atomic|apply session_undo_atomic|apply session_redo_atomic
              |by apply edit_request_atomic..|]. intros. by eapply accept_rebase_atomic.
Qed.

(** C5: A session implements the unbounded editor: every accepted edit, undo or redo is
    the same step of an editor that forgets nothing, the session always shows
    the editor's present draft and the newest part of its history, and changing
    the history limit is invisible in the editor. *)
Theorem session_refines_editor json s e :
  session_ok json s → shows s e →
  (∀ expected new_id new_node command s' receipt,
     edit json s expected new_id new_node command = (s', Ok receipt) →
     shows s' (Editor.publish s'.(PlanSession.draft) e)) ∧
  (∀ expected s' next, session_undo json s expected = (s', Ok next) →
     ∃ e', Editor.back e = Some e' ∧ shows s' e') ∧
  (∀ expected s' next, session_redo json s expected = (s', Ok next) →
     ∃ e', Editor.forward e = Some e' ∧ shows s' e') ∧
  (∀ limit, shows (set_history_limit s limit) e).
Proof. intros Hok Hs. split_and!; eauto using edit_shows, undo_shows, redo_shows, limit_shows. Qed.

(** As many accepted edits as the history limit allows can be taken back: the same
    number of undos succeeds and restores the draft and its preview. *)
Theorem edits_undone json s ds s' :
  session_ok json s → edits json s ds s' → length ds ≤ s.(PlanSession.history_limit) →
  (s.(PlanSession.revision) + 2 * N.of_nat (length ds) <= u64_MAX)%N →
  ∃ s2, undo_times json (length ds) s' = (s2, Ok tt) ∧
    s2.(PlanSession.draft) = s.(PlanSession.draft) ∧
    s2.(PlanSession.preview) = s.(PlanSession.preview).
Proof.
  intros Hok Hrun Hlen Hrev.
  destruct (edits_history json s ds s' s.(PlanSession.undo) []) as (Hb & Hr & older & Hu);
    [done|by rewrite app_nil_r|done|].
  destruct Hrun as [s|s expected new_id new_node command s1 receipt ds s2 He Hrun]; [by exists s|].
  destruct (undo_times_spec json (length (s.(PlanSession.draft) :: ds)) s2 older s.(PlanSession.draft) ds)
    as (s3 & H3 & Hd & _ & _ & Hp); [done|done|lia|].
  exists s3. split_and!; [done..|]. rewrite Hb in Hp.
  by eapply previews_unique; [|apply (so_preview _ _ Hok)].
Qed.

(** What each command does to a draft, and that it is refused otherwise: additions
    append below the limit, replacements keep identity and kind, removals take
    selected operations whose dependents are all selected, moves place one
    operation directly before another and keep the order of the rest. *)
Theorem apply_edit_effect new_id new_node d command d' added :
  apply_edit new_id new_node d command = Ok (d', added) ↔ edited new_id new_node d command d' added.
Proof.
  split; [|apply apply_edit_complete]. intros He.
  exact (returns_inv _ _ _ (apply_edit_spec new_id new_node d command) He).
Qed.

(** [removal_impact] names, in draft order, exactly the selected operations and
    those that depend on them, however indirectly; its loop always ends. *)
Theorem removal_impact_spec d (operations : list OperationId) :
  (∀ x, x ∈ operations → x ∈ operation_ids d) →
  ∃ impact, removal_impact d operations = Ok impact ∧ impact `sublist_of` operation_ids d ∧
    ∀ x, x ∈ impact ↔ x ∈ operation_ids d ∧ dependent d operations x.
Proof.
  intros Hk. destruct (removal_impact_ok d operations Hk) as (affected & Haff & ->).
  eexists. split; [done|]. split; [apply fmap_sublist, sublist_filter|].
  intros x. unfold operation_ids. rewrite !list_elem_of_fmap. setoid_rewrite list_elem_of_filter.
  setoid_rewrite Haff. split.
  - intros (o & -> & ? & ?). eauto.
  - intros [(o & -> & ?) ?]. eauto.
Qed.

(** A removal that is accepted leaves a draft whose inputs all still resolve. *)
Theorem removal_keeps_inputs baseline d xs d' :
  draft_wf baseline d → remove_operations d xs = Ok d' → draft_wf baseline d'.
Proof. apply remove_operations_wf. Qed.

(** C38: A prepared rebase keeps every operation with its identity, kind and planned
    output, moves every input and protected node to the node of the new baseline
    that is the same durable object, and is a valid draft there.  A session [t]
    accepts it exactly when the command names the revision of [t], that revision
    can advance, and [t] has the identity, the revision, the baseline and the
    draft of the session it was prepared in; it then publishes exactly that draft
    over the new baseline and starts a new history.  Otherwise it is refused and
    changes nothing. *)
Theorem rebase_sound json s expected baseline review :
  prepare_rebase json s expected baseline = Ok review →
  rebased s.(PlanSession.baseline) s.(PlanSession.draft) baseline review.(RebasePreview.draft) ∧
  previews json baseline review.(RebasePreview.draft) review.(RebasePreview.preview) ∧
  ∀ t expected',
    let accepted := expected' = t.(PlanSession.revision) ∧ (t.(PlanSession.revision) < u64_MAX)%N ∧
      t.(PlanSession.id) = s.(PlanSession.id) ∧ t.(PlanSession.revision) = s.(PlanSession.revision) ∧
      t.(PlanSession.baseline) = s.(PlanSession.baseline) ∧ t.(PlanSession.draft) = s.(PlanSession.draft) in
    (accepted ∧
     accept_rebase t expected' review =
       (PlanSession.mk t.(PlanSession.id) (t.(PlanSession.revision) + 1)%N baseline
          review.(RebasePreview.draft) review.(RebasePreview.preview) t.(PlanSession.history_limit) [] [],
        Ok (t.(PlanSession.revision) + 1)%N)) ∨
    (¬ accepted ∧ ∃ error, accept_rebase t expected' review = (t, Err (Reported error))).
Proof.
  intros Hp. eapply returns_inv in Hp; [|apply prepare_rebase_ok].
  destruct Hp as ([Hr Hv _] & Hsrc & <-). rewrite Hsrc in Hr. split_and!; [done..|]. intros t expected' accepted.
  pose proof (accept_rebase_spec json t expected' review) as Hs. rewrite Hsrc in Hs.
  destruct (accept_rebase t expected' review) as [t' [next|e]].
  - left. destruct Hs as (He & -> & Hm & [= Hid Hrev Hb Hd] & ->). subst accepted. split; [|done].
    split_and!; try done. lia.
  - right. destruct Hs as (-> & error & -> & Hs). split; [|by eexists]. subst accepted. simpl in Hs.
    intros (? & ? & ? & ? & ? & ?). destruct Hs as [[_ ?]|[[_ ?]|[[_ [?|[?|?]]]|[_ ?]]]]; try congruence. lia.
Qed.

(** A review is accepted only in the context it was prepared in: once a command has
    advanced the session, accepting it is refused and changes nothing. *)
Theorem stale_review_refused json s expected baseline review s' expected' :
  prepare_rebase json s expected baseline = Ok review →
  s'.(PlanSession.revision) ≠ s.(PlanSession.revision) →
  ∃ error, accept_rebase s' expected' review = (s', Err (Reported error)).
Proof.
  intros Hp Hne. eapply returns_inv in Hp; [|apply prepare_rebase_ok].
  destruct Hp as (_ & Hsrc & _). pose proof (accept_rebase_spec json s' expected' review) as Hs.
  destruct (accept_rebase s' expected' review) as [s2 [next|e]].
  - destruct Hs as (_ & _ & _ & Heq & _). rewrite Hsrc in Heq. destruct Hne. exact (f_equal DraftDocument.revision Heq).
  - destruct Hs as (-> & error & -> & _). eauto.
Qed.

(** C39: Saving and opening: a saved draft that passes validation decodes to itself, and
    opening the document of a session gives the session back, preview included,
    with an empty history. *)
Theorem session_document_roundtrip codec json s text :
  codec_faithful codec → session_ok json s →
  to_json codec json (draft_document s) = Ok text →
  from_json codec json text = Ok (draft_document s) ∧
  from_document codec json (draft_document s) = Ok (resumed s).
Proof.
  intros Hc Hok Ht. split; [by apply json_roundtrip|]. unfold to_json in Ht.
  destruct (document_validate codec json (draft_document s)) as [[]|] eqn:Hv; [|done].
  apply document_validate_iff in Hv as (t & [_ _ _ _ He Hs Hd _]).
  by eapply draft_document_resumes.
Qed.
