(* ===== verification/Freeze.v ===== *)
(** * Freezing a reviewed plan

    A preview that is complete or conditional passes every check that the
    captured plan document goes through: [freeze] fails only for a stale
    revision or a preview without a usable plan. *)

From stdpp Require Import relations.
From S2P Require Import Prelude Model Reach Graph GraphOrder GraphValid State Action Contract.
From S2P Require Import ContractProps Logical Evidence Prerequisites Effects Report PlanOrder.
From S2P Require Import Compose ComposeProps ComposeKeeps Simulate SimulateProps Wire Observation.
From S2P Require Import Correlate Draft Build BuildProps PreviewProps Session.
From S2P Require Import SessionProps.
From S2P Require Import Documents DocumentProps Execution.

Implicit Types (plan : ExecutionPlan) (ds : list ActionDependency).

(** ** A prediction meets itself as the goal *)

Lemma topology_matches_refl g : topology_matches g g = true.
Proof.
  unfold topology_matches. rewrite !Nat.eqb_refl, !andb_true_l, !andb_true_r, !andb_true_iff.
  split_and!; [apply forallb_elem..].
  - intros [id n] Hn%elem_of_map_to_list. unfold kind_of, Graph.node. rewrite Hn. simpl.
    by apply bool_decide_eq_true.
  - intros d Hd. by apply contains_true.
  - intros r Hr. by apply contains_true.
Qed.

Lemma compare_graph_refl g : compare_graph g g = GoalStatus.Satisfied.
Proof.
  unfold compare_graph. rewrite topology_matches_refl. cbn [negb].
  replace (try_fold _ false _) with (Ok (E:=GoalStatus) false); [done|]. symmetry.
  destruct (try_fold_total (compare_size g) (λ _ r, r = false) false (map_to_list g.(NodeGraph.nodes)))
    as (r & Hr & ->); [done| |done].
  intros pre [id n] post r Heq ->. exists false. split; [|done]. unfold compare_size. cbn [fst snd].
  destruct (NodeSpec.size (Node.kind n)) as [size|] eqn:Hs; [|done].
  assert ((id, n) ∈ map_to_list g.(NodeGraph.nodes)) as Hn%elem_of_map_to_list
    by (rewrite Heq; apply elem_of_mid).
  unfold known_size, Graph.node. rewrite Hn, Hs. by destruct (decide _).
Qed.

Lemma mount_present_elem mounts m : m ∈ mounts → mount_present mounts m = true.
Proof.
  intros Hm. apply existsb_elem. exists m. split; [done|]. by rewrite !bool_decide_eq_true_2.
Qed.

Lemma compare_goal_refl desired evidence :
  find_first goal_violated (compare_goal desired evidence desired) = None.
Proof.
  apply find_first_None. intros c. unfold compare_goal.
  rewrite !elem_of_app, !list_elem_of_singleton, !list_elem_of_fmap.
  intros [->|[(m & -> & Hm)|[(m & -> & Hm)| ->]]]; unfold goal_violated; cbn [GoalCheck.status].
  - by rewrite compare_graph_refl.
  - unfold runtime_mount_check. by rewrite mount_present_elem.
  - unfold persistent_mount_check. by rewrite mount_present_elem.
  - by destruct (DesiredState.boot desired).
Qed.

(** ** The structural checks of the document *)

Lemma check_document_actions_pass plan :
  provenance_ok plan →
  (∀ i a, plan.(ExecutionPlan.actions) !! i = Some a → a.(PlannedAction.id) = i) →
  ∃ r, try_fold check_document_action (∅, ∅) (enumerate plan.(ExecutionPlan.actions)) = Ok r.
Proof.
  intros [Hnd Hor] Hpos. set (actions := plan.(ExecutionPlan.actions)) in *.
  destruct (try_fold_total check_document_action (λ pre '(seen, origins),
    (∀ k, k ∈ seen ↔ k ∈ (λ a, (a.(PlannedAction.fragment), a.(PlannedAction.local_id))) <$> pre.*2) ∧
    (∀ fi origin, origins !! fi = Some origin →
       ∃ a, a ∈ pre.*2 ∧ a.(PlannedAction.fragment) = fi ∧ a.(PlannedAction.origin) = origin))
    (∅, ∅) (enumerate actions)) as (r & Hr & _); [| |by exists r].
  { split; [set_solver|]. intros fi origin. by rewrite lookup_empty. }
  intros pre [i a] post [seen origins] Heq [Hseen Horigins].
  assert (enumerate actions !! length pre = Some (i, a)) as Hi by (by rewrite Heq, list_lookup_middle).
  apply enumerate_lookup in Hi as [Ha Hi]. cbn [fst snd] in Ha, Hi. subst i.
  assert ((enumerate actions).*2 = actions) as Hsnd.
  { unfold enumerate. rewrite fmap_imap. apply list_eq. intros k. rewrite list_lookup_imap.
    by destruct (actions !! k). }
  assert (actions = pre.*2 ++ a :: post.*2) as Hsplit by (rewrite <-Hsnd, Heq; by rewrite fmap_app).
  unfold check_document_action. cbn zeta. rewrite (Hpos _ _ Ha), Nat.eqb_refl. cbn [negb].
  rewrite bool_decide_eq_false_2.
  2:{ rewrite Hseen. rewrite Hsplit, fmap_app, NoDup_app in Hnd. destruct Hnd as (_ & Hnd & _).
      intros Hin. apply (Hnd _ Hin). left. }
  assert (is_some_and (λ origin, negb (bool_decide (origin = a.(PlannedAction.origin))))
    (origins !! a.(PlannedAction.fragment)) = false) as ->.
  { destruct (origins !! _) as [origin|] eqn:Ho; [|done]. simpl.
    apply Horigins in Ho as (b & Hb & Hf & <-). apply negb_false_iff, bool_decide_eq_true.
    apply Hor; [rewrite Hsplit; apply elem_of_app; by left| |done].
    by eapply list_elem_of_lookup_2. }
  eexists. split; [done|]. rewrite fmap_snoc. split.
  - intros k. rewrite fmap_snoc, elem_of_union, elem_of_singleton, elem_of_app,
      list_elem_of_singleton, Hseen. tauto.
  - intros fi origin. destruct (decide (a.(PlannedAction.fragment) = fi)) as [<-|Hne].
    + rewrite lookup_insert_eq. intros [= <-]. exists a. split; [|done]. apply elem_of_app. right. left.
    + rewrite lookup_insert_ne by done. intros (b & Hb & ?)%Horigins. exists b.
      split; [|done]. apply elem_of_app. by left.
Qed.

Lemma check_document_edges_pass n ds :
  deps_ok n ds → acyclic (action_edges ds) →
  ∃ r, try_fold (check_document_edge n) ∅ ds = Ok r.
Proof.
  intros [Hr Hnd] Hac.
  destruct (try_fold_total (check_document_edge n) (λ pre s, ∀ k, k ∈ s ↔ k ∈ action_edges pre) ∅ ds)
    as (r & Hf & _); [set_solver| |by exists r].
  intros pre d post s Heq Hs. unfold check_document_edge. cbn zeta.
  assert (d ∈ ds) as Hd by (rewrite Heq; apply elem_of_mid). pose proof (Hr d Hd) as [Hb Ha].
  rewrite !(proj2 (Nat.leb_gt _ _)) by done.
  assert ((d.(ActionDependency.before) =? d.(ActionDependency.after)) = false) as ->.
  { apply Nat.eqb_neq. intros He. apply (Hac d.(ActionDependency.before)). apply tc_once.
    rewrite He at 2. apply elem_of_action_edges. eauto. }
  rewrite bool_decide_eq_false_2.
  2:{ rewrite Hs. unfold action_edges in *. rewrite Heq, fmap_app, NoDup_app in Hnd.
      destruct Hnd as (_ & Hnd & _). intros Hin. apply (Hnd _ Hin). left. }
  eexists. split; [done|]. intros k. unfold action_edges in *.
  rewrite fmap_snoc, elem_of_union, elem_of_singleton, elem_of_app, list_elem_of_singleton, Hs. tauto.
Qed.

(** ** Resources *)

Lemma find_map_Some {A B} (f : A → option B) l y :
  find_map f l = Some y → ∃ x, x ∈ l ∧ f x = Some y.
Proof.
  induction l as [|x l IH]; simpl; [done|]. destruct (f x) as [z|] eqn:Hf.
  - intros [= ->]. exists x. split; [left|done].
  - intros (z & ? & ?)%IH. exists z. split; [by right|done].
Qed.

Lemma conflicting_resource_Some c c' r : conflicting_resource c c' = Some r → conflict c c'.
Proof.
  unfold conflicting_resource. intros (l & Hl & Hf)%find_map_Some.
  apply find_map_Some in Hf as (l' & Hl' & Hac). destruct (accesses_conflict l l') eqn:Hc; [|done].
  unfold accesses_conflict, is_write in Hc.
  rewrite andb_true_iff, orb_true_iff, !bool_decide_eq_true in Hc. destruct Hc. exists l, l'. done.
Qed.

(** Ordered conflicts pass the check. *)
Lemma validate_resource_order_pass (contracts : gmap ActionId ActionContract) ds :
  (∀ i j ci cj, i ≠ j → contracts !! i = Some ci → contracts !! j = Some cj →
     conflict ci cj → related ds i j) →
  validate_resource_order contracts ds = Ok tt.
Proof.
  intros Hrel. unfold validate_resource_order.
  assert (∀ i, i ∈ sort_by Nat.leb (map_to_list contracts).*1 → is_Some (contracts !! i)) as Hin.
  { intros i. rewrite sort_by_perm, list_elem_of_fmap.
    intros ([j c] & -> & Hj%elem_of_map_to_list). simpl. eauto. }
  assert (NoDup (sort_by Nat.leb (map_to_list contracts).*1)) as Hnd.
  { rewrite sort_by_perm. apply NoDup_fst_map_to_list. }
  revert Hin Hnd. generalize (sort_by Nat.leb (map_to_list contracts).*1) as l.
  induction l as [|i l IH]; intros Hin Hnd; simpl; [done|]. apply NoDup_cons in Hnd as [Hi Hnd].
  rewrite (proj2 (try_all_ok _ _)); [apply IH; [|done]; intros; apply Hin; by right|].
  intros j Hj. destruct (Hin i ltac:(left)) as [ci Hci]. destruct (Hin j ltac:(by right)) as [cj Hcj].
  unfold validate_resource_pair. rewrite Hci, Hcj. cbn [ok_or].
  destruct (conflicting_resource ci cj) as [r|] eqn:Hc; [|done].
  apply conflicting_resource_Some in Hc.
  destruct (Hrel i j ci cj) as [Ht|Ht]; [by intros ->|done..| |];
    apply dependency_path_tc in Ht; rewrite Ht; [done|]. by rewrite andb_false_r.
Qed.

Lemma plan_contracts_in plan i c :
  (∀ i a, plan.(ExecutionPlan.actions) !! i = Some a → a.(PlannedAction.id) = i) →
  plan_contracts plan !! i = Some c →
  ∃ a, a ∈ plan.(ExecutionPlan.actions) ∧ a.(PlannedAction.id) = i ∧
    a.(PlannedAction.informational_contract) = c.
Proof.
  intros _. unfold plan_contracts. induction (ExecutionPlan.actions plan) as [|a l IH] using rev_ind.
  { simpl. by rewrite lookup_empty. }
  rewrite foldl_app. cbn [foldl]. destruct (decide (a.(PlannedAction.id) = i)) as [<-|Hne].
  - rewrite lookup_insert_eq. intros [= <-]. exists a. split; [|done]. apply elem_of_app. right. left.
  - rewrite lookup_insert_ne by done. intros (b & Hb & ?)%IH. exists b. split; [|done].
    apply elem_of_app. by left.
Qed.

(** ** The document of a sound preview *)

Section freeze.
Context (display : GraphError → string) (json : Serializers) (baseline : HistoricalBaseline)
  (draft : PlanDraft) (preview : PlanPreview).
Hypothesis Hsound : preview_sound json baseline draft preview.

Local Abbreviation plan := preview.(PlanPreview.plan).
Local Abbreviation snapshot := baseline.(HistoricalBaseline.snapshot).
Local Abbreviation capacity := baseline.(HistoricalBaseline.capacity_evidence).
Local Abbreviation desired :=
  preview.(PlanPreview.report).(SimulationReport.simulation).(SimulationResult.desired).

(** What the analysis of the preview went through. *)
Lemma sound_analysis :
  ∃ result ordered violations, (∀ json', replay_plan json' snapshot plan capacity = Ok (plan, result)) ∧
    structure_wf result.(SimulationResult.desired).(DesiredState.graph) ∧
    desired = set_intents (omap operation_intent draft.(PlanDraft.operations))
                result.(SimulationResult.desired) ∧
    preview.(PlanPreview.report) = SimulationReport.mk
      (SimulationResult.mk desired result.(SimulationResult.evidence) result.(SimulationResult.steps)) []
      (intent_coverage_of ordered <$> enumerate (omap operation_intent draft.(PlanDraft.operations)))
      (concat (step_obligations <$> result.(SimulationResult.steps))) violations.
Proof using Hsound.
  destruct (composed_replays _ _ _ (ps_composed _ _ _ _ Hsound)) as (result & Hr & Hwf).
  pose proof (ps_analysis _ _ _ _ Hsound) as Ha. unfold analyse_plan, simulate_plan_with_evidence in Ha.
  destruct (validate_protected_scope _); [|done]. cbn [report map_err] in Ha.
  destruct (try_all _ _); [|done]. cbn [report map_err] in Ha. rewrite Hr in Ha.
  destruct result as [des ev steps].
  destruct (check_protected_scope _ _ _) as [violations|]; [|done].
  destruct (ordered_actions _) as [ordered|]; [|done]. apply Ok_inj in Ha.
  exists (SimulationResult.mk des ev steps), ordered, violations. rewrite <-Ha. done.
Qed.

Lemma set_intents_graph intents des : (set_intents intents des).(DesiredState.graph) = des.(DesiredState.graph).
Proof. by destruct des. Qed.
Lemma set_intents_intents intents des : (set_intents intents des).(DesiredState.intents) = intents.
Proof. by destruct des. Qed.

Definition frozen_document (plan_id : Uuid) : PlanDocument :=
  PlanDocument.mk PLAN_SCHEMA_VERSION ACTION_SEMANTICS_VERSION plan_id baseline desired
    draft.(PlanDraft.protected_scope) plan.(ExecutionPlan.actions) plan.(ExecutionPlan.dependencies).

Lemma sort_plan_actions :
  (∀ i a, plan.(ExecutionPlan.actions) !! i = Some a → a.(PlannedAction.id) = i) →
  sort_by_id plan.(ExecutionPlan.actions) = plan.(ExecutionPlan.actions).
Proof. intros Hpos. by apply sort_positional. Qed.

Lemma structural_plan_pass plan_id : structural_plan display (frozen_document plan_id) = Ok plan.
Proof using Hsound.
  pose proof (ps_composed _ _ _ _ Hsound) as Hc. pose proof (comp_wf _ _ _ Hc) as Hwf.
  pose proof (wf_structured _ Hwf) as [Hpos Hn Hds Hac].
  destruct sound_analysis as (result & ordered & viol & _ & Hg & Hd & _).
  unfold structural_plan, frozen_document.
  cbn [PlanDocument.baseline PlanDocument.requested_goal PlanDocument.actions PlanDocument.dependencies].
  unfold try_all. cbn [try_fold].
  assert (validate_structure snapshot.(CurrentState.graph) = Ok tt) as ->
    by (apply validate_structure_iff; by destruct Hc).
  cbn [map_err].
  assert (validate_structure desired.(DesiredState.graph) = Ok tt) as ->.
  { apply validate_structure_iff. by rewrite Hd, set_intents_graph. }
  cbn [map_err report]. rewrite sort_plan_actions by done.
  destruct (check_document_actions_pass _ (ps_provenance _ _ _ _ Hsound) Hpos) as [r ->].
  cbn [map_err report].
  destruct (check_document_edges_pass _ _ Hds Hac) as [r' ->]. cbn [map_err report].
  destruct (ordered_actions_ok (E:=PlanSimulationError) plan (wf_structured _ Hwf))
    as (order & ? & _ & Hord & _). rewrite Hord. by destruct plan.
Qed.

(** The second analysis repeats the first one and compares it with itself. *)
Lemma goal_analysis_pass json' :
  ∃ analysis, simulate_plan_for_goal_with_policy json' snapshot plan desired capacity
      draft.(PlanDraft.protected_scope) = Ok analysis ∧
    analysis.(SimulationReport.protection_violations) =
      preview.(PlanPreview.report).(SimulationReport.protection_violations) ∧
    find_first goal_violated analysis.(SimulationReport.goal_checks) = None ∧
    analysis.(SimulationReport.intent_coverage) =
      preview.(PlanPreview.report).(SimulationReport.intent_coverage).
Proof using Hsound.
  destruct sound_analysis as (result & ordered & viol & _ & Hg & Hd & Hrep).
  unfold simulate_plan_for_goal_with_policy.
  assert (validate_structure desired.(DesiredState.graph) = Ok tt) as ->.
  { apply validate_structure_iff. by rewrite Hd, set_intents_graph. }
  cbn [map_err report].
  replace (DesiredState.intents desired) with (omap operation_intent draft.(PlanDraft.operations))
    by (rewrite Hd; symmetry; apply set_intents_intents).
  rewrite (analyse_composed_json json' json) by apply (ps_composed _ _ _ _ Hsound).
  rewrite (ps_analysis _ _ _ _ Hsound).
  destruct (PlanPreview.report preview) as [[des ev steps] checks cov obs viols]. simpl in *.
  eexists. split; [reflexivity|]. simpl. split_and!; [done|apply compare_goal_refl|done].
Qed.

Lemma analyse_historical_pass json1 json2 plan_id :
  is_nil plan_id = false →
  preview.(PlanPreview.report).(SimulationReport.protection_violations) = [] →
  ∃ analysis, analyse_historical display json1 json2 (frozen_document plan_id) = Ok analysis ∧
    analysis.(HistoricalAnalysis.plan) = plan.
Proof using Hsound.
  intros Hid Hviol. pose proof (ps_composed _ _ _ _ Hsound) as Hc.
  pose proof (comp_wf _ _ _ Hc) as [Hst Hres]. pose proof Hst as [Hpos _ _ _].
  unfold analyse_historical. cbn zeta. rewrite structural_plan_pass. unfold frozen_document.
  cbn [PlanDocument.schema_version PlanDocument.action_semantics_version PlanDocument.plan_id
    PlanDocument.baseline PlanDocument.requested_goal PlanDocument.protected_scope].
  rewrite !N.eqb_refl. cbn [negb].
  rewrite Hid, (dw_baseline _ _ (ps_draft _ _ _ _ Hsound)). cbn [orb].
  destruct (composed_replays _ _ _ Hc) as (result & Hr & _). rewrite Hr. cbn [map_failure map_err].
  rewrite validate_resource_order_pass.
  2:{ intros i j ci cj Hne Hi Hj Hconf.
      apply plan_contracts_in in Hi as (a & Ha & <- & <-); [|done].
      apply plan_contracts_in in Hj as (a' & Ha' & <- & <-); [|done]. by apply Hres. }
  cbn [map_failure map_err].
  destruct (goal_analysis_pass json2) as (analysis & -> & Hv & Hg & Hi). cbn [map_failure map_err].
  rewrite Hv, Hviol, Hg, Hi. cbn [head].
  replace (find_first _ _) with (@None IntentCoverage); [by eexists|]. symmetry. apply find_first_None.
  intros c Hin. pose proof (ps_intents _ _ _ _ Hsound) as Hcov. rewrite forallb_elem in Hcov.
  by rewrite Hcov.
Qed.

Lemma capture_pass json1 json2 plan_id :
  is_nil plan_id = false →
  preview.(PlanPreview.report).(SimulationReport.protection_violations) = [] →
  capture_with_baseline display json1 json2 plan_id plan baseline desired
    draft.(PlanDraft.protected_scope) = Ok (frozen_document plan_id).
Proof using Hsound.
  intros Hid Hv. unfold capture_with_baseline. cbn zeta.
  destruct (analyse_historical_pass json1 json2 plan_id Hid Hv) as (analysis & Ha & _).
  unfold frozen_document in Ha. by rewrite Ha.
Qed.
End freeze.

(** ** Theorems *)

(** Freezing succeeds exactly when the caller reviewed the current revision and its
    preview is complete or conditional: reanalysing the captured plan never
    refuses it.  The document holds the plan of the preview, its baseline, the
    predicted state as the goal and the policy of the draft. *)
Theorem freeze_ready display json1 json2 json plan_id s expected :
  session_ok json s → is_nil plan_id = false →
  match freeze display json1 json2 plan_id s expected with
  | Ok frozen => expected = s.(PlanSession.revision) ∧
      ∃ preview, s.(PlanSession.preview) = PreviewState.Calculated preview ∧
        plan_status preview ∈ [PreviewStatus.Complete; PreviewStatus.Conditional] ∧
        frozen = FrozenPlan.mk s.(PlanSession.id) s.(PlanSession.revision)
          (frozen_document s.(PlanSession.baseline) s.(PlanSession.draft) preview plan_id)
          preview.(PlanPreview.source_map)
  | Err (Reported (FreezeError.RevisionConflict e a)) =>
      e = expected ∧ a = s.(PlanSession.revision) ∧ e ≠ a
  | Err (Reported (FreezeError.Unavailable st)) =>
      st = status s.(PlanSession.preview) ∧ st ∈ [PreviewStatus.Invalid; PreviewStatus.Blocked]
  | Err _ => False
  end.
Proof.
  intros Hok Hid. unfold freeze. case_bool_decide as Hrev; [done|].
  pose proof (so_preview _ _ Hok) as Hp. unfold previews in Hp.
  destruct (build_preview_ok json s.(PlanSession.baseline) s.(PlanSession.draft)) as [Hs _].
  destruct (build_preview json _ _) as [preview|[e| |]]; [|rewrite Hp; simpl; set_solver|done..].
  simpl in Hs. rewrite Hp. cbn [status calculated ok_or].
  pose proof (sound_status _ _ _ _ Hs) as Hstat.
  case_bool_decide as Hv.
  - rewrite (capture_pass display json) by done. cbn [map_failure map_err].
    destruct (plan_status preview) eqn:Hst; case_bool_decide; try done;
      (split; [done|]); exists preview; rewrite Hst; (split_and!; [done|set_solver|done]).
  - rewrite Hstat. split; [done|set_solver].
Qed.

(** C8: What is frozen can be started: the execution run of a frozen document is always
    created, with the plan that was reviewed and every action waiting, whichever
    serializers the two analyses use. *)
Theorem frozen_plan_starts display json1 json2 json3 json4 json plan_id s expected frozen run_id :
  session_ok json s → is_nil plan_id = false →
  freeze display json1 json2 plan_id s expected = Ok frozen →
  ∃ preview run, s.(PlanSession.preview) = PreviewState.Calculated preview ∧
    execution_run_new display json3 json4 run_id frozen.(FrozenPlan.document) = Ok run ∧
    run.(ExecutionRun.plan) = preview.(PlanPreview.plan) ∧
    run.(ExecutionRun.document) = frozen.(FrozenPlan.document) ∧
    run.(ExecutionRun.actions) =
      (λ _, ActionRun.waiting) <$> preview.(PlanPreview.plan).(ExecutionPlan.actions).
Proof.
  intros Hok Hid Hf. unfold freeze in Hf. case_bool_decide; [done|].
  pose proof (so_preview _ _ Hok) as Hp. unfold previews in Hp.
  destruct (build_preview_ok json s.(PlanSession.baseline) s.(PlanSession.draft)) as [Hs _].
  destruct (build_preview json _ _) as [preview|[e| |]]; [|by rewrite Hp in Hf|done..].
  simpl in Hs. rewrite Hp in Hf. cbn [status calculated ok_or] in Hf.
  pose proof (sound_status _ _ _ _ Hs) as Hstat. case_bool_decide as Hv; [|by rewrite Hstat in Hf].
  rewrite (capture_pass display json) in Hf by done. cbn [map_failure map_err] in Hf.
  assert (frozen.(FrozenPlan.document) =
    frozen_document s.(PlanSession.baseline) s.(PlanSession.draft) preview plan_id) as ->.
  { destruct (plan_status preview); try done; by injection Hf as <-. }
  destruct (analyse_historical_pass display json _ _ _ Hs json3 json4 plan_id Hid Hv) as (an & Ha & Hplan).
  unfold execution_run_new. rewrite Ha. cbn [map_failure map_err].
  exists preview. eexists. split; [done|]. split; [reflexivity|].
  cbn [ExecutionRun.plan ExecutionRun.document ExecutionRun.actions]. by rewrite Hplan.
Qed.
