(* ===== verification/Json.v ===== *)
(** * JSON values: the part of [serde_json] the wire formats use

    An object keeps its members in insertion order and compares independently
    of it ([preserve_order]); keys are unique.  [sort_object_keys] and
    [sort_json_array] are the functions of these names of
    [storage-engine/src/wire.rs]; the text of a value is a parameter. *)

From S2P Require Import Prelude Model Reach Graph GraphOrder GraphValid State.
From S2P Require Import Action Contract ContractProps Logical Evidence Effects.
From S2P Require Import Report Simulate Wire.

Module Value.
Inductive Value :=
| Null
| Bool (b : bool)
| Number (n : N)
| String (text : string)
| Array (values : list Value)
| Object (values : list (string * Value)).

#[global] Instance Value_eq_dec : EqDecision Value.
Proof.
  refine (fix go v w : Decision (v = w) :=
    match v, w with
    | Null, Null => left eq_refl
    | Bool a, Bool b => cast_if (decide (a = b))
    | Number a, Number b => cast_if (decide (a = b))
    | String a, String b => cast_if (decide (a = b))
    | Array a, Array b => cast_if (@list_eq_dec Value go a b)
    | Object a, Object b =>
        cast_if (@list_eq_dec (string * Value) (@prod_eq_dec string _ Value go) a b)
    | _, _ => right _
    end); congruence.
Defined.

(** Induction through the members. *)
Lemma value_ind (P : Value → Prop) :
  P Null → (∀ b, P (Bool b)) → (∀ n, P (Number n)) → (∀ text, P (String text)) →
  (∀ values, Forall P values → P (Array values)) →
  (∀ values, Forall (λ e, P e.2) values → P (Object values)) → ∀ v, P v.
Proof.
  intros Hn Hb Hm Ht Ha Ho. fix IH 1. intros [|b|n|text|values|values];
    [exact Hn|apply Hb|apply Hm|apply Ht|..].
  - apply Ha. induction values as [|v values IHl]; constructor; [apply IH|exact IHl].
  - apply Ho. induction values as [|[k v] values IHl]; constructor; [apply IH|exact IHl].
Qed.
End Value.
Abbreviation Value := Value.Value.

(** [Map::sort_keys] *)
Definition key_leb {A} (a b : string * A) : bool := String.leb a.1 b.1.

Fixpoint sort_object_keys (value : Value) : Value :=
  match value with
  | Value.Object members =>
      Value.Object (sort_by key_leb (map (λ e, (e.1, sort_object_keys e.2)) members))
  | Value.Array values => Value.Array (map sort_object_keys values)
  | _ => value
  end.

(** [Value::eq] *)
Definition value_eqb (v w : Value) : bool := bool_decide (sort_object_keys v = sort_object_keys w).

Lemma value_eqb_refl v : value_eqb v v = true.
Proof. by apply bool_decide_eq_true. Qed.

Lemma key_leb_total {A} (a b : string * A) : key_leb a b = true ∨ key_leb b a = true.
Proof. apply String.leb_total. Qed.

(** Once sorted, always sorted. *)
Lemma sort_object_keys_idemp v : sort_object_keys (sort_object_keys v) = sort_object_keys v.
Proof.
  induction v as [| | | |values IH|members IH] using Value.value_ind; simpl; [done..| |]; f_equal.
  - rewrite map_map. apply map_ext_in. intros v Hv. rewrite Forall_forall in IH.
    by apply IH, list_elem_of_In.
  - rewrite (sort_by_map key_leb key_leb) by done.
    rewrite (sort_by_of_sorted key_leb) by apply sort_by_sorted, key_leb_total.
    rewrite <-(sort_by_map key_leb key_leb) by done. rewrite map_map. f_equal.
    apply map_ext_in. intros e He. simpl. f_equal. rewrite Forall_forall in IH.
    by apply IH, list_elem_of_In.
Qed.

(** [value["key"] = f(value["key"])]: a missing member of an object is [Null], a
    [Null] becomes an object, and any other value panics. *)
Fixpoint update_member {E} (key : string) (f : Value → result Value (Failure E))
    (members : list (string * Value)) : result (list (string * Value)) (Failure E) :=
  match members with
  | [] => let? v := f Value.Null in Ok [(key, v)]
  | (k, v) :: members =>
      if bool_decide (k = key) then let? v := f v in Ok ((k, v) :: members)
      else let? members := update_member key f members in Ok ((k, v) :: members)
  end.

Definition index_mut {E} (key : string) (f : Value → result Value (Failure E)) (value : Value)
    : result Value (Failure E) :=
  match value with
  | Value.Object members => let? members := update_member key f members in Ok (Value.Object members)
  | Value.Null => let? members := update_member key f [] in Ok (Value.Object members)
  | _ => Err Panicked
  end.

Definition get (key : string) (value : Value) : option Value :=
  match value with
  | Value.Object members => snd <$> find_first (λ e, bool_decide (e.1 = key)) members
  | _ => None
  end.

(** [Vec::dedup]: an element equal to the last kept one is dropped. *)
Fixpoint dedup_after (last : Value) (values : list Value) : list Value :=
  match values with
  | [] => []
  | v :: values => if value_eqb v last then dedup_after last values else v :: dedup_after v values
  end.

Definition dedup (values : list Value) : list Value :=
  match values with [] => [] | v :: values => v :: dedup_after v values end.

(** [Value::to_string] *)
Class JsonText := { value_text : Value → string }.

(** A text is the text of one value. *)
Class JsonTextLaws `{JsonText} := value_text_inj :: Inj (=) (=) value_text.

Section arrays.
Context `{JsonText}.

Definition text_leb (v w : Value) : bool := String.leb (value_text v) (value_text w).

Definition sort_json_array (deduplicate : bool) (value : Value) : Value :=
  match value with
  | Value.Array values =>
      let values := sort_by text_leb values in
      Value.Array (if deduplicate then dedup values else values)
  | _ => value
  end.

Context `{!JsonTextLaws}.

Abbreviation text_order := (λ v w, text_leb v w = true) (only parsing).

#[local] Instance text_trans : Transitive text_order.
Proof.
  intros u v w. unfold text_leb. rewrite <-!Is_true_true.
  apply (transitivity (R:=String.le)).
Qed.
#[local] Instance text_antisymm : AntiSymm (=) text_order.
Proof. intros v w Hv Hw. apply (inj value_text). by apply String.leb_antisym. Qed.

Lemma text_refl v : text_leb v v = true.
Proof. by destruct (String.leb_total (value_text v) (value_text v)). Qed.

Lemma sorted_values values : StronglySorted text_order (sort_by text_leb values).
Proof. apply Sorted_StronglySorted; [apply _|]. apply sort_by_sorted. intros v w. apply String.leb_total. Qed.

(** A sorted array stands for the multiset of its values. *)
Lemma sort_values_eq l k : sort_by text_leb l = sort_by text_leb k ↔ l ≡ₚ k.
Proof.
  split.
  - intros He. by rewrite <-(sort_by_perm text_leb l), He, sort_by_perm.
  - intros Hp. apply (StronglySorted_unique text_order); [apply sorted_values..|].
    by rewrite !sort_by_perm.
Qed.

(** On values with sorted keys, [==] is equality. *)
Definition keyed (v : Value) : Prop := sort_object_keys v = v.

Lemma value_eqb_keyed v w : keyed v → keyed w → value_eqb v w = bool_decide (v = w).
Proof. unfold keyed, value_eqb. by intros -> ->. Qed.

Lemma elem_of_dedup_after last l v :
  keyed last → Forall keyed l → v ∈ last :: dedup_after last l ↔ v ∈ last :: l.
Proof.
  intros Hlast Hl. revert last Hlast. induction Hl as [|x l Hx Hl IH]; intros last Hlast; simpl; [done|].
  rewrite value_eqb_keyed by done. case_bool_decide as Heq.
  - rewrite IH by done. subst. set_solver.
  - specialize (IH x Hx). set_solver.
Qed.

Lemma elem_of_dedup_values l v : Forall keyed l → v ∈ dedup l ↔ v ∈ l.
Proof. destruct 1; simpl; [done|]. by apply elem_of_dedup_after. Qed.

Lemma dedup_after_sorted last l :
  keyed last → Forall keyed l → StronglySorted text_order (last :: l) →
  StronglySorted text_order (last :: dedup_after last l) ∧ NoDup (last :: dedup_after last l).
Proof.
  intros Hlast Hl. revert last Hlast. induction Hl as [|x l Hx Hl IH]; intros last Hlast; simpl.
  - intros Hs. split; [done|]. apply NoDup_singleton.
  - intros [Hall Hs]%StronglySorted_cons. rewrite value_eqb_keyed by done. case_bool_decide as Heq.
    + subst x. by apply IH.
    + destruct (IH x Hx Hs) as [Hs' Hn]. split.
      * apply StronglySorted_cons. split; [|done]. apply Forall_forall. intros v.
        rewrite elem_of_dedup_after by done. intros Hv.
        by eapply Forall_forall in Hall.
      * apply NoDup_cons. split; [|done]. rewrite elem_of_dedup_after by done. intros Hin.
        apply Heq. apply (anti_symm text_order).
        -- apply elem_of_cons in Hin as [->|Hin]; [apply text_refl|].
           apply StronglySorted_cons in Hs as [Hs _]. by eapply Forall_forall in Hs.
        -- apply Forall_cons in Hall as [Hall _]. done.
Qed.

Lemma keyed_sorted l : Forall keyed l → Forall keyed (sort_by text_leb l).
Proof. by rewrite sort_by_perm. Qed.

Lemma keyed_dedup l : Forall keyed l → Forall keyed (dedup l).
Proof.
  intros Hl. apply Forall_forall. intros v. rewrite elem_of_dedup_values by done. intros Hv.
  by eapply Forall_forall in Hl.
Qed.

Lemma dedup_sorted l :
  Forall keyed l → StronglySorted text_order (dedup (sort_by text_leb l)) ∧
                   NoDup (dedup (sort_by text_leb l)).
Proof.
  intros Hl%keyed_sorted. pose proof (sorted_values l) as Hs.
  destruct Hl as [|v k Hv Hk]; simpl; [by repeat constructor|]. by apply dedup_after_sorted.
Qed.

(** A sorted array without repetitions stands for the set of its values. *)
Lemma dedup_values_eq l k :
  Forall keyed l → Forall keyed k →
  dedup (sort_by text_leb l) = dedup (sort_by text_leb k) ↔ (∀ v, v ∈ l ↔ v ∈ k).
Proof.
  intros Hl Hk.
  assert (∀ m v, Forall keyed m → v ∈ dedup (sort_by text_leb m) ↔ v ∈ m) as Hset.
  { intros m v Hm. rewrite elem_of_dedup_values by by apply keyed_sorted. by rewrite sort_by_perm. }
  split.
  - intros He v. by rewrite <-(Hset l), <-(Hset k), He.
  - intros Hv. destruct (dedup_sorted l Hl) as [Hs Hn], (dedup_sorted k Hk) as [Hs' Hn'].
    apply (StronglySorted_unique text_order); [done..|]. apply NoDup_Permutation; [done..|].
    intros v. by rewrite !Hset.
Qed.
End arrays.

(** * The JSON of plan documents: [storage-engine/src/wire.rs]

    The canonical form of observations and of documents: object keys sorted,
    set-like arrays sorted and, where they stand for sets, without repetitions.
    [has_same_observations] compares observations in this form and
    [canonical_json] prints a document in it.  The derived encoders of the types
    below the document are parameters; structs are encoded field by field. *)

(** ** Encoders *)

(** [#[derive(Serialize)]] of the types that stay opaque here; an encoder fails
    on what JSON cannot express (a path that is no text). *)
Class WireEncoder := {
  wire_text :: JsonText;
  uuid_text : Uuid → string;
  node_value : Node → option Value;
  dependency_value : Dependency → option Value;
  relation_value : Relation → option Value;
  observed_mount_value : ObservedMount → option Value;
  mount_entry_value : MountEntry → option Value;
  protected_mount_value : ProtectedMount → option Value;
  environment_value : Environment → option Value;
  diagnostic_value : Diagnostic → option Value;
  capacity_value : CapacityEvidence → option Value;
  boot_value : BootSpec → option Value;
  intent_value : OperationIntent → option Value;
  action_value : PlannedAction → option Value;
  action_dependency_value : ActionDependency → option Value;
  contract_json : Contract.Json }.

(** A struct and a sequence. *)
Definition object (fields : list (string * option Value)) : option Value :=
  Value.Object <$> mapM (λ '(key, v), pair key <$> v) fields.
Definition array {A} (encode : A → option Value) (l : list A) : option Value :=
  Value.Array <$> mapM encode l.

Section encode.
Context `{WireEncoder}.

Definition id_value (id : Uuid) : option Value := Some (Value.String (uuid_text id)).

Definition node_member (e : NodeId * Node) : option (string * Value) :=
  pair (uuid_text e.1) <$> node_value e.2.

Definition graph_value (g : NodeGraph) : option Value :=
  object [("nodes", Value.Object <$> mapM node_member (map_to_list g.(NodeGraph.nodes)));
          ("dependencies", array dependency_value g.(NodeGraph.dependencies));
          ("relations", array relation_value g.(NodeGraph.relations))]%string.

Definition snapshot_value (s : CurrentState) : option Value :=
  object [("graph", graph_value s.(CurrentState.graph));
          ("mounts", object [("entries", array observed_mount_value
                                           s.(CurrentState.mounts).(MountState.entries))]);
          ("environment", environment_value s.(CurrentState.environment));
          ("diagnostics", array diagnostic_value s.(CurrentState.diagnostics))]%string.

Definition goal_value (g : DesiredState) : option Value :=
  object [("graph", graph_value g.(DesiredState.graph));
          ("mounts", object
             [("runtime", array mount_entry_value g.(DesiredState.mounts).(MountSpec.runtime));
              ("persistent", array mount_entry_value g.(DesiredState.mounts).(MountSpec.persistent))]);
          ("boot", boot_value g.(DesiredState.boot));
          ("intents", array intent_value g.(DesiredState.intents))]%string.

Definition scope_value (p : ProtectedScope) : option Value :=
  object [("nodes", array id_value p.(ProtectedScope.nodes));
          ("runtime_mounts", array protected_mount_value p.(ProtectedScope.runtime_mounts));
          ("persistent_mounts", array protected_mount_value p.(ProtectedScope.persistent_mounts))]%string.

Definition baseline_value (b : HistoricalBaseline) : option Value :=
  object [("id", id_value b.(HistoricalBaseline.id));
          ("snapshot", snapshot_value b.(HistoricalBaseline.snapshot));
          ("capacity_evidence", array capacity_value b.(HistoricalBaseline.capacity_evidence))]%string.

Definition document_value (doc : PlanDocument) : option Value :=
  object [("schema_version", Some (Value.Number doc.(PlanDocument.schema_version)));
          ("action_semantics_version", Some (Value.Number doc.(PlanDocument.action_semantics_version)));
          ("plan_id", id_value doc.(PlanDocument.plan_id));
          ("baseline", baseline_value doc.(PlanDocument.baseline));
          ("requested_goal", goal_value doc.(PlanDocument.requested_goal));
          ("protected_scope", scope_value doc.(PlanDocument.protected_scope));
          ("actions", array action_value doc.(PlanDocument.actions));
          ("dependencies", array action_dependency_value doc.(PlanDocument.dependencies))]%string.

(** ** Canonical form *)

Abbreviation wire A := (result A (Failure PlanDocumentError)) (only parsing).

Definition to_value (v : option Value) : wire Value := ok_or v (Reported PlanDocumentError.Json).

(** [sort_json_array(&mut value[k1][k2].., deduplicate)] *)
Definition sort_at (path : list string) (deduplicate : bool) : Value → wire Value :=
  foldr index_mut (λ v, Ok (sort_json_array deduplicate v)) path.

Definition canonical_graph (path : list string) (value : Value) : wire Value :=
  let? value := sort_at (path ++ ["dependencies"%string]) true value in
  sort_at (path ++ ["relations"%string]) true value.

Definition canonical_snapshot (snapshot : CurrentState) : wire Value :=
  let? value := to_value (snapshot_value snapshot) in
  let? value := canonical_graph ["graph"%string] (sort_object_keys value) in
  sort_at ["mounts"; "entries"]%string false value.

(** [HistoricalBaseline::has_same_observations] *)
Definition has_same_observations (self other : HistoricalBaseline) : wire bool :=
  let? capacity := to_value (array capacity_value self.(HistoricalBaseline.capacity_evidence)) in
  let? other_capacity := to_value (array capacity_value other.(HistoricalBaseline.capacity_evidence)) in
  if value_eqb (sort_json_array false capacity) (sort_json_array false other_capacity) then
    let? snapshot := canonical_snapshot self.(HistoricalBaseline.snapshot) in
    let? other_snapshot := canonical_snapshot other.(HistoricalBaseline.snapshot) in
    Ok (value_eqb snapshot other_snapshot)
  else Ok false.

(** [PlanDocument::analyse_against] *)
Definition analyse_against (display : GraphError → string) (json json' : Serializers)
    (self : PlanDocument) (expected : HistoricalBaseline) : wire HistoricalAnalysis :=
  if negb (self.(PlanDocument.baseline).(HistoricalBaseline.id) =? expected.(HistoricalBaseline.id))%N
  then Err (Reported PlanDocumentError.BaselineMismatch)
  else
    let? same := has_same_observations self.(PlanDocument.baseline) expected in
    if negb same then Err (Reported PlanDocumentError.BaselineMismatch)
    else analyse_historical display json json' self.

Definition canonical_action (action : PlannedAction) : wire PlannedAction :=
  let? contract := map_err (λ _, Reported PlanDocumentError.Json)
    (canonicalize_contract contract_json action.(PlannedAction.informational_contract)) in
  Ok (PlannedAction.mk action.(PlannedAction.id) action.(PlannedAction.operation)
        action.(PlannedAction.fragment) action.(PlannedAction.local_id)
        action.(PlannedAction.origin) contract).

Definition canonical_actions (actions : list PlannedAction) : wire (list PlannedAction) :=
  try_map canonical_action (sort_by_id actions).

(** The arrays [canonical_json] sorts after the graphs, in its order. *)
Definition set_like : list (list string * bool) :=
  [(["dependencies"], true); (["baseline"; "capacity_evidence"], false);
   (["baseline"; "snapshot"; "mounts"; "entries"], false);
   (["requested_goal"; "mounts"; "runtime"], false);
   (["requested_goal"; "mounts"; "persistent"], false);
   (["protected_scope"; "nodes"], true); (["protected_scope"; "runtime_mounts"], true);
   (["protected_scope"; "persistent_mounts"], true)]%string.

Definition canonical_value (document : PlanDocument) : wire Value :=
  let? value := to_value (document_value document) in
  let? value := canonical_graph ["baseline"; "snapshot"; "graph"]%string (sort_object_keys value) in
  let? value := canonical_graph ["requested_goal"; "graph"]%string value in
  try_fold (λ value '(path, deduplicate), sort_at path deduplicate value) value set_like.

(** [PlanDocument::canonical_json] *)
Definition canonical_json (display : GraphError → string) (json json' : Serializers)
    (self : PlanDocument) : wire string :=
  let? _ := analyse_historical display json json' self in
  let? actions := canonical_actions self.(PlanDocument.actions) in
  let? value := canonical_value (PlanDocument.mk self.(PlanDocument.schema_version)
    self.(PlanDocument.action_semantics_version) self.(PlanDocument.plan_id)
    self.(PlanDocument.baseline) self.(PlanDocument.requested_goal)
    self.(PlanDocument.protected_scope) actions self.(PlanDocument.dependencies)) in
  Ok (value_text value).
End encode.

(** ** Decoding *)

(** [serde_json::from_str] at the two types. *)
Class WireDecoder := {
  parse_json : string → option Value;
  parse_document : string → option PlanDocument }.

(** [Value::as_u64] *)
Definition as_u64 (value : Value) : option N :=
  match value with Value.Number n => if (n <? 2 ^ 64)%N then Some n else None | _ => None end.

(** [PlanDocument::from_json]; a foreign version is reported even when the rest
    has another shape. *)
Definition from_json `{WireDecoder} (json : string) : result PlanDocument PlanDocumentError :=
  let? value := ok_or (parse_json json) PlanDocumentError.Json in
  match get "schema_version" value ≫= as_u64 with
  | Some version =>
      if negb (version =? PLAN_SCHEMA_VERSION)%N
      then Err (PlanDocumentError.SchemaVersion (if (version <? 2 ^ 32)%N then version else 2 ^ 32 - 1))
      else ok_or (parse_document json) PlanDocumentError.Json
  | None => ok_or (parse_document json) PlanDocumentError.Json
  end.

(** ** Faithful encoders *)

(** Values that differ have JSON that differs, whatever the order of keys. *)
Definition faithful {A} (encode : A → option Value) : Prop :=
  ∀ x y u v, encode x = Some u → encode y = Some v →
    sort_object_keys u = sort_object_keys v → x = y.

Class WireLaws `{WireEncoder} := {
  wire_text_laws :: JsonTextLaws;
  uuid_text_inj :: Inj (=) (=) uuid_text;
  node_faithful : faithful node_value;
  dependency_faithful : faithful dependency_value;
  relation_faithful : faithful relation_value;
  observed_mount_faithful : faithful observed_mount_value;
  mount_entry_faithful : faithful mount_entry_value;
  protected_mount_faithful : faithful protected_mount_value;
  environment_faithful : faithful environment_value;
  diagnostic_faithful : faithful diagnostic_value;
  capacity_faithful : faithful capacity_value;
  boot_faithful : faithful boot_value;
  intent_faithful : faithful intent_value;
  action_faithful : faithful action_value;
  action_dependency_faithful : faithful action_dependency_value }.

(** Lists of encoded elements. *)
Section elements.
Context {A B C : Type} (encode : A → option B) (form : B → C).
Hypothesis encode_inj : ∀ x y u v, encode x = Some u → encode y = Some v → form u = form v → x = y.
Implicit Types (l k : list A) (vl vk vs : list B).

Lemma encoded_elem l vs v : mapM encode l = Some vs → v ∈ vs ↔ ∃ x, x ∈ l ∧ encode x = Some v.
Proof.
  intros Hf%mapM_Some. induction Hf as [|x u l vs Hx Hf IH]; [set_solver|].
  rewrite elem_of_cons, IH. setoid_rewrite elem_of_cons. naive_solver.
Qed.

Lemma encoded_eq l k vl vk :
  mapM encode l = Some vl → mapM encode k = Some vk → form <$> vl = form <$> vk ↔ l = k.
Proof.
  intros Hl%mapM_Some Hk. split; [|intros ->; apply mapM_Some in Hk].
  - revert k vk Hk. induction Hl as [|x u l vl Hx Hl IH]; intros [|y k] vk Hk%mapM_Some;
      inversion Hk; intros He; simplify_eq/=; [done|].
    f_equal; [by eapply encode_inj|]. eapply IH; [by apply mapM_Some|done].
  - f_equal. revert vk Hk. induction Hl as [|x u l vl Hx Hl IH]; intros vk Hk; inversion Hk; [done|].
    simplify_eq. f_equal. by apply IH.
Qed.

Lemma encoded_perm l k vl : l ≡ₚ k → mapM encode l = Some vl → ∃ vk, mapM encode k = Some vk ∧ vl ≡ₚ vk.
Proof.
  intros Hp. revert vl. induction Hp as [|x l k Hp IH|x y l|l k m Hlk IH1 Hkm IH2]; intros vl.
  - by eexists.
  - rewrite mapM_Some. intros Hf. inversion Hf as [|? u ? us Hx Hus]; subst.
    apply mapM_Some in Hus. destruct (IH _ Hus) as (vk & Hk & Hp').
    exists (u :: vk). split; [|by constructor]. simpl. by rewrite Hx, Hk.
  - rewrite mapM_Some. intros Hf. inversion Hf as [|? u ? us Hx Hus]; subst.
    inversion Hus as [|? w ? ws Hy Hws]; subst. apply mapM_Some in Hws.
    exists (w :: u :: ws). split; [|constructor]. simpl. by rewrite Hy, Hx, Hws.
  - intros Hl. destruct (IH1 _ Hl) as (vk & Hk & ?), (IH2 _ Hk) as (vm & ? & ?).
    exists vm. split; [done|]. by etrans.
Qed.

(** The same bag of encodings is the same bag of elements. *)
Lemma encoded_bag l k vl vk :
  mapM encode l = Some vl → mapM encode k = Some vk → form <$> vl ≡ₚ form <$> vk ↔ l ≡ₚ k.
Proof.
  intros Hl Hk. split.
  - revert l vl Hl k vk Hk. intros l. induction l as [|x l IH]; intros vl Hl k vk Hk Hp.
    + apply mapM_Some in Hl. inversion Hl; subst. apply Permutation_nil in Hp. apply fmap_nil_inv in Hp. subst vk.
      apply mapM_Some in Hk. by inversion Hk.
    + apply mapM_Some in Hl. inversion Hl as [|? u ? us Hx Hus]; subst. apply mapM_Some in Hus.
      assert (form u ∈ form <$> vk) as (v & Hv & Hin)%list_elem_of_fmap by (rewrite <-Hp; left).
      rewrite (encoded_elem k) in Hin by done. destruct Hin as (y & Hin & Hy).
      assert (x = y) as <- by by eapply encode_inj.
      apply elem_of_Permutation in Hin as [k' Hk'].
      rewrite Hk'. constructor. destruct (encoded_perm _ _ _ Hk' Hk) as (vk' & Hm & Hpk).
      simpl in Hm. rewrite Hy in Hm. simpl in Hm. destruct (mapM encode k') as [ws|] eqn:Hw; [|done].
      simplify_eq/=. eapply IH; [done..|]. apply (Permutation_cons_inv (a:=form u)).
      injection Hm as <-. by rewrite Hp, Hpk.
  - intros Hp. destruct (encoded_perm _ _ _ Hp Hl) as (v & Hv & ->). by simplify_eq.
Qed.

(** The same set of encodings is the same set of elements. *)
Lemma encoded_set l k vl vk :
  mapM encode l = Some vl → mapM encode k = Some vk →
  (∀ w, w ∈ form <$> vl ↔ w ∈ form <$> vk) ↔ (∀ x, x ∈ l ↔ x ∈ k).
Proof.
  intros Hl Hk.
  assert (∀ (m : list A) (vm : list B) x u, mapM encode m = Some vm →
    encode x = Some u → form u ∈ form <$> vm ↔ x ∈ m) as Hin.
  { intros m vm x u Hm Hu. rewrite list_elem_of_fmap. setoid_rewrite encoded_elem; [|done].
    split; [|naive_solver]. intros (v & Hv & y & Hy & Hyv). by rewrite (encode_inj _ _ _ _ Hu Hyv Hv). }
  assert (∀ (m : list A) (vm : list B) x, mapM encode m = Some vm → x ∈ m → is_Some (encode x)) as Hsome.
  { intros m vm x Hm%mapM_Some Hx. apply list_elem_of_lookup in Hx as [i Hi].
    destruct (Forall2_lookup_l _ _ _ _ _ Hm Hi) as (u & _ & Hu). by eexists. }
  split.
  - intros He x. split; intros Hx.
    + destruct (Hsome _ _ _ Hl Hx) as [u Hu]. by rewrite <-(Hin k vk x u), <-He, Hin.
    + destruct (Hsome _ _ _ Hk Hx) as [u Hu]. by rewrite <-(Hin l vl x u), He, Hin.
  - intros He w. rewrite !list_elem_of_fmap.
    pose proof (λ v, encoded_elem l vl v Hl) as El. pose proof (λ v, encoded_elem k vk v Hk) as Ek.
    setoid_rewrite El. setoid_rewrite Ek. by setoid_rewrite He.
Qed.
End elements.
