(* ===== verification/WireJsonProps.v ===== *)
(** * The canonical form identifies observations and documents

    Two baselines have the same observations exactly when they agree up to the
    order of what is not ordered, and two documents have the same canonical text
    exactly when they describe the same plan. *)

From S2P Require Import Prelude Model Reach Graph GraphOrder GraphValid State Action Contract.
From S2P Require Import ContractProps Logical Evidence Effects Report Simulate.
From S2P Require Import Wire Json.

Implicit Types (vs vl vk : list Value) (ms : list (string * Value)).

(** ** Forms of a part of a canonical value *)

Section forms.
Context `{JsonText}.

Definition list_form vs : Value := Value.Array (sort_object_keys <$> vs).
Definition bag_form vs : Value := Value.Array (sort_by text_leb (sort_object_keys <$> vs)).
Definition set_form vs : Value := Value.Array (dedup (sort_by text_leb (sort_object_keys <$> vs))).
Definition map_form ms : Value :=
  Value.Object (sort_by key_leb ((λ e, (e.1, sort_object_keys e.2)) <$> ms)).

Lemma keyed_sort_object_keys v : keyed (sort_object_keys v).
Proof. apply sort_object_keys_idemp. Qed.

Lemma keyed_fmap vs : Forall keyed (sort_object_keys <$> vs).
Proof. apply Forall_fmap, Forall_forall. intros v _. apply keyed_sort_object_keys. Qed.

Lemma keyed_array vs : Forall keyed vs → keyed (Value.Array vs).
Proof.
  intros Hvs. unfold keyed. simpl. f_equal. induction Hvs as [|v vs Hv _ IH]; simpl; [done|].
  by rewrite Hv, IH.
Qed.

Lemma keyed_object ms :
  Sorted (λ a b, key_leb a b = true) ms → Forall (λ e, keyed e.2) ms → keyed (Value.Object ms).
Proof.
  intros Hs Hms. unfold keyed. simpl. f_equal.
  replace (map (λ e : string * Value, (e.1, sort_object_keys e.2)) ms) with ms;
    [by apply sort_by_of_sorted|].
  clear Hs. induction Hms as [|[k v] ms Hv _ IH]; simpl in *; [done|]. by rewrite Hv, <-IH.
Qed.

Lemma keyed_list_form vs : keyed (list_form vs).
Proof. apply keyed_array, keyed_fmap. Qed.
Lemma keyed_map_form ms : keyed (map_form ms).
Proof. exact (sort_object_keys_idemp (Value.Object ms)). Qed.

Context `{!JsonTextLaws}.

Lemma keyed_bag_form vs : keyed (bag_form vs).
Proof. apply keyed_array, keyed_sorted, keyed_fmap. Qed.
Lemma keyed_set_form vs : keyed (set_form vs).
Proof. apply keyed_array, keyed_dedup, keyed_sorted, keyed_fmap. Qed.

Context {A : Type} (encode : A → option Value) (Hfaithful : faithful encode).
Implicit Types (l k : list A).

Lemma list_form_eq l k vl vk :
  mapM encode l = Some vl → mapM encode k = Some vk → list_form vl = list_form vk ↔ l = k.
Proof.
  intros Hl Hk. rewrite <-(encoded_eq encode sort_object_keys Hfaithful l k) by done.
  unfold list_form. split; congruence.
Qed.

Lemma bag_form_eq l k vl vk :
  mapM encode l = Some vl → mapM encode k = Some vk → bag_form vl = bag_form vk ↔ l ≡ₚ k.
Proof.
  intros Hl Hk. rewrite <-(encoded_bag encode sort_object_keys Hfaithful l k) by done.
  rewrite <-sort_values_eq. unfold bag_form. split; congruence.
Qed.

Lemma set_form_eq l k vl vk :
  mapM encode l = Some vl → mapM encode k = Some vk →
  set_form vl = set_form vk ↔ (∀ x, x ∈ l ↔ x ∈ k).
Proof.
  intros Hl Hk. rewrite <-(encoded_set encode sort_object_keys Hfaithful l k) by done.
  rewrite <-dedup_values_eq by apply keyed_fmap. unfold set_form. split; congruence.
Qed.

(** The arrays [has_same_observations] sorts as they are. *)
Lemma raw_bag_eq l k vl vk :
  mapM encode l = Some vl → mapM encode k = Some vk →
  value_eqb (sort_json_array false (Value.Array vl)) (sort_json_array false (Value.Array vk)) = true
    ↔ l ≡ₚ k.
Proof.
  intros Hl Hk. unfold value_eqb. rewrite bool_decide_eq_true. simpl. split.
  - intros [= He]. apply (encoded_bag encode sort_object_keys Hfaithful l k vl vk Hl Hk).
    rewrite <-(sort_by_perm text_leb vl), <-(sort_by_perm text_leb vk).
    replace (sort_object_keys <$> sort_by text_leb vl)
      with (sort_object_keys <$> sort_by text_leb vk) by (symmetry; exact He). done.
  - intros Hp. destruct (encoded_perm encode _ _ _ Hp Hl) as (v & Hv & Hperm).
    rewrite Hk in Hv. injection Hv as <-. apply sort_values_eq in Hperm. by rewrite Hperm.
Qed.
End forms.

(** A literal object with sorted keys. *)
Ltac solve_keyed :=
  repeat first
    [ apply keyed_list_form | apply keyed_bag_form | apply keyed_set_form | apply keyed_map_form
    | apply keyed_sort_object_keys | apply Forall_cons_2 | apply Forall_nil_2
    | apply keyed_object; [by repeat constructor|] | progress cbn [snd] ].

(** ** Observations *)

(** The parts of a graph and of a snapshot, encoded. *)
Section parts.
Context `{WireEncoder}.

Definition graph_parts (g : NodeGraph) ms vl vk : Prop :=
  mapM node_member (map_to_list g.(NodeGraph.nodes)) = Some ms ∧
  mapM dependency_value g.(NodeGraph.dependencies) = Some vl ∧
  mapM relation_value g.(NodeGraph.relations) = Some vk.

Definition graph_form ms vl vk : Value :=
  Value.Object [("dependencies", set_form vl); ("nodes", map_form ms);
                ("relations", set_form vk)]%string.

Lemma graph_value_parts g v :
  graph_value g = Some v → ∃ ms vl vk, graph_parts g ms vl vk ∧
    v = Value.Object [("nodes", Value.Object ms); ("dependencies", Value.Array vl);
                      ("relations", Value.Array vk)]%string.
Proof.
  unfold graph_value, graph_parts, object, array.
  destruct (mapM node_member _) as [ms|], (mapM dependency_value _) as [vl|],
    (mapM relation_value _) as [vk|]; try done. intros [= <-]. eauto 10.
Qed.

(** What is the same about two observations. *)
Definition same_graph (g h : NodeGraph) : Prop :=
  g.(NodeGraph.nodes) = h.(NodeGraph.nodes) ∧
  (∀ d, d ∈ g.(NodeGraph.dependencies) ↔ d ∈ h.(NodeGraph.dependencies)) ∧
  (∀ r, r ∈ g.(NodeGraph.relations) ↔ r ∈ h.(NodeGraph.relations)).

Definition same_snapshot (s t : CurrentState) : Prop :=
  same_graph s.(CurrentState.graph) t.(CurrentState.graph) ∧
  s.(CurrentState.mounts).(MountState.entries) ≡ₚ t.(CurrentState.mounts).(MountState.entries) ∧
  s.(CurrentState.environment) = t.(CurrentState.environment) ∧
  s.(CurrentState.diagnostics) = t.(CurrentState.diagnostics).

Definition same_observations (a b : HistoricalBaseline) : Prop :=
  a.(HistoricalBaseline.capacity_evidence) ≡ₚ b.(HistoricalBaseline.capacity_evidence) ∧
  same_snapshot a.(HistoricalBaseline.snapshot) b.(HistoricalBaseline.snapshot).

Context `{!WireLaws}.

Lemma node_member_inj (x y : NodeId * Node) u v :
  node_member x = Some u → node_member y = Some v →
  (u.1, sort_object_keys u.2) = (v.1, sort_object_keys v.2) → x = y.
Proof.
  unfold node_member. destruct x as [i n], y as [j m]. simpl.
  destruct (node_value n) as [w|] eqn:Hn, (node_value m) as [w'|] eqn:Hm; [|done..].
  intros [= <-] [= <-] [= Hi%(inj uuid_text) Hv]. simplify_eq/=.
  by rewrite (node_faithful _ _ _ _ Hn Hm Hv).
Qed.

Lemma map_form_eq (m m' : gmap NodeId Node) ms ms' :
  mapM node_member (map_to_list m) = Some ms → mapM node_member (map_to_list m') = Some ms' →
  map_form ms = map_form ms' ↔ m = m'.
Proof.
  intros Hm Hm'. split; [|intros ->; by simplify_eq].
  unfold map_form. intros [= He]. apply map_to_list_inj.
  apply (encoded_bag node_member (λ e, (e.1, sort_object_keys e.2)) node_member_inj _ _ ms ms'); [done..|].
  by rewrite <-(sort_by_perm key_leb), He, sort_by_perm.
Qed.

Lemma graph_form_eq g h ms vl vk ms' vl' vk' :
  graph_parts g ms vl vk → graph_parts h ms' vl' vk' →
  graph_form ms vl vk = graph_form ms' vl' vk' ↔ same_graph g h.
Proof.
  intros (Hms & Hvl & Hvk) (Hms' & Hvl' & Hvk'). unfold same_graph.
  rewrite <-(map_form_eq _ _ _ _ Hms Hms'), <-(set_form_eq _ dependency_faithful _ _ _ _ Hvl Hvl'),
    <-(set_form_eq _ relation_faithful _ _ _ _ Hvk Hvk').
  unfold graph_form. split; [|by intros (-> & -> & ->)]. intros He. repeat split; congruence.
Qed.

Lemma keyed_graph_form ms vl vk : keyed (graph_form ms vl vk).
Proof.
  solve_keyed.
Qed.
End parts.

(** ** Snapshots *)

Section snapshots.
Context `{WireEncoder}.

Record snapshot_parts (s : CurrentState) ms vl vk mounts env diagnostics : Prop := {
  parts_graph : graph_parts s.(CurrentState.graph) ms vl vk;
  parts_mounts : mapM observed_mount_value s.(CurrentState.mounts).(MountState.entries) = Some mounts;
  parts_environment : environment_value s.(CurrentState.environment) = Some env;
  parts_diagnostics : mapM diagnostic_value s.(CurrentState.diagnostics) = Some diagnostics }.

Definition snapshot_form ms vl vk mounts env diagnostics : Value :=
  Value.Object [("diagnostics", list_form diagnostics); ("environment", sort_object_keys env);
                ("graph", graph_form ms vl vk);
                ("mounts", Value.Object [("entries", bag_form mounts)])]%string.

Lemma snapshot_value_parts s v :
  snapshot_value s = Some v → ∃ ms vl vk mounts env diagnostics,
    snapshot_parts s ms vl vk mounts env diagnostics ∧
    v = Value.Object
      [("graph", Value.Object [("nodes", Value.Object ms); ("dependencies", Value.Array vl);
                               ("relations", Value.Array vk)]);
       ("mounts", Value.Object [("entries", Value.Array mounts)]);
       ("environment", env); ("diagnostics", Value.Array diagnostics)]%string.
Proof.
  unfold snapshot_value. destruct (graph_value _) as [g|] eqn:Hg; [|done].
  apply graph_value_parts in Hg as (ms & vl & vk & Hg & ->).
  unfold object, array. destruct (mapM observed_mount_value _) as [mounts|] eqn:Hm; [|done].
  destruct (environment_value _) as [env|] eqn:He; [|done].
  destruct (mapM diagnostic_value _) as [diagnostics|] eqn:Hd; [|done].
  intros [= <-]. exists ms, vl, vk, mounts, env, diagnostics. done.
Qed.

Lemma canonical_snapshot_form s v :
  canonical_snapshot s = Ok v → ∃ ms vl vk mounts env diagnostics,
    snapshot_parts s ms vl vk mounts env diagnostics ∧
    v = snapshot_form ms vl vk mounts env diagnostics.
Proof.
  unfold canonical_snapshot. destruct (snapshot_value s) as [w|] eqn:Hw; [|done].
  apply snapshot_value_parts in Hw as (ms & vl & vk & mounts & env & diagnostics & Hp & ->).
  intros [= <-]. exists ms, vl, vk, mounts, env, diagnostics. done.
Qed.

Lemma canonical_snapshot_ok s : is_Some (snapshot_value s) → ∃ v, canonical_snapshot s = Ok v.
Proof.
  intros [w Hw]. unfold canonical_snapshot. rewrite Hw.
  apply snapshot_value_parts in Hw as (ms & vl & vk & mounts & env & diagnostics & _ & ->).
  by eexists.
Qed.

Context `{!WireLaws}.

Lemma snapshot_form_eq s t ms vl vk mounts env ds ms' vl' vk' mounts' env' ds' :
  snapshot_parts s ms vl vk mounts env ds → snapshot_parts t ms' vl' vk' mounts' env' ds' →
  snapshot_form ms vl vk mounts env ds = snapshot_form ms' vl' vk' mounts' env' ds' ↔ same_snapshot s t.
Proof.
  intros [Hg Hm He Hd] [Hg' Hm' He' Hd']. unfold same_snapshot.
  rewrite <-(graph_form_eq _ _ _ _ _ _ _ _ Hg Hg'),
    <-(bag_form_eq _ observed_mount_faithful _ _ _ _ Hm Hm'),
    <-(list_form_eq _ diagnostic_faithful _ _ _ _ Hd Hd').
  assert (sort_object_keys env = sort_object_keys env' ↔
          s.(CurrentState.environment) = t.(CurrentState.environment)) as <-.
  { split; [by apply (environment_faithful _ _ _ _ He He')|]. intros Heq. rewrite Heq in He. congruence. }
  unfold snapshot_form. split; [|by intros (-> & -> & -> & ->)]. intros Heq. repeat split; congruence.
Qed.

Lemma keyed_snapshot_form ms vl vk mounts env ds : keyed (snapshot_form ms vl vk mounts env ds).
Proof. solve_keyed. Qed.

Lemma same_observations_decided a b :
  is_Some (mapM capacity_value a.(HistoricalBaseline.capacity_evidence)) →
  is_Some (mapM capacity_value b.(HistoricalBaseline.capacity_evidence)) →
  is_Some (snapshot_value a.(HistoricalBaseline.snapshot)) →
  is_Some (snapshot_value b.(HistoricalBaseline.snapshot)) →
  ∃ r, has_same_observations a b = Ok r ∧ (r = true ↔ same_observations a b).
Proof.
  intros [ca Hca] [cb Hcb] [va Hva]%canonical_snapshot_ok [vb Hvb]%canonical_snapshot_ok.
  unfold has_same_observations, array, same_observations. rewrite Hca, Hcb. simpl to_value. cbn [ok_or].
  pose proof (raw_bag_eq _ capacity_faithful _ _ _ _ Hca Hcb) as Hcap.
  destruct (value_eqb _ _) eqn:Hv; [|exists false; split; [done|]; naive_solver].
  rewrite Hva, Hvb. eexists; split; [done|].
  apply canonical_snapshot_form in Hva as (?&?&?&?&?&?& Ha & ->).
  apply canonical_snapshot_form in Hvb as (?&?&?&?&?&?& Hb & ->).
  rewrite value_eqb_keyed by apply keyed_snapshot_form.
  rewrite bool_decide_eq_true, (snapshot_form_eq _ _ _ _ _ _ _ _ _ _ _ _ _ _ Ha Hb). naive_solver.
Qed.

Lemma has_same_observations_true a b :
  has_same_observations a b = Ok true → same_observations a b.
Proof.
  intros Hs.
  assert (is_Some (mapM capacity_value a.(HistoricalBaseline.capacity_evidence)) ∧
          is_Some (mapM capacity_value b.(HistoricalBaseline.capacity_evidence)) ∧
          is_Some (snapshot_value a.(HistoricalBaseline.snapshot)) ∧
          is_Some (snapshot_value b.(HistoricalBaseline.snapshot))) as (Hca & Hcb & Ha & Hb).
  { revert Hs. unfold has_same_observations, array, canonical_snapshot.
    destruct (mapM capacity_value a.(HistoricalBaseline.capacity_evidence)); [|done].
    destruct (mapM capacity_value b.(HistoricalBaseline.capacity_evidence)); [|done].
    cbn [fmap option_fmap option_map to_value ok_or]. destruct (value_eqb _ _); [|done].
    destruct (snapshot_value a.(HistoricalBaseline.snapshot)) as [va|]; [|done].
    destruct (snapshot_value b.(HistoricalBaseline.snapshot)) as [vb|]; [by eauto|].
    cbn [to_value ok_or]. destruct (canonical_graph _ _) as [v|]; [|done]. by destruct (sort_at _ _ v). }
  destruct (same_observations_decided a b) as (r & Hr & Hiff); [done..|].
  rewrite Hr in Hs. injection Hs as ->. by apply Hiff.
Qed.

(** The comparison of two baselines that can be encoded ends, and it answers
    whether they hold the same observations: the same objects, the same sets of
    edges, the same mounts and capacity records in any order, environment and
    diagnostics as they are; the identity of the baseline plays no part. *)
Theorem has_same_observations_spec a b :
  is_Some (mapM capacity_value a.(HistoricalBaseline.capacity_evidence)) →
  is_Some (mapM capacity_value b.(HistoricalBaseline.capacity_evidence)) →
  is_Some (snapshot_value a.(HistoricalBaseline.snapshot)) →
  is_Some (snapshot_value b.(HistoricalBaseline.snapshot)) →
  ∃ r, has_same_observations a b = Ok r ∧ (r = true ↔ same_observations a b).
Proof. apply same_observations_decided. Qed.
End snapshots.

(** ** Documents *)

Section documents.
Context `{WireEncoder}.

Definition same_goal (g h : DesiredState) : Prop :=
  same_graph g.(DesiredState.graph) h.(DesiredState.graph) ∧
  g.(DesiredState.mounts).(MountSpec.runtime) ≡ₚ h.(DesiredState.mounts).(MountSpec.runtime) ∧
  g.(DesiredState.mounts).(MountSpec.persistent) ≡ₚ h.(DesiredState.mounts).(MountSpec.persistent) ∧
  g.(DesiredState.boot) = h.(DesiredState.boot) ∧
  g.(DesiredState.intents) = h.(DesiredState.intents).

Definition same_scope (p q : ProtectedScope) : Prop :=
  (∀ n, n ∈ p.(ProtectedScope.nodes) ↔ n ∈ q.(ProtectedScope.nodes)) ∧
  (∀ m, m ∈ p.(ProtectedScope.runtime_mounts) ↔ m ∈ q.(ProtectedScope.runtime_mounts)) ∧
  (∀ m, m ∈ p.(ProtectedScope.persistent_mounts) ↔ m ∈ q.(ProtectedScope.persistent_mounts)).

(** Two documents describe the same plan. *)
Record same_description (a b : PlanDocument) : Prop := {
  same_schema : a.(PlanDocument.schema_version) = b.(PlanDocument.schema_version);
  same_semantics : a.(PlanDocument.action_semantics_version) = b.(PlanDocument.action_semantics_version);
  same_plan : a.(PlanDocument.plan_id) = b.(PlanDocument.plan_id);
  same_baseline_id :
    a.(PlanDocument.baseline).(HistoricalBaseline.id) = b.(PlanDocument.baseline).(HistoricalBaseline.id);
  same_baseline : same_observations a.(PlanDocument.baseline) b.(PlanDocument.baseline);
  same_requested : same_goal a.(PlanDocument.requested_goal) b.(PlanDocument.requested_goal);
  same_protected : same_scope a.(PlanDocument.protected_scope) b.(PlanDocument.protected_scope);
  same_actions : canonical_actions a.(PlanDocument.actions) = canonical_actions b.(PlanDocument.actions);
  same_order : ∀ d, d ∈ a.(PlanDocument.dependencies) ↔ d ∈ b.(PlanDocument.dependencies) }.

(** The encoded parts of a goal and of a policy. *)
Record goal_parts (g : DesiredState) ms vl vk runtime persistent boot intents : Prop := {
  goal_parts_graph : graph_parts g.(DesiredState.graph) ms vl vk;
  goal_parts_runtime : mapM mount_entry_value g.(DesiredState.mounts).(MountSpec.runtime) = Some runtime;
  goal_parts_persistent :
    mapM mount_entry_value g.(DesiredState.mounts).(MountSpec.persistent) = Some persistent;
  goal_parts_boot : boot_value g.(DesiredState.boot) = Some boot;
  goal_parts_intents : mapM intent_value g.(DesiredState.intents) = Some intents }.

Definition goal_form ms vl vk runtime persistent boot intents : Value :=
  Value.Object [("boot", sort_object_keys boot); ("graph", graph_form ms vl vk);
                ("intents", list_form intents);
                ("mounts", Value.Object [("persistent", bag_form persistent);
                                         ("runtime", bag_form runtime)])]%string.

Lemma goal_value_parts g v :
  goal_value g = Some v → ∃ ms vl vk runtime persistent boot intents,
    goal_parts g ms vl vk runtime persistent boot intents ∧
    v = Value.Object
      [("graph", Value.Object [("nodes", Value.Object ms); ("dependencies", Value.Array vl);
                               ("relations", Value.Array vk)]);
       ("mounts", Value.Object [("runtime", Value.Array runtime); ("persistent", Value.Array persistent)]);
       ("boot", boot); ("intents", Value.Array intents)]%string.
Proof.
  unfold goal_value. destruct (graph_value _) as [w|] eqn:Hg; [|done].
  apply graph_value_parts in Hg as (ms & vl & vk & Hg & ->). unfold object, array.
  destruct (mapM mount_entry_value g.(DesiredState.mounts).(MountSpec.runtime)) as [runtime|] eqn:Hr; [|done].
  destruct (mapM mount_entry_value g.(DesiredState.mounts).(MountSpec.persistent)) as [persistent|] eqn:Hp;
    [|done].
  destruct (boot_value _) as [boot|] eqn:Hb; [|done].
  destruct (mapM intent_value _) as [intents|] eqn:Hi; [|done].
  intros [= <-]. exists ms, vl, vk, runtime, persistent, boot, intents. done.
Qed.

Definition scope_parts (p : ProtectedScope) nodes runtime persistent : Prop :=
  mapM id_value p.(ProtectedScope.nodes) = Some nodes ∧
  mapM protected_mount_value p.(ProtectedScope.runtime_mounts) = Some runtime ∧
  mapM protected_mount_value p.(ProtectedScope.persistent_mounts) = Some persistent.

Definition scope_form nodes runtime persistent : Value :=
  Value.Object [("nodes", set_form nodes); ("persistent_mounts", set_form persistent);
                ("runtime_mounts", set_form runtime)]%string.

Lemma scope_value_parts p v :
  scope_value p = Some v → ∃ nodes runtime persistent,
    scope_parts p nodes runtime persistent ∧
    v = Value.Object [("nodes", Value.Array nodes); ("runtime_mounts", Value.Array runtime);
                      ("persistent_mounts", Value.Array persistent)]%string.
Proof.
  unfold scope_value, scope_parts, object, array.
  destruct (mapM id_value _) as [nodes|]; [|done].
  destruct (mapM protected_mount_value p.(ProtectedScope.runtime_mounts)) as [runtime|]; [|done].
  destruct (mapM protected_mount_value p.(ProtectedScope.persistent_mounts)) as [persistent|]; [|done].
  intros [= <-]. exists nodes, runtime, persistent. done.
Qed.

Context `{!WireLaws}.

Lemma goal_form_eq g h ms vl vk rs ps b ins ms' vl' vk' rs' ps' b' ins' :
  goal_parts g ms vl vk rs ps b ins → goal_parts h ms' vl' vk' rs' ps' b' ins' →
  goal_form ms vl vk rs ps b ins = goal_form ms' vl' vk' rs' ps' b' ins' ↔ same_goal g h.
Proof.
  intros [Hg Hr Hp Hb Hi] [Hg' Hr' Hp' Hb' Hi']. unfold same_goal.
  rewrite <-(graph_form_eq _ _ _ _ _ _ _ _ Hg Hg'),
    <-(bag_form_eq _ mount_entry_faithful _ _ _ _ Hr Hr'),
    <-(bag_form_eq _ mount_entry_faithful _ _ _ _ Hp Hp'),
    <-(list_form_eq _ intent_faithful _ _ _ _ Hi Hi').
  assert (sort_object_keys b = sort_object_keys b' ↔ g.(DesiredState.boot) = h.(DesiredState.boot)) as <-.
  { split; [by apply (boot_faithful _ _ _ _ Hb Hb')|]. intros Heq. rewrite Heq in Hb. congruence. }
  unfold goal_form. split; [|by intros (-> & -> & -> & -> & ->)]. intros Heq. repeat split; congruence.
Qed.

Lemma id_faithful : faithful id_value.
Proof. intros x y u v [= <-] [= <-] [= He]. by apply (inj uuid_text). Qed.

Lemma scope_form_eq p q ns rs ps ns' rs' ps' :
  scope_parts p ns rs ps → scope_parts q ns' rs' ps' →
  scope_form ns rs ps = scope_form ns' rs' ps' ↔ same_scope p q.
Proof.
  intros (Hn & Hr & Hp) (Hn' & Hr' & Hp'). unfold same_scope.
  rewrite <-(set_form_eq _ id_faithful _ _ _ _ Hn Hn'),
    <-(set_form_eq _ protected_mount_faithful _ _ _ _ Hr Hr'),
    <-(set_form_eq _ protected_mount_faithful _ _ _ _ Hp Hp').
  unfold scope_form. split; [|by intros (-> & -> & ->)]. intros Heq. repeat split; congruence.
Qed.
End documents.

(** ** Canonical documents *)

Section canonical.
Context `{WireEncoder}.

(** A document whose parts have the canonical values [capacity], [snapshot],
    [goal] and [scope]. *)
Definition document_form (a : PlanDocument) capacity snapshot goal scope actions dependencies : Value :=
  Value.Object
    [("action_semantics_version", Value.Number a.(PlanDocument.action_semantics_version));
     ("actions", list_form actions);
     ("baseline", Value.Object
        [("capacity_evidence", bag_form capacity);
         ("id", Value.String (uuid_text a.(PlanDocument.baseline).(HistoricalBaseline.id)));
         ("snapshot", snapshot)]);
     ("dependencies", set_form dependencies);
     ("plan_id", Value.String (uuid_text a.(PlanDocument.plan_id)));
     ("protected_scope", scope); ("requested_goal", goal);
     ("schema_version", Value.Number a.(PlanDocument.schema_version))]%string.

Definition canonical_parts (a : PlanDocument) (v : Value) : Prop :=
  ∃ ms vl vk mounts env ds gms gvl gvk rs ps b ins ns sr sp capacity actions dependencies,
    snapshot_parts a.(PlanDocument.baseline).(HistoricalBaseline.snapshot) ms vl vk mounts env ds ∧
    goal_parts a.(PlanDocument.requested_goal) gms gvl gvk rs ps b ins ∧
    scope_parts a.(PlanDocument.protected_scope) ns sr sp ∧
    mapM capacity_value a.(PlanDocument.baseline).(HistoricalBaseline.capacity_evidence) = Some capacity ∧
    mapM action_value a.(PlanDocument.actions) = Some actions ∧
    mapM action_dependency_value a.(PlanDocument.dependencies) = Some dependencies ∧
    v = document_form a capacity (snapshot_form ms vl vk mounts env ds)
          (goal_form gms gvl gvk rs ps b ins) (scope_form ns sr sp) actions dependencies.

Lemma canonical_value_parts a v : canonical_value a = Ok v → canonical_parts a v.
Proof.
  unfold canonical_value. destruct (document_value a) as [w|] eqn:Hw; [|done].
  revert Hw. unfold document_value, baseline_value, id_value.
  destruct (snapshot_value _) as [s|] eqn:Hs; [|done].
  apply snapshot_value_parts in Hs as (ms & vl & vk & mounts & env & ds & Hs & ->).
  unfold array. destruct (mapM capacity_value _) as [capacity|] eqn:Hc; [|done].
  destruct (goal_value _) as [g|] eqn:Hg; [|done].
  apply goal_value_parts in Hg as (gms & gvl & gvk & rs & ps & b & ins & Hg & ->).
  destruct (scope_value _) as [p|] eqn:Hp; [|done].
  apply scope_value_parts in Hp as (ns & sr & sp & Hp & ->).
  destruct (mapM action_value _) as [actions|] eqn:Ha; [|done].
  destruct (mapM action_dependency_value _) as [dependencies|] eqn:Hd; [|done].
  intros [= <-] [= <-]. exists ms, vl, vk, mounts, env, ds, gms, gvl, gvk, rs, ps, b, ins, ns, sr, sp.
  exists capacity, actions, dependencies. done.
Qed.

Context `{!WireLaws}.

(** Everything but the actions, which are compared as they are stored. *)
Lemma canonical_value_eq a b va vb :
  canonical_value a = Ok va → canonical_value b = Ok vb →
  va = vb ↔
    a.(PlanDocument.schema_version) = b.(PlanDocument.schema_version) ∧
    a.(PlanDocument.action_semantics_version) = b.(PlanDocument.action_semantics_version) ∧
    a.(PlanDocument.plan_id) = b.(PlanDocument.plan_id) ∧
    a.(PlanDocument.baseline).(HistoricalBaseline.id) = b.(PlanDocument.baseline).(HistoricalBaseline.id) ∧
    same_observations a.(PlanDocument.baseline) b.(PlanDocument.baseline) ∧
    same_goal a.(PlanDocument.requested_goal) b.(PlanDocument.requested_goal) ∧
    same_scope a.(PlanDocument.protected_scope) b.(PlanDocument.protected_scope) ∧
    a.(PlanDocument.actions) = b.(PlanDocument.actions) ∧
    (∀ d, d ∈ a.(PlanDocument.dependencies) ↔ d ∈ b.(PlanDocument.dependencies)).
Proof.
  intros (?&?&?&?&?&?&?&?&?&?&?&?&?&?&?&?& ca & la & da & Hs & Hg & Hp & Hc & Ha & Hd & ->)%canonical_value_parts.
  intros (?&?&?&?&?&?&?&?&?&?&?&?&?&?&?&?& cb & lb & db & Hs' & Hg' & Hp' & Hc' & Ha' & Hd' & ->)%canonical_value_parts.
  unfold same_observations.
  rewrite <-(snapshot_form_eq _ _ _ _ _ _ _ _ _ _ _ _ _ _ Hs Hs'),
    <-(goal_form_eq _ _ _ _ _ _ _ _ _ _ _ _ _ _ _ _ Hg Hg'),
    <-(scope_form_eq _ _ _ _ _ _ _ _ Hp Hp'), <-(bag_form_eq _ capacity_faithful _ _ _ _ Hc Hc'),
    <-(list_form_eq _ action_faithful _ _ _ _ Ha Ha'),
    <-(set_form_eq _ action_dependency_faithful _ _ _ _ Hd Hd').
  unfold document_form. split.
  - intros Heq. repeat split; try congruence; apply (inj uuid_text); congruence.
  - by intros (-> & -> & -> & -> & [-> ->] & -> & -> & -> & ->).
Qed.

Lemma canonical_json_inv display json json' a text :
  canonical_json display json json' a = Ok text → ∃ actions v,
    canonical_actions a.(PlanDocument.actions) = Ok actions ∧ text = value_text v ∧
    canonical_value (PlanDocument.mk a.(PlanDocument.schema_version)
      a.(PlanDocument.action_semantics_version) a.(PlanDocument.plan_id) a.(PlanDocument.baseline)
      a.(PlanDocument.requested_goal) a.(PlanDocument.protected_scope) actions
      a.(PlanDocument.dependencies)) = Ok v.
Proof.
  unfold canonical_json. destruct (analyse_historical _ _ _ a); [|discriminate].
  destruct (canonical_actions _) as [actions|]; [|discriminate].
  set (doc := PlanDocument.mk _ _ _ _ _ _ _ _).
  destruct (canonical_value doc) as [v|] eqn:Hv; [|discriminate]. intros [= <-]. eauto.
Qed.

(** Two documents that have a canonical text have the same text exactly when
    they describe the same plan: the order of nodes, edges, mounts, capacity
    records, protected objects and dependencies plays no part, and neither does
    the order in which the actions are stored or the layout of their contracts;
    anything else that differs shows. *)
Theorem canonical_json_identifies display json json' a b text_a text_b :
  canonical_json display json json' a = Ok text_a → canonical_json display json json' b = Ok text_b →
  text_a = text_b ↔ same_description a b.
Proof.
  intros (la & va & Ha & -> & Hva)%canonical_json_inv (lb & vb & Hb & -> & Hvb)%canonical_json_inv.
  assert (value_text va = value_text vb ↔ va = vb) as ->.
  { split; [apply (inj value_text)|congruence]. }
  rewrite (canonical_value_eq _ _ _ _ Hva Hvb). clear Hva Hvb. simpl. split.
  - intros (?&?&?&?&?&?&?& -> &?). split; try done. congruence.
  - intros []. repeat (split; [done|]). split; [congruence|done].
Qed.
End canonical.
