(* ===== verification/Examples.v ===== *)
(** * Concrete systems

    A disk with an ext4 filesystem that is checked and gets a persistent mount
    entry, and an LVM volume group on which a volume is created, formatted and
    mounted.  The theorems with hypotheses are applied to them, so every
    hypothesis is met by a system the code accepts. *)

From stdpp Require Import relations pretty.
From S2P Require Import Prelude Model Reach Graph GraphOrder GraphValid State.
From S2P Require Import Action Contract ContractProps Logical Evidence.
From S2P Require Import Prerequisites Effects Report PlanOrder Compose.
From S2P Require Import ComposeProps Simulate SimulateProps Wire Observation.
From S2P Require Import Correlate Draft Build BuildProps PreviewProps Session.
From S2P Require Import SessionProps Documents DocumentProps History Freeze.
From S2P Require Import Execution Json WireJsonProps.
From S2P Require Import Contract ContractProps Logical Evidence Prerequisites.
From S2P Require Import Effects Report.
From S2P Require Import PlanOrder Compose ComposeProps Simulate SimulateProps.
From S2P Require Import Wire Observation.
From S2P Require Import Correlate Observe Execution ExecutionProps Live.
From S2P Require Import LiveProps LiveGoal.

(** ** A serializer

    It writes one constructor of each type and fails on the others, as a
    serializer may. *)

Definition sample_json : Json := {|
  json_prerequisite p :=
    match p with ActionPrerequisite.NodeExists n => Ok (pretty n) | _ => Err tt end;
  json_output o :=
    match o with ActionOutput.FilesystemCheckPassed n => Ok (pretty n) | _ => Err tt end;
  json_resource r :=
    match r with
    | ResourceAccess.mk (ActionResource.Node n) ResourceAccessMode.Write => Ok (pretty n)
    | _ => Err tt
    end;
  json_fact f :=
    match f with
    | FactInvalidation.mk (FactScope.Node n) FactKind.Presence => Ok (pretty n)
    | _ => Err tt
    end;
  json_postcondition q :=
    match q with Postcondition.NodeAbsent n => Ok (pretty n) | _ => Err tt end;
  json_effect e :=
    match e with GraphEffect.RemoveNode n => Ok (pretty n) | _ => Err tt end |}.

Lemma sample_json_faithful : json_faithful sample_json.
Proof.
  split; intros x y s; simpl; repeat (case_match; try done); intros [= <-] [= Heq];
    apply (inj pretty) in Heq; by subst.
Qed.

Definition sample_serializers : Serializers := λ _, (sample_json, sample_json).

Lemma sample_serializers_faithful : serializers_faithful sample_serializers.
Proof. intros id. split; apply sample_json_faithful. Qed.

(** ** A filesystem on a disk *)

Definition plain (k : NodeKind) : Node := Node.mk (NodeSpec.mk k None) NodeFacts.default.
Definition root_path (name : string) : PathBuf := [Component.RootDir; Component.Normal name].

Definition disk_graph : NodeGraph := NodeGraph.mk
  {[1%N := plain NodeKind.Disk; 5%N := plain (NodeKind.Filesystem FilesystemKind.Ext4 None)]}
  [Dependency.mk 1 5 DependencyKind.Backs] [].
Definition sample_environment : Environment := Environment.mk SystemEnvironment.default None.
Definition disk_state : CurrentState :=
  CurrentState.mk disk_graph (MountState.mk []) sample_environment [].

Definition data_mount : MountEntry :=
  MountEntry.mk (MountSource.Filesystem 5) (root_path "data") [] MountContext.Host.

Definition check_fragment : PlanFragment := PlanFragment.mk
  [FragmentAction.mk 0 (ProviderAction.Filesystem (FilesystemAction.Check 5 false))] [] []
  (FragmentOrigin.Intent 0) [].
Definition persist_fragment : PlanFragment := PlanFragment.mk
  [FragmentAction.mk 0 (ProviderAction.Mount (MountAction.Persist data_mount))] [] []
  (FragmentOrigin.Mount (root_path "data") MountContext.Host) [].
Definition disk_fragments : list PlanFragment := [check_fragment; persist_fragment].
(** The entry is written after the check. *)
Definition disk_ordering : list FragmentOrdering :=
  [FragmentOrdering.mk (FragmentActionRef.mk 0 0) (FragmentActionRef.mk 1 0)
     DependencyReason.RequestedOrder].

Definition disk_goal : DesiredState :=
  DesiredState.mk disk_graph (MountSpec.mk [] [data_mount]) BootSpec.Unmanaged
    [OperationIntent.Check 5 false].
Definition disk_policy : ProtectedScope :=
  ProtectedScope.mk [1%N] [ProtectedMount.mk (root_path "home") MountContext.Host] [].

Definition plan_or_empty (r : composition ExecutionPlan) : ExecutionPlan :=
  match r with Ok p => p | Err _ => ExecutionPlan.mk [] [] end.
Definition disk_plan : ExecutionPlan :=
  Eval vm_compute in plan_or_empty (compose_plan_with_ordering disk_state disk_fragments disk_ordering []).

Definition disk_report : SimulationReport :=
  match simulate_plan_for_goal_with_policy sample_serializers disk_state disk_plan disk_goal [] disk_policy with
  | Ok r => r
  | Err _ => SimulationReport.mk
               (SimulationResult.mk (from_current disk_state) (evidence_summary SimulationEvidence.default) [])
               [] [] [] []
  end.
Definition disk_document : PlanDocument :=
  PlanDocument.mk PLAN_SCHEMA_VERSION ACTION_SEMANTICS_VERSION 7
    (HistoricalBaseline.mk 9 disk_state []) disk_goal disk_policy
    disk_plan.(ExecutionPlan.actions) disk_plan.(ExecutionPlan.dependencies).
Definition sample_display (e : GraphError) : string := "invalid graph".

(** ** A run of the document

    The host reports complete evidence with increasing epochs. *)

Definition sample_observation (epoch : ProbeEpoch) : LiveObservation :=
  LiveObservation.mk (ObservationReference.mk 77 epoch) disk_state.
Definition satisfied_checks {T} (conditions : list T) : list (LiveCheck T) :=
  (λ c, LiveCheck.mk c LiveCheckStatus.Satisfied) <$> conditions.

Definition admit_ops (id : ActionId) (c : ActionContract) (epoch : ProbeEpoch) : list RunOp :=
  [RunOp.BeginCheck id;
   RunOp.RecordAdmission (AdmissionReport.mk 42 id (sample_observation epoch)
     LiveCheckStatus.Satisfied c.(ActionContract.affected_resources)
     (satisfied_checks c.(ActionContract.prerequisites)))].
Definition perform_ops (id : ActionId) (c : ActionContract) (epoch : ProbeEpoch) : list RunOp :=
  [RunOp.MarkDispatchStarted id;
   RunOp.RecordProgress id "working";
   RunOp.RecordCompletion (BackendCompletion.mk 42 id BackendOutcome.Succeeded (sample_observation epoch));
   RunOp.RecordVerification (VerificationReport.mk 42 id (ObservationReference.mk 77 epoch)
     (satisfied_checks c.(ActionContract.postconditions)))].

Definition disk_contract (id : nat) : ActionContract :=
  match disk_plan.(ExecutionPlan.actions) !! id with
  | Some a => a.(PlannedAction.informational_contract)
  | None => describe_action (ProviderAction.Mount (MountAction.RemovePersistent [] MountContext.Host)) disk_graph
  end.
Definition goal_report : GoalVerificationReport :=
  GoalVerificationReport.mk 42 (sample_observation 5)
    (satisfied_checks (GoalCheck.aspect <$> disk_report.(SimulationReport.goal_checks)))
    LiveCheckStatus.Satisfied.

Definition first_half : list RunOp :=
  admit_ops 0 (disk_contract 0) 1 ++ perform_ops 0 (disk_contract 0) 2 ++ admit_ops 1 (disk_contract 1) 3.
Definition second_half : list RunOp :=
  perform_ops 1 (disk_contract 1) 4 ++ [RunOp.RecordGoalVerification goal_report].

Definition run_ops (ops : list RunOp) (run : ExecutionRun) : ExecutionRun :=
  foldl (λ run op, (run_op op run).1) run ops.

Definition initial_run : ExecutionRun :=
  match execution_run_new sample_display sample_serializers sample_serializers 42 disk_document with
  | Ok run => run
  | Err _ => ExecutionRun.mk 0 disk_document disk_plan [] None [] None [] 1
  end.
Definition admitted_run : ExecutionRun := Eval vm_compute in run_ops first_half initial_run.
Definition finished_run : ExecutionRun := Eval vm_compute in run_ops second_half admitted_run.

Lemma run_ops_steps ops run : rtc run_step run (run_ops ops run).
Proof.
  revert run. induction ops as [|op ops IH]; intros run; simpl; [apply rtc_refl|].
  eapply rtc_l; [by exists op|apply IH].
Qed.

Lemma initial_run_new :
  execution_run_new sample_display sample_serializers sample_serializers 42 disk_document =
  Ok initial_run.
Proof. vm_compute. reflexivity. Qed.

Lemma admitted_reachable : reachable disk_document admitted_run.
Proof.
  exists sample_display, sample_serializers, sample_serializers, 42%N, initial_run.
  split; [apply initial_run_new|]. change admitted_run with (run_ops first_half initial_run).
  apply run_ops_steps.
Qed.

Lemma finished_reachable : reachable disk_document finished_run.
Proof.
  exists sample_display, sample_serializers, sample_serializers, 42%N, initial_run.
  split; [apply initial_run_new|].
  change finished_run with (run_ops second_half (run_ops first_half initial_run)).
  etrans; apply run_ops_steps.
Qed.

(** The run really gets there. *)
Example finished_is_verified : is_verified finished_run = true.
Proof. vm_compute. reflexivity. Qed.

(** ** A volume group *)

Definition lvm_graph : NodeGraph := NodeGraph.mk
  {[1%N := plain NodeKind.Disk; 2%N := plain NodeKind.LvmPv;
    3%N := plain (NodeKind.LvmVg "vg" (Some 4%N))]}
  [Dependency.mk 1 2 DependencyKind.Backs;
   Dependency.mk 2 3 (DependencyKind.MemberOf MemberRole.LvmPv)] [].
Definition lvm_state : CurrentState :=
  CurrentState.mk lvm_graph (MountState.mk []) sample_environment [].
Definition create_lv : ProviderAction :=
  ProviderAction.Lvm (LvmAction.CreateLv 3 4 "data" 8 LvmLvKind.Linear).
Definition mount_lv : ProviderAction :=
  ProviderAction.Mount (MountAction.Mount (MountSource.Filesystem 5) (root_path "srv") [] MountContext.Host).

(** The fragments in an order that is not the execution order. *)
Definition lvm_fragments : list PlanFragment :=
  [PlanFragment.mk
     [FragmentAction.mk 0 (ProviderAction.Filesystem (FilesystemAction.Create 4 5 FilesystemKind.Ext4 None))]
     [] [] (FragmentOrigin.Change 5 "format") [];
   PlanFragment.mk [FragmentAction.mk 0 create_lv] [] [] (FragmentOrigin.Change 4 "create") [];
   PlanFragment.mk [FragmentAction.mk 0 mount_lv] [] []
     (FragmentOrigin.Mount (root_path "srv") MountContext.Host) []].
Definition lvm_capacity : list CapacityEvidence :=
  [CapacityEvidence.mk (AllocationDomain.LvmVolumeGroup 3) 10].
Definition lvm_plan : ExecutionPlan :=
  Eval vm_compute in plan_or_empty (compose_plan_with_ordering lvm_state lvm_fragments [] lvm_capacity).

Example lvm_plan_order :
  ordered_actions (E:=PlanSimulationError) lvm_plan =
  Ok (omap (λ i, lvm_plan.(ExecutionPlan.actions) !! i) [1; 0; 2]).
Proof. vm_compute. reflexivity. Qed.

(** ** An identified filesystem

    Disk and filesystem carry durable identities, and every probe numbers them
    afresh; the plan mounts the filesystem. *)

Definition identified (k : NodeKind) (identity : ExternalId) (epoch : ProbeEpoch) : Node :=
  Node.mk (NodeSpec.mk k None)
    (NodeFacts.mk None (Some epoch) Presence.Present [identity] None None).
Definition probed_graph (disk fs : NodeId) (epoch : ProbeEpoch) : NodeGraph := NodeGraph.mk
  {[disk := identified NodeKind.Disk (ExternalId.Wwn "0x5000c500a1b2c3d4") epoch;
    fs := identified (NodeKind.Filesystem FilesystemKind.Ext4 None)
            (ExternalId.Filesystem "ext4" "6b1f") epoch]}
  [Dependency.mk disk fs DependencyKind.Backs] [].
Definition probed_state (disk fs : NodeId) (epoch : ProbeEpoch) (mounts : list ObservedMount)
    : CurrentState :=
  CurrentState.mk (probed_graph disk fs epoch) (MountState.mk mounts) sample_environment [].

Definition srv_mount : MountEntry :=
  MountEntry.mk (MountSource.Filesystem 5) (root_path "srv") ["rw"] MountContext.Host.
Definition srv_goal (runtime : list MountEntry) : DesiredState :=
  DesiredState.mk (probed_graph 1 5 0) (MountSpec.mk runtime []) BootSpec.Unmanaged [].
Definition srv_fragment : PlanFragment := PlanFragment.mk
  [FragmentAction.mk 0 (ProviderAction.Mount
     (MountAction.Mount (MountSource.Filesystem 5) (root_path "srv") ["rw"] MountContext.Host))] [] []
  (FragmentOrigin.Mount (root_path "srv") MountContext.Host) [].
Definition srv_plan : ExecutionPlan :=
  Eval vm_compute in
    plan_or_empty (compose_plan_with_ordering (probed_state 1 5 0 []) [srv_fragment] [] []).
Definition srv_document (runtime : list MountEntry) : PlanDocument :=
  PlanDocument.mk PLAN_SCHEMA_VERSION ACTION_SEMANTICS_VERSION 7
    (HistoricalBaseline.mk 9 (probed_state 1 5 0 []) []) (srv_goal runtime) disk_policy
    srv_plan.(ExecutionPlan.actions) srv_plan.(ExecutionPlan.dependencies).

Definition srv_before : LiveObservation :=
  LiveObservation.mk (ObservationReference.mk 77 1) (probed_state 21 25 1 []).
Definition srv_after (epoch : ProbeEpoch) : LiveObservation :=
  LiveObservation.mk (ObservationReference.mk 77 epoch)
    (probed_state 31 35 epoch
       [ObservedMount.mk (MountSource.Filesystem 35) (root_path "srv") ["rw"] MountContext.Host]).
Definition srv_contract : ActionContract :=
  match srv_plan.(ExecutionPlan.actions) with
  | a :: _ => a.(PlannedAction.informational_contract)
  | [] => disk_contract 0
  end.

Definition correlation_display (e : CorrelationError) : string := "not correlated".
Definition srv_context (runtime : list MountEntry) : ExecutionContext :=
  ExecutionContext.mk 42 7 srv_plan (HistoricalBaseline.mk 9 (probed_state 1 5 0 []) [])
    (srv_goal runtime) disk_policy.
Definition srv_goal_checks (runtime : list MountEntry) : list (LiveCheck GoalAspect) :=
  match check_observed_goal correlation_display (srv_context runtime) (srv_after 3) [] with
  | Ok checks => checks
  | Err _ => []
  end.
Definition srv_goal_report : GoalVerificationReport :=
  GoalVerificationReport.mk 42 (srv_after 3) (srv_goal_checks [srv_mount]) LiveCheckStatus.Satisfied.

Definition srv_ops : list RunOp :=
  [RunOp.BeginCheck 0;
   RunOp.RecordAdmission (AdmissionReport.mk 42 0 srv_before LiveCheckStatus.Satisfied
     srv_contract.(ActionContract.affected_resources)
     (satisfied_checks srv_contract.(ActionContract.prerequisites)));
   RunOp.MarkDispatchStarted 0;
   RunOp.RecordCompletion (BackendCompletion.mk 42 0 BackendOutcome.Succeeded (srv_after 2));
   RunOp.RecordVerification (VerificationReport.mk 42 0 (ObservationReference.mk 77 2)
     (satisfied_checks srv_contract.(ActionContract.postconditions)));
   RunOp.RecordGoalVerification srv_goal_report].

Definition srv_initial (runtime : list MountEntry) : ExecutionRun :=
  match execution_run_new sample_display sample_serializers sample_serializers 42
          (srv_document runtime) with
  | Ok run => run
  | Err _ => initial_run
  end.
Definition srv_run : ExecutionRun := run_ops srv_ops (srv_initial [srv_mount]).

(** The goal check finds the requested mount although every node was
    renumbered, and the run ends verified. *)
Example srv_goal_satisfied :
  forallb (λ c, bool_decide (c.(LiveCheck.status) = LiveCheckStatus.Satisfied))
    (srv_goal_checks [srv_mount]) = true ∧ length (srv_goal_checks [srv_mount]) = 3.
Proof. by vm_compute. Qed.
Example srv_run_verified : is_verified srv_run = true.
Proof. by vm_compute. Qed.

(** ** Witnesses: composition and simulation *)

Lemma compose_plan_wf_witness : plan_wf lvm_plan.
Proof.
  apply (compose_plan_wf lvm_state lvm_fragments [] lvm_capacity). vm_compute. reflexivity.
Defined.

Lemma compose_plan_inputs_witness :
  inputs_bound lvm_state (draft_of <$> lvm_plan.(ExecutionPlan.actions))
    (draft_of <$> lvm_plan.(ExecutionPlan.actions)) lvm_plan.(ExecutionPlan.dependencies).
Proof.
  apply (compose_plan_inputs lvm_state lvm_fragments [] lvm_capacity lvm_plan). vm_compute. reflexivity.
Defined.

Lemma composed_plan_replays_witness :
  ∃ result, replay_plan sample_serializers lvm_state lvm_plan lvm_capacity = Ok (lvm_plan, result).
Proof.
  apply (composed_plan_replays _ _ lvm_fragments []). vm_compute. reflexivity.
Defined.

Lemma simulation_protects_witness :
  preserves disk_policy (from_current disk_state)
    disk_report.(SimulationReport.simulation).(SimulationResult.desired).
Proof.
  apply (simulation_protects sample_serializers disk_state disk_plan disk_goal [] disk_policy disk_report).
  - apply sample_serializers_faithful.
  - vm_compute. reflexivity.
  - vm_compute. reflexivity.
Defined.

Lemma complete_report_sound_witness :
  reaches disk_report.(SimulationReport.simulation).(SimulationResult.desired) disk_goal.
Proof.
  apply (complete_report_sound sample_serializers disk_state disk_plan disk_goal [] disk_policy disk_report).
  - apply sample_serializers_faithful.
  - split; vm_compute; repeat constructor; set_solver.
  - split; vm_compute; repeat constructor; set_solver.
  - vm_compute. reflexivity.
  - vm_compute. reflexivity.
Defined.

Lemma compose_for_goal_sound_witness :
  ∃ plan, compose_plan_for_goal_with_policy sample_serializers disk_state disk_goal disk_fragments []
            disk_policy = Ok plan ∧ composed disk_state [] plan.
Proof.
  pose proof (compose_for_goal_sound sample_serializers disk_state disk_goal disk_fragments []
    disk_policy sample_serializers_faithful) as Hr.
  destruct (compose_plan_for_goal_with_policy _ _ _ _ _ _) as [plan|e] eqn:Hp.
  - exists plan. split; [reflexivity|]. exact (proj1 Hr).
  - exfalso. revert Hp. vm_compute. discriminate.
Defined.

Lemma import_sound_witness :
  ∃ analysis, analyse_historical sample_display sample_serializers sample_serializers disk_document =
                Ok analysis ∧ analysis_sound sample_serializers disk_document analysis.
Proof.
  assert (ids_u32 disk_document) as Hids.
  { intros a Ha. apply list_elem_of_In in Ha. vm_compute in Ha.
    destruct Ha as [<-|[<-|[]]]; vm_compute; discriminate. }
  pose proof (import_sound sample_display sample_serializers sample_serializers disk_document
    sample_serializers_faithful sample_serializers_faithful Hids) as Hr.
  destruct (analyse_historical _ _ _ _) as [an|e] eqn:Ha.
  - exists an. split; [reflexivity|exact Hr].
  - exfalso. revert Ha. vm_compute. discriminate.
Defined.

(** ** Witnesses: execution *)

Lemma run_op_atomic_witness :
  (run_op (RunOp.RecordProgress 0 "late") finished_run).1 = finished_run ∧
  run_transition admitted_run (run_op (RunOp.MarkDispatchStarted 1) admitted_run).1.
Proof.
  pose proof (run_op_atomic disk_document finished_run (RunOp.RecordProgress 0 "late")
    finished_reachable) as H1.
  pose proof (run_op_atomic disk_document admitted_run (RunOp.MarkDispatchStarted 1)
    admitted_reachable) as H2.
  split.
  - destruct (run_op (RunOp.RecordProgress 0 "late") finished_run) as [run' [[]|e]] eqn:He.
    + exfalso. revert He. vm_compute. discriminate.
    + exact (proj1 H1).
  - destruct (run_op (RunOp.MarkDispatchStarted 1) admitted_run) as [run' [[]|e]] eqn:He.
    + exact H2.
    + exfalso. revert He. vm_compute. discriminate.
Defined.

Lemma run_serial_witness : verified_action admitted_run 0.
Proof.
  destruct (run_serial disk_document admitted_run admitted_reachable) as (_ & _ & Hp).
  destruct (admitted_run.(ExecutionRun.actions) !! 1) as [r|] eqn:Hr.
  - apply (Hp 1 0 r Hr).
    + revert Hr. vm_compute. intros [= <-]. discriminate.
    + vm_compute. left.
  - exfalso. revert Hr. vm_compute. discriminate.
Defined.

Lemma run_evidence_witness :
  ∃ r, finished_run.(ExecutionRun.actions) !! 1 = Some r ∧
       r.(ActionRun.state) = ActionRunState.Verified ∧ evidence_ok finished_run 1 r.
Proof.
  destruct (finished_run.(ExecutionRun.actions) !! 1) as [r|] eqn:Hr.
  - exists r. split_and!; [reflexivity| |].
    + revert Hr. vm_compute. by intros [= <-].
    + exact (run_evidence disk_document finished_run 1 r finished_reachable Hr).
  - exfalso. revert Hr. vm_compute. discriminate.
Defined.

Lemma run_step_monotone_witness :
  ∃ r', (run_op (RunOp.MarkDispatchStarted 1) admitted_run).1.(ExecutionRun.actions) !! 0 = Some r' ∧
        r'.(ActionRun.state) = ActionRunState.Verified.
Proof.
  destruct (run_step_monotone disk_document admitted_run
    (run_op (RunOp.MarkDispatchStarted 1) admitted_run).1 admitted_reachable) as [Ha _].
  { exists (RunOp.MarkDispatchStarted 1). reflexivity. }
  destruct (admitted_run.(ExecutionRun.actions) !! 0) as [r|] eqn:Hr.
  - assert (r.(ActionRun.state) = ActionRunState.Verified) as Hv
      by (revert Hr; vm_compute; by intros [= <-]).
    destruct (Ha 0 r Hr) as (r' & Hr' & [Heq|Hl]); exists r'; [by rewrite Heq in *|].
    rewrite Hv in Hl. inversion Hl.
  - exfalso. revert Hr. vm_compute. discriminate.
Defined.

Lemma run_verified_sound_witness : verified_action finished_run 0 ∧ verified_action finished_run 1.
Proof.
  destruct (run_verified_sound disk_document finished_run finished_reachable) as [Ha _].
  - vm_compute. reflexivity.
  - split; apply Ha; vm_compute; lia.
Defined.

Lemma events_page_spec_witness :
  ∃ page, events_page finished_run 3 = Ok page ∧ page.(EventsPage.gap) = false ∧
    ∃ e, e ∈ page.(EventsPage.events) ∧ e.(RunEvent.sequence) = 5%N.
Proof.
  pose proof (events_page_spec disk_document finished_run 3 finished_reachable) as Hp.
  destruct (events_page finished_run 3) as [page|e] eqn:He.
  - exists page. assert (page.(EventsPage.gap) = false) as Hg
      by (revert He; vm_compute; by intros [= <-]).
    split_and!; [reflexivity|done|]. destruct Hp as (_ & _ & _ & Hgap).
    apply (proj1 Hgap Hg). vm_compute. by split.
  - exfalso. revert He. vm_compute. discriminate.
Defined.

(** ** Witnesses: single actions and contracts *)

Definition lvm_start : simulation := (from_current lvm_state, SimulationEvidence.default).
Definition disk_start : simulation := (from_current disk_state, SimulationEvidence.default).
Definition mount_disk : ProviderAction :=
  ProviderAction.Mount (MountAction.Mount (MountSource.Filesystem 5) (root_path "srv") [] MountContext.Host).

(** Creating the volume leaves the disk and the physical volume alone. *)
Lemma simulate_action_frame_witness :
  Graph.node (sim_graph (simulate_action lvm_start create_lv).1) 2 = Graph.node lvm_graph 2.
Proof.
  destruct (simulate_action lvm_start create_lv) as [st' [sim|e]] eqn:Hsim.
  - destruct (simulate_action_frame lvm_start create_lv st' sim Hsim) as (Hn & _ & _).
    apply (Hn 2%N). revert Hsim. vm_compute. intros [= _ <-].
    intros Hin%list_elem_of_In. simpl in Hin. naive_solver.
  - exfalso. revert Hsim. vm_compute. discriminate.
Defined.

Lemma simulate_action_mounts_unique_witness :
  mounts_unique (simulate_action disk_start mount_disk).1 ∧
  length (sim_runtime (simulate_action disk_start mount_disk).1) = 1.
Proof.
  split; [|vm_compute; reflexivity].
  apply (simulate_action_mounts_unique disk_start mount_disk). constructor.
Defined.

Lemma verify_imported_contract_sound_witness :
  verify_imported_contract sample_json sample_json create_lv (describe_action create_lv lvm_graph)
    lvm_graph = Ok (describe_action create_lv lvm_graph).
Proof.
  apply (verify_imported_contract_sound sample_json sample_json create_lv
    (describe_action create_lv lvm_graph) lvm_graph); apply sample_json_faithful.
Defined.

Lemma validated_linear_allocation_witness :
  ∃ units, lvm_allocation lvm_graph 3 8 LvmLvKind.Linear = Some units ∧ (units * 4 = 8)%N ∧ (0 < units)%N.
Proof.
  apply (validated_linear_allocation 3 4 "data" 8 lvm_graph "vg" 4); vm_compute; reflexivity.
Defined.

Lemma validated_mount_paths_witness : Component.ParentDir ∉ root_path "srv".
Proof.
  assert (is_absolute (root_path "srv") = true ∧ Component.ParentDir ∉ root_path "srv" ∧
    path_contains_nul (root_path "srv") = false) as (_ & Hp & _); [|exact Hp].
  eapply (validated_mount_paths (MountAction.Unmount (root_path "srv") MountContext.Host) disk_graph).
  - vm_compute. reflexivity.
  - vm_compute. left.
Defined.

Lemma apply_allocation_effects_conserves_witness :
  match apply_allocation_effects
          (set_capacity {[AllocationDomain.LvmVolumeGroup 3 := 10%N]} SimulationEvidence.default)
          [AllocationEffect.Reserve (AllocationDomain.LvmVolumeGroup 3) 4;
           AllocationEffect.Release (AllocationDomain.LvmVolumeGroup 3) 1] with
  | Ok ev => ∃ a, ev.(SimulationEvidence.available_capacity) !! AllocationDomain.LvmVolumeGroup 3 = Some a ∧
                  (a + 4 = 10 + 1)%N
  | Err _ => False
  end.
Proof.
  destruct (apply_allocation_effects _ _) as [ev|e] eqn:He.
  - assert (AllocationEffect.Invalidate (AllocationDomain.LvmVolumeGroup 3) ∉
      [AllocationEffect.Reserve (AllocationDomain.LvmVolumeGroup 3) 4;
       AllocationEffect.Release (AllocationDomain.LvmVolumeGroup 3) 1]) as Hn by set_solver.
    exact (apply_allocation_effects_conserves _ _ ev (AllocationDomain.LvmVolumeGroup 3) He Hn).
  - revert He. vm_compute. discriminate.
Defined.

(** ** Witnesses: graphs, orders and sizes *)

Definition lvm_graph' : NodeGraph :=
  NodeGraph.mk lvm_graph.(NodeGraph.nodes) (reverse lvm_graph.(NodeGraph.dependencies)) [].

Lemma validate_structure_order_independent_witness :
  validate_structure lvm_graph = Ok tt ↔ validate_structure lvm_graph' = Ok tt.
Proof.
  apply (validate_structure_order_independent lvm_graph lvm_graph').
  split; [reflexivity| |reflexivity]. simpl. apply Permutation_swap.
Defined.

Lemma graph_roundtrip_witness : graph_try_from (graph_to_dto lvm_graph) = Ok lvm_graph.
Proof.
  apply (graph_roundtrip lvm_graph).
  - simpl. repeat constructor; set_solver.
  - constructor.
  - vm_compute. reflexivity.
Defined.

Lemma topological_order_correct_witness :
  ∃ order, topological_order_from [3%N; 1%N; 2%N] lvm_graph = Ok order.
Proof.
  assert (NoDup [3%N; 1%N; 2%N]) as Hnd by (repeat constructor; set_solver).
  assert (∀ x, x ∈ [3%N; 1%N; 2%N] ↔ has_node lvm_graph x) as Hk.
  { intros x. unfold has_node, lvm_graph. simpl. rewrite !lookup_insert_is_Some, lookup_singleton_is_Some.
    rewrite !elem_of_cons, elem_of_nil. destruct (decide (x = 1%N)), (decide (x = 2%N)), (decide (x = 3%N));
      naive_solver. }
  destruct (topological_order_correct lvm_graph [3%N; 1%N; 2%N] Hnd Hk) as [_ Hiff].
  apply Hiff. apply (proj1 (topological_order_ok lvm_graph)). vm_compute. by eexists.
Defined.

Lemma action_order_correct_witness :
  topological_order 3 lvm_plan.(ExecutionPlan.dependencies) = Ok [1; 0; 2] ∧
  acyclic (action_edges lvm_plan.(ExecutionPlan.dependencies)).
Proof.
  assert (in_range 3 lvm_plan.(ExecutionPlan.dependencies)) as Hr.
  { intros d Hd. apply list_elem_of_In in Hd. vm_compute in Hd.
    destruct Hd as [<-|[<-|[]]]; vm_compute; lia. }
  assert (N.of_nat 3 <= u32_MAX + 1)%N as Hn by (vm_compute; discriminate).
  pose proof (action_order_correct 3 lvm_plan.(ExecutionPlan.dependencies) Hn Hr) as Ho.
  assert (topological_order 3 lvm_plan.(ExecutionPlan.dependencies) = Ok [1; 0; 2]) as Heq
    by (vm_compute; reflexivity).
  rewrite Heq in Ho. split; [exact Heq|]. apply Ho.
Defined.

Lemma compare_graph_spec_witness : graph_reaches disk_graph disk_graph.
Proof.
  apply (compare_graph_spec disk_graph disk_graph); try (simpl; repeat constructor; set_solver).
Defined.

Lemma range_within_spec_witness : range_within 512 1024 4096 = Ok 1536%N.
Proof. rewrite (range_within_spec 512 1024 4096); [|vm_compute; discriminate]. reflexivity. Defined.

Lemma mib_sectors_roundtrip_witness : from_sectors_512 6144 = 3%N.
Proof. apply (mib_sectors_roundtrip 3 6144). vm_compute. reflexivity. Defined.

(** ** Measured capacity

    Two records: the first group has 50 free extents of 4 MiB, the second one is
    not in the graph. *)

Definition vg_record (node : NodeId) (uuid : string) : LvmVgObservation :=
  LvmVgObservation.mk node (LvmVgEntry.mk "vg0" uuid 419430400 4194304 209715200 1 false).
Definition vg_state : CurrentState := CurrentState.mk
  (NodeGraph.mk {[4%N := Node.mk (NodeSpec.mk (NodeKind.LvmVg "vg0" (Some 4194304%N)) (Some 419430400%N))
     (NodeFacts.mk None None Presence.Present [ExternalId.LvmVgUuid "vg-uuid"] None None)]} [] [])
  (MountState.mk []) sample_environment [].
Example vg_capacity :
  match from_lvm_observations id 11 vg_state [vg_record 4 "vg-uuid"; vg_record 6 "other"] with
  | Ok b => b.(HistoricalBaseline.capacity_evidence) =
              [CapacityEvidence.mk (AllocationDomain.LvmVolumeGroup 4) 50] ∧
            length b.(HistoricalBaseline.snapshot).(CurrentState.diagnostics) = 1
  | Err _ => False
  end.
Proof. by vm_compute. Qed.

(** ** Witnesses: live checks *)

Lemma srv_initial_new runtime :
  runtime = [srv_mount] ∨ runtime = [srv_mount; srv_mount] →
  execution_run_new sample_display sample_serializers sample_serializers 42 (srv_document runtime) =
  Ok (srv_initial runtime).
Proof. intros [->| ->]; vm_compute; reflexivity. Qed.

Lemma srv_attempt runtime ops :
  runtime = [srv_mount] ∨ runtime = [srv_mount; srv_mount] →
  attempt (srv_document runtime) (run_ops ops (srv_initial runtime)).
Proof.
  intros Hr. exists sample_display, sample_serializers, sample_serializers, 42%N, (srv_initial runtime).
  split_and!; [apply sample_serializers_faithful..|by apply srv_initial_new|apply run_ops_steps].
Qed.

Lemma srv_ids runtime : ids_u32 (srv_document runtime).
Proof.
  intros a Ha. apply list_elem_of_In in Ha. vm_compute in Ha.
  destruct Ha as [<-|[]]; vm_compute; discriminate.
Qed.

(** A disk found through two renumberings. *)
Lemma correlate_nodes_compose_witness :
  correlate_nodes (probed_state 1 5 0 []) (probed_state 31 35 2 []) [1%N] =
  Ok [NodeCorrelation.mk 1 31 (ExternalId.Wwn "0x5000c500a1b2c3d4")].
Proof.
  apply (correlate_nodes_compose _ (probed_state 21 25 1 []) _ _
    (NodeCorrelation.mk 1 21 (ExternalId.Wwn "0x5000c500a1b2c3d4"))
    (NodeCorrelation.mk 21 31 (ExternalId.Wwn "0x5000c500a1b2c3d4"))); vm_compute; reflexivity.
Defined.

Lemma live_goal_sound_witness : goal_established (srv_context [srv_mount]) (srv_after 3) [].
Proof.
  pose proof (live_goal_sound correlation_display (srv_context [srv_mount]) (srv_after 3) []
    (from_current (probed_state 1 5 0 [])) (evidence_summary SimulationEvidence.default)) as Hl.
  assert (plan_structured (srv_context [srv_mount]).(ExecutionContext.plan)) as Hs.
  { eapply wf_structured, comp_wf, returns_inv;
      [apply (compose_plan_ok (probed_state 1 5 0 []) [srv_fragment] [] [])|vm_compute; reflexivity]. }
  specialize (Hl Hs (NoDup_nil_2 : NoDup [])).
  destruct (check_observed_goal _ _ _ _) as [checks|e] eqn:Hc.
  - apply Hl. revert Hc. vm_compute. intros [= <-]. by repeat constructor.
  - exfalso. revert Hc. vm_compute. discriminate.
Defined.

Lemma verified_run_reaches_goal_witness :
  goal_established (run_context srv_run) (srv_after 3) [].
Proof.
  apply (verified_run_reaches_goal correlation_display (srv_document [srv_mount]) srv_run
    srv_goal_report []).
  - apply srv_ids.
  - apply NoDup_nil_2.
  - apply srv_attempt. by left.
  - vm_compute. reflexivity.
  - vm_compute. reflexivity.
  - vm_compute. reflexivity.
Defined.

(** A run whose goal repeats a mount entry: its own report is refused. *)
Lemma goal_report_complete_witness :
  checks_cover (srv_initial [srv_mount; srv_mount]).(ExecutionRun.goal_aspects)
    (srv_goal_checks [srv_mount; srv_mount]) = false.
Proof.
  destruct (checks_cover _ _) eqn:Hc; [|reflexivity]. exfalso.
  apply (goal_report_complete correlation_display (srv_document [srv_mount; srv_mount])
    (srv_initial [srv_mount; srv_mount]) (srv_after 3) []) in Hc.
  - destruct Hc as [Hr%NoDup_cons _]. apply Hr. left.
  - apply srv_ids.
  - apply (srv_attempt _ []). by right.
  - vm_compute. reflexivity.
Defined.

(** * Sample sessions

    A session that creates, formats and mounts a logical volume, and one that
    follows its filesystem to a new baseline: the definitions run on them, and
    the theorems about sessions apply to them. *)

(** ** Creating a volume *)

Definition edit_baseline : HistoricalBaseline := HistoricalBaseline.mk 90 lvm_state lvm_capacity.

Definition session_or (r : building PlanSession) : PlanSession :=
  match r with
  | Ok s => s
  | Err _ => PlanSession.mk 1 0 edit_baseline PlanDraft.default
               (PreviewState.Invalid (DraftBuildError.Draft [])) 0 [] []
  end.

Definition new_session : PlanSession :=
  Eval vm_compute in session_or (session_new sample_serializers 80 edit_baseline).
Definition new_volume : PlanEdit := PlanEdit.Add (PlanRequest.CreateLv 3 "data" 8 LvmLvKind.Linear true).
Definition new_filesystem : PlanEdit := PlanEdit.Add (PlanRequest.CreateFilesystem 4 FilesystemKind.Ext4 None).
Definition new_mount : PlanEdit :=
  PlanEdit.Add (PlanRequest.Mount (MountEntry.mk (MountSource.Filesystem 5) (root_path "srv") [] MountContext.Host)).

Definition volume_session : PlanSession :=
  Eval vm_compute in (edit sample_serializers new_session 0 11 4 new_volume).1.
Definition formatted_session : PlanSession :=
  Eval vm_compute in (edit sample_serializers volume_session 1 12 5 new_filesystem).1.
Definition mounted_session : PlanSession :=
  Eval vm_compute in (edit sample_serializers formatted_session 2 13 6 new_mount).1.

Example mounted_status : status mounted_session.(PlanSession.preview) = PreviewStatus.Conditional.
Proof. vm_compute. reflexivity. Qed.

Example mounted_owners :
  preview_source_map mounted_session.(PlanSession.preview) =
  [OperationActions.mk 11 [0] [0; 1]; OperationActions.mk 12 [1] [2]; OperationActions.mk 13 [2] [3]].
Proof. vm_compute. reflexivity. Qed.

(** Removing the volume alone is refused, moving it last makes the draft invalid. *)
Example volume_removal :
  (edit sample_serializers mounted_session 3 0 0 (PlanEdit.Remove [11%N])).2 =
  Err (Reported (EditError.DependentOperations [12%N; 13%N])).
Proof. vm_compute. reflexivity. Qed.
Example volume_last :
  status (edit sample_serializers mounted_session 3 0 0 (PlanEdit.MoveBefore 11 None)).1.(PlanSession.preview)
  = PreviewStatus.Invalid.
Proof. vm_compute. reflexivity. Qed.

Example frozen_mounted :
  is_ok (freeze sample_display sample_serializers sample_serializers 70 mounted_session 3) = true.
Proof. vm_compute. reflexivity. Qed.

(** ** The session is reachable *)

Definition sample_document : DraftDocument := draft_document mounted_session.
Definition sample_codec : Codec := {|
  encode doc := if decide (doc = sample_document) then Some "draft" else None;
  decode text := if decide (text = "draft") then Some sample_document else None;
  peek_version text := if decide (text = "draft") then Some (Some DRAFT_SCHEMA_VERSION) else None;
  peek_operations text := if decide (text = "draft") then Some 3 else None |}.

Lemma sample_codec_faithful : codec_faithful sample_codec.
Proof.
  split; intros doc text; simpl; destruct (decide (doc = sample_document)) as [->|]; try done;
    by intros [= <-].
Qed.

Ltac solve_fresh := split; vm_compute; first [reflexivity | set_solver].

Lemma new_session_reachable : session_reachable sample_codec sample_serializers new_session.
Proof. apply (reach_new _ _ 80 edit_baseline); vm_compute; reflexivity. Qed.

Lemma mounted_reachable : session_reachable sample_codec sample_serializers mounted_session.
Proof.
  replace mounted_session with (edit sample_serializers formatted_session 2 13 6 new_mount).1
    by (vm_compute; reflexivity).
  apply reach_edit; [|solve_fresh].
  replace formatted_session with (edit sample_serializers volume_session 1 12 5 new_filesystem).1
    by (vm_compute; reflexivity).
  apply reach_edit; [|solve_fresh].
  replace volume_session with (edit sample_serializers new_session 0 11 4 new_volume).1
    by (vm_compute; reflexivity).
  apply reach_edit; [apply new_session_reachable|solve_fresh].
Qed.

Lemma new_session_ok : session_ok sample_serializers new_session.
Proof. eapply reachable_ok, new_session_reachable. Qed.
Lemma mounted_session_ok : session_ok sample_serializers mounted_session.
Proof. eapply reachable_ok, mounted_reachable. Qed.

(** ** Witnesses *)

Lemma session_invariant_witness :
  length mounted_session.(PlanSession.undo) ≤ 64 ∧
  identities_ok edit_baseline mounted_session.(PlanSession.draft).(PlanDraft.operations).
Proof.
  pose proof (session_invariant sample_codec sample_serializers mounted_session mounted_reachable) as Hok.
  split; [exact (so_undo _ _ Hok)|]. apply (so_identities _ _ Hok). left.
Defined.

Definition mounted_preview : PlanPreview :=
  Eval vm_compute in
  match mounted_session.(PlanSession.preview) with
  | PreviewState.Calculated p => p
  | PreviewState.Invalid _ =>
      PlanPreview.mk (ExecutionPlan.mk [] []) disk_report [] [] []
  end.

Lemma preview_status_spec_witness : plan_status mounted_preview = PreviewStatus.Conditional.
Proof.
  rewrite (preview_status_spec sample_serializers edit_baseline mounted_session.(PlanSession.draft)
    mounted_preview); vm_compute; reflexivity.
Defined.

Lemma session_refines_editor_witness :
  ∃ e', Editor.back (Editor.mk mounted_session.(PlanSession.undo) mounted_session.(PlanSession.draft) [])
    = Some e' ∧ shows (session_undo sample_serializers mounted_session 3).1 e'.
Proof.
  destruct (session_refines_editor sample_serializers mounted_session
    (Editor.mk mounted_session.(PlanSession.undo) mounted_session.(PlanSession.draft) [])
    mounted_session_ok ltac:(split; [done|done|apply suffix_nil])) as (_ & Hundo & _).
  apply (Hundo 3%N _ 4%N). vm_compute. reflexivity.
Defined.

Lemma edits_undone_witness :
  ∃ s, undo_times sample_serializers 3 mounted_session = (s, Ok tt) ∧
    s.(PlanSession.draft) = PlanDraft.default ∧ s.(PlanSession.preview) = new_session.(PlanSession.preview).
Proof.
  apply (edits_undone sample_serializers new_session
    [new_session.(PlanSession.draft); volume_session.(PlanSession.draft);
     formatted_session.(PlanSession.draft)] mounted_session new_session_ok).
  - apply (edits_cons _ new_session 0 11 4 new_volume volume_session (EditReceipt.mk 1 (Some 11%N) (Some 4%N)));
      [vm_compute; reflexivity|].
    apply (edits_cons _ volume_session 1 12 5 new_filesystem formatted_session
      (EditReceipt.mk 2 (Some 12%N) (Some 5%N))); [vm_compute; reflexivity|].
    apply (edits_cons _ formatted_session 2 13 6 new_mount mounted_session
      (EditReceipt.mk 3 (Some 13%N) None)); [vm_compute; reflexivity|]. apply edits_nil.
  - vm_compute. lia.
  - vm_compute. discriminate.
Defined.

Lemma removal_impact_spec_witness :
  ∃ impact, removal_impact mounted_session.(PlanSession.draft) [11%N] = Ok impact ∧
    (13%N ∈ impact ↔ 13%N ∈ operation_ids mounted_session.(PlanSession.draft) ∧
                     dependent mounted_session.(PlanSession.draft) [11%N] 13).
Proof.
  destruct (removal_impact_spec mounted_session.(PlanSession.draft) [11%N]) as (impact & Hi & _ & Hx).
  - intros x ->%list_elem_of_singleton. vm_compute. left.
  - exists impact. split; [exact Hi|apply Hx].
Defined.

Lemma session_document_roundtrip_witness :
  Documents.from_json sample_codec sample_serializers "draft" = Ok sample_document ∧
  from_document sample_codec sample_serializers sample_document = Ok (resumed mounted_session).
Proof.
  apply (session_document_roundtrip sample_codec sample_serializers mounted_session "draft"
    sample_codec_faithful mounted_session_ok). vm_compute. reflexivity.
Defined.

Definition mounted_frozen : FrozenPlan :=
  FrozenPlan.mk 80 3 (frozen_document edit_baseline mounted_session.(PlanSession.draft) mounted_preview 70)
    mounted_preview.(PlanPreview.source_map).

Lemma freeze_ready_witness :
  match freeze sample_display sample_serializers sample_serializers 70 mounted_session 2 with
  | Err (Reported (FreezeError.RevisionConflict e a)) => e ≠ a
  | _ => False
  end.
Proof.
  pose proof (freeze_ready sample_display sample_serializers sample_serializers sample_serializers 70
    mounted_session 2 mounted_session_ok eq_refl) as Hf.
  revert Hf. vm_compute. intros (_ & _ & Hf). exact Hf.
Defined.

Lemma frozen_plan_starts_witness :
  ∃ preview run, mounted_session.(PlanSession.preview) = PreviewState.Calculated preview ∧
    execution_run_new sample_display sample_serializers sample_serializers 60
      mounted_frozen.(FrozenPlan.document) = Ok run ∧
    run.(ExecutionRun.plan) = preview.(PlanPreview.plan).
Proof.
  destruct (frozen_plan_starts sample_display sample_serializers sample_serializers sample_serializers
    sample_serializers sample_serializers 70 mounted_session 3 mounted_frozen 60 mounted_session_ok
    eq_refl ltac:(vm_compute; reflexivity)) as (preview & run & Hp & Hr & Hplan & _).
  exists preview, run. exact (conj Hp (conj Hr Hplan)).
Defined.

(** ** Rebasing to a new probe *)

Definition probed_baseline (id : Uuid) (disk fs : NodeId) (epoch : ProbeEpoch) : HistoricalBaseline :=
  HistoricalBaseline.mk id (probed_state disk fs epoch []) [].
Definition probed_session : PlanSession :=
  Eval vm_compute in
  (edit sample_serializers (session_or (session_new sample_serializers 80 (probed_baseline 90 1 5 0)))
     0 11 7 (PlanEdit.Add (PlanRequest.Mount srv_mount))).1.
Definition probed_review : RebasePreview :=
  Eval vm_compute in
  match prepare_rebase sample_serializers probed_session 1 (probed_baseline 91 21 25 4) with
  | Ok review => review
  | Err _ => RebasePreview.mk sample_document edit_baseline PlanDraft.default
               (PreviewState.Invalid (DraftBuildError.Draft [])) []
  end.

Example rebased_inputs :
  (probed_review.(RebasePreview.draft).(PlanDraft.operations) ≫=
     λ o, request_nodes o.(PlanOperation.request)) = [25%N].
Proof. vm_compute. reflexivity. Qed.

(** Witness of [rebase_sound]: the session accepts its own review, once. *)
Lemma rebase_sound_witness :
  let s' := (accept_rebase probed_session 1 probed_review).1 in
  rebased (probed_baseline 90 1 5 0) probed_session.(PlanSession.draft) (probed_baseline 91 21 25 4)
    s'.(PlanSession.draft) ∧ s'.(PlanSession.revision) = 2%N ∧
  ∃ error, accept_rebase s' 2 probed_review = (s', Err (Reported error)).
Proof.
  destruct (rebase_sound sample_serializers probed_session 1 (probed_baseline 91 21 25 4) probed_review
    ltac:(vm_compute; reflexivity)) as (Hr & _ & Ha).
  destruct (Ha probed_session 1%N) as [[_ He]|[Hn _]].
  2:{ destruct Hn. by split_and!. }
  rewrite He. split_and!; [exact Hr|reflexivity|].
  destruct (Ha (accept_rebase probed_session 1 probed_review).1 2%N) as [[(_ & _ & _ & Hrev & _) _]|[_ [error Hx]]].
  - exfalso. revert Hrev. by vm_compute.
  - rewrite He in Hx. exact (ex_intro _ error Hx).
Defined.

(** Witness of [session_commands_atomic], at a review and an edit that repeats it. *)
Lemma session_commands_atomic_witness :
  session_atomic sample_serializers (probed_baseline 91 21 25 4) (rebasable probed_session) probed_session 1
    (accept_rebase probed_session 1 probed_review) ∧
  is_ok (accept_rebase probed_session 1 probed_review).2 = true ∧
  is_ok (accept_rebase probed_session 3 probed_review).2 = false.
Proof.
  destruct (session_commands_atomic sample_serializers probed_session 1 0 0 0 (PlanEdit.Remove []) 0 0)
    as (_ & _ & _ & _ & _ & _ & Hr).
  split; [|by vm_compute].
  exact (Hr probed_session 1%N (probed_baseline 91 21 25 4) probed_review ltac:(vm_compute; reflexivity)).
Defined.

(** * Sample encoders

    An injective text of JSON values, encoders that number the objects of given
    documents, and the theorems about canonical JSON on concrete documents. *)

(** ** Text *)

Abbreviation Token := (string + N + bool)%type (only parsing).

Fixpoint to_tree (v : Value) : gen_tree Token :=
  match v with
  | Value.Null => GenNode 0 []
  | Value.Bool b => GenLeaf (inr b)
  | Value.Number n => GenLeaf (inl (inr n))
  | Value.String text => GenLeaf (inl (inl text))
  | Value.Array values => GenNode 1 (map to_tree values)
  | Value.Object members => GenNode 2 (map (λ e, GenNode 3 [GenLeaf (inl (inl e.1)); to_tree e.2]) members)
  end.

Lemma to_tree_inj v w : to_tree v = to_tree w → v = w.
Proof.
  revert w. induction v as [| | | |values IH|members IH] using Value.value_ind; intros []; try done; simpl;
    try by intros [= ->].
  - intros [= He]. f_equal. revert values0 He.
    induction IH as [|v values Hv _ IH]; intros [|w ws]; try done. simpl. intros [= H1 H2].
    by rewrite (Hv w H1), (IH ws H2).
  - intros [= He]. f_equal. revert values He.
    induction IH as [|[k v] members Hv _ IH]; intros [|[k' w] ws]; try done.
    simpl in *. intros [= -> H1 H2].
    by rewrite (Hv w H1), (IH ws H2).
Qed.

Fixpoint bits (p : positive) : string :=
  match p with
  | xH => "."%string
  | xO p => String.append "0" (bits p)
  | xI p => String.append "1" (bits p)
  end.

#[local] Instance bits_inj : Inj (=) (=) bits.
Proof. intros p. induction p as [p IH|p IH|]; intros [q|q|]; simpl; try done; intros [= Hq%IH]; by subst. Qed.

#[global] Instance sample_json_text : JsonText := {| value_text v := bits (countable.encode (to_tree v)) |}.
#[global] Instance sample_json_text_laws : JsonTextLaws.
Proof. intros v w He%(inj bits)%(inj countable.encode). by apply to_tree_inj. Qed.

(** ** Tables *)

Section table.
Context {A : Type} `{EqDecision A} (samples : list A).

Definition position (x : A) : option nat := fst <$> list_find (x =.) samples.
Definition table (x : A) : option Value := (λ i, Value.Number (N.of_nat i)) <$> position x.
Definition table_text (x : A) : result string unit := ok_or (pretty <$> position x) tt.

Lemma position_inj x y i : position x = Some i → position y = Some i → x = y.
Proof.
  unfold position. intros [[j x'] [Hx [= ->]]]%fmap_Some [[k y'] [Hy [= ->]]]%fmap_Some.
  apply list_find_Some in Hx as (Hx & -> & _), Hy as (Hy & -> & _). congruence.
Qed.

Lemma table_faithful : faithful table.
Proof.
  intros x y u v [i [Hi ->]]%fmap_Some [j [Hj ->]]%fmap_Some [= He%(inj N.of_nat)]. subst j.
  by eapply position_inj.
Qed.
End table.

(** What occurs in documents. *)
Section encoder.
Variable docs : list PlanDocument.

Definition snapshots : list CurrentState :=
  (λ d, d.(PlanDocument.baseline).(HistoricalBaseline.snapshot)) <$> docs.
Definition goals : list DesiredState := PlanDocument.requested_goal <$> docs.
Definition graphs : list NodeGraph :=
  (CurrentState.graph <$> snapshots) ++ (DesiredState.graph <$> goals).
Definition contracts : list ActionContract :=
  docs ≫= λ d, PlannedAction.informational_contract <$> d.(PlanDocument.actions).

Definition table_contracts : Contract.Json := {|
  json_prerequisite := table_text (contracts ≫= ActionContract.prerequisites);
  json_output := table_text (contracts ≫= ActionContract.provided_outputs);
  json_resource := table_text (contracts ≫= ActionContract.affected_resources);
  json_fact := table_text (contracts ≫= ActionContract.invalidated_facts);
  json_postcondition := table_text (contracts ≫= ActionContract.postconditions);
  json_effect := table_text (contracts ≫= λ c, c.(ActionContract.predicted_effect).(PredictedEffect.graph)) |}.

Definition stored_actions : list PlannedAction := docs ≫= PlanDocument.actions.

Definition table_encoder : WireEncoder := {|
  uuid_text := pretty;
  node_value := table (graphs ≫= λ g, (map_to_list g.(NodeGraph.nodes)).*2);
  dependency_value := table (graphs ≫= NodeGraph.dependencies);
  relation_value := table (graphs ≫= NodeGraph.relations);
  observed_mount_value := table (snapshots ≫= λ s, s.(CurrentState.mounts).(MountState.entries));
  mount_entry_value :=
    table (goals ≫= λ g, g.(DesiredState.mounts).(MountSpec.runtime) ++
                         g.(DesiredState.mounts).(MountSpec.persistent));
  protected_mount_value :=
    table (docs ≫= λ d, d.(PlanDocument.protected_scope).(ProtectedScope.runtime_mounts) ++
                        d.(PlanDocument.protected_scope).(ProtectedScope.persistent_mounts));
  environment_value := table (CurrentState.environment <$> snapshots);
  diagnostic_value := table (snapshots ≫= CurrentState.diagnostics);
  capacity_value := table (docs ≫= λ d, d.(PlanDocument.baseline).(HistoricalBaseline.capacity_evidence));
  boot_value := table (DesiredState.boot <$> goals);
  intent_value := table (goals ≫= DesiredState.intents);
  action_value := table (stored_actions ++
    (stored_actions ≫= λ a, match canonicalize_contract table_contracts a.(PlannedAction.informational_contract) with
                            | Ok c => [PlannedAction.mk a.(PlannedAction.id) a.(PlannedAction.operation)
                                         a.(PlannedAction.fragment) a.(PlannedAction.local_id)
                                         a.(PlannedAction.origin) c]
                            | Err _ => []
                            end));
  action_dependency_value := table (docs ≫= PlanDocument.dependencies);
  contract_json := table_contracts |}.

Lemma table_laws : @WireLaws table_encoder.
Proof. split; try apply table_faithful; [apply _|]. simpl. apply _. Qed.
End encoder.

(** ** A document stored in another order *)

Definition shuffled_document : PlanDocument :=
  PlanDocument.mk PLAN_SCHEMA_VERSION ACTION_SEMANTICS_VERSION 7
    (HistoricalBaseline.mk 9 disk_state []) disk_goal
    (ProtectedScope.mk [1%N; 1%N] [ProtectedMount.mk (root_path "home") MountContext.Host] [])
    (reverse disk_plan.(ExecutionPlan.actions)) disk_plan.(ExecutionPlan.dependencies).

#[local] Instance disk_encoder : WireEncoder := table_encoder [disk_document].
#[local] Instance disk_encoder_laws : WireLaws := table_laws [disk_document].

Lemma canonical_json_identifies_witness : same_description disk_document shuffled_document.
Proof.
  eapply (canonical_json_identifies sample_display sample_serializers sample_serializers
            disk_document shuffled_document).
  - vm_compute. reflexivity.
  - vm_compute. reflexivity.
  - reflexivity.
Defined.

(** One mount table read twice, in two orders. *)
Definition mounted (entries : list ObservedMount) : HistoricalBaseline :=
  HistoricalBaseline.mk 9 (CurrentState.mk disk_graph (MountState.mk entries) sample_environment []) [].
Definition mount_at (name : string) : ObservedMount :=
  ObservedMount.mk (MountSource.Filesystem 5) (root_path name) [] MountContext.Host.
Definition mounts_document : PlanDocument :=
  PlanDocument.mk PLAN_SCHEMA_VERSION ACTION_SEMANTICS_VERSION 7
    (mounted [mount_at "a"; mount_at "b"]) disk_goal disk_policy [] [].
#[local] Instance mounts_encoder : WireEncoder := table_encoder [mounts_document].
#[local] Instance mounts_encoder_laws : WireLaws := table_laws [mounts_document].

Lemma has_same_observations_spec_witness :
  same_observations (mounted [mount_at "a"; mount_at "b"]) (mounted [mount_at "b"; mount_at "a"]).
Proof.
  destruct (has_same_observations_spec (mounted [mount_at "a"; mount_at "b"])
              (mounted [mount_at "b"; mount_at "a"])) as (r & Hr & Hiff).
  1-4: vm_compute; by eexists.
  apply Hiff. vm_compute in Hr. by injection Hr as <-.
Defined.
