(* ===== verification/Native.v ===== *)
(** * Native observations: the records of [storage-provider/src/lib.rs]

    What the library adapters report.  A path is kept as its text, which names
    nodes; two paths are compared by their components, as [Path::eq] does.  Paths
    and names are valid UTF-8, so [to_string_lossy] changes nothing. *)

From S2P Require Import Prelude Model Observe.

(** ** Paths as text *)

Abbreviation Path := string (only parsing).

(** The text between slashes. *)
Fixpoint segments_from (current text : string) : list string :=
  match text with
  | EmptyString => [current]
  | String a text => if (Ascii.N_of_ascii a =? 47)%N then current :: segments_from "" text
                     else segments_from (current ++ String a "") text
  end%string.

Definition component (segment : string) : option Component :=
  if bool_decide (segment = "" ∨ segment = ".")%string then None
  else if bool_decide (segment = "..")%string then Some Component.ParentDir
  else Some (Component.Normal segment).

(** [Path::components]: a leading dot of a relative path stays. *)
Definition components (path : Path) : PathBuf :=
  match path with
  | EmptyString => []
  | String a rest =>
      if (Ascii.N_of_ascii a =? 47)%N then Component.RootDir :: omap component (segments_from "" rest)
      else match segments_from "" path with
           | first :: others =>
               (if bool_decide (first = ".")%string then [Component.CurDir]
                else option_list (component first)) ++ omap component others
           | [] => []
           end
  end.

Definition same_path (a b : Path) : bool := bool_decide (components a = components b).

(** ** Records *)

Module CryptsetupKeyslotState.
Inductive CryptsetupKeyslotState := Active | ActiveLast | Unbound | Other (code : Z).
End CryptsetupKeyslotState.
Abbreviation CryptsetupKeyslotState := CryptsetupKeyslotState.CryptsetupKeyslotState.

(** [storage_provider::ZfsVdevKind] *)
Module ZfsVdevLayout.
Inductive ZfsVdevLayout :=
| Leaf
| Mirror
| RaidZ (parity : N)
| DRaid (parity data_width distributed_spares : N)
| Other (value : string).
End ZfsVdevLayout.
Abbreviation ZfsVdevLayout := ZfsVdevLayout.ZfsVdevLayout.

Module ZfsDatasetKind.
Inductive ZfsDatasetKind := Filesystem | Volume.
End ZfsDatasetKind.
Abbreviation ZfsDatasetKind := ZfsDatasetKind.ZfsDatasetKind.

Module UdevBlockEntry.
Record UdevBlockEntry := mk {
  devnode : Path;
  aliases : list Path;
  sysname : string;
  devtype : option string;
  major : N;
  minor : N;
  size_sectors : option N;
  logical_block_size : option N;
  physical_block_size : option N;
  alignment_offset : option N;
  minimum_io_size : option N;
  optimal_io_size : option N;
  model : option string;
  vendor : option string;
  transport : option string;
  serial : option string;
  wwn : option string;
  read_only : option bool;
  rotational : option bool;
  removable : option bool;
  zoned : option string }.
End UdevBlockEntry.
Abbreviation UdevBlockEntry := UdevBlockEntry.UdevBlockEntry.

Module FdiskPartition.
Record FdiskPartition := mk {
  number : N;
  start_sectors : N;
  size_sectors : N;
  partition_type : option string;
  name : option string;
  uuid : option string;
  bootable : bool }.
End FdiskPartition.
Abbreviation FdiskPartition := FdiskPartition.FdiskPartition.

Module FdiskTable.
Record FdiskTable := mk {
  device : Path;
  label : option string;
  sector_size : N;
  partitions : list FdiskPartition }.
End FdiskTable.
Abbreviation FdiskTable := FdiskTable.FdiskTable.

Module BlkidEntry.
Record BlkidEntry := mk {
  device : Path;
  signature_type : option string;
  uuid : option string;
  label : option string;
  partition_uuid : option string }.
End BlkidEntry.
Abbreviation BlkidEntry := BlkidEntry.BlkidEntry.

Module DevmapperEntry.
Record DevmapperEntry := mk {
  name : string;
  uuid : option string;
  devno : DeviceNumber;
  targets : list string;
  dependencies : list DeviceNumber;
  read_only : bool }.
End DevmapperEntry.
Abbreviation DevmapperEntry := DevmapperEntry.DevmapperEntry.

Module CryptsetupEntry.
Record CryptsetupEntry := mk {
  device : Path;
  luks_type : string;
  uuid : option string;
  cipher : option string;
  cipher_mode : option string;
  data_offset_sectors : N;
  sector_size : option N;
  volume_key_size : option N;
  metadata_size : option N;
  keyslots_size : option N;
  keyslots : list (N * CryptsetupKeyslotState) }.
End CryptsetupEntry.
Abbreviation CryptsetupEntry := CryptsetupEntry.CryptsetupEntry.

Module LoopEntry.
Record LoopEntry := mk {
  device : Path;
  backing_file : Path;
  offset : N;
  autoclear : bool;
  direct_io : bool;
  part_scan : bool;
  read_only : bool }.
End LoopEntry.
Abbreviation LoopEntry := LoopEntry.LoopEntry.

Module SwapEntry.
Record SwapEntry := mk {
  device : Path;
  active : bool }.
End SwapEntry.
Abbreviation SwapEntry := SwapEntry.SwapEntry.

Module MultipathEntry.
Record MultipathEntry := mk {
  members : list Path }.
End MultipathEntry.
Abbreviation MultipathEntry := MultipathEntry.MultipathEntry.

Module MdraidArrayEntry.
Record MdraidArrayEntry := mk {
  device : Path;
  level : string;
  metadata : option string;
  uuid : option string;
  size : N;
  raid_devices : N;
  total_devices : N;
  active_devices : N;
  working_devices : N;
  failed_devices : N;
  spare_devices : N;
  clean : bool;
  status : option string;
  bitmap : option string }.
End MdraidArrayEntry.
Abbreviation MdraidArrayEntry := MdraidArrayEntry.MdraidArrayEntry.

Module MdraidMemberEntry.
Record MdraidMemberEntry := mk {
  device : Path;
  level : option string;
  array_uuid : option string;
  device_uuid : option string;
  metadata : option string;
  chunk_size : N;
  expected_devices : N;
  size : N;
  update_time : N;
  events : N }.
End MdraidMemberEntry.
Abbreviation MdraidMemberEntry := MdraidMemberEntry.MdraidMemberEntry.

Module MdraidEntry.
Record MdraidEntry := mk {
  arrays : list MdraidArrayEntry;
  members : list MdraidMemberEntry }.
End MdraidEntry.
Abbreviation MdraidEntry := MdraidEntry.MdraidEntry.

Module LvmPvEntry.
Record LvmPvEntry := mk {
  device : Path;
  uuid : string;
  vg_name : option string;
  vg_uuid : option string;
  size : N;
  free : N;
  data_offset : N;
  missing : bool }.
End LvmPvEntry.
Abbreviation LvmPvEntry := LvmPvEntry.LvmPvEntry.

Module LvmSegmentEntry.
Record LvmSegmentEntry := mk {
  size_extents : N;
  start_extent : N;
  device : option Path }.
End LvmSegmentEntry.
Abbreviation LvmSegmentEntry := LvmSegmentEntry.LvmSegmentEntry.

Module LvmLvEntry.
Record LvmLvEntry := mk {
  name : string;
  vg_name : string;
  uuid : string;
  size : N;
  segment_type : option string;
  attributes : option string;
  origin : option string;
  pool : option string;
  data : option string;
  metadata : option string;
  roles : option string;
  data_percent : N;
  metadata_percent : N;
  copy_percent : N;
  segments : list LvmSegmentEntry }.
End LvmLvEntry.
Abbreviation LvmLvEntry := LvmLvEntry.LvmLvEntry.

Module LvmEntry.
Record LvmEntry := mk {
  pvs : list LvmPvEntry;
  vgs : list LvmVgEntry;
  lvs : list LvmLvEntry }.
End LvmEntry.
Abbreviation LvmEntry := LvmEntry.LvmEntry.

Module BtrfsSubvolumeEntry.
Record BtrfsSubvolumeEntry := mk {
  id : N;
  path : Path;
  read_only : bool;
  is_default : bool }.
End BtrfsSubvolumeEntry.
Abbreviation BtrfsSubvolumeEntry := BtrfsSubvolumeEntry.BtrfsSubvolumeEntry.

Module BtrfsEntry.
Record BtrfsEntry := mk {
  mountpoint : Path;
  subvolumes : list BtrfsSubvolumeEntry }.
End BtrfsEntry.
Abbreviation BtrfsEntry := BtrfsEntry.BtrfsEntry.

Module BtrfsDeviceEntry.
Record BtrfsDeviceEntry := mk {
  id : N;
  path : Path;
  size : N;
  used : N }.
End BtrfsDeviceEntry.
Abbreviation BtrfsDeviceEntry := BtrfsDeviceEntry.BtrfsDeviceEntry.

Module BtrfsFilesystemEntry.
Record BtrfsFilesystemEntry := mk {
  seed_device : Path;
  uuid : string;
  label : option string;
  device_count : N;
  used : N;
  devices : list BtrfsDeviceEntry }.
End BtrfsFilesystemEntry.
Abbreviation BtrfsFilesystemEntry := BtrfsFilesystemEntry.BtrfsFilesystemEntry.

Module ZfsVdevEntry.
Record ZfsVdevEntry := mk {
  guid : option N;
  parent_guid : option N;
  class : option ZfsVdevClass;
  kind : ZfsVdevLayout;
  path : option Path;
  size : option N;
  missing : bool;
  faulted : bool;
  degraded : bool }.
End ZfsVdevEntry.
Abbreviation ZfsVdevEntry := ZfsVdevEntry.ZfsVdevEntry.

Module ZfsPoolEntry.
Record ZfsPoolEntry := mk {
  name : string;
  guid : option N;
  state : Z;
  vdevs : list ZfsVdevEntry }.
End ZfsPoolEntry.
Abbreviation ZfsPoolEntry := ZfsPoolEntry.ZfsPoolEntry.

Module ZfsDatasetEntry.
Record ZfsDatasetEntry := mk {
  name : string;
  kind : ZfsDatasetKind;
  mountpoint : option string;
  compression : option string;
  quota : option N;
  volume_size : option N;
  origin : option string }.
End ZfsDatasetEntry.
Abbreviation ZfsDatasetEntry := ZfsDatasetEntry.ZfsDatasetEntry.

Module ZfsEntry.
Record ZfsEntry := mk {
  pools : list ZfsPoolEntry;
  datasets : list ZfsDatasetEntry }.
End ZfsEntry.
Abbreviation ZfsEntry := ZfsEntry.ZfsEntry.

Module NvmeControllerEntry.
Record NvmeControllerEntry := mk {
  name : string;
  transport : option string;
  address : option string;
  transport_address : option string;
  transport_service_id : option string;
  model : option string;
  serial : option string;
  firmware : option string;
  state : option string }.
End NvmeControllerEntry.
Abbreviation NvmeControllerEntry := NvmeControllerEntry.NvmeControllerEntry.

Module NvmeNamespaceEntry.
Record NvmeNamespaceEntry := mk {
  name : string;
  nsid : N;
  lba_size : N;
  metadata_size : N;
  lba_count : N;
  lba_utilization : N;
  nguid : option (list N);
  eui64 : option (list N);
  uuid : option (list N) }.
End NvmeNamespaceEntry.
Abbreviation NvmeNamespaceEntry := NvmeNamespaceEntry.NvmeNamespaceEntry.

Module NvmeSubsystemEntry.
Record NvmeSubsystemEntry := mk {
  name : string;
  nqn : string;
  controllers : list NvmeControllerEntry;
  namespaces : list NvmeNamespaceEntry }.
End NvmeSubsystemEntry.
Abbreviation NvmeSubsystemEntry := NvmeSubsystemEntry.NvmeSubsystemEntry.

Module NvmeEntry.
Record NvmeEntry := mk {
  subsystems : list NvmeSubsystemEntry }.
End NvmeEntry.
Abbreviation NvmeEntry := NvmeEntry.NvmeEntry.

Module LibmountEntry.
Record LibmountEntry := mk {
  source : string;
  target : Path;
  filesystem_type : string;
  options : list string }.
End LibmountEntry.
Abbreviation LibmountEntry := LibmountEntry.LibmountEntry.

(** ** Interpretation of single records *)

(** [LvmLvEntry::activation]: the fifth of ten attribute columns. *)
Definition is_attribute_byte (byte : N) : bool :=
  ((48 <=? byte) && (byte <=? 57) || (65 <=? byte) && (byte <=? 90) || (97 <=? byte) && (byte <=? 122)
   || (byte =? 45))%N.

Definition string_bytes (text : string) : list N :=
  Ascii.N_of_ascii <$> String.list_ascii_of_string text.

Definition activation (lv : LvmLvEntry) : option bool :=
  match lv.(LvmLvEntry.attributes) with
  | None => None
  | Some text =>
      let attributes := string_bytes text in
      if negb (length attributes =? 10)%nat || negb (forallb is_attribute_byte attributes) then None
      else match attributes !! 4 with
           | Some 97%N => Some true
           | Some 45%N => Some false
           | _ => None
           end
  end.

(** [saturating_mul] at [u64] *)
Definition u64_saturating_mul (a b : N) : N := N.min (a * b) (2 ^ 64 - 1).

(** The text of a [Uuid]. *)
Class UuidText := {
  parse_uuid : string → option Uuid;
  hyphenated : Uuid → string }.

(** [luks.rs]: one header, and the report over several devices. *)
Module LuksObservation.
Record LuksObservation := mk {
  device : Path;
  version : LuksVersion;
  identity : option ExternalId;
  payload_offset : Bytes;
  header : CryptsetupEntry }.
End LuksObservation.
Abbreviation LuksObservation := LuksObservation.LuksObservation.

Module LuksValidationError.
Inductive LuksValidationError :=
| Backend (message : string)
| UnsupportedType (device : Path) (luks_type : string).
End LuksValidationError.
Abbreviation LuksValidationError := LuksValidationError.LuksValidationError.

Definition translate_header `{UuidText} (header : CryptsetupEntry)
    : result LuksObservation LuksValidationError :=
  let? version :=
    if bool_decide (header.(CryptsetupEntry.luks_type) = "LUKS1")%string then Ok LuksVersion.Luks1
    else if bool_decide (header.(CryptsetupEntry.luks_type) = "LUKS2")%string then Ok LuksVersion.Luks2
    else Err (LuksValidationError.UnsupportedType header.(CryptsetupEntry.device)
                header.(CryptsetupEntry.luks_type)) in
  let identity := ExternalId.LuksUuid <$> (header.(CryptsetupEntry.uuid) ≫= parse_uuid) in
  Ok (LuksObservation.mk header.(CryptsetupEntry.device) version identity
        (u64_saturating_mul header.(CryptsetupEntry.data_offset_sectors) 512) header).

Record LuksProbeReport := mk_luks_report {
  observations : list LuksObservation;
  failures : list (Path * LuksValidationError) }.

(** [LuksProvider::probe]: a device that fails does not discard the others. *)
Definition luks_probe `{UuidText} (probe_headers : Path → result (list CryptsetupEntry) string)
    (devices : list Path) : LuksProbeReport :=
  foldl (λ report device,
      match probe_headers device with
      | Ok headers =>
          foldl (λ report header,
              match translate_header header with
              | Ok observation => mk_luks_report (report.(observations) ++ [observation]) report.(failures)
              | Err error => mk_luks_report report.(observations) (report.(failures) ++ [(device, error)])
              end) report headers
      | Err error => mk_luks_report report.(observations)
                       (report.(failures) ++ [(device, LuksValidationError.Backend error)])
      end) (mk_luks_report [] []) devices.
