(* ===== verification/Recipes.v ===== *)
(** * Native write recipes: [storage-provider/src/lvm_write.rs],
      [filesystem_write.rs] and [mount_write.rs]

    The narrow requests a native adapter accepts and the checks of the native
    state around a call.  What the libraries do is outside; here is what is
    asked of them and what is believed afterwards.  [Uuid::parse_str] and its
    hyphenated form belong to the [uuid] crate and are parameters. *)

From S2P Require Import Prelude Model Graph GraphOrder GraphValid State Action Contract Logical.
From S2P Require Import Evidence Effects Report Simulate Wire Observation Correlate Observe Native.

Module LvmWriteError.
Inductive LvmWriteError :=
| ExecutionNotDeclared
| InvalidRequest
| TargetChanged
| Native (message : string).
#[global] Instance LvmWriteError_eq_dec : EqDecision LvmWriteError.
Proof. solve_decision. Defined.
End LvmWriteError.
Abbreviation LvmWriteError := LvmWriteError.LvmWriteError.

(** ** Names *)

Definition is_ascii_alphanumeric (byte : N) : bool :=
  ((48 <=? byte) && (byte <=? 57) || (65 <=? byte) && (byte <=? 90)
   || (97 <=? byte) && (byte <=? 122))%N.

Definition valid_name (name : string) : bool :=
  negb (bool_decide (name = ""%string)) && (String.length name <=? 127)%nat
  && negb (String.prefix "-" name)
  && negb (bool_decide (name = "."%string)) && negb (bool_decide (name = ".."%string))
  && forallb (λ byte, is_ascii_alphanumeric byte || contains byte (utf8 "+_.-")) (utf8 name).

(** [name.contains(pattern)] *)
Fixpoint string_contains (pattern name : string) : bool :=
  String.prefix pattern name ||
  match name with EmptyString => false | String _ rest => string_contains pattern rest end.

Definition reserved_names : list string :=
  ["_cdata"; "_cmeta"; "_corig"; "_mimage"; "_mlog"; "_pmspare"; "_rimage"; "_rmeta";
   "_tdata"; "_tmeta"; "_vdata"; "_vorigin"]%string.

Definition valid_lv_name (name : string) : bool :=
  valid_name name && negb (String.prefix "snapshot" name) && negb (String.prefix "pvmove" name)
  && negb (existsb (λ reserved, string_contains reserved name) reserved_names).

Definition valid_uuid (uuid : string) : bool :=
  negb (bool_decide (uuid = ""%string))
  && forallb (λ byte, is_ascii_alphanumeric byte || (byte =? 45)%N) (utf8 uuid).

(** ** Volume groups *)

(** [matches.next()] and [matches.next().is_some()] of a filtered iterator. *)
Definition checked_vg (state : LvmEntry) (name uuid : string) : result LvmVgEntry LvmWriteError :=
  match filter (λ vg, vg.(LvmVgEntry.name) = name ∨ vg.(LvmVgEntry.uuid) = uuid)
          state.(LvmEntry.vgs) with
  | [] => Err LvmWriteError.TargetChanged
  | vg :: more =>
      if negb (bool_decide (length more = 0)) || bool_decide (vg.(LvmVgEntry.name) ≠ name)
         || bool_decide (vg.(LvmVgEntry.uuid) ≠ uuid) || vg.(LvmVgEntry.exported)
         || (vg.(LvmVgEntry.extent_size) =? 0)%N || (vg.(LvmVgEntry.size) <? vg.(LvmVgEntry.free))%N
      then Err LvmWriteError.TargetChanged
      else
        let members := filter (λ pv, pv.(LvmPvEntry.vg_name) = Some name ∨
                                     pv.(LvmPvEntry.vg_uuid) = Some uuid) state.(LvmEntry.pvs) in
        if (vg.(LvmVgEntry.pv_count) =? 0)%N
           || negb (N.of_nat (length members) =? vg.(LvmVgEntry.pv_count))%N
           || existsb (λ pv,
                bool_decide (pv.(LvmPvEntry.vg_name) ≠ Some name)
                || bool_decide (pv.(LvmPvEntry.vg_uuid) ≠ Some uuid)
                || pv.(LvmPvEntry.missing) || negb (valid_uuid pv.(LvmPvEntry.uuid))
                || (pv.(LvmPvEntry.size) =? 0)%N || (pv.(LvmPvEntry.size) <? pv.(LvmPvEntry.free))%N
                || negb (length (filter (λ other, other.(LvmPvEntry.uuid) = pv.(LvmPvEntry.uuid))
                                   state.(LvmEntry.pvs)) =? 1)%nat) members
        then Err LvmWriteError.TargetChanged
        else Ok vg
  end.

(** ** Linear creation *)

Module LinearLvRequest.
Record LinearLvRequest := mk { vg_name : string; vg_uuid : string; lv_name : string; size : N }.
End LinearLvRequest.
Abbreviation LinearLvRequest := LinearLvRequest.LinearLvRequest.

(** [LinearLvRequest::new] *)
Definition linear_lv_request (vg_name vg_uuid lv_name : string) (size : N)
    : result LinearLvRequest LvmWriteError :=
  if negb (valid_name vg_name) || negb (valid_lv_name lv_name) || negb (valid_uuid vg_uuid)
     || (size =? 0)%N
  then Err LvmWriteError.InvalidRequest
  else Ok (LinearLvRequest.mk vg_name vg_uuid lv_name size).

(** The LVs the request would collide with. *)
Definition requested_lvs (request : LinearLvRequest) (state : LvmEntry) : list LvmLvEntry :=
  filter (λ lv, lv.(LvmLvEntry.vg_name) = request.(LinearLvRequest.vg_name) ∧
                lv.(LvmLvEntry.name) = request.(LinearLvRequest.lv_name)) state.(LvmEntry.lvs).

Definition check_target (request : LinearLvRequest) (state : LvmEntry) : result unit LvmWriteError :=
  let? vg := checked_vg state request.(LinearLvRequest.vg_name) request.(LinearLvRequest.vg_uuid) in
  if negb (is_multiple_of request.(LinearLvRequest.size) vg.(LvmVgEntry.extent_size))
     || (vg.(LvmVgEntry.free) <? request.(LinearLvRequest.size))%N
     || negb (bool_decide (length (requested_lvs request state) = 0))
  then Err LvmWriteError.TargetChanged
  else Ok tt.

Definition created_uuid (request : LinearLvRequest) (before after : LvmEntry)
    : result string LvmWriteError :=
  let name := request.(LinearLvRequest.vg_name) in
  let uuid := request.(LinearLvRequest.vg_uuid) in
  match filter (λ vg, vg.(LvmVgEntry.name) = name ∨ vg.(LvmVgEntry.uuid) = uuid)
          after.(LvmEntry.vgs) with
  | [] => Err LvmWriteError.TargetChanged
  | vg :: more =>
      if negb (bool_decide (length more = 0)) || bool_decide (vg.(LvmVgEntry.name) ≠ name)
         || bool_decide (vg.(LvmVgEntry.uuid) ≠ uuid) || vg.(LvmVgEntry.exported)
      then Err LvmWriteError.TargetChanged
      else
        match requested_lvs request after with
        | [] => Err LvmWriteError.TargetChanged
        | lv :: more =>
            if negb (bool_decide (length more = 0))
               || negb (lv.(LvmLvEntry.size) =? request.(LinearLvRequest.size))%N
               || bool_decide (lv.(LvmLvEntry.segment_type) ≠ Some "linear"%string)
               || negb (valid_uuid lv.(LvmLvEntry.uuid))
               || negb (length (filter (λ other, other.(LvmLvEntry.uuid) = lv.(LvmLvEntry.uuid))
                                  after.(LvmEntry.lvs)) =? 1)%nat
               || existsb (λ other, bool_decide (other.(LvmLvEntry.uuid) = lv.(LvmLvEntry.uuid)))
                    before.(LvmEntry.lvs)
            then Err LvmWriteError.TargetChanged
            else Ok lv.(LvmLvEntry.uuid)
        end
  end.

(** ** Activation *)

Module LvActivationRequest.
Record LvActivationRequest := mk {
  vg_name : string; vg_uuid : string; lv_name : string; lv_uuid : string; size : N }.
End LvActivationRequest.
Abbreviation LvActivationRequest := LvActivationRequest.LvActivationRequest.

(** [LvActivationRequest::new] *)
Definition lv_activation_request (vg_name vg_uuid lv_name lv_uuid : string) (size : N)
    : result LvActivationRequest LvmWriteError :=
  if negb (valid_name vg_name) || negb (valid_lv_name lv_name) || negb (valid_uuid vg_uuid)
     || negb (valid_uuid lv_uuid) || (size =? 0)%N
  then Err LvmWriteError.InvalidRequest
  else Ok (LvActivationRequest.mk vg_name vg_uuid lv_name lv_uuid size).

Definition observed_lv (request : LvActivationRequest) (state : LvmEntry)
    : result LvmLvEntry LvmWriteError :=
  let '(LvActivationRequest.mk vg_name vg_uuid lv_name lv_uuid size) := request in
  let? _ := checked_vg state vg_name vg_uuid in
  match filter (λ lv, (lv.(LvmLvEntry.vg_name) = vg_name ∧ lv.(LvmLvEntry.name) = lv_name) ∨
                      lv.(LvmLvEntry.uuid) = lv_uuid) state.(LvmEntry.lvs) with
  | [] => Err LvmWriteError.TargetChanged
  | lv :: more =>
      if negb (bool_decide (length more = 0)) || bool_decide (lv.(LvmLvEntry.vg_name) ≠ vg_name)
         || bool_decide (lv.(LvmLvEntry.name) ≠ lv_name)
         || bool_decide (lv.(LvmLvEntry.uuid) ≠ lv_uuid) || negb (lv.(LvmLvEntry.size) =? size)%N
         || bool_decide (lv.(LvmLvEntry.segment_type) ≠ Some "linear"%string)
      then Err LvmWriteError.TargetChanged
      else Ok lv
  end.

(** ** Host mounts *)

Definition EXT4_HOST_MOUNT_OPTIONS : list string :=
  ["rw"; "nosuid"; "nodev"; "noexec"; "relatime"]%string.

(** [Path::parent] is [Some] *)
Definition has_parent (path : PathBuf) : bool :=
  match path with [] | [Component.RootDir] => false | _ => true end.

Definition is_plain_component (part : Component) : bool :=
  match part with Component.RootDir | Component.Normal _ => true | _ => false end.

Definition is_ext4_host_mount (action : ProviderAction) : bool :=
  match action with
  | ProviderAction.Mount (MountAction.Mount (MountSource.Filesystem _) target options
                            MountContext.Host) =>
      bool_decide (sort_by String.leb options = sort_by String.leb EXT4_HOST_MOUNT_OPTIONS)
      && is_absolute target && has_parent target && forallb is_plain_component target
      && negb (path_contains_nul target)
  | _ => false
  end.

(** ** ext4 *)

Module FilesystemWriteError.
Inductive FilesystemWriteError :=
| ExecutionNotDeclared
| InvalidRequest
| TargetChanged
| ContentMismatch
| Io (message : string)
| Native (message : string).
#[global] Instance FilesystemWriteError_eq_dec : EqDecision FilesystemWriteError.
Proof. solve_decision. Defined.
End FilesystemWriteError.
Abbreviation FilesystemWriteError := FilesystemWriteError.FilesystemWriteError.

Module Ext4CreateRequest.
Record Ext4CreateRequest := mk { size : N; uuid : string; label : option string }.
End Ext4CreateRequest.
Abbreviation Ext4CreateRequest := Ext4CreateRequest.Ext4CreateRequest.

(** [Uuid::parse_str(value).is_ok_and(|id| !id.is_nil() && id.hyphenated().to_string() == value)] *)
Definition canonical_uuid `{UuidText} (value : string) : bool :=
  is_some_and (λ id, negb (is_nil id) && bool_decide (hyphenated id = value)) (parse_uuid value).

(** [Ext4CreateRequest::new]; lengths are in bytes. *)
Definition ext4_create_request `{UuidText} (size : N) (uuid : string) (label : option string)
    : result Ext4CreateRequest FilesystemWriteError :=
  if (size =? 0)%N || negb (is_multiple_of size 1024) || negb (canonical_uuid uuid)
     || is_some_and (λ label, bool_decide (label = ""%string) || (16 <? String.length label)%nat
                              || string_contains_byte 0 label) label
  then Err FilesystemWriteError.InvalidRequest
  else Ok (Ext4CreateRequest.mk size uuid label).

Definition check_ext4_result (request : Ext4CreateRequest) (fs_type uuid : string)
    (label : option string) (block_size block_count : N) : result unit FilesystemWriteError :=
  if bool_decide (fs_type ≠ "ext4"%string) || bool_decide (uuid ≠ request.(Ext4CreateRequest.uuid))
     || bool_decide (label ≠ request.(Ext4CreateRequest.label))
     || negb (contains block_size [1024; 2048; 4096]%N) || (block_count =? 0)%N
     || is_none_or (λ size, request.(Ext4CreateRequest.size) <? size)%N
          (u64_checked_mul block_size block_count)
  then Err FilesystemWriteError.ContentMismatch
  else Ok tt.

(** ** What a created volume is *)

(** The only LV of the requested name after the call: linear, of the requested
    size, with a usable identity no LV had before and no other has now. *)
Record created_lv (request : LinearLvRequest) (before after : LvmEntry) (lv : LvmLvEntry) : Prop := {
  created_alone : requested_lvs request after = [lv];
  created_size : lv.(LvmLvEntry.size) = request.(LinearLvRequest.size);
  created_linear : lv.(LvmLvEntry.segment_type) = Some "linear"%string;
  created_valid : valid_uuid lv.(LvmLvEntry.uuid) = true;
  created_unique : length (filter (λ other, other.(LvmLvEntry.uuid) = lv.(LvmLvEntry.uuid))
                             after.(LvmEntry.lvs)) = 1;
  created_fresh : ∀ other, other ∈ before.(LvmEntry.lvs) →
    other.(LvmLvEntry.uuid) ≠ lv.(LvmLvEntry.uuid) }.

(** The group both the request and the adapter mean: one record has its name
    or its identity, and it has both. *)
Definition named_group (request : LinearLvRequest) (state : LvmEntry) (vg : LvmVgEntry) : Prop :=
  filter (λ vg, vg.(LvmVgEntry.name) = request.(LinearLvRequest.vg_name) ∨
                vg.(LvmVgEntry.uuid) = request.(LinearLvRequest.vg_uuid)) state.(LvmEntry.vgs) = [vg] ∧
  vg.(LvmVgEntry.name) = request.(LinearLvRequest.vg_name) ∧
  vg.(LvmVgEntry.uuid) = request.(LinearLvRequest.vg_uuid) ∧ vg.(LvmVgEntry.exported) = false.

Lemma decide_neq_refl {A} `{EqDecision A} (x : A) : bool_decide (x ≠ x) = false.
Proof. apply bool_decide_eq_false_2. auto. Qed.

Lemma created_uuid_iff request before after uuid :
  created_uuid request before after = Ok uuid ↔
  (∃ vg, named_group request after vg) ∧
  ∃ lv, created_lv request before after lv ∧ uuid = lv.(LvmLvEntry.uuid).
Proof.
  unfold created_uuid, named_group. cbv zeta.
  destruct (filter _ (LvmEntry.vgs after)) as [|vg vgs]; [naive_solver|].
  destruct (_ || _) eqn:Hvg.
  { split; [done|]. intros [(vg' & [= <- ->] & Hn & Hu & He) _].
    by rewrite He, Hn, Hu, !decide_neq_refl in Hvg. }
  rewrite !orb_false_iff in Hvg. destruct Hvg as [[[Hl Hn] Hu] He].
  rewrite bool_decide_eq_false in Hn, Hu. apply negb_false_iff, bool_decide_eq_true in Hl.
  destruct vgs; [|done]. apply dec_stable in Hn, Hu.
  transitivity (∃ lv, created_lv request before after lv ∧ uuid = lv.(LvmLvEntry.uuid)); [|naive_solver].
  destruct (requested_lvs request after) as [|lv lvs] eqn:Hr.
  { split; [done|]. intros (lv & [Ha _ _ _ _ _] & _). congruence. }
  destruct (_ || _) eqn:Hlv.
  - split; [done|]. intros (lv' & [Ha Hs Ht Hv Hq Hf] & ->).
    rewrite Hr in Ha. injection Ha as -> ->.
    rewrite Hs, Ht, Hv, Hq, N.eqb_refl, decide_neq_refl in Hlv. simpl in Hlv.
    apply existsb_elem in Hlv as (o & Ho & Heq%bool_decide_eq_true). by apply Hf in Ho.
  - rewrite !orb_false_iff, !negb_false_iff in Hlv.
    destruct Hlv as [[[[[Hm Hs] Ht] Hv] Hq] Hf]. apply bool_decide_eq_true, nil_length_inv in Hm as ->.
    apply N.eqb_eq in Hs. apply bool_decide_eq_false in Ht. apply dec_stable in Ht.
    apply Nat.eqb_eq in Hq. rewrite existsb_false in Hf. split.
    + intros [= <-]. exists lv. split; [|done]. split; try done.
      intros o Ho%Hf. by apply bool_decide_eq_false in Ho.
    + intros (lv' & [Ha _ _ _ _ _] & ->). rewrite Hr in Ha. by injection Ha as ->.
Qed.

(** ext4 geometry that was read back fits the device without wrapping around. *)
Lemma check_ext4_result_ok request fs_type uuid label block_size block_count :
  check_ext4_result request fs_type uuid label block_size block_count = Ok tt ↔
  fs_type = "ext4"%string ∧ uuid = request.(Ext4CreateRequest.uuid) ∧
  label = request.(Ext4CreateRequest.label) ∧ block_size ∈ [1024; 2048; 4096]%N ∧
  (0 < block_count)%N ∧ (block_size * block_count <= u64_MAX)%N ∧
  (block_size * block_count <= request.(Ext4CreateRequest.size))%N.
Proof.
  unfold check_ext4_result, u64_checked_mul.
  destruct (_ || _) eqn:Hc.
  - split; [done|]. intros (-> & -> & -> & Hb & Hn & Hmax & Hs).
    rewrite !decide_neq_refl in Hc.
    apply contains_true in Hb. rewrite Hb, (proj2 (N.leb_le _ _) Hmax) in Hc. simpl in Hc.
    apply orb_true_iff in Hc as [Hc%N.eqb_eq|Hc%N.ltb_lt]; lia.
  - rewrite !orb_false_iff in Hc. destruct Hc as [[[[[H1 H2] H3] H4] H5] H6].
    rewrite bool_decide_eq_false in H1, H2, H3. apply dec_stable in H1, H2, H3.
    apply negb_false_iff, contains_true in H4. apply N.eqb_neq in H5.
    destruct (N.leb_spec (block_size * block_count) u64_MAX); [|done].
    simpl in H6. apply N.ltb_ge in H6. split; [|done]. intros _. split_and!; auto. lia.
Qed.
