(* ===== verification/Scope.v ===== *)
(** * Resolved actions and the reviewed scope: [storage-runtime/src/targets.rs]

    The data a resolution produces, and [check_scope]: everything connected to
    the target must be in the live state what it was in the reviewed one.  The
    JSON text of a mount, by which mounts are compared, is a parameter. *)

From stdpp Require Import relations.
From S2P Require Import Prelude Model Reach Graph GraphOrder GraphValid State Action Contract.
From S2P Require Import Logical Evidence Effects Report Simulate Wire Observation Correlate.
From S2P Require Import Observe Execution Recipes.

Abbreviation BackendId := string (only parsing).

Module TargetFingerprint.
Record TargetFingerprint := mk { planned_id : NodeId; external_ids : list ExternalId }.
#[global] Instance TargetFingerprint_eq_dec : EqDecision TargetFingerprint.
Proof. solve_decision. Defined.
End TargetFingerprint.
Abbreviation TargetFingerprint := TargetFingerprint.TargetFingerprint.

Module TargetError.
Inductive TargetError :=
| Observation (e : ObservationError)
| Correlation (e : CorrelationError)
| Run (e : ExecutionRunError)
| UnsupportedAction
| FilesystemEndpoint
| UnverifiedOutput
| NativeRequest (e : LvmWriteError)
| ScopeChanged
| NameConflict
| Json.
#[global] Instance TargetError_eq_dec : EqDecision TargetError.
Proof. solve_decision. Defined.
End TargetError.
Abbreviation TargetError := TargetError.TargetError.

Abbreviation targeting A := (result A (Failure TargetError)) (only parsing).

Module ResolvedTarget.
Record ResolvedTarget := mk {
  planned_id : NodeId; observed_id : NodeId; vg_uuid : string; vg_name : string }.
#[global] Instance ResolvedTarget_eq_dec : EqDecision ResolvedTarget.
Proof. solve_decision. Defined.
End ResolvedTarget.
Abbreviation ResolvedTarget := ResolvedTarget.ResolvedTarget.

Module ResolvedLvTarget.
Record ResolvedLvTarget := mk {
  planned_id : NodeId;
  observed_id : NodeId;
  lv_uuid : string;
  lv_name : string;
  size : Bytes;
  block : option BlockFacts }.
#[global] Instance ResolvedLvTarget_eq_dec : EqDecision ResolvedLvTarget.
Proof. solve_decision. Defined.
End ResolvedLvTarget.
Abbreviation ResolvedLvTarget := ResolvedLvTarget.ResolvedLvTarget.

Module ResolvedFilesystemTarget.
Record ResolvedFilesystemTarget := mk {
  planned_id : NodeId; observed_id : NodeId; uuid : string }.
#[global] Instance ResolvedFilesystemTarget_eq_dec : EqDecision ResolvedFilesystemTarget.
Proof. solve_decision. Defined.
End ResolvedFilesystemTarget.
Abbreviation ResolvedFilesystemTarget := ResolvedFilesystemTarget.ResolvedFilesystemTarget.

Module ResolvedAction.
Record ResolvedAction := mk {
  run_id : Uuid;
  action_id : ActionId;
  operation : ProviderAction;
  backend : BackendId;
  observation : ObservationReference;
  target : ResolvedTarget;
  lv_target : option ResolvedLvTarget;
  filesystem_target : option ResolvedFilesystemTarget }.
#[global] Instance ResolvedAction_eq_dec : EqDecision ResolvedAction.
Proof. solve_decision. Defined.
End ResolvedAction.
Abbreviation ResolvedAction := ResolvedAction.ResolvedAction.

(** [ResolvedAction::fingerprints] *)
Definition fingerprints (resolved : ResolvedAction) : list TargetFingerprint :=
  let target := resolved.(ResolvedAction.target) in
  [TargetFingerprint.mk target.(ResolvedTarget.planned_id)
     [ExternalId.LvmVgUuid target.(ResolvedTarget.vg_uuid)]]
  ++ match resolved.(ResolvedAction.lv_target) with
     | Some lv => [TargetFingerprint.mk lv.(ResolvedLvTarget.planned_id)
                     [ExternalId.LvmLvUuid lv.(ResolvedLvTarget.lv_uuid)]]
     | None => []
     end
  ++ match resolved.(ResolvedAction.filesystem_target) with
     | Some fs => [TargetFingerprint.mk fs.(ResolvedFilesystemTarget.planned_id)
                     [ExternalId.Filesystem "ext4" fs.(ResolvedFilesystemTarget.uuid)]]
     | None => []
     end.

Implicit Types (baseline current : CurrentState) (selected : list NodeId) (graph : NodeGraph).

(** ** The connected component *)

(** The two tests of the loop body, in order. *)
Definition grow_edge selected (ends : NodeId * NodeId) : list NodeId :=
  let '(from, to) := ends in
  let selected := if contains from selected && negb (contains to selected)
                  then selected ++ [to] else selected in
  if contains to selected && negb (contains from selected) then selected ++ [from] else selected.

Definition dependency_ends (d : Dependency) : NodeId * NodeId :=
  (d.(Dependency.from_), d.(Dependency.to)).
Definition relation_ends (r : Relation) : NodeId * NodeId := (r.(Relation.from_), r.(Relation.to)).

Definition graph_ends graph : list (NodeId * NodeId) :=
  (dependency_ends <$> graph.(NodeGraph.dependencies)) ++
  (relation_ends <$> graph.(NodeGraph.relations)).

(** One round visits the dependencies and then the relations. *)
Fixpoint grow_scope {E} (fuel : nat) graph selected : result (list NodeId) (Failure E) :=
  match fuel with
  | 0 => Err OutOfFuel
  | S fuel =>
      let grown := foldl grow_edge selected (graph_ends graph) in
      if (length selected =? length grown)%nat then Ok grown else grow_scope fuel graph grown
  end.

(** Every round but the last adds an endpoint that was not selected. *)
Definition scope_fuel graph : nat := S (S (2 * length (graph_ends graph))).

(** ** Comparison *)

Definition is_physical (kind : NodeKind) : bool :=
  match kind with
  | NodeKind.Disk | NodeKind.NvmeNamespace _ | NodeKind.Partition _ _ _ _ => true
  | _ => false
  end.

Definition node_spec graph (id : NodeId) : option NodeSpec := Node.kind <$> Graph.node graph id.

Definition check_same_spec baseline current (pair : NodeId * NodeId) : targeting unit :=
  let '(old, new) := pair in
  if bool_decide (node_spec baseline.(CurrentState.graph) old ≠ node_spec current.(CurrentState.graph) new)
  then Err (Reported TargetError.ScopeChanged) else Ok tt.

Definition check_physical baseline current (pair : NodeId * NodeId) : targeting unit :=
  let '(old, new) := pair in
  let changed := Reported TargetError.ScopeChanged in
  let? original := ok_or (Graph.node baseline.(CurrentState.graph) old) changed in
  if is_physical original.(Node.kind).(NodeSpec.kind)
  then
    let? live := ok_or (Graph.node current.(CurrentState.graph) new) changed in
    match original.(Node.size).(NodeFacts.block), live.(Node.size).(NodeFacts.block) with
    | Some before, Some after =>
        if negb (is_some_and (λ size, negb (size =? 0)%N) original.(Node.kind).(NodeSpec.size))
           || bool_decide (before.(BlockFacts.geometry) = None)
           || bool_decide (after.(BlockFacts.geometry) ≠ before.(BlockFacts.geometry))
           || bool_decide (after.(BlockFacts.read_only) ≠ Some false)
        then Err changed else Ok tt
    | _, _ => Err changed
    end
  else Ok tt.

(** [ids[&id]] *)
Definition mapped_id {E} (ids : gmap NodeId NodeId) (id : NodeId) : result NodeId (Failure E) :=
  ok_or (ids !! id) Panicked.

Definition mapped_dependency {E} (ids : gmap NodeId NodeId) (edge : Dependency)
    : result Dependency (Failure E) :=
  let? from := mapped_id ids edge.(Dependency.from_) in
  let? to := mapped_id ids edge.(Dependency.to) in
  Ok (Dependency.mk from to edge.(Dependency.kind)).

Definition mapped_relation {E} (ids : gmap NodeId NodeId) (edge : Relation)
    : result Relation (Failure E) :=
  let? from := mapped_id ids edge.(Relation.from_) in
  let? to := mapped_id ids edge.(Relation.to) in
  Ok (Relation.mk from to edge.(Relation.kind)).

(** [ids.contains_key(&edge.from) || ids.contains_key(&edge.to)] *)
Abbreviation touches_source ids ends :=
  (is_Some (ids !! ends.1) ∨ is_Some (ids !! ends.2)) (only parsing).

(** [ids.values().any(|id| *id == edge.from || *id == edge.to)] *)
Abbreviation touches_target targets ends :=
  (ends.1 ∈ targets ∨ ends.2 ∈ targets) (only parsing).

Definition same_members {A} `{EqDecision A} (expected actual : list A) : bool :=
  (length expected =? length actual)%nat && forallb (λ x, contains x actual) expected.

Definition check_edges baseline current (ids : gmap NodeId NodeId) (targets : list NodeId)
    : targeting unit :=
  let? dependencies := try_map (mapped_dependency ids)
    (filter (λ d, touches_source ids (dependency_ends d))
       baseline.(CurrentState.graph).(NodeGraph.dependencies)) in
  let actual := filter (λ d, touches_target targets (dependency_ends d))
                  current.(CurrentState.graph).(NodeGraph.dependencies) in
  if negb (same_members dependencies actual) then Err (Reported TargetError.ScopeChanged)
  else
    let? relations := try_map (mapped_relation ids)
      (filter (λ r, touches_source ids (relation_ends r))
         baseline.(CurrentState.graph).(NodeGraph.relations)) in
    let actual := filter (λ r, touches_target targets (relation_ends r))
                    current.(CurrentState.graph).(NodeGraph.relations) in
    if negb (same_members relations actual) then Err (Reported TargetError.ScopeChanged) else Ok tt.

(** *** Mounts *)

Definition duplicate_mount (entries : list ObservedMount) : bool :=
  existsb (λ '(index, mount),
      existsb (λ other,
          bool_decide (other.(ObservedMount.target) = mount.(ObservedMount.target)) &&
          bool_decide (other.(ObservedMount.context) = mount.(ObservedMount.context)))
        (take index entries))
    (enumerate entries).

Definition with_source (source : MountSource) (mount : ObservedMount) : ObservedMount :=
  ObservedMount.mk source mount.(ObservedMount.target) mount.(ObservedMount.options)
    mount.(ObservedMount.context).
Definition sort_options (mount : ObservedMount) : ObservedMount :=
  ObservedMount.mk mount.(ObservedMount.source) mount.(ObservedMount.target)
    (sort_by String.leb mount.(ObservedMount.options)) mount.(ObservedMount.context).

(** The source of a mount in the live state, by durable identity. *)
Definition live_source baseline current (source : MountSource) : targeting MountSource :=
  let correlate id :=
    let? mapping := map_failure TargetError.Correlation (correlate_nodes baseline current [id]) in
    match mapping with
    | first :: _ => Ok first.(NodeCorrelation.target)
    | [] => Err (Reported TargetError.ScopeChanged)
    end in
  match source with
  | MountSource.Filesystem id => let? id := correlate id in Ok (MountSource.Filesystem id)
  | MountSource.BtrfsSubvolume id => let? id := correlate id in Ok (MountSource.BtrfsSubvolume id)
  | MountSource.ZfsDataset id => let? id := correlate id in Ok (MountSource.ZfsDataset id)
  | source => Ok source
  end.

Definition live_mount baseline current (mount : ObservedMount) : targeting ObservedMount :=
  let? source := live_source baseline current mount.(ObservedMount.source) in
  Ok (sort_options (with_source source mount)).

(** [serde_json::to_string] of a mount. *)
Class MountText := { mount_json : ObservedMount → option string }.

Definition mount_texts `{MountText} (entries : list ObservedMount) : targeting (list string) :=
  try_map (λ m, ok_or (mount_json m) (Reported TargetError.Json)) entries.

Definition check_mounts `{MountText} baseline current : targeting unit :=
  let mounts := baseline.(CurrentState.mounts).(MountState.entries) in
  let actual := current.(CurrentState.mounts).(MountState.entries) in
  if duplicate_mount mounts || duplicate_mount actual
  then Err (Reported TargetError.ScopeChanged)
  else
    let? mounts := try_map (live_mount baseline current) mounts in
    let actual := sort_options <$> actual in
    let? expected := mount_texts mounts in
    let? actual := mount_texts actual in
    if bool_decide (sort_by String.leb expected = sort_by String.leb actual)
    then Ok tt else Err (Reported TargetError.ScopeChanged).

(** The [HashMap] of the mapping is iterated in the order of [map_to_list]; the
    loops over it can only end with [ScopeChanged]. *)
Definition check_scope `{MountText} baseline current (source : NodeId) : targeting unit :=
  let? scope := grow_scope (scope_fuel baseline.(CurrentState.graph))
                  baseline.(CurrentState.graph) [source] in
  let? mapping := map_failure TargetError.Correlation (correlate_nodes baseline current scope) in
  let ids : gmap NodeId NodeId :=
    list_to_map ((λ c, (c.(NodeCorrelation.source), c.(NodeCorrelation.target))) <$> mapping) in
  let? _ := try_all (check_same_spec baseline current) (map_to_list ids) in
  let? _ := try_all (check_physical baseline current) (map_to_list ids) in
  let? _ := check_edges baseline current ids (map_to_list ids).*2 in
  check_mounts baseline current.
