(* ===== verification/ScopeProps.v ===== *)
(** * What an unchanged scope is

    The loop of [check_scope] collects exactly what is connected to the target,
    and an accepted scope is a copy: the connected component is found in the
    live state by durable identity, with the same properties and edges and
    nothing else attached, and all mounts are the reviewed ones. *)

From stdpp Require Import relations.
From S2P Require Import Prelude Model Reach Graph GraphOrder GraphValid State Action Contract.
From S2P Require Import Logical Evidence Effects Report Simulate SimulateProps Wire Observation Correlate.
From S2P Require Import Observe Execution Live LiveProps LiveGoal Recipes Native Scope.

Implicit Types (baseline current : CurrentState) (selected : list NodeId) (graph : NodeGraph).

(** ** The component *)

Definition linked graph (x y : NodeId) : Prop :=
  (x, y) ∈ graph_ends graph ∨ (y, x) ∈ graph_ends graph.

Definition connected graph : relation NodeId := rtc (linked graph).

Lemma grow_edge_spec graph selected from to :
  (from, to) ∈ graph_ends graph → NoDup selected →
  ∃ extra, grow_edge selected (from, to) = selected ++ extra ∧ NoDup (selected ++ extra) ∧
    (∀ x, x ∈ extra → (x = from ∨ x = to) ∧ ∃ y, y ∈ selected ∧ linked graph y x) ∧
    (from ∈ selected ++ extra ↔ to ∈ selected ++ extra).
Proof.
  intros Hin Hnd. unfold grow_edge.
  destruct (contains from selected) eqn:Hf, (contains to selected) eqn:Ht;
    rewrite ?contains_true, ?contains_false in *; cbn [andb negb].
  - apply contains_true in Hf, Ht. rewrite Ht, Hf. simpl. exists []. rewrite app_nil_r.
    apply contains_true in Hf, Ht. split_and!; [done..|set_solver|tauto].
  - assert (contains from (selected ++ [to]) = true) as -> by (apply contains_true; set_solver).
    rewrite andb_false_r. exists [to]. split_and!; [done|by apply NoDup_snoc| |set_solver].
    intros x ->%list_elem_of_singleton. split; [by right|]. exists from. split; [done|by left].
  - apply contains_true in Ht as Ht'. apply contains_false in Hf as Hf'. rewrite Ht', Hf'. simpl.
    exists [from]. split_and!; [done|by apply NoDup_snoc| |set_solver].
    intros x ->%list_elem_of_singleton. split; [by left|]. exists to. split; [done|by right].
  - apply contains_false in Ht as Ht'. rewrite Ht'. simpl. exists []. rewrite app_nil_r.
    split_and!; [done..|set_solver|tauto].
Qed.

(** What one round keeps: a duplicate-free list that grows by connected endpoints. *)
Record grown graph selected selected' : Prop := {
  grown_extends : selected `prefix_of` selected';
  grown_nodup : NoDup selected';
  grown_connected x : x ∈ selected' → ∃ y, y ∈ selected ∧ connected graph y x;
  grown_ends x : x ∈ selected' → x ∈ selected ∨ x ∈ (graph_ends graph).*1 ++ (graph_ends graph).*2 }.

Lemma grow_round graph ends selected :
  ends ⊆ graph_ends graph → NoDup selected → grown graph selected (foldl grow_edge selected ends) ∧
  (length (foldl grow_edge selected ends) = length selected →
   foldl grow_edge selected ends = selected ∧
   ∀ from to, (from, to) ∈ ends → from ∈ selected ↔ to ∈ selected).
Proof.
  revert selected. induction ends as [|[from to] ends IH]; intros selected Hsub Hnd; cbn [foldl].
  { split; [split; [done|done|intros x ?; exists x; split; [done|apply rtc_refl]|auto]|].
    split; [done|]. set_solver. }
  destruct (grow_edge_spec graph selected from to) as (extra & -> & Hnd' & Hextra & Hends);
    [set_solver|done|].
  destruct (IH (selected ++ extra)) as [[He Hn Hc Hd] Hfix]; [set_solver|done|]. split.
  - split; [by etrans; [apply prefix_app_r|]|done| |].
    + intros x (y & Hy & Hyx)%Hc. apply elem_of_app in Hy as [Hy|Hy]; [by exists y|].
      destruct (Hextra y Hy) as (_ & z & Hz & Hl). exists z. split; [done|].
      by eapply rtc_l.
    + intros x [[Hx|Hx]%elem_of_app|Hx]%Hd; [by left| |by right].
      right. destruct (Hextra x Hx) as [Heq _]. rewrite elem_of_app, !list_elem_of_fmap.
      destruct Heq as [->| ->]; [left|right]; exists (from, to); split; auto; set_solver.
  - intros Hlen. pose proof (prefix_length _ _ He) as Hle. rewrite length_app in Hle.
    assert (extra = []) as -> by (apply nil_length_inv; lia). rewrite app_nil_r in *.
    destruct (Hfix Hlen) as [Heq Hcl]. split; [done|].
    intros a b' [[= -> ->]|Hab]%elem_of_cons; [done|by apply Hcl].
Qed.

Lemma grow_scope_loop {E} graph source fuel selected :
  NoDup selected → source ∈ selected → (∀ x, x ∈ selected → connected graph source x) →
  (∀ x, x ∈ selected → x ∈ source :: (graph_ends graph).*1 ++ (graph_ends graph).*2) →
  2 * length (graph_ends graph) + 2 ≤ fuel + length selected →
  1 ≤ fuel →
  returns (E:=E) (λ scope, NoDup scope ∧ ∀ x, x ∈ scope ↔ connected graph source x)
    (grow_scope fuel graph selected).
Proof.
  revert selected. induction fuel as [|fuel IH]; intros selected Hnd Hs Hc Hd Hfuel H1; [lia|].
  cbn [grow_scope]. destruct (grow_round graph (graph_ends graph) selected) as [[He Hn Hg Hx] Hfix];
    [done..|].
  assert (∀ x, x ∈ foldl grow_edge selected (graph_ends graph) → connected graph source x) as Hc'.
  { intros x (y & Hy & Hyx)%Hg. etrans; [by apply Hc|done]. }
  destruct (Nat.eqb_spec (length selected) (length (foldl grow_edge selected (graph_ends graph))))
    as [Hlen|Hlen]; simpl.
  - destruct (Hfix (eq_sym Hlen)) as [Heq Hcl]. rewrite Heq in *. split; [done|].
    intros x. split; [apply Hc|]. intros Hr. revert Hs. clear -Hr Hcl.
    induction Hr as [|x y z Hl _ IHr]; [done|]. intros Hs. apply IHr.
    destruct Hl as [Hl|Hl]; [by apply (Hcl x y)|by apply (Hcl y x)].
  - pose proof (prefix_length _ _ He) as Hle.
    assert (length (foldl grow_edge selected (graph_ends graph)) ≤
            length (source :: (graph_ends graph).*1 ++ (graph_ends graph).*2)) as Hmax.
    { apply submseteq_length, NoDup_submseteq; [done|]. intros x [Hx'|Hx']%Hx; [by apply Hd|by right]. }
    simpl in Hmax. rewrite length_app, !length_fmap in Hmax.
    apply IH; [done| |done| |lia|lia].
    + destruct He as [k Hk]. rewrite Hk. apply elem_of_app. by left.
    + intros x [Hx'|Hx']%Hx; [by apply Hd|by right].
Qed.

(** The loop ends, and with exactly the connected component. *)
Lemma grow_scope_spec {E} graph source :
  returns (E:=E) (λ scope, NoDup scope ∧ ∀ x, x ∈ scope ↔ connected graph source x)
    (grow_scope (scope_fuel graph) graph [source]).
Proof.
  unfold scope_fuel. apply grow_scope_loop; [apply NoDup_singleton|by left| | |simpl; lia|lia].
  - intros x ->%list_elem_of_singleton. apply rtc_refl.
  - intros x ->%list_elem_of_singleton. by left.
Qed.

(** ** The comparison *)

(** Live block facts of a physical device. *)
Definition same_device (original live : Node) : Prop :=
  ∃ before after geometry,
    original.(Node.size).(NodeFacts.block) = Some before ∧
    live.(Node.size).(NodeFacts.block) = Some after ∧
    before.(BlockFacts.geometry) = Some geometry ∧ after.(BlockFacts.geometry) = Some geometry ∧
    after.(BlockFacts.read_only) = Some false ∧
    ∃ size, original.(Node.kind).(NodeSpec.size) = Some size ∧ size ≠ 0%N.

(** A mount of the reviewed state as the live state must show it: the same up
    to the order of its options, its source followed by durable identity. *)
Inductive same_source baseline current : MountSource → MountSource → Prop :=
| ss_filesystem c : correlated baseline current c → same_source baseline current
    (MountSource.Filesystem c.(NodeCorrelation.source)) (MountSource.Filesystem c.(NodeCorrelation.target))
| ss_subvolume c : correlated baseline current c → same_source baseline current
    (MountSource.BtrfsSubvolume c.(NodeCorrelation.source))
    (MountSource.BtrfsSubvolume c.(NodeCorrelation.target))
| ss_dataset c : correlated baseline current c → same_source baseline current
    (MountSource.ZfsDataset c.(NodeCorrelation.source)) (MountSource.ZfsDataset c.(NodeCorrelation.target))
| ss_other source : mount_source_node source = None → same_source baseline current source source.

Definition same_mount baseline current (mount live : ObservedMount) : Prop :=
  same_source baseline current mount.(ObservedMount.source) live.(ObservedMount.source) ∧
  mount.(ObservedMount.target) = live.(ObservedMount.target) ∧
  mount.(ObservedMount.context) = live.(ObservedMount.context) ∧
  mount.(ObservedMount.options) ≡ₚ live.(ObservedMount.options).

Definition same_mounts baseline current (mounts live : list ObservedMount) : Prop :=
  ∃ live', live' ≡ₚ live ∧ Forall2 (same_mount baseline current) mounts live'.

(** The component of [source], found again. *)
Record scope_unchanged baseline current (source : NodeId) (ids : gmap NodeId NodeId) : Prop := {
  su_component x : is_Some (ids !! x) ↔ connected baseline.(CurrentState.graph) source x;
  su_correlated x y : ids !! x = Some y → ∃ i, correlated baseline current (NodeCorrelation.mk x y i);
  su_injective x y z : ids !! x = Some z → ids !! y = Some z → x = y;
  su_node x y : ids !! x = Some y → ∃ original live,
    Graph.node baseline.(CurrentState.graph) x = Some original ∧
    Graph.node current.(CurrentState.graph) y = Some live ∧ original.(Node.kind) = live.(Node.kind) ∧
    (is_physical original.(Node.kind).(NodeSpec.kind) = true → same_device original live);
  su_dependencies e : e ∈ baseline.(CurrentState.graph).(NodeGraph.dependencies) →
    touches_source ids (dependency_ends e) →
    ∃ d, d ∈ current.(CurrentState.graph).(NodeGraph.dependencies) ∧ renamed_dependency ids e d;
  su_no_dependencies d : d ∈ current.(CurrentState.graph).(NodeGraph.dependencies) →
    touches_target (map_to_list ids).*2 (dependency_ends d) →
    ∃ e, e ∈ baseline.(CurrentState.graph).(NodeGraph.dependencies) ∧ renamed_dependency ids e d;
  su_relations e : e ∈ baseline.(CurrentState.graph).(NodeGraph.relations) →
    touches_source ids (relation_ends e) →
    ∃ d, d ∈ current.(CurrentState.graph).(NodeGraph.relations) ∧ renamed_relation ids e d;
  su_no_relations d : d ∈ current.(CurrentState.graph).(NodeGraph.relations) →
    touches_target (map_to_list ids).*2 (relation_ends d) →
    ∃ e, e ∈ baseline.(CurrentState.graph).(NodeGraph.relations) ∧ renamed_relation ids e d;
  su_mounts : same_mounts baseline current baseline.(CurrentState.mounts).(MountState.entries)
                current.(CurrentState.mounts).(MountState.entries) }.

Lemma correlated_nodes baseline current c :
  correlated baseline current c →
  is_Some (Graph.node baseline.(CurrentState.graph) c.(NodeCorrelation.source)) ∧
  is_Some (Graph.node current.(CurrentState.graph) c.(NodeCorrelation.target)).
Proof.
  destruct 1 as [s t i n m [[Hn _ _] [Hm _ _] _ _ _ _]|s t i e e' _ [_ _ _ _ _ _ _ _ (n & m & Hn & Hm & _)]];
    simpl; eauto.
Qed.

(** Renaming edges through the map of a scope, for both kinds of edges. *)
Section rename.
Context {T K E : Type} `{EqDecision T} (from to : T → NodeId) (kind : T → K).
Hypothesis edge_ext : ∀ d e, from d = from e → to d = to e → kind d = kind e → d = e.
Context (f : gmap NodeId NodeId) (rename : T → result T (Failure E)).
Hypothesis rename_ok : ∀ e d, rename e = Ok d ↔ renamed from to kind f e d.

Lemma renamed_members goal actual images :
  (∀ a c t, f !! a = Some t → f !! c = Some t → a = c) → NoDup goal →
  try_map rename goal = Ok images → same_members images actual = true →
  (∀ e, e ∈ goal → ∃ d, d ∈ actual ∧ renamed from to kind f e d) ∧
  (∀ d, d ∈ actual → ∃ e, e ∈ goal ∧ renamed from to kind f e d).
Proof.
  intros Hinj Hnd Him%try_map_Forall2 [Hlen%Nat.eqb_eq Hall]%andb_true_iff.
  rewrite forallb_elem in Hall. rewrite <-(Forall2_length _ _ _ Him) in Hlen.
  assert (∀ e, e ∈ goal → ∃ d, d ∈ actual ∧ renamed from to kind f e d) as Hto.
  { intros e [i Hi]%list_elem_of_lookup. destruct (Forall2_lookup_l _ _ _ _ _ Him Hi) as (d & Hd & He).
    exists d. split; [|by apply rename_ok].
    apply contains_true, Hall. by eapply list_elem_of_lookup_2. }
  split; [done|]. by eapply renamed_onto.
Qed.
End rename.

Lemma dependency_ext (d e : Dependency) :
  d.(Dependency.from_) = e.(Dependency.from_) → d.(Dependency.to) = e.(Dependency.to) →
  d.(Dependency.kind) = e.(Dependency.kind) → d = e.
Proof. destruct d, e. simpl. congruence. Qed.
Lemma relation_ext (d e : Relation) :
  d.(Relation.from_) = e.(Relation.from_) → d.(Relation.to) = e.(Relation.to) →
  d.(Relation.kind) = e.(Relation.kind) → d = e.
Proof. destruct d, e. simpl. congruence. Qed.

Lemma returns_mapped {A B E} (f : A → result B (Failure E)) l :
  (∀ x, x ∈ l → returns (λ _, True) (f x)) → returns (λ _, True) (try_map f l).
Proof.
  intros Hf. eapply returns_mono; [by apply (returns_try_map f (λ _ _, True))|done].
Qed.

Lemma mapped_dependency_ok {E} ids e d :
  mapped_dependency (E:=E) ids e = Ok d ↔ renamed_dependency ids e d.
Proof.
  unfold mapped_dependency, mapped_id, renamed. destruct e as [a c k], d as [x y k']; simpl.
  destruct (ids !! a); simpl; [|naive_solver]. destruct (ids !! c); simpl; naive_solver.
Qed.
Lemma mapped_relation_ok {E} ids e d :
  mapped_relation (E:=E) ids e = Ok d ↔ renamed_relation ids e d.
Proof.
  unfold mapped_relation, mapped_id, renamed. destruct e as [a c k], d as [x y k']; simpl.
  destruct (ids !! a); simpl; [|naive_solver]. destruct (ids !! c); simpl; naive_solver.
Qed.

Section check.
Context baseline current (source : NodeId).

Lemma check_same_spec_ok x y :
  check_same_spec baseline current (x, y) = Ok tt ↔
  node_spec baseline.(CurrentState.graph) x = node_spec current.(CurrentState.graph) y.
Proof. unfold check_same_spec. case_bool_decide as H; naive_solver. Qed.

Lemma check_physical_ok x y original live :
  Graph.node baseline.(CurrentState.graph) x = Some original →
  Graph.node current.(CurrentState.graph) y = Some live →
  check_physical baseline current (x, y) = Ok tt →
  is_physical original.(Node.kind).(NodeSpec.kind) = true → same_device original live.
Proof.
  intros Hx Hy. unfold check_physical. rewrite Hx, Hy. cbn [ok_or]. intros Hc Hp. rewrite Hp in Hc.
  unfold same_device.
  destruct (NodeFacts.block (Node.size original)) as [before|]; [|done].
  destruct (NodeFacts.block (Node.size live)) as [after|]; [|done].
  destruct (_ || _) eqn:Hg in Hc; [done|]. rewrite !orb_false_iff, negb_false_iff in Hg.
  destruct Hg as [[[Hs Hb] Ha] Hr]. rewrite bool_decide_eq_false in Hb, Ha, Hr.
  apply dec_stable in Ha, Hr. destruct (BlockFacts.geometry before) as [g|] eqn:Hbg; [|done].
  destruct (NodeSpec.size (Node.kind original)) as [size|]; [|done]. simpl in Hs.
  apply negb_true_iff, N.eqb_neq in Hs. exists before, after, g. eauto 10.
Qed.

Section edges.
Context (ids : gmap NodeId NodeId).
Hypothesis ids_component : ∀ x, is_Some (ids !! x) ↔ connected baseline.(CurrentState.graph) source x.
Hypothesis ids_injective : ∀ x y z, ids !! x = Some z → ids !! y = Some z → x = y.

Lemma component_ends from to :
  (from, to) ∈ graph_ends baseline.(CurrentState.graph) → touches_source ids (from, to) →
  is_Some (ids !! from) ∧ is_Some (ids !! to).
Proof.
  intros Hin. rewrite !ids_component. intros Hor.
  assert (linked baseline.(CurrentState.graph) from to) as Hl by (by left).
  assert (linked baseline.(CurrentState.graph) to from) as Hr by (by right).
  destruct Hor as [Hc|Hc]; split; try done; by eapply rtc_r.
Qed.

Lemma check_edges_spec targets :
  NoDup baseline.(CurrentState.graph).(NodeGraph.dependencies) →
  NoDup baseline.(CurrentState.graph).(NodeGraph.relations) →
  returns (λ _,
      (∀ e, e ∈ baseline.(CurrentState.graph).(NodeGraph.dependencies) →
         touches_source ids (dependency_ends e) →
         ∃ d, d ∈ current.(CurrentState.graph).(NodeGraph.dependencies) ∧ renamed_dependency ids e d) ∧
      (∀ d, d ∈ current.(CurrentState.graph).(NodeGraph.dependencies) →
         touches_target targets (dependency_ends d) →
         ∃ e, e ∈ baseline.(CurrentState.graph).(NodeGraph.dependencies) ∧ renamed_dependency ids e d) ∧
      (∀ e, e ∈ baseline.(CurrentState.graph).(NodeGraph.relations) →
         touches_source ids (relation_ends e) →
         ∃ d, d ∈ current.(CurrentState.graph).(NodeGraph.relations) ∧ renamed_relation ids e d) ∧
      (∀ d, d ∈ current.(CurrentState.graph).(NodeGraph.relations) →
         touches_target targets (relation_ends d) →
         ∃ e, e ∈ baseline.(CurrentState.graph).(NodeGraph.relations) ∧ renamed_relation ids e d))
    (check_edges baseline current ids targets).
Proof.
  intros Hnd Hnr. unfold check_edges.
  set (goal := filter (λ d, touches_source ids (dependency_ends d)) _).
  set (goal' := filter (λ r, touches_source ids (relation_ends r)) _).
  eapply returns_bind; [apply (returns_eq (λ _, True)), returns_mapped; intros d [Ht Hd]%list_elem_of_filter|].
  { destruct (component_ends d.(Dependency.from_) d.(Dependency.to)) as [[x Hx] [y Hy]]; [|done|].
    { apply elem_of_app. left. by apply (list_elem_of_fmap_2 dependency_ends). }
    unfold mapped_dependency, mapped_id. by rewrite Hx, Hy. }
  intros images [Hi _]. destruct (same_members images _) eqn:Hs; cbn [negb]; [|done].
  eapply returns_bind; [apply (returns_eq (λ _, True)), returns_mapped; intros d [Ht Hd]%list_elem_of_filter|].
  { destruct (component_ends d.(Relation.from_) d.(Relation.to)) as [[x Hx] [y Hy]]; [|done|].
    { apply elem_of_app. right. by apply (list_elem_of_fmap_2 relation_ends). }
    unfold mapped_relation, mapped_id. by rewrite Hx, Hy. }
  intros images' [Hi' _]. destruct (same_members images' _) eqn:Hs'; cbn [negb]; [|done].
  destruct (renamed_members _ _ _ dependency_ext _ _ (mapped_dependency_ok ids) _ _ _ ids_injective
              (NoDup_filter _ _ Hnd) Hi Hs) as [Hto Hfrom].
  destruct (renamed_members _ _ _ relation_ext _ _ (mapped_relation_ok ids) _ _ _ ids_injective
              (NoDup_filter _ _ Hnr) Hi' Hs') as [Hto' Hfrom'].
  simpl. split_and!.
  - intros e He Ht. destruct (Hto e) as (d & Hd & Hr); [by apply list_elem_of_filter|].
    exists d. by apply list_elem_of_filter in Hd as [_ Hd].
  - intros d Hd Ht. destruct (Hfrom d) as (e & He & Hr); [by apply list_elem_of_filter|].
    exists e. by apply list_elem_of_filter in He as [_ He].
  - intros e He Ht. destruct (Hto' e) as (d & Hd & Hr); [by apply list_elem_of_filter|].
    exists d. by apply list_elem_of_filter in Hd as [_ Hd].
  - intros d Hd Ht. destruct (Hfrom' d) as (e & He & Hr); [by apply list_elem_of_filter|].
    exists e. by apply list_elem_of_filter in He as [_ He].
Qed.
End edges.

(** *** Mounts *)

Lemma live_source_spec mounted :
  returns (same_source baseline current mounted) (live_source baseline current mounted).
Proof.
  assert (∀ id, returns (λ t, ∃ c, correlated baseline current c ∧
      c.(NodeCorrelation.source) = id ∧ c.(NodeCorrelation.target) = t)
    (let? mapping := map_failure TargetError.Correlation (correlate_nodes baseline current [id]) in
     match mapping with
     | first :: _ => Ok first.(NodeCorrelation.target)
     | [] => Err (Reported TargetError.ScopeChanged)
     end)) as Hc.
  { intros id. eapply returns_bind.
    { apply returns_map_failure, returns_eq, correlate_nodes_returns. }
    intros mapping [(_ & _ & c & -> & Hs & Hcorr)%correlate_single _]. simpl. eauto. }
  unfold live_source. cbv zeta.
  destruct mounted as [id|id|id| | | |]; simpl; try (by constructor);
    (eapply returns_bind; [apply Hc|]; intros t (c & Hcorr & <- & <-); by constructor).
Qed.

Lemma live_mount_spec mount :
  returns (λ live, ∃ s, same_source baseline current mount.(ObservedMount.source) s ∧
             live = sort_options (with_source s mount)) (live_mount baseline current mount).
Proof. eapply returns_bind; [apply live_source_spec|]. intros s Hs. simpl. eauto. Qed.

(** Texts keep mounts apart. *)
Definition mount_text_faithful `{MountText} : Prop :=
  ∀ m m' t, mount_json m = Some t → mount_json m' = Some t → m = m'.

Lemma mount_texts_perm `{MountText} l k texts texts' :
  mount_text_faithful → mount_texts l = Ok texts → mount_texts k = Ok texts' →
  texts ≡ₚ texts' → l ≡ₚ k.
Proof.
  intros Hf Hl%try_map_Forall2 Hk%try_map_Forall2 Hp.
  assert (∃ k', k' ≡ₚ k ∧ Forall2 (λ m t, ok_or (mount_json m) (Reported TargetError.Json) = Ok t) k' texts)
    as (k' & Hk' & Hall).
  { apply Forall2_flip in Hk. symmetry in Hp.
    destruct (Permutation_Forall2 Hp Hk) as (k' & ? & ?%Forall2_flip). by exists k'. }
  rewrite <-Hk'. apply reflexive_eq. clear -Hf Hl Hall.
  revert k' Hall. induction Hl as [|m t l texts Hm _ IH]; intros k' Hall.
  - by apply Forall2_nil_inv_r in Hall.
  - apply Forall2_cons_inv_r in Hall as (m' & k'' & Hm' & Hk & ->). f_equal; [|by apply IH].
    destruct (mount_json m) eqn:E1; [|done]. destruct (mount_json m') eqn:E2; [|done].
    simpl in *. simplify_eq. by eapply Hf.
Qed.

Lemma check_mounts_spec `{MountText} :
  mount_text_faithful →
  returns (λ _, same_mounts baseline current baseline.(CurrentState.mounts).(MountState.entries)
                  current.(CurrentState.mounts).(MountState.entries))
    (check_mounts baseline current).
Proof.
  intros Hf. unfold check_mounts. destruct (_ || _); [done|].
  eapply returns_bind; [apply returns_try_map; intros m _; apply live_mount_spec|].
  intros mounts Hm. eapply returns_bind; [apply (returns_eq (λ _, True)), returns_mapped|].
  { intros m _. by destruct (mount_json m). }
  intros texts [Ht _]. eapply returns_bind; [apply (returns_eq (λ _, True)), returns_mapped|].
  { intros m _. by destruct (mount_json m). }
  intros texts' [Ht' _]. case_bool_decide as Hsort; [|done]. simpl.
  assert (mounts ≡ₚ sort_options <$> current.(CurrentState.mounts).(MountState.entries)) as Hp.
  { eapply mount_texts_perm; [done..|]. by rewrite <-(sort_by_perm String.leb texts), Hsort, sort_by_perm. }
  destruct (Permutation_map_inv _ _ Hp) as (live & -> & Hperm).
  exists live. split; [done|]. apply Forall2_fmap_r in Hm. eapply Forall2_impl; [exact Hm|].
  intros m l (s & Hs & Heq). destruct m as [a t o x], l as [a' t' o' x']. unfold sort_options in Heq.
  simpl in Heq. injection Heq as -> -> Ho ->. split_and!; [done..|]. simpl.
  by rewrite <-(sort_by_perm String.leb o), <-Ho, sort_by_perm.
Qed.
End check.

(** ** The scope check *)

Definition mapping_ids (mapping : list NodeCorrelation) : gmap NodeId NodeId :=
  list_to_map ((λ c, (c.(NodeCorrelation.source), c.(NodeCorrelation.target))) <$> mapping).

Lemma mapping_ids_lookup mapping x y :
  NoDup (NodeCorrelation.source <$> mapping) →
  mapping_ids mapping !! x = Some y ↔ ∃ i, NodeCorrelation.mk x y i ∈ mapping.
Proof.
  intros Hnd. unfold mapping_ids. rewrite <-elem_of_list_to_map.
  - rewrite list_elem_of_fmap. split.
    + intros ([s t i] & [= -> ->] & Hin). by exists i.
    + intros [i Hin]. by exists (NodeCorrelation.mk x y i).
  - rewrite <-list_fmap_compose. exact Hnd.
Qed.

Lemma mapping_ids_injective mapping x y z :
  NoDup (NodeCorrelation.source <$> mapping) → NoDup (NodeCorrelation.target <$> mapping) →
  mapping_ids mapping !! x = Some z → mapping_ids mapping !! y = Some z → x = y.
Proof.
  intros Hs Ht [i Hi]%mapping_ids_lookup [j Hj]%mapping_ids_lookup; [|done..].
  apply list_elem_of_lookup in Hi as [a Ha], Hj as [c Hc].
  assert (a = c) as ->.
  { eapply (NoDup_lookup (NodeCorrelation.target <$> mapping)); [done|..];
      rewrite list_lookup_fmap; [by rewrite Ha|by rewrite Hc]. }
  congruence.
Qed.

Lemma returns_try_all {A E} (f : A → result unit (Failure E)) (P : A → Prop) l :
  (∀ x, x ∈ l → returns (λ _, P x) (f x)) → returns (λ _, ∀ x, x ∈ l → P x) (try_all f l).
Proof.
  intros Hf. unfold try_all.
  eapply returns_mono; [apply (returns_try_fold (λ _ x, f x) (λ pre _, ∀ x, x ∈ pre → P x))|done].
  - set_solver.
  - intros pre x post [] -> Hpre. eapply returns_mono; [apply Hf; set_solver|].
    intros u Hx y [Hy|Hy%list_elem_of_singleton]%elem_of_app; [by apply Hpre|by subst].
Qed.

Lemma returns_all_ok {A E} (f : A → result unit (Failure E)) l :
  (∀ x, x ∈ l → returns (λ _, True) (f x)) → returns (λ _, ∀ x, x ∈ l → f x = Ok tt) (try_all f l).
Proof.
  intros Hf. apply returns_try_all. intros x Hx. specialize (Hf x Hx). by destruct (f x) as [[]|[]].
Qed.

Lemma wf_dependencies_nodup graph : structure_wf graph → NoDup graph.(NodeGraph.dependencies).
Proof. intros [_ [_ _ Hl _ _ _ _ _] _]. by eapply NoDup_fmap_1. Qed.

Lemma check_scope_returns `{MountText} baseline current source :
  mount_text_faithful → NoDup baseline.(CurrentState.graph).(NodeGraph.relations) →
  returns (λ _, ∃ ids, scope_unchanged baseline current source ids) (check_scope baseline current source).
Proof.
  intros Hf Hnr. unfold check_scope. eapply returns_bind; [apply grow_scope_spec|].
  intros scope [_ Hscope]. eapply returns_bind.
  { apply returns_map_failure, returns_eq, correlate_nodes_returns. }
  intros mapping [Hok (Hall & Hns & Hnt & Hsel)].
  destruct (correlate_nodes_graphs _ _ _ _ Hok) as [Hwf _].
  fold (mapping_ids mapping). cbv zeta.
  pose proof (mapping_ids_injective mapping) as Hinj.
  assert (∀ x y, mapping_ids mapping !! x = Some y →
    ∃ i, correlated baseline current (NodeCorrelation.mk x y i)) as Hcorr.
  { intros x y [i Hi]%mapping_ids_lookup; [|done]. exists i. by eapply Forall_forall in Hall. }
  assert (∀ x, is_Some (mapping_ids mapping !! x) ↔ connected baseline.(CurrentState.graph) source x) as Hcomp.
  { intros x. rewrite <-Hscope, <-Hsel, list_elem_of_fmap. split.
    - intros [y [i Hi]%mapping_ids_lookup]; [|done]. by exists (NodeCorrelation.mk x y i).
    - intros ([s t i] & -> & Hin). exists t. apply mapping_ids_lookup; [done|]. by exists i. }
  set (ids := mapping_ids mapping) in *.
  eapply returns_bind.
  { apply returns_all_ok. intros [x y] _. unfold check_same_spec. by case_bool_decide. }
  intros [] Hspec. eapply returns_bind.
  { apply returns_all_ok. intros [x y] _. unfold check_physical.
    destruct (Graph.node _ x) as [n|]; [|done]. simpl. destruct (is_physical _); [|done].
    destruct (Graph.node _ y) as [m|]; [|done]. simpl. by repeat case_match. }
  intros [] Hphys. eapply returns_bind; [by eapply (check_edges_spec _ _ source); eauto using wf_dependencies_nodup|].
  intros [] (He1 & He2 & He3 & He4).
  eapply returns_mono; [by apply check_mounts_spec|]. intros [] Hmounts.
  exists ids. split; eauto.
  intros x y Hxy. destruct (Hcorr x y Hxy) as [i Hi].
  destruct (correlated_nodes _ _ _ Hi) as [[n Hn] [m Hm]]. simpl in Hn, Hm.
  apply elem_of_map_to_list in Hxy. exists n, m. split_and!; [done..| |].
  - pose proof (Hspec _ Hxy) as Hs%check_same_spec_ok. unfold node_spec in Hs. rewrite Hn, Hm in Hs.
    by injection Hs.
  - pose proof (Hphys _ Hxy). by eapply check_physical_ok.
Qed.

(** ** Theorem *)

(** The scope check always ends, without a panic; when it accepts, there is an
    injective renumbering of the whole component of the source under which
    kinds, physical endpoints, every dependency and relation that touches the
    component, and all mounts are unchanged. *)
Theorem check_scope_sound `{MountText} baseline current source :
  mount_text_faithful → NoDup baseline.(CurrentState.graph).(NodeGraph.relations) →
  returns (λ _, ∃ ids, scope_unchanged baseline current source ids) (check_scope baseline current source).
Proof. apply check_scope_returns. Qed.
