(* ===== verification/Bindings.v ===== *)
(** * Output bindings: [storage-runtime/src/bindings.rs] and [filesystem.rs]

    Which live object a planned output became.  A candidate is recorded once its
    action is [Verified], and is found again in every later observation by its
    UUID and its owner, never by a name or a transient identity.

    A [HashMap] is iterated in the order of [map_to_list]. *)

From S2P Require Import Prelude Model Reach Graph GraphOrder GraphValid State Action Contract.
From S2P Require Import Logical Evidence Effects Report Simulate Wire Observation Correlate.
From S2P Require Import Observe Execution Live LiveGoal Recipes Native Scope.

Module BindingError.
Inductive BindingError :=
| NotVerified
| Identity
| InterfaceUnknown
| Scope (e : TargetError)
| Run (e : ExecutionRunError)
| Observation (e : ObservationError).
#[global] Instance BindingError_eq_dec : EqDecision BindingError.
Proof. solve_decision. Defined.
End BindingError.
Abbreviation BindingError := BindingError.BindingError.

Abbreviation binding A := (result A (Failure BindingError)) (only parsing).
Abbreviation identity_error := (Reported BindingError.Identity) (only parsing).
Abbreviation not_verified := (Reported BindingError.NotVerified) (only parsing).

Implicit Types (run : ExecutionRun) (observed : LiveObservation) (graph : NodeGraph).

(** [ExecutionRun::state] and [ExecutionRun::completion] *)
Definition run_state run (action : ActionId) : executing ActionRunState :=
  let? r := action_run run action in Ok r.(ActionRun.state).
Definition run_completion run (action : ActionId) : executing (option BackendCompletion) :=
  let? r := action_run run action in Ok r.(ActionRun.completion).

(** ** ext4 evidence ([filesystem.rs])

    Its only error is [Identity], and every caller maps it to its own. *)

Definition is_filesystem_id (i : ExternalId) : bool :=
  match i with ExternalId.Filesystem _ _ => true | _ => false end.

Definition is_present_lv (node : Node) : bool :=
  bool_decide (node.(Node.size).(NodeFacts.presence) = Presence.Present) &&
  match node.(Node.kind).(NodeSpec.kind) with NodeKind.LvmLv _ => true | _ => false end.

Section runtime.
Context `{UuidText, MountText}.
(** [Display] of a correlation error. *)
Variable display : CorrelationError → string.

Definition observe_ext4 observed (backing : NodeId) (uuid : string) (label : option string)
    : option NodeId :=
  let graph := observed_graph observed in
  if negb (is_ok (validate_observation observed)) || negb (canonical_uuid uuid)
     || negb (is_some_and is_present_lv (Graph.node graph backing))
  then None
  else
    match holders graph (ExternalId.Filesystem "ext4" uuid) with
    | [] => None
    | (id, node) :: more =>
        if negb (bool_decide (more = []))
           || bool_decide (node.(Node.size).(NodeFacts.presence) ≠ Presence.Present)
           || bool_decide (node.(Node.kind).(NodeSpec.kind) ≠
                           NodeKind.Filesystem FilesystemKind.Ext4 label)
           || negb (length (List.filter is_filesystem_id (identities node)) =? 1)%nat
           || existsb (λ d, (d.(Dependency.from_) =? id)%N) graph.(NodeGraph.dependencies)
           || existsb (λ r, (r.(Relation.from_) =? id)%N || (r.(Relation.to) =? id)%N)
                graph.(NodeGraph.relations)
        then None
        else
          match incoming graph id with
          | [edge] =>
              if (edge.(Dependency.from_) =? backing)%N &&
                 bool_decide (edge.(Dependency.kind) = DependencyKind.Backs)
              then Some id else None
          | _ => None
          end
    end.

(** The text of an error is dropped by [map_err], a panic is not. *)
Definition correlate_created_ext4 (before after : LiveObservation) (planned backing : NodeId)
    (uuid : string) (label : option string) : binding NodeCorrelation :=
  let graph := observed_graph before in
  let reference := before.(LiveObservation.reference) in
  let reference' := after.(LiveObservation.reference) in
  let identity := ExternalId.Filesystem "ext4" uuid in
  if negb (is_ok (validate_observation before)) || negb (is_ok (validate_observation after))
     || is_nil planned || bool_decide (is_Some (Graph.node graph planned))
     || negb (reference.(ObservationReference.probe_instance) =?
              reference'.(ObservationReference.probe_instance))%N
     || (reference'.(ObservationReference.epoch) <=? reference.(ObservationReference.epoch))%N
     || negb (canonical_uuid uuid)
     || negb (bool_decide (holders graph identity = []))
  then Err identity_error
  else
    let? mapping := map_failure (λ _, BindingError.Identity)
      (correlate_nodes before.(LiveObservation.snapshot) after.(LiveObservation.snapshot) [backing]) in
    let? first := ok_or (head mapping) identity_error in
    if negb (is_some_and (λ node : Node, match node.(Node.kind).(NodeSpec.kind) with
                                         | NodeKind.LvmLv _ => true | _ => false end)
               (Graph.node graph backing))
    then Err identity_error
    else
      let? target := ok_or (observe_ext4 after first.(NodeCorrelation.target) uuid label)
                       identity_error in
      Ok (NodeCorrelation.mk planned target identity).

(** ** Logical volumes *)

Definition is_lv_uuid (i : ExternalId) : bool :=
  match i with ExternalId.LvmLvUuid _ => true | _ => false end.

Definition is_vg_kind (kind : NodeKind) : bool :=
  match kind with NodeKind.LvmVg _ _ => true | _ => false end.

Definition find_lv observed (uuid vg_uuid : string) : binding NodeId :=
  let graph := observed_graph observed in
  let vg_identity := ExternalId.LvmVgUuid vg_uuid in
  if negb (is_trimmed uuid) then Err identity_error
  else
    match holders graph (ExternalId.LvmLvUuid uuid) with
    | [] => Err identity_error
    | (id, node) :: more =>
        if negb (bool_decide (more = [])) || negb (is_present_lv node)
           || negb (length (List.filter is_lv_uuid (identities node)) =? 1)%nat
        then Err identity_error
        else
          match incoming graph id with
          | [parent] =>
              if bool_decide (parent.(Dependency.kind) ≠ DependencyKind.Provides)
              then Err identity_error
              else
                let? vg := ok_or (Graph.node graph parent.(Dependency.from_)) identity_error in
                if negb (is_vg_kind vg.(Node.kind).(NodeSpec.kind))
                   || bool_decide (vg.(Node.size).(NodeFacts.presence) ≠ Presence.Present)
                   || negb (length (List.filter is_vg_uuid (identities vg)) =? 1)%nat
                   || negb (contains vg_identity (identities vg))
                   || negb (length (holders graph vg_identity) =? 1)%nat
                then Err identity_error
                else Ok id
          | _ => Err identity_error
          end
    end.
End runtime.

(** ** Bindings *)

Module PendingLvBinding.
Record PendingLvBinding := mk {
  run_id : Uuid;
  action : ActionId;
  observation : ObservationReference;
  planned : NodeId;
  uuid : string;
  vg_uuid : string;
  spec : NodeSpec }.
#[global] Instance PendingLvBinding_eq_dec : EqDecision PendingLvBinding.
Proof. solve_decision. Defined.
End PendingLvBinding.
Abbreviation PendingLvBinding := PendingLvBinding.PendingLvBinding.

Module PendingFilesystemBinding.
Record PendingFilesystemBinding := mk {
  run_id : Uuid;
  action : ActionId;
  observation : ObservationReference;
  planned : NodeId;
  uuid : string;
  backing : NodeId;
  spec : NodeSpec }.
#[global] Instance PendingFilesystemBinding_eq_dec : EqDecision PendingFilesystemBinding.
Proof. solve_decision. Defined.
End PendingFilesystemBinding.
Abbreviation PendingFilesystemBinding := PendingFilesystemBinding.PendingFilesystemBinding.

Module OutputBindings.
Record OutputBindings := mk {
  run_id : Uuid;
  entries : gmap NodeId PendingLvBinding;
  filesystems : gmap NodeId PendingFilesystemBinding;
  mounts : list ObservedMount }.
#[global] Instance OutputBindings_eq_dec : EqDecision OutputBindings.
Proof. solve_decision. Defined.
End OutputBindings.
Abbreviation OutputBindings := OutputBindings.OutputBindings.

Implicit Types (bs : OutputBindings).

(** [OutputBindings::new] *)
Definition bindings_new run : OutputBindings :=
  OutputBindings.mk run.(ExecutionRun.run_id) ∅ ∅ [].

Definition bindings_len bs : nat :=
  size bs.(OutputBindings.entries) + size bs.(OutputBindings.filesystems).
Definition bindings_is_empty bs : bool :=
  bool_decide (bs.(OutputBindings.entries) = ∅) && bool_decide (bs.(OutputBindings.filesystems) = ∅).

Definition frozen_operation run (action : ActionId) : binding ProviderAction :=
  let? planned := index run.(ExecutionRun.plan).(ExecutionPlan.actions) action in
  Ok planned.(PlannedAction.operation).

Definition record_verified_mount bs run (action : ActionId) : binding OutputBindings :=
  if negb (run.(ExecutionRun.run_id) =? bs.(OutputBindings.run_id))%N then Err not_verified
  else
    let? state := map_failure BindingError.Run (run_state run action) in
    if bool_decide (state ≠ ActionRunState.Verified) then Err not_verified
    else
      let? operation := frozen_operation run action in
      match operation with
      | ProviderAction.Mount (MountAction.Mount source target options context) =>
          Ok (OutputBindings.mk bs.(OutputBindings.run_id) bs.(OutputBindings.entries)
                bs.(OutputBindings.filesystems)
                (bs.(OutputBindings.mounts) ++ [ObservedMount.mk source target options context]))
      | _ => Err identity_error
      end.

(** A later publication of the probe that saw the binding verified. *)
Definition later_publication observed (reference : ObservationReference) : bool :=
  let current := observed.(LiveObservation.reference) in
  (current.(ObservationReference.probe_instance) =? reference.(ObservationReference.probe_instance))%N
  && (reference.(ObservationReference.epoch) <=? current.(ObservationReference.epoch))%N.

(** The evidence a candidate must have before it is recorded. *)
Definition verified_completion run (action : ActionId) (reference : ObservationReference)
    : binding bool :=
  let? state := map_failure BindingError.Run (run_state run action) in
  if bool_decide (state ≠ ActionRunState.Verified) then Ok false
  else
    let? completion := map_failure BindingError.Run (run_completion run action) in
    Ok (bool_decide ((λ c, c.(BackendCompletion.observation).(LiveObservation.reference)) <$> completion
                     = Some reference)).

(** The guards run left to right; an unknown action ends them early. *)
Definition record_verified_filesystem bs run (pending : PendingFilesystemBinding)
    : binding OutputBindings :=
  let '(PendingFilesystemBinding.mk run_id action observation planned uuid backing _) := pending in
  if negb (bs.(OutputBindings.run_id) =? run.(ExecutionRun.run_id))%N
     || negb (run_id =? run.(ExecutionRun.run_id))%N
  then Err not_verified
  else
    let? verified := verified_completion run action observation in
    if negb verified || negb (bool_decide (is_Some (bs.(OutputBindings.entries) !! backing)))
       || bool_decide (is_Some (bs.(OutputBindings.entries) !! planned))
       || bool_decide (is_Some (bs.(OutputBindings.filesystems) !! planned))
       || existsb (λ other, bool_decide (other.2.(PendingFilesystemBinding.uuid) = uuid))
            (map_to_list bs.(OutputBindings.filesystems))
    then Err not_verified
    else Ok (OutputBindings.mk bs.(OutputBindings.run_id) bs.(OutputBindings.entries)
               (<[planned := pending]> bs.(OutputBindings.filesystems)) bs.(OutputBindings.mounts)).

Definition record_verified bs run (pending : PendingLvBinding) : binding OutputBindings :=
  let '(PendingLvBinding.mk run_id action observation planned uuid _ _) := pending in
  if negb (bs.(OutputBindings.run_id) =? run.(ExecutionRun.run_id))%N
     || negb (run_id =? run.(ExecutionRun.run_id))%N
  then Err not_verified
  else
    let? verified := verified_completion run action observation in
    if negb verified || bool_decide (is_Some (bs.(OutputBindings.entries) !! planned))
       || bool_decide (is_Some (bs.(OutputBindings.filesystems) !! planned))
       || existsb (λ other, bool_decide (other.2.(PendingLvBinding.uuid) = uuid))
            (map_to_list bs.(OutputBindings.entries))
    then Err not_verified
    else Ok (OutputBindings.mk bs.(OutputBindings.run_id)
               (<[planned := pending]> bs.(OutputBindings.entries))
               bs.(OutputBindings.filesystems) bs.(OutputBindings.mounts)).

Section resolving.
Context `{UuidText, MountText}.
Variable display : CorrelationError → string.

Definition validated observed : binding unit :=
  report (map_err BindingError.Observation (validate_observation observed)).

(** [OutputBindings::resolve] calls itself for the backing volume of a
    filesystem; the fuel bounds that chain. *)
Fixpoint resolve_loop (fuel : nat) bs run (planned : NodeId) observed : binding NodeId :=
  match fuel with
  | 0 => Err OutOfFuel
  | S fuel =>
      if negb (bs.(OutputBindings.run_id) =? run.(ExecutionRun.run_id))%N then Err not_verified
      else
        match bs.(OutputBindings.filesystems) !! planned with
        | Some fs =>
            let? _ := validated observed in
            if negb (later_publication observed fs.(PendingFilesystemBinding.observation))
            then Err identity_error
            else
              let? backing := resolve_loop fuel bs run fs.(PendingFilesystemBinding.backing) observed in
              match fs.(PendingFilesystemBinding.spec).(NodeSpec.kind) with
              | NodeKind.Filesystem _ label =>
                  let? id := ok_or (observe_ext4 observed backing
                                      fs.(PendingFilesystemBinding.uuid) label) identity_error in
                  if bool_decide (node_spec (observed_graph observed) id ≠
                                  Some fs.(PendingFilesystemBinding.spec))
                  then Err identity_error else Ok id
              | _ => Err identity_error
              end
        | None =>
            let? lv := ok_or (bs.(OutputBindings.entries) !! planned) not_verified in
            let? _ := validated observed in
            if negb (later_publication observed lv.(PendingLvBinding.observation))
            then Err identity_error
            else
              let? id := find_lv observed lv.(PendingLvBinding.uuid) lv.(PendingLvBinding.vg_uuid) in
              if bool_decide (node_spec (observed_graph observed) id ≠ Some lv.(PendingLvBinding.spec))
              then Err identity_error else Ok id
        end
  end.

Definition resolve bs run (planned : NodeId) observed : binding NodeId :=
  resolve_loop 2 bs run planned observed.

Definition binding_identity bs (planned : NodeId) : binding ExternalId :=
  match bs.(OutputBindings.entries) !! planned with
  | Some lv => Ok (ExternalId.LvmLvUuid lv.(PendingLvBinding.uuid))
  | None =>
      let? fs := ok_or (bs.(OutputBindings.filesystems) !! planned) identity_error in
      Ok (ExternalId.Filesystem "ext4" fs.(PendingFilesystemBinding.uuid))
  end.

Definition correlations bs run observed : binding (list NodeCorrelation) :=
  if negb (bs.(OutputBindings.run_id) =? run.(ExecutionRun.run_id))%N then Err not_verified
  else
    try_map (λ planned,
        let? identity := binding_identity bs planned in
        let? target := resolve bs run planned observed in
        Ok (NodeCorrelation.mk planned target identity))
      ((map_to_list bs.(OutputBindings.entries)).*1 ++ (map_to_list bs.(OutputBindings.filesystems)).*1).

(** A verified output as the reviewed state would show it. *)
Definition verified_output (spec : NodeSpec) (identity : ExternalId) : Node :=
  Node.mk spec (NodeFacts.mk None None Presence.Present [identity] None None).

Definition add_output graph (planned : NodeId) (node : Node) (edge : Dependency) : binding NodeGraph :=
  let? extended := report (map_err (λ _, BindingError.Identity) (insert_new graph planned node)) in
  Ok (insert_dependency extended edge).2.

Definition add_lv_output graph (entry : NodeId * PendingLvBinding) : binding NodeGraph :=
  let '(planned, lv) := entry in
  match filter (λ e : NodeId * Node, is_vg_kind e.2.(Node.kind).(NodeSpec.kind) = true)
          (holders graph (ExternalId.LvmVgUuid lv.(PendingLvBinding.vg_uuid))) with
  | [(parent, _)] =>
      add_output graph planned
        (verified_output lv.(PendingLvBinding.spec) (ExternalId.LvmLvUuid lv.(PendingLvBinding.uuid)))
        (Dependency.mk parent planned DependencyKind.Provides)
  | _ => Err identity_error
  end.

Definition add_filesystem_output graph (entry : NodeId * PendingFilesystemBinding) : binding NodeGraph :=
  let '(planned, fs) := entry in
  add_output graph planned
    (verified_output fs.(PendingFilesystemBinding.spec)
       (ExternalId.Filesystem "ext4" fs.(PendingFilesystemBinding.uuid)))
    (Dependency.mk fs.(PendingFilesystemBinding.backing) planned DependencyKind.Backs).

Definition reviewed_scope bs run observed : binding CurrentState :=
  let? _ := correlations bs run observed in
  let expected := run.(ExecutionRun.document).(PlanDocument.baseline).(HistoricalBaseline.snapshot) in
  let? with_lvs := try_fold add_lv_output expected.(CurrentState.graph)
                     (map_to_list bs.(OutputBindings.entries)) in
  let? with_filesystems := try_fold add_filesystem_output with_lvs
                             (map_to_list bs.(OutputBindings.filesystems)) in
  Ok (CurrentState.mk with_filesystems
        (MountState.mk (expected.(CurrentState.mounts).(MountState.entries) ++ bs.(OutputBindings.mounts)))
        expected.(CurrentState.environment) expected.(CurrentState.diagnostics)).

(** ** Verification of a completed action *)

Definition with_graph graph (state : CurrentState) : CurrentState :=
  CurrentState.mk graph state.(CurrentState.mounts) state.(CurrentState.environment)
    state.(CurrentState.diagnostics).

(** Without the node and the edges into it. *)
Definition without_output graph (id : NodeId) (edges : list Dependency) : NodeGraph :=
  (remove_node (foldl (λ graph edge, (remove_dependency graph edge).2) graph edges) id).2.

Definition planned_spec (contract : ActionContract) (planned : NodeId) : option NodeSpec :=
  find_map (λ output, match output with
                      | ActionOutput.Node id spec => if (id =? planned)%N then Some spec else None
                      | _ => None
                      end) contract.(ActionContract.provided_outputs).

Definition retained_completion run (action : ActionId) : binding BackendCompletion :=
  let? completion := map_failure BindingError.Run (run_completion run action) in
  ok_or completion not_verified.

Definition contract_at run (action : ActionId) : binding ActionContract :=
  map_failure BindingError.Run (frozen_contract run action).

(** The report on the frozen postconditions. *)
Definition verification_report run (action : ActionId) (actual : LiveObservation)
    (contract : ActionContract) (known : list NodeCorrelation) : binding VerificationReport :=
  let? found := map_failure BindingError.Observation
    (check_observed_postconditions_with_bindings display
       run.(ExecutionRun.document).(PlanDocument.baseline) actual
       contract.(ActionContract.postconditions) known) in
  Ok (VerificationReport.mk run.(ExecutionRun.run_id) action
        found.(ObservedPostconditions.observation) found.(ObservedPostconditions.checks)).

Definition check_reviewed bs run (before : LiveObservation) (remaining : CurrentState)
    (source : NodeId) : binding unit :=
  let? expected := reviewed_scope bs run before in
  map_failure BindingError.Scope (check_scope expected remaining source).

(** What a created LV must be, and the candidate it makes. *)
Definition created_lv_candidate run (action : ActionId) (resolved : ResolvedAction) bs
    (before actual : LiveObservation) (contract : ActionContract) (uuid : string)
    : binding (NodeCorrelation * PendingLvBinding) :=
  match resolved.(ResolvedAction.operation) with
  | ProviderAction.Lvm (LvmAction.CreateLv _ planned _ _ _) =>
      let identity := ExternalId.LvmLvUuid uuid in
      let target := resolved.(ResolvedAction.target) in
      if negb (bool_decide (holders (observed_graph before) identity = [])) then Err identity_error
      else
        let? observed_id := find_lv actual uuid target.(ResolvedTarget.vg_uuid) in
        let? spec := ok_or (planned_spec contract planned) identity_error in
        let graph := observed_graph actual in
        let edges := filter (λ d, d.(Dependency.from_) = observed_id ∨ d.(Dependency.to) = observed_id)
                       graph.(NodeGraph.dependencies) in
        if existsb (λ d, (d.(Dependency.from_) =? observed_id)%N) edges
           || existsb (λ r, (r.(Relation.from_) =? observed_id)%N || (r.(Relation.to) =? observed_id)%N)
                graph.(NodeGraph.relations)
        then Err identity_error
        else
          let? _ := check_reviewed bs run before
            (with_graph (without_output graph observed_id edges) actual.(LiveObservation.snapshot))
            target.(ResolvedTarget.planned_id) in
          Ok (NodeCorrelation.mk planned observed_id identity,
              PendingLvBinding.mk run.(ExecutionRun.run_id) action actual.(LiveObservation.reference)
                planned uuid target.(ResolvedTarget.vg_uuid) spec)
  | _ => Err identity_error
  end.

Definition verify_created_lv run (action : ActionId) (resolved : ResolvedAction) bs
    (before : LiveObservation) (created_uuid : option string)
    : binding (VerificationReport * option PendingLvBinding) :=
  let? completion := retained_completion run action in
  let actual := completion.(BackendCompletion.observation) in
  let? contract := contract_at run action in
  let? (known, pending) :=
    match created_uuid with
    | None => Ok ([], None)
    | Some uuid =>
        let? (correlation, candidate) :=
          created_lv_candidate run action resolved bs before actual contract uuid in
        Ok ([correlation], Some candidate)
    end in
  let? found := verification_report run action actual contract known in
  Ok (found, pending).

Definition verify_activation run (action : ActionId) (resolved : ResolvedAction) bs
    (before : LiveObservation) (created_uuid : option string) : binding VerificationReport :=
  if bool_decide (is_Some created_uuid) then Err identity_error
  else
    let? completion := retained_completion run action in
    let actual := completion.(BackendCompletion.observation) in
    let? _ := check_reviewed bs run before actual.(LiveObservation.snapshot)
                resolved.(ResolvedAction.target).(ResolvedTarget.planned_id) in
    let? known := correlations bs run actual in
    let? lv := ok_or resolved.(ResolvedAction.lv_target) identity_error in
    let? id := resolve bs run lv.(ResolvedLvTarget.planned_id) actual in
    let? node := ok_or (Graph.node (observed_graph actual) id) identity_error in
    if negb (writable_interface node) then Err (Reported BindingError.InterfaceUnknown)
    else
      let? contract := contract_at run action in
      verification_report run action actual contract known.

(** The candidate of a created filesystem keeps the capacity first observed. *)
Definition created_filesystem_candidate run (action : ActionId) (resolved : ResolvedAction) bs
    (before actual : LiveObservation) (contract : ActionContract) (backing planned : NodeId)
    (label : option string) (uuid : string) : binding (NodeCorrelation * PendingFilesystemBinding) :=
  let? before_backing := resolve bs run backing before in
  let? correlation := correlate_created_ext4 before actual planned before_backing uuid label in
  let target := correlation.(NodeCorrelation.target) in
  let graph := observed_graph actual in
  let? _ := check_reviewed bs run before
    (with_graph (without_output graph target (incoming graph target)) actual.(LiveObservation.snapshot))
    resolved.(ResolvedAction.target).(ResolvedTarget.planned_id) in
  let? spec := ok_or (planned_spec contract planned) identity_error in
  let? node := ok_or (Graph.node graph target) identity_error in
  Ok (correlation,
      PendingFilesystemBinding.mk run.(ExecutionRun.run_id) action actual.(LiveObservation.reference)
        planned uuid backing (NodeSpec.mk spec.(NodeSpec.kind) node.(Node.kind).(NodeSpec.size))).

Definition verify_created_filesystem run (action : ActionId) (resolved : ResolvedAction) bs
    (before : LiveObservation) (created_uuid : option string)
    : binding (VerificationReport * option PendingFilesystemBinding) :=
  let? completion := retained_completion run action in
  let? contract := contract_at run action in
  match resolved.(ResolvedAction.operation) with
  | ProviderAction.Filesystem (FilesystemAction.Create backing planned FilesystemKind.Ext4 label) =>
      let actual := completion.(BackendCompletion.observation) in
      let? known := correlations bs run actual in
      let? (known, pending) :=
        match created_uuid with
        | None => Ok (known, None)
        | Some uuid =>
            let? (correlation, candidate) := created_filesystem_candidate run action resolved bs
              before actual contract backing planned label uuid in
            Ok (known ++ [correlation], Some candidate)
        end in
      let? found := verification_report run action actual contract known in
      Ok (found, pending)
  | _ => Err identity_error
  end.

(** [entries.remove(index)] *)
Definition without_mount (index : nat) (state : CurrentState) : CurrentState :=
  CurrentState.mk state.(CurrentState.graph)
    (MountState.mk (delete index state.(CurrentState.mounts).(MountState.entries)))
    state.(CurrentState.environment) state.(CurrentState.diagnostics).

Definition verify_mount run (action : ActionId) (resolved : ResolvedAction) bs
    (before : LiveObservation) : binding VerificationReport :=
  let? completion := retained_completion run action in
  let actual := completion.(BackendCompletion.observation) in
  match resolved.(ResolvedAction.operation) with
  | ProviderAction.Mount (MountAction.Mount (MountSource.Filesystem fs) target options context) =>
      let? fs_id := resolve bs run fs actual in
      match filter (λ e : nat * ObservedMount, e.2.(ObservedMount.target) = target ∧
                                               e.2.(ObservedMount.context) = context)
              (enumerate (observed_mounts actual)) with
      | [(position, mount)] =>
          if bool_decide (mount.(ObservedMount.source) ≠ MountSource.Filesystem fs_id)
             || bool_decide (sort_by String.leb mount.(ObservedMount.options) ≠
                             sort_by String.leb options)
          then Err identity_error
          else
            let? _ := check_reviewed bs run before
              (without_mount position actual.(LiveObservation.snapshot))
              resolved.(ResolvedAction.target).(ResolvedTarget.planned_id) in
            let? contract := contract_at run action in
            let? known := correlations bs run actual in
            verification_report run action actual contract known
      | _ => Err identity_error
      end
  | _ => Err identity_error
  end.
End resolving.
