(* ===== verification/BindingProps.v ===== *)
(** * Verified outputs

    States of actions that last along a run, and the invariant of the bindings:
    every output was recorded for a verified action, no identity is bound twice,
    and a filesystem sits on a bound volume.  Resolution therefore ends. *)

From stdpp Require Import relations.
From S2P Require Import Prelude Model Reach Graph GraphOrder GraphValid State Action Contract.
From S2P Require Import Logical Evidence Prerequisites Effects Report PlanOrder Compose ComposeProps.
From S2P Require Import Simulate SimulateProps Wire Observation.
From S2P Require Import Correlate Observe Execution ExecutionProps Live.
From S2P Require Import LiveProps LiveGoal.
From S2P Require Import Recipes Native Scope ScopeProps Bindings.

Implicit Types (run : ExecutionRun) (bs : OutputBindings).

(** ** Runs move by their operations *)

Lemma run_steps_inv run run' : run_inv run → rtc run_step run run' → run_inv run'.
Proof. intros Hi Hr. induction Hr as [|a b' c Hab _ IH]; [done|]. by apply IH; eapply run_step_inv. Qed.

Lemma run_step_id run run' :
  run_inv run → run_step run run' → run'.(ExecutionRun.run_id) = run.(ExecutionRun.run_id).
Proof.
  intros Hinv [->|(mid & Ht & Hp)]%run_step_cases; [done| |apply Hinv].
  assert (mid.(ExecutionRun.run_id) = run.(ExecutionRun.run_id)) as <- by (destruct Ht; [done..|]; by destruct run).
  clear Ht Hinv. induction Hp as [r ? _|r ? r' _ _ IH]; [by destruct r|]. rewrite IH. by destruct r.
Qed.
Lemma run_steps_id run run' :
  run_inv run → rtc run_step run run' → run'.(ExecutionRun.run_id) = run.(ExecutionRun.run_id).
Proof.
  intros Hi Hr. induction Hr as [|a b' c Hab _ IH]; [done|].
  rewrite IH by (by eapply run_step_inv). by apply run_step_id.
Qed.

(** An action that has been handed to a backend. *)
Definition dispatched (s : ActionRunState) : bool :=
  match s with
  | ActionRunState.Running | ActionRunState.Verifying | ActionRunState.Verified
  | ActionRunState.Failed | ActionRunState.OutcomeUnknown => true
  | _ => false
  end.

Definition in_state run (P : ActionRunState → Prop) (i : ActionId) : Prop :=
  ∃ r, run.(ExecutionRun.actions) !! i = Some r ∧ P r.(ActionRun.state).

Lemma run_steps_keep (P : ActionRunState → Prop) run run' i :
  (∀ s s', legal s s' → P s → P s') →
  run_inv run → rtc run_step run run' → in_state run P i → in_state run' P i.
Proof.
  intros HP Hinv Hr. induction Hr as [|a b' c Hab _ IH]; [done|]. intros (r & Hi & Hs).
  apply IH; [by eapply run_step_inv|]. clear IH.
  apply run_step_cases in Hab as [->|(mid & Ht & Hp)]; [by exists r| |apply Hinv].
  apply publishes_actions in Hp as (Ha & _ & _). unfold in_state. rewrite Ha.
  destruct Ht as [j x x' latest Hj Hm Hl| |rep _ _ Hf]; [|by exists r|destruct a; by exists r].
  simpl. destruct (decide (j = i)) as [->|Hne].
  - exists x'. rewrite list_lookup_insert_eq by (by eapply lookup_lt_Some). split; [done|].
    apply move_legal in Hm. eapply HP; [done|]. congruence.
  - exists r. by rewrite list_lookup_insert_ne.
Qed.

Lemma run_steps_verified run run' i :
  run_inv run → rtc run_step run run' →
  in_state run (λ s, s = ActionRunState.Verified) i → in_state run' (λ s, s = ActionRunState.Verified) i.
Proof. apply run_steps_keep. intros s s' Hl ->. inversion Hl. Qed.

Lemma run_steps_dispatched run run' i :
  run_inv run → rtc run_step run run' →
  in_state run (λ s, dispatched s = true) i → in_state run' (λ s, dispatched s = true) i.
Proof. apply run_steps_keep. intros s s' Hl Hs. inversion Hl; subst; try done. by destruct o. Qed.

Lemma in_state_run_state run action (P : ActionRunState → Prop) state :
  run_state run action = Ok state → P state → in_state run P action.
Proof.
  unfold run_state, action_run. destruct (_ !! action) as [r|] eqn:Hr; [|done]. intros [= <-] HP.
  by exists r.
Qed.

(** The three ways bindings grow. *)
Inductive binding_step run (bs : OutputBindings) : OutputBindings → Prop :=
| bs_lv b bs' : record_verified bs run b = Ok bs' → binding_step run bs bs'
| bs_filesystem b bs' : record_verified_filesystem bs run b = Ok bs' → binding_step run bs bs'
| bs_mount action bs' : record_verified_mount bs run action = Ok bs' → binding_step run bs bs'.

(** ** Bindings *)

Abbreviation is_verified_action run := (in_state run (λ s, s = ActionRunState.Verified)) (only parsing).

Record bindings_inv run bs : Prop := {
  bi_volume p lv : bs.(OutputBindings.entries) !! p = Some lv →
    lv.(PendingLvBinding.planned) = p ∧ is_verified_action run lv.(PendingLvBinding.action);
  bi_volume_identity p q lv lv' :
    bs.(OutputBindings.entries) !! p = Some lv → bs.(OutputBindings.entries) !! q = Some lv' →
    lv.(PendingLvBinding.uuid) = lv'.(PendingLvBinding.uuid) → p = q;
  bi_filesystem p fs : bs.(OutputBindings.filesystems) !! p = Some fs →
    fs.(PendingFilesystemBinding.planned) = p ∧
    is_verified_action run fs.(PendingFilesystemBinding.action) ∧
    is_Some (bs.(OutputBindings.entries) !! fs.(PendingFilesystemBinding.backing));
  bi_filesystem_identity p q fs fs' :
    bs.(OutputBindings.filesystems) !! p = Some fs → bs.(OutputBindings.filesystems) !! q = Some fs' →
    fs.(PendingFilesystemBinding.uuid) = fs'.(PendingFilesystemBinding.uuid) → p = q;
  bi_disjoint p : is_Some (bs.(OutputBindings.entries) !! p) → bs.(OutputBindings.filesystems) !! p = None }.

Lemma bindings_new_inv run : bindings_inv run (bindings_new run).
Proof. split; unfold bindings_new; simpl; intros *; rewrite ?lookup_empty; naive_solver. Qed.

Lemma bindings_inv_run run run' bs :
  run_inv run → rtc run_step run run' → bindings_inv run bs → bindings_inv run' bs.
Proof.
  intros Hi Hr [Hv Hvi Hf Hfi Hd]. split; try done.
  - intros p lv [??]%Hv. split; [done|]. by eapply run_steps_verified.
  - intros p fs (? & ? & ?)%Hf. split_and!; [done| |done]. by eapply run_steps_verified.
Qed.

Lemma verified_completion_ok run action reference :
  verified_completion run action reference = Ok true → is_verified_action run action.
Proof.
  unfold verified_completion. destruct (run_state run action) as [state|[]] eqn:Hs; [|done..]. simpl.
  case_bool_decide as Hv; [done|]. intros _. by eapply in_state_run_state.
Qed.

(** A free name and a fresh identity. *)
Lemma record_verified_ok bs run b bs' :
  record_verified bs run b = Ok bs' →
  is_verified_action run b.(PendingLvBinding.action) ∧
  bs.(OutputBindings.entries) !! b.(PendingLvBinding.planned) = None ∧
  bs.(OutputBindings.filesystems) !! b.(PendingLvBinding.planned) = None ∧
  (∀ p lv, bs.(OutputBindings.entries) !! p = Some lv →
     lv.(PendingLvBinding.uuid) ≠ b.(PendingLvBinding.uuid)) ∧
  bs' = OutputBindings.mk bs.(OutputBindings.run_id)
          (<[b.(PendingLvBinding.planned) := b]> bs.(OutputBindings.entries))
          bs.(OutputBindings.filesystems) bs.(OutputBindings.mounts).
Proof.
  unfold record_verified. destruct b as [rid action obs planned uuid vg spec]. simpl.
  destruct (_ || _); [done|]. destruct (verified_completion _ _ _) as [v|] eqn:Hv; [|done]. simpl.
  destruct v; [|done]. simpl. case_bool_decide as He; [done|]. case_bool_decide as Hf; [done|]. simpl.
  destruct (existsb _ _) eqn:Hex; [done|]. intros [= <-]. rewrite existsb_false in Hex.
  split_and!; [by eapply verified_completion_ok|by apply eq_None_not_Some..| |done].
  intros p lv Hp. specialize (Hex (p, lv)). rewrite elem_of_map_to_list in Hex.
  by apply Hex, bool_decide_eq_false in Hp.
Qed.

Lemma record_verified_filesystem_ok bs run b bs' :
  record_verified_filesystem bs run b = Ok bs' →
  is_verified_action run b.(PendingFilesystemBinding.action) ∧
  is_Some (bs.(OutputBindings.entries) !! b.(PendingFilesystemBinding.backing)) ∧
  bs.(OutputBindings.entries) !! b.(PendingFilesystemBinding.planned) = None ∧
  bs.(OutputBindings.filesystems) !! b.(PendingFilesystemBinding.planned) = None ∧
  (∀ p fs, bs.(OutputBindings.filesystems) !! p = Some fs →
     fs.(PendingFilesystemBinding.uuid) ≠ b.(PendingFilesystemBinding.uuid)) ∧
  bs' = OutputBindings.mk bs.(OutputBindings.run_id) bs.(OutputBindings.entries)
          (<[b.(PendingFilesystemBinding.planned) := b]> bs.(OutputBindings.filesystems))
          bs.(OutputBindings.mounts).
Proof.
  unfold record_verified_filesystem. destruct b as [rid action obs planned uuid backing spec]. simpl.
  destruct (_ || _); [done|]. destruct (verified_completion _ _ _) as [v|] eqn:Hv; [|done]. simpl.
  destruct v; [|done]. simpl. case_bool_decide as Hb; [|done]. simpl.
  case_bool_decide as He; [done|]. case_bool_decide as Hf; [done|]. simpl.
  destruct (existsb _ _) eqn:Hex; [done|]. intros [= <-]. rewrite existsb_false in Hex.
  split_and!; [by eapply verified_completion_ok|done|by apply eq_None_not_Some..| |done].
  intros p fs Hp. specialize (Hex (p, fs)). rewrite elem_of_map_to_list in Hex.
  by apply Hex, bool_decide_eq_false in Hp.
Qed.

Lemma record_verified_mount_ok bs run action bs' :
  record_verified_mount bs run action = Ok bs' →
  bs'.(OutputBindings.entries) = bs.(OutputBindings.entries) ∧
  bs'.(OutputBindings.filesystems) = bs.(OutputBindings.filesystems).
Proof.
  unfold record_verified_mount. destruct (negb _); [done|].
  destruct (run_state run action) as [state|[]]; [|done..]. simpl. case_bool_decide; [done|].
  destruct (frozen_operation run action) as [[]|]; try done. simpl. by destruct a; intros; simplify_eq/=.
Qed.

Lemma binding_step_inv run bs bs' : binding_step run bs bs' → bindings_inv run bs → bindings_inv run bs'.
Proof.
  intros Hs [Hv Hvi Hf Hfi Hd].
  destruct Hs as [b bs1 (Hver & Hne & Hnf & Hfresh & ->)%record_verified_ok
                 |b bs1 (Hver & Hback & Hne & Hnf & Hfresh & ->)%record_verified_filesystem_ok
                 |action bs1 [He Hfs]%record_verified_mount_ok].
  - split; simpl; try done.
    + intros p lv [[<- <-]|[_ ?%Hv]]%lookup_insert_Some; done.
    + intros p q lv lv' [[<- <-]|[Hp Hl]]%lookup_insert_Some [[<- <-]|[Hq Hl']]%lookup_insert_Some Hu;
        [done|by apply Hfresh in Hl'|by apply Hfresh in Hl|by eapply Hvi].
    + intros p fs (? & ? & Hb)%Hf. split_and!; [done..|]. destruct (decide (b.(PendingLvBinding.planned) =
        fs.(PendingFilesystemBinding.backing))) as [->|?]; [by rewrite lookup_insert_eq|by rewrite lookup_insert_ne].
    + intros p [lv [[<- <-]|[_ ?]]%lookup_insert_Some]; [done|]. by apply Hd; eexists.
  - split; simpl; try done.
    + intros p fs [[<- <-]|[_ ?%Hf]]%lookup_insert_Some; done.
    + intros p q fs fs' [[<- <-]|[Hp Hl]]%lookup_insert_Some [[<- <-]|[Hq Hl']]%lookup_insert_Some Hu;
        [done|by apply Hfresh in Hl'|by apply Hfresh in Hl|by eapply Hfi].
    + intros p Hp. rewrite lookup_insert_ne; [by apply Hd|]. intros <-. rewrite Hne in Hp. by destruct Hp.
  - split; rewrite ?He, ?Hfs; done.
Qed.

(** ** Resolution *)

Section resolving.
Context `{UuidText, MountText}.

(** The observed node an output is identified with. *)
Inductive identified bs (observed : LiveObservation) : NodeId → NodeId → Prop :=
| identified_volume p lv id node vg group :
    bs.(OutputBindings.filesystems) !! p = None → bs.(OutputBindings.entries) !! p = Some lv →
    later_publication observed lv.(PendingLvBinding.observation) = true →
    sole_holder (observed_graph observed) (ExternalId.LvmLvUuid lv.(PendingLvBinding.uuid)) id node →
    node.(Node.kind) = lv.(PendingLvBinding.spec) →
    incoming (observed_graph observed) id = [Dependency.mk vg id DependencyKind.Provides] →
    sole_holder (observed_graph observed) (ExternalId.LvmVgUuid lv.(PendingLvBinding.vg_uuid)) vg group →
    identified bs observed p id
| identified_filesystem p fs id node backing :
    bs.(OutputBindings.filesystems) !! p = Some fs →
    later_publication observed fs.(PendingFilesystemBinding.observation) = true →
    identified bs observed fs.(PendingFilesystemBinding.backing) backing →
    sole_holder (observed_graph observed)
      (ExternalId.Filesystem "ext4" fs.(PendingFilesystemBinding.uuid)) id node →
    node.(Node.kind) = fs.(PendingFilesystemBinding.spec) →
    incoming (observed_graph observed) id = [Dependency.mk backing id DependencyKind.Backs] →
    identified bs observed p id.

Lemma incoming_to graph id d : d ∈ incoming graph id → d.(Dependency.to) = id.
Proof. unfold incoming. by intros [? _]%list_elem_of_filter. Qed.

Lemma find_lv_returns observed uuid vg_uuid :
  returns (λ id, ∃ node vg group,
      sole_holder (observed_graph observed) (ExternalId.LvmLvUuid uuid) id node ∧
      incoming (observed_graph observed) id = [Dependency.mk vg id DependencyKind.Provides] ∧
      sole_holder (observed_graph observed) (ExternalId.LvmVgUuid vg_uuid) vg group)
    (find_lv observed uuid vg_uuid).
Proof.
  unfold find_lv. destruct (negb (is_trimmed uuid)); [done|].
  destruct (holders _ (ExternalId.LvmLvUuid uuid)) as [|[id node] more] eqn:Hh; [done|].
  destruct (_ || _) eqn:Hn; [done|]. rewrite !orb_false_iff in Hn. destruct Hn as [[Hm _] _].
  apply negb_false_iff, bool_decide_eq_true in Hm. subst more. apply holders_sole in Hh.
  destruct (incoming _ id) as [|parent [|]] eqn:Hin; [done| |done].
  case_bool_decide as Hk; [done|].
  destruct (Graph.node _ _) as [vg|] eqn:Hvg; [|done]. simpl.
  destruct (_ || _) eqn:Hc; [done|]. rewrite !orb_false_iff in Hc. destruct Hc as [[[[_ _] _] Hid] Hone].
  apply negb_false_iff, contains_true in Hid. apply negb_false_iff, Nat.eqb_eq in Hone.
  assert (parent.(Dependency.to) = id) as Hto by (apply (incoming_to (observed_graph observed)); rewrite Hin; left).
  destruct parent as [from to kind]. simpl in *. subst to kind.
  exists node, from, vg. split_and!; [done..|]. by apply holders_one.
Qed.

Lemma observe_ext4_some observed backing uuid label id :
  observe_ext4 observed backing uuid label = Some id →
  ∃ node, sole_holder (observed_graph observed) (ExternalId.Filesystem "ext4" uuid) id node ∧
          incoming (observed_graph observed) id = [Dependency.mk backing id DependencyKind.Backs].
Proof.
  unfold observe_ext4. destruct (_ || _); [done|].
  destruct (holders _ _) as [|[id' node] more] eqn:Hh; [done|].
  destruct (_ || _) eqn:Hn; [done|]. rewrite !orb_false_iff in Hn. destruct Hn as [[[[[Hm _] _] _] _] _].
  apply negb_false_iff, bool_decide_eq_true in Hm. subst more. apply holders_sole in Hh.
  destruct (incoming _ id') as [|edge [|]] eqn:Hin; [done| |done].
  destruct (_ && _) eqn:He; [|done]. intros [= <-].
  apply andb_true_iff in He as [Hf%N.eqb_eq Hk%bool_decide_eq_true].
  assert (edge.(Dependency.to) = id') as Hto by (apply (incoming_to (observed_graph observed)); rewrite Hin; left).
  destruct edge as [from to kind]. simpl in *. subst from to kind. by exists node.
Qed.

Lemma validated_returns observed : returns (λ _, True) (validated observed).
Proof. unfold validated. by destruct (validate_observation observed). Qed.

Lemma resolve_loop_returns run bs planned observed fuel :
  bindings_inv run bs →
  (bs.(OutputBindings.filesystems) !! planned = None → 1 ≤ fuel) →
  (is_Some (bs.(OutputBindings.filesystems) !! planned) → 2 ≤ fuel) →
  returns (identified bs observed planned) (resolve_loop fuel bs run planned observed).
Proof.
  intros Hinv. revert planned. induction fuel as [|fuel IH]; intros planned Hone Htwo.
  { destruct (_ !! planned); [assert (2 ≤ 0) by (apply Htwo; eauto)|assert (1 ≤ 0) by auto]; lia. }
  simpl. destruct (negb _); [done|].
  destruct (OutputBindings.filesystems bs !! planned) as [fs|] eqn:Hfs.
  - eapply returns_bind; [apply validated_returns|]. intros _ _.
    destruct (later_publication _ _) eqn:Hl; [|done]. simpl.
    destruct (bi_filesystem _ _ Hinv _ _ Hfs) as (_ & _ & Hback).
    pose proof (bi_disjoint _ _ Hinv _ Hback) as Hnone.
    eapply returns_bind.
    { apply IH; [intros _|rewrite Hnone; by intros []]. assert (2 ≤ S fuel) by (apply Htwo; eauto). lia. }
    intros backing Hb. destruct (NodeSpec.kind _) eqn:Hk; try done.
    destruct (observe_ext4 _ _ _ _) as [id|] eqn:Ho; [|done]. simpl.
    case_bool_decide as Hspec; [done|].
    apply observe_ext4_some in Ho as (node & Hh & Hin).
    eapply identified_filesystem; try done.
    destruct Hh as [Hn _]. unfold node_spec in Hspec. rewrite Hn in Hspec. by injection Hspec.
  - destruct (OutputBindings.entries bs !! planned) as [lv|] eqn:Hlv; [|done]. simpl.
    eapply returns_bind; [apply validated_returns|]. intros _ _.
    destruct (later_publication _ _) eqn:Hl; [|done]. simpl.
    eapply returns_bind; [apply find_lv_returns|]. intros id (node & vg & group & Hh & Hin & Hg).
    case_bool_decide as Hspec; [done|].
    eapply identified_volume; try done.
    destruct Hh as [Hn _]. unfold node_spec in Hspec. rewrite Hn in Hspec. by injection Hspec.
Qed.

Lemma resolve_returns run bs planned observed :
  bindings_inv run bs → returns (identified bs observed planned) (resolve bs run planned observed).
Proof. intros Hinv. apply resolve_loop_returns; [done|lia..]. Qed.
End resolving.
