(* ===== verification/ProbeNames.v ===== *)
(** * Names and kinds of observed objects: helpers of [storage-probe/src/linux.rs]

    The deterministic identity of an observed object, the interpretation of the
    names native libraries use, and the parsing of device names. *)

From stdpp Require Import pretty.
From S2P Require Import Prelude Model State Observe Recipes Native.

#[local] Open Scope string_scope.

(** ** Identities *)

(** [fnv1a] at [u64], with [wrapping_mul] *)
Definition fnv1a (hash : N) (bytes : list N) : N :=
  foldl (λ hash byte, (N.lxor hash byte * 0x100000001b3) `mod` 2 ^ 64)%N hash bytes.

Definition stable_node_id (kind identity : string) : NodeId :=
  let value := string_bytes ("disksgraph:" +:+ kind +:+ ":" +:+ identity) in
  let high := fnv1a 0xcbf29ce484222325 value in
  let low := fnv1a 0x84222325cbf29ce4 value in
  N.lor (N.shiftl high 64) low.

Definition block_node_id (path : Path) : NodeId := stable_node_id "block-path" path.
Definition content_node_id (path : string) : NodeId := stable_node_id "content-path" path.

(** ** Text *)

(** [str::starts_with] and [str::ends_with] *)
Definition text_starts_with (prefix text : string) : bool := String.prefix prefix text.
Definition text_ends_with (suffix text : string) : bool :=
  String.prefix (String.rev suffix) (String.rev text).

Definition is_digit (byte : N) : bool := ((48 <=? byte) && (byte <=? 57))%N.
Definition is_upper (byte : N) : bool := ((65 <=? byte) && (byte <=? 90))%N.
Definition is_alphanumeric (byte : N) : bool :=
  is_digit byte || is_upper byte || ((97 <=? byte) && (byte <=? 122))%N.

Definition lower_ascii (a : Ascii.ascii) : Ascii.ascii :=
  let byte := Ascii.N_of_ascii a in
  if is_upper byte then Ascii.ascii_of_N (byte + 32) else a.

(** [str::to_ascii_lowercase] *)
Fixpoint to_ascii_lowercase (text : string) : string :=
  match text with
  | EmptyString => EmptyString
  | String a text => String (lower_ascii a) (to_ascii_lowercase text)
  end.

(** The letters and digits, in lower case. *)
Fixpoint normalized_native_uuid (value : string) : string :=
  match value with
  | EmptyString => EmptyString
  | String a value =>
      if is_alphanumeric (Ascii.N_of_ascii a)
      then String (lower_ascii a) (normalized_native_uuid value) else normalized_native_uuid value
  end.

(** [str::split_once] *)
Fixpoint split_once (byte : N) (text : string) : option (string * string) :=
  match text with
  | EmptyString => None
  | String a rest =>
      if (Ascii.N_of_ascii a =? byte)%N then Some ("", rest)
      else prod_map (String a) id <$> split_once byte rest
  end.

(** [str::split] *)
Fixpoint split_from (byte : N) (current text : string) : list string :=
  match text with
  | EmptyString => [String.rev current]
  | String a text => if (Ascii.N_of_ascii a =? byte)%N then String.rev current :: split_from byte "" text
                     else split_from byte (String a current) text
  end.
Definition split_text (byte : N) (text : string) : list string := split_from byte "" text.

(** [str::parse] at an unsigned type: digits after an optional plus sign. *)
Fixpoint digits_value (acc : N) (bytes : list N) : option N :=
  match bytes with
  | [] => Some acc
  | byte :: bytes => if is_digit byte then digits_value (acc * 10 + (byte - 48)) bytes else None
  end%N.

Definition parse_unsigned (bound : N) (text : string) : option N :=
  let bytes := match string_bytes text with 43%N :: rest => rest | bytes => bytes end in
  match bytes with
  | [] => None
  | _ => digits_value 0 bytes ≫= λ n, if (n <? bound)%N then Some n else None
  end.

Definition parse_u32 : string → option N := parse_unsigned (2 ^ 32).

(** ** Device names *)

Definition ends_with_digit (text : string) : bool :=
  match last (string_bytes text) with Some byte => is_digit byte | None => false end.

Definition partition_path (device : Path) (number : N) : Path :=
  device +:+ (if ends_with_digit device then "p" else "") +:+ pretty number.

Fixpoint take_digits (text : string) : string :=
  match text with
  | String a text => if is_digit (Ascii.N_of_ascii a) then String a (take_digits text) else ""
  | EmptyString => ""
  end.

Definition partition_number (name : string) : N :=
  default 0%N (parse_u32 (String.rev (take_digits (String.rev name)))).

Definition parse_devno (value : option string) : option (N * N) :=
  text ← value; '(major, minor) ← split_once 58 text;
  major ← parse_u32 major; minor ← parse_u32 minor; Some (major, minor).

Definition parsed_u32 (value : option string) : option N := value ≫= parse_u32.

(** [PathBuf::join] below a directory without a trailing slash *)
Definition path_join (directory name : Path) : Path :=
  if text_starts_with "/" name then name else directory +:+ "/" +:+ name.

(** ** Kinds *)

Definition transport (name : string) : option Transport :=
  if text_starts_with "nvme" name then Some Transport.Nvme
  else if text_starts_with "sd" name then Some Transport.Scsi
  else if text_starts_with "vd" name then Some Transport.Virtio
  else if text_starts_with "mmcblk" name then Some Transport.Mmc
  else None.

Definition udev_transport (value : string) : option Transport :=
  match value with
  | "ata" => Some Transport.Sata
  | "scsi" => Some Transport.Scsi
  | "usb" => Some Transport.Usb
  | "nvme" => Some Transport.Nvme
  | "virtio" => Some Transport.Virtio
  | "mmc" => Some Transport.Mmc
  | "fc" => Some Transport.FibreChannel
  | "iscsi" => Some Transport.Iscsi
  | _ => None
  end.

Definition filesystem_kind (fstype : string) : FilesystemKind :=
  match fstype with
  | "ext2" => FilesystemKind.Ext2
  | "ext3" => FilesystemKind.Ext3
  | "ext4" => FilesystemKind.Ext4
  | "xfs" => FilesystemKind.Xfs
  | "btrfs" => FilesystemKind.Btrfs (BtrfsAllocation.mk ∅ ∅ ∅)
  | "jfs" => FilesystemKind.Jfs
  | "reiserfs" => FilesystemKind.Reiserfs
  | "vfat" | "fat16" | "fat32" => FilesystemKind.Vfat
  | "ntfs" => FilesystemKind.Ntfs
  | "exfat" => FilesystemKind.Exfat
  | "f2fs" => FilesystemKind.F2fs
  | "ocfs2" => FilesystemKind.Ocfs2
  | "gfs2" => FilesystemKind.Gfs2
  | "apfs" => FilesystemKind.Apfs
  | other => FilesystemKind.Other other
  end.

Definition external_mount_source (source fstype : string) : MountSource :=
  match fstype with
  | "tmpfs" => MountSource.Tmpfs
  | "nfs" | "nfs4" =>
      match split_once 58 source with
      | Some (server, export) => MountSource.Network (NetworkMountSource.Nfs server export)
      | None => MountSource.Other source
      end
  | "cifs" =>
      match (if text_starts_with "//" source
             then split_once 47 (String.substring 2 (String.length source - 2) source) else None) with
      | Some (server, share) => MountSource.Network (NetworkMountSource.Cifs server share)
      | None => MountSource.Other source
      end
  | _ => MountSource.Other source
  end.

Definition md_metadata (metadata : option string) : MdMetadata :=
  match to_ascii_lowercase (default "" metadata) with
  | "0.90" => MdMetadata.Native MdNativeMetadata.V0_90
  | "1.0" => MdMetadata.Native MdNativeMetadata.V1_0
  | "1.1" => MdMetadata.Native MdNativeMetadata.V1_1
  | "1.2" => MdMetadata.Native MdNativeMetadata.V1_2
  | "ddf" => MdMetadata.External MdExternalMetadata.Ddf
  | "imsm" => MdMetadata.External MdExternalMetadata.Imsm
  | _ => MdMetadata.None
  end.

Definition lvm_lv_kind (segment_type : option string) : LvmLvKind :=
  match default "linear" segment_type with
  | "linear" => LvmLvKind.Linear
  | "thin-pool" => LvmLvKind.ThinPool
  | "thin" => LvmLvKind.Thin
  | "snapshot" => LvmLvKind.Snapshot
  | "cache-pool" => LvmLvKind.CachePool
  | "cache" => LvmLvKind.Cache
  | "writecache" => LvmLvKind.WriteCache
  | other => LvmLvKind.Other other
  end.

Definition native_partition_table (label : string) : option PartitionTable :=
  match label with
  | "gpt" => Some PartitionTable.Gpt
  | "dos" => Some PartitionTable.Mbr
  | _ => None
  end.

Definition zfs_parity (parity : N) : option ZfsParity :=
  match parity with
  | 1%N => Some ZfsParity.One | 2%N => Some ZfsParity.Two | 3%N => Some ZfsParity.Three | _ => None
  end.

Definition zfs_vdev_kind (kind : ZfsVdevLayout) : ZfsVdevKind :=
  match kind with
  | ZfsVdevLayout.Leaf => ZfsVdevKind.Leaf
  | ZfsVdevLayout.Mirror => ZfsVdevKind.Mirror
  | ZfsVdevLayout.RaidZ parity =>
      match zfs_parity parity with
      | Some parity => ZfsVdevKind.RaidZ parity
      | None => ZfsVdevKind.Other ("raidz" +:+ pretty parity)
      end
  | ZfsVdevLayout.DRaid parity data_width distributed_spares =>
      let data_width := if (data_width <? 2 ^ 16)%N then DataStripeCount_new data_width else None in
      match zfs_parity parity, data_width with
      | Some parity, Some data_width => ZfsVdevKind.DRaid parity data_width distributed_spares
      | _, _ => ZfsVdevKind.Other "draid"
      end
  | ZfsVdevLayout.Other value => ZfsVdevKind.Other value
  end.

(** [NonZeroU32::new] and the types on top of it *)
Definition non_zero (n : N) : option positive := match n with 0%N => None | N.pos p => Some p end.

Definition native_endpoint_kind (endpoint : UdevBlockEntry) : NodeKind :=
  if text_starts_with "loop" endpoint.(UdevBlockEntry.sysname) then NodeKind.Loop None
  else if text_starts_with "zram" endpoint.(UdevBlockEntry.sysname) then NodeKind.Zram
  else if bool_decide (endpoint.(UdevBlockEntry.devtype) = Some "disk") then NodeKind.Disk
  else NodeKind.Unknown "udev block endpoint".

Definition has_target (target : string) (entry : DevmapperEntry) : bool :=
  bool_decide (target ∈ entry.(DevmapperEntry.targets)).

Definition devmapper_kind (entry : DevmapperEntry) : NodeKind :=
  let name := entry.(DevmapperEntry.name) in
  if has_target "crypt" entry then NodeKind.DmCryptMapping name
  else if has_target "integrity" entry then NodeKind.DmIntegrity name
  else if has_target "verity" entry then NodeKind.DmVerity name
  else if has_target "multipath" entry then NodeKind.DmMultipath
  else if has_target "writecache" entry then NodeKind.DmWritecache name
  else NodeKind.Unknown ("device-mapper:" +:+ String.concat "+" entry.(DevmapperEntry.targets)).

(** [Uuid::from_bytes] *)
Definition uuid_from_bytes (bytes : list N) : Uuid := foldl (λ u byte, u * 256 + byte)%N 0%N bytes.

Definition nvme_identities (namespace : NvmeNamespaceEntry) : list ExternalId :=
  option_list (ExternalId.NvmeNguid <$> namespace.(NvmeNamespaceEntry.nguid)) ++
  option_list (ExternalId.NvmeEui64 <$> namespace.(NvmeNamespaceEntry.eui64)) ++
  option_list ((λ u, ExternalId.NvmeUuid (uuid_from_bytes u)) <$> namespace.(NvmeNamespaceEntry.uuid)).

Definition nvme_transport (transport : string) : Transport :=
  match transport with "pcie" => Transport.Nvme | _ => Transport.NvmeOf end.

Definition zoned_model (zoned : string) : option ZonedModel :=
  match zoned with
  | "host-aware" => Some ZonedModel.HostAware
  | "host-managed" => Some ZonedModel.HostManaged
  | "none" => Some ZonedModel.None
  | _ => None
  end.

(** The member superblocks of an array. *)
Definition same_native_uuid (a b : string) : bool :=
  bool_decide (normalized_native_uuid a = normalized_native_uuid b).

Definition mdraid_chunk_size (array : MdraidArrayEntry) (members : list MdraidMemberEntry) : N :=
  match array.(MdraidArrayEntry.uuid) with
  | None => 0
  | Some uuid =>
      match find_first (λ m, is_some_and (λ u, same_native_uuid u uuid) m.(MdraidMemberEntry.array_uuid))
              members with
      | Some member => member.(MdraidMemberEntry.chunk_size)
      | None => 0
      end
  end.

Definition mdraid_kind (array : MdraidArrayEntry) (members : list MdraidMemberEntry) : NodeKind :=
  let metadata := md_metadata array.(MdraidArrayEntry.metadata) in
  let chunk_size := mdraid_chunk_size array members in
  let personality :=
    match to_ascii_lowercase array.(MdraidArrayEntry.level) with
    | "raid0" => Some (MdPersonality.Raid (MdRaid.Raid0 MdRaid0Layout.Unspecified chunk_size))
    | "raid1" => Some (MdPersonality.Raid MdRaid.Raid1)
    | "raid4" => Some (MdPersonality.Raid (MdRaid.Raid4 chunk_size))
    | "linear" => Some (MdPersonality.Linear None)
    | "multipath" => Some MdPersonality.Multipath
    | "faulty" => Some MdPersonality.Faulty
    | "container" => Some MdPersonality.Container
    | _ => None
    end in
  match personality with
  | Some personality => NodeKind.MdArray (MdArray.mk personality metadata)
  | None => NodeKind.Unknown ("md:" +:+ array.(MdraidArrayEntry.level))
  end.

(** * Names of observed objects

    Partition names and numbers determine each other, and the identities derived
    from names fit the 128 bits of a UUID. *)

#[local] Open Scope string_scope.
#[local] Open Scope N_scope.

Implicit Types (n : N).

(** ** Identities *)

Lemma fnv1a_bound hash bytes : hash < 2 ^ 64 → fnv1a hash bytes < 2 ^ 64.
Proof.
  unfold fnv1a. revert hash. induction bytes as [|b bytes IH]; intros hash Hh; [done|].
  apply IH. by apply N.mod_lt.
Qed.

(** The identity derived from a name is a 128-bit number: its high half is
    one hash of the name, its low half another. *)
Theorem stable_node_id_bound kind identity :
  let value := string_bytes ("disksgraph:" +:+ kind +:+ ":" +:+ identity) in
  stable_node_id kind identity < 2 ^ 128 ∧
  stable_node_id kind identity / 2 ^ 64 = fnv1a 0xcbf29ce484222325 value ∧
  stable_node_id kind identity mod 2 ^ 64 = fnv1a 0x84222325cbf29ce4 value.
Proof.
  cbv zeta. unfold stable_node_id. set (value := string_bytes _).
  pose proof (fnv1a_bound 0xcbf29ce484222325 value eq_refl) as Hh.
  pose proof (fnv1a_bound 0x84222325cbf29ce4 value eq_refl) as Hl.
  set (high := fnv1a 0xcbf29ce484222325 value) in *. set (low := fnv1a 0x84222325cbf29ce4 value) in *.
  assert (N.lor (N.shiftl high 64) low = high * 2 ^ 64 + low) as ->.
  { assert (N.land (N.shiftl high 64) low = 0) as Hdisjoint.
    { apply N.bits_inj_0. intros i. rewrite N.land_spec. destruct (N.lt_ge_cases i 64).
      - by rewrite N.shiftl_spec_low.
      - rewrite <-(N.mod_small low (2 ^ 64) Hl), N.mod_pow2_bits_high by done. apply andb_false_r. }
    by rewrite <-N.lxor_lor, <-N.add_nocarry_lxor, N.shiftl_mul_pow2. }
  split_and!.
  - change (2 ^ 128) with (2 ^ 64 * 2 ^ 64). nia.
  - rewrite N.div_add_l by done. rewrite (N.div_small low) by done. lia.
  - rewrite N.add_comm, N.Div0.mod_add. by apply N.mod_small.
Qed.

(** ** Texts as bytes *)

Lemma string_bytes_cons a s : string_bytes (String a s) = Ascii.N_of_ascii a :: string_bytes s.
Proof. done. Qed.

Lemma string_bytes_app s t : string_bytes (s +:+ t) = (string_bytes s ++ string_bytes t)%list.
Proof. unfold string_bytes. induction s as [|a s IH]; [done|]. simpl. by f_equal. Qed.

Lemma string_bytes_rev s : string_bytes (String.rev s) = reverse (string_bytes s).
Proof.
  unfold String.rev. rewrite <-(app_nil_r (reverse (string_bytes s))).
  change (@nil N) with (string_bytes ""). generalize "". induction s as [|a s IH]; intros t; [done|].
  cbn [String.rev_app]. by rewrite IH, !string_bytes_cons, reverse_cons, <-app_assoc.
Qed.

#[global] Instance string_bytes_inj : Inj (=) (=) string_bytes.
Proof.
  unfold string_bytes. intros s. induction s as [|a s IH]; intros [|b t]; try done.
  cbn. intros [= Ha Hs]. apply (f_equal Ascii.ascii_of_N) in Ha. rewrite !Ascii.ascii_N_embedding in Ha.
  by rewrite Ha, (IH t Hs).
Qed.

Lemma string_app_assoc s t u : s +:+ (t +:+ u) = (s +:+ t) +:+ u.
Proof. apply (inj string_bytes). by rewrite !string_bytes_app, app_assoc. Qed.
Lemma string_app_nil_r s : s +:+ "" = s.
Proof. apply (inj string_bytes). by rewrite string_bytes_app, app_nil_r. Qed.

Lemma string_rev_app_text s t : String.rev (s +:+ t) = String.rev t +:+ String.rev s.
Proof.
  apply (inj string_bytes). by rewrite string_bytes_rev, !string_bytes_app, !string_bytes_rev, reverse_app.
Qed.

Lemma string_rev_rev s : String.rev (String.rev s) = s.
Proof. apply (inj string_bytes). by rewrite !string_bytes_rev, reverse_involutive. Qed.

(** ** Decimal numbers *)

Definition all_digits (s : string) : Prop := Forall (λ b, is_digit b = true) (string_bytes s).

Lemma pretty_N_char_byte n : n < 10 → Ascii.N_of_ascii (pretty_N_char n) = 48 + n.
Proof.
  intros Hn. assert (n = 0 ∨ n = 1 ∨ n = 2 ∨ n = 3 ∨ n = 4 ∨ n = 5 ∨ n = 6 ∨ n = 7 ∨ n = 8 ∨ n = 9) by lia.
  naive_solver.
Qed.

Lemma is_digit_value n : n < 10 → is_digit (48 + n) = true.
Proof. intros Hn. unfold is_digit. rewrite andb_true_iff, !N.leb_le. lia. Qed.

(** Printing then reading continues with the value printed. *)
Lemma digits_value_pretty n s :
  digits_value 0 (string_bytes (pretty_N_go n s)) = digits_value n (string_bytes s).
Proof.
  revert s. induction (N.lt_wf_0 n) as [n _ IH]. intros s. destruct (decide (n = 0)) as [->|Hn]; [done|].
  rewrite pretty_N_go_step by lia. rewrite IH by (apply N.div_lt; lia).
  pose proof (N.mod_lt n 10 ltac:(done)) as Hm. pose proof (N.div_mod n 10 ltac:(done)) as Hd.
  rewrite string_bytes_cons, pretty_N_char_byte by done. cbn [digits_value].
  rewrite is_digit_value by done. f_equal. rewrite (N.add_comm 48), N.add_sub, N.mul_comm. by symmetry.
Qed.

Lemma all_digits_pretty_go n s : all_digits s → all_digits (pretty_N_go n s).
Proof.
  revert s. induction (N.lt_wf_0 n) as [n _ IH]. intros s Hs. destruct (decide (n = 0)) as [->|Hn]; [done|].
  rewrite pretty_N_go_step by lia. apply IH; [apply N.div_lt; lia|].
  pose proof (N.mod_lt n 10 ltac:(done)) as Hm. unfold all_digits.
  rewrite string_bytes_cons, pretty_N_char_byte by done. constructor; [|done].
  by apply is_digit_value.
Qed.

Lemma all_digits_pretty n : all_digits (pretty n).
Proof.
  unfold pretty, pretty_N. case_decide; [by repeat constructor|]. apply all_digits_pretty_go. constructor.
Qed.

Lemma pretty_bytes_nonempty n : string_bytes (pretty n) ≠ [].
Proof.
  unfold pretty, pretty_N. case_decide as Hn; [done|]. intros Hb.
  pose proof (digits_value_pretty n "") as Hv. rewrite Hb in Hv. cbn in Hv. congruence.
Qed.

Lemma parse_unsigned_pretty bound n :
  parse_unsigned bound (pretty n) = if n <? bound then Some n else None.
Proof.
  assert (digits_value 0 (string_bytes (pretty n)) = Some n) as Hv.
  { unfold pretty, pretty_N. case_decide as Hn; [by subst|]. apply (digits_value_pretty n ""). }
  pose proof (all_digits_pretty n) as Hd. unfold all_digits in Hd.
  pose proof (pretty_bytes_nonempty n) as Hne. unfold parse_unsigned.
  destruct (string_bytes (pretty n)) as [|b l] eqn:Hb; [done|].
  apply Forall_cons in Hd as [Hd _].
  assert (b ≠ 43) as H43 by (intros ->; done).
  assert (match b :: l with 43 :: rest => rest | bytes => bytes end = b :: l) as ->.
  { repeat case_match; congruence. }
  rewrite Hv. done.
Qed.

(** ** Partition names *)

Lemma take_digits_app s t : all_digits s →
  match string_bytes t with b :: _ => is_digit b = false | [] => True end → take_digits (s +:+ t) = s.
Proof.
  unfold all_digits. induction s as [|a s IH]; intros Hs Ht.
  - destruct t as [|a t]; [done|]. rewrite string_bytes_cons in Ht. simpl. by rewrite Ht.
  - rewrite string_bytes_cons in Hs. apply Forall_cons in Hs as [Ha Hs]. simpl. rewrite Ha. f_equal. by apply IH.
Qed.

(** The last digits of a text are what follows a text that ends without one. *)
Lemma trailing_digits s t : ends_with_digit s = false → all_digits t →
  String.rev (take_digits (String.rev (s +:+ t))) = t.
Proof.
  intros Hs Ht. rewrite string_rev_app_text, take_digits_app; [apply string_rev_rev| |].
  - unfold all_digits. rewrite string_bytes_rev. by apply Forall_reverse.
  - rewrite string_bytes_rev. unfold ends_with_digit in Hs. rewrite <-head_reverse in Hs.
    by destruct (reverse _).
Qed.

(** The number read from the name of a partition is the number the name was
    made for, whether or not the disk's own name ends with a digit; numbers past
    32 bits read as zero. *)
Theorem partition_number_path device number :
  partition_number (partition_path device number) = if number <? 2 ^ 32 then number else 0.
Proof.
  unfold partition_number, partition_path, parse_u32. rewrite string_app_assoc, trailing_digits.
  - rewrite parse_unsigned_pretty. by destruct (_ <? _).
  - destruct (ends_with_digit device) eqn:Hd.
    + unfold ends_with_digit. rewrite string_bytes_app. change (string_bytes "p") with [112]. by rewrite last_snoc.
    + by rewrite string_app_nil_r.
  - apply all_digits_pretty.
Qed.

(** ** Device nodes *)

(** A name of a directory entry. *)
Definition is_entry (name : string) : bool := bool_decide (name ∉ [""; "."; ".."]).

(** An absolute path without empty, [.] or [..] segments: [/dev/sda]. *)
Definition is_canonical (path : Path) : bool :=
  match path with
  | EmptyString => false
  | String a rest => (Ascii.N_of_ascii a =? 47)%N && forallb is_entry (segments_from "" rest)
  end.

Lemma component_entry name : is_entry name = true → component name = Some (Component.Normal name).
Proof.
  unfold is_entry, component. rewrite bool_decide_eq_true, !not_elem_of_cons. intros (? & ? & ? & _).
  rewrite !bool_decide_eq_false_2; [done|done|tauto].
Qed.

Lemma components_canonical rest : forallb is_entry (segments_from "" rest) = true →
  omap component (segments_from "" rest) = Component.Normal <$> segments_from "" rest.
Proof.
  generalize (segments_from "" rest). induction l as [|name l IH]; [done|]. simpl.
  intros [Hn Hl]%andb_prop. rewrite component_entry by done. f_equal. by apply IH.
Qed.

(** The segments spell the text. *)
Fixpoint joined_segments (names : list string) : string :=
  match names with
  | [] => ""
  | [name] => name
  | name :: names => name +:+ "/" +:+ joined_segments names
  end.

Lemma segments_nonempty current text : segments_from current text ≠ [].
Proof. revert current. induction text as [|a text IH]; intros current; [done|]. simpl. by case_match. Qed.

Lemma segments_joined current text : joined_segments (segments_from current text) = current +:+ text.
Proof.
  revert current. induction text as [|a text IH]; intros current; simpl; [by rewrite string_app_nil_r|].
  destruct (N.eqb_spec (Ascii.N_of_ascii a) 47) as [Ha|_].
  - pose proof (segments_nonempty "" text) as Hne. simpl.
    destruct (segments_from "" text) eqn:Hs; [done|]. rewrite <-Hs, IH. simpl.
    by rewrite <-(Ascii.ascii_N_embedding a), Ha.
  - by rewrite IH, <-string_app_assoc.
Qed.

(** Two spellings of one path that are both canonical are the same. *)
Lemma canonical_same_path a b :
  is_canonical a = true → is_canonical b = true → same_path a b = true → a = b.
Proof.
  unfold same_path. rewrite bool_decide_eq_true. destruct a as [|x a], b as [|y b]; try done. simpl.
  intros [Hx Ha]%andb_prop [Hy Hb]%andb_prop. rewrite Hx, Hy, !components_canonical by done.
  apply N.eqb_eq in Hx, Hy. intros [= Heq%list_fmap_eq_inj]; [|by intros ?? [=]].
  rewrite <-(segments_joined "" a), <-(segments_joined "" b), Heq at 1. simpl.
  f_equal. rewrite <-(Ascii.ascii_N_embedding x), <-(Ascii.ascii_N_embedding y). by rewrite Hx, Hy.
Qed.

(** What follows the last slash extends the last segment. *)
Lemma segments_app current text suffix : string_contains_byte 47 suffix = false →
  ∃ names name, segments_from current text = (names ++ [name])%list ∧
    segments_from current (text +:+ suffix) = (names ++ [name +:+ suffix])%list.
Proof.
  intros Hs. revert current. induction text as [|a text IH]; intros current; simpl.
  - exists [], current. split; [done|]. clear -Hs. revert current.
    induction suffix as [|a suffix IH]; intros current; simpl; [by rewrite string_app_nil_r|].
    simpl in Hs. apply orb_false_iff in Hs as [Ha Hs]. rewrite Ha, IH by done. by rewrite <-string_app_assoc.
  - destruct (_ =? 47)%N; [|apply IH]. destruct (IH "") as (names & name & -> & ->).
    by exists (current :: names), name.
Qed.

Lemma entry_app name suffix :
  is_entry name = true → suffix ≠ "" → is_entry (name +:+ suffix) = true.
Proof.
  unfold is_entry. rewrite !bool_decide_eq_true, !not_elem_of_cons. intros (Hn & Hd & _ & _) Hs.
  destruct name as [|a [|b name]], suffix as [|c suffix]; try done; split_and!; try done;
    try apply not_elem_of_nil; injection 1; intros; subst; [done|by destruct name].
Qed.

Lemma canonical_app path suffix : is_canonical path = true → suffix ≠ "" →
  string_contains_byte 47 suffix = false → is_canonical (path +:+ suffix) = true.
Proof.
  destruct path as [|a rest]; [done|]. simpl. intros [Ha Hp]%andb_prop Hs Hc. rewrite Ha. simpl.
  destruct (segments_app "" rest suffix Hc) as (names & name & Heq & ->). rewrite Heq in Hp.
  rewrite forallb_app in *. apply andb_prop in Hp as [-> [Hn _]%andb_prop]. simpl.
  by rewrite entry_app.
Qed.

Lemma digits_no_slash text : all_digits text → string_contains_byte 47 text = false.
Proof.
  unfold all_digits. induction text as [|a text IH]; [done|]. rewrite string_bytes_cons.
  intros [Ha Ht]%Forall_cons. simpl. rewrite IH by done.
  destruct (N.eqb_spec (Ascii.N_of_ascii a) 47) as [Hs|]; [by rewrite Hs in Ha|done].
Qed.

(** A partition of a canonical device node has a canonical one. *)
Lemma canonical_partition device number :
  is_canonical device = true → is_canonical (partition_path device number) = true.
Proof.
  intros Hd. unfold partition_path.
  pose proof (digits_no_slash _ (all_digits_pretty number)) as Hn.
  assert (pretty number ≠ "") as Hne.
  { intros Hp. pose proof (parse_unsigned_pretty (number + 1) number) as Hv. rewrite Hp in Hv.
    assert ((number <? number + 1)%N = true) as Hl by (apply N.ltb_lt; lia). by rewrite Hl in Hv. }
  destruct (ends_with_digit device); apply canonical_app; try done.
Qed.
