(* ===== verification/ProbeBlock.v ===== *)
(** * Block state: [assemble_native_block_state] of [storage-probe/src/linux.rs]

    The contribution of one provider, and the graph of endpoints, partition
    tables and contents that udev, libfdisk and libblkid report. *)

From stdpp Require Import pretty.
From S2P Require Import Prelude Model Reach Graph State Observe Recipes Native.
From S2P Require Import ProbeNames.

#[local] Open Scope string_scope.
#[local] Open Scope list_scope.

(** [storage-probe/src/assemble.rs] *)
Module ProviderState.
Record ProviderState := mk {
  graph : NodeGraph;
  mounts : list ObservedMount;
  lvm_vgs : list LvmVgObservation;
  environment : option Environment;
  diagnostics : list Diagnostic }.
Definition default : ProviderState := mk (NodeGraph.mk ∅ [] []) [] [] None [].
End ProviderState.
Abbreviation ProviderState := ProviderState.ProviderState.

Implicit Types (graph : NodeGraph) (state : ProviderState).

Definition with_graph graph state : ProviderState :=
  ProviderState.mk graph state.(ProviderState.mounts) state.(ProviderState.lvm_vgs)
    state.(ProviderState.environment) state.(ProviderState.diagnostics).
Definition with_mounts (mounts : list ObservedMount) state : ProviderState :=
  ProviderState.mk state.(ProviderState.graph) mounts state.(ProviderState.lvm_vgs)
    state.(ProviderState.environment) state.(ProviderState.diagnostics).
Definition add_lvm_vg (vg : LvmVgObservation) state : ProviderState :=
  ProviderState.mk state.(ProviderState.graph) state.(ProviderState.mounts)
    (state.(ProviderState.lvm_vgs) ++ [vg]) state.(ProviderState.environment)
    state.(ProviderState.diagnostics).
Definition add_diagnostics (diagnostics : list Diagnostic) state : ProviderState :=
  ProviderState.mk state.(ProviderState.graph) state.(ProviderState.mounts) state.(ProviderState.lvm_vgs)
    state.(ProviderState.environment) (state.(ProviderState.diagnostics) ++ diagnostics).
Definition on_graph (f : NodeGraph → NodeGraph) state : ProviderState :=
  with_graph (f state.(ProviderState.graph)) state.

(** ** Nodes *)

(** [..NodeFacts::default()] with a presence *)
Definition observed_facts (presence : Presence) (identities : list ExternalId)
    (block : option BlockFacts) (device : option DeviceInfo) : NodeFacts :=
  NodeFacts.mk None None presence identities block device.

Definition plain_node (kind : NodeKind) (size : option Bytes) (identities : list ExternalId) : Node :=
  Node.mk (NodeSpec.mk kind size) (observed_facts Presence.Present identities None None).

Definition set_kind (kind : NodeKind) (node : Node) : Node :=
  Node.mk (NodeSpec.mk kind node.(Node.kind).(NodeSpec.size)) node.(Node.size).
Definition set_size (size : option Bytes) (node : Node) : Node :=
  Node.mk (NodeSpec.mk node.(Node.kind).(NodeSpec.kind) size) node.(Node.size).
Definition set_presence (presence : Presence) (node : Node) : Node :=
  let facts := node.(Node.size) in
  Node.mk node.(Node.kind)
    (NodeFacts.mk facts.(NodeFacts.lvm_active) facts.(NodeFacts.observed_in) presence
       facts.(NodeFacts.identities) facts.(NodeFacts.block) facts.(NodeFacts.device)).
Definition set_identities (identities : list ExternalId) (node : Node) : Node :=
  let facts := node.(Node.size) in
  Node.mk node.(Node.kind)
    (NodeFacts.mk facts.(NodeFacts.lvm_active) facts.(NodeFacts.observed_in) facts.(NodeFacts.presence)
       identities facts.(NodeFacts.block) facts.(NodeFacts.device)).
Definition set_block (block : option BlockFacts) (node : Node) : Node :=
  let facts := node.(Node.size) in
  Node.mk node.(Node.kind)
    (NodeFacts.mk facts.(NodeFacts.lvm_active) facts.(NodeFacts.observed_in) facts.(NodeFacts.presence)
       facts.(NodeFacts.identities) block facts.(NodeFacts.device)).

(** [if !identities.contains(&identity) { identities.push(identity) }] *)
Definition add_identity (identity : ExternalId) (node : Node) : Node :=
  let identities := node.(Node.size).(NodeFacts.identities) in
  if bool_decide (identity ∈ identities) then node else set_identities (identities ++ [identity]) node.

(** The branch taken cannot fail; [unreachable!] stands for the graph as it is. *)
Definition upsert_observation (id : NodeId) (node : Node) graph : NodeGraph :=
  if bool_decide (is_Some (Graph.node graph id))
  then match replace_existing graph id node with Ok (graph, _) => graph | Err _ => graph end
  else match insert_new graph id node with Ok graph => graph | Err _ => graph end.

Definition add_dependency (from to : NodeId) (kind : DependencyKind) graph : NodeGraph :=
  (insert_dependency graph (Dependency.mk from to kind)).2.
Definition add_relation (from to : NodeId) (kind : RelationKind) graph : NodeGraph :=
  (insert_relation graph (Relation.mk from to kind)).2.

(** ** Endpoints *)

Definition native_block_facts (endpoint : UdevBlockEntry) : NodeFacts :=
  let identities :=
    option_list (ExternalId.Wwn <$> endpoint.(UdevBlockEntry.wwn)) ++
    option_list (ExternalId.Serial endpoint.(UdevBlockEntry.vendor) <$> endpoint.(UdevBlockEntry.serial)) in
  let geometry :=
    (λ logical, BlockGeometry.mk logical
       (endpoint.(UdevBlockEntry.physical_block_size) ≫= non_zero)
       endpoint.(UdevBlockEntry.alignment_offset) endpoint.(UdevBlockEntry.minimum_io_size)
       endpoint.(UdevBlockEntry.optimal_io_size)) <$>
    (endpoint.(UdevBlockEntry.logical_block_size) ≫= non_zero) in
  let block := BlockFacts.mk
    (components <$> endpoint.(UdevBlockEntry.devnode) :: endpoint.(UdevBlockEntry.aliases))
    (DeviceNumber.mk endpoint.(UdevBlockEntry.major) endpoint.(UdevBlockEntry.minor))
    geometry endpoint.(UdevBlockEntry.read_only) in
  let device :=
    if bool_decide (endpoint.(UdevBlockEntry.devtype) = Some "disk") then
      Some (DeviceInfo.mk endpoint.(UdevBlockEntry.model) endpoint.(UdevBlockEntry.vendor)
        (match endpoint.(UdevBlockEntry.transport) ≫= udev_transport with
         | Some found => Some found
         | None => transport endpoint.(UdevBlockEntry.sysname)
         end) None endpoint.(UdevBlockEntry.rotational) endpoint.(UdevBlockEntry.removable)
        (endpoint.(UdevBlockEntry.zoned) ≫= zoned_model))
    else None in
  observed_facts Presence.Present identities (Some block) device.

Definition endpoint_size (endpoint : UdevBlockEntry) : option Bytes :=
  (λ sectors, u64_saturating_mul sectors 512) <$> endpoint.(UdevBlockEntry.size_sectors).

Definition insert_native_endpoint (endpoint : UdevBlockEntry) (kind : NodeKind) graph : NodeGraph :=
  upsert_observation (block_node_id endpoint.(UdevBlockEntry.devnode))
    (Node.mk (NodeSpec.mk kind (endpoint_size endpoint)) (native_block_facts endpoint)) graph.

(** A [HashMap] keyed by paths or device numbers keeps the last of equal keys. *)
Definition endpoint_at (endpoints : list UdevBlockEntry) (path : Path) : option UdevBlockEntry :=
  last (List.filter (λ e, same_path e.(UdevBlockEntry.devnode) path) endpoints).

Definition path_of_devno (endpoints : list UdevBlockEntry) (devno : DeviceNumber) : option Path :=
  UdevBlockEntry.devnode <$>
  last (List.filter (λ e, (e.(UdevBlockEntry.major) =? devno.(DeviceNumber.major))%N &&
                          (e.(UdevBlockEntry.minor) =? devno.(DeviceNumber.minor))%N) endpoints).

(** ** Partitions *)

Section probe.
Context `{UuidText}.

Definition table_node_id (table : FdiskTable) : NodeId :=
  stable_node_id "partition-table-path" table.(FdiskTable.device).

(** One partition, and the path it is represented by. *)
Definition add_partition (endpoints : list UdevBlockEntry) (table : FdiskTable)
    (acc : NodeGraph * list Path) (partition : FdiskPartition) : NodeGraph * list Path :=
  let '(graph, represented) := acc in
  match non_zero partition.(FdiskPartition.number) with
  | None => (graph, represented)
  | Some number =>
      let path := partition_path table.(FdiskTable.device) partition.(FdiskPartition.number) in
      let offset := u64_saturating_mul partition.(FdiskPartition.start_sectors)
                      table.(FdiskTable.sector_size) in
      let id := block_node_id path in
      let facts := match endpoint_at endpoints path with
                   | Some endpoint => native_block_facts endpoint
                   | None => NodeFacts.default
                   end in
      let identities := facts.(NodeFacts.identities) ++
        option_list (ExternalId.GptPartitionUuid <$> (partition.(FdiskPartition.uuid) ≫= parse_uuid)) in
      let node := Node.mk
        (NodeSpec.mk (NodeKind.Partition number offset None
                        (PartitionAttributes.mk None (Some partition.(FdiskPartition.bootable))))
           (Some (u64_saturating_mul partition.(FdiskPartition.size_sectors)
                    table.(FdiskTable.sector_size))))
        (observed_facts Presence.Present identities facts.(NodeFacts.block) facts.(NodeFacts.device)) in
      (graph ▷ upsert_observation id node
             ▷ add_dependency (table_node_id table) id (DependencyKind.Contains offset),
       represented ++ [path])
  end.

Definition add_table (endpoints : list UdevBlockEntry) (acc : NodeGraph * list Path)
    (table : FdiskTable) : NodeGraph * list Path :=
  let '(graph, represented) := acc in
  match table.(FdiskTable.label) ≫= native_partition_table with
  | None => (graph, represented)
  | Some kind =>
      let graph := graph
        ▷ upsert_observation (table_node_id table) (plain_node (NodeKind.PartitionTable kind) None [])
        ▷ add_dependency (block_node_id table.(FdiskTable.device)) (table_node_id table)
            DependencyKind.Backs in
      foldl (add_partition endpoints table) (graph, represented) table.(FdiskTable.partitions)
  end.

(** ** Contents *)

Definition native_content_kind (signature_type : string) (label : option string) : NodeKind :=
  match signature_type with
  | "swap" => NodeKind.Swap
  | "LVM2_member" => NodeKind.LvmPv
  | "crypto_LUKS" | "linux_raid_member" => NodeKind.Unknown ("signature:" +:+ signature_type)
  | other => NodeKind.Filesystem (filesystem_kind other) label
  end.

Definition add_native_content (endpoints : list UdevBlockEntry) graph (signature : BlkidEntry)
    : NodeGraph :=
  match signature.(BlkidEntry.signature_type) with
  | None => graph
  | Some signature_type =>
      let device := signature.(BlkidEntry.device) in
      let id := content_node_id device in
      let identities := option_list (ExternalId.Filesystem signature_type <$> signature.(BlkidEntry.uuid)) in
      graph ▷ upsert_observation id
                (plain_node (native_content_kind signature_type signature.(BlkidEntry.label))
                   (endpoint_at endpoints device ≫= endpoint_size) identities)
            ▷ add_dependency (block_node_id device) id DependencyKind.Backs
  end.

(** Content is added only above an endpoint of the graph. *)
Definition add_signature (endpoints : list UdevBlockEntry) graph (signature : BlkidEntry) : NodeGraph :=
  if bool_decide (is_Some (Graph.node graph (block_node_id signature.(BlkidEntry.device))))
  then add_native_content endpoints graph signature else graph.

Definition is_whole (endpoint : UdevBlockEntry) : bool :=
  bool_decide (endpoint.(UdevBlockEntry.devtype) ≠ Some "partition").

Definition is_represented (represented : list Path) (endpoint : UdevBlockEntry) : bool :=
  existsb (same_path endpoint.(UdevBlockEntry.devnode)) represented.

Definition native_block_graph (endpoints : list UdevBlockEntry) (tables : list FdiskTable)
    (signatures : list BlkidEntry) : NodeGraph :=
  let whole := List.filter is_whole endpoints in
  let graph := foldl (λ graph e, insert_native_endpoint e (native_endpoint_kind e) graph)
                 (NodeGraph.mk ∅ [] []) whole in
  let '(graph, represented) :=
    foldl (add_table endpoints) (graph, UdevBlockEntry.devnode <$> whole) tables in
  let graph := foldl (λ graph e,
      insert_native_endpoint e (NodeKind.Unknown "block endpoint without fdisk topology") graph) graph
    (List.filter (λ e, negb (is_represented represented e)) endpoints) in
  foldl (add_signature endpoints) graph signatures.

Definition assemble_native_block_state (endpoints : list UdevBlockEntry) (tables : list FdiskTable)
    (signatures : list BlkidEntry) : ProviderState :=
  with_graph (native_block_graph endpoints tables signatures) ProviderState.default.
End probe.

(** * Enrichment of the block graph: [storage-probe/src/linux.rs]

    LUKS, device mapper, loop, swap, multipath, MD RAID, LVM, Btrfs, ZFS, NVMe
    and mounts, each as a function on the state assembled so far. *)

#[local] Open Scope string_scope.
#[local] Open Scope list_scope.


Definition diagnostic (code : string) (severity : DiagnosticSeverity) (subjects : list DiagnosticSubject)
    (message : string) (evidence remedy : option string) : Diagnostic :=
  Diagnostic.mk code severity subjects message evidence remedy.

Definition push_native_failure (provider evidence : string) state : ProviderState :=
  add_diagnostics [diagnostic (provider +:+ ".probe_failed") DiagnosticSeverity.MissingInformation []
    ("native " +:+ provider +:+ " enrichment could not inspect its responsibility")
    (Some evidence) (Some "fix provider access and repeat probing")] state.

(** ** LUKS and device mapper *)

Definition is_luks_signature (i : ExternalId) : bool :=
  match i with ExternalId.Filesystem "crypto_LUKS" _ => true | _ => false end.

Definition invalid_payload_offset (id : NodeId) : Diagnostic :=
  diagnostic "luks.invalid_payload_offset" DiagnosticSeverity.MissingInformation
    [DiagnosticSubject.Node id] "LUKS payload offset exceeds the observed device size" None
    (Some "verify cryptsetup metadata and repeat probing").

Definition add_luks state (entry : LuksObservation) : ProviderState :=
  let id := content_node_id entry.(LuksObservation.device) in
  match Graph.node state.(ProviderState.graph) id with
  | None => state
  | Some node =>
      let offset := entry.(LuksObservation.payload_offset) in
      let '(size, diagnostics) :=
        match node.(Node.kind).(NodeSpec.size) with
        | None => (None, [])
        | Some size => if (offset <=? size)%N then (Some (size - offset)%N, [])
                       else (None, [invalid_payload_offset id])
        end in
      let identities := List.filter (λ i, negb (is_luks_signature i)) node.(Node.size).(NodeFacts.identities)
                        ++ option_list entry.(LuksObservation.identity) in
      let node := node ▷ set_kind (NodeKind.LuksContainer entry.(LuksObservation.version))
                       ▷ set_size size ▷ set_identities identities in
      state ▷ add_diagnostics diagnostics ▷ on_graph (upsert_observation id node)
  end.

Definition enrich_luks (entries : list LuksObservation) state : ProviderState :=
  foldl add_luks state entries.

(** The node of a mapping and the path it has. *)
Definition devmapper_path (endpoints : list UdevBlockEntry) (entry : DevmapperEntry) : Path :=
  default ("/dev/dm-" +:+ pretty entry.(DevmapperEntry.devno).(DeviceNumber.minor))
    (path_of_devno endpoints entry.(DevmapperEntry.devno)).

Definition devmapper_node (path : Path) (entry : DevmapperEntry) (existing : option Node) : Node :=
  let alias := components (path_join "/dev/mapper" entry.(DevmapperEntry.name)) in
  let fresh := Node.mk (NodeSpec.mk (NodeKind.Unknown "device-mapper endpoint") None)
    (observed_facts Presence.Present []
       (Some (BlockFacts.mk [components path] entry.(DevmapperEntry.devno) None
                (Some entry.(DevmapperEntry.read_only)))) None) in
  let node := default fresh existing in
  let block :=
    (λ block, BlockFacts.mk
       (if bool_decide (alias ∈ block.(BlockFacts.paths)) then block.(BlockFacts.paths)
        else block.(BlockFacts.paths) ++ [alias])
       block.(BlockFacts.devno) block.(BlockFacts.geometry) (Some entry.(DevmapperEntry.read_only)))
    <$> node.(Node.size).(NodeFacts.block) in
  node ▷ set_kind (devmapper_kind entry) ▷ set_block block.

Definition is_luks_container (node : Node) : bool :=
  match node.(Node.kind).(NodeSpec.kind) with NodeKind.LuksContainer _ => true | _ => false end.

(** The source of a mapping: the LUKS container on the device, or the device. *)
Definition devmapper_source graph (entry : DevmapperEntry) (path : Path) : NodeId :=
  if has_target "crypt" entry && is_some_and is_luks_container (Graph.node graph (content_node_id path))
  then content_node_id path else block_node_id path.

Definition add_mapping_source (endpoints : list UdevBlockEntry) (entry : DevmapperEntry) (id : NodeId)
    graph (devno : DeviceNumber) : NodeGraph :=
  match path_of_devno endpoints devno with
  | None => graph
  | Some path =>
      add_dependency (devmapper_source graph entry path) id
        (if has_target "multipath" entry then DependencyKind.Path else DependencyKind.Backs) graph
  end.

Definition add_mapping (endpoints : list UdevBlockEntry) graph (entry : DevmapperEntry) : NodeGraph :=
  let path := devmapper_path endpoints entry in
  let id := block_node_id path in
  foldl (add_mapping_source endpoints entry id)
    (upsert_observation id (devmapper_node path entry (Graph.node graph id)) graph)
    entry.(DevmapperEntry.dependencies).

Definition enrich_devmapper (endpoints : list UdevBlockEntry) (entries : list DevmapperEntry) graph
    : NodeGraph :=
  foldl (add_mapping endpoints) graph entries.

(** ** Loop, swap, multipath *)

Definition set_read_only (read_only : bool) (block : BlockFacts) : BlockFacts :=
  BlockFacts.mk block.(BlockFacts.paths) block.(BlockFacts.devno) block.(BlockFacts.geometry)
    (Some read_only).

Definition add_loop graph (entry : LoopEntry) : NodeGraph :=
  let id := block_node_id entry.(LoopEntry.device) in
  match Graph.node graph id with
  | None => graph
  | Some node =>
      upsert_observation id
        (node ▷ set_kind (NodeKind.Loop (Some (components entry.(LoopEntry.backing_file))))
              ▷ set_block (set_read_only entry.(LoopEntry.read_only) <$> node.(Node.size).(NodeFacts.block)))
        graph
  end.
Definition enrich_loop (entries : list LoopEntry) graph : NodeGraph := foldl add_loop graph entries.

Definition swap_diagnostic (entry : SwapEntry) : Diagnostic :=
  diagnostic "swap.active" DiagnosticSeverity.Warning
    [DiagnosticSubject.Node (content_node_id entry.(SwapEntry.device))]
    ("swap area " +:+ entry.(SwapEntry.device) +:+ " is active")
    (Some "reported by libblockdev swap plugin")
    (Some "deactivate swap before modifying its backing storage").
Definition enrich_swap (entries : list SwapEntry) state : ProviderState :=
  add_diagnostics (swap_diagnostic <$> List.filter SwapEntry.active entries) state.

Definition is_path_source graph (id : NodeId) : bool :=
  existsb (λ d, (d.(Dependency.from_) =? id)%N && bool_decide (d.(Dependency.kind) = DependencyKind.Path))
    graph.(NodeGraph.dependencies).

Definition multipath_diagnostic (member : Path) : Diagnostic :=
  diagnostic "multipath.member_unlinked" DiagnosticSeverity.MissingInformation
    [DiagnosticSubject.Node (block_node_id member)]
    ("multipath member " +:+ member +:+ " was not linked to a mapper device")
    (Some "libblockdev and libdevmapper observations disagree")
    (Some "repeat probing after multipath settles").

Definition enrich_multipath (mappings : list DevmapperEntry) (multipath : MultipathEntry) state
    : ProviderState :=
  if existsb (has_target "multipath") mappings then
    add_diagnostics
      (multipath_diagnostic <$>
       List.filter (λ member, negb (is_path_source state.(ProviderState.graph) (block_node_id member)))
         multipath.(MultipathEntry.members)) state
  else state.

(** ** MD RAID *)

Definition degraded_diagnostic (array : MdraidArrayEntry) : Diagnostic :=
  diagnostic "mdraid.array_degraded" DiagnosticSeverity.Warning
    [DiagnosticSubject.Node (block_node_id array.(MdraidArrayEntry.device))]
    ("MD array " +:+ array.(MdraidArrayEntry.device) +:+ " has "
       +:+ pretty array.(MdraidArrayEntry.active_devices) +:+ "/"
       +:+ pretty array.(MdraidArrayEntry.raid_devices) +:+ " active devices and "
       +:+ pretty array.(MdraidArrayEntry.failed_devices) +:+ " failed devices")
    array.(MdraidArrayEntry.status)
    (Some "inspect member state and complete recovery before destructive changes").

Definition is_degraded (array : MdraidArrayEntry) : bool :=
  ((0 <? array.(MdraidArrayEntry.failed_devices)) ||
   (array.(MdraidArrayEntry.active_devices) <? array.(MdraidArrayEntry.raid_devices)))%N.

Definition add_array (members : list MdraidMemberEntry) graph (array : MdraidArrayEntry) : NodeGraph :=
  let id := block_node_id array.(MdraidArrayEntry.device) in
  let size := Some array.(MdraidArrayEntry.size) in
  let node := default (plain_node (NodeKind.Unknown "md array") size []) (Graph.node graph id) in
  let node := node ▷ set_kind (mdraid_kind array members) ▷ set_size size in
  let node := match array.(MdraidArrayEntry.uuid) with
              | Some uuid => add_identity (ExternalId.MdUuid uuid) node
              | None => node
              end in
  upsert_observation id node graph.

Definition array_of (arrays : list MdraidArrayEntry) (member : MdraidMemberEntry)
    : option MdraidArrayEntry :=
  match member.(MdraidMemberEntry.array_uuid) with
  | None => None
  | Some array_uuid =>
      find_first (λ array, is_some_and (λ uuid, same_native_uuid uuid array_uuid)
                             array.(MdraidArrayEntry.uuid)) arrays
  end.

Definition add_md_member (arrays : list MdraidArrayEntry) graph (member : MdraidMemberEntry)
    : NodeGraph :=
  match array_of arrays member with
  | None => graph
  | Some array =>
      add_dependency (block_node_id member.(MdraidMemberEntry.device))
        (block_node_id array.(MdraidArrayEntry.device))
        (DependencyKind.MemberOf (MemberRole.Md (MdMember.mk MdMemberRole.Data None None))) graph
  end.

Definition enrich_mdraid (topology : MdraidEntry) graph : NodeGraph * list Diagnostic :=
  let arrays := topology.(MdraidEntry.arrays) in
  let members := topology.(MdraidEntry.members) in
  (foldl (add_md_member arrays) (foldl (add_array members) graph arrays) members,
   degraded_diagnostic <$> List.filter is_degraded arrays).
