(* ===== verification/ProbeTopology.v ===== *)
(** * Volume managers and file systems: [storage-probe/src/linux.rs]

    LVM, Btrfs, ZFS and NVMe topology and the mounts of the system, added to the
    graph of block devices. *)

From stdpp Require Import pretty.
From S2P Require Import Prelude Model Reach Graph State Observe Recipes Native.
From S2P Require Import ProbeNames ProbeBlock.
From S2P Require Import ProbeBlock.

#[local] Open Scope string_scope.
#[local] Open Scope list_scope.


(** ** LVM *)

Definition vg_node_id (vg : LvmVgEntry) : NodeId := stable_node_id "lvm-vg" vg.(LvmVgEntry.uuid).

(** [vg_ids]: of groups with one name the last counts. *)
Definition vg_id (vgs : list LvmVgEntry) (name : string) : option NodeId :=
  vg_node_id <$> last (List.filter (λ vg, bool_decide (vg.(LvmVgEntry.name) = name)) vgs).

Definition vg_node (vg : LvmVgEntry) : Node :=
  plain_node (NodeKind.LvmVg vg.(LvmVgEntry.name)
                (if (0 <? vg.(LvmVgEntry.extent_size))%N then Some vg.(LvmVgEntry.extent_size) else None))
    (Some vg.(LvmVgEntry.size)) [ExternalId.LvmVgUuid vg.(LvmVgEntry.uuid)].

Definition add_vg state (vg : LvmVgEntry) : ProviderState :=
  state ▷ on_graph (upsert_observation (vg_node_id vg) (vg_node vg))
        ▷ add_lvm_vg (LvmVgObservation.mk (vg_node_id vg) vg).

Definition pv_diagnostic (pv : LvmPvEntry) : Diagnostic :=
  diagnostic "lvm.pv_missing" DiagnosticSeverity.Warning
    [DiagnosticSubject.Node (content_node_id pv.(LvmPvEntry.device))]
    ("LVM physical volume " +:+ pv.(LvmPvEntry.device) +:+ " is missing") pv.(LvmPvEntry.vg_name)
    (Some "restore or replace the missing PV before modifying the volume group").

Definition add_pv (vgs : list LvmVgEntry) graph (pv : LvmPvEntry) : NodeGraph :=
  let id := content_node_id pv.(LvmPvEntry.device) in
  let node := default (plain_node NodeKind.LvmPv (Some pv.(LvmPvEntry.size)) []) (Graph.node graph id) in
  let node := node ▷ set_kind NodeKind.LvmPv ▷ add_identity (ExternalId.LvmPvUuid pv.(LvmPvEntry.uuid))
                   ▷ set_presence (if pv.(LvmPvEntry.missing) then Presence.Missing else Presence.Present) in
  let graph := upsert_observation id node graph in
  match pv.(LvmPvEntry.vg_name) ≫= vg_id vgs with
  | Some vg => add_dependency id vg (DependencyKind.MemberOf MemberRole.LvmPv) graph
  | None => graph
  end.

(** The mapping of a volume: its UUID ends with the volume's. *)
Definition is_mapping_of (lv : LvmLvEntry) (mapping : DevmapperEntry) : bool :=
  is_some_and (λ uuid, text_starts_with "LVM-" uuid &&
                       text_ends_with (normalized_native_uuid lv.(LvmLvEntry.uuid))
                         (normalized_native_uuid uuid)) mapping.(DevmapperEntry.uuid).

Definition lv_node_id (endpoints : list UdevBlockEntry) (mappings : list DevmapperEntry)
    (lv : LvmLvEntry) : NodeId :=
  match find_first (is_mapping_of lv) mappings ≫=
        (λ mapping, path_of_devno endpoints mapping.(DevmapperEntry.devno)) with
  | Some path => block_node_id path
  | None => stable_node_id "lvm-lv" lv.(LvmLvEntry.uuid)
  end.

Definition lv_node (lv : LvmLvEntry) (existing : option Node) : Node :=
  let facts := match existing with
               | Some node => node.(Node.size)
               | None => observed_facts Presence.Present [] None None
               end in
  let facts := NodeFacts.mk (activation lv) facts.(NodeFacts.observed_in) facts.(NodeFacts.presence)
    facts.(NodeFacts.identities) facts.(NodeFacts.block) facts.(NodeFacts.device) in
  add_identity (ExternalId.LvmLvUuid lv.(LvmLvEntry.uuid))
    (Node.mk (NodeSpec.mk (NodeKind.LvmLv (LvmLv.mk lv.(LvmLvEntry.name)
                                             (lvm_lv_kind lv.(LvmLvEntry.segment_type))))
                (Some lv.(LvmLvEntry.size))) facts).

Section lvm.
Context (endpoints : list UdevBlockEntry) (mappings : list DevmapperEntry) (topology : LvmEntry).

Abbreviation vgs := (topology.(LvmEntry.vgs)) (only parsing).
Abbreviation lvs := (topology.(LvmEntry.lvs)) (only parsing).
Abbreviation lv_id := (lv_node_id endpoints mappings) (only parsing).

Definition add_lv graph (lv : LvmLvEntry) : NodeGraph :=
  let id := lv_id lv in
  let graph := upsert_observation id (lv_node lv (Graph.node graph id)) graph in
  match vg_id vgs lv.(LvmLvEntry.vg_name) with
  | Some vg => add_dependency vg id DependencyKind.Provides graph
  | None => graph
  end.

(** [lv_ids]: the last volume of a group and a name. *)
Definition named_lv (vg_name name : string) : option NodeId :=
  lv_id <$> last (List.filter (λ lv, bool_decide (lv.(LvmLvEntry.vg_name) = vg_name) &&
                                     bool_decide (lv.(LvmLvEntry.name) = name)) lvs).

Definition add_lv_links graph (lv : LvmLvEntry) : NodeGraph :=
  match named_lv lv.(LvmLvEntry.vg_name) lv.(LvmLvEntry.name) with
  | None => graph
  | Some id =>
      let graph := match lv.(LvmLvEntry.origin) ≫= named_lv lv.(LvmLvEntry.vg_name) with
                   | Some origin => add_relation id origin RelationKind.SnapshotOf graph
                   | None => graph
                   end in
      match lv.(LvmLvEntry.pool) ≫= named_lv lv.(LvmLvEntry.vg_name) with
      | Some pool => add_dependency pool id DependencyKind.Provides graph
      | None => graph
      end
  end.

Definition lvm_graph graph : NodeGraph :=
  foldl add_lv_links (foldl add_lv (foldl (add_pv vgs) graph topology.(LvmEntry.pvs)) lvs) lvs.

Definition enrich_lvm state : ProviderState * list Diagnostic :=
  (foldl add_vg state vgs ▷ on_graph lvm_graph,
   pv_diagnostic <$> List.filter LvmPvEntry.missing topology.(LvmEntry.pvs)).
End lvm.

(** ** Btrfs *)

Definition is_btrfs (node : Node) : bool :=
  match node.(Node.kind).(NodeSpec.kind) with
  | NodeKind.Filesystem (FilesystemKind.Btrfs _) _ => true | _ => false end.

Definition block_paths (node : Node) : list PathBuf :=
  match node.(Node.size).(NodeFacts.block) with Some block => block.(BlockFacts.paths) | None => [] end.

(** [graph.nodes().find_map(..)] on the paths of block nodes *)
Definition node_with_path graph (path : Path) : option NodeId :=
  fst <$> find_first (λ e : NodeId * Node, bool_decide (components path ∈ block_paths e.2))
            (map_to_list graph.(NodeGraph.nodes)).

Definition btrfs_backing_devices graph : list PathBuf :=
  remove_dups (List.filter (λ d : Dependency,
      bool_decide (d.(Dependency.kind) = DependencyKind.Backs) &&
      is_some_and is_btrfs (Graph.node graph d.(Dependency.to))) graph.(NodeGraph.dependencies) ≫=
    λ d, match Graph.node graph d.(Dependency.from_) with Some node => block_paths node | None => [] end).

(** The file system a set of devices belongs to. *)
Definition btrfs_filesystem_id graph (filesystem : BtrfsFilesystemEntry) : NodeId :=
  let member_paths := (λ d, components d.(BtrfsDeviceEntry.path)) <$> filesystem.(BtrfsFilesystemEntry.devices) in
  match find_first (λ d : Dependency,
          bool_decide (d.(Dependency.kind) = DependencyKind.Backs) &&
          is_some_and (λ backing, existsb (λ path, bool_decide (path ∈ member_paths)) (block_paths backing))
            (Graph.node graph d.(Dependency.from_)) &&
          is_some_and is_btrfs (Graph.node graph d.(Dependency.to))) graph.(NodeGraph.dependencies) with
  | Some d => d.(Dependency.to)
  | None => content_node_id filesystem.(BtrfsFilesystemEntry.seed_device)
  end.

Definition set_label (label : option string) (node : Node) : Node :=
  match node.(Node.kind).(NodeSpec.kind) with
  | NodeKind.Filesystem kind _ => set_kind (NodeKind.Filesystem kind label) node
  | _ => node
  end.

Section btrfs.
Context `{UuidText}.

Definition add_btrfs_member (id : NodeId) graph (member : BtrfsDeviceEntry) : NodeGraph :=
  match node_with_path graph member.(BtrfsDeviceEntry.path) with
  | Some member_id =>
      add_dependency member_id id (DependencyKind.MemberOf (MemberRole.Btrfs
        (BtrfsMember.mk (non_zero member.(BtrfsDeviceEntry.id))))) graph
  | None => graph
  end.

Definition add_btrfs_filesystem graph (filesystem : BtrfsFilesystemEntry) : NodeGraph :=
  let id := btrfs_filesystem_id graph filesystem in
  let graph :=
    match Graph.node graph id with
    | None => graph
    | Some node =>
        let node := set_label filesystem.(BtrfsFilesystemEntry.label) node in
        let node := match parse_uuid filesystem.(BtrfsFilesystemEntry.uuid) with
                    | Some uuid => add_identity (ExternalId.BtrfsFsid uuid) node
                    | None => node
                    end in
        upsert_observation id node graph
    end in
  foldl (add_btrfs_member id) graph filesystem.(BtrfsFilesystemEntry.devices).

Definition enrich_btrfs_filesystems (filesystems : list BtrfsFilesystemEntry) graph : NodeGraph :=
  foldl add_btrfs_filesystem graph filesystems.

Definition mounted_filesystem (mounts : list ObservedMount) (mountpoint : Path) : option NodeId :=
  head (omap (λ m : ObservedMount,
          if bool_decide (m.(ObservedMount.target) = components mountpoint)
          then match m.(ObservedMount.source) with MountSource.Filesystem id => Some id | _ => None end
          else None) mounts).

Definition add_subvolume (filesystem : NodeId) graph (subvolume : BtrfsSubvolumeEntry) : NodeGraph :=
  let id := stable_node_id "btrfs-subvolume"
              (hyphenated filesystem +:+ ":" +:+ pretty subvolume.(BtrfsSubvolumeEntry.id)) in
  graph ▷ upsert_observation id
            (plain_node (NodeKind.BtrfsSubvolume subvolume.(BtrfsSubvolumeEntry.path)
                           subvolume.(BtrfsSubvolumeEntry.read_only)
                           subvolume.(BtrfsSubvolumeEntry.is_default)) None [])
        ▷ add_dependency filesystem id DependencyKind.Provides.

Definition add_btrfs (mounts : list ObservedMount) graph (entry : BtrfsEntry) : NodeGraph :=
  match mounted_filesystem mounts entry.(BtrfsEntry.mountpoint) with
  | None => graph
  | Some filesystem => foldl (add_subvolume filesystem) graph entry.(BtrfsEntry.subvolumes)
  end.

Definition enrich_btrfs (mounts : list ObservedMount) (entries : list BtrfsEntry) graph : NodeGraph :=
  foldl (add_btrfs mounts) graph entries.
End btrfs.

(** ** ZFS *)

Definition pool_node_id (pool : ZfsPoolEntry) : NodeId :=
  stable_node_id "zfs-pool" (match pool.(ZfsPoolEntry.guid) with
                             | Some guid => pretty guid
                             | None => pool.(ZfsPoolEntry.name)
                             end).

(** [pools]: one entry per name, the last of equal ones. *)
Definition pool_named (pools : list ZfsPoolEntry) (name : string) : option ZfsPoolEntry :=
  last (List.filter (λ pool, bool_decide (pool.(ZfsPoolEntry.name) = name)) pools).
Definition named_pools (pools : list ZfsPoolEntry) : list ZfsPoolEntry :=
  omap (pool_named pools) (remove_dups (ZfsPoolEntry.name <$> pools)).

Definition zfs_guid (guid : option N) : list ExternalId := option_list (ExternalId.ZfsGuid <$> guid).

Definition vdev_guid_id (guid : N) : NodeId := stable_node_id "zfs-vdev" (pretty guid).

Definition vdev_node_id (pool : ZfsPoolEntry) (index : nat) (vdev : ZfsVdevEntry) : NodeId :=
  match vdev.(ZfsVdevEntry.guid) with
  | Some guid => vdev_guid_id guid
  | None => stable_node_id "zfs-vdev"
              (pool.(ZfsPoolEntry.name) +:+ ":" +:+ pretty index +:+ ":" +:+
               default "unknown" vdev.(ZfsVdevEntry.path))
  end.

(** [vdev_ids.get(&guid)] *)
Definition known_vdev (pool : ZfsPoolEntry) (guid : N) : option NodeId :=
  if existsb (λ v, bool_decide (v.(ZfsVdevEntry.guid) = Some guid)) pool.(ZfsPoolEntry.vdevs)
  then Some (vdev_guid_id guid) else None.

Definition vdev_node (vdev : ZfsVdevEntry) : Node :=
  Node.mk (NodeSpec.mk (NodeKind.ZfsVdev (zfs_vdev_kind vdev.(ZfsVdevEntry.kind))) vdev.(ZfsVdevEntry.size))
    (observed_facts (if vdev.(ZfsVdevEntry.missing) then Presence.Missing else Presence.Present)
       (zfs_guid vdev.(ZfsVdevEntry.guid)) None None).

Definition add_vdev (pool : ZfsPoolEntry) graph (entry : nat * ZfsVdevEntry) : NodeGraph :=
  let '(index, vdev) := entry in
  let id := vdev_node_id pool index vdev in
  let graph := upsert_observation id (vdev_node vdev) graph in
  let graph :=
    match vdev.(ZfsVdevEntry.parent_guid) ≫= known_vdev pool with
    | Some parent => add_dependency id parent (DependencyKind.MemberOf (MemberRole.Zfs ZfsMember.Child)) graph
    | None =>
        match vdev.(ZfsVdevEntry.class) with
        | Some class => add_dependency id (pool_node_id pool)
            (DependencyKind.MemberOf (MemberRole.Zfs (ZfsMember.TopLevel class))) graph
        | None => graph
        end
    end in
  match vdev.(ZfsVdevEntry.path) ≫= node_with_path graph with
  | Some device => add_dependency device id (DependencyKind.MemberOf (MemberRole.Zfs ZfsMember.Child)) graph
  | None => graph
  end.

Definition vdev_diagnostic (pool : ZfsPoolEntry) (entry : nat * ZfsVdevEntry) : Diagnostic :=
  let '(index, vdev) := entry in
  let faulted := vdev.(ZfsVdevEntry.faulted) in
  let name := match vdev.(ZfsVdevEntry.guid) with
              | Some guid => pretty guid
              | None => default "<unknown>" vdev.(ZfsVdevEntry.path)
              end in
  diagnostic (if faulted then "zfs.vdev_faulted" else "zfs.vdev_degraded") DiagnosticSeverity.Warning
    [DiagnosticSubject.Node (vdev_node_id pool index vdev)]
    ("ZFS vdev " +:+ name +:+ " is " +:+ (if faulted then "faulted" else "degraded"))
    vdev.(ZfsVdevEntry.path) (Some "inspect pool status and replace or restore the affected vdev").

Definition is_unhealthy (entry : nat * ZfsVdevEntry) : bool :=
  entry.2.(ZfsVdevEntry.faulted) || entry.2.(ZfsVdevEntry.degraded).

Definition add_pool graph (pool : ZfsPoolEntry) : NodeGraph :=
  foldl (add_vdev pool)
    (upsert_observation (pool_node_id pool)
       (plain_node (NodeKind.ZfsPool pool.(ZfsPoolEntry.name)) None (zfs_guid pool.(ZfsPoolEntry.guid))) graph)
    (enumerate pool.(ZfsPoolEntry.vdevs)).

Definition dataset_kind (dataset : ZfsDatasetEntry) : NodeKind :=
  match dataset.(ZfsDatasetEntry.kind) with
  | ZfsDatasetKind.Filesystem => NodeKind.ZfsDataset dataset.(ZfsDatasetEntry.name)
  | ZfsDatasetKind.Volume => NodeKind.ZfsVolume dataset.(ZfsDatasetEntry.name)
  end.

Definition add_dataset (pools : list ZfsPoolEntry) graph (dataset : ZfsDatasetEntry) : NodeGraph :=
  let id := stable_node_id "zfs-dataset" dataset.(ZfsDatasetEntry.name) in
  let graph := upsert_observation id
    (plain_node (dataset_kind dataset) dataset.(ZfsDatasetEntry.volume_size) []) graph in
  match head (split_text 47 dataset.(ZfsDatasetEntry.name)) ≫= pool_named pools with
  | Some pool => add_dependency (pool_node_id pool) id DependencyKind.Provides graph
  | None => graph
  end.

Definition enrich_zfs (topology : ZfsEntry) graph : NodeGraph * list Diagnostic :=
  let pools := topology.(ZfsEntry.pools) in
  (foldl (add_dataset pools) (foldl add_pool graph (named_pools pools)) topology.(ZfsEntry.datasets),
   named_pools pools ≫= λ pool,
     vdev_diagnostic pool <$> List.filter is_unhealthy (enumerate pool.(ZfsPoolEntry.vdevs))).

(** ** NVMe *)

Definition subsystem_node_id (subsystem : NvmeSubsystemEntry) : NodeId :=
  stable_node_id "nvme-subsystem" subsystem.(NvmeSubsystemEntry.nqn).
Definition controller_node_id (controller : NvmeControllerEntry) : NodeId :=
  stable_node_id "nvme-controller" controller.(NvmeControllerEntry.name).

Definition controller_node (controller : NvmeControllerEntry) : Node :=
  Node.mk (NodeSpec.mk NodeKind.NvmeController None)
    (observed_facts Presence.Present
       (option_list (ExternalId.Serial None <$> controller.(NvmeControllerEntry.serial))) None
       (Some (DeviceInfo.mk controller.(NvmeControllerEntry.model) None
                (nvme_transport <$> controller.(NvmeControllerEntry.transport)) None (Some false) None None))).

Definition add_controller (subsystem : NodeId) graph (controller : NvmeControllerEntry) : NodeGraph :=
  graph ▷ upsert_observation (controller_node_id controller) (controller_node controller)
        ▷ add_relation (controller_node_id controller) subsystem RelationKind.NvmeAttachedTo.

Definition set_device (device : option DeviceInfo) (node : Node) : Node :=
  let facts := node.(Node.size) in
  Node.mk node.(Node.kind)
    (NodeFacts.mk facts.(NodeFacts.lvm_active) facts.(NodeFacts.observed_in) facts.(NodeFacts.presence)
       facts.(NodeFacts.identities) facts.(NodeFacts.block) device).

Definition with_transport (transport : option Transport) (device : DeviceInfo) : DeviceInfo :=
  DeviceInfo.mk device.(DeviceInfo.model) device.(DeviceInfo.vendor) transport
    device.(DeviceInfo.network_backing) device.(DeviceInfo.rotational) device.(DeviceInfo.removable)
    device.(DeviceInfo.zoned).

Definition add_namespace (subsystem : NodeId) (transport : option Transport) graph
    (namespace : NvmeNamespaceEntry) : NodeGraph :=
  match non_zero namespace.(NvmeNamespaceEntry.nsid), non_zero namespace.(NvmeNamespaceEntry.lba_size) with
  | Some nsid, Some data_size =>
      let id := block_node_id (path_join "/dev" namespace.(NvmeNamespaceEntry.name)) in
      let node := default (plain_node (NodeKind.Unknown "nvme namespace") None []) (Graph.node graph id) in
      let node := node
        ▷ set_kind (NodeKind.NvmeNamespace
            (NvmeNamespace.mk nsid (NvmeLbaFormat.mk data_size namespace.(NvmeNamespaceEntry.metadata_size))))
        ▷ set_size (Some (u64_saturating_mul namespace.(NvmeNamespaceEntry.lba_count)
                            namespace.(NvmeNamespaceEntry.lba_size)))
        ▷ set_device (with_transport transport <$> node.(Node.size).(NodeFacts.device)) in
      let node := foldl (λ node identity, add_identity identity node) node (nvme_identities namespace) in
      graph ▷ upsert_observation id node ▷ add_dependency subsystem id DependencyKind.Provides
  | _, _ => graph
  end.

Definition add_subsystem graph (subsystem : NvmeSubsystemEntry) : NodeGraph :=
  let id := subsystem_node_id subsystem in
  let transport := nvme_transport <$>
    head (omap NvmeControllerEntry.transport subsystem.(NvmeSubsystemEntry.controllers)) in
  let graph := upsert_observation id
    (plain_node (NodeKind.NvmeSubsystem subsystem.(NvmeSubsystemEntry.nqn)) None []) graph in
  foldl (add_namespace id transport)
    (foldl (add_controller id) graph subsystem.(NvmeSubsystemEntry.controllers))
    subsystem.(NvmeSubsystemEntry.namespaces).

Definition enrich_nvme (topology : NvmeEntry) graph : NodeGraph :=
  foldl add_subsystem graph topology.(NvmeEntry.subsystems).

(** ** Mounts *)

Definition mount_filesystem_source (source : string) graph : NodeId :=
  let direct := content_node_id source in
  if bool_decide (is_Some (Graph.node graph direct)) then direct
  else match node_with_path graph source with
       | None => direct
       | Some block =>
           match find_first (λ d : Dependency, (d.(Dependency.from_) =? block)%N &&
                     bool_decide (d.(Dependency.kind) = DependencyKind.Backs)) graph.(NodeGraph.dependencies) with
           | Some d => d.(Dependency.to)
           | None => direct
           end
       end.

Definition observed_mount (entry : LibmountEntry) (graph : option NodeGraph) : ObservedMount :=
  let source := entry.(LibmountEntry.source) in
  ObservedMount.mk
    (if text_starts_with "/dev/" source
     then MountSource.Filesystem (match graph with
                                  | None => content_node_id source
                                  | Some graph => mount_filesystem_source source graph
                                  end)
     else external_mount_source source entry.(LibmountEntry.filesystem_type))
    (components entry.(LibmountEntry.target)) entry.(LibmountEntry.options) MountContext.Host.

Definition unresolved_source (entry : LibmountEntry) : Diagnostic :=
  diagnostic "mount.unresolved_source" DiagnosticSeverity.Error [DiagnosticSubject.Environment]
    "native mount source is absent from the observed storage graph"
    (Some ("source=" +:+ entry.(LibmountEntry.source) +:+ "; target=" +:+ entry.(LibmountEntry.target)))
    (Some "inspect device visibility and filesystem probe diagnostics in this namespace").

Definition is_unresolved graph (entry : LibmountEntry) : bool :=
  match (observed_mount entry (Some graph)).(ObservedMount.source) with
  | MountSource.Filesystem id => bool_decide (Graph.node graph id = None)
  | _ => false
  end.

(** An unresolved source stays visible as text. *)
Definition system_mount graph (entry : LibmountEntry) : ObservedMount :=
  let mount := observed_mount entry (Some graph) in
  if is_unresolved graph entry
  then ObservedMount.mk (MountSource.Other entry.(LibmountEntry.source)) mount.(ObservedMount.target)
         mount.(ObservedMount.options) mount.(ObservedMount.context)
  else mount.

Definition collect_system_mounts (entries : list LibmountEntry) state : ProviderState :=
  let graph := state.(ProviderState.graph) in
  state ▷ add_diagnostics (unresolved_source <$> List.filter (is_unresolved graph) entries)
        ▷ with_mounts (system_mount graph <$> entries).

(** * Native providers: the adapters of [storage-probe/src/linux.rs]

    One pass over the library backends, layer by layer: block devices, mapper,
    runtime devices, local storage, system.  The answers of the backends in the
    pass are the operations of [NativeBackends]; a failed enrichment leaves a
    diagnostic and nothing else. *)

#[local] Open Scope string_scope.
#[local] Open Scope list_scope.

(** [storage-probe/src/assemble.rs] *)
Module ProviderProbeError.
Record ProviderProbeError := mk { code : string; message : string }.
End ProviderProbeError.
Abbreviation ProviderProbeError := ProviderProbeError.ProviderProbeError.

Abbreviation probing A := (result A ProviderProbeError) (only parsing).
(** [NativeProbeError]'s [Display] stands for the error. *)
Abbreviation native A := (result A string) (only parsing).

Class NativeBackends := {
  probe_udev_blocks : native (list UdevBlockEntry);
  probe_fdisk_partitions : list Path → native (list FdiskTable);
  probe_blkid_signatures : native (list BlkidEntry);
  probe_cryptsetup : Path → native (list CryptsetupEntry);
  probe_devmapper : native (list DevmapperEntry);
  probe_loop : list Path → native (list LoopEntry);
  probe_swap : list Path → native (list SwapEntry);
  probe_multipath : native MultipathEntry;
  probe_mdraid : list Path → list Path → native MdraidEntry;
  probe_lvm : native LvmEntry;
  probe_btrfs_filesystems : list PathBuf → native (list BtrfsFilesystemEntry);
  probe_libmount : native (list LibmountEntry);
  probe_btrfs : list Path → native (list BtrfsEntry);
  probe_zfs : native ZfsEntry;
  probe_nvme : native NvmeEntry }.

(** Debug and error texts. *)
Class ProbeText := {
  debug_path : Path → string;
  debug_node : NodeId → string;
  luks_error_text : LuksValidationError → string }.

Section providers.
Context `{UuidText, NativeBackends, ProbeText}.

(** [match backend.probe() { Ok(entries) => entries, Err(error) => .. }] *)
Definition or_failure {A} (provider : string) (fallback : A) (answer : native A) (state : ProviderState)
    : ProviderState * A :=
  match answer with
  | Ok a => (state, a)
  | Err error => (push_native_failure provider error state, fallback)
  end.

(** The devices with a signature. *)
Definition devices_with (signature : string) (signatures : list BlkidEntry) : list Path :=
  BlkidEntry.device <$>
  List.filter (λ e, bool_decide (e.(BlkidEntry.signature_type) = Some signature)) signatures.
Definition endpoints_named (prefix : string) (endpoints : list UdevBlockEntry) : list Path :=
  UdevBlockEntry.devnode <$>
  List.filter (λ e, text_starts_with prefix e.(UdevBlockEntry.sysname)) endpoints.

(** A [HashSet] of paths, compared by components. *)
Fixpoint distinct_paths (paths : list Path) : list Path :=
  match paths with
  | [] => []
  | path :: paths => path :: List.filter (λ other, negb (same_path path other)) (distinct_paths paths)
  end.

(** [NativeBlockProvider::probe_with_observations] *)
Definition probe_block : probing (ProviderState * list UdevBlockEntry * list BlkidEntry) :=
  let? endpoints := map_err (ProviderProbeError.mk "udev.probe_failed") probe_udev_blocks in
  let disks := UdevBlockEntry.devnode <$>
    List.filter (λ e, bool_decide (e.(UdevBlockEntry.devtype) = Some "disk")) endpoints in
  let? tables := map_err (ProviderProbeError.mk "fdisk.probe_failed") (probe_fdisk_partitions disks) in
  let? signatures := map_err (ProviderProbeError.mk "blkid.probe_failed") probe_blkid_signatures in
  Ok (assemble_native_block_state endpoints tables signatures, endpoints, signatures).

Abbreviation NativeObservations :=
  (ProviderState * list UdevBlockEntry * list BlkidEntry * list DevmapperEntry)%type (only parsing).

(** [NativeMapperProvider::probe_with_observations] *)
Definition probe_mapper : probing NativeObservations :=
  let? (state, endpoints, signatures) := probe_block in
  let report := luks_probe probe_cryptsetup (devices_with "crypto_LUKS" signatures) in
  let state := foldl (λ state failure,
      push_native_failure "cryptsetup" (debug_path failure.1 +:+ ": " +:+ luks_error_text failure.2) state)
    state report.(failures) in
  let '(state, mappings) := or_failure "devmapper" [] probe_devmapper state in
  let state := state ▷ enrich_luks report.(observations)
                     ▷ on_graph (enrich_devmapper endpoints mappings) in
  Ok (state, endpoints, signatures, mappings).

(** [NativeRuntimeProvider::probe_with_observations] *)
Definition probe_runtime : probing NativeObservations :=
  let? (state, endpoints, signatures, mappings) := probe_mapper in
  let '(state, loops) := or_failure "loop" [] (probe_loop (endpoints_named "loop" endpoints)) state in
  let '(state, swaps) := or_failure "swap" [] (probe_swap (devices_with "swap" signatures)) state in
  let '(state, multipath) := or_failure "multipath" (MultipathEntry.mk []) probe_multipath state in
  let state := state ▷ on_graph (enrich_loop loops) ▷ enrich_swap swaps
                     ▷ enrich_multipath mappings multipath in
  Ok (state, endpoints, signatures, mappings).

(** [NativeLocalProvider::probe] *)
Definition probe_local : probing ProviderState :=
  let? (state, endpoints, signatures, mappings) := probe_runtime in
  let '(state, mdraid) := or_failure "mdraid" (MdraidEntry.mk [] [])
    (probe_mdraid (endpoints_named "md" endpoints) (devices_with "linux_raid_member" signatures)) state in
  let '(state, lvm) := or_failure "lvm" (LvmEntry.mk [] [] []) probe_lvm state in
  let '(graph, diagnostics) := enrich_mdraid mdraid state.(ProviderState.graph) in
  let state := state ▷ with_graph graph ▷ add_diagnostics diagnostics in
  let '(state, diagnostics) := enrich_lvm endpoints mappings lvm state in
  Ok (add_diagnostics diagnostics state).

(** [NativeSystemProvider::probe] *)
Definition probe_system : probing ProviderState :=
  let? state := probe_local in
  let '(state, filesystems) := or_failure "btrfs-topology" []
    (probe_btrfs_filesystems (btrfs_backing_devices state.(ProviderState.graph))) state in
  let '(state, mount_entries) := or_failure "libmount" [] probe_libmount state in
  let mountpoints := distinct_paths (LibmountEntry.target <$>
    List.filter (λ e, bool_decide (e.(LibmountEntry.filesystem_type) = "btrfs")) mount_entries) in
  let '(state, btrfs) := or_failure "btrfs" [] (probe_btrfs mountpoints) state in
  let '(state, zfs) := or_failure "zfs" (ZfsEntry.mk [] []) probe_zfs state in
  let '(state, nvme) := or_failure "nvme" (NvmeEntry.mk []) probe_nvme state in
  let state := state ▷ on_graph (enrich_btrfs_filesystems filesystems)
                     ▷ collect_system_mounts mount_entries in
  let state := on_graph (enrich_btrfs state.(ProviderState.mounts) btrfs) state in
  let '(graph, diagnostics) := enrich_zfs zfs state.(ProviderState.graph) in
  Ok (state ▷ with_graph graph ▷ add_diagnostics diagnostics ▷ on_graph (enrich_nvme nvme)).

(** [LibmountProvider::probe] *)
Definition probe_mounts : probing ProviderState :=
  let? entries := map_err (ProviderProbeError.mk "libmount.probe_failed") probe_libmount in
  Ok (with_mounts ((λ entry, observed_mount entry None) <$> entries) ProviderState.default).
End providers.
