(* ===== verification/Lsblk.v ===== *)
(** * Recorded command output: [storage-probe/src/parse] and the fixture adapter
      of [linux.rs]

    The state assembled from the output of [lsblk], a dump of sysfs and
    [findmnt].  Decoding of the JSON fields with a rule of their own is modelled;
    the rest is derived. *)

From stdpp Require Import pretty.
From S2P Require Import Prelude Model Reach Graph State Observe Json Correlate Recipes Native ProbeNames.
From S2P Require Import ProbeBlock.

#[local] Open Scope string_scope.
#[local] Open Scope list_scope.

(** ** Records *)

Module LsblkDevice.
Inductive LsblkDevice := mk {
  name : string;
  path : option string;
  maj_min : option string;
  size : N;
  type : string;
  mountpoint : option string;
  mountpoints : option (list (option string));
  uuid : option string;
  partuuid : option string;
  fstype : option string;
  parttype : option string;
  label : option string;
  pttype : option string;
  start : option N;
  ro : option string;
  log_sectorsize : option string;
  phys_sectorsize : option string;
  wwn : option string;
  children : list LsblkDevice }.
End LsblkDevice.
Abbreviation LsblkDevice := LsblkDevice.LsblkDevice.

Module SysfsDevice.
Record SysfsDevice := mk {
  name : string;
  path : string;
  major : N;
  minor : N;
  size_bytes : N;
  logical_block_size : N;
  physical_block_size : N;
  model : option string;
  serial : option string;
  wwn : option string;
  rotational : bool;
  removable : bool;
  read_only : bool }.
End SysfsDevice.
Abbreviation SysfsDevice := SysfsDevice.SysfsDevice.

Module FilesystemEntry.
Record FilesystemEntry := mk {
  target : string;
  source : string;
  fstype : string;
  options : option string;
  uuid : option string }.
End FilesystemEntry.
Abbreviation FilesystemEntry := FilesystemEntry.FilesystemEntry.

(** ** Fields with a rule of their own ([parse/lsblk.rs])

    [trim] is the standard library's; a number is [as_u64]. *)
Section fields.
Variable trim : string → string.

Definition parse_u64 : string → option N := parse_unsigned (2 ^ 64).

Definition value_u64 (n : N) : option N := if (n <? 2 ^ 64)%N then Some n else None.

(** [deserialize_size_bytes] *)
Definition deserialize_size_bytes (value : Value) : option N :=
  match value with
  | Value.Number n => value_u64 n
  | Value.String s => parse_u64 (trim s)
  | _ => None
  end.

(** [deserialize_u64_lenient]: absence and the empty text are no value. *)
Definition deserialize_u64_lenient (value : Value) : option (option N) :=
  match value with
  | Value.Null => Some None
  | Value.Number n => Some <$> value_u64 n
  | Value.String "" => Some None
  | Value.String s => Some <$> parse_u64 (trim s)
  | _ => None
  end.
End fields.

(** ** Assembly *)

Definition nonempty (value : option string) : option string :=
  match value with Some "" => None | value => value end.

Definition device_path (device : LsblkDevice) : Path :=
  default ("/dev/" +:+ device.(LsblkDevice.name)) device.(LsblkDevice.path).

Definition or_else {A} (a b : option A) : option A := match a with Some _ => a | None => b end.

Definition block_identity (device : LsblkDevice) (sysfs : option SysfsDevice) : string :=
  default device.(LsblkDevice.name)
    (or_else (nonempty device.(LsblkDevice.wwn))
       (or_else (sysfs ≫= SysfsDevice.serial) (nonempty device.(LsblkDevice.partuuid)))).

Section assemble.
Context `{UuidText}.

Definition block_facts (device : LsblkDevice) (sysfs : option SysfsDevice) (path : Path)
    (logical_size : N) : NodeFacts :=
  let '(major, minor) := default (0, 0)%N
    (or_else ((λ f, (f.(SysfsDevice.major), f.(SysfsDevice.minor))) <$> sysfs)
       (parse_devno device.(LsblkDevice.maj_min))) in
  let physical_size := or_else (parsed_u32 device.(LsblkDevice.phys_sectorsize))
                         (SysfsDevice.physical_block_size <$> sysfs) ≫= non_zero in
  let identities :=
    option_list (ExternalId.Wwn <$> nonempty device.(LsblkDevice.wwn)) ++
    option_list (ExternalId.Serial None <$> (sysfs ≫= SysfsDevice.serial)) ++
    option_list (ExternalId.GptPartitionUuid <$> (device.(LsblkDevice.partuuid) ≫= parse_uuid)) in
  let read_only := or_else (match device.(LsblkDevice.ro) with
                            | Some "0" => Some false
                            | Some "1" => Some true
                            | _ => None
                            end) (SysfsDevice.read_only <$> sysfs) in
  observed_facts Presence.Present identities
    (Some (BlockFacts.mk [components path] (DeviceNumber.mk major minor)
             ((λ logical, BlockGeometry.mk logical physical_size None None None) <$> non_zero logical_size)
             read_only))
    (if bool_decide (device.(LsblkDevice.type) = "disk") then
       Some (DeviceInfo.mk (sysfs ≫= SysfsDevice.model) None (transport device.(LsblkDevice.name)) None
               (SysfsDevice.rotational <$> sysfs) (SysfsDevice.removable <$> sysfs) None)
     else None).

(** The graph and the mountable contents by device path. *)
Abbreviation Accumulated := (NodeGraph * list (string * MountSource))%type (only parsing).

Definition content_kind (device : LsblkDevice) (fstype : string) : NodeKind * bool :=
  match fstype with
  | "swap" => (NodeKind.Swap, false)
  | "LVM2_member" => (NodeKind.LvmPv, false)
  | "crypto_LUKS" | "linux_raid_member" => (NodeKind.Unknown ("signature:" +:+ fstype), false)
  | _ => (NodeKind.Filesystem (filesystem_kind fstype) (nonempty device.(LsblkDevice.label)), true)
  end.

Definition add_content (device : LsblkDevice) (block_id : NodeId) (path : Path) (acc : Accumulated)
    : Accumulated :=
  let '(graph, mount_sources) := acc in
  match nonempty device.(LsblkDevice.fstype) with
  | None => acc
  | Some fstype =>
      let '(kind, mountable) := content_kind device fstype in
      let content_id := content_node_id path in
      let identities := option_list (ExternalId.Filesystem fstype <$> nonempty device.(LsblkDevice.uuid)) in
      (graph ▷ upsert_observation content_id
                 (plain_node kind (Some device.(LsblkDevice.size)) identities)
             ▷ add_dependency block_id content_id DependencyKind.Backs,
       if mountable then (path, MountSource.Filesystem content_id) :: mount_sources else mount_sources)
  end.

Definition block_kind (device : LsblkDevice) (offset : Bytes) : NodeKind :=
  match device.(LsblkDevice.type) with
  | "disk" => NodeKind.Disk
  | "part" => match non_zero (partition_number device.(LsblkDevice.name)) with
              | Some number => NodeKind.Partition number offset None (PartitionAttributes.mk None None)
              | None => NodeKind.Unknown "partition without a number"
              end
  | "crypt" => NodeKind.DmCryptMapping device.(LsblkDevice.name)
  | other => NodeKind.Unknown ("lsblk:" +:+ other)
  end.

Definition is_part (device : LsblkDevice) : bool := bool_decide (device.(LsblkDevice.type) = "part").

(** The table of a disk, which its partitions hang below. *)
Definition add_table_of (device : LsblkDevice) (node_id : NodeId) (path : Path) (graph : NodeGraph)
    : NodeGraph * NodeId :=
  if bool_decide (device.(LsblkDevice.type) = "disk") &&
     (bool_decide (is_Some device.(LsblkDevice.pttype)) || existsb is_part device.(LsblkDevice.children))
  then
    let table_id := stable_node_id "partition-table" path in
    let table := match device.(LsblkDevice.pttype) with
                 | Some "dos" | Some "mbr" => PartitionTable.Mbr
                 | _ => PartitionTable.Gpt
                 end in
    (graph ▷ upsert_observation table_id (plain_node (NodeKind.PartitionTable table) None [])
           ▷ add_dependency node_id table_id DependencyKind.Backs, table_id)
  else (graph, node_id).

Definition sysfs_of (sysfs : list SysfsDevice) (device : LsblkDevice) : option SysfsDevice :=
  find_first (λ f, bool_decide (f.(SysfsDevice.name) = device.(LsblkDevice.name))) sysfs.

Definition sector_size_of (device : LsblkDevice) (sysfs : option SysfsDevice) (parent : N) : N :=
  match or_else (parsed_u32 device.(LsblkDevice.log_sectorsize)) (SysfsDevice.logical_block_size <$> sysfs) with
  | Some size => if (0 <? size)%N then size else parent
  | None => parent
  end.

(** The device itself; the result is the parent of its children. *)
Definition add_device (device : LsblkDevice) (parent : option NodeId) (parent_sector_size : N)
    (sysfs : list SysfsDevice) (acc : Accumulated) : Accumulated * NodeId :=
  let '(graph, mount_sources) := acc in
  let path := device_path device in
  let facts := sysfs_of sysfs device in
  let node_id := stable_node_id "block" (block_identity device facts) in
  let offset := u64_saturating_mul (default 0%N device.(LsblkDevice.start)) parent_sector_size in
  let graph := upsert_observation node_id
    (Node.mk (NodeSpec.mk (block_kind device offset) (Some device.(LsblkDevice.size)))
       (block_facts device facts path (sector_size_of device facts parent_sector_size))) graph in
  let graph := match parent with
               | Some parent => add_dependency parent node_id
                   (if is_part device then DependencyKind.Contains offset else DependencyKind.Backs) graph
               | None => graph
               end in
  let '(graph, children_parent) := add_table_of device node_id path graph in
  (add_content device node_id path (graph, mount_sources), children_parent).

Fixpoint add_block_device (device : LsblkDevice) (parent : option NodeId) (parent_sector_size : N)
    (sysfs : list SysfsDevice) (acc : Accumulated) {struct device} : Accumulated :=
  let '(acc, children_parent) := add_device device parent parent_sector_size sysfs acc in
  let sector_size := sector_size_of device (sysfs_of sysfs device) parent_sector_size in
  match device with
  | LsblkDevice.mk _ _ _ _ _ _ _ _ _ _ _ _ _ _ _ _ _ _ children =>
      foldl (λ acc child, add_block_device child (Some children_parent) sector_size sysfs acc) acc children
  end.

Definition recorded_mount (mount_sources : list (string * MountSource)) (entry : FilesystemEntry)
    : ObservedMount :=
  ObservedMount.mk
    (match find_first (λ e : string * MountSource, bool_decide (e.1 = entry.(FilesystemEntry.source)))
             mount_sources with
     | Some (_, source) => source
     | None => external_mount_source entry.(FilesystemEntry.source) entry.(FilesystemEntry.fstype)
     end)
    (components entry.(FilesystemEntry.target))
    (match entry.(FilesystemEntry.options) with Some options => split_text 44 options | None => [] end)
    MountContext.Host.

Definition assemble_linux_block_state (blockdevices : list LsblkDevice)
    (sysfs : option (list SysfsDevice)) (mounts : option (list FilesystemEntry)) : ProviderState :=
  let '(graph, mount_sources) :=
    foldl (λ acc device, add_block_device device None 512 (default [] sysfs) acc)
      (NodeGraph.mk ∅ [] [], []) blockdevices in
  ProviderState.default ▷ with_graph graph
    ▷ with_mounts (recorded_mount mount_sources <$> default [] mounts).
End assemble.
