(* ===== verification/ProbeProps.v ===== *)
(** * The observed graph is joined

    Every edge and relation a probe publishes joins two published nodes: the
    part of [structure_wf] that concerns endpoints.  The adapters insert nodes
    and edges into one growing graph, so each step is shown to [grow] it. *)

From stdpp Require Import pretty.
From S2P Require Import Prelude Model Reach Graph GraphOrder GraphValid State.
From S2P Require Import Observe Json Correlate Recipes Native ProbeNames.
From S2P Require Import ProbeBlock Lsblk ProbeTopology.

#[local] Open Scope list_scope.

Implicit Types (g : NodeGraph) (id : NodeId) (S : NodeId → Prop).

(** Both endpoints of every edge and relation are nodes, or pending in [S]. *)
Definition linked S g : Prop :=
  (∀ d, d ∈ g.(NodeGraph.dependencies) →
     (has_node g d.(Dependency.from_) ∨ S d.(Dependency.from_)) ∧
     (has_node g d.(Dependency.to) ∨ S d.(Dependency.to))) ∧
  (∀ r, r ∈ g.(NodeGraph.relations) →
     (has_node g r.(Relation.from_) ∨ S r.(Relation.from_)) ∧
     (has_node g r.(Relation.to) ∨ S r.(Relation.to))).

Definition joined g : Prop := linked (λ _, False) g.

(** A step that forgets no node and leaves no new loose end. *)
Record grow S g g' : Prop := {
  grow_nodes id : has_node g id → has_node g' id;
  grow_dependencies d : d ∈ g'.(NodeGraph.dependencies) → d ∈ g.(NodeGraph.dependencies) ∨
    (has_node g' d.(Dependency.from_) ∨ S d.(Dependency.from_)) ∧
    (has_node g' d.(Dependency.to) ∨ S d.(Dependency.to));
  grow_relations r : r ∈ g'.(NodeGraph.relations) → r ∈ g.(NodeGraph.relations) ∨
    (has_node g' r.(Relation.from_) ∨ S r.(Relation.from_)) ∧
    (has_node g' r.(Relation.to) ∨ S r.(Relation.to)) }.

#[global] Instance grow_preorder S : PreOrder (grow S).
Proof.
  split; [split; auto|]. intros g1 g2 g3 [Hn1 Hd1 Hr1] [Hn2 Hd2 Hr2]. split; [auto|..].
  - intros d [[?|[[?|?] [?|?]]]%Hd1|?]%Hd2; auto 6.
  - intros r [[?|[[?|?] [?|?]]]%Hr1|?]%Hr2; auto 6.
Qed.

Lemma grow_linked S g g' : grow S g g' → linked S g → linked S g'.
Proof.
  intros [Hn Hd Hr] [Ld Lr]. split.
  - intros d [[[?|?] [?|?]]%Ld|?]%Hd; auto.
  - intros r [[[?|?] [?|?]]%Lr|?]%Hr; auto.
Qed.

Create HintDb probe.

Lemma joined_dependency g d : joined g → d ∈ g.(NodeGraph.dependencies) →
  has_node g d.(Dependency.from_) ∧ has_node g d.(Dependency.to).
Proof. intros [Hd _] Hin. destruct (Hd d Hin) as [[?|[]] [?|[]]]. done. Qed.

Lemma joined_relation g r : joined g → r ∈ g.(NodeGraph.relations) →
  has_node g r.(Relation.from_) ∧ has_node g r.(Relation.to).
Proof. intros [_ Hr] Hin. destruct (Hr r Hin) as [[?|[]] [?|[]]]. done. Qed.

Lemma joined_closed g : joined g → closed g.
Proof. intros Hj x y (d & [= -> ->] & Hd)%list_elem_of_fmap. by apply joined_dependency. Qed.

Lemma structure_wf_joined g : structure_wf g → joined g.
Proof.
  intros Hwf. split.
  - intros d Hd. destruct (wf_ends _ _ (wf_edges _ Hwf) d Hd). auto.
  - intros r Hr. destruct (wf_relations _ Hwf r Hr). auto.
Qed.

Lemma joined_empty : joined (NodeGraph.mk ∅ [] []).
Proof. split; by intros ? ?%elem_of_nil. Qed.

(** Pending endpoints that arrived are no longer pending. *)
Lemma grow_arrived S g g' : grow S g g' → (∀ id, S id → has_node g' id) → grow (λ _, False) g g'.
Proof.
  intros [Hn Hd Hr] HS. split; [done|..].
  - intros d [?|[[?|?] [?|?]]]%Hd; auto 6.
  - intros r [?|[[?|?] [?|?]]]%Hr; auto 6.
Qed.

Lemma grow_joined g g' : grow (λ _, False) g g' → joined g → joined g'.
Proof. apply grow_linked. Qed.

(** ** Single steps *)

Lemma upsert_observation_eq id n g :
  upsert_observation id n g =
  NodeGraph.mk (<[id:=n]> g.(NodeGraph.nodes)) g.(NodeGraph.dependencies) g.(NodeGraph.relations).
Proof.
  unfold upsert_observation, replace_existing, insert_new, node.
  case_bool_decide as Hid.
  - by destruct Hid as [? ->].
  - by apply eq_None_not_Some in Hid as ->.
Qed.

Lemma has_node_upsert id n g id' :
  has_node (upsert_observation id n g) id' ↔ id = id' ∨ has_node g id'.
Proof. rewrite upsert_observation_eq. apply lookup_insert_is_Some'. Qed.

Lemma grow_upsert S id n g : grow S g (upsert_observation id n g).
Proof.
  split; [intros id' ?; apply has_node_upsert; auto|..]; rewrite upsert_observation_eq; simpl; auto.
Qed.

Lemma add_dependency_nodes from to kind g :
  (add_dependency from to kind g).(NodeGraph.nodes) = g.(NodeGraph.nodes).
Proof. unfold add_dependency, insert_dependency. by destruct (set_insert _ _). Qed.
Lemma add_dependency_relations from to kind g :
  (add_dependency from to kind g).(NodeGraph.relations) = g.(NodeGraph.relations).
Proof. unfold add_dependency, insert_dependency. by destruct (set_insert _ _). Qed.
Lemma add_dependency_elem from to kind g d :
  d ∈ (add_dependency from to kind g).(NodeGraph.dependencies) ↔
  d = Dependency.mk from to kind ∨ d ∈ g.(NodeGraph.dependencies).
Proof.
  unfold add_dependency, insert_dependency.
  destruct (set_insert_cases (Dependency.mk from to kind) g.(NodeGraph.dependencies)) as [[_ ->]|[? ->]];
    simpl; [set_solver|]. naive_solver.
Qed.

Lemma add_relation_nodes from to kind g :
  (add_relation from to kind g).(NodeGraph.nodes) = g.(NodeGraph.nodes).
Proof. unfold add_relation, insert_relation. by destruct (set_insert _ _). Qed.
Lemma add_relation_dependencies from to kind g :
  (add_relation from to kind g).(NodeGraph.dependencies) = g.(NodeGraph.dependencies).
Proof. unfold add_relation, insert_relation. by destruct (set_insert _ _). Qed.
Lemma add_relation_elem from to kind g r :
  r ∈ (add_relation from to kind g).(NodeGraph.relations) ↔
  r = Relation.mk from to kind ∨ r ∈ g.(NodeGraph.relations).
Proof.
  unfold add_relation, insert_relation.
  destruct (set_insert_cases (Relation.mk from to kind) g.(NodeGraph.relations)) as [[_ ->]|[? ->]];
    simpl; [set_solver|]. naive_solver.
Qed.

Lemma has_node_dependency from to kind g id :
  has_node (add_dependency from to kind g) id ↔ has_node g id.
Proof. unfold has_node. by rewrite add_dependency_nodes. Qed.
Lemma has_node_relation from to kind g id :
  has_node (add_relation from to kind g) id ↔ has_node g id.
Proof. unfold has_node. by rewrite add_relation_nodes. Qed.

Lemma grow_dependency S from to kind g :
  has_node g from ∨ S from → has_node g to ∨ S to → grow S g (add_dependency from to kind g).
Proof.
  intros Hf Ht. split; [intros id; by rewrite has_node_dependency|..].
  - intros d Hin. rewrite !has_node_dependency. apply add_dependency_elem in Hin as [->|?]; auto.
  - intros r. rewrite add_dependency_relations. auto.
Qed.

Lemma grow_relation S from to kind g :
  has_node g from ∨ S from → has_node g to ∨ S to → grow S g (add_relation from to kind g).
Proof.
  intros Hf Ht. split; [intros id; by rewrite has_node_relation|..].
  - intros d. rewrite add_relation_dependencies. auto.
  - intros r Hin. rewrite !has_node_relation. apply add_relation_elem in Hin as [->|?]; auto.
Qed.

#[export] Hint Resolve grow_upsert grow_dependency grow_relation : probe.
#[export] Hint Extern 1 (grow _ ?g ?g) => reflexivity : probe.

(** An edge above a node just inserted. *)
Lemma grow_insert_above S g from id n kind : has_node g from ∨ S from →
  grow S g (add_dependency from id kind (upsert_observation id n g)).
Proof.
  intros Hf. etrans; [apply grow_upsert|]. apply grow_dependency; rewrite has_node_upsert; tauto.
Qed.
#[export] Hint Resolve grow_insert_above : probe.

Lemma has_node_grow S g g' id : grow S g g' → has_node g id → has_node g' id.
Proof. intros []. auto. Qed.

Lemma grow_fold {A} S (f : NodeGraph → A → NodeGraph) l g :
  (∀ g' x, x ∈ l → grow S g g' → grow S g' (f g' x)) → grow S g (foldl f g l).
Proof.
  revert g. induction l as [|x l IH]; intros g Hf; [reflexivity|]. simpl.
  assert (grow S g (f g x)) as Hx by (apply Hf; [left|reflexivity]).
  etrans; [exact Hx|]. apply IH. intros g' y Hy Hg. apply Hf; [by right|by etrans].
Qed.

(** What a fold inserts is there at its end. *)
Lemma fold_inserts {A} S (f : NodeGraph → A → NodeGraph) (key : A → NodeId) l g :
  (∀ g' x, x ∈ l → grow S g' (f g' x) ∧ has_node (f g' x) (key x)) →
  ∀ x, x ∈ l → has_node (foldl f g l) (key x).
Proof.
  intros Hf x (l1 & l2 & ->)%list_elem_of_split. rewrite foldl_app. simpl.
  apply (has_node_grow S (f (foldl f g l1) x)); [|apply Hf; set_solver].
  apply grow_fold. intros g' y Hy _. apply Hf. set_solver.
Qed.

Lemma node_has_node g id n : node g id = Some n → has_node g id.
Proof. by intros ?; eexists. Qed.

(** * Recorded output assembles a joined graph

    Whatever [lsblk], sysfs and [findmnt] report, every edge of the assembled
    graph joins two of its nodes and every mount of a local file system names a
    node. *)

#[local] Open Scope list_scope.

Abbreviation Accumulated := (NodeGraph * list (string * MountSource))%type (only parsing).

(** Induction through the children of a device. *)
Lemma LsblkDevice_nested_ind (P : LsblkDevice → Prop) :
  (∀ device, Forall P device.(LsblkDevice.children) → P device) → ∀ device, P device.
Proof.
  intros HP. fix IH 1. intros [? ? ? ? ? ? ? ? ? ? ? ? ? ? ? ? ? ? children]. apply HP. simpl.
  induction children as [|child children IHc]; constructor; [apply IH|exact IHc].
Qed.

(** The mountable contents collected so far are nodes. *)
Definition sources_known (acc : Accumulated) : Prop :=
  ∀ path id, (path, MountSource.Filesystem id) ∈ acc.2 → has_node acc.1 id.

(** A step of the accumulation. *)
Record extend (acc acc' : Accumulated) : Prop := {
  extend_grow : grow (λ _, False) acc.1 acc'.1;
  extend_sources : sources_known acc → sources_known acc' }.

#[global] Instance extend_preorder : PreOrder extend.
Proof.
  split; [by split; [reflexivity|]|]. intros ??? [] []. split; [by etrans|auto].
Qed.

Lemma extend_fold {A} (f : Accumulated → A → Accumulated) l acc :
  (∀ acc' x, x ∈ l → extend acc acc' → extend acc' (f acc' x)) → extend acc (foldl f acc l).
Proof.
  revert acc. induction l as [|x l IH]; intros acc Hf; [reflexivity|]. simpl.
  assert (extend acc (f acc x)) as Hx by (apply Hf; [left|reflexivity]).
  etrans; [exact Hx|]. apply IH. intros acc' y Hy Ha. apply Hf; [by right|by etrans].
Qed.

Lemma sources_known_grow g g' sources : grow (λ _, False) g g' →
  sources_known (g, sources) → sources_known (g', sources).
Proof. intros [Hn _] Hs path id Hin. eapply Hn, Hs, Hin. Qed.

Lemma extend_graph g g' sources : grow (λ _, False) g g' → extend (g, sources) (g', sources).
Proof. intros Hg. split; [done|]. by apply sources_known_grow. Qed.

Section lsblk.
Context `{UuidText}.
Implicit Types (device : LsblkDevice) (acc : Accumulated).

Lemma extend_content device block_id path acc : has_node acc.1 block_id →
  extend acc (add_content device block_id path acc).
Proof.
  destruct acc as [g sources]. simpl. intros Hb. unfold add_content.
  destruct (nonempty _) as [fstype|]; [|reflexivity].
  destruct (content_kind device fstype) as [kind mountable].
  set (g' := add_dependency _ _ _ _).
  assert (grow (λ _, False) g g') as Hg by (apply grow_insert_above; by left).
  split; [exact Hg|]. intros Hs.
  assert (sources_known (g', sources)) as Hs' by by eapply sources_known_grow.
  destruct mountable; [|exact Hs']. intros p id [[= -> ->]|Hin]%elem_of_cons; [|by eapply Hs'].
  apply has_node_dependency, has_node_upsert. by left.
Qed.

Lemma grow_table device node_id path g g' parent : has_node g node_id →
  add_table_of device node_id path g = (g', parent) →
  grow (λ _, False) g g' ∧ has_node g' parent.
Proof.
  intros Hn. unfold add_table_of. destruct (_ && _); intros [= <- <-]; [|by split; [reflexivity|]].
  split; [apply grow_insert_above; by left|]. apply has_node_dependency, has_node_upsert. by left.
Qed.

(** The device is added, and what its children hang below is a node. *)
Lemma extend_device device parent size sysfs acc acc' children_parent :
  (∀ id, parent = Some id → has_node acc.1 id) →
  add_device device parent size sysfs acc = (acc', children_parent) →
  extend acc acc' ∧ has_node acc'.1 children_parent.
Proof.
  destruct acc as [g sources]. intros Hp. unfold add_device. cbv zeta.
  set (id := stable_node_id _ _). set (g1 := upsert_observation id _ g).
  assert (grow (λ _, False) g g1) as Hg1 by apply grow_upsert.
  assert (has_node g1 id) as Hid by (apply has_node_upsert; by left).
  match goal with |- context [add_table_of _ _ _ ?g2] => set (g2' := g2) end.
  assert (grow (λ _, False) g1 g2') as Hg2.
  { subst g2'. destruct parent as [parent|]; [|reflexivity].
    apply grow_dependency; left; [|done]. by apply Hg1, Hp. }
  destruct (add_table_of _ _ _ g2') as [g3 top] eqn:Ht.
  apply grow_table in Ht as [Hg3 Htop]; [|by eapply has_node_grow].
  intros [= <- <-].
  assert (extend (g, sources) (g3, sources)) as He by (apply extend_graph; by do 2 (etrans; [eassumption|])).
  assert (has_node g3 id) as Hid3 by (eapply has_node_grow; [|exact Hid]; by etrans).
  pose proof (extend_content device id (device_path device) (g3, sources) Hid3) as Hc.
  split; [by etrans|]. eapply has_node_grow; [apply Hc|exact Htop].
Qed.

Lemma extend_block_device device : ∀ parent size sysfs acc,
  (∀ id, parent = Some id → has_node acc.1 id) →
  extend acc (add_block_device device parent size sysfs acc).
Proof.
  induction device as [device IH] using LsblkDevice_nested_ind. intros parent size sysfs acc Hp.
  destruct device as [? ? ? ? ? ? ? ? ? ? ? ? ? ? ? ? ? ? children]. cbn [add_block_device].
  destruct (add_device _ _ _ _ _) as [acc' top] eqn:Hd.
  apply extend_device in Hd as [Hacc Htop]; [|done]. etrans; [exact Hacc|].
  apply extend_fold. intros acc'' child Hin Hacc''.
  rewrite Forall_forall in IH. apply IH; [done|].
  intros ? [= <-]. eapply has_node_grow; [apply Hacc''|exact Htop].
Qed.

(** Whatever the recorded outputs say, the graph assembled from [lsblk] and
    sysfs is joined, and every mount of [findmnt] that is resolved to a local
    file system names a node of it. *)
Theorem recorded_graph_joined devices sysfs mounts :
  let state := assemble_linux_block_state devices sysfs mounts in
  joined state.(ProviderState.graph) ∧
  ∀ mount id, mount ∈ state.(ProviderState.mounts) →
    mount.(ObservedMount.source) = MountSource.Filesystem id →
    has_node state.(ProviderState.graph) id.
Proof.
  unfold assemble_linux_block_state. cbv zeta.
  pose proof (extend_fold (λ acc device, add_block_device device None 512 (default [] sysfs) acc)
    devices (NodeGraph.mk ∅ [] [], [])) as Hall.
  destruct (foldl _ _ devices) as [g sources]. destruct Hall as [Hg Hs].
  { intros acc' device _ _. by apply extend_block_device. }
  split; [by apply (grow_joined _ _ Hg), joined_empty|].
  intros mount id (entry & -> & _)%list_elem_of_fmap.
  unfold recorded_mount. cbn [ObservedMount.source].
  destruct (find_first _ sources) as [[path source]|] eqn:Hfind.
  - intros ->. apply find_first_Some in Hfind as [Hin _]. eapply Hs; [|exact Hin].
    intros ? ? ?%elem_of_nil. done.
  - unfold external_mount_source. repeat case_match; discriminate.
Qed.
End lsblk.

(** * The native providers publish a joined graph

    What the library backends promise about their answers ([BackendLaws]), and
    that under it every layer of [ProbeTopology] grows the graph without a loose
    edge. *)

#[local] Open Scope string_scope.
#[local] Open Scope list_scope.

Implicit Types (endpoints : list UdevBlockEntry).

Abbreviation growing := (grow (λ _, False)) (only parsing).

(** Every endpoint of udev has its node. *)
Definition endpoints_known endpoints g : Prop :=
  ∀ e, e ∈ endpoints → has_node g (block_node_id e.(UdevBlockEntry.devnode)).

Lemma endpoints_known_grow S endpoints g g' :
  grow S g g' → endpoints_known endpoints g → endpoints_known endpoints g'.
Proof. intros Hg Hk e He. by eapply has_node_grow, Hk. Qed.

Lemma last_filter_elem {A} (f : A → bool) l x :
  last (List.filter f l) = Some x → x ∈ l ∧ f x = true.
Proof.
  intros Hl%last_Some_elem_of. by apply list_elem_of_In, filter_In in Hl as [?%list_elem_of_In ?].
Qed.

Lemma path_of_devno_known endpoints g devno path :
  endpoints_known endpoints g → path_of_devno endpoints devno = Some path →
  has_node g (block_node_id path).
Proof. intros Hk. unfold path_of_devno. intros (e & [He _]%last_filter_elem & ->)%fmap_Some. by apply Hk. Qed.

(** ** Block devices *)

(** The paths udev and libfdisk report. *)
Definition reported endpoints (tables : list FdiskTable) (path : Path) : Prop :=
  (∃ e, e ∈ endpoints ∧ path = e.(UdevBlockEntry.devnode)) ∨
  (∃ t p, t ∈ tables ∧ p ∈ t.(FdiskTable.partitions) ∧
          path = partition_path t.(FdiskTable.device) p.(FdiskPartition.number)).

Section block.
Context `{UuidText} (endpoints : list UdevBlockEntry) (tables : list FdiskTable).

(** The represented paths are reported and have nodes. *)
Definition represented_known (acc : NodeGraph * list Path) : Prop :=
  ∀ r, r ∈ acc.2 → reported endpoints tables r ∧ has_node acc.1 (block_node_id r).

Lemma represented_known_grow S g g' represented :
  grow S g g' → represented_known (g, represented) → represented_known (g', represented).
Proof. intros Hg Hr r Hin. destruct (Hr r Hin). split; [done|]. by eapply has_node_grow. Qed.

Lemma grow_partition t p acc : t ∈ tables → p ∈ t.(FdiskTable.partitions) →
  has_node acc.1 (table_node_id t) → represented_known acc →
  growing acc.1 (add_partition endpoints t acc p).1 ∧
  represented_known (add_partition endpoints t acc p).
Proof.
  destruct acc as [g represented]. intros Ht Hp Hn Hr. unfold add_partition.
  destruct (non_zero _) as [number|]; [|by split; [reflexivity|]]. cbv zeta.
  match goal with |- context [(?g', represented ++ _)] => assert (growing g g') as Hg end.
  { apply grow_insert_above. by left. }
  split; [exact Hg|]. intros r [Hin|Hin%list_elem_of_singleton]%elem_of_app; [|subst r].
  - by apply (represented_known_grow _ _ _ represented Hg).
  - split; [right; eauto|]. apply has_node_dependency, has_node_upsert. by left.
Qed.

Lemma grow_partitions t l acc : t ∈ tables → (∀ p, p ∈ l → p ∈ t.(FdiskTable.partitions)) →
  has_node acc.1 (table_node_id t) → represented_known acc →
  growing acc.1 (foldl (add_partition endpoints t) acc l).1 ∧
  represented_known (foldl (add_partition endpoints t) acc l).
Proof.
  intros Ht. revert acc. induction l as [|p l IH]; intros acc Hl Hn Hr; [by split; [reflexivity|]|].
  destruct (grow_partition t p acc) as [Hg Hr']; [done|apply Hl; left|done|done|].
  destruct (IH (add_partition endpoints t acc p)) as [? ?];
    [intros; apply Hl; by right|by eapply has_node_grow|done|].
  split; [by etrans|done].
Qed.

Lemma grow_tables l acc : (∀ t, t ∈ l → t ∈ tables) →
  (∀ t, t ∈ l → has_node acc.1 (block_node_id t.(FdiskTable.device))) → represented_known acc →
  growing acc.1 (foldl (add_table endpoints) acc l).1 ∧
  represented_known (foldl (add_table endpoints) acc l).
Proof.
  revert acc. induction l as [|t l IH]; intros [g represented] Hl Hd Hr; [by split; [reflexivity|]|].
  assert (growing g (add_table endpoints (g, represented) t).1 ∧
          represented_known (add_table endpoints (g, represented) t)) as [Hg Hr'].
  { unfold add_table. destruct (_ ≫= _) as [kind|]; [|by split; [reflexivity|]].
    match goal with |- context [foldl _ (?g', represented) _] => set (g1 := g') end.
    assert (growing g g1) as Hg1 by (apply grow_insert_above; left; apply Hd; left).
    destruct (grow_partitions t t.(FdiskTable.partitions) (g1, represented)) as [? ?];
      [apply Hl; left|done| |by eapply represented_known_grow|].
    { apply has_node_dependency, has_node_upsert. by left. }
    split; [by etrans|done]. }
  destruct (IH (add_table endpoints (g, represented) t)) as [? ?]; [| |done|].
  - intros; apply Hl; by right.
  - intros t' Ht'. eapply has_node_grow; [exact Hg|]. apply Hd. by right.
  - split; [by etrans|done].
Qed.

Lemma grow_endpoint e kind g : growing g (insert_native_endpoint e kind g).
Proof. apply grow_upsert. Qed.

Lemma endpoint_inserted e kind g :
  has_node (insert_native_endpoint e kind g) (block_node_id e.(UdevBlockEntry.devnode)).
Proof. apply has_node_upsert. by left. Qed.

Lemma grow_endpoints (kind : UdevBlockEntry → NodeKind) l g :
  growing g (foldl (λ g e, insert_native_endpoint e (kind e) g) g l) ∧
  endpoints_known l (foldl (λ g e, insert_native_endpoint e (kind e) g) g l).
Proof.
  split; [apply grow_fold; intros; apply grow_endpoint|].
  intros e. eapply (fold_inserts (λ _, False) _ (λ e, block_node_id e.(UdevBlockEntry.devnode))).
  intros g' x _. split; [apply grow_endpoint|apply endpoint_inserted].
Qed.

Lemma grow_signatures l g : growing g (foldl (add_signature endpoints) g l).
Proof.
  apply grow_fold. intros g' s _ _. unfold add_signature. case_bool_decide as Hs; [|reflexivity].
  unfold add_native_content. destruct (BlkidEntry.signature_type s); [|reflexivity].
  apply grow_insert_above. by left.
Qed.

(** libfdisk answers about whole endpoints, and a device node has one name. *)
Hypothesis tables_listed : ∀ t, t ∈ tables →
  ∃ e, e ∈ endpoints ∧ is_whole e = true ∧ t.(FdiskTable.device) = e.(UdevBlockEntry.devnode).
Hypothesis one_name : ∀ e path, e ∈ endpoints → reported endpoints tables path →
  same_path e.(UdevBlockEntry.devnode) path = true → e.(UdevBlockEntry.devnode) = path.

Lemma native_block_known signatures :
  joined (native_block_graph endpoints tables signatures) ∧
  endpoints_known endpoints (native_block_graph endpoints tables signatures).
Proof.
  unfold native_block_graph.
  destruct (grow_endpoints native_endpoint_kind (List.filter is_whole endpoints) (NodeGraph.mk ∅ [] []))
    as [Hg0 Hk0].
  set (g0 := foldl _ _ (List.filter is_whole endpoints)) in *. cbv zeta.
  destruct (grow_tables tables (g0, UdevBlockEntry.devnode <$> List.filter is_whole endpoints))
    as [Hg1 Hr1]; [done| | |].
  { intros t (e & He & Hw & ->)%tables_listed. apply Hk0. by apply list_elem_of_In, filter_In; split; [apply list_elem_of_In|]. }
  { intros r (e & -> & He)%list_elem_of_fmap. split; [|by apply Hk0].
    apply list_elem_of_In, filter_In in He as [?%list_elem_of_In _]. left; eauto. }
  destruct (foldl (add_table endpoints) _ tables) as [g1 represented]. simpl in Hg1.
  destruct (grow_endpoints (λ _, NodeKind.Unknown "block endpoint without fdisk topology")
    (List.filter (λ e, negb (is_represented represented e)) endpoints) g1) as [Hg2 Hk2].
  set (g2 := foldl _ g1 _) in *.
  pose proof (grow_signatures signatures g2) as Hg3. split.
  - eapply grow_joined, joined_empty. etrans; [exact Hg0|]. etrans; [exact Hg1|]. by etrans.
  - intros e He. eapply has_node_grow; [exact Hg3|].
    destruct (is_represented represented e) eqn:Hrep.
    + apply existsb_exists in Hrep as (r & Hr%list_elem_of_In & Hsame).
      destruct (Hr1 r Hr) as [Hrr Hn]. rewrite (one_name e r He Hrr Hsame). by eapply has_node_grow.
    + apply Hk2, list_elem_of_In, filter_In. split; [by apply list_elem_of_In|]. by rewrite Hrep.
Qed.
End block.
