(* ===== verification/NativeLayers.v ===== *)
(** * Each enrichment grows the graph

    LUKS, device mapper, loop devices, MD RAID, LVM, Btrfs, ZFS and NVMe, one
    lemma a layer; what a layer needs of the graph before it is a premise. *)

From stdpp Require Import pretty.
From S2P Require Import Prelude Model Reach Graph GraphOrder GraphValid State Observe Recipes Native.
From S2P Require Import ProbeNames ProbeBlock ProbeTopology ProbeProps.

#[local] Open Scope string_scope.
#[local] Open Scope list_scope.

Implicit Types (g : NodeGraph) (id : NodeId) (endpoints : list UdevBlockEntry) (state : ProviderState).

(** The graph of a state. *)
Abbreviation graph_of := ProviderState.graph (only parsing).

(** ** Loose ends *)

(** Every edge and relation joins two nodes, but for the sources of the edges in
    [F] and the targets of those in [T]. *)
Definition joined_but (F T : Dependency → Prop) g : Prop :=
  (∀ d, d ∈ g.(NodeGraph.dependencies) →
     (has_node g d.(Dependency.from_) ∨ F d) ∧ (has_node g d.(Dependency.to) ∨ T d)) ∧
  (∀ r, r ∈ g.(NodeGraph.relations) → has_node g r.(Relation.from_) ∧ has_node g r.(Relation.to)).

Section loose.
Context (F T : Dependency → Prop).

Lemma joined_joined_but g : joined g → joined_but F T g.
Proof.
  intros Hj. split; [intros d [? ?]%(joined_dependency _ _ Hj); auto|intros r; by apply joined_relation].
Qed.

Lemma joined_but_grow g g' : growing g g' → joined_but F T g → joined_but F T g'.
Proof.
  intros [Hn Hd Hr] [Jd Jr]. split.
  - intros d [[[?|?] [?|?]]%Jd|[[?|[]] [?|[]]]]%Hd; auto.
  - intros r [[? ?]%Jr|[[?|[]] [?|[]]]]%Hr; auto.
Qed.

Lemma joined_but_dependency from to kind g :
  has_node g from ∨ F (Dependency.mk from to kind) → has_node g to ∨ T (Dependency.mk from to kind) →
  joined_but F T g → joined_but F T (add_dependency from to kind g).
Proof.
  intros Hf Ht [Jd Jr]. split.
  - intros d. rewrite !has_node_dependency. intros [->|?]%add_dependency_elem; auto.
  - intros r. rewrite !has_node_dependency, add_dependency_relations. apply Jr.
Qed.

(** A fold of such edges forgets no node. *)
Lemma joined_but_fold {A} (f : NodeGraph → A → NodeGraph) l g :
  (∀ g' x, x ∈ l → (∀ id, has_node g id → has_node g' id) → joined_but F T g' →
     joined_but F T (f g' x) ∧ ∀ id, has_node g' id → has_node (f g' x) id) →
  joined_but F T g → joined_but F T (foldl f g l) ∧ ∀ id, has_node g id → has_node (foldl f g l) id.
Proof.
  revert g. induction l as [|x l IH]; intros g Hf Hj; [done|]. simpl.
  destruct (Hf g x) as [Hj' Hn]; [left|done|done|].
  destruct (IH (f g x)) as [? ?]; [|done|auto]. intros g' y Hy Hg'. apply Hf; [by right|auto].
Qed.
End loose.

(** ** LUKS, device mapper, loop devices *)

Lemma grow_luks entries state :
  growing (graph_of state) (graph_of (enrich_luks entries state)).
Proof.
  unfold enrich_luks. revert state. induction entries as [|entry entries IH]; intros state; [reflexivity|].
  simpl. etrans; [|apply IH]. unfold add_luks. destruct (node _ _); [|reflexivity].
  destruct (match _ with Some _ => _ | None => _ end) as [size diagnostics]. apply grow_upsert.
Qed.

Lemma grow_devmapper endpoints entries g : endpoints_known endpoints g →
  growing g (enrich_devmapper endpoints entries g).
Proof.
  intros Hk. apply grow_fold. intros g1 entry _ Hg1. unfold add_mapping.
  set (id := block_node_id _). set (g2 := upsert_observation id _ g1).
  assert (growing g1 g2) as Hg2 by apply grow_upsert. etrans; [exact Hg2|].
  apply grow_fold. intros g3 devno _ Hg3. unfold add_mapping_source.
  destruct (path_of_devno endpoints devno) as [path|] eqn:Hp; [|reflexivity].
  apply grow_dependency; left.
  - unfold devmapper_source. destruct (_ && _) eqn:Hc.
    + apply andb_true_iff in Hc as [_ Hc]. destruct (node g3 _) eqn:Hn; [|done]. by eapply node_has_node.
    + eapply path_of_devno_known; [|exact Hp]. eapply endpoints_known_grow; [|exact Hk].
      etrans; [exact Hg1|]. by etrans.
  - eapply has_node_grow; [exact Hg3|]. apply has_node_upsert. by left.
Qed.

Lemma grow_loop entries g : growing g (enrich_loop entries g).
Proof.
  apply grow_fold. intros g' entry _ _. unfold add_loop. destruct (node _ _); [apply grow_upsert|reflexivity].
Qed.

Lemma graph_swap entries state : graph_of (enrich_swap entries state) = graph_of state.
Proof. reflexivity. Qed.

Lemma graph_multipath mappings multipath state :
  graph_of (enrich_multipath mappings multipath state) = graph_of state.
Proof. unfold enrich_multipath. by destruct (existsb _ _). Qed.

(** ** MD RAID *)

Lemma mdraid_joined F T topology g :
  (∀ m to role, m ∈ topology.(MdraidEntry.members) →
     has_node g (block_node_id m.(MdraidMemberEntry.device)) ∨
     F (Dependency.mk (block_node_id m.(MdraidMemberEntry.device)) to (DependencyKind.MemberOf (MemberRole.Md role)))) →
  joined_but F T g → joined_but F T (enrich_mdraid topology g).1.
Proof.
  intros Hm Hj. unfold enrich_mdraid. simpl. set (g1 := foldl _ g _).
  assert (growing g g1) as Hg1 by (apply grow_fold; intros; apply grow_upsert).
  assert (∀ a, a ∈ topology.(MdraidEntry.arrays) →
    has_node g1 (block_node_id a.(MdraidArrayEntry.device))) as Ha.
  { intros a. eapply (fold_inserts (λ _, False) _ (λ a, block_node_id a.(MdraidArrayEntry.device))).
    intros g' x _. split; [apply grow_upsert|]. apply has_node_upsert. by left. }
  apply joined_but_fold; [|by eapply joined_but_grow].
  intros g2 m Hin Hg2 Hj2. unfold add_md_member. destruct (array_of _ m) as [array|] eqn:Harr; [|done].
  unfold array_of in Harr. destruct (MdraidMemberEntry.array_uuid m); [|done].
  apply find_first_Some in Harr as [Harr _].
  split; [|intros id; by rewrite has_node_dependency]. apply joined_but_dependency; [|left; by apply Hg2, Ha|done].
  destruct (Hm m (block_node_id array.(MdraidArrayEntry.device)) (MdMember.mk MdMemberRole.Data None None) Hin);
    [left|by right]. by eapply Hg2, has_node_grow.
Qed.

Lemma add_md_member_keeps arrays g m :
  (add_md_member arrays g m).(NodeGraph.nodes) = g.(NodeGraph.nodes) ∧
  ∀ d, d ∈ g.(NodeGraph.dependencies) → d ∈ (add_md_member arrays g m).(NodeGraph.dependencies).
Proof.
  unfold add_md_member. destruct (array_of _ _); [|done].
  split; [apply add_dependency_nodes|]. intros. apply add_dependency_elem. by right.
Qed.

Lemma md_members_edges arrays l g :
  (foldl (add_md_member arrays) g l).(NodeGraph.nodes) = g.(NodeGraph.nodes) ∧
  (∀ d, d ∈ g.(NodeGraph.dependencies) → d ∈ (foldl (add_md_member arrays) g l).(NodeGraph.dependencies)) ∧
  ∀ m, m ∈ l → is_Some (array_of arrays m) →
    ∃ to kind, Dependency.mk (block_node_id m.(MdraidMemberEntry.device)) to kind
               ∈ (foldl (add_md_member arrays) g l).(NodeGraph.dependencies).
Proof.
  revert g. induction l as [|m l IH]; intros g; [by split_and!; [| |intros ? ?%elem_of_nil]|].
  destruct (IH (add_md_member arrays g m)) as (Hn & Hd & Hm). simpl.
  destruct (add_md_member_keeps arrays g m) as [Hn' Hd'].
  split_and!; [by rewrite Hn|auto|]. intros m' [->|?]%elem_of_cons; [|by apply Hm].
  intros [array Harr]. eexists _, _. apply Hd. unfold add_md_member. rewrite Harr.
  apply add_dependency_elem. by left.
Qed.

Lemma md_arrays_nodes members l g id :
  (∀ a, a ∈ l → block_node_id a.(MdraidArrayEntry.device) ≠ id) → ¬ has_node g id →
  ¬ has_node (foldl (add_array members) g l) id.
Proof.
  revert g. induction l as [|a l IH]; intros g Hl Hg; [done|]. apply IH; [intros; apply Hl; by right|].
  unfold add_array. rewrite has_node_upsert. intros [Heq|?]; [|done]. by apply (Hl a); [left|].
Qed.

(** A member whose device has no node leaves its edge hanging: the graph fails the
    check of every observation, whatever else the pass found. *)
Theorem md_member_unlisted topology g member :
  member ∈ topology.(MdraidEntry.members) → is_Some (array_of topology.(MdraidEntry.arrays) member) →
  ¬ has_node g (block_node_id member.(MdraidMemberEntry.device)) →
  (∀ a, a ∈ topology.(MdraidEntry.arrays) →
     block_node_id a.(MdraidArrayEntry.device) ≠ block_node_id member.(MdraidMemberEntry.device)) →
  validate_structure (enrich_mdraid topology g).1 ≠ Ok tt.
Proof.
  intros Hin Harr Hno Hne Hok%validate_structure_iff%structure_wf_joined.
  unfold enrich_mdraid in Hok. simpl in Hok.
  pose proof (md_arrays_nodes topology.(MdraidEntry.members) topology.(MdraidEntry.arrays) g _ Hne Hno) as Hg1.
  set (g1 := foldl _ g _) in *.
  destruct (md_members_edges topology.(MdraidEntry.arrays) topology.(MdraidEntry.members) g1) as (Hn & _ & Hm).
  destruct (Hm member Hin Harr) as (to & kind & Hedge).
  apply joined_dependency in Hedge as [Hfrom _]; [|done].
  unfold has_node in Hfrom. rewrite Hn in Hfrom. done.
Qed.

(** ** LVM *)

Lemma lvm_groups vgs state :
  growing (graph_of state) (graph_of (foldl add_vg state vgs)) ∧
  ∀ vg, vg ∈ vgs → has_node (graph_of (foldl add_vg state vgs)) (vg_node_id vg).
Proof.
  revert state. induction vgs as [|vg vgs IH]; intros state; [by split; [|intros ? ?%elem_of_nil]|].
  simpl. destruct (IH (add_vg state vg)) as [Hg Hv].
  assert (growing (graph_of state) (graph_of (add_vg state vg))) as Hg0 by apply grow_upsert.
  split; [by etrans|]. intros vg' [->|?]%elem_of_cons; [|by apply Hv].
  eapply has_node_grow; [exact Hg|]. apply has_node_upsert. by left.
Qed.

Lemma vg_id_elem vgs name id : vg_id vgs name = Some id → ∃ vg, vg ∈ vgs ∧ id = vg_node_id vg.
Proof. unfold vg_id. intros (vg & [? _]%last_filter_elem & ->)%fmap_Some. eauto. Qed.

Section lvm.
Context endpoints (mappings : list DevmapperEntry) (topology : LvmEntry).

Lemma named_lv_elem vg name id : named_lv endpoints mappings topology vg name = Some id →
  ∃ lv, lv ∈ topology.(LvmEntry.lvs) ∧ id = lv_node_id endpoints mappings lv.
Proof. unfold named_lv. intros (lv & [? _]%last_filter_elem & ->)%fmap_Some. eauto. Qed.

Abbreviation groups_known g := (∀ vg, vg ∈ topology.(LvmEntry.vgs) → has_node g (vg_node_id vg)) (only parsing).

Lemma vg_id_known g name id : groups_known g → vg_id topology.(LvmEntry.vgs) name = Some id → has_node g id.
Proof. intros Hvg (vg & ? & ->)%vg_id_elem. by apply Hvg. Qed.

Lemma grow_pvs l g : groups_known g → growing g (foldl (add_pv topology.(LvmEntry.vgs)) g l).
Proof.
  intros Hvg. apply grow_fold. intros g' pv _ Hg'. unfold add_pv. cbv zeta.
  match goal with |- context [upsert_observation ?i ?n g'] => pose proof (grow_upsert (λ _, False) i n g') as Hu end.
  destruct (_ ≫= _) as [vg|] eqn:Hv; [|done].
  apply bind_Some in Hv as (name & _ & Hv%(vg_id_known g)); [|done].
  etrans; [exact Hu|]. apply grow_dependency; left; [apply has_node_upsert; by left|].
  eapply has_node_grow; [exact Hu|]. by eapply has_node_grow.
Qed.

Lemma grow_lv g lv : groups_known g →
  growing g (add_lv endpoints mappings topology g lv) ∧
  has_node (add_lv endpoints mappings topology g lv) (lv_node_id endpoints mappings lv).
Proof.
  intros Hvg. unfold add_lv. cbv zeta.
  match goal with |- context [upsert_observation ?i ?n g] => pose proof (grow_upsert (λ _, False) i n g) as Hu end.
  set (g' := upsert_observation _ _ g) in *.
  assert (has_node g' (lv_node_id endpoints mappings lv)) as Hn by (apply has_node_upsert; by left).
  destruct (vg_id _ _) as [vg|] eqn:Hv; [|done]. apply (vg_id_known g) in Hv; [|done].
  split; [|by apply has_node_dependency]. etrans; [exact Hu|].
  apply grow_dependency; left; [by eapply has_node_grow|done].
Qed.

Lemma grow_lvs l g : groups_known g →
  growing g (foldl (add_lv endpoints mappings topology) g l) ∧
  ∀ lv, lv ∈ l → has_node (foldl (add_lv endpoints mappings topology) g l)
                   (lv_node_id endpoints mappings lv).
Proof.
  revert g. induction l as [|lv l IH]; intros g Hvg; [by split; [|intros ? ?%elem_of_nil]|].
  destruct (grow_lv g lv Hvg) as [Hs Hn].
  destruct (IH (add_lv endpoints mappings topology g lv)) as [Hf Hk].
  { intros. by eapply has_node_grow, Hvg. }
  split; [by etrans|]. intros lv' [->|?]%elem_of_cons; [by eapply has_node_grow|by apply Hk].
Qed.

Lemma grow_lv_links g lv :
  (∀ vg name id, named_lv endpoints mappings topology vg name = Some id → has_node g id) →
  growing g (add_lv_links endpoints mappings topology g lv).
Proof.
  intros Hnamed. unfold add_lv_links. destruct (named_lv _ _ _ _ _) as [id|] eqn:Hid; [|reflexivity].
  apply Hnamed in Hid.
  match goal with |- context [add_dependency _ _ _ ?g'] => set (g1 := g') end.
  assert (growing g g1) as Hg1.
  { subst g1. destruct (_ ≫= _) as [origin|] eqn:Ho; [|reflexivity].
    apply bind_Some in Ho as (? & _ & Ho%Hnamed). apply grow_relation; by left. }
  destruct (LvmLvEntry.pool lv ≫= _) as [pool|] eqn:Hpool; [|exact Hg1].
  apply bind_Some in Hpool as (? & _ & Hpool%Hnamed).
  etrans; [exact Hg1|]. apply grow_dependency; left; by eapply has_node_grow.
Qed.

Lemma grow_lvm_graph g : groups_known g → growing g (lvm_graph endpoints mappings topology g).
Proof.
  intros Hvg. unfold lvm_graph. pose proof (grow_pvs topology.(LvmEntry.pvs) g Hvg) as Hg1.
  set (g1 := foldl (add_pv _) g _) in *.
  destruct (grow_lvs topology.(LvmEntry.lvs) g1) as [Hg2 Hlv].
  { intros. by eapply has_node_grow, Hvg. }
  etrans; [exact Hg1|]. etrans; [exact Hg2|]. apply grow_fold. intros g3 lv _ Hg3.
  apply grow_lv_links. intros vg name id (lv' & Hlv' & ->)%named_lv_elem.
  by eapply has_node_grow, Hlv.
Qed.

Lemma grow_lvm state :
  growing (graph_of state) (graph_of (enrich_lvm endpoints mappings topology state).1).
Proof.
  destruct (lvm_groups topology.(LvmEntry.vgs) state) as [Hg Hv].
  etrans; [exact Hg|]. by apply grow_lvm_graph.
Qed.
End lvm.

(** ** Btrfs *)

Lemma node_with_path_known g path id : node_with_path g path = Some id → has_node g id.
Proof.
  unfold node_with_path. intros ([id' n] & [Hin _]%find_first_Some & ->)%fmap_Some.
  apply elem_of_map_to_list in Hin. by eexists.
Qed.

(** A path of a device that backs a Btrfs file system. *)
Definition backs_btrfs g (path : PathBuf) : Prop :=
  ∃ d n m, d ∈ g.(NodeGraph.dependencies) ∧ d.(Dependency.kind) = DependencyKind.Backs ∧
    node g d.(Dependency.from_) = Some n ∧ path ∈ block_paths n ∧
    node g d.(Dependency.to) = Some m ∧ is_btrfs m = true.

Lemma btrfs_backing_devices_spec g path : path ∈ btrfs_backing_devices g ↔ backs_btrfs g path.
Proof.
  unfold btrfs_backing_devices. rewrite elem_of_remove_dups, list_elem_of_bind. split.
  - intros (d & Hp & [Hd [Hk Hb]%andb_true_iff]%list_elem_of_In%filter_In).
    apply bool_decide_eq_true in Hk. apply list_elem_of_In in Hd.
    destruct (node g (Dependency.from_ d)) as [n|] eqn:Hn; [|by apply elem_of_nil in Hp].
    destruct (node g (Dependency.to d)) as [m|] eqn:Hm; [|done]. by exists d, n, m.
  - intros (d & n & m & Hd & Hk & Hn & Hp & Hm & Hb). exists d. rewrite Hn. split; [done|].
    apply list_elem_of_In, filter_In. split; [by apply list_elem_of_In|].
    rewrite Hm. simpl. by rewrite Hb, bool_decide_eq_true_2.
Qed.

(** The file system is found below a device that was asked about; otherwise its
    identity is that of the content of the seed device. *)
Lemma btrfs_filesystem_known g (filesystem : BtrfsFilesystemEntry) :
  has_node g (btrfs_filesystem_id g filesystem) ∨
  btrfs_filesystem_id g filesystem = content_node_id filesystem.(BtrfsFilesystemEntry.seed_device) ∧
  ∀ member, member ∈ filesystem.(BtrfsFilesystemEntry.devices) →
    ¬ backs_btrfs g (components member.(BtrfsDeviceEntry.path)).
Proof.
  unfold btrfs_filesystem_id. destruct (find_first _ _) as [d'|] eqn:Hf.
  - left. apply find_first_Some in Hf as [_ [_ Hc]%andb_true_iff].
    destruct (node g (Dependency.to d')) eqn:Hto; [by eapply node_has_node|done].
  - right. split; [done|]. intros member Hin (d & n & m & Hd & Hk & Hn & Hp & Hm & Hb).
    apply find_first_None with (x := d) in Hf; [|done]. revert Hf.
    rewrite Hk, Hn, Hm. simpl. rewrite Hb. rewrite (proj2 (existsb_exists _ _)); [done|].
    exists (components member.(BtrfsDeviceEntry.path)). split; [by apply list_elem_of_In|].
    apply bool_decide_eq_true, list_elem_of_fmap. by exists member.
Qed.

Section btrfs.
Context `{UuidText}.

(** The edit of the file system's own node keeps its kind and paths. *)
Lemma backs_btrfs_upsert g id n n' path :
  node g id = Some n → block_paths n' = block_paths n → is_btrfs n' = is_btrfs n →
  backs_btrfs g path → backs_btrfs (upsert_observation id n' g) path.
Proof.
  intros Hn Hp Hb (d & a & b & Hd & Hk & Ha & Hpath & Hm & Hbtrfs). rewrite upsert_observation_eq.
  assert (∀ x y, node g x = Some y → ∃ y', node (NodeGraph.mk (<[id:=n']> g.(NodeGraph.nodes))
      g.(NodeGraph.dependencies) g.(NodeGraph.relations)) x = Some y' ∧
      block_paths y' = block_paths y ∧ is_btrfs y' = is_btrfs y) as Hlook.
  { intros x y Hx. unfold node. simpl. destruct (decide (id = x)) as [->|Hne].
    - rewrite lookup_insert. simplify_eq. rewrite decide_True by done. eauto.
    - rewrite lookup_insert_ne by done. eauto. }
  destruct (Hlook _ _ Ha) as (a' & Ha' & Hpa & _), (Hlook _ _ Hm) as (b' & Hb' & _ & Hbb).
  exists d, a', b'. rewrite Hpa, Hbb. done.
Qed.

Lemma backs_btrfs_dependency g from to kind path :
  backs_btrfs g path → backs_btrfs (add_dependency from to kind g) path.
Proof.
  intros (d & n & m & Hd & Hk & Hn & Hp & Hm & Hb). exists d, n, m.
  unfold node. rewrite !add_dependency_nodes. rewrite add_dependency_elem. auto 10.
Qed.

Lemma add_identity_paths i n : block_paths (add_identity i n) = block_paths n.
Proof. unfold add_identity. by case_bool_decide. Qed.
Lemma add_identity_btrfs i n : is_btrfs (add_identity i n) = is_btrfs n.
Proof. unfold add_identity. by case_bool_decide. Qed.
Lemma set_label_paths label n : block_paths (set_label label n) = block_paths n.
Proof. unfold set_label. by destruct (NodeSpec.kind _). Qed.
Lemma set_label_btrfs label n : is_btrfs (set_label label n) = is_btrfs n.
Proof. unfold set_label, is_btrfs. by destruct (NodeSpec.kind (Node.kind n)) eqn:Hk; rewrite ?Hk. Qed.

Lemma add_btrfs_filesystem_keeps g filesystem path :
  backs_btrfs g path → backs_btrfs (add_btrfs_filesystem g filesystem) path.
Proof.
  intros Hb. unfold add_btrfs_filesystem. cbv zeta.
  match goal with |- backs_btrfs (foldl _ ?g1 _) _ => assert (backs_btrfs g1 path) as Hb1 end.
  { destruct (node _ _) as [n|] eqn:Hn; [|done]. eapply backs_btrfs_upsert; [exact Hn| | |done].
    - by destruct (parse_uuid _); rewrite ?add_identity_paths, set_label_paths.
    - by destruct (parse_uuid _); rewrite ?add_identity_btrfs, set_label_btrfs. }
  clear Hb. match goal with |- backs_btrfs (foldl _ ?g1 _) _ => revert Hb1; generalize g1 end.
  generalize (btrfs_filesystem_id g filesystem). intros id.
  induction (BtrfsFilesystemEntry.devices filesystem) as [|m l IH]; intros g1 Hb1; [done|].
  apply IH. unfold add_btrfs_member. destruct (node_with_path _ _); [|done].
  by apply backs_btrfs_dependency.
Qed.

Lemma btrfs_filesystem_joined F T g filesystem :
  (∀ from member, has_node g (content_node_id filesystem.(BtrfsFilesystemEntry.seed_device)) ∨
     T (Dependency.mk from (content_node_id filesystem.(BtrfsFilesystemEntry.seed_device))
          (DependencyKind.MemberOf (MemberRole.Btrfs member))) ∨
     ∃ member, member ∈ filesystem.(BtrfsFilesystemEntry.devices) ∧
       backs_btrfs g (components member.(BtrfsDeviceEntry.path))) →
  joined_but F T g →
  joined_but F T (add_btrfs_filesystem g filesystem) ∧
  ∀ id, has_node g id → has_node (add_btrfs_filesystem g filesystem) id.
Proof.
  intros HT Hj. pose proof (btrfs_filesystem_known g filesystem) as Hid.
  unfold add_btrfs_filesystem. cbv zeta. set (id := btrfs_filesystem_id g filesystem) in *.
  match goal with |- context [foldl _ ?g1 _] => assert (growing g g1) as Hg1; [|set (g2 := g1) in *] end.
  { destruct (node g id); [apply grow_upsert|reflexivity]. }
  assert (joined_but F T (foldl (add_btrfs_member id) g2 filesystem.(BtrfsFilesystemEntry.devices)) ∧
    ∀ i, has_node g2 i → has_node (foldl (add_btrfs_member id) g2 filesystem.(BtrfsFilesystemEntry.devices)) i)
    as [? Hn].
  2:{ split; [done|]. intros i Hi. apply Hn. by eapply has_node_grow. }
  apply joined_but_fold; [|by eapply joined_but_grow]. intros g' m Hm Hg' Hj'. unfold add_btrfs_member.
  destruct (node_with_path _ _) as [from|] eqn:Hfrom; [|done].
  split; [|intros i; by rewrite has_node_dependency].
  apply joined_but_dependency; [left; by eapply node_with_path_known| |done].
  destruct Hid as [?|[Hid Hno]]; [left; by eapply Hg', has_node_grow|].
  destruct (HT from (BtrfsMember.mk (non_zero m.(BtrfsDeviceEntry.id)))) as [?|[?|(m' & Hm' & Hb)]].
  - left. rewrite Hid. by eapply Hg', has_node_grow.
  - right. by rewrite Hid.
  - by destruct (Hno m' Hm').
Qed.

(** The devices asked about back Btrfs file systems; [T] holds of the edges to a
    seed device when none of the reported members was asked about. *)
Lemma btrfs_filesystems_joined F T filesystems g :
  (∀ f from member, f ∈ filesystems →
     (∀ m, m ∈ f.(BtrfsFilesystemEntry.devices) → ¬ backs_btrfs g (components m.(BtrfsDeviceEntry.path))) →
     T (Dependency.mk from (content_node_id f.(BtrfsFilesystemEntry.seed_device))
          (DependencyKind.MemberOf (MemberRole.Btrfs member)))) →
  joined_but F T g →
  joined_but F T (enrich_btrfs_filesystems filesystems g) ∧
  ∀ id, has_node g id → has_node (enrich_btrfs_filesystems filesystems g) id.
Proof.
  intros HT Hj. unfold enrich_btrfs_filesystems.
  assert (∀ g', (∀ path, backs_btrfs g path → backs_btrfs g' path) → joined_but F T g' →
    joined_but F T (foldl add_btrfs_filesystem g' filesystems) ∧
    ∀ id, has_node g' id → has_node (foldl add_btrfs_filesystem g' filesystems) id) as Hfold; [|by apply Hfold].
  induction filesystems as [|f l IH]; intros g' Hb Hj'; [done|]. simpl.
  destruct (btrfs_filesystem_joined F T g' f) as [Hj1 Hn1]; [|done|].
  { intros from member.
    destruct (decide (Exists (λ m, components m.(BtrfsDeviceEntry.path) ∈ btrfs_backing_devices g)
      f.(BtrfsFilesystemEntry.devices))) as [He|He].
    - apply Exists_exists in He as (m & Hm & Hp). right; right. exists m. split; [done|].
      by apply Hb, btrfs_backing_devices_spec.
    - right; left. apply HT; [left|]. intros m Hm Hp. apply He, Exists_exists. exists m. split; [done|].
      by apply btrfs_backing_devices_spec. }
  destruct (IH (λ f' from m Hf', HT f' from m (list_elem_of_further _ _ _ Hf')) (add_btrfs_filesystem g' f)) as [? ?]; [|done|].
  - intros path Hp. by apply add_btrfs_filesystem_keeps, Hb.
  - split; [done|auto].
Qed.

Lemma grow_btrfs mounts entries g :
  (∀ m id, m ∈ mounts → m.(ObservedMount.source) = MountSource.Filesystem id → has_node g id) →
  growing g (enrich_btrfs mounts entries g).
Proof.
  intros Hm. apply grow_fold. intros g1 entry _ Hg1. unfold add_btrfs.
  destruct (mounted_filesystem _ _) as [filesystem|] eqn:Hf; [|reflexivity].
  assert (has_node g filesystem) as Hn.
  { unfold mounted_filesystem in Hf. apply head_Some_elem_of, list_elem_of_omap in Hf as (m & Hin & Hm').
    case_bool_decide; [|done]. destruct (ObservedMount.source m) eqn:Hs; simplify_eq. by eapply Hm. }
  apply grow_fold. intros g2 subvolume _ Hg2. apply grow_insert_above. left.
  eapply has_node_grow; [exact Hg2|]. by eapply has_node_grow.
Qed.
End btrfs.

(** ** ZFS *)

Lemma pool_named_elem pools name pool : pool_named pools name = Some pool →
  pool ∈ named_pools pools.
Proof.
  intros Hp. apply list_elem_of_omap. exists name. split; [|done].
  apply elem_of_remove_dups, list_elem_of_fmap. exists pool.
  unfold pool_named in Hp. apply last_filter_elem in Hp as [? Hn%bool_decide_eq_true]. done.
Qed.

(** The identities of a pool's vdevs: an edge may name one before its node. *)
Definition vdev_ids (pool : ZfsPoolEntry) id : Prop :=
  ∃ index vdev, (index, vdev) ∈ enumerate pool.(ZfsPoolEntry.vdevs) ∧ id = vdev_node_id pool index vdev.

Lemma enumerate_elem {A} (l : list A) x : x ∈ l → ∃ i, (i, x) ∈ enumerate l.
Proof.
  intros [i Hi]%list_elem_of_lookup. exists i. unfold enumerate. apply list_elem_of_lookup. exists i.
  by rewrite list_lookup_imap, Hi.
Qed.

Lemma known_vdev_ids pool guid id : known_vdev pool guid = Some id → vdev_ids pool id.
Proof.
  unfold known_vdev. destruct (existsb _ _) eqn:He; [|done]. intros [= <-].
  apply existsb_exists in He as (v & Hv%list_elem_of_In & Hg%bool_decide_eq_true).
  destruct (enumerate_elem _ _ Hv) as [i Hi]. exists i, v. split; [done|].
  unfold vdev_node_id. by rewrite Hg.
Qed.

Lemma grow_vdev pool entry g : entry ∈ enumerate pool.(ZfsPoolEntry.vdevs) →
  has_node g (pool_node_id pool) →
  grow (vdev_ids pool) g (add_vdev pool g entry) ∧
  has_node (add_vdev pool g entry) (vdev_node_id pool entry.1 entry.2).
Proof.
  destruct entry as [index vdev]. intros Hin Hp. unfold add_vdev. cbv zeta.
  set (id := vdev_node_id pool index vdev). set (g1 := upsert_observation id _ g).
  assert (grow (vdev_ids pool) g g1) as Hg1 by apply grow_upsert.
  assert (has_node g1 id) as Hid by (apply has_node_upsert; by left).
  match goal with |- context [node_with_path ?g'] => set (g2 := g') end.
  assert (grow (vdev_ids pool) g1 g2) as Hg2.
  { subst g2. destruct (_ ≫= known_vdev pool) as [parent|] eqn:Hparent.
    - apply bind_Some in Hparent as (guid & _ & Hparent%known_vdev_ids).
      apply grow_dependency; [by left|by right].
    - destruct (ZfsVdevEntry.class vdev); [|reflexivity].
      apply grow_dependency; left; [done|by eapply has_node_grow]. }
  destruct (_ ≫= node_with_path g2) as [device|] eqn:Hd.
  - apply bind_Some in Hd as (? & _ & Hd%node_with_path_known).
    assert (has_node g2 id) by by eapply has_node_grow.
    split; [|by apply has_node_dependency].
    etrans; [exact Hg1|]. etrans; [exact Hg2|]. apply grow_dependency; by left.
  - split; [by etrans|]. by eapply has_node_grow.
Qed.

Lemma grow_pool g pool : growing g (add_pool g pool) ∧ has_node (add_pool g pool) (pool_node_id pool).
Proof.
  unfold add_pool. set (g1 := upsert_observation _ _ g).
  assert (∀ S, grow S g g1) as Hg1 by (intros; apply grow_upsert).
  assert (has_node g1 (pool_node_id pool)) as Hp by (apply has_node_upsert; by left).
  assert (∀ l g', (∀ e, e ∈ l → e ∈ enumerate pool.(ZfsPoolEntry.vdevs)) → has_node g' (pool_node_id pool) →
    grow (vdev_ids pool) g' (foldl (add_vdev pool) g' l) ∧
    ∀ e, e ∈ l → has_node (foldl (add_vdev pool) g' l) (vdev_node_id pool e.1 e.2)) as Hfold.
  { induction l as [|e l IH]; intros g' Hl Hn; [by split; [|intros ? ?%elem_of_nil]|].
    destruct (grow_vdev pool e g') as [Hs Hk]; [apply Hl; left|done|].
    destruct (IH (add_vdev pool g' e)) as [Hf Hk']; [intros; apply Hl; by right|by eapply has_node_grow|].
    split; [by etrans|]. intros e' [->|?]%elem_of_cons; [by eapply has_node_grow|by apply Hk']. }
  destruct (Hfold (enumerate pool.(ZfsPoolEntry.vdevs)) g1) as [Hg2 Hk]; [done..|].
  set (g2 := foldl _ g1 _) in *.
  split; [|by eapply has_node_grow]. apply (grow_arrived (vdev_ids pool)); [etrans; [apply Hg1|exact Hg2]|].
  intros id (i & v & Hin & ->). apply (Hk (i, v) Hin).
Qed.

Lemma grow_zfs topology g : growing g (enrich_zfs topology g).1.
Proof.
  unfold enrich_zfs. simpl. set (pools := topology.(ZfsEntry.pools)). set (g1 := foldl add_pool g _).
  assert (growing g g1) as Hg1 by (apply grow_fold; intros; apply grow_pool).
  assert (∀ pool, pool ∈ named_pools pools → has_node g1 (pool_node_id pool)) as Hp.
  { intros pool. eapply (fold_inserts (λ _, False) add_pool pool_node_id). intros; apply grow_pool. }
  etrans; [exact Hg1|]. apply grow_fold. intros g2 dataset _ Hg2. unfold add_dataset. cbv zeta.
  destruct (_ ≫= pool_named pools) as [pool|] eqn:Hn; [|apply grow_upsert].
  apply bind_Some in Hn as (name & _ & Hn%pool_named_elem).
  apply grow_insert_above. left. by eapply has_node_grow, Hp.
Qed.

(** ** NVMe *)

Lemma grow_nvme topology g : growing g (enrich_nvme topology g).
Proof.
  apply grow_fold. intros g1 subsystem _ _. unfold add_subsystem. cbv zeta.
  set (id := subsystem_node_id subsystem). set (g2 := upsert_observation id _ g1). set (g3 := foldl _ g2 _).
  assert (growing g1 g2) as Hg2 by apply grow_upsert.
  assert (has_node g2 id) as Hid by (apply has_node_upsert; by left).
  assert (growing g2 g3) as Hg3.
  { apply grow_fold. intros g' controller _ Hg'. unfold add_controller.
    etrans; [apply grow_upsert|]. apply grow_relation; left; apply has_node_upsert; [by left|].
    right. by eapply has_node_grow. }
  etrans; [exact Hg2|]. etrans; [exact Hg3|]. apply grow_fold. intros g4 namespace _ Hg4.
  unfold add_namespace. destruct (non_zero namespace.(NvmeNamespaceEntry.nsid)),
    (non_zero namespace.(NvmeNamespaceEntry.lba_size)); try reflexivity. cbv zeta.
  apply grow_insert_above. left. eapply has_node_grow; [exact Hg4|]. by eapply has_node_grow.
Qed.

(** ** Mounts *)

Lemma system_mount_known entries state m id :
  m ∈ (collect_system_mounts entries state).(ProviderState.mounts) →
  m.(ObservedMount.source) = MountSource.Filesystem id → has_node (graph_of state) id.
Proof.
  intros (entry & -> & _)%list_elem_of_fmap. unfold system_mount.
  destruct (is_unresolved _ _) eqn:Hu; [done|]. unfold is_unresolved in Hu. intros Hs. rewrite Hs in Hu.
  apply bool_decide_eq_false in Hu. unfold has_node. unfold node in Hu.
  by destruct (_ !! id) eqn:Hid; [eexists|].
Qed.

(** ** The pass *)

Section pass.
Context `{UuidText, NativeBackends, ProbeText}.

(** What the layers ask of the backends: libfdisk and the MD library answer about
    the devices they are asked about, and udev spells a device node canonically. *)
Class BackendLaws : Prop := {
  fdisk_asked disks tables t :
    probe_fdisk_partitions disks = Ok tables → t ∈ tables → t.(FdiskTable.device) ∈ disks;
  mdraid_asked arrays members topology m :
    probe_mdraid arrays members = Ok topology → m ∈ topology.(MdraidEntry.members) →
    m.(MdraidMemberEntry.device) ∈ members;
  udev_canonical endpoints e :
    probe_udev_blocks = Ok endpoints → e ∈ endpoints → is_canonical e.(UdevBlockEntry.devnode) = true }.

(** The two loose ends a pass can leave.  libblkid reports its whole cache, so a
    member of an MD array may be a device udev does not list. *)
Definition unlisted_member (d : Dependency) : Prop :=
  ∃ endpoints signatures s role,
    probe_udev_blocks = Ok endpoints ∧ probe_blkid_signatures = Ok signatures ∧ s ∈ signatures ∧
    s.(BlkidEntry.signature_type) = Some "linux_raid_member" ∧
    (∀ e, e ∈ endpoints → e.(UdevBlockEntry.devnode) ≠ s.(BlkidEntry.device)) ∧
    d.(Dependency.from_) = block_node_id s.(BlkidEntry.device) ∧
    d.(Dependency.kind) = DependencyKind.MemberOf (MemberRole.Md role).
(** A Btrfs file system may be reported with no member under a name that was
    asked about. *)
Definition unasked_filesystem (d : Dependency) : Prop :=
  ∃ devices filesystems f member,
    probe_btrfs_filesystems devices = Ok filesystems ∧ f ∈ filesystems ∧
    (∀ m, m ∈ f.(BtrfsFilesystemEntry.devices) → components m.(BtrfsDeviceEntry.path) ∉ devices) ∧
    d.(Dependency.to) = content_node_id f.(BtrfsFilesystemEntry.seed_device) ∧
    d.(Dependency.kind) = DependencyKind.MemberOf (MemberRole.Btrfs member).

Context `{!BackendLaws}.

Lemma graph_or_failure {A} provider (fallback : A) answer state :
  graph_of (or_failure provider fallback answer state).1 = graph_of state.
Proof. by destruct answer. Qed.

Lemma or_failure_answer {A} provider (fallback : A) answer state (P : A → Prop) :
  P fallback → (∀ a, answer = Ok a → P a) → P (or_failure provider fallback answer state).2.
Proof. intros Hf Ha. destruct answer; [by apply Ha|done]. Qed.

(** Takes the next answer of the pass; a failure leaves the graph alone. *)
Ltac take_answer state answer Hgraph :=
  lazymatch goal with
  | |- context [or_failure ?provider ?fallback ?given ?before] =>
      pose proof (graph_or_failure provider fallback given before) as Hgraph;
      destruct (or_failure provider fallback given before) as [state answer]; simpl in Hgraph
  end.

(** The answers a pass began with. *)
Definition answers endpoints (signatures : list BlkidEntry) : Prop :=
  probe_udev_blocks = Ok endpoints ∧ probe_blkid_signatures = Ok signatures.

Lemma probe_block_known state endpoints signatures :
  probe_block = Ok (state, endpoints, signatures) →
  joined (graph_of state) ∧ endpoints_known endpoints (graph_of state) ∧ answers endpoints signatures.
Proof.
  unfold probe_block. destruct probe_udev_blocks as [es|] eqn:He; [|done]. simpl.
  destruct (probe_fdisk_partitions _) as [tables|] eqn:Ht; [|done]. simpl.
  destruct probe_blkid_signatures as [ss|] eqn:Hs; [|done]. simpl. intros [= <- -> ->].
  destruct (native_block_known endpoints tables) with (signatures := signatures) as [Hj Hk].
  - intros t Hin. eapply fdisk_asked in Hin; [|exact Ht].
    apply list_elem_of_fmap in Hin as (e & -> & [Hin Hd]%list_elem_of_In%filter_In).
    apply bool_decide_eq_true in Hd. exists e. split; [by apply list_elem_of_In|]. split; [|done].
    unfold is_whole. by rewrite Hd.
  - intros e path Hin Hr. apply canonical_same_path; [by eapply udev_canonical|].
    destruct Hr as [(e' & He' & ->)|(t & p & Hin' & _ & ->)]; [by eapply udev_canonical|].
    apply canonical_partition. eapply fdisk_asked in Hin'; [|exact Ht].
    apply list_elem_of_fmap in Hin' as (e' & -> & [He' _]%list_elem_of_In%filter_In).
    eapply udev_canonical; [exact He|by apply list_elem_of_In].
  - done.
Qed.

Lemma graph_failures {A} (text : A → string) (l : list A) state :
  graph_of (foldl (λ state failure, push_native_failure "cryptsetup" (text failure) state) state l)
  = graph_of state.
Proof. revert state. induction l as [|a l IH]; intros state; [done|]. simpl. by rewrite IH. Qed.

Lemma probe_mapper_known state endpoints signatures mappings :
  probe_mapper = Ok (state, endpoints, signatures, mappings) →
  joined (graph_of state) ∧ endpoints_known endpoints (graph_of state) ∧ answers endpoints signatures.
Proof.
  unfold probe_mapper. destruct probe_block as [[[state0 es] ss]|] eqn:Hb; [|done]. simpl.
  apply probe_block_known in Hb as (Hj & Hk & Hl).
  match goal with |- context [or_failure _ _ _ ?st] => set (state1 := st) end.
  assert (graph_of state1 = graph_of state0) as Hst by apply graph_failures.
  take_answer state2 ms Hor. intros [= <- -> -> ->].
  assert (growing (graph_of state0)
    (enrich_devmapper endpoints mappings (graph_of (enrich_luks
       (luks_probe probe_cryptsetup (devices_with "crypto_LUKS" signatures)).(observations) state2)))) as Hg.
  { rewrite <-Hst, <-Hor. etrans; [apply grow_luks|]. apply grow_devmapper.
    eapply endpoints_known_grow; [apply grow_luks|]. by rewrite Hor, Hst. }
  split_and!; [by eapply grow_joined|by eapply endpoints_known_grow|done].
Qed.

Lemma probe_runtime_known state endpoints signatures mappings :
  probe_runtime = Ok (state, endpoints, signatures, mappings) →
  joined (graph_of state) ∧ endpoints_known endpoints (graph_of state) ∧ answers endpoints signatures.
Proof.
  unfold probe_runtime. destruct probe_mapper as [[[[state0 es] ss] ms]|] eqn:Hb; [|done]. simpl.
  apply probe_mapper_known in Hb as (Hj & Hk & Hl).
  take_answer state1 loops Hs1.
  take_answer state2 swaps Hs2.
  take_answer state3 multipath Hs3. intros [= <- -> -> ->].
  rewrite graph_multipath, graph_swap. simpl. rewrite Hs3, Hs2, Hs1.
  split_and!; [by eapply grow_joined, Hj; apply grow_loop
              |by eapply endpoints_known_grow, Hk; apply (grow_loop)|done].
Qed.

Abbreviation loosely := (joined_but unlisted_member unasked_filesystem) (only parsing).

Lemma probe_local_joined state : probe_local = Ok state → loosely (graph_of state).
Proof.
  unfold probe_local. destruct probe_runtime as [[[[state0 es] ss] ms]|] eqn:Hb; [|done].
  cbv beta iota.
  apply probe_runtime_known in Hb as (Hj & Hk & Hu & Hs).
  set (asked := devices_with "linux_raid_member" ss).
  pose proof (or_failure_answer "mdraid" (MdraidEntry.mk [] []) (probe_mdraid (endpoints_named "md" es) asked)
    state0 (λ topology, ∀ m, m ∈ topology.(MdraidEntry.members) → m.(MdraidMemberEntry.device) ∈ asked))
    as Hm.
  take_answer state1 mdraid Hs1. simpl in Hm.
  take_answer state2 lvm Hs2.
  assert (loosely (enrich_mdraid mdraid (graph_of state2)).1) as Hg.
  { apply mdraid_joined; [|rewrite Hs2, Hs1; by apply joined_joined_but]. intros m to role Hin. rewrite Hs2, Hs1.
    apply Hm in Hin; [|by intros ? ?%elem_of_nil|intros a Ha; intros; by eapply mdraid_asked].
    unfold asked, devices_with in Hin.
    apply list_elem_of_fmap in Hin as (s & -> & [Hin Ht%bool_decide_eq_true]%list_elem_of_In%filter_In).
    destruct (decide (Exists (λ e, e.(UdevBlockEntry.devnode) = s.(BlkidEntry.device)) es)) as [He|He].
    - apply Exists_exists in He as (e & He & <-). left. by apply Hk.
    - right. exists es, ss, s, role. split_and!; try done; [by apply list_elem_of_In|].
      intros e He' Heq. apply He, Exists_exists. by exists e. }
  destruct (enrich_mdraid mdraid _) as [g diagnostics]. simpl in Hg. cbv zeta.
  match goal with |- context [enrich_lvm es ms lvm ?st] => pose proof (grow_lvm es ms lvm st) as Hlvm end.
  destruct (enrich_lvm es ms lvm _) as [state3 diagnostics']. simpl in Hlvm. intros [= <-].
  by apply (joined_but_grow _ _ _ _ Hlvm).
Qed.

Lemma probe_system_joined state : probe_system = Ok state →
  loosely (graph_of state) ∧
  ∀ m id, m ∈ state.(ProviderState.mounts) → m.(ObservedMount.source) = MountSource.Filesystem id →
    has_node (graph_of state) id.
Proof.
  unfold probe_system. destruct probe_local as [state0|] eqn:Hb; [|done].
  cbv beta iota.
  apply probe_local_joined in Hb as Hj.
  set (asked := btrfs_backing_devices (graph_of state0)).
  pose proof (or_failure_answer "btrfs-topology" [] (probe_btrfs_filesystems asked) state0
    (λ l, l = [] ∨ probe_btrfs_filesystems asked = Ok l)) as Hm.
  take_answer state1 filesystems Hs1. simpl in Hm.
  take_answer state2 entries Hs2. cbv zeta.
  take_answer state3 btrfs Hs3.
  take_answer state4 zfs Hs4.
  take_answer state5 nvme Hs5.
  set (state6 := on_graph (enrich_btrfs_filesystems filesystems) state5).
  assert (loosely (graph_of state6)) as Hg6.
  { simpl. rewrite Hs5, Hs4, Hs3, Hs2, Hs1. apply btrfs_filesystems_joined; [|done].
    intros f from member Hf Hno. destruct Hm as [->|Hm]; [by left|by right|by apply elem_of_nil in Hf|].
    exists asked, filesystems, f, member. split_and!; try done.
    intros m Hin Ha. by eapply Hno, btrfs_backing_devices_spec. }
  set (state7 := collect_system_mounts entries state6).
  pose proof (system_mount_known entries state6) as Hmounts. fold state7 in Hmounts.
  pose proof (grow_btrfs state7.(ProviderState.mounts) btrfs (graph_of state6) Hmounts) as Hg8.
  set (state8 := on_graph _ state7). change (growing (graph_of state6) (graph_of state8)) in Hg8.
  pose proof (grow_zfs zfs (graph_of state8)) as Hg9.
  destruct (enrich_zfs zfs (graph_of state8)) as [g9 diagnostics]. simpl in Hg9.
  pose proof (grow_nvme nvme g9) as Hg10. intros [= <-].
  assert (growing (graph_of state6) (enrich_nvme nvme g9)) as Hg by (etrans; [exact Hg8|]; by etrans).
  split.
  - by apply (joined_but_grow _ _ _ _ Hg).
  - intros m id Hin Hsrc. eapply has_node_grow; [exact Hg|]. by eapply Hmounts.
Qed.
End pass.
