(* ===== verification/Targets.v ===== *)
(** * Target resolution: [resolve_action_with_bindings] of
      [storage-runtime/src/targets.rs]

    From a frozen action and a fresh observation to the UUID-qualified endpoint
    a backend may touch. *)

From S2P Require Import Prelude Model Reach Graph GraphOrder GraphValid State.
From S2P Require Import Action Contract Logical Evidence Effects Report.
From S2P Require Import Simulate Wire Observation Correlate Observe Execution.
From S2P Require Import Live Recipes Native Scope Bindings.
From S2P Require Import Logical Evidence Effects Report Simulate Wire.
From S2P Require Import Observation Correlate.
From S2P Require Import Observe Execution Live LiveGoal Recipes Native Scope.
From S2P Require Import Bindings.

Implicit Types (run : ExecutionRun) (observed : LiveObservation) (graph : NodeGraph)
  (bs : OutputBindings).

Abbreviation unverified := (Reported TargetError.UnverifiedOutput) (only parsing).
Abbreviation unsupported := (Reported TargetError.UnsupportedAction) (only parsing).
Abbreviation endpoint_error := (Reported TargetError.FilesystemEndpoint) (only parsing).

Section targets.
Context `{UuidText, MountText}.

(** [.map_err(|_| TargetError::UnverifiedOutput)] *)
Definition as_unverified {A} (r : binding A) : targeting A :=
  map_failure (λ _, TargetError.UnverifiedOutput) r.

Definition ext4_uuid (i : ExternalId) : option string :=
  match i with
  | ExternalId.Filesystem fs_type value =>
      if bool_decide (fs_type = "ext4"%string) then Some value else None
  | _ => None
  end.
Definition lv_uuid_of (i : ExternalId) : option string :=
  match i with ExternalId.LvmLvUuid uuid => Some uuid | _ => None end.

(** A mount occupies the requested target or source. *)
Definition mount_conflicts (target : PathBuf) (id : NodeId) (mount : ObservedMount) : bool :=
  bool_decide (mount.(ObservedMount.context) = MountContext.Host) &&
  (starts_with mount.(ObservedMount.target) target ||
   bool_decide (mount.(ObservedMount.source) = MountSource.Filesystem id)).

(** The first part: a mount is resolved as an activation of the volume below
    its filesystem, any other operation is itself. *)
Definition mount_endpoint run bs (baseline : CurrentState) observed (operation : ProviderAction)
    : targeting (option ResolvedFilesystemTarget * ProviderAction) :=
  match operation with
  | ProviderAction.Mount (MountAction.Mount (MountSource.Filesystem fs) target _ _) =>
      let? observed_id := as_unverified (resolve bs run fs observed) in
      if negb (is_ext4_host_mount operation)
         || existsb (mount_conflicts target observed_id) (observed_mounts observed)
      then Err endpoint_error
      else
        let? node := ok_or (Graph.node baseline.(CurrentState.graph) fs) unverified in
        match node.(Node.kind).(NodeSpec.kind) with
        | NodeKind.Filesystem FilesystemKind.Ext4 _ =>
            match filter (λ d, d.(Dependency.kind) = DependencyKind.Backs)
                    (incoming baseline.(CurrentState.graph) fs) with
            | [parent] =>
                let? uuid := ok_or (find_map ext4_uuid (identities node)) unverified in
                Ok (Some (ResolvedFilesystemTarget.mk fs observed_id uuid),
                    ProviderAction.Lvm (LvmAction.SetActivation parent.(Dependency.from_) true))
            | _ => Err unverified
            end
        | _ => Err unsupported
        end
  | _ => Ok (None, operation)
  end.

Definition is_device_path (path : PathBuf) : bool :=
  is_absolute path && negb (existsb (λ part, bool_decide (part = Component.ParentDir)) path)
  && negb (path_contains_nul path).

(** What a volume to be formatted must be. *)
Definition formattable graph (id : NodeId) (node : Node) (label : option string) : bool :=
  negb (is_some_and (λ label, (16 <? String.length label)%nat || string_contains_byte 0 label) label)
  && bool_decide (node.(Node.size).(NodeFacts.lvm_active) = Some true)
  && is_some_and (λ block,
       bool_decide (block.(BlockFacts.read_only) = Some false)
       && bool_decide (is_Some block.(BlockFacts.geometry))
       && negb (bool_decide (block.(BlockFacts.paths) = []))
       && forallb is_device_path block.(BlockFacts.paths)) node.(Node.size).(NodeFacts.block)
  && negb (existsb (λ d, (d.(Dependency.from_) =? id)%N) graph.(NodeGraph.dependencies))
  && negb (existsb (λ r, (r.(Relation.from_) =? id)%N || (r.(Relation.to) =? id)%N)
             graph.(NodeGraph.relations)).

(** The verified volume an activation, a format or a mount works on, and its group. *)
Definition lv_endpoint run bs (baseline : CurrentState) observed (operation : ProviderAction)
    (target : NodeId) : targeting (NodeId * ResolvedLvTarget) :=
  let graph := observed_graph observed in
  let? id := as_unverified (resolve bs run target observed) in
  let? node := ok_or (Graph.node graph id) unverified in
  match node.(Node.kind).(NodeSpec.kind) with
  | NodeKind.LvmLv lv =>
      if bool_decide (lv.(LvmLv.kind) ≠ LvmLvKind.Linear) then Err unsupported
      else
        match incoming baseline.(CurrentState.graph) target with
        | [parent] =>
            if match operation with
               | ProviderAction.Filesystem (FilesystemAction.Create _ _ _ label) =>
                   negb (formattable graph id node label)
               | _ => false
               end
            then Err endpoint_error
            else
              let? uuid := ok_or (find_map lv_uuid_of (identities node)) unverified in
              let? size := ok_or node.(Node.kind).(NodeSpec.size) unverified in
              Ok (parent.(Dependency.from_),
                  ResolvedLvTarget.mk target id uuid lv.(LvmLv.name) size
                    node.(Node.size).(NodeFacts.block))
        | _ => Err unverified
        end
  | _ => Err unsupported
  end.

(** The second part: the group to touch and the volume in it. *)
Definition group_endpoint run bs (baseline : CurrentState) observed
    (operation endpoint : ProviderAction) : targeting (NodeId * option ResolvedLvTarget) :=
  match endpoint with
  | ProviderAction.Lvm (LvmAction.CreateLv vg _ _ _ LvmLvKind.Linear) => Ok (vg, None)
  | ProviderAction.Lvm (LvmAction.SetActivation target true)
  | ProviderAction.Filesystem (FilesystemAction.Create target _ FilesystemKind.Ext4 _) =>
      let? (vg, lv) := lv_endpoint run bs baseline observed operation target in
      Ok (vg, Some lv)
  | _ => Err unsupported
  end.

(** The volume below a filesystem to be mounted. *)
Definition mountable graph (lv : ResolvedLvTarget) : bool :=
  is_some_and (λ node : Node, bool_decide (node.(Node.size).(NodeFacts.lvm_active) = Some true))
    (Graph.node graph lv.(ResolvedLvTarget.observed_id))
  && is_some_and (λ block,
       bool_decide (block.(BlockFacts.read_only) = Some false)
       && bool_decide (is_Some block.(BlockFacts.geometry))
       && (length block.(BlockFacts.paths) =? 1)%nat) lv.(ResolvedLvTarget.block).

(** A volume of the requested name in the group. *)
Definition name_taken graph (vg : NodeId) (name : string) : bool :=
  existsb (λ d, match Graph.node graph d.(Dependency.to) with
                | Some node => match node.(Node.kind).(NodeSpec.kind) with
                               | NodeKind.LvmLv lv => bool_decide (lv.(LvmLv.name) = name)
                               | _ => false
                               end
                | None => false
                end)
    (filter (λ d, d.(Dependency.from_) = vg) graph.(NodeGraph.dependencies)).

(** The native requests must be representable before anything is authorized. *)
Definition check_native_requests graph (operation : ProviderAction) (target : ResolvedTarget)
    (lv_target : option ResolvedLvTarget) : targeting unit :=
  let vg_name := target.(ResolvedTarget.vg_name) in
  let uuid := target.(ResolvedTarget.vg_uuid) in
  let? _ := match operation with
            | ProviderAction.Lvm (LvmAction.CreateLv _ _ name size _) =>
                let? _ := report (map_err TargetError.NativeRequest
                                    (linear_lv_request vg_name uuid name size)) in
                if name_taken graph target.(ResolvedTarget.observed_id) name
                then Err (Reported TargetError.NameConflict) else Ok tt
            | _ => Ok tt
            end in
  match lv_target with
  | Some lv =>
      let? _ := report (map_err TargetError.NativeRequest
        (lv_activation_request vg_name uuid lv.(ResolvedLvTarget.lv_name)
           lv.(ResolvedLvTarget.lv_uuid) lv.(ResolvedLvTarget.size))) in Ok tt
  | None => Ok tt
  end.

(** The group in the observation. *)
Definition vg_endpoint (baseline : CurrentState) observed (vg : NodeId) : targeting ResolvedTarget :=
  let? mapping := map_failure TargetError.Correlation
                    (correlate_nodes baseline observed.(LiveObservation.snapshot) [vg]) in
  let? found := index mapping 0 in
  let? node := ok_or (Graph.node (observed_graph observed) found.(NodeCorrelation.target))
                 (Reported TargetError.ScopeChanged) in
  match found.(NodeCorrelation.identity), node.(Node.kind).(NodeSpec.kind) with
  | ExternalId.LvmVgUuid uuid, NodeKind.LvmVg vg_name _ =>
      Ok (ResolvedTarget.mk vg found.(NodeCorrelation.target) uuid vg_name)
  | _, _ => Err unsupported
  end.

Definition resolve_action_with_bindings run (action : ActionId) observed (backend : BackendId) bs
    : targeting ResolvedAction :=
  let? _ := report (map_err TargetError.Observation (validate_observation observed)) in
  let? planned := ok_or (find_first (λ item, (item.(PlannedAction.id) =? action)%nat)
                           run.(ExecutionRun.plan).(ExecutionPlan.actions))
                    (Reported (TargetError.Run (ExecutionRunError.UnknownAction action))) in
  let operation := planned.(PlannedAction.operation) in
  let? baseline := as_unverified (reviewed_scope bs run observed) in
  let? (filesystem_target, endpoint) := mount_endpoint run bs baseline observed operation in
  let? (vg, lv_target) := group_endpoint run bs baseline observed operation endpoint in
  if bool_decide (is_Some filesystem_target) &&
     negb (is_some_and (mountable (observed_graph observed)) lv_target)
  then Err endpoint_error
  else
    let? target := vg_endpoint baseline observed vg in
    let? _ := check_native_requests (observed_graph observed) operation target lv_target in
    let? _ := check_scope baseline observed.(LiveObservation.snapshot) vg in
    Ok (ResolvedAction.mk run.(ExecutionRun.run_id) action operation backend
          observed.(LiveObservation.reference) target lv_target filesystem_target).

Definition resolve_action run (action : ActionId) observed (backend : BackendId)
    : targeting ResolvedAction :=
  resolve_action_with_bindings run action observed backend (bindings_new run).
End targets.

(** * One provider pass: [storage-runtime/src/probe.rs]

    A publication of the probe, bound to its instance and generation, with the
    capacity measured in the same pass.  The probe itself is the operating
    system; its publication is data here. *)

(** [storage-probe/src/snapshot.rs] *)
Module ProbeSnapshot.
Record ProbeSnapshot := mk {
  generation : N;
  lvm_vgs : list LvmVgObservation;
  current : CurrentState }.
End ProbeSnapshot.
Abbreviation ProbeSnapshot := ProbeSnapshot.ProbeSnapshot.

Module ProbeObservationError.
Inductive ProbeObservationError :=
| Capacity (e : PlanSimulationError)
| Observation (e : ObservationError).
#[global] Instance ProbeObservationError_eq_dec : EqDecision ProbeObservationError.
Proof. solve_decision. Defined.
End ProbeObservationError.
Abbreviation ProbeObservationError := ProbeObservationError.ProbeObservationError.

Module ProbedObservation.
Record ProbedObservation := mk {
  observation : LiveObservation;
  capacity : list CapacityEvidence;
  vg_members : list (NodeId * N) }.
#[global] Instance ProbedObservation_eq_dec : EqDecision ProbedObservation.
Proof. solve_decision. Defined.
End ProbedObservation.
Abbreviation ProbedObservation := ProbedObservation.ProbedObservation.

Implicit Types (probed : ProbedObservation).

(** [ProbedObservation::collect]; [now] is the identity of the measured
    baseline, which is dropped, [debug] the text of a string. *)
Definition collect (debug : string → string) (now instance : Uuid) (publication : ProbeSnapshot)
    : result ProbedObservation ProbeObservationError :=
  let records := publication.(ProbeSnapshot.lvm_vgs) in
  let vg_members := (λ r, (r.(LvmVgObservation.node), r.(LvmVgObservation.vg).(LvmVgEntry.pv_count)))
                      <$> records in
  let? measured := map_err ProbeObservationError.Capacity
    (from_lvm_observations debug now publication.(ProbeSnapshot.current) records) in
  let observation := LiveObservation.mk
    (ObservationReference.mk instance publication.(ProbeSnapshot.generation))
    measured.(HistoricalBaseline.snapshot) in
  let? _ := map_err ProbeObservationError.Observation (validate_observation observation) in
  Ok (ProbedObservation.mk observation measured.(HistoricalBaseline.capacity_evidence) vg_members).

Definition into_baseline (fresh_id : Uuid) probed : HistoricalBaseline :=
  HistoricalBaseline.mk fresh_id
    probed.(ProbedObservation.observation).(LiveObservation.snapshot) probed.(ProbedObservation.capacity).

Definition is_pv_uuid (i : ExternalId) : bool :=
  match i with ExternalId.LvmPvUuid _ => true | _ => false end.

Definition is_pv_edge (d : Dependency) : bool :=
  bool_decide (d.(Dependency.kind) = DependencyKind.MemberOf MemberRole.LvmPv).

(** One member: a present, sized PV with one unshared UUID, a member of one
    group, on a physical drive. *)
Definition complete_member (graph : NodeGraph) (edge : Dependency) : bool :=
  match Graph.node graph edge.(Dependency.from_) with
  | None => false
  | Some node =>
      bool_decide (node.(Node.size).(NodeFacts.presence) = Presence.Present)
      && bool_decide (node.(Node.kind).(NodeSpec.kind) = NodeKind.LvmPv)
      && is_some_and (λ size, negb (size =? 0)%N) node.(Node.kind).(NodeSpec.size)
      && match List.filter is_pv_uuid (identities node) with
         | [ExternalId.LvmPvUuid uuid] =>
             is_trimmed uuid
             && (length (holders graph (ExternalId.LvmPvUuid uuid)) =? 1)%nat
             && (length (List.filter (λ d, (d.(Dependency.from_) =? edge.(Dependency.from_))%N &&
                                           is_pv_edge d) graph.(NodeGraph.dependencies)) =? 1)%nat
             && existsb (is_drive graph) (ancestors graph edge.(Dependency.from_))
         | _ => false
         end
  end.

Definition membership_unknown : LiveCheckStatus :=
  LiveCheckStatus.Unknown
    "complete, present PV membership and physical backing consistent with the measured VG count".

(** [ProbedObservation::check_vg_membership] *)
Definition check_vg_membership probed (vg : NodeId) : LiveCheckStatus :=
  let graph := probed.(ProbedObservation.observation).(LiveObservation.snapshot).(CurrentState.graph) in
  if negb (existsb (λ item, bool_decide (item.(CapacityEvidence.domain) =
                                         AllocationDomain.LvmVolumeGroup vg))
             probed.(ProbedObservation.capacity))
  then membership_unknown
  else
    match filter (λ e : NodeId * N, e.1 = vg) probed.(ProbedObservation.vg_members) with
    | [(_, expected)] =>
        let members := List.filter (λ d, (d.(Dependency.to) =? vg)%N && is_pv_edge d)
                         graph.(NodeGraph.dependencies) in
        if (expected =? 0)%N || negb (N.of_nat (length members) =? expected)%N
           || negb (forallb (complete_member graph) members)
        then membership_unknown
        else LiveCheckStatus.Satisfied
    | _ => membership_unknown
    end.

Section checks.
Variable display : CorrelationError → string.

Definition probed_prerequisites probed (baseline : HistoricalBaseline)
    (prerequisites : list ActionPrerequisite) : live ObservedPrerequisites :=
  check_observed_prerequisites_with_capacity display baseline probed.(ProbedObservation.observation)
    probed.(ProbedObservation.capacity) prerequisites.

(** [ProbedObservation::check_prerequisites_with_bindings] *)
Definition probed_prerequisites_with_bindings probed (baseline : HistoricalBaseline)
    (prerequisites : list ActionPrerequisite) (known : list NodeCorrelation)
    : live ObservedPrerequisites :=
  check_observed_prerequisites_with_bindings display baseline probed.(ProbedObservation.observation)
    probed.(ProbedObservation.capacity) prerequisites known.
End checks.
