(* ===== verification/Assemble.v ===== *)
(** * Assembly of the current state: [storage-probe/src/assemble.rs]

    Providers with distinct responsibilities contribute to one state; what they
    disagree about is reported and supplies no capacity.  [LinuxProbe] numbers
    the publications. *)

From S2P Require Import Prelude Model Reach Graph State Observe Recipes Scope Bindings Native ProbeNames.
From S2P Require Import ProbeBlock ProbeTopology Targets.

#[local] Open Scope string_scope.
#[local] Open Scope list_scope.

Module ProviderConnectionKind.
Inductive ProviderConnectionKind := BuiltIn | StabbyDynamicLibrary | Process.
Definition debug (kind : ProviderConnectionKind) : string :=
  match kind with
  | BuiltIn => "BuiltIn" | StabbyDynamicLibrary => "StabbyDynamicLibrary" | Process => "Process" end.
End ProviderConnectionKind.
Abbreviation ProviderConnectionKind := ProviderConnectionKind.ProviderConnectionKind.

(** A [StateProvider] with its answer in this pass. *)
Module StateProvider.
Record StateProvider := mk {
  id : string;
  responsibility : string;
  connection_kind : ProviderConnectionKind;
  answer : probing ProviderState }.
End StateProvider.
Abbreviation StateProvider := StateProvider.StateProvider.

Definition empty_environment : Environment := Environment.mk SystemEnvironment.default None.
Definition empty_current_state : CurrentState :=
  CurrentState.mk (NodeGraph.mk ∅ [] []) (MountState.mk []) empty_environment [].

(** The state of an assembly: the current state, the first provider of every
    node, the nodes providers disagree about. *)
Module Assembly.
Record Assembly := mk {
  state : CurrentState;
  owners : gmap NodeId string;
  conflicts : gset NodeId }.
End Assembly.
Abbreviation Assembly := Assembly.Assembly.

Implicit Types (a : Assembly) (state : CurrentState).

Definition push_diagnostics (diagnostics : list Diagnostic) state : CurrentState :=
  CurrentState.mk state.(CurrentState.graph) state.(CurrentState.mounts) state.(CurrentState.environment)
    (state.(CurrentState.diagnostics) ++ diagnostics).
Definition with_state_graph (graph : NodeGraph) state : CurrentState :=
  CurrentState.mk graph state.(CurrentState.mounts) state.(CurrentState.environment)
    state.(CurrentState.diagnostics).

Section assemble.
Context `{ProbeText}.

Definition node_conflict a (provider_id : string) (id : NodeId) : Diagnostic :=
  diagnostic "provider.node_conflict" DiagnosticSeverity.Error [DiagnosticSubject.Node id]
    ("providers disagree about node " +:+ debug_node id)
    ((λ owner, "first provider: " +:+ owner +:+ "; conflicting provider: " +:+ provider_id)
       <$> a.(Assembly.owners) !! id)
    (Some "repeat probing and inspect provider evidence").

Definition merge_node (provider_id : string) a (entry : NodeId * Node) : Assembly :=
  let '(id, node) := entry in
  match Graph.node a.(Assembly.state).(CurrentState.graph) id with
  | Some existing =>
      if bool_decide (existing ≠ node)
      then Assembly.mk (push_diagnostics [node_conflict a provider_id id] a.(Assembly.state))
             a.(Assembly.owners) ({[id]} ∪ a.(Assembly.conflicts))
      else a
  | None =>
      match insert_new a.(Assembly.state).(CurrentState.graph) id node with
      | Ok graph => Assembly.mk (with_state_graph graph a.(Assembly.state))
                      (<[id := provider_id]> a.(Assembly.owners)) a.(Assembly.conflicts)
      | Err _ => a
      end
  end.

Definition environment_conflict (provider_id : string) : Diagnostic :=
  diagnostic "provider.environment_conflict" DiagnosticSeverity.Warning [DiagnosticSubject.Environment]
    ("provider " +:+ provider_id +:+ " reported conflicting environment facts") None
    (Some "repeat environment probing").

Definition merge_environment (provider_id : string) (environment : option Environment) state
    : CurrentState :=
  match environment with
  | None => state
  | Some environment =>
      if bool_decide (state.(CurrentState.environment) = empty_environment)
      then CurrentState.mk state.(CurrentState.graph) state.(CurrentState.mounts) environment
             state.(CurrentState.diagnostics)
      else if bool_decide (state.(CurrentState.environment) ≠ environment)
      then push_diagnostics [environment_conflict provider_id] state
      else state
  end.

Definition merge_edges (contribution : NodeGraph) (graph : NodeGraph) : NodeGraph :=
  foldl (λ graph r, (insert_relation graph r).2)
    (foldl (λ graph d, (insert_dependency graph d).2) graph contribution.(NodeGraph.dependencies))
    contribution.(NodeGraph.relations).

Definition add_mounts (mounts : list ObservedMount) state : CurrentState :=
  CurrentState.mk state.(CurrentState.graph)
    (MountState.mk (state.(CurrentState.mounts).(MountState.entries) ++ mounts))
    state.(CurrentState.environment) state.(CurrentState.diagnostics).

Definition merge_provider_state (provider_id : string) (contribution : ProviderState) a : Assembly :=
  let a := foldl (merge_node provider_id) a
             (map_to_list contribution.(ProviderState.graph).(NodeGraph.nodes)) in
  let state := a.(Assembly.state) in
  let state := state
    ▷ with_state_graph (merge_edges contribution.(ProviderState.graph) state.(CurrentState.graph))
    ▷ add_mounts contribution.(ProviderState.mounts)
    ▷ merge_environment provider_id contribution.(ProviderState.environment)
    ▷ push_diagnostics contribution.(ProviderState.diagnostics) in
  Assembly.mk state a.(Assembly.owners) a.(Assembly.conflicts).

Definition provider_failure (provider : StateProvider) (error : ProviderProbeError) : Diagnostic :=
  diagnostic "provider.probe_failed" DiagnosticSeverity.MissingInformation []
    ("provider " +:+ provider.(StateProvider.id) +:+ " (" +:+
       ProviderConnectionKind.debug provider.(StateProvider.connection_kind) +:+
       ") could not inspect its storage responsibility")
    (Some (error.(ProviderProbeError.code) +:+ ": " +:+ error.(ProviderProbeError.message)))
    (Some "install or repair the provider backend and repeat probing").

Definition responsibility_conflict (responsibility : string) (providers : list StateProvider)
    : Diagnostic :=
  diagnostic "provider.responsibility_conflict" DiagnosticSeverity.Error []
    ("multiple providers own responsibility " +:+ responsibility)
    (Some (String.concat ", " ((λ p, p.(StateProvider.id) +:+ " (" +:+
             ProviderConnectionKind.debug p.(StateProvider.connection_kind) +:+ ")") <$> providers)))
    (Some "assign each provider a distinct responsibility").

(** [by_responsibility], in the order of its keys *)
Definition responsibilities (providers : list StateProvider) : list string :=
  sort_by String.leb (remove_dups (StateProvider.responsibility <$> providers)).
Definition adapters (providers : list StateProvider) (responsibility : string) : list StateProvider :=
  List.filter (λ p, bool_decide (p.(StateProvider.responsibility) = responsibility)) providers.

(** One responsibility: the assembly, the capacity records and the providers
    called so far. *)
Definition probe_responsibility (providers : list StateProvider)
    (acc : Assembly * list LvmVgObservation * list StateProvider) (responsibility : string)
    : Assembly * list LvmVgObservation * list StateProvider :=
  let '(a, lvm_vgs, called) := acc in
  match adapters providers responsibility with
  | [adapter] =>
      match adapter.(StateProvider.answer) with
      | Ok contribution => (merge_provider_state adapter.(StateProvider.id) contribution a,
                            lvm_vgs ++ contribution.(ProviderState.lvm_vgs), called ++ [adapter])
      | Err error => (Assembly.mk (push_diagnostics [provider_failure adapter error] a.(Assembly.state))
                        a.(Assembly.owners) a.(Assembly.conflicts), lvm_vgs, called ++ [adapter])
      end
  | several => (Assembly.mk (push_diagnostics [responsibility_conflict responsibility several]
                               a.(Assembly.state)) a.(Assembly.owners) a.(Assembly.conflicts),
                lvm_vgs, called)
  end.

Definition assemble (providers : list StateProvider)
    : Assembly * list LvmVgObservation * list StateProvider :=
  foldl (probe_responsibility providers) (Assembly.mk empty_current_state ∅ ∅, [], [])
    (responsibilities providers).

Definition probe_with_observations (providers : list StateProvider)
    : CurrentState * list LvmVgObservation :=
  let '(a, lvm_vgs, _) := assemble providers in
  (a.(Assembly.state),
   List.filter (λ o, negb (bool_decide (o.(LvmVgObservation.node) ∈ a.(Assembly.conflicts)))) lvm_vgs).

(** [assemble::probe] *)
Definition probe_current (providers : list StateProvider) : CurrentState :=
  (probe_with_observations providers).1.

(** ** Publications *)

(** [LinuxProbe]: the instance and the last generation; its adapters answer
    anew in every pass. *)
Record LinuxProbe := mk_probe { instance_id : Uuid; generation : N }.

(** [LinuxProbe::probe]; an exhausted counter panics. *)
Definition publish_probe (providers : list StateProvider) (probe : LinuxProbe)
    : result (LinuxProbe * ProbeSnapshot) (Failure Empty_set) :=
  let '(current, lvm_vgs) := probe_with_observations providers in
  match u64_checked_add probe.(generation) 1 with
  | None => Err Panicked
  | Some next => Ok (mk_probe probe.(instance_id) next, ProbeSnapshot.mk next lvm_vgs current)
  end.
End assemble.
