(* ===== verification/AssembleProps.v ===== *)
(** * What providers contribute to the current state

    The assembly is compared with a declarative account of it: the providers
    consulted, what they report about a node, and which reports count. *)

From S2P Require Import Prelude Model Reach Graph GraphOrder State Observe Recipes Scope Bindings Native.
From S2P Require Import ProbeNames ProbeBlock ProbeTopology Targets Assemble.
From S2P Require Import ProbeProps.

#[local] Open Scope string_scope.
#[local] Open Scope list_scope.

Implicit Types (a : Assembly) (id : NodeId) (p : StateProvider) (providers : list StateProvider).

(** ** The account *)

(** The one provider of a responsibility. *)
Definition sole providers (responsibility : string) : list StateProvider :=
  match adapters providers responsibility with [p] => [p] | _ => [] end.

(** The providers that are called, in order. *)
Definition consulted providers : list StateProvider := responsibilities providers ≫= sole providers.

(** What a provider contributed. *)
Definition contribution p : option ProviderState :=
  match p.(StateProvider.answer) with Ok state => Some state | Err _ => None end.

(** What it reports about a node, and what several report, in order. *)
Definition report id p : option Node :=
  contribution p ≫= λ c, c.(ProviderState.graph).(NodeGraph.nodes) !! id.
Definition reports (called : list StateProvider) id : list Node := omap (report id) called.

(** Two of them disagree about the node. *)
Definition contested (called : list StateProvider) id : Prop :=
  ∃ n m, n ∈ reports called id ∧ m ∈ reports called id ∧ n ≠ m.

Abbreviation nodes_of a := (a.(Assembly.state).(CurrentState.graph).(NodeGraph.nodes)) (only parsing).
Abbreviation diagnostics_of a := (a.(Assembly.state).(CurrentState.diagnostics)) (only parsing).

Definition mentions_conflict id (d : Diagnostic) : Prop :=
  d.(Diagnostic.code) = "provider.node_conflict" ∧
  d.(Diagnostic.severity) = DiagnosticSeverity.Error ∧
  d.(Diagnostic.subjects) = [DiagnosticSubject.Node id].

Lemma responsibilities_elem providers r :
  r ∈ responsibilities providers ↔ ∃ p, p ∈ providers ∧ p.(StateProvider.responsibility) = r.
Proof.
  unfold responsibilities. rewrite sort_by_perm, elem_of_remove_dups, list_elem_of_fmap. naive_solver.
Qed.

Lemma adapters_elem providers r p :
  p ∈ adapters providers r ↔ p ∈ providers ∧ p.(StateProvider.responsibility) = r.
Proof.
  unfold adapters. rewrite list_elem_of_In, filter_In, <-list_elem_of_In, bool_decide_eq_true. done.
Qed.

Lemma consulted_elem providers p :
  p ∈ consulted providers ↔
  p ∈ providers ∧ adapters providers p.(StateProvider.responsibility) = [p].
Proof.
  unfold consulted. rewrite list_elem_of_bind. unfold sole. split.
  - intros (r & Hin & Hr). destruct (adapters providers r) as [|q [|? ?]] eqn:Ha;
      try (by apply elem_of_nil in Hin). apply list_elem_of_singleton in Hin as ->.
    assert (q ∈ adapters providers r) as [? Hq]%adapters_elem by (rewrite Ha; left).
    by rewrite Hq.
  - intros [Hin Ha]. exists p.(StateProvider.responsibility). rewrite Ha.
    split; [left|]. apply responsibilities_elem. by exists p.
Qed.

(** ** One contribution *)

Section assembly.
Context `{ProbeText}.

Lemma merge_node_lookup provider a id n id' :
  nodes_of (merge_node provider a (id, n)) !! id' =
  match nodes_of a !! id' with
  | Some existing => Some existing
  | None => if decide (id = id') then Some n else None
  end.
Proof.
  unfold merge_node, node. destruct (nodes_of a !! id) as [existing|] eqn:Hid.
  - assert (nodes_of a !! id' = match nodes_of a !! id' with
      | Some existing => Some existing | None => if decide (id = id') then Some n else None end) as Heq.
    { destruct (nodes_of a !! id') eqn:Hid'; [done|]. case_decide; [congruence|done]. }
    case_bool_decide; exact Heq.
  - unfold insert_new. rewrite Hid. simpl. rewrite lookup_insert. case_decide as Hd.
    + subst id'. by rewrite Hid.
    + by destruct (nodes_of a !! id').
Qed.

Lemma merge_node_conflicts provider a id n id' :
  id' ∈ (merge_node provider a (id, n)).(Assembly.conflicts) ↔
  id' ∈ a.(Assembly.conflicts) ∨
  (id = id' ∧ ∃ existing, nodes_of a !! id = Some existing ∧ existing ≠ n).
Proof.
  unfold merge_node, node. destruct (nodes_of a !! id) as [existing|] eqn:Hid.
  - case_bool_decide as Hne; simpl; [set_solver|]. split; [auto|]. intros [?|(<- & ? & [= <-] & ?)]; done.
  - unfold insert_new. rewrite Hid. simpl. naive_solver.
Qed.

(** Diagnostics only accumulate, and a new conflict has one. *)
Lemma merge_node_diagnostics provider a id n :
  (∀ d, d ∈ diagnostics_of a → d ∈ diagnostics_of (merge_node provider a (id, n))) ∧
  (∀ id', id' ∈ (merge_node provider a (id, n)).(Assembly.conflicts) → id' ∉ a.(Assembly.conflicts) →
     ∃ d, d ∈ diagnostics_of (merge_node provider a (id, n)) ∧ mentions_conflict id' d).
Proof.
  unfold merge_node, node. destruct (nodes_of a !! id) as [existing|] eqn:Hid.
  - case_bool_decide; simpl; [|done]. split; [set_solver|]. intros id' Hin Hn.
    assert (id' = id) as -> by set_solver. eexists. split; [apply elem_of_app; right; left|]. done.
  - unfold insert_new. rewrite Hid. done.
Qed.

(** The nodes of a contribution, folded in. *)
Lemma merge_nodes_spec provider l a : NoDup l.*1 →
  let a' := foldl (merge_node provider) a l in
  (∀ id, nodes_of a' !! id = match nodes_of a !! id with
                             | Some existing => Some existing
                             | None => (list_to_map l : gmap NodeId Node) !! id
                             end) ∧
  (∀ id, id ∈ a'.(Assembly.conflicts) ↔ id ∈ a.(Assembly.conflicts) ∨
     ∃ existing n, nodes_of a !! id = Some existing ∧
       (list_to_map l : gmap NodeId Node) !! id = Some n ∧ existing ≠ n).
Proof.
  revert a. induction l as [|[id n] l IH]; intros a Hnd; simpl.
  { split; [|set_solver]. intros id. by destruct (nodes_of a !! id). }
  apply NoDup_cons in Hnd as [Hid Hnd]. simpl in Hid.
  apply not_elem_of_list_to_map_1 in Hid as Hfresh.
  destruct (IH (merge_node provider a (id, n)) Hnd) as [Hn Hc]. split.
  - intros id'. rewrite Hn, merge_node_lookup, lookup_insert. simpl.
    destruct (nodes_of a !! id'); [done|]. by case_decide.
  - intros id'. rewrite Hc, merge_node_conflicts, merge_node_lookup, lookup_insert.
    destruct (decide (id = id')) as [<-|Hne].
    + destruct (nodes_of a !! id) eqn:Ha; naive_solver congruence.
    + destruct (nodes_of a !! id') eqn:Ha; naive_solver.
Qed.

Lemma merge_nodes_diagnostics provider l a :
  let a' := foldl (merge_node provider) a l in
  (∀ d, d ∈ diagnostics_of a → d ∈ diagnostics_of a') ∧
  (∀ id, id ∈ a'.(Assembly.conflicts) → id ∉ a.(Assembly.conflicts) →
     ∃ d, d ∈ diagnostics_of a' ∧ mentions_conflict id d).
Proof.
  revert a. induction l as [|[id n] l IH]; intros a; simpl; [done|].
  destruct (IH (merge_node provider a (id, n))) as [Hd Hc].
  destruct (merge_node_diagnostics provider a id n) as [Hd1 Hc1]. split; [auto|].
  intros id' Hin Hn. destruct (decide (id' ∈ (merge_node provider a (id, n)).(Assembly.conflicts))) as [Hm|Hm].
  - destruct (Hc1 id' Hm Hn) as (d & ? & ?). eauto.
  - by apply Hc.
Qed.

Lemma merge_edges_nodes contribution g : (merge_edges contribution g).(NodeGraph.nodes) = g.(NodeGraph.nodes).
Proof.
  unfold merge_edges.
  assert (∀ l g, (foldl (λ g d, (insert_dependency g d).2) g l).(NodeGraph.nodes) = g.(NodeGraph.nodes)) as Hd.
  { induction l as [|d l IH]; intros g0; [done|]. simpl. rewrite IH.
    unfold insert_dependency. by destruct (set_insert _ _). }
  assert (∀ l g, (foldl (λ g r, (insert_relation g r).2) g l).(NodeGraph.nodes) = g.(NodeGraph.nodes)) as Hr.
  { induction l as [|r l IH]; intros g0; [done|]. simpl. rewrite IH.
    unfold insert_relation. by destruct (set_insert _ _). }
  by rewrite Hr, Hd.
Qed.

Lemma merge_environment_graph provider environment state :
  (merge_environment provider environment state).(CurrentState.graph) = state.(CurrentState.graph).
Proof. unfold merge_environment. repeat case_match; done. Qed.
Lemma merge_environment_diagnostics provider environment state d :
  d ∈ state.(CurrentState.diagnostics) →
  d ∈ (merge_environment provider environment state).(CurrentState.diagnostics).
Proof. unfold merge_environment. repeat case_match; simpl; set_solver. Qed.

(** A contribution: the first report of a node stays, a different one is a
    conflict, and conflicts and diagnostics accumulate. *)
Lemma merge_provider_state_spec provider c a :
  let a' := merge_provider_state provider c a in
  (∀ id, nodes_of a' !! id = match nodes_of a !! id with
                             | Some existing => Some existing
                             | None => c.(ProviderState.graph).(NodeGraph.nodes) !! id
                             end) ∧
  (∀ id, id ∈ a'.(Assembly.conflicts) ↔ id ∈ a.(Assembly.conflicts) ∨
     ∃ existing n, nodes_of a !! id = Some existing ∧
       c.(ProviderState.graph).(NodeGraph.nodes) !! id = Some n ∧ existing ≠ n) ∧
  (∀ d, d ∈ diagnostics_of a ∨ d ∈ c.(ProviderState.diagnostics) → d ∈ diagnostics_of a') ∧
  (∀ id, id ∈ a'.(Assembly.conflicts) → id ∉ a.(Assembly.conflicts) →
     ∃ d, d ∈ diagnostics_of a' ∧ mentions_conflict id d).
Proof.
  unfold merge_provider_state. cbv zeta.
  set (l := map_to_list _). set (a1 := foldl (merge_node provider) a l).
  destruct (merge_nodes_spec provider l a (NoDup_fst_map_to_list _)) as [Hn Hc].
  destruct (merge_nodes_diagnostics provider l a) as [Hd Hcd]. fold a1 in Hn, Hc, Hd, Hcd.
  unfold l in Hn, Hc. rewrite list_to_map_to_list in Hn. setoid_rewrite list_to_map_to_list in Hc.
  assert (∀ d, d ∈ diagnostics_of a1 ∨ d ∈ c.(ProviderState.diagnostics) → d ∈
    (push_diagnostics c.(ProviderState.diagnostics)
       (merge_environment provider c.(ProviderState.environment) (add_mounts c.(ProviderState.mounts)
          (with_state_graph (merge_edges c.(ProviderState.graph) a1.(Assembly.state).(CurrentState.graph))
             a1.(Assembly.state))))).(CurrentState.diagnostics)) as Hkeep.
  { intros d [?|?]; apply elem_of_app; [left|by right]. by apply merge_environment_diagnostics. }
  split_and!.
  - intros id. cbn. rewrite merge_environment_graph. cbn. rewrite merge_edges_nodes. apply Hn.
  - exact Hc.
  - intros d [?|?]; apply Hkeep; auto.
  - intros id Hin Hno. destruct (Hcd id Hin Hno) as (d & ? & ?). eauto.
Qed.

(** ** The whole assembly *)

(** The assembly after the providers [called]. *)
Record assembled (called : list StateProvider)
    (acc : Assembly * list LvmVgObservation * list StateProvider) : Prop := {
  assembled_called : acc.2 = called;
  assembled_nodes id : nodes_of acc.1.1 !! id = head (reports called id);
  assembled_conflicts id : id ∈ acc.1.1.(Assembly.conflicts) ↔ contested called id;
  assembled_records o : o ∈ acc.1.2 ↔
    ∃ p c, p ∈ called ∧ contribution p = Some c ∧ o ∈ c.(ProviderState.lvm_vgs);
  assembled_diagnosed id : contested called id →
    ∃ d, d ∈ diagnostics_of acc.1.1 ∧ mentions_conflict id d }.

Lemma reports_snoc called p id : reports (called ++ [p]) id = reports called id ++ option_list (report id p).
Proof. unfold reports. rewrite omap_app. simpl. by destruct (report id p). Qed.

Lemma head_app {A} (l k : list A) :
  head (l ++ k) = match head l with Some x => Some x | None => head k end.
Proof. by destruct l. Qed.

Lemma contested_snoc called p id :
  contested (called ++ [p]) id ↔ contested called id ∨
  ∃ n m, head (reports called id) = Some n ∧ report id p = Some m ∧ n ≠ m.
Proof.
  unfold contested. rewrite reports_snoc. destruct (report id p) as [m|]; simpl.
  2: { rewrite app_nil_r. naive_solver. }
  split.
  - intros (x & y & Hx & Hy & Hne). destruct (reports called id) as [|n l]; [set_solver|].
    destruct (decide (n = m)) as [->|?]; [|naive_solver].
    left. exists x, y. set_solver.
  - intros [(x & y & ? & ? & ?)|(n & m' & Hn & [= <-] & Hne)]; [exists x, y; set_solver|].
    exists n, m. destruct (reports called id); set_solver.
Qed.

Lemma assembled_merge called a records p c : p.(StateProvider.answer) = Ok c →
  assembled called (a, records, called) →
  assembled (called ++ [p])
    (merge_provider_state p.(StateProvider.id) c a, records ++ c.(ProviderState.lvm_vgs), called ++ [p]).
Proof.
  intros Hp [_ Hn Hc Hr Hd]. simpl in Hn, Hc, Hr, Hd.
  assert (contribution p = Some c) as Hcon by (unfold contribution; by rewrite Hp).
  assert (∀ id, report id p = c.(ProviderState.graph).(NodeGraph.nodes) !! id) as Hrep.
  { intros id. unfold report. by rewrite Hcon. }
  destruct (merge_provider_state_spec p.(StateProvider.id) c a) as (Hn' & Hc' & Hd' & Hcd').
  assert (∀ id, id ∈ (merge_provider_state p.(StateProvider.id) c a).(Assembly.conflicts) ↔
                contested (called ++ [p]) id) as Hconf.
  { intros id. rewrite Hc', Hc, contested_snoc, Hrep. by setoid_rewrite Hn. }
  split; simpl; [done| |done| |].
  - intros id. rewrite Hn', Hn, reports_snoc, Hrep, head_app.
    destruct (head _); [done|]. by destruct (_ !! id).
  - intros o. rewrite elem_of_app, Hr. split.
    + intros [(q & c' & ? & ? & ?)|?]; [exists q, c'|exists p, c]; set_solver.
    + intros (q & c' & [?|Hq%list_elem_of_singleton]%elem_of_app & ? & ?); [naive_solver|].
      subst q. simplify_eq. by right.
  - intros id Hid. destruct (decide (id ∈ a.(Assembly.conflicts))) as [Hold|Hold].
    + apply Hc, Hd in Hold as (d & ? & ?). exists d. split; [apply Hd'; auto|done].
    + apply Hcd'; [by apply Hconf|done].
Qed.

Lemma assembled_diagnostic called a records called' diagnostic :
  assembled called (a, records, called') →
  assembled called (Assembly.mk (push_diagnostics [diagnostic] a.(Assembly.state)) a.(Assembly.owners)
                      a.(Assembly.conflicts), records, called').
Proof.
  intros [Hl Hn Hc Hr Hd]. split; simpl in *; try done.
  intros id Hid. destruct (Hd id Hid) as (d & ? & ?). exists d. split; [|done].
  apply elem_of_app. by left.
Qed.

Lemma assembled_failure called a records p e : p.(StateProvider.answer) = Err e →
  assembled called (a, records, called) → assembled (called ++ [p]) (a, records, called ++ [p]).
Proof.
  intros Hp [_ Hn Hc Hr Hd]. simpl in *.
  assert (contribution p = None) as Hcon by (unfold contribution; by rewrite Hp).
  assert (∀ id, reports (called ++ [p]) id = reports called id) as Hrep.
  { intros id. rewrite reports_snoc. unfold report. rewrite Hcon. apply app_nil_r. }
  split; simpl; unfold contested; try setoid_rewrite Hrep; try done.
  intros o. rewrite Hr. split.
  - intros (q & c & ? & ? & ?). exists q, c. set_solver.
  - intros (q & c & [?|Hq%list_elem_of_singleton]%elem_of_app & ? & ?); [naive_solver|]. congruence.
Qed.

Lemma assembled_responsibility providers called r acc : assembled called acc →
  assembled (called ++ sole providers r) (probe_responsibility providers acc r).
Proof.
  destruct acc as [[a records] called']. intros Ha. destruct (assembled_called _ _ Ha). simpl in *.
  unfold sole. destruct (adapters providers r) as [|p [|q l]].
  - rewrite app_nil_r. by apply assembled_diagnostic.
  - destruct (StateProvider.answer p) eqn:Hp; [by apply assembled_merge|].
    by apply assembled_diagnostic; eapply assembled_failure.
  - rewrite app_nil_r. by apply assembled_diagnostic.
Qed.

Lemma assemble_spec providers : assembled (consulted providers) (assemble providers).
Proof.
  unfold assemble, consulted.
  assert (∀ l called acc, assembled called acc →
    assembled (called ++ (l ≫= sole providers)) (foldl (probe_responsibility providers) acc l)) as Hfold.
  { induction l as [|r l IH]; intros called acc Ha; simpl; [by rewrite app_nil_r|].
    rewrite app_assoc. by apply IH, assembled_responsibility. }
  apply (Hfold _ []). split; simpl; try done.
  - intros id. split; [set_solver|]. intros (? & ? & ?%elem_of_nil & _). done.
  - set_solver.
  - intros id (? & ? & ?%elem_of_nil & _). done.
Qed.

Lemma probe_with_observations_spec providers state records :
  probe_with_observations providers = (state, records) →
  (∀ id, state.(CurrentState.graph).(NodeGraph.nodes) !! id = head (reports (consulted providers) id)) ∧
  (∀ o, o ∈ records ↔ ¬ contested (consulted providers) o.(LvmVgObservation.node) ∧
     ∃ p c, p ∈ consulted providers ∧ contribution p = Some c ∧ o ∈ c.(ProviderState.lvm_vgs)) ∧
  (∀ id, contested (consulted providers) id →
     ∃ d, d ∈ state.(CurrentState.diagnostics) ∧ mentions_conflict id d).
Proof.
  unfold probe_with_observations. pose proof (assemble_spec providers) as Ha.
  destruct (assemble providers) as [[a vgs] called]. intros [= <- <-].
  destruct Ha as [_ Hn Hc Hr Hd]. simpl in *. split_and!; [done| |done].
  intros o. rewrite list_elem_of_In, filter_In, <-list_elem_of_In, negb_true_iff, bool_decide_eq_false, Hr, Hc.
  naive_solver.
Qed.

(** C36: A node of the assembled state is what the first consulted provider that
    reports it says, and a capacity record is published exactly when a consulted
    provider measured it and no two of them disagree about its group. *)
Theorem assembled_state_spec providers state records :
  probe_with_observations providers = (state, records) →
  (∀ id, state.(CurrentState.graph).(NodeGraph.nodes) !! id = head (reports (consulted providers) id)) ∧
  (∀ o, o ∈ records ↔ ¬ contested (consulted providers) o.(LvmVgObservation.node) ∧
     ∃ p c, p ∈ consulted providers ∧ contribution p = Some c ∧ o ∈ c.(ProviderState.lvm_vgs)).
Proof. intros Hp. by apply probe_with_observations_spec in Hp as (? & ? & _). Qed.

(** ** Diagnostics *)

(** What the state must say about a responsibility. *)
Definition accounted providers (r : string) (diagnostics : list Diagnostic) : Prop :=
  match adapters providers r with
  | [p] => match p.(StateProvider.answer) with
           | Ok c => ∀ d, d ∈ c.(ProviderState.diagnostics) → d ∈ diagnostics
           | Err e => provider_failure p e ∈ diagnostics
           end
  | several => responsibility_conflict r several ∈ diagnostics
  end.

Lemma accounted_mono providers r l l' :
  (∀ d, d ∈ l → d ∈ l') → accounted providers r l → accounted providers r l'.
Proof.
  intros Hl. unfold accounted. destruct (adapters _ _) as [|p [|? ?]]; try apply Hl.
  destruct (StateProvider.answer p); [|apply Hl]. auto.
Qed.

Lemma probe_responsibility_accounts providers acc r :
  (∀ d, d ∈ diagnostics_of acc.1.1 → d ∈ diagnostics_of (probe_responsibility providers acc r).1.1) ∧
  accounted providers r (diagnostics_of (probe_responsibility providers acc r).1.1).
Proof.
  destruct acc as [[a records] called]. unfold probe_responsibility, accounted.
  destruct (adapters providers r) as [|p [|q l]]; try (simpl; set_solver).
  destruct (StateProvider.answer p) as [c|e]; [|simpl; set_solver].
  destruct (merge_provider_state_spec p.(StateProvider.id) c a) as (_ & _ & Hd & _). simpl. auto.
Qed.

Lemma assemble_accounts providers r : r ∈ responsibilities providers →
  accounted providers r (diagnostics_of (assemble providers).1.1).
Proof.
  unfold assemble. generalize (Assembly.mk empty_current_state ∅ ∅, [] : list LvmVgObservation, [] : list StateProvider).
  assert (∀ l acc, ∀ d, d ∈ diagnostics_of acc.1.1 →
    d ∈ diagnostics_of (foldl (probe_responsibility providers) acc l).1.1) as Hmono.
  { induction l as [|r' l IH]; intros acc d Hd; [done|]. by apply IH, probe_responsibility_accounts. }
  induction (responsibilities providers) as [|r' l IH]; intros acc; [by intros ?%elem_of_nil|].
  intros [->|Hin]%elem_of_cons; [|by apply IH]. simpl.
  eapply accounted_mono; [apply Hmono|]. apply probe_responsibility_accounts.
Qed.

(** Nothing is lost silently.  A node two consulted providers disagree about
    has an error diagnostic; a responsibility several providers claim has one
    and none of them is consulted; a failed provider has a diagnostic naming it;
    what a successful provider diagnosed is in the state. *)
Theorem assembly_diagnoses providers state records :
  probe_with_observations providers = (state, records) →
  (∀ id, contested (consulted providers) id →
     ∃ d, d ∈ state.(CurrentState.diagnostics) ∧ mentions_conflict id d) ∧
  (∀ p, p ∈ providers → let r := p.(StateProvider.responsibility) in
     (p ∈ consulted providers ∨ responsibility_conflict r (adapters providers r) ∈ state.(CurrentState.diagnostics)) ∧
     (p ∈ consulted providers → match p.(StateProvider.answer) with
        | Ok c => ∀ d, d ∈ c.(ProviderState.diagnostics) → d ∈ state.(CurrentState.diagnostics)
        | Err e => provider_failure p e ∈ state.(CurrentState.diagnostics)
        end)).
Proof.
  intros Hp. split; [by apply probe_with_observations_spec in Hp as (_ & _ & ?)|].
  intros p Hin. cbv zeta. set (r := p.(StateProvider.responsibility)).
  assert (accounted providers r state.(CurrentState.diagnostics)) as Hacc.
  { unfold probe_with_observations in Hp. pose proof (assemble_accounts providers r) as Ha.
    destruct (assemble providers) as [[a vgs] called]. simplify_eq. apply Ha.
    apply responsibilities_elem. by exists p. }
  assert (p ∈ adapters providers r) as Hpa by by apply adapters_elem.
  split.
  - rewrite consulted_elem. fold r. unfold accounted in Hacc.
    destruct (adapters providers r) as [|q [|? ?]]; [by apply elem_of_nil in Hpa| |by right].
    apply list_elem_of_singleton in Hpa as ->. by left.
  - intros [_ Ha]%consulted_elem. fold r in Ha. unfold accounted in Hacc. by rewrite Ha in Hacc.
Qed.

(** ** Joined graphs *)

Lemma grow_merge_node provider a entry :
  grow (λ _, False) a.(Assembly.state).(CurrentState.graph)
    (merge_node provider a entry).(Assembly.state).(CurrentState.graph).
Proof.
  destruct entry as [id n]. unfold merge_node. destruct (node _ id) eqn:Hid.
  - case_bool_decide; reflexivity.
  - pose proof (grow_upsert (λ _, False) id n a.(Assembly.state).(CurrentState.graph)) as Hg.
    rewrite upsert_observation_eq in Hg. unfold insert_new. unfold node in Hid. by rewrite Hid.
Qed.

Lemma merge_node_has provider a id n :
  has_node (merge_node provider a (id, n)).(Assembly.state).(CurrentState.graph) id.
Proof. unfold has_node. rewrite merge_node_lookup, decide_True by done. by destruct (_ !! id). Qed.

Lemma grow_merge_nodes provider l a :
  grow (λ _, False) a.(Assembly.state).(CurrentState.graph)
    (foldl (merge_node provider) a l).(Assembly.state).(CurrentState.graph) ∧
  ∀ e, e ∈ l → has_node (foldl (merge_node provider) a l).(Assembly.state).(CurrentState.graph) e.1.
Proof.
  revert a. induction l as [|[id n] l IH]; intros a; [by split; [|intros ? ?%elem_of_nil]|]. simpl.
  destruct (IH (merge_node provider a (id, n))) as [Hg Hk].
  split; [etrans; [apply grow_merge_node|exact Hg]|].
  intros e [->|?]%elem_of_cons; [|by apply Hk]. eapply has_node_grow; [exact Hg|]. apply merge_node_has.
Qed.

Lemma grow_merge_edges c g : joined c → (∀ id, has_node c id → has_node g id) →
  grow (λ _, False) g (merge_edges c g).
Proof.
  intros Hj Hn. unfold merge_edges. set (g1 := foldl _ g _).
  assert (grow (λ _, False) g g1) as Hg1.
  { apply grow_fold. intros g' [from to kind] Hd Hg'. apply (joined_dependency c) in Hd as [? ?]; [|done].
    apply grow_dependency; left; by eapply has_node_grow, Hn. }
  etrans; [exact Hg1|].
  apply grow_fold. intros g' [from to kind] Hr Hg'. apply (joined_relation c) in Hr as [? ?]; [|done].
  apply grow_relation; left; eapply has_node_grow, Hn; try done; by etrans.
Qed.

Lemma grow_merge provider c a : joined c.(ProviderState.graph) →
  grow (λ _, False) a.(Assembly.state).(CurrentState.graph)
    (merge_provider_state provider c a).(Assembly.state).(CurrentState.graph).
Proof.
  intros Hj. unfold merge_provider_state. cbv zeta.
  destruct (grow_merge_nodes provider (map_to_list c.(ProviderState.graph).(NodeGraph.nodes)) a) as [Hg Hk].
  cbn. rewrite merge_environment_graph. cbn. etrans; [exact Hg|]. apply grow_merge_edges; [done|].
  intros id [n Hid]. by apply (Hk (id, n)), elem_of_map_to_list.
Qed.

(** When every contribution is joined, so is the assembled graph, whatever
    the providers disagree about. *)
Theorem assembled_graph_joined providers :
  (∀ p c, p ∈ providers → contribution p = Some c → joined c.(ProviderState.graph)) →
  joined (probe_current providers).(CurrentState.graph).
Proof.
  intros Hall. unfold probe_current, probe_with_observations, assemble.
  assert (∀ l acc, joined acc.1.1.(Assembly.state).(CurrentState.graph) →
    joined (foldl (probe_responsibility providers) acc l).1.1.(Assembly.state).(CurrentState.graph)) as Hfold.
  { induction l as [|r l IH]; intros [[a records] called] Hj; [done|]. apply IH. unfold probe_responsibility.
    destruct (adapters providers r) as [|p [|? ?]] eqn:Ha; [done| |done].
    destruct (StateProvider.answer p) as [c|] eqn:Hc; [|done].
    eapply grow_joined, Hj. apply grow_merge. apply (Hall p).
    - apply (adapters_elem _ r). rewrite Ha. left.
    - unfold contribution. by rewrite Hc. }
  specialize (Hfold (responsibilities providers) (Assembly.mk empty_current_state ∅ ∅, [], []) joined_empty).
  by destruct (foldl _ _ _) as [[a records] called].
Qed.

(** ** Publications *)

(** Successive passes of one probe. *)
Fixpoint publish_all (passes : list (list StateProvider)) (probe : LinuxProbe)
    : result (LinuxProbe * list ProbeSnapshot) (Failure Empty_set) :=
  match passes with
  | [] => Ok (probe, [])
  | providers :: passes =>
      let? (probe, snapshot) := publish_probe providers probe in
      let? (probe, snapshots) := publish_all passes probe in
      Ok (probe, snapshot :: snapshots)
  end.

(** What a pass publishes under a number. *)
Definition publication (generation : N) (providers : list StateProvider) : ProbeSnapshot :=
  let '(current, lvm_vgs) := probe_with_observations providers in ProbeSnapshot.mk generation lvm_vgs current.

Lemma publish_probe_eq providers probe :
  publish_probe providers probe =
  if (probe.(generation) + 1 <=? u64_MAX)%N
  then Ok (mk_probe probe.(instance_id) (probe.(generation) + 1),
           publication (probe.(generation) + 1) providers)
  else Err Panicked.
Proof.
  unfold publish_probe, publication, u64_checked_add.
  destruct (probe_with_observations providers) as [current vgs]. by destruct (_ <=? _)%N.
Qed.

(** The passes of one probe are published in order under consecutive
    generations, each once, until the 64-bit counter is exhausted; the pass
    after that panics and publishes nothing. *)
Theorem publications_numbered passes probe :
  publish_all passes probe =
  if (length passes =? 0)%nat || (probe.(generation) + N.of_nat (length passes) <=? u64_MAX)%N
  then Ok (mk_probe probe.(instance_id) (probe.(generation) + N.of_nat (length passes)),
           imap (λ i providers, publication (probe.(generation) + 1 + N.of_nat i) providers) passes)
  else Err Panicked.
Proof.
  revert probe. induction passes as [|providers passes IH]; intros [instance last].
  { simpl. by rewrite N.add_0_r. }
  cbn [publish_all]. rewrite publish_probe_eq. cbn [length Nat.eqb orb generation instance_id].
  rewrite Nat2N.inj_succ, <-N.add_1_l, !N.add_assoc.
  destruct (N.leb_spec (last + 1) u64_MAX) as [Hle|Hgt].
  2: { destruct (N.leb_spec (last + 1 + N.of_nat (length passes)) u64_MAX); [lia|done]. }
  rewrite IH. cbn [generation instance_id].
  assert ((length passes =? 0)%nat || (last + 1 + N.of_nat (length passes) <=? u64_MAX)%N =
          (last + 1 + N.of_nat (length passes) <=? u64_MAX)%N) as ->.
  { destruct passes; [|done]. symmetry. apply N.leb_le. cbn. lia. }
  destruct (_ <=? _)%N; [|done]. cbn [imap]. rewrite N.add_0_r. do 3 f_equal.
  apply imap_ext. intros i x _. cbn. f_equal. lia.
Qed.
End assembly.
