(* ===== verification/Checkpoint.v ===== *)
(** * Checkpoints: [storage-runtime/src/checkpoint.rs]

    The record of one action whose dispatch may have begun.  JSON text and
    SHA-256 are parameters; the limits on the record are checked here. *)

From S2P Require Import Prelude Model Reach Graph GraphOrder GraphValid State.
From S2P Require Import Action Contract Logical Evidence Effects Report.
From S2P Require Import Simulate Wire Observation Correlate Observe Execution.
From S2P Require Import Live Recipes Native Scope Bindings.
From S2P Require Import Logical Evidence Effects Report Simulate Wire.
From S2P Require Import Observation Correlate.
From S2P Require Import Observe Execution Live Json Recipes Native Scope.
From S2P Require Import Bindings.

Definition CHECKPOINT_SCHEMA_VERSION : N := 1.
Definition MAX_CHECKPOINT_BYTES : nat := N.to_nat 65536.
Definition MAX_TARGETS : nat := 64.
Definition MAX_EXTERNAL_IDS : nat := 16.
Definition MAX_STRING_BYTES : nat := N.to_nat 1024.

Module LeaseError.
Inductive LeaseError :=
| Io (message : string)
| InsecureDirectory
| InvalidLockFile
| Busy
| NotChecking
| Run (e : ExecutionRunError).
#[global] Instance LeaseError_eq_dec : EqDecision LeaseError.
Proof. solve_decision. Defined.
End LeaseError.
Abbreviation LeaseError := LeaseError.LeaseError.

Module CheckpointError.
Inductive CheckpointError :=
| Lease (e : LeaseError)
| Io (message : string)
| Json
| SchemaVersion (version : N)
| TooLarge
| InvalidData (what : string)
| UnsupportedAction
| NotAdmitted
| AlreadyActive
| AttemptMismatch
| InvalidFile
| Poisoned
| Run (e : ExecutionRunError)
| Document (e : PlanDocumentError).
#[global] Instance CheckpointError_eq_dec : EqDecision CheckpointError.
Proof. solve_decision. Defined.
End CheckpointError.
Abbreviation CheckpointError := CheckpointError.CheckpointError.

Module ActiveAttempt.
Record ActiveAttempt := mk {
  schema_version : N;
  run_id : Uuid;
  plan_id : Uuid;
  action_id : ActionId;
  operation_id : option Uuid;
  action : ProviderAction;
  targets : list TargetFingerprint;
  plan_digest : string;
  backend_id : BackendId }.
#[global] Instance ActiveAttempt_eq_dec : EqDecision ActiveAttempt.
Proof. solve_decision. Defined.
End ActiveAttempt.
Abbreviation ActiveAttempt := ActiveAttempt.ActiveAttempt.

(** The text and the value of an attempt, the encoders of a plan and the
    serializers its analysis uses, and the digest in lowercase hexadecimal. *)
Class CheckpointCodec := {
  attempt_text : ActiveAttempt → option string;
  parse_attempt : string → option ActiveAttempt;
  attempt_value : ActiveAttempt → option Value;
  parse_value : string → option Value;
  plan_encoder :: WireEncoder;
  digest_display : GraphError → string;
  digest_json : Serializers;
  digest_json' : Serializers;
  sha256_hex : string → string }.

Fixpoint within_limits (value : Value) : bool :=
  match value with
  | Value.String text => (String.length text <=? MAX_STRING_BYTES)%nat
  | Value.Array values => forallb within_limits values
  | Value.Object values => forallb (λ entry, within_limits entry.2) values
  | _ => true
  end.

Definition check_string_limits (value : Value) : result unit CheckpointError :=
  if within_limits value then Ok tt else Err CheckpointError.TooLarge.

Definition is_lowercase_hex (byte : N) : bool :=
  ((48 <=? byte) && (byte <=? 57) || (97 <=? byte) && (byte <=? 102))%N.

Module PrimaryIdentity.
Inductive PrimaryIdentity := VolumeGroup | LogicalVolume | Filesystem.
End PrimaryIdentity.
Abbreviation PrimaryIdentity := PrimaryIdentity.PrimaryIdentity.

Section checkpoint.
Context `{UuidText, CheckpointCodec}.

(** The primary target of an action that may be persisted. *)
Definition primary_target (action : ProviderAction) : option (NodeId * PrimaryIdentity) :=
  match action with
  | ProviderAction.Lvm (LvmAction.CreateLv vg planned _ size _) =>
      if negb (is_nil planned) && negb (size =? 0)%N
      then Some (vg, PrimaryIdentity.VolumeGroup) else None
  | ProviderAction.Lvm (LvmAction.SetActivation target _) =>
      Some (target, PrimaryIdentity.LogicalVolume)
  | ProviderAction.Filesystem (FilesystemAction.Create backing planned FilesystemKind.Ext4 label) =>
      if negb (is_nil planned) && negb (planned =? backing)%N
         && is_none_or (λ label, (String.length label <=? 16)%nat &&
                                 negb (string_contains_byte 0 label)) label
      then Some (backing, PrimaryIdentity.LogicalVolume) else None
  | ProviderAction.Mount (MountAction.Mount (MountSource.Filesystem fs) _ _ _) =>
      if is_ext4_host_mount action then Some (fs, PrimaryIdentity.Filesystem) else None
  | _ => None
  end.

Definition identifies (kind : PrimaryIdentity) (id : ExternalId) : bool :=
  match kind, id with
  | PrimaryIdentity.VolumeGroup, ExternalId.LvmVgUuid value
  | PrimaryIdentity.LogicalVolume, ExternalId.LvmLvUuid value => negb (is_blank value)
  | PrimaryIdentity.Filesystem, ExternalId.Filesystem fs_type value =>
      bool_decide (fs_type = "ext4"%string) && canonical_uuid value
  | _, _ => false
  end.

(** The loop over the fingerprints. *)
Definition check_fingerprint (targets : list TargetFingerprint) (primary : NodeId)
    (kind : PrimaryIdentity) (entry : nat * TargetFingerprint) : result unit CheckpointError :=
  let '(index, target) := entry in
  let id := target.(TargetFingerprint.planned_id) in
  let ids := target.(TargetFingerprint.external_ids) in
  if is_nil id
     || existsb (λ other, (other.(TargetFingerprint.planned_id) =? id)%N) (take index targets)
     || bool_decide (ids = [])
  then Err (CheckpointError.InvalidData "missing or duplicate target identity")
  else if (MAX_EXTERNAL_IDS <? length ids)%nat then Err CheckpointError.TooLarge
  else if (id =? primary)%N && negb (existsb (identifies kind) ids)
  then Err (CheckpointError.InvalidData "primary target requires its native UUID")
  else Ok tt.

(** [ActiveAttempt::validate] *)
Definition validate_attempt (attempt : ActiveAttempt) : result unit CheckpointError :=
  let digest := attempt.(ActiveAttempt.plan_digest) in
  let targets := attempt.(ActiveAttempt.targets) in
  if negb (attempt.(ActiveAttempt.schema_version) =? CHECKPOINT_SCHEMA_VERSION)%N
  then Err (CheckpointError.SchemaVersion attempt.(ActiveAttempt.schema_version))
  else if is_nil attempt.(ActiveAttempt.run_id) || is_nil attempt.(ActiveAttempt.plan_id)
          || is_some_and is_nil attempt.(ActiveAttempt.operation_id)
  then Err (CheckpointError.InvalidData "nil attempt identity")
  else if negb (String.length digest =? 64)%nat || negb (forallb is_lowercase_hex (utf8 digest))
  then Err (CheckpointError.InvalidData "invalid SHA-256 plan digest")
  else
    match primary_target attempt.(ActiveAttempt.action) with
    | None => Err CheckpointError.UnsupportedAction
    | Some (primary, kind) =>
        if negb (existsb (λ t, (t.(TargetFingerprint.planned_id) =? primary)%N) targets)
        then Err (CheckpointError.InvalidData "missing primary target fingerprint")
        else if (MAX_TARGETS <? length targets)%nat then Err CheckpointError.TooLarge
        else
          let? _ := try_all (check_fingerprint targets primary kind) (enumerate targets) in
          let? value := ok_or (attempt_value attempt) CheckpointError.Json in
          check_string_limits value
    end.

Definition to_bytes (attempt : ActiveAttempt) : result string CheckpointError :=
  let? _ := validate_attempt attempt in
  let? bytes := ok_or (attempt_text attempt) CheckpointError.Json in
  if (MAX_CHECKPOINT_BYTES <? String.length bytes)%nat then Err CheckpointError.TooLarge
  else Ok bytes.

Definition from_bytes (bytes : string) : result ActiveAttempt CheckpointError :=
  if (MAX_CHECKPOINT_BYTES <? String.length bytes)%nat then Err CheckpointError.TooLarge
  else
    let? attempt := ok_or (parse_attempt bytes) CheckpointError.Json in
    let? _ := validate_attempt attempt in
    let? input := ok_or (parse_value bytes) CheckpointError.Json in
    let? value := ok_or (attempt_value attempt) CheckpointError.Json in
    if negb (value_eqb input value)
    then Err (CheckpointError.InvalidData "unrecognized or noncanonical fields")
    else Ok attempt.

(** [plan_digest] *)
Definition digest_of (document : PlanDocument) : result string (Failure PlanDocumentError) :=
  let? text := canonical_json digest_display digest_json digest_json' document in
  Ok (sha256_hex text).

(** [ActiveAttempt::capture] *)
Definition capture (run : ExecutionRun) (action : ActionId) (operation : option Uuid)
    (targets : list TargetFingerprint) (backend : BackendId)
    : result ActiveAttempt (Failure CheckpointError) :=
  let? state := map_failure CheckpointError.Run (run_state run action) in
  if bool_decide (state ≠ ActionRunState.Admitted_) then Err (Reported CheckpointError.NotAdmitted)
  else
    let? planned := index run.(ExecutionRun.plan).(ExecutionPlan.actions) action in
    let? digest := map_failure CheckpointError.Document (digest_of run.(ExecutionRun.document)) in
    let attempt := ActiveAttempt.mk CHECKPOINT_SCHEMA_VERSION run.(ExecutionRun.run_id)
      run.(ExecutionRun.document).(PlanDocument.plan_id) action operation
      planned.(PlannedAction.operation) targets digest backend in
    let? _ := report (to_bytes attempt) in
    Ok attempt.
End checkpoint.

(** ** What a stored attempt is *)

(** The codec reads back what it wrote. *)
Class CodecLaws `{CheckpointCodec} := {
  parse_attempt_text attempt text : attempt_text attempt = Some text → parse_attempt text = Some attempt;
  parse_value_text attempt text : attempt_text attempt = Some text → parse_value text = attempt_value attempt }.

Section laws.
Context `{UuidText, CheckpointCodec, !CodecLaws}.

(** What is published can be read back, unchanged. *)
Lemma from_to_bytes attempt bytes : to_bytes attempt = Ok bytes → from_bytes bytes = Ok attempt.
Proof.
  unfold to_bytes, from_bytes. destruct (validate_attempt attempt) as [[]|] eqn:Hv; [|done]. simpl.
  destruct (attempt_text attempt) as [text|] eqn:Ht; [|done]. simpl.
  destruct (_ <? _) eqn:Hlen; [done|]. intros [= <-]. rewrite Hlen.
  rewrite (parse_attempt_text _ _ Ht). simpl. rewrite Hv. simpl.
  rewrite (parse_value_text _ _ Ht).
  assert (is_Some (attempt_value attempt)) as [v ->].
  { unfold validate_attempt in Hv. repeat case_match; try done; simplify_eq/=.
    destruct (try_all _ _); [|done]. destruct (attempt_value attempt); [by eexists|done]. }
  simpl. by rewrite value_eqb_refl.
Qed.

Lemma capture_spec run action operation targets backend attempt :
  capture run action operation targets backend = Ok attempt →
  ∃ bytes planned digest, to_bytes attempt = Ok bytes ∧
    run_state run action = Ok ActionRunState.Admitted_ ∧
    run.(ExecutionRun.plan).(ExecutionPlan.actions) !! action = Some planned ∧
    digest_of run.(ExecutionRun.document) = Ok digest ∧
    attempt = ActiveAttempt.mk CHECKPOINT_SCHEMA_VERSION run.(ExecutionRun.run_id)
      run.(ExecutionRun.document).(PlanDocument.plan_id) action operation
      planned.(PlannedAction.operation) targets digest backend.
Proof.
  unfold capture, index. destruct (run_state run action) as [state|[]]; [|done..]. simpl.
  case_bool_decide as Hs; [done|]. subst state.
  destruct (_ !! action) as [planned|] eqn:Hp; [|done]. simpl.
  destruct (digest_of _) as [digest|[]]; [|done..]. simpl.
  destruct (to_bytes _) as [bytes|] eqn:Hb; [|done]. simpl. intros [= <-]. eauto 10.
Qed.
End laws.

(** * The execution root: [storage-runtime/src/lease.rs] and
      [checkpoint/store.rs]

    The host-wide lock and the single active checkpoint below one private
    directory.  The system calls are operations of an interface [Os] on a state
    of the machine, each of which may fail; what the store relies on about
    them is [OsLaws]. *)

(** ** Computations on the machine *)

Definition Sys (S E A : Type) : Type := S → S * result A E.

Definition sys_return {S E A} (a : A) : Sys S E A := λ s, (s, Ok a).
Definition sys_fail {S E A} (e : E) : Sys S E A := λ s, (s, Err e).
Definition sys_bind {S E A B} (m : Sys S E A) (k : A → Sys S E B) : Sys S E B :=
  λ s, let '(s', r) := m s in match r with Ok a => k a s' | Err e => (s', Err e) end.
Definition sys_of {S E A} (r : result A E) : Sys S E A := λ s, (s, r).
Definition sys_map_err {S E F A} (f : E → F) (m : Sys S E A) : Sys S F A :=
  λ s, let '(s', r) := m s in (s', map_err f r).
(** What a failed computation leaves behind is cleaned up by [undo]. *)
Definition sys_or_undo {S E A} (undo : S → S) (m : Sys S E A) : Sys S E A :=
  λ s, let '(s', r) := m s in match r with Ok a => (s', Ok a) | Err e => (undo s', Err e) end.

Notation "'let*' x := m 'in' k" := (sys_bind m (λ x, k))
  (at level 10, x pattern, m at level 100, k at level 200) : rust_scope.

(** ** System calls *)

Module Errno.
Inductive Errno := WOULDBLOCK | NOENT | EXIST | Other (code : N).
#[global] Instance Errno_eq_dec : EqDecision Errno.
Proof. solve_decision. Defined.
End Errno.
Abbreviation Errno := Errno.Errno.

Module Stat.
Record Stat := mk {
  st_dev : N; st_ino : N; st_uid : N; st_mode : N; st_nlink : N; st_size : Z }.
#[global] Instance Stat_eq_dec : EqDecision Stat.
Proof. solve_decision. Defined.
End Stat.
Abbreviation Stat := Stat.Stat.

(** The calls relative to the retained directory.  [open_lock] opens or creates
    [execution.lock] and [close_lock] is the drop of its descriptor; [open_active]
    opens [active-attempt.json] for the two calls after it; the temporary file
    has a fresh name, and [replace_with_temporary] is the rename that fails when
    the active name exists. *)
Class Os (S : Type) := {
  geteuid : S → N;
  errno_text : Errno → string;
  fstat_directory : Sys S Errno Stat;
  open_lock : Sys S Errno unit;
  fstat_lock : Sys S Errno Stat;
  stat_lock_name : Sys S Errno Stat;
  flock : Sys S Errno unit;
  close_lock : S → S;
  duplicate_directory : Sys S Errno unit;
  duplicate_lock : Sys S Errno unit;
  open_active : Sys S Errno unit;
  fstat_active : Sys S Errno Stat;
  read_active : nat → Sys S Errno string;
  stat_active_name : Sys S Errno Stat;
  create_temporary : Sys S Errno unit;
  chmod_temporary : Sys S Errno unit;
  write_temporary : string → Sys S Errno unit;
  sync_temporary : Sys S Errno unit;
  publish_temporary : Sys S Errno unit;
  unlink_temporary : Sys S Errno unit;
  unlink_active : Sys S Errno unit;
  sync_directory : Sys S Errno unit }.

(** [FileType::from_raw_mode(mode) == FileType::RegularFile] *)
Definition is_regular (mode : N) : bool := (N.land mode 61440 =? 32768)%N.

Section lease.
Context {S : Type} `{Os S}.

Abbreviation leasing A := (Sys S LeaseError A) (only parsing).

Definition lease_io {A} (m : Sys S Errno A) : leasing A :=
  sys_map_err (λ e, LeaseError.Io (errno_text (S:=S) e)) m.

(** [0o7777], [0o700] and [0o7177] *)
Definition secure_directory (euid : N) (info : Stat) : bool :=
  (info.(Stat.st_uid) =? euid)%N && (N.land info.(Stat.st_mode) 4095 =? 448)%N
  && negb (info.(Stat.st_nlink) =? 0)%N.

Definition private_file (euid : N) (info : Stat) : bool :=
  is_regular info.(Stat.st_mode) && (info.(Stat.st_uid) =? euid)%N
  && (N.land info.(Stat.st_mode) 3711 =? 0)%N && (info.(Stat.st_nlink) =? 1)%N.

Definition same_inode (a b : Stat) : bool :=
  (a.(Stat.st_dev) =? b.(Stat.st_dev))%N && (a.(Stat.st_ino) =? b.(Stat.st_ino))%N.

Definition validate_directory : leasing unit :=
  let* info := lease_io fstat_directory in
  λ s, (s, if secure_directory (geteuid s) info then Ok tt else Err LeaseError.InsecureDirectory).

Definition validate_lock : leasing unit :=
  let* info := lease_io fstat_lock in
  let* named := lease_io stat_lock_name in
  λ s, (s, if private_file (geteuid s) info && same_inode info named
           then Ok tt else Err LeaseError.InvalidLockFile).

(** [HostExecutionLock::validate] *)
Definition validate_host_lock : leasing unit := let* _ := validate_directory in validate_lock.

Definition acquire_flock : leasing unit :=
  sys_map_err (λ e, match e with
                    | Errno.WOULDBLOCK => LeaseError.Busy
                    | e => LeaseError.Io (errno_text (S:=S) e)
                    end) flock.

(** A failure after the file is open drops its descriptor. *)
Definition try_lock_host : leasing unit :=
  let* _ := validate_directory in
  let* _ := lease_io open_lock in
  sys_or_undo close_lock (
    let* _ := validate_lock in
    let* _ := acquire_flock in
    let* _ := validate_lock in
    let* _ := lease_io duplicate_directory in
    validate_directory).

(** ** Leases *)

Record ExecutionLease := mk_lease {
  lease_run_id : Uuid; lease_action : ActionId; held_resources : list ResourceAccess }.

(** The part of [from_lock] that reads the run. *)
Definition lease_of (run : ExecutionRun) (action : ActionId)
    : result ExecutionLease (Failure LeaseError) :=
  let? state := map_failure LeaseError.Run (run_state run action) in
  if bool_decide (state ≠ ActionRunState.Checking) then Err (Reported LeaseError.NotChecking)
  else
    let? planned := ok_or (find_first (λ a, (a.(PlannedAction.id) =? action)%nat)
                             run.(ExecutionRun.plan).(ExecutionPlan.actions))
                      (Reported (LeaseError.Run (ExecutionRunError.UnknownAction action))) in
    Ok (mk_lease run.(ExecutionRun.run_id) action
          planned.(PlannedAction.informational_contract).(ActionContract.affected_resources)).

Definition sys_report {E A} (m : Sys S E A) : Sys S (Failure E) A := sys_map_err Reported m.

Definition under_host_lock (run : ExecutionRun) (action : ActionId)
    : Sys S (Failure LeaseError) ExecutionLease :=
  let* _ := sys_report (lease_io duplicate_directory) in
  let* _ := sys_report (lease_io duplicate_lock) in
  sys_of (lease_of run action).

Definition try_acquire (run : ExecutionRun) (action : ActionId)
    : Sys S (Failure LeaseError) ExecutionLease :=
  let* state := sys_of (map_failure LeaseError.Run (run_state run action)) in
  if bool_decide (state ≠ ActionRunState.Checking) then sys_fail (Reported LeaseError.NotChecking)
  else
    let* _ := sys_report try_lock_host in
    sys_or_undo close_lock (sys_of (lease_of run action)).

(** ** The checkpoint store *)

Context `{UuidText, CheckpointCodec}.

Abbreviation storing A := (Sys S CheckpointError A) (only parsing).

Definition store_io {A} (m : Sys S Errno A) : storing A :=
  sys_map_err (λ e, CheckpointError.Io (errno_text (S:=S) e)) m.

Definition store_lease {A} (m : leasing A) : storing A := sys_map_err CheckpointError.Lease m.

Definition validate_file (info : Stat) : storing unit :=
  λ s, (s, if private_file (geteuid s) info then Ok tt else Err CheckpointError.InvalidFile).

(** The contents of an opened active file. *)
Definition read_opened : storing (ActiveAttempt * Stat) :=
  let* info := store_io fstat_active in
  let* _ := validate_file info in
  if (Z.of_nat MAX_CHECKPOINT_BYTES <? info.(Stat.st_size))%Z then sys_fail CheckpointError.TooLarge
  else
    let* bytes := store_io (read_active (MAX_CHECKPOINT_BYTES + 1)) in
    let* attempt := sys_of (from_bytes bytes) in
    sys_return (attempt, info).

Definition read_current : storing (option (ActiveAttempt * Stat)) :=
  let* _ := store_lease validate_host_lock in
  λ s, match open_active s with
       | (s, Err Errno.NOENT) => (s, Ok None)
       | (s, Err e) => (s, Err (CheckpointError.Io (errno_text (S:=S) e)))
       | (s, Ok _) => (let* found := read_opened in sys_return (Some found)) s
       end.

Definition inspect : storing (option ActiveAttempt) :=
  let* current := read_current in sys_return (fst <$> current).

Definition require_healthy (poisoned : bool) : storing unit :=
  if poisoned then sys_fail CheckpointError.Poisoned else sys_return tt.

(** A mutation of the store returns the flag it leaves in the handle. *)
Definition mutating (poisoned : bool) (m : storing unit) : S → S * (bool * result unit CheckpointError) :=
  λ s, let '(s, r) := m s in (s, (match r with Ok _ => poisoned | Err _ => true end, r)).
(** The checks before it leave the flag as it is. *)
Definition checked {A} (poisoned : bool) (m : storing A)
    (k : A → S → S * (bool * result unit CheckpointError)) : S → S * (bool * result unit CheckpointError) :=
  λ s, let '(s, r) := m s in match r with Ok a => k a s | Err e => (s, (poisoned, Err e)) end.

(** The closure of [arm]: write, synchronize, publish, synchronize. *)
Definition publish (bytes : string) : storing unit :=
  let* _ := store_io chmod_temporary in
  let* _ := store_io (write_temporary bytes) in
  let* _ := store_io sync_temporary in
  let* _ := store_lease validate_host_lock in
  let* _ := sys_map_err (λ e, match e with
                              | Errno.EXIST => CheckpointError.AlreadyActive
                              | e => CheckpointError.Io (errno_text (S:=S) e)
                              end) publish_temporary in
  store_io sync_directory.

(** [arm] and [clear] check first and change after: the fallible calls before
    the first change do not poison the handle. *)
Definition arm_check (poisoned : bool) (attempt : ActiveAttempt) : storing string :=
  let* _ := require_healthy poisoned in
  let* existing := inspect in
  if bool_decide (is_Some existing) then sys_fail CheckpointError.AlreadyActive
  else sys_of (to_bytes attempt).

(** Only the staging name is cleaned up after a failure. *)
Definition arm_change (bytes : string) : storing unit :=
  let* _ := store_io create_temporary in
  sys_or_undo (λ s, (unlink_temporary s).1) (publish bytes).

Definition arm (poisoned : bool) (attempt : ActiveAttempt)
    : S → S * (bool * result unit CheckpointError) :=
  checked poisoned (arm_check poisoned attempt) (λ bytes, mutating poisoned (arm_change bytes)).

Definition clear_check (poisoned : bool) (expected : ActiveAttempt) : storing unit :=
  let* _ := require_healthy poisoned in
  let* found := read_current in
  match found with
  | None => sys_fail CheckpointError.AttemptMismatch
  | Some (attempt, original) =>
      if bool_decide (attempt ≠ expected) then sys_fail CheckpointError.AttemptMismatch
      else
        let* current := store_io stat_active_name in
        let* _ := validate_file current in
        if negb (same_inode original current) then sys_fail CheckpointError.InvalidFile
        else sys_return tt
  end.

Definition clear_change : storing unit :=
  let* _ := store_lease validate_host_lock in
  let* _ := store_io unlink_active in
  store_io sync_directory.

Definition clear (poisoned : bool) (expected : ActiveAttempt)
    : S → S * (bool * result unit CheckpointError) :=
  checked poisoned (clear_check poisoned expected) (λ _, mutating poisoned clear_change).
End lease.
