(* ===== verification/StoreProps.v ===== *)
(** * The durable marker

    What the store relies on about the system calls, and what its operations
    then guarantee about the one active checkpoint: an attempt is published
    completely or not at all, an existing one is never replaced, and only the
    exact expected attempt is removed. *)

From S2P Require Import Prelude Model Reach Graph GraphOrder GraphValid State Action Contract.
From S2P Require Import Logical Evidence Effects Report Simulate Wire Observation Correlate.
From S2P Require Import Observe Execution Live Recipes Native Scope Bindings.
From S2P Require Import Checkpoint.

(** ** Reasoning about computations on the machine *)

(** Every result satisfies [Q], every failure [X]. *)
Definition outcome {S E A} (m : Sys S E A) (s : S) (Q : A → S → Prop) (X : E → S → Prop) : Prop :=
  match m s with (s', Ok a) => Q a s' | (s', Err e) => X e s' end.

Section outcome.
Context {S : Type}.

Lemma outcome_Ok {E A} (m : Sys S E A) s s' a (Q : A → S → Prop) (X : E → S → Prop) :
  outcome m s Q X → m s = (s', Ok a) → Q a s'.
Proof. unfold outcome. intros Ho Hm. by rewrite Hm in Ho. Qed.

Lemma outcome_bind {E A B} (m : Sys S E A) (k : A → Sys S E B) s Q X :
  outcome m s (λ a s', outcome (k a) s' Q X) X → outcome (sys_bind m k) s Q X.
Proof. unfold outcome, sys_bind. by destruct (m s) as [s' [a|e]]. Qed.

Lemma outcome_mono {E A} (m : Sys S E A) s (Q Q' : A → S → Prop) (X X' : E → S → Prop) :
  outcome m s Q X → (∀ a s', Q a s' → Q' a s') → (∀ e s', X e s' → X' e s') → outcome m s Q' X'.
Proof. unfold outcome. destruct (m s) as [s' [a|e]]; auto. Qed.

Lemma outcome_map_err {E F A} (f : E → F) (m : Sys S E A) s Q (X : F → S → Prop) :
  outcome m s Q (λ e, X (f e)) → outcome (sys_map_err f m) s Q X.
Proof. unfold outcome, sys_map_err. by destruct (m s) as [s' [a|e]]. Qed.

Lemma outcome_of {E A} (r : result A E) s (Q : A → S → Prop) (X : E → S → Prop) :
  (∀ a, r = Ok a → Q a s) → (∀ e, r = Err e → X e s) → outcome (sys_of r) s Q X.
Proof. unfold outcome, sys_of. destruct r; auto. Qed.

Lemma map_failure_Ok {A E F} (f : E → F) (r : result A (Failure E)) a : map_failure f r = Ok a → r = Ok a.
Proof. destruct r as [|[]]; by intros; simplify_eq/=. Qed.

Lemma outcome_undo {E A} undo (m : Sys S E A) s (Q : A → S → Prop) (X : E → S → Prop) :
  outcome m s Q (λ e s', X e (undo s')) → outcome (sys_or_undo undo m) s Q X.
Proof. unfold outcome, sys_or_undo. by destruct (m s) as [s' [a|e]]. Qed.
End outcome.

(** ** Laws of the system calls *)

(** The call leaves both files as they are. *)
Definition quiet {S E A V} (view : S → V) (m : Sys S E A) : Prop := ∀ s, view (m s).1 = view s.

Class OsLaws (S : Type) `{Os S} := {
  (** the contents of [active-attempt.json], of the temporary file, and of the
      opened active file *)
  active : S → option string;
  temporary : S → option string;
  opened : S → option string;
  files s := (active s, temporary s);
  quiet_fstat_directory : quiet files fstat_directory;
  quiet_open_lock : quiet files open_lock;
  quiet_fstat_lock : quiet files fstat_lock;
  quiet_stat_lock_name : quiet files stat_lock_name;
  quiet_flock : quiet files flock;
  quiet_close_lock s : files (close_lock s) = files s;
  quiet_duplicate_directory : quiet files duplicate_directory;
  quiet_duplicate_lock : quiet files duplicate_lock;
  quiet_open_active : quiet files open_active;
  quiet_fstat_active : quiet (λ s, (files s, opened s)) fstat_active;
  quiet_read_active n : quiet files (read_active n);
  quiet_stat_active_name : quiet files stat_active_name;
  quiet_chmod_temporary : quiet files chmod_temporary;
  quiet_sync_temporary : quiet files sync_temporary;
  quiet_sync_directory : quiet files sync_directory;
  (** a fresh file is empty and receives what is written to it *)
  create_temporary_file s : outcome create_temporary s
    (λ _ s', active s' = active s ∧ temporary s' = Some ""%string) (λ _ s', active s' = active s);
  write_temporary_file bytes s : outcome (write_temporary bytes) s
    (λ _ s', active s' = active s ∧ (temporary s = Some ""%string → temporary s' = Some bytes))
    (λ _ s', active s' = active s);
  unlink_temporary_file : quiet active unlink_temporary;
  (** an opened file is the one that has the name *)
  open_active_file s : outcome open_active s
    (λ _ s', is_Some (active s) ∧ opened s' = active s)
    (λ e _, e = Errno.NOENT → active s = None);
  read_active_file n s : outcome (read_active n) s
    (λ bytes _, ∃ contents, opened s = Some contents ∧ bytes = String.substring 0 n contents)
    (λ _ _, True);
  (** the rename succeeds on a free name and moves the file *)
  publish_temporary_file s : outcome publish_temporary s
    (λ _ s', active s = None ∧ active s' = temporary s) (λ _ s', active s' = active s);
  unlink_active_file s : outcome unlink_active s
    (λ _ s', active s' = None) (λ _ s', active s' = active s) }.

Create HintDb quiet.
#[export] Hint Resolve quiet_fstat_directory quiet_open_lock quiet_fstat_lock quiet_stat_lock_name
  quiet_flock quiet_duplicate_directory quiet_duplicate_lock quiet_open_active quiet_read_active
  quiet_stat_active_name quiet_chmod_temporary quiet_sync_temporary quiet_sync_directory : quiet.

Section quiet.
Context {S V : Type} (view : S → V).

Lemma quiet_bind {E A B} (m : Sys S E A) (k : A → Sys S E B) :
  quiet view m → (∀ a, quiet view (k a)) → quiet view (sys_bind m k).
Proof.
  intros Hm Hk s. unfold sys_bind. specialize (Hm s). destruct (m s) as [s' [a|e]]; simpl in *; [|done].
  by rewrite Hk.
Qed.
Lemma quiet_map_err {E F A} (f : E → F) (m : Sys S E A) : quiet view m → quiet view (sys_map_err f m).
Proof. intros Hm s. unfold sys_map_err. specialize (Hm s). by destruct (m s) as [s' r]. Qed.
Lemma quiet_pure {E A} (f : S → result A E) : quiet view (λ s, (s, f s)).
Proof. by intros s. Qed.
Lemma quiet_undo {E A} undo (m : Sys S E A) :
  quiet view m → (∀ s, view (undo s) = view s) → quiet view (sys_or_undo undo m).
Proof.
  intros Hm Hu s. unfold sys_or_undo. specialize (Hm s). destruct (m s) as [s' [a|e]]; simpl in *;
    [done|by rewrite Hu].
Qed.
Lemma quiet_outcome {E A} (m : Sys S E A) s (Q : A → S → Prop) (X : E → S → Prop) :
  quiet view m → (∀ a s', view s' = view s → Q a s') → (∀ e s', view s' = view s → X e s') →
  outcome m s Q X.
Proof. intros Hm HQ HX. unfold outcome. specialize (Hm s). destruct (m s) as [s' [a|e]]; auto. Qed.
End quiet.

#[export] Hint Resolve quiet_bind quiet_map_err quiet_pure quiet_undo : quiet.

Section store.
Context {S : Type} `{OsLaws S}.

Lemma quiet_validate_directory : quiet files validate_directory.
Proof. apply quiet_bind; intros; [apply quiet_map_err; auto with quiet|apply quiet_pure]. Qed.
Lemma quiet_validate_lock : quiet files validate_lock.
Proof.
  do 2 (apply quiet_bind; [apply quiet_map_err; auto with quiet|intros]). apply quiet_pure.
Qed.
Lemma quiet_validate_host_lock : quiet files validate_host_lock.
Proof. apply quiet_bind; auto using quiet_validate_directory, quiet_validate_lock. Qed.

(** Locking and leasing never touch the marker. *)
Lemma quiet_try_lock_host : quiet files try_lock_host.
Proof.
  apply quiet_bind; [apply quiet_validate_directory|intros _].
  apply quiet_bind; [apply quiet_map_err; auto with quiet|intros _].
  apply quiet_undo; [|apply quiet_close_lock].
  repeat (apply quiet_bind; [first [apply quiet_validate_lock|apply quiet_map_err; auto with quiet]|intros _]).
  apply quiet_validate_directory.
Qed.
Lemma quiet_under_host_lock run action : quiet files (under_host_lock run action).
Proof.
  repeat (apply quiet_bind; [do 2 apply quiet_map_err; auto with quiet|intros _]). apply quiet_pure.
Qed.
Lemma quiet_try_acquire run action : quiet files (try_acquire run action).
Proof.
  apply quiet_bind; [apply quiet_pure|intros state]. case_bool_decide; [apply quiet_pure|].
  apply quiet_bind; [apply quiet_map_err, quiet_try_lock_host|intros _].
  apply quiet_undo; [apply quiet_pure|apply quiet_close_lock].
Qed.

Context `{UuidText, CheckpointCodec}.

(** The marker of an attempt. *)
Definition marked (s : S) (attempt : ActiveAttempt) : Prop :=
  ∃ contents, active s = Some contents ∧ from_bytes contents = Ok attempt.

(** A read that stops after the limit still decides whether it saw everything. *)
Lemma substring_short n text :
  String.length (String.substring 0 (n + 1) text) ≤ n → String.substring 0 (n + 1) text = text.
Proof.
  revert n. induction text as [|a text IH]; intros n; [by rewrite Nat.add_1_r|].
  rewrite Nat.add_1_r. simpl. intros Hl. f_equal. destruct n as [|n]; [lia|].
  rewrite <-Nat.add_1_r. apply IH. rewrite Nat.add_1_r. lia.
Qed.

Lemma from_bytes_length bytes attempt :
  from_bytes bytes = Ok attempt → String.length bytes ≤ MAX_CHECKPOINT_BYTES.
Proof. unfold from_bytes. destruct (Nat.ltb_spec MAX_CHECKPOINT_BYTES (String.length bytes)); [done|lia]. Qed.

Lemma quiet_read_opened : quiet files read_opened.
Proof.
  apply quiet_bind.
  { apply quiet_map_err. intros s. apply (f_equal fst (quiet_fstat_active s)). }
  intros info. apply quiet_bind; [apply quiet_pure|intros _].
  destruct (_ <? _)%Z; [apply quiet_pure|].
  apply quiet_bind; [apply quiet_map_err; auto with quiet|intros bytes].
  apply quiet_bind; intros; apply quiet_pure.
Qed.

Lemma read_opened_spec s :
  outcome read_opened s
    (λ found s', ∃ contents, opened s = Some contents ∧ from_bytes contents = Ok found.1) (λ _ _, True).
Proof.
  apply outcome_bind, outcome_map_err, (quiet_outcome _ _ _ _ _ quiet_fstat_active); [|done].
  intros info s1 Ho%(f_equal snd). simpl in Ho. apply outcome_bind, (quiet_outcome (λ s, opened s)); [apply quiet_pure| |done].
  intros [] s2 Ho2. destruct (_ <? _)%Z; [done|].
  apply outcome_bind, outcome_map_err. eapply outcome_mono; [apply read_active_file| |done].
  intros bytes s3 (contents & Hc & ->). apply outcome_bind, outcome_of; [|done].
  intros attempt Hf. exists contents. split; [congruence|]. simpl.
  rewrite <-(substring_short MAX_CHECKPOINT_BYTES contents); [done|by eapply from_bytes_length].
Qed.

Lemma read_current_spec s :
  outcome read_current s
    (λ found s', files s' = files s ∧
       match found with None => active s = None | Some (attempt, _) => marked s attempt end)
    (λ _ s', files s' = files s).
Proof.
  apply outcome_bind, outcome_map_err, (quiet_outcome _ _ _ _ _ quiet_validate_host_lock); [|done].
  intros [] s1 Hv. unfold outcome.
  pose proof (open_active_file s1) as Ho. pose proof (quiet_open_active s1) as Hq. unfold outcome in Ho.
  destruct (open_active s1) as [s2 [[]|e]]; simpl in Hq.
  - destruct Ho as [_ Ho]. pose proof (quiet_read_opened s2) as Hr. pose proof (read_opened_spec s2) as Hs.
    unfold outcome in Hs. unfold sys_bind. destruct (read_opened s2) as [s3 [found|e]]; simpl in *; [|congruence].
    split; [congruence|]. destruct found as [attempt info]. destruct Hs as (contents & Hc & Hf).
    exists contents. split; [|done]. injection Hv as Hv _. congruence.
  - assert (active s1 = active s) as Ha by (by injection Hv).
    destruct e; simpl; [congruence| |congruence..]. split; [congruence|]. rewrite <-Ha. auto.
Qed.

Lemma inspect_spec s :
  outcome inspect s
    (λ found s', files s' = files s ∧
       match found with None => active s = None | Some attempt => marked s attempt end)
    (λ _ s', files s' = files s).
Proof.
  apply outcome_bind. eapply outcome_mono; [apply read_current_spec| |done].
  intros [[a i]|] s' [Hf Hm]; unfold outcome; simpl; auto.
Qed.

(** ** Mutations *)

(** The two phases of a mutation: a check that leaves the files alone, then
    the change, whose failure poisons the handle. *)
Lemma checked_mutating {A} poisoned (check : Sys S CheckpointError A) change s
    (P : A → Prop) (Q : A → S → Prop) (X : A → S → Prop) :
  outcome check s (λ a s', files s' = files s ∧ P a) (λ _ s', files s' = files s) →
  (∀ a s', files s' = files s → P a → outcome (change a) s' (λ _, Q a) (λ _, X a)) →
  let '(s', (flag, r)) := checked poisoned check (λ a, mutating poisoned (change a)) s in
  match r with
  | Ok _ => flag = poisoned ∧ ∃ a, P a ∧ Q a s'
  | Err _ => files s' = files s ∨ flag = true ∧ ∃ a, P a ∧ X a s'
  end.
Proof.
  intros Hc Hm. unfold checked, mutating. unfold outcome in Hc. destruct (check s) as [s1 [a|e]].
  - destruct Hc as [Hf Ha]. specialize (Hm a s1 Hf Ha). unfold outcome in Hm.
    destruct (change a s1) as [s2 [[]|e]]; eauto.
  - by left.
Qed.

Lemma publish_spec bytes s :
  temporary s = Some ""%string →
  outcome (publish bytes) s (λ _ s', active s = None ∧ active s' = Some bytes)
    (λ _ s', active s' = active s ∨ active s = None ∧ active s' = Some bytes).
Proof.
  intros Ht. unfold publish.
  apply outcome_bind, outcome_map_err, (quiet_outcome _ _ _ _ _ quiet_chmod_temporary);
    [|intros e s' [= -> _]; by left].
  intros [] s1 [= Ha1 Ht1]. apply outcome_bind, outcome_map_err.
  eapply outcome_mono; [apply write_temporary_file| |intros e s' Hs; left; congruence].
  intros [] s2 [Ha2 Ht2]. rewrite Ht1 in Ht2. specialize (Ht2 Ht).
  apply outcome_bind, outcome_map_err, (quiet_outcome _ _ _ _ _ quiet_sync_temporary);
    [|intros e s' [= Hs _]; left; congruence].
  intros [] s3 [= Ha3 Ht3]. apply outcome_bind, outcome_map_err,
    (quiet_outcome _ _ _ _ _ quiet_validate_host_lock); [|intros e s' [= Hs _]; left; congruence].
  intros [] s4 [= Ha4 Ht4]. apply outcome_bind, outcome_map_err.
  eapply outcome_mono; [apply publish_temporary_file| |intros e s' Hs; left; congruence].
  intros [] s5 [Hn Ha5]. apply outcome_map_err, (quiet_outcome _ _ _ _ _ quiet_sync_directory).
  - intros e s' [= Hs _]. split; congruence.
  - intros e s' [= Hs _]. right. split; congruence.
Qed.

Lemma arm_check_spec poisoned attempt s :
  outcome (arm_check poisoned attempt) s
    (λ bytes s', files s' = files s ∧ poisoned = false ∧ to_bytes attempt = Ok bytes)
    (λ _ s', files s' = files s).
Proof.
  unfold arm_check. destruct poisoned; [done|]. apply outcome_bind. unfold outcome at 1. simpl.
  apply outcome_bind. eapply outcome_mono; [apply inspect_spec| |done].
  intros existing s1 [Hf _]. case_bool_decide; [done|]. apply outcome_of; auto.
Qed.

Lemma arm_change_spec bytes s :
  outcome (arm_change bytes) s (λ _ s', active s = None ∧ active s' = Some bytes)
    (λ _ s', active s' = active s ∨ active s = None ∧ active s' = Some bytes).
Proof.
  apply outcome_bind, outcome_map_err. eapply outcome_mono; [apply create_temporary_file| |].
  2: { intros e s2 Ha. by left. }
  intros [] s2 [Ha Ht]. apply outcome_undo. rewrite <-Ha.
  eapply outcome_mono; [by apply publish_spec|done|].
  intros e s3 Hs. by rewrite (unlink_temporary_file s3).
Qed.

Lemma clear_check_spec poisoned expected s :
  outcome (clear_check poisoned expected) s
    (λ _ s', files s' = files s ∧ marked s expected) (λ _ s', files s' = files s).
Proof.
  unfold clear_check. destruct poisoned; [done|]. apply outcome_bind. unfold outcome at 1. simpl.
  apply outcome_bind. eapply outcome_mono; [apply read_current_spec| |done].
  intros [[attempt original]|] s1 [Hf Hm]; [|done]. case_bool_decide as Heq; [done|]. subst attempt.
  apply outcome_bind, outcome_map_err, (quiet_outcome _ _ _ _ _ quiet_stat_active_name);
    [|intros; congruence]. intros info s2 Hf2.
  apply outcome_bind, (quiet_outcome _ _ _ _ _ (quiet_pure files _)); [|intros; congruence].
  intros [] s3 Hf3. assert (files s3 = files s) by congruence. by destruct (negb _).
Qed.

Lemma clear_change_spec s :
  outcome clear_change s (λ _ s', active s' = None) (λ _ s', active s' = active s ∨ active s' = None).
Proof.
  apply outcome_bind, outcome_map_err, (quiet_outcome _ _ _ _ _ quiet_validate_host_lock);
    [|intros e s' [= Hs _]; by left].
  intros [] s1 [= Ha _]. apply outcome_bind, outcome_map_err.
  eapply outcome_mono; [apply unlink_active_file| |intros e s' Hs; left; congruence].
  intros [] s2 Hn. apply outcome_map_err, (quiet_outcome _ _ _ _ _ quiet_sync_directory).
  - intros u s' [= Hs _]. congruence.
  - intros e s' [= Hs _]. right. congruence.
Qed.

Context `{!CodecLaws}.

(** [arm] publishes the attempt on a free name; a failure leaves the name as it
    was, or published with the handle poisoned.  Nothing is ever replaced. *)
Lemma arm_outcome poisoned attempt s :
  let '(s', (flag, r)) := arm poisoned attempt s in
  match r with
  | Ok _ => poisoned = false ∧ flag = false ∧ active s = None ∧ marked s' attempt
  | Err _ => active s' = active s ∨ flag = true ∧ active s = None ∧ marked s' attempt
  end.
Proof.
  pose proof (checked_mutating poisoned (arm_check poisoned attempt) arm_change s
    (λ bytes, poisoned = false ∧ to_bytes attempt = Ok bytes)
    (λ bytes s', active s = None ∧ active s' = Some bytes)
    (λ bytes s', active s' = active s ∨ active s = None ∧ active s' = Some bytes)
    (arm_check_spec _ _ _)) as Hc.
  lapply Hc; clear Hc; [intros Hc|].
  2: { intros bytes s1 [= Ha _] _. eapply outcome_mono; [apply arm_change_spec|..]; simpl;
         intros; by rewrite <-Ha. }
  assert (∀ bytes s', to_bytes attempt = Ok bytes → active s' = Some bytes → marked s' attempt) as Hmark.
  { intros bytes s0 Hb Ha. exists bytes. split; [done|by apply from_to_bytes]. }
  unfold arm.
  destruct (checked _ _ _ s) as [s' [flag [[]|e]]].
  - destruct Hc as (-> & bytes & [-> Hb] & Hn & Ha). eauto.
  - destruct Hc as [[= Hf _]|(-> & bytes & [_ Hb] & [Ha|[Hn Ha]])]; [by left|by left|right; eauto].
Qed.

(** [clear] removes exactly the expected attempt; a failure leaves the name as
    it was, or removed with the handle poisoned. *)
Lemma clear_outcome poisoned expected s :
  let '(s', (flag, r)) := clear poisoned expected s in
  match r with
  | Ok _ => flag = poisoned ∧ marked s expected ∧ active s' = None
  | Err _ => active s' = active s ∨ flag = true ∧ marked s expected ∧ active s' = None
  end.
Proof.
  pose proof (checked_mutating poisoned (clear_check poisoned expected) (λ _ : unit, clear_change) s
    (λ _, marked s expected) (λ _ s', active s' = None)
    (λ _ s', active s' = active s ∨ active s' = None) (clear_check_spec _ _ _)) as Hc.
  lapply Hc; clear Hc; [intros Hc|].
  2: { intros bytes s1 [= Ha _] _. eapply outcome_mono; [apply clear_change_spec|..]; simpl;
         [done|intros; by rewrite <-Ha]. }
  unfold clear.
  destruct (checked _ _ _ s) as [s' [flag [[]|e]]].
  - destruct Hc as (-> & [] & Hm & Ha). eauto.
  - destruct Hc as [[= Hf _]|(-> & [] & Hm & [Ha|Ha])]; [by left|by left|right; eauto].
Qed.

(** ** Theorem *)

(** C22: The marker: [arm] publishes the whole attempt and only on a free name;
    [clear] removes the name only when it holds exactly the expected attempt.
    A failed call leaves the name as it was, or has done its work and poisoned
    the handle; a poisoned handle changes nothing any more. *)
Theorem marker_store_spec attempt s :
  (∀ poisoned, let '(s', (flag, r)) := arm poisoned attempt s in
   match r with
   | Ok _ => poisoned = false ∧ flag = false ∧ active s = None ∧ marked s' attempt
   | Err _ => active s' = active s ∨ flag = true ∧ active s = None ∧ marked s' attempt
   end) ∧
  (∀ poisoned, let '(s', (flag, r)) := clear poisoned attempt s in
   match r with
   | Ok _ => flag = poisoned ∧ marked s attempt ∧ active s' = None
   | Err _ => active s' = active s ∨ flag = true ∧ marked s attempt ∧ active s' = None
   end) ∧
  arm true attempt s = (s, (true, Err CheckpointError.Poisoned)) ∧
  clear true attempt s = (s, (true, Err CheckpointError.Poisoned)).
Proof.
  split_and!; [intros poisoned; apply arm_outcome|intros poisoned; apply clear_outcome|done|done].
Qed.
End store.
