(* ===== verification/Host.v ===== *)
(** * The runtime host: [storage-runtime/src/host.rs], [capability.rs],
      [authorization.rs] and [dispatcher.rs]

    [RuntimeHost] is the trait the coordinator is written against and
    [LinuxLiveHost] its implementation: admission of one action under a lease,
    readiness of a whole plan and the final report.  The policies of the
    application (capabilities, coverage, authorization) and the probe are
    operations of [HostPolicies] on the machine. *)

From S2P Require Import Prelude Model Reach Graph GraphOrder GraphValid State Action Contract.
From S2P Require Import Logical Evidence Prerequisites Effects Report Simulate Wire Observation.
From S2P Require Import Correlate Observe Execution Live LiveGoal Recipes.
From S2P Require Import Native Scope Bindings Targets.
From S2P Require Import Targets Checkpoint.

Module HostError.
Inductive HostError :=
| HistoricalRejected
| FinalVerificationUnavailable
| Binding (e : BindingError)
| LeaseMismatch
| ObservationMismatch
| ActiveAttempt
| Probe (e : ProbeObservationError)
| Checkpoint (e : CheckpointError)
| Run (e : ExecutionRunError)
| Document (e : PlanDocumentError).
#[global] Instance HostError_eq_dec : EqDecision HostError.
Proof. solve_decision. Defined.
End HostError.
Abbreviation HostError := HostError.HostError.

(** ** Dispatch ([dispatcher.rs]) *)

Module DispatchError.
Inductive DispatchError :=
| Adapter (message : string)
| Progress (e : ExecutionRunError).
#[global] Instance DispatchError_eq_dec : EqDecision DispatchError.
Proof. solve_decision. Defined.
End DispatchError.
Abbreviation DispatchError := DispatchError.DispatchError.

Module ExecutionReceipt.
Record ExecutionReceipt := mk {
  outcome : BackendOutcome;
  created_lv_uuid : option string;
  created_filesystem_uuid : option string }.
#[global] Instance ExecutionReceipt_eq_dec : EqDecision ExecutionReceipt.
Proof. solve_decision. Defined.
End ExecutionReceipt.
Abbreviation ExecutionReceipt := ExecutionReceipt.ExecutionReceipt.

Definition is_lv_create (operation : ProviderAction) : bool :=
  match operation with ProviderAction.Lvm (LvmAction.CreateLv _ _ _ _ _) => true | _ => false end.
Definition is_filesystem_create (operation : ProviderAction) : bool :=
  match operation with
  | ProviderAction.Filesystem (FilesystemAction.Create _ _ _ _) => true | _ => false end.

(** [ExecutionReceipt::validate_for] *)
Definition validate_receipt (receipt : ExecutionReceipt) (operation : ProviderAction)
    : result unit DispatchError :=
  if bool_decide (is_Some receipt.(ExecutionReceipt.created_lv_uuid)) && negb (is_lv_create operation)
     || bool_decide (is_Some receipt.(ExecutionReceipt.created_filesystem_uuid))
        && negb (is_filesystem_create operation)
  then Err (DispatchError.Adapter "receipt identity does not match the dispatched operation")
  else Ok tt.

(** A backend call: it reports progress any number of times, may react to the
    answers, and ends. *)
Inductive Dispatch (S : Type) :=
| Done (s : S) (r : result ExecutionReceipt DispatchError)
| Progress (detail : string) (k : result unit ExecutionRunError → Dispatch S).
Arguments Done {S} s r.
Arguments Progress {S} detail k.

Class BackendDispatcher (S : Type) := {
  backend_for : S → ProviderAction → BackendId;
  execute : ResolvedAction → S → Dispatch S }.

Module OperationAvailability.
Inductive OperationAvailability :=
| Available (backend : BackendId)
| Unavailable (reason : string)
| Unknown (reason : string).
End OperationAvailability.
Abbreviation OperationAvailability := OperationAvailability.OperationAvailability.

(** ** The trait *)

Module AdmissionDecision.
Record AdmissionDecision := mk { report : AdmissionReport; resolved : option ResolvedAction }.
End AdmissionDecision.
Abbreviation AdmissionDecision := AdmissionDecision.AdmissionDecision.

Abbreviation hosting H S A := (Sys (H * S) (Failure HostError) A) (only parsing).

Class RuntimeHost (H S : Type) := {
  host_probe : hosting H S ProbedObservation;
  host_check_plan : ExecutionRun → ProbedObservation → hosting H S LiveCheckStatus;
  host_check_admission : ExecutionRun → ActionId → ProbedObservation → OutputBindings →
    ExecutionLease → hosting H S AdmissionDecision;
  host_verify_goal : ExecutionRun → ProbedObservation → OutputBindings →
    hosting H S GoalVerificationReport;
  host_availability : ProviderAction → ProbedObservation → H * S → (H * S) * OperationAvailability }.

(** A computation on the machine, next to the state of the host. *)
Definition on_machine {H S E A} (m : Sys S E A) : Sys (H * S) E A :=
  λ w, let '(s, r) := m w.2 in ((w.1, s), r).

(** ** Texts and serializers *)

Class RuntimeText := {
  text_uuid :: UuidText;
  text_mount :: MountText;
  text_codec :: CheckpointCodec;
  graph_text : GraphError → string;
  correlation_text : CorrelationError → string;
  target_text : TargetError → string;
  binding_text : BindingError → string;
  checkpoint_text : CheckpointError → string;
  host_text : HostError → string;
  dispatch_text : DispatchError → string;
  run_text : ExecutionRunError → string;
  debug_text : string → string;
  serializers : Serializers;
  serializers' : Serializers }.

(** [check_reviewed_plan] *)
Definition check_reviewed_plan `{RuntimeText} (run : ExecutionRun)
    : result unit (Failure HostError) :=
  let? analysis := map_failure HostError.Document
    (analyse_historical graph_text serializers serializers' run.(ExecutionRun.document)) in
  let steps := analysis.(HistoricalAnalysis.report).(SimulationReport.simulation)
                 .(SimulationResult.steps) in
  if existsb (λ step, existsb (λ check, match check.(PrerequisiteCheck.status) with
                                        | CheckStatus.Violated _ => true | _ => false end)
                        step.(SimulatedStep.checks)) steps
  then Err (Reported HostError.HistoricalRejected) else Ok tt.

(** ** Policies *)

Module ApprovalRequest.
Record ApprovalRequest := mk {
  run_id : Uuid;
  plan_id : Uuid;
  action_id : ActionId;
  plan_digest : string;
  backend : BackendId;
  targets : list TargetFingerprint;
  observation : ObservationReference }.
End ApprovalRequest.
Abbreviation ApprovalRequest := ApprovalRequest.ApprovalRequest.

(** One pass of the probe, [BackendCapabilityCheck] and [AuthorizationContext]. *)
Class HostPolicies (S : Type) := {
  probe_instance_id : S → Uuid;
  fresh_baseline_id : S → Uuid;
  probe_once : S → S * ProbeSnapshot;
  availability : ProviderAction → LiveObservation → S → S * OperationAvailability;
  scope_coverage : ExecutionContext → ResolvedAction → LiveObservation → S → S * LiveCheckStatus;
  consumer_exclusion : ExecutionContext → ResolvedAction → LiveObservation → S → S * LiveCheckStatus;
  mount_exclusion : ExecutionContext → ResolvedAction → LiveObservation → S → S * LiveCheckStatus;
  final_scope : ExecutionContext → LiveObservation → S → S * LiveCheckStatus;
  preservation : ExecutionContext → LiveObservation → S → S * LiveCheckStatus;
  authorize : ApprovalRequest → S → S * LiveCheckStatus;
  authorize_destructive : ApprovalRequest → NodeId → S → S * LiveCheckStatus }.

(** The default [check_preservation] of the trait. *)
Definition default_preservation (context : ExecutionContext) : LiveCheckStatus :=
  let protected := context.(ExecutionContext.protected_scope) in
  if bool_decide (protected.(ProtectedScope.nodes) = [])
     && bool_decide (protected.(ProtectedScope.runtime_mounts) = [])
     && bool_decide (protected.(ProtectedScope.persistent_mounts) = [])
  then LiveCheckStatus.Satisfied
  else LiveCheckStatus.Unknown
         "independent preservation evidence for protected contents and mount configuration".

(** [LinuxLiveHost]: the reference of the last successful pass. *)
Abbreviation LinuxLiveHost := (option ObservationReference) (only parsing).

Section linux.
Context {S : Type} `{RuntimeText, Os S, HostPolicies S, BackendDispatcher S}.

Abbreviation linux A := (hosting LinuxLiveHost S A) (only parsing).

Definition asking {A} (m : S → S * A) : linux A :=
  on_machine (λ s, let '(s, a) := m s in (s, Ok a)).
Definition host_lift {E A} (f : E → HostError) (r : result A (Failure E)) : linux A :=
  sys_of (map_failure f r).
Definition host_fail {A} (e : HostError) : linux A := sys_fail (Reported e).

Definition linux_probe : linux ProbedObservation :=
  λ w, let '(s, publication) := probe_once w.2 in
       match collect debug_text (fresh_baseline_id s) (probe_instance_id s) publication with
       | Ok observed => ((Some observed.(ProbedObservation.observation).(LiveObservation.reference), s),
                         Ok observed)
       | Err e => ((None, s), Err (Reported (HostError.Probe e)))
       end.

(** The publication is the host's last one and newer than the run's. *)
Definition is_current (last : option ObservationReference) (run : ExecutionRun)
    (reference : ObservationReference) : bool :=
  bool_decide (last = Some reference) &&
  negb (is_some_and (λ latest,
      negb (latest.(LiveObservation.reference).(ObservationReference.probe_instance) =?
            reference.(ObservationReference.probe_instance))%N
      || (reference.(ObservationReference.epoch) <=?
          latest.(LiveObservation.reference).(ObservationReference.epoch))%N)
    run.(ExecutionRun.latest_observation)).

Definition require_current (run : ExecutionRun) (observed : ProbedObservation) : linux unit :=
  λ w, (w, if is_current w.1 run observed.(ProbedObservation.observation).(LiveObservation.reference)
           then Ok tt else Err (Reported HostError.ObservationMismatch)).

Definition require_no_attempt : linux unit :=
  let* found := on_machine (sys_map_err (λ e, Reported (HostError.Checkpoint e)) inspect) in
  if bool_decide (is_Some found) then host_fail HostError.ActiveAttempt else sys_return tt.

(** The loop of [check_plan]: the first operation that is not available on the
    configured route decides. *)
Fixpoint plan_readiness (observed : ProbedObservation) (actions : list PlannedAction)
    : linux LiveCheckStatus :=
  match actions with
  | [] => sys_return LiveCheckStatus.Satisfied
  | action :: actions =>
      let operation := action.(PlannedAction.operation) in
      let* found := asking (availability operation observed.(ProbedObservation.observation)) in
      match found with
      | OperationAvailability.Available selected =>
          λ w, if bool_decide (selected = backend_for w.2 operation)
               then plan_readiness observed actions w
               else (w, Ok (LiveCheckStatus.Violated
                      "plan requires a different backend than the configured operation route"))
      | OperationAvailability.Unavailable reason => sys_return (LiveCheckStatus.Violated reason)
      | OperationAvailability.Unknown reason => sys_return (LiveCheckStatus.Unknown reason)
      end
  end.

Definition linux_check_plan (run : ExecutionRun) (observed : ProbedObservation)
    : linux LiveCheckStatus :=
  let* _ := sys_of (check_reviewed_plan run) in
  let* _ := require_current run observed in
  let* _ := require_no_attempt in
  plan_readiness observed run.(ExecutionRun.plan).(ExecutionPlan.actions).

Definition require_verified (run : ExecutionRun) : result unit (Failure HostError) :=
  try_all (λ action,
      let? state := map_failure HostError.Run (run_state run action.(PlannedAction.id)) in
      if bool_decide (state ≠ ActionRunState.Verified)
      then Err (Reported (HostError.Run ExecutionRunError.ActionsNotVerified)) else Ok tt)
    run.(ExecutionRun.plan).(ExecutionPlan.actions).

Definition linux_verify_goal (run : ExecutionRun) (observed : ProbedObservation) (bs : OutputBindings)
    : linux GoalVerificationReport :=
  let actual := observed.(ProbedObservation.observation) in
  let context := run_context run in
  let* _ := sys_of (require_verified run) in
  let* _ := require_current run observed in
  let* _ := require_no_attempt in
  let* known := host_lift HostError.Binding (correlations bs run actual) in
  let* checks := host_lift (λ e, HostError.Probe (ProbeObservationError.Observation e))
                   (check_observed_goal correlation_text context actual known) in
  let* coverage := asking (final_scope context actual) in
  let* preserved := if bool_decide (coverage = LiveCheckStatus.Satisfied)
                    then asking (preservation context actual) else sys_return coverage in
  let* _ := require_no_attempt in
  sys_return (GoalVerificationReport.mk run.(ExecutionRun.run_id) actual checks preserved).

(** ** Admission *)

Abbreviation Checks := (list (LiveCheck ActionPrerequisite)) (only parsing).

Definition is_unknown (status : LiveCheckStatus) : bool :=
  match status with LiveCheckStatus.Unknown _ => true | _ => false end.

(** [for check in &mut checks]: some are replaced by a policy's answer. *)
Fixpoint update_checks (select : LiveCheck ActionPrerequisite → option (S → S * LiveCheckStatus))
    (checks : Checks) : linux Checks :=
  match checks with
  | [] => sys_return []
  | check :: checks =>
      let* check := match select check with
                    | Some ask => let* status := asking ask in
                                  sys_return (LiveCheck.mk check.(LiveCheck.condition) status)
                    | None => sys_return check
                    end in
      let* checks := update_checks select checks in
      sys_return (check :: checks)
  end.

(** The volume a format replaces. *)
Definition destroyed_backing (operation : ProviderAction) : option NodeId :=
  match operation with
  | ProviderAction.Filesystem (FilesystemAction.Create backing _ FilesystemKind.Ext4 _) => Some backing
  | _ => None
  end.

(** Whether a mount's exclusion evidence answers the condition. *)
Definition excluded_by_mount (resolved : ResolvedAction) (source : MountSource) (target : PathBuf)
    (context : MountContext) (condition : ActionPrerequisite) : bool :=
  match condition with
  | ActionPrerequisite.MountSourceAvailable value =>
      bool_decide (value = source) && bool_decide (is_Some resolved.(ResolvedAction.filesystem_target))
  | ActionPrerequisite.MountTargetAvailable value scope
  | ActionPrerequisite.MountDescendantsAbsent value scope =>
      bool_decide (value = target) && bool_decide (scope = context)
  | _ => false
  end.

(** Only the destruction of the resolved backing may still be open. *)
Definition fact_ready (backing : option NodeId) (check : LiveCheck ActionPrerequisite) : bool :=
  bool_decide (check.(LiveCheck.status) = LiveCheckStatus.Satisfied)
  || match check.(LiveCheck.condition) with
     | ActionPrerequisite.DestructiveApproval node =>
         bool_decide (Some node = backing) && is_unknown check.(LiveCheck.status)
     | _ => false
     end.

(** Evidence about exclusion, in place of conditions no observation decides. *)
Definition check_exclusions (context : ExecutionContext) (resolved : ResolvedAction)
    (observed : LiveObservation) (checks : Checks) : linux (Checks * LiveCheckStatus) :=
  let* checks :=
    match destroyed_backing resolved.(ResolvedAction.operation) with
    | Some backing => update_checks (λ check,
        if bool_decide (check.(LiveCheck.condition) = ActionPrerequisite.NoUnexpectedConsumers backing)
           && is_unknown check.(LiveCheck.status)
        then Some (consumer_exclusion context resolved observed) else None) checks
    | None => sys_return checks
    end in
  match resolved.(ResolvedAction.operation) with
  | ProviderAction.Mount (MountAction.Mount source target _ mount_context) =>
      let* exclusion := asking (mount_exclusion context resolved observed) in
      let checks := (λ check,
        if is_unknown check.(LiveCheck.status) &&
           excluded_by_mount resolved source target mount_context check.(LiveCheck.condition)
        then LiveCheck.mk check.(LiveCheck.condition) exclusion else check) <$> checks in
      sys_return (checks, exclusion)
  | _ => sys_return (checks, LiveCheckStatus.Satisfied)
  end.

(** The approval of the exact request, and of the destruction it implies. *)
Definition authorize_action (run : ExecutionRun) (context : ExecutionContext)
    (resolved : ResolvedAction) (reference : ObservationReference) (checks : Checks)
    : linux (Checks * LiveCheckStatus) :=
  let backing := destroyed_backing resolved.(ResolvedAction.operation) in
  let* digest := host_lift HostError.Document (digest_of run.(ExecutionRun.document)) in
  let request := ApprovalRequest.mk run.(ExecutionRun.run_id) context.(ExecutionContext.plan_id)
    resolved.(ResolvedAction.action_id) digest resolved.(ResolvedAction.backend)
    (fingerprints resolved) reference in
  let* approved := asking (authorize request) in
  if bool_decide (approved ≠ LiveCheckStatus.Satisfied) then sys_return (checks, approved)
  else
    let* checks := update_checks (λ check,
      match check.(LiveCheck.condition) with
      | ActionPrerequisite.DestructiveApproval node =>
          if bool_decide (Some node = backing) && is_unknown check.(LiveCheck.status)
          then Some (authorize_destructive request node) else None
      | _ => None
      end) checks in
    sys_return (checks,
      match find_first (λ check, bool_decide (check.(LiveCheck.status) ≠ LiveCheckStatus.Satisfied))
              checks with
      | Some incomplete => incomplete.(LiveCheck.status)
      | None => LiveCheckStatus.Satisfied
      end).

(** The chain of checks behind a resolved endpoint. *)
Definition check_applicability (run : ExecutionRun) (context : ExecutionContext)
    (observed : ProbedObservation) (resolved : ResolvedAction) (checks : Checks)
    : linux (Checks * LiveCheckStatus) :=
  let actual := observed.(ProbedObservation.observation) in
  let* scope := asking (scope_coverage context resolved actual) in
  if bool_decide (scope ≠ LiveCheckStatus.Satisfied) then sys_return (checks, scope)
  else
    let members := check_vg_membership observed
                     resolved.(ResolvedAction.target).(ResolvedTarget.observed_id) in
    if bool_decide (members ≠ LiveCheckStatus.Satisfied) then sys_return (checks, members)
    else
      let* (checks, exclusion) := check_exclusions context resolved actual checks in
      if bool_decide (exclusion ≠ LiveCheckStatus.Satisfied) then sys_return (checks, exclusion)
      else if forallb (fact_ready (destroyed_backing resolved.(ResolvedAction.operation))) checks
      then authorize_action run context resolved actual.(LiveObservation.reference) checks
      else sys_return (checks, LiveCheckStatus.Unknown
                                 "authorization deferred until all prerequisites pass").

Definition linux_check_admission (run : ExecutionRun) (action : ActionId)
    (observed : ProbedObservation) (bs : OutputBindings) (lease : ExecutionLease)
    : linux AdmissionDecision :=
  let actual := observed.(ProbedObservation.observation) in
  let context := run_context run in
  if negb (lease.(lease_run_id) =? run.(ExecutionRun.run_id))%N
     || negb (lease.(lease_action) =? action)%nat
  then host_fail HostError.LeaseMismatch
  else
    let* state := host_lift HostError.Run (run_state run action) in
    if bool_decide (state ≠ ActionRunState.Checking)
    then host_fail (HostError.Run (ExecutionRunError.InvalidTransition action state))
    else
      let* _ := require_current run observed in
      let* _ := require_no_attempt in
      let* planned := sys_of (index run.(ExecutionRun.plan).(ExecutionPlan.actions) action) in
      let operation := planned.(PlannedAction.operation) in
      let* known := host_lift HostError.Binding (correlations bs run actual) in
      let* found := host_lift (λ e, HostError.Probe (ProbeObservationError.Observation e))
        (probed_prerequisites_with_bindings correlation_text observed
           context.(ExecutionContext.historical_baseline)
           planned.(PlannedAction.informational_contract).(ActionContract.prerequisites) known) in
      let* support := asking (availability operation actual) in
      let* (applicability, resolved) :=
        match support with
        | OperationAvailability.Unknown reason => sys_return (LiveCheckStatus.Unknown reason, None)
        | OperationAvailability.Unavailable reason => sys_return (LiveCheckStatus.Violated reason, None)
        | OperationAvailability.Available backend =>
            match resolve_action_with_bindings run action actual backend bs with
            | Ok resolved => sys_return (LiveCheckStatus.Satisfied, Some resolved)
            | Err (Reported e) => sys_return (LiveCheckStatus.Violated (target_text e), None)
            | Err Panicked => sys_fail Panicked
            | Err OutOfFuel => sys_fail OutOfFuel
            end
        end in
      let* (checks, applicability) :=
        match resolved with
        | Some resolved => check_applicability run context observed resolved
                             found.(ObservedPrerequisites.checks)
        | None => sys_return (found.(ObservedPrerequisites.checks), applicability)
        end in
      sys_return (AdmissionDecision.mk
        (AdmissionReport.mk run.(ExecutionRun.run_id) action actual applicability
           lease.(held_resources) checks)
        (if bool_decide (applicability = LiveCheckStatus.Satisfied) then resolved else None)).

Definition linux_availability (operation : ProviderAction) (observed : ProbedObservation)
    (w : LinuxLiveHost * S) : (LinuxLiveHost * S) * OperationAvailability :=
  let '(s, found) := availability operation observed.(ProbedObservation.observation) w.2 in
  ((w.1, s), found).

#[global] Instance linux_live_host : RuntimeHost LinuxLiveHost S := {
  host_probe := linux_probe;
  host_check_plan := linux_check_plan;
  host_check_admission := linux_check_admission;
  host_verify_goal := linux_verify_goal;
  host_availability := linux_availability }.
End linux.
