(* ===== verification/HostProps.v ===== *)
(** * What the Linux host demands before it hands out an endpoint

    [LinuxLiveHost::check_admission] combines the live evidence with the
    answers of its policies.  This file says which of them stands behind each
    condition of a decision that names an endpoint. *)

From S2P Require Import Prelude Model Reach Graph GraphOrder GraphValid State Action Contract.
From S2P Require Import Logical Evidence Prerequisites Effects Report PlanOrder Compose ComposeProps.
From S2P Require Import Simulate SimulateProps Wire Observation.
From S2P Require Import Correlate Observe Execution ExecutionProps Live.
From S2P Require Import LiveProps LiveGoal.
From S2P Require Import Recipes Native Scope Bindings Targets.
From S2P Require Import Targets Checkpoint StoreProps Host.

Section admission.
Context {S : Type} `{RuntimeText, Os S, HostPolicies S, BackendDispatcher S}.

Abbreviation satisfied c := (c.(LiveCheck.status) = LiveCheckStatus.Satisfied) (only parsing).

(** The request the authorization is asked about. *)
Definition request_of (run : ExecutionRun) (resolved : ResolvedAction) (reference : ObservationReference)
    (request : ApprovalRequest) : Prop :=
  ∃ digest, digest_of run.(ExecutionRun.document) = Ok digest ∧
    request = ApprovalRequest.mk run.(ExecutionRun.run_id) (run_context run).(ExecutionContext.plan_id)
      resolved.(ResolvedAction.action_id) digest resolved.(ResolvedAction.backend)
      (fingerprints resolved) reference.

(** Who stands behind a satisfied condition. *)
Inductive established (run : ExecutionRun) (observed : ProbedObservation) (known : list NodeCorrelation)
    (resolved : ResolvedAction) (condition : ActionPrerequisite) : Prop :=
| est_observed :
    trustworthy observed.(ProbedObservation.observation) →
    observed_holds run.(ExecutionRun.document).(PlanDocument.baseline)
      observed.(ProbedObservation.observation) known observed.(ProbedObservation.capacity) condition →
    established run observed known resolved condition
| est_consumers backing s :
    destroyed_backing resolved.(ResolvedAction.operation) = Some backing →
    condition = ActionPrerequisite.NoUnexpectedConsumers backing →
    (consumer_exclusion (run_context run) resolved observed.(ProbedObservation.observation) s).2
      = LiveCheckStatus.Satisfied →
    established run observed known resolved condition
| est_mount source target options context s :
    resolved.(ResolvedAction.operation) = ProviderAction.Mount (MountAction.Mount source target options context) →
    excluded_by_mount resolved source target context condition = true →
    (mount_exclusion (run_context run) resolved observed.(ProbedObservation.observation) s).2
      = LiveCheckStatus.Satisfied →
    established run observed known resolved condition
| est_approved node request s :
    destroyed_backing resolved.(ResolvedAction.operation) = Some node →
    condition = ActionPrerequisite.DestructiveApproval node →
    request_of run resolved observed.(ProbedObservation.observation).(LiveObservation.reference) request →
    (authorize_destructive request node s).2 = LiveCheckStatus.Satisfied →
    established run observed known resolved condition.

(** Checks of the given conditions, the satisfied ones with a reason. *)
Definition justified run observed known resolved (conditions : list ActionPrerequisite)
    (checks : list (LiveCheck ActionPrerequisite)) : Prop :=
  LiveCheck.condition <$> checks = conditions ∧
  Forall (λ c, satisfied c → established run observed known resolved c.(LiveCheck.condition)) checks.

Lemma outcome_asking {A} (m : S → S * A) (s : LinuxLiveHost * S) (Q : A → LinuxLiveHost * S → Prop)
    (X : Failure HostError → LinuxLiveHost * S → Prop) :
  (∀ s', Q (m s.2).2 s') → outcome (asking m) s Q X.
Proof. intros HQ. unfold outcome, asking, on_machine. by destruct (m s.2) as [s' a]. Qed.

(** A check that is replaced keeps its condition and takes the policy's answer. *)
Lemma update_checks_justified run observed known resolved conditions select checks s :
  justified run observed known resolved conditions checks →
  (∀ c ask (s : S), select c = Some ask → (ask s).2 = LiveCheckStatus.Satisfied →
     established run observed known resolved c.(LiveCheck.condition)) →
  outcome (update_checks (S:=S) select checks) s
    (λ checks' _, justified run observed known resolved conditions checks') (λ _ _, True).
Proof.
  intros [<- Hj] Hsel. revert s. induction Hj as [|c checks Hc Hj IH]; intros s; [by split|].
  simpl. apply outcome_bind.
  assert (outcome (match select c with
                   | Some ask => let* status := asking ask in
                                 sys_return (LiveCheck.mk c.(LiveCheck.condition) status)
                   | None => sys_return c
                   end) s
    (λ c' _, c'.(LiveCheck.condition) = c.(LiveCheck.condition) ∧
       (satisfied c' → established run observed known resolved c'.(LiveCheck.condition)))
    (λ _ _, True)) as Hone.
  { destruct (select c) as [ask|] eqn:Hs; [|by split].
    apply outcome_bind, outcome_asking. intros s'. split; [done|]. simpl. eauto. }
  eapply outcome_mono; [exact Hone| |done]. intros c' s1 [Hcond Hc'].
  apply outcome_bind. eapply outcome_mono; [apply IH| |done]. intros checks' s2 [Hk Hall].
  split; [rewrite fmap_cons; by f_equal|by constructor].
Qed.

Section decision.
Context (run : ExecutionRun) (observed : ProbedObservation) (known : list NodeCorrelation).
Context (resolved : ResolvedAction) (conditions : list ActionPrerequisite).

Abbreviation context := (run_context run) (only parsing).
Abbreviation actual := (observed.(ProbedObservation.observation)) (only parsing).

Lemma check_exclusions_spec checks s :
  justified run observed known resolved conditions checks →
  outcome (check_exclusions context resolved actual checks) s
    (λ r _, justified run observed known resolved conditions r.1) (λ _ _, True).
Proof.
  intros Hj. unfold check_exclusions. apply outcome_bind.
  assert (outcome (match destroyed_backing resolved.(ResolvedAction.operation) with
      | Some backing => update_checks (λ check,
          if bool_decide (check.(LiveCheck.condition) = ActionPrerequisite.NoUnexpectedConsumers backing)
             && is_unknown check.(LiveCheck.status)
          then Some (consumer_exclusion context resolved actual) else None) checks
      | None => sys_return checks
      end) s (λ checks' _, justified run observed known resolved conditions checks') (λ _ _, True)) as Hone.
  { destruct (destroyed_backing _) as [backing|] eqn:Hb; [|exact Hj].
    apply update_checks_justified; [done|]. intros c ask s0.
    destruct (bool_decide _) eqn:Hc; [|done]. simpl. destruct (is_unknown _); [|done].
    intros [= <-] Ha. apply bool_decide_eq_true in Hc. by eapply est_consumers. }
  eapply outcome_mono; [exact Hone| |done]. clear Hone. intros checks1 s1 [Hk Hall].
  destruct (ResolvedAction.operation resolved) as [| | | | |a] eqn:Hop; try (by split).
  destruct a as [source target options mctx| | |]; try (by split).
  apply outcome_bind, outcome_asking. intros s2. unfold outcome. simpl.
  set (exclusion := (mount_exclusion _ _ _ _).2). split.
  - rewrite <-Hk, <-list_fmap_compose. apply list_fmap_ext. intros i c _. simpl. by destruct (_ && _).
  - apply Forall_fmap. eapply Forall_impl; [exact Hall|]. intros c Hc. simpl.
    destruct (is_unknown _); [|done]. simpl. destruct (excluded_by_mount _ _ _ _ _) eqn:He; [|done].
    simpl. intros Hs. by eapply est_mount.
Qed.

(** The exact request was approved. *)
Definition approved : Prop :=
  ∃ request s, request_of run resolved actual.(LiveObservation.reference) request ∧
    (authorize (S:=S) request s).2 = LiveCheckStatus.Satisfied.

Lemma authorize_action_spec checks s :
  justified run observed known resolved conditions checks →
  outcome (authorize_action run context resolved actual.(LiveObservation.reference) checks) s
    (λ r _, justified run observed known resolved conditions r.1 ∧
       (r.2 = LiveCheckStatus.Satisfied → approved ∧ Forall (λ c, satisfied c) r.1)) (λ _ _, True).
Proof.
  intros Hj. unfold authorize_action. apply outcome_bind, outcome_of; [|done]. intros digest Hd.
  assert (digest_of (ExecutionRun.document run) = Ok digest) as Hdig
    by by apply map_failure_Ok in Hd.
  set (request := ApprovalRequest.mk _ _ _ _ _ _ _).
  assert (request_of run resolved actual.(LiveObservation.reference) request) as Hreq by (by exists digest).
  apply outcome_bind, outcome_asking. intros s1. case_bool_decide as Ha; [by split|].
  apply outcome_bind. eapply outcome_mono; [apply update_checks_justified; [exact Hj|]| |done].
  - intros c ask s2. destruct (LiveCheck.condition c) eqn:Hc; try done.
    destruct (bool_decide _) eqn:Hb; [|done]. simpl. destruct (is_unknown _); [|done].
    intros [= <-] Hs. apply bool_decide_eq_true in Hb. by eapply est_approved.
  - intros checks' s2 Hj'. unfold outcome. simpl. split; [done|].
    destruct (find_first _ checks') as [c|] eqn:Hf.
    + intros Hs. apply find_first_Some in Hf as (_ & Hn). apply bool_decide_eq_true in Hn. done.
    + intros _. split; [by exists request, s.2|]. apply Forall_forall. intros c Hin.
      rewrite find_first_None in Hf. specialize (Hf c Hin). apply bool_decide_eq_false in Hf. by apply dec_stable.
Qed.

Lemma check_applicability_spec checks s :
  justified run observed known resolved conditions checks →
  outcome (check_applicability run context observed resolved checks) s
    (λ r _, justified run observed known resolved conditions r.1 ∧
       (r.2 = LiveCheckStatus.Satisfied → approved ∧ Forall (λ c, satisfied c) r.1 ∧
        check_vg_membership observed resolved.(ResolvedAction.target).(ResolvedTarget.observed_id)
          = LiveCheckStatus.Satisfied ∧
        ∃ s0 : S, (scope_coverage context resolved actual s0).2 = LiveCheckStatus.Satisfied))
    (λ _ _, True).
Proof.
  intros Hj. unfold check_applicability. apply outcome_bind, outcome_asking. intros s1.
  case_bool_decide as Hscope; [by split|].  cbv zeta.
  case_bool_decide as Hmem; [by split|].
  apply outcome_bind. eapply outcome_mono; [by apply check_exclusions_spec| |done].
  intros [checks1 exclusion] s2 Hj1. case_bool_decide; [by split|].
  destruct (forallb _ checks1); [|by split].
  eapply outcome_mono; [by apply authorize_action_spec| |done].
  intros r s3 [Hj3 Hr]. split; [done|]. intros [Ha Hall]%Hr. eauto 10.
Qed.
End decision.

(** What stands behind a decision that names an endpoint. *)
Record endpoint_granted (run : ExecutionRun) (action : ActionId) (observed : ProbedObservation)
    (bs : OutputBindings) (lease : ExecutionLease) (rep : AdmissionReport) (resolved : ResolvedAction)
    : Prop := {
  eg_report : rep = AdmissionReport.mk run.(ExecutionRun.run_id) action
    observed.(ProbedObservation.observation) LiveCheckStatus.Satisfied lease.(held_resources)
    rep.(AdmissionReport.checks);
  eg_checking : run_state run action = Ok ActionRunState.Checking;
  eg_lease : lease.(lease_run_id) = run.(ExecutionRun.run_id) ∧ lease.(lease_action) = action;
  eg_checks : ∃ planned known,
    run.(ExecutionRun.plan).(ExecutionPlan.actions) !! action = Some planned ∧
    correlations bs run observed.(ProbedObservation.observation) = Ok known ∧
    LiveCheck.condition <$> rep.(AdmissionReport.checks) =
      planned.(PlannedAction.informational_contract).(ActionContract.prerequisites) ∧
    Forall (λ c, satisfied c ∧ established run observed known resolved c.(LiveCheck.condition))
      rep.(AdmissionReport.checks) ∧
    ∃ backend s, (availability planned.(PlannedAction.operation)
                    observed.(ProbedObservation.observation) s).2 =
                   OperationAvailability.Available backend ∧
      resolve_action_with_bindings run action observed.(ProbedObservation.observation) backend bs
        = Ok resolved;
  eg_approved : approved run observed resolved;
  eg_membership : check_vg_membership observed resolved.(ResolvedAction.target).(ResolvedTarget.observed_id)
    = LiveCheckStatus.Satisfied }.

Lemma require_no_attempt_spec `{!OsLaws S} (s : LinuxLiveHost * S) :
  outcome require_no_attempt s (λ _ _, active s.2 = None) (λ _ _, True).
Proof.
  apply outcome_bind. unfold outcome at 1, on_machine, sys_map_err.
  pose proof (inspect_spec s.2) as Hi. unfold outcome in Hi.
  destruct (inspect s.2) as [s' [found|e]]; [|done]. destruct Hi as [_ Hf].
  simpl. case_bool_decide as Hs; [done|]. destruct found; [by destruct Hs|]. done.
Qed.

(** The last part of the decision: the endpoint, and the checks behind it. *)
Lemma decide_endpoint_spec run action observed bs lease planned known checks backend s0 resolved s :
  run_state run action = Ok ActionRunState.Checking →
  lease.(lease_run_id) = run.(ExecutionRun.run_id) → lease.(lease_action) = action →
  run.(ExecutionRun.plan).(ExecutionPlan.actions) !! action = Some planned →
  correlations bs run observed.(ProbedObservation.observation) = Ok known →
  prerequisites_reported run.(ExecutionRun.document).(PlanDocument.baseline)
    observed.(ProbedObservation.observation) known observed.(ProbedObservation.capacity)
    planned.(PlannedAction.informational_contract).(ActionContract.prerequisites) checks →
  (availability planned.(PlannedAction.operation) observed.(ProbedObservation.observation) s0).2 =
    OperationAvailability.Available backend →
  resolve_action_with_bindings run action observed.(ProbedObservation.observation) backend bs = Ok resolved →
  outcome (check_applicability run (run_context run) observed resolved checks.(ObservedPrerequisites.checks)) s
    (λ r _, r.2 = LiveCheckStatus.Satisfied →
       endpoint_granted run action observed bs lease
         (AdmissionReport.mk run.(ExecutionRun.run_id) action observed.(ProbedObservation.observation)
            r.2 lease.(held_resources) r.1) resolved) (λ _ _, True).
Proof.
  intros Hst Hid Hact Hp Hk (_ & Hcond & Hall) Hav Hres.
  eapply outcome_mono; [apply (check_applicability_spec run observed known resolved
    (planned.(PlannedAction.informational_contract).(ActionContract.prerequisites)))| |done].
  - split; [done|]. eapply Forall_impl; [exact Hall|]. intros c [Hc _] Hs.
    destruct (Hc Hs) as [Ht Hh]. by apply est_observed.
  - intros [checks' applicability] s1 [[Hcond' Hj] Hr] Hsat. simpl in *. subst applicability.
    destruct (Hr eq_refl) as (Ha & Hs & Hm & _). split; simpl; try done.
    exists planned, known. split_and!; try done; [|eauto].
    apply Forall_and. split; [done|]. apply Forall_forall. intros c Hin.
    rewrite Forall_forall in Hj. apply Hj; [done|]. rewrite Forall_forall in Hs. by apply Hs.
Qed.

(** ** Theorem *)

(** C19: The Linux host names an endpoint only for the last publication of its own
    probe, newer than the run's, with no attempt marked, under the lease of
    this action, with every frozen prerequisite satisfied by the observation or
    by the policy that answers for it, and with the exact request approved. *)
Theorem linux_endpoint_granted `{!OsLaws S} run action observed bs lease (s s' : LinuxLiveHost * S)
    decision resolved :
  linux_check_admission run action observed bs lease s = (s', Ok decision) →
  decision.(AdmissionDecision.resolved) = Some resolved →
  endpoint_granted run action observed bs lease decision.(AdmissionDecision.report) resolved ∧
  is_current s.1 run observed.(ProbedObservation.observation).(LiveObservation.reference) = true ∧
  active s.2 = None.
Proof.
  intros He Hres.
  enough (outcome (linux_check_admission run action observed bs lease) s
    (λ decision _, ∀ resolved, decision.(AdmissionDecision.resolved) = Some resolved →
       endpoint_granted run action observed bs lease decision.(AdmissionDecision.report) resolved ∧
       is_current s.1 run observed.(ProbedObservation.observation).(LiveObservation.reference) = true ∧
       active s.2 = None) (λ _ _, True)) as Hout.
  { unfold outcome in Hout. rewrite He in Hout. by apply Hout. }
  clear He Hres s' decision resolved. unfold linux_check_admission.
  destruct (negb _) eqn:Hid; [done|]. destruct (negb (_ =? _)) eqn:Hact; [done|].
  apply negb_false_iff, N.eqb_eq in Hid. apply negb_false_iff, Nat.eqb_eq in Hact. simpl.
  apply outcome_bind, outcome_of; [|done]. intros state Hst%map_failure_Ok.
  case_bool_decide as Hchk; [done|]. subst state. apply outcome_bind. unfold outcome at 1, require_current.
  destruct (is_current _ _ _) eqn:Hcur; [|done].
  apply outcome_bind. eapply outcome_mono; [apply require_no_attempt_spec| |done]. intros u s1 Hno.
  apply outcome_bind, outcome_of; [|done]. unfold index. intros planned Hp.
  destruct (_ !! action) as [planned'|] eqn:Hl; [|done]. injection Hp as ->.
  apply outcome_bind, outcome_of; [|done]. intros known Hk%map_failure_Ok.
  apply outcome_bind, outcome_of; [|done]. intros found Hf%map_failure_Ok.
  pose proof (observed_prerequisites_ok correlation_text run.(ExecutionRun.document).(PlanDocument.baseline)
    observed.(ProbedObservation.observation) observed.(ProbedObservation.capacity)
    planned.(PlannedAction.informational_contract).(ActionContract.prerequisites) known) as Hrep.
  unfold probed_prerequisites_with_bindings in Hf. cbn [run_context ExecutionContext.historical_baseline] in Hf.
  rewrite Hf in Hrep. simpl in Hrep.
  apply outcome_bind, outcome_asking. intros s2.
  destruct (availability _ _ _).2 as [backend|reason|reason] eqn:Hav.
  2, 3: done.
  destruct (resolve_action_with_bindings _ _ _ _ _) as [resolved|[]] eqn:Hr; [|done..].
  apply outcome_bind. unfold outcome at 1. simpl. apply outcome_bind.
  eapply outcome_mono; [by eapply decide_endpoint_spec| |done].
  intros [checks applicability] s3 Hg. simpl in Hg. unfold outcome. simpl.
  case_bool_decide as Hs; [|done]. intros r [= <-]. auto.
Qed.
End admission.
