(* ===== verification/Incident.v ===== *)
(** * Incidents: [storage-runtime/src/incident.rs]

    Review of the attempt an interrupted execution left behind: inspection under
    the host lock, a review with a token, and the acknowledgment that removes the
    marker of the reviewed attempt.  The acknowledgment policy is the
    application's; it may do anything to the machine. *)

From S2P Require Import Prelude Model Reach Graph GraphOrder GraphValid State Action Contract.
From S2P Require Import Logical Evidence Effects Report Simulate Wire Observation Correlate.
From S2P Require Import Observe Execution Live Json WireJsonProps Recipes.
From S2P Require Import Native Scope Bindings.
From S2P Require Import Targets Checkpoint StoreProps Host.

Module IncidentError.
Inductive IncidentError :=
| Lease (e : LeaseError)
| Checkpoint (e : CheckpointError)
| ConfirmationMismatch
| Changed
| WrongRoot
| Safety (status : LiveCheckStatus)
| Document (e : PlanDocumentError)
| Probe (e : ProbeObservationError).
#[global] Instance IncidentError_eq_dec : EqDecision IncidentError.
Proof. solve_decision. Defined.
End IncidentError.
Abbreviation IncidentError := IncidentError.IncidentError.

Module IncidentAssessment.
Inductive IncidentAssessment := EffectObserved | Indeterminate.
#[global] Instance IncidentAssessment_eq_dec : EqDecision IncidentAssessment.
Proof. solve_decision. Defined.
End IncidentAssessment.
Abbreviation IncidentAssessment := IncidentAssessment.IncidentAssessment.

Module IncidentInspection.
Record IncidentInspection := mk {
  attempt : ActiveAttempt;
  fresh_state : LiveObservation;
  assessment : IncidentAssessment }.
#[global] Instance IncidentInspection_eq_dec : EqDecision IncidentInspection.
Proof. solve_decision. Defined.
End IncidentInspection.
Abbreviation IncidentInspection := IncidentInspection.IncidentInspection.

Module IncidentReview.
Record IncidentReview := mk {
  inspection : IncidentInspection;
  token : Uuid;
  directory : N * N }.
End IncidentReview.
Abbreviation IncidentReview := IncidentReview.IncidentReview.

(** ** Assessment *)

Definition is_vg_uuid (i : ExternalId) : bool :=
  match i with ExternalId.LvmVgUuid _ => true | _ => false end.
Definition is_lv_uuid (i : ExternalId) : bool :=
  match i with ExternalId.LvmLvUuid _ => true | _ => false end.
Definition is_trimmed_lv_uuid (i : ExternalId) : bool :=
  match i with ExternalId.LvmLvUuid uuid => is_trimmed uuid | _ => false end.

Definition is_present (node : Node) : bool :=
  bool_decide (node.(Node.size).(NodeFacts.presence) = Presence.Present).

(** The group: the only node with the identity, present, with one group UUID. *)
Definition incident_group (graph : NodeGraph) (identity : ExternalId) : option NodeId :=
  match holders graph identity with
  | [(id, node)] =>
      if is_present node
         && match node.(Node.kind).(NodeSpec.kind) with NodeKind.LvmVg _ _ => true | _ => false end
         && (length (List.filter is_vg_uuid (identities node)) =? 1)%nat
      then Some id else None
  | _ => None
  end.

(** The volumes of that name the group provides. *)
Definition incident_candidates (graph : NodeGraph) (vg : NodeId) (name : string) : list (NodeId * Node) :=
  let provided := List.filter (λ d, (d.(Dependency.from_) =? vg)%N &&
                                    bool_decide (d.(Dependency.kind) = DependencyKind.Provides))
                    graph.(NodeGraph.dependencies) in
  List.filter (λ e : NodeId * Node, match e.2.(Node.kind).(NodeSpec.kind) with
                       | NodeKind.LvmLv lv => bool_decide (lv.(LvmLv.name) = name)
                       | _ => false end)
    (omap (λ d, pair d.(Dependency.to) <$> Graph.node graph d.(Dependency.to)) provided).

(** The volume with the requested geometry, on nothing else, with one UUID of
    its own. *)
Definition incident_volume (graph : NodeGraph) (size : N) (layout : LvmLvKind) (id : NodeId)
    (node : Node) : bool :=
  is_present node
  && bool_decide (node.(Node.kind).(NodeSpec.size) = Some size)
  && match node.(Node.kind).(NodeSpec.kind) with
     | NodeKind.LvmLv lv => bool_decide (lv.(LvmLv.kind) = layout)
     | _ => false end
  && (length (List.filter (λ d, (d.(Dependency.to) =? id)%N) graph.(NodeGraph.dependencies)) =? 1)%nat
  && match List.filter is_trimmed_lv_uuid (identities node) with
     | [identity] => (length (List.filter is_lv_uuid (identities node)) =? 1)%nat
                     && (length (holders graph identity) =? 1)%nat
     | _ => false
     end.

Definition assess (attempt : ActiveAttempt) (observed : LiveObservation) : IncidentAssessment :=
  let snapshot := observed.(LiveObservation.snapshot) in
  let graph := snapshot.(CurrentState.graph) in
  if existsb (λ item, bool_decide (item.(Diagnostic.severity) ≠ DiagnosticSeverity.Warning))
       snapshot.(CurrentState.diagnostics)
  then IncidentAssessment.Indeterminate
  else
    match attempt.(ActiveAttempt.action) with
    | ProviderAction.Lvm (LvmAction.CreateLv vg _ name size layout) =>
        match find_first (λ t, (t.(TargetFingerprint.planned_id) =? vg)%N)
                attempt.(ActiveAttempt.targets) with
        | None => IncidentAssessment.Indeterminate
        | Some fingerprint =>
            match List.filter is_vg_uuid fingerprint.(TargetFingerprint.external_ids) with
            | [identity] =>
                match incident_group graph identity with
                | None => IncidentAssessment.Indeterminate
                | Some vg_id =>
                    match incident_candidates graph vg_id name with
                    | [(lv_id, node)] =>
                        if incident_volume graph size layout lv_id node
                        then IncidentAssessment.EffectObserved else IncidentAssessment.Indeterminate
                    | _ => IncidentAssessment.Indeterminate
                    end
                end
            | _ => IncidentAssessment.Indeterminate
            end
        end
    | _ => IncidentAssessment.Indeterminate
    end.

(** ** Comparison *)

Definition without_epoch (node : Node) : Node :=
  let facts := node.(Node.size) in
  Node.mk node.(Node.kind)
    (NodeFacts.mk facts.(NodeFacts.lvm_active) None facts.(NodeFacts.presence)
       facts.(NodeFacts.identities) facts.(NodeFacts.block) facts.(NodeFacts.device)).

(** [normalized_observation]: every node is replaced by itself without its
    publication epoch. *)
Definition normalized_observation (observed : LiveObservation)
    : result HistoricalBaseline IncidentError :=
  let snapshot := observed.(LiveObservation.snapshot) in
  let graph := snapshot.(CurrentState.graph) in
  let? graph := map_err (λ e, IncidentError.Probe
                                (ProbeObservationError.Observation (ObservationError.Graph e)))
    (try_fold (λ g '(id, node), let? (g, _) := replace_existing g id node in Ok g) graph
       (prod_map id without_epoch <$> map_to_list graph.(NodeGraph.nodes))) in
  Ok (HistoricalBaseline.mk observed.(LiveObservation.reference).(ObservationReference.probe_instance)
        (CurrentState.mk graph snapshot.(CurrentState.mounts) snapshot.(CurrentState.environment)
           snapshot.(CurrentState.diagnostics)) []).

(** [IncidentAcknowledgmentPolicy] *)
Class IncidentAcknowledgmentPolicy (S : Type) :=
  acknowledgment_check : IncidentInspection → IncidentInspection → S → S * LiveCheckStatus.

(** ** Inspection, review, acknowledgment *)

Section incident.
Context {S : Type} `{RuntimeText, Os S, HostPolicies S}.

Abbreviation handling A := (Sys S (Failure IncidentError) A) (only parsing).

Definition incident_store {A} (m : Sys S CheckpointError A) : handling A :=
  sys_map_err (λ e, Reported (IncidentError.Checkpoint e)) m.
Definition incident_lease {A} (m : Sys S LeaseError A) : handling A :=
  sys_map_err (λ e, Reported (IncidentError.Lease e)) m.
Definition incident_fail {A} (e : IncidentError) : handling A := sys_fail (Reported e).

(** The lock is dropped when the call returns. *)
Definition under_lock {A} (m : handling A) : handling A :=
  let* _ := incident_lease try_lock_host in
  λ s, let '(s, r) := m s in (close_lock s, r).

(** [ProbedObservation::collect(probe)?.into_observation()] *)
Definition probe_state : handling LiveObservation :=
  λ s, let '(s, publication) := probe_once s in
       (s, match collect debug_text (fresh_baseline_id s) (probe_instance_id s) publication with
           | Ok observed => Ok observed.(ProbedObservation.observation)
           | Err e => Err (Reported (IncidentError.Probe e))
           end).

Definition inspect_locked : handling (option IncidentInspection) :=
  let* found := incident_store inspect in
  match found with
  | None => sys_return None
  | Some attempt =>
      let* fresh := probe_state in
      sys_return (Some (IncidentInspection.mk attempt fresh (assess attempt fresh)))
  end.

Definition inspect_incident : handling (option IncidentInspection) := under_lock inspect_locked.

Definition directory_identity : handling (N * N) :=
  let* info := incident_lease (lease_io fstat_directory) in
  sys_return (info.(Stat.st_dev), info.(Stat.st_ino)).

(** [fresh_token] is the result of [Uuid::now_v7]. *)
Definition review_incident (fresh_token : Uuid) : handling (option IncidentReview) :=
  under_lock (
    let* directory := directory_identity in
    let* found := inspect_locked in
    sys_return ((λ inspection, IncidentReview.mk inspection fresh_token directory) <$> found)).

(** The marker still is the reviewed attempt. *)
Definition require_attempt (attempt : ActiveAttempt) : handling unit :=
  let* found := incident_store inspect in
  if bool_decide (found = Some attempt) then sys_return tt else incident_fail IncidentError.Changed.

Definition same_incident (reviewed fresh : LiveObservation) : handling bool :=
  let* reviewed := sys_of (report (normalized_observation reviewed)) in
  let* fresh := sys_of (report (normalized_observation fresh)) in
  sys_of (map_failure IncidentError.Document (has_same_observations reviewed fresh)).

Definition clear_attempt (attempt : ActiveAttempt) : handling unit :=
  λ s, let '(s, (_, r)) := clear false attempt s in
       (s, map_err (λ e, Reported (IncidentError.Checkpoint e)) r).

Context `{IncidentAcknowledgmentPolicy S}.

Definition acknowledge_incident (review : IncidentReview) (confirmation : Uuid)
    : handling IncidentInspection :=
  let reviewed := review.(IncidentReview.inspection) in
  if negb (confirmation =? review.(IncidentReview.token))%N
  then incident_fail IncidentError.ConfirmationMismatch
  else under_lock (
    let* directory := directory_identity in
    if bool_decide (directory ≠ review.(IncidentReview.directory))
    then incident_fail IncidentError.WrongRoot
    else
      let* _ := require_attempt reviewed.(IncidentInspection.attempt) in
      let* found := inspect_locked in
      let* fresh := sys_of (ok_or found (Reported IncidentError.Changed)) in
      let* same := same_incident reviewed.(IncidentInspection.fresh_state)
                     fresh.(IncidentInspection.fresh_state) in
      if negb same then incident_fail IncidentError.Changed
      else
        let* safe := λ s, let '(s, status) := acknowledgment_check reviewed fresh s in (s, Ok status) in
        if bool_decide (safe ≠ LiveCheckStatus.Satisfied) then incident_fail (IncidentError.Safety safe)
        else
          let* _ := require_attempt reviewed.(IncidentInspection.attempt) in
          let* _ := clear_attempt fresh.(IncidentInspection.attempt) in
          sys_return fresh).

(** [LinuxLiveHost]'s wrappers forget the last publication first. *)
Definition linux_inspect_incident : Sys (LinuxLiveHost * S) (Failure IncidentError) (option IncidentInspection) :=
  λ w, on_machine inspect_incident (None, w.2).
Definition linux_review_incident (fresh_token : Uuid)
    : Sys (LinuxLiveHost * S) (Failure IncidentError) (option IncidentReview) :=
  λ w, on_machine (review_incident fresh_token) (None, w.2).
Definition linux_acknowledge_incident (review : IncidentReview) (confirmation : Uuid)
    : Sys (LinuxLiveHost * S) (Failure IncidentError) IncidentInspection :=
  λ w, on_machine (acknowledge_incident review confirmation) (None, w.2).
End incident.
