(* ===== verification/IncidentProps.v ===== *)
(** * Incidents are acknowledged once, unchanged and on purpose

    What an inspection and an acknowledgment do to the marker, and what an
    observed effect says about the storage. *)

From S2P Require Import Prelude Model Reach Graph GraphOrder GraphValid State Action Contract.
From S2P Require Import Logical Evidence Effects Report Simulate Wire Observation Correlate.
From S2P Require Import Observe Execution Live Json WireJsonProps Recipes.
From S2P Require Import Native Scope Bindings.
From S2P Require Import Targets Checkpoint StoreProps Host Incident.

(** ** Comparison without epochs *)

Definition without_epochs (snapshot : CurrentState) : CurrentState :=
  let graph := snapshot.(CurrentState.graph) in
  CurrentState.mk
    (NodeGraph.mk (without_epoch <$> graph.(NodeGraph.nodes)) graph.(NodeGraph.dependencies)
       graph.(NodeGraph.relations))
    snapshot.(CurrentState.mounts) snapshot.(CurrentState.environment) snapshot.(CurrentState.diagnostics).

(** The replacements all find their node. *)
Lemma replace_nodes (l : list (NodeId * Node)) (g : NodeGraph) (m : gmap NodeId Node) :
  NoDup l.*1 → (∀ i n, (i, n) ∈ l → m !! i = Some (without_epoch n) ∧ is_Some (g.(NodeGraph.nodes) !! i)) →
  (∀ i, i ∉ l.*1 → g.(NodeGraph.nodes) !! i = m !! i) →
  try_fold (λ g '(id, node), let? (g, _) := replace_existing g id node in Ok g) g
    (prod_map id without_epoch <$> l) =
  Ok (NodeGraph.mk m g.(NodeGraph.dependencies) g.(NodeGraph.relations)).
Proof.
  revert g. induction l as [|[i n] l IH]; intros g Hnd Hin Hout; simpl.
  - destruct g as [nodes ds rs]. simpl in *. do 2 f_equal. apply map_eq. intros i. apply Hout. set_solver.
  - apply NoDup_cons in Hnd as [Hi Hnd]. destruct (Hin i n) as [Hm [old Ho]]; [by left|].
    unfold replace_existing at 1. rewrite Ho. simpl. rewrite IH; [done|done|..].
    + intros j n' Hj. simpl. destruct (Hin j n') as [Hm' Hs]; [by right|]. split; [done|].
      apply lookup_insert_is_Some'. by right.
    + intros j Hj. simpl. destruct (decide (i = j)) as [->|Hne]; [by rewrite lookup_insert_eq, Hm|].
      rewrite lookup_insert_ne by done. apply Hout. set_solver.
Qed.

Lemma normalized_observation_ok observed :
  normalized_observation observed =
  Ok (HistoricalBaseline.mk observed.(LiveObservation.reference).(ObservationReference.probe_instance)
        (without_epochs observed.(LiveObservation.snapshot)) []).
Proof.
  unfold normalized_observation. destruct observed as [reference [[nodes ds rs] mounts env diags]]. simpl.
  rewrite (replace_nodes _ _ (without_epoch <$> nodes)); [done|apply NoDup_fst_map_to_list|..]; simpl.
  - intros i n Hn%elem_of_map_to_list. rewrite lookup_fmap, Hn. by eauto.
  - intros i Hi. rewrite lookup_fmap. destruct (nodes !! i) as [n|] eqn:Hn; [|done].
    destruct Hi. apply list_elem_of_fmap. exists (i, n). split; [done|by apply elem_of_map_to_list].
Qed.

(** The same storage, read in two publications. *)
Definition same_storage (a b : LiveObservation) : Prop :=
  same_snapshot (without_epochs a.(LiveObservation.snapshot)) (without_epochs b.(LiveObservation.snapshot)).

(** ** The assessment *)

(** The volume is there: one group has the attempt's group UUID, it provides one
    volume of the name, with the requested size and layout and a UUID no other
    node has. *)
Definition effect_present (graph : NodeGraph) (vg_uuid name : string) (size : N) (layout : LvmLvKind)
    : Prop :=
  ∃ vg vg_node lv lv_node lv_uuid,
    holders graph (ExternalId.LvmVgUuid vg_uuid) = [(vg, vg_node)] ∧
    vg_node.(Node.size).(NodeFacts.presence) = Presence.Present ∧
    Dependency.mk vg lv DependencyKind.Provides ∈ graph.(NodeGraph.dependencies) ∧
    (∀ d, d ∈ graph.(NodeGraph.dependencies) → d.(Dependency.to) = lv → d.(Dependency.from_) = vg) ∧
    Graph.node graph lv = Some lv_node ∧
    lv_node.(Node.kind) = NodeSpec.mk (NodeKind.LvmLv (LvmLv.mk name layout)) (Some size) ∧
    lv_node.(Node.size).(NodeFacts.presence) = Presence.Present ∧
    List.filter is_lv_uuid (identities lv_node) = [ExternalId.LvmLvUuid lv_uuid] ∧
    holders graph (ExternalId.LvmLvUuid lv_uuid) = [(lv, lv_node)].

Lemma singleton_filter {A} (f : A → bool) l x : List.filter f l = [x] → x ∈ l ∧ f x = true.
Proof.
  intros Hl. assert (x ∈ List.filter f l) as Hx by (rewrite Hl; set_solver).
  apply list_elem_of_In, filter_In in Hx as [Hx Hf]. by rewrite list_elem_of_In.
Qed.

Lemma elem_of_list_filter {A} (f : A → bool) l x : x ∈ List.filter f l ↔ x ∈ l ∧ f x = true.
Proof. rewrite !list_elem_of_In. apply filter_In. Qed.

Lemma incident_group_Some graph identity vg :
  incident_group graph identity = Some vg →
  ∃ node, holders graph identity = [(vg, node)] ∧ node.(Node.size).(NodeFacts.presence) = Presence.Present.
Proof.
  unfold incident_group, is_present. destruct (holders _ _) as [|[id node] [|]]; try done.
  destruct (bool_decide _) eqn:Hp; [|done]. apply bool_decide_eq_true in Hp.
  destruct (_ && _); [|done]. intros [= ->]. eauto.
Qed.

Lemma incident_candidates_one graph vg name lv node :
  incident_candidates graph vg name = [(lv, node)] →
  Dependency.mk vg lv DependencyKind.Provides ∈ graph.(NodeGraph.dependencies) ∧
  Graph.node graph lv = Some node ∧
  ∃ v, node.(Node.kind).(NodeSpec.kind) = NodeKind.LvmLv v ∧ v.(LvmLv.name) = name.
Proof.
  unfold incident_candidates. intros [Hin Hk]%singleton_filter.
  apply list_elem_of_omap in Hin as (d & Hd & Hn). apply elem_of_list_filter in Hd as [Hd Hc].
  apply andb_true_iff in Hc as [Hf%N.eqb_eq Hp%bool_decide_eq_true].
  destruct (Graph.node graph _) as [n|] eqn:Hg; [|done]. simpl in Hn. injection Hn as <- <-.
  destruct d as [from to kind]. simpl in *. subst. split_and!; [done..|].
  destruct (NodeSpec.kind _); try done. apply bool_decide_eq_true in Hk. eauto.
Qed.

Lemma filter_singleton_only {A} (f : A → bool) l x y :
  length (List.filter f l) = 1 → x ∈ l → f x = true → y ∈ l → f y = true → x = y.
Proof.
  intros Hl Hx Hfx Hy Hfy. destruct (List.filter f l) as [|z [|]] eqn:Hz; try done.
  assert (∀ w, w ∈ l → f w = true → w = z) as Hw.
  { intros w Hw Hf. apply list_elem_of_singleton. rewrite <-Hz. by apply elem_of_list_filter. }
  by rewrite (Hw x), (Hw y).
Qed.

Lemma incident_volume_true graph vg name size layout lv node v :
  incident_volume graph size layout lv node = true →
  Dependency.mk vg lv DependencyKind.Provides ∈ graph.(NodeGraph.dependencies) →
  Graph.node graph lv = Some node →
  node.(Node.kind).(NodeSpec.kind) = NodeKind.LvmLv v → v.(LvmLv.name) = name →
  node.(Node.kind) = NodeSpec.mk (NodeKind.LvmLv (LvmLv.mk name layout)) (Some size) ∧
  node.(Node.size).(NodeFacts.presence) = Presence.Present ∧
  (∀ d, d ∈ graph.(NodeGraph.dependencies) → d.(Dependency.to) = lv → d.(Dependency.from_) = vg) ∧
  ∃ uuid, List.filter is_lv_uuid (identities node) = [ExternalId.LvmLvUuid uuid] ∧
    holders graph (ExternalId.LvmLvUuid uuid) = [(lv, node)].
Proof.
  unfold incident_volume, is_present. rewrite !andb_true_iff, !bool_decide_eq_true, Nat.eqb_eq.
  intros ((((Hp & Hs) & Hl) & Hd) & Hi) Hedge Hnode Hk Hn. rewrite Hk in Hl.
  apply bool_decide_eq_true in Hl. split_and!; [|done|..].
  { destruct (Node.kind node) as [k s]. simpl in *. subst. by destruct v. }
  { intros d Hin Hto. enough (d = Dependency.mk vg lv DependencyKind.Provides) as -> by done.
    eapply filter_singleton_only; [exact Hd|done| |done|]; simpl; by apply N.eqb_eq. }
  destruct (List.filter is_trimmed_lv_uuid _) as [|i [|]] eqn:Ht; try done.
  apply andb_true_iff in Hi as [Hone%Nat.eqb_eq Hhold%Nat.eqb_eq].
  apply singleton_filter in Ht as [Hi Ht]. destruct i as [| | | | | | | |uuid| | | | | | | | |]; try done.
  exists uuid. split.
  - destruct (List.filter is_lv_uuid _) as [|j [|]] eqn:Hj; try done.
    assert (ExternalId.LvmLvUuid uuid ∈ [j]) as Hu.
    { rewrite <-Hj. by apply elem_of_list_filter. }
    apply list_elem_of_singleton in Hu. by subst.
  - destruct (holders _ _) as [|e [|]] eqn:He; try done.
    assert ((lv, node) ∈ [e]) as Hu.
    { rewrite <-He. apply list_elem_of_filter. split; [done|]. by apply elem_of_map_to_list. }
    apply list_elem_of_singleton in Hu. by subst.
Qed.

(** [EffectObserved] is only said of a volume that is there. *)
Lemma assess_sound attempt observed :
  assess attempt observed = IncidentAssessment.EffectObserved →
  ∃ vg planned name size layout fingerprint uuid,
    attempt.(ActiveAttempt.action) = ProviderAction.Lvm (LvmAction.CreateLv vg planned name size layout) ∧
    fingerprint ∈ attempt.(ActiveAttempt.targets) ∧ fingerprint.(TargetFingerprint.planned_id) = vg ∧
    List.filter is_vg_uuid fingerprint.(TargetFingerprint.external_ids) = [ExternalId.LvmVgUuid uuid] ∧
    effect_present observed.(LiveObservation.snapshot).(CurrentState.graph) uuid name size layout.
Proof.
  unfold assess. destruct (existsb _ _); [done|].
  destruct (ActiveAttempt.action attempt) as [| |[]| | |] eqn:Ha; try done.
  destruct (find_first _ _) as [fingerprint|] eqn:Hf; [|done].
  apply find_first_Some in Hf as [Hf Hid%N.eqb_eq].
  destruct (List.filter is_vg_uuid _) as [|i [|]] eqn:Hi; try done.
  destruct (singleton_filter _ _ _ Hi) as [_ Hv]. destruct i as [| | | | | | |uuid| | | | | | | | | |]; try done.
  destruct (incident_group _ _) as [vg_id|] eqn:Hg; [|done].
  apply incident_group_Some in Hg as (vg_node & Hh & Hp).
  destruct (incident_candidates _ _ _) as [|[lv node] [|]] eqn:Hc; try done.
  apply incident_candidates_one in Hc as (He & Hn & v & Hk & Hname).
  destruct (incident_volume _ _ _ _ _) eqn:Hvol; [|done]. intros _.
  destruct (incident_volume_true _ _ _ _ _ _ _ _ Hvol He Hn Hk Hname) as (Hs & Hpr & Hin & lvu & Hlv & Hho).
  do 7 eexists. split_and!; [done..|]. exists vg_id, vg_node, lv, node, lvu. done.
Qed.

(** ** The marker *)

Section marker.
Context {S : Type} `{RuntimeText, Os S, !OsLaws S, !CodecLaws, HostPolicies S}.

(** A pass of the probe reads; the files of the store are not its business. *)
Hypothesis probe_quiet : ∀ s : S, files (probe_once s).1 = files s.

Lemma quiet_probe_state : quiet files (probe_state (S:=S)).
Proof. intros s. unfold probe_state. rewrite <-(probe_quiet s). by destruct (probe_once s). Qed.

Lemma inspect_locked_spec (s : S) :
  outcome inspect_locked s
    (λ found s', files s' = files s ∧
       match found with
       | None => active s = None
       | Some i => marked s i.(IncidentInspection.attempt) ∧
                   i.(IncidentInspection.assessment) =
                     assess i.(IncidentInspection.attempt) i.(IncidentInspection.fresh_state)
       end)
    (λ _ s', files s' = files s).
Proof.
  apply outcome_bind, outcome_map_err. eapply outcome_mono; [apply inspect_spec| |by intros].
  intros [attempt|] s1 [Hf Hm]; [|by unfold outcome]. apply outcome_bind.
  apply (quiet_outcome _ _ _ _ _ quiet_probe_state); [|intros; congruence].
  intros fresh s2 Hf2. unfold outcome. simpl. split; [congruence|done].
Qed.

(** What a computation does between taking the lock and dropping it. *)
Lemma outcome_under_lock {A} (m : Sys S (Failure IncidentError) A) s
    (Q : A → S → Prop) (X : Failure IncidentError → S → Prop) :
  (∀ e s', files s' = files s → X e s') →
  (∀ s1, files s1 = files s → outcome m s1 (λ a s', Q a (close_lock s')) (λ e s', X e (close_lock s'))) →
  outcome (under_lock m) s Q X.
Proof.
  intros HX Hm. apply outcome_bind, outcome_map_err.
  apply (quiet_outcome _ _ _ _ _ quiet_try_lock_host); [|intros; by apply HX].
  intros [] s1 Hf. specialize (Hm s1 Hf). unfold outcome in *. by destruct (m s1) as [s2 [a|e]].
Qed.

Lemma quiet_directory_identity : quiet files (directory_identity (S:=S)).
Proof.
  apply quiet_bind; [|intros; apply quiet_pure]. by apply quiet_map_err, quiet_map_err, quiet_fstat_directory.
Qed.

Lemma require_attempt_spec attempt (s : S) :
  outcome (require_attempt attempt) s (λ _ s', files s' = files s ∧ marked s attempt)
    (λ _ s', files s' = files s).
Proof.
  apply outcome_bind, outcome_map_err. eapply outcome_mono; [apply inspect_spec| |by intros].
  intros found s1 [Hf Hm]. case_bool_decide as Heq; [|done]. subst found. by unfold outcome.
Qed.

Lemma marked_files (s s' : S) attempt : files s' = files s → marked s' attempt ↔ marked s attempt.
Proof. intros [= Ha _]. unfold marked. by rewrite Ha. Qed.

Lemma marked_unique (s : S) a b : marked s a → marked s b → a = b.
Proof. intros (c & Hc & Ha) (d & Hd & Hb). congruence. Qed.

Context `{!WireLaws, IncidentAcknowledgmentPolicy S}.

Lemma same_incident_spec reviewed fresh (s : S) :
  outcome (same_incident reviewed fresh) s
    (λ same s', s' = s ∧ (same = true → same_storage reviewed fresh)) (λ _ s', s' = s).
Proof.
  unfold same_incident. rewrite !normalized_observation_ok.
  apply outcome_bind, outcome_of; [|done]. intros a [= <-].
  apply outcome_bind, outcome_of; [|done]. intros b [= <-].
  apply outcome_of; [|done]. intros same Hs%map_failure_Ok. split; [done|]. intros ->.
  by apply has_same_observations_true in Hs as [_ Hs].
Qed.

(** How the policy was asked: about a reading of the reviewed attempt, of the
    same storage, while the marker was in place. *)
Record asked (review : IncidentReview) (s : S) (fresh : IncidentInspection) (s1 s2 : S)
    (status : LiveCheckStatus) : Prop := {
  asked_policy :
    acknowledgment_check review.(IncidentReview.inspection) fresh s1 = (s2, status);
  asked_files : files s1 = files s;
  asked_attempt :
    fresh.(IncidentInspection.attempt) = review.(IncidentReview.inspection).(IncidentInspection.attempt);
  asked_marked : marked s fresh.(IncidentInspection.attempt);
  asked_assessment : fresh.(IncidentInspection.assessment) =
    assess fresh.(IncidentInspection.attempt) fresh.(IncidentInspection.fresh_state);
  asked_storage :
    same_storage review.(IncidentReview.inspection).(IncidentInspection.fresh_state)
      fresh.(IncidentInspection.fresh_state) }.

Lemma clear_attempt_spec attempt (s : S) :
  outcome (clear_attempt attempt) s (λ _ s', marked s attempt ∧ active s' = None)
    (λ _ s', active s' = active s ∨ marked s attempt ∧ active s' = None).
Proof.
  unfold outcome, clear_attempt. pose proof (clear_outcome false attempt s) as Hc.
  destruct (clear false attempt s) as [s' [flag [[]|e]]]; simpl; naive_solver.
Qed.

Lemma active_files (s s' : S) : files s' = files s → active s' = active s.
Proof. by intros [= Ha _]. Qed.
Lemma active_close (s : S) : active (close_lock s) = active s.
Proof. apply active_files, quiet_close_lock. Qed.

Ltac untouched := left; rewrite ?active_close; apply active_files; congruence.

Lemma acknowledge_incident_spec review confirmation (s : S) :
  outcome (acknowledge_incident review confirmation) s
    (λ fresh s', confirmation = review.(IncidentReview.token) ∧
       ∃ s1 s2, asked review s fresh s1 s2 LiveCheckStatus.Satisfied ∧
         marked s2 fresh.(IncidentInspection.attempt) ∧ active s' = None)
    (λ _ s', active s' = active s ∨
       ∃ fresh s1 s2 status, asked review s fresh s1 s2 status ∧
         (active s' = active s2 ∨
          status = LiveCheckStatus.Satisfied ∧ marked s2 fresh.(IncidentInspection.attempt) ∧ active s' = None)).
Proof.
  unfold acknowledge_incident. destruct (confirmation =? _)%N eqn:Ht; [|by left].
  apply N.eqb_eq in Ht. simpl. apply outcome_under_lock; [left; by apply active_files|]. intros s0 Hf0.
  apply outcome_bind, (quiet_outcome _ _ _ _ _ quiet_directory_identity);
    [|intros; untouched].
  intros directory sa Hfa. case_bool_decide as Hd; [untouched|].
  apply outcome_bind. eapply outcome_mono; [apply require_attempt_spec| |].
  2: { intros; untouched. }
  intros [] sb [Hfb Hmb]. apply outcome_bind. eapply outcome_mono; [apply inspect_locked_spec| |].
  2: { intros; untouched. }
  intros found sc [Hfc Hc]. apply outcome_bind, outcome_of.
  2: { intros; untouched. }
  intros fresh Hfresh. destruct found as [i|]; [|done]. injection Hfresh as ->. destruct Hc as [Hmc Ha].
  apply outcome_bind. eapply outcome_mono; [apply same_incident_spec| |].
  2: { intros e s' ->; untouched. }
  intros same sd [-> Hsame]. destruct same; simpl.
  2: { untouched. }
  specialize (Hsame eq_refl). apply outcome_bind. unfold outcome at 1.
  destruct (acknowledgment_check _ _ sc) as [s2 status] eqn:Hp.
  assert (asked review s fresh sc s2 status) as Hasked.
  { split; [done|congruence| |by rewrite (marked_files s sb) in Hmc by congruence|done|done].
    symmetry. eapply (marked_unique sb); [|done]. rewrite (marked_files sa sb) by done. done. }
  case_bool_decide as Hs; [right; exists fresh, sc, s2, status; split; [done|left; apply active_close]|].
  subst status. apply outcome_bind. eapply outcome_mono; [apply require_attempt_spec| |].
  2: { intros e s' Hf. right. exists fresh, sc, s2, LiveCheckStatus.Satisfied. split; [done|left].
       rewrite active_close. by apply active_files. }
  intros [] s3 [Hf3 Hm3]. apply outcome_bind. eapply outcome_mono; [apply clear_attempt_spec| |].
  - intros [] s4 [Hm4 Hn]. unfold outcome. simpl. split; [done|]. exists sc, s2. split; [done|].
    split; [by rewrite <-(marked_files s2 s3)|]. by rewrite active_close.
  - intros e s4 Hcl. right. exists fresh, sc, s2, LiveCheckStatus.Satisfied. split; [done|].
    rewrite active_close. destruct Hcl as [Hcl|[Hm4 Hn]]; [left|right].
    + rewrite Hcl. by apply active_files.
    + split; [done|]. split; [by rewrite <-(marked_files s2 s3)|done].
Qed.

(** ** Theorems *)


(** Inspecting an incident changes no marker; it reports none exactly when
    there is no marker, and otherwise the attempt the marker holds.  An effect
    reported as observed is there: one group has the UUID the attempt was bound
    to, and provides one volume with the requested name, size and layout and a
    UUID of its own. *)
Theorem incident_inspection_sound (s : S) :
  outcome inspect_incident s
    (λ found s', active s' = active s ∧
       match found with
       | None => active s = None
       | Some i => marked s i.(IncidentInspection.attempt) ∧
           (i.(IncidentInspection.assessment) = IncidentAssessment.EffectObserved →
            ∃ vg planned name size layout fingerprint uuid,
              i.(IncidentInspection.attempt).(ActiveAttempt.action) =
                ProviderAction.Lvm (LvmAction.CreateLv vg planned name size layout) ∧
              fingerprint ∈ i.(IncidentInspection.attempt).(ActiveAttempt.targets) ∧
              fingerprint.(TargetFingerprint.planned_id) = vg ∧
              List.filter is_vg_uuid fingerprint.(TargetFingerprint.external_ids) =
                [ExternalId.LvmVgUuid uuid] ∧
              effect_present
                i.(IncidentInspection.fresh_state).(LiveObservation.snapshot).(CurrentState.graph)
                uuid name size layout)
       end)
    (λ _ s', active s' = active s).
Proof.
  apply outcome_under_lock; [intros; by apply active_files|]. intros s1 Hf1.
  eapply outcome_mono; [apply inspect_locked_spec| |].
  2: { intros e s2 Hf. rewrite active_close. apply active_files. congruence. }
  intros found s2 [Hf Hm]. rewrite active_close. split; [apply active_files; congruence|].
  destruct found as [i|]; [|by rewrite <-(active_files s s1)]. destruct Hm as [Hm Ha].
  split; [by rewrite <-(marked_files s s1)|]. rewrite Ha. apply assess_sound.
Qed.
End marker.
