(* ===== verification/Coordinator.v ===== *)
(** * The coordinator: [storage-runtime/src/coordinator.rs]

    The only sequence around a backend call: check, lease, probe, admission,
    durable checkpoint, dispatch, probe, completion, verification, clear.  It is
    written against [RuntimeHost], [BackendDispatcher] and [Os], whatever they
    do.

    The world of a call holds the run, the coordinator's own fields, the host
    and the machine.  [published] is the sequence of runs handed to the
    observer's callback; [invocations] is an observer of the model itself, the
    backend calls with the run and the machine each of them started in. *)

From S2P Require Import Prelude Model Reach Graph GraphOrder GraphValid State Action Contract.
From S2P Require Import Logical Evidence Prerequisites Effects Report PlanOrder Compose ComposeProps.
From S2P Require Import Simulate SimulateProps Wire Observation.
From S2P Require Import Correlate Observe Execution Live LiveGoal Recipes.
From S2P Require Import Native Scope Bindings Targets.
From S2P Require Import Targets Checkpoint Host.

Module CoordinatorError.
Inductive CoordinatorError :=
| PlanUnavailable (status : LiveCheckStatus)
| AlreadyVerified
| Stopped
| InvalidDecision
| RunMismatch
| Receipt (e : DispatchError)
| Binding (e : BindingError)
| Lease (e : LeaseError)
| Host (e : HostError)
| Checkpoint (e : CheckpointError)
| Run (e : ExecutionRunError).
#[global] Instance CoordinatorError_eq_dec : EqDecision CoordinatorError.
Proof. solve_decision. Defined.
End CoordinatorError.
Abbreviation CoordinatorError := CoordinatorError.CoordinatorError.

Module ExecutionSummary.
Record ExecutionSummary := mk {
  run_id : Uuid;
  verified : bool;
  stopped_action : option ActionId;
  observation : option LiveObservation }.
End ExecutionSummary.
Abbreviation ExecutionSummary := ExecutionSummary.ExecutionSummary.

(** [ExecutionCoordinator] without its host and dispatcher. *)
Module Coordinator.
Record Coordinator := mk { halted : bool; run_id : Uuid; bindings : OutputBindings }.
End Coordinator.
Abbreviation Coordinator := Coordinator.Coordinator.

(** [ExecutionCoordinator::new] *)
Definition coordinator_new (run : ExecutionRun) : Coordinator :=
  Coordinator.mk false run.(ExecutionRun.run_id) (bindings_new run).

Module Invocation.
Record Invocation (S : Type) := mk { resolved : ResolvedAction; run : ExecutionRun; machine : S }.
Arguments mk {S} resolved run machine.
Arguments resolved {S} i.
Arguments run {S} i.
Arguments machine {S} i.
End Invocation.
Abbreviation Invocation := Invocation.Invocation.

Module World.
Record World (H S : Type) := mk {
  run : ExecutionRun;
  coordinator : Coordinator;
  host : H;
  machine : S;
  published : list ExecutionRun;
  invocations : list (Invocation S) }.
Arguments mk {H S} run coordinator host machine published invocations.
Arguments run {H S} w.
Arguments coordinator {H S} w.
Arguments host {H S} w.
Arguments machine {H S} w.
Arguments published {H S} w.
Arguments invocations {H S} w.
End World.
Abbreviation World := World.World.

Section world.
Context {H S : Type}.
Implicit Types (w : World H S).

Definition with_run (run : ExecutionRun) w : World H S :=
  World.mk run w.(World.coordinator) w.(World.host) w.(World.machine) w.(World.published)
    w.(World.invocations).
Definition with_coordinator (c : Coordinator) w : World H S :=
  World.mk w.(World.run) c w.(World.host) w.(World.machine) w.(World.published) w.(World.invocations).
Definition with_machine (s : S) w : World H S :=
  World.mk w.(World.run) w.(World.coordinator) w.(World.host) s w.(World.published)
    w.(World.invocations).
Definition with_host (h : H * S) w : World H S :=
  World.mk w.(World.run) w.(World.coordinator) h.1 h.2 w.(World.published) w.(World.invocations).
Definition set_halted (halted : bool) w : World H S :=
  with_coordinator (Coordinator.mk halted w.(World.coordinator).(Coordinator.run_id)
                      w.(World.coordinator).(Coordinator.bindings)) w.
Definition set_bindings (bs : OutputBindings) w : World H S :=
  with_coordinator (Coordinator.mk w.(World.coordinator).(Coordinator.halted)
                      w.(World.coordinator).(Coordinator.run_id) bs) w.
Definition add_published w : World H S :=
  World.mk w.(World.run) w.(World.coordinator) w.(World.host) w.(World.machine)
    (w.(World.published) ++ [w.(World.run)]) w.(World.invocations).
Definition add_invocation (resolved : ResolvedAction) w : World H S :=
  World.mk w.(World.run) w.(World.coordinator) w.(World.host) w.(World.machine) w.(World.published)
    (w.(World.invocations) ++ [Invocation.mk resolved w.(World.run) w.(World.machine)]).
End world.

Abbreviation coordinating H S A := (Sys (World H S) (Failure CoordinatorError) A) (only parsing).

Section coordinator.
Context {H S : Type} `{RuntimeText, Os S, RuntimeHost H S, BackendDispatcher S}.

Abbreviation coord A := (coordinating H S A) (only parsing).

(** *** Lifting *)

Definition reject {A} (e : CoordinatorError) : coord A := sys_fail (Reported e).
Definition read {A} (f : World H S → result A (Failure CoordinatorError)) : coord A := λ w, (w, f w).
Definition modify (f : World H S → World H S) : coord unit := λ w, (f w, Ok tt).

(** A call of the run. *)
Definition run_call {A} (m : Exec A) : coord A :=
  λ w, let '(run, r) := m w.(World.run) in
       (with_run run w, map_failure CoordinatorError.Run r).
(** A call of the machine or of the host. *)
Definition machine_call {E A} (f : E → CoordinatorError) (m : Sys S (Failure E) A) : coord A :=
  λ w, let '(s, r) := m w.(World.machine) in (with_machine s w, map_failure f r).
Definition host_call {A} (m : Sys (H * S) (Failure HostError) A) : coord A :=
  λ w, let '(h, r) := m (w.(World.host), w.(World.machine)) in
       (with_host h w, map_failure CoordinatorError.Host r).
Definition store_call {A} (m : Sys S CheckpointError A) : coord A :=
  machine_call CoordinatorError.Checkpoint (sys_report m).

Definition notify : coord unit := modify add_published.

Definition run_state_of (action : ActionId) : coord ActionRunState :=
  read (λ w, map_failure CoordinatorError.Run (run_state w.(World.run) action)).

Definition lift_result {E A} (f : E → CoordinatorError) (r : result A (Failure E)) : coord A :=
  sys_of (map_failure f r).

(** [run.mark_outcome_unknown(action, error.to_string())?; return Err(error.into())] *)
Definition stop_unknown {A} (action : ActionId) (reason : string) (e : CoordinatorError) : coord A :=
  let* _ := run_call (mark_outcome_unknown action reason) in reject e.
Definition stop_before {A} (action : ActionId) (reason : string) (e : CoordinatorError) : coord A :=
  let* _ := run_call (mark_pre_dispatch_failed action reason) in reject e.

(** The outcome of a fallible step, as a value: the error is handled by the code. *)
Definition attempting {E A} (r : result A (Failure E)) : coord (result A E) :=
  match r with
  | Ok a => sys_return (Ok a)
  | Err (Reported e) => sys_return (Err e)
  | Err Panicked => sys_fail Panicked
  | Err OutOfFuel => sys_fail OutOfFuel
  end.

(** *** The guards *)

Definition require_owner : coord unit :=
  read (λ w,
    if negb (w.(World.coordinator).(Coordinator.run_id) =? w.(World.run).(ExecutionRun.run_id))%N
    then Err (Reported CoordinatorError.RunMismatch)
    else if w.(World.coordinator).(Coordinator.halted) then Err (Reported CoordinatorError.Stopped)
    else Ok tt).

Definition require_reviewed : coord unit :=
  read (λ w, map_failure CoordinatorError.Host (check_reviewed_plan w.(World.run))).

Definition require_no_marker : coord unit :=
  let* found := store_call inspect in
  if bool_decide (is_Some found)
  then reject (CoordinatorError.Host HostError.ActiveAttempt) else sys_return tt.

(** *** One action *)

(** The endpoint belongs to this run, action, publication, operation and route. *)
Definition endpoint_matches (run : ExecutionRun) (action : ActionId) (report : AdmissionReport)
    (observed : ProbedObservation) (backend : ProviderAction → BackendId) (resolved : ResolvedAction)
    : result bool (Failure CoordinatorError) :=
  let reference := resolved.(ResolvedAction.observation) in
  if negb (resolved.(ResolvedAction.run_id) =? run.(ExecutionRun.run_id))%N
     || negb (resolved.(ResolvedAction.action_id) =? action)%nat
     || bool_decide (reference ≠ report.(AdmissionReport.observation).(LiveObservation.reference))
     || bool_decide (reference ≠
          observed.(ProbedObservation.observation).(LiveObservation.reference))
  then Ok false
  else
    let? planned := index run.(ExecutionRun.plan).(ExecutionPlan.actions) action in
    Ok (bool_decide (resolved.(ResolvedAction.operation) = planned.(PlannedAction.operation)) &&
        bool_decide (resolved.(ResolvedAction.backend) = backend resolved.(ResolvedAction.operation))).

Definition require_endpoint (action : ActionId) (observed : ProbedObservation)
    (decision : AdmissionDecision) : coord unit :=
  match decision.(AdmissionDecision.resolved) with
  | None => sys_return tt
  | Some resolved =>
      let* matches := read (λ w,
        endpoint_matches w.(World.run) action decision.(AdmissionDecision.report) observed
          (backend_for w.(World.machine)) resolved) in
      if matches : bool then sys_return tt else reject CoordinatorError.InvalidDecision
  end.

(** [ActiveAttempt::capture(...).and_then(|attempt| { store.arm(&attempt)?; Ok(attempt) })] with
    the handle's flag. *)
Definition prepare (action : ActionId) (operation : option Uuid) (resolved : ResolvedAction)
    : coord (bool * result ActiveAttempt CheckpointError) :=
  let* captured := (λ w, attempting (capture w.(World.run) action operation (fingerprints resolved)
                                       resolved.(ResolvedAction.backend)) w) in
  match captured with
  | Err e => sys_return (false, Err e)
  | Ok attempt =>
      λ w, let '(s, (poisoned, r)) := arm false attempt w.(World.machine) in
           (with_machine s w, Ok (poisoned, match r with Ok _ => Ok attempt | Err e => Err e end))
  end.

(** The backend call: progress goes to the run and to the observer. *)
Fixpoint run_dispatch (action : ActionId) (d : Dispatch S) : coord (result ExecutionReceipt DispatchError) :=
  match d with
  | Done s r => λ w, (with_machine s w, Ok r)
  | Progress detail k => λ w,
      let '(run, r) := record_progress action detail w.(World.run) in
      let w := with_run run w in
      match r with
      | Ok _ => run_dispatch action (k (Ok tt)) (add_published w)
      | Err (Reported e) => run_dispatch action (k (Err e)) w
      | Err Panicked => (w, Err Panicked)
      | Err OutOfFuel => (w, Err OutOfFuel)
      end
  end.

Definition dispatch (action : ActionId) (resolved : ResolvedAction) : coord ExecutionReceipt :=
  let* _ := modify (add_invocation resolved) in
  let* r := (λ w, run_dispatch action (execute resolved w.(World.machine)) w) in
  sys_return match r with
             | Ok receipt => receipt
             | Err e => ExecutionReceipt.mk (BackendOutcome.OutcomeUnknown (dispatch_text e)) None None
             end.

(** The verification that fits the operation. *)
Definition verify_result (action : ActionId) (resolved : ResolvedAction) (before : LiveObservation)
    (receipt : ExecutionReceipt) (run : ExecutionRun) (bs : OutputBindings)
    : binding (VerificationReport * option PendingLvBinding * option PendingFilesystemBinding) :=
  match resolved.(ResolvedAction.operation) with
  | ProviderAction.Filesystem _ =>
      let? (found, candidate) := verify_created_filesystem correlation_text run action resolved bs before
                                   receipt.(ExecutionReceipt.created_filesystem_uuid) in
      Ok (found, None, candidate)
  | _ =>
      if bool_decide (is_Some resolved.(ResolvedAction.filesystem_target)) then
        let? found := verify_mount correlation_text run action resolved bs before in
        Ok (found, None, None)
      else if bool_decide (is_Some resolved.(ResolvedAction.lv_target)) then
        let? found := verify_activation correlation_text run action resolved bs before
                        receipt.(ExecutionReceipt.created_lv_uuid) in
        Ok (found, None, None)
      else
        let? (found, candidate) := verify_created_lv correlation_text run action resolved bs before
                                     receipt.(ExecutionReceipt.created_lv_uuid) in
        Ok (found, candidate, None)
  end.

Definition verify_completed (action : ActionId) (resolved : ResolvedAction) (before : LiveObservation)
    (receipt : ExecutionReceipt)
    : coord (option PendingLvBinding * option PendingFilesystemBinding) :=
  let* verification := (λ w, attempting (verify_result action resolved before receipt w.(World.run)
                               w.(World.coordinator).(Coordinator.bindings)) w) in
  match verification with
  | Err e => stop_unknown action (binding_text e) (CoordinatorError.Binding e)
  | Ok (found, pending, pending_filesystem) =>
      let* _ := run_call (record_verification found) in
      sys_return (pending, pending_filesystem)
  end.

(** An update of the bindings. *)
Definition bind_outputs (f : OutputBindings → ExecutionRun → binding OutputBindings) : coord unit :=
  λ w, match map_failure CoordinatorError.Binding
               (f w.(World.coordinator).(Coordinator.bindings) w.(World.run)) with
       | Ok bs => (set_bindings bs w, Ok tt)
       | Err e => (w, Err e)
       end.

Definition record_outputs (action : ActionId) (resolved : ResolvedAction)
    (pending : option PendingLvBinding) (pending_filesystem : option PendingFilesystemBinding)
    : coord unit :=
  let* _ := match pending with
            | Some b => bind_outputs (λ bs run, record_verified bs run b)
            | None => sys_return tt
            end in
  let* _ := match pending_filesystem with
            | Some b => bind_outputs (λ bs run, record_verified_filesystem bs run b)
            | None => sys_return tt
            end in
  if bool_decide (is_Some resolved.(ResolvedAction.filesystem_target))
  then bind_outputs (λ bs run, record_verified_mount bs run action) else sys_return tt.

Definition clear_marker (poisoned : bool) (attempt : ActiveAttempt) : coord unit :=
  λ w, let '(s, (_, r)) := clear poisoned attempt w.(World.machine) in
       (with_machine s w, map_failure CoordinatorError.Checkpoint (report r)).

(** From the durable checkpoint to the answer of the backend. *)
Definition start_dispatch (action : ActionId) (resolved : ResolvedAction) : coord ExecutionReceipt :=
  let* _ := modify (set_halted true) in
  let* _ := notify in
  let* _ := run_call (mark_dispatch_started action) in
  let* _ := notify in
  dispatch action resolved.

(** [run.record_completion(...)] on the observation after the call. *)
Definition complete (action : ActionId) (receipt : ExecutionReceipt) (post : ProbedObservation)
    : coord (result unit ExecutionRunError) :=
  λ w, let '(run, r) := record_completion
         (BackendCompletion.mk w.(World.run).(ExecutionRun.run_id) action
            receipt.(ExecutionReceipt.outcome) post.(ProbedObservation.observation)) w.(World.run) in
       attempting r (with_run run w).

(** [let post = match self.host.probe() { ... }] *)
Definition probe_after : coord (result ProbedObservation HostError) :=
  λ w, let '(h, r) := host_probe (w.(World.host), w.(World.machine)) in attempting r (with_host h w).

(** A completed call: verification, the outputs, and the end of the attempt. *)
Definition run_completed (action : ActionId) (resolved : ResolvedAction) (observed : ProbedObservation)
    (poisoned : bool) (attempt : ActiveAttempt) (receipt : ExecutionReceipt) : coord ActionRunState :=
  let* _ := notify in
  let* state := run_state_of action in
  let* (pending, pending_filesystem) :=
    if bool_decide (state = ActionRunState.Verifying)
    then verify_completed action resolved observed.(ProbedObservation.observation) receipt
    else sys_return (None, None) in
  let* state := run_state_of action in
  if bool_decide (state = ActionRunState.Verified) then
    let* _ := record_outputs action resolved pending pending_filesystem in
    let* _ := notify in
    let* _ := clear_marker poisoned attempt in
    let* _ := modify (set_halted false) in
    sys_return state
  else sys_return state.

(** After the backend answered. *)
Definition run_dispatched (action : ActionId) (resolved : ResolvedAction) (observed : ProbedObservation)
    (poisoned : bool) (attempt : ActiveAttempt) (receipt : ExecutionReceipt) : coord ActionRunState :=
  let* post := probe_after in
  match post with
  | Err e => stop_unknown action (host_text e) (CoordinatorError.Host e)
  | Ok post =>
      match validate_receipt receipt resolved.(ResolvedAction.operation) with
      | Err e => stop_unknown action (dispatch_text e) (CoordinatorError.Receipt e)
      | Ok _ =>
          let* completed := complete action receipt post in
          match completed with
          | Err e => stop_unknown action (run_text e) (CoordinatorError.Run e)
          | Ok _ => run_completed action resolved observed poisoned attempt receipt
          end
      end
  end.

(** After the checkpoint is durable. *)
Definition run_armed (action : ActionId) (resolved : ResolvedAction) (observed : ProbedObservation)
    (poisoned : bool) (attempt : ActiveAttempt) : coord ActionRunState :=
  let* receipt := start_dispatch action resolved in
  run_dispatched action resolved observed poisoned attempt receipt.

(** After the host decided. *)
Definition run_admitted (action : ActionId) (operation : option Uuid) (observed : ProbedObservation)
    (decision : AdmissionDecision) : coord ActionRunState :=
  match decision.(AdmissionDecision.resolved) with
  | None => stop_before action "admitted report has no resolved endpoint" CoordinatorError.InvalidDecision
  | Some resolved =>
      let* (poisoned, prepared) := prepare action operation resolved in
      match prepared with
      | Err e => stop_before action (checkpoint_text e) (CoordinatorError.Checkpoint e)
      | Ok attempt => run_armed action resolved observed poisoned attempt
      end
  end.

(** Under the lease. *)
Definition run_leased (action : ActionId) (operation : option Uuid) (lease : ExecutionLease)
    : coord ActionRunState :=
  let* _ := require_no_marker in
  let* observed := host_call host_probe in
  let* decision := (λ w, host_call (host_check_admission w.(World.run) action observed
                           w.(World.coordinator).(Coordinator.bindings) lease) w) in
  let* _ := require_endpoint action observed decision in
  let* admitted := run_call (record_admission decision.(AdmissionDecision.report)) in
  let* _ := notify in
  if admitted : bool then run_admitted action operation observed decision else run_state_of action.

(** [locked] is the [Some(lock)] of a run that holds the host lock; otherwise
    the lease acquires it, and its drop releases it. *)
Definition execute_action_locked (action : ActionId) (operation : option Uuid) (locked : bool)
    : coord ActionRunState :=
  let* _ := require_owner in
  let* _ := require_reviewed in
  let* state := run_state_of action in
  let* _ := match state with
            | ActionRunState.Waiting => run_call (begin_check action)
            | ActionRunState.Checking => sys_return tt
            | state => reject (CoordinatorError.Run (ExecutionRunError.InvalidTransition action state))
            end in
  let* _ := notify in
  if locked then
    let* lease := (λ w, machine_call CoordinatorError.Lease (under_host_lock w.(World.run) action) w) in
    run_leased action operation lease
  else
    let* lease := (λ w, machine_call CoordinatorError.Lease (try_acquire w.(World.run) action) w) in
    λ w, let '(w, r) := run_leased action operation lease w in
         (with_machine (close_lock w.(World.machine)) w, r).

Definition execute_action (action : ActionId) (operation : option Uuid) : coord ActionRunState :=
  execute_action_locked action operation false.

(** *** A run *)

Definition summary (stopped : option ActionId) : coord ExecutionSummary :=
  λ w, (w, Ok (ExecutionSummary.mk w.(World.run).(ExecutionRun.run_id) (is_verified w.(World.run))
                 stopped w.(World.run).(ExecutionRun.latest_observation))).

(** The loop over the ordered actions; [Some] is an early return. *)
Fixpoint run_actions (ordered : list ActionId) : coord (option ExecutionSummary) :=
  match ordered with
  | [] => sys_return None
  | action :: ordered =>
      let* state := run_state_of action in
      match state with
      | ActionRunState.Verified => run_actions ordered
      | ActionRunState.Waiting | ActionRunState.Checking =>
          let* state := execute_action_locked action None true in
          let* _ := notify in
          if bool_decide (state ≠ ActionRunState.Verified)
          then let* stopped := summary (Some action) in sys_return (Some stopped)
          else run_actions ordered
      | _ => reject CoordinatorError.Stopped
      end
  end.

Definition verify_run : coord ExecutionSummary :=
  let* observed := host_call host_probe in
  let* found := (λ w, host_call (host_verify_goal w.(World.run) observed
                        w.(World.coordinator).(Coordinator.bindings)) w) in
  let* _ := read (λ w,
    if negb (found.(GoalVerificationReport.run_id) =? w.(World.run).(ExecutionRun.run_id))%N
       || bool_decide (found.(GoalVerificationReport.observation) ≠
                       observed.(ProbedObservation.observation))
    then Err (Reported CoordinatorError.InvalidDecision) else Ok tt) in
  let* _ := require_no_marker in
  let* _ := run_call (record_goal_verification found) in
  summary None.

Definition run_locked : coord ExecutionSummary :=
  let* _ := require_no_marker in
  let* initial := host_call host_probe in
  let* readiness := (λ w, host_call (host_check_plan w.(World.run) initial) w) in
  if bool_decide (readiness ≠ LiveCheckStatus.Satisfied)
  then reject (CoordinatorError.PlanUnavailable readiness)
  else
    let* ordered := read (λ w, ordered_actions w.(World.run).(ExecutionRun.plan)) in
    let* stopped := run_actions (PlannedAction.id <$> ordered) in
    match stopped with
    | Some stopped => sys_return stopped
    | None => verify_run
    end.

Definition execute_run_inner : coord ExecutionSummary :=
  let* _ := require_owner in
  let* _ := read (λ w, if is_verified w.(World.run)
                       then Err (Reported CoordinatorError.AlreadyVerified) else Ok tt) in
  let* _ := require_reviewed in
  let* _ := machine_call CoordinatorError.Lease (sys_report try_lock_host) in
  λ w, let '(w, r) := run_locked w in (with_machine (close_lock w.(World.machine)) w, r).

(** [execute_run_with_updates]: the observer sees the run before and after,
    also of a failed call. *)
Definition execute_run_with_updates : coord ExecutionSummary :=
  λ w, let '(w, r) := execute_run_inner (add_published w) in (add_published w, r).

Definition execute_run : coord ExecutionSummary := execute_run_with_updates.
End coordinator.

(** [execute_run_with_events]: the events a callback sees, from the runs
    published to it. *)
Definition deliver (acc : N * list RunEvent) (run : ExecutionRun) : N * list RunEvent :=
  foldl (λ acc event, (event.(RunEvent.sequence), acc.2 ++ [event])) acc (events_since run acc.1).

Definition delivered_events (published : list ExecutionRun) : list RunEvent :=
  (foldl deliver (0%N, []) published).2.
