(* ===== verification/CoordinatorProps.v ===== *)
(** * The protocol around a backend call

    For every host, dispatcher and machine: the run moves only by its own
    operations, a backend is called only for an admitted action whose attempt is
    durably marked, no action is called twice, and after a call that did not end
    verified nothing more happens. *)

From stdpp Require Import relations.
From S2P Require Import Prelude Model Reach Graph GraphOrder GraphValid State Action Contract.
From S2P Require Import Logical Evidence Prerequisites Effects Report PlanOrder Compose ComposeProps.
From S2P Require Import Simulate SimulateProps Wire Observation.
From S2P Require Import Correlate Observe Execution ExecutionProps Live.
From S2P Require Import LiveProps LiveGoal.
From S2P Require Import Recipes Native Scope Bindings BindingProps Targets.
From S2P Require Import Targets Checkpoint StoreProps Host Coordinator.

Implicit Types (run : ExecutionRun).

(** ** Methods of a run *)

Lemma mark_dispatch_running run action :
  atomic run (mark_dispatch_started action)
    (λ _ run', in_state run' (λ s, s = ActionRunState.Running) action).
Proof.
  apply atomic_require. intros r Hi Hs. eapply atomic_set_state; [done|]. intros _.
  exists (with_state ActionRunState.Running r). unfold moved. rewrite pushed_actions.
  split; [by apply altered_lookup|by destruct r].
Qed.

(** Methods of a run as steps. *)
Definition stepping {A} (m : Exec A) : Prop := ∀ run, rtc run_step run (m run).1.

Lemma stepping_op op : stepping (run_op op).
Proof. intros run. apply rtc_once. by exists op. Qed.
Lemma stepping_admission rep : stepping (record_admission rep).
Proof.
  intros run. apply rtc_once. exists (RunOp.RecordAdmission rep). cbn [run_op]. unfold exec_bind.
  by destruct (record_admission rep run) as [? []].
Qed.
Lemma stepping_verification rep : stepping (record_verification rep).
Proof.
  intros run. apply rtc_once. exists (RunOp.RecordVerification rep). cbn [run_op]. unfold exec_bind.
  by destruct (record_verification rep run) as [? []].
Qed.
Lemma stepping_goal rep : stepping (record_goal_verification rep).
Proof.
  intros run. apply rtc_once. exists (RunOp.RecordGoalVerification rep). cbn [run_op]. unfold exec_bind.
  by destruct (record_goal_verification rep run) as [? []].
Qed.

(** ** Computations that keep a property of the world *)

Definition keeps {W E A} (P : W → Prop) (m : Sys W E A) : Prop := ∀ w, P w → P (m w).1.

Section keeps.
Context {W : Type} (P : W → Prop).

Lemma keeps_bind {E A B} (m : Sys W E A) (k : A → Sys W E B) :
  keeps P m → (∀ a, keeps P (k a)) → keeps P (sys_bind m k).
Proof.
  intros Hm Hk w Hw. unfold sys_bind. specialize (Hm w Hw). destruct (m w) as [w' [a|e]]; [|done].
  by apply Hk.
Qed.
Lemma keeps_pure {E A} (f : W → result A E) : keeps P (λ w, (w, f w)).
Proof. by intros w. Qed.
Lemma keeps_reader {E A X} (f : W → X) (m : X → Sys W E A) :
  (∀ x, keeps P (m x)) → keeps P (λ w, m (f w) w).
Proof. intros Hm w Hw. by apply Hm. Qed.
Lemma keeps_modify {E A} (g : W → W) (a : A) : (∀ w, P w → P (g w)) → keeps P (λ w, (g w, Ok (E:=E) a)).
Proof. intros Hg w Hw. by apply Hg. Qed.
End keeps.

Lemma outcome_keeps {W E A} (P : W → Prop) (m : Sys W E A) w :
  keeps P m → P w → outcome m w (λ _, P) (λ _, P).
Proof. intros Hm Hw. specialize (Hm w Hw). unfold outcome. by destruct (m w) as [w' []]. Qed.

Lemma outcome_modify {W E A} (g : W → W) (a : A) w (Q : A → W → Prop) (X : E → W → Prop) :
  Q a (g w) → outcome (λ w, (g w, Ok a)) w Q X.
Proof. done. Qed.

Create HintDb keeps.
#[export] Hint Resolve keeps_pure keeps_reader : keeps.

Section world.
Context {H S : Type}.
Implicit Types (w : World H S).

(** Kept by everything but the coordinator's own steps. *)
Record stable (P : World H S → Prop) : Prop := {
  stable_run w run' : P w → rtc run_step w.(World.run) run' → P (with_run run' w);
  stable_host w h : P w → P (with_host h w);
  stable_published w : P w → P (add_published w);
  stable_bindings w bs : P w →
    binding_step w.(World.run) w.(World.coordinator).(Coordinator.bindings) bs → P (set_bindings bs w) }.

Definition invoked w : list ActionId :=
  (λ i, i.(Invocation.resolved).(ResolvedAction.action_id)) <$> w.(World.invocations).

Context `{RuntimeText, Os S, RuntimeHost H S, BackendDispatcher S}.

Section stable.
Context (P : World H S → Prop) (HP : stable P).

Lemma stable_machine w s : P w → P (with_machine s w).
Proof. intros Hw. by apply (stable_host P HP w (w.(World.host), s)). Qed.

Lemma keeps_run_call {A} (m : Exec A) : stepping m → keeps P (run_call m).
Proof.
  intros Hm w Hw. unfold run_call. specialize (Hm w.(World.run)).
  destruct (m w.(World.run)) as [run' r]. by apply (stable_run P HP).
Qed.
Lemma keeps_machine_call {E A} (f : E → CoordinatorError) (m : Sys S (Failure E) A) :
  keeps P (machine_call f m).
Proof. intros w Hw. unfold machine_call. destruct (m _) as [s r]. by apply stable_machine. Qed.
Lemma keeps_host_call {A} (m : Sys (H * S) (Failure HostError) A) : keeps P (host_call m).
Proof. intros w Hw. unfold host_call. destruct (m _) as [h r]. by apply (stable_host P HP). Qed.
Lemma keeps_notify : keeps P notify.
Proof. intros w Hw. by apply (stable_published P HP). Qed.
Lemma keeps_attempting {E A} (r : result A (Failure E)) : keeps P (attempting (H:=H) (S:=S) r).
Proof. intros w Hw. by destruct r as [|[]]. Qed.
Lemma keeps_stop_unknown {A} action reason e : keeps P (stop_unknown (A:=A) action reason e).
Proof.
  apply keeps_bind; [apply keeps_run_call, (stepping_op (RunOp.MarkOutcomeUnknown action reason))|].
  intros. apply keeps_pure.
Qed.
Lemma keeps_stop_before {A} action reason e : keeps P (stop_before (A:=A) action reason e).
Proof.
  apply keeps_bind; [apply keeps_run_call, (stepping_op (RunOp.MarkPreDispatchFailed action reason))|].
  intros. apply keeps_pure.
Qed.

Lemma keeps_bind_outputs f :
  (∀ bs run bs', f bs run = Ok bs' → binding_step run bs bs') → keeps P (bind_outputs f).
Proof.
  intros Hf w Hw. unfold bind_outputs. destruct (f _ _) as [bs|[]] eqn:Hb; try done.
  by apply (stable_bindings P HP), Hf.
Qed.
Lemma keeps_record_outputs action resolved pending pending_filesystem :
  keeps P (record_outputs action resolved pending pending_filesystem).
Proof.
  apply keeps_bind.
  { destruct pending; [apply keeps_bind_outputs; eauto using binding_step|apply keeps_pure]. }
  intros _. apply keeps_bind.
  { destruct pending_filesystem; [apply keeps_bind_outputs; eauto using binding_step|apply keeps_pure]. }
  intros _. case_bool_decide; [apply keeps_bind_outputs; eauto using binding_step|apply keeps_pure].
Qed.

Lemma keeps_run_dispatch action d : keeps P (run_dispatch action d).
Proof.
  induction d as [s r|detail k IH]; intros w Hw; simpl; [by apply stable_machine|].
  pose proof (stepping_op (RunOp.RecordProgress action detail) w.(World.run)) as Hs. simpl in Hs.
  destruct (record_progress action detail w.(World.run)) as [run' r]. simpl in Hs.
  pose proof (stable_run P HP _ _ Hw Hs) as Hw'. destruct r as [u|[e| |]]; [|by apply IH|done..].
  apply IH. by apply (stable_published P HP).
Qed.

Lemma keeps_require_no_marker : keeps P require_no_marker.
Proof.
  apply keeps_bind; [apply keeps_machine_call|]. intros found. case_bool_decide; apply keeps_pure.
Qed.
Lemma keeps_require_endpoint action observed decision : keeps P (require_endpoint action observed decision).
Proof.
  unfold require_endpoint. destruct (AdmissionDecision.resolved decision); [|apply keeps_pure].
  apply keeps_bind; [apply keeps_pure|]. intros []; apply keeps_pure.
Qed.

Lemma keeps_verify_completed action resolved before receipt :
  keeps P (verify_completed action resolved before receipt).
Proof.
  apply keeps_bind.
  { intros w Hw. by apply keeps_attempting. }
  intros [[[found pending] fs]|e]; [|apply keeps_stop_unknown].
  apply keeps_bind; [apply keeps_run_call, stepping_verification|]. intros. apply keeps_pure.
Qed.
End stable.

(** ** The protocol *)

Section protocol.
Context `{!OsLaws S, !CodecLaws}.
Context (run0 : ExecutionRun) (run0_inv : run_inv run0).

(** The marker the backend call of [resolved] is protected by. *)
Definition attempt_of run (resolved : ResolvedAction) (attempt : ActiveAttempt) : Prop :=
  attempt.(ActiveAttempt.run_id) = run.(ExecutionRun.run_id) ∧
  attempt.(ActiveAttempt.plan_id) = run.(ExecutionRun.document).(PlanDocument.plan_id) ∧
  attempt.(ActiveAttempt.action_id) = resolved.(ResolvedAction.action_id) ∧
  attempt.(ActiveAttempt.action) = resolved.(ResolvedAction.operation) ∧
  attempt.(ActiveAttempt.targets) = fingerprints resolved ∧
  attempt.(ActiveAttempt.backend_id) = resolved.(ResolvedAction.backend) ∧
  digest_of run.(ExecutionRun.document) = Ok attempt.(ActiveAttempt.plan_digest).

(** The endpoint is the frozen operation of this run's action. *)
Definition endpoint_of run (resolved : ResolvedAction) : Prop :=
  resolved.(ResolvedAction.run_id) = run.(ExecutionRun.run_id) ∧
  ∃ planned, run.(ExecutionRun.plan).(ExecutionPlan.actions) !! resolved.(ResolvedAction.action_id)
               = Some planned ∧
             resolved.(ResolvedAction.operation) = planned.(PlannedAction.operation).

Record invocation_ok (i : Invocation S) : Prop := {
  io_run : rtc run_step run0 i.(Invocation.run);
  io_endpoint : endpoint_of i.(Invocation.run) i.(Invocation.resolved);
  io_running : in_state i.(Invocation.run) (λ s, s = ActionRunState.Running)
                 i.(Invocation.resolved).(ResolvedAction.action_id);
  io_marked : ∃ attempt, marked i.(Invocation.machine) attempt ∧
                attempt_of i.(Invocation.run) i.(Invocation.resolved) attempt }.

Record protocol w : Prop := {
  pr_run : rtc run_step run0 w.(World.run);
  pr_once : NoDup (invoked w);
  pr_dispatched a : a ∈ invoked w → in_state w.(World.run) (λ s, dispatched s = true) a;
  pr_invocations i : i ∈ w.(World.invocations) → invocation_ok i;
  pr_bindings : bindings_inv w.(World.run) w.(World.coordinator).(Coordinator.bindings) }.

Abbreviation is_halted w := (w.(World.coordinator).(Coordinator.halted)) (only parsing).

(** Every action handed to a backend is verified, unless in [except]. *)
Definition verified_but (except : ActionId → Prop) w : Prop :=
  ∀ a, a ∈ invoked w → except a ∨ in_state w.(World.run) (λ s, s = ActionRunState.Verified) a.

Definition settled w : Prop :=
  protocol w ∧ (is_halted w = false → verified_but (λ _, False) w).

(** While the call of [action] is under way. *)
Definition underway (action : ActionId) w : Prop :=
  protocol w ∧ is_halted w = true ∧ verified_but (λ a, a = action) w.

Lemma protocol_run w : protocol w → run_inv w.(World.run).
Proof. intros [Hr _ _ _ _]. by eapply run_steps_inv. Qed.

Lemma protocol_stable : stable protocol.
Proof.
  split.
  - intros w run' Hp Hs. pose proof (protocol_run w Hp) as Hi. destruct Hp as [Hr Ho Hd Hm Hb].
    split; [by etrans|done| |done|by eapply bindings_inv_run].
    intros a Ha. by eapply run_steps_dispatched; [..|apply Hd].
  - intros w h [Hr Ho Hd Hm Hb]. by split.
  - intros w [Hr Ho Hd Hm Hb]. by split.
  - intros w bs [Hr Ho Hd Hm Hb] Hs. split; try done. by eapply binding_step_inv.
Qed.

Lemma verified_but_run except w run' :
  run_inv w.(World.run) → rtc run_step w.(World.run) run' →
  verified_but except w → verified_but except (with_run run' w).
Proof. intros Hi Hr Hv a [?|Ha]%Hv; [by left|]. right. by eapply run_steps_verified. Qed.

Lemma settled_stable : stable settled.
Proof.
  destruct protocol_stable as [Hr Hh Hp Hb]. split.
  - intros w run' [Hw Hv] Hs. split; [by apply Hr|]. intros Hf.
    apply verified_but_run; auto using protocol_run.
  - intros w h [Hw Hv]. split; [by apply Hh|done].
  - intros w [Hw Hv]. split; [by apply Hp|done].
  - intros w bs [Hw Hv] Hs. split; [by apply Hb|done].
Qed.

Lemma underway_stable action : stable (underway action).
Proof.
  destruct protocol_stable as [Hr Hh Hp Hb]. split.
  - intros w run' (Hw & Hf & Hv) Hs. split_and!; [by apply Hr|done|].
    apply verified_but_run; auto using protocol_run.
  - intros w h (Hw & Hf & Hv). split_and!; [by apply Hh|done..].
  - intros w (Hw & Hf & Hv). split_and!; [by apply Hp|done..].
  - intros w bs (Hw & Hf & Hv) Hs. split_and!; [by apply Hb|done..].
Qed.

(** ** The call *)

Lemma underway_settled action w : underway action w → settled w.
Proof. intros (Hp & Hf & _). split; [done|]. congruence. Qed.

Lemma underway_verified_stable action :
  stable (λ w, underway action w ∧ in_state w.(World.run) (λ s, s = ActionRunState.Verified) action).
Proof.
  destruct (underway_stable action) as [Hr Hh Hp Hb]. split.
  - intros w run' [Hw Hv] Hs. split; [by apply Hr|].
    by eapply run_steps_verified; [apply protocol_run, Hw|..].
  - intros w h [Hw Hv]. split; [by apply Hh|done].
  - intros w [Hw Hv]. split; [by apply Hp|done].
  - intros w bs [Hw Hv] Hs. split; [by apply Hb|done].
Qed.

(** What is known when the attempt is armed. *)
Record armed (action : ActionId) (resolved : ResolvedAction) (attempt : ActiveAttempt) w : Prop := {
  ar_settled : settled w;
  ar_going : is_halted w = false;
  ar_action : resolved.(ResolvedAction.action_id) = action;
  ar_state : in_state w.(World.run) (λ s, s = ActionRunState.Admitted_) action;
  ar_endpoint : endpoint_of w.(World.run) resolved;
  ar_attempt : attempt_of w.(World.run) resolved attempt;
  ar_marked : marked w.(World.machine) attempt }.

Lemma protocol_invoke w resolved :
  protocol w → resolved.(ResolvedAction.action_id) ∉ invoked w →
  in_state w.(World.run) (λ s, s = ActionRunState.Running) resolved.(ResolvedAction.action_id) →
  endpoint_of w.(World.run) resolved →
  (∃ attempt, marked w.(World.machine) attempt ∧ attempt_of w.(World.run) resolved attempt) →
  protocol (add_invocation resolved w).
Proof.
  intros [Hr Ho Hd Hm Hb] Hni Hrun Hend Hmark.
  assert (invoked (add_invocation resolved w) = invoked w ++ [resolved.(ResolvedAction.action_id)]) as Hin.
  { unfold invoked, add_invocation. simpl. by rewrite fmap_app. }
  split; [done|..|exact Hb].
  - rewrite Hin. by apply NoDup_snoc.
  - intros a. rewrite Hin, elem_of_app, list_elem_of_singleton. intros [Ha| ->]; [by apply Hd|].
    destruct Hrun as (r & Hl & Hs). exists r. split; [done|]. by rewrite Hs.
  - intros i [Hi|Hi%list_elem_of_singleton]%elem_of_app; [by apply Hm|]. subst i. by split.
Qed.

Lemma steps_endpoint run run' resolved :
  run_inv run → rtc run_step run run' → endpoint_of run resolved → endpoint_of run' resolved.
Proof.
  intros Hi Hr [Hid (planned & Hp & Hop)]. destruct (steps_frozen _ _ Hi Hr) as (_ & Hpl & _).
  split; [by rewrite (run_steps_id _ _ Hi Hr)|]. exists planned. by rewrite Hpl.
Qed.
Lemma steps_attempt run run' resolved attempt :
  run_inv run → rtc run_step run run' → attempt_of run resolved attempt → attempt_of run' resolved attempt.
Proof.
  intros Hi Hr Ha. destruct (steps_frozen _ _ Hi Hr) as (Hd & _ & _). unfold attempt_of.
  by rewrite Hd, (run_steps_id _ _ Hi Hr).
Qed.

(** The call itself, from the latch to the answer of the backend. *)
Lemma start_dispatch_spec action resolved attempt w :
  armed action resolved attempt w →
  outcome (start_dispatch action resolved) w
    (λ _, underway action) (λ _, underway action).
Proof.
  intros [[Hp Hv] Hgo <- (r & Hl & Hs) Hend Hatt Hmark]. set (action := resolved.(ResolvedAction.action_id)).
  assert (action ∉ invoked w) as Hni.
  { intros Hin. destruct (pr_dispatched _ Hp _ Hin) as (r' & Hl' & Hs').
    assert (r' = r) as -> by (unfold action in *; congruence). by rewrite Hs in Hs'. }
  apply outcome_bind, outcome_modify, outcome_bind, outcome_modify.
  set (w1 := add_published (set_halted true w)).
  assert (underway action w1) as Hu.
  { apply (stable_published _ (underway_stable action)). split_and!; [by destruct Hp as [?????]|done|].
    intros a Ha. destruct (Hv Hgo a Ha) as [[]|?]. by right. }
  apply outcome_bind. unfold run_call at 1, outcome at 1.
  pose proof (mark_dispatch_running w1.(World.run) action) as Hm. unfold atomic in Hm.
  pose proof (stepping_op (RunOp.MarkDispatchStarted action) w1.(World.run)) as Hst.
  cbn [run_op] in Hst.
  destruct (mark_dispatch_started action (World.run w1)) as [run' [[]|e]]; cbn [fst] in Hst.
  2: { destruct e; simpl; (apply (stable_run _ (underway_stable action)); [done|by apply Hst]). }
  pose proof (protocol_run w Hp) as Hi.
  simpl. apply outcome_bind, outcome_modify, outcome_bind, outcome_modify.
  set (w2 := add_published (with_run run' w1)).
  assert (underway action w2) as (Hp2 & Hf2 & Hv2).
  { apply (stable_published _ (underway_stable action)), (stable_run _ (underway_stable action)); [done|exact Hst]. }
  assert (underway action (add_invocation resolved w2)) as Hu3.
  { split_and!; [|done|].
    - apply protocol_invoke; [done|exact Hni|exact Hm|by eapply steps_endpoint|].
      exists attempt. split; [exact Hmark|by eapply steps_attempt].
    - intros a. unfold invoked, add_invocation. simpl. rewrite fmap_app, elem_of_app.
      intros [Ha|Ha%list_elem_of_singleton]; [by apply Hv2|by left]. }
  apply outcome_bind.
  eapply outcome_mono; [apply (outcome_keeps (underway action)); [|exact Hu3]|..]; [|done|done].
  intros w3 Hw3. by apply keeps_run_dispatch; [apply underway_stable|].
Qed.

(** What a call leaves behind: verified, unmarked and going on, or latched. *)
Definition called (action : ActionId) (state : ActionRunState) w : Prop :=
  if bool_decide (state = ActionRunState.Verified)
  then settled w ∧ is_halted w = false ∧ active w.(World.machine) = None ∧
       in_state w.(World.run) (λ s, s = ActionRunState.Verified) action
  else underway action w ∧ in_state w.(World.run) (λ s, s = state) action.

Lemma keeps_probe_after P : stable P → keeps P probe_after.
Proof.
  intros HP w Hw. unfold probe_after. destruct (host_probe _) as [h r].
  apply keeps_attempting. by apply (stable_host P HP).
Qed.
Lemma keeps_complete P action receipt post : stable P → keeps P (complete action receipt post).
Proof.
  intros HP w Hw. unfold complete.
  set (c := BackendCompletion.mk _ _ _ _).
  pose proof (stepping_op (RunOp.RecordCompletion c) w.(World.run)) as Hs. cbn [run_op] in Hs.
  destruct (record_completion c (World.run w)) as [run' r].
  apply keeps_attempting. by apply (stable_run P HP).
Qed.

(** The end of a verified call. *)
Lemma end_call_spec action resolved pending pending_filesystem poisoned attempt w :
  underway action w → in_state w.(World.run) (λ s, s = ActionRunState.Verified) action →
  outcome (let* _ := record_outputs action resolved pending pending_filesystem in
           let* _ := notify in
           let* _ := clear_marker poisoned attempt in
           let* _ := modify (set_halted false) in
           sys_return ActionRunState.Verified) w
    (called action) (λ _, underway action).
Proof.
  intros Hu Hv. pose proof (underway_verified_stable action) as HP.
  apply outcome_bind. eapply outcome_mono; [by eapply outcome_keeps; [apply keeps_record_outputs, HP|]| |by intros ?? []].
  intros u w1 Hw1. apply outcome_bind, outcome_modify, outcome_bind.
  apply (stable_published _ HP) in Hw1. set (w2 := add_published w1) in *. clearbody w2.
  unfold outcome at 1, clear_marker. pose proof (clear_outcome poisoned attempt w2.(World.machine)) as Hc.
  destruct (clear _ _ _) as [s [flag r]].
  apply (stable_machine _ HP _ s) in Hw1. destruct r as [[]|e]; [|by apply Hw1].
  simpl. apply outcome_bind, outcome_modify. unfold outcome, sys_return, called. simpl.
  destruct Hw1 as [([Hr Ho Hd Hm Hbs] & Hf & Hb) Hdone], Hc as (_ & _ & Hn).
  split_and!; [|done|done|done]. split; [by split|]. intros _ a [->|Ha]%Hb; by right.
Qed.

Lemma outcome_read {A} (f : World H S → result A (Failure CoordinatorError)) w Q X :
  (∀ a, f w = Ok a → Q a w) → (∀ e, f w = Err e → X e w) → outcome (read f) w Q X.
Proof. unfold outcome, read. destruct (f w); auto. Qed.

Lemma outcome_run_state action w Q (X : Failure CoordinatorError → World H S → Prop) :
  (∀ state, in_state w.(World.run) (λ s, s = state) action → Q state w) →
  (∀ e, X e w) → outcome (run_state_of action) w Q X.
Proof.
  intros HQ HX. apply outcome_read; [|auto]. intros state Hs. apply HQ.
  eapply in_state_run_state; [|done]. by destruct (run_state _ _) as [|[]]; simplify_eq/=.
Qed.

Lemma run_completed_spec action resolved observed poisoned attempt receipt w :
  underway action w →
  outcome (run_completed action resolved observed poisoned attempt receipt) w
    (called action) (λ _, underway action).
Proof.
  intros Hu. pose proof (underway_stable action) as HP.
  apply outcome_bind, outcome_modify. apply (stable_published _ HP) in Hu.
  apply outcome_bind, outcome_run_state; [|done]. intros state _. apply outcome_bind.
  eapply outcome_mono; [eapply outcome_keeps, Hu|simpl|done].
  { case_bool_decide; [by apply keeps_verify_completed|apply keeps_pure]. }
  intros [pending fs] w1 Hw1. apply outcome_bind, outcome_run_state; [|done].
  intros state' Hs. case_bool_decide as Hv; [subst state'; by apply end_call_spec|].
  unfold outcome, sys_return, called. by rewrite bool_decide_eq_false_2.
Qed.

Lemma stop_unknown_spec action reason e w :
  underway action w →
  outcome (stop_unknown action reason e) w (called action) (λ _, underway action).
Proof.
  intros Hu. unfold stop_unknown. apply outcome_bind.
  eapply outcome_mono; [eapply outcome_keeps, Hu|by intros|by intros].
  apply keeps_run_call; [apply underway_stable|].
  apply (stepping_op (RunOp.MarkOutcomeUnknown action reason)).
Qed.

Lemma run_armed_spec action resolved observed poisoned attempt w :
  armed action resolved attempt w →
  outcome (run_armed action resolved observed poisoned attempt) w
    (called action) (λ _, underway action).
Proof.
  intros Ha. apply outcome_bind. eapply outcome_mono; [by eapply start_dispatch_spec|simpl|done].
  intros receipt w1 Hw1. pose proof (underway_stable action) as HP.
  apply outcome_bind. eapply outcome_mono; [eapply outcome_keeps, Hw1; by apply keeps_probe_after|simpl|done].
  intros [post|e] w2 Hw2; [|by apply stop_unknown_spec].
  destruct (validate_receipt _ _) as [[]|e]; [|by apply stop_unknown_spec].
  apply outcome_bind. eapply outcome_mono; [eapply outcome_keeps, Hw2; by apply keeps_complete|simpl|done].
  intros [[]|e] w3 Hw3; [by apply run_completed_spec|by apply stop_unknown_spec].
Qed.

(** ** One action *)

(** Going on, with the endpoint of the action once the host named one. *)
Record going (action : ActionId) (resolved : option ResolvedAction) w : Prop := {
  go_settled : settled w;
  go_going : is_halted w = false;
  go_endpoint r : resolved = Some r → r.(ResolvedAction.action_id) = action ∧ endpoint_of w.(World.run) r }.

Lemma going_stable action resolved : stable (going action resolved).
Proof.
  destruct settled_stable as [Hr Hh Hp Hb]. split.
  - intros w run' [Hs Hg He] Hst. split; [by apply Hr|done|].
    intros r [Ha Hend]%He. split; [done|]. eapply steps_endpoint; [apply protocol_run, Hs|done..].
  - intros w h [Hs Hg He]. split; [by apply Hh|done..].
  - intros w [Hs Hg He]. split; [by apply Hp|done..].
  - intros w bs [Hs Hg He] Hst. split; [by apply Hb|done..].
Qed.

Lemma prepare_spec action operation resolved w :
  going action (Some resolved) w →
  outcome (prepare action operation resolved) w
    (λ r w', match r.2 with
             | Ok attempt => armed action resolved attempt w'
             | Err _ => settled w'
             end) (λ _, settled).
Proof.
  intros [Hs Hg He]. destruct (He _ eq_refl) as [Hact Hend]. unfold prepare. apply outcome_bind.
  unfold outcome at 1, attempting.
  destruct (capture _ _ _ _ _) as [attempt|[e| |]] eqn:Hc; [|done..].
  apply capture_spec in Hc as (bytes & planned & digest & _ & Hst & Hp & Hd & Hatt).
  unfold outcome. simpl. pose proof (arm_outcome false attempt w.(World.machine)) as Ha.
  destruct (arm _ _ _) as [s [flag r]]. pose proof (stable_machine _ settled_stable w s Hs) as Hs'.
  destruct r as [[]|e]; [|exact Hs']. destruct Ha as (_ & _ & _ & Hm). split; try done.
  - by eapply in_state_run_state.
  - destruct Hend as [_ (planned' & Hp' & Hop)]. rewrite Hact in Hp'. subst attempt. split_and!; try done.
    simpl. congruence.
Qed.

(** What remains of a call, whatever its result. *)
Lemma called_settled action state w : called action state w → settled w.
Proof. unfold called. case_bool_decide; [by intros (? & _)|]. intros [? _]. by eapply underway_settled. Qed.

Definition answered (action : ActionId) (state : ActionRunState) w : Prop :=
  settled w ∧ in_state w.(World.run) (λ s, s = state) action ∧
  (state = ActionRunState.Verified → is_halted w = false).

Lemma called_answered action state w : called action state w → answered action state w.
Proof.
  intros Hc. split; [by eapply called_settled|]. unfold called in Hc.
  case_bool_decide as Hv; [subst state|]; [by destruct Hc as (_ & ? & _ & ?)|by destruct Hc].
Qed.

Lemma run_admitted_spec action operation observed decision w :
  going action decision.(AdmissionDecision.resolved) w →
  outcome (run_admitted action operation observed decision) w (answered action) (λ _, settled).
Proof.
  assert (∀ reason e w, settled w →
    outcome (stop_before action reason e) w (answered action) (λ _, settled)) as Hstop.
  { intros reason e w' Hw. unfold stop_before. apply outcome_bind.
    eapply outcome_mono; [eapply outcome_keeps, Hw|by intros|by intros].
    apply keeps_run_call; [apply settled_stable|].
    apply (stepping_op (RunOp.MarkPreDispatchFailed action reason)). }
  intros Hg. unfold run_admitted.
  destruct (AdmissionDecision.resolved decision) as [resolved|]; [|apply Hstop, Hg].
  apply outcome_bind. eapply outcome_mono; [by apply prepare_spec|simpl|done].
  intros [poisoned [attempt|e]] w1 Hw1; [|by apply Hstop].
  eapply outcome_mono; [by apply run_armed_spec|eauto using called_answered|].
  intros e'. apply underway_settled.
Qed.

Lemma outcome_stable {A} (P : World H S → Prop) (m : coordinating H S A) w Q X :
  P w → keeps P m → (∀ a w', P w' → Q a w') → (∀ e w', P w' → X e w') → outcome m w Q X.
Proof. intros Hw Hm HQ HX. by eapply outcome_mono; [apply (outcome_keeps P)|..]. Qed.

Lemma require_endpoint_spec action observed decision w :
  going action None w →
  outcome (require_endpoint action observed decision) w
    (λ _, going action decision.(AdmissionDecision.resolved)) (λ _, settled).
Proof.
  intros [Hs Hg _]. unfold require_endpoint.
  destruct (AdmissionDecision.resolved decision) as [resolved|]; [|by split].
  apply outcome_bind, outcome_read; [|done]. intros matches Hm.
  destruct matches; [|done]. unfold outcome. simpl. split; [done..|]. intros r [= <-].
  unfold endpoint_matches, index in Hm. destruct (negb _ || _ || _ || _) eqn:Hn; [done|].
  apply orb_false_iff in Hn as [[[Hid Hact]%orb_false_iff _]%orb_false_iff _].
  apply negb_false_iff, N.eqb_eq in Hid. apply negb_false_iff, Nat.eqb_eq in Hact.
  destruct (_ !! action) as [planned|] eqn:Hp; [|done]. injection Hm as Hm.
  apply andb_true_iff in Hm as [Hop%bool_decide_eq_true _].
  split; [done|]. split; [done|]. exists planned. by rewrite Hact.
Qed.

Lemma run_leased_spec action operation lease w :
  going action None w →
  outcome (run_leased action operation lease) w (answered action) (λ _, settled).
Proof.
  intros Hg. pose proof (going_stable action None) as HP.
  assert (∀ (e : Failure CoordinatorError) w', going action None w' → settled w') as HX by (by intros ?? []).
  apply outcome_bind. eapply outcome_stable; [exact Hg|by apply keeps_require_no_marker| |done].
  intros [] w1 Hw1. apply outcome_bind. eapply outcome_stable; [exact Hw1|by apply keeps_host_call| |done].
  intros observed w2 Hw2. apply outcome_bind.
  eapply outcome_stable; [exact Hw2|intros w' Hw'; by apply keeps_host_call| |done].
  intros decision w3 Hw3. apply outcome_bind.
  eapply outcome_mono; [by apply require_endpoint_spec|simpl|done].
  intros u w4 Hw4. clear HP HX. pose proof (going_stable action (AdmissionDecision.resolved decision)) as HP.
  assert (∀ (e : Failure CoordinatorError) w', going action (AdmissionDecision.resolved decision) w' → settled w')
    as HX by (by intros ?? []).
  apply outcome_bind. eapply outcome_stable;
    [exact Hw4|by apply keeps_run_call, stepping_admission; exact HP| |done].
  intros admitted w5 Hw5. apply outcome_bind, outcome_modify. apply (stable_published _ HP) in Hw5.
  destruct admitted; [by apply run_admitted_spec|].
  apply outcome_run_state; [|intros; by apply Hw5]. intros state Hs.
  split_and!; [apply Hw5|done|intros _; apply Hw5].
Qed.

Lemma require_owner_spec w :
  settled w → outcome require_owner w (λ _ w', going 0 None w' ∧ w' = w) (λ _ w', w' = w).
Proof.
  intros Hs. apply outcome_read; [|done]. intros [] Hr. destruct (negb _); [done|].
  destruct (is_halted w) eqn:Hh; [done|]. by split.
Qed.

Lemma going_of a action w : going a None w → going action None w.
Proof. by intros [Hs Hg _]. Qed.

Lemma execute_action_locked_spec action operation locked w :
  settled w → outcome (execute_action_locked action operation locked) w (answered action) (λ _, settled).
Proof.
  intros Hs. pose proof (going_stable action None) as HP.
  assert (∀ (e : Failure CoordinatorError) w', going action None w' → settled w') as HX by (by intros ?? []).
  apply outcome_bind. eapply outcome_mono; [by apply require_owner_spec|simpl|by intros ?? ->].
  intros u w1 [Hw1%(going_of _ action) ->].
  apply outcome_bind. eapply outcome_stable; [exact Hw1|apply keeps_pure| |done].
  intros [] w2 Hw2. apply outcome_bind. eapply outcome_stable; [exact Hw2|apply keeps_pure| |done].
  intros state w3 Hw3. apply outcome_bind. eapply outcome_stable; [exact Hw3| | |done].
  { destruct state; try apply keeps_pure.
    apply keeps_run_call, (stepping_op (RunOp.BeginCheck action)). exact HP. }
  intros [] w4 Hw4. apply outcome_bind, outcome_modify. apply (stable_published _ HP) in Hw4.
  destruct locked; apply outcome_bind;
    (eapply outcome_stable; [exact Hw4|intros w' Hw'; by apply keeps_machine_call| |done]).
  - intros lease w5 Hw5. by apply run_leased_spec.
  - intros lease w5 Hw5. pose proof (run_leased_spec action operation lease w5 Hw5) as Hr.
    unfold outcome in *. destruct (run_leased _ _ _ _) as [w6 r].
    destruct r as [state'|e].
    + destruct Hr as [Hset Hv]. split; [by apply (stable_machine _ settled_stable)|done].
    + by apply (stable_machine _ settled_stable).
Qed.

(** ** A run *)

Lemma run_actions_keeps ordered : keeps settled (run_actions ordered).
Proof.
  pose proof settled_stable as HP.
  induction ordered as [|action ordered IH]; [apply keeps_pure|]. apply keeps_bind; [apply keeps_pure|].
  assert (keeps settled (let* state := execute_action_locked action None true in
          let* _ := notify in
          if bool_decide (state ≠ ActionRunState.Verified)
          then let* stopped := summary (Some action) in sys_return (Some stopped)
          else run_actions ordered)) as Hexec.
  { apply keeps_bind.
    - intros w Hw. pose proof (execute_action_locked_spec action None true w Hw) as He.
      unfold outcome in He. destruct (execute_action_locked _ _ _ _) as [w' [state|e]]; [apply He|done].
    - intros state. apply keeps_bind; [by apply keeps_notify|]. intros _. case_bool_decide; [|done].
      apply keeps_bind; intros; apply keeps_pure. }
  intros []; first [done|apply keeps_pure].
Qed.

Lemma verify_run_keeps : keeps settled verify_run.
Proof.
  pose proof settled_stable as HP.
  apply keeps_bind; [by apply keeps_host_call|]. intros observed.
  apply keeps_bind; [intros w Hw; by apply keeps_host_call|]. intros found.
  apply keeps_bind; [apply keeps_pure|]. intros _.
  apply keeps_bind; [by apply keeps_require_no_marker|]. intros _.
  apply keeps_bind; [by apply keeps_run_call, stepping_goal|]. intros _. apply keeps_pure.
Qed.

Lemma run_locked_keeps : keeps settled run_locked.
Proof.
  pose proof settled_stable as HP.
  apply keeps_bind; [by apply keeps_require_no_marker|]. intros _.
  apply keeps_bind; [by apply keeps_host_call|]. intros initial.
  apply keeps_bind; [intros w Hw; by apply keeps_host_call|]. intros readiness.
  case_bool_decide; [apply keeps_pure|].
  apply keeps_bind; [apply keeps_pure|]. intros ordered.
  apply keeps_bind; [apply run_actions_keeps|]. intros [stopped|]; [apply keeps_pure|apply verify_run_keeps].
Qed.

Lemma execute_run_keeps : keeps settled execute_run.
Proof.
  pose proof settled_stable as HP. intros w Hw. unfold execute_run, execute_run_with_updates.
  assert (keeps settled execute_run_inner) as Hin.
  { apply keeps_bind; [apply keeps_pure|]. intros _. apply keeps_bind; [apply keeps_pure|]. intros _.
    apply keeps_bind; [apply keeps_pure|]. intros _.
    apply keeps_bind; [by apply keeps_machine_call|]. intros _ w1 Hw1.
    pose proof (run_locked_keeps w1 Hw1) as Hr. destruct (run_locked w1) as [w2 r].
    by apply (stable_machine _ HP). }
  specialize (Hin _ (stable_published _ HP _ Hw)). destruct (execute_run_inner _) as [w' r].
  by apply (stable_published _ HP).
Qed.
End protocol.
End world.
