(* ===== verification/Protocol.v ===== *)
(** * What a coordinator guarantees

    A session is any sequence of calls of one coordinator on one run, with any
    changes of the machine and of the run by its own operations in between. *)

From stdpp Require Import relations.
From S2P Require Import Prelude Model Reach Graph GraphOrder GraphValid State Action Contract.
From S2P Require Import Logical Evidence Prerequisites Effects Report PlanOrder Compose ComposeProps.
From S2P Require Import Simulate SimulateProps Wire Observation.
From S2P Require Import Correlate Observe Execution ExecutionProps Live.
From S2P Require Import LiveProps LiveGoal.
From S2P Require Import Recipes Native Scope Bindings BindingProps Targets.
From S2P Require Import Targets Checkpoint StoreProps Host Coordinator.
From S2P Require Import CoordinatorProps.

Implicit Types (run : ExecutionRun) (doc : PlanDocument).

Section session.
Context {H S : Type} `{RuntimeText, Os S, RuntimeHost H S, BackendDispatcher S}.
Implicit Types (w : World H S).

Inductive command_step w : World H S → Prop :=
| cs_action action operation : command_step w (execute_action action operation w).1
| cs_run : command_step w (execute_run w).1
| cs_elsewhere h : command_step w (with_host h w)
| cs_caller run' : run_step w.(World.run) run' → command_step w (with_run run' w).

(** A session that starts at [run0]. *)
Definition session_from run0 w : Prop :=
  ∃ w0, w0.(World.run) = run0 ∧ w0.(World.coordinator) = coordinator_new run0 ∧
        w0.(World.invocations) = [] ∧ rtc command_step w0 w.

Section laws.
Context `{!OsLaws S, !CodecLaws}.
Context (run0 : ExecutionRun) (run0_inv : run_inv run0).

Lemma command_keeps w w' : settled run0 w → command_step w w' → settled run0 w'.
Proof.
  pose proof (settled_stable (H:=H) (S:=S) run0 run0_inv) as HP. intros Hw [action operation| |h|run' Hr].
  - pose proof (execute_action_locked_spec run0 run0_inv action operation false w Hw) as He.
    unfold outcome in He. unfold execute_action.
    destruct (execute_action_locked _ _ _ _) as [w1 [state|e]]; [apply He|done].
  - by apply execute_run_keeps.
  - by apply (stable_host _ HP).
  - apply (stable_run _ HP); [done|by apply rtc_once].
Qed.

Lemma session_settled w : session_from run0 w → settled run0 w.
Proof.
  intros (w0 & Hr & Hc & Hi & Hs).
  assert (settled run0 w0) as Hw0.
  { split; [split|].
    - by rewrite Hr.
    - unfold invoked. rewrite Hi. constructor.
    - unfold invoked. rewrite Hi. by intros a ?%elem_of_nil.
    - rewrite Hi. by intros i ?%elem_of_nil.
    - rewrite Hr, Hc. apply bindings_new_inv.
    - intros _ a. unfold invoked. rewrite Hi. by intros ?%elem_of_nil. }
  clear Hr Hc Hi. induction Hs as [|a b' c Hab _ IH]; [done|]. by eapply IH, command_keeps.
Qed.
End laws.

(** ** Theorems *)

(** C16: In a session no action is handed to a backend twice; each call starts with
    the frozen operation of its action, which has just become running, and with
    the durable marker of exactly this attempt; and while the coordinator is not
    latched, every action it handed over is verified. *)
Theorem backend_calls_protected `{!OsLaws S, !CodecLaws} doc run0 w :
  reachable doc run0 → session_from run0 w →
  NoDup (invoked w) ∧
  (∀ i, i ∈ w.(World.invocations) → invocation_ok run0 i) ∧
  (w.(World.coordinator).(Coordinator.halted) = false → ∀ a, a ∈ invoked w →
   in_state w.(World.run) (λ s, s = ActionRunState.Verified) a).
Proof.
  intros Hinv%reachable_inv Hs. destruct (session_settled run0 Hinv w Hs) as [[_ Ho _ Hi _] Hv].
  split_and!; [done..|]. intros Hg a Ha. by destruct (Hv Hg a Ha) as [[]|?].
Qed.

(** C21: In a session every verified output belongs to a verified action, no
    identity is bound twice and a filesystem sits on a bound volume; resolving
    an output in any observation ends, without a panic, and a node it finds is
    the only holder of the identity, on the only holder of its parent's. *)
Theorem session_outputs `{!OsLaws S, !CodecLaws} doc run0 w :
  reachable doc run0 → session_from run0 w →
  let bs := w.(World.coordinator).(Coordinator.bindings) in
  bindings_inv w.(World.run) bs ∧
  ∀ planned observed, returns (identified bs observed planned) (resolve bs w.(World.run) planned observed).
Proof.
  intros Hinv%reachable_inv Hs. destruct (session_settled run0 Hinv w Hs) as [[_ _ _ _ Hb] _].
  split; [done|]. intros planned observed. by eapply resolve_returns.
Qed.

(** A latched coordinator does nothing: both entry points refuse before they
    touch the run, the host, the machine or a backend. *)
Theorem latched_coordinator_refuses w :
  w.(World.coordinator).(Coordinator.halted) = true →
  let refusal := if (w.(World.coordinator).(Coordinator.run_id) =? w.(World.run).(ExecutionRun.run_id))%N
                 then CoordinatorError.Stopped else CoordinatorError.RunMismatch in
  (∀ action operation, execute_action action operation w = (w, Err (Reported refusal))) ∧
  execute_run w = (add_published (add_published w), Err (Reported refusal)).
Proof.
  intros Hh. cbn zeta. split.
  - intros action operation. unfold execute_action, execute_action_locked, require_owner, read, sys_bind.
    rewrite Hh. by destruct (_ =? _)%N.
  - unfold execute_run, execute_run_with_updates, execute_run_inner, require_owner, read, sys_bind.
    cbn [add_published World.coordinator World.run]. rewrite Hh. by destruct (_ =? _)%N.
Qed.
End session.

(** ** The goal *)

Lemma exec_bind_inv {A B} (m : Exec A) (k : A → Exec B) run run' b :
  exec_bind m k run = (run', Ok b) → ∃ run1 a, m run = (run1, Ok a) ∧ k a run1 = (run', Ok b).
Proof. unfold exec_bind. destruct (m run) as [run1 [a|e]]; [|done]. eauto. Qed.

Lemma record_goal_sets run run' rep b :
  record_goal_verification rep run = (run', Ok b) →
  run'.(ExecutionRun.goal_verification) = Some rep.
Proof.
  unfold record_goal_verification.
  intros (r1 & ? & _ & (r2 & ? & _ & (r3 & ? & _ & (r4 & ? & _ & Hr)%exec_bind_inv)%exec_bind_inv)%exec_bind_inv)%exec_bind_inv.
  apply exec_bind_inv in Hr as (r5 & ? & _ & (r6 & ? & _ & (r7 & ? & [= <- _] & (r8 & ? & Hp & Hr)%exec_bind_inv)%exec_bind_inv)%exec_bind_inv).
  apply exec_bind_inv in Hp as (r9 & ? & Hc & [= <- _]). injection Hr as <- _.
  injection Hc as <- _. by destruct r6.
Qed.

Section goal.
Context {S : Type} `{RuntimeText, Os S, HostPolicies S, BackendDispatcher S}.
Implicit Types (w : World LinuxLiveHost S).

(** The report is the goal check on its observation, with the identities the
    coordinator verified itself. *)
Definition checked_goal (rep : GoalVerificationReport) (bs : OutputBindings) run : Prop :=
  ∃ known, correlations bs run rep.(GoalVerificationReport.observation) = Ok known ∧
    check_observed_goal correlation_text (run_context run) rep.(GoalVerificationReport.observation)
      known = Ok rep.(GoalVerificationReport.checks).

Lemma resolve_run_id bs run run' planned observed fuel :
  run'.(ExecutionRun.run_id) = run.(ExecutionRun.run_id) →
  resolve_loop fuel bs run' planned observed = resolve_loop fuel bs run planned observed.
Proof.
  intros Hid. revert planned. induction fuel as [|fuel IH]; intros planned; simpl; [done|].
  rewrite Hid. destruct (negb _); [done|]. destruct (OutputBindings.filesystems _ !! _); [|done].
  by rewrite IH.
Qed.

Lemma try_map_ext {A B E} (f g : A → result B E) l : (∀ x, f x = g x) → try_map f l = try_map g l.
Proof. intros Hfg. induction l as [|x l IH]; simpl; [done|]. by rewrite Hfg, IH. Qed.

Lemma steps_checked rep bs run run' :
  run_inv run → rtc run_step run run' → checked_goal rep bs run → checked_goal rep bs run'.
Proof.
  intros Hi Hr (known & Hk & Hc). exists known.
  pose proof (run_steps_id _ _ Hi Hr) as Hid. destruct (steps_frozen _ _ Hi Hr) as (Hd & Hp & _).
  split; [|unfold run_context; by rewrite Hid, Hd, Hp].
  rewrite <-Hk. unfold correlations. rewrite Hid. destruct (negb _); [done|].
  apply try_map_ext. intros planned. destruct (binding_identity _ _); [|done]. simpl.
  unfold resolve. by rewrite (resolve_run_id bs run run') by done.
Qed.

Lemma outcome_skip {W E A} (m : Sys W E A) s (Q : A → W → Prop) :
  (∀ a s', Q a s') → outcome m s Q (λ _ _, True).
Proof. intros HQ. unfold outcome. by destruct (m s) as [s' []]. Qed.

Lemma linux_verify_goal_spec run observed bs s :
  outcome (linux_verify_goal run observed bs) s
    (λ rep _, checked_goal rep bs run)
    (λ _ _, True).
Proof.
  unfold linux_verify_goal. do 3 (apply outcome_bind, outcome_skip; intros ? ?).
  apply outcome_bind, outcome_of; [|done]. intros known Hk.
  apply outcome_bind, outcome_of; [|done]. intros checks Hc.
  do 3 (apply outcome_bind, outcome_skip; intros ? ?). exists known.
  destruct (correlations _ _ _) as [|[]]; simplify_eq/=.
  destruct (check_observed_goal _ _ _ _) as [|[]]; by simplify_eq/=.
Qed.

(** What [verify_run] stored in the run. *)
Definition goal_recorded w : Prop :=
  ∃ rep, w.(World.run).(ExecutionRun.goal_verification) = Some rep ∧
    checked_goal rep w.(World.coordinator).(Coordinator.bindings) w.(World.run).

Lemma require_no_marker_machine w :
  outcome require_no_marker w (λ _ w', ∃ s, w' = with_machine s w) (λ _ _, True).
Proof.
  apply outcome_bind. unfold outcome at 1, store_call, machine_call.
  destruct (sys_report inspect _) as [s [found|[]]]; [|done..]. simpl.
  case_bool_decide; [done|]. by exists s.
Qed.

Lemma verify_run_spec w :
  run_inv w.(World.run) →
  outcome verify_run w
    (λ summary w', goal_recorded w' ∧
       summary = ExecutionSummary.mk w'.(World.run).(ExecutionRun.run_id) (is_verified w'.(World.run))
                   None w'.(World.run).(ExecutionRun.latest_observation)) (λ _ _, True).
Proof.
  intros Hinv. apply outcome_bind. unfold outcome at 1, host_call.
  destruct (host_probe _) as [h1 [observed|[]]]; [|done..]. cbn [map_failure].
  apply outcome_bind. unfold outcome at 1, host_call.
  set (w1 := with_host h1 w).
  pose proof (linux_verify_goal_spec w1.(World.run) observed
    w1.(World.coordinator).(Coordinator.bindings) (w1.(World.host), w1.(World.machine))) as Hg.
  unfold outcome in Hg. cbn [host_verify_goal linux_live_host].
  destruct (linux_verify_goal _ _ _ _) as [h2 [rep|[]]]; [|done..]. cbn [map_failure].
  apply outcome_bind, outcome_read; [|done]. intros [] _. apply outcome_bind.
  eapply outcome_mono; [apply require_no_marker_machine| |done]. intros u w3 [s3 ->].
  set (w3 := with_machine s3 _).
  apply outcome_bind. unfold outcome at 1, run_call.
  pose proof (stepping_goal rep w3.(World.run)) as Hst.
  destruct (record_goal_verification rep _) as [run' [b|[]]] eqn:Hr; [|done..]. cbn [map_failure].
  split; [|done]. exists rep. split; [by eapply record_goal_sets|]. by eapply steps_checked.
Qed.

(** A run that stopped at an action is not verified. *)
Lemma stopped_unverified run action state :
  run_inv run → in_state run (λ s, s = state) action → state ≠ ActionRunState.Verified →
  is_verified run = false.
Proof.
  intros Hi (r & Hl & <-) Hne. unfold is_verified.
  destruct (ExecutionRun.goal_verification run) as [rep|] eqn:Hg; [|done].
  exfalso. apply Hne. by eapply (inv_goal _ Hi).
Qed.

Context `{!OsLaws S, !CodecLaws}.
Context (run0 : ExecutionRun) (run0_inv : run_inv run0).

Lemma run_actions_spec ordered w :
  settled run0 w →
  outcome (run_actions ordered) w
    (λ r w', settled run0 w' ∧ (∀ summary, r = Some summary → summary.(ExecutionSummary.verified) = false))
    (λ _ _, True).
Proof.
  revert w. induction ordered as [|action ordered IH]; intros w Hw; [done|].
  apply outcome_bind, outcome_read; [|done]. intros state _.
  assert (outcome (let* state := execute_action_locked action None true in
          let* _ := notify in
          if bool_decide (state ≠ ActionRunState.Verified)
          then let* stopped := summary (Some action) in sys_return (Some stopped)
          else run_actions ordered) w
    (λ r w', settled run0 w' ∧ (∀ summary, r = Some summary → summary.(ExecutionSummary.verified) = false))
    (λ _ _, True)) as Hexec.
  { apply outcome_bind. eapply outcome_mono; [by apply (execute_action_locked_spec run0 run0_inv)| |done].
    intros state' w1 (Hs & Hin & _). apply outcome_bind, outcome_modify.
    pose proof (stable_published _ (settled_stable run0 run0_inv) _ Hs) as Hs'.
    case_bool_decide as Hne; [|by apply IH]. unfold outcome. simpl. split; [done|].
    intros ? [= <-]. simpl. eapply stopped_unverified; [apply (protocol_run _ run0_inv _ (proj1 Hs))|done..]. }
  destruct state; first [done|by apply IH].
Qed.

Lemma run_locked_spec w :
  settled run0 w →
  outcome run_locked w
    (λ summary w', settled run0 w' ∧ (summary.(ExecutionSummary.verified) = true →
       goal_recorded w' ∧ is_verified w'.(World.run) = true ∧
       summary.(ExecutionSummary.observation) = w'.(World.run).(ExecutionRun.latest_observation)))
    (λ _ _, True).
Proof.
  pose proof (settled_stable (H:=LinuxLiveHost) (S:=S) run0 run0_inv) as HP. intros Hw.
  apply outcome_bind. eapply outcome_stable; [exact Hw|by apply keeps_require_no_marker| |done].
  intros [] w1 Hw1. apply outcome_bind. eapply outcome_stable; [exact Hw1|by apply keeps_host_call| |done].
  intros initial w2 Hw2. apply outcome_bind.
  eapply outcome_stable; [exact Hw2|intros w' Hw'; by apply keeps_host_call| |done].
  intros readiness w3 Hw3. case_bool_decide; [done|].
  apply outcome_bind, outcome_read; [|done]. intros ordered _. apply outcome_bind.
  eapply outcome_mono; [by apply run_actions_spec| |done]. intros [stopped|] w4 [Hw4 Hno].
  - unfold outcome. simpl. split; [done|]. by rewrite (Hno stopped).
  - pose proof (verify_run_spec w4 (protocol_run _ run0_inv _ (proj1 Hw4))) as Hv.
    pose proof (verify_run_keeps run0 run0_inv w4 Hw4) as Hk.
    unfold outcome in *. destruct (verify_run w4) as [w5 [found|e]]; [|done].
    destruct Hv as [Hg ->]. simpl in *. auto.
Qed.

Lemma execute_run_spec w w' found :
  settled run0 w → execute_run w = (w', Ok found) →
  settled run0 w' ∧ (found.(ExecutionSummary.verified) = true →
    goal_recorded w' ∧ is_verified w'.(World.run) = true ∧
    found.(ExecutionSummary.observation) = w'.(World.run).(ExecutionRun.latest_observation)).
Proof.
  pose proof (settled_stable (H:=LinuxLiveHost) (S:=S) run0 run0_inv) as HP. intros Hw He.
  split; [pose proof (execute_run_keeps run0 run0_inv w Hw) as Hk; by rewrite He in Hk|].
  revert He. unfold execute_run, execute_run_with_updates.
  assert (outcome execute_run_inner (add_published w)
    (λ found w', found.(ExecutionSummary.verified) = true →
       goal_recorded w' ∧ is_verified w'.(World.run) = true ∧
       found.(ExecutionSummary.observation) = w'.(World.run).(ExecutionRun.latest_observation))
    (λ _ _, True)) as Hin.
  { apply (stable_published _ HP) in Hw.
    do 3 (apply outcome_bind, outcome_read; [intros [] _|done]).
    apply outcome_bind. eapply outcome_stable; [exact Hw|by apply keeps_machine_call| |done].
    intros [] w1 Hw1. pose proof (run_locked_spec w1 Hw1) as Hr. unfold outcome in *.
    destruct (run_locked w1) as [w2 [found'|e]]; [|done]. intros Hv. by apply Hr. }
  unfold outcome in Hin. destruct (execute_run_inner _) as [w1 [found'|e]]; [|done].
  intros [= <- <-]. exact Hin.
Qed.
End goal.

(** C17: End to end: when [execute_run] of a coordinator over the Linux host returns a
    verified summary, the requested goal holds of the observation it returns,
    under the identities the coordinator verified itself; whatever the probe,
    the policies and the backends do. *)
Theorem coordinated_run_reaches_goal
    {S} `{RuntimeText, Os S, HostPolicies S, BackendDispatcher S, !OsLaws S, !CodecLaws}
    doc run0 (w w' : World LinuxLiveHost S) found :
  ids_u32 doc → NoDup doc.(PlanDocument.requested_goal).(DesiredState.graph).(NodeGraph.relations) →
  attempt doc run0 → session_from run0 w →
  execute_run w = (w', Ok found) → found.(ExecutionSummary.verified) = true →
  ∃ observation known, found.(ExecutionSummary.observation) = Some observation ∧
    correlations w'.(World.coordinator).(Coordinator.bindings) w'.(World.run) observation = Ok known ∧
    goal_established (run_context w'.(World.run)) observation known ∧
    (run_context w'.(World.run)).(ExecutionContext.requested_goal) = doc.(PlanDocument.requested_goal).
Proof.
  intros Hids Hnd Hat Hses He Hver.
  pose proof (reachable_inv _ _ (attempt_reachable _ _ Hat)) as Hinv.
  pose proof (session_settled run0 Hinv w Hses) as Hw.
  destruct (execute_run_spec run0 Hinv w w' found Hw He) as [[Hp _] Hgoal].
  destruct (Hgoal Hver) as ((rep & Hrep & known & Hk & Hc) & Hv & Hobs).
  assert (attempt doc w'.(World.run)) as Hat'.
  { destruct Hat as (d & j & j' & id & init & Hj & Hj' & Hn & Hr). exists d, j, j', id, init.
    split_and!; try done. etrans; [done|apply Hp]. }
  destruct (verified_run_goal correlation_text doc w'.(World.run) rep known) as (Hg & Hreq & _ & Hl);
    [done..|]. exists rep.(GoalVerificationReport.observation), known. by rewrite Hobs.
Qed.
