(* ===== verification/Registry.v ===== *)
(** * Backends: [storage-provider/src/lib.rs], [dylib.rs] and [transport.rs]

    The manifest of native libraries and commands, its validation, the registry
    of the backends that are available, how a registered backend is reached, and
    the envelopes of the provider protocol.  The loader and the file system are
    interfaces over the state of the machine. *)

From S2P Require Import Prelude Model Reach Graph GraphOrder GraphValid State Action Contract.
From S2P Require Import Logical Evidence Prerequisites Effects Report Simulate Wire Observation.
From S2P Require Import Correlate Observe Execution ExecutionProps Live LiveGoal Native Recipes ProbeNames.
From S2P Require Import ProbeBlock ProbeTopology Assemble Scope Bindings Targets Checkpoint StoreProps Host Coordinator CoordinatorProps.

#[local] Open Scope string_scope.
#[local] Open Scope list_scope.

(** ** Text *)

(** [str::from_utf8]: well-formed sequences of Unicode's table 3-7. *)
Definition in_range (low high byte : N) : bool := (low <=? byte)%N && (byte <=? high)%N.
Definition is_continuation (byte : N) : bool := in_range 128 191 byte.
Definition second_of_three (first second : N) : bool :=
  if (first =? 224)%N then in_range 160 191 second
  else if (first =? 237)%N then in_range 128 159 second
  else in_range 225 239 first && is_continuation second.
Definition second_of_four (first second : N) : bool :=
  if (first =? 240)%N then in_range 144 191 second
  else if (first =? 244)%N then in_range 128 143 second
  else in_range 241 243 first && is_continuation second.
Fixpoint valid_utf8 (bytes : list N) : bool :=
  match bytes with
  | [] => true
  | first :: rest =>
      if (first <? 128)%N then valid_utf8 rest
      else match rest with
           | [] => false
           | second :: rest =>
               if in_range 194 223 first then is_continuation second && valid_utf8 rest
               else match rest with
                    | [] => false
                    | third :: rest =>
                        if second_of_three first second then is_continuation third && valid_utf8 rest
                        else match rest with
                             | [] => false
                             | fourth :: rest =>
                                 second_of_four first second && is_continuation third
                                 && is_continuation fourth && valid_utf8 rest
                             end
                    end
           end
  end.

(** [OsStr::to_str] and [CStr::to_str] *)
Abbreviation OsString := string (only parsing).
Definition to_str (text : OsString) : option string := if valid_utf8 (utf8 text) then Some text else None.

(** ** Manifests *)

Definition BACKEND_MANIFEST_VERSION : N := 1.
Definition MAX_MANIFEST_BYTES : N := (1024 * 1024)%N.

(** [BackendId::new] *)
Definition backend_id (value : string) : option BackendId :=
  if negb (bool_decide (value = "")) && negb (has_whitespace (utf8 value)) then Some value else None.

Module BackendCapability.
Inductive BackendCapability := Probe | Validate | Plan | Execute.
#[global] Instance BackendCapability_eq_dec : EqDecision BackendCapability.
Proof. solve_decision. Defined.
End BackendCapability.
Abbreviation BackendCapability := BackendCapability.BackendCapability.

(** A [BTreeSet] is listed in its order. *)
Module AuxiliaryLibrary.
Record AuxiliaryLibrary := mk { path : PathBuf; required_symbols : list string }.
End AuxiliaryLibrary.
Abbreviation AuxiliaryLibrary := AuxiliaryLibrary.AuxiliaryLibrary.

Module BackendLibrary.
Record BackendLibrary := mk {
  path : PathBuf; required_symbols : list string; auxiliary : list AuxiliaryLibrary }.
End BackendLibrary.
Abbreviation BackendLibrary := BackendLibrary.BackendLibrary.

Module BackendManifest.
Record BackendManifest := mk {
  id : BackendId;
  library : option BackendLibrary;
  executable : option PathBuf;
  capabilities : list BackendCapability }.
End BackendManifest.
Abbreviation BackendManifest := BackendManifest.BackendManifest.

Module BackendManifests.
Record BackendManifests := mk { manifest_version : N; backends : list BackendManifest }.
End BackendManifests.
Abbreviation BackendManifests := BackendManifests.BackendManifests.

(** The path of the manifest, which every variant carries, is left out; the
    source of a failure is its text. *)
Module BackendRegistryError.
Inductive BackendRegistryError :=
| ReadManifest (source : string)
| ParseManifest (source : string)
| UnsupportedManifestVersion (version : N)
| UnavailableLibrary (backend : BackendId) (library : PathBuf)
| UnavailableExecutable (backend : BackendId) (executable : PathBuf)
| MissingBackend
| RelativeLibrary (library : PathBuf)
| InvalidBackendPath (backend_path : PathBuf)
| InvalidLibrarySymbol (symbol : string)
| RelativeExecutable (executable : PathBuf)
| DuplicateBackend (id : BackendId).
End BackendRegistryError.
Abbreviation BackendRegistryError := BackendRegistryError.BackendRegistryError.
Abbreviation registering A := (result A BackendRegistryError) (only parsing).

Definition validate_path_bytes (backend_path : PathBuf) : registering unit :=
  if path_contains_nul backend_path then Err (BackendRegistryError.InvalidBackendPath backend_path) else Ok tt.

Definition validate_library_fields (library_path : PathBuf) (symbols : list string) : registering unit :=
  if negb (is_absolute library_path) then Err (BackendRegistryError.RelativeLibrary library_path)
  else
    let? _ := validate_path_bytes library_path in
    match find_first (string_contains_byte 0) symbols with
    | Some symbol => Err (BackendRegistryError.InvalidLibrarySymbol symbol)
    | None => Ok tt
    end.

Definition validate_library (library : BackendLibrary) : registering unit :=
  let? _ := validate_library_fields library.(BackendLibrary.path) library.(BackendLibrary.required_symbols) in
  try_all (λ auxiliary, validate_library_fields auxiliary.(AuxiliaryLibrary.path)
                          auxiliary.(AuxiliaryLibrary.required_symbols))
    library.(BackendLibrary.auxiliary).

Definition validate_executable (executable : PathBuf) : registering unit :=
  if negb (is_absolute executable) then Err (BackendRegistryError.RelativeExecutable executable)
  else validate_path_bytes executable.

Definition validate_manifest (manifest : BackendManifest) : registering unit :=
  match manifest.(BackendManifest.library), manifest.(BackendManifest.executable) with
  | None, None => Err BackendRegistryError.MissingBackend
  | library, executable =>
      let? _ := match library with Some library => validate_library library | None => Ok tt end in
      match executable with Some executable => validate_executable executable | None => Ok tt end
  end.

(** The loop over the declarations; [identities] are those seen so far. *)
Fixpoint validate_manifests (identities : list BackendId) (manifests : list BackendManifest)
    : registering unit :=
  match manifests with
  | [] => Ok tt
  | manifest :: manifests =>
      let? _ := validate_manifest manifest in
      if contains manifest.(BackendManifest.id) identities
      then Err (BackendRegistryError.DuplicateBackend manifest.(BackendManifest.id))
      else validate_manifests (manifest.(BackendManifest.id) :: identities) manifests
  end.

(** [serde_json::from_slice] up to the identities, whose [Deserialize] is
    [BackendId::new]. *)
Class ManifestDecoder := manifests_of : string → result BackendManifests string.

Definition parse_manifests `{ManifestDecoder} (bytes : string) : registering BackendManifests :=
  let? manifests := map_err BackendRegistryError.ParseManifest (manifests_of bytes) in
  if forallb (λ manifest, bool_decide (is_Some (backend_id manifest.(BackendManifest.id))))
       manifests.(BackendManifests.backends)
  then Ok manifests
  else Err (BackendRegistryError.ParseManifest "backend ID must be non-empty and contain no whitespace").

(** ** The machine *)

(** The manifest just opened. *)
Class ManifestFile (S : Type) := {
  open_manifest : PathBuf → Sys S string unit;
  manifest_is_file : Sys S string bool;
  read_manifest : N → Sys S string string }.

(** [libloading] and [Path::metadata]: the kind and the mode of a file. *)
Class Loader (S L : Type) := {
  dlopen : PathBuf → Sys S unit L;
  exports : L → string → bool;
  file_metadata : PathBuf → S → option (bool * N) }.

Module LoadedLibrary.
Record LoadedLibrary (L : Type) := mk { handle : L; auxiliary : list L }.
Arguments mk {L} handle auxiliary.
Arguments handle {L} l.
Arguments auxiliary {L} l.
End LoadedLibrary.
Abbreviation LoadedLibrary := LoadedLibrary.LoadedLibrary.

Module LoadedBackendAccess.
Inductive LoadedBackendAccess (L : Type) := Library (library : LoadedLibrary L) | Executable.
Arguments Library {L} library.
Arguments Executable {L}.
End LoadedBackendAccess.
Abbreviation LoadedBackendAccess := LoadedBackendAccess.LoadedBackendAccess.

Module RegisteredBackend.
Record RegisteredBackend (L : Type) := mk {
  manifest : BackendManifest; manifest_path : PathBuf; access : LoadedBackendAccess L }.
Arguments mk {L} manifest manifest_path access.
Arguments manifest {L} r.
Arguments manifest_path {L} r.
Arguments access {L} r.
End RegisteredBackend.
Abbreviation RegisteredBackend := RegisteredBackend.RegisteredBackend.

Abbreviation BackendRegistry L := (gmap BackendId (RegisteredBackend L)) (only parsing).

Section loading.
Context {S L : Type} `{ManifestFile S, Loader S L, ManifestDecoder}.

(** [has_symbols] *)
Definition has_symbols (library : L) (symbols : list string) : bool := forallb (exports library) symbols.

Fixpoint load_auxiliaries (dependencies : list AuxiliaryLibrary) : Sys S unit (list L) :=
  match dependencies with
  | [] => sys_return []
  | dependency :: dependencies =>
      let* handle := dlopen dependency.(AuxiliaryLibrary.path) in
      if negb (has_symbols handle dependency.(AuxiliaryLibrary.required_symbols)) then sys_fail tt
      else let* handles := load_auxiliaries dependencies in sys_return (handle :: handles)
  end.

(** [LoadedLibrary::load]; a failure is [None]. *)
Definition load_library (requirement : BackendLibrary) : Sys S unit (LoadedLibrary L) :=
  let* library := dlopen requirement.(BackendLibrary.path) in
  if negb (has_symbols library requirement.(BackendLibrary.required_symbols)) then sys_fail tt
  else
    let* handles := load_auxiliaries requirement.(BackendLibrary.auxiliary) in
    sys_return (LoadedLibrary.mk library handles).

Definition is_executable_file (path : PathBuf) (s : S) : bool :=
  is_some_and (λ found, found.1 && negb (N.land found.2 73 =? 0)%N) (file_metadata path s).

Definition available_backend_access (manifest : BackendManifest) (s : S)
    : S * option (LoadedBackendAccess L) :=
  let executable (s : S) :=
    (s, if is_some_and (λ path, is_executable_file path s) manifest.(BackendManifest.executable)
        then Some LoadedBackendAccess.Executable else None) in
  match manifest.(BackendManifest.library) with
  | None => executable s
  | Some library =>
      match load_library library s with
      | (s, Ok loaded) => (s, Some (LoadedBackendAccess.Library loaded))
      | (s, Err _) => executable s
      end
  end.

(** *** Reading *)

Definition read_manifest_bytes (path : PathBuf) : Sys S string string :=
  let* _ := open_manifest path in
  let* regular := manifest_is_file in
  if negb regular then sys_fail "backend manifest must be a regular file"
  else
    let* bytes := read_manifest (MAX_MANIFEST_BYTES + 1) in
    if (MAX_MANIFEST_BYTES <? N.of_nat (String.length bytes))%N
    then sys_fail "backend manifest exceeds the size limit" else sys_return bytes.

Definition read_manifests (path : PathBuf) : Sys S BackendRegistryError BackendManifests :=
  let* bytes := sys_map_err BackendRegistryError.ReadManifest (read_manifest_bytes path) in
  let* manifests := sys_of (parse_manifests bytes) in
  if negb (manifests.(BackendManifests.manifest_version) =? BACKEND_MANIFEST_VERSION)%N
  then sys_fail (BackendRegistryError.UnsupportedManifestVersion manifests.(BackendManifests.manifest_version))
  else
    let* _ := sys_of (validate_manifests [] manifests.(BackendManifests.backends)) in
    sys_return manifests.

(** *** The registry *)

(** [BackendRegistry::register] *)
Definition register (path : PathBuf) (w : S * BackendRegistry L) (manifest : BackendManifest)
    : S * BackendRegistry L :=
  match available_backend_access manifest w.1 with
  | (s, None) => (s, w.2)
  | (s, Some access) =>
      (s, <[manifest.(BackendManifest.id) := RegisteredBackend.mk manifest path access]> w.2)
  end.

(** [BackendRegistry::load_from] *)
Definition load_from (path : PathBuf) : Sys S BackendRegistryError (BackendRegistry L) :=
  let* manifests := read_manifests path in
  λ s, let '(s, registry) := foldl (register path) (s, ∅) manifests.(BackendManifests.backends) in
       (s, Ok registry).

(** One declaration of [BackendRegistry::validate_dependencies]. *)
Definition validate_dependency (manifest : BackendManifest) : Sys S BackendRegistryError unit :=
  let* _ := match manifest.(BackendManifest.library) with
            | Some library =>
                let* _ := sys_map_err (λ _, BackendRegistryError.UnavailableLibrary
                  manifest.(BackendManifest.id) library.(BackendLibrary.path)) (load_library library) in
                sys_return tt
            | None => sys_return tt
            end in
  match manifest.(BackendManifest.executable) with
  | Some executable =>
      λ s, (s, if is_executable_file executable s then Ok tt
               else Err (BackendRegistryError.UnavailableExecutable manifest.(BackendManifest.id) executable))
  | None => sys_return tt
  end.

Fixpoint validate_all (manifests : list BackendManifest) : Sys S BackendRegistryError unit :=
  match manifests with
  | [] => sys_return tt
  | manifest :: manifests =>
      let* _ := validate_dependency manifest in validate_all manifests
  end.

(** [BackendRegistry::validate_dependencies] *)
Definition validate_dependencies (path : PathBuf) : Sys S BackendRegistryError unit :=
  let* manifests := read_manifests path in validate_all manifests.(BackendManifests.backends).
End loading.

(** ** Calls *)

Module NativeProbeError.
Inductive NativeProbeError :=
| LibraryRequired
| MissingSymbol (symbol : string)
| CallFailed (operation : string) (code : Z)
| AllocationFailed (object : string)
| InvalidPath (path : PathBuf)
| InvalidData (operation : string).
#[global] Instance NativeProbeError_eq_dec : EqDecision NativeProbeError.
Proof. solve_decision. Defined.
End NativeProbeError.
Abbreviation NativeProbeError := NativeProbeError.NativeProbeError.

(** The [Display] of a native error. *)
Class NativeText := native_text : NativeProbeError → string.

(** The stack of [disksgraph/src/native.rs]. *)
Module NativeSystem.
Record NativeSystem (L : Type) := mk {
  udev : RegisteredBackend L; fdisk : RegisteredBackend L; blkid : RegisteredBackend L;
  devmapper : RegisteredBackend L; cryptsetup : RegisteredBackend L; loop : RegisteredBackend L;
  swap : RegisteredBackend L; multipath : RegisteredBackend L; lvm : RegisteredBackend L;
  mdraid : RegisteredBackend L; libmount : RegisteredBackend L; btrfs_subvolumes : RegisteredBackend L;
  btrfs : RegisteredBackend L; zfs : RegisteredBackend L; nvme : RegisteredBackend L }.
Arguments udev {L} n.
Arguments fdisk {L} n.
Arguments blkid {L} n.
Arguments devmapper {L} n.
Arguments cryptsetup {L} n.
Arguments loop {L} n.
Arguments swap {L} n.
Arguments multipath {L} n.
Arguments lvm {L} n.
Arguments mdraid {L} n.
Arguments libmount {L} n.
Arguments btrfs_subvolumes {L} n.
Arguments btrfs {L} n.
Arguments zfs {L} n.
Arguments nvme {L} n.
Arguments mk {L} udev fdisk blkid devmapper cryptsetup loop swap multipath lvm mdraid libmount
  btrfs_subvolumes btrfs zfs nvme.
End NativeSystem.
Abbreviation NativeSystem := NativeSystem.NativeSystem.

Section calls.
Context {L : Type}.

(** [match &self.access] *)
Definition through_library {A} (backend : RegisteredBackend L)
    (call : LoadedLibrary L → result A NativeProbeError) : result A NativeProbeError :=
  match backend.(RegisteredBackend.access) with
  | LoadedBackendAccess.Library library => call library
  | LoadedBackendAccess.Executable => Err NativeProbeError.LibraryRequired
  end.

Definition declares_execute (backend : RegisteredBackend L) : bool :=
  contains BackendCapability.Execute backend.(RegisteredBackend.manifest).(BackendManifest.capabilities).

(** The read adapters of the [dylib] modules. *)
Class LibraryProbes := {
  library_udev : LoadedLibrary L → result (list UdevBlockEntry) NativeProbeError;
  library_fdisk : list Path → LoadedLibrary L → result (list FdiskTable) NativeProbeError;
  library_blkid : LoadedLibrary L → result (list BlkidEntry) NativeProbeError;
  library_cryptsetup : list Path → LoadedLibrary L → result (list CryptsetupEntry) NativeProbeError;
  library_devmapper : LoadedLibrary L → result (list DevmapperEntry) NativeProbeError;
  library_loop : list Path → LoadedLibrary L → result (list LoopEntry) NativeProbeError;
  library_swap : list Path → LoadedLibrary L → result (list SwapEntry) NativeProbeError;
  library_multipath : LoadedLibrary L → result MultipathEntry NativeProbeError;
  library_mdraid : list Path → list Path → LoadedLibrary L → result MdraidEntry NativeProbeError;
  library_lvm : LoadedLibrary L → result LvmEntry NativeProbeError;
  library_btrfs_filesystems : list PathBuf → LoadedLibrary L →
    result (list BtrfsFilesystemEntry) NativeProbeError;
  library_libmount : LoadedLibrary L → result (list LibmountEntry) NativeProbeError;
  library_btrfs : list Path → LoadedLibrary L → result (list BtrfsEntry) NativeProbeError;
  library_zfs : LoadedLibrary L → result ZfsEntry NativeProbeError;
  library_nvme : LoadedLibrary L → result NvmeEntry NativeProbeError }.

(** [backend]: the registration of an identity; [registry_keyed] makes the order
    of the registrations immaterial. *)
Definition required_backend (registry : BackendRegistry L) (id : string)
    : result (RegisteredBackend L) string :=
  ok_or (find_first (λ backend, bool_decide (backend.(RegisteredBackend.manifest).(BackendManifest.id) = id))
           (map_to_list registry).*2)
    ("required native backend " +:+ id +:+ " is unavailable").

(** [system] *)
Definition native_system (registry : BackendRegistry L) : result (NativeSystem L) string :=
  let? udev := required_backend registry "udev-block" in
  let? fdisk := required_backend registry "fdisk-partitions" in
  let? blkid := required_backend registry "blkid-signatures" in
  let? devmapper := required_backend registry "devmapper-topology" in
  let? cryptsetup := required_backend registry "cryptsetup-luks" in
  let? loop := required_backend registry "loop" in
  let? swap := required_backend registry "swap" in
  let? multipath := required_backend registry "multipath" in
  let? lvm := required_backend registry "lvm" in
  let? mdraid := required_backend registry "mdraid" in
  let? libmount := required_backend registry "libmount-mounts" in
  let? btrfs_subvolumes := required_backend registry "btrfs-subvolumes" in
  let? btrfs := required_backend registry "btrfs" in
  let? zfs := required_backend registry "zfs" in
  let? nvme := required_backend registry "nvme" in
  Ok (NativeSystem.mk udev fdisk blkid devmapper cryptsetup loop swap multipath lvm mdraid libmount
        btrfs_subvolumes btrfs zfs nvme).

(** [RegisteredBackend::probe_*], as the layers of the probe see them. *)
Definition registered_probes `{LibraryProbes, NativeText} (system : NativeSystem L) : NativeBackends :=
  let answer {A} (backend : RegisteredBackend L) (call : LoadedLibrary L → result A NativeProbeError) :=
    map_err native_text (through_library backend call) in {|
  probe_udev_blocks := answer system.(NativeSystem.udev) library_udev;
  probe_fdisk_partitions := λ devices, answer system.(NativeSystem.fdisk) (library_fdisk devices);
  probe_blkid_signatures := answer system.(NativeSystem.blkid) library_blkid;
  probe_cryptsetup := λ device, answer system.(NativeSystem.cryptsetup) (library_cryptsetup [device]);
  probe_devmapper := answer system.(NativeSystem.devmapper) library_devmapper;
  probe_loop := λ devices, answer system.(NativeSystem.loop) (library_loop devices);
  probe_swap := λ devices, answer system.(NativeSystem.swap) (library_swap devices);
  probe_multipath := answer system.(NativeSystem.multipath) library_multipath;
  probe_mdraid := λ arrays members, answer system.(NativeSystem.mdraid) (library_mdraid arrays members);
  probe_lvm := answer system.(NativeSystem.lvm) library_lvm;
  probe_btrfs_filesystems := λ devices, answer system.(NativeSystem.btrfs) (library_btrfs_filesystems devices);
  probe_libmount := answer system.(NativeSystem.libmount) library_libmount;
  probe_btrfs := λ mountpoints, answer system.(NativeSystem.btrfs_subvolumes) (library_btrfs mountpoints);
  probe_zfs := answer system.(NativeSystem.zfs) library_zfs;
  probe_nvme := answer system.(NativeSystem.nvme) library_nvme |}.
End calls.

(** ** The provider protocol ([transport.rs]) *)

Definition PROVIDER_PROTOCOL_VERSION : N := 1.

Module ProviderConnection.
Inductive ProviderConnection :=
| BuiltIn
| StabbyDynamicLibrary (library : PathBuf) (entrypoint : string)
| Process (executable : PathBuf).
End ProviderConnection.
Abbreviation ProviderConnection := ProviderConnection.ProviderConnection.

Definition connection_kind (connection : ProviderConnection) : ProviderConnectionKind :=
  match connection with
  | ProviderConnection.BuiltIn => ProviderConnectionKind.BuiltIn
  | ProviderConnection.StabbyDynamicLibrary _ _ => ProviderConnectionKind.StabbyDynamicLibrary
  | ProviderConnection.Process _ => ProviderConnectionKind.Process
  end.

Module ProviderRequest.
Record ProviderRequest := mk {
  protocol_version : N; request_id : N; provider : string; payload : string }.
End ProviderRequest.
Abbreviation ProviderRequest := ProviderRequest.ProviderRequest.

Module ProviderRemoteError.
Record ProviderRemoteError := mk { code : string; message : string }.
End ProviderRemoteError.
Abbreviation ProviderRemoteError := ProviderRemoteError.ProviderRemoteError.

Module ProviderResponsePayload.
Inductive ProviderResponsePayload := Success (payload : string) | Failure (error : ProviderRemoteError).
End ProviderResponsePayload.
Abbreviation ProviderResponsePayload := ProviderResponsePayload.ProviderResponsePayload.

Module ProviderResponse.
Record ProviderResponse := mk {
  protocol_version : N; request_id : N; payload : ProviderResponsePayload }.
End ProviderResponse.
Abbreviation ProviderResponse := ProviderResponse.ProviderResponse.

Module ProviderTransportError.
Inductive ProviderTransportError :=
| UnsupportedProtocol (version : N)
| MismatchedRequest (expected actual : N)
| Delivery (message : string).
End ProviderTransportError.
Abbreviation ProviderTransportError := ProviderTransportError.ProviderTransportError.

(** [ProviderRequest::new] *)
Definition provider_request (request_id : N) (provider : string) (payload : string) : ProviderRequest :=
  ProviderRequest.mk PROVIDER_PROTOCOL_VERSION request_id provider payload.

(** [ProviderRequest::validate] *)
Definition validate_request (request : ProviderRequest) : result unit ProviderTransportError :=
  if (request.(ProviderRequest.protocol_version) =? PROVIDER_PROTOCOL_VERSION)%N then Ok tt
  else Err (ProviderTransportError.UnsupportedProtocol request.(ProviderRequest.protocol_version)).

(** [ProviderResponse::success] and [ProviderResponse::failure] *)
Definition response_success (request : ProviderRequest) (payload : string) : ProviderResponse :=
  ProviderResponse.mk PROVIDER_PROTOCOL_VERSION request.(ProviderRequest.request_id)
    (ProviderResponsePayload.Success payload).
Definition response_failure (request : ProviderRequest) (error : ProviderRemoteError) : ProviderResponse :=
  ProviderResponse.mk PROVIDER_PROTOCOL_VERSION request.(ProviderRequest.request_id)
    (ProviderResponsePayload.Failure error).

(** [ProviderResponse::validate_for] *)
Definition validate_for (response : ProviderResponse) (request : ProviderRequest)
    : result unit ProviderTransportError :=
  let? _ := validate_request request in
  if negb (response.(ProviderResponse.protocol_version) =? PROVIDER_PROTOCOL_VERSION)%N
  then Err (ProviderTransportError.UnsupportedProtocol response.(ProviderResponse.protocol_version))
  else if negb (response.(ProviderResponse.request_id) =? request.(ProviderRequest.request_id))%N
  then Err (ProviderTransportError.MismatchedRequest request.(ProviderRequest.request_id)
              response.(ProviderResponse.request_id))
  else Ok tt.

(** ** The registry is sound *)

(** What crosses the boundary to the loader and the file system. *)
Definition crossing_path (path : PathBuf) : Prop := is_absolute path = true ∧ path_contains_nul path = false.

Definition library_paths (library : BackendLibrary) : list PathBuf :=
  library.(BackendLibrary.path) :: (AuxiliaryLibrary.path <$> library.(BackendLibrary.auxiliary)).

Definition library_symbols (library : BackendLibrary) : list string :=
  library.(BackendLibrary.required_symbols) ++
  (library.(BackendLibrary.auxiliary) ≫= AuxiliaryLibrary.required_symbols).

Record manifest_wf (manifest : BackendManifest) : Prop := {
  manifest_accessible :
    is_Some manifest.(BackendManifest.library) ∨ is_Some manifest.(BackendManifest.executable);
  manifest_libraries library : manifest.(BackendManifest.library) = Some library →
    Forall crossing_path (library_paths library) ∧
    Forall (λ symbol, string_contains_byte 0 symbol = false) (library_symbols library);
  manifest_executable executable : manifest.(BackendManifest.executable) = Some executable →
    crossing_path executable }.

Lemma validate_library_fields_ok path symbols :
  validate_library_fields path symbols = Ok tt ↔
  crossing_path path ∧ Forall (λ symbol, string_contains_byte 0 symbol = false) symbols.
Proof.
  unfold validate_library_fields, crossing_path, validate_path_bytes. rewrite Forall_forall.
  destruct (is_absolute path); simpl; [|naive_solver].
  destruct (path_contains_nul path); simpl; [naive_solver|].
  destruct (find_first _ _) as [symbol|] eqn:Hf; [|pose proof (proj1 (find_first_None _ _) Hf); naive_solver].
  apply find_first_Some in Hf as (Hs & Hc). split; [done|]. intros [_ Hall]. by rewrite (Hall _ Hs) in Hc.
Qed.

Lemma validate_library_ok library :
  validate_library library = Ok tt ↔
  Forall crossing_path (library_paths library) ∧
  Forall (λ symbol, string_contains_byte 0 symbol = false) (library_symbols library).
Proof.
  unfold validate_library, library_paths, library_symbols.
  destruct (validate_library_fields _ _) as [[]|e] eqn:Hf.
  - apply validate_library_fields_ok in Hf as (Hp & Hs).
    rewrite try_all_ok, Forall_cons, Forall_app, Forall_fmap, Forall_bind.
    setoid_rewrite validate_library_fields_ok. rewrite !Forall_forall in *. unfold compose.
    split; [intros Hall; split; split; try done; intros x Hx; by apply Hall|].
    intros ((_ & Hps) & (_ & Hss)) x Hx. split; [by apply Hps|by apply Hss].
  - split; [done|]. rewrite Forall_cons, Forall_app. intros ((Hp & _) & (Hs & _)).
    by rewrite (proj2 (validate_library_fields_ok _ _) (conj Hp Hs)) in Hf.
Qed.

Lemma validate_manifest_ok manifest : validate_manifest manifest = Ok tt → manifest_wf manifest.
Proof.
  unfold validate_manifest. destruct manifest as [id library executable caps]; simpl. intros Hv.
  assert (is_Some library ∨ is_Some executable) as Ha by (destruct library, executable; naive_solver).
  assert ((let? _ := match library with Some l => validate_library l | None => Ok tt end in
           match executable with Some e => validate_executable e | None => Ok tt end) = Ok tt) as Hv'
    by (destruct library, executable; done).
  clear Hv. split; [done|..]; simpl.
  - intros l ->. apply validate_library_ok. by destruct (validate_library l) as [[]|].
  - intros e ->. destruct (match library with Some _ => _ | None => _ end) as [[]|]; [|done].
    revert Hv'. unfold validate_executable, validate_path_bytes, crossing_path.
    destruct (is_absolute e), (path_contains_nul e); done.
Qed.

Lemma validate_manifests_ok identities manifests :
  validate_manifests identities manifests = Ok tt →
  Forall manifest_wf manifests ∧ NoDup (BackendManifest.id <$> manifests) ∧
  (∀ id, id ∈ BackendManifest.id <$> manifests → id ∉ identities).
Proof.
  revert identities. induction manifests as [|manifest manifests IH]; intros identities; simpl.
  - intros _. repeat split; [constructor|constructor|set_solver].
  - destruct (validate_manifest manifest) as [[]|] eqn:Hm; [|done].
    destruct (contains _ identities) eqn:Hc; [done|]. apply contains_false in Hc.
    intros (Hall & Hnd & Hfresh)%IH. apply validate_manifest_ok in Hm.
    repeat split; [by constructor| |set_solver].
    constructor; [|done]. intros Hin%Hfresh. set_solver.
Qed.

Section registry.
Context {S L : Type} `{ManifestFile S, Loader S L, ManifestDecoder}.

(** How a declaration is reached: a library in use exports every symbol the
    manifest requires. *)
Definition access_from (manifest : BackendManifest) (access : LoadedBackendAccess L) : Prop :=
  match access with
  | LoadedBackendAccess.Library loaded => ∃ library,
      manifest.(BackendManifest.library) = Some library ∧
      has_symbols loaded.(LoadedLibrary.handle) library.(BackendLibrary.required_symbols) = true ∧
      Forall2 (λ handle dependency, has_symbols handle dependency.(AuxiliaryLibrary.required_symbols) = true)
        loaded.(LoadedLibrary.auxiliary) library.(BackendLibrary.auxiliary)
  | LoadedBackendAccess.Executable => is_Some manifest.(BackendManifest.executable)
  end.

(** A registration comes from a declaration of the manifest, under its own
    identity. *)
Record registered_from (path : PathBuf) (manifests : list BackendManifest) (id : BackendId)
    (backend : RegisteredBackend L) : Prop := {
  registered_declared : backend.(RegisteredBackend.manifest) ∈ manifests;
  registered_id : backend.(RegisteredBackend.manifest).(BackendManifest.id) = id;
  registered_path : backend.(RegisteredBackend.manifest_path) = path;
  registered_access : access_from backend.(RegisteredBackend.manifest) backend.(RegisteredBackend.access) }.

(** The calls that read the manifest, and the loads of a sound path. *)
Record reading_keeps (P : S → Prop) : Prop := {
  keeps_open path : keeps P (open_manifest path);
  keeps_kind : keeps P manifest_is_file;
  keeps_read limit : keeps P (read_manifest limit) }.
Definition loading_keeps (P : S → Prop) : Prop := ∀ path, crossing_path path → keeps P (dlopen path).

Lemma read_manifests_spec P path s :
  reading_keeps P → P s →
  outcome (read_manifests path) s
    (λ manifests s', P s' ∧ manifests.(BackendManifests.manifest_version) = BACKEND_MANIFEST_VERSION ∧
       Forall manifest_wf manifests.(BackendManifests.backends) ∧
       NoDup (BackendManifest.id <$> manifests.(BackendManifests.backends)))
    (λ _ s', P s').
Proof.
  intros [Ho Hk Hr] Hs. unfold read_manifests. apply outcome_bind.
  eapply outcome_mono with (Q := λ _, P) (X := λ _, P); [|clear s Hs|done].
  - apply outcome_map_err, outcome_keeps; [|done]. unfold read_manifest_bytes.
    apply keeps_bind; [apply Ho|intros _]. apply keeps_bind; [apply Hk|intros regular].
    destruct (negb regular); [apply keeps_pure|]. apply keeps_bind; [apply Hr|intros bytes].
    destruct (_ <? _)%N; apply keeps_pure.
  - intros bytes s Hs. apply outcome_bind, outcome_of; [|done]. intros manifests _.
    destruct (_ =? _)%N eqn:Hv; [|done]. apply N.eqb_eq in Hv. simpl.
    apply outcome_bind, outcome_of; [|done]. intros [] (Hw & Hn & _)%validate_manifests_ok. done.
Qed.

Lemma load_auxiliaries_spec P dependencies s :
  loading_keeps P → Forall crossing_path (AuxiliaryLibrary.path <$> dependencies) → P s →
  outcome (load_auxiliaries dependencies) s
    (λ handles s', P s' ∧
       Forall2 (λ handle dependency, has_symbols handle dependency.(AuxiliaryLibrary.required_symbols) = true)
         handles dependencies)
    (λ _ s', P s').
Proof.
  intros Hl. revert s. induction dependencies as [|d dependencies IH]; intros s Hall Hs; simpl; [done|].
  inversion Hall as [|? ? Hd Hds]; subst.
  apply outcome_bind. eapply outcome_mono; [apply (outcome_keeps P), Hs; by apply Hl| |done].
  simpl. intros handle s1 Hs1. destruct (has_symbols handle _) eqn:Hh; [|done]. simpl.
  apply outcome_bind. eapply outcome_mono; [by apply IH| |done].
  simpl. intros handles s2 (Hs2 & Hall2). split; [done|]. by constructor.
Qed.

Lemma load_library_spec P library s :
  loading_keeps P → Forall crossing_path (library_paths library) → P s →
  outcome (load_library library) s
    (λ loaded s', P s' ∧
       has_symbols loaded.(LoadedLibrary.handle) library.(BackendLibrary.required_symbols) = true ∧
       Forall2 (λ handle dependency, has_symbols handle dependency.(AuxiliaryLibrary.required_symbols) = true)
         loaded.(LoadedLibrary.auxiliary) library.(BackendLibrary.auxiliary))
    (λ _ s', P s').
Proof.
  intros Hl Hall Hs. inversion Hall as [|? ? Hp Hps]; subst. unfold load_library.
  apply outcome_bind. eapply outcome_mono; [apply (outcome_keeps P), Hs; by apply Hl| |done].
  simpl. intros handle s1 Hs1. destruct (has_symbols handle _) eqn:Hh; [|done]. simpl.
  apply outcome_bind. eapply outcome_mono; [by apply (load_auxiliaries_spec P)| |done].
  simpl. intros handles s2 (Hs2 & Hall2). by split_and!.
Qed.

Lemma available_backend_access_spec P manifest s :
  loading_keeps P → manifest_wf manifest → P s →
  P (available_backend_access manifest s).1 ∧
  ∀ access, (available_backend_access manifest s).2 = Some access → access_from manifest access.
Proof.
  intros Hl Hwf Hs. unfold available_backend_access.
  assert (∀ s access,
    (if is_some_and (λ path, is_executable_file path s) manifest.(BackendManifest.executable)
     then Some LoadedBackendAccess.Executable else None) = Some access → access_from manifest access) as He.
  { intros s' access. destruct manifest.(BackendManifest.executable) eqn:He; simpl; [|done].
    destruct (is_executable_file _ s'); [|done]. intros [= <-]. unfold access_from. by rewrite He. }
  destruct manifest.(BackendManifest.library) as [library|] eqn:Hlib; [|by split; [|apply He]].
  destruct (manifest_libraries _ Hwf library Hlib) as (Hpaths & _).
  pose proof (load_library_spec P library s Hl Hpaths Hs) as Ho. unfold outcome in Ho.
  destruct (load_library library s) as [s' [loaded|[]]]; [|by split; [|apply He]].
  destruct Ho as (Ho & Hsym & Haux). split; [done|]. intros access [= <-]. by exists library.
Qed.

Lemma register_spec P path manifests w manifest :
  loading_keeps P → manifest ∈ manifests → manifest_wf manifest → P w.1 →
  map_Forall (registered_from path manifests) w.2 →
  P (register path w manifest).1 ∧ map_Forall (registered_from path manifests) (register path w manifest).2.
Proof.
  intros Hl Hin Hwf Hs Hall. unfold register.
  destruct (available_backend_access_spec P manifest w.1 Hl Hwf Hs) as (Hs' & Ha).
  destruct (available_backend_access manifest w.1) as [s' [access|]]; simpl in *; [|done].
  split; [done|]. apply map_Forall_insert_2; [|done]. split; simpl; auto.
Qed.

Lemma register_all_spec P path manifests declared w :
  loading_keeps P → Forall manifest_wf declared → (∀ manifest, manifest ∈ declared → manifest ∈ manifests) →
  P w.1 → map_Forall (registered_from path manifests) w.2 →
  P (foldl (register path) w declared).1 ∧
  map_Forall (registered_from path manifests) (foldl (register path) w declared).2.
Proof.
  intros Hl Hwf. revert w. induction Hwf as [|manifest declared Hm _ IH]; intros w Hin Hs Hall; simpl; [done|].
  apply IH; [set_solver|..]; by apply (register_spec P path manifests); [| set_solver |..].
Qed.

(** The stack of the application looks every backend up under its identity. *)
Lemma registry_keyed path manifests (registry : BackendRegistry L) id :
  map_Forall (registered_from path manifests) registry →
  required_backend registry id =
  ok_or (registry !! id) ("required native backend " +:+ id +:+ " is unavailable").
Proof.
  intros Hall. unfold required_backend. f_equal.
  destruct (find_first _ _) as [backend|] eqn:Hf.
  - apply find_first_Some in Hf as (Hin & Hid). apply bool_decide_eq_true in Hid.
    apply list_elem_of_fmap in Hin as ([id' backend'] & -> & Hin%elem_of_map_to_list). simpl in *.
    destruct (Hall _ _ Hin) as [_ Hk _ _]. by simplify_eq.
  - destruct (registry !! id) as [backend|] eqn:Hb; [|done]. exfalso.
    pose proof (proj1 (find_first_None _ _) Hf backend) as Hn. simpl in Hn.
    rewrite bool_decide_eq_false in Hn. apply Hn; [|by destruct (Hall _ _ Hb)].
    apply list_elem_of_fmap. exists (id, backend). by split; [|apply elem_of_map_to_list].
Qed.

(** The registry of a manifest; a document that is rejected is never loaded
    from. *)
Lemma load_from_sound (P R : S → Prop) path s :
  reading_keeps P → loading_keeps P → reading_keeps R → P s → R s →
  match load_from path s with
  | (s', Ok registry) => P s' ∧ ∃ manifests : BackendManifests,
      manifests.(BackendManifests.manifest_version) = BACKEND_MANIFEST_VERSION ∧
      Forall manifest_wf manifests.(BackendManifests.backends) ∧
      NoDup (BackendManifest.id <$> manifests.(BackendManifests.backends)) ∧
      map_Forall (registered_from path manifests.(BackendManifests.backends)) registry ∧
      ∀ id, required_backend registry id =
            ok_or (registry !! id) ("required native backend " +:+ id +:+ " is unavailable")
  | (s', Err _) => P s' ∧ R s'
  end.
Proof.
  intros HrP Hl HrR HP HR. unfold load_from, sys_bind.
  pose proof (read_manifests_spec P path s HrP HP) as Hm.
  pose proof (read_manifests_spec R path s HrR HR) as Hn. unfold outcome in Hm, Hn.
  destruct (read_manifests path s) as [s1 [manifests|e]]; [|done]. destruct Hm as (Hs1 & Hv & Hwf & Hnd).
  pose proof (register_all_spec P path _ _ (s1, ∅) Hl Hwf (λ _ h, h) Hs1 (map_Forall_empty _)) as (Hs & Hall).
  destruct (foldl _ _ _) as [s' registry]. split; [done|]. exists manifests. split_and!; try done.
  intros id. by eapply registry_keyed.
Qed.
End registry.

(** ** What a package test accepts, the application registers *)

Section dependencies.
Context {S L : Type} `{ManifestFile S, Loader S L, ManifestDecoder}.

(** The loader and the file system answer alike throughout. *)
Record stable_machine : Prop := {
  stable_dlopen path s s' : (dlopen path s).2 = (dlopen path s').2;
  stable_metadata path s s' : file_metadata (L:=L) path s = file_metadata (L:=L) path s' }.
Context (Hstable : stable_machine).

Lemma stable_bind {E A B} (m : Sys S E A) (k : A → Sys S E B) s s' :
  (m s).2 = (m s').2 → (∀ a t t', (k a t).2 = (k a t').2) → (sys_bind m k s).2 = (sys_bind m k s').2.
Proof.
  intros Hm Hk. unfold sys_bind. destruct (m s) as [t r], (m s') as [t' r']; simpl in Hm. subst r'.
  by destruct r; [apply Hk|].
Qed.

Lemma stable_load_auxiliaries dependencies s s' :
  (load_auxiliaries dependencies s).2 = (load_auxiliaries dependencies s').2.
Proof.
  revert s s'. induction dependencies as [|d dependencies IH]; intros s s'; simpl; [done|].
  apply stable_bind; [apply (stable_dlopen Hstable)|]. intros handle t t'.
  destruct (negb _); [done|]. by apply stable_bind.
Qed.

Lemma stable_load_library library s s' : (load_library library s).2 = (load_library library s').2.
Proof.
  apply stable_bind; [apply (stable_dlopen Hstable)|]. intros handle t t'.
  destruct (negb _); [done|]. apply stable_bind; [apply stable_load_auxiliaries|done].
Qed.

(** The backend of a declaration, preferring its library. *)
Definition registers (registry : BackendRegistry L) (manifest : BackendManifest) : Prop :=
  ∃ backend, registry !! manifest.(BackendManifest.id) = Some backend ∧
    backend.(RegisteredBackend.manifest) = manifest ∧
    (is_Some manifest.(BackendManifest.library) →
     ∃ loaded, backend.(RegisteredBackend.access) = LoadedBackendAccess.Library loaded).

Lemma register_validated path w manifest s :
  manifest_wf manifest → (validate_dependency manifest s).2 = Ok tt →
  registers (register path w manifest).2 manifest.
Proof.
  intros Hwf Hv. unfold register, available_backend_access. revert Hv.
  unfold validate_dependency, sys_bind, sys_map_err.
  destruct manifest.(BackendManifest.library) as [library|] eqn:Hlib.
  - pose proof (stable_load_library library s w.1) as Hst.
    destruct (load_library library s) as [t [loaded|]], (load_library library w.1) as [t' [loaded'|]];
      try done. intros _. simpl. eexists. rewrite lookup_insert_eq. split; [done|]. split; [done|]. by eexists.
  - simpl. destruct manifest.(BackendManifest.executable) as [e|] eqn:He.
    + simpl. destruct (is_executable_file e s) eqn:Hx; [|done]. intros _.
      replace (is_executable_file e w.1) with true.
      * simpl. eexists. rewrite lookup_insert_eq. split; [done|]. split; [done|].
        intros Hlib'. simpl in Hlib'. rewrite Hlib in Hlib'. by destruct Hlib'.
      * rewrite <- Hx. unfold is_executable_file. by rewrite (stable_metadata Hstable e s w.1).
    + destruct (manifest_accessible _ Hwf) as [[? Hs]|[? Hs]]; congruence.
Qed.

Lemma register_other path w manifest other :
  other.(BackendManifest.id) ≠ manifest.(BackendManifest.id) → registers w.2 manifest →
  registers (register path w other).2 manifest.
Proof.
  intros Hne (backend & Hb & Hm). unfold register.
  destruct (available_backend_access other w.1) as [s' [access|]]; simpl; exists backend; [|done].
  by rewrite lookup_insert_ne.
Qed.

Lemma register_others path w manifest others :
  manifest.(BackendManifest.id) ∉ BackendManifest.id <$> others → registers w.2 manifest →
  registers (foldl (register path) w others).2 manifest.
Proof.
  revert w. induction others as [|other others IH]; intros w Hn Hr; simpl; [done|].
  apply IH; [set_solver|]. apply register_other; [|done]. set_solver.
Qed.

Lemma register_all_validated path manifests w s :
  Forall manifest_wf manifests → NoDup (BackendManifest.id <$> manifests) →
  (validate_all manifests s).2 = Ok tt →
  ∀ manifest, manifest ∈ manifests → registers (foldl (register path) w manifests).2 manifest.
Proof.
  intros Hwf. revert w s. induction Hwf as [|manifest manifests Hm _ IH]; intros w s Hnd Hv m Hin.
  - by apply not_elem_of_nil in Hin.
  - rewrite fmap_cons in Hnd. apply NoDup_cons in Hnd as (Hfresh & Hnd). simpl in *.
    unfold sys_bind in Hv. pose proof (register_validated path w manifest s Hm) as Hr.
    destruct (validate_dependency manifest s) as [s1 [[]|]] eqn:Hd; [|done].
    apply elem_of_cons in Hin as [->|Hin]; [|by eapply IH].
    by apply register_others, Hr.
Qed.

(** A manifest the package test accepts registers every backend it declares. *)
Theorem validated_backends_registered path s s0 :
  (read_manifests path s).2 = (read_manifests path s0).2 → (validate_dependencies path s).2 = Ok tt →
  ∃ manifests registry, (read_manifests path s0).2 = Ok manifests ∧ (load_from path s0).2 = Ok registry ∧
    ∀ manifest, manifest ∈ manifests.(BackendManifests.backends) → registers registry manifest.
Proof.
  intros Heq Hv. pose proof (read_manifests_spec (λ _, True) path s0) as Hr. unfold outcome in Hr.
  unfold validate_dependencies, load_from, sys_bind in *.
  destruct (read_manifests path s) as [s1 r], (read_manifests path s0) as [s2 r']; simpl in Heq. subst r'.
  destruct r as [manifests|e]; [|done].
  destruct Hr as (_ & _ & Hwf & Hnd); [by split|done|].
  pose proof (register_all_validated path _ (s2, ∅) s1 Hwf Hnd Hv) as Hreg.
  destruct (foldl _ _ _) as [s3 registry]. by exists manifests, registry.
Qed.
End dependencies.

(** ** Opening a native application ([disksgraph/src/native.rs]) *)

Module OpenError.
Inductive OpenError := Configuration (message : string) | Application (message : string).
End OpenError.
Abbreviation OpenError := OpenError.OpenError.

(** The identities of the process, the private root and the error texts. *)
Class Startup (S : Type) := {
  real_ids : S → N * N;
  effective_ids : S → N * N;
  open_execution_root : Sys S string unit;
  registry_text : BackendRegistryError → string }.

(** [require_matching_credentials] *)
Definition require_matching_credentials (real effective : N * N) : result unit OpenError :=
  if bool_decide (real ≠ effective)
  then Err (OpenError.Configuration "native applications require matching real and effective user/group IDs")
  else Ok tt.

Section configuration.
Context {S L : Type} `{ManifestFile S, Loader S L, ManifestDecoder, Startup S}.

(** [configuration] *)
Definition configuration (manifest : option PathBuf) : Sys S OpenError (option (BackendRegistry L)) := λ s,
  (let* _ := sys_of (require_matching_credentials (real_ids s) (effective_ids s)) in
   let* _ := sys_map_err OpenError.Application open_execution_root in
   match manifest with
   | None => sys_return None
   | Some path =>
       let* registry := sys_map_err (λ e, OpenError.Configuration (registry_text e)) (load_from path) in
       let* _ := sys_of (map_err OpenError.Configuration (native_system registry)) in
       sys_return (Some registry)
   end) s.

Definition stack_backends (system : NativeSystem L) : list (RegisteredBackend L) :=
  let '(NativeSystem.mk udev fdisk blkid devmapper cryptsetup loop swap multipath lvm mdraid libmount
          btrfs_subvolumes btrfs zfs nvme) := system in
  [udev; fdisk; blkid; devmapper; cryptsetup; loop; swap; multipath; lvm; mdraid; libmount;
   btrfs_subvolumes; btrfs; zfs; nvme].

Definition stack_ids : list BackendId :=
  ["udev-block"; "fdisk-partitions"; "blkid-signatures"; "devmapper-topology"; "cryptsetup-luks"; "loop";
   "swap"; "multipath"; "lvm"; "mdraid"; "libmount-mounts"; "btrfs-subvolumes"; "btrfs"; "zfs"; "nvme"].

Lemma native_system_stack (registry : BackendRegistry L) system :
  native_system registry = Ok system →
  Forall2 (λ id backend, required_backend registry id = Ok backend) stack_ids (stack_backends system).
Proof.
  unfold native_system.
  repeat match goal with
         | |- context [match required_backend registry ?id with _ => _ end] =>
             destruct (required_backend registry id) eqn:?; [|done]
         end.
  intros [= <-]. simpl. repeat constructor; done.
Qed.

(** The registry an application is opened with: its document declares valid
    and distinct backends, and every backend of the stack is registered. *)
Record configured (path : PathBuf) (registry : BackendRegistry L) : Prop := {
  configured_manifests : ∃ manifests : BackendManifests,
    manifests.(BackendManifests.manifest_version) = BACKEND_MANIFEST_VERSION ∧
    Forall manifest_wf manifests.(BackendManifests.backends) ∧
    NoDup (BackendManifest.id <$> manifests.(BackendManifests.backends)) ∧
    map_Forall (registered_from path manifests.(BackendManifests.backends)) registry;
  configured_stack : ∃ system, native_system registry = Ok system ∧
    Forall2 (λ id backend, registry !! id = Some backend) stack_ids (stack_backends system) }.

(** C37: An application opens with a registry only when the credentials of the
    process match, every backend in it was declared by a valid document and
    exports the symbols required of it, and the whole stack is there; only
    sound paths are loaded, and with mixed credentials nothing is touched. *)
Theorem configuration_sound (P : S → Prop) manifest s :
  keeps P open_execution_root → reading_keeps P → loading_keeps P → P s →
  let '(s', opened) := configuration manifest s in
  P s' ∧
  (real_ids s ≠ effective_ids s → s' = s ∧ is_ok opened = false) ∧
  match opened with
  | Ok (Some registry) => ∃ path, manifest = Some path ∧ configured path registry
  | Ok None => manifest = None
  | Err _ => True
  end.
Proof.
  intros Ho Hr Hl Hs. unfold configuration, sys_bind, sys_of, require_matching_credentials.
  case_bool_decide as Hids; simpl; [by eauto|].
  pose proof (Ho s Hs) as Hroot. unfold sys_map_err.
  destruct (open_execution_root s) as [s1 [[]|e]]; simpl in *; [|done].
  destruct manifest as [path|]; [|done].
  pose proof (load_from_sound P P path s1 Hr Hl Hr Hroot Hroot) as Hload.
  destruct (load_from path s1) as [s2 [registry|e]]; simpl; [|by destruct Hload].
  destruct Hload as (Hs2 & manifests & Hv & Hwf & Hnd & Hall & Hkey).
  destruct (native_system registry) as [system|e] eqn:Hsys; simpl; [|done].
  split_and!; [done|done|]. exists path. split; [done|]. split; [by exists manifests|].
  exists system. split; [done|]. apply native_system_stack in Hsys.
  eapply Forall2_impl; [exact Hsys|]. simpl. intros id backend. rewrite Hkey. destruct (registry !! id); simpl; congruence.
Qed.
End configuration.
