(* ===== verification/Adapters.v ===== *)
(** * Native libraries: [storage-provider/src/dylib], [storage-runtime/src/endpoint.rs],
      [native_lvm.rs], [native_ext4.rs], [native_mount.rs], [native_storage.rs] and
      [disksgraph/src/native/owned.rs]

    How a pass reads devices, partition tables, signatures and MD arrays, and
    how an admitted action reaches a native library: the sessions of the
    libblockdev plugins and of libmount, the retained block descriptor, and the
    route of an action to its adapter.  The libraries and the kernel are
    interfaces over the state of the machine; an error out parameter is the
    optional code a call returns next to its result.  Rust releases descriptors
    and native allocations when their owner goes out of scope; that release is
    not modelled, the end of a plugin session is. *)

From stdpp Require Import pretty.
From S2P Require Import Prelude Model Reach Graph GraphOrder GraphValid State Action Contract.
From S2P Require Import Logical Evidence Prerequisites Effects Report Simulate Wire Observation.
From S2P Require Import Correlate Observe Execution ExecutionProps Live LiveGoal Native Recipes ProbeNames.
From S2P Require Import ProbeBlock ProbeTopology ProbeProps NativeLayers.
From S2P Require Import Scope Bindings Targets Checkpoint StoreProps Host Coordinator CoordinatorProps Registry.

#[local] Open Scope string_scope.
#[local] Open Scope list_scope.

(** ** The interfaces *)

(** The consumed fields of the C records; a pointer to a string is optional. *)
Module PvRaw.
Record PvRaw := mk {
  pv_name : option string; pv_uuid : option string; pv_free : N; pv_size : N; pe_start : N;
  vg_name : option string; vg_uuid : option string; missing : Z }.
End PvRaw.
Abbreviation PvRaw := PvRaw.PvRaw.

Module VgRaw.
Record VgRaw := mk {
  name : option string; uuid : option string; size : N; free : N; extent_size : N; pv_count : N;
  exported : Z }.
End VgRaw.
Abbreviation VgRaw := VgRaw.VgRaw.

Module SegmentRaw.
Record SegmentRaw := mk { size_pe : N; pv_start_pe : N; pvdev : option string }.
End SegmentRaw.
Abbreviation SegmentRaw := SegmentRaw.SegmentRaw.

Module LvRaw.
Record LvRaw := mk {
  lv_name : option string; vg_name : option string; uuid : option string; size : N;
  attr : option string; segtype : option string; origin : option string; pool_lv : option string;
  data_lv : option string; metadata_lv : option string; roles : option string;
  data_percent : N; metadata_percent : N; copy_percent : N;
  segments : option (list SegmentRaw) }.
End LvRaw.
Abbreviation LvRaw := LvRaw.LvRaw.

(** [lvm.h]; a null array is [None]. *)
Class LvmPlugin (S L : Type) := {
  lvm_poisoned : S → bool;
  bd_lvm_init : L → S → S * bool;
  bd_lvm_close : L → S → S;
  bd_lvm_is_tech_avail : L → N → N → S → S * (option Z * bool);
  bd_lvm_pvs : L → S → S * (option Z * option (list PvRaw));
  bd_lvm_vgs : L → S → S * (option Z * option (list VgRaw));
  bd_lvm_lvs : L → string → S → S * (option Z * option (list LvRaw));
  bd_lvm_lvcreate : L → string → string → N → string → S → S * (option Z * bool);
  bd_lvm_lvactivate : L → string → string → Z → Z → S → S * (option Z * bool) }.

Module MkfsOptionsRaw.
Record MkfsOptionsRaw := mk {
  label : option string; uuid : string; dry_run : Z; no_discard : Z; force : Z; no_pt : Z }.
End MkfsOptionsRaw.
Abbreviation MkfsOptionsRaw := MkfsOptionsRaw.MkfsOptionsRaw.

Module ExtInfoRaw.
Record ExtInfoRaw := mk {
  label : option string; uuid : option string; block_size : N; block_count : N }.
End ExtInfoRaw.
Abbreviation ExtInfoRaw := ExtInfoRaw.ExtInfoRaw.

(** [fs.h]; [bd_fs_features] returns the minimum and the maximum size. *)
Class FsPlugin (S L : Type) := {
  fs_poisoned : S → bool;
  bd_fs_init : L → S → S * bool;
  bd_fs_close : L → S → S;
  bd_fs_is_tech_avail : L → N → N → S → S * (option Z * bool);
  bd_fs_can_mkfs : L → string → S → S * (option Z * (bool * Z));
  bd_fs_features : L → string → S → S * (option Z * option (N * N));
  bd_fs_mkfs : L → string → string → MkfsOptionsRaw → S → S * (option Z * bool);
  bd_fs_get_fstype : L → string → S → S * (option Z * option string);
  bd_fs_ext4_get_info : L → string → S → S * (option Z * option ExtInfoRaw) }.

(** [libmount.h]; a context is its address, and a setter is named by its
    symbol. *)
Class MountLibrary (S L : Type) := {
  mnt_new_context : L → S → S * option N;
  mnt_free_context : L → N → S → S;
  mnt_set_text : L → string → N → string → S → S * Z;
  mnt_set_flag : L → string → N → Z → S → S * Z;
  mnt_context_mount : L → N → S → S * Z;
  mnt_query : L → string → N → S → S * Z }.

Module FileStat.
Record FileStat := mk { st_mode : N; st_rdev : DeviceNumber }.
End FileStat.
Abbreviation FileStat := FileStat.FileStat.

(** Descriptors are numbers; errors are the text of [std::io::Error]. *)
Class Descriptors (S : Type) := {
  open_path : PathBuf → Sys S string N;
  reopen : string → Sys S string N;
  fstat : N → Sys S string FileStat;
  seek_end : N → Sys S string N;
  blksszget : N → Sys S string N;
  blkpbszget : N → Sys S string N;
  read_to_string : string → Sys S string string;
  open_directory : PathBuf → Sys S string N;
  has_entry : string → Sys S string bool;
  sync_all : N → Sys S string unit;
  process_id : S → N;
  now_v7 : S → Uuid }.

(** ** Results of C calls *)

Definition call_failed (operation : string) : NativeProbeError := NativeProbeError.CallFailed operation 0.
Definition invalid (operation : string) : NativeProbeError := NativeProbeError.InvalidData operation.

(** [ErrorGuard::check], [Api::check_error] *)
Definition check_error (operation : string) (error : option Z) : result unit NativeProbeError :=
  match error with None => Ok tt | Some code => Err (NativeProbeError.CallFailed operation code) end.

(** [load_symbol] *)
Definition load_symbol {S L} `{Loader S L} (library : L) (name : string) : result unit NativeProbeError :=
  if exports library name then Ok tt else Err (NativeProbeError.MissingSymbol name).

(** A C call: its result counts only when no error was stored. *)
Definition native_call {S A} (operation : string) (call : S → S * (option Z * A)) : Sys S NativeProbeError A :=
  λ s, let '(s, (error, a)) := call s in (s, let? _ := check_error operation error in Ok a).

(** A boolean call: false fails as well. *)
Definition boolean_call {S} (operation : string) (call : S → S * (option Z * bool))
    : Sys S NativeProbeError unit :=
  let* done := native_call operation call in
  if done then sys_return tt else sys_fail (call_failed operation).

(** [CString::new] *)
Definition c_string {E} (text : string) (error : E) : result string E :=
  if string_contains_byte 0 text then Err error else Ok text.

(** [copied_string], [copied_nonempty] and [copied_required] *)
Definition copied_string (pointer : option string) : option string := pointer ≫= to_str.
Definition copied_nonempty (pointer : option string) : option string :=
  match copied_string pointer with
  | Some text => if bool_decide (text = "") then None else Some text
  | None => None
  end.
Definition copied_required (pointer : option string) (operation : string) : result string NativeProbeError :=
  ok_or (copied_nonempty pointer) (invalid operation).

(** ** LVM ([dylib/lvm.rs]) *)

Definition MAX_NATIVE_ENTRIES : N := 65536.

(** The loop over a terminated array: [index] entries have been copied. *)
Fixpoint copy_entries {R A} (operation : string) (copy : R → result A NativeProbeError) (index : N)
    (entries : list R) : result (list A) NativeProbeError :=
  if (MAX_NATIVE_ENTRIES <=? index)%N then Err (invalid operation)
  else match entries with
       | [] => Ok []
       | raw :: entries =>
           let? entry := copy raw in
           let? rest := copy_entries operation copy (index + 1) entries in
           Ok (entry :: rest)
       end.

(** A null array is empty. *)
Definition copy_array {R A} (operation : string) (copy : R → result A NativeProbeError)
    (array : option (list R)) : result (list A) NativeProbeError :=
  match array with None => Ok [] | Some entries => copy_entries operation copy 0 entries end.

Definition copy_pv (raw : PvRaw) : result LvmPvEntry NativeProbeError :=
  let? device := copied_required raw.(PvRaw.pv_name) "bd_lvm_pvs" in
  let? uuid := copied_required raw.(PvRaw.pv_uuid) "bd_lvm_pvs" in
  Ok (LvmPvEntry.mk device uuid (copied_nonempty raw.(PvRaw.vg_name)) (copied_nonempty raw.(PvRaw.vg_uuid))
        raw.(PvRaw.pv_size) raw.(PvRaw.pv_free) raw.(PvRaw.pe_start)
        (negb (raw.(PvRaw.missing) =? 0)%Z)).

Definition copy_vg (raw : VgRaw) : result LvmVgEntry NativeProbeError :=
  let? name := copied_required raw.(VgRaw.name) "bd_lvm_vgs" in
  let? uuid := copied_required raw.(VgRaw.uuid) "bd_lvm_vgs" in
  Ok (LvmVgEntry.mk name uuid raw.(VgRaw.size) raw.(VgRaw.extent_size) raw.(VgRaw.free) raw.(VgRaw.pv_count)
        (negb (raw.(VgRaw.exported) =? 0)%Z)).

(** [copy_segments] *)
Definition copy_segments (segments : option (list SegmentRaw))
    : result (list LvmSegmentEntry) NativeProbeError :=
  copy_array "bd_lvm_lvs segments" (λ raw,
    Ok (LvmSegmentEntry.mk raw.(SegmentRaw.size_pe) raw.(SegmentRaw.pv_start_pe)
          (copied_nonempty raw.(SegmentRaw.pvdev)))) segments.

Definition copy_lv (raw : LvRaw) : result LvmLvEntry NativeProbeError :=
  let? name := copied_required raw.(LvRaw.lv_name) "bd_lvm_lvs" in
  let? vg_name := copied_required raw.(LvRaw.vg_name) "bd_lvm_lvs" in
  let? uuid := copied_required raw.(LvRaw.uuid) "bd_lvm_lvs" in
  let? segments := copy_segments raw.(LvRaw.segments) in
  Ok (LvmLvEntry.mk name vg_name uuid raw.(LvRaw.size) (copied_nonempty raw.(LvRaw.segtype))
        (copied_nonempty raw.(LvRaw.attr)) (copied_nonempty raw.(LvRaw.origin))
        (copied_nonempty raw.(LvRaw.pool_lv)) (copied_nonempty raw.(LvRaw.data_lv))
        (copied_nonempty raw.(LvRaw.metadata_lv)) (copied_nonempty raw.(LvRaw.roles))
        raw.(LvRaw.data_percent) raw.(LvRaw.metadata_percent) raw.(LvRaw.copy_percent) segments).

Definition lvm_symbols : list string :=
  ["bd_lvm_init"; "bd_lvm_close"; "bd_lvm_pvs"; "bd_lvm_vgs"; "bd_lvm_lvs"; "bd_lvm_pvdata_free";
   "bd_lvm_vgdata_free"; "bd_lvm_lvdata_free"; "g_free"; "g_error_free"].

Section lvm.
Context {S L : Type} `{Loader S L, LvmPlugin S L, NativeText}.

(** The session every entry point opens: the process-wide lock, the symbols,
    initialization, and the end of the session on every path out. *)
Definition lvm_session {E A} (wrap : NativeProbeError → E) (library : L) (symbols : list string)
    (body : Sys S E A) : Sys S E A := λ s,
  if lvm_poisoned s then (s, Err (wrap (call_failed "LVM plugin session lock")))
  else match try_all (load_symbol library) (lvm_symbols ++ symbols) with
       | Err e => (s, Err (wrap e))
       | Ok _ =>
           match bd_lvm_init library s with
           | (s, false) => (s, Err (wrap (call_failed "bd_lvm_init")))
           | (s, true) => let '(s, r) := body s in (bd_lvm_close library s, r)
           end
       end.

(** [check_technology]: BASIC is technology 0. *)
Definition check_technology (library : L) (mode : N) : Sys S NativeProbeError unit :=
  boolean_call "bd_lvm_is_tech_avail" (bd_lvm_is_tech_avail library 0 mode).

Definition CREATE_MODE : N := N.lor (N.shiftl 1 0) (N.shiftl 1 4).
Definition ACTIVATE_MODE : N := N.lor (N.shiftl 1 3) (N.shiftl 1 4).

Definition read_pvs (library : L) : Sys S NativeProbeError (list LvmPvEntry) :=
  let* array := native_call "bd_lvm_pvs" (bd_lvm_pvs library) in
  sys_of (copy_array "bd_lvm_pvs" copy_pv array).

Definition read_vgs (library : L) : Sys S NativeProbeError (list LvmVgEntry) :=
  let* array := native_call "bd_lvm_vgs" (bd_lvm_vgs library) in
  sys_of (copy_array "bd_lvm_vgs" copy_vg array).

Definition read_lvs (library : L) (vg_name : string) : Sys S NativeProbeError (list LvmLvEntry) :=
  let* vg_name := sys_of (c_string vg_name (invalid "bd_lvm_lvs")) in
  let* array := native_call "bd_lvm_lvs" (bd_lvm_lvs library vg_name) in
  sys_of (copy_array "bd_lvm_lvs" copy_lv array).

Fixpoint read_groups (library : L) (vgs : list LvmVgEntry) : Sys S NativeProbeError (list LvmLvEntry) :=
  match vgs with
  | [] => sys_return []
  | vg :: vgs =>
      let* lvs := read_lvs library vg.(LvmVgEntry.name) in
      let* rest := read_groups library vgs in sys_return (lvs ++ rest)
  end.

(** [read_state] *)
Definition read_state (library : L) : Sys S NativeProbeError LvmEntry :=
  let* pvs := read_pvs library in
  let* vgs := read_vgs library in
  let* lvs := read_groups library vgs in
  sys_return (LvmEntry.mk pvs vgs lvs).

(** [lvm::probe] *)
Definition lvm_probe (library : L) : Sys S NativeProbeError LvmEntry :=
  lvm_session id library [] (read_state library).

(** [check_linear_lv_support] and [check_lv_activation_support] of the library *)
Definition library_linear_support (library : L) : Sys S NativeProbeError unit :=
  lvm_session id library ["bd_lvm_lvcreate"; "bd_lvm_is_tech_avail"] (check_technology library CREATE_MODE).
Definition library_activation_support (library : L) : Sys S NativeProbeError unit :=
  lvm_session id library ["bd_lvm_lvactivate"; "bd_lvm_is_tech_avail"]
    (check_technology library ACTIVATE_MODE).

(** [From<NativeProbeError>] *)
Definition lvm_native (e : NativeProbeError) : LvmWriteError := LvmWriteError.Native (native_text e).

(** [invoke_create] *)
Definition invoke_create (library : L) (request : LinearLvRequest) : Sys S NativeProbeError unit :=
  let* vg := sys_of (c_string request.(LinearLvRequest.vg_name) (invalid "bd_lvm_lvcreate")) in
  let* lv := sys_of (c_string request.(LinearLvRequest.lv_name) (invalid "bd_lvm_lvcreate")) in
  boolean_call "bd_lvm_lvcreate"
    (bd_lvm_lvcreate library vg lv request.(LinearLvRequest.size) "linear").

(** [create_linear_lv] of the library *)
Definition library_create_lv (library : L) (request : LinearLvRequest) : Sys S LvmWriteError string :=
  lvm_session lvm_native library ["bd_lvm_lvcreate"; "bd_lvm_is_tech_avail"]
    (let* _ := sys_map_err lvm_native (check_technology library CREATE_MODE) in
     let* before := sys_map_err lvm_native (read_state library) in
     let* _ := sys_of (check_target request before) in
     let* _ := sys_map_err lvm_native (invoke_create library request) in
     let* after := sys_map_err lvm_native (read_state library) in
     sys_of (created_uuid request before after)).

(** [activate_lv] of the library *)
Definition library_activate_lv (library : L) (request : LvActivationRequest) : Sys S LvmWriteError unit :=
  lvm_session lvm_native library ["bd_lvm_lvactivate"; "bd_lvm_is_tech_avail"]
    (let* _ := sys_map_err lvm_native (check_technology library ACTIVATE_MODE) in
     let* before := sys_map_err lvm_native (read_state library) in
     let* observed := sys_of (observed_lv request before) in
     if negb (bool_decide (is_Some (activation observed))) then sys_fail LvmWriteError.TargetChanged
     else
       let* vg := sys_of (c_string request.(LvActivationRequest.vg_name)
                            (lvm_native (invalid "bd_lvm_lvactivate"))) in
       let* lv := sys_of (c_string request.(LvActivationRequest.lv_name)
                            (lvm_native (invalid "bd_lvm_lvactivate"))) in
       let* _ := sys_map_err lvm_native
                   (boolean_call "bd_lvm_lvactivate" (bd_lvm_lvactivate library vg lv 0 0)) in
       let* after := sys_map_err lvm_native (read_state library) in
       let* observed := sys_of (observed_lv request after) in
       if bool_decide (activation observed = Some true) then sys_return tt
       else sys_fail LvmWriteError.TargetChanged).
End lvm.

(** ** ext4 ([dylib/filesystem_write.rs]) *)

Definition EXT4_TECH : N := 4.
Definition CREATE_QUERY : N := N.lor 1 (N.shiftl 1 5).
Definition REQUIRED_OPTIONS : Z := Z.lor (Z.lor 1 2) 8.

Definition fs_symbols : list string :=
  ["bd_fs_init"; "bd_fs_close"; "bd_fs_is_tech_avail"; "bd_fs_can_mkfs"; "bd_fs_features"; "bd_fs_mkfs";
   "bd_fs_get_fstype"; "bd_fs_ext4_get_info"; "bd_fs_ext4_info_free"; "g_free"; "g_error_free"].

(** [FileType::from_raw_mode] *)
Definition file_format (stat : FileStat) : N := N.land stat.(FileStat.st_mode) 61440.
Definition S_IFBLK : N := 24576.
Definition S_IFDIR : N := 16384.
Definition is_block_device (stat : FileStat) : bool := (file_format stat =? S_IFBLK)%N.
Definition is_dir (stat : FileStat) : bool := (file_format stat =? S_IFDIR)%N.

Section ext4.
Context {S L : Type} `{Loader S L, FsPlugin S L, Descriptors S, NativeText}.

Definition fs_session {E A} (wrap : NativeProbeError → E) (library : L) (body : Sys S E A) : Sys S E A := λ s,
  if fs_poisoned s then (s, Err (wrap (invalid "filesystem session lock")))
  else match try_all (load_symbol library) fs_symbols with
       | Err e => (s, Err (wrap e))
       | Ok _ =>
           match bd_fs_init library s with
           | (s, false) => (s, Err (wrap (call_failed "bd_fs_init")))
           | (s, true) => let '(s, r) := body s in (bd_fs_close library s, r)
           end
       end.

(** [Api::support]: the sizes of an ext4 file system. *)
Definition ext4_support (library : L) : Sys S NativeProbeError (N * N) :=
  let* _ := boolean_call "bd_fs_is_tech_avail" (bd_fs_is_tech_avail library EXT4_TECH CREATE_QUERY) in
  let* can := native_call "bd_fs_can_mkfs" (bd_fs_can_mkfs library "ext4") in
  if negb can.1 || negb (Z.land can.2 REQUIRED_OPTIONS =? REQUIRED_OPTIONS)%Z
  then sys_fail (call_failed "bd_fs_can_mkfs")
  else
    let* features := native_call "bd_fs_features" (bd_fs_features library "ext4") in
    match features with
    | None => sys_fail (invalid "bd_fs_features")
    | Some (min_size, max_size) =>
        if (min_size =? 0)%N || negb (max_size =? 0)%N && (max_size <? min_size)%N
        then sys_fail (invalid "bd_fs_features") else sys_return (min_size, max_size)
    end.

(** [check_support] *)
Definition library_ext4_support (library : L) : Sys S NativeProbeError unit :=
  fs_session id library (let* _ := ext4_support library in sys_return tt).

(** [Api::read_type] *)
Definition read_type (library : L) (path : string) : Sys S NativeProbeError (option string) :=
  let* found := native_call "bd_fs_get_fstype" (bd_fs_get_fstype library path) in
  match found with
  | None => sys_return None
  | Some text => sys_of (let? text := ok_or (to_str text) (invalid "bd_fs_get_fstype") in Ok (Some text))
  end.

(** [From<NativeProbeError>] and [From<std::io::Error>] *)
Definition fs_native (e : NativeProbeError) : FilesystemWriteError := FilesystemWriteError.Native (native_text e).

(** The path of the retained descriptor that survives in a child process. *)
Definition descriptor_path (device : N) (s : S) : string :=
  "/proc/" +:+ pretty (process_id s) +:+ "/fd/" +:+ pretty device.

(** The readback of the new file system. *)
Definition read_back (library : L) (request : Ext4CreateRequest) (path : string)
    : Sys S FilesystemWriteError string :=
  let* found := sys_map_err fs_native (read_type library path) in
  let* fs_type := sys_of (ok_or found FilesystemWriteError.ContentMismatch) in
  if bool_decide (fs_type ≠ "ext4") then sys_fail FilesystemWriteError.ContentMismatch
  else
    let* info := sys_map_err fs_native
      (native_call "bd_fs_ext4_get_info" (bd_fs_ext4_get_info library path)) in
    match info with
    | None => sys_fail (fs_native (invalid "bd_fs_ext4_get_info"))
    | Some raw =>
        match raw.(ExtInfoRaw.uuid), raw.(ExtInfoRaw.label) with
        | Some uuid, Some label =>
            let* actual_uuid := sys_of (ok_or (to_str uuid) FilesystemWriteError.ContentMismatch) in
            let* actual_label := sys_of (ok_or (to_str label) FilesystemWriteError.ContentMismatch) in
            let* _ := sys_of (check_ext4_result request fs_type actual_uuid
              (if bool_decide (actual_label = "") then None else Some actual_label)
              raw.(ExtInfoRaw.block_size) raw.(ExtInfoRaw.block_count)) in
            sys_return actual_uuid
        | _, _ => sys_fail FilesystemWriteError.ContentMismatch
        end
    end.

(** The part of [create] from the path of the descriptor on. *)
Definition make_filesystem (library : L) (device : N) (request : Ext4CreateRequest) (path : string)
    : Sys S FilesystemWriteError string :=
  let* path := sys_of (c_string path FilesystemWriteError.InvalidRequest) in
  let* found := sys_map_err fs_native (read_type library path) in
  if bool_decide (is_Some found) then sys_fail FilesystemWriteError.ContentMismatch
  else
    let* uuid := sys_of (c_string request.(Ext4CreateRequest.uuid) FilesystemWriteError.InvalidRequest) in
    let* label := sys_of (match request.(Ext4CreateRequest.label) with
                          | None => Ok None
                          | Some label =>
                              let? label := c_string label FilesystemWriteError.InvalidRequest in
                              Ok (Some label)
                          end) in
    let* _ := sys_map_err fs_native (boolean_call "bd_fs_mkfs"
                (bd_fs_mkfs library path "ext4" (MkfsOptionsRaw.mk label uuid 0 1 0 0))) in
    let* _ := sys_map_err FilesystemWriteError.Io (sync_all device) in
    read_back library request path.

(** [create] *)
Definition create_filesystem (library : L) (device : N) (request : Ext4CreateRequest)
    : Sys S FilesystemWriteError string :=
  fs_session fs_native library
    (let* sizes := sys_map_err fs_native (ext4_support library) in
     let size := request.(Ext4CreateRequest.size) in
     if (sizes.1 =? 0)%N || (size <? sizes.1)%N
        || negb (sizes.2 =? 0)%N && ((sizes.2 <? sizes.1)%N || (sizes.2 <? size)%N)
     then sys_fail FilesystemWriteError.InvalidRequest
     else λ s, make_filesystem library device request (descriptor_path device s) s).

(** [Ext4CreateRequest::check_descriptor] *)
Definition check_descriptor (request : Ext4CreateRequest) (device : N) : Sys S FilesystemWriteError unit :=
  let* stat := sys_map_err FilesystemWriteError.Io (fstat device) in
  if negb (is_block_device stat) then sys_fail FilesystemWriteError.TargetChanged
  else
    let* bytes := sys_map_err FilesystemWriteError.Io (seek_end device) in
    if (bytes =? request.(Ext4CreateRequest.size))%N then sys_return tt
    else sys_fail FilesystemWriteError.TargetChanged.

(** [LoadedLibrary::create_ext4] *)
Definition library_create_ext4 (library : L) (device : N) (request : Ext4CreateRequest)
    : Sys S FilesystemWriteError string :=
  let* _ := check_descriptor request device in
  let* uuid := create_filesystem library device request in
  let* _ := check_descriptor request device in
  sys_return uuid.
End ext4.

(** ** Mounts ([dylib/libmount.rs]) *)

Module MountWriteError.
Inductive MountWriteError :=
| ExecutionNotDeclared
| Endpoint
| Io (message : string)
| Native (message : string).
End MountWriteError.
Abbreviation MountWriteError := MountWriteError.MountWriteError.

(** The flags of a context with their fixed values. *)
Definition context_flags : list (string * Z) :=
  [("mnt_context_set_optsmode", Z.lor (Z.shiftl 1 12) (Z.shiftl 1 1));
   ("mnt_context_disable_helpers", 1%Z);
   ("mnt_context_disable_canonicalize", 1%Z);
   ("mnt_context_disable_mtab", 1%Z);
   ("mnt_context_enable_rwonly_mount", 1%Z)].

Definition mount_symbols : list string :=
  ["mnt_new_context"; "mnt_free_context"; "mnt_context_set_source"; "mnt_context_set_target";
   "mnt_context_set_fstype"; "mnt_context_set_options"] ++ context_flags.*1 ++
  ["mnt_context_mount"; "mnt_context_get_status"; "mnt_context_syscall_called";
   "mnt_context_helper_executed"; "mnt_context_get_syscall_errno"].

(** [check_zero] *)
Definition check_zero {S} (operation : string) (call : S → S * Z) : Sys S NativeProbeError unit := λ s,
  let '(s, code) := call s in
  (s, if (code =? 0)%Z then Ok tt else Err (NativeProbeError.CallFailed operation code)).

(** [[..].join(",")] *)
Definition comma_joined (options : list string) : string := String.concat "," options.

Section mount.
Context {S L : Type} `{Loader S L, MountLibrary S L}.

Fixpoint set_flags (library : L) (context : N) (flags : list (string * Z)) : Sys S NativeProbeError unit :=
  match flags with
  | [] => sys_return tt
  | flag :: flags =>
      let* _ := check_zero "libmount context policy" (mnt_set_flag library flag.1 context flag.2) in
      set_flags library context flags
  end.

Fixpoint set_texts (library : L) (context : N) (texts : list (string * string))
    : Sys S NativeProbeError unit :=
  match texts with
  | [] => sys_return tt
  | text :: texts =>
      let* _ := check_zero "libmount endpoint setup" (mnt_set_text library text.1 context text.2) in
      set_texts library context texts
  end.

(** [MountApi::context] around a body; the context is freed on every path. *)
Definition in_context {A} (library : L) (body : N → Sys S NativeProbeError A) : Sys S NativeProbeError A := λ s,
  match try_all (load_symbol library) mount_symbols with
  | Err e => (s, Err e)
  | Ok _ =>
      match mnt_new_context library s with
      | (s, None) => (s, Err (NativeProbeError.AllocationFailed "libmount context"))
      | (s, Some context) =>
          let '(s, r) := (let* _ := set_flags library context context_flags in body context) s in
          (mnt_free_context library context s, r)
      end
  end.

(** [check_mount_support] *)
Definition library_mount_support (library : L) : Sys S NativeProbeError unit :=
  in_context library (λ _, sys_return tt).

(** A status getter with its expected value. *)
Definition status_is (library : L) (symbol : string) (context : N) (expected : Z) (s : S) : S * bool :=
  let '(s, value) := mnt_query library symbol context s in (s, (value =? expected)%Z).

(** [a && b && ..] over the getters *)
Fixpoint all_statuses (library : L) (context : N) (checks : list (string * Z)) (s : S) : S * bool :=
  match checks with
  | [] => (s, true)
  | check :: checks =>
      match status_is library check.1 context check.2 s with
      | (s, true) => all_statuses library context checks s
      | (s, false) => (s, false)
      end
  end.

Definition completion_checks : list (string * Z) :=
  [("mnt_context_get_status", 1%Z); ("mnt_context_syscall_called", 1%Z);
   ("mnt_context_helper_executed", 0%Z); ("mnt_context_get_syscall_errno", 0%Z)].

Definition endpoint_texts (source target : N) : list (string * string) :=
  [("mnt_context_set_source", "/proc/self/fd/" +:+ pretty source);
   ("mnt_context_set_target", "/proc/self/fd/" +:+ pretty target +:+ "/");
   ("mnt_context_set_fstype", "ext4");
   ("mnt_context_set_options", comma_joined EXT4_HOST_MOUNT_OPTIONS)].

(** [mount_ext4] of the library; the texts have no NUL. *)
Definition library_mount_ext4 (library : L) (source target : N) : Sys S NativeProbeError unit :=
  in_context library (λ context,
    let* _ := set_texts library context (endpoint_texts source target) in
    let* _ := check_zero "mnt_context_mount" (mnt_context_mount library context) in
    λ s, let '(s, complete) := all_statuses library context completion_checks s in
         (s, if complete then Ok tt else Err (invalid "libmount completion"))).
End mount.

(** ** Retained block descriptors ([endpoint.rs]) *)

Module EndpointError.
Inductive EndpointError := Changed | MountTarget | Io (message : string).
End EndpointError.
Abbreviation EndpointError := EndpointError.EndpointError.

Module LvBlockEndpoint.
Record LvBlockEndpoint := mk { file : N; block : BlockFacts; size : N; dm_uuid : string }.
End LvBlockEndpoint.
Abbreviation LvBlockEndpoint := LvBlockEndpoint.LvBlockEndpoint.

Definition normalized_device_path (path : PathBuf) : bool :=
  starts_with path [Component.RootDir; Component.Normal "dev"] && is_absolute path
  && negb (contains Component.ParentDir path) && negb (path_contains_nul path).

(** [value.replace('-', "")] *)
Fixpoint without_hyphens (value : string) : string :=
  match value with
  | EmptyString => ""
  | String a rest => if (Ascii.N_of_ascii a =? 45)%N then without_hyphens rest else String a (without_hyphens rest)
  end.

(** One identity of [expected_dm_uuid]. *)
Definition dm_id (value : string) : result string EndpointError :=
  if string_contains_byte 45 value
     && bool_decide (String.length <$> split_text 45 value ≠ [6; 4; 4; 4; 4; 4; 6])
  then Err EndpointError.Changed
  else
    let stripped := without_hyphens value in
    if negb (String.length stripped =? 32)%nat || negb (forallb is_ascii_alphanumeric (utf8 stripped))
    then Err EndpointError.Changed else Ok stripped.

Definition expected_dm_uuid (vg lv : string) : result string EndpointError :=
  let? vg := dm_id vg in
  let? lv := dm_id lv in
  Ok ("LVM-" +:+ vg +:+ lv).

(** [trim_end_matches('\n')] *)
Fixpoint trim_newlines (text : string) : string :=
  match text with
  | EmptyString => ""
  | String a rest =>
      let rest := trim_newlines rest in
      if (Ascii.N_of_ascii a =? 10)%N && bool_decide (rest = "") then "" else String a rest
  end.

Definition check_kernel_metadata (uuid read_only sectors expected : string) (bytes : N)
    : result unit EndpointError :=
  if bool_decide (trim_newlines uuid ≠ expected) || bool_decide (trim_newlines read_only ≠ "0")
     || bool_decide (parse_unsigned (2 ^ 64) (trim_newlines sectors) ≫= (λ n, u64_checked_mul n 512)
                     ≠ Some bytes)
  then Err EndpointError.Changed else Ok tt.

(** The device number of a descriptor. *)
Definition same_device (stat : FileStat) (block : BlockFacts) : bool :=
  is_block_device stat && bool_decide (stat.(FileStat.st_rdev) = block.(BlockFacts.devno)).

Section endpoint.
Context {S : Type} `{Descriptors S}.

Abbreviation io m := (sys_map_err EndpointError.Io m) (only parsing).

Definition physical_size_differs (fd : N) (size : option BlockSize) : S → S * bool := λ s,
  match size with
  | None => (s, false)
  | Some size =>
      match blkpbszget fd s with
      | (s, Ok actual) => (s, negb (actual =? N.pos size)%N)
      | (s, Err _) => (s, true)
      end
  end.

(** [LvBlockEndpoint::recheck] *)
Definition recheck (endpoint : LvBlockEndpoint) : Sys S EndpointError unit :=
  let fd := endpoint.(LvBlockEndpoint.file) in
  let block := endpoint.(LvBlockEndpoint.block) in
  let* stat := io (fstat fd) in
  let* geometry := sys_of (ok_or block.(BlockFacts.geometry) EndpointError.Changed) in
  if negb (same_device stat block) then sys_fail EndpointError.Changed
  else
    let* bytes := io (seek_end fd) in
    if negb (bytes =? endpoint.(LvBlockEndpoint.size))%N then sys_fail EndpointError.Changed
    else
      let* logical := io (blksszget fd) in
      if negb (logical =? N.pos geometry.(BlockGeometry.logical_block_size))%N
      then sys_fail EndpointError.Changed
      else λ s,
        let '(s, differs) := physical_size_differs fd geometry.(BlockGeometry.physical_block_size) s in
        if differs then (s, Err EndpointError.Changed)
        else
          let devno := block.(BlockFacts.devno) in
          let root := "/sys/dev/block/" +:+ pretty devno.(DeviceNumber.major) +:+ ":" +:+
                      pretty devno.(DeviceNumber.minor) in
          (let* uuid := io (read_to_string (root +:+ "/dm/uuid")) in
           let* read_only := io (read_to_string (root +:+ "/ro")) in
           let* sectors := io (read_to_string (root +:+ "/size")) in
           sys_of (check_kernel_metadata uuid read_only sectors endpoint.(LvBlockEndpoint.dm_uuid)
                     endpoint.(LvBlockEndpoint.size))) s.

(** What [LvBlockEndpoint::open] requires before it opens anything. *)
Definition endpoint_path (target : ResolvedLvTarget) (block : BlockFacts) : result PathBuf EndpointError :=
  match block.(BlockFacts.paths) with
  | [path] =>
      if negb (normalized_device_path path) || bool_decide (block.(BlockFacts.read_only) ≠ Some false)
         || negb (bool_decide (is_Some block.(BlockFacts.geometry)))
         || (block.(BlockFacts.devno).(DeviceNumber.major) =? 0)%N
         || (target.(ResolvedLvTarget.size) =? 0)%N
      then Err EndpointError.Changed else Ok path
  | _ => Err EndpointError.Changed
  end.

(** [LvBlockEndpoint::open] *)
Definition open_endpoint (target : ResolvedLvTarget) (vg_uuid : string) : Sys S EndpointError LvBlockEndpoint :=
  let* dm_uuid := sys_of (expected_dm_uuid vg_uuid target.(ResolvedLvTarget.lv_uuid)) in
  let* block := sys_of (ok_or target.(ResolvedLvTarget.block) EndpointError.Changed) in
  let* path := sys_of (endpoint_path target block) in
  let* path_fd := io (open_path path) in
  let* stat := io (fstat path_fd) in
  if negb (same_device stat block) then sys_fail EndpointError.Changed
  else
    let* file := io (reopen ("/proc/self/fd/" +:+ pretty path_fd)) in
    let endpoint := LvBlockEndpoint.mk file block target.(ResolvedLvTarget.size) dm_uuid in
    let* _ := recheck endpoint in
    sys_return endpoint.

(** [open_mount_target] *)
Definition open_mount_target (target : PathBuf) : Sys S EndpointError N :=
  if negb (is_absolute target) || negb (has_parent target) || negb (forallb is_plain_component target)
  then sys_fail EndpointError.MountTarget
  else
    let* directory := io (open_directory target) in
    let* occupied := io (has_entry ("/proc/self/fd/" +:+ pretty directory)) in
    if (occupied : bool) then sys_fail EndpointError.MountTarget else sys_return directory.
End endpoint.

(** ** Registered writes ([storage-provider/src/lib.rs]) *)

(** The [Display] of the errors. *)
Class AdapterText := {
  adapter_native_text :: NativeText;
  lvm_write_text : LvmWriteError → string;
  filesystem_write_text : FilesystemWriteError → string;
  mount_write_text : MountWriteError → string;
  endpoint_text : EndpointError → string }.

Section writes.
Context {S L : Type} `{Loader S L, LvmPlugin S L, FsPlugin S L, MountLibrary S L, Descriptors S, AdapterText}.

(** Execution is declared and the backend is a library. *)
Definition executing {E A} (undeclared : E) (wrap : NativeProbeError → E) (backend : RegisteredBackend L)
    (call : L → Sys S E A) : Sys S E A :=
  if negb (declares_execute backend) then sys_fail undeclared
  else match backend.(RegisteredBackend.access) with
       | LoadedBackendAccess.Library library => call library.(LoadedLibrary.handle)
       | LoadedBackendAccess.Executable => sys_fail (wrap NativeProbeError.LibraryRequired)
       end.

Definition mount_native (e : NativeProbeError) : MountWriteError := MountWriteError.Native (native_text e).

Definition check_linear_lv_support (backend : RegisteredBackend L) : Sys S LvmWriteError unit :=
  executing LvmWriteError.ExecutionNotDeclared lvm_native backend (λ library,
    sys_map_err lvm_native (library_linear_support library)).

Definition create_linear_lv (backend : RegisteredBackend L) (request : LinearLvRequest)
    : Sys S LvmWriteError string :=
  executing LvmWriteError.ExecutionNotDeclared lvm_native backend (λ library,
    library_create_lv library request).

Definition check_lv_activation_support (backend : RegisteredBackend L) : Sys S LvmWriteError unit :=
  executing LvmWriteError.ExecutionNotDeclared lvm_native backend (λ library,
    sys_map_err lvm_native (library_activation_support library)).

Definition activate_lv (backend : RegisteredBackend L) (request : LvActivationRequest)
    : Sys S LvmWriteError unit :=
  executing LvmWriteError.ExecutionNotDeclared lvm_native backend (λ library,
    library_activate_lv library request).

Definition check_ext4_mount_support (backend : RegisteredBackend L) : Sys S MountWriteError unit :=
  executing MountWriteError.ExecutionNotDeclared mount_native backend (λ library,
    sys_map_err mount_native (library_mount_support library)).

Definition mount_ext4 (backend : RegisteredBackend L) (source target : N) : Sys S MountWriteError unit :=
  let* _ := check_ext4_mount_support backend in
  let* source_stat := sys_map_err MountWriteError.Io (fstat source) in
  if negb (is_block_device source_stat) then sys_fail MountWriteError.Endpoint
  else
    let* target_stat := sys_map_err MountWriteError.Io (fstat target) in
    if negb (is_dir target_stat) then sys_fail MountWriteError.Endpoint
    else match backend.(RegisteredBackend.access) with
         | LoadedBackendAccess.Library library =>
             sys_map_err mount_native (library_mount_ext4 library.(LoadedLibrary.handle) source target)
         | LoadedBackendAccess.Executable => sys_fail (mount_native NativeProbeError.LibraryRequired)
         end.

Definition create_ext4 (backend : RegisteredBackend L) (device : N) (request : Ext4CreateRequest)
    : Sys S FilesystemWriteError string :=
  executing FilesystemWriteError.ExecutionNotDeclared fs_native backend (λ library,
    library_create_ext4 library device request).

Definition check_ext4_create_support (backend : RegisteredBackend L) : Sys S FilesystemWriteError unit :=
  executing FilesystemWriteError.ExecutionNotDeclared fs_native backend (λ library,
    sys_map_err fs_native (library_ext4_support library)).
End writes.

(** ** Adapters ([native_lvm.rs], [native_ext4.rs], [native_mount.rs], [native_storage.rs]) *)

Module NativeStorageAdapter.
Record NativeStorageAdapter (L : Type) := mk {
  lvm : RegisteredBackend L; filesystems : RegisteredBackend L; mounts : RegisteredBackend L }.
Arguments mk {L} lvm filesystems mounts.
Arguments lvm {L} n.
Arguments filesystems {L} n.
Arguments mounts {L} n.
End NativeStorageAdapter.
Abbreviation NativeStorageAdapter := NativeStorageAdapter.NativeStorageAdapter.

(** [NativeDispatcher] of [native/owned.rs] *)
Module NativeDispatcher.
Record NativeDispatcher (L : Type) := mk {
  registry : BackendRegistry L; lvm : BackendId; filesystems : BackendId; mounts : BackendId }.
Arguments mk {L} registry lvm filesystems mounts.
Arguments registry {L} n.
Arguments lvm {L} n.
Arguments filesystems {L} n.
Arguments mounts {L} n.
End NativeDispatcher.
Abbreviation NativeDispatcher := NativeDispatcher.NativeDispatcher.

Section adapters.
Context {S L : Type} `{Loader S L, LvmPlugin S L, FsPlugin S L, MountLibrary S L, Descriptors S, AdapterText}.
Context `{UuidText}.

Abbreviation adapting A := (Sys S DispatchError A) (only parsing).

Definition backend_name (backend : RegisteredBackend L) : BackendId :=
  backend.(RegisteredBackend.manifest).(BackendManifest.id).

(** [map_err(|error| DispatchError::Adapter(error.to_string()))] *)
Definition adapted {E A} (text : E → string) (m : Sys S E A) : adapting A :=
  sys_map_err (λ e, DispatchError.Adapter (text e)) m.

Definition refused {A} (message : string) : adapting A := sys_fail (DispatchError.Adapter message).

Definition succeeded (lv filesystem : option string) : ExecutionReceipt :=
  ExecutionReceipt.mk BackendOutcome.Succeeded lv filesystem.

(** The answer of a support check. *)
Definition supported {E} (text : E → string) (backend : RegisteredBackend L) (check : Sys S E unit)
    : S → S * OperationAvailability := λ s,
  let '(s, r) := check s in
  (s, match r with
      | Ok _ => OperationAvailability.Available (backend_name backend)
      | Err e => OperationAvailability.Unavailable (text e)
      end).

(** [NativeLvmAdapter::availability] *)
Definition lvm_availability (backend : RegisteredBackend L) (operation : ProviderAction)
    : S → S * OperationAvailability :=
  match operation with
  | ProviderAction.Lvm (LvmAction.CreateLv _ _ _ _ LvmLvKind.Linear) =>
      supported lvm_write_text backend (check_linear_lv_support backend)
  | ProviderAction.Lvm (LvmAction.SetActivation _ true) =>
      supported lvm_write_text backend (check_lv_activation_support backend)
  | _ => λ s, (s, OperationAvailability.Unavailable
      "native adapter supports only linear CreateLv and verified LV activation")
  end.

(** [NativeLvmAdapter::execute] *)
Definition lvm_execute (backend : RegisteredBackend L) (action : ResolvedAction) : adapting ExecutionReceipt :=
  if bool_decide (action.(ResolvedAction.backend) ≠ backend_name backend)
  then refused "native backend mismatch"
  else
    let target := action.(ResolvedAction.target) in
    match action.(ResolvedAction.operation) with
    | ProviderAction.Lvm (LvmAction.CreateLv _ _ name size LvmLvKind.Linear) =>
        let* request := adapted lvm_write_text (sys_of (linear_lv_request target.(ResolvedTarget.vg_name)
                          target.(ResolvedTarget.vg_uuid) name size)) in
        let* uuid := adapted lvm_write_text (create_linear_lv backend request) in
        sys_return (succeeded (Some uuid) None)
    | ProviderAction.Lvm (LvmAction.SetActivation _ true) =>
        let* lv := sys_of (ok_or action.(ResolvedAction.lv_target)
                     (DispatchError.Adapter "activation requires a verified LV endpoint")) in
        let* request := adapted lvm_write_text (sys_of (lv_activation_request target.(ResolvedTarget.vg_name)
                          target.(ResolvedTarget.vg_uuid) lv.(ResolvedLvTarget.lv_name)
                          lv.(ResolvedLvTarget.lv_uuid) lv.(ResolvedLvTarget.size))) in
        let* _ := adapted lvm_write_text (activate_lv backend request) in
        sys_return (succeeded None None)
    | _ => refused "unsupported native LVM operation"
    end.

(** The label a native ext4 accepts. *)
Definition native_label (label : option string) : bool :=
  is_none_or (λ label, negb (bool_decide (label = "")) && (String.length label <=? 16)%nat
                       && negb (string_contains_byte 0 label)) label.

(** [NativeExt4Adapter::availability] *)
Definition ext4_availability (backend : RegisteredBackend L) (operation : ProviderAction)
    : S → S * OperationAvailability := λ s,
  let unsupported := (s, OperationAvailability.Unavailable
    "native filesystem adapter supports only narrow ext4 creation") in
  match operation with
  | ProviderAction.Filesystem (FilesystemAction.Create _ _ FilesystemKind.Ext4 label) =>
      if native_label label
      then supported filesystem_write_text backend (check_ext4_create_support backend) s
      else unsupported
  | _ => unsupported
  end.

(** The part of [NativeExt4Adapter::execute] from the new identity on. *)
Definition ext4_create (backend : RegisteredBackend L) (target : ResolvedLvTarget) (vg_uuid : string)
    (label : option string) (uuid : string) : adapting ExecutionReceipt :=
  let* request := adapted filesystem_write_text
    (sys_of (ext4_create_request target.(ResolvedLvTarget.size) uuid label)) in
  let* endpoint := adapted endpoint_text (open_endpoint target vg_uuid) in
  let* uuid := adapted filesystem_write_text
    (create_ext4 backend endpoint.(LvBlockEndpoint.file) request) in
  let* _ := adapted endpoint_text (recheck endpoint) in
  sys_return (succeeded None (Some uuid)).

(** [NativeExt4Adapter::execute] *)
Definition ext4_execute (backend : RegisteredBackend L) (action : ResolvedAction) : adapting ExecutionReceipt :=
  if bool_decide (action.(ResolvedAction.backend) ≠ backend_name backend)
  then refused "native filesystem backend mismatch"
  else match action.(ResolvedAction.operation) with
       | ProviderAction.Filesystem (FilesystemAction.Create _ _ FilesystemKind.Ext4 label) =>
           let* target := sys_of (ok_or action.(ResolvedAction.lv_target)
                            (DispatchError.Adapter "ext4 requires a verified LV endpoint")) in
           λ s, ext4_create backend target action.(ResolvedAction.target).(ResolvedTarget.vg_uuid) label
                  (hyphenated (now_v7 s)) s
       | _ => refused "unsupported native filesystem operation"
       end.

(** [NativeMountAdapter::availability] *)
Definition mount_availability (backend : RegisteredBackend L) (operation : ProviderAction)
    : S → S * OperationAvailability :=
  if negb (is_ext4_host_mount operation)
  then λ s, (s, OperationAvailability.Unavailable "native mount supports only the fixed Host ext4 recipe")
  else supported mount_write_text backend (check_ext4_mount_support backend).

(** [NativeMountAdapter::execute] *)
Definition mount_execute (backend : RegisteredBackend L) (action : ResolvedAction) : adapting ExecutionReceipt :=
  if bool_decide (action.(ResolvedAction.backend) ≠ backend_name backend)
     || negb (is_ext4_host_mount action.(ResolvedAction.operation))
     || negb (bool_decide (is_Some action.(ResolvedAction.filesystem_target)))
  then refused "unresolved Host ext4 mount"
  else match action.(ResolvedAction.operation) with
       | ProviderAction.Mount (MountAction.Mount _ target _ _) =>
           let* lv := sys_of (ok_or action.(ResolvedAction.lv_target)
                        (DispatchError.Adapter "missing mount backing LV")) in
           let* source := adapted endpoint_text
             (open_endpoint lv action.(ResolvedAction.target).(ResolvedTarget.vg_uuid)) in
           let* directory := adapted endpoint_text (open_mount_target target) in
           let* _ := adapted mount_write_text
             (mount_ext4 backend source.(LvBlockEndpoint.file) directory) in
           let* _ := adapted endpoint_text (recheck source) in
           sys_return (succeeded None None)
       | _ => refused "unsupported mount"
       end.

(** [NativeStorageAdapter::new]; an error is its text. *)
Definition storage_adapter (lvm filesystems mounts : RegisteredBackend L)
    : Sys S string (NativeStorageAdapter L) :=
  let* _ := sys_map_err lvm_write_text (check_linear_lv_support lvm) in
  let* _ := sys_map_err filesystem_write_text (check_ext4_create_support filesystems) in
  let* _ := sys_map_err mount_write_text (check_ext4_mount_support mounts) in
  sys_return (NativeStorageAdapter.mk lvm filesystems mounts).

Definition storage_availability (adapter : NativeStorageAdapter L) (operation : ProviderAction)
    : S → S * OperationAvailability :=
  match operation with
  | ProviderAction.Filesystem _ => ext4_availability adapter.(NativeStorageAdapter.filesystems) operation
  | ProviderAction.Mount _ => mount_availability adapter.(NativeStorageAdapter.mounts) operation
  | _ => lvm_availability adapter.(NativeStorageAdapter.lvm) operation
  end.

Definition storage_backend_for (adapter : NativeStorageAdapter L) (operation : ProviderAction) : BackendId :=
  match operation with
  | ProviderAction.Filesystem _ => backend_name adapter.(NativeStorageAdapter.filesystems)
  | ProviderAction.Mount _ => backend_name adapter.(NativeStorageAdapter.mounts)
  | _ => backend_name adapter.(NativeStorageAdapter.lvm)
  end.

Definition storage_execute (adapter : NativeStorageAdapter L) (action : ResolvedAction)
    : adapting ExecutionReceipt :=
  if bool_decide (action.(ResolvedAction.backend) ≠ storage_backend_for adapter action.(ResolvedAction.operation))
  then refused "admitted backend differs from the configured native route"
  else match action.(ResolvedAction.operation) with
       | ProviderAction.Filesystem _ => ext4_execute adapter.(NativeStorageAdapter.filesystems) action
       | ProviderAction.Mount _ => mount_execute adapter.(NativeStorageAdapter.mounts) action
       | _ => lvm_execute adapter.(NativeStorageAdapter.lvm) action
       end.

(** ** The dispatcher of an application ([native/owned.rs]) *)

(** [NativeDispatcher::adapter] *)
Definition dispatcher_adapter (d : NativeDispatcher L) : Sys S string (NativeStorageAdapter L) :=
  let registry := d.(NativeDispatcher.registry) in
  let* lvm := sys_of (required_backend registry d.(NativeDispatcher.lvm)) in
  let* filesystems := sys_of (required_backend registry d.(NativeDispatcher.filesystems)) in
  let* mounts := sys_of (required_backend registry d.(NativeDispatcher.mounts)) in
  storage_adapter lvm filesystems mounts.

(** [NativeDispatcher::backend_for] *)
Definition dispatcher_backend_for (d : NativeDispatcher L) (operation : ProviderAction) : BackendId :=
  match operation with
  | ProviderAction.Filesystem _ => d.(NativeDispatcher.filesystems)
  | ProviderAction.Mount _ => d.(NativeDispatcher.mounts)
  | _ => d.(NativeDispatcher.lvm)
  end.

(** [NativeDispatcher::execute] *)
Definition dispatcher_execute (d : NativeDispatcher L) (action : ResolvedAction) : adapting ExecutionReceipt :=
  let* adapter := adapted id (dispatcher_adapter d) in
  storage_execute adapter action.

(** [NativeCapabilities::availability] *)
Definition dispatcher_availability (d : NativeDispatcher L) (operation : ProviderAction)
    (observed : LiveObservation) : S → S * OperationAvailability := λ s,
  match dispatcher_adapter d s with
  | (s, Ok adapter) => storage_availability adapter operation s
  | (s, Err error) => (s, OperationAvailability.Unavailable error)
  end.

(** The dispatcher never reports progress. *)
Definition native_backend_dispatcher (d : NativeDispatcher L) : BackendDispatcher S := {|
  backend_for := λ _, dispatcher_backend_for d;
  execute := λ action s, let '(s, r) := dispatcher_execute d action s in Done s r |}.

(** The dispatcher [open_with_policy] configures. *)
Definition native_dispatcher (registry : BackendRegistry L) : Sys S string (NativeDispatcher L) :=
  let* lvm := sys_of (required_backend registry "lvm") in
  let* filesystems := sys_of (required_backend registry "filesystems") in
  let* mounts := sys_of (required_backend registry "libmount-mounts") in
  let d := NativeDispatcher.mk registry (backend_name lvm) (backend_name filesystems) (backend_name mounts) in
  let* _ := dispatcher_adapter d in
  sys_return d.
End adapters.

(** ** The native writes of a machine *)

Inductive NativeWrite :=
| Lvcreate (vg lv : string) (size : N) (segment_type : string)
| Lvactivate (vg lv : string) (ignore_skip shared : Z)
| Mkfs (path fstype : string) (options : MkfsOptionsRaw)
| ContextMount (settings : list (string * (string + Z))).

(** A call that makes no native write. *)
Definition silent {S A} (writes : S → list NativeWrite) (call : S → S * A) : Prop :=
  ∀ s, writes (call s).1 = writes s.

(** The history of the mutating calls, and what was set on a mount context:
    only the four mutators extend the history, a new context has no settings,
    and an accepted setter adds its own. *)
Class NativeLaws (S L : Type) `{LvmPlugin S L, FsPlugin S L, MountLibrary S L, Descriptors S} := {
  writes : S → list NativeWrite;
  settings : S → N → list (string * (string + Z));
  lvm_init_silent library : silent writes (bd_lvm_init library);
  lvm_close_silent library s : writes (bd_lvm_close library s) = writes s;
  lvm_tech_silent library tech mode : silent writes (bd_lvm_is_tech_avail library tech mode);
  lvm_pvs_silent library : silent writes (bd_lvm_pvs library);
  lvm_vgs_silent library : silent writes (bd_lvm_vgs library);
  lvm_lvs_silent library vg : silent writes (bd_lvm_lvs library vg);
  lvcreate_writes library vg lv size segments s :
    writes (bd_lvm_lvcreate library vg lv size segments s).1 = writes s ++ [Lvcreate vg lv size segments];
  lvactivate_writes library vg lv skip shared s :
    writes (bd_lvm_lvactivate library vg lv skip shared s).1 = writes s ++ [Lvactivate vg lv skip shared];
  fs_init_silent library : silent writes (bd_fs_init library);
  fs_close_silent library s : writes (bd_fs_close library s) = writes s;
  fs_tech_silent library tech mode : silent writes (bd_fs_is_tech_avail library tech mode);
  fs_can_silent library fstype : silent writes (bd_fs_can_mkfs library fstype);
  fs_features_silent library fstype : silent writes (bd_fs_features library fstype);
  fs_type_silent library path : silent writes (bd_fs_get_fstype library path);
  fs_info_silent library path : silent writes (bd_fs_ext4_get_info library path);
  mkfs_writes library path fstype options s :
    writes (bd_fs_mkfs library path fstype options s).1 = writes s ++ [Mkfs path fstype options];
  new_context_silent library : silent writes (mnt_new_context library);
  free_context_silent library context s : writes (mnt_free_context library context s) = writes s;
  set_text_silent library symbol context text : silent writes (mnt_set_text library symbol context text);
  set_flag_silent library symbol context value : silent writes (mnt_set_flag library symbol context value);
  query_silent library symbol context : silent writes (mnt_query library symbol context);
  mount_writes library context s :
    writes (mnt_context_mount library context s).1 = writes s ++ [ContextMount (settings s context)];
  new_context_settings library s context : (mnt_new_context library s).2 = Some context →
    settings (mnt_new_context library s).1 context = [];
  set_text_settings library symbol context text s : (mnt_set_text library symbol context text s).2 = 0%Z →
    settings (mnt_set_text library symbol context text s).1 context =
    settings s context ++ [(symbol, inl text)];
  set_flag_settings library symbol context value s : (mnt_set_flag library symbol context value s).2 = 0%Z →
    settings (mnt_set_flag library symbol context value s).1 context =
    settings s context ++ [(symbol, inr value)];
  open_path_silent path : silent writes (open_path path);
  reopen_silent path : silent writes (reopen path);
  fstat_silent fd : silent writes (fstat fd);
  seek_silent fd : silent writes (seek_end fd);
  blkssz_silent fd : silent writes (blksszget fd);
  blkpbsz_silent fd : silent writes (blkpbszget fd);
  read_silent path : silent writes (read_to_string path);
  directory_silent path : silent writes (open_directory path);
  entry_silent path : silent writes (has_entry path);
  sync_silent fd : silent writes (sync_all fd) }.

Create HintDb silent.
#[export] Hint Resolve lvm_init_silent lvm_close_silent lvm_tech_silent lvm_pvs_silent lvm_vgs_silent
  lvm_lvs_silent fs_init_silent fs_close_silent fs_tech_silent fs_can_silent fs_features_silent fs_type_silent
  fs_info_silent new_context_silent free_context_silent set_text_silent set_flag_silent query_silent
  open_path_silent reopen_silent fstat_silent seek_silent blkssz_silent blkpbsz_silent read_silent
  directory_silent entry_silent sync_silent : silent.

Section silent.
Context {S L : Type} `{Loader S L, LvmPlugin S L, FsPlugin S L, MountLibrary S L, Descriptors S}.
Context `{!NativeLaws S L, AdapterText, UuidText}.

Abbreviation quietly m := (silent writes m) (only parsing).

Lemma silent_bind {E A B} (m : Sys S E A) (k : A → Sys S E B) :
  quietly m → (∀ a, quietly (k a)) → quietly (sys_bind m k).
Proof.
  intros Hm Hk s. unfold sys_bind. specialize (Hm s). destruct (m s) as [s' [a|e]]; simpl in *; [|done].
  by rewrite (Hk a s').
Qed.
Lemma silent_pure {E A} (f : S → result A E) : quietly (λ s, (s, f s)).
Proof. by intros s. Qed.
Lemma silent_of {E A} (r : result A E) : quietly (sys_of r).
Proof. by intros s. Qed.
Lemma silent_fail {E A} (e : E) : quietly (sys_fail (A:=A) e).
Proof. by intros s. Qed.
Lemma silent_return {E A} (a : A) : quietly (sys_return (E:=E) a).
Proof. by intros s. Qed.
Lemma silent_reader {A B} (f : S → A) (m : A → S → S * B) : (∀ a, quietly (m a)) → quietly (λ s, m (f s) s).
Proof. intros Hm s. apply Hm. Qed.
Lemma silent_map_err {E F A} (f : E → F) (m : Sys S E A) : quietly m → quietly (sys_map_err f m).
Proof. intros Hm s. unfold sys_map_err. specialize (Hm s). by destruct (m s). Qed.
Lemma silent_native_call {A} operation (call : S → S * (option Z * A)) :
  quietly call → quietly (native_call operation call).
Proof. intros Hc s. unfold native_call. specialize (Hc s). by destruct (call s) as [s' [error a]]. Qed.
Lemma silent_check_zero operation (call : S → S * Z) : quietly call → quietly (check_zero operation call).
Proof. intros Hc s. unfold check_zero. specialize (Hc s). by destruct (call s). Qed.
Lemma silent_if {A} (b : bool) (m m' : S → S * A) : quietly m → quietly m' → quietly (if b then m else m').
Proof. by destruct b. Qed.
End silent.

#[export] Hint Resolve silent_pure silent_of silent_fail silent_return : silent.

(** A computation is silent when its calls are. *)
Ltac silence :=
  repeat first
    [ progress intros
    | solve [eauto with silent]
    | apply silent_bind | apply silent_map_err | apply silent_native_call | apply silent_check_zero
    | match goal with |- silent _ (match ?x with _ => _ end) => destruct x end ].

Section reads.
Context {S L : Type} `{Loader S L, LvmPlugin S L, FsPlugin S L, MountLibrary S L, Descriptors S}.
Context `{!NativeLaws S L, AdapterText, UuidText}.

Abbreviation quietly m := (silent writes m) (only parsing).

Lemma boolean_call_silent operation (call : S → S * (option Z * bool)) :
  quietly call → quietly (boolean_call operation call).
Proof. intros Hc. unfold boolean_call. silence. Qed.
#[local] Hint Resolve boolean_call_silent : silent.

Lemma read_state_silent library : quietly (read_state library).
Proof.
  assert (∀ vgs, quietly (read_groups library vgs)) as Hgroups.
  { induction vgs as [|vg vgs IH]; simpl; [|unfold read_lvs]; silence. }
  unfold read_state, read_pvs, read_vgs. silence.
Qed.
#[local] Hint Resolve read_state_silent : silent.

Lemma check_technology_silent library mode : quietly (check_technology library mode).
Proof. unfold check_technology. silence. Qed.
#[local] Hint Resolve check_technology_silent : silent.

Lemma lvm_session_silent {E A} (wrap : NativeProbeError → E) library symbols (body : Sys S E A) :
  quietly body → quietly (lvm_session wrap library symbols body).
Proof.
  intros Hb s. unfold lvm_session. destruct (lvm_poisoned s); [done|]. destruct (try_all _ _); [|done].
  pose proof (lvm_init_silent library s) as Hi. destruct (bd_lvm_init library s) as [s1 []]; simpl in *; [|done].
  specialize (Hb s1). destruct (body s1) as [s2 r]; simpl in *. rewrite lvm_close_silent. congruence.
Qed.

Lemma fs_session_silent {E A} (wrap : NativeProbeError → E) library (body : Sys S E A) :
  quietly body → quietly (fs_session wrap library body).
Proof.
  intros Hb s. unfold fs_session. destruct (fs_poisoned s); [done|]. destruct (try_all _ _); [|done].
  pose proof (fs_init_silent library s) as Hi. destruct (bd_fs_init library s) as [s1 []]; simpl in *; [|done].
  specialize (Hb s1). destruct (body s1) as [s2 r]; simpl in *. rewrite fs_close_silent. congruence.
Qed.

Lemma set_flags_silent library context flags : quietly (set_flags library context flags).
Proof. induction flags as [|flag flags IH]; simpl; silence. Qed.

Lemma in_context_silent {A} library (body : N → Sys S NativeProbeError A) :
  (∀ context, quietly (body context)) → quietly (in_context library body).
Proof.
  intros Hb s. unfold in_context. destruct (try_all _ _); [|done].
  pose proof (new_context_silent library s) as Hn.
  destruct (mnt_new_context library s) as [s1 [context|]]; cbn [fst] in *; [|done].
  set (m := let* _ := set_flags library context context_flags in body context).
  assert (quietly m) as Hm by (apply silent_bind; [apply set_flags_silent|done]).
  specialize (Hm s1). destruct (m s1) as [s2 r]; cbn [fst] in *. rewrite free_context_silent. congruence.
Qed.

Lemma ext4_support_silent library : quietly (ext4_support library).
Proof. unfold ext4_support. silence. Qed.
#[local] Hint Resolve ext4_support_silent : silent.

Lemma read_type_silent library path : quietly (read_type library path).
Proof. unfold read_type. silence. Qed.
#[local] Hint Resolve read_type_silent : silent.

Lemma read_back_silent library request path : quietly (read_back library request path).
Proof. unfold read_back. silence. Qed.

Lemma executing_silent {E A} (undeclared : E) wrap (backend : RegisteredBackend L) (call : L → Sys S E A) :
  (∀ library, quietly (call library)) → quietly (executing undeclared wrap backend call).
Proof. intros Hc. unfold executing. silence. Qed.

Lemma check_linear_lv_support_silent backend : quietly (check_linear_lv_support backend).
Proof. apply executing_silent. intros library. apply silent_map_err, lvm_session_silent. silence. Qed.
Lemma check_lv_activation_support_silent backend : quietly (check_lv_activation_support backend).
Proof. apply executing_silent. intros library. apply silent_map_err, lvm_session_silent. silence. Qed.
Lemma check_ext4_create_support_silent backend : quietly (check_ext4_create_support backend).
Proof. apply executing_silent. intros library. apply silent_map_err, fs_session_silent. silence. Qed.
Lemma check_ext4_mount_support_silent backend : quietly (check_ext4_mount_support backend).
Proof. apply executing_silent. intros library. apply silent_map_err, in_context_silent. silence. Qed.

Lemma recheck_silent endpoint : quietly (recheck endpoint).
Proof.
  unfold recheck. silence. intros s. unfold physical_size_differs.
  destruct (BlockGeometry.physical_block_size _) as [size|].
  - pose proof (blkpbsz_silent (LvBlockEndpoint.file endpoint) s) as Hp.
    destruct (blkpbszget _ s) as [s1 [actual|e]]; simpl in *; [|done].
    destruct (negb _); [done|]. rewrite <- Hp. revert s1 Hp. intros s1 _. cbv zeta.
    match goal with |- writes (?m s1).1 = _ => enough (quietly m) as Hm by apply Hm end. silence.
  - cbv zeta. match goal with |- writes (?m s).1 = _ => enough (quietly m) as Hm by apply Hm end. silence.
Qed.
#[local] Hint Resolve recheck_silent : silent.

Lemma open_endpoint_silent target vg_uuid : quietly (open_endpoint target vg_uuid).
Proof. unfold open_endpoint. silence. Qed.

Lemma open_mount_target_silent target : quietly (open_mount_target target).
Proof. unfold open_mount_target. silence. Qed.

Lemma check_descriptor_silent request device : quietly (check_descriptor request device).
Proof. unfold check_descriptor. silence. Qed.
End reads.

#[export] Hint Resolve boolean_call_silent read_state_silent check_technology_silent ext4_support_silent
  read_type_silent read_back_silent check_linear_lv_support_silent check_lv_activation_support_silent
  check_ext4_create_support_silent check_ext4_mount_support_silent recheck_silent open_endpoint_silent
  open_mount_target_silent check_descriptor_silent set_flags_silent : silent.

(** ** At most one write *)

Section attempt.
Context {S L : Type} `{Loader S L, LvmPlugin S L, FsPlugin S L, MountLibrary S L, Descriptors S}.
Context `{!NativeLaws S L, AdapterText, UuidText}.

Abbreviation quietly m := (silent writes m) (only parsing).

(** With a history of writes, a call gave an answer. *)
Definition answered {E A} (m : Sys S E A) (history : list NativeWrite) (a : A) : Prop :=
  ∃ s, writes s = history ∧ (m s).2 = Ok a.

Lemma answered_now {E A} (m : Sys S E A) s s' a history :
  m s = (s', Ok a) → writes s = history → answered m history a.
Proof. intros Hm Hs. exists s. by rewrite Hm. Qed.

(** Exactly one write on success and at most one otherwise; [guard] relates it
    to the history before it, and [evidence] the result to both. *)
Definition attempt {E A} (guard : NativeWrite → list NativeWrite → Prop)
    (evidence : A → NativeWrite → list NativeWrite → Prop) (m : Sys S E A) (s : S) : Prop :=
  outcome m s
    (λ a s', ∃ w, writes s' = writes s ++ [w] ∧ guard w (writes s) ∧ evidence a w (writes s))
    (λ _ s', writes s' = writes s ∨ ∃ w, writes s' = writes s ++ [w] ∧ guard w (writes s)).

Lemma attempt_mono {E A} (guard guard' : NativeWrite → list NativeWrite → Prop)
    (evidence evidence' : A → NativeWrite → list NativeWrite → Prop) (m : Sys S E A) s :
  attempt guard evidence m s → (∀ w, guard w (writes s) → guard' w (writes s)) →
  (∀ a w, guard w (writes s) → evidence a w (writes s) → evidence' a w (writes s)) →
  attempt guard' evidence' m s.
Proof.
  intros Hm Hg He. eapply outcome_mono; [exact Hm|..]; simpl.
  - intros a s' (w & Hw & Hgw & Hev). exists w. split_and!; auto.
  - intros e s' [Hs|(w & Hw & Hgw)]; [by left|]. right. exists w. auto.
Qed.

Lemma attempt_fail {E A} guard evidence (e : E) s : attempt (A:=A) guard evidence (sys_fail e) s.
Proof. by left. Qed.

Lemma attempt_map_err {E F A} guard evidence (f : E → F) (m : Sys S E A) s :
  attempt guard evidence m s → attempt guard evidence (sys_map_err f m) s.
Proof. intros Hm. by apply outcome_map_err. Qed.

Lemma attempt_after {E A B} guard evidence (m : Sys S E A) (k : A → Sys S E B) s :
  quietly m → (∀ a s', m s = (s', Ok a) → writes s' = writes s → attempt guard evidence (k a) s') →
  attempt guard evidence (sys_bind m k) s.
Proof.
  intros Hm Hk. apply outcome_bind. specialize (Hm s). unfold outcome at 1.
  destruct (m s) as [s' [a|e]]; simpl in Hm; [|by left].
  specialize (Hk a s' eq_refl Hm). unfold attempt in Hk. by rewrite Hm in Hk.
Qed.

Lemma attempt_of {E A B} guard evidence (r : result A E) (k : A → Sys S E B) s :
  (∀ a, r = Ok a → attempt guard evidence (k a) s) → attempt guard evidence (sys_bind (sys_of r) k) s.
Proof.
  intros Hk. apply attempt_after; [apply silent_of|]. intros a s' [= <- Ha] _. auto.
Qed.

Lemma attempt_reader {E A X} guard evidence (f : S → X) (m : X → Sys S E A) s :
  attempt guard evidence (m (f s)) s → attempt guard evidence (λ s, m (f s) s) s.
Proof. done. Qed.

(** The write itself, and what reads back its effect. *)
Lemma attempt_write {E A B} guard (evidence : B → NativeWrite → list NativeWrite → Prop) (m : Sys S E A)
    (k : A → Sys S E B) w s :
  writes (m s).1 = writes s ++ [w] → guard w (writes s) → (∀ a, quietly (k a)) →
  (∀ a b s1 s2, m s = (s1, Ok a) → k a s1 = (s2, Ok b) → writes s1 = writes s ++ [w] →
     evidence b w (writes s)) →
  attempt guard evidence (sys_bind m k) s.
Proof.
  intros Hw Hg Hk He. apply outcome_bind. unfold outcome at 1.
  destruct (m s) as [s1 [a|e]]; simpl in Hw; [|by right; eauto].
  specialize (Hk a s1). specialize (He a). unfold outcome. destruct (k a s1) as [s2 [b|e]] eqn:Hb; simpl in Hk.
  - exists w. split_and!; [congruence|done|by eapply He].
  - right. exists w. split_and!; [congruence|done].
Qed.

Lemma attempt_then {E A B} guard evidence (evidence' : B → NativeWrite → list NativeWrite → Prop)
    (m : Sys S E A) (k : A → Sys S E B) s :
  attempt guard evidence m s → (∀ a, quietly (k a)) →
  (∀ a b w t t', k a t = (t', Ok b) → writes t = writes s ++ [w] → evidence a w (writes s) →
     evidence' b w (writes s)) →
  attempt guard evidence' (sys_bind m k) s.
Proof.
  intros Hm Hk He. apply outcome_bind. eapply outcome_mono; [exact Hm| |by auto]. simpl.
  intros a s' (w & Hw & Hgw & Hev). specialize (Hk a s'). specialize (He a).
  unfold outcome. destruct (k a s') as [t [b|e]] eqn:Hb; simpl in Hk.
  - exists w. split_and!; [congruence|done|by eapply He].
  - right. exists w. split_and!; [congruence|done].
Qed.

Lemma attempt_lvm_session {E A} guard evidence (wrap : NativeProbeError → E) library symbols
    (body : Sys S E A) s :
  (∀ s', writes s' = writes s → attempt guard evidence body s') →
  attempt guard evidence (lvm_session wrap library symbols body) s.
Proof.
  intros Hb. unfold attempt, outcome, lvm_session. destruct (lvm_poisoned s); [by left|].
  destruct (try_all _ _) as [[]|]; [|by left]. pose proof (lvm_init_silent library s) as Hi.
  destruct (bd_lvm_init library s) as [s' []]; simpl in Hi; [|by left].
  specialize (Hb s' Hi). unfold attempt, outcome in Hb. destruct (body s') as [t [a|e]];
    rewrite lvm_close_silent, <- Hi; exact Hb.
Qed.

Lemma attempt_fs_session {E A} guard evidence (wrap : NativeProbeError → E) library (body : Sys S E A) s :
  (∀ s', writes s' = writes s → attempt guard evidence body s') →
  attempt guard evidence (fs_session wrap library body) s.
Proof.
  intros Hb. unfold attempt, outcome, fs_session. destruct (fs_poisoned s); [by left|].
  destruct (try_all _ _) as [[]|]; [|by left]. pose proof (fs_init_silent library s) as Hi.
  destruct (bd_fs_init library s) as [s' []]; simpl in Hi; [|by left].
  specialize (Hb s' Hi). unfold attempt, outcome in Hb. destruct (body s') as [t [a|e]];
    rewrite fs_close_silent, <- Hi; exact Hb.
Qed.

Lemma attempt_executing {E A} guard evidence (undeclared : E) wrap (backend : RegisteredBackend L)
    (call : L → Sys S E A) s :
  (∀ library, declares_execute backend = true →
     backend.(RegisteredBackend.access) = LoadedBackendAccess.Library library →
     attempt guard evidence (call library.(LoadedLibrary.handle)) s) →
  attempt guard evidence (executing undeclared wrap backend call) s.
Proof.
  intros Hc. unfold executing. destruct (declares_execute backend); simpl; [|apply attempt_fail].
  destruct backend.(RegisteredBackend.access) as [library|] eqn:Ha; [by apply Hc|apply attempt_fail].
Qed.
End attempt.

(** ** The recipes *)

Section recipes.
Context {S L : Type} `{Loader S L, LvmPlugin S L, FsPlugin S L, MountLibrary S L, Descriptors S}.
Context `{!NativeLaws S L, AdapterText, UuidText}.

Lemma boolean_call_writes operation (call : S → S * (option Z * bool)) w s :
  writes (call s).1 = writes s ++ [w] → writes (boolean_call operation call s).1 = writes s ++ [w].
Proof.
  unfold boolean_call, native_call, sys_bind. destruct (call s) as [s' [[code|] [|]]]; done.
Qed.

Lemma map_err_writes {E F A} (f : E → F) (m : Sys S E A) s : writes (sys_map_err f m s).1 = writes (m s).1.
Proof. unfold sys_map_err. by destruct (m s). Qed.

Lemma map_err_Ok {E F A} (f : E → F) (m : Sys S E A) s s' a :
  sys_map_err f m s = (s', Ok a) → m s = (s', Ok a).
Proof. unfold sys_map_err. destruct (m s) as [t [b|e]]; intros; by simplify_eq/=. Qed.

Lemma bind_Ok {E A B} (m : Sys S E A) (k : A → Sys S E B) s s' b :
  sys_bind m k s = (s', Ok b) → ∃ t a, m s = (t, Ok a) ∧ k a t = (s', Ok b).
Proof. unfold sys_bind. destruct (m s) as [t [a|e]]; [eauto|done]. Qed.

Lemma c_string_Ok {E} text (e : E) t : c_string text e = Ok t → t = text.
Proof. unfold c_string. destruct (string_contains_byte 0 text); congruence. Qed.

(** *** Linear volumes *)

Definition create_guard (library : L) (request : LinearLvRequest) (w : NativeWrite)
    (history : list NativeWrite) : Prop :=
  w = Lvcreate request.(LinearLvRequest.vg_name) request.(LinearLvRequest.lv_name)
        request.(LinearLvRequest.size) "linear" ∧
  ∃ before, answered (read_state library) history before ∧ check_target request before = Ok tt.

(** The identity is of the one new volume both reads agree on. *)
Definition create_evidence (library : L) (request : LinearLvRequest) (uuid : string) (w : NativeWrite)
    (history : list NativeWrite) : Prop :=
  ∃ before after lv, answered (read_state library) history before ∧
    answered (read_state library) (history ++ [w]) after ∧
    created_lv request before after lv ∧ uuid = lv.(LvmLvEntry.uuid).

Lemma library_create_lv_spec library request s :
  attempt (create_guard library request) (create_evidence library request)
    (library_create_lv library request) s.
Proof.
  apply attempt_lvm_session. intros s0 _. apply attempt_after; [silence|]. intros _ s1 _ _.
  apply attempt_after; [silence|]. intros before s2 Hb%map_err_Ok Hs2.
  apply attempt_of. intros [] Hc. pose proof (answered_now _ _ _ _ (writes s2) Hb (eq_sym Hs2)) as Hbefore.
  unfold invoke_create, c_string.
  destruct (string_contains_byte 0 request.(LinearLvRequest.vg_name)); [apply attempt_fail|].
  destruct (string_contains_byte 0 request.(LinearLvRequest.lv_name)); [apply attempt_fail|].
  eapply attempt_write.
  - rewrite map_err_writes. apply boolean_call_writes, lvcreate_writes.
  - split; [done|]. by exists before.
  - silence.
  - intros [] uuid s3 s4 _ (s5 & after & Ha%map_err_Ok & [= _ Hu])%bind_Ok Hs3.
    apply created_uuid_iff in Hu as (_ & lv & Hlv & ->). exists before, after, lv.
    split_and!; [done| |done|done]. by eapply answered_now.
Qed.

(** *** Activation *)

Definition activate_guard (library : L) (request : LvActivationRequest) (w : NativeWrite)
    (history : list NativeWrite) : Prop :=
  w = Lvactivate request.(LvActivationRequest.vg_name) request.(LvActivationRequest.lv_name) 0 0 ∧
  ∃ before lv, answered (read_state library) history before ∧ observed_lv request before = Ok lv ∧
    is_Some (activation lv).

Definition activate_evidence (library : L) (request : LvActivationRequest) (w : NativeWrite)
    (history : list NativeWrite) : Prop :=
  ∃ after lv, answered (read_state library) (history ++ [w]) after ∧ observed_lv request after = Ok lv ∧
    activation lv = Some true.

Lemma library_activate_lv_spec library request s :
  attempt (activate_guard library request) (λ _, activate_evidence library request)
    (library_activate_lv library request) s.
Proof.
  apply attempt_lvm_session. intros s0 _. apply attempt_after; [silence|]. intros _ s1 _ _.
  apply attempt_after; [silence|]. intros before s2 Hb%map_err_Ok Hs2.
  apply attempt_of. intros lv Hlv. pose proof (answered_now _ _ _ _ (writes s2) Hb (eq_sym Hs2)) as Hbefore.
  case_bool_decide as Hact; simpl; [|apply attempt_fail].
  apply attempt_of. intros _ ->%c_string_Ok. apply attempt_of. intros _ ->%c_string_Ok.
  eapply attempt_write.
  - rewrite map_err_writes. apply boolean_call_writes, lvactivate_writes.
  - split; [done|]. by exists before, lv.
  - silence.
  - intros [] [] s3 s4 _ (s5 & after & Ha%map_err_Ok & (s6 & lv' & [= _ Ho] & Hr)%bind_Ok)%bind_Ok Hs3.
    case_bool_decide; [|done]. exists after, lv'. split_and!; [by eapply answered_now|done|done].
Qed.

(** *** ext4 *)

Definition mkfs_options (request : Ext4CreateRequest) : MkfsOptionsRaw :=
  MkfsOptionsRaw.mk request.(Ext4CreateRequest.label) request.(Ext4CreateRequest.uuid) 0 1 0 0.

(** The descriptor has the requested size and no signature before the call. *)
Definition mkfs_guard (library : L) (device : N) (request : Ext4CreateRequest) (w : NativeWrite)
    (history : list NativeWrite) : Prop :=
  ∃ t path, path = descriptor_path device t ∧ w = Mkfs path "ext4" (mkfs_options request) ∧
    answered (check_descriptor request device) history tt ∧ answered (read_type library path) history None.

(** The file system was read back through the same path. *)
Definition mkfs_evidence (library : L) (device : N) (request : Ext4CreateRequest) (uuid : string)
    (w : NativeWrite) (history : list NativeWrite) : Prop :=
  uuid = request.(Ext4CreateRequest.uuid) ∧
  ∃ path, w = Mkfs path "ext4" (mkfs_options request) ∧
    answered (read_back library request path) (history ++ [w]) uuid ∧
    answered (check_descriptor request device) (history ++ [w]) tt.

Lemma read_back_uuid library request path s s' uuid :
  read_back library request path s = (s', Ok uuid) → uuid = request.(Ext4CreateRequest.uuid).
Proof.
  intros (s1 & found & _ & (s2 & fs_type & _ & Hr)%bind_Ok)%bind_Ok.
  case_bool_decide; [done|]. apply bind_Ok in Hr as (s3 & [raw|] & _ & Hr); [|done].
  destruct raw.(ExtInfoRaw.uuid) as [actual|], raw.(ExtInfoRaw.label) as [label|]; try done.
  apply bind_Ok in Hr as (s4 & actual' & _ & (s5 & label' & _ & (s6 & [] & Hc & Hr)%bind_Ok)%bind_Ok).
  injection Hc as _ Hc. apply check_ext4_result_ok in Hc as (_ & Hu & _). injection Hr as _ <-. done.
Qed.

Lemma make_filesystem_spec library device request path s :
  attempt (λ w history, w = Mkfs path "ext4" (mkfs_options request) ∧
             answered (read_type library path) history None)
    (λ uuid w history, uuid = request.(Ext4CreateRequest.uuid) ∧
       answered (read_back library request path) (history ++ [w]) uuid)
    (make_filesystem library device request path) s.
Proof.
  unfold make_filesystem. apply attempt_of. intros _ ->%c_string_Ok.
  apply attempt_after; [silence|]. intros found s1 Hf%map_err_Ok Hs1.
  case_bool_decide as Hn; [apply attempt_fail|]. apply eq_None_not_Some in Hn as ->.
  apply attempt_of. intros _ ->%c_string_Ok. apply attempt_of. intros label Hl.
  assert (label = request.(Ext4CreateRequest.label)) as ->.
  { destruct request.(Ext4CreateRequest.label) as [text|]; [|congruence].
    destruct (c_string text _) eqn:Hc; [|done]. apply c_string_Ok in Hc. congruence. }
  eapply attempt_write.
  - rewrite map_err_writes. apply boolean_call_writes, mkfs_writes.
  - split; [done|]. by eapply answered_now.
  - silence.
  - intros [] uuid s2 s3 _ (s4 & [] & Hs & Hr)%bind_Ok Hs2. split; [by eapply read_back_uuid|].
    eapply answered_now; [exact Hr|]. apply map_err_Ok in Hs.
    pose proof (sync_silent device s2) as Hq. rewrite Hs in Hq. simpl in Hq. by rewrite Hq.
Qed.

Lemma library_create_ext4_spec library device request s :
  attempt (mkfs_guard library device request) (mkfs_evidence library device request)
    (library_create_ext4 library device request) s.
Proof.
  unfold library_create_ext4. apply attempt_after; [silence|]. intros [] s1 Hd Hs1.
  assert (answered (check_descriptor request device) (writes s1) tt) as Hdesc by by eapply answered_now.
  eapply attempt_then with (evidence := λ uuid w history, uuid = request.(Ext4CreateRequest.uuid) ∧
    ∃ path, w = Mkfs path "ext4" (mkfs_options request) ∧
      answered (read_back library request path) (history ++ [w]) uuid).
  - apply attempt_fs_session. intros s2 Hs2. apply attempt_after; [silence|].
    intros sizes s3 _ Hs3. cbv zeta. destruct (_ || _); [apply attempt_fail|].
    apply (attempt_reader _ _ (descriptor_path device) (make_filesystem library device request)).
    eapply attempt_mono; [apply make_filesystem_spec|..].
    + intros w (-> & Ht). exists s3, (descriptor_path device s3). split_and!; [done|done| |done].
      by rewrite Hs3, Hs2.
    + intros uuid w (-> & _) (-> & Hr). by eauto.
  - silence.
  - intros uuid uuid' w t t' (t1 & [] & Hc & [= _ <-])%bind_Ok Ht (Hu & path & -> & Hr). split; [done|].
    exists path. split_and!; [done|done|]. by eapply answered_now.
Qed.

(** *** Mounts *)

(** What is set on a context before the one mount. *)
Definition mount_settings (source target : N) : list (string * (string + Z)) :=
  (prod_map id inr <$> context_flags) ++ (prod_map id inl <$> endpoint_texts source target).

Lemma set_flags_settings library context flags s s' :
  set_flags library context flags s = (s', Ok tt) →
  settings s' context = settings s context ++ (prod_map id inr <$> flags).
Proof.
  revert s. induction flags as [|flag flags IH]; intros s; simpl.
  - intros [= ->]. by rewrite app_nil_r.
  - intros (t & [] & Hc & Hr)%bind_Ok. rewrite (IH t Hr). unfold check_zero in Hc.
    pose proof (set_flag_settings library flag.1 context flag.2 s) as Hset.
    destruct (mnt_set_flag _ _ _ _ s) as [t' code]. simpl in *.
    destruct (code =? 0)%Z eqn:Hz; [|done]. apply Z.eqb_eq in Hz. injection Hc as ->.
    rewrite Hset by done. by destruct flag; rewrite <- app_assoc.
Qed.

Lemma set_texts_settings library context texts s s' :
  set_texts library context texts s = (s', Ok tt) →
  settings s' context = settings s context ++ (prod_map id inl <$> texts).
Proof.
  revert s. induction texts as [|text texts IH]; intros s; simpl.
  - intros [= ->]. by rewrite app_nil_r.
  - intros (t & [] & Hc & Hr)%bind_Ok. rewrite (IH t Hr). unfold check_zero in Hc.
    pose proof (set_text_settings library text.1 context text.2 s) as Hset.
    destruct (mnt_set_text _ _ _ _ s) as [t' code]. simpl in *.
    destruct (code =? 0)%Z eqn:Hz; [|done]. apply Z.eqb_eq in Hz. injection Hc as ->.
    rewrite Hset by done. by destruct text; rewrite <- app_assoc.
Qed.

Lemma set_texts_silent library context texts : silent writes (set_texts library context texts).
Proof. induction texts as [|text texts IH]; simpl; silence. Qed.

Lemma attempt_in_context {A} guard evidence library (body : N → Sys S NativeProbeError A) s :
  (∀ context s', writes s' = writes s → settings s' context = (prod_map id inr <$> context_flags) →
     attempt guard evidence (body context) s') →
  attempt guard evidence (in_context library body) s.
Proof.
  intros Hb. unfold attempt, outcome, in_context. destruct (try_all _ _) as [[]|]; [|by left].
  pose proof (new_context_silent library s) as Hn. pose proof (new_context_settings library s) as Hset.
  destruct (mnt_new_context library s) as [s1 [context|]]; cbn [fst snd] in *; [|by left].
  specialize (Hset context eq_refl).
  assert (attempt guard evidence (let* _ := set_flags library context context_flags in body context) s1) as Ha.
  { apply attempt_after; [silence|]. intros [] s2 Hf Hs2. apply Hb; [congruence|].
    by rewrite (set_flags_settings _ _ _ _ _ Hf), Hset. }
  unfold attempt, outcome in Ha. rewrite Hn in Ha.
  destruct ((let* _ := set_flags library context context_flags in body context) s1) as [s2 [a|e]];
    rewrite free_context_silent; exact Ha.
Qed.

(** libmount reports a completed mount by the kernel itself. *)
Definition mount_completed (library : L) (history : list NativeWrite) : Prop :=
  ∃ context s, writes s = history ∧ (all_statuses library context completion_checks s).2 = true.

Lemma all_statuses_silent library context checks : silent writes (all_statuses library context checks).
Proof.
  induction checks as [|check checks IH]; intros s; simpl; [done|]. unfold status_is.
  pose proof (query_silent library check.1 context s) as Hq.
  destruct (mnt_query _ _ _ s) as [s1 value]; simpl in *. destruct (value =? _)%Z; [|done].
  by rewrite IH.
Qed.

Lemma library_mount_ext4_spec library source target s :
  attempt (λ w _, w = ContextMount (mount_settings source target))
    (λ _ w history, mount_completed library (history ++ [w])) (library_mount_ext4 library source target) s.
Proof.
  apply attempt_in_context. intros context s1 Hs1 Hset.
  apply attempt_after; [apply set_texts_silent|]. intros [] s2 Ht Hs2.
  eapply attempt_write with (w := ContextMount (mount_settings source target)).
  - unfold check_zero. pose proof (mount_writes library context s2) as Hw.
    rewrite (set_texts_settings _ _ _ _ _ Ht), Hset in Hw.
    by destruct (mnt_context_mount library context s2).
  - done.
  - intros [] s3. pose proof (all_statuses_silent library context completion_checks s3) as Hq.
    by destruct (all_statuses _ _ _ s3).
  - intros [] [] s3 s4 _ Hk Hs3. exists context, s3. split; [done|].
    destruct (all_statuses _ _ _ s3) as [s5 complete]. simpl. by destruct complete.
Qed.

(** ** The admitted endpoint *)

(** A retained descriptor stands for the admitted volume: its block facts, its
    size and the device-mapper identity of its group and volume. *)
Record endpoint_for (target : ResolvedLvTarget) (vg_uuid : string) (endpoint : LvBlockEndpoint) : Prop := {
  endpoint_block : target.(ResolvedLvTarget.block) = Some endpoint.(LvBlockEndpoint.block);
  endpoint_size : endpoint.(LvBlockEndpoint.size) = target.(ResolvedLvTarget.size);
  endpoint_dm : expected_dm_uuid vg_uuid target.(ResolvedLvTarget.lv_uuid) = Ok endpoint.(LvBlockEndpoint.dm_uuid);
  endpoint_admissible : is_ok (endpoint_path target endpoint.(LvBlockEndpoint.block)) = true }.

Definition endpoint_ready (target : ResolvedLvTarget) (vg_uuid : string) (endpoint : LvBlockEndpoint)
    (history : list NativeWrite) : Prop :=
  endpoint_for target vg_uuid endpoint ∧ answered (recheck endpoint) history tt.

Lemma silent_state {E A} (m : Sys S E A) s s' r : silent writes m → m s = (s', r) → writes s' = writes s.
Proof. intros Hm Hs. specialize (Hm s). by rewrite Hs in Hm. Qed.

Lemma open_endpoint_ready target vg_uuid s s' endpoint :
  open_endpoint target vg_uuid s = (s', Ok endpoint) → endpoint_ready target vg_uuid endpoint (writes s').
Proof.
  intros Ho. pose proof (silent_state _ _ _ _ (open_endpoint_silent target vg_uuid) Ho) as Hs.
  revert Ho. unfold open_endpoint.
  intros (s1 & dm_uuid & [= <- Hd] & Ho)%bind_Ok. apply bind_Ok in Ho as (s2 & block & [= <- Hb] & Ho).
  apply bind_Ok in Ho as (s3 & path & [= <- Hp] & Ho).
  apply bind_Ok in Ho as (s4 & path_fd & Hopen & Ho). apply bind_Ok in Ho as (s5 & stat & Hstat & Ho).
  destruct (negb _); [done|]. apply bind_Ok in Ho as (s6 & file & Hre & Ho). cbv zeta in Ho.
  apply bind_Ok in Ho as (s7 & [] & Hr & [= <- <-]). split.
  - split; simpl; [|done|done|by rewrite Hp]. destruct target.(ResolvedLvTarget.block); by simplify_eq/=.
  - eapply answered_now; [exact Hr|]. symmetry. by eapply silent_state, Hr; silence.
Qed.

(** ** Admitted recipes *)

(** The handle a registration executes through. *)
Definition executing_handle (backend : RegisteredBackend L) : option L :=
  match backend.(RegisteredBackend.access) with
  | LoadedBackendAccess.Library library =>
      if declares_execute backend then Some library.(LoadedLibrary.handle) else None
  | LoadedBackendAccess.Executable => None
  end.

(** The one write an action may cause, and what is known before it. *)
Definition recipe_guard (adapter : NativeStorageAdapter L) (action : ResolvedAction) (w : NativeWrite)
    (history : list NativeWrite) : Prop :=
  let target := action.(ResolvedAction.target) in
  match action.(ResolvedAction.operation) with
  | ProviderAction.Lvm (LvmAction.CreateLv _ _ name size LvmLvKind.Linear) => ∃ library request,
      executing_handle adapter.(NativeStorageAdapter.lvm) = Some library ∧
      linear_lv_request target.(ResolvedTarget.vg_name) target.(ResolvedTarget.vg_uuid) name size = Ok request ∧
      create_guard library request w history
  | ProviderAction.Lvm (LvmAction.SetActivation _ true) => ∃ library lv request,
      executing_handle adapter.(NativeStorageAdapter.lvm) = Some library ∧
      action.(ResolvedAction.lv_target) = Some lv ∧
      lv_activation_request target.(ResolvedTarget.vg_name) target.(ResolvedTarget.vg_uuid)
        lv.(ResolvedLvTarget.lv_name) lv.(ResolvedLvTarget.lv_uuid) lv.(ResolvedLvTarget.size) = Ok request ∧
      activate_guard library request w history
  | ProviderAction.Filesystem (FilesystemAction.Create _ _ FilesystemKind.Ext4 label) =>
      ∃ library lv uuid request endpoint,
      executing_handle adapter.(NativeStorageAdapter.filesystems) = Some library ∧
      action.(ResolvedAction.lv_target) = Some lv ∧
      ext4_create_request lv.(ResolvedLvTarget.size) uuid label = Ok request ∧
      endpoint_ready lv target.(ResolvedTarget.vg_uuid) endpoint history ∧
      mkfs_guard library endpoint.(LvBlockEndpoint.file) request w history
  | ProviderAction.Mount (MountAction.Mount _ directory _ _) => ∃ lv source fd,
      is_ext4_host_mount action.(ResolvedAction.operation) = true ∧
      is_Some (executing_handle adapter.(NativeStorageAdapter.mounts)) ∧
      action.(ResolvedAction.lv_target) = Some lv ∧
      endpoint_ready lv target.(ResolvedTarget.vg_uuid) source history ∧
      answered (open_mount_target directory) history fd ∧
      w = ContextMount (mount_settings source.(LvBlockEndpoint.file) fd)
  | _ => False
  end.

(** What a receipt stands for. *)
Definition recipe_evidence (adapter : NativeStorageAdapter L) (action : ResolvedAction)
    (receipt : ExecutionReceipt) (w : NativeWrite) (history : list NativeWrite) : Prop :=
  let target := action.(ResolvedAction.target) in
  match action.(ResolvedAction.operation) with
  | ProviderAction.Lvm (LvmAction.CreateLv _ _ name size _) => ∃ library request uuid,
      receipt = succeeded (Some uuid) None ∧
      linear_lv_request target.(ResolvedTarget.vg_name) target.(ResolvedTarget.vg_uuid) name size = Ok request ∧
      create_evidence library request uuid w history
  | ProviderAction.Lvm _ => ∃ library lv request,
      receipt = succeeded None None ∧ action.(ResolvedAction.lv_target) = Some lv ∧
      lv_activation_request target.(ResolvedTarget.vg_name) target.(ResolvedTarget.vg_uuid)
        lv.(ResolvedLvTarget.lv_name) lv.(ResolvedLvTarget.lv_uuid) lv.(ResolvedLvTarget.size) = Ok request ∧
      activate_evidence library request w history
  | ProviderAction.Filesystem _ => ∃ library lv endpoint request uuid,
      receipt = succeeded None (Some uuid) ∧ action.(ResolvedAction.lv_target) = Some lv ∧
      mkfs_evidence library endpoint.(LvBlockEndpoint.file) request uuid w history ∧
      endpoint_ready lv target.(ResolvedTarget.vg_uuid) endpoint (history ++ [w])
  | _ => ∃ library lv source,
      receipt = succeeded None None ∧ action.(ResolvedAction.lv_target) = Some lv ∧
      mount_completed library (history ++ [w]) ∧
      endpoint_ready lv target.(ResolvedTarget.vg_uuid) source (history ++ [w])
  end.

Lemma adapted_of_Ok {E A} (text : E → string) (r : result A E) (s s' : S) a :
  adapted text (sys_of r) s = (s', Ok a) → r = Ok a.
Proof. by intros [= _ Hr]%map_err_Ok. Qed.

Lemma adapted_silent {E A} (text : E → string) (m : Sys S E A) : silent writes m → silent writes (adapted text m).
Proof. apply silent_map_err. Qed.

Lemma handle_of_executing (backend : RegisteredBackend L) library :
  declares_execute backend = true → backend.(RegisteredBackend.access) = LoadedBackendAccess.Library library →
  executing_handle backend = Some library.(LoadedLibrary.handle).
Proof. intros Hd Ha. unfold executing_handle. by rewrite Ha, Hd. Qed.

Lemma lvm_execute_spec adapter action s :
  (∀ o, action.(ResolvedAction.operation) ≠ ProviderAction.Filesystem o) →
  (∀ o, action.(ResolvedAction.operation) ≠ ProviderAction.Mount o) →
  attempt (recipe_guard adapter action) (recipe_evidence adapter action)
    (lvm_execute adapter.(NativeStorageAdapter.lvm) action) s.
Proof.
  intros Hf Hm. unfold lvm_execute, recipe_guard, recipe_evidence.
  case_bool_decide; [apply attempt_fail|]. cbv zeta.
  destruct action.(ResolvedAction.operation) as [| |[]| | |]; try apply attempt_fail.
  - destruct layout; try apply attempt_fail.
    apply attempt_after; [by apply adapted_silent; silence|]. intros request s1 Hreq%adapted_of_Ok _.
    eapply attempt_then with (evidence := λ uuid w history, ∃ library, create_evidence library request uuid w history).
    + apply attempt_map_err, attempt_executing. intros library Hd Ha.
      eapply attempt_mono; [apply library_create_lv_spec|..].
      * intros w Hg. exists library.(LoadedLibrary.handle), request. split_and!; [by apply handle_of_executing|done|done].
      * intros uuid w _ He. by eauto.
    + silence.
    + intros uuid b w t t' [= _ <-] _ (library & He). by exists library, request, uuid.
  - destruct active; try apply attempt_fail.
    apply attempt_of. intros lv Hlv.
    assert (action.(ResolvedAction.lv_target) = Some lv) as Hlv'
      by (destruct action.(ResolvedAction.lv_target); by simplify_eq/=).
    apply attempt_after; [by apply adapted_silent; silence|]. intros request s1 Hreq%adapted_of_Ok _.
    eapply attempt_then with (evidence := λ _ w history, ∃ library, activate_evidence library request w history).
    + apply attempt_map_err, attempt_executing. intros library Hd Ha.
      eapply attempt_mono; [apply library_activate_lv_spec|..].
      * intros w Hg. exists library.(LoadedLibrary.handle), lv, request.
        split_and!; [by apply handle_of_executing|done..].
      * intros [] w _ He. by eauto.
    + silence.
    + intros [] b w t t' [= _ <-] _ (library & He). by exists library, lv, request.
Qed.

(** The descriptor is checked once more after the write. *)
Lemma rechecked endpoint (receipt receipt' : ExecutionReceipt) (s s' : S) :
  (let* _ := adapted endpoint_text (recheck endpoint) in sys_return receipt) s = (s', Ok receipt') →
  answered (recheck endpoint) (writes s) tt ∧ receipt' = receipt.
Proof.
  intros (s1 & [] & Hr%map_err_Ok & [= _ <-])%bind_Ok. split; [by eapply answered_now|done].
Qed.

Lemma ext4_create_spec adapter action lv label uuid s :
  (∃ backing planned, action.(ResolvedAction.operation) =
     ProviderAction.Filesystem (FilesystemAction.Create backing planned FilesystemKind.Ext4 label)) →
  action.(ResolvedAction.lv_target) = Some lv →
  attempt (recipe_guard adapter action) (recipe_evidence adapter action)
    (ext4_create adapter.(NativeStorageAdapter.filesystems) lv
       action.(ResolvedAction.target).(ResolvedTarget.vg_uuid) label uuid) s.
Proof.
  intros (backing & planned & Hop) Hlv. unfold ext4_create, recipe_guard, recipe_evidence. rewrite Hop. cbv zeta.
  apply attempt_after; [by apply adapted_silent; silence|]. intros request s1 Hreq%adapted_of_Ok _.
  apply attempt_after; [apply adapted_silent; silence|].
  intros endpoint s2 Hopen%map_err_Ok%open_endpoint_ready Hs2.
  eapply attempt_then with (evidence := λ uuid w history, ∃ library,
    mkfs_evidence library endpoint.(LvBlockEndpoint.file) request uuid w history).
  - apply attempt_map_err, attempt_executing. intros library Hd Ha.
    eapply attempt_mono; [apply library_create_ext4_spec|..].
    + intros w Hg. exists library.(LoadedLibrary.handle), lv, uuid, request, endpoint.
      split_and!; [by apply handle_of_executing|done..].
    + intros created w _ He. by eauto.
  - intros created. apply silent_bind; [apply adapted_silent|]; silence.
  - intros created receipt w t t' (Hr & ->)%rechecked Ht (library & He).
    exists library, lv, endpoint, request, created. split_and!; [done|done|done|].
    split; [by destruct Hopen|]. by rewrite <- Ht.
Qed.

Lemma ext4_execute_spec adapter action s :
  (∃ o, action.(ResolvedAction.operation) = ProviderAction.Filesystem o) →
  attempt (recipe_guard adapter action) (recipe_evidence adapter action)
    (ext4_execute adapter.(NativeStorageAdapter.filesystems) action) s.
Proof.
  intros (o & Hop). unfold ext4_execute. case_bool_decide; [apply attempt_fail|].
  pose proof (ext4_create_spec adapter action) as Hspec. rewrite Hop in *.
  destruct o as [backing planned [] label| | | |]; try apply attempt_fail.
  apply attempt_of. intros lv Hlv.
  assert (action.(ResolvedAction.lv_target) = Some lv) as Hlv'
    by (destruct action.(ResolvedAction.lv_target); by simplify_eq/=).
  apply (attempt_reader _ _ (λ s, hyphenated (now_v7 s)) (ext4_create _ _ _ _)). by apply Hspec; eauto.
Qed.

Lemma mount_ext4_spec (backend : RegisteredBackend L) source target s :
  attempt (λ w _, is_Some (executing_handle backend) ∧ w = ContextMount (mount_settings source target))
    (λ _ w history, ∃ library, mount_completed library (history ++ [w])) (mount_ext4 backend source target) s.
Proof.
  unfold mount_ext4. apply attempt_after; [silence|]. intros [] s1 Hsup _.
  assert (declares_execute backend = true) as Hd.
  { unfold check_ext4_mount_support, executing in Hsup. by destruct (declares_execute backend). }
  apply attempt_after; [silence|]. intros source_stat s2 _ _. destruct (negb _); [apply attempt_fail|].
  apply attempt_after; [silence|]. intros target_stat s3 _ _. destruct (negb _); [apply attempt_fail|].
  destruct backend.(RegisteredBackend.access) as [library|] eqn:Ha; [|apply attempt_fail].
  apply attempt_map_err. eapply attempt_mono; [apply library_mount_ext4_spec|..].
  - intros w ->. split; [|done]. rewrite (handle_of_executing _ _ Hd Ha). by eexists.
  - intros [] w _ Hc. by eauto.
Qed.

Lemma mount_execute_spec adapter action s :
  (∃ o, action.(ResolvedAction.operation) = ProviderAction.Mount o) →
  attempt (recipe_guard adapter action) (recipe_evidence adapter action)
    (mount_execute adapter.(NativeStorageAdapter.mounts) action) s.
Proof.
  intros (o & Hop). unfold mount_execute. destruct (_ || _) eqn:Hc; [apply attempt_fail|].
  rewrite !orb_false_iff, !negb_false_iff in Hc. destruct Hc as ((_ & Hm) & _).
  unfold recipe_guard, recipe_evidence. rewrite Hop in *.
  destruct o as [mounted directory options context| | |]; try apply attempt_fail.
  apply attempt_of. intros lv Hlv.
  assert (action.(ResolvedAction.lv_target) = Some lv) as Hlv'
    by (destruct action.(ResolvedAction.lv_target); by simplify_eq/=).
  apply attempt_after; [apply adapted_silent; silence|].
  intros source s1 Hopen%map_err_Ok%open_endpoint_ready Hs1.
  apply attempt_after; [apply adapted_silent; silence|]. intros fd s2 Hdir%map_err_Ok Hs2.
  eapply attempt_then; [apply attempt_map_err; eapply attempt_mono; [apply mount_ext4_spec|..]|..].
  - intros w (Hh & ->). exists lv, source, fd. rewrite Hs2. split_and!; try done. by eapply answered_now.
  - intros a w _ He. exact He.
  - intros []. apply silent_bind; [apply adapted_silent|]; silence.
  - intros [] receipt w t t' (Hr & ->)%rechecked Ht (library & He). exists library, lv, source.
    split_and!; [done|done|done|]. split; [by destruct Hopen|]. by rewrite <- Ht.
Qed.

Lemma storage_execute_spec adapter action s :
  attempt (λ w history, action.(ResolvedAction.backend) =
             storage_backend_for adapter action.(ResolvedAction.operation) ∧ recipe_guard adapter action w history)
    (recipe_evidence adapter action) (storage_execute adapter action) s.
Proof.
  unfold storage_execute. case_bool_decide as Hb; [apply attempt_fail|].
  eapply attempt_mono with (guard := recipe_guard adapter action); [|done|done].
  destruct action.(ResolvedAction.operation) eqn:Hop;
    first [apply lvm_execute_spec | apply ext4_execute_spec | apply mount_execute_spec];
    rewrite ?Hop; first [done | by eexists].
Qed.

(** ** The dispatcher *)

(** The registrations the dispatcher's identities name. *)
Record routed (d : NativeDispatcher L) (adapter : NativeStorageAdapter L) : Prop := {
  routed_lvm : required_backend d.(NativeDispatcher.registry) d.(NativeDispatcher.lvm) =
    Ok adapter.(NativeStorageAdapter.lvm);
  routed_filesystems : required_backend d.(NativeDispatcher.registry) d.(NativeDispatcher.filesystems) =
    Ok adapter.(NativeStorageAdapter.filesystems);
  routed_mounts : required_backend d.(NativeDispatcher.registry) d.(NativeDispatcher.mounts) =
    Ok adapter.(NativeStorageAdapter.mounts) }.

Lemma dispatcher_adapter_silent d : silent writes (dispatcher_adapter d).
Proof. unfold dispatcher_adapter, storage_adapter. silence. Qed.

Lemma dispatcher_adapter_routed d s s' adapter : dispatcher_adapter d s = (s', Ok adapter) → routed d adapter.
Proof.
  intros (s1 & lvm & [= <- Hl] & Hr)%bind_Ok. apply bind_Ok in Hr as (s2 & filesystems & [= <- Hf] & Hr).
  apply bind_Ok in Hr as (s3 & mounts & [= <- Hm] & Hr).
  apply bind_Ok in Hr as (s4 & [] & _ & (s5 & [] & _ & (s6 & [] & _ & [= _ <-])%bind_Ok)%bind_Ok). by split.
Qed.

Lemma required_backend_name (registry : BackendRegistry L) id backend :
  required_backend registry id = Ok backend → backend_name backend = id.
Proof.
  unfold required_backend. destruct (find_first _ _) as [found|] eqn:Hf; [|done].
  apply find_first_Some in Hf as (_ & Hid%bool_decide_eq_true). by intros [= <-].
Qed.

Lemma routed_backend_for d adapter operation :
  routed d adapter → storage_backend_for adapter operation = dispatcher_backend_for d operation.
Proof.
  intros [Hl Hf Hm]. apply required_backend_name in Hl, Hf, Hm. by destruct operation.
Qed.

(** C20: An admitted action causes at most one native write, and exactly one when it
    succeeds: the recipe of its own operation, on the registration it was
    admitted for, after the native state or the retained descriptor was found
    as admitted; the receipt tells what was read back after the write. *)
Theorem native_dispatch_admitted d action s :
  let '(s', r) := dispatcher_execute d action s in
  let written w adapter := routed d adapter ∧
    action.(ResolvedAction.backend) = dispatcher_backend_for d action.(ResolvedAction.operation) ∧
    writes s' = writes s ++ [w] ∧ recipe_guard adapter action w (writes s) in
  match r with
  | Ok receipt => ∃ adapter w, written w adapter ∧ recipe_evidence adapter action receipt w (writes s)
  | Err _ => writes s' = writes s ∨ ∃ adapter w, written w adapter
  end.
Proof.
  unfold dispatcher_execute, sys_bind, adapted, sys_map_err.
  pose proof (dispatcher_adapter_silent d s) as Hq. pose proof (dispatcher_adapter_routed d s) as Hroute.
  destruct (dispatcher_adapter d s) as [s1 [adapter|e]]; simpl in Hq; [|by left].
  specialize (Hroute s1 adapter eq_refl).
  pose proof (storage_execute_spec adapter action s1) as Hspec. unfold attempt, outcome in Hspec.
  rewrite Hq, (routed_backend_for _ _ _ Hroute) in Hspec. cbn [map_err].
  destruct (storage_execute adapter action s1) as [s' [receipt|e]]; cbv zeta beta iota.
  - destruct Hspec as (w & Hw & (Hb & Hg) & He). by exists adapter, w.
  - destruct Hspec as [Hs|(w & Hw & Hb & Hg)]; [by left|right; by exists adapter, w].
Qed.

(** The operations with a native recipe. *)
Definition has_recipe (operation : ProviderAction) : bool :=
  match operation with
  | ProviderAction.Lvm (LvmAction.CreateLv _ _ _ _ LvmLvKind.Linear)
  | ProviderAction.Lvm (LvmAction.SetActivation _ true) => true
  | ProviderAction.Filesystem (FilesystemAction.Create _ _ FilesystemKind.Ext4 label) => native_label label
  | ProviderAction.Mount _ => is_ext4_host_mount operation
  | _ => false
  end.

Lemma supported_spec {E} (text : E → string) (backend : RegisteredBackend L) (check : Sys S E unit) s :
  silent writes check →
  writes (supported text backend check s).1 = writes s ∧
  ∀ id, (supported text backend check s).2 = OperationAvailability.Available id → id = backend_name backend.
Proof.
  intros Hc. specialize (Hc s). unfold supported. destruct (check s) as [s' [[]|e]]; simpl in *;
    (split; [done|]); intros id; congruence.
Qed.

Lemma storage_availability_spec adapter operation s :
  let '(s', answer) := storage_availability adapter operation s in
  writes s' = writes s ∧
  ∀ id, answer = OperationAvailability.Available id →
    id = storage_backend_for adapter operation ∧ has_recipe operation = true.
Proof.
  assert (∀ (s' : S) answer (backend : RegisteredBackend L), backend_name backend = storage_backend_for adapter operation →
    has_recipe operation = true → writes s' = writes s ∧
    (∀ id, answer = OperationAvailability.Available id → id = backend_name backend) →
    writes s' = writes s ∧ ∀ id, answer = OperationAvailability.Available id →
      id = storage_backend_for adapter operation ∧ has_recipe operation = true) as Hyes.
  { intros s' answer backend <- Hr (Hs & Ha). split; [done|]. intros id ->%Ha. done. }
  destruct (storage_availability adapter operation s) as [s' answer] eqn:He. revert He.
  unfold storage_availability, lvm_availability, ext4_availability, mount_availability.
  destruct operation as [a|a|a|a|a|a].
  1, 2, 5: by intros [= <- <-].
  - destruct a; try (by intros [= <- <-]).
    + destruct layout; try (by intros [= <- <-]). intros He. eapply Hyes; [done|done|].
      pose proof (supported_spec lvm_write_text adapter.(NativeStorageAdapter.lvm) _ s
        (check_linear_lv_support_silent adapter.(NativeStorageAdapter.lvm))) as Hsup. by rewrite He in Hsup.
    + destruct active; try (by intros [= <- <-]). intros He. eapply Hyes; [done|done|].
      pose proof (supported_spec lvm_write_text adapter.(NativeStorageAdapter.lvm) _ s
        (check_lv_activation_support_silent adapter.(NativeStorageAdapter.lvm))) as Hsup. by rewrite He in Hsup.
  - destruct a; try (by intros [= <- <-]). destruct filesystem; try (by intros [= <- <-]).
    destruct (native_label label) eqn:Hl; [|by intros [= <- <-]]. intros He. eapply Hyes; [done|done|].
    pose proof (supported_spec filesystem_write_text adapter.(NativeStorageAdapter.filesystems) _ s
      (check_ext4_create_support_silent adapter.(NativeStorageAdapter.filesystems))) as Hsup. by rewrite He in Hsup.
  - destruct (is_ext4_host_mount _) eqn:Hm; [|by intros [= <- <-]]. cbn [negb]. intros He. eapply Hyes; [done|done|].
    pose proof (supported_spec mount_write_text adapter.(NativeStorageAdapter.mounts) _ s
      (check_ext4_mount_support_silent adapter.(NativeStorageAdapter.mounts))) as Hsup. by rewrite He in Hsup.
Qed.

(** What is reported available is dispatched on the same registration and has
    a recipe; asking writes nothing. *)
Theorem native_availability_routed d operation observed s :
  let '(s', answer) := dispatcher_availability d operation observed s in
  writes s' = writes s ∧
  ∀ id, answer = OperationAvailability.Available id →
    id = dispatcher_backend_for d operation ∧ has_recipe operation = true.
Proof.
  unfold dispatcher_availability. pose proof (dispatcher_adapter_silent d s) as Hq.
  pose proof (dispatcher_adapter_routed d s) as Hroute.
  destruct (dispatcher_adapter d s) as [s1 [adapter|e]]; simpl in Hq; [|done].
  specialize (Hroute s1 adapter eq_refl). pose proof (storage_availability_spec adapter operation s1) as Ha.
  rewrite Hq, (routed_backend_for _ _ _ Hroute) in Ha. exact Ha.
Qed.
End recipes.

(** ** Identities and arrays *)

(** Group and volume are recovered from the device-mapper identity. *)
Lemma dm_id_length value id : dm_id value = Ok id → String.length id = 32 ∧ id = without_hyphens value.
Proof.
  unfold dm_id. destruct (_ && _); [done|]. cbv zeta. destruct (_ || _) eqn:Hc; [done|]. intros [= <-].
  rewrite orb_false_iff, !negb_false_iff in Hc. destruct Hc as (Hl%Nat.eqb_eq & _). done.
Qed.

Lemma append_inj_length (a b a' b' : string) :
  String.length a = String.length a' → a +:+ b = a' +:+ b' → a = a' ∧ b = b'.
Proof.
  revert a'. induction a as [|c a IH]; intros [|c' a'] Hl Heq; try done.
  simpl in *. injection Heq as -> Heq. injection Hl as Hl. destruct (IH a' Hl Heq) as [-> ->]. done.
Qed.

Theorem dm_identity_unambiguous vg lv vg' lv' id :
  expected_dm_uuid vg lv = Ok id → expected_dm_uuid vg' lv' = Ok id →
  without_hyphens vg = without_hyphens vg' ∧ without_hyphens lv = without_hyphens lv'.
Proof.
  unfold expected_dm_uuid.
  destruct (dm_id vg) as [a|] eqn:Ha, (dm_id lv) as [b|] eqn:Hb; try done. intros [= <-].
  destruct (dm_id vg') as [a'|] eqn:Ha', (dm_id lv') as [b'|] eqn:Hb'; try done. intros [= Heq].
  apply dm_id_length in Ha as (Hla & ->), Hb as (_ & ->), Ha' as (Hla' & ->), Hb' as (_ & ->).
  symmetry in Heq.
  by apply (append_inj_length (without_hyphens vg) _ (without_hyphens vg')) in Heq; [|rewrite Hla, Hla'].
Qed.

Lemma copy_entries_iff {R A} operation (copy : R → result A NativeProbeError) index entries copied :
  copy_entries operation copy index entries = Ok copied ↔
  (index + N.of_nat (length entries) < MAX_NATIVE_ENTRIES)%N ∧ Forall2 (λ raw entry, copy raw = Ok entry) entries copied.
Proof.
  revert index copied. induction entries as [|raw entries IH]; intros index copied; cbn [copy_entries length].
  - destruct (N.leb_spec MAX_NATIVE_ENTRIES index) as [Hl|Hl].
    + split; [done|]. intros (Hi & _). lia.
    + split; [intros [= <-]; split; [lia|constructor]|]. intros (_ & Hf). by inversion Hf.
  - destruct (N.leb_spec MAX_NATIVE_ENTRIES index) as [Hl|Hl]; [split; [done|]; intros (Hi & _); lia|].
    destruct (copy raw) as [entry|e] eqn:Hr.
    + specialize (IH (index + 1)%N). destruct (copy_entries operation copy (index + 1) entries) as [rest|e'].
      * destruct (proj1 (IH rest) eq_refl) as (Hi & Hf). split.
        -- intros [= <-]. split; [lia|by constructor].
        -- intros (_ & Hf'). inversion Hf' as [|? b ? l' Hb Hl']; subst.
           assert (Ok rest = Ok (E:=NativeProbeError) l') as [= ->]; [|congruence].
           apply IH. by split.
      * split; [done|]. intros (Hi & Hf'). inversion Hf' as [|? b ? l' Hb Hl']; subst.
        assert (Err e' = Ok l') as Hbad; [|done]. apply IH. split; [lia|done].
    + split; [done|]. intros (_ & Hf'). inversion Hf'; congruence.
Qed.

(** A native array is copied exactly when it ends below the limit and every
    record of it is well formed: nothing is dropped. *)
Theorem native_arrays_complete {R A} operation (copy : R → result A NativeProbeError) array copied :
  copy_array operation copy array = Ok copied ↔
  (N.of_nat (length (default [] array)) < MAX_NATIVE_ENTRIES)%N ∧
  Forall2 (λ raw entry, copy raw = Ok entry) (default [] array) copied.
Proof.
  destruct array as [entries|]; simpl.
  - by rewrite copy_entries_iff, N.add_0_l.
  - split; [intros [= <-]; by split|]. intros (_ & Hf). by inversion Hf.
Qed.

(** ** Text of discovered objects *)

(** [String::from_utf8_lossy]: a maximal invalid sequence becomes U+FFFD. *)
Definition REPLACEMENT : list N := [239; 191; 189]%N.
Fixpoint lossy (bytes : list N) : list N :=
  match bytes with
  | [] => []
  | first :: after =>
      if (first <? 128)%N then first :: lossy after
      else match after with
           | [] => REPLACEMENT
           | second :: after2 =>
               if in_range 194 223 first then
                 if is_continuation second then first :: second :: lossy after2 else REPLACEMENT ++ lossy after
               else if second_of_three first second then
                 match after2 with
                 | [] => REPLACEMENT
                 | third :: after3 =>
                     if is_continuation third then first :: second :: third :: lossy after3
                     else REPLACEMENT ++ lossy after2
                 end
               else if second_of_four first second then
                 match after2 with
                 | [] => REPLACEMENT
                 | third :: after3 =>
                     if is_continuation third then
                       match after3 with
                       | [] => REPLACEMENT
                       | fourth :: after4 =>
                           if is_continuation fourth then first :: second :: third :: fourth :: lossy after4
                           else REPLACEMENT ++ lossy after3
                       end
                     else REPLACEMENT ++ lossy after2
                 end
               else REPLACEMENT ++ lossy after
           end
  end.

Definition text_of (bytes : list N) : string := String.string_of_list_ascii (Ascii.ascii_of_N <$> bytes).
Definition to_string_lossy (text : OsString) : string := text_of (lossy (utf8 text)).

(** [copied_string] of the discovery adapters: lossy, where the write adapters
    refuse. *)
Definition copied_lossy (pointer : option string) : option string := to_string_lossy <$> pointer.

(** [str::trim] *)
Fixpoint strip_all (strip : list N → option (list N)) (fuel : nat) (bytes : list N) : list N :=
  match fuel, strip bytes with
  | Datatypes.S fuel, Some rest => strip_all strip fuel rest
  | _, _ => bytes
  end.
Definition trim (text : string) : string :=
  let strip_from strip bytes := strip_all strip (length bytes) bytes in
  text_of (reverse (strip_from strip_white_end (reverse (strip_from strip_white (utf8 text))))).

(** [str::split_ascii_whitespace] *)
Fixpoint words_from (current : list N) (bytes : list N) : list (list N) :=
  match bytes with
  | [] => [reverse current]
  | byte :: bytes => if bool_decide (byte ∈ [9; 10; 12; 13; 32]%N) then reverse current :: words_from [] bytes
                     else words_from (byte :: current) bytes
  end.
Definition split_ascii_whitespace (text : string) : list string :=
  text_of <$> List.filter (λ word, negb (bool_decide (word = []))) (words_from [] (utf8 text)).

(** [check_zero] of an answered code *)
Definition zero_code (operation : string) (code : Z) : result unit NativeProbeError :=
  if (code =? 0)%Z then Ok tt else Err (NativeProbeError.CallFailed operation code).

(** A constructor that answers null. *)
Definition allocated (object : string) (pointer : bool) : result unit NativeProbeError :=
  if pointer then Ok tt else Err (NativeProbeError.AllocationFailed object).

(** [filter_map(.. .transpose()).collect()] *)
Definition try_filter_map {A B E} (f : A → result (option B) E) (l : list A) : result (list B) E :=
  let? answers := try_map f l in Ok (omap id answers).

(** [CString::new(device.as_os_str().as_bytes())] *)
Definition native_path (device : Path) : result string NativeProbeError :=
  c_string device (NativeProbeError.InvalidPath (components device)).

(** ** Discovery ([dylib/udev.rs], [fdisk.rs], [blkid.rs], [mdraid.rs])

    The libraries answer from the machine as it is during one pass.  A
    constructor answers whether its pointer is not null; the records are the
    consumed fields behind a pointer, and an iterator is the list it walks. *)

Module UdevDeviceRaw.
Record UdevDeviceRaw := mk {
  devnode : option string; sysname : option string; devtype : option string;
  property : string → option string; sysattr : string → option string }.
End UdevDeviceRaw.
Abbreviation UdevDeviceRaw := UdevDeviceRaw.UdevDeviceRaw.

(** [libudev.h]; the enumeration is a list of system paths. *)
Class UdevLibrary (L : Type) := {
  udev_new : L → bool;
  udev_enumerate_new : L → bool;
  udev_enumerate_add_match_subsystem : L → string → Z;
  udev_enumerate_scan_devices : L → Z;
  udev_enumerate_list : L → list (option string);
  udev_device_new_from_syspath : L → string → option UdevDeviceRaw }.

(** [libudev(3)]: the node of a device is the absolute path of its file below
    [/dev]. *)
Class UdevLaws L `{UdevLibrary L} : Prop :=
  udev_devnode : ∀ library syspath device node,
    udev_device_new_from_syspath library syspath = Some device →
    device.(UdevDeviceRaw.devnode) = Some node → is_canonical node = true.

Module FdiskPartitionRaw.
Record FdiskPartitionRaw := mk {
  partno : N; start : N; size : N; type : option (option string);
  name : option string; uuid : option string; bootable : Z }.
End FdiskPartitionRaw.
Abbreviation FdiskPartitionRaw := FdiskPartitionRaw.FdiskPartitionRaw.

(** [libfdisk.h]; a context is the device assigned to it. *)
Class FdiskLibrary (L : Type) := {
  fdisk_new_context : L → bool;
  fdisk_assign_device : L → string → Z → Z;
  fdisk_get_label : L → string → option (option string);
  fdisk_get_partitions : L → string → Z * option (list (option FdiskPartitionRaw));
  fdisk_get_sector_size : L → string → N }.

Module BlkidDevRaw.
Record BlkidDevRaw := mk { devname : option string; tags : option (list (option string * option string)) }.
End BlkidDevRaw.
Abbreviation BlkidDevRaw := BlkidDevRaw.BlkidDevRaw.

(** [blkid.h] *)
Class BlkidLibrary (L : Type) := {
  blkid_get_cache : L → Z * bool;
  blkid_probe_all : L → Z;
  blkid_dev_iterate : L → option (list (option BlkidDevRaw)) }.

Module DetailRaw.
Record DetailRaw := mk {
  metadata : option string; level : option string; array_size : N; raid_devices : N; total_devices : N;
  active_devices : N; working_devices : N; failed_devices : N; spare_devices : N; clean : Z;
  uuid : option string }.
End DetailRaw.
Abbreviation DetailRaw := DetailRaw.DetailRaw.

Module ExamineRaw.
Record ExamineRaw := mk {
  level : option string; num_devices : N; size : N; uuid : option string; update_time : N;
  dev_uuid : option string; events : N; metadata : option string; chunk_size : N }.
End ExamineRaw.
Abbreviation ExamineRaw := ExamineRaw.ExamineRaw.

(** [mdraid.h] *)
Class MdraidLibrary (L : Type) := {
  bd_md_init : L → Z;
  bd_md_detail : L → string → option DetailRaw;
  bd_md_examine : L → string → option ExamineRaw;
  bd_md_get_status : L → string → option string;
  bd_md_get_bitmap_location : L → string → option string }.

Definition udev_symbols : list string :=
  ["udev_new"; "udev_unref"; "udev_enumerate_new"; "udev_enumerate_unref";
   "udev_enumerate_add_match_subsystem"; "udev_enumerate_scan_devices"; "udev_enumerate_get_list_entry";
   "udev_list_entry_get_next"; "udev_list_entry_get_name"; "udev_device_new_from_syspath";
   "udev_device_unref"; "udev_device_get_devnode"; "udev_device_get_sysname"; "udev_device_get_devtype";
   "udev_device_get_property_value"; "udev_device_get_sysattr_value"].
Definition fdisk_symbols : list string :=
  ["fdisk_new_context"; "fdisk_unref_context"; "fdisk_assign_device"; "fdisk_deassign_device";
   "fdisk_get_label"; "fdisk_label_get_name"; "fdisk_get_sector_size"; "fdisk_get_partitions";
   "fdisk_unref_table"; "fdisk_table_get_nents"; "fdisk_table_get_partition"; "fdisk_partition_get_start";
   "fdisk_partition_get_size"; "fdisk_partition_get_partno"; "fdisk_partition_get_name";
   "fdisk_partition_get_uuid"; "fdisk_partition_get_type"; "fdisk_parttype_get_string";
   "fdisk_partition_is_bootable"].
Definition blkid_symbols : list string :=
  ["blkid_get_cache"; "blkid_put_cache"; "blkid_probe_all"; "blkid_dev_iterate_begin";
   "blkid_dev_iterate_end"; "blkid_dev_next"; "blkid_dev_devname"; "blkid_tag_iterate_begin";
   "blkid_tag_next"; "blkid_tag_iterate_end"].
Definition mdraid_symbols : list string :=
  ["bd_md_init"; "bd_md_close"; "bd_md_detail"; "bd_md_detail_data_free"; "bd_md_examine";
   "bd_md_examine_data_free"; "bd_md_get_status"; "bd_md_get_bitmap_location"; "g_free"].

(** [parse_bool] *)
Definition parse_bool (value : string) : option bool :=
  if bool_decide (value = "0") then Some false
  else if bool_decide (value = "1") then Some true else None.

(** [entry] of [udev.rs] *)
Definition udev_entry (device : UdevDeviceRaw) (devnode : Path) (sysname : string) : UdevBlockEntry :=
  let property key := copied_lossy (device.(UdevDeviceRaw.property) key) in
  let sysattr key := copied_lossy (device.(UdevDeviceRaw.sysattr) key) in
  let parse_u64 := parse_unsigned (2 ^ 64) in
  UdevBlockEntry.mk devnode (default [] (split_ascii_whitespace <$> property "DEVLINKS")) sysname
    (copied_lossy device.(UdevDeviceRaw.devtype))
    (default 0%N (property "MAJOR" ≫= parse_u32)) (default 0%N (property "MINOR" ≫= parse_u32))
    (sysattr "size" ≫= parse_u64)
    (sysattr "queue/logical_block_size" ≫= parse_u32) (sysattr "queue/physical_block_size" ≫= parse_u32)
    (sysattr "alignment_offset" ≫= parse_u64)
    (sysattr "queue/minimum_io_size" ≫= parse_u64) (sysattr "queue/optimal_io_size" ≫= parse_u64)
    (trim <$> property "ID_MODEL") (trim <$> property "ID_VENDOR")
    (property "ID_BUS") (property "ID_SERIAL_SHORT") (property "ID_WWN")
    (sysattr "ro" ≫= parse_bool) (sysattr "queue/rotational" ≫= parse_bool)
    (sysattr "removable" ≫= parse_bool) (sysattr "queue/zoned").

(** [read_partition] of [fdisk.rs]; the number saturates at both widths. *)
Definition read_partition (partition : FdiskPartitionRaw) : FdiskPartition :=
  let number := N.min (partition.(FdiskPartitionRaw.partno) + 1) (2 ^ 64 - 1) in
  FdiskPartition.mk (if (number <? 2 ^ 32)%N then number else 2 ^ 32 - 1)%N
    partition.(FdiskPartitionRaw.start) partition.(FdiskPartitionRaw.size)
    (partition.(FdiskPartitionRaw.type) ≫= copied_lossy)
    (copied_lossy partition.(FdiskPartitionRaw.name)) (copied_lossy partition.(FdiskPartitionRaw.uuid))
    (partition.(FdiskPartitionRaw.bootable) =? 1)%Z.

(** One tag of a device in the cache; a repeated tag replaces. *)
Definition read_tag (entry : BlkidEntry) (tag : option string * option string) : BlkidEntry :=
  let '(BlkidEntry.mk device signature_type uuid label partition_uuid) := entry in
  match copied_lossy tag.1, copied_lossy tag.2 with
  | Some kind, Some value =>
      if bool_decide (kind = "TYPE") then BlkidEntry.mk device (Some value) uuid label partition_uuid
      else if bool_decide (kind = "UUID") then BlkidEntry.mk device signature_type (Some value) label partition_uuid
      else if bool_decide (kind = "LABEL") then BlkidEntry.mk device signature_type uuid (Some value) partition_uuid
      else if bool_decide (kind = "PARTUUID") then BlkidEntry.mk device signature_type uuid label (Some value)
      else entry
  | _, _ => entry
  end.

(** [read_device] of [blkid.rs] *)
Definition read_device (device : BlkidDevRaw) : option BlkidEntry :=
  name ← device.(BlkidDevRaw.devname);
  Some (foldl read_tag (BlkidEntry.mk name None None None None) (default [] device.(BlkidDevRaw.tags))).

Section discovery.
Context {S L : Type} `{Loader S L, UdevLibrary L, FdiskLibrary L, BlkidLibrary L, MdraidLibrary L}.

(** One item of the enumeration. *)
Definition udev_item (library : L) (syspath : option string) : option UdevBlockEntry :=
  syspath ← syspath;
  device ← udev_device_new_from_syspath library syspath;
  devnode ← device.(UdevDeviceRaw.devnode);
  sysname ← copied_lossy device.(UdevDeviceRaw.sysname);
  Some (udev_entry device devnode sysname).

(** [udev::probe] *)
Definition udev_probe (library : L) : result (list UdevBlockEntry) NativeProbeError :=
  let? _ := try_all (load_symbol library) udev_symbols in
  let? _ := allocated "udev context" (udev_new library) in
  let? _ := allocated "udev enumerator" (udev_enumerate_new library) in
  let? _ := zero_code "udev_enumerate_add_match_subsystem"
              (udev_enumerate_add_match_subsystem library "block") in
  let? _ := zero_code "udev_enumerate_scan_devices" (udev_enumerate_scan_devices library) in
  Ok (omap (udev_item library) (udev_enumerate_list library)).

(** [probe_device] of [fdisk.rs] *)
Definition probe_device (library : L) (device : Path) : result (option FdiskTable) NativeProbeError :=
  let? path := native_path device in
  let? _ := allocated "libfdisk context" (fdisk_new_context library) in
  if negb (fdisk_assign_device library path 1 =? 0)%Z then Ok None
  else
    let label := fdisk_get_label library path ≫= copied_lossy in
    let partitions := match fdisk_get_partitions library path with
                      | (0%Z, Some table) => read_partition <$> omap id table
                      | _ => []
                      end in
    Ok (Some (FdiskTable.mk device label (fdisk_get_sector_size library path) partitions)).

(** [fdisk::probe] *)
Definition fdisk_probe (library : L) (devices : list Path) : result (list FdiskTable) NativeProbeError :=
  let? _ := try_all (load_symbol library) fdisk_symbols in
  try_filter_map (probe_device library) devices.

(** [blkid::probe] *)
Definition blkid_probe (library : L) : result (list BlkidEntry) NativeProbeError :=
  let? _ := try_all (load_symbol library) blkid_symbols in
  let '(code, cache) := blkid_get_cache library in
  let? _ := zero_code "blkid_get_cache" code in
  let? _ := allocated "libblkid cache" cache in
  let? _ := zero_code "blkid_probe_all" (blkid_probe_all library) in
  let? devices := ok_or (blkid_dev_iterate library)
                    (NativeProbeError.AllocationFailed "libblkid device iterator") in
  Ok (omap (λ device, device ≫= read_device) devices).

(** [inspect_array] *)
Definition inspect_array (library : L) (device : Path) : result (option MdraidArrayEntry) NativeProbeError :=
  let? path := native_path device in
  Ok (detail ← bd_md_detail library path;
      level ← copied_lossy detail.(DetailRaw.level);
      Some (MdraidArrayEntry.mk device level (copied_lossy detail.(DetailRaw.metadata))
              (copied_lossy detail.(DetailRaw.uuid)) detail.(DetailRaw.array_size)
              detail.(DetailRaw.raid_devices) detail.(DetailRaw.total_devices)
              detail.(DetailRaw.active_devices) detail.(DetailRaw.working_devices)
              detail.(DetailRaw.failed_devices) detail.(DetailRaw.spare_devices)
              (negb (detail.(DetailRaw.clean) =? 0)%Z)
              (copied_lossy (bd_md_get_status library path))
              (copied_lossy (bd_md_get_bitmap_location library path)))).

(** [inspect_member] *)
Definition inspect_member (library : L) (device : Path) : result (option MdraidMemberEntry) NativeProbeError :=
  let? path := native_path device in
  Ok (examine ← bd_md_examine library path;
      Some (MdraidMemberEntry.mk device (copied_lossy examine.(ExamineRaw.level))
              (copied_lossy examine.(ExamineRaw.uuid)) (copied_lossy examine.(ExamineRaw.dev_uuid))
              (copied_lossy examine.(ExamineRaw.metadata)) examine.(ExamineRaw.chunk_size)
              examine.(ExamineRaw.num_devices) examine.(ExamineRaw.size)
              examine.(ExamineRaw.update_time) examine.(ExamineRaw.events))).

(** [mdraid::probe] *)
Definition mdraid_probe (library : L) (arrays members : list Path) : result MdraidEntry NativeProbeError :=
  let? _ := try_all (load_symbol library) mdraid_symbols in
  if (bd_md_init library =? 0)%Z then Err (call_failed "bd_md_init")
  else
    let? arrays := try_filter_map (inspect_array library) arrays in
    let? members := try_filter_map (inspect_member library) members in
    Ok (MdraidEntry.mk arrays members).

(** [LoadedLibrary::probe_*]; the other adapters are arguments. *)
Definition library_adapters (others : LibraryProbes (L := L)) : LibraryProbes (L := L) := {|
  library_udev := λ library, udev_probe library.(LoadedLibrary.handle);
  library_fdisk := λ devices library, fdisk_probe library.(LoadedLibrary.handle) devices;
  library_blkid := λ library, blkid_probe library.(LoadedLibrary.handle);
  library_cryptsetup := others.(library_cryptsetup);
  library_devmapper := others.(library_devmapper);
  library_loop := others.(library_loop);
  library_swap := others.(library_swap);
  library_multipath := others.(library_multipath);
  library_mdraid := λ arrays members library, mdraid_probe library.(LoadedLibrary.handle) arrays members;
  library_lvm := others.(library_lvm);
  library_btrfs_filesystems := others.(library_btrfs_filesystems);
  library_libmount := others.(library_libmount);
  library_btrfs := others.(library_btrfs);
  library_zfs := others.(library_zfs);
  library_nvme := others.(library_nvme) |}.
End discovery.

(** Valid text is copied as it is. *)
Lemma lossy_valid bytes : valid_utf8 bytes = true → lossy bytes = bytes.
Proof.
  enough (∀ n, length bytes < n → valid_utf8 bytes = true → lossy bytes = bytes) as Hall by eauto.
  intros n. revert bytes. induction n as [|n IH]; [lia|]. intros [|a rest] Hl; [done|]. simpl in *.
  destruct (a <? 128)%N; [intros Hv; by rewrite IH by (done || lia)|].
  destruct rest as [|b rest]; [done|]. simpl in Hl.
  destruct (in_range 194 223 a).
  { intros [-> Hv]%andb_prop. by rewrite IH by (done || lia). }
  destruct rest as [|c rest]; [done|]. simpl in Hl. destruct (second_of_three a b).
  { intros [-> Hv]%andb_prop. by rewrite IH by (done || lia). }
  destruct rest as [|d rest]; [done|]. simpl in Hl.
  intros [[[-> ->]%andb_prop ->]%andb_prop Hv]%andb_prop. by rewrite IH by (done || lia).
Qed.

Lemma to_string_lossy_valid text : valid_utf8 (utf8 text) = true → to_string_lossy text = text.
Proof.
  intros Hv. unfold to_string_lossy. rewrite lossy_valid by done. unfold text_of, utf8. clear Hv.
  induction text as [|a text IH]; [done|]. cbn [String.list_ascii_of_string].
  rewrite !fmap_cons, Ascii.ascii_N_embedding. cbn [String.string_of_list_ascii]. by rewrite IH.
Qed.

Lemma try_filter_map_elem {A B E} (f : A → result (option B) E) l answers b :
  try_filter_map f l = Ok answers → b ∈ answers → ∃ a, a ∈ l ∧ f a = Ok (Some b).
Proof.
  unfold try_filter_map. revert answers. induction l as [|a l IH]; intros answers; simpl.
  - intros [= <-] []%elem_of_nil.
  - destruct (f a) as [o|] eqn:Hf; [|done]. simpl. destruct (try_map f l) as [os|]; [|done]. simpl.
    intros [= <-]. destruct o as [b'|]; simpl; [intros [->|Hin]%elem_of_cons|intros Hin].
    + exists a. split; [left|done].
    + destruct (IH _ eq_refl Hin) as (a' & Ha & ?). exists a'. split; [by right|done].
    + destruct (IH _ eq_refl Hin) as (a' & Ha & ?). exists a'. split; [by right|done].
Qed.

Section discovered.
Context {S L : Type} `{Loader S L, UdevLibrary L, FdiskLibrary L, BlkidLibrary L, MdraidLibrary L}.
Context `{NativeText, UuidText, ProbeText} (others : LibraryProbes (L := L)).
Implicit Types (library : L).

(** libfdisk and the MD library are asked about devices, and their answers
    name those devices. *)
Lemma fdisk_probe_asked library devices tables t :
  fdisk_probe library devices = Ok tables → t ∈ tables → t.(FdiskTable.device) ∈ devices.
Proof.
  unfold fdisk_probe. destruct (try_all _ _); [|done]. cbn.
  intros Hall (device & Hin & Ht)%(try_filter_map_elem _ _ _ _ Hall). unfold probe_device in Ht.
  destruct (native_path device); [|done]. destruct (allocated _ _); [|done]. cbn in Ht.
  destruct (negb _); [done|]. by injection Ht as <-.
Qed.

Lemma mdraid_probe_asked library arrays members topology m :
  mdraid_probe library arrays members = Ok topology → m ∈ topology.(MdraidEntry.members) →
  m.(MdraidMemberEntry.device) ∈ members.
Proof.
  unfold mdraid_probe. destruct (try_all _ _); [|done]. cbn. destruct (_ =? 0)%Z; [done|].
  destruct (try_filter_map (inspect_array _) _); [|done]. cbn.
  destruct (try_filter_map (inspect_member _) _) eqn:Hall; [|done]. intros [= <-].
  intros (device & Hin & Hm)%(try_filter_map_elem _ _ _ _ Hall). unfold inspect_member in Hm.
  destruct (native_path device); [|done]. cbn in Hm. destruct (bd_md_examine _ _); [|done].
  by injection Hm as <-.
Qed.

(** Every endpoint is a device of the enumeration. *)
Lemma udev_probe_listed library endpoints e : udev_probe library = Ok endpoints → e ∈ endpoints →
  ∃ syspath device, udev_device_new_from_syspath library syspath = Some device ∧
    device.(UdevDeviceRaw.devnode) = Some e.(UdevBlockEntry.devnode).
Proof.
  unfold udev_probe. destruct (try_all _ _); [|done]. cbn. do 2 (destruct (allocated _ _); [|done]; cbn).
  do 2 (destruct (zero_code _ _); [|done]; cbn). intros [= <-] (syspath & _ & He)%list_elem_of_omap.
  unfold udev_item in He. apply bind_Some in He as (path & -> & He).
  apply bind_Some in He as (device & Hd & He). apply bind_Some in He as (node & Hn & He).
  apply bind_Some in He as (name & _ & [= <-]). by exists path, device.
Qed.

(** The answers of a registered backend are those of its library. *)
Lemma answered_library {A} (backend : RegisteredBackend L) call (a : A) :
  map_err native_text (through_library backend call) = Ok a → ∃ loaded, call loaded = Ok a.
Proof.
  unfold through_library. destruct (RegisteredBackend.access _); [|done]. destruct (call _) eqn:Hc; [|done].
  cbn. intros [= <-]. eauto.
Qed.

(** The native stack, with these adapters. *)
Section stack.
Context (system : NativeSystem L).

#[local] Instance discovery_backends : NativeBackends :=
  registered_probes (H := library_adapters others) system.

(** The adapters keep what the layers ask of them. *)
#[local] Instance adapters_laws `{!UdevLaws L} : BackendLaws.
Proof.
  split.
  - intros disks tables t (library & Hc)%answered_library. exact (fdisk_probe_asked _ _ _ t Hc).
  - intros arrays members topology m (library & Hc)%answered_library. exact (mdraid_probe_asked _ _ _ _ m Hc).
  - intros endpoints e (library & Hc)%answered_library Hin.
    destruct (udev_probe_listed _ _ _ Hc Hin) as (syspath & device & Hd & Hn). by eapply udev_devnode.
Qed.

(** C35: A native pass that succeeds gives a graph whose relations join two
    nodes of it, whose edges do so too, and whose local mounts name a file
    system of it, whatever the libraries answer and whichever of them fail.  Two
    loose ends are left, and no other: the member edge of an MD array may start
    at a device that libblkid has in its cache and udev does not list, and the
    member edges of a Btrfs file system may end at the content of its seed device
    when the library reports none of its members under a name it was asked
    about.  The one premise is that libudev names a device node by a canonical
    absolute path. *)
Theorem native_state_joined `{!UdevLaws L} state : probe_system = Ok state →
  joined_but unlisted_member unasked_filesystem state.(ProviderState.graph) ∧
  ∀ m id, m ∈ state.(ProviderState.mounts) → m.(ObservedMount.source) = MountSource.Filesystem id →
    has_node state.(ProviderState.graph) id.
Proof. apply probe_system_joined. Qed.
End stack.
End discovered.
