(* ===== verification/Facade.v ===== *)
(** * The application: [disksgraph/src]

    [DisksGraph] owns editing sessions, imported plans and ended attempts under
    handles of its own, next to one configured host and dispatcher.  The crate's
    [lib.rs], [error.rs], [sessions.rs], [plans.rs], [runs.rs] and [lifecycle.rs]
    are modelled; a method with [&mut self] is a computation on the application
    and the machine.  Identities of [Uuid::now_v7] are arguments. *)

From S2P Require Import Prelude Model Reach Graph GraphOrder GraphValid State Action Contract.
From S2P Require Import Logical Evidence Prerequisites Effects Report PlanOrder Compose Simulate.
From S2P Require Import Wire Observation Correlate Observe Execution Live LiveGoal Draft Build.
From S2P Require Import Session Documents Json Native Recipes Scope Bindings.
From S2P Require Import Targets.
From S2P Require Import Targets Checkpoint Host Incident Coordinator.

(** ** Errors ([error.rs]) *)

Module ErrorCode.
Inductive ErrorCode :=
| UnknownSession | UnknownPlan | UnknownRun | ResourceLimit | RevisionConflict | EditRejected
| InvalidDraft | InvalidPlan | CannotFreeze | RebaseRejected | ProbeFailed | LeaseUnavailable
| CheckpointBlocked | PlanUnavailable | AdmissionRejected | ExecutionStopped | VerificationFailed
| InvalidEventCursor | EventSequenceExhausted | IncidentRejected.
#[global] Instance ErrorCode_eq_dec : EqDecision ErrorCode.
Proof. solve_decision. Defined.
End ErrorCode.
Abbreviation ErrorCode := ErrorCode.ErrorCode.

Module DisksGraphError.
Record DisksGraphError := mk { code : ErrorCode; message : string; run_id : option Uuid }.
#[global] Instance DisksGraphError_eq_dec : EqDecision DisksGraphError.
Proof. solve_decision. Defined.
Definition new (code : ErrorCode) (message : string) : DisksGraphError := mk code message None.
End DisksGraphError.
Abbreviation DisksGraphError := DisksGraphError.DisksGraphError.

(** The [Display] texts [error.to_string()] uses, next to those of the runtime. *)
Class FacadeText := {
  edit_text : EditError → string;
  freeze_text : FreezeError → string;
  rebase_text : RebaseError → string;
  draft_document_text : DraftDocumentError → string;
  draft_build_text : DraftBuildError → string;
  plan_document_text : PlanDocumentError → string;
  lease_text : LeaseError → string;
  probe_observation_text : ProbeObservationError → string;
  coordinator_text : CoordinatorError → string;
  incident_text : IncidentError → string;
  composition_text : CompositionError → string;
  action_simulation_text : ActionSimulationError → string;
  plan_simulation_text : PlanSimulationError → string;
  draft_codec : Codec }.

Section errors.
Context `{RuntimeText, FacadeText}.

(** One [impl From<_> for DisksGraphError] each. *)
Definition run_error (e : ExecutionRunError) : DisksGraphError :=
  DisksGraphError.new
    match e with
    | ExecutionRunError.InvalidEventCursor _ _ => ErrorCode.InvalidEventCursor
    | ExecutionRunError.EventSequenceExhausted => ErrorCode.EventSequenceExhausted
    | ExecutionRunError.Document _ => ErrorCode.InvalidPlan
    | _ => ErrorCode.ExecutionStopped
    end (run_text e).

Definition edit_error (e : EditError) : DisksGraphError :=
  DisksGraphError.new
    match e with
    | EditError.RevisionConflict _ _ => ErrorCode.RevisionConflict
    | _ => ErrorCode.EditRejected
    end (edit_text e).

Definition freeze_error (e : FreezeError) : DisksGraphError :=
  DisksGraphError.new
    match e with
    | FreezeError.RevisionConflict _ _ => ErrorCode.RevisionConflict
    | FreezeError.Document _ => ErrorCode.InvalidPlan
    | _ => ErrorCode.CannotFreeze
    end (freeze_text e).

Definition rebase_error (e : RebaseError) : DisksGraphError :=
  DisksGraphError.new
    match e with
    | RebaseError.RevisionConflict _ _ => ErrorCode.RevisionConflict
    | _ => ErrorCode.RebaseRejected
    end (rebase_text e).

Definition draft_document_error (e : DraftDocumentError) : DisksGraphError :=
  DisksGraphError.new ErrorCode.InvalidDraft (draft_document_text e).
Definition draft_build_error (e : DraftBuildError) : DisksGraphError :=
  DisksGraphError.new ErrorCode.InvalidDraft (draft_build_text e).
Definition plan_document_error (e : PlanDocumentError) : DisksGraphError :=
  DisksGraphError.new ErrorCode.InvalidPlan (plan_document_text e).
Definition lease_error (e : LeaseError) : DisksGraphError :=
  DisksGraphError.new ErrorCode.LeaseUnavailable (lease_text e).
Definition checkpoint_error (e : CheckpointError) : DisksGraphError :=
  DisksGraphError.new ErrorCode.CheckpointBlocked (checkpoint_text e).
Definition incident_error (e : IncidentError) : DisksGraphError :=
  DisksGraphError.new ErrorCode.IncidentRejected (incident_text e).

Definition host_error (error : HostError) : DisksGraphError :=
  match error with
  | HostError.Run e => run_error e
  | HostError.Document e => plan_document_error e
  | HostError.Checkpoint e => checkpoint_error e
  | HostError.Probe e => DisksGraphError.new ErrorCode.ProbeFailed (probe_observation_text e)
  | HostError.Binding e => DisksGraphError.new ErrorCode.VerificationFailed (binding_text e)
  | HostError.ActiveAttempt => DisksGraphError.new ErrorCode.CheckpointBlocked (host_text error)
  | _ => DisksGraphError.new ErrorCode.AdmissionRejected (host_text error)
  end.

Definition coordinator_error (error : CoordinatorError) : DisksGraphError :=
  match error with
  | CoordinatorError.Host e => host_error e
  | CoordinatorError.Lease e => lease_error e
  | CoordinatorError.Checkpoint e => checkpoint_error e
  | CoordinatorError.Run e => run_error e
  | CoordinatorError.Binding e => DisksGraphError.new ErrorCode.VerificationFailed (binding_text e)
  | CoordinatorError.Receipt e => DisksGraphError.new ErrorCode.VerificationFailed (dispatch_text e)
  | CoordinatorError.PlanUnavailable _ =>
      DisksGraphError.new ErrorCode.PlanUnavailable (coordinator_text error)
  | _ => DisksGraphError.new ErrorCode.ExecutionStopped (coordinator_text error)
  end.
End errors.

(** ** The application ([lib.rs]) *)

Definition MAX_APPLICATION_OBJECTS : nat := 64.
Definition MAX_PLAN_JSON_BYTES : N := (16 * 1024 * 1024)%N.

Abbreviation SessionId := Uuid (only parsing).
Abbreviation PlanId := Uuid (only parsing).
Abbreviation RunId := Uuid (only parsing).

Module OperationCapability.
Record OperationCapability := mk {
  operation : ProviderAction;
  backend : BackendId;
  availability : OperationAvailability }.
End OperationCapability.
Abbreviation OperationCapability := OperationCapability.OperationCapability.

Module OperationCapabilities.
Record OperationCapabilities := mk {
  observation : ObservationReference;
  incident_pending : bool;
  operations : list OperationCapability }.
End OperationCapabilities.
Abbreviation OperationCapabilities := OperationCapabilities.OperationCapabilities.

(** [RunRecord] and [RunSnapshot] of [runs.rs]. *)
Module RunRecord.
Record RunRecord := mk {
  run : ExecutionRun;
  source_map : list OperationActions;
  error : option DisksGraphError }.
End RunRecord.
Abbreviation RunRecord := RunRecord.RunRecord.

Module AttemptSnapshot.
Record AttemptSnapshot := mk {
  execution : RunSnapshot;
  source_map : list OperationActions;
  error : option DisksGraphError }.
End AttemptSnapshot.
Abbreviation AttemptSnapshot := AttemptSnapshot.AttemptSnapshot.

(** The root and the dispatcher belong to the machine. *)
Module DisksGraph.
Record DisksGraph (H : Type) := mk {
  host : H;
  sessions : gmap SessionId PlanSession;
  plans : gmap PlanId PlanDocument;
  runs : gmap RunId RunRecord }.
Arguments mk {H} host sessions plans runs.
Arguments host {H} d.
Arguments sessions {H} d.
Arguments plans {H} d.
Arguments runs {H} d.
End DisksGraph.
Abbreviation DisksGraph := DisksGraph.DisksGraph.

(** [HashMap::try_reserve]: the message of a failed allocation. *)
Class Allocator (S : Type) := try_reserve : S → option string.

Definition set_host {H} (host : H) (app : DisksGraph H) : DisksGraph H :=
  DisksGraph.mk host app.(DisksGraph.sessions) app.(DisksGraph.plans) app.(DisksGraph.runs).
Definition set_sessions {H} sessions (app : DisksGraph H) : DisksGraph H :=
  DisksGraph.mk app.(DisksGraph.host) sessions app.(DisksGraph.plans) app.(DisksGraph.runs).
Definition set_plans {H} plans (app : DisksGraph H) : DisksGraph H :=
  DisksGraph.mk app.(DisksGraph.host) app.(DisksGraph.sessions) plans app.(DisksGraph.runs).
Definition set_runs {H} runs (app : DisksGraph H) : DisksGraph H :=
  DisksGraph.mk app.(DisksGraph.host) app.(DisksGraph.sessions) app.(DisksGraph.plans) runs.

(** [DisksGraph::with_root] *)
Definition with_root {H} (host : H) : DisksGraph H := DisksGraph.mk host ∅ ∅ ∅.

Abbreviation applying H S A := (Sys (DisksGraph H * S) (Failure DisksGraphError) A) (only parsing).

Section facade.
Context {H S : Type}.
Context `{RuntimeText, FacadeText, Os S, RuntimeHost H S, BackendDispatcher S, Allocator S}.

Abbreviation app A := (applying H S A) (only parsing).

(** *** Lifting *)

Definition refuse {A} (code : ErrorCode) (message : string) : app A :=
  sys_fail (Reported (DisksGraphError.new code message)).
Definition inspecting {A} (f : DisksGraph H → result A (Failure DisksGraphError)) : app A :=
  λ w, (w, f w.1).
Definition changing (f : DisksGraph H → DisksGraph H) : app unit := λ w, ((f w.1, w.2), Ok tt).
Definition machine_step {E A} (f : E → DisksGraphError) (m : Sys S E A) : app A :=
  λ w, let '(s, r) := m w.2 in ((w.1, s), map_err (λ e, Reported (f e)) r).
Definition host_step {E A} (f : E → DisksGraphError) (m : Sys (H * S) (Failure E) A) : app A :=
  λ w, let '((host, s), r) := m (w.1.(DisksGraph.host), w.2) in
       ((set_host host w.1, s), map_failure f r).

Definition probe_host : app ProbedObservation := host_step host_error host_probe.

Definition unknown_session : DisksGraphError :=
  DisksGraphError.new ErrorCode.UnknownSession "session is not owned by this instance".
Definition unknown_plan : DisksGraphError :=
  DisksGraphError.new ErrorCode.UnknownPlan "plan is not owned by this instance".
Definition unknown_run : DisksGraphError :=
  DisksGraphError.new ErrorCode.UnknownRun "run is not owned by this instance".

(** [session], [run] and the lookup of a plan. *)
Definition session_of (id : SessionId) : app PlanSession :=
  inspecting (λ app, ok_or (app.(DisksGraph.sessions) !! id) (Reported unknown_session)).
Definition run_of (id : RunId) : app RunRecord :=
  inspecting (λ app, ok_or (app.(DisksGraph.runs) !! id) (Reported unknown_run)).

(** [session_mut] and a method of the session. *)
Definition in_session {E A} (f : E → DisksGraphError) (id : SessionId)
    (method : PlanSession → PlanSession * result A (Failure E)) : app A :=
  let* session := session_of id in
  let '(session, r) := method session in
  let* _ := changing (λ app, set_sessions (<[id := session]> app.(DisksGraph.sessions)) app) in
  sys_of (map_failure f r).

(** *** Probing *)

Definition app_probe : app LiveObservation :=
  let* observed := probe_host in sys_return observed.(ProbedObservation.observation).

Definition operation_capability (observed : ProbedObservation) (operation : ProviderAction)
    : app OperationCapability :=
  λ w, let backend := backend_for w.2 operation in
       let '((host, s), found) := host_availability operation observed (w.1.(DisksGraph.host), w.2) in
       let found := match found with
                    | OperationAvailability.Available selected =>
                        if bool_decide (selected ≠ backend)
                        then OperationAvailability.Unavailable
                          "capability registration differs from the configured operation route"
                        else found
                    | _ => found
                    end in
       ((set_host host w.1, s), Ok (OperationCapability.mk operation backend found)).

Fixpoint operation_capabilities (observed : ProbedObservation) (operations : list ProviderAction)
    : app (list OperationCapability) :=
  match operations with
  | [] => sys_return []
  | operation :: operations =>
      let* answer := operation_capability observed operation in
      let* answers := operation_capabilities observed operations in
      sys_return (answer :: answers)
  end.

(** Under the lock, which is dropped when the call returns. *)
Definition locked_capabilities (operations : list ProviderAction) : app OperationCapabilities :=
  let* found := machine_step checkpoint_error inspect in
  let* observed := probe_host in
  let* answers := operation_capabilities observed operations in
  sys_return (OperationCapabilities.mk
    observed.(ProbedObservation.observation).(LiveObservation.reference)
    (bool_decide (is_Some found)) answers).

Definition capabilities (operations : list ProviderAction) : app OperationCapabilities :=
  if (MAX_APPLICATION_OBJECTS <? length operations)%nat
  then refuse ErrorCode.ResourceLimit "too many capability queries"
  else
    let* _ := machine_step lease_error try_lock_host in
    λ w, let '(w, r) := locked_capabilities operations w in ((w.1, close_lock w.2), r).

(** ** Sessions ([sessions.rs]) *)

Definition check_session_limit : app unit :=
  inspecting (λ app, if (MAX_APPLICATION_OBJECTS <=? size app.(DisksGraph.sessions))%nat
    then Err (Reported (DisksGraphError.new ErrorCode.ResourceLimit "session limit reached"))
    else Ok tt).

Definition insert_session (handle : SessionId) (session : PlanSession) : app SessionId :=
  let* _ := changing (λ app, set_sessions (<[handle := session]> app.(DisksGraph.sessions)) app) in
  sys_return handle.

Definition create_session (baseline_id session_id handle : Uuid) : app SessionId :=
  let* _ := check_session_limit in
  let* observed := probe_host in
  let* session := sys_of (map_failure draft_build_error
    (session_new serializers session_id (into_baseline baseline_id observed))) in
  insert_session handle session.

Definition import_draft (handle : SessionId) (document : DraftDocument) : app SessionId :=
  let* _ := check_session_limit in
  let* session := sys_of (map_failure draft_document_error
    (from_document draft_codec serializers document)) in
  insert_session handle session.

Definition app_revision (id : SessionId) : app DraftRevision :=
  let* session := session_of id in sys_return session.(PlanSession.revision).

Definition app_edit (id : SessionId) (revision : DraftRevision) (new_id : OperationId)
    (new_node : NodeId) (command : PlanEdit) : app EditReceipt :=
  in_session edit_error id (λ session, edit serializers session revision new_id new_node command).

Definition app_preview (id : SessionId) : app PreviewState :=
  let* session := session_of id in sys_return session.(PlanSession.preview).

Definition app_preview_document (id : SessionId) : app PreviewDocument :=
  let* session := session_of id in
  sys_return (preview_document composition_text action_simulation_text plan_simulation_text session).

Definition export_draft (id : SessionId) : app DraftDocument :=
  let* session := session_of id in sys_return (draft_document session).

Definition app_undo (id : SessionId) (revision : DraftRevision) : app DraftRevision :=
  in_session edit_error id (λ session, session_undo serializers session revision).
Definition app_redo (id : SessionId) (revision : DraftRevision) : app DraftRevision :=
  in_session edit_error id (λ session, session_redo serializers session revision).

Definition app_removal_impact (id : SessionId) (operation : OperationId) : app (list OperationId) :=
  let* session := session_of id in
  sys_of (map_failure edit_error (removal_impact session.(PlanSession.draft) [operation])).

Definition app_prepare_rebase (baseline_id : Uuid) (id : SessionId) (revision : DraftRevision)
    : app RebasePreview :=
  let* actual := app_revision id in
  if bool_decide (actual ≠ revision)
  then sys_fail (Reported (edit_error (EditError.RevisionConflict revision actual)))
  else
    let* observed := probe_host in
    let* session := session_of id in
    sys_of (map_failure rebase_error
      (prepare_rebase serializers session revision (into_baseline baseline_id observed))).

Definition app_accept_rebase (id : SessionId) (revision : DraftRevision) (candidate : RebasePreview)
    : app DraftRevision :=
  in_session rebase_error id (λ session, accept_rebase session revision candidate).

(** ** Plans ([plans.rs]) *)

Definition app_freeze (plan_id : Uuid) (id : SessionId) (revision : DraftRevision) : app FrozenPlan :=
  let* session := session_of id in
  sys_of (map_failure freeze_error
    (freeze graph_text serializers serializers' plan_id session revision)).

Definition import_plan (handle : PlanId) (document : PlanDocument) : app PlanId :=
  let* _ := inspecting (λ app, if (MAX_APPLICATION_OBJECTS <=? size app.(DisksGraph.plans))%nat
    then Err (Reported (DisksGraphError.new ErrorCode.ResourceLimit "plan limit reached"))
    else Ok tt) in
  let* _ := sys_of (map_failure plan_document_error
    (analyse_historical graph_text serializers serializers' document)) in
  let* _ := changing (λ app, set_plans (<[handle := document]> app.(DisksGraph.plans)) app) in
  sys_return handle.

Definition import_plan_json `{WireDecoder} (handle : PlanId) (json : string) : app PlanId :=
  if (MAX_PLAN_JSON_BYTES <? N.of_nat (String.length json))%N
  then refuse ErrorCode.ResourceLimit "plan JSON is too large"
  else
    let* document := sys_of (report (map_err plan_document_error (Json.from_json json))) in
    import_plan handle document.

Definition export_plan (id : PlanId) : app PlanDocument :=
  inspecting (λ app, ok_or (app.(DisksGraph.plans) !! id) (Reported unknown_plan)).

(** ** Attempts ([runs.rs]) *)

(** [self.root.try_clone()] and the run of the coordinator. *)
Definition attempt_run (run : ExecutionRun) (host : H) (s : S)
    : World H S * result unit (Failure DisksGraphError) :=
  let '(s, cloned) := duplicate_directory s in
  let world := World.mk run (coordinator_new run) host s [] [] in
  match cloned with
  | Err e => (world, Err (Reported (lease_error (LeaseError.Io (errno_text (S:=S) e)))))
  | Ok _ =>
      let '(world, r) := execute_run_with_updates world in
      (world, match map_failure coordinator_error r with Ok _ => Ok tt | Err e => Err e end)
  end.

Definition with_run_id (id : RunId) (e : DisksGraphError) : DisksGraphError :=
  DisksGraphError.mk e.(DisksGraphError.code) e.(DisksGraphError.message) (Some id).

(** What the attempt leaves behind; an unwinding one is not retained. *)
Definition retain (source_map : list OperationActions) (app : DisksGraph H) (world : World H S)
    (r : result unit (Failure DisksGraphError))
    : (DisksGraph H * S) * result RunId (Failure DisksGraphError) :=
  let id := world.(World.run).(ExecutionRun.run_id) in
  let app := set_host world.(World.host) app in
  let store error :=
    (set_runs (<[id := RunRecord.mk world.(World.run) source_map error]> app.(DisksGraph.runs)) app,
     world.(World.machine)) in
  match r with
  | Ok _ => (store None, Ok id)
  | Err (Reported e) => (store (Some (with_run_id id e)), Err (Reported (with_run_id id e)))
  | Err Panicked => ((app, world.(World.machine)), Err Panicked)
  | Err OutOfFuel => ((app, world.(World.machine)), Err OutOfFuel)
  end.

(** [apply_document_with_updates], with the runs handed to the observer. *)
Definition apply_document_with_updates (run_id : Uuid) (document : PlanDocument)
    (source_map : list OperationActions) (w : DisksGraph H * S)
    : (DisksGraph H * S) * (list ExecutionRun * result RunId (Failure DisksGraphError)) :=
  if (MAX_APPLICATION_OBJECTS <=? size w.1.(DisksGraph.runs))%nat
  then (w, ([], Err (Reported (DisksGraphError.new ErrorCode.ResourceLimit "run limit reached"))))
  else
    match try_reserve w.2 with
    | Some message => (w, ([], Err (Reported (DisksGraphError.new ErrorCode.ResourceLimit message))))
    | None =>
        match map_failure run_error
                (execution_run_new graph_text serializers serializers' run_id document) with
        | Err e => (w, ([], Err e))
        | Ok run =>
            let '(world, r) := attempt_run run w.1.(DisksGraph.host) w.2 in
            let '(w, r) := retain source_map w.1 world r in
            (w, (world.(World.published), r))
        end
    end.

Definition apply_document (run_id : Uuid) (document : PlanDocument) (source_map : list OperationActions)
    : app RunId :=
  λ w, let '(w, (_, r)) := apply_document_with_updates run_id document source_map w in (w, r).

Definition apply_blocking (run_id : Uuid) (document : PlanDocument) : app RunId :=
  apply_document run_id document [].
Definition apply_frozen (run_id : Uuid) (frozen : FrozenPlan) : app RunId :=
  apply_document run_id frozen.(FrozenPlan.document) frozen.(FrozenPlan.source_map).
Definition apply_plan (run_id : Uuid) (plan : PlanId) : app RunId :=
  let* document := export_plan plan in apply_blocking run_id document.

(** The events a callback sees. *)
Definition apply_plan_with_events (run_id : Uuid) (plan : PlanId) (w : DisksGraph H * S)
    : (DisksGraph H * S) * (list RunEvent * result RunId (Failure DisksGraphError)) :=
  match export_plan plan w with
  | (w, Err e) => (w, ([], Err e))
  | (w, Ok document) =>
      let '(w, (published, r)) := apply_document_with_updates run_id document [] w in
      (w, (delivered_events published, r))
  end.

Definition run_snapshot (id : RunId) : app AttemptSnapshot :=
  let* record := run_of id in
  let* execution := sys_of (map_failure run_error (snapshot record.(RunRecord.run))) in
  let 'RunSnapshot.mk run_id plan_id actions _ verified event_sequence observation goal := execution in
  sys_return (AttemptSnapshot.mk
    (RunSnapshot.mk run_id plan_id actions true verified event_sequence observation goal)
    record.(RunRecord.source_map) record.(RunRecord.error)).

Definition app_events (id : RunId) (since : N) : app EventsPage :=
  let* record := run_of id in
  sys_of (map_failure run_error (events_page record.(RunRecord.run) since)).

(** The update built from one published run. *)
Definition live_update (run : ExecutionRun) : executing (AttemptSnapshot * EventsPage) :=
  let? execution := snapshot run in
  let 'RunSnapshot.mk run_id plan_id actions _ verified event_sequence observation goal := execution in
  let events := events_since run 0 in
  Ok (AttemptSnapshot.mk
        (RunSnapshot.mk run_id plan_id actions false verified event_sequence observation goal) [] None,
      EventsPage.mk events event_sequence
        (is_some_and (λ event, 1 <? event.(RunEvent.sequence))%N (head events))).

(** The handle of a retained attempt. *)
Definition retained_id (r : result RunId (Failure DisksGraphError)) : option RunId :=
  match r with
  | Ok id => Some id
  | Err (Reported e) => e.(DisksGraphError.run_id)
  | _ => None
  end.

(** [apply_plan_with_updates], with the updates handed to the observer. *)
Definition apply_plan_with_updates (run_id : Uuid) (plan : PlanId) (w : DisksGraph H * S)
    : (DisksGraph H * S) *
      (list (AttemptSnapshot * EventsPage) * result RunId (Failure DisksGraphError)) :=
  match export_plan plan w with
  | (w, Err e) => (w, ([], Err e))
  | (w, Ok document) =>
      let '(w, (published, r)) := apply_document_with_updates run_id document [] w in
      match try_map live_update published with
      | Err _ => (w, ([], Err Panicked))
      | Ok updates =>
          match retained_id r with
          | None => (w, (updates, r))
          | Some id =>
              match (let* found := run_snapshot id in
                     let* page := app_events id 0 in sys_return (found, page)) w with
              | (w, Ok final) => (w, (updates ++ [final], r))
              | (w, Err e) => (w, (updates, Err e))
              end
          end
      end
  end.

(** ** Release ([lifecycle.rs]) *)

Definition close_session (id : SessionId) : app unit :=
  let* _ := session_of id in
  changing (λ app, set_sessions (delete id app.(DisksGraph.sessions)) app).
Definition close_plan (id : PlanId) : app unit :=
  let* _ := export_plan id in
  changing (λ app, set_plans (delete id app.(DisksGraph.plans)) app).
Definition close_run (id : RunId) : app unit :=
  let* _ := run_of id in
  changing (λ app, set_runs (delete id app.(DisksGraph.runs)) app).
End facade.

Section incidents.
Context {S : Type}.
Context `{RuntimeText, FacadeText, Os S, HostPolicies S, IncidentAcknowledgmentPolicy S}.

Definition app_incident : applying LinuxLiveHost S (option IncidentInspection) :=
  host_step incident_error linux_inspect_incident.
Definition app_review_incident (token : Uuid) : applying LinuxLiveHost S (option IncidentReview) :=
  host_step incident_error (linux_review_incident token).
Definition app_acknowledge_incident (review : IncidentReview) (confirmation : Uuid)
    : applying LinuxLiveHost S IncidentInspection :=
  host_step incident_error (linux_acknowledge_incident review confirmation).
End incidents.
