(* ===== verification/FacadeProps.v ===== *)
(** * What the application keeps

    The runs an attempt publishes form a chain of states of one run; the
    objects of an application are valid and bounded after any sequence of its
    operations; and an attempt is retained whenever it could have an effect. *)

From stdpp Require Import relations.
From S2P Require Import Prelude Model Reach Graph GraphOrder GraphValid State Action Contract.
From S2P Require Import ContractProps Logical Evidence Prerequisites Effects Report PlanOrder Compose.
From S2P Require Import ComposeProps ComposeKeeps Simulate SimulateProps Wire Observation Correlate.
From S2P Require Import Observe Execution ExecutionProps Live LiveProps LiveGoal Draft Build BuildProps.
From S2P Require Import PreviewProps Session SessionProps Documents.
From S2P Require Import DocumentProps History Json.
From S2P Require Import Native Recipes Scope Bindings BindingProps Targets.
From S2P Require Import Checkpoint.
From S2P Require Import StoreProps Host Incident Coordinator CoordinatorProps Protocol Facade.

Implicit Types (run : ExecutionRun) (doc : PlanDocument).

(** ** Published runs *)

Section published.
Context {H S : Type} `{RuntimeText, Os S, RuntimeHost H S, BackendDispatcher S}.
Implicit Types (w : World H S).

(** Also kept by the coordinator's own bookkeeping. *)
Record blind (P : World H S → Prop) : Prop := {
  blind_stable : stable P;
  blind_halted b w : P w → P (set_halted b w);
  blind_invocation resolved w : P w → P (add_invocation resolved w) }.

Section blind.
Context (P : World H S → Prop) (HB : blind P).
#[local] Notation HP := (blind_stable P HB).

Lemma blind_prepare action operation resolved : keeps P (prepare action operation resolved).
Proof.
  apply keeps_bind; [intros w Hw; by apply keeps_attempting|].
  intros [attempt|e]; [|apply keeps_pure]. intros w Hw. destruct (arm _ _ _) as [s [poisoned r]].
  by apply (stable_machine _ HP).
Qed.

Lemma blind_dispatched action resolved observed poisoned attempt receipt :
  keeps P (run_dispatched action resolved observed poisoned attempt receipt).
Proof.
  apply keeps_bind; [by apply keeps_probe_after, HP|]. intros [post|e]; [|by apply keeps_stop_unknown, HP].
  destruct (validate_receipt _ _); [|by apply keeps_stop_unknown, HP].
  apply keeps_bind; [by apply keeps_complete, HP|]. intros [[]|e]; [|by apply keeps_stop_unknown, HP].
  apply keeps_bind; [by apply keeps_notify, HP|]. intros _.
  apply keeps_bind; [apply keeps_pure|]. intros state. apply keeps_bind.
  { case_bool_decide; [by apply keeps_verify_completed, HP|apply keeps_pure]. }
  intros [pending fs]. apply keeps_bind; [apply keeps_pure|]. intros state'.
  case_bool_decide; [|apply keeps_pure].
  apply keeps_bind; [by apply keeps_record_outputs, HP|]. intros _.
  apply keeps_bind; [by apply keeps_notify, HP|]. intros _. apply keeps_bind.
  { intros w Hw. unfold clear_marker. destruct (clear _ _ _) as [s [flag r]].
    by apply (stable_machine _ HP). }
  intros _. apply keeps_bind; [|intros; apply keeps_pure]. intros w Hw. by apply (blind_halted P HB).
Qed.

Lemma blind_armed action resolved observed poisoned attempt :
  keeps P (run_armed action resolved observed poisoned attempt).
Proof.
  apply keeps_bind; [|intros; apply blind_dispatched].
  apply keeps_bind; [intros w Hw; by apply (blind_halted P HB)|]. intros _.
  apply keeps_bind; [by apply keeps_notify, HP|]. intros _. apply keeps_bind.
  { apply keeps_run_call, (stepping_op (RunOp.MarkDispatchStarted action)). apply HP. }
  intros _. apply keeps_bind; [by apply keeps_notify, HP|]. intros _.
  apply keeps_bind; [intros w Hw; by apply (blind_invocation P HB)|]. intros _.
  apply keeps_bind; [|intros; apply keeps_pure]. intros w Hw. by apply keeps_run_dispatch; [apply HP|].
Qed.

Lemma blind_leased action operation lease : keeps P (run_leased action operation lease).
Proof.
  apply keeps_bind; [by apply keeps_require_no_marker, HP|]. intros _.
  apply keeps_bind; [by apply keeps_host_call, HP|]. intros observed.
  apply keeps_bind; [intros w Hw; by apply keeps_host_call; [apply HP|]|]. intros decision.
  apply keeps_bind; [apply keeps_require_endpoint|]. intros _.
  apply keeps_bind; [apply keeps_run_call, stepping_admission; apply HP|]. intros admitted.
  apply keeps_bind; [by apply keeps_notify, HP|]. intros _. destruct admitted; [|apply keeps_pure].
  unfold run_admitted. destruct (AdmissionDecision.resolved decision); [|by apply keeps_stop_before, HP].
  apply keeps_bind; [apply blind_prepare|].
  intros [poisoned [attempt|e]]; [apply blind_armed|by apply keeps_stop_before, HP].
Qed.

Lemma blind_action action operation locked : keeps P (execute_action_locked action operation locked).
Proof.
  do 2 (apply keeps_bind; [apply keeps_pure|intros _]).
  apply keeps_bind; [apply keeps_pure|]. intros state. apply keeps_bind.
  { destruct state; try apply keeps_pure.
    apply keeps_run_call, (stepping_op (RunOp.BeginCheck action)). apply HP. }
  intros _. apply keeps_bind; [by apply keeps_notify, HP|]. intros _.
  destruct locked; (apply keeps_bind; [intros w Hw; by apply keeps_machine_call; [apply HP|]|]); intros lease.
  - apply blind_leased.
  - intros w Hw. pose proof (blind_leased action operation lease w Hw) as Hl.
    destruct (run_leased _ _ _ _) as [w' r]. by apply (stable_machine _ HP).
Qed.

Lemma blind_actions ordered : keeps P (run_actions ordered).
Proof.
  induction ordered as [|action ordered IH]; [apply keeps_pure|]. apply keeps_bind; [apply keeps_pure|].
  assert (keeps P (let* state := execute_action_locked action None true in
          let* _ := notify in
          if bool_decide (state ≠ ActionRunState.Verified)
          then let* stopped := summary (Some action) in sys_return (Some stopped)
          else run_actions ordered)) as Hexec.
  { apply keeps_bind; [apply blind_action|]. intros state.
    apply keeps_bind; [by apply keeps_notify, HP|]. intros _. case_bool_decide; [|done].
    apply keeps_bind; intros; apply keeps_pure. }
  intros []; first [done|apply keeps_pure].
Qed.

Lemma blind_verify : keeps P verify_run.
Proof.
  apply keeps_bind; [by apply keeps_host_call, HP|]. intros observed.
  apply keeps_bind; [intros w Hw; by apply keeps_host_call; [apply HP|]|]. intros found.
  apply keeps_bind; [apply keeps_pure|]. intros _.
  apply keeps_bind; [by apply keeps_require_no_marker, HP|]. intros _.
  apply keeps_bind; [apply keeps_run_call, stepping_goal; apply HP|]. intros _. apply keeps_pure.
Qed.

Lemma blind_run : keeps P execute_run_with_updates.
Proof.
  assert (keeps P run_locked) as Hl.
  { apply keeps_bind; [by apply keeps_require_no_marker, HP|]. intros _.
    apply keeps_bind; [by apply keeps_host_call, HP|]. intros initial.
    apply keeps_bind; [intros w Hw; by apply keeps_host_call; [apply HP|]|]. intros readiness.
    case_bool_decide; [apply keeps_pure|]. apply keeps_bind; [apply keeps_pure|]. intros ordered.
    apply keeps_bind; [apply blind_actions|]. intros [stopped|]; [apply keeps_pure|apply blind_verify]. }
  assert (keeps P execute_run_inner) as Hin.
  { do 3 (apply keeps_bind; [apply keeps_pure|intros _]).
    apply keeps_bind; [by apply keeps_machine_call, HP|]. intros _ w Hw. specialize (Hl w Hw).
    destruct (run_locked w) as [w' r]. by apply (stable_machine _ HP). }
  intros w Hw. unfold execute_run_with_updates.
  specialize (Hin (add_published w) (stable_published _ HP _ Hw)).
  destruct (execute_run_inner _) as [w' r]. by apply (stable_published _ HP).
Qed.
End blind.

(** The published runs are successive states of one run, up to the present one. *)
Definition chain run0 (published : list ExecutionRun) run : Prop :=
  rtc run_step run0 run ∧
  (∀ r, r ∈ published → rtc run_step run0 r ∧ rtc run_step r run) ∧
  (∀ i j a b, i < j → published !! i = Some a → published !! j = Some b → rtc run_step a b).

Definition traced run0 w : Prop := chain run0 w.(World.published) w.(World.run).

Lemma traced_blind run0 : blind (traced run0).
Proof.
  split; [split|..]; unfold traced; simpl; try done.
  - intros w run' (Hr & Hp & Hc) Hs. split_and!; [by etrans| |done].
    intros r [? ?]%Hp. split; [done|by etrans].
  - intros w (Hr & Hp & Hc). split_and!; [done|..].
    + intros r [Hin%Hp|Hin%list_elem_of_singleton]%elem_of_app; [done|]. subst r. by split.
    + intros i j a b Hij [Ha|[-> ->]]%lookup_snoc_Some [Hb|[-> ->]]%lookup_snoc_Some; try done.
      * by eapply Hc.
      * apply list_elem_of_lookup_2, Hp in Ha. apply Ha.
      * apply lookup_lt_Some in Hb. lia.
Qed.
End published.

(** ** The objects of an application *)

Section objects.
Context {H S : Type}.
Context `{RuntimeText, FacadeText, Os S, RuntimeHost H S, BackendDispatcher S, Allocator S}.
Implicit Types (app : DisksGraph H) (w : DisksGraph H * S).

(** A retained attempt: a state of the run its handle names. *)
Record record_ok (id : RunId) (record : RunRecord) : Prop := {
  rk_id : record.(RunRecord.run).(ExecutionRun.run_id) = id;
  rk_run : ∃ doc, reachable doc record.(RunRecord.run);
  rk_error e : record.(RunRecord.error) = Some e → e.(DisksGraphError.run_id) = Some id }.

Record app_ok app : Prop := {
  ao_sessions_bound : size app.(DisksGraph.sessions) ≤ MAX_APPLICATION_OBJECTS;
  ao_plans_bound : size app.(DisksGraph.plans) ≤ MAX_APPLICATION_OBJECTS;
  ao_runs_bound : size app.(DisksGraph.runs) ≤ MAX_APPLICATION_OBJECTS;
  ao_session id session : app.(DisksGraph.sessions) !! id = Some session →
    session_reachable draft_codec serializers session;
  ao_plan id doc : app.(DisksGraph.plans) !! id = Some doc →
    ∃ analysis, analyse_historical graph_text serializers serializers' doc = Ok analysis;
  ao_run id record : app.(DisksGraph.runs) !! id = Some record → record_ok id record }.

Lemma with_root_ok (host : H) : app_ok (with_root host).
Proof. by split; simpl; rewrite ?map_size_empty; try (unfold MAX_APPLICATION_OBJECTS; lia). Qed.

(** Properties of the objects alone. *)
Definition hostless (P : DisksGraph H → Prop) : Prop := ∀ host app, P app → P (set_host host app).
Definition holds_app (P : DisksGraph H → Prop) w : Prop := P w.1.

Lemma app_ok_hostless : hostless app_ok.
Proof. intros host app [???? ? ?]. by split. Qed.

(** The objects are those of [app0]. *)
Definition same_objects app0 app : Prop :=
  app.(DisksGraph.sessions) = app0.(DisksGraph.sessions) ∧
  app.(DisksGraph.plans) = app0.(DisksGraph.plans) ∧ app.(DisksGraph.runs) = app0.(DisksGraph.runs).
Lemma same_objects_hostless app0 : hostless (same_objects app0).
Proof. by intros host app. Qed.

Section hostless.
Context (P : DisksGraph H → Prop) (HP : hostless P).

Lemma holds_host_step {E A} (f : E → DisksGraphError) (m : Sys (H * S) (Failure E) A) :
  keeps (holds_app P) (host_step f m).
Proof. intros w Hw. unfold host_step. destruct (m _) as [[host s] r]. by apply HP. Qed.
Lemma holds_machine_step {E A} (f : E → DisksGraphError) (m : Sys S E A) :
  keeps (holds_app P) (machine_step f m).
Proof. intros w Hw. unfold machine_step. by destruct (m _) as [s r]. Qed.

Lemma holds_operation_capabilities observed operations :
  keeps (holds_app P) (operation_capabilities observed operations).
Proof.
  induction operations as [|operation operations IH]; [apply keeps_pure|].
  apply keeps_bind; [|intros; apply keeps_bind; [done|intros; apply keeps_pure]].
  intros w Hw. unfold operation_capability. destruct (host_availability _ _ _) as [[host s] found].
  by apply HP.
Qed.

Lemma holds_capabilities operations : keeps (holds_app P) (capabilities operations).
Proof.
  unfold capabilities. destruct (_ <? _)%nat; [apply keeps_pure|].
  apply keeps_bind; [apply holds_machine_step|]. intros _ w Hw.
  assert (keeps (holds_app P) (locked_capabilities operations)) as Hk.
  { apply keeps_bind; [apply holds_machine_step|]. intros found.
    apply keeps_bind; [apply holds_host_step|]. intros observed.
    apply keeps_bind; [apply holds_operation_capabilities|]. intros. apply keeps_pure. }
  specialize (Hk w Hw). by destruct (locked_capabilities _ w) as [w' r].
Qed.

Lemma holds_prepare_rebase baseline_id id revision :
  keeps (holds_app P) (app_prepare_rebase baseline_id id revision).
Proof.
  apply keeps_bind; [apply keeps_bind; intros; apply keeps_pure|]. intros actual.
  case_bool_decide; [apply keeps_pure|]. apply keeps_bind; [apply holds_host_step|].
  intros. apply keeps_bind; intros; apply keeps_pure.
Qed.

(** A method of one session. *)
Lemma holds_in_session {E A} (f : E → DisksGraphError) id
    (method : PlanSession → PlanSession * result A (Failure E)) w :
  (∀ session, w.1.(DisksGraph.sessions) !! id = Some session →
     P (set_sessions (<[id := (method session).1]> w.1.(DisksGraph.sessions)) w.1)) →
  P w.1 → P (in_session f id method w).1.1.
Proof.
  intros Hm Hw. unfold in_session, session_of, inspecting, sys_bind.
  destruct (_ !! id) as [session|]; [|done]. simpl. specialize (Hm session eq_refl).
  by destruct (method session) as [session' r].
Qed.
End hostless.

(** *** Bounded maps *)

Lemma size_insert_below {A} (m : gmap Uuid A) id (a : A) n :
  size m < n → size (<[id := a]> m) ≤ n.
Proof. intros Hm. rewrite map_size_insert. case_match; simpl; lia. Qed.
Lemma size_insert_known {A} (m : gmap Uuid A) id (a b : A) : m !! id = Some b → size (<[id := a]> m) = size m.
Proof. intros Hm. by rewrite map_size_insert, Hm. Qed.

(** *** Adding and replacing *)

Lemma app_ok_session app id session :
  app_ok app → session_reachable draft_codec serializers session →
  size app.(DisksGraph.sessions) < MAX_APPLICATION_OBJECTS ∨
    is_Some (app.(DisksGraph.sessions) !! id) →
  app_ok (set_sessions (<[id := session]> app.(DisksGraph.sessions)) app).
Proof.
  intros [Hs Hp Hr Hse Hpl Hru] Hok Hb. split; simpl; try done.
  - destruct Hb as [Hb|[old Hb]]; [by apply size_insert_below|by erewrite size_insert_known].
  - intros id' session' [[<- <-]|[_ Hl]]%lookup_insert_Some; [done|by eapply Hse].
Qed.

Lemma app_ok_run app id record :
  app_ok app → record_ok id record → size app.(DisksGraph.runs) < MAX_APPLICATION_OBJECTS →
  app_ok (set_runs (<[id := record]> app.(DisksGraph.runs)) app).
Proof.
  intros [Hs Hp Hr Hse Hpl Hru] Hok Hb. split; simpl; try done; [by apply size_insert_below|].
  intros id' record' [[<- <-]|[_ Hl]]%lookup_insert_Some; [done|by apply Hru].
Qed.

Lemma size_delete_below {A} (m : gmap Uuid A) id n : size m ≤ n → size (delete id m) ≤ n.
Proof. rewrite map_size_delete. intros. destruct (m !! id); simpl; lia. Qed.

Lemma app_ok_delete app id :
  app_ok app →
  app_ok (set_sessions (delete id app.(DisksGraph.sessions)) app) ∧
  app_ok (set_plans (delete id app.(DisksGraph.plans)) app) ∧
  app_ok (set_runs (delete id app.(DisksGraph.runs)) app).
Proof.
  intros [Hs Hp Hr Hse Hpl Hru].
  split_and!; (split; simpl; try done; [by apply size_delete_below|]);
    intros ? ? [_ ?]%lookup_delete_Some; eauto.
Qed.

(** ** Attempts *)

Lemma attempt_run_traced run host s : run_inv run → traced run (attempt_run run host s).1.
Proof.
  intros Hi. unfold attempt_run. destruct (duplicate_directory s) as [s' cloned].
  set (world := World.mk _ _ _ _ _ _).
  assert (traced run world) as Hw.
  { split_and!; [done| |done]. by intros r ?%elem_of_nil. }
  destruct cloned as [[]|e]; [|done].
  pose proof (blind_run _ (traced_blind run) world Hw) as Ht.
  by destruct (execute_run_with_updates world) as [world' r].
Qed.

(** What an attempt leaves: nothing at all, or a record of the run it drove. *)
Definition attempted run_id doc source_map w w' (published : list ExecutionRun)
    (r : result RunId (Failure DisksGraphError)) : Prop :=
  w'.1.(DisksGraph.sessions) = w.1.(DisksGraph.sessions) ∧
  w'.1.(DisksGraph.plans) = w.1.(DisksGraph.plans) ∧
  let retained error :=
    size w.1.(DisksGraph.runs) < MAX_APPLICATION_OBJECTS ∧
    ∃ init run, execution_run_new graph_text serializers serializers' run_id doc = Ok init ∧
      chain init published run ∧
      w'.1.(DisksGraph.runs) =
        <[run_id := RunRecord.mk run source_map error]> w.1.(DisksGraph.runs) in
  match r with
  | Ok id => id = run_id ∧ retained None
  | Err (Reported e) =>
      match e.(DisksGraphError.run_id) with
      | Some id => id = run_id ∧ retained (Some e)
      | None => w' = w ∧ published = []
      end
  | Err _ => w'.1.(DisksGraph.runs) = w.1.(DisksGraph.runs)
  end.

Lemma run_error_unretained e : (run_error e).(DisksGraphError.run_id) = None.
Proof. done. Qed.

Lemma new_run_id display json json' run_id doc run :
  execution_run_new display json json' run_id doc = Ok run → run.(ExecutionRun.run_id) = run_id.
Proof. unfold execution_run_new. destruct (map_failure _ _); [|done]. by intros [= <-]. Qed.

Lemma apply_document_spec run_id doc source_map w :
  let '(w', (published, r)) := apply_document_with_updates run_id doc source_map w in
  attempted run_id doc source_map w w' published r.
Proof.
  unfold apply_document_with_updates.
  destruct (Nat.leb_spec MAX_APPLICATION_OBJECTS (size w.1.(DisksGraph.runs))) as [Hb|Hb]; [done|].
  destruct (try_reserve w.2) as [message|]; [done|].
  destruct (execution_run_new _ _ _ _ _) as [run|[e| |]] eqn:Hnew; simpl; [|done..].
  pose proof (new_run_inv _ _ _ _ _ _ Hnew) as Hi.
  pose proof (attempt_run_traced run w.1.(DisksGraph.host) w.2 Hi) as Ht.
  destruct (attempt_run _ _ _) as [world r]. simpl in Ht.
  assert (world.(World.run).(ExecutionRun.run_id) = run_id) as Hid.
  { destruct Ht as [Hs _]. rewrite <-(new_run_id _ _ _ _ _ _ Hnew). by apply run_steps_id. }
  unfold retain. rewrite Hid. destruct r as [[]|[e| |]]; unfold attempted; simpl; eauto 10.
Qed.

Lemma attempted_ok run_id doc source_map w w' published r :
  attempted run_id doc source_map w w' published r → app_ok w.1 → app_ok w'.1.
Proof.
  assert (∀ error, (∀ e, error = Some e → e.(DisksGraphError.run_id) = Some run_id) →
    w'.1.(DisksGraph.sessions) = w.1.(DisksGraph.sessions) →
    w'.1.(DisksGraph.plans) = w.1.(DisksGraph.plans) →
    size w.1.(DisksGraph.runs) < MAX_APPLICATION_OBJECTS ∧
    (∃ init run, execution_run_new graph_text serializers serializers' run_id doc = Ok init ∧
      chain init published run ∧
      w'.1.(DisksGraph.runs) =
        <[run_id := RunRecord.mk run source_map error]> w.1.(DisksGraph.runs)) →
    app_ok w.1 → app_ok w'.1) as Hret.
  { intros error He Hs Hp (Hb & init & run & Hnew & Hc & Hr) Hok.
    apply (app_ok_hostless w'.1.(DisksGraph.host)) in Hok.
    replace w'.1 with (set_runs (<[run_id := RunRecord.mk run source_map error]>
      w.1.(DisksGraph.runs)) (set_host w'.1.(DisksGraph.host) w.1)).
    2:{ destruct w'.1. simpl in *. by subst. }
    apply (app_ok_run _ _ _ Hok); [|done].
    pose proof (new_run_inv _ _ _ _ _ _ Hnew) as Hi. destruct Hc as (Hsteps & _).
    split; simpl; [|by exists doc; repeat eexists|done].
    rewrite <-(new_run_id _ _ _ _ _ _ Hnew). by apply run_steps_id. }
  intros (Hs & Hp & Hr) Hok. destruct r as [id|[e| |]].
  - destruct Hr as [_ Hr]. refine (Hret None _ Hs Hp Hr Hok). done.
  - destruct (DisksGraphError.run_id e) as [id|] eqn:He; [|by destruct Hr as [-> _]].
    destruct Hr as [-> Hr]. refine (Hret (Some e) _ Hs Hp Hr Hok). by intros ? [= <-].
  - destruct Hok as [? ? ? ? ? ?]. by split; rewrite ?Hs, ?Hp, ?Hr.
  - destruct Hok as [? ? ? ? ? ?]. by split; rewrite ?Hs, ?Hp, ?Hr.
Qed.
End objects.

(** ** Sequences of operations *)

Section steps.
Context {H S : Type}.
Context `{RuntimeText, FacadeText, Os S, RuntimeHost H S, BackendDispatcher S, Allocator S}.
Implicit Types (app : DisksGraph H) (w : DisksGraph H * S).

(** A call of the application; anything may happen to the host and the machine
    in between. *)
Inductive app_step w : DisksGraph H * S → Prop :=
| as_probe : app_step w (app_probe w).1
| as_capabilities operations : app_step w (capabilities operations w).1
| as_create baseline_id session_id handle :
    is_nil session_id = false → app_step w (create_session baseline_id session_id handle w).1
| as_import handle document :
    (document.(DraftDocument.revision) <= u64_MAX)%N → app_step w (import_draft handle document w).1
| as_edit id revision new_id new_node command :
    (∀ session, w.1.(DisksGraph.sessions) !! id = Some session →
       fresh_for session.(PlanSession.baseline) session.(PlanSession.draft) new_id new_node) →
    app_step w (app_edit id revision new_id new_node command w).1
| as_undo id revision : app_step w (app_undo id revision w).1
| as_redo id revision : app_step w (app_redo id revision w).1
| as_prepare baseline_id id revision : app_step w (app_prepare_rebase baseline_id id revision w).1
| as_accept id revision candidate session expected baseline :
    prepare_rebase serializers session expected baseline = Ok candidate →
    app_step w (app_accept_rebase id revision candidate w).1
| as_plan handle document : app_step w (import_plan handle document w).1
| as_apply run_id document source_map :
    app_step w (apply_document_with_updates run_id document source_map w).1
| as_close_session id : app_step w (close_session id w).1
| as_close_plan id : app_step w (close_plan id w).1
| as_close_run id : app_step w (close_run id w).1
| as_elsewhere host s : app_step w (set_host host w.1, s).

Lemma session_limit_spec w :
  outcome check_session_limit w
    (λ _ w', w' = w ∧ size w.1.(DisksGraph.sessions) < MAX_APPLICATION_OBJECTS) (λ _ w', w' = w).
Proof.
  unfold outcome, check_session_limit, inspecting.
  by destruct (Nat.leb_spec MAX_APPLICATION_OBJECTS (size w.1.(DisksGraph.sessions))).
Qed.

Lemma create_session_ok baseline_id session_id handle w :
  is_nil session_id = false → app_ok w.1 → app_ok (create_session baseline_id session_id handle w).1.1.
Proof.
  intros Hnil Hok. enough (outcome (create_session baseline_id session_id handle) w
    (λ _ w', app_ok w'.1) (λ _ w', app_ok w'.1)) as Ho.
  { unfold outcome in Ho. by destruct (create_session _ _ _ _) as [w' []]. }
  apply outcome_bind. eapply outcome_mono; [apply session_limit_spec|simpl|by intros ?? ->].
  intros _ w1 [-> Hb]. apply outcome_bind. unfold outcome at 1, probe_host, host_step.
  destruct (host_probe _) as [[host s] [observed|[]]]; cbn [map_failure]; try by apply app_ok_hostless.
  apply outcome_bind, outcome_of; [|intros; by apply app_ok_hostless]. intros session Hs%map_failure_Ok.
  unfold outcome, insert_session, sys_bind, changing, sys_return. simpl.
  apply (app_ok_session (set_host host w.1)); [by apply app_ok_hostless|by eapply reach_new|by left].
Qed.

Lemma import_draft_ok handle document w :
  (document.(DraftDocument.revision) <= u64_MAX)%N → app_ok w.1 → app_ok (import_draft handle document w).1.1.
Proof.
  intros Hrev Hok. enough (outcome (import_draft handle document) w
    (λ _ w', app_ok w'.1) (λ _ w', app_ok w'.1)) as Ho.
  { unfold outcome in Ho. by destruct (import_draft _ _ _) as [w' []]. }
  apply outcome_bind. eapply outcome_mono; [apply session_limit_spec|simpl|by intros ?? ->].
  intros _ w1 [-> Hb]. apply outcome_bind, outcome_of; [|done]. intros session Hs%map_failure_Ok.
  unfold outcome, insert_session, sys_bind, changing, sys_return. simpl.
  apply app_ok_session; [done|by eapply reach_open|by left].
Qed.

Lemma import_plan_ok handle document w : app_ok w.1 → app_ok (import_plan handle document w).1.1.
Proof.
  intros Hok. enough (outcome (import_plan handle document) w
    (λ _ w', app_ok w'.1) (λ _ w', app_ok w'.1)) as Ho.
  { unfold outcome in Ho. by destruct (import_plan _ _ _) as [w' []]. }
  apply outcome_bind. unfold outcome at 1, inspecting.
  destruct (Nat.leb_spec MAX_APPLICATION_OBJECTS (size w.1.(DisksGraph.plans))) as [|Hb]; [done|].
  apply outcome_bind, outcome_of; [|done]. intros analysis Ha%map_failure_Ok.
  unfold outcome, sys_bind, changing, sys_return. simpl.
  destruct Hok as [Hs Hp Hr Hse Hpl Hru]. split; simpl; try done; [by apply size_insert_below|].
  intros id doc [[<- <-]|[_ Hl]]%lookup_insert_Some; [by eexists|by eapply Hpl].
Qed.

(** A session method that keeps sessions reachable. *)
Lemma in_session_ok {E A} (f : E → DisksGraphError) id
    (method : PlanSession → PlanSession * result A (Failure E)) w :
  (∀ session, w.1.(DisksGraph.sessions) !! id = Some session →
     session_reachable draft_codec serializers session →
     session_reachable draft_codec serializers (method session).1) →
  app_ok w.1 → app_ok (in_session f id method w).1.1.
Proof.
  intros Hm Hok. apply holds_in_session; [|done]. intros session Hs.
  apply app_ok_session; [done|apply Hm; [done|by eapply ao_session]|right; by eexists].
Qed.

Lemma app_step_ok w w' : app_ok w.1 → app_step w w' → app_ok w'.1.
Proof.
  pose proof (app_ok_hostless (H:=H)) as Hh.
  intros Hok [|operations|b sid h Hnil|h doc Hrev|id rev ni nn c Hf|id rev|id rev|b id rev
    |id rev c session e b Hp|h doc|rid doc sm|id|id|id|host s].
  - apply (keeps_bind (holds_app app_ok)); [by apply holds_host_step|intros; apply keeps_pure|done].
  - by apply (holds_capabilities app_ok).
  - by apply create_session_ok.
  - by apply import_draft_ok.
  - apply in_session_ok; [|done]. intros session Hs Hr. apply reach_edit; [done|by apply Hf].
  - apply in_session_ok; [|done]. intros session _ Hr. by apply reach_undo.
  - apply in_session_ok; [|done]. intros session _ Hr. by apply reach_redo.
  - by apply (holds_prepare_rebase app_ok).
  - apply in_session_ok; [|done]. intros s0 _ Hr. by eapply reach_rebase.
  - by apply import_plan_ok.
  - pose proof (apply_document_spec rid doc sm w) as Ha.
    destruct (apply_document_with_updates _ _ _ _) as [w1 [published r]]. by eapply attempted_ok.
  - unfold close_session, session_of, inspecting, sys_bind, changing.
    destruct (_ !! id); [|done]. by apply app_ok_delete.
  - unfold close_plan, export_plan, inspecting, sys_bind, changing.
    destruct (_ !! id); [|done]. by apply app_ok_delete.
  - unfold close_run, run_of, inspecting, sys_bind, changing.
    destruct (_ !! id); [|done]. by apply app_ok_delete.
  - by apply Hh.
Qed.
End steps.

(** ** Updates *)

Section updates.
Context {H S : Type}.
Context `{RuntimeText, FacadeText, Os S, RuntimeHost H S, BackendDispatcher S, Allocator S}.
Implicit Types (w : DisksGraph H * S).

Lemma publishes_counter run run' :
  publishes run run' → (run.(ExecutionRun.next_event_sequence) <= run'.(ExecutionRun.next_event_sequence))%N.
Proof. induction 1 as [run ? _|run ? run' _ _ IH]; destruct run; simpl in *; lia. Qed.

Lemma run_step_counter run run' :
  run_inv run → run_step run run' →
  (run.(ExecutionRun.next_event_sequence) <= run'.(ExecutionRun.next_event_sequence))%N.
Proof.
  intros Hi Hs. apply run_step_cases in Hs as [->|(mid & Ht & Hp)]; [done| |apply Hi].
  apply publishes_counter in Hp. etrans; [|done]. by destruct Ht; destruct run.
Qed.

Lemma run_steps_counter run run' :
  run_inv run → rtc run_step run run' →
  (run.(ExecutionRun.next_event_sequence) <= run'.(ExecutionRun.next_event_sequence))%N.
Proof.
  intros Hi Hr. induction Hr as [|a b c Hab _ IH]; [done|].
  etrans; [by apply run_step_counter|]. apply IH. by eapply run_step_inv.
Qed.

(** A run in order has a snapshot, numbered by its last event. *)
Lemma snapshot_ok run :
  run_inv run → ∃ found, snapshot run = Ok found ∧
    found.(RunSnapshot.event_sequence) = (run.(ExecutionRun.next_event_sequence) - 1)%N ∧
    found.(RunSnapshot.verified) = is_verified run ∧
    found.(RunSnapshot.observation) = run.(ExecutionRun.latest_observation).
Proof.
  intros Hi. destruct (inv_events _ Hi) as [Hc _ _]. unfold snapshot, u64_checked_sub.
  rewrite (proj2 (N.leb_le 1 _)) by lia. simpl. by eexists.
Qed.

(** What an update says about the run it was made of. *)
Definition shows_run (update : AttemptSnapshot * EventsPage) run : Prop :=
  update.1.(AttemptSnapshot.execution).(RunSnapshot.event_sequence) =
    (run.(ExecutionRun.next_event_sequence) - 1)%N ∧
  update.1.(AttemptSnapshot.execution).(RunSnapshot.verified) = is_verified run ∧
  update.2.(EventsPage.next_sequence) = (run.(ExecutionRun.next_event_sequence) - 1)%N ∧
  update.2.(EventsPage.events) = run.(ExecutionRun.events).

Lemma filter_every {A} (P : A → Prop) `{!∀ x, Decision (P x)} (l : list A) :
  (∀ x, x ∈ l → P x) → filter P l = l.
Proof.
  induction l as [|x l IH]; intros Hl; [done|]. rewrite filter_cons_True by (apply Hl; left).
  rewrite IH; [done|]. intros y Hy. apply Hl. by right.
Qed.

Lemma events_since_start run : run_inv run → events_since run 0 = run.(ExecutionRun.events).
Proof.
  intros Hi. destruct (inv_events _ Hi) as [_ _ Hs]. unfold events_since.
  apply filter_every. intros e [k Hk]%list_elem_of_lookup.
  destruct (Hs k e Hk) as [_ Heq]. destruct (inv_events _ Hi) as [Hc Hl _].
  apply lookup_lt_Some in Hk. unfold MAX_RUN_EVENTS in *. lia.
Qed.

Lemma live_update_ok run :
  run_inv run → ∃ update, live_update run = Ok update ∧
    update.1.(AttemptSnapshot.execution).(RunSnapshot.finished) = false ∧ shows_run update run.
Proof.
  intros Hi. destruct (snapshot_ok run Hi) as ([] & Hs & He & Hv & _). unfold live_update. rewrite Hs.
  eexists. split; [done|]. split; [done|]. split_and!; try done. simpl. by apply events_since_start.
Qed.

Lemma live_updates_ok runs :
  Forall run_inv runs → ∃ updates, try_map live_update runs = Ok updates ∧
    Forall2 (λ update run, update.1.(AttemptSnapshot.execution).(RunSnapshot.finished) = false ∧
                           shows_run update run) updates runs.
Proof.
  induction 1 as [|run runs Hi _ (updates & Hu & Hf)];
    [exists []; split; [done|constructor]|].
  destruct (live_update_ok run Hi) as (update & He & Hs). exists (update :: updates).
  simpl. rewrite He, Hu. split; [done|]. by constructor.
Qed.

Lemma events_page_start run :
  run_inv run → ∃ page, events_page run 0 = Ok page ∧
    page.(EventsPage.next_sequence) = (run.(ExecutionRun.next_event_sequence) - 1)%N ∧
    page.(EventsPage.events) = run.(ExecutionRun.events).
Proof.
  intros Hi. destruct (inv_events _ Hi) as [Hc Hl Hs]. unfold events_page, u64_checked_sub.
  rewrite (proj2 (N.leb_le 1 _)) by lia. cbn [ok_or]. rewrite (proj2 (N.ltb_ge _ 0)) by lia.
  rewrite events_since_start by done.
  destruct (head run.(ExecutionRun.events)) as [first|] eqn:Hh; [|by eexists].
  rewrite head_lookup in Hh. destruct (Hs 0 first Hh) as [_ Hf].
  apply lookup_lt_Some in Hh. rewrite (proj2 (N.leb_le 1 _)); [by eexists|].
  unfold MAX_RUN_EVENTS in *. lia.
Qed.

(** The retained record, read back. *)
Lemma read_record id record w :
  w.1.(DisksGraph.runs) !! id = Some record → run_inv record.(RunRecord.run) →
  ∃ found page, run_snapshot id w = (w, Ok found) ∧ app_events id 0 w = (w, Ok page) ∧
    found.(AttemptSnapshot.execution).(RunSnapshot.finished) = true ∧
    found.(AttemptSnapshot.error) = record.(RunRecord.error) ∧
    found.(AttemptSnapshot.source_map) = record.(RunRecord.source_map) ∧
    found.(AttemptSnapshot.execution).(RunSnapshot.observation) =
      record.(RunRecord.run).(ExecutionRun.latest_observation) ∧
    shows_run (found, page) record.(RunRecord.run).
Proof.
  intros Hl Hi. destruct (snapshot_ok _ Hi) as ([] & Hs & He & Hv & Ho).
  destruct (events_page_start _ Hi) as (page & Hp & Hn & Hes).
  unfold run_snapshot, app_events, run_of, inspecting, sys_bind, sys_of. rewrite Hl. simpl.
  rewrite Hs, Hp. do 2 eexists. split_and!; try done.
Qed.
End updates.

(** ** Theorems *)

Section theorems.
Context {H S : Type}.
Context `{RuntimeText, FacadeText, Os S, RuntimeHost H S, BackendDispatcher S, Allocator S}.
Implicit Types (w : DisksGraph H * S).

(** C24: After any sequence of calls of an application, with anything happening to
    the host and the machine in between, it retains at most 64 sessions, 64
    plans and 64 attempts; every session is one the editor can reach, every
    plan passes its historical analysis, and every attempt is a state of the
    run its handle names, with an error that names it. *)
Theorem application_invariant (host : H) (s : S) w :
  rtc app_step (with_root host, s) w → app_ok w.1.
Proof.
  intros Hr. pose proof (with_root_ok host) as Hok.
  remember (with_root host, s) as w0 eqn:He. change (with_root host) with (with_root host, s).1 in Hok.
  rewrite <-He in Hok. clear He. induction Hr as [|a b c Hab _ IH]; [done|].
  by apply IH; eapply app_step_ok.
Qed.

(** C25: Applying a document touches no session and no plan.  It reports an error
    without a handle only when it has changed nothing at all; otherwise the
    attempt is retained under its identity, with the error it returned, and the
    runs it showed to the observer are successive states of that run. *)
Theorem attempts_retained run_id doc source_map w :
  let '(w', (published, r)) := apply_document_with_updates run_id doc source_map w in
  attempted run_id doc source_map w w' published r.
Proof. apply apply_document_spec. Qed.

Lemma chain_inv init published run :
  run_inv init → chain init published run → Forall run_inv (published ++ [run]).
Proof.
  intros Hi (Hr & Hp & _). apply Forall_app. split; [|constructor; [|constructor]].
  - apply Forall_forall. intros r [Hs _]%Hp. by eapply run_steps_inv.
  - by eapply run_steps_inv.
Qed.

Lemma chain_counter init published run i j a b :
  run_inv init → chain init published run → i ≤ j →
  (published ++ [run]) !! i = Some a → (published ++ [run]) !! j = Some b →
  (a.(ExecutionRun.next_event_sequence) <= b.(ExecutionRun.next_event_sequence))%N.
Proof.
  intros Hi Hc Hij Ha Hb. destruct (decide (i = j)) as [->|Hne]; [by simplify_eq|].
  pose proof (chain_inv _ _ _ Hi Hc) as Hall. destruct Hc as (_ & Hp & Hord).
  apply run_steps_counter; [by eapply Forall_lookup_1 in Hall|].
  apply lookup_snoc_Some in Ha as [Ha|[-> ->]].
  - apply lookup_snoc_Some in Hb as [Hb|[-> ->]]; [eapply Hord; [|done..]; lia|].
    by apply list_elem_of_lookup_2, Hp in Ha as [_ ?].
  - apply lookup_lt_Some in Hb. rewrite length_app in Hb. simpl in Hb. lia.
Qed.

(** What a client that follows an attempt sees. *)
Definition followed run_id w w' (updates : list (AttemptSnapshot * EventsPage))
    (r : result RunId (Failure DisksGraphError)) : Prop :=
  (∀ i j a b, i ≤ j → updates !! i = Some a → updates !! j = Some b →
     (a.1.(AttemptSnapshot.execution).(RunSnapshot.event_sequence) <=
      b.1.(AttemptSnapshot.execution).(RunSnapshot.event_sequence))%N) ∧
  match r with
  | Err (Reported e) => e.(DisksGraphError.run_id) = None → w' = w ∧ updates = []
  | _ => True
  end ∧
  ∀ id, retained_id r = Some id → id = run_id ∧ ∃ live final,
    updates = live ++ [final] ∧
    (∀ u, u ∈ live → u.1.(AttemptSnapshot.execution).(RunSnapshot.finished) = false) ∧
    final.1.(AttemptSnapshot.execution).(RunSnapshot.finished) = true ∧
    run_snapshot id w' = (w', Ok final.1) ∧ app_events id 0 w' = (w', Ok final.2).

(** The updates of an attempt followed by its record. *)
Lemma retained_followed run_id w w' init published run source_map error live r :
  run_inv init → chain init published run →
  w'.1.(DisksGraph.runs) = <[run_id := RunRecord.mk run source_map error]> w.1.(DisksGraph.runs) →
  Forall2 (λ update run, update.1.(AttemptSnapshot.execution).(RunSnapshot.finished) = false ∧
                         shows_run update run) live published →
  retained_id r = Some run_id →
  ∃ final, run_snapshot run_id w' = (w', Ok final.1) ∧ app_events run_id 0 w' = (w', Ok final.2) ∧
    followed run_id w w' (live ++ [final]) r.
Proof.
  intros Hi Hc Hr Hlive Hret. pose proof (chain_inv _ _ _ Hi Hc) as Hall.
  destruct (read_record run_id (RunRecord.mk run source_map error) w') as
    (found & page & Hs & Hp & Hf & _ & _ & _ & Hshow); [by rewrite Hr, lookup_insert_eq| |].
  { by apply Forall_app in Hall as [_ [? _]%Forall_cons]. }
  exists (found, page). split_and!; [done..|].
  assert (Forall2 shows_run (live ++ [(found, page)]) (published ++ [run])) as Hshows.
  { apply Forall2_app; [|by constructor]. eapply Forall2_impl; [exact Hlive|]. by intros ?? []. }
  split_and!.
  - intros i j a b Hij Ha Hb.
    destruct (Forall2_lookup_l _ _ _ _ _ Hshows Ha) as (ra & Hra & -> & _).
    destruct (Forall2_lookup_l _ _ _ _ _ Hshows Hb) as (rb & Hrb & -> & _).
    pose proof (chain_counter _ _ _ i j ra rb Hi Hc Hij Hra Hrb). lia.
  - destruct r as [|[e| |]]; try done. simpl in Hret. by rewrite Hret.
  - intros id. rewrite Hret. intros [= <-]. split; [done|]. exists live, (found, page).
    split_and!; try done. intros u [k Hk]%list_elem_of_lookup.
    by destruct (Forall2_lookup_l _ _ _ _ _ Hlive Hk) as (ru & _ & ? & _).
Qed.

Lemma published_inv run_id doc source_map w :
  Forall run_inv (apply_document_with_updates run_id doc source_map w).2.1.
Proof.
  unfold apply_document_with_updates. destruct (_ <=? _)%nat; [constructor|].
  destruct (try_reserve w.2); [constructor|].
  destruct (execution_run_new _ _ _ _ _) as [run|[e| |]] eqn:Hnew; simpl; [|constructor..].
  pose proof (new_run_inv _ _ _ _ _ _ Hnew) as Hi.
  pose proof (attempt_run_traced run w.1.(DisksGraph.host) w.2 Hi) as Ht.
  destruct (attempt_run _ _ _) as [world r]. destruct (retain _ _ _ _) as [w' r'].
  by apply (chain_inv run), Forall_app in Ht as [? _].
Qed.

(** What the observer adds: nothing but the updates. *)
Lemma plan_updates_spec run_id plan document w :
  w.1.(DisksGraph.plans) !! plan = Some document →
  let '(w', (updates, r)) := apply_plan_with_updates run_id plan w in
  apply_document run_id document [] w = (w', r) ∧
  (r = Err Panicked ∨ r = Err OutOfFuel ∨ followed run_id w w' updates r).
Proof.
  intros Hdoc. unfold apply_plan_with_updates, export_plan, inspecting, apply_document.
  rewrite Hdoc. simpl. pose proof (apply_document_spec run_id document [] w) as Ha.
  pose proof (published_inv run_id document [] w) as Hall.
  destruct (apply_document_with_updates _ _ _ _) as [w' [published r]]. simpl in Hall.
  destruct (live_updates_ok published Hall) as (live & -> & Hlive).
  destruct Ha as (_ & _ & Hr). destruct (retained_id r) as [id|] eqn:Hret.
  - assert (id = run_id ∧ ∃ error init run,
      execution_run_new graph_text serializers serializers' run_id document = Ok init ∧
      chain init published run ∧
      w'.1.(DisksGraph.runs) = <[run_id := RunRecord.mk run [] error]> w.1.(DisksGraph.runs))
      as (-> & error & init & run & Hnew & Hc & Hruns).
    { destruct r as [?|[e| |]]; simpl in Hret; simplify_eq; [|rewrite Hret in Hr];
        destruct Hr as (-> & _ & init & run & ?); split; eauto 6. }
    apply new_run_inv in Hnew as Hi.
    destruct (retained_followed run_id w w' init published run [] error live r)
      as ([found page] & Hs & Hp & Hf); [done..|].
    unfold sys_bind. rewrite Hs. simpl. rewrite Hp. simpl. auto.
  - split; [done|]. destruct r as [?|[e| |]]; simpl in Hret; [done| |by auto..].
    rewrite Hret in Hr. destruct Hr as [-> ->]. inversion Hlive; subst. right; right.
    split_and!; try done. simpl. by rewrite Hret.
Qed.

(** A client that follows an attempt sees the states of its run in order, by
    the number of the last event, each marked unfinished, and at the end exactly
    the snapshot and the events the application retains, marked finished; a
    refusal shows nothing and changes nothing.  Following changes neither the
    outcome nor the state the attempt has without an observer. *)
Theorem plan_updates_followed run_id plan document w :
  w.1.(DisksGraph.plans) !! plan = Some document →
  let '(w', (updates, r)) := apply_plan_with_updates run_id plan w in
  apply_document run_id document [] w = (w', r) ∧
  (r = Err Panicked ∨ r = Err OutOfFuel ∨ followed run_id w w' updates r).
Proof. apply plan_updates_spec. Qed.
End theorems.

(** ** The goal of an applied document *)

(** The summary of a run reports the flag of the run it leaves behind. *)
Section summary.
Context {H S : Type} `{RuntimeText, Os S, RuntimeHost H S, BackendDispatcher S}.
Implicit Types (w : World H S).

Definition reports_run (found : ExecutionSummary) w : Prop :=
  found.(ExecutionSummary.verified) = is_verified w.(World.run).

Lemma run_actions_summary ordered w :
  outcome (run_actions ordered) w (λ r w', ∀ found, r = Some found → reports_run found w') (λ _ _, True).
Proof.
  revert w. induction ordered as [|action ordered IH]; intros w; [done|].
  apply outcome_bind, outcome_skip. intros state w1.
  destruct state; try done; (apply outcome_bind, outcome_skip; intros state' w2;
    apply outcome_bind, outcome_modify; case_bool_decide; [by intros found [= <-]|apply IH]).
Qed.

Lemma execute_run_summary w w' found : execute_run w = (w', Ok found) → reports_run found w'.
Proof.
  assert (∀ w, outcome run_locked w reports_run (λ _ _, True)) as Hl.
  { intros w1. do 3 (apply outcome_bind, outcome_skip; intros ? ?). case_bool_decide; [done|].
    apply outcome_bind, outcome_skip. intros ordered w2. apply outcome_bind.
    eapply outcome_mono; [apply run_actions_summary| |done]. intros [stopped|] w3 Hs; [by apply Hs|].
    do 5 (apply outcome_bind, outcome_skip; intros ? ?). done. }
  assert (outcome execute_run_inner (add_published w) reports_run (λ _ _, True)) as Hin.
  { do 3 (apply outcome_bind, outcome_skip; intros ? ?). apply outcome_bind, outcome_skip.
    intros [] w1. specialize (Hl w1). unfold outcome in *.
    by destruct (run_locked _) as [? []]. }
  unfold execute_run, execute_run_with_updates, outcome in *.
  destruct (execute_run_inner _) as [w1 [found'|e]]; [|done]. intros [= <- <-]. exact Hin.
Qed.
End summary.

(** The attempt that [apply_document_with_updates] returns a handle of. *)
Lemma applied_goal
    {S} `{RuntimeText, FacadeText, Os S, HostPolicies S, BackendDispatcher S, Allocator S,
          !OsLaws S, !CodecLaws}
    run_id doc source_map (w w' : DisksGraph LinuxLiveHost * S) published id found :
  ids_u32 doc → NoDup doc.(PlanDocument.requested_goal).(DesiredState.graph).(NodeGraph.relations) →
  serializers_faithful serializers → serializers_faithful serializers' →
  apply_document_with_updates run_id doc source_map w = (w', (published, Ok id)) →
  run_snapshot id w' = (w', Ok found) →
  found.(AttemptSnapshot.execution).(RunSnapshot.verified) = true →
  ∃ run observation known, w'.1.(DisksGraph.runs) !! id = Some (RunRecord.mk run source_map None) ∧
    found.(AttemptSnapshot.execution).(RunSnapshot.observation) = Some observation ∧
    (run_context run).(ExecutionContext.requested_goal) = doc.(PlanDocument.requested_goal) ∧
    goal_established (run_context run) observation known.
Proof.
  intros Hids Hnd Hj Hj' He Hsnap Hver. unfold apply_document_with_updates in He.
  destruct (_ <=? _)%nat; [done|]. destruct (try_reserve w.2); [done|].
  destruct (execution_run_new _ _ _ _ _) as [run|[e| |]] eqn:Hnew; simpl in He; [|done..].
  pose proof (new_run_inv _ _ _ _ _ _ Hnew) as Hi. unfold attempt_run in He.
  destruct (duplicate_directory w.2) as [s [[]|e]]; [|done].
  set (w0 := World.mk run (coordinator_new run) w.1.(DisksGraph.host) s [] []) in He.
  assert (settled run w0) as Hset.
  { apply session_settled; [done|]. by exists w0. }
  destruct (execute_run_with_updates w0) as [world [summary|[e| |]]] eqn:Hrun; simpl in He; [|done..].
  change (execute_run_with_updates w0) with (execute_run w0) in Hrun.
  injection He as <- _ <-.
  destruct (execute_run_spec run Hi w0 world summary Hset Hrun) as [[Hp _] _].
  pose proof (protocol_run run Hi _ Hp) as Hi'.
  destruct (read_record world.(World.run).(ExecutionRun.run_id)
    (RunRecord.mk world.(World.run) source_map None)
    (set_runs (<[world.(World.run).(ExecutionRun.run_id) := RunRecord.mk world.(World.run) source_map None]>
      w.1.(DisksGraph.runs)) (set_host world.(World.host) w.1), world.(World.machine)))
    as (found' & page & Hs & _ & _ & _ & _ & Hobs & _ & Hv & _);
    [by apply lookup_insert_eq|done|]. simpl in Hs, Hsnap. rewrite Hs in Hsnap. injection Hsnap as ->.
  simpl in Hv, Hobs. rewrite Hver in Hv.
  rewrite <-(execute_run_summary _ _ _ Hrun) in Hv.
  destruct (execute_run_spec run Hi w0 world summary Hset Hrun) as [_ Hgoal].
  destruct (Hgoal (eq_sym Hv)) as ((rep & Hrep & known & _ & Hc) & Hver' & _).
  assert (attempt doc world.(World.run)) as Hat.
  { exists graph_text, serializers, serializers', run_id, run. split_and!; try done. apply Hp. }
  destruct (verified_run_goal correlation_text doc world.(World.run) rep known) as (Hg & Hreq & _ & Hl);
    [done..|].
  exists world.(World.run), rep.(GoalVerificationReport.observation), known.
  split_and!; [by apply lookup_insert_eq|by rewrite Hobs|done..].
Qed.

(** When the application over the Linux host returns a handle and the snapshot
    it retains says verified, the goal the document asks for holds of the
    observation in the snapshot; whatever the probe, the policies and the
    backends do. *)
Theorem applied_document_reaches_goal
    {S} `{RuntimeText, FacadeText, Os S, HostPolicies S, BackendDispatcher S, Allocator S,
          !OsLaws S, !CodecLaws}
    run_id doc source_map (w w' : DisksGraph LinuxLiveHost * S) id found :
  ids_u32 doc → NoDup doc.(PlanDocument.requested_goal).(DesiredState.graph).(NodeGraph.relations) →
  serializers_faithful serializers → serializers_faithful serializers' →
  apply_document run_id doc source_map w = (w', Ok id) →
  run_snapshot id w' = (w', Ok found) →
  found.(AttemptSnapshot.execution).(RunSnapshot.verified) = true →
  ∃ run observation known, w'.1.(DisksGraph.runs) !! id = Some (RunRecord.mk run source_map None) ∧
    found.(AttemptSnapshot.execution).(RunSnapshot.observation) = Some observation ∧
    (run_context run).(ExecutionContext.requested_goal) = doc.(PlanDocument.requested_goal) ∧
    goal_established (run_context run) observation known.
Proof.
  intros Hids Hnd Hj Hj' He Hsnap Hver. unfold apply_document in He.
  destruct (apply_document_with_updates _ _ _ _) as [w1 [published r]] eqn:Hu. injection He as -> ->.
  by eapply applied_goal.
Qed.
