(* ===== verification/Requests.v ===== *)
(** * Application requests: [disksgraph/src/wire.rs] and [native.rs]

    The versioned JSON protocol around one application: the requests, their
    classification, the retained reviews, and the replies.  The derived encoders
    of [serde] are written out where they redact a text
    ([storage-core/src/diagnostics.rs]); the other encoders and the decoder are
    parameters. *)

From S2P Require Import Prelude Model Reach Graph GraphOrder GraphValid State Action Contract.
From S2P Require Import Logical Evidence Prerequisites Effects Report PlanOrder Compose Simulate.
From S2P Require Import Wire Observation Correlate Observe Execution Live LiveGoal Draft Build.
From S2P Require Import Session Documents Json Native Recipes Scope Bindings.
From S2P Require Import Targets.
From S2P Require Import Targets Checkpoint Host Incident Coordinator.
From S2P Require Import Facade.

#[local] Open Scope string_scope.
#[local] Open Scope list_scope.

(** ** Requests *)

Definition PROTOCOL_VERSION : N := 1.
Definition MAX_REQUEST_BYTES : N := MAX_PLAN_JSON_BYTES.

Module Request.
Inductive Request :=
| Probe
| SessionCreate
| SessionImport (draft : DraftDocument)
| SessionEdit (session : SessionId) (revision : DraftRevision) (edit : PlanEdit)
| SessionUndo (session : SessionId) (revision : DraftRevision)
| SessionRedo (session : SessionId) (revision : DraftRevision)
| SessionPreview (session : SessionId)
| SessionExport (session : SessionId)
| SessionFreeze (session : SessionId) (revision : DraftRevision)
| SessionPrepareRebase (session : SessionId) (revision : DraftRevision)
| SessionAcceptRebase (session : SessionId) (revision : DraftRevision) (review : Uuid)
| ReviewClose (review : Uuid)
| SessionClose (session : SessionId)
| PlanImport (document : PlanDocument)
| PlanExport (plan : PlanId)
| PlanClose (plan : PlanId)
| Capabilities (operations : list ProviderAction)
| ApplyBlocking (plan : PlanId)
| ApplyStart (plan : PlanId)
| JobPoll (job since : N)
| JobClose (job : N)
| JobCancel (job : N)
| RunSnapshot (run : RunId)
| RunEvents (run : RunId) (since : N)
| RunClose (run : RunId)
| IncidentInspect
| IncidentReview
| IncidentAcknowledge (review run_id token : Uuid).
End Request.
Abbreviation Request := Request.Request.

Definition is_read_only (request : Request) : bool :=
  match request with
  | Request.Probe | Request.SessionPreview _ | Request.SessionExport _ | Request.PlanExport _
  | Request.Capabilities _ | Request.RunSnapshot _ | Request.RunEvents _ _ | Request.JobPoll _ _
  | Request.IncidentInspect | Request.IncidentReview => true
  | _ => false
  end.

Definition needs_live_host (request : Request) : bool :=
  match request with
  | Request.Probe | Request.SessionCreate | Request.SessionPrepareRebase _ _ | Request.Capabilities _
  | Request.ApplyBlocking _ | Request.ApplyStart _ | Request.IncidentInspect | Request.IncidentReview
  | Request.IncidentAcknowledge _ _ _ => true
  | _ => false
  end.

Module ProtocolError.
Inductive ProtocolError :=
| InvalidRequest (message : string)
| UnsupportedVersion (version : N)
| ResourceLimit
| LiveUnavailable
| UnsupportedOperation (message : string)
| UnknownReview
| ReviewMismatch
| Application (e : DisksGraphError)
| Serialization (message : string).
End ProtocolError.
Abbreviation ProtocolError := ProtocolError.ProtocolError.

(** [serde_json::from_str] and [serde_json::from_value] at the two types, with
    the message of the error. *)
Class RequestDecoder := {
  parse_value : string → result Value string;
  envelope_of : Value → result Request string }.

Definition parse_request `{RequestDecoder} (input : string) : result Request ProtocolError :=
  if (MAX_REQUEST_BYTES <? N.of_nat (String.length input))%N then Err ProtocolError.ResourceLimit
  else
    let? value := map_err ProtocolError.InvalidRequest (parse_value input) in
    let? version := ok_or (get "protocol_version" value ≫= as_u64)
      (ProtocolError.InvalidRequest "protocol_version must be an unsigned integer") in
    if negb (version =? PROTOCOL_VERSION)%N then Err (ProtocolError.UnsupportedVersion version)
    else map_err ProtocolError.InvalidRequest (envelope_of value).

(** ** Encoders *)

Definition REDACTED : string := "[diagnostic redacted]".

(** [serialize_message] and [serialize_optional_message] *)
Definition message_value (message : string) : Value := Value.String REDACTED.
Definition optional_message_value (message : option string) : Value :=
  match message with Some _ => Value.String REDACTED | None => Value.Null end.

Definition option_value {A} (encode : A → Value) (o : option A) : Value :=
  match o with Some a => encode a | None => Value.Null end.

Definition error_code_text (code : ErrorCode) : string :=
  match code with
  | ErrorCode.UnknownSession => "unknown_session"
  | ErrorCode.UnknownPlan => "unknown_plan"
  | ErrorCode.UnknownRun => "unknown_run"
  | ErrorCode.ResourceLimit => "resource_limit"
  | ErrorCode.RevisionConflict => "revision_conflict"
  | ErrorCode.EditRejected => "edit_rejected"
  | ErrorCode.InvalidDraft => "invalid_draft"
  | ErrorCode.InvalidPlan => "invalid_plan"
  | ErrorCode.CannotFreeze => "cannot_freeze"
  | ErrorCode.RebaseRejected => "rebase_rejected"
  | ErrorCode.ProbeFailed => "probe_failed"
  | ErrorCode.LeaseUnavailable => "lease_unavailable"
  | ErrorCode.CheckpointBlocked => "checkpoint_blocked"
  | ErrorCode.PlanUnavailable => "plan_unavailable"
  | ErrorCode.AdmissionRejected => "admission_rejected"
  | ErrorCode.ExecutionStopped => "execution_stopped"
  | ErrorCode.VerificationFailed => "verification_failed"
  | ErrorCode.InvalidEventCursor => "invalid_event_cursor"
  | ErrorCode.EventSequenceExhausted => "event_sequence_exhausted"
  | ErrorCode.IncidentRejected => "incident_rejected"
  end.

Definition action_state_text (state : ActionRunState) : string :=
  match state with
  | ActionRunState.Waiting => "waiting" | ActionRunState.Checking => "checking"
  | ActionRunState.Admitted_ => "admitted" | ActionRunState.Running => "running"
  | ActionRunState.Verifying => "verifying" | ActionRunState.Verified => "verified"
  | ActionRunState.Failed => "failed" | ActionRunState.OutcomeUnknown => "outcome_unknown"
  end.

Definition live_status_value (status : LiveCheckStatus) : Value :=
  match status with
  | LiveCheckStatus.Satisfied => Value.String "satisfied"
  | LiveCheckStatus.Violated reason =>
      Value.Object [("violated", Value.Object [("reason", message_value reason)])]
  | LiveCheckStatus.Unknown evidence =>
      Value.Object [("unknown", Value.Object [("required_evidence", message_value evidence)])]
  end.

Definition outcome_value (outcome : BackendOutcome) : Value :=
  match outcome with
  | BackendOutcome.Succeeded => Value.String "succeeded"
  | BackendOutcome.Failed reason =>
      Value.Object [("failed", Value.Object [("reason", message_value reason)])]
  | BackendOutcome.OutcomeUnknown reason =>
      Value.Object [("outcome_unknown", Value.Object [("reason", message_value reason)])]
  end.

Definition action_id_value (action : ActionId) : Value := Value.Number (N.of_nat action).

Definition event_kind_value (kind : RunEventKind) : Value :=
  match kind with
  | RunEventKind.ActionState action state => Value.Object [("action_state", Value.Object
      [("action", action_id_value action); ("state", Value.String (action_state_text state))])]
  | RunEventKind.Progress action detail => Value.Object [("progress", Value.Object
      [("action", action_id_value action); ("detail", message_value detail)])]
  | RunEventKind.Admission action admitted => Value.Object [("admission", Value.Object
      [("action", action_id_value action); ("admitted", Value.Bool admitted)])]
  | RunEventKind.GoalVerification verified => Value.Object [("goal_verification", Value.Object
      [("verified", Value.Bool verified)])]
  end.

(** The encoders of [serde] without redacted texts. *)
Class ReplyEncoder := {
  observation_value : LiveObservation → Value;
  reference_value : ObservationReference → Value;
  prerequisite_value : ActionPrerequisite → Value;
  postcondition_value : Postcondition → Value;
  aspect_value : GoalAspect → Value;
  source_map_value : list OperationActions → Value;
  receipt_value : EditReceipt → result Value string;
  preview_value : PreviewDocument → result Value string;
  draft_document_value : DraftDocument → result Value string;
  plan_document_value : PlanDocument → result Value string;
  operation_value : ProviderAction → Value;
  backend_value : BackendId → Value;
  inspection_value : IncidentInspection → result Value string;
  baseline_value : HistoricalBaseline → result Value string;
  plan_draft_value : PlanDraft → result Value string;
  correlations_value : list NodeCorrelation → result Value string;
  status_value : PreviewStatus → result Value string;
  diagnostics_value : list OperationDiagnostic → result Value string;
  to_text : Value → option string }.

Section encoders.
Context `{RuntimeText, ReplyEncoder}.

Definition uuid_value (id : Uuid) : Value := Value.String (hyphenated id).

Definition event_value (event : RunEvent) : Value :=
  Value.Object [("run_id", uuid_value event.(RunEvent.run_id));
                ("sequence", Value.Number event.(RunEvent.sequence));
                ("kind", event_kind_value event.(RunEvent.kind))].

Definition events_page_value (page : EventsPage) : Value :=
  Value.Object [("events", Value.Array (event_value <$> page.(EventsPage.events)));
                ("next_sequence", Value.Number page.(EventsPage.next_sequence));
                ("gap", Value.Bool page.(EventsPage.gap))].

Definition check_value {T} (encode : T → Value) (check : LiveCheck T) : Value :=
  Value.Object [("condition", encode check.(LiveCheck.condition));
                ("status", live_status_value check.(LiveCheck.status))].
Definition checks_value {T} (encode : T → Value) (checks : list (LiveCheck T)) : Value :=
  Value.Array (check_value encode <$> checks).

Definition action_status_value (status : ActionStatus) : Value :=
  Value.Object
    [("action", action_id_value status.(ActionStatus.action));
     ("state", Value.String (action_state_text status.(ActionStatus.state)));
     ("applicability", option_value live_status_value status.(ActionStatus.applicability));
     ("admission_observation", option_value reference_value status.(ActionStatus.admission_observation));
     ("completion_observation", option_value reference_value status.(ActionStatus.completion_observation));
     ("prerequisites", checks_value prerequisite_value status.(ActionStatus.prerequisites));
     ("outcome", option_value outcome_value status.(ActionStatus.outcome));
     ("postconditions", option_value (checks_value postcondition_value) status.(ActionStatus.postconditions));
     ("pre_dispatch_failure", optional_message_value status.(ActionStatus.pre_dispatch_failure));
     ("unknown_reason", optional_message_value status.(ActionStatus.unknown_reason))].

Definition goal_report_value (report : GoalVerificationReport) : Value :=
  Value.Object
    [("run_id", uuid_value report.(GoalVerificationReport.run_id));
     ("observation", observation_value report.(GoalVerificationReport.observation));
     ("checks", checks_value aspect_value report.(GoalVerificationReport.checks));
     ("preservation", live_status_value report.(GoalVerificationReport.preservation))].

Definition app_error_value (e : DisksGraphError) : Value :=
  Value.Object [("code", Value.String (error_code_text e.(DisksGraphError.code)));
                ("message", message_value e.(DisksGraphError.message));
                ("run_id", option_value uuid_value e.(DisksGraphError.run_id))].

(** [RunSnapshot] of the facade; the engine's snapshot is flattened into it. *)
Definition attempt_value (found : AttemptSnapshot) : Value :=
  let execution := found.(AttemptSnapshot.execution) in
  Value.Object
    [("run_id", uuid_value execution.(RunSnapshot.run_id));
     ("plan_id", uuid_value execution.(RunSnapshot.plan_id));
     ("actions", Value.Array (action_status_value <$> execution.(RunSnapshot.actions)));
     ("finished", Value.Bool execution.(RunSnapshot.finished));
     ("verified", Value.Bool execution.(RunSnapshot.verified));
     ("event_sequence", Value.Number execution.(RunSnapshot.event_sequence));
     ("observation", option_value observation_value execution.(RunSnapshot.observation));
     ("goal_verification", option_value goal_report_value execution.(RunSnapshot.goal_verification));
     ("source_map", source_map_value found.(AttemptSnapshot.source_map));
     ("error", option_value app_error_value found.(AttemptSnapshot.error))].

Definition availability_value (found : OperationAvailability) : Value :=
  match found with
  | OperationAvailability.Available backend => Value.Object [("available", backend_value backend)]
  | OperationAvailability.Unavailable reason => Value.Object [("unavailable", message_value reason)]
  | OperationAvailability.Unknown reason => Value.Object [("unknown", message_value reason)]
  end.

Definition capabilities_value (found : OperationCapabilities) : Value :=
  Value.Object
    [("observation", reference_value found.(OperationCapabilities.observation));
     ("incident_pending", Value.Bool found.(OperationCapabilities.incident_pending));
     ("operations", Value.Array ((λ o, Value.Object
        [("operation", operation_value o.(OperationCapability.operation));
         ("backend", backend_value o.(OperationCapability.backend));
         ("availability", availability_value o.(OperationCapability.availability))])
        <$> found.(OperationCapabilities.operations)))].

(** [#[serde(tag = "code", content = "detail")]] *)
Definition tagged (code : string) : Value := Value.Object [("code", Value.String code)].
Definition tagged_with (code : string) (detail : Value) : Value :=
  Value.Object [("code", Value.String code); ("detail", detail)].

Definition protocol_error_value (e : ProtocolError) : Value :=
  match e with
  | ProtocolError.InvalidRequest message => tagged_with "invalid_request" (message_value message)
  | ProtocolError.UnsupportedVersion version => tagged_with "unsupported_version" (Value.Number version)
  | ProtocolError.ResourceLimit => tagged "resource_limit"
  | ProtocolError.LiveUnavailable => tagged "live_unavailable"
  | ProtocolError.UnsupportedOperation message =>
      tagged_with "unsupported_operation" (message_value message)
  | ProtocolError.UnknownReview => tagged "unknown_review"
  | ProtocolError.ReviewMismatch => tagged "review_mismatch"
  | ProtocolError.Application e => tagged_with "application" (app_error_value e)
  | ProtocolError.Serialization message => tagged_with "serialization" (message_value message)
  end.

Definition reply_value (r : result Value ProtocolError) : Value :=
  match r with
  | Ok value => Value.Object [("protocol_version", Value.Number PROTOCOL_VERSION); ("result", value)]
  | Err e => Value.Object [("protocol_version", Value.Number PROTOCOL_VERSION);
                           ("error", protocol_error_value e)]
  end.

(** The text of a fixed failure has quotes, written here by their code. *)
Definition quoted (text : string) : string :=
  String (Ascii.ascii_of_nat 34) (text ++ String (Ascii.ascii_of_nat 34) EmptyString).
Definition SERIALIZATION_FAILED : string :=
  "{" ++ quoted "protocol_version" ++ ":1," ++ quoted "error" ++ ":{" ++ quoted "code" ++ ":" ++
  quoted "serialization" ++ "}}".

Definition encode_reply (r : result Value ProtocolError) : string :=
  match to_text (reply_value r) with Some text => text | None => SERIALIZATION_FAILED end.
End encoders.

(** ** The protocol *)

Module Review.
Inductive Review :=
| Rebase (session : SessionId) (candidate : RebasePreview)
| Incident (candidate : IncidentReview).
End Review.
Abbreviation Review := Review.Review.

(** [Protocol] *)
Module JsonProtocol.
Record JsonProtocol := mk {
  app : DisksGraph LinuxLiveHost;
  live_host : bool;
  reviews : gmap Uuid Review }.
End JsonProtocol.
Abbreviation JsonProtocol := JsonProtocol.JsonProtocol.

(** [Protocol::new] *)
Definition protocol_new (app : DisksGraph LinuxLiveHost) (live_host : bool) : JsonProtocol :=
  JsonProtocol.mk app live_host ∅.

Definition set_app app (protocol : JsonProtocol) : JsonProtocol :=
  JsonProtocol.mk app protocol.(JsonProtocol.live_host) protocol.(JsonProtocol.reviews).
Definition set_reviews reviews (protocol : JsonProtocol) : JsonProtocol :=
  JsonProtocol.mk protocol.(JsonProtocol.app) protocol.(JsonProtocol.live_host) reviews.

(** The results of [Uuid::now_v7] during one call. *)
Module Fresh.
Record Fresh := mk {
  handle : Uuid; session : Uuid; baseline : Uuid; operation : OperationId; node : NodeId;
  plan : Uuid; run : Uuid; review : Uuid; token : Uuid }.
End Fresh.
Abbreviation Fresh := Fresh.Fresh.

Section protocol.
Context {S : Type}.
Context `{RuntimeText, FacadeText, Os S, HostPolicies S, BackendDispatcher S, Allocator S}.
Context `{ReplyEncoder, IncidentAcknowledgmentPolicy S}.

Abbreviation calling A := (Sys (JsonProtocol * S) (Failure ProtocolError) A) (only parsing).

Definition deny {A} (e : ProtocolError) : calling A := sys_fail (Reported e).
Definition in_app {A} (m : applying LinuxLiveHost S A) : calling A :=
  λ w, let '((app, s), r) := m (w.1.(JsonProtocol.app), w.2) in
       ((set_app app w.1, s), map_failure ProtocolError.Application r).
Definition update_reviews (f : gmap Uuid Review → gmap Uuid Review) : calling unit :=
  λ w, ((set_reviews (f w.1.(JsonProtocol.reviews)) w.1, w.2), Ok tt).

(** [serde_json::to_value(..)] at the end of a call, and inside of [json!]. *)
Definition encoded (r : result Value string) : calling Value :=
  sys_of (report (map_err ProtocolError.Serialization r)).
Definition embedded (r : result Value string) : calling Value :=
  sys_of match r with Ok v => Ok v | Err _ => Err Panicked end.

Definition reserve_review : calling unit :=
  λ w, (w, if (MAX_APPLICATION_OBJECTS <=? size w.1.(JsonProtocol.reviews))%nat
           then Err (Reported ProtocolError.ResourceLimit)
           else match try_reserve w.2 with
                | Some _ => Err (Reported ProtocolError.ResourceLimit)
                | None => Ok tt
                end).

Definition review_of (id : Uuid) : calling Review :=
  λ w, (w, ok_or (w.1.(JsonProtocol.reviews) !! id) (Reported ProtocolError.UnknownReview)).

(** The handle of an attempt, also of a failed one that is retained. *)
Definition attempt_handle (m : applying LinuxLiveHost S RunId) : calling RunId :=
  λ w, let '((app, s), r) := m (w.1.(JsonProtocol.app), w.2) in
       ((set_app app w.1, s),
        match r with
        | Ok id => Ok id
        | Err (Reported e) => ok_or e.(DisksGraphError.run_id) (Reported (ProtocolError.Application e))
        | Err Panicked => Err Panicked
        | Err OutOfFuel => Err OutOfFuel
        end).

Definition retained_attempt (id : RunId) : calling Value :=
  let* found := in_app (run_snapshot id) in sys_return (attempt_value found).

Definition is_review_of (session : SessionId) (review : Review) : bool :=
  match review with Review.Rebase owner _ => (owner =? session)%N | _ => false end.

(** *** Reviews *)

Definition rebase_value (fresh : Fresh) (candidate : RebasePreview) : calling Value :=
  let state := candidate.(RebasePreview.preview) in
  let* baseline := embedded (baseline_value candidate.(RebasePreview.baseline)) in
  let* draft := embedded (plan_draft_value candidate.(RebasePreview.draft)) in
  let* correlations := embedded (correlations_value candidate.(RebasePreview.correlations)) in
  let* status := embedded (status_value (status state)) in
  let* diagnostics := embedded (diagnostics_value
    (preview_diagnostics composition_text action_simulation_text plan_simulation_text state)) in
  sys_return (Value.Object
    [("review", uuid_value fresh.(Fresh.review));
     ("source_revision", Value.Number candidate.(RebasePreview.source).(DraftDocument.revision));
     ("baseline", baseline); ("draft", draft); ("correlations", correlations);
     ("status", status); ("diagnostics", diagnostics)]).

Definition prepare_review (fresh : Fresh) (session : SessionId) (revision : DraftRevision)
    : calling Value :=
  let* _ := reserve_review in
  let* candidate := in_app (app_prepare_rebase fresh.(Fresh.baseline) session revision) in
  let* value := rebase_value fresh candidate in
  let* _ := update_reviews (insert fresh.(Fresh.review) (Review.Rebase session candidate)) in
  sys_return value.

Definition accept_review (session : SessionId) (revision : DraftRevision) (review : Uuid)
    : calling Value :=
  let* found := review_of review in
  match found with
  | Review.Rebase owner candidate =>
      if negb (owner =? session)%N ||
         negb (candidate.(RebasePreview.source).(DraftDocument.revision) =? revision)%N
      then deny ProtocolError.ReviewMismatch
      else
        let* _ := update_reviews (delete review) in
        let* next := in_app (app_accept_rebase session revision candidate) in
        sys_return (Value.Object [("revision", Value.Number next)])
  | Review.Incident _ => deny ProtocolError.UnknownReview
  end.

Definition close_review (review : Uuid) : calling Value :=
  let* _ := review_of review in
  let* _ := update_reviews (delete review) in
  sys_return Value.Null.

Definition review_incident_request (fresh : Fresh) : calling Value :=
  let* _ := reserve_review in
  let* found := in_app (app_review_incident fresh.(Fresh.token)) in
  match found with
  | Some candidate =>
      let* incident := embedded (inspection_value candidate.(IncidentReview.inspection)) in
      let* _ := update_reviews (insert fresh.(Fresh.review) (Review.Incident candidate)) in
      sys_return (Value.Object [("review", uuid_value fresh.(Fresh.review)); ("incident", incident);
                                ("token", uuid_value candidate.(IncidentReview.token))])
  | None => sys_return (Value.Object [("review", Value.Null); ("incident", Value.Null)])
  end.

Definition acknowledge_review (review run_id token : Uuid) : calling Value :=
  let* found := review_of review in
  match found with
  | Review.Incident candidate =>
      if negb (candidate.(IncidentReview.inspection).(IncidentInspection.attempt).(ActiveAttempt.run_id)
               =? run_id)%N || negb (candidate.(IncidentReview.token) =? token)%N
      then deny ProtocolError.ReviewMismatch
      else
        let* _ := update_reviews (delete review) in
        let* incident := in_app (app_acknowledge_incident candidate token) in
        let* incident := embedded (inspection_value incident) in
        sys_return (Value.Object [("incident", incident); ("acknowledged", Value.Bool true)])
  | Review.Rebase _ _ => deny ProtocolError.UnknownReview
  end.

(** *** Calls *)

Definition revision_value (revision : DraftRevision) : Value :=
  Value.Object [("revision", Value.Number revision)].

(** The [match] of [call_with_policy]; the policy is that of the context. *)
Definition call_request (fresh : Fresh) (request : Request) : calling Value :=
  match request with
  | Request.Probe =>
      let* observed := in_app app_probe in sys_return (observation_value observed)
  | Request.SessionCreate =>
      let* id := in_app (create_session fresh.(Fresh.baseline) fresh.(Fresh.session) fresh.(Fresh.handle)) in
      sys_return (Value.Object [("session", uuid_value id)])
  | Request.SessionImport draft =>
      let* id := in_app (import_draft fresh.(Fresh.handle) draft) in
      sys_return (Value.Object [("session", uuid_value id)])
  | Request.SessionEdit session revision edit =>
      let* receipt := in_app (app_edit session revision fresh.(Fresh.operation) fresh.(Fresh.node) edit) in
      encoded (receipt_value receipt)
  | Request.SessionUndo session revision =>
      let* next := in_app (app_undo session revision) in sys_return (revision_value next)
  | Request.SessionRedo session revision =>
      let* next := in_app (app_redo session revision) in sys_return (revision_value next)
  | Request.SessionPreview session =>
      let* document := in_app (app_preview_document session) in encoded (preview_value document)
  | Request.SessionExport session =>
      let* document := in_app (export_draft session) in encoded (draft_document_value document)
  | Request.SessionFreeze session revision =>
      let* frozen := in_app (app_freeze fresh.(Fresh.plan) session revision) in
      encoded (plan_document_value frozen.(FrozenPlan.document))
  | Request.SessionPrepareRebase session revision => prepare_review fresh session revision
  | Request.SessionAcceptRebase session revision review => accept_review session revision review
  | Request.ReviewClose review => close_review review
  | Request.SessionClose session =>
      let* _ := in_app (close_session session) in
      let* _ := update_reviews (filter (λ '(_, review), is_review_of session review = false)) in
      sys_return Value.Null
  | Request.PlanImport document =>
      let* id := in_app (import_plan fresh.(Fresh.handle) document) in
      sys_return (Value.Object [("plan", uuid_value id)])
  | Request.PlanExport plan =>
      let* document := in_app (export_plan plan) in encoded (plan_document_value document)
  | Request.PlanClose plan =>
      let* _ := in_app (close_plan plan) in sys_return Value.Null
  | Request.Capabilities operations =>
      let* found := in_app (capabilities operations) in sys_return (capabilities_value found)
  | Request.ApplyBlocking plan =>
      let* run := attempt_handle (apply_plan fresh.(Fresh.run) plan) in retained_attempt run
  | Request.ApplyStart _ | Request.JobPoll _ _ | Request.JobClose _ | Request.JobCancel _ =>
      deny (ProtocolError.UnsupportedOperation "job lifecycle requires an owning transport")
  | Request.RunSnapshot run => retained_attempt run
  | Request.RunEvents run since =>
      let* page := in_app (app_events run since) in sys_return (events_page_value page)
  | Request.RunClose run =>
      let* _ := in_app (close_run run) in sys_return Value.Null
  | Request.IncidentInspect =>
      let* found := in_app app_incident in
      match found with
      | Some inspection => encoded (inspection_value inspection)
      | None => sys_return Value.Null
      end
  | Request.IncidentReview => review_incident_request fresh
  | Request.IncidentAcknowledge review run_id token => acknowledge_review review run_id token
  end.

Definition call_with_policy (fresh : Fresh) (request : Request) : calling Value :=
  λ w, if needs_live_host request && negb w.1.(JsonProtocol.live_host)
       then (w, Err (Reported ProtocolError.LiveUnavailable))
       else call_request fresh request w.

(** [Protocol::apply_plan_with_updates], with the updates of its observer. *)
Definition protocol_apply (fresh : Fresh) (plan : PlanId) (w : JsonProtocol * S)
    : (JsonProtocol * S) *
      (list (AttemptSnapshot * EventsPage) * result Value (Failure ProtocolError)) :=
  if negb w.1.(JsonProtocol.live_host)
  then (w, ([], Err (Reported ProtocolError.LiveUnavailable)))
  else
    let '((app, s), (updates, r)) :=
      apply_plan_with_updates fresh.(Fresh.run) plan (w.1.(JsonProtocol.app), w.2) in
    let '(w, r) := (let* run := attempt_handle (λ w, (w, r)) in retained_attempt run)
                     (set_app app w.1, s) in
    (w, (updates, r)).
End protocol.

(** ** The default host ([native.rs]) *)

(** [ReadOnlyPolicy] as the policy of incidents and of a host; the defaults of
    the traits fill the rest. *)
Definition read_only_acknowledgment {S} : IncidentAcknowledgmentPolicy S :=
  λ _ _ s, (s, LiveCheckStatus.Unknown
    "trusted principal authorization, complete scope and native backend quiescence").

Definition unattested {S} (evidence : string) (s : S) : S * LiveCheckStatus :=
  (s, LiveCheckStatus.Unknown evidence).

Definition read_only_policies {S} (probe_id baseline_id : S → Uuid) (probe : S → S * ProbeSnapshot)
    : HostPolicies S := {|
  probe_instance_id := probe_id;
  fresh_baseline_id := baseline_id;
  probe_once := probe;
  availability := λ _ _ s,
    (s, OperationAvailability.Unknown "production write policies are not configured");
  scope_coverage := λ _ _ _, unattested "complete provider and mount-namespace scope coverage";
  consumer_exclusion := λ _ _ _,
    unattested "independent backing endpoint and namespace consumer exclusion";
  mount_exclusion := λ _ _ _,
    unattested "independent Host mount source, target and namespace exclusion";
  final_scope := λ _ _, unattested "complete fresh final scope and namespace coverage";
  preservation := λ context _ s, (s, default_preservation context);
  authorize := λ _, unattested "principal and action-bound approval policy";
  authorize_destructive := λ _ _,
    unattested "explicit destructive confirmation bound to the admitted target" |}.

(** [DisabledDispatcher] *)
Definition disabled_dispatcher {S} (backend : BackendId) : BackendDispatcher S := {|
  backend_for := λ _ _, backend;
  execute := λ _ s, Done s (Err (DispatchError.Adapter "native writes are not configured")) |}.

(** [require_matching_credentials] *)
Definition matching_credentials (real effective : N * N) : bool := bool_decide (real = effective).
