(* ===== verification/RequestProps.v ===== *)
(** * What requests may touch

    A context for saved inputs never reaches the host or the machine; requests
    classified as reads leave every object in place; reviews are owned, bounded
    and used once; no diagnostic text reaches a reply; and the default host
    never writes. *)

From stdpp Require Import relations.
From S2P Require Import Prelude Model Reach Graph GraphOrder GraphValid State Action Contract.
From S2P Require Import ContractProps Logical Evidence Prerequisites Effects Report PlanOrder Compose.
From S2P Require Import ComposeProps ComposeKeeps Simulate SimulateProps Wire Observation Correlate.
From S2P Require Import Observe Execution ExecutionProps Live LiveProps LiveGoal Draft Build BuildProps.
From S2P Require Import PreviewProps Session SessionProps Documents.
From S2P Require Import DocumentProps History Json.
From S2P Require Import WireJsonProps Native Recipes Scope Bindings.
From S2P Require Import BindingProps Targets.
From S2P Require Import Checkpoint StoreProps Host Incident IncidentProps.
From S2P Require Import Coordinator.
From S2P Require Import CoordinatorProps Facade FacadeProps Requests.

(** ** Lifting *)

Section lifting.
Context {S : Type}.
Implicit Types (w : JsonProtocol * S).

(** A property of the application and the machine. *)
Definition within (P : DisksGraph LinuxLiveHost * S → Prop) w : Prop := P (w.1.(JsonProtocol.app), w.2).

Lemma keeps_in_app {A} P (m : applying LinuxLiveHost S A) : keeps P m → keeps (within P) (in_app m).
Proof.
  intros Hm w Hw. unfold in_app. specialize (Hm _ Hw). unfold within in *.
  by destruct (m _) as [[app s] r].
Qed.
Lemma keeps_attempt_handle P (m : applying LinuxLiveHost S RunId) :
  keeps P m → keeps (within P) (attempt_handle m).
Proof.
  intros Hm w Hw. unfold attempt_handle. specialize (Hm _ Hw). unfold within in *.
  by destruct (m _) as [[app s] r].
Qed.
Lemma keeps_update_reviews P f : keeps (within P) (update_reviews (S:=S) f).
Proof. by intros w Hw. Qed.
End lifting.

(** ** Saved inputs *)

Section saved.
Context {S : Type}.
Context `{RuntimeText, FacadeText, Os S, HostPolicies S, BackendDispatcher S, Allocator S}.
Context `{ReplyEncoder, IncidentAcknowledgmentPolicy S}.

(** The host and the machine are [host] and [s]. *)
Definition outside (host : LinuxLiveHost) (s : S) (w : DisksGraph LinuxLiveHost * S) : Prop :=
  w.1.(DisksGraph.host) = host ∧ w.2 = s.

Context (host : LinuxLiveHost) (s : S).

Lemma outside_changing f :
  (∀ app, (f app).(DisksGraph.host) = app.(DisksGraph.host)) →
  keeps (outside host s) (changing (S:=S) f).
Proof. intros Hf w [Hh Hs]. split; [simpl; by rewrite Hf|done]. Qed.

Lemma outside_in_session {E A} (f : E → DisksGraphError) id
    (method : PlanSession → PlanSession * result A (Failure E)) :
  keeps (outside host s) (in_session f id method).
Proof.
  apply keeps_bind; [apply keeps_pure|]. intros session. destruct (method session) as [session' r].
  apply keeps_bind; [by apply outside_changing|]. intros. apply keeps_pure.
Qed.

Lemma outside_import_draft handle draft : keeps (outside host s) (import_draft handle draft).
Proof.
  apply keeps_bind; [apply keeps_pure|]. intros _. apply keeps_bind; [apply keeps_pure|]. intros session.
  apply keeps_bind; [by apply outside_changing|]. intros. apply keeps_pure.
Qed.
Lemma outside_import_plan handle document : keeps (outside host s) (import_plan handle document).
Proof.
  do 2 (apply keeps_bind; [apply keeps_pure|intros ?]).
  apply keeps_bind; [by apply outside_changing|]. intros. apply keeps_pure.
Qed.
Lemma outside_close id :
  keeps (outside host s) (close_session id) ∧ keeps (outside host s) (close_plan id) ∧
  keeps (outside host s) (close_run id).
Proof.
  split_and!; (apply keeps_bind; [apply keeps_pure|]); intros; by apply outside_changing.
Qed.

Lemma outside_run_snapshot id : keeps (outside host s) (run_snapshot id).
Proof.
  apply keeps_bind; [apply keeps_pure|]. intros record. apply keeps_bind; [apply keeps_pure|].
  intros []. apply keeps_pure.
Qed.

Lemma outside_accept_review session revision review :
  keeps (within (outside host s)) (accept_review session revision review).
Proof.
  apply keeps_bind; [apply keeps_pure|]. intros [owner candidate|]; [|apply keeps_pure].
  destruct (_ || _); [apply keeps_pure|]. apply keeps_bind; [apply keeps_update_reviews|]. intros _.
  apply keeps_bind; [apply keeps_in_app, outside_in_session|]. intros. apply keeps_pure.
Qed.

(** A request that needs no live host stays inside. *)
Lemma saved_request fresh request :
  needs_live_host request = false → keeps (within (outside host s)) (call_request fresh request).
Proof.
  intros Hn. destruct request; try done; cbn [call_request];
    try (apply keeps_pure); try (apply outside_accept_review);
    try (apply keeps_bind; [apply keeps_in_app|intros; apply keeps_pure]);
    try (apply outside_in_session); try (apply outside_import_draft); try (apply outside_import_plan);
    try (apply outside_close); try (apply outside_run_snapshot);
    try (apply keeps_bind; intros; apply keeps_pure).
  - apply keeps_bind; [apply keeps_pure|]. intros _. apply keeps_bind; [apply keeps_update_reviews|].
    intros _. apply keeps_pure.
  - apply keeps_bind; [apply keeps_in_app, outside_close|]. intros _.
    apply keeps_bind; [apply keeps_update_reviews|]. intros _. apply keeps_pure.
  - apply keeps_pure.
Qed.
End saved.

(** ** Reads *)

Section reads.
Context {S : Type}.
Context `{RuntimeText, FacadeText, Os S, HostPolicies S, BackendDispatcher S, Allocator S}.
Context `{ReplyEncoder, IncidentAcknowledgmentPolicy S}.
Context (app0 : DisksGraph LinuxLiveHost).
#[local] Notation unchanged := (holds_app (S:=S) (same_objects app0)).
#[local] Notation hostless0 := (same_objects_hostless app0).

Lemma unchanged_review_incident fresh : keeps (within unchanged) (review_incident_request fresh).
Proof.
  apply keeps_bind; [apply keeps_pure|]. intros _. apply keeps_bind.
  { apply keeps_in_app, holds_host_step, hostless0. }
  intros [candidate|]; [|apply keeps_pure]. apply keeps_bind; [apply keeps_pure|]. intros incident.
  apply keeps_bind; [apply keeps_update_reviews|]. intros _. apply keeps_pure.
Qed.

Lemma read_request fresh request :
  is_read_only request = true → keeps (within unchanged) (call_request fresh request).
Proof.
  intros Hr. destruct request; try done; cbn [call_request];
    try apply unchanged_review_incident; try apply keeps_pure;
    (apply keeps_bind; [apply keeps_in_app|intros; try (case_match); apply keeps_pure]).
  - apply keeps_bind; [apply holds_host_step, hostless0|intros; apply keeps_pure].
  - apply keeps_bind; intros; apply keeps_pure.
  - apply keeps_bind; intros; apply keeps_pure.
  - apply keeps_pure.
  - apply holds_capabilities, hostless0.
  - apply keeps_bind; [apply keeps_pure|]. intros record. apply keeps_bind; [apply keeps_pure|].
    intros []. apply keeps_pure.
  - apply keeps_bind; intros; apply keeps_pure.
  - apply holds_host_step, hostless0.
Qed.

(** Only a review of an incident is added to the reviews. *)
Definition reviews_are (reviews : gmap Uuid Review) (w : JsonProtocol * S) : Prop :=
  w.1.(JsonProtocol.reviews) = reviews.

Lemma reviews_in_app {A} reviews (m : applying LinuxLiveHost S A) :
  keeps (reviews_are reviews) (in_app m).
Proof. intros w Hw. unfold in_app. by destruct (m _) as [[app s] r]. Qed.

Lemma read_request_reviews reviews fresh request :
  is_read_only request = true → request ≠ Request.IncidentReview →
  keeps (reviews_are reviews) (call_request fresh request).
Proof.
  intros Hr Hne. destruct request; try done; cbn [call_request]; try apply keeps_pure;
    (apply keeps_bind; [apply reviews_in_app|intros; try (case_match); apply keeps_pure]).
Qed.
End reads.

(** ** Reviews *)

Section reviews.
Context {S : Type}.
Context `{RuntimeText, FacadeText, Os S, HostPolicies S, BackendDispatcher S, Allocator S}.
Context `{ReplyEncoder, IncidentAcknowledgmentPolicy S}.
Implicit Types (app : DisksGraph LinuxLiveHost) (protocol : JsonProtocol) (w : JsonProtocol * S)
  (v : DisksGraph LinuxLiveHost * S).

(** A retained rebase belongs to a session that still exists and is the result
    of a preparation. *)
Definition review_ok app (review : Review) : Prop :=
  match review with
  | Review.Rebase owner candidate =>
      is_Some (app.(DisksGraph.sessions) !! owner) ∧
      ∃ session expected baseline, prepare_rebase serializers session expected baseline = Ok candidate
  | Review.Incident _ => True
  end.

Record protocol_ok protocol : Prop := {
  po_app : app_ok protocol.(JsonProtocol.app);
  po_bound : size protocol.(JsonProtocol.reviews) ≤ MAX_APPLICATION_OBJECTS;
  po_review id review : protocol.(JsonProtocol.reviews) !! id = Some review →
    review_ok protocol.(JsonProtocol.app) review }.

(** An application step that closes no session. *)
Record expands v v' : Prop := {
  ex_ok : app_ok v.1 → app_ok v'.1;
  ex_sessions id : is_Some (v.1.(DisksGraph.sessions) !! id) →
    is_Some (v'.1.(DisksGraph.sessions) !! id) }.

Lemma expands_sessions v v' :
  app_step v v' → v'.1.(DisksGraph.sessions) = v.1.(DisksGraph.sessions) → expands v v'.
Proof. intros Hs He. split; [intros; by eapply app_step_ok|]. intros id. by rewrite He. Qed.

Lemma expands_insert v v' id session :
  app_step v v' → v'.1.(DisksGraph.sessions) = <[id := session]> v.1.(DisksGraph.sessions) → expands v v'.
Proof.
  intros Hs He. split; [intros; by eapply app_step_ok|]. intros id' Hid. rewrite He.
  destruct (decide (id = id')) as [<-|Hne]; [by rewrite lookup_insert_eq|by rewrite lookup_insert_ne].
Qed.

Lemma expands_unchanged v v' : app_step v v' → holds_app (same_objects v.1) v' → expands v v'.
Proof. intros Hs [He _]. by apply expands_sessions. Qed.

Lemma same_objects_refl app : same_objects app app.
Proof. done. Qed.

Lemma expands_in_session {E A} (f : E → DisksGraphError) id
    (method : PlanSession → PlanSession * result A (Failure E)) v :
  app_step v (in_session f id method v).1 → expands v (in_session f id method v).1.
Proof.
  intros Hs. unfold in_session, session_of, inspecting, sys_bind in *.
  destruct (_ !! id) as [session|]; simpl in *; [|by apply expands_sessions].
  destruct (method session) as [session' r]. by eapply expands_insert.
Qed.

Lemma expands_create baseline_id session_id handle v :
  is_nil session_id = false → expands v (create_session baseline_id session_id handle v).1.
Proof.
  intros Hnil. pose proof (as_create v baseline_id session_id handle Hnil) as Hs. revert Hs.
  unfold create_session, check_session_limit, inspecting, sys_bind. destruct (_ <=? _)%nat.
  { intros. by apply expands_sessions. }
  unfold probe_host, host_step. destruct (host_probe _) as [[host s] [observed|[]]]; simpl;
    try (intros; by apply expands_sessions).
  destruct (session_new _ _ _) as [session|[]]; simpl; intros;
    [by eapply expands_insert|by apply expands_sessions..].
Qed.

Lemma expands_import handle draft v :
  (draft.(DraftDocument.revision) <= u64_MAX)%N → expands v (import_draft handle draft v).1.
Proof.
  intros Hrev. pose proof (as_import v handle draft Hrev) as Hs. revert Hs.
  unfold import_draft, check_session_limit, inspecting, sys_bind. destruct (_ <=? _)%nat.
  { intros. by apply expands_sessions. }
  simpl. destruct (from_document _ _ _) as [session|[]]; simpl; intros;
    [by eapply expands_insert|by apply expands_sessions..].
Qed.

Lemma expands_plan handle document v : expands v (import_plan handle document v).1.
Proof.
  apply expands_sessions; [apply as_plan|]. unfold import_plan, inspecting, sys_bind.
  destruct (_ <=? _)%nat; [done|]. simpl. by destruct (analyse_historical _ _ _ _) as [|[]].
Qed.

Lemma expands_close_plan id v : expands v (close_plan id v).1.
Proof.
  apply expands_sessions; [apply as_close_plan|]. unfold close_plan, export_plan, inspecting, sys_bind.
  by destruct (_ !! id).
Qed.
Lemma expands_close_run id v : expands v (close_run id v).1.
Proof.
  apply expands_sessions; [apply as_close_run|]. unfold close_run, run_of, inspecting, sys_bind.
  by destruct (_ !! id).
Qed.

Lemma expands_apply run_id plan v : expands v (apply_plan run_id plan v).1.
Proof.
  unfold apply_plan, export_plan, inspecting, sys_bind.
  destruct (_ !! plan) as [document|]; simpl; [|by split].
  unfold apply_blocking, apply_document. pose proof (as_apply v run_id document []) as Hs.
  pose proof (apply_document_spec run_id document [] v) as Ha.
  destruct (apply_document_with_updates _ _ _ _) as [v' [published r]].
  destruct Ha as (He & _). by apply expands_sessions.
Qed.

(** The rest of the host and the machine. *)
Lemma expands_host_step {E A} (f : E → DisksGraphError) (m : Sys (LinuxLiveHost * S) (Failure E) A) v :
  expands v (host_step f m v).1.
Proof.
  unfold host_step. destruct (m _) as [[host s] r]. simpl.
  apply expands_sessions; [apply as_elsewhere|done].
Qed.

(** *** Calls *)

Definition ok_after {A} (m : Sys (JsonProtocol * S) (Failure ProtocolError) A) w : Prop :=
  protocol_ok (m w).1.1.

Lemma protocol_expands protocol (v' : DisksGraph LinuxLiveHost * S) (s : S) :
  expands (protocol.(JsonProtocol.app), s) v' → protocol_ok protocol → protocol_ok (set_app v'.1 protocol).
Proof.
  intros [Hok Hse] [Ha Hb Hr]. split; simpl; [by apply Hok|done|].
  intros id [owner candidate|candidate] Hl; [|done]. destruct (Hr _ _ Hl) as [Ho Hp]. split; [by apply Hse|done].
Qed.

Lemma ok_in_app {A B} (m : applying LinuxLiveHost S A) (k : A → Sys (JsonProtocol * S) (Failure ProtocolError) B) w :
  expands (w.1.(JsonProtocol.app), w.2) (m (w.1.(JsonProtocol.app), w.2)).1 →
  (∀ a w', (k a w').1 = w') → protocol_ok w.1 → ok_after (sys_bind (in_app m) k) w.
Proof.
  intros He Hk Hok. unfold ok_after, sys_bind, in_app. destruct (m _) as [[app s] r]. simpl in *.
  pose proof (protocol_expands _ _ _ He Hok) as Hok'.
  destruct r as [a|[]]; simpl; [by rewrite Hk|done..].
Qed.

Lemma protocol_update f protocol :
  (∀ id review, f protocol.(JsonProtocol.reviews) !! id = Some review →
     protocol.(JsonProtocol.reviews) !! id = Some review) →
  size (f protocol.(JsonProtocol.reviews)) ≤ MAX_APPLICATION_OBJECTS →
  protocol_ok protocol → protocol_ok (set_reviews (f protocol.(JsonProtocol.reviews)) protocol).
Proof. intros Hf Hs [Ha Hb Hr]. split; simpl; [done|done|]. intros id review Hl. by apply (Hr id), Hf. Qed.

Lemma protocol_delete id protocol :
  protocol_ok protocol →
  protocol_ok (set_reviews (delete id protocol.(JsonProtocol.reviews)) protocol).
Proof.
  intros Hok. apply (protocol_update (delete id)); [|apply size_delete_below, po_bound, Hok|done].
  by intros id' review [_ ?]%lookup_delete_Some.
Qed.

Lemma protocol_insert id review protocol :
  protocol_ok protocol → review_ok protocol.(JsonProtocol.app) review →
  size protocol.(JsonProtocol.reviews) < MAX_APPLICATION_OBJECTS →
  protocol_ok (set_reviews (<[id := review]> protocol.(JsonProtocol.reviews)) protocol).
Proof.
  intros [Ha Hb Hr] Hrev Hs. split; simpl; [done|by apply size_insert_below|].
  intros id' review' [[<- <-]|[_ Hl]]%lookup_insert_Some; [done|by apply (Hr id')].
Qed.

Lemma reserve_review_spec w :
  (reserve_review w).1 = w ∧
  ((reserve_review w).2 = Ok tt → size w.1.(JsonProtocol.reviews) < MAX_APPLICATION_OBJECTS).
Proof.
  unfold reserve_review. cbn [fst snd]. split; [done|].
  by destruct (Nat.leb_spec MAX_APPLICATION_OBJECTS (size w.1.(JsonProtocol.reviews))).
Qed.

(** A prepared rebase comes from a session of the application. *)
Lemma prepare_rebase_spec baseline_id id revision v v' candidate :
  app_prepare_rebase baseline_id id revision v = (v', Ok candidate) →
  v'.1.(DisksGraph.sessions) = v.1.(DisksGraph.sessions) ∧
  ∃ session baseline, v.1.(DisksGraph.sessions) !! id = Some session ∧
    prepare_rebase serializers session revision baseline = Ok candidate.
Proof.
  unfold app_prepare_rebase, app_revision, session_of, inspecting, sys_bind.
  destruct (_ !! id) as [session|] eqn:Hl; [|done]. simpl. case_bool_decide; [done|].
  unfold probe_host, host_step. destruct (host_probe _) as [[host s] [observed|[]]]; [|done..].
  cbn [map_failure]. simpl. rewrite Hl. simpl. intros [= <- Hp%map_failure_Ok]. eauto.
Qed.

Lemma rebase_value_pure fresh candidate w : (rebase_value fresh candidate w).1 = w.
Proof.
  unfold rebase_value, sys_bind, embedded, sys_of.
  destruct (baseline_value _); simpl; [|done]. destruct (plan_draft_value _); simpl; [|done].
  destruct (correlations_value _); simpl; [|done]. destruct (status_value _); simpl; [|done].
  by destruct (diagnostics_value _).
Qed.

Lemma prepare_review_ok fresh session revision w :
  protocol_ok w.1 → ok_after (prepare_review fresh session revision) w.
Proof.
  intros Hok. unfold ok_after, prepare_review, sys_bind at 1.
  pose proof (reserve_review_spec w) as [Hw Hs]. destruct (reserve_review w) as [w1 [[]|e]]; simpl in *; subst; [|done].
  specialize (Hs eq_refl). unfold sys_bind at 1, in_app.
  pose proof (prepare_rebase_spec fresh.(Fresh.baseline) session revision (w.1.(JsonProtocol.app), w.2)) as Hp.
  pose proof (as_prepare (w.1.(JsonProtocol.app), w.2) fresh.(Fresh.baseline) session revision) as Hstep.
  assert (expands (w.1.(JsonProtocol.app), w.2)
    (app_prepare_rebase fresh.(Fresh.baseline) session revision (w.1.(JsonProtocol.app), w.2)).1) as He.
  { apply expands_unchanged; [done|].
    apply (holds_prepare_rebase (same_objects w.1.(JsonProtocol.app))); [apply same_objects_hostless|done]. }
  destruct (app_prepare_rebase _ _ _ _) as [[app s] [candidate|[]]]; simpl in *;
    try by apply (protocol_expands _ _ _ He).
  pose proof (protocol_expands _ _ _ He Hok) as Hok'. simpl in Hok'.
  unfold sys_bind at 1. pose proof (rebase_value_pure fresh candidate (set_app app w.1, s)) as Hv.
  destruct (rebase_value _ _ _) as [w2 [value|e]]; simpl in Hv; subst w2; [|done].
  destruct (Hp _ _ eq_refl) as (Hsess & s0 & baseline & Hl & Hc).
  apply (protocol_insert _ _ (set_app app w.1)); [done| |done]. split; [|by exists s0, revision, baseline].
  simpl in *. rewrite Hsess. by eexists.
Qed.

Lemma accept_review_ok session revision review w :
  protocol_ok w.1 → ok_after (accept_review session revision review) w.
Proof.
  intros Hok. unfold ok_after, accept_review, review_of, sys_bind at 1.
  destruct (_ !! review) as [[owner candidate|]|] eqn:Hl; simpl; [|done..].
  destruct (_ || _); [done|]. unfold sys_bind at 1, update_reviews. simpl.
  pose proof (protocol_delete review _ Hok) as Hok'.
  destruct (po_review _ Hok _ _ Hl) as (_ & s0 & expected & baseline & Hp).
  apply ok_in_app; [|done|done]. apply expands_in_session. by eapply as_accept.
Qed.

Lemma review_incident_ok fresh w : protocol_ok w.1 → ok_after (review_incident_request fresh) w.
Proof.
  intros Hok. unfold ok_after, review_incident_request, sys_bind at 1.
  pose proof (reserve_review_spec w) as [Hw Hs]. destruct (reserve_review w) as [w1 [[]|e]]; simpl in *; subst; [|done].
  specialize (Hs eq_refl). unfold sys_bind at 1, in_app, app_review_incident.
  pose proof (expands_host_step incident_error (linux_review_incident fresh.(Fresh.token))
    (w.1.(JsonProtocol.app), w.2)) as He.
  destruct (host_step _ _ _) as [[app s] [[candidate|]|[]]]; simpl in *;
    try by apply (protocol_expands _ _ _ He).
  pose proof (protocol_expands _ _ _ He Hok) as Hok'. simpl in Hok'.
  unfold sys_bind at 1, embedded, sys_of. destruct (inspection_value _); simpl; [|done].
  by apply (protocol_insert _ _ (set_app app w.1)).
Qed.

Lemma acknowledge_review_ok review run_id token w :
  protocol_ok w.1 → ok_after (acknowledge_review review run_id token) w.
Proof.
  intros Hok. unfold ok_after, acknowledge_review, review_of, sys_bind at 1.
  destruct (_ !! review) as [[|candidate]|] eqn:Hl; simpl; [done| |done].
  destruct (_ || _); [done|]. unfold sys_bind at 1, update_reviews. simpl.
  pose proof (protocol_delete review _ Hok) as Hok'.
  apply ok_in_app; [apply expands_host_step| |done].
  intros a w'. unfold sys_bind, embedded, sys_of. by destruct (inspection_value _).
Qed.

Lemma close_session_ok session w :
  protocol_ok w.1 →
  ok_after (let* _ := in_app (close_session session) in
            let* _ := update_reviews (filter (λ '(_, review), is_review_of session review = false)) in
            sys_return Value.Null) w.
Proof.
  intros Hok. pose proof (as_close_session (w.1.(JsonProtocol.app), w.2) session) as Hs.
  revert Hs. unfold ok_after, in_app, close_session, session_of, inspecting, sys_bind.
  destruct (_ !! session) as [found|]; simpl; [|by destruct w as [[] ?]]. intros Hs.
  destruct Hok as [Ha Hb Hr]. split; simpl.
  - exact (app_step_ok (w.1.(JsonProtocol.app), w.2) _ Ha Hs).
  - etrans; [|exact Hb]. apply map_subseteq_size, map_filter_subseteq.
  - intros id review [Hl Hn]%map_lookup_filter_Some. specialize (Hr _ _ Hl).
    destruct review as [owner candidate|]; [|done]. simpl in *. destruct Hr as [Ho Hp].
    split; [|done]. rewrite lookup_delete_ne; [done|]. intros ->. by rewrite N.eqb_refl in Hn.
Qed.

(** What a call relies on: fresh identities and a machine-width revision. *)
Definition call_inputs (fresh : Fresh) (request : Request) w : Prop :=
  is_nil fresh.(Fresh.session) = false ∧
  match request with
  | Request.SessionImport draft => (draft.(DraftDocument.revision) <= u64_MAX)%N
  | Request.SessionEdit session _ _ => ∀ found,
      w.1.(JsonProtocol.app).(DisksGraph.sessions) !! session = Some found →
      fresh_for found.(PlanSession.baseline) found.(PlanSession.draft)
        fresh.(Fresh.operation) fresh.(Fresh.node)
  | _ => True
  end.

Lemma expands_refl v : expands v v.
Proof. by split. Qed.

(** Computations that change nothing. *)
Definition reading_only {W E A} (m : Sys W E A) : Prop := ∀ x, (m x).1 = x.
Lemma reading_pure {W E A} (f : W → result A E) : reading_only (λ x, (x, f x)).
Proof. by intros x. Qed.
Lemma reading_bind {W E A B} (m : Sys W E A) (k : A → Sys W E B) :
  reading_only m → (∀ a, reading_only (k a)) → reading_only (sys_bind m k).
Proof.
  intros Hm Hk x. unfold sys_bind. specialize (Hm x).
  destruct (m x) as [x' [a|e]]; simpl in *; subst; [apply Hk|done].
Qed.
Lemma reading_snapshot id : reading_only (run_snapshot (H:=LinuxLiveHost) (S:=S) id).
Proof.
  apply reading_bind; [apply reading_pure|]. intros record. apply reading_bind; [apply reading_pure|].
  intros []. apply reading_pure.
Qed.
Lemma expands_reading {A} (m : applying LinuxLiveHost S A) v : reading_only m → expands v (m v).1.
Proof. intros Hm. rewrite Hm. apply expands_refl. Qed.

Lemma ok_apply fresh plan w :
  protocol_ok w.1 →
  ok_after (let* run := attempt_handle (apply_plan fresh.(Fresh.run) plan) in retained_attempt run) w.
Proof.
  intros Hok. unfold ok_after, sys_bind at 1, attempt_handle.
  pose proof (expands_apply fresh.(Fresh.run) plan (w.1.(JsonProtocol.app), w.2)) as He.
  destruct (apply_plan _ _ _) as [[app s] r]. pose proof (protocol_expands _ _ _ He Hok) as Hok'.
  simpl in Hok'. assert (∀ id, ok_after (retained_attempt id) (set_app app w.1, s)) as Hread.
  { intros id. apply ok_in_app; [apply expands_reading, reading_snapshot|done|done]. }
  destruct r as [id|[e| |]]; simpl; [apply Hread| |done..].
  destruct (DisksGraphError.run_id e); [apply Hread|done].
Qed.

Lemma call_ok fresh request w :
  call_inputs fresh request w → protocol_ok w.1 → protocol_ok (call_with_policy fresh request w).1.1.
Proof.
  intros [Hnil Hin] Hok. unfold call_with_policy. destruct (needs_live_host request && _); [done|].
  destruct request; cbn [call_request];
    try (by apply prepare_review_ok); try (by apply accept_review_ok); try (by apply close_session_ok);
    try (by apply review_incident_ok); try (by apply acknowledge_review_ok); try (by apply ok_apply);
    try (apply ok_in_app; [|intros; try case_match; done|done]); try done;
    try (apply expands_reading; apply reading_bind; intros; apply reading_pure).
  - apply expands_unchanged; [apply as_probe|].
    apply (keeps_bind (holds_app (same_objects w.1.(JsonProtocol.app))));
      [apply holds_host_step, same_objects_hostless|intros; apply keeps_pure|done].
  - by apply expands_create.
  - by apply expands_import.
  - apply expands_in_session. by apply as_edit.
  - apply expands_in_session, as_undo.
  - apply expands_in_session, as_redo.
  - unfold close_review, review_of, sys_bind. destruct (_ !! review); simpl; [|done].
    by apply protocol_delete.
  - apply expands_plan.
  - apply expands_close_plan.
  - apply expands_unchanged; [apply as_capabilities|].
    by apply (holds_capabilities (same_objects w.1.(JsonProtocol.app))); [apply same_objects_hostless|].
  - apply expands_reading, reading_snapshot.
  - apply expands_close_run.
  - apply expands_host_step.
Qed.

Lemma protocol_apply_ok fresh plan w : protocol_ok w.1 → protocol_ok (protocol_apply fresh plan w).1.1.
Proof.
  intros Hok. unfold protocol_apply. destruct (negb _); [done|].
  assert (expands (w.1.(JsonProtocol.app), w.2)
    (apply_plan_with_updates fresh.(Fresh.run) plan (w.1.(JsonProtocol.app), w.2)).1) as He.
  { destruct (w.1.(JsonProtocol.app).(DisksGraph.plans) !! plan) as [document|] eqn:Hl.
    - pose proof (plan_updates_spec fresh.(Fresh.run) plan document (w.1.(JsonProtocol.app), w.2) Hl) as Hf.
      pose proof (expands_apply fresh.(Fresh.run) plan (w.1.(JsonProtocol.app), w.2)) as He.
      destruct (apply_plan_with_updates _ _ _) as [v [updates r]]. destruct Hf as [Hf _].
      unfold apply_plan, export_plan, inspecting, sys_bind in He. cbn [fst] in He. rewrite Hl in He.
      cbn [ok_or] in He. unfold apply_blocking in He. by rewrite Hf in He.
    - unfold apply_plan_with_updates, export_plan, inspecting. cbn [fst]. rewrite Hl. apply expands_refl. }
  destruct (apply_plan_with_updates _ _ _) as [[app s] [updates r]].
  pose proof (protocol_expands _ _ _ He Hok) as Hok'. simpl in Hok'.
  assert (∀ id, ok_after (retained_attempt id) (set_app app w.1, s)) as Hread.
  { intros id. apply ok_in_app; [apply expands_reading, reading_snapshot|done|done]. }
  unfold ok_after in Hread. unfold sys_bind, attempt_handle. simpl.
  replace (set_app app (set_app app w.1)) with (set_app app w.1) by done.
  destruct r as [id|[e| |]]; simpl; [|destruct (DisksGraphError.run_id e) as [id|]; simpl; [|done]|done..].
  - specialize (Hread id). by destruct (retained_attempt _ _) as [? ?].
  - specialize (Hread id). by destruct (retained_attempt _ _) as [? ?].
Qed.

(** Calls of one protocol owner, with changes of the host and machine between them. *)
Inductive call_step w : JsonProtocol * S → Prop :=
| cl_call fresh request : call_inputs fresh request w → call_step w (call_with_policy fresh request w).1
| cl_apply fresh plan : call_step w (protocol_apply fresh plan w).1
| cl_elsewhere host s :
    call_step w (set_app (set_host host w.1.(JsonProtocol.app)) w.1, s).

Lemma call_step_ok w w' : protocol_ok w.1 → call_step w w' → protocol_ok w'.1.
Proof.
  intros Hok [fresh request Hin|fresh plan|host s]; [by apply call_ok|by apply protocol_apply_ok|].
  apply (protocol_expands w.1 (set_host host w.1.(JsonProtocol.app), s) w.2); [|done].
  apply expands_sessions; [apply as_elsewhere|done].
Qed.
End reviews.

(** ** Redaction *)

(** The same data without the texts of its diagnostics. *)
Definition erase_status (status : LiveCheckStatus) : LiveCheckStatus :=
  match status with
  | LiveCheckStatus.Satisfied => LiveCheckStatus.Satisfied
  | LiveCheckStatus.Violated _ => LiveCheckStatus.Violated ""
  | LiveCheckStatus.Unknown _ => LiveCheckStatus.Unknown ""
  end.
Definition erase_outcome (outcome : BackendOutcome) : BackendOutcome :=
  match outcome with
  | BackendOutcome.Succeeded => BackendOutcome.Succeeded
  | BackendOutcome.Failed _ => BackendOutcome.Failed ""
  | BackendOutcome.OutcomeUnknown _ => BackendOutcome.OutcomeUnknown ""
  end.
Definition erase_text (text : string) : string := "".
Definition erase_check {T} (check : LiveCheck T) : LiveCheck T :=
  LiveCheck.mk check.(LiveCheck.condition) (erase_status check.(LiveCheck.status)).
Definition erase_checks {T} (checks : list (LiveCheck T)) : list (LiveCheck T) := erase_check <$> checks.
Definition erase_action (status : ActionStatus) : ActionStatus :=
  let 'ActionStatus.mk action state applicability admitted completed prerequisites outcome postconditions
    failed reason := status in
  ActionStatus.mk action state (erase_status <$> applicability) admitted completed
    (erase_checks prerequisites) (erase_outcome <$> outcome)
    (erase_checks <$> postconditions) (erase_text <$> failed) (erase_text <$> reason).
Definition erase_goal (report : GoalVerificationReport) : GoalVerificationReport :=
  let 'GoalVerificationReport.mk run_id observation checks preservation := report in
  GoalVerificationReport.mk run_id observation (erase_checks checks) (erase_status preservation).
Definition erase_error (e : DisksGraphError) : DisksGraphError :=
  DisksGraphError.mk e.(DisksGraphError.code) "" e.(DisksGraphError.run_id).
Definition erase_attempt (found : AttemptSnapshot) : AttemptSnapshot :=
  let 'AttemptSnapshot.mk execution source_map error := found in
  let 'RunSnapshot.mk run_id plan_id actions finished verified sequence observation goal := execution in
  AttemptSnapshot.mk
    (RunSnapshot.mk run_id plan_id (erase_action <$> actions) finished verified sequence observation
       (erase_goal <$> goal)) source_map (erase_error <$> error).
Definition erase_event (event : RunEvent) : RunEvent :=
  RunEvent.mk event.(RunEvent.run_id) event.(RunEvent.sequence)
    match event.(RunEvent.kind) with
    | RunEventKind.Progress action _ => RunEventKind.Progress action ""
    | kind => kind
    end.
Definition erase_page (page : EventsPage) : EventsPage :=
  EventsPage.mk (erase_event <$> page.(EventsPage.events)) page.(EventsPage.next_sequence)
    page.(EventsPage.gap).
Definition erase_availability (found : OperationAvailability) : OperationAvailability :=
  match found with
  | OperationAvailability.Available backend => OperationAvailability.Available backend
  | OperationAvailability.Unavailable _ => OperationAvailability.Unavailable ""
  | OperationAvailability.Unknown _ => OperationAvailability.Unknown ""
  end.
Definition erase_capabilities (found : OperationCapabilities) : OperationCapabilities :=
  OperationCapabilities.mk found.(OperationCapabilities.observation)
    found.(OperationCapabilities.incident_pending)
    ((λ o, OperationCapability.mk o.(OperationCapability.operation) o.(OperationCapability.backend)
             (erase_availability o.(OperationCapability.availability)))
       <$> found.(OperationCapabilities.operations)).
Definition erase_failure (e : ProtocolError) : ProtocolError :=
  match e with
  | ProtocolError.InvalidRequest _ => ProtocolError.InvalidRequest ""
  | ProtocolError.UnsupportedOperation _ => ProtocolError.UnsupportedOperation ""
  | ProtocolError.Serialization _ => ProtocolError.Serialization ""
  | ProtocolError.Application e => ProtocolError.Application (erase_error e)
  | e => e
  end.

Section redaction.
Context `{RuntimeText, ReplyEncoder}.

Lemma fmap_invariant {A B} (f : A → B) (g : A → A) (l : list A) :
  (∀ a, f (g a) = f a) → f <$> (g <$> l) = f <$> l.
Proof. intros Hf. rewrite <-list_fmap_compose. apply list_fmap_ext. intros _ a _. apply Hf. Qed.
Lemma option_value_erase {A} (encode : A → Value) (g : A → A) o :
  (∀ a, encode (g a) = encode a) → option_value encode (g <$> o) = option_value encode o.
Proof. intros Hf. destruct o; simpl; auto. Qed.

Lemma status_redacted status : live_status_value (erase_status status) = live_status_value status.
Proof. by destruct status. Qed.
Lemma outcome_redacted outcome : outcome_value (erase_outcome outcome) = outcome_value outcome.
Proof. by destruct outcome. Qed.
Lemma checks_redacted {T} (encode : T → Value) checks :
  checks_value encode (erase_checks checks) = checks_value encode checks.
Proof.
  unfold checks_value. f_equal. apply fmap_invariant. intros check. unfold check_value. simpl.
  by rewrite status_redacted.
Qed.
Lemma optional_redacted message :
  optional_message_value (erase_text <$> message) = optional_message_value message.
Proof. by destruct message. Qed.

Lemma action_redacted status : action_status_value (erase_action status) = action_status_value status.
Proof.
  destruct status. unfold action_status_value. simpl.
  rewrite !option_value_erase, checks_redacted, !optional_redacted;
    auto using status_redacted, outcome_redacted, checks_redacted.
Qed.
Lemma goal_redacted report : goal_report_value (erase_goal report) = goal_report_value report.
Proof. destruct report. unfold goal_report_value. simpl. by rewrite checks_redacted, status_redacted. Qed.

Lemma attempt_redacted found : attempt_value (erase_attempt found) = attempt_value found.
Proof.
  destruct found as [[] source_map error]. unfold attempt_value. simpl.
  rewrite (fmap_invariant action_status_value), !option_value_erase;
    auto using action_redacted, goal_redacted.
Qed.
Lemma event_redacted event : event_value (erase_event event) = event_value event.
Proof. by destruct event as [run_id sequence []]. Qed.
Lemma page_redacted page : events_page_value (erase_page page) = events_page_value page.
Proof. unfold events_page_value. simpl. by rewrite (fmap_invariant event_value) by apply event_redacted. Qed.
Lemma capabilities_redacted found : capabilities_value (erase_capabilities found) = capabilities_value found.
Proof.
  unfold capabilities_value. simpl. do 4 f_equal. f_equal. f_equal.
  rewrite <-list_fmap_compose. apply list_fmap_ext.
  intros _ [operation backend []] _; done.
Qed.
Lemma failure_redacted e : protocol_error_value (erase_failure e) = protocol_error_value e.
Proof. by destruct e. Qed.

(** No diagnostic text reaches a reply: an attempt, a page of events, an answer
    about capabilities or an error is encoded the same with every text of its
    diagnostics erased. *)
Theorem replies_redacted found page capabilities e :
  attempt_value (erase_attempt found) = attempt_value found ∧
  events_page_value (erase_page page) = events_page_value page ∧
  capabilities_value (erase_capabilities capabilities) = capabilities_value capabilities ∧
  encode_reply (Err (erase_failure e)) = encode_reply (Err e).
Proof.
  split_and!; [apply attempt_redacted|apply page_redacted|apply capabilities_redacted|].
  unfold encode_reply, reply_value. by rewrite failure_redacted.
Qed.
End redaction.

(** ** Theorems *)

Section theorems.
Context {S : Type}.
Context `{RuntimeText, FacadeText, Os S, HostPolicies S, BackendDispatcher S, Allocator S}.
Context `{ReplyEncoder, IncidentAcknowledgmentPolicy S}.
Implicit Types (w : JsonProtocol * S).

(** A context for saved inputs has no live host: whatever is called, and also
    when a plan is applied with updates, the host and the machine are the same
    before and after. *)
Theorem saved_inputs_isolated fresh request plan w :
  w.1.(JsonProtocol.live_host) = false →
  let same w' := w'.1.(JsonProtocol.app).(DisksGraph.host) = w.1.(JsonProtocol.app).(DisksGraph.host) ∧
                 w'.2 = w.2 in
  same (call_with_policy fresh request w).1 ∧
  protocol_apply fresh plan w = (w, ([], Err (Reported ProtocolError.LiveUnavailable))).
Proof.
  intros Hl same. unfold call_with_policy, protocol_apply. rewrite Hl. simpl. split; [|done].
  destruct (needs_live_host request) eqn:Hn; [done|]. simpl.
  by apply (saved_request w.1.(JsonProtocol.app).(DisksGraph.host) w.2 fresh request Hn w).
Qed.

(** A request classified as a read leaves every session, plan and attempt as it
    is; only the review of an incident retains something, a review. *)
Theorem read_only_requests fresh request w :
  is_read_only request = true →
  let w' := (call_with_policy fresh request w).1 in
  same_objects w.1.(JsonProtocol.app) w'.1.(JsonProtocol.app) ∧
  (request ≠ Request.IncidentReview → w'.1.(JsonProtocol.reviews) = w.1.(JsonProtocol.reviews)).
Proof.
  intros Hr w'. subst w'. unfold call_with_policy. destruct (_ && _); [done|]. split.
  - by apply (read_request w.1.(JsonProtocol.app) fresh request Hr w).
  - intros Hne. by apply (read_request_reviews w.1.(JsonProtocol.reviews) fresh request Hr Hne w).
Qed.

(** C26: After any sequence of calls, with anything happening to the host and the
    machine in between, a protocol owner retains at most 64 reviews, every
    retained rebase belongs to a session that still exists and was prepared by
    the engine, and the invariant of the application holds. *)
Theorem protocol_invariant (host : LinuxLiveHost) live (s : S) w :
  rtc call_step (protocol_new (with_root host) live, s) w → protocol_ok w.1.
Proof.
  intros Hr. assert (protocol_ok (protocol_new (with_root host) live, s).1) as Hok.
  { split; simpl; [apply with_root_ok|rewrite map_size_empty; lia|done]. }
  induction Hr as [|a b c Hab _ IH]; [done|]. by apply IH; eapply call_step_ok.
Qed.

(** What using a review does before the application is asked: the review is
    unknown or of another owner, revision, run or token, and nothing changes;
    or it matches, and it is gone afterwards whatever the application answers. *)
Definition used_once review (matches : Review → Prop) w w' (r : result Value (Failure ProtocolError)) : Prop :=
  (w' = w ∧ (r = Err (Reported ProtocolError.UnknownReview) ∨ r = Err (Reported ProtocolError.ReviewMismatch))) ∨
  (∃ found, w.1.(JsonProtocol.reviews) !! review = Some found ∧ matches found ∧
     w'.1.(JsonProtocol.reviews) = delete review w.1.(JsonProtocol.reviews)).

Lemma in_app_reviews {A B} (m : applying LinuxLiveHost S A) (k : A → Sys (JsonProtocol * S) (Failure ProtocolError) B) w :
  (∀ a, reading_only (k a)) →
  (sys_bind (in_app m) k w).1.1.(JsonProtocol.reviews) = w.1.(JsonProtocol.reviews).
Proof.
  intros Hk. unfold sys_bind, in_app. destruct (m _) as [[app s] [a|[]]]; simpl; [by rewrite Hk|done..].
Qed.

(** A review is used once and only by its owner: a rebase is accepted for the
    session and revision it was prepared for, an incident acknowledged for the
    run and token it shows; a use that passes the check consumes the review
    before the application is asked. *)
Theorem reviews_consumed session revision review run_id token w :
  (let '(w', r) := accept_review session revision review w in
   used_once review (λ found, ∃ candidate, found = Review.Rebase session candidate ∧
     candidate.(RebasePreview.source).(DraftDocument.revision) = revision) w w' r) ∧
  (let '(w', r) := acknowledge_review review run_id token w in
   used_once review (λ found, ∃ candidate, found = Review.Incident candidate ∧
     candidate.(IncidentReview.inspection).(IncidentInspection.attempt).(ActiveAttempt.run_id) = run_id ∧
     candidate.(IncidentReview.token) = token) w w' r).
Proof.
  split.
  - destruct (accept_review _ _ _ _) as [w' r] eqn:He. revert He.
    unfold accept_review, review_of, sys_bind at 1. unfold used_once.
    destruct (_ !! review) as [[owner candidate|candidate]|] eqn:Hl; simpl.
    2,3: intros [= <- <-]; left; by eauto.
    destruct (N.eqb_spec owner session) as [->|]; [|intros [= <- <-]; left; by eauto].
    destruct (N.eqb_spec candidate.(RebasePreview.source).(DraftDocument.revision) revision) as [Hrev|];
      [|intros [= <- <-]; left; by eauto].
    simpl. unfold sys_bind at 1, update_reviews. simpl. intros He. right.
    exists (Review.Rebase session candidate). split_and!; [done|by eauto|].
    change w' with (w', r).1. rewrite <-He. rewrite in_app_reviews by (intros; apply reading_pure). done.
  - destruct (acknowledge_review _ _ _ _) as [w' r] eqn:He. revert He.
    unfold acknowledge_review, review_of, sys_bind at 1. unfold used_once.
    destruct (_ !! review) as [[owner candidate|candidate]|] eqn:Hl; simpl.
    1,3: intros [= <- <-]; left; by eauto.
    destruct (N.eqb_spec candidate.(IncidentReview.inspection).(IncidentInspection.attempt).(ActiveAttempt.run_id) run_id) as [Hrun|];
      [|intros [= <- <-]; left; by eauto].
    destruct (N.eqb_spec candidate.(IncidentReview.token) token) as [Htok|];
      [|intros [= <- <-]; left; by eauto].
    simpl. unfold sys_bind at 1, update_reviews. simpl. intros He. right.
    exists (Review.Incident candidate). split_and!; [done|by eauto|].
    change w' with (w', r).1. rewrite <-He. rewrite in_app_reviews; [done|].
    intros a. apply reading_bind; intros; apply reading_pure.
Qed.
End theorems.

(** ** The default host *)

Section default_host.
Context {S : Type} `{RuntimeText, FacadeText, Os S, !OsLaws S, !CodecLaws, Allocator S}.
Context (probe_id baseline_id : S → Uuid) (probe : S → S * ProbeSnapshot) (backend : BackendId).
#[local] Instance default_policies : HostPolicies S := read_only_policies probe_id baseline_id probe.
#[local] Instance default_dispatcher : BackendDispatcher S := disabled_dispatcher backend.
Hypothesis default_probe_quiet : ∀ s, files (probe s).1 = files s.

Section calm.
Context (a0 : option string).

(** The marker is [a0]. *)
Definition calm (s : S) : Prop := active s = a0.
Definition calm_host (w : LinuxLiveHost * S) : Prop := calm w.2.
Definition calm_app (v : DisksGraph LinuxLiveHost * S) : Prop := calm v.2.
(** And no backend has been called. *)
Definition calm_world (w : World LinuxLiveHost S) : Prop :=
  calm w.(World.machine) ∧ w.(World.invocations) = [].

Lemma calm_quiet {E A} (m : Sys S E A) : quiet files m → keeps calm m.
Proof. intros Hm s Hs. unfold calm. by rewrite (active_files _ _ (Hm s)). Qed.
Lemma calm_close s : calm s → calm (close_lock s).
Proof. intros Hs. unfold calm. by rewrite active_close. Qed.
Lemma calm_probe s : calm s → calm (probe s).1.
Proof. intros Hs. unfold calm. by rewrite (active_files _ _ (default_probe_quiet s)). Qed.
Lemma calm_inspect : keeps calm inspect.
Proof.
  intros s Hs. pose proof (inspect_spec s) as Hi. unfold outcome in Hi.
  destruct (inspect s) as [s' [found|e]]; [destruct Hi as [Hi _]|]; unfold calm; simpl; by rewrite (active_files _ _ Hi).
Qed.

Lemma calm_on_machine {E A} (m : Sys S E A) : keeps calm m → keeps calm_host (on_machine m).
Proof. intros Hm w Hw. unfold on_machine. specialize (Hm w.2 Hw). by destruct (m w.2). Qed.
Lemma calm_map_err {E F A} (f : E → F) (m : Sys S E A) : keeps calm m → keeps calm (sys_map_err f m).
Proof. intros Hm s Hs. unfold sys_map_err. specialize (Hm s Hs). by destruct (m s). Qed.
Lemma calm_linux_probe : keeps calm_host linux_probe.
Proof.
  intros w Hw. unfold linux_probe. pose proof (calm_probe _ Hw) as Hp. simpl.
  destruct (probe w.2) as [s publication]. by destruct (collect _ _ _ _).
Qed.
Lemma calm_no_attempt : keeps calm_host (require_no_attempt (S:=S)).
Proof.
  apply keeps_bind; [apply calm_on_machine, calm_map_err, calm_inspect|]. intros found.
  case_bool_decide; apply keeps_pure.
Qed.

(** A plan with actions is never ready. *)
Lemma plan_never_ready observed actions w :
  (plan_readiness observed actions w).1 = w ∧
  ((plan_readiness observed actions w).2 = Ok LiveCheckStatus.Satisfied → actions = []).
Proof. destruct actions as [|action actions]; [done|]. by destruct w. Qed.

Lemma check_plan_calm run observed w :
  calm_host w → calm_host (linux_check_plan run observed w).1 ∧
  ((linux_check_plan run observed w).2 = Ok LiveCheckStatus.Satisfied →
   run.(ExecutionRun.plan).(ExecutionPlan.actions) = []).
Proof.
  intros Hw. unfold linux_check_plan, sys_bind, sys_of, require_current.
  destruct (check_reviewed_plan run); [|done]. simpl. destruct (is_current _ _ _); [|done].
  pose proof (calm_no_attempt w Hw) as Ha. destruct (require_no_attempt w) as [w1 [[]|e]]; [|done].
  destruct (plan_never_ready observed run.(ExecutionRun.plan).(ExecutionPlan.actions) w1) as [Hr Hn].
  simpl in Ha. by rewrite Hr.
Qed.

Lemma calm_verify_goal run observed bs : keeps calm_host (linux_verify_goal run observed bs).
Proof.
  unfold linux_verify_goal.
  do 2 (apply keeps_bind; [apply keeps_pure|intros _]). apply keeps_bind; [apply calm_no_attempt|]. intros _.
  do 2 (apply keeps_bind; [apply keeps_pure|intros ?]).
  assert (∀ (f : S → S * LiveCheckStatus), (∀ s, (f s).1 = s) → keeps calm_host (asking f)) as Hask.
  { intros f Hf w Hw. unfold asking, on_machine, calm_host. specialize (Hf w.2).
    destruct (f w.2) as [s status]. simpl in *. by subst. }
  apply keeps_bind; [by apply Hask|]. intros coverage.
  apply keeps_bind; [case_bool_decide; [by apply Hask|apply keeps_pure]|]. intros preserved.
  apply keeps_bind; [apply calm_no_attempt|]. intros _. apply keeps_pure.
Qed.

(** *** Attempts *)

Lemma calm_host_call {A} (m : Sys (LinuxLiveHost * S) (Failure HostError) A) :
  keeps calm_host m → keeps calm_world (host_call m).
Proof.
  intros Hm w [Hc Hi]. unfold host_call. specialize (Hm (w.(World.host), w.(World.machine)) Hc).
  by destruct (m _) as [h r].
Qed.
Lemma calm_machine_call {E A} (f : E → CoordinatorError) (m : Sys S (Failure E) A) :
  keeps calm m → keeps calm_world (machine_call f m).
Proof.
  intros Hm w [Hc Hi]. unfold machine_call. specialize (Hm w.(World.machine) Hc).
  by destruct (m _) as [s r].
Qed.
Lemma calm_no_marker : keeps calm_world require_no_marker.
Proof.
  apply keeps_bind; [apply calm_machine_call, calm_map_err, calm_inspect|]. intros found.
  case_bool_decide; apply keeps_pure.
Qed.
Lemma calm_run_call {A} (m : Exec A) : keeps calm_world (run_call m).
Proof. intros w Hw. unfold run_call. by destruct (m _) as [run r]. Qed.

Lemma calm_verify_run : keeps calm_world verify_run.
Proof.
  apply keeps_bind; [apply calm_host_call, calm_linux_probe|]. intros observed.
  apply keeps_bind; [intros w Hw; by apply calm_host_call; [apply calm_verify_goal|]|]. intros found.
  apply keeps_bind; [apply keeps_pure|]. intros _. apply keeps_bind; [apply calm_no_marker|]. intros _.
  apply keeps_bind; [apply calm_run_call|]. intros _. apply keeps_pure.
Qed.

Lemma ordered_empty {E} plan ordered :
  plan.(ExecutionPlan.actions) = [] → ordered_actions (E:=E) plan = Ok ordered → ordered = [].
Proof.
  intros Ha. unfold ordered_actions. rewrite Ha. destruct (plan_order _ _) as [[|i order]|]; [|done..].
  by intros [= <-].
Qed.

Lemma calm_run_locked : keeps calm_world run_locked.
Proof.
  apply keeps_bind; [apply calm_no_marker|]. intros _.
  apply keeps_bind; [apply calm_host_call, calm_linux_probe|]. intros initial w Hw.
  unfold sys_bind at 1. unfold host_call at 1. simpl.
  destruct (check_plan_calm w.(World.run) initial (w.(World.host), w.(World.machine)) (proj1 Hw)) as [Hc Hn].
  destruct (linux_check_plan _ _ _) as [h [readiness|[]]]; simpl in *; [|split; [done|apply Hw]..].
  destruct Hw as [_ Hi]. assert (calm_world (with_host h w)) as Hw by done.
  case_bool_decide as Hr; [done|]. subst readiness. specialize (Hn eq_refl).
  unfold sys_bind at 1, read. destruct (ordered_actions _) as [ordered|e] eqn:Ho; [|done].
  apply ordered_empty in Ho as ->; [|done]. simpl. by apply calm_verify_run.
Qed.

Lemma calm_execute_run : keeps calm_world execute_run_with_updates.
Proof.
  assert (keeps calm_world execute_run_inner) as Hi.
  { do 3 (apply keeps_bind; [apply keeps_pure|intros _]).
    apply keeps_bind; [apply calm_machine_call, calm_map_err, calm_quiet, quiet_try_lock_host|].
    intros _ w Hw. pose proof (calm_run_locked w Hw) as [Hc Hv]. destruct (run_locked w) as [w' r].
    split; [by apply calm_close|done]. }
  intros w Hw. unfold execute_run_with_updates.
  specialize (Hi (add_published w)). destruct (execute_run_inner _) as [w' r]. by apply Hi.
Qed.

Lemma calm_attempt_run run (host : LinuxLiveHost) (s : S) : calm s → calm_world (attempt_run run host s).1.
Proof.
  intros Hs. unfold attempt_run.
  pose proof (calm_quiet duplicate_directory quiet_duplicate_directory s Hs) as Hd.
  destruct (duplicate_directory s) as [s1 [[]|e]]; [|done].
  pose proof (calm_execute_run (World.mk run (coordinator_new run) host s1 [] []) ltac:(done)) as He.
  by destruct (execute_run_with_updates _) as [world r].
Qed.

Lemma calm_apply run_id document source_map v :
  calm_app v → calm_app (apply_document_with_updates run_id document source_map v).1.
Proof.
  intros Hv. unfold apply_document_with_updates. destruct (_ <=? _)%nat; [done|].
  destruct (try_reserve v.2); [done|]. destruct (execution_run_new _ _ _ _ _) as [run|[]]; simpl; [|done..].
  pose proof (calm_attempt_run run v.1.(DisksGraph.host) v.2 Hv) as [Hc _].
  destruct (attempt_run _ _ _) as [world [[]|[]]]; done.
Qed.

(** *** Incidents *)

Lemma calm_under_lock {A} (m : Sys S (Failure IncidentError) A) : keeps calm m → keeps calm (under_lock m).
Proof.
  intros Hm. apply keeps_bind; [apply calm_map_err, calm_quiet, quiet_try_lock_host|].
  intros _ s Hs. specialize (Hm s Hs). destruct (m s) as [s' r]. by apply calm_close.
Qed.
Lemma calm_inspect_locked : keeps calm (inspect_locked (S:=S)).
Proof.
  intros s Hs. pose proof (inspect_locked_spec default_probe_quiet s) as Hi. unfold outcome in Hi.
  destruct (inspect_locked s) as [s' [found|e]]; [destruct Hi as [Hi _]|];
    unfold calm; simpl; by rewrite (active_files _ _ Hi).
Qed.
Lemma calm_review token : keeps calm (review_incident (S:=S) token).
Proof.
  apply calm_under_lock, keeps_bind; [apply calm_quiet, quiet_directory_identity|]. intros directory.
  apply keeps_bind; [apply calm_inspect_locked|]. intros; apply keeps_pure.
Qed.
End calm.

Context `{!WireLaws, ReplyEncoder}.
#[local] Instance default_acknowledgment : IncidentAcknowledgmentPolicy S := read_only_acknowledgment.

(** The policy never answers that an acknowledgment is safe. *)
Lemma acknowledgment_refused review confirmation s :
  outcome (acknowledge_incident review confirmation) s (λ _ _, False) (λ _ s', active s' = active s).
Proof.
  pose proof (acknowledge_incident_spec default_probe_quiet review confirmation s) as Ha.
  eapply outcome_mono; [exact Ha| |].
  - intros fresh s' (_ & s1 & s2 & [Hp _ _ _ _ _] & _). by injection Hp.
  - intros _ s' [He|(fresh & s1 & s2 & status & [Hp Hf _ _ _ _] & [He|[Hs _]])]; [done| |].
    + injection Hp as <- _. rewrite He. by apply active_files.
    + injection Hp as _ <-. done.
Qed.

(** *** Calls *)

Section calls.
Context (a0 : option string).
#[local] Notation calm_app := (calm_app a0).

Lemma calm_host_step {E A} (f : E → DisksGraphError) (m : Sys (LinuxLiveHost * S) (Failure E) A) :
  keeps (calm_host a0) m → keeps calm_app (host_step f m).
Proof.
  intros Hm v Hv. unfold host_step. specialize (Hm (v.1.(DisksGraph.host), v.2) Hv).
  by destruct (m _) as [[host s] r].
Qed.
Lemma calm_machine_step {E A} (f : E → DisksGraphError) (m : Sys S E A) :
  keeps (calm a0) m → keeps calm_app (machine_step f m).
Proof. intros Hm v Hv. unfold machine_step. specialize (Hm v.2 Hv). by destruct (m _) as [s r]. Qed.
Lemma calm_changing f : keeps calm_app (changing (S:=S) f).
Proof. by intros v. Qed.
Lemma calm_in_session {E A} (f : E → DisksGraphError) id
    (method : PlanSession → PlanSession * result A (Failure E)) : keeps calm_app (in_session f id method).
Proof.
  apply keeps_bind; [apply keeps_pure|]. intros session. destruct (method session) as [session' r].
  apply keeps_bind; [apply calm_changing|]. intros. apply keeps_pure.
Qed.
Lemma calm_probe_host : keeps calm_app probe_host.
Proof. apply calm_host_step, calm_linux_probe. Qed.

Lemma calm_capabilities operations : keeps calm_app (capabilities operations).
Proof.
  unfold capabilities. destruct (_ <? _)%nat; [apply keeps_pure|].
  apply keeps_bind; [apply calm_machine_step, calm_quiet, quiet_try_lock_host|]. intros _ v Hv.
  assert (keeps calm_app (locked_capabilities operations)) as Hk.
  { apply keeps_bind; [apply calm_machine_step, calm_inspect|]. intros found.
    apply keeps_bind; [apply calm_probe_host|]. intros observed.
    apply keeps_bind; [|intros; apply keeps_pure].
    induction operations as [|operation operations IH]; [apply keeps_pure|].
    apply keeps_bind; [by intros x|]. intros answer. apply keeps_bind; [done|intros; apply keeps_pure]. }
  specialize (Hk v Hv). destruct (locked_capabilities operations v) as [v' r]. by apply calm_close.
Qed.

Lemma calm_attempt_handle run_id plan :
  keeps (within calm_app) (attempt_handle (apply_plan run_id plan)).
Proof.
  apply keeps_attempt_handle, keeps_bind; [apply keeps_pure|]. intros document v Hv.
  unfold apply_blocking, apply_document. pose proof (calm_apply a0 run_id document [] v Hv) as Ha.
  by destruct (apply_document_with_updates _ _ _ _) as [v' [published r]].
Qed.
Lemma calm_snapshot id : keeps (within calm_app) (retained_attempt id).
Proof.
  intros w Hw. apply (keeps_bind (within calm_app)); [|intros; apply keeps_pure|done].
  apply keeps_in_app. intros v Hv. by rewrite reading_snapshot.
Qed.

Lemma calm_incident {A} (m : Sys S (Failure IncidentError) A) :
  keeps (calm a0) m → keeps calm_app (host_step incident_error (λ x, on_machine m (None, x.2))).
Proof. intros Hm. apply calm_host_step. intros x Hx. by apply calm_on_machine. Qed.

Lemma calm_acknowledge review confirmation :
  keeps (calm a0) (acknowledge_incident (S:=S) review confirmation).
Proof.
  intros s Hs. pose proof (acknowledgment_refused review confirmation s) as Ha. unfold outcome in Ha.
  destruct (acknowledge_incident _ _ _) as [s' [found|e]]; [done|]. unfold calm. simpl. by rewrite Ha.
Qed.

Lemma calm_prepare_review fresh session revision : keeps (within calm_app) (prepare_review fresh session revision).
Proof.
  apply keeps_bind; [intros w Hw; by rewrite (proj1 (reserve_review_spec w))|]. intros _.
  apply keeps_bind; [apply keeps_in_app|intros candidate].
  - apply keeps_bind; [apply keeps_bind; intros; apply keeps_pure|]. intros actual.
    case_bool_decide; [apply keeps_pure|]. apply keeps_bind; [apply calm_probe_host|].
    intros. apply keeps_bind; intros; apply keeps_pure.
  - apply keeps_bind; [intros w Hw; by rewrite rebase_value_pure|]. intros value.
    apply keeps_bind; [apply keeps_update_reviews|intros; apply keeps_pure].
Qed.
Lemma calm_accept_review session revision review : keeps (within calm_app) (accept_review session revision review).
Proof.
  apply keeps_bind; [apply keeps_pure|]. intros [owner candidate|]; [|apply keeps_pure].
  destruct (_ || _); [apply keeps_pure|]. apply keeps_bind; [apply keeps_update_reviews|]. intros _.
  apply keeps_bind; [apply keeps_in_app, calm_in_session|intros; apply keeps_pure].
Qed.
Lemma calm_review_incident fresh : keeps (within calm_app) (review_incident_request fresh).
Proof.
  apply keeps_bind; [intros w Hw; by rewrite (proj1 (reserve_review_spec w))|]. intros _.
  apply keeps_bind; [apply keeps_in_app, calm_incident, calm_review|].
  intros [candidate|]; [|apply keeps_pure]. apply keeps_bind; [apply keeps_pure|]. intros incident.
  apply keeps_bind; [apply keeps_update_reviews|intros; apply keeps_pure].
Qed.
Lemma calm_acknowledge_review review run_id token : keeps (within calm_app) (acknowledge_review review run_id token).
Proof.
  apply keeps_bind; [apply keeps_pure|]. intros [|candidate]; [apply keeps_pure|].
  destruct (_ || _); [apply keeps_pure|]. apply keeps_bind; [apply keeps_update_reviews|]. intros _.
  apply keeps_bind; [apply keeps_in_app, calm_incident, calm_acknowledge|].
  intros. apply keeps_bind; intros; apply keeps_pure.
Qed.

Lemma calm_request fresh request : keeps (within calm_app) (call_request fresh request).
Proof.
  destruct request; cbn [call_request];
    try apply keeps_pure; try apply calm_snapshot; try apply calm_prepare_review;
    try apply calm_accept_review; try apply calm_review_incident; try apply calm_acknowledge_review;
    try (apply keeps_bind; [apply keeps_in_app|intros; try case_match; apply keeps_pure]);
    try apply calm_in_session; try apply calm_capabilities;
    try (apply keeps_bind; [apply calm_probe_host|intros; apply keeps_pure]);
    try (apply keeps_bind; intros; apply keeps_pure);
    try (apply keeps_bind; [apply keeps_pure|intros; apply calm_changing]);
    try (apply keeps_pure).
  - do 3 (apply keeps_bind; [first [apply keeps_pure|apply calm_probe_host]|intros]).
    apply keeps_bind; [apply calm_changing|intros; apply keeps_pure].
  - do 2 (apply keeps_bind; [apply keeps_pure|intros]).
    apply keeps_bind; [apply calm_changing|intros; apply keeps_pure].
  - apply keeps_bind; [apply keeps_pure|]. intros _.
    apply keeps_bind; [apply keeps_update_reviews|intros; apply keeps_pure].
  - apply keeps_bind; [apply keeps_in_app|intros _].
    + apply keeps_bind; [apply keeps_pure|intros; apply calm_changing].
    + apply keeps_bind; [apply keeps_update_reviews|intros; apply keeps_pure].
  - do 2 (apply keeps_bind; [apply keeps_pure|intros]).
    apply keeps_bind; [apply calm_changing|intros; apply keeps_pure].
  - apply keeps_bind; [apply calm_attempt_handle|intros; apply calm_snapshot].
  - apply calm_incident, calm_under_lock, calm_inspect_locked.
Qed.

Lemma calm_plan_updates run_id plan v : calm_app v → calm_app (apply_plan_with_updates run_id plan v).1.
Proof.
  intros Hv. unfold apply_plan_with_updates, export_plan, inspecting.
  destruct (_ !! plan) as [document|]; [|done]. simpl. pose proof (calm_apply a0 run_id document [] v Hv) as Ha.
  destruct (apply_document_with_updates _ _ _ _) as [v' [published r]].
  destruct (try_map live_update published) as [updates|]; [|done].
  destruct (retained_id r) as [id|]; [|done].
  assert (reading_only (let* found := run_snapshot (H:=LinuxLiveHost) (S:=S) id in
                        let* page := app_events id 0 in sys_return (found, page))) as Hr.
  { apply reading_bind; [apply reading_snapshot|]. intros found.
    apply reading_bind; [apply reading_bind; intros; apply reading_pure|intros; apply reading_pure]. }
  specialize (Hr v'). destruct (sys_bind _ _ v') as [v'' [final|e]]; simpl in *; by subst.
Qed.

Lemma calm_protocol_apply fresh plan w :
  within calm_app w → within calm_app (protocol_apply fresh plan w).1.
Proof.
  intros Hw. unfold protocol_apply. destruct (negb _); [done|].
  pose proof (calm_plan_updates fresh.(Fresh.run) plan (w.1.(JsonProtocol.app), w.2) Hw) as Hu.
  destruct (apply_plan_with_updates _ _ _) as [[app s] [updates r]].
  assert (keeps (within calm_app) (let* run := attempt_handle (λ w, (w, r)) in retained_attempt run)) as Hk.
  { apply keeps_bind; [apply keeps_attempt_handle; by intros v|intros; apply calm_snapshot]. }
  specialize (Hk (set_app app w.1, s) Hu). by destruct (sys_bind _ _ _) as [w' r'].
Qed.
End calls.

(** C27: The host the application has when nothing is configured: its policies
    answer unknown and its dispatcher refuses.  Over a probe that leaves the
    attempt directory alone, no call arms or clears the marker of an attempt, no
    attempt calls a backend, and no incident is acknowledged. *)
Theorem default_host_never_writes fresh request plan (w : JsonProtocol * S) run (host : LinuxLiveHost) s
    review confirmation :
  active (call_with_policy fresh request w).1.2 = active w.2 ∧
  active (protocol_apply fresh plan w).1.2 = active w.2 ∧
  (attempt_run run host s).1.(World.invocations) = [] ∧
  ¬ ∃ s' found, acknowledge_incident review confirmation s = (s', Ok found).
Proof.
  split_and!.
  - unfold call_with_policy. destruct (_ && _); [done|].
    by apply (calm_request (active w.2) fresh request w).
  - by apply (calm_protocol_apply (active w.2) fresh plan w).
  - by apply (calm_attempt_run (active s) run host s).
  - intros (s' & found & He). pose proof (acknowledgment_refused review confirmation s) as Ha.
    unfold outcome in Ha. by rewrite He in Ha.
Qed.
End default_host.
