(* ===== verification/Transport.v ===== *)
(** * The transport: [disksgraph-ffi/src/registry.rs] and [jobs.rs]

    Contexts owned by worker threads behind process-wide tables.  What a caller
    or a worker does between two blocking or atomic operations is a function;
    the interleavings of all threads are the step relation [step].  A context's
    mailbox is shared between its callers and its worker, so mailboxes live in a
    store of their own. *)

From stdpp Require Import relations.
From S2P Require Import Prelude Model Reach Graph GraphOrder GraphValid State Action Contract.
From S2P Require Import Logical Evidence Prerequisites Effects Report PlanOrder Compose Simulate.
From S2P Require Import Wire Observation Correlate Observe Execution Live LiveGoal Draft Build.
From S2P Require Import Session Documents Json Native Recipes Scope Bindings.
From S2P Require Import Targets.
From S2P Require Import Targets Checkpoint Host Incident Coordinator.
From S2P Require Import Facade FacadeProps Requests.
From S2P Require Import RequestProps.

#[local] Open Scope string_scope.
#[local] Open Scope list_scope.

Definition ABI_VERSION : N := 1.
Definition MAX_CONTEXTS : nat := 32.
Definition MAX_CONFIG_BYTES : N := (64 * 1024)%N.

(** ** Errors and replies *)

(** [registry::Error] *)
Module TransportError.
Inductive TransportError :=
| InvalidConfig (message : string)
| UnsupportedAbiVersion (version : N)
| UnsupportedVersion (version : N)
| ResourceLimit
| UnknownContext
| UnknownJob
| InvalidEventCursor
| Busy
| OpenFailed (message : string)
| Stopped
| Panicked.
End TransportError.
Abbreviation TransportError := TransportError.TransportError.

Definition transport_error_value (e : TransportError) : Value :=
  match e with
  | TransportError.InvalidConfig message => tagged_with "invalid_config" (message_value message)
  | TransportError.UnsupportedAbiVersion version =>
      tagged_with "unsupported_abi_version" (Value.Number version)
  | TransportError.UnsupportedVersion version => tagged_with "unsupported_version" (Value.Number version)
  | TransportError.ResourceLimit => tagged "resource_limit"
  | TransportError.UnknownContext => tagged "unknown_context"
  | TransportError.UnknownJob => tagged "unknown_job"
  | TransportError.InvalidEventCursor => tagged "invalid_event_cursor"
  | TransportError.Busy => tagged "busy"
  | TransportError.OpenFailed message => tagged_with "open_failed" (message_value message)
  | TransportError.Stopped => tagged "stopped"
  | TransportError.Panicked => tagged "panicked"
  end.

Definition transport_reply `{JsonText} (r : result Value TransportError) : string :=
  value_text match r with
             | Ok v => Value.Object [("protocol_version", Value.Number PROTOCOL_VERSION); ("result", v)]
             | Err e => Value.Object [("protocol_version", Value.Number PROTOCOL_VERSION);
                                      ("error", transport_error_value e)]
             end.

(** ** Configuration *)

Module Config.
Record Config := mk {
  abi_version : N;
  protocol_version : N;
  root : PathBuf;
  manifest : option PathBuf }.
End Config.
Abbreviation Config := Config.Config.

(** [serde_json::from_value] at [Config]. *)
Class ConfigDecoder := config_of : Value → result Config string.

Definition check_version (field : string) (expected : N) (mismatch : N → TransportError) (value : Value)
    : result unit TransportError :=
  let? version := ok_or (get field value ≫= as_u64)
    (TransportError.InvalidConfig (field +:+ " must be an unsigned integer")) in
  if negb (version =? expected)%N then Err (mismatch version) else Ok tt.

(** Without the [debug_assert_eq!] of the two versions just checked. *)
Definition transport_config `{RequestDecoder, ConfigDecoder} (input : string)
    : result Config TransportError :=
  if (MAX_CONFIG_BYTES <? N.of_nat (String.length input))%N then Err TransportError.ResourceLimit
  else
    let? value := map_err TransportError.InvalidConfig (parse_value input) in
    let? _ := check_version "abi_version" ABI_VERSION TransportError.UnsupportedAbiVersion value in
    let? _ := check_version "protocol_version" PROTOCOL_VERSION TransportError.UnsupportedVersion value in
    map_err TransportError.InvalidConfig (config_of value).

(** ** Mailboxes ([jobs.rs]) *)

Module Progress.
Record Progress := mk {
  snapshot : option AttemptSnapshot;
  events : EventsPage;
  finished : bool;
  error : option Value }.
End Progress.
Abbreviation Progress := Progress.Progress.

(** The mailbox [Job::new] makes. *)
Definition job_new : Progress := Progress.mk None (EventsPage.mk [] 0 false) false None.

Definition job_update (found : AttemptSnapshot) (page : EventsPage) (p : Progress) : Progress :=
  Progress.mk (Some found) page p.(Progress.finished) p.(Progress.error).
Definition job_finish (error : option Value) (p : Progress) : Progress :=
  Progress.mk p.(Progress.snapshot) p.(Progress.events) true error.

(** The page [Job::poll] builds; the subtraction would underflow at zero. *)
Definition poll_page (p : Progress) (since : N) : result EventsPage (Failure TransportError) :=
  let page := p.(Progress.events) in
  if (page.(EventsPage.next_sequence) <? since)%N then Err (Reported TransportError.InvalidEventCursor)
  else
    let? gap := match head page.(EventsPage.events) with
                | None => Ok false
                | Some first =>
                    let? before := ok_or (u64_checked_sub first.(RunEvent.sequence) 1) Panicked in
                    Ok (since <? before)%N
                end in
    Ok (EventsPage.mk
          (filter (λ event, (since < event.(RunEvent.sequence))%N) page.(EventsPage.events))
          page.(EventsPage.next_sequence) gap).

Definition job_poll `{RuntimeText, ReplyEncoder} (id : N) (p : Progress) (since : N)
    : result Value (Failure TransportError) :=
  let? page := poll_page p since in
  Ok (Value.Object
    [("job", Value.Number id); ("finished", Value.Bool p.(Progress.finished));
     ("snapshot", option_value attempt_value p.(Progress.snapshot));
     ("events", events_page_value page);
     ("error", option_value (λ v, v) p.(Progress.error))]).

(** ** Contexts *)

Abbreviation ContextId := N (only parsing).
Abbreviation JobId := N (only parsing).
Abbreviation ThreadId := N (only parsing).

(** A message of the channel; a call's response channel is that of the thread
    that waits. *)
Module Message.
Inductive Message :=
| Call (request : Request)
| Apply (plan : PlanId) (job : JobId)
| Stop.
End Message.
Abbreviation Message := Message.Message.

(** What a worker thread is doing. *)
Module Task.
Inductive Task :=
(** blocked in [recv] *)
| Idle
(** a call was received and runs *)
| Calling (request : Request)
(** the call returned or its panic was caught; the response is not sent yet *)
| Replying (text : string) (panicked : bool)
(** a job was received and runs *)
| Applying (plan : PlanId) (job : JobId)
(** running a job: the updates still to be published and the final error *)
| Publishing (job : JobId) (updates : list (AttemptSnapshot * EventsPage)) (error : option Value)
    (panicked : bool)
(** the response is sent or the job is finished, the loop continues or breaks *)
| Ending (panicked : bool).
End Task.
Abbreviation Task := Task.Task.

Module Worker.
Inductive Worker :=
(** before the handshake *)
| Starting
(** left with this answer to the handshake *)
| Refused (e : TransportError)
| Serving (protocol : JsonProtocol) (task : Task)
| Exited.
End Worker.
Abbreviation Worker := Worker.Worker.

(** Who refers to a context besides the callers that found it. *)
Module Phase.
Inductive Phase :=
(** the opening thread, waiting for the handshake *)
| Opening (thread : ThreadId)
(** the table *)
| Listed
(** a closing thread that waits for the lock *)
| Removed (thread : ThreadId)
(** a closing thread that has the lock and has taken the worker's handle *)
| Joining (thread : ThreadId)
| Stopping (thread : ThreadId)
(** nobody; the worker has been joined *)
| Closed.
End Phase.
Abbreviation Phase := Phase.Phase.

(** [Context] with its lock ([calling] or a closing phase) and its channels. *)
Module Context.
Record Context := mk {
  live : bool;
  phase : Phase;
  worker : Worker;
  queue : option Message;
  calling : option ThreadId;
  response : option string;
  job : option JobId }.
End Context.
Abbreviation Context := Context.Context.
Implicit Types (context : Context) (id : ContextId) (job : JobId) (thread : ThreadId).

Definition has_exited (worker : Worker) : bool :=
  match worker with Worker.Refused _ | Worker.Exited => true | _ => false end.

(** Whether [try_lock] or [lock] succeeds. *)
Definition is_free context : bool :=
  match context.(Context.calling), context.(Context.phase) with
  | Some _, _ | _, Phase.Joining _ | _, Phase.Stopping _ => false
  | _, _ => true
  end.
(** [context.worker.is_none()] *)
Definition is_taken context : bool :=
  match context.(Context.phase) with
  | Phase.Joining _ | Phase.Stopping _ | Phase.Closed => true
  | _ => false
  end.

Definition set_phase phase context : Context :=
  let 'Context.mk live _ worker queue calling response slot := context in
  Context.mk live phase worker queue calling response slot.
Definition set_worker worker context : Context :=
  let 'Context.mk live phase _ queue calling response slot := context in
  Context.mk live phase worker queue calling response slot.
Definition set_queue queue context : Context :=
  let 'Context.mk live phase worker _ calling response slot := context in
  Context.mk live phase worker queue calling response slot.
Definition set_calling calling context : Context :=
  let 'Context.mk live phase worker queue _ response slot := context in
  Context.mk live phase worker queue calling response slot.
Definition set_response response context : Context :=
  let 'Context.mk live phase worker queue calling _ slot := context in
  Context.mk live phase worker queue calling response slot.
Definition set_job (slot : option JobId) context : Context :=
  let 'Context.mk live phase worker queue calling response _ := context in
  Context.mk live phase worker queue calling response slot.

(** [Context::job] *)
Definition context_job context (id : JobId) : result JobId TransportError :=
  match context.(Context.job) with
  | Some job => if (job =? id)%N then Ok job else Err TransportError.UnknownJob
  | None => Err TransportError.UnknownJob
  end.

(** ** Calls *)

(** The pointer of a job is its number in the store of mailboxes. *)
Definition mailbox (mailboxes : gmap JobId Progress) job : Progress := default job_new (mailboxes !! job).

(** What [call] decides while it holds the lock and does not wait. *)
Module CallOutcome.
Inductive CallOutcome :=
| Returns (r : result string TransportError)
| Releases
| Starts (plan : PlanId)
| Forwards (request : Request).
End CallOutcome.
Abbreviation CallOutcome := CallOutcome.CallOutcome.

Section calls.
Context `{RuntimeText, ReplyEncoder, RequestDecoder}.

(** A panic is answered at the boundary of the library. *)
Definition contained {A} (r : result A (Failure TransportError)) : result A TransportError :=
  match r with
  | Ok a => Ok a
  | Err (Reported e) => Err e
  | Err _ => Err TransportError.Panicked
  end.

Definition busy_with mailboxes context : bool :=
  is_some_and (λ job, negb (mailbox mailboxes job).(Progress.finished)) context.(Context.job).

Definition call_locked (mailboxes : gmap JobId Progress) context (input : string) : CallOutcome :=
  if is_taken context then CallOutcome.Returns (Err TransportError.UnknownContext)
  else
    match parse_request input with
    | Err e => CallOutcome.Returns (Ok (encode_reply (Err e)))
    | Ok (Request.JobPoll job since) =>
        CallOutcome.Returns
          match context_job context job with
          | Ok job => Ok (transport_reply (contained (job_poll job (mailbox mailboxes job) since)))
          | Err e => Err e
          end
    | Ok (Request.JobClose job) =>
        match context_job context job with
        | Ok job => if negb (mailbox mailboxes job).(Progress.finished)
                    then CallOutcome.Returns (Err TransportError.Busy) else CallOutcome.Releases
        | Err e => CallOutcome.Returns (Err e)
        end
    | Ok (Request.JobCancel job) =>
        CallOutcome.Returns
          match context_job context job with
          | Ok _ => Ok (encode_reply (Err (ProtocolError.UnsupportedOperation
                      "native invocation cancellation is unsupported; close waits for completion")))
          | Err e => Err e
          end
    | Ok (Request.ApplyStart plan) =>
        if negb context.(Context.live)
        then CallOutcome.Returns (Ok (encode_reply (Err ProtocolError.LiveUnavailable)))
        else match context.(Context.job) with
             | Some job => CallOutcome.Returns (Err (if (mailbox mailboxes job).(Progress.finished)
                                                     then TransportError.ResourceLimit
                                                     else TransportError.Busy))
             | None => CallOutcome.Starts plan
             end
    | Ok request =>
        if busy_with mailboxes context then CallOutcome.Returns (Err TransportError.Busy)
        else CallOutcome.Forwards request
    end.
End calls.

(** ** The process *)

(** What happened, oldest first. *)
Module Event.
Inductive Event :=
| Returned (thread : ThreadId) (r : result string TransportError)
| Opened (id : ContextId)
| Served (id : ContextId)
| Joined (id : ContextId)
(** a job was numbered for a plan, applied to the objects of a protocol, and
    told of an update *)
| Started (id : ContextId) (job : JobId) (plan : PlanId)
| Applied (id : ContextId) (job : JobId) (plan : PlanId) (protocol : JsonProtocol)
| Updated (job : JobId) (update : AttemptSnapshot * EventsPage).
End Event.
Abbreviation Event := Event.Event.

(** The statics of the library, its contexts and its callers.  A context is in
    the table [CONTEXTS] when its phase is [Listed]; [reserved] are threads with
    a slot and no context yet, [found] callers that hold a context without its
    lock. *)
Module Transport.
Record Transport := mk {
  next_context : N;
  next_job : N;
  slots : nat;
  contexts : gmap ContextId Context;
  mailboxes : gmap JobId Progress;
  reserved : gmap ThreadId Config;
  found : gmap ThreadId (ContextId * string);
  log : list Event }.
End Transport.
Abbreviation Transport := Transport.Transport.
Implicit Types (st : Transport).

Definition transport_new : Transport := Transport.mk 1 1 0 ∅ ∅ ∅ ∅ [].

Definition put_context id context st : Transport :=
  let 'Transport.mk nc nj slots contexts boxes reserved found log := st in
  Transport.mk nc nj slots (<[id := context]> contexts) boxes reserved found log.
Definition put_mailbox job p st : Transport :=
  let 'Transport.mk nc nj slots contexts boxes reserved found log := st in
  Transport.mk nc nj slots contexts (<[job := p]> boxes) reserved found log.
Definition set_next_job (next : N) st : Transport :=
  let 'Transport.mk nc _ slots contexts boxes reserved found log := st in
  Transport.mk nc next slots contexts boxes reserved found log.
Definition record (event : Event) st : Transport :=
  let 'Transport.mk nc nj slots contexts boxes reserved found log := st in
  Transport.mk nc nj slots contexts boxes reserved found (log ++ [event]).
Definition set_found (f : gmap ThreadId (ContextId * string) → gmap ThreadId (ContextId * string)) st
    : Transport :=
  let 'Transport.mk nc nj slots contexts boxes reserved found log := st in
  Transport.mk nc nj slots contexts boxes reserved (f found) log.
Definition set_reserved (slots : nat) (f : gmap ThreadId Config → gmap ThreadId Config) st : Transport :=
  let 'Transport.mk nc nj _ contexts boxes reserved found log := st in
  Transport.mk nc nj slots contexts boxes (f reserved) found log.
(** Dropping a context: [Drop for Slot]. *)
Definition drop_context id st : Transport :=
  let 'Transport.mk nc nj slots contexts boxes reserved found log := st in
  Transport.mk nc nj (slots - 1) (delete id contexts) boxes reserved found log.

(** The end of a call: of a thread that holds no context, or found one. *)
Definition return_to thread (r : result string TransportError) st : Transport :=
  record (Event.Returned thread r) st.
Definition finish thread (r : result string TransportError) st : Transport :=
  return_to thread r (set_found (delete thread) st).

(** [Slot::acquire] *)
Definition slot_acquire st : option nat :=
  if (st.(Transport.slots) <? MAX_CONTEXTS)%nat then Some (S st.(Transport.slots)) else None.

(** A new context and its worker; [id] is the number the counter had. *)
Definition spawn_context thread (config : Config) (next : N) st : Transport :=
  let 'Transport.mk nc nj slots contexts boxes reserved found log := st in
  Transport.mk next nj slots
    (<[nc := Context.mk (bool_decide (is_Some config.(Config.manifest))) (Phase.Opening thread)
               Worker.Starting None None None None]> contexts)
    boxes (delete thread reserved) found log.
(** A number that was taken and a slot that is given back. *)
Definition abandon_slot thread (next : N) st : Transport :=
  let 'Transport.mk _ nj slots contexts boxes reserved found log := st in
  Transport.mk next nj (slots - 1) contexts boxes (delete thread reserved) found log.

Definition opened_value id context : Value :=
  Value.Object [("context", Value.Number id); ("abi_version", Value.Number ABI_VERSION);
                ("mode", Value.String "background_jobs"); ("live_host", Value.Bool context.(Context.live))].

(** [Job::new] and the send of the job, or of a call. *)
Definition start_job id (plan : PlanId) (next : N) context st : Transport :=
  let job := st.(Transport.next_job) in
  put_context id (set_job (Some job) (set_queue (Some (Message.Apply plan job)) context))
    (set_next_job next (put_mailbox job job_new st)).

(** The reply of a call and whether the loop breaks; a call that runs out of
    fuel does not return. *)
Section worker.
Context `{RuntimeText, ReplyEncoder}.

Definition worker_reply (r : result Value (Failure ProtocolError)) : option (string * bool) :=
  match r with
  | Ok v => Some (encode_reply (Ok v), false)
  | Err (Reported e) => Some (encode_reply (Err e), false)
  | Err Panicked => Some (transport_reply (Err TransportError.Panicked), true)
  | Err OutOfFuel => None
  end.

(** [execute_job]: the error left in the mailbox and whether the loop breaks. *)
Definition execute_job (r : result Value (Failure ProtocolError)) : option (option Value * bool) :=
  match r with
  | Ok _ => Some (None, false)
  | Err (Reported e) => Some (Some (protocol_error_value e), false)
  | Err Panicked => Some (Some (tagged "panicked"), true)
  | Err OutOfFuel => None
  end.
End worker.

(** ** Steps *)

Section steps.
Context {S : Type}.
Context `{RuntimeText, FacadeText, Os S, HostPolicies S, BackendDispatcher S, Allocator S}.
Context `{ReplyEncoder, IncidentAcknowledgmentPolicy S, RequestDecoder, ConfigDecoder}.

(** [open_with]: any factory may be given, so the worker's answer to the
    handshake is any. *)
Inductive open_step st : Transport → Prop :=
| so_config thread input e : transport_config input = Err e → open_step st (return_to thread (Err e) st)
| so_full thread input config :
    transport_config input = Ok config → slot_acquire st = None →
    open_step st (return_to thread (Err TransportError.ResourceLimit) st)
| so_reserve thread input config slots :
    transport_config input = Ok config → slot_acquire st = Some slots →
    st.(Transport.reserved) !! thread = None →
    open_step st (set_reserved slots (insert thread config) st)
| so_exhausted thread config :
    st.(Transport.reserved) !! thread = Some config →
    u64_checked_add st.(Transport.next_context) 1 = None →
    open_step st (return_to thread (Err TransportError.ResourceLimit)
                    (abandon_slot thread st.(Transport.next_context) st))
| so_no_thread thread config next message :
    st.(Transport.reserved) !! thread = Some config →
    u64_checked_add st.(Transport.next_context) 1 = Some next →
    open_step st (return_to thread (Err (TransportError.OpenFailed message)) (abandon_slot thread next st))
| so_spawn thread config next :
    st.(Transport.reserved) !! thread = Some config →
    u64_checked_add st.(Transport.next_context) 1 = Some next →
    open_step st (spawn_context thread config next st)
| so_opened thread id context protocol :
    st.(Transport.contexts) !! id = Some context → context.(Context.phase) = Phase.Opening thread →
    context.(Context.worker) = Worker.Serving protocol Task.Idle →
    open_step st (return_to thread (Ok (transport_reply (Ok (opened_value id context))))
      (record (Event.Opened id) (put_context id (set_phase Phase.Listed context) st)))
| so_refused thread id context e :
    st.(Transport.contexts) !! id = Some context → context.(Context.phase) = Phase.Opening thread →
    context.(Context.worker) = Worker.Refused e →
    open_step st (return_to thread (Err e) (drop_context id st)).

Definition is_listed id st : bool :=
  is_some_and (λ context, match context.(Context.phase) with Phase.Listed => true | _ => false end)
    (st.(Transport.contexts) !! id).

(** [call] *)
Inductive callers_step st : Transport → Prop :=
| sc_large thread (id : ContextId) input :
    (MAX_REQUEST_BYTES < N.of_nat (String.length input))%N →
    callers_step st (return_to thread (Err TransportError.ResourceLimit) st)
| sc_unknown thread id (input : string) :
    is_listed id st = false → callers_step st (return_to thread (Err TransportError.UnknownContext) st)
| sc_found thread id input :
    (N.of_nat (String.length input) <= MAX_REQUEST_BYTES)%N → is_listed id st = true →
    st.(Transport.found) !! thread = None →
    callers_step st (set_found (insert thread (id, input)) st)
| sc_busy thread id input context :
    st.(Transport.found) !! thread = Some (id, input) → st.(Transport.contexts) !! id = Some context →
    is_free context = false → callers_step st (finish thread (Err TransportError.Busy) st)
| sc_returns thread id input context r :
    st.(Transport.found) !! thread = Some (id, input) → st.(Transport.contexts) !! id = Some context →
    is_free context = true →
    call_locked st.(Transport.mailboxes) context input = CallOutcome.Returns r →
    callers_step st (finish thread r st)
| sc_releases thread id input context :
    st.(Transport.found) !! thread = Some (id, input) → st.(Transport.contexts) !! id = Some context →
    is_free context = true →
    call_locked st.(Transport.mailboxes) context input = CallOutcome.Releases →
    callers_step st (finish thread (Ok (transport_reply (Ok Value.Null)))
                       (put_context id (set_job None context) st))
| sc_no_number thread id input context plan :
    st.(Transport.found) !! thread = Some (id, input) → st.(Transport.contexts) !! id = Some context →
    is_free context = true →
    call_locked st.(Transport.mailboxes) context input = CallOutcome.Starts plan →
    u64_checked_add st.(Transport.next_job) 1 = None →
    callers_step st (finish thread (Err TransportError.ResourceLimit) st)
| sc_starts thread id input context plan next :
    st.(Transport.found) !! thread = Some (id, input) → st.(Transport.contexts) !! id = Some context →
    is_free context = true →
    call_locked st.(Transport.mailboxes) context input = CallOutcome.Starts plan →
    u64_checked_add st.(Transport.next_job) 1 = Some next →
    has_exited context.(Context.worker) = false → context.(Context.queue) = None →
    callers_step st (finish thread
      (Ok (transport_reply (Ok (Value.Object [("job", Value.Number st.(Transport.next_job))]))))
      (record (Event.Started id st.(Transport.next_job) plan) (start_job id plan next context st)))
| sc_start_fails thread id input context plan next :
    st.(Transport.found) !! thread = Some (id, input) → st.(Transport.contexts) !! id = Some context →
    is_free context = true →
    call_locked st.(Transport.mailboxes) context input = CallOutcome.Starts plan →
    u64_checked_add st.(Transport.next_job) 1 = Some next →
    has_exited context.(Context.worker) = true →
    callers_step st (finish thread (Err TransportError.Stopped) (set_next_job next st))
| sc_forwards thread id input context request :
    st.(Transport.found) !! thread = Some (id, input) → st.(Transport.contexts) !! id = Some context →
    is_free context = true →
    call_locked st.(Transport.mailboxes) context input = CallOutcome.Forwards request →
    has_exited context.(Context.worker) = false → context.(Context.queue) = None →
    callers_step st (set_found (delete thread) (put_context id
      (set_calling (Some thread) (set_queue (Some (Message.Call request)) context)) st))
| sc_forward_fails thread id input context request :
    st.(Transport.found) !! thread = Some (id, input) → st.(Transport.contexts) !! id = Some context →
    is_free context = true →
    call_locked st.(Transport.mailboxes) context input = CallOutcome.Forwards request →
    has_exited context.(Context.worker) = true →
    callers_step st (finish thread (Err TransportError.Stopped) st)
| sc_answer thread id context text :
    st.(Transport.contexts) !! id = Some context → context.(Context.calling) = Some thread →
    context.(Context.response) = Some text →
    callers_step st (return_to thread (Ok text)
                       (put_context id (set_calling None (set_response None context)) st))
| sc_stopped thread id context :
    st.(Transport.contexts) !! id = Some context → context.(Context.calling) = Some thread →
    context.(Context.response) = None → has_exited context.(Context.worker) = true →
    callers_step st (return_to thread (Err TransportError.Stopped)
                       (put_context id (set_calling None context) st)).

(** [close] and the drop of the last reference *)
Inductive close_step st : Transport → Prop :=
| sd_unknown thread id :
    is_listed id st = false → close_step st (return_to thread (Err TransportError.UnknownContext) st)
| sd_remove thread id context :
    st.(Transport.contexts) !! id = Some context → context.(Context.phase) = Phase.Listed →
    close_step st (put_context id (set_phase (Phase.Removed thread) context) st)
| sd_lock thread id context :
    st.(Transport.contexts) !! id = Some context → context.(Context.phase) = Phase.Removed thread →
    is_free context = true →
    close_step st (put_context id (set_phase (Phase.Joining thread) context) st)
| sd_stop thread id context :
    st.(Transport.contexts) !! id = Some context → context.(Context.phase) = Phase.Joining thread →
    has_exited context.(Context.worker) = false → context.(Context.queue) = None →
    close_step st (put_context id
      (set_phase (Phase.Stopping thread) (set_queue (Some Message.Stop) context)) st)
| sd_no_worker thread id context :
    st.(Transport.contexts) !! id = Some context → context.(Context.phase) = Phase.Joining thread →
    has_exited context.(Context.worker) = true →
    close_step st (put_context id (set_phase (Phase.Stopping thread) context) st)
| sd_join thread id context :
    st.(Transport.contexts) !! id = Some context → context.(Context.phase) = Phase.Stopping thread →
    has_exited context.(Context.worker) = true →
    close_step st (return_to thread (Ok (transport_reply (Ok (Value.Object [("closed", Value.Number id)]))))
      (record (Event.Joined id) (put_context id (set_phase Phase.Closed context) st)))
| sd_drop id context :
    st.(Transport.contexts) !! id = Some context → context.(Context.phase) = Phase.Closed →
    (∀ thread input, st.(Transport.found) !! thread ≠ Some (id, input)) →
    close_step st (drop_context id st).

(** The loop of a worker.  The machine is any: the other contexts and the rest
    of the system share it. *)
Inductive worker_step st : Transport → Prop :=
| sw_ready id context (host : LinuxLiveHost) :
    st.(Transport.contexts) !! id = Some context → context.(Context.worker) = Worker.Starting →
    worker_step st (put_context id
      (set_worker (Worker.Serving (protocol_new (with_root host) context.(Context.live)) Task.Idle) context) st)
| sw_refuse id context e :
    st.(Transport.contexts) !! id = Some context → context.(Context.worker) = Worker.Starting →
    worker_step st (put_context id (set_worker (Worker.Refused e) context) st)
| sw_stop id context protocol :
    st.(Transport.contexts) !! id = Some context →
    context.(Context.worker) = Worker.Serving protocol Task.Idle →
    context.(Context.queue) = Some Message.Stop →
    worker_step st (put_context id (set_worker Worker.Exited (set_queue None context)) st)
| sw_receive id context protocol request :
    st.(Transport.contexts) !! id = Some context →
    context.(Context.worker) = Worker.Serving protocol Task.Idle →
    context.(Context.queue) = Some (Message.Call request) →
    worker_step st (put_context id
      (set_worker (Worker.Serving protocol (Task.Calling request)) (set_queue None context)) st)
| sw_call id context protocol request fresh (s : S) w r text broken :
    st.(Transport.contexts) !! id = Some context →
    context.(Context.worker) = Worker.Serving protocol (Task.Calling request) →
    call_inputs fresh request (protocol, s) → call_with_policy fresh request (protocol, s) = (w, r) →
    worker_reply r = Some (text, broken) →
    worker_step st (record (Event.Served id) (put_context id
      (set_worker (Worker.Serving w.1 (Task.Replying text broken)) context) st))
| sw_reply id context protocol text broken :
    st.(Transport.contexts) !! id = Some context →
    context.(Context.worker) = Worker.Serving protocol (Task.Replying text broken) →
    worker_step st (put_context id
      (set_worker (Worker.Serving protocol (Task.Ending broken)) (set_response (Some text) context)) st)
| sw_receive_job id context protocol plan job :
    st.(Transport.contexts) !! id = Some context →
    context.(Context.worker) = Worker.Serving protocol Task.Idle →
    context.(Context.queue) = Some (Message.Apply plan job) →
    worker_step st (put_context id
      (set_worker (Worker.Serving protocol (Task.Applying plan job)) (set_queue None context)) st)
| sw_apply id context protocol plan job fresh (s : S) w updates r error broken :
    st.(Transport.contexts) !! id = Some context →
    context.(Context.worker) = Worker.Serving protocol (Task.Applying plan job) →
    protocol_apply fresh plan (protocol, s) = (w, (updates, r)) →
    execute_job r = Some (error, broken) →
    worker_step st (record (Event.Applied id job plan protocol) (record (Event.Served id) (put_context id
      (set_worker (Worker.Serving w.1 (Task.Publishing job updates error broken)) context) st)))
| sw_update id context protocol job update updates error broken :
    st.(Transport.contexts) !! id = Some context →
    context.(Context.worker) = Worker.Serving protocol (Task.Publishing job (update :: updates) error broken) →
    worker_step st (record (Event.Updated job update)
      (put_mailbox job (job_update update.1 update.2 (mailbox st.(Transport.mailboxes) job))
        (put_context id (set_worker (Worker.Serving protocol (Task.Publishing job updates error broken))
                           context) st)))
| sw_finish id context protocol job error broken :
    st.(Transport.contexts) !! id = Some context →
    context.(Context.worker) = Worker.Serving protocol (Task.Publishing job [] error broken) →
    worker_step st (put_mailbox job (job_finish error (mailbox st.(Transport.mailboxes) job))
      (put_context id (set_worker (Worker.Serving protocol (Task.Ending broken)) context) st))
| sw_end id context protocol broken :
    st.(Transport.contexts) !! id = Some context →
    context.(Context.worker) = Worker.Serving protocol (Task.Ending broken) →
    worker_step st (put_context id
      (if broken then set_worker Worker.Exited (set_queue None context)
       else set_worker (Worker.Serving protocol Task.Idle) context) st).

Inductive transport_step st : Transport → Prop :=
| st_open st' : open_step st st' → transport_step st st'
| st_call st' : callers_step st st' → transport_step st st'
| st_close st' : close_step st st' → transport_step st st'
| st_worker st' : worker_step st st' → transport_step st st'.
End steps.
