(* ===== verification/TransportProps.v ===== *)
(** * Contexts, mailboxes and threads

    The tables of the transport stay consistent under every interleaving of
    callers, closers and workers: slots are bounded and counted, handles and job
    numbers are never used twice, a channel is empty whenever a message is sent,
    a waiting caller is answered, and nothing is served after a close has
    returned. *)

From stdpp Require Import relations.
From S2P Require Import Prelude Model Reach Graph GraphOrder GraphValid State Action Contract.
From S2P Require Import Logical Evidence Prerequisites Effects Report PlanOrder Compose Simulate.
From S2P Require Import Wire Observation Correlate Observe Execution ExecutionProps Live LiveGoal Draft Build.
From S2P Require Import Session Documents Json Native Recipes Scope Bindings BindingProps.
From S2P Require Import Targets.
From S2P Require Import Targets Checkpoint Host Incident Coordinator.
From S2P Require Import CoordinatorProps Facade FacadeProps.
From S2P Require Import Requests RequestProps Transport.

(** ** Pages *)

(** The page of an update is the whole replay of a reachable run. *)
Definition page_shows (page : EventsPage) (run : ExecutionRun) : Prop :=
  run_inv run ∧ page.(EventsPage.next_sequence) = (run.(ExecutionRun.next_event_sequence) - 1)%N ∧
  page.(EventsPage.events) = run.(ExecutionRun.events).

(** The replay a client of the run has, with the error of the transport. *)
Definition replay (run : ExecutionRun) (since : N) : result EventsPage (Failure TransportError) :=
  match events_page run since with
  | Ok page => Ok page
  | Err _ => Err (Reported TransportError.InvalidEventCursor)
  end.

Lemma poll_page_replays p run since :
  page_shows p.(Progress.events) run → poll_page p since = replay run since.
Proof.
  intros (Hi & Hn & He). destruct (inv_events _ Hi) as [Hc Hl Hs].
  unfold poll_page, replay, events_page, u64_checked_sub. rewrite Hn, He.
  rewrite (proj2 (N.leb_le 1 _)) by lia. cbn [ok_or]. destruct (_ <? since)%N; [done|].
  destruct (head run.(ExecutionRun.events)) as [first|] eqn:Hh; [|done].
  rewrite head_lookup in Hh. destruct (Hs 0 first Hh) as [_ Hf].
  apply lookup_lt_Some in Hh. unfold MAX_RUN_EVENTS in *.
  by rewrite (proj2 (N.leb_le 1 _)) by lia.
Qed.

(** Successive states of one run that began as [init]. *)
Definition run_states (init : ExecutionRun) (states : list ExecutionRun) : Prop :=
  (∀ run, run ∈ states → rtc run_step init run) ∧
  (∀ i j a b, i < j → states !! i = Some a → states !! j = Some b → rtc run_step a b).

Lemma chain_states init published run :
  chain init published run → run_states init published ∧ run_states init (published ++ [run]).
Proof.
  intros (Hr & Hp & Hord). split; split; [by intros r [? _]%Hp|done| |].
  - intros r [[? _]%Hp| ->%list_elem_of_singleton]%elem_of_app; done.
  - intros i j a b Hij [[_ Ha]|[-> ->]]%lookup_snoc_Some [[_ Hb]|[-> ->]]%lookup_snoc_Some.
    + by eapply Hord.
    + by apply list_elem_of_lookup_2, Hp in Ha as [_ ?].
    + apply lookup_lt_Some in Hb. lia.
    + lia.
Qed.

Section updates.
Context `{RuntimeText, FacadeText}.

(** The updates of an attempt to apply a document: the states one run of it had,
    in order. *)
Definition attempt_updates (document : PlanDocument) (updates : list (AttemptSnapshot * EventsPage)) : Prop :=
  updates = [] ∨ ∃ run_id init states,
    execution_run_new graph_text serializers serializers' run_id document = Ok init ∧
    run_states init states ∧ Forall2 shows_run updates states.
End updates.

Section attempts.
Context {H S : Type} `{RuntimeText, FacadeText, Os S, RuntimeHost H S, BackendDispatcher S, Allocator S}.

Lemma published_chain run_id doc source_map (w : DisksGraph H * S) :
  let published := (apply_document_with_updates run_id doc source_map w).2.1 in
  published = [] ∨ ∃ init run,
    execution_run_new graph_text serializers serializers' run_id doc = Ok init ∧ chain init published run.
Proof.
  unfold apply_document_with_updates. destruct (_ <=? _)%nat; [by left|].
  destruct (try_reserve w.2); [by left|].
  destruct (execution_run_new _ _ _ _ _) as [run|[e| |]] eqn:Hnew; simpl; [|by left..]. right.
  pose proof (new_run_inv _ _ _ _ _ _ Hnew) as Hi.
  pose proof (attempt_run_traced run w.1.(DisksGraph.host) w.2 Hi) as Ht.
  destruct (attempt_run _ _ _) as [world r]. destruct (retain _ _ _ _) as [w' r']. by exists run, (World.run world).
Qed.

Lemma live_shown published updates : try_map live_update published = Ok updates → Forall run_inv published →
  Forall2 shows_run updates published.
Proof.
  intros Ht Hall. destruct (live_updates_ok published Hall) as (live & Hl & Hf). rewrite Hl in Ht. simplify_eq.
  eapply Forall2_impl; [exact Hf|]. by intros ?? [].
Qed.

Lemma plan_attempt_updates run_id plan (w : DisksGraph H * S) :
  let updates := (apply_plan_with_updates run_id plan w).2.1 in
  updates = [] ∨ ∃ document, w.1.(DisksGraph.plans) !! plan = Some document ∧ attempt_updates document updates.
Proof.
  unfold apply_plan_with_updates, export_plan, inspecting.
  destruct (_ !! plan) as [document|]; [|by left]. right. exists document. split; [done|]. simpl.
  pose proof (apply_document_spec run_id document [] w) as Ha.
  pose proof (published_inv run_id document [] w) as Hall.
  pose proof (published_chain run_id document [] w) as Hch.
  destruct (apply_document_with_updates _ _ _ _) as [w' [published r]]. simpl in Hall, Hch.
  destruct (try_map live_update published) as [live|] eqn:Hlive; [|by left].
  pose proof (live_shown _ _ Hlive Hall) as Hshown.
  assert (attempt_updates document live) as Hl.
  { destruct Hch as [->|(init & run & Hnew & Hc)]; [inversion Hshown; by left|].
    right. exists run_id, init, published. by apply chain_states in Hc as [? _]. }
  destruct (retained_id r) as [id|] eqn:Hret; [|done].
  assert (∃ init run error, execution_run_new graph_text serializers serializers' run_id document = Ok init ∧
    chain init published run ∧ w'.1.(DisksGraph.runs) !! id = Some (RunRecord.mk run [] error))
    as (init & run & error & Hnew & Hc & Hrun).
  { destruct Ha as (_ & _ & Hr).
    destruct r as [id'|[e| |]]; simpl in Hret; simplify_eq; [|rewrite Hret in Hr];
      destruct Hr as (-> & _ & init & run & Hnew & Hc & ->); exists init, run; rewrite lookup_insert_eq; eauto. }
  assert (run_inv run) as Hi.
  { by pose proof (chain_inv _ _ _ (new_run_inv _ _ _ _ _ _ Hnew) Hc) as [_ [? _]%Forall_cons]%Forall_app. }
  destruct (read_record id _ w' Hrun Hi) as (found & page & Hs & Hp & _ & _ & _ & _ & Hshow).
  unfold sys_bind. rewrite Hs. simpl. rewrite Hp. simpl. right. exists run_id, init, (published ++ [run]).
  apply chain_states in Hc as [_ Hc]. split_and!; [done..|]. apply Forall2_app; [done|by constructor].
Qed.
End attempts.

Lemma apply_updates_ok {S} `{RuntimeText, FacadeText, Os S, HostPolicies S, BackendDispatcher S, Allocator S}
    `{ReplyEncoder} fresh plan (w : JsonProtocol * S) :
  let updates := (protocol_apply fresh plan w).2.1 in
  updates = [] ∨ ∃ document, w.1.(JsonProtocol.app).(DisksGraph.plans) !! plan = Some document ∧
    attempt_updates document updates.
Proof.
  unfold protocol_apply. destruct (negb _); [by left|].
  pose proof (plan_attempt_updates fresh.(Fresh.run) plan (w.1.(JsonProtocol.app), w.2)) as Hu.
  destruct (apply_plan_with_updates _ _ _) as [[app s] [updates r]]. by destruct (sys_bind _ _ _).
Qed.

(** ** The invariant of a context *)

Section transport.
Context `{RuntimeText, FacadeText}.

Section contexts.
Context (next_job : N) (boxes : gmap N Progress).

Definition unfinished (job : N) : Prop := (mailbox boxes job).(Progress.finished) = false.

(** The task of a worker that serves. *)
Definition task_of (context : Context) : option Task :=
  match context.(Context.worker) with Worker.Serving _ task => Some task | _ => None end.

Definition queue_ok (context : Context) : Prop :=
  match context.(Context.queue) with
  | None => True
  | Some (Message.Call _) =>
      is_Some context.(Context.calling) ∧ context.(Context.response) = None ∧
      (task_of context = Some Task.Idle ∨ ∃ broken, task_of context = Some (Task.Ending broken))
  | Some (Message.Apply _ job) =>
      context.(Context.job) = Some job ∧ unfinished job ∧
      (task_of context = Some Task.Idle ∨ ∃ broken, task_of context = Some (Task.Ending broken))
  | Some Message.Stop =>
      (∃ thread, context.(Context.phase) = Phase.Stopping thread) ∧ is_Some (task_of context)
  end.

(** The lock, the call it is held for, and the answer. *)
Definition calling_ok (context : Context) : Prop :=
  match context.(Context.calling) with
  | None => context.(Context.response) = None
  | Some _ =>
      (context.(Context.phase) = Phase.Listed ∨ ∃ thread, context.(Context.phase) = Phase.Removed thread) ∧
      ((∃ request, context.(Context.queue) = Some (Message.Call request)) ∨
       (∃ request, task_of context = Some (Task.Calling request)) ∨
       (∃ text broken, task_of context = Some (Task.Replying text broken)) ∨
       is_Some context.(Context.response) ∨ context.(Context.worker) = Worker.Exited)
  end.

Definition phase_ok (context : Context) : Prop :=
  match context.(Context.phase) with
  | Phase.Opening _ =>
      (context.(Context.worker) = Worker.Starting ∨ (∃ e, context.(Context.worker) = Worker.Refused e) ∨
       task_of context = Some Task.Idle) ∧
      context.(Context.queue) = None ∧ context.(Context.calling) = None ∧ context.(Context.job) = None
  | Phase.Stopping _ =>
      context.(Context.worker) = Worker.Exited ∨ context.(Context.queue) = Some Message.Stop
  | Phase.Closed => context.(Context.worker) = Worker.Exited
  | _ => context.(Context.worker) = Worker.Exited ∨ is_Some (task_of context)
  end.

Definition worker_ok (context : Context) : Prop :=
  match context.(Context.worker) with
  | Worker.Serving protocol task =>
      protocol_ok protocol ∧
      match task with
      | Task.Calling _ | Task.Replying _ _ =>
          is_Some context.(Context.calling) ∧ context.(Context.response) = None
      | Task.Applying _ job | Task.Publishing job _ _ _ => context.(Context.job) = Some job ∧ unfinished job
      | _ => True
      end
  | _ => True
  end.

(** A job that is not finished is queued, running, or was left by its worker. *)
Definition job_ok (context : Context) : Prop :=
  match context.(Context.job) with
  | None => True
  | Some job =>
      (job < next_job)%N ∧ is_Some (boxes !! job) ∧
      (unfinished job →
       (∃ plan, context.(Context.queue) = Some (Message.Apply plan job)) ∨
       (∃ plan, task_of context = Some (Task.Applying plan job)) ∨
       (∃ updates error broken, task_of context = Some (Task.Publishing job updates error broken)) ∨
       context.(Context.worker) = Worker.Exited)
  end.

Record context_ok (context : Context) : Prop := {
  co_queue : queue_ok context;
  co_calling : calling_ok context;
  co_phase : phase_ok context;
  co_worker : worker_ok context;
  co_job : job_ok context }.

(** A send finds the channel empty. *)
Lemma queue_empty context :
  context_ok context → is_free context = true → is_taken context = false →
  busy_with boxes context = false → context.(Context.queue) = None.
Proof.
  intros [Hq _ _ _ _] Hf Ht Hb. unfold queue_ok, is_free, is_taken, busy_with in *.
  destruct context as [live phase worker [[request|plan job|]|] calling response slot]; simpl in *; [..|done].
  - destruct Hq as [[? ->] _]. done.
  - destruct Hq as (-> & Hu & _). simpl in Hb. unfold unfinished in Hu. by rewrite Hu in Hb.
  - destruct Hq as [[? ->] _]. by destruct calling.
Qed.

Lemma queue_empty_stop context thread :
  context_ok context → context.(Context.phase) = Phase.Joining thread →
  context.(Context.queue) ≠ Some Message.Stop ∧ ∀ request, context.(Context.queue) ≠ Some (Message.Call request).
Proof.
  intros [Hq Hc _ _ _] Hp. unfold queue_ok, calling_ok in *. rewrite Hp in *. split.
  - intros He. rewrite He in Hq. by destruct Hq as [[? ?] _].
  - intros request He. rewrite He in Hq. destruct Hq as [[t Ht] _]. rewrite Ht in Hc.
    destruct Hc as [[?|[? ?]] _]; done.
Qed.
End contexts.

(** Other mailboxes and later numbers do not matter to a context. *)
Lemma context_ok_mono next_job next_job' boxes boxes' context :
  (next_job <= next_job')%N →
  (∀ job, context.(Context.job) = Some job → boxes' !! job = boxes !! job) →
  context_ok next_job boxes context → context_ok next_job' boxes' context.
Proof.
  intros Hle Hb [Hq Hc Hp Hw Hj].
  assert (∀ job, context.(Context.job) = Some job → mailbox boxes' job = mailbox boxes job) as Hm.
  { intros job Hjob. unfold mailbox. by rewrite Hb. }
  split; unfold queue_ok, calling_ok, phase_ok, worker_ok, job_ok, unfinished in *; try done.
  - destruct (Context.queue context) as [[]|]; try done. destruct Hq as (Hs & Hu & Ht). by rewrite Hm.
  - destruct (Context.worker context) as [| |protocol []|]; try done; destruct Hw as (? & Hs & ?); by rewrite Hm.
  - destruct (Context.job context) as [job|] eqn:Hs; [|done]. destruct Hj as (Hlt & Hsome & Hun).
    split; [lia|]. rewrite Hb, Hm by done. done.
Qed.

(** ** The invariant of the process *)

Definition opened_ids (log : list Event) : list N :=
  omap (λ event, match event with Event.Opened id => Some id | _ => None end) log.
Definition joined_ids (log : list Event) : list N :=
  omap (λ event, match event with Event.Joined id => Some id | _ => None end) log.

(** Nothing is served after a join. *)
Fixpoint quiet_after (joined : list N) (log : list Event) : Prop :=
  match log with
  | [] => True
  | Event.Joined id :: log => quiet_after (id :: joined) log
  | Event.Served id :: log => id ∉ joined ∧ quiet_after joined log
  | _ :: log => quiet_after joined log
  end.

Implicit Types (st : Transport).

Record transport_ok st : Prop := {
  to_slots : st.(Transport.slots) = size st.(Transport.contexts) + size st.(Transport.reserved);
  to_bound : st.(Transport.slots) ≤ MAX_CONTEXTS;
  to_ids id context : st.(Transport.contexts) !! id = Some context → (id < st.(Transport.next_context))%N;
  to_found thread id input : st.(Transport.found) !! thread = Some (id, input) →
    ∃ context, st.(Transport.contexts) !! id = Some context ∧
      ∀ t, context.(Context.phase) ≠ Phase.Opening t;
  to_context id context : st.(Transport.contexts) !! id = Some context →
    context_ok st.(Transport.next_job) st.(Transport.mailboxes) context;
  to_jobs id id' context context' job :
    st.(Transport.contexts) !! id = Some context → st.(Transport.contexts) !! id' = Some context' →
    context.(Context.job) = Some job → context'.(Context.job) = Some job → id = id';
  to_boxes job p : st.(Transport.mailboxes) !! job = Some p →
    (job < st.(Transport.next_job))%N;
  to_opened : NoDup (opened_ids st.(Transport.log));
  to_opened_ids id : id ∈ opened_ids st.(Transport.log) → (id < st.(Transport.next_context))%N ∧
    ∀ context t, st.(Transport.contexts) !! id = Some context → context.(Context.phase) ≠ Phase.Opening t;
  to_joined id : id ∈ joined_ids st.(Transport.log) → (id < st.(Transport.next_context))%N ∧
    ∀ context, st.(Transport.contexts) !! id = Some context → context.(Context.phase) = Phase.Closed;
  to_quiet : quiet_after [] st.(Transport.log) }.

Lemma transport_new_ok : transport_ok transport_new.
Proof.
  split; simpl; try done; try (by intros); try set_solver; [|constructor]. unfold MAX_CONTEXTS. lia.
Qed.

(** *** Changes of the tables *)

Lemma context_of st id context :
  transport_ok st → st.(Transport.contexts) !! id = Some context →
  context_ok st.(Transport.next_job) st.(Transport.mailboxes) context.
Proof. intros Hok. apply Hok. Qed.

(** What a change of one context may do to its phase. *)
Definition phase_step (from to : Phase) : Prop :=
  (∀ t, to = Phase.Opening t → ∃ t', from = Phase.Opening t') ∧ (from = Phase.Closed → to = Phase.Closed).

Lemma phase_step_refl phase : phase_step phase phase.
Proof. split; eauto. Qed.

Lemma ok_put st id context context' :
  transport_ok st → st.(Transport.contexts) !! id = Some context →
  context_ok st.(Transport.next_job) st.(Transport.mailboxes) context' →
  context'.(Context.job) = context.(Context.job) ∨ context'.(Context.job) = None →
  phase_step context.(Context.phase) context'.(Context.phase) →
  transport_ok (put_context id context' st).
Proof.
  intros [Hs Hb Hi Hf Hc Hj Hx Ho Hoi Hjo Hq] Hl Hc' Hjob [Hop Hcl]. destruct st; simpl in *. split; simpl; try done.
  - rewrite map_size_insert_Some by eauto. done.
  - intros id' c' [[<- <-]|[_ ?]]%lookup_insert_Some; eauto.
  - intros thread id' input Hl'. destruct (Hf _ _ _ Hl') as (c & Hc0 & Hp).
    destruct (decide (id = id')) as [<-|Hne].
    + rewrite lookup_insert_eq. eexists. split; [done|]. intros t Ht. simplify_eq.
      destruct (Hop _ Ht) as [t' ?]. by eapply Hp.
    + rewrite lookup_insert_ne by done. eauto.
  - intros id' c' [[<- <-]|[_ ?]]%lookup_insert_Some; eauto.
  - intros i i' c c' job Hi1 Hi2 Hj1 Hj2.
    apply lookup_insert_Some in Hi1 as [[<- <-]|[Hn1 Hi1]];
      apply lookup_insert_Some in Hi2 as [[<- <-]|[Hn2 Hi2]]; [done|..|by eapply Hj].
    + destruct Hjob as [He|He]; rewrite He in Hj1; [by eapply Hj|done].
    + destruct Hjob as [He|He]; rewrite He in Hj2; [by eapply Hj|done].
  - intros i Hin. destruct (Hoi _ Hin) as [Hlt Hn]. split; [done|].
    intros c t [[<- <-]|[_ Hc0]]%lookup_insert_Some; [|by eapply Hn]. intros Ht.
    destruct (Hop _ Ht) as [t' ?]. by eapply Hn.
  - intros i Hin. destruct (Hjo _ Hin) as [Hlt Hn]. split; [done|].
    intros c [[<- <-]|[_ Hc0]]%lookup_insert_Some; [|by eapply Hn]. by eapply Hcl, Hn.
Qed.

Lemma ok_put_same st id context context' :
  transport_ok st → st.(Transport.contexts) !! id = Some context →
  context_ok st.(Transport.next_job) st.(Transport.mailboxes) context' →
  context'.(Context.job) = context.(Context.job) ∨ context'.(Context.job) = None →
  context'.(Context.phase) = context.(Context.phase) →
  transport_ok (put_context id context' st).
Proof. intros ???? He. eapply ok_put; [done..|]. rewrite He. apply phase_step_refl. Qed.

Lemma ok_found st thread : transport_ok st → transport_ok (set_found (delete thread) st).
Proof.
  intros [Hs Hb Hi Hf Hc Hj Hx Ho Hoi Hjo Hq]. destruct st; simpl in *. split; simpl; try done.
  intros t i input [_ Hl]%lookup_delete_Some. eauto.
Qed.

Lemma quiet_after_snoc joined log event :
  quiet_after joined (log ++ [event]) ↔
  quiet_after joined log ∧
  match event with Event.Served id => id ∉ joined ++ joined_ids log | _ => True end.
Proof.
  revert joined. induction log as [|e log IH]; intros joined; simpl.
  - destruct event; simpl; rewrite ?app_nil_r; tauto.
  - destruct e; simpl; rewrite IH; clear IH; destruct event; simpl; set_solver.
Qed.

(** An event that neither opens, serves nor joins. *)
Definition is_note (event : Event) : bool :=
  match event with Event.Opened _ | Event.Served _ | Event.Joined _ => false | _ => true end.

Lemma ok_note st event : is_note event = true → transport_ok st → transport_ok (record event st).
Proof.
  intros Hn [Hs Hb Hi Hf Hc Hj Hx Ho Hoi Hjo Hq]. destruct st; simpl in *.
  split; simpl; try done; unfold opened_ids, joined_ids in *; rewrite ?omap_app; destruct event; try done; simpl;
    rewrite ?app_nil_r; try done; by apply quiet_after_snoc.
Qed.

Lemma ok_return st thread r : transport_ok st → transport_ok (return_to thread r st).
Proof. by apply ok_note. Qed.

Lemma ok_finish st thread r : transport_ok st → transport_ok (finish thread r st).
Proof. intros Hok. by apply ok_return, ok_found. Qed.

Lemma ok_opened st id :
  transport_ok st → id ∉ opened_ids st.(Transport.log) → (id < st.(Transport.next_context))%N →
  (∀ context t, st.(Transport.contexts) !! id = Some context → context.(Context.phase) ≠ Phase.Opening t) →
  transport_ok (record (Event.Opened id) st).
Proof.
  intros [Hs Hb Hi Hf Hc Hj Hx Ho Hoi Hjo Hq] Hnew Hlt Hp. destruct st; simpl in *.
  split; simpl; try done; unfold opened_ids, joined_ids in *.
  - rewrite omap_app. simpl. apply NoDup_app. split_and!; [done|set_solver|apply NoDup_singleton].
  - intros i. rewrite omap_app, elem_of_app. simpl. intros [Hin| ->%list_elem_of_singleton]; eauto.
  - intros i. rewrite omap_app, app_nil_r. apply Hjo.
  - by apply quiet_after_snoc.
Qed.

Lemma ok_joined st id :
  transport_ok st → (id < st.(Transport.next_context))%N →
  (∀ context, st.(Transport.contexts) !! id = Some context → context.(Context.phase) = Phase.Closed) →
  transport_ok (record (Event.Joined id) st).
Proof.
  intros [Hs Hb Hi Hf Hc Hj Hx Ho Hoi Hjo Hq] Hlt Hp. destruct st; simpl in *.
  split; simpl; try done; unfold opened_ids, joined_ids in *.
  - by rewrite omap_app, app_nil_r.
  - intros i. rewrite omap_app, app_nil_r. apply Hoi.
  - intros i. rewrite omap_app, elem_of_app. simpl. intros [Hin| ->%list_elem_of_singleton]; eauto.
  - by apply quiet_after_snoc.
Qed.

Lemma ok_served st id :
  transport_ok st → id ∉ joined_ids st.(Transport.log) → transport_ok (record (Event.Served id) st).
Proof.
  intros [Hs Hb Hi Hf Hc Hj Hx Ho Hoi Hjo Hq] Hn. destruct st; simpl in *.
  split; simpl; try done; unfold opened_ids, joined_ids in *.
  - by rewrite omap_app, app_nil_r.
  - intros i. rewrite omap_app, app_nil_r. apply Hoi.
  - intros i. rewrite omap_app, app_nil_r. apply Hjo.
  - by apply quiet_after_snoc.
Qed.

(** A context that is not closed was never joined. *)
Lemma not_joined st id context :
  transport_ok st → st.(Transport.contexts) !! id = Some context → context.(Context.phase) ≠ Phase.Closed →
  id ∉ joined_ids st.(Transport.log).
Proof. intros Hok Hl Hp Hin. destruct (to_joined _ Hok _ Hin) as [_ Hc]. by apply Hp, Hc. Qed.

(** *** Steps *)

Ltac open_context Hok Hl :=
  let Hco := fresh "Hco" in
  pose proof (context_of _ _ _ Hok Hl) as Hco; destruct Hco as [Hq Hc Hp Hw Hj];
  match type of Hl with _ = Some ?context =>
    destruct context as [live phase worker queue calling response slot] end; simpl in *;
  unfold queue_ok, calling_ok, phase_ok, worker_ok, job_ok, task_of in *; simpl in *; subst; simpl in *.
Ltac close_context :=
  split; unfold queue_ok, calling_ok, phase_ok, worker_ok, job_ok, task_of; simpl;
  repeat case_match; simplify_eq/=; naive_solver.

Lemma ok_abandon st thread config next :
  transport_ok st → st.(Transport.reserved) !! thread = Some config →
  (st.(Transport.next_context) <= next)%N → transport_ok (abandon_slot thread next st).
Proof.
  intros [Hs Hb Hi Hf Hc Hj Hx Ho Hoi Hjo Hq] Hr Hn. destruct st; simpl in *. split; simpl; try done.
  - rewrite map_size_delete_Some by eauto. assert (size reserved ≠ 0) by (apply map_size_non_empty_iff; set_solver).
    lia.
  - lia.
  - intros id context Hl. specialize (Hi _ _ Hl). lia.
  - intros id Hin. destruct (Hoi _ Hin). split; [lia|done].
  - intros id Hin. destruct (Hjo _ Hin). split; [lia|done].
Qed.

Lemma ok_drop st id context :
  transport_ok st → st.(Transport.contexts) !! id = Some context →
  (∀ thread input, st.(Transport.found) !! thread ≠ Some (id, input)) → transport_ok (drop_context id st).
Proof.
  intros [Hs Hb Hi Hf Hc Hj Hx Ho Hoi Hjo Hq] Hl Hn. destruct st; simpl in *. split; simpl; try done.
  - rewrite map_size_delete_Some by eauto. assert (size contexts ≠ 0) by (apply map_size_non_empty_iff; set_solver).
    lia.
  - lia.
  - intros i c [_ ?]%lookup_delete_Some. eauto.
  - intros t i input Ht. destruct (Hf _ _ _ Ht) as (c & Hc0 & Hp). exists c.
    split; [|done]. rewrite lookup_delete_ne; [done|]. intros ->. by eapply Hn.
  - intros i c [_ ?]%lookup_delete_Some. eauto.
  - intros i i' c c' job [_ ?]%lookup_delete_Some [_ ?]%lookup_delete_Some. by eapply Hj.
  - intros i Hin. destruct (Hoi _ Hin) as [? Hno]. split; [done|].
    intros c t [_ ?]%lookup_delete_Some. by eapply Hno.
  - intros i Hin. destruct (Hjo _ Hin) as [? Hno]. split; [done|].
    intros c [_ ?]%lookup_delete_Some. by eapply Hno.
Qed.

Lemma ok_spawn st thread config next :
  transport_ok st → st.(Transport.reserved) !! thread = Some config →
  u64_checked_add st.(Transport.next_context) 1 = Some next →
  transport_ok (spawn_context thread config next st).
Proof.
  intros [Hs Hb Hi Hf Hc Hj Hx Ho Hoi Hjo Hq] Hr Hn. destruct st; simpl in *.
  assert (next = next_context + 1)%N as ->.
  { unfold u64_checked_add in Hn. by destruct (_ <=? _)%N; simplify_eq. }
  assert (contexts !! next_context = None) as Hfresh.
  { destruct (contexts !! next_context) eqn:He; [|done]. specialize (Hi _ _ He). lia. }
  split; simpl; try done.
  - rewrite map_size_insert_None, map_size_delete_Some by eauto.
    assert (size reserved ≠ 0) by (apply map_size_non_empty_iff; set_solver). lia.
  - intros i c [[<- _]|[_ Hl]]%lookup_insert_Some; [lia|]. specialize (Hi _ _ Hl). lia.
  - intros t i input Ht. destruct (Hf _ _ _ Ht) as (c & Hc0 & Hp). exists c. split; [|done].
    rewrite lookup_insert_ne; [done|]. intros ->. congruence.
  - intros i c [[<- <-]|[_ Hl]]%lookup_insert_Some; [|by eapply Hc]. split; cbn; auto.
  - intros i i' c c' job [[<- <-]|[_ Hl]]%lookup_insert_Some [[<- <-]|[_ Hl']]%lookup_insert_Some; try done.
    by eapply Hj.
  - intros i Hin. destruct (Hoi _ Hin) as [Hlt Hno]. split; [lia|].
    intros c t [[<- <-]|[_ Hl]]%lookup_insert_Some; [lia|by eapply Hno].
  - intros i Hin. destruct (Hjo _ Hin) as [Hlt Hno]. split; [lia|].
    intros c [[<- <-]|[_ Hl]]%lookup_insert_Some; [lia|by eapply Hno].
Qed.

Context {S : Type} `{Os S, HostPolicies S, BackendDispatcher S, Allocator S}.
Context `{ReplyEncoder, IncidentAcknowledgmentPolicy S, RequestDecoder, ConfigDecoder}.

Lemma open_step_ok st st' : transport_ok st → open_step st st' → transport_ok st'.
Proof.
  intros Hok Hs. destruct Hs as [thread input e|thread input config|thread input config slots _ Ha Hr
    |thread config Hr Hn|thread config next message Hr Hn|thread config next Hr Hn
    |thread id context protocol Hl Hph Hwk|thread id context e Hl Hph Hwk].
  - by apply ok_return.
  - by apply ok_return.
  - unfold slot_acquire in Ha. destruct (Nat.ltb_spec st.(Transport.slots) MAX_CONTEXTS); simplify_eq.
    destruct Hok as [Hs Hb Hi Hf Hc Hj Hx Ho Hoi Hjo Hq]. destruct st; simpl in *. split; simpl; try done.
    rewrite map_size_insert_None by done. lia.
  - apply ok_return. eapply ok_abandon; [done..|lia].
  - apply ok_return. eapply ok_abandon; [done..|]. unfold u64_checked_add in Hn.
    destruct (_ <=? _)%N; simplify_eq. lia.
  - by eapply ok_spawn.
  - assert (id ∉ opened_ids st.(Transport.log)) as Hnew.
    { intros Hin. destruct (to_opened_ids _ Hok _ Hin) as [_ Hno]. by eapply Hno. }
    pose proof (to_ids _ Hok _ _ Hl) as Hlt. apply ok_return, ok_opened.
    + pose proof Hl as Hl'. open_context Hok Hl. destruct Hp as (_ & -> & -> & ->).
      eapply ok_put; [done|exact Hl'|..]; simpl; auto; [|by split].
      split; cbn; eauto.
    + by destruct st.
    + by destruct st.
    + destruct st; simpl in *. intros c t [[_ <-]|[? _]]%lookup_insert_Some; [|done]. by destruct context.
  - apply ok_return. eapply ok_drop; [done..|]. intros t input Ht.
    destruct (to_found _ Hok _ _ _ Ht) as (c & Hc & Hno). simplify_eq. by eapply Hno.
Qed.

(** The call found a context with its lock free; nothing else of it matters. *)
Lemma starts_free boxes context input plan :
  call_locked boxes context input = CallOutcome.Starts plan →
  is_taken context = false ∧ context.(Context.job) = None.
Proof.
  unfold call_locked. destruct (is_taken context); [done|]. intros Hc. split; [done|].
  repeat case_match; done.
Qed.
Lemma forwards_free boxes context input request :
  call_locked boxes context input = CallOutcome.Forwards request →
  is_taken context = false ∧ busy_with boxes context = false.
Proof.
  unfold call_locked. destruct (is_taken context); [done|]. intros Hc. split; [done|].
  repeat case_match; done.
Qed.
Lemma releases_job boxes context input :
  call_locked boxes context input = CallOutcome.Releases →
  is_taken context = false ∧ ∃ job, context.(Context.job) = Some job ∧ (mailbox boxes job).(Progress.finished) = true.
Proof.
  unfold call_locked, context_job. destruct (is_taken context); [done|]. intros Hc. split; [done|].
  repeat case_match; simplify_eq/=; eexists; (split; [done|]); by apply negb_false_iff.
Qed.

(** Only the phases [Listed] and [Removed] are open to a call. *)
Lemma not_taken context :
  is_taken context = false → (∀ t, context.(Context.phase) ≠ Phase.Opening t) →
  context.(Context.phase) = Phase.Listed ∨ ∃ t, context.(Context.phase) = Phase.Removed t.
Proof. unfold is_taken. intros Ht Ho. destruct (Context.phase context); naive_solver. Qed.

Lemma context_started next_job boxes context plan :
  context_ok next_job boxes context → context.(Context.calling) = None →
  (∀ t, context.(Context.phase) ≠ Phase.Opening t) →
  is_taken context = false → context.(Context.job) = None → context.(Context.queue) = None →
  has_exited context.(Context.worker) = false →
  context_ok (next_job + 1) (<[next_job := job_new]> boxes)
    (set_job (Some next_job) (set_queue (Some (Message.Apply plan next_job)) context)).
Proof.
  intros [Hq Hc Hp Hw Hj] Hfr Hop Ht Hno Hqu Hex. destruct (not_taken _ Ht Hop) as [Hph|[t Hph]];
    destruct context as [live phase worker queue calling response slot]; simpl in *; subst;
    unfold queue_ok, calling_ok, phase_ok, worker_ok, job_ok, task_of in *; simpl in *;
    (assert (unfinished (<[next_job := job_new]> boxes) next_job) as Hu
       by (unfold unfinished, mailbox; by rewrite lookup_insert_eq));
    (destruct Hp as [->|[task Htask]]; [done|]);
    destruct worker as [| |protocol task'|]; try done; injection Htask as ->;
    destruct Hw as [Hpr Hta];
    destruct task as [|request|text broken|plan' job|job updates error broken|broken]; try (by destruct Hta);
    try (destruct Hta as [[? ?] _]; done);
    (split; unfold queue_ok, calling_ok, phase_ok, worker_ok, job_ok, task_of; simpl; eauto 6;
       split_and!; [lia|rewrite lookup_insert_eq; by eexists|eauto]).
Qed.

Lemma is_free_calling context : is_free context = true → context.(Context.calling) = None.
Proof. unfold is_free. by destruct (Context.calling context). Qed.

Lemma ok_start st id context plan next :
  transport_ok st → st.(Transport.contexts) !! id = Some context → context.(Context.calling) = None →
  (∀ t, context.(Context.phase) ≠ Phase.Opening t) →
  is_taken context = false → context.(Context.job) = None → context.(Context.queue) = None →
  has_exited context.(Context.worker) = false → u64_checked_add st.(Transport.next_job) 1 = Some next →
  transport_ok (start_job id plan next context st).
Proof.
  intros Hok Hl Hfr Hop Ht Hno Hqu Hex Hn.
  assert (next = st.(Transport.next_job) + 1)%N as ->.
  { unfold u64_checked_add in Hn. by destruct (_ <=? _)%N; simplify_eq. }
  pose proof (context_of _ _ _ Hok Hl) as Hco.
  assert (∀ i c job, st.(Transport.contexts) !! i = Some c → c.(Context.job) = Some job →
    (job < st.(Transport.next_job))%N) as Hjl.
  { intros i c job Hi Hj. pose proof (co_job _ _ _ (context_of _ _ _ Hok Hi)) as Hjo.
    unfold job_ok in Hjo. rewrite Hj in Hjo. by destruct Hjo. }
  destruct Hok as [Hs Hb Hi Hf Hc Hj Hx Ho Hoi Hjo Hq]. destruct st; simpl in *. split; simpl; try done.
  - rewrite map_size_insert_Some by eauto. done.
  - intros i c [[<- _]|[_ ?]]%lookup_insert_Some; eauto.
  - intros t i input Hfo. destruct (Hf _ _ _ Hfo) as (c & Hc0 & Hp).
    destruct (decide (id = i)) as [<-|Hne]; [|rewrite lookup_insert_ne by done; eauto].
    rewrite lookup_insert_eq. eexists. split; [done|]. by destruct context.
  - intros i c [[<- <-]|[_ Hi0]]%lookup_insert_Some.
    + by apply context_started.
    + eapply context_ok_mono; [..|by eapply Hc]; [lia|]. intros job Hjob.
      rewrite lookup_insert_ne; [done|]. intros <-. specialize (Hjl _ _ _ Hi0 Hjob). lia.
  - intros i i' c c' job [[<- <-]|[Hn1 Hi1]]%lookup_insert_Some [[<- <-]|[Hn2 Hi2]]%lookup_insert_Some Hj1 Hj2;
      [done|..|by eapply Hj].
    + destruct context; simpl in *; simplify_eq. specialize (Hjl _ _ _ Hi2 Hj2). lia.
    + destruct context; simpl in *; simplify_eq. specialize (Hjl _ _ _ Hi1 Hj1). lia.
  - intros job p [[<- <-]|[_ Hp]]%lookup_insert_Some; [lia|].
    specialize (Hx _ _ Hp). lia.
  - intros i Hin. destruct (Hoi _ Hin) as [? Hno']. split; [done|].
    intros c t [[<- <-]|[_ Hc0]]%lookup_insert_Some; [|by eapply Hno']. by destruct context.
  - intros i Hin. destruct (Hjo _ Hin) as [? Hno']. split; [done|].
    intros c [[<- <-]|[_ Hc0]]%lookup_insert_Some; [|by eapply Hno'].
    specialize (Hno' _ Hl). unfold is_taken in Ht. by rewrite Hno' in Ht.
Qed.

Lemma ok_next_job st next :
  transport_ok st → u64_checked_add st.(Transport.next_job) 1 = Some next → transport_ok (set_next_job next st).
Proof.
  intros [Hs Hb Hi Hf Hc Hj Hx Ho Hoi Hjo Hq] Hn. destruct st; simpl in *.
  assert (next_job <= next)%N.
  { unfold u64_checked_add in Hn. destruct (_ <=? _)%N; simplify_eq; lia. }
  split; simpl; try done.
  - intros id context Hl. eapply context_ok_mono; [done| |by eapply Hc]. done.
  - intros job p Hp. specialize (Hx _ _ Hp). lia.
Qed.

Lemma ok_found_insert st thread id input :
  transport_ok st → is_listed id st = true → transport_ok (set_found (insert thread (id, input)) st).
Proof.
  intros [Hs Hb Hi Hf Hc Hj Hx Ho Hoi Hjo Hq] Hli. destruct st; unfold is_listed in *; simpl in *.
  split; simpl; try done. intros t i inp [[_ [= <- <-]]|[_ Hl]]%lookup_insert_Some; [|eauto].
  destruct (contexts !! id) as [context|]; [|done]. simpl in Hli. exists context. split; [done|].
  intros t'. by destruct (Context.phase context).
Qed.

(** The contexts a call leaves behind. *)
Lemma context_released next_job boxes context input :
  context_ok next_job boxes context → is_free context = true →
  call_locked boxes context input = CallOutcome.Releases → context_ok next_job boxes (set_job None context).
Proof.
  intros [Hq Hc Hp Hw Hj] Hfr (Ht & job & Hjob & Hfin)%releases_job.
  destruct context as [live phase worker queue calling response slot]. simpl in *. subst.
  unfold queue_ok, calling_ok, phase_ok, worker_ok, job_ok, task_of, unfinished in *. simpl in *.
  split; unfold queue_ok, calling_ok, phase_ok, worker_ok, job_ok, task_of, unfinished; simpl; try done.
  - destruct queue as [[]|]; try done. destruct Hq as ([= <-] & Hu & _). congruence.
  - destruct phase; try done. by destruct Hp as (_ & _ & _ & ?).
  - destruct worker as [| |protocol []|]; try done;
      destruct Hw as (_ & [= <-] & Hu); congruence.
Qed.

Lemma context_forwarded next_job boxes context thread request :
  context_ok next_job boxes context → is_free context = true → is_taken context = false →
  (∀ t, context.(Context.phase) ≠ Phase.Opening t) → busy_with boxes context = false →
  has_exited context.(Context.worker) = false → context.(Context.queue) = None →
  context_ok next_job boxes
    (set_calling (Some thread) (set_queue (Some (Message.Call request)) context)).
Proof.
  intros [Hq Hc Hp Hw Hj] Hfr Ht Hop Hb Hex Hqu. pose proof (not_taken _ Ht Hop) as Hph.
  destruct context as [live phase worker queue calling response slot]. simpl in *. subst.
  assert (calling = None) as -> by (unfold is_free in Hfr; simpl in Hfr; by destruct calling).
  unfold queue_ok, calling_ok, phase_ok, worker_ok, job_ok, task_of, busy_with in *. simpl in *. subst.
  assert (∀ job, slot = Some job → ¬ unfinished boxes job) as Hfin.
  { intros job -> Hu. simpl in Hb. unfold unfinished in Hu. by rewrite Hu in Hb. }
  assert (∃ protocol task, worker = Worker.Serving protocol task ∧
    (task = Task.Idle ∨ ∃ broken, task = Task.Ending broken)) as (protocol & task & -> & Htask).
  { destruct worker as [| |protocol task|]; try done.
    - destruct Hph as [->|[? ->]]; destruct Hp as [?|[? ?]]; done.
    - exists protocol, task. split; [done|]. destruct task; eauto.
      1, 2: by destruct Hw as (_ & [? ?] & _).
      all: destruct Hw as (_ & Hs & Hu); by destruct (Hfin _ Hs). }
  split; unfold queue_ok, calling_ok, phase_ok, worker_ok, job_ok, task_of; simpl; try done.
  - split_and!; [done|done|]. destruct Htask as [->|[? ->]]; eauto.
  - split; [done|]. eauto.
  - destruct Hph as [->|[? ->]]; eauto.
  - destruct Hw as [? _]. by destruct Htask as [->|[? ->]].
  - destruct slot as [job|]; [|done]. destruct Hj as (Hlt & Hso & Hun). split_and!; [done..|].
    intros Hu. by destruct (Hfin job).
Qed.

Lemma callers_step_ok st st' : transport_ok st → callers_step st st' → transport_ok st'.
Proof.
  intros Hok Hs. destruct Hs as [thread id input|thread id input|thread id input Hlen Hli Hn
    |thread id input context Hf Hl Hfr|thread id input context r Hf Hl Hfr Hca
    |thread id input context Hf Hl Hfr Hca|thread id input context plan Hf Hl Hfr Hca Hn
    |thread id input context plan next Hf Hl Hfr Hca Hn Hex Hqu
    |thread id input context plan next Hf Hl Hfr Hca Hn Hex
    |thread id input context request Hf Hl Hfr Hca Hex Hqu|thread id input context request Hf Hl Hfr Hca Hex
    |thread id context text Hl Hcl Hre|thread id context Hl Hcl Hre Hex].
  1, 2: by apply ok_return.
  2, 3, 5, 9: by apply ok_finish.
  - by apply ok_found_insert.
  - apply ok_finish. pose proof (context_of _ _ _ Hok Hl) as Hco.
    eapply ok_put_same; [done..|by eapply context_released| |]; destruct context; simpl; auto.
  - apply ok_finish. destruct (starts_free _ _ _ _ Hca) as [Ht Hno].
    destruct (to_found _ Hok _ _ _ Hf) as (c & Hc & Hop). simplify_eq.
    apply is_free_calling in Hfr. by apply ok_note, ok_start.
  - by apply ok_finish, ok_next_job.
  - apply ok_found. destruct (forwards_free _ _ _ _ Hca) as [Ht Hb].
    destruct (to_found _ Hok _ _ _ Hf) as (c & Hc & Hop). simplify_eq.
    pose proof (context_of _ _ _ Hok Hl) as Hco.
    eapply ok_put_same; [done..|by apply context_forwarded| |]; destruct context; simpl; auto.
  - apply ok_return. pose proof Hl as Hl'. open_context Hok Hl.
    eapply ok_put_same; [done|exact Hl'|..]; simpl; auto.
    split; unfold queue_ok, calling_ok, phase_ok, worker_ok, job_ok, task_of; simpl; try done.
    + destruct queue as [[]|]; try done. by destruct Hq as (_ & ? & _).
    + destruct phase; try done. by destruct Hp as (_ & _ & ? & _).
    + by destruct worker as [| |protocol []|]; try done; destruct Hw as (_ & _ & ?).
  - apply ok_return. pose proof Hl as Hl'. open_context Hok Hl.
    eapply ok_put_same; [done|exact Hl'|..]; simpl; auto.
    split; unfold queue_ok, calling_ok, phase_ok, worker_ok, job_ok, task_of; simpl; try done.
    + destruct queue as [[]|]; try done. destruct Hq as (_ & _ & Ht). destruct worker; try done; naive_solver.
    + destruct phase; try done. by destruct Hp as (_ & _ & ? & _).
    + by destruct worker.
Qed.

Ltac unfold_context :=
  split; unfold queue_ok, calling_ok, phase_ok, worker_ok, job_ok, task_of; simpl; try done.

(** The handle of the worker has been taken by the closing thread. *)
Lemma close_step_ok st st' : transport_ok st → close_step st st' → transport_ok st'.
Proof.
  intros Hok Hs. destruct Hs as [thread id Hli|thread id context Hl Hph|thread id context Hl Hph Hfr
    |thread id context Hl Hph Hex Hqu|thread id context Hl Hph Hex|thread id context Hl Hph Hex
    |id context Hl Hph Hn].
  - by apply ok_return.
  - pose proof Hl as Hl'. open_context Hok Hl.
    eapply ok_put; [done|exact Hl'|..]; simpl; auto; [|by split].
    unfold_context; [by destruct queue as [[]|]; [..|destruct Hq as [[? ?] _]|]|].
    destruct calling; [|done]. destruct Hc as [_ Hc]. eauto.
  - pose proof Hl as Hl'. open_context Hok Hl. unfold is_free in Hfr. simpl in Hfr.
    eapply ok_put; [done|exact Hl'|..]; simpl; auto; [|by split].
    destruct calling; [done|]. unfold_context.
    by destruct queue as [[]|]; [..|destruct Hq as [[? ?] _]|].
  - pose proof Hl as Hl'. open_context Hok Hl.
    eapply ok_put; [done|exact Hl'|..]; simpl; auto; [|by split].
    unfold_context.
    + split; [by eexists|]. by destruct Hp as [->|?].
    + destruct calling; [|done]. destruct Hc as [[?|[? ?]] _]; done.
    + by right.
    + destruct slot as [job|]; [|done]. destruct Hj as (? & ? & Hun). split_and!; [done..|].
      intros Hu. destruct (Hun Hu) as [[? ?]|Hun']; [done|auto].
  - pose proof Hl as Hl'. open_context Hok Hl.
    eapply ok_put; [done|exact Hl'|..]; simpl; auto; [|by split].
    assert (worker = Worker.Exited) as ->.
    { destruct Hp as [?|[? ?]]; [done|]. by destruct worker. }
    unfold_context.
    + destruct queue as [[]|]; [by destruct Hq as (_ & _ & [?|[? ?]])..|by destruct Hq as [[? ?] _]|done].
    + destruct calling; [|done]. destruct Hc as [[?|[? ?]] _]; done.
    + by left.
  - assert (context.(Context.worker) = Worker.Exited) as Hwk.
    { pose proof (context_of _ _ _ Hok Hl) as [Hq _ Hp _ _]. unfold queue_ok, phase_ok, task_of in *.
      rewrite Hph in Hp. destruct Hp as [?|Hp]; [done|]. rewrite Hp in Hq. destruct Hq as [_ [? ?]].
      by destruct (Context.worker context). }
    pose proof (to_ids _ Hok _ _ Hl) as Hlt. apply ok_return, ok_joined.
    + pose proof Hl as Hl'. open_context Hok Hl.
      eapply ok_put; [done|exact Hl'|..]; simpl; auto; [|by split]. unfold_context.
      * destruct queue as [[]|]; [by destruct Hq as (_ & _ & [?|[? ?]])..|by destruct Hq as [_ [? ?]]|done].
      * destruct calling; [|done]. destruct Hc as [[?|[? ?]] _]; done.
    + by destruct st.
    + destruct st; simpl in *. intros c [[_ <-]|[? _]]%lookup_insert_Some; [|done]. by destruct context.
  - by eapply ok_drop.
Qed.

(** A new mailbox state of the job a context runs. *)
Lemma ok_mailbox st id context context' job p :
  transport_ok st → st.(Transport.contexts) !! id = Some context →
  context.(Context.job) = Some job → context'.(Context.job) = Some job →
  context'.(Context.phase) = context.(Context.phase) →
  context_ok st.(Transport.next_job) (<[job := p]> st.(Transport.mailboxes)) context' →
  transport_ok (put_mailbox job p (put_context id context' st)).
Proof.
  intros Hok Hl Hj0 Hj1 Hph Hco.
  assert (job < st.(Transport.next_job))%N as Hlt.
  { pose proof (co_job _ _ _ (context_of _ _ _ Hok Hl)) as Hjo. unfold job_ok in Hjo.
    rewrite Hj0 in Hjo. by destruct Hjo. }
  destruct Hok as [Hs Hb Hi Hf Hc Hj Hx Ho Hoi Hjo Hq]. destruct st; simpl in *. split; simpl; try done.
  - rewrite map_size_insert_Some by eauto. done.
  - intros i c [[<- <-]|[_ ?]]%lookup_insert_Some; eauto.
  - intros t i input Hfo. destruct (Hf _ _ _ Hfo) as (c & Hc0 & Hp).
    destruct (decide (id = i)) as [<-|Hne]; [|rewrite lookup_insert_ne by done; eauto].
    rewrite lookup_insert_eq. eexists. split; [done|]. simplify_eq. by rewrite Hph.
  - intros i c [[<- <-]|[Hne Hi0]]%lookup_insert_Some; [done|].
    eapply context_ok_mono; [done| |by eapply Hc]. intros job' Hjob'. rewrite lookup_insert_ne; [done|].
    intros ->. by apply Hne, (Hj _ _ _ _ job' Hl Hi0).
  - intros i i' c c' job' [[<- <-]|[Hn1 Hi1]]%lookup_insert_Some [[<- <-]|[Hn2 Hi2]]%lookup_insert_Some Ha Hb0;
      [done|..|by eapply Hj].
    + rewrite Hj1 in Ha. simplify_eq. by eapply Hj.
    + rewrite Hj1 in Hb0. simplify_eq. by eapply Hj.
  - intros job' p' [[<- <-]|[_ Hp]]%lookup_insert_Some; [done|by eapply Hx].
  - intros i Hin. destruct (Hoi _ Hin) as [? Hno']. split; [done|].
    intros c t [[<- <-]|[_ Hc0]]%lookup_insert_Some; [|by eapply Hno']. rewrite Hph. by eapply Hno'.
  - intros i Hin. destruct (Hjo _ Hin) as [? Hno']. split; [done|].
    intros c [[<- <-]|[_ Hc0]]%lookup_insert_Some; [|by eapply Hno']. rewrite Hph. by eapply Hno'.
Qed.

(** The contexts a worker leaves behind. *)
Section workers.
Context (next_job : N) (boxes : gmap N Progress).

Lemma starting_context context :
  context_ok next_job boxes context → context.(Context.worker) = Worker.Starting →
  ∃ t, context.(Context.phase) = Phase.Opening t ∧ context.(Context.queue) = None ∧
       context.(Context.calling) = None ∧ context.(Context.job) = None.
Proof.
  intros [Hq _ Hp _ _] Hwk. unfold queue_ok, phase_ok, task_of in *. rewrite Hwk in *.
  destruct (Context.phase context) as [t| | | | |]; try done; try (by destruct Hp as [?|[? ?]]); [naive_solver|].
  destruct Hp as [?|Hp]; [done|]. rewrite Hp in Hq. by destruct Hq as [_ [? ?]].
Qed.

Lemma context_ready context host :
  context_ok next_job boxes context → context.(Context.worker) = Worker.Starting →
  context_ok next_job boxes
    (set_worker (Worker.Serving (protocol_new (with_root host) context.(Context.live)) Task.Idle) context).
Proof.
  intros Hco Hwk. pose proof (starting_context _ Hco Hwk) as Hop. destruct Hco as [Hq Hc Hp Hw Hj].
  destruct context as [live phase worker queue calling response slot].
  simpl in *; subst. unfold queue_ok, calling_ok, phase_ok, worker_ok, job_ok, task_of in *; simpl in *.
  assert (protocol_ok (protocol_new (with_root host) live)) as Hnew.
  { split; simpl; [apply with_root_ok|rewrite map_size_empty; lia|done]. }
  destruct Hop as (t & -> & -> & -> & ->). unfold_context. eauto 7.
Qed.

Lemma context_refused context e :
  context_ok next_job boxes context → context.(Context.worker) = Worker.Starting →
  context_ok next_job boxes (set_worker (Worker.Refused e) context).
Proof.
  intros Hco Hwk. pose proof (starting_context _ Hco Hwk) as Hop. destruct Hco as [Hq Hc Hp Hw Hj].
  destruct context as [live phase worker queue calling response slot].
  simpl in *; subst. unfold queue_ok, calling_ok, phase_ok, worker_ok, job_ok, task_of in *; simpl in *.
  destruct Hop as (t & -> & -> & -> & ->). unfold_context. eauto 7.
Qed.

(** Evaluates the invariant of a context whose worker serves [protocol]. *)
Ltac serving :=
  match goal with H : context_ok _ _ ?context |- _ =>
    destruct H as [Hq Hc Hp Hw Hj]; destruct context as [live phase worker queue calling response slot] end;
  simpl in *; subst; unfold queue_ok, calling_ok, phase_ok, worker_ok, job_ok, task_of in *; simpl in *.
(** A waiting job is not what the worker does now. *)
Ltac waiting_job :=
  match goal with
  | |- match ?slot with Some _ => _ | None => True end =>
      let job := fresh "job" in destruct slot as [job|]; [|done];
      match goal with Hj : (job < _)%N ∧ _ ∧ (unfinished _ job → _) |- _ =>
        destruct Hj as (? & ? & Hun); split_and!; [done..|]; intros Hu; specialize (Hun Hu); naive_solver end
  end.

Lemma context_stopped context protocol :
  context_ok next_job boxes context → context.(Context.worker) = Worker.Serving protocol Task.Idle →
  context.(Context.queue) = Some Message.Stop →
  context_ok next_job boxes (set_worker Worker.Exited (set_queue None context)).
Proof.
  intros Hco Hwk Hqu. serving. destruct Hq as [[t ->] _]. unfold_context; [|by left|waiting_job].
  destruct calling; [|done]. by destruct Hc as [[?|[? ?]] _].
Qed.

Lemma context_received context protocol request :
  context_ok next_job boxes context → context.(Context.worker) = Worker.Serving protocol Task.Idle →
  context.(Context.queue) = Some (Message.Call request) →
  context_ok next_job boxes
    (set_worker (Worker.Serving protocol (Task.Calling request)) (set_queue None context)).
Proof.
  intros Hco Hwk Hqu. serving. destruct Hq as ([t ->] & -> & _). destruct Hc as [Hph _], Hw as [Hpr _].
  unfold_context; [by eauto 8| |waiting_job].
  destruct Hph as [->|[? ->]]; eauto.
Qed.

Lemma context_called context protocol protocol' request text (broken : bool) :
  context_ok next_job boxes context → context.(Context.worker) = Worker.Serving protocol (Task.Calling request) →
  protocol_ok protocol' →
  context_ok next_job boxes (set_worker (Worker.Serving protocol' (Task.Replying text broken)) context).
Proof.
  intros Hco Hwk Hpr. serving. destruct Hw as (_ & [t ->] & ->). destruct Hc as [Hph _].
  unfold_context; [|by eauto 10| |waiting_job].
  - destruct queue as [[]|]; [..|done]; [by destruct Hq as (_ & _ & [?|[? ?]])..|].
    destruct Hq as [[? ->] _]. by destruct Hph as [?|[? ?]].
  - destruct Hph as [->|[? ->]]; eauto.
Qed.

Lemma context_replied context protocol text (broken : bool) :
  context_ok next_job boxes context →
  context.(Context.worker) = Worker.Serving protocol (Task.Replying text broken) →
  context_ok next_job boxes
    (set_worker (Worker.Serving protocol (Task.Ending broken)) (set_response (Some text) context)).
Proof.
  intros Hco Hwk. serving. destruct Hw as (Hpr & [t ->] & ->). destruct Hc as [Hph _].
  unfold_context; [|by eauto 10| |waiting_job].
  - destruct queue as [[]|]; [..|done]; [by destruct Hq as (_ & _ & [?|[? ?]])..|].
    destruct Hq as [[? ->] _]. by destruct Hph as [?|[? ?]].
  - destruct Hph as [->|[? ->]]; eauto.
Qed.

Lemma context_received_job context protocol plan job :
  context_ok next_job boxes context → context.(Context.worker) = Worker.Serving protocol Task.Idle →
  context.(Context.queue) = Some (Message.Apply plan job) →
  context_ok next_job boxes
    (set_worker (Worker.Serving protocol (Task.Applying plan job)) (set_queue None context)).
Proof.
  intros Hco Hwk Hqu. serving. destruct Hq as (-> & Hu & _). unfold_context.
  - destruct calling; [|done]. destruct Hc as [? Hc]. naive_solver.
  - destruct phase; try (by right; eexists); [by destruct Hp as (_ & ? & _)|by destruct Hp|done].
  - by destruct Hw as [? _].
  - destruct Hj as (? & ? & _). split_and!; [done..|]. eauto.
Qed.

Lemma context_applying context protocol protocol' plan job updates error (broken : bool) :
  context_ok next_job boxes context → context.(Context.worker) = Worker.Serving protocol (Task.Applying plan job) →
  protocol_ok protocol' →
  context_ok next_job boxes
    (set_worker (Worker.Serving protocol' (Task.Publishing job updates error broken)) context).
Proof.
  intros Hco Hwk Hpr. serving. destruct Hw as (_ & -> & Hu). unfold_context.
  - destruct queue as [[]|]; [by destruct Hq as (_ & _ & [?|[? ?]])..|destruct Hq as [? _]; eauto|done].
  - destruct calling; [|done]. destruct Hc as [? Hc]. naive_solver.
  - destruct phase; try done; [by destruct Hp as ([?|[[? ?]|?]] & _)|by right; eexists..|by destruct Hp; auto].
  - destruct Hj as (? & ? & _). split_and!; [done..|]. intros _. eauto 10.
Qed.

Lemma context_updated context protocol job update updates error (broken : bool) p :
  context_ok next_job boxes context →
  context.(Context.worker) = Worker.Serving protocol (Task.Publishing job (update :: updates) error broken) →
  p.(Progress.finished) = false →
  context_ok next_job (<[job := p]> boxes)
    (set_worker (Worker.Serving protocol (Task.Publishing job updates error broken)) context).
Proof.
  intros Hco Hwk Hfin. serving. destruct Hw as (Hpr & -> & Hu).
  assert (unfinished (<[job := p]> boxes) job) by (unfold unfinished, mailbox; by rewrite lookup_insert_eq).
  unfold_context.
  - destruct queue as [[]|]; [by destruct Hq as (_ & _ & [?|[? ?]])..|destruct Hq as [? _]; eauto|done].
  - destruct calling; [|done]. destruct Hc as [? Hc]. naive_solver.
  - destruct phase; try done; [by destruct Hp as ([?|[[? ?]|?]] & _)|by right..|by destruct Hp; auto].
  - destruct Hj as (? & _ & _). split_and!; [done|rewrite lookup_insert_eq; by eexists|]. intros _. eauto 10.
Qed.

Lemma context_finished context protocol job error (broken : bool) p :
  context_ok next_job boxes context →
  context.(Context.worker) = Worker.Serving protocol (Task.Publishing job [] error broken) →
  p.(Progress.finished) = true →
  context_ok next_job (<[job := p]> boxes)
    (set_worker (Worker.Serving protocol (Task.Ending broken)) context).
Proof.
  intros Hco Hwk Hfin. serving. destruct Hw as (Hpr & -> & Hu).
  assert (¬ unfinished (<[job := p]> boxes) job) as Hf.
  { unfold unfinished, mailbox. rewrite lookup_insert_eq. simpl. by rewrite Hfin. }
  unfold_context.
  - destruct queue as [[]|]; [by destruct Hq as (_ & _ & [?|[? ?]])..|destruct Hq as [? _]; eauto|done].
  - destruct calling; [|done]. destruct Hc as [? Hc]. naive_solver.
  - destruct phase; try done; [by destruct Hp as ([?|[[? ?]|?]] & _)|by right..|by destruct Hp; auto].
  - destruct Hj as (? & _ & _). split_and!; [done|rewrite lookup_insert_eq; by eexists|done].
Qed.

Lemma context_ended context protocol (broken : bool) :
  context_ok next_job boxes context →
  context.(Context.worker) = Worker.Serving protocol (Task.Ending broken) →
  context_ok next_job boxes
    (if broken then set_worker Worker.Exited (set_queue None context)
     else set_worker (Worker.Serving protocol Task.Idle) context).
Proof.
  intros Hco Hwk. serving. destruct broken; simpl; unfold_context.
  - destruct calling; [|done]. destruct Hc as [? _]. auto 10.
  - destruct phase; auto. destruct Hp as ([?|[[? ?]|?]] & _); done.
  - destruct slot; [|done]. destruct Hj as (? & ? & _). auto 10.
  - destruct queue as [[]|]; try done; [destruct Hq as (? & ? & _)..|destruct Hq as [? _]]; eauto.
  - destruct calling; [|done]. destruct Hc as [? Hc]. naive_solver.
  - destruct phase; auto; [by destruct Hp as ([?|[[? ?]|?]] & _)|by destruct Hp; auto|done].
  - waiting_job.
Qed.
End workers.

(** What the invariant says of the task of a worker. *)
Lemma serving_ok next_job boxes context protocol task :
  context_ok next_job boxes context → context.(Context.worker) = Worker.Serving protocol task →
  protocol_ok protocol ∧
  match task with
  | Task.Calling _ | Task.Replying _ _ =>
      is_Some context.(Context.calling) ∧ context.(Context.response) = None
  | Task.Applying _ job | Task.Publishing job _ _ _ => context.(Context.job) = Some job ∧ unfinished boxes job
  | _ => True
  end.
Proof. intros [_ _ _ Hw _] Hwk. unfold worker_ok in Hw. by rewrite Hwk in Hw. Qed.

(** A worker that serves is not joined. *)
Lemma serving_open next_job boxes context protocol task :
  context_ok next_job boxes context → context.(Context.worker) = Worker.Serving protocol task →
  context.(Context.phase) ≠ Phase.Closed.
Proof. intros [_ _ Hp _ _] Hwk Hph. unfold phase_ok in Hp. rewrite Hph, Hwk in Hp. done. Qed.

Lemma worker_step_ok st st' : transport_ok st → worker_step st st' → transport_ok st'.
Proof.
  intros Hok Hs. destruct Hs as [id context host Hl Hwk|id context e Hl Hwk|id context protocol Hl Hwk Hqu
    |id context protocol request Hl Hwk Hqu
    |id context protocol request fresh s w r text broken Hl Hwk Hin Hca Hre
    |id context protocol text broken Hl Hwk|id context protocol plan job Hl Hwk Hqu
    |id context protocol plan job fresh s w updates r error broken Hl Hwk Hap Hre
    |id context protocol job update updates error broken Hl Hwk
    |id context protocol job error broken Hl Hwk|id context protocol broken Hl Hwk];
    pose proof (context_of _ _ _ Hok Hl) as Hco;
    try (pose proof (serving_ok _ _ _ _ _ Hco Hwk) as Hserve);
    try (pose proof (not_joined _ _ _ Hok Hl (serving_open _ _ _ _ _ Hco Hwk)) as Hnj).
  - eapply ok_put_same; [done..|by apply context_ready| |]; destruct context; simpl; auto.
  - eapply ok_put_same; [done..|by apply context_refused| |]; destruct context; simpl; auto.
  - eapply ok_put_same; [done..|by eapply context_stopped| |]; destruct context; simpl; auto.
  - eapply ok_put_same; [done..|by eapply context_received| |]; destruct context; simpl; auto.
  - destruct Hserve as [Hpr _]. assert (protocol_ok w.1) as Hpr'.
    { change w with (w, r).1. rewrite <-Hca. by apply call_ok. }
    apply ok_served; [eapply ok_put_same; [done..|by eapply context_called| |]; destruct context; simpl; auto|].
    by destruct st.
  - eapply ok_put_same; [done..|by eapply context_replied| |]; destruct context; simpl; auto.
  - eapply ok_put_same; [done..|by eapply context_received_job| |]; destruct context; simpl; auto.
  - destruct Hserve as [Hw _]. pose proof (protocol_apply_ok fresh plan (protocol, s) Hw) as Hpr.
    rewrite Hap in Hpr.
    apply ok_note, ok_served; [done|eapply ok_put_same; [done..|by eapply context_applying| |];
      destruct context; simpl; auto|]. by destruct st.
  - destruct Hserve as (_ & Hjob & Hu). apply ok_note; [done|].
    eapply ok_mailbox; [done..| | |by eapply context_updated]; by destruct context.
  - destruct Hserve as (_ & Hjob & _). eapply ok_mailbox; [done..| | |by eapply context_finished]; by destruct context.
  - eapply ok_put_same; [done..|by eapply context_ended| |]; destruct context, broken; simpl; auto.
Qed.

Lemma quiet_after_split joined l id l' :
  quiet_after joined (l ++ Event.Joined id :: l') → Event.Served id ∉ l'.
Proof.
  assert (∀ log joined, id ∈ joined → quiet_after joined log → Event.Served id ∉ log) as Hin.
  { induction log as [|e log IH]; intros js Hj Hq; [set_solver|]. rewrite not_elem_of_cons.
    destruct e; simpl in Hq; try (by split; [done|eapply IH]).
    - destruct Hq as [Hn Hq]. split; [|by eapply IH]. by intros [= ->].
    - split; [done|]. eapply IH; [|exact Hq]. by right. }
  revert joined. induction l as [|e l IH]; intros joined; simpl.
  - intros Hq. eapply Hin; [|exact Hq]. by left.
  - destruct e; try apply IH. intros [_ Hq]. by eapply IH.
Qed.

(** ** What the mailboxes were told *)

(** The updates a job was told, in order. *)
Definition published (job : N) (log : list Event) : list (AttemptSnapshot * EventsPage) :=
  omap (λ event, match event with
                 | Event.Updated job' update => if decide (job' = job) then Some update else None
                 | _ => None
                 end) log.

(** A mailbox shows the last one. *)
Definition mailbox_shows (p : Progress) (updates : list (AttemptSnapshot * EventsPage)) : Prop :=
  match last updates with
  | None => p.(Progress.snapshot) = None ∧ p.(Progress.events) = job_new.(Progress.events)
  | Some (found, page) => p.(Progress.snapshot) = Some found ∧ p.(Progress.events) = page
  end.

Definition is_update (event : Event) : bool := match event with Event.Updated _ _ => true | _ => false end.

Lemma published_snoc job log event :
  published job (log ++ [event]) = published job log ++ published job [event].
Proof. apply omap_app. Qed.
Lemma published_note job log event : is_update event = false → published job (log ++ [event]) = published job log.
Proof. intros He. rewrite published_snoc. destruct event; try done; by rewrite app_nil_r. Qed.
Lemma published_update job log update :
  published job (log ++ [Event.Updated job update]) = published job log ++ [update].
Proof. rewrite published_snoc. simpl. by rewrite decide_True. Qed.
Lemma published_other job job' log update :
  job' ≠ job → published job (log ++ [Event.Updated job' update]) = published job log.
Proof. intros Hne. rewrite published_snoc. simpl. by rewrite decide_False, app_nil_r. Qed.

(** A job was started for a plan and applied to the document of that name; the
    updates are what the attempt had to tell. *)
Definition job_applied (log : list Event) (id job : N) (updates : list (AttemptSnapshot * EventsPage)) : Prop :=
  ∃ plan protocol, Event.Started id job plan ∈ log ∧ Event.Applied id job plan protocol ∈ log ∧
    (updates = [] ∨ ∃ document, protocol.(JsonProtocol.app).(DisksGraph.plans) !! plan = Some document ∧
       attempt_updates document updates).

Definition pending (context : Context) (plan : PlanId) (job : N) : Prop :=
  context.(Context.queue) = Some (Message.Apply plan job) ∨ task_of context = Some (Task.Applying plan job).
Definition publishing (context : Context) (job : N) (updates : list (AttemptSnapshot * EventsPage)) : Prop :=
  ∃ error broken, task_of context = Some (Task.Publishing job updates error broken).

Record job_history (log : list Event) (id : N) (context : Context) : Prop := {
  jh_pending plan job : pending context plan job →
    Event.Started id job plan ∈ log ∧ published job log = [];
  jh_publishing job updates : publishing context job updates →
    job_applied log id job (published job log ++ updates) }.

Record history_ok st : Prop := {
  ho_jobs id context : st.(Transport.contexts) !! id = Some context → job_history st.(Transport.log) id context;
  ho_boxes job : mailbox_shows (mailbox st.(Transport.mailboxes) job) (published job st.(Transport.log));
  ho_fresh job : (st.(Transport.next_job) <= job)%N → published job st.(Transport.log) = [];
  ho_told job : published job st.(Transport.log) = [] ∨
    ∃ id updates, published job st.(Transport.log) `prefix_of` updates ∧
      job_applied st.(Transport.log) id job updates }.

Lemma history_new : history_ok transport_new.
Proof. split; simpl; try done; auto. Qed.

(** The first updates of an attempt are those of its first states. *)
Lemma told_states told updates init states :
  told `prefix_of` updates → run_states init states → Forall2 shows_run updates states →
  ∃ states', run_states init states' ∧ Forall2 shows_run told states'.
Proof.
  intros [rest ->] [Hs Ho] (states1 & states2 & Hf & _ & ->)%Forall2_app_inv_l. exists states1. split; [|done].
  split; [intros run Hr; apply Hs, elem_of_app; by left|]. intros i j a b Hij Ha Hb.
  apply (Ho i j); [done|by apply lookup_app_l_Some..].
Qed.
Lemma Forall2_last {A B} (P : A → B → Prop) l k x :
  Forall2 P l k → last l = Some x → ∃ y, last k = Some y ∧ P x y.
Proof.
  intros Hf Hl. apply last_Some in Hl as [l' ->].
  apply Forall2_app_inv_l in Hf as (k1 & k2 & _ & Hf & ->).
  apply Forall2_cons_inv_l in Hf as (y & k3 & Hp & Hn & ->). apply Forall2_nil_inv_l in Hn as ->.
  exists y. by rewrite last_snoc.
Qed.

(** *** Steps that tell nothing *)

Lemma job_applied_mono log log' id job updates :
  (∀ event, event ∈ log → event ∈ log') → job_applied log id job updates → job_applied log' id job updates.
Proof. intros Hin (plan & protocol & ? & ? & ?). exists plan, protocol. auto. Qed.

Definition follows (context context' : Context) : Prop :=
  (∀ plan job, pending context' plan job → pending context plan job) ∧
  (∀ job updates, publishing context' job updates → publishing context job updates).

Lemma history_follows log id context context' :
  job_history log id context → follows context context' → job_history log id context'.
Proof. intros [Hp Hu] [Hpend Hpub]. split; auto. Qed.

Lemma history_put st id context context' :
  history_ok st → st.(Transport.contexts) !! id = Some context → follows context context' →
  history_ok (put_context id context' st).
Proof.
  intros [Hj Hb Hf Ht] Hl Hfo. destruct st; simpl in *. split; simpl; try done.
  intros i c [[<- <-]|[_ Hi]]%lookup_insert_Some; [|by apply Hj].
  eapply history_follows; [by apply Hj|done].
Qed.

Lemma job_history_note log event id context :
  is_update event = false → job_history log id context → job_history (log ++ [event]) id context.
Proof.
  intros Hn [Hp Hu]. split.
  - intros plan job Hpe. rewrite published_note by done. destruct (Hp _ _ Hpe). set_solver.
  - intros job updates Hpu. rewrite published_note by done.
    eapply job_applied_mono; [|by apply Hu]. set_solver.
Qed.

Lemma history_note st event : is_update event = false → history_ok st → history_ok (record event st).
Proof.
  intros Hn [Hj Hb Hf Ht]. destruct st; simpl in *. split; simpl.
  - intros id context Hl. apply job_history_note; auto.
  - intros job. by rewrite published_note.
  - intros job Hle. rewrite published_note by done. auto.
  - intros job. rewrite published_note by done. destruct (Ht job) as [?|(id & updates & Hpre & Ha)]; [auto|right].
    exists id, updates. split; [done|]. eapply job_applied_mono; [|done]. set_solver.
Qed.

Lemma history_same st st' :
  history_ok st → st'.(Transport.mailboxes) = st.(Transport.mailboxes) →
  st'.(Transport.log) = st.(Transport.log) → (st.(Transport.next_job) <= st'.(Transport.next_job))%N →
  (∀ id context, st'.(Transport.contexts) !! id = Some context →
     st.(Transport.contexts) !! id = Some context ∨
     context.(Context.queue) = None ∧ task_of context = None) →
  history_ok st'.
Proof.
  intros [Hj Hb Hf Ht] Hbox Hlog Hle Hc. split; rewrite ?Hbox, ?Hlog; try done.
  - intros id context [?|[Hq Hta]]%Hc; [by apply Hj|].
    split; [intros plan job [?|?]|intros job updates (? & ? & ?)]; congruence.
  - intros job Hjob. apply Hf. lia.
Qed.

Lemma history_finish st thread r : history_ok st → history_ok (finish thread r st).
Proof.
  intros Hh. apply history_note; [done|]. destruct st. by eapply history_same; [exact Hh|done..|simpl; auto].
Qed.

Ltac follow :=
  match goal with |- follows ?context _ =>
    destruct context as [live phase worker queue calling response slot]; simpl in *; subst;
    split; unfold pending, publishing, task_of; simpl;
    [intros ? ? [?|?]|intros ? ? (? & ? & ?)]; naive_solver
  end.
Ltac keep_history :=
  match goal with
  | |- history_ok (record (Event.Started _ _ _) _) => idtac
  | |- history_ok (return_to _ _ _) => apply history_note; [done|]; keep_history
  | |- history_ok (finish _ _ _) => apply history_finish; keep_history
  | |- history_ok (record _ _) => apply history_note; [done|]; keep_history
  | |- history_ok (put_context _ _ _) => eapply history_put; [done..|follow]
  | |- _ => idtac
  end.

Lemma open_step_history st st' : history_ok st → open_step st st' → history_ok st'.
Proof.
  intros Hh Hs. destruct Hs; keep_history; try done; destruct st; eapply history_same; try exact Hh; simpl; try done.
  - auto.
  - auto.
  - auto.
  - intros i c [[<- <-]|[_ ?]]%lookup_insert_Some; auto.
  - intros i c [_ ?]%lookup_delete_Some. auto.
Qed.

Lemma close_step_history st st' : history_ok st → close_step st st' → history_ok st'.
Proof.
  intros Hh Hs. destruct Hs; keep_history; try done. destruct st. eapply history_same; try exact Hh; simpl; try done.
  intros i c [_ ?]%lookup_delete_Some. auto.
Qed.

Lemma history_start st id context plan next :
  transport_ok st → history_ok st → st.(Transport.contexts) !! id = Some context →
  (∀ plan job, ¬ pending context plan job) → (∀ job updates, ¬ publishing context job updates) →
  u64_checked_add st.(Transport.next_job) 1 = Some next →
  history_ok (record (Event.Started id st.(Transport.next_job) plan) (start_job id plan next context st)).
Proof.
  intros Hok [Hj Hb Hf Ht] Hl Hnp Hnu Hn.
  assert (st.(Transport.next_job) <= next)%N as Hle.
  { unfold u64_checked_add in Hn. destruct (_ <=? _)%N; simplify_eq; lia. }
  assert (∀ job, published job (st.(Transport.log) ++ [Event.Started id st.(Transport.next_job) plan]) =
    published job st.(Transport.log)) as Hp by (intros; by apply published_note).
  specialize (Hf st.(Transport.next_job)) as Hnew. destruct st; simpl in *. split; simpl.
  - intros i c [[<- <-]|[_ Hi]]%lookup_insert_Some; [|by apply job_history_note, Hj].
    destruct context as [live phase worker queue calling response slot]. split; simpl.
    + intros plan' job [[= <- <-]|Ha]; [rewrite Hp; set_solver|]. destruct (Hnp plan' job). by right.
    + intros job updates (error & broken & Ha). destruct (Hnu job updates). by exists error, broken.
  - intros job. rewrite Hp. unfold mailbox. destruct (decide (job = next_job)) as [->|Hne].
    + rewrite lookup_insert_eq, Hnew by lia. done.
    + rewrite lookup_insert_ne by done. apply Hb.
  - intros job Hjob. rewrite Hp. apply Hf. lia.
  - intros job. rewrite Hp. destruct (Ht job) as [?|(i & updates & Hpre & Ha)]; [auto|right].
    exists i, updates. split; [done|]. eapply job_applied_mono; [|done]. set_solver.
Qed.

(** The job of a context that tracks one. *)
Lemma pending_job next_job boxes context plan job :
  context_ok next_job boxes context → pending context plan job → context.(Context.job) = Some job.
Proof.
  intros [Hq _ _ Hw _] [Hqu|Hta].
  - unfold queue_ok in Hq. rewrite Hqu in Hq. apply Hq.
  - unfold worker_ok, task_of in *. destruct (Context.worker context); simplify_eq. apply Hw.
Qed.
Lemma publishing_job next_job boxes context job updates :
  context_ok next_job boxes context → publishing context job updates → context.(Context.job) = Some job.
Proof.
  intros [_ _ _ Hw _] (? & ? & Hta). unfold worker_ok, task_of in *.
  destruct (Context.worker context); simplify_eq. apply Hw.
Qed.

Lemma callers_step_history st st' : transport_ok st → history_ok st → callers_step st st' → history_ok st'.
Proof.
  intros Hok Hh Hs. destruct Hs as [| | | | | | |thread id input context plan next Hf Hl Hfr Hca Hn Hex Hqu
    | |thread id input context request Hf Hl Hfr Hca Hex Hqu| | |]; keep_history; try done.
  - destruct st. eapply history_same; try exact Hh; simpl; auto; done.
  - destruct (starts_free _ _ _ _ Hca) as [_ Hno]. pose proof (context_of _ _ _ Hok Hl) as Hco.
    apply history_start; try done.
    + intros plan' job Hp%(pending_job _ _ _ _ _ Hco). congruence.
    + intros job updates Hp%(publishing_job _ _ _ _ _ Hco). congruence.
  - destruct st. eapply history_same; try exact Hh; simpl; auto. unfold u64_checked_add in *.
    destruct (_ <=? _)%N; simplify_eq/=. lia.
  - assert (history_ok (put_context id
      (set_calling (Some thread) (set_queue (Some (Message.Call request)) context)) st)) as Hp by keep_history.
    destruct st. eapply history_same; [exact Hp|done..|simpl; auto].
Qed.

(** *** Steps of a job *)

Lemma history_applied st id context context' job plan protocol updates :
  history_ok st → st.(Transport.contexts) !! id = Some context → pending context plan job →
  (∀ plan job, ¬ pending context' plan job) →
  (∀ job' updates', publishing context' job' updates' → job' = job ∧ updates' = updates) →
  (updates = [] ∨ ∃ document, protocol.(JsonProtocol.app).(DisksGraph.plans) !! plan = Some document ∧
     attempt_updates document updates) →
  history_ok (record (Event.Applied id job plan protocol) (record (Event.Served id) (put_context id context' st))).
Proof.
  intros Hh Hl Hpe Hnp Hpub Hup. destruct (jh_pending _ _ _ (ho_jobs _ Hh _ _ Hl) _ _ Hpe) as [Hst Hnil].
  apply (history_note _ (Event.Served id)) in Hh; [|done].
  apply (history_note _ (Event.Applied id job plan protocol)) in Hh; [|done].
  destruct Hh as [Hj Hb Hf Ht], st; simpl in *. split; simpl; try done.
  intros i c [[<- <-]|[_ Hi]]%lookup_insert_Some; [|by apply Hj].
  split; [intros ? ? []%Hnp|]. intros job' updates' [-> ->]%Hpub.
  rewrite !published_note, Hnil by done. exists plan, protocol. split_and!; [set_solver..|done].
Qed.

Lemma history_updated st id context context' job update updates :
  transport_ok st → history_ok st → st.(Transport.contexts) !! id = Some context →
  publishing context job (update :: updates) → (∀ plan job, ¬ pending context' plan job) →
  (∀ job' updates', publishing context' job' updates' → job' = job ∧ updates' = updates) →
  history_ok (record (Event.Updated job update)
    (put_mailbox job (job_update update.1 update.2 (mailbox st.(Transport.mailboxes) job)) (put_context id context' st))).
Proof.
  intros Hok Hh Hl Hpub Hnp Hpub'.
  pose proof (publishing_job _ _ _ _ _ (context_of _ _ _ Hok Hl) Hpub) as Hjob.
  assert (job < st.(Transport.next_job))%N as Hlt.
  { pose proof (co_job _ _ _ (context_of _ _ _ Hok Hl)) as Hjo. unfold job_ok in Hjo. rewrite Hjob in Hjo. by destruct Hjo. }
  assert (job_applied st.(Transport.log) id job ((published job st.(Transport.log) ++ [update]) ++ updates)) as Hap.
  { rewrite <-app_assoc. by apply (jh_publishing _ _ _ (ho_jobs _ Hh _ _ Hl)). }
  assert (∀ event, event ∈ st.(Transport.log) → event ∈ st.(Transport.log) ++ [Event.Updated job update]) as Hin by set_solver.
  assert (∀ i c job', i ≠ id → st.(Transport.contexts) !! i = Some c → c.(Context.job) = Some job' → job' ≠ job) as Hother.
  { intros i c job' Hne Hi Hj' ->. by apply Hne, (to_jobs _ Hok _ _ _ _ job Hi Hl). }
  pose proof (λ i c (Hi : st.(Transport.contexts) !! i = Some c), context_of _ _ _ Hok Hi) as Hco.
  destruct Hh as [Hj Hb Hf Ht], st; simpl in *. split; simpl.
  - intros i c [[<- <-]|[Hne Hi]]%lookup_insert_Some.
    { split; [intros ? ? []%Hnp|]. intros job' updates' [-> ->]%Hpub'. rewrite published_update.
      by eapply job_applied_mono. }
    destruct (Hj _ _ Hi) as [Hp Hu]. split.
    + intros plan job' Hpe. pose proof (pending_job _ _ _ _ _ (Hco _ _ Hi) Hpe) as Hj'.
      rewrite published_other by (symmetry; by eapply Hother). destruct (Hp _ _ Hpe). auto.
    + intros job' updates' Hpu. pose proof (publishing_job _ _ _ _ _ (Hco _ _ Hi) Hpu) as Hj'.
      rewrite published_other by (symmetry; by eapply Hother). eapply job_applied_mono; [done|auto].
  - intros job'. unfold mailbox at 1. destruct (decide (job' = job)) as [->|Hne].
    + rewrite lookup_insert_eq, published_update. unfold mailbox_shows. rewrite last_snoc. by destruct update.
    + rewrite lookup_insert_ne, published_other by done. apply Hb.
  - intros job' Hle. rewrite published_other by lia. auto.
  - intros job'. destruct (decide (job' = job)) as [->|Hne].
    + right. exists id, ((published job log ++ [update]) ++ updates). rewrite published_update.
      split; [by apply prefix_app_r|]. by eapply job_applied_mono.
    + rewrite published_other by done. destruct (Ht job') as [?|(i & l & ? & ?)]; [auto|right].
      exists i, l. split; [done|]. by eapply job_applied_mono.
Qed.

Lemma history_finished st job error :
  history_ok st → history_ok (put_mailbox job (job_finish error (mailbox st.(Transport.mailboxes) job)) st).
Proof.
  intros [Hj Hb Hf Ht]. destruct st; simpl in *. split; simpl; try done.
  intros job'. unfold mailbox at 1. destruct (decide (job' = job)) as [->|Hne].
  - rewrite lookup_insert_eq. apply Hb.
  - rewrite lookup_insert_ne by done. apply Hb.
Qed.

Lemma worker_step_history st st' : transport_ok st → history_ok st → worker_step st st' → history_ok st'.
Proof.
  intros Hok Hh Hs. destruct Hs as [id context host Hl Hwk|id context e Hl Hwk|id context protocol Hl Hwk Hqu
    |id context protocol request Hl Hwk Hqu
    |id context protocol request fresh s w r text broken Hl Hwk Hin Hca Hre
    |id context protocol text broken Hl Hwk|id context protocol plan job Hl Hwk Hqu
    |id context protocol plan job fresh s w updates r error broken Hl Hwk Hap Hre
    |id context protocol job update updates error broken Hl Hwk
    |id context protocol job error broken Hl Hwk|id context protocol broken Hl Hwk];
    pose proof (context_of _ _ _ Hok Hl) as Hco.
  8:{ eapply history_applied; [done..| | | |].
      - right. unfold task_of. by rewrite Hwk.
      - destruct Hco as [Hq _ _ _ _]. unfold queue_ok, task_of in Hq. rewrite Hwk in Hq.
        intros plan' job' [Hp|Hp]; destruct context; simpl in *; [|done]. subst. by destruct Hq as (_ & _ & [?|[? ?]]).
      - intros job' updates' (? & ? & Hp). destruct context. unfold task_of in Hp. by simplify_eq/=.
      - pose proof (apply_updates_ok fresh plan (protocol, s)) as Hup. by rewrite Hap in Hup. }
  8:{ eapply history_updated; [done..| | |].
      - unfold publishing, task_of. rewrite Hwk. by do 2 eexists.
      - destruct Hco as [Hq _ _ _ _]. unfold queue_ok, task_of in Hq. rewrite Hwk in Hq.
        intros plan' job' [Hp|Hp]; destruct context; simpl in *; [|done]. subst. by destruct Hq as (_ & _ & [?|[? ?]]).
      - intros job' updates' (? & ? & Hp). destruct context. unfold task_of in Hp. by simplify_eq/=. }
  8:{ assert (history_ok (put_context id (set_worker (Worker.Serving protocol (Task.Ending broken)) context) st)) as Hp
        by keep_history.
      replace st.(Transport.mailboxes) with
        (put_context id (set_worker (Worker.Serving protocol (Task.Ending broken)) context) st).(Transport.mailboxes)
        by (by destruct st). by apply history_finished. }
  all: try destruct broken; keep_history.
Qed.

Lemma transport_history st : rtc transport_step transport_new st → transport_ok st ∧ history_ok st.
Proof.
  intros Hr. pose proof transport_new_ok as Hok. pose proof history_new as Hh.
  remember transport_new as st0 eqn:He. clear He.
  induction Hr as [|a b c [b' Hs|b' Hs|b' Hs|b' Hs] _ IH]; [done|..]; apply IH.
  - by eapply open_step_ok.
  - by eapply open_step_history.
  - by eapply callers_step_ok.
  - by eapply callers_step_history.
  - by eapply close_step_ok.
  - by eapply close_step_history.
  - by eapply worker_step_ok.
  - by eapply worker_step_history.
Qed.

Lemma transport_reachable st : rtc transport_step transport_new st → transport_ok st.
Proof. by intros [? _]%transport_history. Qed.

(** ** A call in flight *)

(** A call returns, for some machine and fresh identities. *)
Definition call_returns (request : Request) (protocol : JsonProtocol) : Prop :=
  ∃ fresh (s : S) w r out, call_inputs fresh request (protocol, s) ∧
    call_with_policy fresh request (protocol, s) = (w, r) ∧ worker_reply r = Some out.

(** The next step of the thread [thread] returns [r] and releases the lock. *)
Definition returns_next st id thread (r : result string TransportError) : Prop :=
  ∃ st' context', callers_step st st' ∧ st'.(Transport.log) = st.(Transport.log) ++ [Event.Returned thread r] ∧
    st'.(Transport.contexts) !! id = Some context' ∧ context'.(Context.calling) = None.

(** Some steps end the wait of a thread. *)
Definition call_answered st thread : Prop :=
  ∃ st' l r, rtc transport_step st st' ∧
    st'.(Transport.log) = st.(Transport.log) ++ l ++ [Event.Returned thread r].

(** Where the call of a thread that waits is. *)
Inductive waits st id (context : Context) thread : Prop :=
| wait_queued request protocol st' :
    context.(Context.queue) = Some (Message.Call request) → context.(Context.response) = None →
    context.(Context.worker) = Worker.Serving protocol Task.Idle → worker_step st st' →
    st'.(Transport.contexts) !! id =
      Some (set_worker (Worker.Serving protocol (Task.Calling request)) (set_queue None context)) →
    waits st id context thread
| wait_behind request protocol broken st' :
    context.(Context.queue) = Some (Message.Call request) → context.(Context.response) = None →
    context.(Context.worker) = Worker.Serving protocol (Task.Ending broken) → worker_step st st' →
    st'.(Transport.contexts) !! id =
      Some (if broken then set_worker Worker.Exited (set_queue None context)
            else set_worker (Worker.Serving protocol Task.Idle) context) →
    waits st id context thread
| wait_running request protocol :
    context.(Context.queue) = None → context.(Context.response) = None →
    context.(Context.worker) = Worker.Serving protocol (Task.Calling request) → waits st id context thread
| wait_replying protocol text broken st' context' :
    context.(Context.queue) = None → context.(Context.response) = None →
    context.(Context.worker) = Worker.Serving protocol (Task.Replying text broken) →
    worker_step st st' → st'.(Transport.contexts) !! id = Some context' →
    context'.(Context.calling) = Some thread → context'.(Context.response) = Some text →
    waits st id context thread
| wait_answer text :
    context.(Context.response) = Some text → returns_next st id thread (Ok text) → waits st id context thread
| wait_stopped :
    context.(Context.response) = None → context.(Context.worker) = Worker.Exited →
    returns_next st id thread (Err TransportError.Stopped) → waits st id context thread.

Lemma lookup_put id context st : (put_context id context st).(Transport.contexts) !! id = Some context.
Proof. destruct st. apply lookup_insert_eq. Qed.
Lemma log_put id context st : (put_context id context st).(Transport.log) = st.(Transport.log).
Proof. by destruct st. Qed.
Lemma contexts_record event st : (record event st).(Transport.contexts) = st.(Transport.contexts).
Proof. by destruct st. Qed.
Lemma log_record event st : (record event st).(Transport.log) = st.(Transport.log) ++ [event].
Proof. by destruct st. Qed.

Lemma returns_answer st id context thread text :
  st.(Transport.contexts) !! id = Some context → context.(Context.calling) = Some thread →
  context.(Context.response) = Some text → returns_next st id thread (Ok text).
Proof.
  intros Hl Hc Hr. eexists _, _. split; [by eapply sc_answer|].
  unfold return_to. rewrite log_record, log_put, contexts_record, lookup_put.
  split_and!; [done..|]. by destruct context.
Qed.
Lemma returns_stopped st id context thread :
  st.(Transport.contexts) !! id = Some context → context.(Context.calling) = Some thread →
  context.(Context.response) = None → context.(Context.worker) = Worker.Exited →
  returns_next st id thread (Err TransportError.Stopped).
Proof.
  intros Hl Hc Hr Hw. eexists _, _. split; [eapply sc_stopped; [done..|by rewrite Hw]|].
  unfold return_to. rewrite log_record, log_put, contexts_record, lookup_put.
  split_and!; [done..|]. by destruct context.
Qed.

Lemma returns_next_answered st id thread r : returns_next st id thread r → call_answered st thread.
Proof.
  intros (st' & context' & Hs & Hlog & _). exists st', [], r. split; [|done]. by apply rtc_once, st_call.
Qed.
Lemma answered_step st st' l thread :
  worker_step st st' → st'.(Transport.log) = st.(Transport.log) ++ l → call_answered st' thread → call_answered st thread.
Proof.
  intros Hs Hlog (st2 & l2 & r & Hr & Hlog2). exists st2, (l ++ l2), r. split.
  - eapply rtc_l; [by apply st_worker|done].
  - by rewrite Hlog2, Hlog, <-!app_assoc.
Qed.

Section in_flight.
Context (id : N) (thread : N).
Implicit Types (context : Context).

Lemma replying_answered st context protocol text broken :
  st.(Transport.contexts) !! id = Some context → context.(Context.calling) = Some thread →
  context.(Context.worker) = Worker.Serving protocol (Task.Replying text broken) → call_answered st thread.
Proof.
  intros Hl Hc Hw. eapply (answered_step _ _ []); [by eapply sw_reply|by rewrite log_put, app_nil_r|].
  eapply returns_next_answered, returns_answer; [apply lookup_put|by destruct context..].
Qed.

Lemma running_answered st context protocol request :
  st.(Transport.contexts) !! id = Some context → context.(Context.calling) = Some thread →
  context.(Context.worker) = Worker.Serving protocol (Task.Calling request) →
  call_returns request protocol → call_answered st thread.
Proof.
  intros Hl Hc Hw (fresh & s & w & r & [text broken] & Hin & Hca & Hre).
  eapply answered_step; [by eapply sw_call|by rewrite log_record, log_put|].
  eapply replying_answered; [rewrite contexts_record; apply lookup_put|by destruct context..].
Qed.

Lemma received_answered st context protocol request :
  st.(Transport.contexts) !! id = Some context → context.(Context.calling) = Some thread →
  context.(Context.queue) = Some (Message.Call request) →
  context.(Context.worker) = Worker.Serving protocol Task.Idle →
  call_returns request protocol → call_answered st thread.
Proof.
  intros Hl Hc Hq Hw Hret. eapply (answered_step _ _ []); [by eapply sw_receive|by rewrite log_put, app_nil_r|].
  eapply running_answered; [apply lookup_put|by destruct context..|done].
Qed.

Lemma queued_answered st context protocol task request :
  st.(Transport.contexts) !! id = Some context → context.(Context.calling) = Some thread →
  context.(Context.queue) = Some (Message.Call request) → context.(Context.response) = None →
  context.(Context.worker) = Worker.Serving protocol task →
  task = Task.Idle ∨ (∃ broken, task = Task.Ending broken) →
  call_returns request protocol → call_answered st thread.
Proof.
  intros Hl Hc Hq Hr Hw [->|[broken ->]] Hret; [by eapply received_answered|].
  eapply (answered_step _ _ []); [by eapply sw_end|by rewrite log_put, app_nil_r|]. destruct broken.
  - eapply returns_next_answered, returns_stopped; [apply lookup_put|by destruct context..].
  - eapply received_answered; [apply lookup_put|by destruct context..|done].
Qed.
End in_flight.

Lemma waits_answered st id context thread :
  st.(Transport.contexts) !! id = Some context → context.(Context.calling) = Some thread →
  waits st id context thread →
  (∀ request protocol task, context.(Context.worker) = Worker.Serving protocol task →
     context.(Context.queue) = Some (Message.Call request) ∨ task = Task.Calling request →
     call_returns request protocol) →
  call_answered st thread.
Proof.
  intros Hl Hc [request protocol st' Hq Hr Hw _ _|request protocol broken st' Hq Hr Hw _ _|request protocol _ _ Hw|protocol text broken st' c' _ _ Hw _ _ _ _
    |text _ Hn|_ _ Hn] Hret.
  - eapply queued_answered; eauto.
  - eapply queued_answered; eauto.
  - eapply running_answered; eauto.
  - by eapply replying_answered.
  - by eapply returns_next_answered.
  - by eapply returns_next_answered.
Qed.

(** The lock is held for a call that is somewhere. *)
Lemma calling_waits st id context thread :
  context_ok st.(Transport.next_job) st.(Transport.mailboxes) context →
  st.(Transport.contexts) !! id = Some context → context.(Context.calling) = Some thread →
  waits st id context thread.
Proof.
  intros Hco Hl Hca. destruct Hco as [Hq Hc Hp Hw Hj]. unfold queue_ok, calling_ok, worker_ok, task_of in *.
  rewrite Hca in Hc. destruct Hc as [Hph Hc].
  assert (context.(Context.queue) ≠ Some Message.Stop) as Hns.
  { intros Hs. rewrite Hs in Hq. destruct Hq as [[t Ht] _]. rewrite Ht in Hph. by destruct Hph as [?|[? ?]]. }
  destruct (Context.response context) as [text|] eqn:Hr; [eapply wait_answer; [done|by eapply returns_answer]|].
  destruct (Context.worker context) as [|e|protocol task|] eqn:Hwk; [by destruct Hc as [[? Hc]|[[? ?]|[(? & ? & ?)|[[? ?]|?]]]]; try done; rewrite Hc in Hq; destruct Hq as (_ & _ & [?|[? ?]])..| |].
  2:{ apply wait_stopped; [done..|by eapply returns_stopped]. }
  destruct Hc as [[request Hqu]|[[request [= ->]]|[(text & broken & [= ->])|[[? ?]|?]]]]; [|..|done|done].
  - rewrite Hqu in Hq. destruct Hq as (_ & _ & Ht). simpl in Ht.
    destruct Ht as [[= ->]|[broken [= ->]]].
    + eapply wait_queued; [done..|by eapply sw_receive|apply lookup_put].
    + eapply wait_behind; [done..|by eapply sw_end|apply lookup_put].
  - eapply wait_running; eauto. destruct (Context.queue context) as [[]|]; [..|done]; try done; naive_solver.
  - eapply wait_replying; [|done..|by eapply sw_reply|apply lookup_put|by destruct context|by destruct context].
    destruct (Context.queue context) as [[]|]; [..|done]; try done; naive_solver.
Qed.

(** ** Theorems *)

(** C28: Under every interleaving of opens, calls, closes and workers, the slots
    count exactly the contexts that exist and the threads about to make one,
    and never exceed 32; no handle is given out twice; no two contexts have the
    same job, and each mailbox was numbered by the counter; and the protocol of
    every serving worker satisfies its invariant. *)
Theorem transport_bounded st :
  rtc transport_step transport_new st →
  st.(Transport.slots) = size st.(Transport.contexts) + size st.(Transport.reserved) ∧
  st.(Transport.slots) ≤ MAX_CONTEXTS ∧ NoDup (opened_ids st.(Transport.log)) ∧
  (∀ id id' context context' job,
     st.(Transport.contexts) !! id = Some context → st.(Transport.contexts) !! id' = Some context' →
     context.(Context.job) = Some job → context'.(Context.job) = Some job →
     id = id' ∧ (job < st.(Transport.next_job))%N) ∧
  (∀ id context protocol task, st.(Transport.contexts) !! id = Some context →
     context.(Context.worker) = Worker.Serving protocol task → protocol_ok protocol).
Proof.
  intros Hok%transport_reachable. split_and!; [apply Hok..| |].
  - intros id id' context context' job Hl Hl' Hj Hj'. split; [by eapply (to_jobs _ Hok)|].
    pose proof (co_job _ _ _ (context_of _ _ _ Hok Hl)) as Hjo. unfold job_ok in Hjo.
    rewrite Hj in Hjo. by destruct Hjo.
  - intros id context protocol task Hl Hw. pose proof (co_worker _ _ _ (context_of _ _ _ Hok Hl)) as Hwo.
    unfold worker_ok in Hwo. rewrite Hw in Hwo. apply Hwo.
Qed.


(** C30: Once a close has returned, its context has served its last call and its
    last job: nothing is served under that handle afterwards, its worker has
    left, and what remains of it is only released. *)
Theorem close_joins_worker st id before after :
  rtc transport_step transport_new st →
  st.(Transport.log) = before ++ Event.Joined id :: after →
  Event.Served id ∉ after ∧ is_listed id st = false ∧
  ∀ context, st.(Transport.contexts) !! id = Some context → context.(Context.worker) = Worker.Exited.
Proof.
  intros Hok%transport_reachable Hlog.
  assert (∀ context, st.(Transport.contexts) !! id = Some context → context.(Context.phase) = Phase.Closed) as Hcl.
  { apply (to_joined _ Hok). unfold joined_ids. rewrite Hlog, omap_app, elem_of_app. right. left. }
  split_and!.
  - pose proof (to_quiet _ Hok) as Hq. rewrite Hlog in Hq. by eapply quiet_after_split.
  - unfold is_listed. destruct (_ !! id) as [context|]; [|done]. simpl. by rewrite (Hcl context eq_refl).
  - intros context Hl. pose proof (co_phase _ _ _ (context_of _ _ _ Hok Hl)) as Hp. unfold phase_ok in Hp.
    by rewrite (Hcl _ Hl) in Hp.
Qed.

(** C31: Polling a mailbox never panics.  Before the first update it has no snapshot,
    and only the cursor zero is accepted, with nothing to replay.  Afterwards it
    shows the last update the job was told, and all the updates it was told are
    successive states of one run: an attempt to apply, for the plan the job was
    started for, the document the protocol held under that name.  The answer at
    every cursor is the one the engine gives for the state last told, with its
    bound, its eviction gap and its refusal of future cursors. *)
Theorem mailbox_poll_replays st job :
  rtc transport_step transport_new st →
  let p := mailbox st.(Transport.mailboxes) job in
  let told := published job st.(Transport.log) in
  match last told with
  | None => p.(Progress.snapshot) = None ∧
      ∀ since, poll_page p since = if (0 <? since)%N then Err (Reported TransportError.InvalidEventCursor)
                                   else Ok (EventsPage.mk [] 0 false)
  | Some (found, page) => p.(Progress.snapshot) = Some found ∧
      ∃ id plan protocol document run_id init states run,
        Event.Started id job plan ∈ st.(Transport.log) ∧
        Event.Applied id job plan protocol ∈ st.(Transport.log) ∧
        protocol.(JsonProtocol.app).(DisksGraph.plans) !! plan = Some document ∧
        execution_run_new graph_text serializers serializers' run_id document = Ok init ∧
        run_states init states ∧ Forall2 shows_run told states ∧ last states = Some run ∧
        ∀ since, poll_page p since = replay run since
  end.
Proof.
  intros [_ Hh]%transport_history. cbv zeta. pose proof (ho_boxes _ Hh job) as Hb.
  unfold mailbox_shows in Hb. destruct (last (published job _)) as [[found page]|] eqn:Hlast.
  - destruct Hb as [Hs He]. split; [done|].
    destruct (ho_told _ Hh job) as [Hn|(id & updates & Hpre & plan & protocol & Hst & Hap & Hu)].
    { by rewrite Hn in Hlast. }
    destruct Hu as [->|(document & Hdoc & Hu)]; [by apply prefix_nil_inv in Hpre; rewrite Hpre in Hlast|].
    destruct Hu as [->|(run_id & init & states & Hnew & Hrun & Hshow)].
    { by apply prefix_nil_inv in Hpre; rewrite Hpre in Hlast. }
    destruct (told_states _ _ _ _ Hpre Hrun Hshow) as (told & Hrun' & Hshow').
    destruct (Forall2_last _ _ _ _ Hshow' Hlast) as (run & Hlr & Hsr).
    exists id, plan, protocol, document, run_id, init, told, run. split_and!; try done.
    intros since. apply poll_page_replays. rewrite He. destruct Hsr as (_ & _ & Hn & Hev). split; [|done].
    eapply run_steps_inv; [by eapply new_run_inv|]. apply Hrun'. by apply last_Some_elem_of.
  - destruct Hb as [Hs He]. split; [done|]. intros since. unfold poll_page. by rewrite He.
Qed.
End transport.
