(* ===== verification/Policy.v ===== *)
(** * Host policies: [disksgraph/src/native], [dg-cli/src/confirmation.rs] and [disksgraph-ffi/src/policy.rs]

    The typed questions an embedding application answers, the adapter that asks
    them for the runtime host, the policy of the root command line, which grants
    nothing without an exact confirmation, and the two callback policies. *)

From stdpp Require Import relations.
From S2P Require Import Prelude Model Reach Graph GraphOrder GraphValid State Action Contract.
From S2P Require Import Logical Evidence Prerequisites Effects Report PlanOrder Compose Simulate.
From S2P Require Import Wire Observation Correlate Observe Execution Live LiveGoal Draft Build.
From S2P Require Import Session Documents Json Native Recipes Scope Bindings.
From S2P Require Import Targets.
From S2P Require Import Checkpoint Host Incident Coordinator Facade Requests.
From S2P Require Import Transport.

#[local] Open Scope string_scope.
#[local] Open Scope list_scope.

(** ** Requests ([native/policy.rs]) *)

Module ScopeCheck.
Inductive ScopeCheck := Scope | ConsumerExclusion | MountExclusion | FinalScope | Preservation.
#[global] Instance ScopeCheck_eq_dec : EqDecision ScopeCheck.
Proof. solve_decision. Defined.
End ScopeCheck.
Abbreviation ScopeCheck := ScopeCheck.ScopeCheck.

Module PolicyContext.
Record PolicyContext := mk {
  run_id : Uuid;
  plan_id : Uuid;
  actions : list PlannedAction;
  dependencies : list ActionDependency;
  baseline : HistoricalBaseline;
  goal : DesiredState;
  protected_scope : ProtectedScope }.
End PolicyContext.
Abbreviation PolicyContext := PolicyContext.PolicyContext.

(** [impl From<&ExecutionContext> for PolicyContext] *)
Definition policy_context (context : ExecutionContext) : PolicyContext :=
  PolicyContext.mk context.(ExecutionContext.run_id) context.(ExecutionContext.plan_id)
    context.(ExecutionContext.plan).(ExecutionPlan.actions)
    context.(ExecutionContext.plan).(ExecutionPlan.dependencies)
    context.(ExecutionContext.historical_baseline) context.(ExecutionContext.requested_goal)
    context.(ExecutionContext.protected_scope).

Module PolicyRequest.
Inductive PolicyRequest :=
| Scope (kind : ScopeCheck) (context : PolicyContext) (action : option ResolvedAction)
    (observed : LiveObservation)
| Authorize (request : ApprovalRequest) (destructive_target : option NodeId)
| Incident (reviewed fresh : IncidentInspection).
End PolicyRequest.
Abbreviation PolicyRequest := PolicyRequest.PolicyRequest.

(** [NativeHostPolicy]; its state is part of the machine. *)
Class NativeHostPolicy (S : Type) := policy_check : PolicyRequest → S → S * LiveCheckStatus.

(** ** The adapter ([native/owned.rs]) *)

Section owned.
Context {S : Type} `{NativeHostPolicy S}.

(** [NativeCapabilities::scope] *)
Definition policy_scope (kind : ScopeCheck) (context : ExecutionContext) (action : option ResolvedAction)
    (observed : LiveObservation) : S → S * LiveCheckStatus :=
  policy_check (PolicyRequest.Scope kind (policy_context context) action observed).

(** [NativeCapabilities] and [HostPolicy] as the policies of a host; what the
    native adapter answers about support and the probe are arguments. *)
Definition native_policies (probe_id baseline_id : S → Uuid) (probe : S → S * ProbeSnapshot)
    (native : ProviderAction → LiveObservation → S → S * OperationAvailability) : HostPolicies S := {|
  probe_instance_id := probe_id;
  fresh_baseline_id := baseline_id;
  probe_once := probe;
  availability := native;
  scope_coverage := λ context action, policy_scope ScopeCheck.Scope context (Some action);
  consumer_exclusion := λ context action, policy_scope ScopeCheck.ConsumerExclusion context (Some action);
  mount_exclusion := λ context action, policy_scope ScopeCheck.MountExclusion context (Some action);
  final_scope := λ context, policy_scope ScopeCheck.FinalScope context None;
  preservation := λ context, policy_scope ScopeCheck.Preservation context None;
  authorize := λ request, policy_check (PolicyRequest.Authorize request None);
  authorize_destructive := λ request target, policy_check (PolicyRequest.Authorize request (Some target)) |}.

(** [IncidentAcknowledgmentPolicy for HostPolicy] *)
Definition native_acknowledgment : IncidentAcknowledgmentPolicy S :=
  λ reviewed fresh, policy_check (PolicyRequest.Incident reviewed fresh).
End owned.

(** ** The root policy ([confirmation.rs]) *)

(** [Review] of [confirmation.rs] *)
Module PlanReview.
Record PlanReview := mk {
  context : Value;
  run_id : Uuid;
  plan_id : Uuid;
  digest : string;
  token : Uuid }.
End PlanReview.
Abbreviation PlanReview := PlanReview.PlanReview.

Module Confirmation.
Record Confirmation := mk {
  command : string;
  run_id : Uuid;
  plan_id : Uuid;
  digest : string;
  token : Uuid }.
End Confirmation.
Abbreviation Confirmation := Confirmation.Confirmation.

(** [RootPolicy] without its channel. *)
Module RootPolicy.
Record RootPolicy := mk {
  root : bool;
  context : option Value;
  confirmed : option PlanReview;
  refused : bool;
  current_run : option Uuid }.
End RootPolicy.
Abbreviation RootPolicy := RootPolicy.RootPolicy.

(** [RootPolicy::with_root] *)
Definition policy_with_root (root : bool) : RootPolicy := RootPolicy.mk root None None false None.

(** [serde_json::from_value] at [Confirmation] and [to_value] of a context. *)
Class ConfirmationCodec := {
  confirmation_of : Value → option Confirmation;
  context_value : PolicyContext → option Value }.

Definition refused_status : LiveCheckStatus :=
  LiveCheckStatus.Violated "root invocation and exact live plan confirmation are required".

Section root_policy.
Context `{RuntimeText, ConfirmationCodec}.
(** The channel that shows a review and reads one answer. *)
Context {X : Type} (exchange : Value → X → X * result Value string).

Definition review_value (review : PlanReview) : Value :=
  Value.Object
    [("context", review.(PlanReview.context)); ("run_id", uuid_value review.(PlanReview.run_id));
     ("plan_id", uuid_value review.(PlanReview.plan_id));
     ("digest", Value.String review.(PlanReview.digest)); ("token", uuid_value review.(PlanReview.token))].
Definition displayed_review (review : PlanReview) : Value :=
  Value.Object
    [("type", Value.String "plan_review"); ("review", review_value review);
     ("exclusive_storage_administration_required", Value.Bool true);
     ("confirmation_command", Value.String "apply")].

Definition confirms (answer : Confirmation) (review : PlanReview) : bool :=
  String.eqb answer.(Confirmation.command) "apply"
  && (answer.(Confirmation.run_id) =? review.(PlanReview.run_id))%N
  && (answer.(Confirmation.plan_id) =? review.(PlanReview.plan_id))%N
  && String.eqb answer.(Confirmation.digest) review.(PlanReview.digest)
  && (answer.(Confirmation.token) =? review.(PlanReview.token))%N.

(** The answer of the channel, when it is a confirmation. *)
Definition answer_of (r : result Value string) : option Confirmation :=
  match r with Ok v => confirmation_of v | Err _ => None end.

(** Whether the consent covers the request. *)
Definition consent_covers (review : PlanReview) (request : ApprovalRequest) (target : option NodeId) : bool :=
  (review.(PlanReview.run_id) =? request.(ApprovalRequest.run_id))%N
  && (review.(PlanReview.plan_id) =? request.(ApprovalRequest.plan_id))%N
  && String.eqb review.(PlanReview.digest) request.(ApprovalRequest.plan_digest)
  && match target with
     | Some target => existsb (λ fingerprint, value_eqb (uuid_value fingerprint.(TargetFingerprint.planned_id))
                                                (uuid_value target)) request.(ApprovalRequest.targets)
     | None => true
     end.

Definition set_consent confirmed refused (policy : RootPolicy) : RootPolicy :=
  RootPolicy.mk policy.(RootPolicy.root) None confirmed refused policy.(RootPolicy.current_run).

(** [RootPolicy::authorize]; [token] is the result of [Uuid::now_v7]. *)
Definition root_authorize (token : Uuid) (request : ApprovalRequest) (target : option NodeId)
    (w : RootPolicy * X) : (RootPolicy * X) * LiveCheckStatus :=
  let '(policy, x) := w in
  let decide review w :=
    (w, if consent_covers review request target then LiveCheckStatus.Satisfied else refused_status) in
  if policy.(RootPolicy.refused) then (w, refused_status)
  else
    match policy.(RootPolicy.confirmed) with
    | Some review => decide review w
    | None =>
        match policy.(RootPolicy.context) with
        | None => (w, refused_status)
        | Some context =>
            let review := PlanReview.mk context request.(ApprovalRequest.run_id)
              request.(ApprovalRequest.plan_id) request.(ApprovalRequest.plan_digest) token in
            let '(x, reply) := exchange (displayed_review review) x in
            if is_some_and (λ answer, confirms answer review) (answer_of reply)
            then decide review (set_consent (Some review) false policy, x)
            else ((set_consent None true policy, x), refused_status)
        end
    end.

Definition protects_something (scope : ProtectedScope) : bool :=
  negb (bool_decide (scope.(ProtectedScope.nodes) = []))
  || negb (bool_decide (scope.(ProtectedScope.runtime_mounts) = []))
  || negb (bool_decide (scope.(ProtectedScope.persistent_mounts) = [])).

(** [NativeHostPolicy for RootPolicy] *)
Definition root_check (token : Uuid) (request : PolicyRequest) (w : RootPolicy * X)
    : (RootPolicy * X) * LiveCheckStatus :=
  let '(policy, x) := w in
  if negb policy.(RootPolicy.root) then (w, refused_status)
  else
    match request with
    | PolicyRequest.Scope kind context _ _ =>
        if bool_decide (kind = ScopeCheck.Preservation)
           && protects_something context.(PolicyContext.protected_scope)
        then (w, LiveCheckStatus.Unknown "independent protected contents preservation")
        else
          let run := Some context.(PolicyContext.run_id) in
          let policy :=
            if bool_decide (policy.(RootPolicy.current_run) ≠ run)
            then RootPolicy.mk policy.(RootPolicy.root) policy.(RootPolicy.context) None false run
            else policy in
          ((RootPolicy.mk policy.(RootPolicy.root) (context_value context) policy.(RootPolicy.confirmed)
              policy.(RootPolicy.refused) policy.(RootPolicy.current_run), x),
           LiveCheckStatus.Satisfied)
    | PolicyRequest.Authorize request target => root_authorize token request target w
    | PolicyRequest.Incident _ _ =>
        (w, LiveCheckStatus.Unknown "independent native backend quiescence after an interrupted operation")
    end.
End root_policy.

(** ** Callbacks ([disksgraph-ffi/src/policy.rs] and [c_abi.rs]) *)

Definition POLICY_VERSION : N := 1.
Definition MAX_POLICY_REQUEST_BYTES : N := (64 * 1024 * 1024)%N.
Definition MAX_POLICY_REPLY_BYTES : N := (64 * 1024)%N.

(** [to_value] of a request and [from_str] at the reply, with the message of
    the error. *)
Class PolicyCodec := {
  policy_request_value : PolicyRequest → option Value;
  policy_reply_of : string → result (N * LiveCheckStatus) string }.

Definition unknown_decision : LiveCheckStatus :=
  LiveCheckStatus.Unknown "valid versioned host policy decision".

Section callbacks.
Context `{JsonText, PolicyCodec}.

Definition encode_policy_request (request : PolicyRequest) : option string :=
  policy_request_value request ≫= λ v,
    let input := value_text (Value.Object [("policy_version", Value.Number POLICY_VERSION); ("request", v)]) in
    if (N.of_nat (String.length input) <=? MAX_POLICY_REQUEST_BYTES)%N then Some input else None.

Definition decode_policy_reply (input : string) : result LiveCheckStatus TransportError :=
  if (MAX_POLICY_REPLY_BYTES <? N.of_nat (String.length input))%N then Err TransportError.ResourceLimit
  else
    let? reply := map_err TransportError.InvalidConfig (policy_reply_of input) in
    if negb (reply.1 =? POLICY_VERSION)%N then Err (TransportError.UnsupportedVersion reply.1) else Ok reply.2.

(** [CallbackPolicy::check] *)
Definition callback_check {X} (callback : string → X → X * string) (request : PolicyRequest) (x : X)
    : X * LiveCheckStatus :=
  match encode_policy_request request with
  | None => (x, unknown_decision)
  | Some input =>
      let '(x, reply) := callback input x in
      (x, match decode_policy_reply reply with Ok status => status | Err _ => unknown_decision end)
  end.

(** [CPolicy::check] *)
Definition c_policy_check {X} (callback : string → X → X * Z) (request : PolicyRequest) (x : X)
    : X * LiveCheckStatus :=
  match encode_policy_request request with
  | None => (x, unknown_decision)
  | Some input =>
      let '(x, code) := callback input x in
      (x, if (code =? 1)%Z then LiveCheckStatus.Satisfied
          else if (code =? 0)%Z
          then LiveCheckStatus.Violated "embedding host refused this policy request"
          else unknown_decision)
  end.
End callbacks.

(** ** What a grant means *)

Section grants.
Context `{RuntimeText, ConfirmationCodec}.

(** The transcript of the channel: every review shown and its answer. *)
Abbreviation Transcript := (list (Value * result Value string)) (only parsing).
Definition talking (oracle : Transcript → Value → result Value string) (shown : Value) (past : Transcript)
    : Transcript * result Value string :=
  (past ++ [(shown, oracle past shown)], oracle past shown).

Context (oracle : Transcript → Value → result Value string).

Inductive root_step (w : RootPolicy * Transcript) : RootPolicy * Transcript → Prop :=
| rs_check token request : root_step w (root_check (talking oracle) token request w).1.

(** A review that was shown and confirmed word for word. *)
Definition confirmed_in (past : Transcript) (review : PlanReview) : Prop :=
  ∃ answer found, (displayed_review review, Ok answer) ∈ past ∧ confirmation_of answer = Some found ∧
    found = Confirmation.mk "apply" review.(PlanReview.run_id) review.(PlanReview.plan_id)
              review.(PlanReview.digest) review.(PlanReview.token).

Record policy_ok root (w : RootPolicy * Transcript) : Prop := {
  pk_root : w.1.(RootPolicy.root) = root;
  pk_confirmed review : w.1.(RootPolicy.confirmed) = Some review → confirmed_in w.2 review }.

Lemma confirms_exactly answer review :
  confirms answer review = true →
  answer = Confirmation.mk "apply" review.(PlanReview.run_id) review.(PlanReview.plan_id)
             review.(PlanReview.digest) review.(PlanReview.token).
Proof.
  unfold confirms. rewrite !andb_true_iff, !N.eqb_eq, !String.eqb_eq. destruct answer. simpl. naive_solver.
Qed.

Lemma confirmed_in_app past past' review : confirmed_in past review → confirmed_in (past ++ past') review.
Proof. intros (answer & found & Hin & ?). exists answer, found. split; [set_solver|done]. Qed.

Lemma consent_covers_spec review request target :
  consent_covers review request target = true →
  review.(PlanReview.run_id) = request.(ApprovalRequest.run_id) ∧
  review.(PlanReview.plan_id) = request.(ApprovalRequest.plan_id) ∧
  review.(PlanReview.digest) = request.(ApprovalRequest.plan_digest) ∧
  ∀ node, target = Some node → ∃ fingerprint, fingerprint ∈ request.(ApprovalRequest.targets) ∧
    hyphenated fingerprint.(TargetFingerprint.planned_id) = hyphenated node.
Proof.
  unfold consent_covers. rewrite !andb_true_iff, !N.eqb_eq, String.eqb_eq.
  intros [[[Hr Hp] Hd] Ht]. split_and!; [done..|]. intros node ->.
  apply existsb_exists in Ht as (fingerprint & Hin & He). exists fingerprint.
  split; [by apply list_elem_of_In|]. apply bool_decide_eq_true in He. by injection He.
Qed.

Lemma root_authorize_ok root token request target w :
  policy_ok root w →
  let '(w', status) := root_authorize (talking oracle) token request target w in
  policy_ok root w' ∧
  (status = LiveCheckStatus.Satisfied → ∃ review, confirmed_in w'.2 review ∧
     consent_covers review request target = true).
Proof.
  destruct w as [policy past]. intros [Hr Hc]. unfold root_authorize. simpl in *.
  destruct (RootPolicy.refused policy); [by split; [split|]|].
  destruct (RootPolicy.confirmed policy) as [review|] eqn:Hcf.
  { split; [by split; simpl; rewrite ?Hcf|]. destruct (consent_covers _ _ _) eqn:Hcov; [|done]. eauto. }
  destruct (RootPolicy.context policy) as [context|]; [|by split; [split; simpl; rewrite ?Hcf|]].
  set (review := PlanReview.mk _ _ _ _ _). unfold talking.
  destruct (is_some_and _ _) eqn:Ha; [|by split; [split|]].
  assert (confirmed_in (past ++ [(displayed_review review, oracle past (displayed_review review))]) review) as Hin.
  { destruct (oracle past (displayed_review review)) as [answer|] eqn:Ho; [|done]. simpl in Ha.
    destruct (confirmation_of answer) as [found|] eqn:Hf; [|done]. simpl in Ha.
    exists answer, found. split; [set_solver|]. split; [done|by apply confirms_exactly]. }
  split; [split; [done|by intros ? [= <-]]|]. destruct (consent_covers _ _ _) eqn:Hcov; [|done]. eauto.
Qed.

Lemma root_check_ok root token request w :
  policy_ok root w → policy_ok root (root_check (talking oracle) token request w).1.
Proof.
  intros Hok. unfold root_check. destruct w as [policy past]. destruct (negb _); [done|].
  destruct request as [kind context action observed|request target|reviewed fresh]; [|..|done].
  - destruct (_ && _); [done|]. destruct Hok as [Hr Hc]. simpl in *.
    case_bool_decide; (split; simpl; [done|]); [done|exact Hc].
  - pose proof (root_authorize_ok root token request target (policy, past) Hok) as Ha.
    by destruct (root_authorize _ _ _ _ _) as [w' status]; destruct Ha.
Qed.

Lemma root_reachable_ok root w : rtc root_step (policy_with_root root, []) w → policy_ok root w.
Proof.
  intros Hr. assert (policy_ok root (policy_with_root root, [])) as Hok by (by split).
  induction Hr as [|a b c [token request] _ IH]; [done|]. by apply IH, root_check_ok.
Qed.

(** ** Theorems *)

(** C32: Whatever the policy of the root command line was asked before: it
    authorizes an action only in a root invocation, and only when a review of
    exactly the request's run, plan and document digest was shown and the answer
    repeated that review's run, plan, digest and token with the command to
    apply; consent to replace contents names a target of the request.  It never
    clears an incident, and never vouches for protected contents. *)
Theorem root_policy_confirms root w token request w' status :
  rtc root_step (policy_with_root root, []) w →
  root_check (talking oracle) token request w = (w', status) → status = LiveCheckStatus.Satisfied →
  root = true ∧
  match request with
  | PolicyRequest.Authorize request target =>
      ∃ review, confirmed_in w'.2 review ∧
        review.(PlanReview.run_id) = request.(ApprovalRequest.run_id) ∧
        review.(PlanReview.plan_id) = request.(ApprovalRequest.plan_id) ∧
        review.(PlanReview.digest) = request.(ApprovalRequest.plan_digest) ∧
        ∀ node, target = Some node → ∃ fingerprint, fingerprint ∈ request.(ApprovalRequest.targets) ∧
          hyphenated fingerprint.(TargetFingerprint.planned_id) = hyphenated node
  | PolicyRequest.Scope kind context _ _ =>
      kind = ScopeCheck.Preservation → context.(PolicyContext.protected_scope) = ProtectedScope.mk [] [] []
  | PolicyRequest.Incident _ _ => False
  end.
Proof.
  intros Hok%root_reachable_ok He Hs. destruct w as [policy past]. pose proof (pk_root _ _ Hok) as Hroot.
  unfold root_check in He. simpl in Hroot. rewrite Hroot in He. destruct root; [|by simplify_eq].
  split; [done|]. cbn [negb] in He. destruct request as [kind context action observed|request target|].
  - intros ->. simpl in He. destruct (protects_something _) eqn:Hp; [by simplify_eq|].
    unfold protects_something in Hp. destruct (PolicyContext.protected_scope context); simpl in *.
    repeat case_bool_decide; simplify_eq/=; done.
  - pose proof (root_authorize_ok true token request target (policy, past) Hok) as Ha. rewrite He in Ha.
    destruct Ha as [_ Ha]. destruct (Ha Hs) as (review & Hin & Hcov). exists review. split; [done|].
    by apply consent_covers_spec.
  - by simplify_eq.
Qed.
End grants.

(** A callback grants only with a reply of the right size, shape and version
    that says so; anything else leaves the evidence unknown. *)
Lemma callback_fails_closed `{JsonText, PolicyCodec} {X} (callback : string → X → X * string) request x x' :
  callback_check callback request x = (x', LiveCheckStatus.Satisfied) →
  ∃ input reply, encode_policy_request request = Some input ∧ callback input x = (x', reply) ∧
    policy_reply_of reply = Ok (POLICY_VERSION, LiveCheckStatus.Satisfied).
Proof.
  unfold callback_check. destruct (encode_policy_request request) as [input|]; [|done].
  destruct (callback input x) as [x1 reply] eqn:Hc. intros [= -> Hd]. exists input, reply.
  split_and!; [done..|]. unfold decode_policy_reply in Hd. destruct (_ <? _)%N; [done|].
  destruct (policy_reply_of reply) as [[version status]|]; [|done]. simpl in Hd.
  destruct (N.eqb_spec version POLICY_VERSION) as [->|]; [|done]. simpl in Hd. by subst.
Qed.
