(* ===== verification/Cli.v ===== *)
(** * The command line: [dg-cli/src]

    Arguments, the commands over the application, the documents they read and
    replace, the editor and the frames of the backend4 host.  Documents and
    terminal streams are a state of their own next to the machine; a line of
    input is what one bounded [read_until] returned. *)

From stdpp Require Import relations.
From S2P Require Import Prelude Model Reach Graph GraphOrder GraphValid State Action Contract.
From S2P Require Import Logical Evidence Prerequisites Effects Report PlanOrder Compose Simulate SimulateProps.
From S2P Require Import Wire Observation Correlate Observe Execution ExecutionProps Live LiveProps LiveGoal Draft.
From S2P Require Import Build Session Documents Json Native Recipes Scope.
From S2P Require Import Bindings Targets.
From S2P Require Import Checkpoint StoreProps Host Incident Coordinator.
From S2P Require Import CoordinatorProps Facade FacadeProps.
From S2P Require Import Requests RequestProps Policy Registry.

#[local] Open Scope string_scope.
#[local] Open Scope list_scope.

(** ** Errors and exit codes ([lib.rs]) *)

Module CliError.
Inductive CliError :=
| Usage (message : string)
| Io (message : string)
| Document (message : string)
| Application (e : DisksGraphError)
| Configuration (message : string).
End CliError.
Abbreviation CliError := CliError.CliError.

(** [Error::exit_code] *)
Definition exit_code (e : CliError) : N :=
  match e with
  | CliError.Usage _ | CliError.Document _ => 2
  | CliError.Application e =>
      match e.(DisksGraphError.code) with ErrorCode.InvalidDraft | ErrorCode.InvalidPlan => 2 | _ => 1 end
  | _ => 1
  end.

(** [value[key]]: null when it is missing. *)
Definition field (key : string) (value : Value) : Value := default Value.Null (get key value).

Definition result_exit_code (value : Value) : N :=
  if bool_decide (field "event_output_error" value ≠ Value.Null) then 1
  else if bool_decide (is_Some (get "run" value))
          && bool_decide (field "verified" (field "run" value) ≠ Value.Bool true) then 3
  else 0.

(** [#[serde(tag = "kind", content = "detail")]] *)
Definition cli_error_value `{RuntimeText} (e : CliError) : Value :=
  let '(kind, detail) :=
    match e with
    | CliError.Usage message => ("usage", message_value message)
    | CliError.Io message => ("io", message_value message)
    | CliError.Document message => ("document", message_value message)
    | CliError.Application e => ("application", app_error_value e)
    | CliError.Configuration message => ("configuration", message_value message)
    end in
  Value.Object [("kind", Value.String kind); ("detail", detail)].

(** ** Arguments ([commands.rs]) *)

Module Command.
Inductive Command :=
| Probe
| New (output : Path)
| Add (draft request output : Path)
| Preview (draft : Path)
| Freeze (draft output : Path)
| Apply (file : Path) (events : bool)
| Incident
| AcknowledgeIncident
| Edit (draft : Path) (live_rebase : bool).
#[global] Instance Command_eq_dec : EqDecision Command.
Proof. solve_decision. Defined.
End Command.
Abbreviation Command := Command.Command.

Definition needs_probe (command : Command) : bool :=
  match command with
  | Command.Probe | Command.New _ | Command.Apply _ _ | Command.Incident | Command.AcknowledgeIncident
  | Command.Edit _ true => true
  | _ => false
  end.

Module CliInvocation.
Record CliInvocation := mk { manifest : option Path; root : Path; command : Command }.
#[global] Instance CliInvocation_eq_dec : EqDecision CliInvocation.
Proof. solve_decision. Defined.
End CliInvocation.
Abbreviation CliInvocation := CliInvocation.CliInvocation.

Abbreviation Flags := (gmap string OsString) (only parsing).
Abbreviation parsing A := (result A CliError) (only parsing).

(** The words before the first argument that begins with a dash. *)
Fixpoint leading_words (args : list OsString) : list OsString * list OsString :=
  match args with
  | [] => ([], [])
  | arg :: rest => if String.prefix "-" arg then ([], args)
                   else let '(words, rest) := leading_words rest in (arg :: words, rest)
  end.

Fixpoint parse_flags (args : list OsString) (flags : Flags) : parsing Flags :=
  match args with
  | [] => Ok flags
  | flag :: args =>
      let? key := ok_or (to_str flag) (CliError.Usage "flag must be UTF-8") in
      if negb (String.prefix "--" key) then Err (CliError.Usage "expected a named flag")
      else match args with
           | value :: args =>
               if String.prefix "--" value then Err (CliError.Usage ("missing value for " +:+ key))
               else if bool_decide (is_Some (flags !! key))
               then Err (CliError.Usage ("duplicate flag " +:+ key))
               else parse_flags args (<[key := value]> flags)
           | [] => Err (CliError.Usage ("missing value for " +:+ key))
           end
  end.

(** [take] *)
Definition take_flag (key : string) (flags : Flags) : parsing (Path * Flags) :=
  match flags !! key with
  | Some value => if bool_decide (value = "") then Err (CliError.Usage ("required flag " +:+ key))
                  else Ok (value, delete key flags)
  | None => Err (CliError.Usage ("required flag " +:+ key))
  end.

(** The smallest key of a [BTreeMap]. *)
Definition first_key (flags : Flags) : option string :=
  foldr (λ key best, match best with
                     | Some other => if String.leb key other then Some key else best
                     | None => Some key
                     end) None (map_to_list flags).*1.

Definition parse_command (words : list string) (manifest : option Path) (flags : Flags)
    : parsing (Command * Flags) :=
  match words with
  | ["probe"] => Ok (Command.Probe, flags)
  | ["plan"; "new"] =>
      let? output := take_flag "--output" flags in Ok (Command.New output.1, output.2)
  | ["plan"; "add"] =>
      let? draft := take_flag "--draft" flags in
      let? request := take_flag "--request" draft.2 in
      let? output := take_flag "--output" request.2 in
      Ok (Command.Add draft.1 request.1 output.1, output.2)
  | ["plan"; "preview"] =>
      let? draft := take_flag "--draft" flags in Ok (Command.Preview draft.1, draft.2)
  | ["plan"; "freeze"] =>
      let? draft := take_flag "--draft" flags in
      let? output := take_flag "--output" draft.2 in
      Ok (Command.Freeze draft.1 output.1, output.2)
  | ["plan"; "apply"] =>
      let? events := match flags !! "--events" with
                     | None => Ok false
                     | Some format => if bool_decide (format = "jsonl") then Ok true
                                      else Err (CliError.Usage "--events supports only jsonl")
                     end in
      let? file := take_flag "--file" (delete "--events" flags) in
      Ok (Command.Apply file.1 events, file.2)
  | ["incident"; "show"] => Ok (Command.Incident, flags)
  | ["incident"; "acknowledge"] => Ok (Command.AcknowledgeIncident, flags)
  | ["plan"; "edit"] =>
      let? draft := take_flag "--draft" flags in
      Ok (Command.Edit draft.1 (bool_decide (is_Some manifest)), draft.2)
  | _ => Err (CliError.Usage "unknown command; use --help")
  end.

(** [Invocation::parse] *)
Definition parse_invocation (args : list OsString) : parsing CliInvocation :=
  let '(words, args) := leading_words args in
  let? flags := parse_flags args ∅ in
  let manifest := flags !! "--manifest" in
  let? root := take_flag "--root" (delete "--manifest" flags) in
  let? command := parse_command ((λ word, default "" (to_str word)) <$> words) manifest root.2 in
  if needs_probe command.1 && negb (is_some_and (λ path, negb (bool_decide (path = ""))) manifest)
  then Err (CliError.Usage "required flag --manifest")
  else match first_key command.2 with
       | Some flag => Err (CliError.Usage ("unknown flag " +:+ flag))
       | None => Ok (CliInvocation.mk manifest root.1 command.1)
       end.

(** ** Documents ([files.rs]) *)

Definition MAX_INPUT_BYTES : N := MAX_PLAN_JSON_BYTES.

(** The file operations, on the file just opened or on the fresh temporary file;
    an error is its text, also of bytes that are not UTF-8. *)
Class DocumentFiles (T : Type) := {
  open_document : PathBuf → Sys T string unit;
  document_is_file : Sys T string bool;
  read_document_bytes : N → Sys T string string;
  create_new : PathBuf → Sys T string unit;
  write_new : string → Sys T string unit;
  sync_new : Sys T string unit;
  rename_new : PathBuf → PathBuf → Sys T string unit;
  sync_parent : PathBuf → Sys T string unit;
  remove_new : PathBuf → T → T;
  utf8_text : string → string }.

(** [Path::file_name] *)
Definition has_file_name (path : Path) : bool :=
  match last (components path) with Some (Component.Normal _) => true | _ => false end.

(** [path.parent()], or the current directory when it is empty. *)
Definition parent_of (path : Path) : PathBuf :=
  match removelast (components path) with [] => [Component.CurDir] | parent => parent end.

Section files.
Context {T : Type} `{UuidText, DocumentFiles T}.

Definition temporary_in (parent : PathBuf) (name : Uuid) : PathBuf :=
  parent ++ [Component.Normal (".dg-cli-" +:+ hyphenated name +:+ ".tmp")].

Definition io {A} (m : Sys T string A) : Sys T CliError A := sys_map_err CliError.Io m.

Definition read_document (path : Path) : Sys T CliError string :=
  let* _ := io (open_document (components path)) in
  let* regular := io document_is_file in
  if negb regular then sys_fail (CliError.Document "input must be a regular file")
  else
    let* bytes := io (read_document_bytes (MAX_INPUT_BYTES + 1)) in
    if (MAX_INPUT_BYTES <? N.of_nat (String.length bytes))%N
    then sys_fail (CliError.Document "input exceeds the document size limit")
    else sys_of (ok_or (to_str bytes) (CliError.Document (utf8_text bytes))).

(** [name] is the result of [Uuid::now_v7] in the temporary name. *)
Definition save_document (name : Uuid) (path : Path) (document : string) : Sys T CliError unit :=
  if (MAX_INPUT_BYTES <? N.of_nat (String.length document))%N
  then sys_fail (CliError.Document "output exceeds the document size limit")
  else if negb (has_file_name path) then sys_fail (CliError.Usage "output must name a file")
  else
    let parent := parent_of path in
    let temporary := temporary_in parent name in
    sys_or_undo (remove_new temporary)
      (let* _ := io (create_new temporary) in
       let* _ := io (write_new document) in
       let* _ := io sync_new in
       let* _ := io (rename_new temporary (components path)) in
       io (sync_parent parent)).
End files.

(** ** Commands *)

(** The terminal: standard error, where records are written one per line. *)
Class Terminal (T : Type) := {
  write_json : Value → Sys T CliError unit;
  write_newline : Sys T string unit;
  flush_output : Sys T string unit }.

(** [write_event] *)
Definition write_event {T} `{Terminal T} (event : Value) : Sys T CliError unit :=
  let* _ := write_json event in
  let* _ := sys_map_err CliError.Io write_newline in
  sys_map_err CliError.Io flush_output.

(** [serde_json::from_str] at a request, at a line of the editor and at an
    answer about an incident. *)
Module EditCommand.
Inductive EditCommand :=
| Edit (edit : PlanEdit)
| Undo
| Redo
| Preview
| PrepareRebase
| AcceptRebase (token : Uuid)
| Save
| Quit.
End EditCommand.
Abbreviation EditCommand := EditCommand.EditCommand.

Module IncidentAnswer.
Inductive IncidentAnswer := Acknowledge (run_id token : Uuid) | Cancel.
End IncidentAnswer.
Abbreviation IncidentAnswer := IncidentAnswer.IncidentAnswer.

Class CliDecoder := {
  plan_request_of : string → result PlanRequest string;
  edit_command_of : string → result EditCommand string;
  incident_answer_of : string → result IncidentAnswer string }.

Section commands.
Context {S T : Type}.
Context `{RuntimeText, FacadeText, Os S, HostPolicies S, BackendDispatcher S, Allocator S, WireDecoder}.
Context `{ReplyEncoder, IncidentAcknowledgmentPolicy S, DocumentFiles T, Terminal T, CliDecoder}.

(** The application and its machine, next to the documents and streams. *)
Abbreviation CliWorld := ((DisksGraph LinuxLiveHost * S) * T)%type (only parsing).
Abbreviation commanding A := (Sys CliWorld (Failure CliError) A) (only parsing).

Definition in_application {A} (m : applying LinuxLiveHost S A) : commanding A :=
  λ w, let '(app, r) := m w.1 in ((app, w.2), map_failure CliError.Application r).
Definition in_terminal {A} (m : Sys T CliError A) : commanding A :=
  λ w, let '(t, r) := m w.2 in ((w.1, t), report r).
Definition cli_encoded (r : result Value string) : commanding Value :=
  sys_of (report (map_err CliError.Document r)).
(** [serde_json::to_value] inside of [json!] *)
Definition cli_embedded (r : result Value string) : commanding Value :=
  sys_of match r with Ok v => Ok v | Err _ => Err Panicked end.
Definition cli_fail {A} (e : CliError) : commanding A := sys_fail (Reported e).

(** A line of input is bounded. *)
Abbreviation Input := (list (result string string)) (only parsing).

Definition draft_from (path : Path) : commanding DraftDocument :=
  let* text := in_terminal (read_document path) in
  sys_of (map_failure (λ e, CliError.Application (draft_document_error e))
            (Documents.from_json draft_codec serializers text)).
Definition draft_text (document : DraftDocument) : commanding string :=
  sys_of (map_failure (λ e, CliError.Application (draft_document_error e))
            (Documents.to_json draft_codec serializers document)).

(** The events of a run, until one cannot be written. *)
Fixpoint write_events (events : list Value) (t : T) : T * option string :=
  match events with
  | [] => (t, None)
  | event :: events =>
      match write_event event t with
      | (t, Ok _) => write_events events t
      | (t, Err _) => (t, Some REDACTED)
      end
  end.
Definition output_error (stream : bool) (events : list Value) : commanding (option string) :=
  λ w, if stream then let '(t, failed) := write_events events w.2 in ((w.1, t), Ok failed)
       else (w, Ok None).

Definition stream_start : Value :=
  Value.Object [("type", Value.String "stream"); ("since", Value.Number 0)].

(** The handle of an attempt and the events delivered while it ran. *)
Definition apply_streaming (run_id : Uuid) (plan : PlanId) : commanding (list RunEvent * RunId) :=
  λ w, let '(app, (events, r)) := apply_plan_with_events run_id plan w.1 in
       ((app, w.2),
        match r with
        | Ok id => Ok (events, id)
        | Err (Reported e) =>
            match e.(DisksGraphError.run_id) with
            | Some id => Ok (events, id)
            | None => Err (Reported (CliError.Application e))
            end
        | Err Panicked => Err Panicked
        | Err OutOfFuel => Err OutOfFuel
        end).

Definition run_value (found : AttemptSnapshot) (failed : option string) : Value :=
  Value.Object [("run", attempt_value found); ("event_output_error", option_value Value.String failed)].

(** The events of a run go to the stream as they are delivered; the stream and
    the storage share nothing, so they are written here after the run. *)
Definition apply_command (fresh : Fresh) (file : Path) (stream : bool) : commanding Value :=
  let* text := in_terminal (read_document file) in
  let* plan := in_application (import_plan_json fresh.(Fresh.handle) text) in
  let* opened := output_error stream [stream_start] in
  let* applied := apply_streaming fresh.(Fresh.run) plan in
  let* failed := match opened with
                 | Some _ => sys_return opened
                 | None => output_error stream (event_value <$> applied.1)
                 end in
  let* found := in_application (run_snapshot applied.2) in
  sys_return (run_value found failed).

(** [incident::acknowledge] *)
Definition acknowledge_command (fresh : Fresh) (input : Input) : commanding Value :=
  let* found := in_application (app_review_incident fresh.(Fresh.token)) in
  match found with
  | None => sys_return (Value.Object [("incident", Value.Null); ("acknowledged", Value.Bool false)])
  | Some review =>
      let* shown := cli_embedded (inspection_value review.(IncidentReview.inspection)) in
      let* _ := in_terminal (write_event (Value.Object
        [("type", Value.String "incident_review"); ("incident", shown);
         ("token", uuid_value review.(IncidentReview.token))])) in
      match head input with
      | None => sys_return (Value.Object [("acknowledged", Value.Bool false)])
      | Some (Err e) => cli_fail (CliError.Io e)
      | Some (Ok line) =>
          if (MAX_INPUT_BYTES <? N.of_nat (String.length line))%N
          then cli_fail (CliError.Document "incident confirmation exceeds the input size limit")
          else
            let* answer := sys_of (report (map_err CliError.Document (incident_answer_of line))) in
            match answer with
            | IncidentAnswer.Cancel => sys_return (Value.Object [("acknowledged", Value.Bool false)])
            | IncidentAnswer.Acknowledge run_id token =>
                if negb (run_id =? review.(IncidentReview.inspection).(IncidentInspection.attempt)
                                     .(ActiveAttempt.run_id))%N
                then cli_fail (CliError.Usage "run ID differs from the reviewed incident")
                else
                  let* inspection := in_application (app_acknowledge_incident review token) in
                  let* shown := cli_embedded (inspection_value inspection) in
                  sys_return (Value.Object [("incident", shown); ("acknowledged", Value.Bool true)])
            end
      end
  end.

(** *** The editor ([repl.rs]) *)

(** The revision in the file and the review shown last. *)
Abbreviation Editing := (DraftRevision * option (Uuid * RebasePreview))%type (only parsing).

Definition in_command {A} (m : commanding A) : Sys (CliWorld * Editing) (Failure CliError) A :=
  λ w, let '(c, r) := m w.1 in ((c, w.2), r).
Definition editing_state : Sys (CliWorld * Editing) (Failure CliError) Editing := λ w, (w, Ok w.2).
Definition set_editing (e : Editing) : Sys (CliWorld * Editing) (Failure CliError) unit :=
  λ w, ((w.1, e), Ok tt).

Definition rebase_review (token : Uuid) (candidate : RebasePreview) : commanding Value :=
  let state := candidate.(RebasePreview.preview) in
  let* baseline := cli_embedded (baseline_value candidate.(RebasePreview.baseline)) in
  let* draft := cli_embedded (plan_draft_value candidate.(RebasePreview.draft)) in
  let* correlations := cli_embedded (correlations_value candidate.(RebasePreview.correlations)) in
  let* status := cli_embedded (status_value (status state)) in
  let* diagnostics := cli_embedded (diagnostics_value
    (preview_diagnostics composition_text action_simulation_text plan_simulation_text state)) in
  sys_return (Value.Object
    [("token", uuid_value token);
     ("source_revision", Value.Number candidate.(RebasePreview.source).(DraftDocument.revision));
     ("baseline", baseline); ("draft", draft); ("correlations", correlations);
     ("status", status); ("diagnostics", diagnostics)]).

Definition saved_value (revision : DraftRevision) (saved : bool) : Value :=
  Value.Object [("revision", Value.Number revision); ("saved", Value.Bool saved)].

(** One command that is not [Quit]. *)
Definition edit_command (fresh : Fresh) (path : Path) (session : SessionId) (live_rebase : bool)
    (command : result EditCommand string) : Sys (CliWorld * Editing) (Failure CliError) Value :=
  let* revision := in_command (in_application (app_revision session)) in
  let* command := sys_of (report (map_err CliError.Document command)) in
  let* state := editing_state in
  match command with
  | EditCommand.Edit change =>
      in_command (
        let* receipt := in_application
          (app_edit session revision fresh.(Fresh.operation) fresh.(Fresh.node) change) in
        cli_encoded (receipt_value receipt))
  | EditCommand.Undo =>
      in_command (let* next := in_application (app_undo session revision) in sys_return (revision_value next))
  | EditCommand.Redo =>
      in_command (let* next := in_application (app_redo session revision) in sys_return (revision_value next))
  | EditCommand.Preview =>
      in_command (let* document := in_application (app_preview_document session) in
                  cli_encoded (preview_value document))
  | EditCommand.PrepareRebase =>
      if negb live_rebase
      then in_command (cli_fail (CliError.Usage "rebase requires plan edit with --manifest"))
      else
        let* candidate := in_command (in_application
          (app_prepare_rebase fresh.(Fresh.baseline) session revision)) in
        let* value := in_command (rebase_review fresh.(Fresh.token) candidate) in
        let* _ := set_editing (state.1, Some (fresh.(Fresh.token), candidate)) in
        sys_return value
  | EditCommand.AcceptRebase token =>
      match state.2 with
      | Some (expected, candidate) =>
          if negb (expected =? token)%N
          then in_command (cli_fail (CliError.Usage "rebase token does not match the pending review"))
          else
            let* _ := set_editing (state.1, None) in
            let* next := in_command (in_application (app_accept_rebase session
              candidate.(RebasePreview.source).(DraftDocument.revision) candidate)) in
            sys_return (saved_value next false)
      | None => in_command (cli_fail (CliError.Usage "rebase token does not match the pending review"))
      end
  | EditCommand.Save =>
      let* _ := in_command (
        let* document := in_application (export_draft session) in
        let* text := draft_text document in
        in_terminal (save_document fresh.(Fresh.review) path text)) in
      let* _ := set_editing (revision, state.2) in
      sys_return (saved_value revision true)
  | EditCommand.Quit => sys_fail Panicked
  end.

Definition is_quit (command : result EditCommand string) : bool :=
  match command with Ok EditCommand.Quit => true | _ => false end.

Definition reply_line (r : result Value CliError) : Value :=
  match r with
  | Ok v => Value.Object [("result", v)]
  | Err e => Value.Object [("error", cli_error_value e)]
  end.

(** The loop: one line and one set of fresh identities per command. *)
Fixpoint edit_loop (path : Path) (session : SessionId) (live_rebase : bool)
    (input : list (result string string * Fresh)) : Sys (CliWorld * Editing) (Failure CliError) unit :=
  match input with
  | [] => sys_return tt
  | (Err e, _) :: _ => in_command (cli_fail (CliError.Io e))
  | (Ok line, fresh) :: input =>
      if (MAX_INPUT_BYTES <? N.of_nat (String.length line))%N
      then in_command (cli_fail (CliError.Document "REPL command exceeds the input size limit"))
      else
        let command := edit_command_of line in
        if is_quit command then sys_return tt
        else
          let* reply := λ w, let '(w, r) := edit_command fresh path session live_rebase command w in
                             (w, match r with
                                 | Ok v => Ok (reply_line (Ok v))
                                 | Err (Reported e) => Ok (reply_line (Err e))
                                 | Err Panicked => Err Panicked
                                 | Err OutOfFuel => Err OutOfFuel
                                 end) in
          let* _ := in_command (in_terminal (write_event reply)) in
          edit_loop path session live_rebase input
  end.

(** What the editor does between opening and closing the session. *)
Definition edit_session (path : Path) (session : SessionId) (live_rebase : bool)
    (input : list (result string string * Fresh)) : commanding Value :=
  let* opened := in_application (app_revision session) in
  λ w, let '(w, r) :=
         (let* _ := edit_loop path session live_rebase input in
          let* revision := in_command (in_application (app_revision session)) in
          let* state := editing_state in
          sys_return (saved_value revision (revision =? state.1)%N)) (w, (opened, None)) in
       (w.1, r).

(** [repl::edit]: the session is closed whatever happened; an unwinding call
    does not get there. *)
Definition edit_repl (handle : Uuid) (path : Path) (live_rebase : bool)
    (input : list (result string string * Fresh)) : commanding Value :=
  let* document := draft_from path in
  let* session := in_application (import_draft handle document) in
  λ w, match edit_session path session live_rebase input w with
       | (w, Err Panicked) => (w, Err Panicked)
       | (w, Err OutOfFuel) => (w, Err OutOfFuel)
       | (w, r) => (let* _ := in_application (close_session session) in sys_of r) w
       end.

(** *** All commands *)

(** [execute_with_io] *)
Definition execute_command (fresh : Fresh) (command : Command) (input : list (result string string * Fresh))
    : commanding Value :=
  match command with
  | Command.Probe =>
      let* observed := in_application app_probe in sys_return (observation_value observed)
  | Command.New output =>
      let* session := in_application
        (create_session fresh.(Fresh.baseline) fresh.(Fresh.session) fresh.(Fresh.handle)) in
      let* document := in_application (export_draft session) in
      let* text := draft_text document in
      let* _ := in_terminal (save_document fresh.(Fresh.review) output text) in
      let* revision := in_application (app_revision session) in
      sys_return (revision_value revision)
  | Command.Add draft request output =>
      let* document := draft_from draft in
      let* text := in_terminal (read_document request) in
      let* request := sys_of (report (map_err CliError.Document (plan_request_of text))) in
      let* session := in_application (import_draft fresh.(Fresh.handle) document) in
      let* revision := in_application (app_revision session) in
      let* receipt := in_application
        (app_edit session revision fresh.(Fresh.operation) fresh.(Fresh.node) (PlanEdit.Add request)) in
      let* document := in_application (export_draft session) in
      let* text := draft_text document in
      let* _ := in_terminal (save_document fresh.(Fresh.review) output text) in
      let* state := in_application (app_preview session) in
      let* shown := cli_embedded (status_value (status state)) in
      sys_return (Value.Object
        [("revision", Value.Number receipt.(EditReceipt.revision));
         ("operation", option_value uuid_value receipt.(EditReceipt.added_operation));
         ("created_node", option_value uuid_value receipt.(EditReceipt.created_node));
         ("status", shown)])
  | Command.Preview draft =>
      let* document := draft_from draft in
      let* session := in_application (import_draft fresh.(Fresh.handle) document) in
      let* document := in_application (app_preview_document session) in
      cli_encoded (preview_value document)
  | Command.Freeze draft output =>
      let* document := draft_from draft in
      let* session := in_application (import_draft fresh.(Fresh.handle) document) in
      let* revision := in_application (app_revision session) in
      let* frozen := in_application (app_freeze fresh.(Fresh.plan) session revision) in
      let* text := sys_of (map_failure (λ e, CliError.Application (plan_document_error e))
        (canonical_json graph_text serializers serializers' frozen.(FrozenPlan.document))) in
      let* _ := in_terminal (save_document fresh.(Fresh.review) output text) in
      sys_return (Value.Object
        [("plan_id", uuid_value frozen.(FrozenPlan.document).(PlanDocument.plan_id));
         ("revision", Value.Number frozen.(FrozenPlan.revision))])
  | Command.Apply file stream => apply_command fresh file stream
  | Command.Incident =>
      let* found := in_application app_incident in
      let* shown := match found with
                    | Some inspection => cli_embedded (inspection_value inspection)
                    | None => sys_return Value.Null
                    end in
      sys_return (Value.Object [("incident", shown)])
  | Command.AcknowledgeIncident => acknowledge_command fresh input.*1
  | Command.Edit draft live_rebase => edit_repl fresh.(Fresh.handle) draft live_rebase input
  end.
End commands.

(** ** Frames ([backend4.rs]) *)

Definition MAX_LINE_BYTES : N := (MAX_REQUEST_BYTES + 4096)%N.

(** [Action] of an [Envelope] *)
Module FrameAction.
Inductive FrameAction := List | Read (payload : Value) | Write (payload : Value).
End FrameAction.
Abbreviation FrameAction := FrameAction.FrameAction.

Class FrameDecoder := frame_of : string → result FrameAction string.

Section frames.
Context {S : Type}.
Context `{RuntimeText, FacadeText, Os S, HostPolicies S, BackendDispatcher S, Allocator S}.
Context `{ReplyEncoder, IncidentAcknowledgmentPolicy S, RequestDecoder, FrameDecoder}.

Definition module_listing : Value :=
  Value.Object
    [("module", Value.String "disksgraph");
     ("actions", Value.Array (Value.String <$> ["list"; "read"; "write"]));
     ("protocol_version", Value.Number PROTOCOL_VERSION)].

(** The request a frame carries, or the answer to a listing. *)
Definition frame_request (input : string) : result (Value + Request) ProtocolError :=
  if (MAX_LINE_BYTES <? N.of_nat (String.length input))%N then Err ProtocolError.ResourceLimit
  else
    let? action := map_err ProtocolError.InvalidRequest (frame_of input) in
    let carried (payload : Value) (write : bool) :=
      let? request := parse_request (value_text payload) in
      if negb write && negb (is_read_only request)
      then Err (ProtocolError.InvalidRequest "method requires backend4 write action")
      else Ok (inr request) in
    match action with
    | FrameAction.List => Ok (inl module_listing)
    | FrameAction.Read payload => carried payload false
    | FrameAction.Write payload => carried payload true
    end.

(** [backend4::call] over the protocol of the host. *)
Definition frame_call (fresh : Fresh) (input : string) (w : JsonProtocol * S)
    : (JsonProtocol * S) * result string (Failure ProtocolError) :=
  match frame_request input with
  | Err e => (w, Ok (encode_reply (Err e)))
  | Ok (inl listing) => (w, Ok (encode_reply (Ok listing)))
  | Ok (inr request) =>
      let '(w, r) := call_with_policy fresh request w in
      (w, match r with
          | Ok v => Ok (encode_reply (Ok v))
          | Err (Reported e) => Ok (encode_reply (Err e))
          | Err Panicked => Err Panicked
          | Err OutOfFuel => Err OutOfFuel
          end)
  end.

(** [u8::is_ascii_whitespace] *)
Definition is_ascii_whitespace (byte : N) : bool := bool_decide (byte ∈ [9; 10; 12; 13; 32]%N).
Definition is_blank_frame (line : string) : bool :=
  (N.of_nat (String.length line) <=? MAX_LINE_BYTES)%N && forallb is_ascii_whitespace (utf8 line).

(** The replies of [serve], one per frame; an oversized frame is the last. *)
Fixpoint serve_frames (input : list (string * Fresh)) (w : JsonProtocol * S)
    : (JsonProtocol * S) * (list string * result unit (Failure ProtocolError)) :=
  match input with
  | [] => (w, ([], Ok tt))
  | (line, fresh) :: input =>
      if is_blank_frame line then serve_frames input w
      else match frame_call fresh line w with
           | (w, Err e) => (w, ([], Err e))
           | (w, Ok reply) =>
               if (MAX_LINE_BYTES <? N.of_nat (String.length line))%N then (w, ([reply], Ok tt))
               else let '(w, (replies, r)) := serve_frames input w in (w, (reply :: replies, r))
           end
  end.

(** [read_confirmation]: consent comes in a write frame only. *)
Definition frame_confirmation (line : string) : result Value CliError :=
  let? action := map_err CliError.Document (frame_of line) in
  match action with
  | FrameAction.Write payload => Ok payload
  | _ => Err (CliError.Usage "confirmation requires backend4 write action")
  end.

(** A read frame changes no session, no plan and no attempt. *)
Lemma read_frame_unchanged fresh line payload (w : JsonProtocol * S) :
  frame_of line = Ok (FrameAction.Read payload) →
  same_objects w.1.(JsonProtocol.app) (frame_call fresh line w).1.1.(JsonProtocol.app).
Proof.
  intros Hf. unfold frame_call, frame_request. destruct (_ <? _)%N; [done|]. rewrite Hf. simpl.
  destruct (parse_request _) as [request|e]; [|done]. simpl. destruct (is_read_only request) eqn:Hr; [|done].
  simpl. assert (keeps (within (holds_app (same_objects w.1.(JsonProtocol.app)))) (call_request fresh request))
    as Hk by (by apply read_request).
  unfold call_with_policy. destruct (_ && _); [done|]. specialize (Hk w).
  destruct (call_request _ _ _) as [w' r]. by apply Hk.
Qed.
End frames.

(** ** Printing an invocation *)

Definition command_words (command : Command) : list string :=
  match command with
  | Command.Probe => ["probe"]
  | Command.New _ => ["plan"; "new"]
  | Command.Add _ _ _ => ["plan"; "add"]
  | Command.Preview _ => ["plan"; "preview"]
  | Command.Freeze _ _ => ["plan"; "freeze"]
  | Command.Apply _ _ => ["plan"; "apply"]
  | Command.Incident => ["incident"; "show"]
  | Command.AcknowledgeIncident => ["incident"; "acknowledge"]
  | Command.Edit _ _ => ["plan"; "edit"]
  end.
Definition command_flags (command : Command) : list (string * string) :=
  match command with
  | Command.New output => [("--output", output)]
  | Command.Add draft request output => [("--draft", draft); ("--request", request); ("--output", output)]
  | Command.Preview draft => [("--draft", draft)]
  | Command.Freeze draft output => [("--draft", draft); ("--output", output)]
  | Command.Apply file true => [("--file", file); ("--events", "jsonl")]
  | Command.Apply file false => [("--file", file)]
  | Command.Edit draft _ => [("--draft", draft)]
  | _ => []
  end.
Definition invocation_flags (i : CliInvocation) : list (string * string) :=
  match i.(CliInvocation.manifest) with Some manifest => [("--manifest", manifest)] | None => [] end
  ++ ("--root", i.(CliInvocation.root)) :: command_flags i.(CliInvocation.command).
Definition flag_args (flags : list (string * string)) : list string :=
  flags ≫= λ flag, [flag.1; flag.2].
Definition print_invocation (i : CliInvocation) : list string :=
  command_words i.(CliInvocation.command) ++ flag_args (invocation_flags i).

(** Every path can be written as the value of a flag, and the manifest is there
    exactly when the command takes one. *)
Definition printable (path : string) : Prop := path ≠ "" ∧ String.prefix "--" path = false.
Record invocation_ok (i : CliInvocation) : Prop := {
  io_flags key value : (key, value) ∈ invocation_flags i → printable value;
  io_manifest : needs_probe i.(CliInvocation.command) = true → is_Some i.(CliInvocation.manifest);
  io_edit draft live : i.(CliInvocation.command) = Command.Edit draft live →
    live = bool_decide (is_Some i.(CliInvocation.manifest)) }.

Lemma parse_flags_printed (flags : list (string * string)) (m : gmap string string) :
  NoDup flags.*1 →
  (∀ key value, (key, value) ∈ flags → to_str key = Some key ∧ String.prefix "--" key = true ∧
     String.prefix "--" value = false ∧ m !! key = None) →
  parse_flags (flag_args flags) m = Ok (list_to_map (reverse flags) ∪ m).
Proof.
  revert m. induction flags as [|[key value] flags IH]; intros m Hnd Hf; simpl.
  - by rewrite (left_id_L ∅ (∪)).
  - destruct (Hf key value) as (Hs & Hk & Hv & Hm); [left|]. rewrite Hs. simpl. rewrite Hk, Hv. simpl.
    rewrite bool_decide_eq_false_2 by (rewrite Hm; by intros []).
    apply NoDup_cons in Hnd as [Hnew Hnd]. rewrite IH; [..|done|].
    + f_equal. rewrite reverse_cons, list_to_map_app. simpl.
      rewrite <-(assoc_L (∪)). f_equal. rewrite insert_empty. by rewrite insert_union_singleton_l.
    + intros key' value' Hin. destruct (Hf key' value') as (? & ? & ? & ?); [by right|].
      split_and!; [done..|]. rewrite lookup_insert_ne; [done|]. intros ->. apply Hnew.
      apply list_elem_of_fmap. by exists (key', value').
Qed.

Lemma take_flag_ok key value (flags : gmap string string) :
  flags !! key = Some value → value ≠ "" → take_flag key flags = Ok (value, delete key flags).
Proof. intros Hl Hv. unfold take_flag. rewrite Hl. by rewrite bool_decide_eq_false_2. Qed.

(** The keys a printed invocation uses. *)
Definition flag_keys : list string :=
  ["--manifest"; "--root"; "--output"; "--draft"; "--request"; "--file"; "--events"].

Lemma flag_keys_ok key : key ∈ flag_keys → to_str key = Some key ∧ String.prefix "--" key = true.
Proof.
  unfold flag_keys. rewrite !elem_of_cons, elem_of_nil.
  intros [->|[->|[->|[->|[->|[->|[->|[]]]]]]]]; by vm_compute.
Qed.

Lemma invocation_keys i : NoDup (invocation_flags i).*1 ∧ ∀ key, key ∈ (invocation_flags i).*1 → key ∈ flag_keys.
Proof.
  assert (∀ l : list string, forallb (λ key, bool_decide (key ∈ flag_keys)) l = true → ∀ key, key ∈ l → key ∈ flag_keys) as Hall.
  { intros l Hl key Hk. rewrite forallb_forall in Hl.
    eapply bool_decide_eq_true, Hl. by apply list_elem_of_In. }
  destruct i as [[manifest|] root [| | | | |file []| | |]]; (split; [|apply Hall; by vm_compute]);
    apply (bool_decide_unpack _); by vm_compute.
Qed.

Lemma leading_words_printed i :
  leading_words (print_invocation i) = (command_words i.(CliInvocation.command), flag_args (invocation_flags i)).
Proof.
  assert (∀ flags : list (string * string), (∀ key, key ∈ flags.*1 → String.prefix "-" key = true) →
    leading_words (flag_args flags) = ([], flag_args flags)) as Hflags.
  { intros [|[key value] flags] Hk; [done|]. simpl. by rewrite (Hk key) by left. }
  assert (leading_words (flag_args (invocation_flags i)) = ([], flag_args (invocation_flags i))) as Hl.
  { apply Hflags. intros key Hk. destruct (invocation_keys i) as [_ Hin]. specialize (Hin _ Hk).
    unfold flag_keys in Hin. rewrite !elem_of_cons, elem_of_nil in Hin.
    by destruct Hin as [->|[->|[->|[->|[->|[->|[->|[]]]]]]]]. }
  unfold print_invocation. destruct (CliInvocation.command i); simpl; by rewrite Hl.
Qed.

Lemma parse_flags_invocation i :
  invocation_ok i →
  parse_flags (flag_args (invocation_flags i)) ∅ = Ok (list_to_map (reverse (invocation_flags i))).
Proof.
  intros [Hf _ _]. destruct (invocation_keys i) as [Hnd Hin]. rewrite parse_flags_printed, (right_id_L ∅ (∪)); [done..|].
  intros key value Hk. destruct (flag_keys_ok key) as [Hs Hp].
  { apply Hin, list_elem_of_fmap. by exists (key, value). }
  destruct (Hf _ _ Hk) as [_ Hv]. by split_and!.
Qed.

Lemma words_kept command :
  (λ word, default "" (to_str word)) <$> command_words command = command_words command.
Proof. by destruct command; vm_compute. Qed.

(** Evaluates the next lookup of a flag in the printed flags. *)
Ltac take_printed Hne :=
  match goal with
  | |- context [take_flag ?key ?flags] =>
      let found := eval vm_compute in (flags !! key) in
      match found with
      | Some ?value => rewrite (take_flag_ok key value flags); [|by vm_compute|apply (Hne key); rewrite !elem_of_cons; tauto]
      end
  | |- context [@lookup string string (gmap string string) ?i ?key ?flags] =>
      let found := eval vm_compute in (flags !! key) in
      replace (flags !! key) with found by (by vm_compute)
  end.

(** C34: Printing an invocation and parsing the arguments gives it back: every
    command with every combination of its flags can be written, and reads as
    what it says. *)
Theorem invocation_roundtrip i : invocation_ok i → parse_invocation (print_invocation i) = Ok i.
Proof.
  intros Hok. unfold parse_invocation. rewrite leading_words_printed, parse_flags_invocation by done.
  cbv beta iota zeta. rewrite words_kept.
  destruct Hok as [Hf Hm He]. destruct i as [manifest root command]. cbn [CliInvocation.command] in *.
  assert (∀ key value, (key, value) ∈ invocation_flags (CliInvocation.mk manifest root command) → value ≠ "") as Hne
    by (intros key value Hin; by destruct (Hf _ _ Hin)).
  destruct manifest as [manifest|], command as [|output|draft request output|draft|draft output|file []| | |draft live];
    try (by destruct (Hm eq_refl)); try (specialize (He _ _ eq_refl); simpl in He; subst live).
  all: unfold invocation_flags in *; cbn [CliInvocation.manifest CliInvocation.root CliInvocation.command
    command_flags app] in *.
  all: repeat (take_printed Hne; cbn -[take_flag list_to_map reverse lookup delete first_key bool_decide]).
  all: try (rewrite (bool_decide_eq_false_2 (manifest = "")) by (apply (Hne "--manifest"); left); cbn [negb]).
  all: rewrite ?(bool_decide_eq_true_2 ("jsonl" = "jsonl")) by done;
    cbn -[list_to_map reverse lookup delete first_key bool_decide].
  all: match goal with
       | |- context [first_key ?flags] => replace (first_key flags) with (@None string) by (by vm_compute)
       end; by vm_compute.
Qed.

(** ** Documents survive *)

(** What the file operations do to the names of a directory; [entry] is the
    name a path stands for, so that two spellings of one path are one name, and
    [contents] are those of the regular files. *)
Class DocumentFileLaws (T K : Type) `{DocumentFiles T} := {
  entry : PathBuf → K;
  contents : T → K → option string;
  reading : T → option K;
  writing : T → option K;
  create_spec path t : outcome (create_new path) t
    (λ _ t', contents t (entry path) = None ∧ contents t' (entry path) = Some "" ∧
       writing t' = Some (entry path) ∧ ∀ k, k ≠ entry path → contents t' k = contents t k)
    (λ _ t', contents t' = contents t);
  write_spec document k t : writing t = Some k → contents t k = Some "" →
    outcome (write_new document) t
      (λ _ t', contents t' k = Some document ∧ ∀ k', k' ≠ k → contents t' k' = contents t k')
      (λ _ t', ∀ k', k' ≠ k → contents t' k' = contents t k');
  sync_spec t : contents (sync_new t).1 = contents t;
  rename_spec a b t : entry a ≠ entry b → outcome (rename_new a b) t
    (λ _ t', contents t' (entry b) = contents t (entry a) ∧ contents t' (entry a) = None ∧
       ∀ k, k ≠ entry a → k ≠ entry b → contents t' k = contents t k)
    (λ _ t', contents t' = contents t);
  sync_parent_spec path t : contents (sync_parent path t).1 = contents t;
  remove_spec path t k : k ≠ entry path → contents (remove_new path t) k = contents t k;
  open_spec path t : outcome (open_document path) t
    (λ _ t', reading t' = Some (entry path) ∧ contents t' = contents t) (λ _ t', contents t' = contents t);
  is_file_spec k text t : reading t = Some k → contents t k = Some text →
    outcome document_is_file t
      (λ regular t', regular = true ∧ reading t' = reading t ∧ contents t' = contents t) (λ _ _, True);
  read_spec n k text t : reading t = Some k → contents t k = Some text →
    (N.of_nat (String.length text) <= n)%N →
    outcome (read_document_bytes n) t (λ bytes _, bytes = text) (λ _ _, True) }.

Section saving.
Context {T K : Type} `{EqDecision K, UuidText, DocumentFileLaws T K}.

Lemma outcome_io {A} (m : Sys T string A) t (Q : A → T → Prop) (X : T → Prop) :
  outcome m t Q (λ _ t', X t') → outcome (io m) t Q (λ _ t', X t').
Proof. unfold outcome, io, sys_map_err. by destruct (m t) as [t' []]. Qed.

Lemma outcome_contents {A} (m : Sys T string A) t (Q : A → T → Prop) (X : T → Prop) :
  contents (m t).1 = contents t → (∀ a t', contents t' = contents t → Q a t') →
  (∀ t', contents t' = contents t → X t') → outcome (io m) t Q (λ _ t', X t').
Proof. intros Hm HQ HX. apply outcome_io. unfold outcome. destruct (m t) as [t' []]; simpl in Hm; auto. Qed.

(** Between the old and the new contents of the name a save replaces. *)
Definition replaces (path temporary : PathBuf) (document : string) (t t' : T) : Prop :=
  (contents t' (entry path) = contents t (entry path) ∨ contents t' (entry path) = Some document) ∧
  ∀ k, k ≠ entry path → k ≠ entry temporary → contents t' k = contents t k.

Lemma replaces_removed path temporary document t t' :
  entry path ≠ entry temporary → replaces path temporary document t t' →
  replaces path temporary document t (remove_new temporary t').
Proof.
  intros Hne [Hp Hk]. split; [by rewrite remove_spec|]. intros k ? ?. rewrite remove_spec by done. by apply Hk.
Qed.

Lemma save_document_outcome name path document t :
  entry (components path) ≠ entry (temporary_in (parent_of path) name) →
  outcome (save_document name path document) t
    (λ _ t', contents t' (entry (components path)) = Some document ∧
       contents t' (entry (temporary_in (parent_of path) name)) = None ∧
       (∀ k, k ≠ entry (components path) → contents t' k = contents t k) ∧
       (N.of_nat (String.length document) <= MAX_INPUT_BYTES)%N)
    (λ _ t', replaces (components path) (temporary_in (parent_of path) name) document t t').
Proof.
  intros Hne. unfold save_document. destruct (N.ltb_spec MAX_INPUT_BYTES (N.of_nat (String.length document))) as [|Hl].
  { split; auto. }
  destruct (negb _); [split; auto|]. set (tmp := temporary_in _ _) in *. apply outcome_undo.
  eapply (outcome_mono _ _ (λ _ t', contents t' (entry (components path)) = Some document ∧
    contents t' (entry tmp) = None ∧ ∀ k, k ≠ entry (components path) → contents t' k = contents t k) _
    (λ _ t', replaces (components path) tmp document t t'));
    [|by intros ?? (?&?&?)|by intros ??; apply replaces_removed].
  apply outcome_bind, outcome_io. eapply outcome_mono; [apply create_spec| |simpl; intros _ t1 He1; split; rewrite He1; auto].
  intros [] t1 (Hnone & Hnew & Hw & Hk). apply outcome_bind, outcome_io.
  eapply outcome_mono; [by eapply write_spec| |].
  2: { simpl. intros _ t2 Hk2. split; [left|intros k ? ?]; by rewrite Hk2, Hk. }
  intros [] t2 [Hdoc Hk2]. apply outcome_bind.
  assert (∀ t', contents t' = contents t2 → replaces (components path) tmp document t t') as Hbefore.
  { intros t' He. split; [left|intros k ? ?]; by rewrite He, Hk2, Hk. }
  apply outcome_contents; [apply sync_spec| |done]. intros [] t3 He3. apply outcome_bind, outcome_io.
  eapply outcome_mono; [by apply rename_spec| |simpl; intros _ t4 He4; apply Hbefore; congruence].
  intros [] t4 (Hd4 & Hn4 & Hk4). rewrite He3, Hdoc in Hd4.
  assert (∀ k, k ≠ entry (components path) → contents t4 k = contents t k) as Hrest.
  { intros k Hk'. destruct (decide (k = entry tmp)) as [->|Ht]; [congruence|].
    by rewrite Hk4, He3, Hk2, Hk. }
  apply outcome_contents; [apply sync_parent_spec|intros [] t5 ->; done|].
  intros t5 He5. split; [right; congruence|]. intros k ? ?. rewrite He5. by apply Hrest.
Qed.

(** An operation of the system that [read_document] needs fails with [message]. *)
Definition read_fails (path : Path) (t : T) (message : string) : Prop :=
  (open_document (components path) t).2 = Err message ∨
  ∃ t1, open_document (components path) t = (t1, Ok tt) ∧
    ((document_is_file t1).2 = Err message ∨
     ∃ t2, document_is_file t1 = (t2, Ok true) ∧
       (read_document_bytes (MAX_INPUT_BYTES + 1) t2).2 = Err message).

Lemma read_document_back path document t :
  contents t (entry (components path)) = Some document → to_str document = Some document →
  (N.of_nat (String.length document) <= MAX_INPUT_BYTES)%N →
  outcome (read_document path) t (λ text _, text = document)
    (λ e _, ∃ message, e = CliError.Io message ∧ read_fails path t message).
Proof.
  intros Hd Hu Hl. unfold read_document, io, sys_bind, sys_map_err, outcome, read_fails.
  pose proof (open_spec (components path) t) as Ho. unfold outcome in Ho.
  destruct (open_document (components path) t) as [t1 [[]|e]]; simpl; [|by eauto].
  destruct Ho as [Hr1 Hc1]. pose proof (is_file_spec (entry (components path)) document t1 Hr1 ltac:(by rewrite Hc1)) as Hf.
  unfold outcome in Hf. destruct (document_is_file t1) as [t2 [regular|e]] eqn:Hfile; simpl.
  2:{ exists e. split; [done|]. right. exists t1. split; [done|]. left. by rewrite Hfile. }
  destruct Hf as (-> & Hr2 & Hc2). simpl.
  pose proof (read_spec (MAX_INPUT_BYTES + 1) (entry (components path)) document t2
    ltac:(by rewrite Hr2) ltac:(by rewrite Hc2, Hc1) ltac:(lia)) as Hb. unfold outcome in Hb.
  destruct (read_document_bytes _ t2) as [t3 [bytes|e]] eqn:Hread; simpl.
  - subst bytes. rewrite (proj2 (N.ltb_ge _ _) Hl). unfold sys_of. by rewrite Hu.
  - exists e. split; [done|]. right. exists t1. split; [done|]. right. exists t2. by rewrite Hread.
Qed.

(** C33: Replacing a document is atomic: a save that succeeds leaves exactly the new
    document under its name, no temporary file, and every other name as it was,
    and reading the name then gives the document back unless an operation of the
    system fails, whose error is the one reported; a save that fails, at any of
    its steps, leaves the old or the complete new document, and every other name
    but the temporary one as it was.  The document is a [str]. *)
Theorem save_document_atomic name path document t :
  entry (components path) ≠ entry (temporary_in (parent_of path) name) → to_str document = Some document →
  outcome (save_document name path document) t
    (λ _ t', contents t' (entry (components path)) = Some document ∧
       contents t' (entry (temporary_in (parent_of path) name)) = None ∧
       (∀ k, k ≠ entry (components path) → contents t' k = contents t k) ∧
       outcome (read_document path) t' (λ text _, text = document)
         (λ e _, ∃ message, e = CliError.Io message ∧ read_fails path t' message))
    (λ _ t', replaces (components path) (temporary_in (parent_of path) name) document t t').
Proof.
  intros Hne Hu. eapply outcome_mono; [by apply save_document_outcome| |done].
  intros _ t' (Hd & Hn & Hk & Hl). split_and!; [done..|]. by apply read_document_back.
Qed.
End saving.

(** ** A successful exit *)

Lemma run_exit_zero `{RuntimeText, FacadeText, ReplyEncoder} found failed :
  result_exit_code (run_value found failed) = 0%N →
  failed = None ∧ found.(AttemptSnapshot.execution).(RunSnapshot.verified) = true.
Proof.
  unfold result_exit_code.
  change (field "event_output_error" (run_value found failed)) with (option_value Value.String failed).
  change (get "run" (run_value found failed)) with (Some (attempt_value found)).
  change (field "verified" (field "run" (run_value found failed)))
    with (Value.Bool found.(AttemptSnapshot.execution).(RunSnapshot.verified)).
  rewrite (bool_decide_eq_true_2 (is_Some _)) by eauto.
  case_bool_decide as Hf; [done|]. case_bool_decide as Hv; [done|]. intros _.
  destruct failed; [done|]. by injection Hv.
Qed.

Lemma sys_bind_Ok {W E A B} (m : Sys W E A) (k : A → Sys W E B) w w' b :
  sys_bind m k w = (w', Ok b) → ∃ w1 a, m w = (w1, Ok a) ∧ k a w1 = (w', Ok b).
Proof. unfold sys_bind. destruct (m w) as [w1 [a|e]]; [eauto|done]. Qed.

Section apply.
Context {S T : Type}.
Context `{RuntimeText, FacadeText, Os S, HostPolicies S, BackendDispatcher S, Allocator S, WireDecoder}.
Context `{ReplyEncoder, DocumentFiles T, Terminal T, !OsLaws S, !CodecLaws}.

Lemma in_application_Ok {A} (m : applying LinuxLiveHost S A) (w w' : (DisksGraph LinuxLiveHost * S) * T) a :
  in_application m w = (w', Ok a) → m w.1 = (w'.1, Ok a) ∧ w'.2 = w.2.
Proof.
  unfold in_application. destruct (m w.1) as [app [a'|[e| |]]]; by intros; simplify_eq/=.
Qed.

Lemma import_plan_json_Ok handle text (w w' : DisksGraph LinuxLiveHost * S) plan :
  import_plan_json handle text w = (w', Ok plan) →
  ∃ document, Json.from_json text = Ok document ∧ w'.1.(DisksGraph.plans) !! plan = Some document.
Proof.
  unfold import_plan_json. destruct (_ <? _)%N; [done|].
  intros (w1 & document & Hd & (w2 & [] & Hl & (w3 & u & Ha & (w4 & [] & Hc & [= <- <-])
    %sys_bind_Ok)%sys_bind_Ok)%sys_bind_Ok)%sys_bind_Ok.
  exists document. split; [unfold sys_of in Hd; destruct (Json.from_json text); by simplify_eq/=|].
  injection Hc as <-. simpl. by apply lookup_insert_eq.
Qed.

(** Every record of a stream was written, terminated and flushed, in order. *)
Inductive writes : list Value → T → T → Prop :=
| writes_nil t : writes [] t t
| writes_cons event events t t1 t2 :
    write_event event t = (t1, Ok tt) → writes events t1 t2 → writes (event :: events) t t2.

Lemma write_events_None events t t' : write_events events t = (t', None) → writes events t t'.
Proof.
  revert t. induction events as [|event events IH]; simpl; intros t.
  - intros [= ->]. constructor.
  - destruct (write_event event t) as [t1 [[]|e]] eqn:He; [|done]. intros Hw. econstructor; eauto.
Qed.

Lemma output_error_kept stream events (w w' : (DisksGraph LinuxLiveHost * S) * T) failed :
  output_error stream events w = (w', Ok failed) → w'.1 = w.1.
Proof. unfold output_error. destruct stream, (write_events events w.2) as [??]; by intros [= <- _]. Qed.
Lemma output_error_None events (w w' : (DisksGraph LinuxLiveHost * S) * T) :
  output_error true events w = (w', Ok None) → writes events w.2 w'.2.
Proof.
  unfold output_error. destruct (write_events events w.2) as [t failed] eqn:Hw. intros [= <- ->].
  by apply write_events_None.
Qed.

Lemma run_snapshot_Ok id (app app' : DisksGraph LinuxLiveHost * S) found :
  run_snapshot id app = (app', Ok found) →
  app' = app ∧ ∃ record, app.1.(DisksGraph.runs) !! id = Some record ∧
    found.(AttemptSnapshot.error) = record.(RunRecord.error) ∧
    found.(AttemptSnapshot.execution).(RunSnapshot.verified) = is_verified record.(RunRecord.run).
Proof.
  intros (w1 & record & Hr & (w2 & execution & Hx & Hd)%sys_bind_Ok)%sys_bind_Ok.
  unfold run_of, inspecting in Hr. destruct (app.1.(DisksGraph.runs) !! id) as [found'|] eqn:Hl; [|done].
  injection Hr as <- <-. injection Hx as <- Hx. unfold snapshot in Hx.
  destruct (u64_checked_sub _ _); [|done]. simpl in Hx. injection Hx as <-. injection Hd as <- <-. eauto.
Qed.

(** The attempt a streaming command goes on with is retained, with its error, and
    the events are those of the states it published. *)
Lemma apply_streaming_Ok run_id plan doc (w w' : (DisksGraph LinuxLiveHost * S) * T) events id :
  w.1.1.(DisksGraph.plans) !! plan = Some doc →
  apply_streaming run_id plan w = (w', Ok (events, id)) →
  id = run_id ∧ w'.2 = w.2 ∧
  ∃ published r init run error, apply_document_with_updates run_id doc [] w.1 = (w'.1, (published, r)) ∧
    events = delivered_events published ∧
    execution_run_new graph_text serializers serializers' run_id doc = Ok init ∧ chain init published run ∧
    w'.1.1.(DisksGraph.runs) !! run_id = Some (RunRecord.mk run [] error) ∧
    (r = Ok id ∨ is_Some error).
Proof.
  intros Hp. unfold apply_streaming, apply_plan_with_events, export_plan, inspecting. rewrite Hp. simpl.
  pose proof (apply_document_spec run_id doc [] w.1) as Hspec.
  destruct (apply_document_with_updates run_id doc [] w.1) as [app [published r]]. intros He.
  destruct Hspec as (_ & _ & Hr).
  destruct r as [id'|[e| |]]; [| |done..]; [|destruct (DisksGraphError.run_id e) as [id'|] eqn:Hid; [|done]];
    destruct Hr as (Hid' & _ & init & run & Hnew & Hc & Hr); simplify_eq/=; (split_and!; [done..|]);
    exists published; eexists; exists init, run; eexists; rewrite Hr, lookup_insert_eq; split_and!; eauto.
Qed.

End apply.
