(* ===== verification/RuntimeExamples.v ===== *)
(** * Sample runtime

    A machine with one volume group, a backend that creates a volume in it and
    a file system for the marker: the coordinator runs on it, and the theorems
    about the runtime apply to it. *)

From stdpp Require Import relations pretty.
From S2P Require Import Prelude Model Reach Graph GraphOrder GraphValid State.
From S2P Require Import Action Contract Logical Evidence Effects Report.
From S2P Require Import Simulate Wire Observation Correlate Observe Execution.
From S2P Require Import Live Json WireJsonProps Recipes Native Scope.
From S2P Require Import Bindings Targets Checkpoint StoreProps.
From S2P Require Import Host Incident IncidentProps Examples.
From S2P Require Import Logical Evidence Prerequisites Effects Report.
From S2P Require Import PlanOrder Compose ComposeProps.
From S2P Require Import Simulate SimulateProps Wire Observation.
From S2P Require Import Correlate Observe Execution ExecutionProps Live.
From S2P Require Import LiveProps LiveGoal.
From S2P Require Import Examples.
From S2P Require Import Json Examples Recipes Native Scope.
From S2P Require Import ScopeProps Bindings BindingProps Targets.
From S2P Require Import Targets Checkpoint StoreProps Host HostProps.
From S2P Require Import Incident IncidentProps.
From S2P Require Import Coordinator CoordinatorProps.
From S2P Require Import Protocol.

(** ** The storage *)

Definition known (kind : NodeKind) (size : option N) (identity : ExternalId) (block : option BlockFacts)
    (epoch : ProbeEpoch) : Node :=
  Node.mk (NodeSpec.mk kind size)
    (NodeFacts.mk None (Some epoch) Presence.Present [identity] block None).

Definition disk_block : BlockFacts :=
  BlockFacts.mk [[Component.RootDir; Component.Normal "dev"; Component.Normal "sda"]]
    (DeviceNumber.mk 8 0)
    (Some (BlockGeometry.mk 512 None None None None)) (Some false).

(** A disk, a PV and a group; the volume once it exists.  Every pass numbers
    the nodes afresh. *)
Definition group_graph (base : N) (epoch : ProbeEpoch) (created : bool) : NodeGraph :=
  let nodes : gmap NodeId Node :=
    {[(base + 1)%N := known NodeKind.Disk (Some 64%N) (ExternalId.Wwn "0x5000c500a1b2c3d4")
                        (Some disk_block) epoch;
      (base + 2)%N := known NodeKind.LvmPv (Some 64%N) (ExternalId.LvmPvUuid "pv-1") None epoch;
      (base + 3)%N := known (NodeKind.LvmVg "vg" (Some 4%N)) (Some 40%N) (ExternalId.LvmVgUuid "vg-1")
                        None epoch]} in
  let edges := [Dependency.mk (base + 1) (base + 2) DependencyKind.Backs;
                Dependency.mk (base + 2) (base + 3) (DependencyKind.MemberOf MemberRole.LvmPv)] in
  if created
  then NodeGraph.mk
         (<[(base + 4)%N := known (NodeKind.LvmLv (LvmLv.mk "data" LvmLvKind.Linear)) (Some 8%N)
                              (ExternalId.LvmLvUuid "lv-1") None epoch]> nodes)
         (edges ++ [Dependency.mk (base + 3) (base + 4) DependencyKind.Provides]) []
  else NodeGraph.mk nodes edges [].

Definition group_state (base : N) (epoch : ProbeEpoch) (created : bool) : CurrentState :=
  CurrentState.mk (group_graph base epoch created) (MountState.mk []) sample_environment [].

Definition group_record (node : NodeId) (created : bool) : LvmVgObservation :=
  LvmVgObservation.mk node
    (LvmVgEntry.mk "vg" "vg-1" 40 4 (if created then 32 else 40) 1 false).

(** ** The plan: one linear volume *)

Definition volume_action : ProviderAction :=
  ProviderAction.Lvm (LvmAction.CreateLv 3 104 "data" 8 LvmLvKind.Linear).
Definition volume_fragment : PlanFragment :=
  PlanFragment.mk [FragmentAction.mk 0 volume_action] [] [] (FragmentOrigin.Change 104 "create") [].
Definition volume_baseline : HistoricalBaseline :=
  HistoricalBaseline.mk 9 (group_state 0 1 false)
    [CapacityEvidence.mk (AllocationDomain.LvmVolumeGroup 3) 10].
Definition volume_goal : DesiredState :=
  DesiredState.mk
    (let g := group_graph 0 1 false in
     NodeGraph.mk (<[104%N := plain (NodeKind.LvmLv (LvmLv.mk "data" LvmLvKind.Linear))]> g.(NodeGraph.nodes))
       (g.(NodeGraph.dependencies) ++ [Dependency.mk 3 104 DependencyKind.Provides]) [])
    (MountSpec.mk [] []) BootSpec.Unmanaged [].
Definition volume_policy : ProtectedScope := ProtectedScope.mk [] [] [].
Definition volume_plan : ExecutionPlan :=
  Eval vm_compute in plan_or_empty (compose_plan_with_ordering
    volume_baseline.(HistoricalBaseline.snapshot) [volume_fragment] []
    volume_baseline.(HistoricalBaseline.capacity_evidence)).
Definition volume_document : PlanDocument :=
  PlanDocument.mk PLAN_SCHEMA_VERSION ACTION_SEMANTICS_VERSION 7 volume_baseline volume_goal volume_policy
    volume_plan.(ExecutionPlan.actions) volume_plan.(ExecutionPlan.dependencies).

(** The storage with the volume, as an incident compares it. *)
Definition incident_document : PlanDocument :=
  PlanDocument.mk PLAN_SCHEMA_VERSION ACTION_SEMANTICS_VERSION 7
    (HistoricalBaseline.mk 9 (without_epochs (group_state 5000 1 true)) []) volume_goal volume_policy [] [].

(** ** The machine *)

Module Machine.
Record Machine := mk {
  active_file : option string;
  temporary_file : option string;
  opened_file : option string;
  generation : N;
  created : bool }.
End Machine.
Abbreviation Machine := Machine.Machine.
Implicit Types (s : Machine).

Definition set_active (contents : option string) s : Machine :=
  Machine.mk contents s.(Machine.temporary_file) s.(Machine.opened_file) s.(Machine.generation)
    s.(Machine.created).
Definition set_temporary (contents : option string) s : Machine :=
  Machine.mk s.(Machine.active_file) contents s.(Machine.opened_file) s.(Machine.generation)
    s.(Machine.created).
Definition set_opened (contents : option string) s : Machine :=
  Machine.mk s.(Machine.active_file) s.(Machine.temporary_file) contents s.(Machine.generation)
    s.(Machine.created).

Definition always {A} (a : A) : Sys Machine Errno A := λ s, (s, Ok a).
Definition directory_stat : Stat := Stat.mk 1 10 0 (N.lor 16384 448) 2 0.
Definition file_stat (inode : N) (size : Z) : Stat := Stat.mk 1 inode 0 (N.lor 32768 384) 1 size.

#[global] Instance machine_os : Os Machine := {
  geteuid _ := 0%N;
  errno_text _ := "errno"%string;
  fstat_directory := always directory_stat;
  open_lock := always tt;
  fstat_lock := always (file_stat 11 0);
  stat_lock_name := always (file_stat 11 0);
  flock := always tt;
  close_lock s := s;
  duplicate_directory := always tt;
  duplicate_lock := always tt;
  open_active s := match s.(Machine.active_file) with
                   | Some contents => (set_opened (Some contents) s, Ok tt)
                   | None => (s, Err Errno.NOENT)
                   end;
  fstat_active s := (s, match s.(Machine.opened_file) with
                        | Some contents => Ok (file_stat 12 (Z.of_nat (String.length contents)))
                        | None => Err Errno.NOENT
                        end);
  read_active n s := (s, match s.(Machine.opened_file) with
                         | Some contents => Ok (String.substring 0 n contents)
                         | None => Err Errno.NOENT
                         end);
  stat_active_name s := (s, match s.(Machine.active_file) with
                            | Some contents => Ok (file_stat 12 (Z.of_nat (String.length contents)))
                            | None => Err Errno.NOENT
                            end);
  create_temporary s := (set_temporary (Some ""%string) s, Ok tt);
  chmod_temporary := always tt;
  write_temporary bytes s := (set_temporary (Some bytes) s, Ok tt);
  sync_temporary := always tt;
  publish_temporary s := match s.(Machine.active_file), s.(Machine.temporary_file) with
                         | None, Some contents =>
                             (set_temporary None (set_active (Some contents) s), Ok tt)
                         | _, _ => (s, Err Errno.EXIST)
                         end;
  unlink_temporary s := (set_temporary None s, Ok tt);
  unlink_active s := (set_active None s, Ok tt);
  sync_directory := always tt }.

(** A file system obeys the laws the store relies on. *)
#[global] Instance machine_laws : OsLaws Machine.
Proof.
  refine {| active := Machine.active_file; temporary := Machine.temporary_file;
            opened := Machine.opened_file |}.
  all: try (intros s; reflexivity).
  all: try (intros x s; reflexivity).
  all: try (intros s; unfold quiet, outcome; simpl; repeat case_match; simplify_eq/=; by eauto).
  all: try (intros x s; unfold quiet, outcome; simpl; repeat case_match; simplify_eq/=; by eauto).
  intros s. simpl. destruct (Machine.active_file s) eqn:E; simpl; by rewrite ?E.
Defined.

(** ** Texts *)

Definition volume_targets : list TargetFingerprint :=
  [TargetFingerprint.mk 3 [ExternalId.LvmVgUuid "vg-1"]].
Definition digest_text : string := String.concat "" (repeat "0123456789abcdef"%string 4).
Definition lvm_backend : BackendId := "native-lvm"%string.
Definition volume_attempt : ActiveAttempt :=
  ActiveAttempt.mk CHECKPOINT_SCHEMA_VERSION 42 7 0 None volume_action volume_targets digest_text lvm_backend.

Definition attempt_bytes : string := "{attempt}".

#[global] Instance sample_text : RuntimeText := {
  text_uuid := {| parse_uuid _ := None; hyphenated _ := ""%string |};
  text_mount := {| mount_json _ := None |};
  text_codec := {|
    attempt_text a := if bool_decide (a = volume_attempt) then Some attempt_bytes else None;
    parse_attempt text := if bool_decide (text = attempt_bytes) then Some volume_attempt else None;
    attempt_value a := if bool_decide (a = volume_attempt) then Some (Value.String "attempt") else None;
    parse_value text := if bool_decide (text = attempt_bytes) then Some (Value.String "attempt") else None;
    plan_encoder := table_encoder [volume_document; incident_document];
    digest_display := sample_display;
    digest_json := sample_serializers;
    digest_json' := sample_serializers;
    sha256_hex _ := digest_text |};
  graph_text := sample_display;
  correlation_text := correlation_display;
  target_text _ := "target"%string;
  binding_text _ := "binding"%string;
  checkpoint_text _ := "checkpoint"%string;
  host_text _ := "host"%string;
  dispatch_text _ := "dispatch"%string;
  run_text _ := "run"%string;
  debug_text text := text;
  serializers := sample_serializers;
  serializers' := sample_serializers }.

#[global] Instance sample_codec_laws : CodecLaws.
Proof.
  split; intros attempt text; simpl; repeat case_bool_decide; naive_solver.
Qed.

(** ** Host and backend *)

Definition set_generation (generation : N) (created : bool) s : Machine :=
  Machine.mk s.(Machine.active_file) s.(Machine.temporary_file) s.(Machine.opened_file) generation created.

Definition grant {A} (a : A) s : Machine * A := (s, a).

#[global] Instance sample_policies : HostPolicies Machine := {
  probe_instance_id _ := 77%N;
  fresh_baseline_id _ := 78%N;
  probe_once s :=
    let epoch := (s.(Machine.generation) + 1)%N in
    let base := (epoch * 1000)%N in
    (set_generation epoch s.(Machine.created) s,
     ProbeSnapshot.mk epoch [group_record (base + 3) s.(Machine.created)]
       (group_state base epoch s.(Machine.created)));
  availability _ _ := grant (OperationAvailability.Available lvm_backend);
  scope_coverage _ _ _ := grant LiveCheckStatus.Satisfied;
  consumer_exclusion _ _ _ := grant LiveCheckStatus.Satisfied;
  mount_exclusion _ _ _ := grant LiveCheckStatus.Satisfied;
  final_scope _ _ := grant LiveCheckStatus.Satisfied;
  preservation context _ := grant (default_preservation context);
  authorize _ := grant LiveCheckStatus.Satisfied;
  authorize_destructive _ _ := grant LiveCheckStatus.Satisfied }.

(** The backend reports progress and creates the volume. *)
#[global] Instance sample_dispatcher : BackendDispatcher Machine := {
  backend_for _ _ := lvm_backend;
  execute _ s := Progress "creating" (λ _,
    Done (set_generation s.(Machine.generation) true s)
      (Ok (ExecutionReceipt.mk BackendOutcome.Succeeded (Some "lv-1"%string) None))) }.

(** ** A session *)

Definition volume_run : ExecutionRun :=
  match execution_run_new sample_display sample_serializers sample_serializers 42 volume_document with
  | Ok run => run
  | Err _ => initial_run
  end.
Definition volume_world : World LinuxLiveHost Machine :=
  World.mk volume_run (coordinator_new volume_run) None (Machine.mk None None None 1 false) [] [].
Definition volume_end : World LinuxLiveHost Machine := (execute_run volume_world).1.
Definition volume_summary : ExecutionSummary :=
  match (execute_run volume_world).2 with
  | Ok found => found
  | Err _ => ExecutionSummary.mk 0 false None None
  end.
Lemma volume_ran : execute_run volume_world = (volume_end, Ok volume_summary).
Proof. vm_compute. reflexivity. Qed.

(** The coordinator creates the volume, verifies it and the goal, and leaves no
    marker behind. *)
Example volume_created :
  match execute_run volume_world with
  | (w, Ok found) =>
      found.(ExecutionSummary.verified) = true ∧ found.(ExecutionSummary.stopped_action) = None ∧
      invoked w = [0] ∧ w.(World.machine).(Machine.active_file) = None ∧
      w.(World.machine).(Machine.created) = true ∧
      (RunEvent.kind <$> delivered_events w.(World.published)) =
        [RunEventKind.ActionState 0 ActionRunState.Checking;
         RunEventKind.Admission 0 true;
         RunEventKind.ActionState 0 ActionRunState.Admitted_;
         RunEventKind.ActionState 0 ActionRunState.Running;
         RunEventKind.Progress 0 "creating";
         RunEventKind.ActionState 0 ActionRunState.Verifying;
         RunEventKind.ActionState 0 ActionRunState.Verified;
         RunEventKind.GoalVerification true]
  | _ => False
  end.
Proof. vm_compute. split_and!; reflexivity. Qed.

Lemma volume_attempted : attempt volume_document volume_run.
Proof.
  exists sample_display, sample_serializers, sample_serializers, 42%N, volume_run.
  split_and!; [apply sample_serializers_faithful..| |apply rtc_refl].
  vm_compute. reflexivity.
Qed.

Lemma volume_started : session_from volume_run volume_world.
Proof. exists volume_world. split_and!; [done..|apply rtc_refl]. Qed.

Lemma volume_session : session_from volume_run volume_end.
Proof. exists volume_world. split_and!; [done..|]. unfold volume_end. apply rtc_once, cs_run. Qed.

(** ** Witnesses *)

Lemma backend_calls_protected_witness :
  invoked volume_end = [0] ∧ NoDup (invoked volume_end) ∧
  ∀ i, i ∈ volume_end.(World.invocations) → invocation_ok volume_run i.
Proof.
  split; [vm_compute; reflexivity|].
  destruct (backend_calls_protected volume_document volume_run volume_end
    (attempt_reachable _ _ volume_attempted) volume_session) as (Hn & Hi & _).
  by split.
Defined.

Lemma latched_coordinator_refuses_witness :
  execute_run (set_halted true volume_world) =
    (add_published (add_published (set_halted true volume_world)),
     Err (Reported CoordinatorError.Stopped)).
Proof. apply (latched_coordinator_refuses (set_halted true volume_world)). reflexivity. Defined.

Lemma coordinated_run_reaches_goal_witness :
  ∃ observation known,
    correlations volume_end.(World.coordinator).(Coordinator.bindings) volume_end.(World.run) observation
      = Ok known ∧
    goal_established (run_context volume_end.(World.run)) observation known.
Proof.
  destruct (coordinated_run_reaches_goal volume_document volume_run volume_world volume_end
    volume_summary) as (observation & known & _ & Hk & Hg & _).
  - intros a Ha. apply list_elem_of_In in Ha. vm_compute in Ha.
    destruct Ha as [<-|[]]; vm_compute; discriminate.
  - apply NoDup_nil_2.
  - apply volume_attempted.
  - apply volume_started.
  - apply volume_ran.
  - vm_compute. reflexivity.
  - exists observation, known. by split.
Defined.

(** The admission of the creation. *)
Definition checking_run : ExecutionRun := (begin_check 0 volume_run).1.
Definition probed_host : LinuxLiveHost * Machine := (linux_probe (None, Machine.mk None None None 1 false)).1.
Definition sample_or {A E} (default : A) (r : result A E) : A :=
  match r with Ok a => a | Err _ => default end.
Definition probed_group : ProbedObservation :=
  sample_or (ProbedObservation.mk srv_before [] [])
    (linux_probe (S:=Machine) (None, Machine.mk None None None 1 false)).2.
Definition volume_lease : ExecutionLease :=
  sample_or (mk_lease 0 0 []) (lease_of checking_run 0).
Definition volume_decision : AdmissionDecision :=
  sample_or (AdmissionDecision.mk (AdmissionReport.mk 0 0 srv_before LiveCheckStatus.Satisfied [] []) None)
    (linux_check_admission checking_run 0 probed_group (bindings_new checking_run) volume_lease probed_host).2.
Definition volume_endpoint : ResolvedAction :=
  ResolvedAction.mk 42 0 volume_action lvm_backend (ObservationReference.mk 77 2)
    (ResolvedTarget.mk 3 2003 "vg-1" "vg") None None.

Lemma linux_endpoint_granted_witness :
  endpoint_granted (S:=Machine) checking_run 0 probed_group (bindings_new checking_run) volume_lease
    volume_decision.(AdmissionDecision.report) volume_endpoint.
Proof.
  apply (linux_endpoint_granted checking_run 0 probed_group (bindings_new checking_run) volume_lease
    probed_host probed_host volume_decision volume_endpoint); vm_compute; reflexivity.
Defined.

(** The created volume, found again under the number of another pass. *)
Lemma session_outputs_witness :
  identified volume_end.(World.coordinator).(Coordinator.bindings)
    (LiveObservation.mk (ObservationReference.mk 77 9) (group_state 9000 9 true)) 104 9004.
Proof.
  destruct (session_outputs volume_document volume_run volume_end
    (attempt_reachable _ _ volume_attempted) volume_session) as [_ Hr].
  specialize (Hr 104%N (LiveObservation.mk (ObservationReference.mk 77 9) (group_state 9000 9 true))).
  destruct (resolve _ _ _ _) as [id|e] eqn:He.
  - revert He. vm_compute. intros [= <-]. exact Hr.
  - exfalso. revert He. vm_compute. discriminate.
Defined.

Lemma check_scope_sound_witness :
  ∃ ids, scope_unchanged (group_state 0 1 false) (group_state 1000 2 false) 3 ids.
Proof.
  pose proof (check_scope_sound (group_state 0 1 false) (group_state 1000 2 false) 3) as Hc.
  assert (mount_text_faithful) as Hf by (by intros m m' t).
  specialize (Hc Hf (NoDup_nil_2 : NoDup [])).
  destruct (check_scope _ _ _) as [[]|e] eqn:He; [exact Hc|].
  exfalso. revert He. vm_compute. discriminate.
Defined.

(** Published, then removed. *)
Lemma marker_store_spec_witness :
  let '(s, r) := arm false volume_attempt volume_world.(World.machine) in
  r = (false, Ok tt) ∧ marked s volume_attempt.
Proof.
  destruct (marker_store_spec volume_attempt volume_world.(World.machine)) as [Ha _].
  specialize (Ha false). destruct (arm _ _ _) as [s [flag [[]|e]]] eqn:He.
  - destruct Ha as (_ & -> & _ & Hm). by split.
  - exfalso. revert He. vm_compute. discriminate.
Defined.

(** * A sample incident

    The machine of [RuntimeExamples] after a crash between the creation of the
    volume and the removal of the marker: the effect is found, reviewed and
    acknowledged. *)

(** The nodes keep their numbers; the epochs advance. *)
#[local] Instance stable_policies : HostPolicies Machine := {
  probe_instance_id _ := 77%N;
  fresh_baseline_id _ := 78%N;
  probe_once s :=
    let epoch := (s.(Machine.generation) + 1)%N in
    (set_generation epoch s.(Machine.created) s,
     ProbeSnapshot.mk epoch [group_record 5003 s.(Machine.created)]
       (group_state 5000 epoch s.(Machine.created)));
  availability _ _ := grant (OperationAvailability.Available lvm_backend);
  scope_coverage _ _ _ := grant LiveCheckStatus.Satisfied;
  consumer_exclusion _ _ _ := grant LiveCheckStatus.Satisfied;
  mount_exclusion _ _ _ := grant LiveCheckStatus.Satisfied;
  final_scope _ _ := grant LiveCheckStatus.Satisfied;
  preservation context _ := grant (default_preservation context);
  authorize _ := grant LiveCheckStatus.Satisfied;
  authorize_destructive _ _ := grant LiveCheckStatus.Satisfied }.

#[local] Instance granting_policy : IncidentAcknowledgmentPolicy Machine :=
  λ _ _, grant LiveCheckStatus.Satisfied.

#[local] Instance incident_laws : WireLaws := table_laws [volume_document; incident_document].

Lemma stable_probe_quiet (s : Machine) : files (probe_once s).1 = files s.
Proof. done. Qed.

Definition crashed : Machine := Machine.mk (Some attempt_bytes) None None 1 true.

Definition review_or (r : result (option IncidentReview) (Failure IncidentError)) : IncidentReview :=
  match r with
  | Ok (Some review) => review
  | _ => IncidentReview.mk (IncidentInspection.mk volume_attempt srv_before IncidentAssessment.Indeterminate)
           0 (0, 0)%N
  end.
Definition reviewed : Machine := (review_incident (S:=Machine) 500 crashed).1.
Definition crash_review : IncidentReview := review_or (review_incident (S:=Machine) 500 crashed).2.

(** Review, then acknowledge: the effect was observed and the marker is gone. *)
Example incident_acknowledged :
  match acknowledge_incident crash_review 500 reviewed with
  | (s, Ok fresh) => s.(Machine.active_file) = None ∧
      fresh.(IncidentInspection.assessment) = IncidentAssessment.EffectObserved
  | _ => False
  end.
Proof. vm_compute. by split. Qed.

(** Another token clears nothing. *)
Example incident_refused :
  acknowledge_incident crash_review 501 reviewed =
    (reviewed, Err (Reported IncidentError.ConfirmationMismatch)).
Proof. reflexivity. Qed.

(** The reading the acknowledgment was decided on, and the one of an inspection. *)
Definition inspection_or (r : result IncidentInspection (Failure IncidentError)) : IncidentInspection :=
  match r with Ok i => i | Err _ => crash_review.(IncidentReview.inspection) end.
Definition cleared : Machine := (acknowledge_incident crash_review 500 reviewed).1.
Definition crash_fresh : IncidentInspection :=
  inspection_or (acknowledge_incident crash_review 500 reviewed).2.
Lemma acknowledged_crash : acknowledge_incident crash_review 500 reviewed = (cleared, Ok crash_fresh).
Proof. vm_compute. reflexivity. Qed.

Definition inspected : Machine := (inspect_incident crashed).1.
Definition crash_inspection : IncidentInspection :=
  match (inspect_incident crashed).2 with
  | Ok (Some i) => i | _ => crash_review.(IncidentReview.inspection) end.
Lemma inspected_crash : inspect_incident crashed = (inspected, Ok (Some crash_inspection)).
Proof. vm_compute. reflexivity. Qed.
Lemma crash_effect :
  crash_inspection.(IncidentInspection.attempt) = volume_attempt ∧
  crash_inspection.(IncidentInspection.assessment) = IncidentAssessment.EffectObserved.
Proof. vm_compute. by split. Qed.


Lemma incident_inspection_sound_witness :
  effect_present
    crash_inspection.(IncidentInspection.fresh_state).(LiveObservation.snapshot).(CurrentState.graph)
    "vg-1" "data" 8 LvmLvKind.Linear.
Proof.
  pose proof (outcome_Ok _ _ _ _ _ _
    (incident_inspection_sound stable_probe_quiet crashed) inspected_crash) as Ho.
  destruct Ho as (_ & _ & Hi).
  destruct crash_effect as [Ha Hs]. specialize (Hi Hs). rewrite Ha in Hi.
  destruct Hi as (vg & planned & name & size & layout & fingerprint & uuid & Hact & Hf & _ & Hv & Hp).
  injection Hact as <- <- <- <- <-. apply list_elem_of_singleton in Hf. subst fingerprint.
  injection Hv as <-. exact Hp.
Defined.
