(* ===== verification/AppExamples.v ===== *)
(** * Sample application

    The machine of [RuntimeExamples] behind the application, its protocol and
    the transport: a plan is imported and applied, a context is opened, called
    and closed, and the theorems apply. *)

From stdpp Require Import relations.
From S2P Require Import Prelude Model Reach Graph GraphOrder GraphValid State Action Contract.
From S2P Require Import Logical Evidence Prerequisites Effects Report PlanOrder Compose ComposeProps Simulate.
From S2P Require Import SimulateProps Wire Observation Correlate Observe Execution ExecutionProps Live LiveProps.
From S2P Require Import LiveGoal Draft Build Session Documents Json.
From S2P Require Import WireJsonProps Native Recipes Scope.
From S2P Require Import Bindings BindingProps Targets Checkpoint.
From S2P Require Import StoreProps Host Incident.
From S2P Require Import IncidentProps Coordinator CoordinatorProps Protocol Facade FacadeProps Requests.
From S2P Require Import RequestProps Transport TransportProps Policy Registry Adapters Cli Examples RuntimeExamples.

#[local] Open Scope string_scope.
#[local] Open Scope list_scope.

(** ** Texts and encoders *)

#[global] Instance sample_facade_text : FacadeText := {
  edit_text _ := "edit"; freeze_text _ := "freeze"; rebase_text _ := "rebase";
  draft_document_text _ := "draft"; draft_build_text _ := "build"; plan_document_text _ := "plan";
  lease_text _ := "lease"; probe_observation_text _ := "probe"; coordinator_text _ := "coordinator";
  incident_text _ := "incident"; composition_text _ := "composition";
  action_simulation_text _ := "simulation"; plan_simulation_text _ := "simulation";
  draft_codec := sample_codec }.

#[global] Instance sample_allocator : Allocator Machine := λ _, None.

#[global] Instance sample_reply_encoder : ReplyEncoder := {
  observation_value _ := Value.Null; reference_value _ := Value.Null; prerequisite_value _ := Value.Null;
  postcondition_value _ := Value.Null; aspect_value _ := Value.Null; source_map_value _ := Value.Null;
  receipt_value _ := Ok Value.Null; preview_value _ := Ok Value.Null; draft_document_value _ := Ok Value.Null;
  plan_document_value _ := Ok Value.Null; operation_value _ := Value.Null; backend_value _ := Value.Null;
  inspection_value _ := Ok Value.Null; baseline_value _ := Ok Value.Null; plan_draft_value _ := Ok Value.Null;
  correlations_value _ := Ok Value.Null; status_value _ := Ok Value.Null; diagnostics_value _ := Ok Value.Null;
  to_text v := Some (value_text v) }.

#[global] Instance sample_acknowledgment : IncidentAcknowledgmentPolicy Machine := read_only_acknowledgment.

Definition sample_machine : Machine := Machine.mk None None None 1 false.
Definition sample_app : DisksGraph LinuxLiveHost * Machine := (with_root None, sample_machine).
Definition sample_fresh : Fresh := Fresh.mk 11 12 13 14 115 16 42 18 19.

(** ** An applied plan *)

Definition imported_app : DisksGraph LinuxLiveHost * Machine := (import_plan 5 volume_document sample_app).1.
Definition applied_app : DisksGraph LinuxLiveHost * Machine :=
  (apply_document 42 volume_document [] imported_app).1.
Definition applied_snapshot : AttemptSnapshot :=
  sample_or (AttemptSnapshot.mk (RunSnapshot.mk 0 0 [] false false 0 None None) [] None)
    (run_snapshot 42 applied_app).2.

Lemma imported_reachable : rtc app_step sample_app imported_app.
Proof. apply rtc_once, as_plan. Qed.

Lemma application_invariant_witness : app_ok imported_app.1.
Proof. apply (application_invariant None sample_machine imported_app), imported_reachable. Defined.

Lemma imported_plan : imported_app.1.(DisksGraph.plans) !! 5%N = Some volume_document.
Proof. vm_compute. reflexivity. Qed.

Lemma applied_ok : apply_document 42 volume_document [] imported_app = (applied_app, Ok 42%N).
Proof. vm_compute. reflexivity. Qed.
Lemma applied_read : run_snapshot 42 applied_app = (applied_app, Ok applied_snapshot).
Proof. vm_compute. reflexivity. Qed.

Lemma applied_document_reaches_goal_witness :
  ∃ run observation known,
    applied_app.1.(DisksGraph.runs) !! 42%N = Some (RunRecord.mk run [] None) ∧
    applied_snapshot.(AttemptSnapshot.execution).(RunSnapshot.observation) = Some observation ∧
    (run_context run).(ExecutionContext.requested_goal) = volume_document.(PlanDocument.requested_goal) ∧
    goal_established (run_context run) observation known.
Proof.
  apply (applied_document_reaches_goal 42 volume_document [] imported_app applied_app 42 applied_snapshot).
  - intros a Ha. apply list_elem_of_In in Ha. vm_compute in Ha.
    destruct Ha as [<-|[]]; vm_compute; discriminate.
  - apply NoDup_nil_2.
  - apply sample_serializers_faithful.
  - apply sample_serializers_faithful.
  - apply applied_ok.
  - apply applied_read.
  - vm_compute. reflexivity.
Defined.

(** ** Requests *)

Definition saved_world : JsonProtocol * Machine := (protocol_new imported_app.1 false, imported_app.2).
Definition sample_world : JsonProtocol * Machine := (protocol_new (with_root None) true, sample_machine).
Definition probed_world : JsonProtocol * Machine := (call_with_policy sample_fresh Request.Probe sample_world).1.

Lemma saved_inputs_isolated_witness :
  (call_with_policy sample_fresh (Request.ApplyBlocking 5) saved_world).1.2 = saved_world.2.
Proof.
  destruct (saved_inputs_isolated sample_fresh (Request.ApplyBlocking 5) 5 saved_world) as [[_ Hs] _];
    [reflexivity|exact Hs].
Defined.

Lemma probed_inputs : call_inputs sample_fresh Request.Probe sample_world.
Proof. by split. Qed.

Lemma protocol_invariant_witness : protocol_ok probed_world.1.
Proof.
  apply (protocol_invariant None true sample_machine probed_world).
  apply rtc_once, (cl_call _ sample_fresh Request.Probe), probed_inputs.
Defined.

(** A probe that reads nothing and changes nothing. *)
Definition idle_probe (s : Machine) : Machine * ProbeSnapshot :=
  (s, ProbeSnapshot.mk 2 [] (group_state 2000 2 false)).

Section idle.
#[local] Instance idle_policies : HostPolicies Machine := read_only_policies (λ _, 77%N) (λ _, 78%N) idle_probe.
#[local] Instance idle_dispatcher : BackendDispatcher Machine := disabled_dispatcher lvm_backend.
#[local] Instance idle_laws : WireLaws := table_laws [volume_document; incident_document].

Lemma default_host_never_writes_witness :
  active (call_with_policy sample_fresh (Request.ApplyBlocking 5)
            (protocol_new imported_app.1 true, sample_machine)).1.2 = None ∧
  (attempt_run volume_run None sample_machine).1.(World.invocations) = [].
Proof.
  destruct (default_host_never_writes (λ _, 77%N) (λ _, 78%N) idle_probe lvm_backend (λ _, eq_refl)
    sample_fresh (Request.ApplyBlocking 5) 5 (protocol_new imported_app.1 true, sample_machine)
    volume_run None sample_machine
    (IncidentReview.mk (IncidentInspection.mk volume_attempt srv_before IncidentAssessment.Indeterminate) 0 (0%N, 0%N)) 0)
    as (Ha & _ & Hi & _).
  split; [exact Ha|exact Hi].
Defined.
End idle.

(** ** A context *)

(** Requests and configurations by their text. *)
#[global] Instance sample_decoder : RequestDecoder := {
  parse_value text := Ok (Value.Object [("abi_version", Value.Number 1); ("protocol_version", Value.Number 1);
                                        ("method", Value.String text)]);
  envelope_of v := Ok match get "method" v with
                      | Some (Value.String "import") => Request.PlanImport volume_document
                      | Some (Value.String "apply") => Request.ApplyStart sample_fresh.(Fresh.handle)
                      | _ => Request.Probe
                      end }.
#[global] Instance sample_config_decoder : ConfigDecoder := λ _, Ok (Config.mk 1 1 [] (Some [])).

(** One thread opens a context, another probes, and the first closes it. *)
Definition reserved_process : Transport :=
  set_reserved 1 (insert 1%N (Config.mk 1 1 [] (Some []))) transport_new.
Definition spawned_process : Transport :=
  spawn_context 1 (Config.mk 1 1 [] (Some [])) 2 reserved_process.
Definition sample_context (phase : Phase) (worker : Worker) (queue : option Message) : Context :=
  Context.mk true phase worker queue None None None.
Definition sample_serving : Worker := Worker.Serving (protocol_new (with_root None) true) Task.Idle.
Definition ready_process : Transport :=
  put_context 1 (sample_context (Phase.Opening 1) sample_serving None) spawned_process.
Definition opened_process : Transport :=
  return_to 1 (Ok (transport_reply (Ok (opened_value 1 (sample_context (Phase.Opening 1) sample_serving None)))))
    (record (Event.Opened 1) (put_context 1 (sample_context Phase.Listed sample_serving None) ready_process)).
Definition calling_process : Transport := set_found (insert 2%N (1%N, "probe")) opened_process.
Definition waiting_context : Context :=
  Context.mk true Phase.Listed sample_serving (Some (Message.Call Request.Probe)) (Some 2%N) None None.
Definition waiting_process : Transport :=
  set_found (delete 2%N) (put_context 1 waiting_context calling_process).

Lemma opened_reachable : rtc (transport_step (S:=Machine)) transport_new opened_process.
Proof.
  apply (rtc_l _ _ reserved_process).
  { apply st_open. exact (so_reserve transport_new 1 "config" (Config.mk 1 1 [] (Some [])) 1 eq_refl eq_refl eq_refl). }
  apply (rtc_l _ _ spawned_process).
  { apply st_open. exact (so_spawn reserved_process 1 (Config.mk 1 1 [] (Some [])) 2 eq_refl eq_refl). }
  apply (rtc_l _ _ ready_process).
  { apply st_worker. exact (sw_ready spawned_process 1
      (sample_context (Phase.Opening 1) Worker.Starting None) None eq_refl eq_refl). }
  apply rtc_once, st_open. exact (so_opened ready_process 1 1
    (sample_context (Phase.Opening 1) sample_serving None) (protocol_new (with_root None) true)
    eq_refl eq_refl eq_refl).
Qed.

Lemma waiting_reachable : rtc (transport_step (S:=Machine)) transport_new waiting_process.
Proof.
  etrans; [apply opened_reachable|]. apply (rtc_l _ _ calling_process).
  { apply st_call, sc_found; [done|reflexivity..]. }
  apply rtc_once, st_call. exact (sc_forwards calling_process 2 1 "probe"
    (sample_context Phase.Listed sample_serving None) Request.Probe eq_refl eq_refl eq_refl eq_refl eq_refl eq_refl).
Qed.

(** The close, without the call. *)
Definition removed_process : Transport :=
  put_context 1 (sample_context (Phase.Removed 1) sample_serving None) opened_process.
Definition joining_process : Transport :=
  put_context 1 (sample_context (Phase.Joining 1) sample_serving None) removed_process.
Definition stopping_process : Transport :=
  put_context 1 (sample_context (Phase.Stopping 1) sample_serving (Some Message.Stop)) joining_process.
Definition stopped_process : Transport :=
  put_context 1 (sample_context (Phase.Stopping 1) Worker.Exited None) stopping_process.
Definition closed_process : Transport :=
  return_to 1 (Ok (transport_reply (Ok (Value.Object [("closed", Value.Number 1)]))))
    (record (Event.Joined 1) (put_context 1 (sample_context Phase.Closed Worker.Exited None) stopped_process)).

Lemma closed_reachable : rtc (transport_step (S:=Machine)) transport_new closed_process.
Proof.
  etrans; [apply opened_reachable|]. apply (rtc_l _ _ removed_process).
  { apply st_close. exact (sd_remove opened_process 1 1 (sample_context Phase.Listed sample_serving None)
      eq_refl eq_refl). }
  apply (rtc_l _ _ joining_process).
  { apply st_close. exact (sd_lock removed_process 1 1 (sample_context (Phase.Removed 1) sample_serving None)
      eq_refl eq_refl eq_refl). }
  apply (rtc_l _ _ stopping_process).
  { apply st_close. exact (sd_stop joining_process 1 1 (sample_context (Phase.Joining 1) sample_serving None)
      eq_refl eq_refl eq_refl eq_refl). }
  apply (rtc_l _ _ stopped_process).
  { apply st_worker. exact (sw_stop stopping_process 1
      (sample_context (Phase.Stopping 1) sample_serving (Some Message.Stop)) (protocol_new (with_root None) true)
      eq_refl eq_refl eq_refl). }
  apply rtc_once, st_close. exact (sd_join stopped_process 1 1
    (sample_context (Phase.Stopping 1) Worker.Exited None) eq_refl eq_refl eq_refl).
Qed.

Lemma transport_bounded_witness :
  (waiting_process.(Transport.slots) ≤ MAX_CONTEXTS)%nat ∧ NoDup (opened_ids waiting_process.(Transport.log)).
Proof.
  destruct (transport_bounded (S:=Machine) waiting_process waiting_reachable) as (_ & Hb & Hn & _). by split.
Defined.

Lemma probe_returns :
  call_returns (S:=Machine) Request.Probe (protocol_new (with_root None) true).
Proof.
  exists sample_fresh, sample_machine, (call_with_policy sample_fresh Request.Probe sample_world).1,
    (call_with_policy sample_fresh Request.Probe sample_world).2.
  eexists. split_and!; [exact probed_inputs|reflexivity|vm_compute; reflexivity].
Qed.


Lemma close_joins_worker_witness :
  is_listed 1 closed_process = false ∧
  ∀ context, closed_process.(Transport.contexts) !! 1%N = Some context → context.(Context.worker) = Worker.Exited.
Proof.
  destruct (close_joins_worker (S:=Machine) closed_process 1
    (take 2 closed_process.(Transport.log)) (drop 3 closed_process.(Transport.log)) closed_reachable)
    as (_ & Hl & Hc); [reflexivity|]. by split.
Defined.

(** *** A job

    A thread imports the plan and starts it; the worker applies it and tells the
    mailbox of the first state of the run. *)
Definition job_context (worker : Worker) (queue : option Message) (calling : option N) (response : option string)
    (job : option N) : Context := Context.mk true Phase.Listed worker queue calling response job.
Definition empty_protocol : JsonProtocol := protocol_new (with_root None) true.
Definition import_call : (JsonProtocol * Machine) * result Value (Failure ProtocolError) :=
  call_with_policy sample_fresh (Request.PlanImport volume_document) (empty_protocol, sample_machine).
Definition import_reply : string :=
  match worker_reply import_call.2 with Some (text, _) => text | None => "" end.
Abbreviation plan_protocol := import_call.1.1 (only parsing).
Definition job_call := protocol_apply sample_fresh sample_fresh.(Fresh.handle) (plan_protocol, sample_machine).
Definition job_error : option Value :=
  match execute_job job_call.2.2 with Some (error, _) => error | None => None end.
Definition first_update : AttemptSnapshot * EventsPage :=
  default (applied_snapshot, EventsPage.mk [] 0 false) (head job_call.2.1).

Lemma import_called :
  call_with_policy sample_fresh (Request.PlanImport volume_document) (empty_protocol, sample_machine) =
  (import_call.1, import_call.2).
Proof. unfold import_call. by destruct (call_with_policy _ _ _). Qed.
Lemma job_called :
  protocol_apply sample_fresh sample_fresh.(Fresh.handle) (plan_protocol, sample_machine) =
  (job_call.1, (job_call.2.1, job_call.2.2)).
Proof. unfold job_call. by destruct (protocol_apply _ _ _) as [? []]. Qed.
Lemma import_served : worker_reply import_call.2 = Some (import_reply, false).
Proof. vm_compute. reflexivity. Qed.
Lemma job_executed : execute_job job_call.2.2 = Some (job_error, false).
Proof. vm_compute. reflexivity. Qed.
Lemma job_updates : job_call.2.1 = first_update :: tail job_call.2.1.
Proof. vm_compute. reflexivity. Qed.

#[local] Opaque import_call import_reply job_call job_error first_update.

Lemma job_told : ∃ st, rtc (transport_step (S:=Machine)) transport_new st ∧
  published 1 st.(Transport.log) = [first_update].
Proof.
  eexists. split.
  - etrans; [exact opened_reachable|].
    eapply rtc_l; [apply st_call; exact (sc_found opened_process 3 1 "import" ltac:(done) eq_refl eq_refl)|].
    eapply rtc_l; [apply st_call; eapply (sc_forwards _ 3 1 "import" (job_context sample_serving None None None None)
      (Request.PlanImport volume_document)); reflexivity|].
    eapply rtc_l; [apply st_worker; eapply (sw_receive _ 1
      (job_context sample_serving (Some (Message.Call (Request.PlanImport volume_document))) (Some 3%N) None None)
      empty_protocol); reflexivity|].
    eapply rtc_l; [apply st_worker; eapply (sw_call _ 1
      (job_context (Worker.Serving empty_protocol (Task.Calling (Request.PlanImport volume_document)))
         None (Some 3%N) None None) empty_protocol (Request.PlanImport volume_document) sample_fresh sample_machine
      import_call.1 import_call.2 import_reply false);
      [reflexivity|reflexivity|by split|exact import_called|exact import_served]|].
    eapply rtc_l; [apply st_worker; eapply (sw_reply _ 1
      (job_context (Worker.Serving plan_protocol (Task.Replying import_reply false)) None (Some 3%N) None None));
      reflexivity|].
    eapply rtc_l; [apply st_worker; eapply (sw_end _ 1
      (job_context (Worker.Serving plan_protocol (Task.Ending false)) None (Some 3%N) (Some import_reply) None));
      reflexivity|].
    eapply rtc_l; [apply st_call; eapply (sc_answer _ 3 1
      (job_context (Worker.Serving plan_protocol Task.Idle) None (Some 3%N) (Some import_reply) None)); reflexivity|].
    eapply rtc_l; [apply st_call; eapply (sc_found _ 3 1 "apply"); [done|reflexivity..]|].
    eapply rtc_l; [apply st_call; eapply (sc_starts _ 3 1 "apply"
      (job_context (Worker.Serving plan_protocol Task.Idle) None None None None) sample_fresh.(Fresh.handle) 2);
      reflexivity|].
    eapply rtc_l; [apply st_worker; eapply (sw_receive_job _ 1
      (job_context (Worker.Serving plan_protocol Task.Idle)
         (Some (Message.Apply sample_fresh.(Fresh.handle) 1)) None None (Some 1%N))); reflexivity|].
    eapply rtc_l; [apply st_worker; eapply (sw_apply _ 1
      (job_context (Worker.Serving plan_protocol (Task.Applying sample_fresh.(Fresh.handle) 1)) None None None (Some 1%N))
      plan_protocol sample_fresh.(Fresh.handle) 1 sample_fresh sample_machine job_call.1 job_call.2.1 job_call.2.2
      job_error false); [reflexivity|reflexivity|exact job_called|exact job_executed]|].
    eapply rtc_l; [apply st_worker; eapply (sw_update _ 1
      (job_context (Worker.Serving job_call.1.1 (Task.Publishing 1 job_call.2.1 job_error false)) None None None (Some 1%N))
      job_call.1.1 1 first_update (tail job_call.2.1) job_error false);
      [reflexivity|cbn [job_context Context.worker]; by rewrite <-job_updates]|].
    apply rtc_refl.
  - reflexivity.
Qed.

(** Witness of [mailbox_poll_replays], before and after the first update. *)
Lemma mailbox_poll_replays_witness :
  poll_page (mailbox waiting_process.(Transport.mailboxes) 1) 0 = Ok (EventsPage.mk [] 0 false) ∧
  ∃ st run, (mailbox st.(Transport.mailboxes) 1).(Progress.snapshot) = Some first_update.1 ∧
    shows_run first_update run ∧
    ∀ since, poll_page (mailbox st.(Transport.mailboxes) 1) since = replay run since.
Proof.
  pose proof (mailbox_poll_replays (S:=Machine) waiting_process 1 waiting_reachable) as [_ Hw].
  split; [exact (Hw 0%N)|].
  destruct job_told as (st & Hr & Hp).
  pose proof (mailbox_poll_replays (S:=Machine) st 1 Hr) as Ht. cbv zeta in Ht. rewrite Hp in Ht. simpl in Ht.
  destruct first_update as [found page].
  destruct Ht as (Hs & id & plan & protocol & document & run_id & init & states & run & _ & _ & _ & _ & _ & Hshow & Hl & Hpoll).
  exists st, run. split; [exact Hs|]. split; [|exact Hpoll].
  apply Forall2_cons_inv_l in Hshow as (run' & rest & Hrun & Hnil & ->).
  apply Forall2_nil_inv_l in Hnil as ->. by injection Hl as <-.
Defined.

(** ** The root policy *)

(** The operator repeats the review of run 42 of plan 7. *)
Definition plan_answer : Confirmation := Confirmation.mk "apply" 42 7 "digest" 99.
#[global] Instance sample_confirmations : ConfirmationCodec := {
  confirmation_of _ := Some plan_answer;
  context_value _ := Some Value.Null }.
Definition operator (past : list (Value * result Value string)) (shown : Value) : result Value string :=
  Ok Value.Null.

Definition plan_context : PolicyContext := policy_context (run_context volume_run).
Definition plan_scope : PolicyRequest := PolicyRequest.Scope ScopeCheck.Scope plan_context None srv_before.
Definition plan_approval : ApprovalRequest :=
  ApprovalRequest.mk 42 7 0 "digest" lvm_backend [TargetFingerprint.mk 100 []] (ObservationReference.mk 77 2).
Definition asked_policy : RootPolicy * list (Value * result Value string) :=
  (root_check (talking operator) 98 plan_scope (policy_with_root true, [])).1.
Definition granted_policy : RootPolicy * list (Value * result Value string) :=
  (root_check (talking operator) 99 (PolicyRequest.Authorize plan_approval (Some 100%N)) asked_policy).1.

Lemma root_policy_confirms_witness :
  ∃ review, confirmed_in granted_policy.2 review ∧ review.(PlanReview.run_id) = 42%N ∧
    review.(PlanReview.plan_id) = 7%N ∧ review.(PlanReview.digest) = "digest".
Proof.
  destruct (root_policy_confirms operator true asked_policy 99
    (PolicyRequest.Authorize plan_approval (Some 100%N)) granted_policy LiveCheckStatus.Satisfied)
    as (_ & review & Hc & Hr & Hp & Hd & _).
  - apply rtc_once. exact (rs_check operator (policy_with_root true, []) 98 plan_scope).
  - vm_compute. reflexivity.
  - reflexivity.
  - exists review. by split_and!.
Defined.

(** ** The command line *)

Definition sample_invocation : CliInvocation :=
  CliInvocation.mk (Some "/etc/dg.json") "/run/dg" (Command.Apply "plan.json" true).

Lemma invocation_roundtrip_witness :
  parse_invocation (print_invocation sample_invocation) = Ok sample_invocation.
Proof.
  apply (invocation_roundtrip sample_invocation). split.
  - intros key value Hin%list_elem_of_In. vm_compute in Hin.
    destruct Hin as [Hin|[Hin|[Hin|[Hin|[]]]]]; injection Hin as _ <-; (split; [discriminate|reflexivity]).
  - intros _. by exists "/etc/dg.json".
  - intros draft live. discriminate.
Defined.

(** Documents in memory: the text under each name and the two open files. *)
Module Disk.
Record Disk := mk { names : PathBuf → option string; reads : option PathBuf; writes : option PathBuf }.
End Disk.
Abbreviation Disk := Disk.Disk.

Definition put_name (path : PathBuf) (text : option string) (names : PathBuf → option string)
    : PathBuf → option string := λ k, if decide (k = path) then text else names k.
Definition disk_missing {A} : Sys Disk string A := sys_fail "missing".

#[global] Instance disk_files : DocumentFiles Disk := {
  open_document path d := match d.(Disk.names) path with
    | Some _ => (Disk.mk d.(Disk.names) (Some path) d.(Disk.writes), Ok tt)
    | None => disk_missing d
    end;
  document_is_file := sys_return true;
  read_document_bytes n d := match d.(Disk.reads) ≫= d.(Disk.names) with
    | Some text => if (N.of_nat (String.length text) <=? n)%N then (d, Ok text) else disk_missing d
    | None => disk_missing d
    end;
  create_new path d := match d.(Disk.names) path with
    | Some _ => sys_fail "exists" d
    | None => (Disk.mk (put_name path (Some "") d.(Disk.names)) d.(Disk.reads) (Some path), Ok tt)
    end;
  write_new text d := match d.(Disk.writes) with
    | Some path => (Disk.mk (put_name path (Some text) d.(Disk.names)) d.(Disk.reads) (Some path), Ok tt)
    | None => disk_missing d
    end;
  sync_new := sys_return tt;
  rename_new a b d := match d.(Disk.names) a with
    | Some text => (Disk.mk (put_name a None (put_name b (Some text) d.(Disk.names)))
                      d.(Disk.reads) d.(Disk.writes), Ok tt)
    | None => disk_missing d
    end;
  sync_parent _ := sys_return tt;
  remove_new path d := Disk.mk (put_name path None d.(Disk.names)) d.(Disk.reads) d.(Disk.writes);
  utf8_text _ := "invalid" }.

Lemma put_name_eq path text names : put_name path text names path = text.
Proof. unfold put_name. by rewrite decide_True. Qed.
Lemma put_name_ne path text names k : k ≠ path → put_name path text names k = names k.
Proof. intros Hk. unfold put_name. by rewrite decide_False. Qed.

#[global] Program Instance disk_laws : DocumentFileLaws Disk PathBuf := {
  entry path := path; contents d := d.(Disk.names); reading d := d.(Disk.reads); writing d := d.(Disk.writes) }.
Next Obligation.
  intros path d. unfold outcome. simpl. destruct (Disk.names d path) eqn:Hn; [done|]. simpl.
  split_and!; [done|apply put_name_eq|done|]. intros k Hk. by apply put_name_ne.
Qed.
Next Obligation.
  intros text k d Hw Hk. unfold outcome. simpl in *. rewrite Hw. simpl.
  split; [apply put_name_eq|]. intros k' Hk'. by apply put_name_ne.
Qed.
Next Obligation. done. Qed.
Next Obligation.
  intros a b d Hab. unfold outcome. simpl. destruct (Disk.names d a) as [text|] eqn:Hn; [|done]. simpl.
  split_and!; [|apply put_name_eq|].
  - rewrite put_name_ne by done. apply put_name_eq.
  - intros k Ha Hb. by rewrite !put_name_ne.
Qed.
Next Obligation. done. Qed.
Next Obligation. intros path d k Hk. by apply put_name_ne. Qed.
Next Obligation. intros path d. unfold outcome. simpl. by destruct (Disk.names d path). Qed.
Next Obligation. done. Qed.
Next Obligation.
  intros n k text d Hr Hk Hl. unfold outcome. simpl in *. rewrite Hr. simpl. rewrite Hk.
  by apply N.leb_le in Hl as ->.
Qed.

Definition empty_disk : Disk := Disk.mk (λ _, None) None None.

Lemma save_document_atomic_witness :
  let saved := (save_document 5 "draft.json" "{}" empty_disk).1 in
  saved.(Disk.names) (components "draft.json") = Some "{}" ∧ (read_document "draft.json" saved).2 = Ok "{}".
Proof.
  assert (entry (components "draft.json") ≠ entry (temporary_in (parent_of "draft.json") 5)) as Hne
    by (vm_compute; discriminate).
  pose proof (save_document_atomic 5 "draft.json" "{}" empty_disk Hne ltac:(vm_compute; reflexivity)) as Ha.
  unfold outcome in Ha.
  assert ((save_document 5 "draft.json" "{}" empty_disk).2 = Ok tt ∧
    is_ok (read_document "draft.json" (save_document 5 "draft.json" "{}" empty_disk).1).2 = true)
    as [Hok Hread] by (split; vm_compute; reflexivity).
  destruct (save_document 5 "draft.json" "{}" empty_disk) as [d [u|e]]; [|discriminate Hok].
  destruct Ha as (Hd & _ & _ & Hr). split; [exact Hd|]. cbn [fst] in *.
  destruct (read_document "draft.json" d) as [d' [text|e]]; [by subst text|discriminate Hread].
Defined.

(** The plan of the sample machine in a file. *)
#[global] Instance sample_wire_decoder : WireDecoder := {
  parse_json _ := Some Value.Null; parse_document _ := Some volume_document }.
#[global] Instance disk_terminal : Terminal Disk := {
  write_json _ := sys_return tt; write_newline := sys_return tt; flush_output := sys_return tt }.
Definition plan_disk : Disk := Disk.mk (put_name (components "plan.json") (Some "{}") (λ _, None)) None None.
Definition cli_start : (DisksGraph LinuxLiveHost * Machine) * Disk := (sample_app, plan_disk).
Definition cli_end : (DisksGraph LinuxLiveHost * Machine) * Disk :=
  (apply_command sample_fresh "plan.json" true cli_start).1.
Definition cli_value : Value :=
  sample_or Value.Null (apply_command sample_fresh "plan.json" true cli_start).2.


(** ** A native machine

    The history of its writes, the settings of its one mount context and a
    group with a volume for every creation; descriptors are absent. *)
Module Bench.
Record Bench := mk { made : list NativeWrite; context : list (string * (string + Z)) }.
End Bench.
Abbreviation Bench := Bench.Bench.

Definition bench_write (w : NativeWrite) (s : Bench) : Bench :=
  Bench.mk (s.(Bench.made) ++ [w]) s.(Bench.context).
Definition bench_set (setting : string * (string + Z)) (s : Bench) : Bench * Z :=
  (Bench.mk s.(Bench.made) (s.(Bench.context) ++ [setting]), 0%Z).

Definition bench_lv (w : NativeWrite) : option LvRaw :=
  match w with
  | Lvcreate vg lv size segments =>
      Some (LvRaw.mk (Some lv) (Some vg) (Some "lv-1") size (Some "-wi-a-----") (Some segments)
              None None None None None 0 0 0 None)
  | _ => None
  end.

#[global] Instance bench_files : ManifestFile Bench := {
  open_manifest _ := sys_return tt; manifest_is_file := sys_return true; read_manifest _ := sys_return "{}" }.
#[global] Instance bench_loader : Loader Bench unit := {
  dlopen _ := sys_return tt; exports _ _ := true; file_metadata _ _ := None }.
#[global] Instance bench_lvm : LvmPlugin Bench unit := {
  lvm_poisoned _ := false;
  bd_lvm_init _ s := (s, true);
  bd_lvm_close _ s := s;
  bd_lvm_is_tech_avail _ _ _ s := (s, (None, true));
  bd_lvm_pvs _ s := (s, (None, Some [PvRaw.mk (Some "/dev/sda1") (Some "pv-1") 536870912 1073741824 1048576
                           (Some "data") (Some "vg-1") 0]));
  bd_lvm_vgs _ s := (s, (None, Some [VgRaw.mk (Some "data") (Some "vg-1") 1073741824 536870912 4194304 1 0]));
  bd_lvm_lvs _ _ s := (s, (None, Some (omap bench_lv s.(Bench.made))));
  bd_lvm_lvcreate _ vg lv size segments s := (bench_write (Lvcreate vg lv size segments) s, (None, true));
  bd_lvm_lvactivate _ vg lv skip shared s := (bench_write (Lvactivate vg lv skip shared) s, (None, true)) }.
#[global] Instance bench_fs : FsPlugin Bench unit := {
  fs_poisoned _ := false;
  bd_fs_init _ s := (s, true);
  bd_fs_close _ s := s;
  bd_fs_is_tech_avail _ _ _ s := (s, (None, true));
  bd_fs_can_mkfs _ _ s := (s, (None, (true, 11%Z)));
  bd_fs_features _ _ s := (s, (None, Some (1048576, 0)%N));
  bd_fs_mkfs _ path fstype options s := (bench_write (Mkfs path fstype options) s, (None, true));
  bd_fs_get_fstype _ _ s := (s, (None, None));
  bd_fs_ext4_get_info _ _ s := (s, (None, None)) }.
#[global] Instance bench_mount : MountLibrary Bench unit := {
  mnt_new_context _ s := (Bench.mk s.(Bench.made) [], Some 0%N);
  mnt_free_context _ _ s := s;
  mnt_set_text _ symbol _ text := bench_set (symbol, inl text);
  mnt_set_flag _ symbol _ value := bench_set (symbol, inr value);
  mnt_context_mount _ _ s := (bench_write (ContextMount s.(Bench.context)) s, 0%Z);
  mnt_query _ _ _ s := (s, 1%Z) }.
#[global] Instance bench_descriptors : Descriptors Bench := {
  open_path _ := sys_fail "absent"; reopen _ := sys_fail "absent"; fstat _ := sys_fail "absent";
  seek_end _ := sys_fail "absent"; blksszget _ := sys_fail "absent"; blkpbszget _ := sys_fail "absent";
  read_to_string _ := sys_fail "absent"; open_directory _ := sys_fail "absent"; has_entry _ := sys_fail "absent";
  sync_all _ := sys_fail "absent"; process_id _ := 1%N; now_v7 _ := 7%N }.
#[global] Program Instance bench_laws : NativeLaws Bench unit := {
  writes := Bench.made; settings s _ := s.(Bench.context) }.
Solve All Obligations with done.
#[global] Instance bench_text : AdapterText := {
  adapter_native_text _ := "native"; lvm_write_text _ := "lvm"; filesystem_write_text _ := "filesystem";
  mount_write_text _ := "mount"; endpoint_text _ := "endpoint" }.

(** *** Its registrations *)

Definition bench_manifest (id : BackendId) : BackendManifest :=
  BackendManifest.mk id
    (Some (BackendLibrary.mk [Component.RootDir; Component.Normal "lib"] ["entry"] [])) None
    [BackendCapability.Probe; BackendCapability.Execute].
#[global] Instance bench_decoder : ManifestDecoder :=
  λ _, Ok (BackendManifests.mk 1 (bench_manifest <$> "filesystems" :: stack_ids)).
#[global] Instance bench_startup : Startup Bench := {
  real_ids _ := (0, 0)%N; effective_ids _ := (0, 0)%N; open_execution_root := sys_return tt;
  registry_text _ := "registry" }.

Definition bench : Bench := Bench.mk [] [].
Definition bench_registry : BackendRegistry unit :=
  default ∅ (sample_or None (configuration (Some [Component.RootDir]) bench).2).
Definition bench_dispatcher : NativeDispatcher unit :=
  NativeDispatcher.mk bench_registry "lvm" "filesystems" "libmount-mounts".

Definition opened_registry (opened : result (option (BackendRegistry unit)) OpenError) : bool :=
  match opened with Ok (Some _) => true | _ => false end.
Lemma bench_opens : opened_registry (configuration (Some [Component.RootDir]) bench).2 = true.
Proof. vm_compute. reflexivity. Qed.

(** Witness of [configuration_sound]: the whole stack is registered. *)
Lemma configuration_sound_witness : configured [Component.RootDir] bench_registry.
Proof.
  assert (∀ (m : Bench → Bench), m = id → ∀ w, w = bench → m w = bench) as Hid by (intros m -> w Hw; exact Hw).
  pose proof (configuration_sound (λ s, s = bench) (Some [Component.RootDir]) bench
    (Hid id eq_refl) (Build_reading_keeps _ (λ _, Hid id eq_refl) (Hid id eq_refl) (λ _, Hid id eq_refl))
    (λ _ _, Hid id eq_refl) eq_refl) as Hsound.
  pose proof bench_opens as Hopen. unfold bench_registry. revert Hsound Hopen.
  generalize (configuration (Some [Component.RootDir]) bench). intros [s [[registry|]|e]]; try discriminate.
  intros (_ & _ & path & [= <-] & Hconf) _. exact Hconf.
Defined.

(** *** A volume is created *)

Definition bench_target : ResolvedTarget := ResolvedTarget.mk 1 2 "vg-1" "data".
Definition bench_action : ResolvedAction :=
  ResolvedAction.mk 1 0 (ProviderAction.Lvm (LvmAction.CreateLv 1 3 "home" 8388608 LvmLvKind.Linear)) "lvm"
    (ObservationReference.mk 1 1) bench_target None None.

Definition bench_receipt : ExecutionReceipt := succeeded (Some "lv-1") None.
Lemma bench_dispatched : (dispatcher_execute bench_dispatcher bench_action bench).2 = Ok bench_receipt.
Proof. vm_compute. reflexivity. Qed.

(** Witness of [native_dispatch_admitted]: one linear creation, read back. *)
Lemma native_dispatch_admitted_witness :
  ∃ adapter, routed bench_dispatcher adapter ∧
    recipe_evidence adapter bench_action bench_receipt (Lvcreate "data" "home" 8388608 "linear") [].
Proof.
  pose proof (native_dispatch_admitted bench_dispatcher bench_action bench) as Hd.
  pose proof bench_dispatched as Hr. revert Hd Hr.
  generalize (dispatcher_execute bench_dispatcher bench_action bench). intros [s r] Hd Hr.
  change (r = Ok bench_receipt) in Hr. subst r.
  destruct Hd as (adapter & w & (Hroute & _ & _ & library & request & _ & Hreq & -> & _) & He).
  exists adapter. split; [exact Hroute|]. injection Hreq as <-. exact He.
Defined.

Definition bench_observation : LiveObservation := srv_before.
Lemma bench_available :
  (dispatcher_availability bench_dispatcher bench_action.(ResolvedAction.operation) bench_observation bench).2 =
  OperationAvailability.Available "lvm".
Proof. vm_compute. reflexivity. Qed.

(** Witness of [native_availability_routed]. *)
Lemma native_availability_routed_witness : "lvm" = dispatcher_backend_for bench_dispatcher bench_action.(ResolvedAction.operation).
Proof.
  pose proof (native_availability_routed bench_dispatcher bench_action.(ResolvedAction.operation)
    bench_observation bench) as Ha.
  pose proof bench_available as Hr. revert Ha Hr.
  generalize (dispatcher_availability bench_dispatcher bench_action.(ResolvedAction.operation)
    bench_observation bench). intros [s answer] (_ & Ha) Hr.
  exact (proj1 (Ha "lvm" Hr)).
Defined.

(** Witness of [dm_identity_unambiguous]: with and without hyphens. *)
Definition hyphenated_id : string := "aaaaaa-bbbb-cccc-dddd-eeee-ffff-gggggg".
Definition plain_id : string := "aaaaaabbbbccccddddeeeeffffgggggg".
Lemma dm_identity_unambiguous_witness :
  without_hyphens hyphenated_id = without_hyphens plain_id ∧
  without_hyphens plain_id = without_hyphens hyphenated_id.
Proof.
  apply (dm_identity_unambiguous hyphenated_id plain_id plain_id hyphenated_id
    ("LVM-" +:+ plain_id +:+ plain_id)); vm_compute; reflexivity.
Defined.

(** Witness of [validated_backends_registered]. *)
Lemma validated_backends_registered_witness :
  ∃ manifests registry, (read_manifests [Component.RootDir] bench).2 = Ok manifests ∧
    (load_from [Component.RootDir] bench).2 = Ok registry ∧
    ∀ manifest, manifest ∈ manifests.(BackendManifests.backends) → registers registry manifest.
Proof.
  assert (stable_machine (S:=Bench) (L:=unit)) as Hstable by (split; intros; reflexivity).
  apply (validated_backends_registered Hstable [Component.RootDir] bench bench);
    [reflexivity|vm_compute; reflexivity].
Defined.
