(* ===== verification/ProbeExamples.v ===== *)
(** * A pass over a small machine

    Backends of a disk with one partition that is the member of an MD array with
    a mounted Btrfs file system, and providers that disagree: witnesses for the
    theorems about the probe, and a member no endpoint lists. *)

From S2P Require Import Prelude Model Reach Graph GraphOrder GraphValid State Observe Json Correlate.
From S2P Require Import Recipes Scope Bindings Native ProbeNames ProbeBlock.
From S2P Require Import ProbeTopology Lsblk Targets Assemble ProbeProps.
From S2P Require Import NativeLayers AssembleProps Checkpoint Registry Adapters.

#[local] Open Scope string_scope.
#[local] Open Scope list_scope.

#[local] Instance probe_uuids : UuidText := {| parse_uuid := λ _, None; hyphenated := λ _, "id" |}.
#[local] Instance probe_texts : ProbeText :=
  {| debug_path := λ path, path; debug_node := λ _, "node"; luks_error_text := λ _, "error" |}.

(** ** The machine *)

(** A loaded library; with [true], libblkid still has a device in its cache
    that is gone. *)
Abbreviation Handle := bool (only parsing).

#[local] Instance machine_loader : Loader unit Handle :=
  {| dlopen := λ _ s, (s, Err tt); exports := λ _ _, true; file_metadata := λ _ _, None |}.
#[local] Instance machine_text : NativeText := λ _, "native error".

Definition raw_device (name devtype minor : string) : UdevDeviceRaw :=
  UdevDeviceRaw.mk (Some ("/dev/" +:+ name)) (Some name) (Some devtype)
    (λ key, (list_to_map [("MAJOR", "8"); ("MINOR", minor); ("DEVLINKS", "/dev/disk/by-id/a  /dev/disk/by-path/b");
                          ("ID_MODEL", " Model ")] : gmap string string) !! key)
    (λ key, (list_to_map [("size", "2048"); ("queue/logical_block_size", "512"); ("ro", "0")] : gmap string string)
              !! key).
Definition raw_devices : gmap string UdevDeviceRaw :=
  list_to_map [("/sys/sda", raw_device "sda" "disk" "0"); ("/sys/sda1", raw_device "sda1" "partition" "1");
               ("/sys/md127", raw_device "md127" "disk" "2")].

#[local] Instance machine_udev : UdevLibrary Handle := {|
  udev_new := λ _, true;
  udev_enumerate_new := λ _, true;
  udev_enumerate_add_match_subsystem := λ _ _, 0%Z;
  udev_enumerate_scan_devices := λ _, 0%Z;
  udev_enumerate_list := λ _, [Some "/sys/sda"; None; Some "/sys/sda1"; Some "/sys/gone"; Some "/sys/md127"];
  udev_device_new_from_syspath := λ _ syspath, raw_devices !! syspath |}.

#[local] Instance machine_udev_laws : UdevLaws Handle.
Proof.
  intros library syspath device node Hd Hn. change (raw_devices !! syspath = Some device) in Hd.
  apply elem_of_list_to_map_2 in Hd.
  repeat (apply elem_of_cons in Hd as [[= -> ->]|Hd]); [..|by apply elem_of_nil in Hd];
    injection Hn as <-; by vm_compute.
Qed.

(** Only the disk can be opened; the second entry of its table is null. *)
#[local] Instance machine_fdisk : FdiskLibrary Handle := {|
  fdisk_new_context := λ _, true;
  fdisk_assign_device := λ _ path _, if bool_decide (path = "/dev/sda") then 0%Z else (-13)%Z;
  fdisk_get_label := λ _ _, Some (Some "gpt");
  fdisk_get_partitions := λ _ _, (0%Z, Some [Some (FdiskPartitionRaw.mk 0 34 1024 None None None 0); None]);
  fdisk_get_sector_size := λ _ _, 512%N |}.

#[local] Instance machine_blkid : BlkidLibrary Handle := {|
  blkid_get_cache := λ _, (0%Z, true);
  blkid_probe_all := λ _, 0%Z;
  blkid_dev_iterate := λ stale, Some
    ([Some (BlkidDevRaw.mk (Some "/dev/sda1") (Some [(Some "TYPE", Some "linux_raid_member")])); None;
      Some (BlkidDevRaw.mk (Some "/dev/md127") (Some [(Some "TYPE", Some "btrfs"); (Some "UUID", Some "fs")]))] ++
     if (stale : bool) then [Some (BlkidDevRaw.mk (Some "/dev/sdz1") (Some [(Some "TYPE", Some "linux_raid_member")]))]
     else []) |}.

#[local] Instance machine_mdraid : MdraidLibrary Handle := {|
  bd_md_init := λ _, 1%Z;
  bd_md_detail := λ _ _, Some (DetailRaw.mk None (Some "raid1") 1048576 1 1 1 1 0 0 1 (Some "aa:bb"));
  bd_md_examine := λ _ _, Some (ExamineRaw.mk None 1 1048576 (Some "AABB") 0 None 0 None 0);
  bd_md_get_status := λ _ _, None;
  bd_md_get_bitmap_location := λ _ _, None |}.

Definition machine_array : MdraidArrayEntry :=
  MdraidArrayEntry.mk "/dev/md127" "raid1" None (Some "aa:bb") 1048576 1 1 1 1 0 0 true None None.
Definition machine_member (device : Path) : MdraidMemberEntry :=
  MdraidMemberEntry.mk device None (Some "AABB") None None 0 1 1048576 0 0.
Definition machine_filesystem : BtrfsFilesystemEntry :=
  BtrfsFilesystemEntry.mk "/dev/md127" "fs" (Some "data") 1 0 [BtrfsDeviceEntry.mk 1 "/dev/md127" 1048576 0].

(** The other libraries. *)
Definition machine_others : LibraryProbes (L := Handle) := {|
  library_udev := λ _, Ok [];
  library_fdisk := λ _ _, Ok [];
  library_blkid := λ _, Ok [];
  library_cryptsetup := λ _ _, Ok [];
  library_devmapper := λ _, Err NativeProbeError.LibraryRequired;
  library_loop := λ _ _, Ok [];
  library_swap := λ _ _, Ok [];
  library_multipath := λ _, Ok (MultipathEntry.mk []);
  library_mdraid := λ _ _ _, Ok (MdraidEntry.mk [] []);
  library_lvm := λ _, Ok (LvmEntry.mk [] [] []);
  library_btrfs_filesystems := λ devices _,
    Ok (List.filter (λ f, existsb (λ d, bool_decide (components d.(BtrfsDeviceEntry.path) ∈ devices))
                            f.(BtrfsFilesystemEntry.devices)) [machine_filesystem]);
  library_libmount := λ _, Ok [LibmountEntry.mk "/dev/md127" "/srv" "btrfs" ["rw"];
                               LibmountEntry.mk "/dev/sdz9" "/mnt" "ext4" ["rw"]];
  library_btrfs := λ _ _, Ok [BtrfsEntry.mk "/srv" [BtrfsSubvolumeEntry.mk 256 "home" false false]];
  library_zfs := λ _, Err NativeProbeError.LibraryRequired;
  library_nvme := λ _, Ok (NvmeEntry.mk []) |}.

Definition machine_system (stale : Handle) : NativeSystem Handle :=
  let backend := RegisteredBackend.mk (BackendManifest.mk "backend" None None []) []
    (LoadedBackendAccess.Library (LoadedLibrary.mk stale [])) in
  NativeSystem.mk backend backend backend backend backend backend backend backend backend backend backend
    backend backend backend backend.
Abbreviation machine stale := (discovery_backends machine_others (machine_system stale)) (only parsing).

(** What the adapters make of the answers: links and names are split and
    trimmed, null entries are skipped, and numbers count from one. *)
Example machine_discovery :
  (∃ disk partition array, @probe_udev_blocks (machine false) = Ok [disk; partition; array] ∧
     disk.(UdevBlockEntry.aliases) = ["/dev/disk/by-id/a"; "/dev/disk/by-path/b"] ∧
     disk.(UdevBlockEntry.model) = Some "Model" ∧ disk.(UdevBlockEntry.logical_block_size) = Some 512%N) ∧
  @probe_fdisk_partitions (machine false) ["/dev/sda"; "/dev/md127"] =
    Ok [FdiskTable.mk "/dev/sda" (Some "gpt") 512 [FdiskPartition.mk 1 34 1024 None None None false]] ∧
  @probe_mdraid (machine false) ["/dev/md127"] ["/dev/sda1"] =
    Ok (MdraidEntry.mk [machine_array] [machine_member "/dev/sda1"]).
Proof. split_and!; [eexists _, _, _; split_and!|..]; by vm_compute. Qed.

(** The pass succeeds; the missing backends and the unknown mount are reported. *)
Example machine_pass (stale : Handle) :
  match @probe_system _ (machine stale) _ with
  | Ok state => size state.(ProviderState.graph).(NodeGraph.nodes) = 7%nat ∧
                length state.(ProviderState.graph).(NodeGraph.dependencies) = (if stale then 8 else 7)%nat ∧
                length state.(ProviderState.diagnostics) = 3%nat
  | Err _ => False
  end.
Proof. destruct stale; vm_compute; auto. Qed.

(** Witness of [native_state_joined]: the device that is gone is the one loose
    end. *)
Lemma native_state_joined_witness :
  match @probe_system _ (machine true) _ with
  | Ok state => joined_but (@unlisted_member (machine true)) (@unasked_filesystem (machine true))
                  state.(ProviderState.graph)
  | Err _ => False
  end.
Proof.
  destruct (@probe_system _ (machine true) _) as [state|] eqn:Hpass.
  - exact (proj1 (native_state_joined machine_others (machine_system true) state Hpass)).
  - pose proof (machine_pass true) as Hok. rewrite Hpass in Hok. exact Hok.
Defined.

(** Whether a graph is joined, decided. *)
Definition known_node (g : NodeGraph) (id : NodeId) : bool := bool_decide (is_Some (g.(NodeGraph.nodes) !! id)).
Definition is_joined (g : NodeGraph) : bool :=
  forallb (λ d, known_node g d.(Dependency.from_) && known_node g d.(Dependency.to)) g.(NodeGraph.dependencies) &&
  forallb (λ r, known_node g r.(Relation.from_) && known_node g r.(Relation.to)) g.(NodeGraph.relations).

Lemma is_joined_joined g : is_joined g = true → joined g.
Proof.
  unfold is_joined, known_node. intros [Hd Hr]%andb_prop. rewrite forallb_forall in Hd, Hr. split.
  - intros d [Hf Ht]%list_elem_of_In%Hd%andb_prop. by apply bool_decide_eq_true in Hf, Ht; split; left.
  - intros r [Hf Ht]%list_elem_of_In%Hr%andb_prop. by apply bool_decide_eq_true in Hf, Ht; split; left.
Qed.

(** The loose end is there. *)
Example machine_stale :
  match @probe_system _ (machine true) _ with
  | Ok state => is_joined state.(ProviderState.graph) = false
  | Err _ => False
  end.
Proof. by vm_compute. Qed.

(** A member udev does not list: the array of the machine, without its disk. *)
Lemma md_member_unlisted_witness :
  validate_structure
    (enrich_mdraid (MdraidEntry.mk [machine_array] [machine_member "/dev/sdz1"]) graph_new).1 ≠ Ok tt.
Proof.
  apply (md_member_unlisted _ _ (machine_member "/dev/sdz1")).
  - left.
  - by vm_compute; eexists.
  - intros [? Hn]. discriminate Hn.
  - intros a ->%list_elem_of_singleton. by vm_compute.
Defined.

(** ** Recorded output *)

Definition lsblk_disk : LsblkDevice :=
  let device name type fstype pttype children :=
    LsblkDevice.mk name None None 1048576 type None None None None fstype None None pttype None None None None None
      children in
  device "sda" "disk" None (Some "gpt") [device "sda1" "part" (Some "ext4") None []].

(** Witness of [recorded_graph_joined]: a mounted partition. *)
Lemma recorded_graph_joined_witness :
  let state := assemble_linux_block_state [lsblk_disk] None
    (Some [FilesystemEntry.mk "/srv" "/dev/sda1" "ext4" (Some "rw,noatime") None]) in
  size state.(ProviderState.graph).(NodeGraph.nodes) = 4%nat ∧
  joined state.(ProviderState.graph) ∧
  has_node state.(ProviderState.graph) (content_node_id "/dev/sda1").
Proof.
  split; [by vm_compute|].
  destruct (recorded_graph_joined [lsblk_disk] None
    (Some [FilesystemEntry.mk "/srv" "/dev/sda1" "ext4" (Some "rw,noatime") None])) as [Hj Hm].
  split; [exact Hj|]. eapply Hm; [left|by vm_compute].
Defined.

(** ** Providers that disagree *)

Definition group_node (name : string) : Node := plain_node (NodeKind.LvmVg name None) (Some 1024%N) [].
Definition group_record : LvmVgObservation :=
  LvmVgObservation.mk 7 (LvmVgEntry.mk "vg" "uuid" 1024 4 512 1 false).

(** It reports a group under an identity, and its capacity. *)
Definition reporting (id responsibility : string) (node : NodeId) (name : string) : StateProvider :=
  StateProvider.mk id responsibility ProviderConnectionKind.BuiltIn
    (Ok (ProviderState.mk (NodeGraph.mk {[node := group_node name]} [] []) []
           [LvmVgObservation.mk node (LvmVgEntry.mk name "uuid" 1024 4 512 1 false)] None [])).
Definition failing (id responsibility : string) : StateProvider :=
  StateProvider.mk id responsibility ProviderConnectionKind.Process
    (Err (ProviderProbeError.mk "probe.failed" "no access")).

(** Two disagree about node 7, agree about node 8 and two claim one
    responsibility. *)
Definition disagreeing : list StateProvider :=
  [reporting "a" "lvm" 7 "vg"; reporting "b" "other" 7 "renamed"; reporting "c" "third" 8 "vg2";
   failing "d" "network"; failing "e" "shared"; reporting "f" "shared" 9 "vg3"].

Lemma disagreeing_contested : contested (consulted disagreeing) 7.
Proof.
  exists (group_node "vg"), (group_node "renamed").
  split_and!; [vm_compute; repeat constructor|vm_compute; repeat constructor|done].
Qed.

Example disagreeing_records : (probe_with_observations disagreeing).2 =
  [LvmVgObservation.mk 8 (LvmVgEntry.mk "vg2" "uuid" 1024 4 512 1 false)].
Proof. by vm_compute. Qed.

(** Witness of [assembled_state_spec]: the first report of node 7 stands, and its
    capacity is withheld. *)
Lemma assembled_state_spec_witness :
  let '(state, records) := probe_with_observations disagreeing in
  state.(CurrentState.graph).(NodeGraph.nodes) !! 7%N = Some (group_node "vg") ∧
  group_record ∉ records ∧ records ≠ [].
Proof.
  pose proof disagreeing_records as Hrecords.
  destruct (probe_with_observations disagreeing) as [state records] eqn:Hp.
  destruct (assembled_state_spec disagreeing state records Hp) as [Hn Hr]. split_and!.
  - rewrite Hn. by vm_compute.
  - intros [Hno _]%Hr. apply Hno, disagreeing_contested.
  - simpl in Hrecords. by rewrite Hrecords.
Defined.

(** Witness of [assembly_diagnoses]: the disagreement, the failed provider and
    the shared responsibility are in the state. *)
Lemma assembly_diagnoses_witness :
  let '(state, _) := probe_with_observations disagreeing in
  (∃ d, d ∈ state.(CurrentState.diagnostics) ∧ mentions_conflict 7 d) ∧
  provider_failure (failing "d" "network") (ProviderProbeError.mk "probe.failed" "no access")
    ∈ state.(CurrentState.diagnostics).
Proof.
  destruct (probe_with_observations disagreeing) as [state records] eqn:Hp.
  destruct (assembly_diagnoses disagreeing state records Hp) as [Hc Hd].
  split; [apply Hc, disagreeing_contested|].
  refine (proj2 (Hd (failing "d" "network") _) _); [unfold disagreeing; repeat constructor|].
  apply consulted_elem. split; [unfold disagreeing; repeat constructor|by vm_compute].
Defined.

(** Witness of [assembled_graph_joined]: the machine's pass and the mounts. *)
Lemma assembled_graph_joined_witness :
  joined (probe_current
    [StateProvider.mk "native" "storage" ProviderConnectionKind.BuiltIn (@probe_system _ (machine false) _);
     StateProvider.mk "libmount" "mounts" ProviderConnectionKind.BuiltIn (@probe_mounts (machine false))])
    .(CurrentState.graph).
Proof.
  apply assembled_graph_joined.
  intros p c [->|[->|[]%elem_of_nil]%elem_of_cons]%elem_of_cons; unfold contribution; cbn [StateProvider.answer].
  - assert (match @probe_system _ (machine false) _ with
            | Ok state => is_joined state.(ProviderState.graph) = true | Err _ => False end) as Hj
      by (vm_compute; reflexivity).
    destruct (@probe_system _ (machine false) _) as [state|]; [|done]. intros [= <-]. by apply is_joined_joined.
  - intros [= <-]. exact joined_empty.
Defined.
